(* ===== verification/_CoqProject ===== *)
-Q . S2P
Prelude.v
GoLib.v
Normalize.v
Planner.v
PlannerValidate.v
PlannerState.v
PlannerSkip.v
Sha1.v
ExecutionTask.v
RunState.v
Coordinator.v
RunStore.v
ExecutionGraph.v
PlanExecutor.v
RunFinalizer.v
ModelRouter.v
EventBus.v
ResourceScope.v
ApprovalPolicy.v
Approval.v
GrantStore.v
ApprovalTimeout.v
GoText.v
TextTrim.v
GoClock.v
ListStore.v
ToolPolicy.v
PolicyChain.v
AuditDelivery.v
ChannelSend.v
ChannelGuards.v
ChannelPolicy.v
DevicePayload.v
DevicePairing.v
ResultModel.v
Automation.v
CronSchedule.v
CronService.v
Wakeup.v
Watch.v
AutoReply.v
GoFloat.v
GoSort.v
ContextBudget.v
ContextMessages.v
ContextEstimate.v
ContextSummary.v
ContextPinned.v
AgentMemory.v
SegmentStore.v
SegmentRollup.v
SessionState.v
Identifiers.v
ContextCompact.v
SegmentSearch.v
ContextRecall.v
SkillPrompt.v
ContextPrepare.v
Summarizer.v
DMPairing.v
ModelRetry.v
WorkflowState.v
WorkflowBudget.v
WorkflowContinuation.v
Hooks.v
HookExecutor.v
HookSync.v
ReloadGraph.v
RefreshTransaction.v
RefreshDomains.v
TextDiff.v
TextHunks.v
TextPatch.v
