(* ===== verification/Prelude.v ===== *)
(** * HopClaw: a verification development

    HopClaw is an agent gateway: messages arrive on channels, each becomes a run
    of a session, the agent plans the run into tasks, executes the tasks with
    models and tools under an approval policy, and publishes what happens on an
    event bus.  Beside the runs that people ask for there are automatic ones:
    scheduled jobs, wake-ups and watches.  This development models the core logic of that program, as
    executable functions on the program's own data, and proves what makes it
    correct.  Code is translated function by function from the Go sources;
    stateful objects become records and each method becomes a function that
    returns the new state; errors are values of an option or a sum; [time.Now],
    the order in which Go ranges over a map, and callbacks are arguments.

    ** Files and the code they model

    - [Prelude]: tactics and list and map lemmas that every file uses.
    - [GoLib]: what the sources use of Go's language and standard library:
      [strings.TrimSpace] on UTF-8 bytes, 64-bit wrap-around, times and
      durations, dynamic values, prefix search; Unicode case folding is the
      class [GoUnicode] with its laws and an ASCII instance.
    - [Normalize]: [internal/support/normalize/normalize.go].
    - [Planner], [PlannerValidate], [PlannerState], [PlannerSkip]:
      [planner/types.go], [planner/validate.go], [planner/state.go] and the
      fallback plan of [planner/prompt.go]: plans, validation, the task state
      machine, the ready set and failure propagation.
    - [Sha1], [ExecutionTask], [ExecutionGraph]: [agent/execution_graph.go]: the
      execution graph that mirrors a plan, conflicts of tasks and the selection
      of the batch that runs in parallel; idempotency keys use an executable
      SHA-1.
    - [RunState]: [internal/domain/runstate/runstate.go], [agent/run_transition.go]:
      the run state machine and [transitionRun].
    - [Coordinator]: the session queues of [agent/memory.go], as an instance of
      a class that states what the agent relies on.
    - [RunStore]: the in-memory run store of [agent/memory.go] with the scope
      filter of [agent/types.go].
    - [PlanExecutor]: the bookkeeping of [agent/plan_executor.go]: applying the
      results of a batch, failing, cancelling and requeueing tasks.
    - [RunFinalizer]: [agent/run_finalizer.go], on top of the store, the
      coordinator, the plan executor and the run state machine.
    - [ModelRouter]: [modelrouter/router.go], [modelrouter/backoff.go],
      [modelrouter/classifier.go].
    - [EventBus]: [eventbus/bus.go].
    - [ResourceScope], [ApprovalPolicy], [Approval], [GrantStore],
      [ApprovalTimeout]: the [approval] package ([resource_scope.go],
      [scope_policy.go], [store.go], [scope.go], [timeout.go]) with
      [internal/domain/governance/decision.go] and the policy metadata of
      [agent/approval_flow.go].
    - [GoText], [TextTrim], [GoClock], [ListStore]: more of Go's library
      ([strings.Fields], quoting, regular expressions, number parsing, the
      calendar and the text of durations) and the slice-of-items stores that
      three services share.
    - [ToolPolicy], [PolicyChain]: the [policy] package ([policy.go],
      [blocked_commands.go], [safe_commands.go], [chain.go]) with the tool
      normalization of [toolspec/types.go], on top of the grant store.
    - [AuditDelivery]: [audit/delivery.go].
    - [ChannelSend], [ChannelGuards], [ChannelPolicy]: the helpers of the
      [channels] package ([chunk.go], [send_retry.go], [dedupe.go],
      [status_gate.go], [policy.go], [group_policy.go], [thread_binding.go]).
    - [DevicePayload], [DevicePairing]: the [deviceauth] package: payloads,
      tokens, the device store, pairing and request authentication.
    - [DMPairing]: [channels/pairing] and [channels/feishu/pairing.go].
    - [ResultModel]: [resultmodel/types.go], [resultmodel/automation.go].
    - [Automation]: [automation/runner.go], [automation/types.go].
    - [CronSchedule], [CronService]: the [cron] package; [Wakeup]: the [wakeup]
      package; [Watch]: [watch/service.go] with its store.  The three use the
      schedules, the runner and the results above; the service of a watch also
      uses the back-off of cron.
    - [AutoReply]: the [autoreply] package except its reply tokens.
    - [GoFloat], [GoSort]: [float64] arithmetic on the standard library's
      floating-point numbers, and [sort.SliceStable] with what it needs of a
      comparison.
    - The [contextengine] package, which turns a session into a model request:
      [ContextBudget] ([budget.go]), [ContextMessages] and [ContextEstimate]
      (messages, their window, repair and trimming, the token estimator),
      [ContextSummary] (summaries and cutting texts), [ContextPinned] and
      [AgentMemory] (pinned facts, and [agent/kvstore.go] behind the class of
      memories), [SegmentStore], [SegmentRollup], [SegmentSearch] and
      [SessionState] (the tables of [store/sqlite_segment.go],
      [sqlite_episode.go] and [sqlite_state.go] with the roll-ups of
      [segment_rollup.go]), [Identifiers] and [Summarizer] ([summarizer.go]),
      [ContextCompact] ([engine_compaction.go], [precompact_flush.go]),
      [ContextRecall] ([engine_recall.go]), [SkillPrompt] (the skill parts of
      [engine_prompt.go] with [text_tokens.go] and [skill/prompt.go]) and
      [ContextPrepare] ([engine_prepare.go], which calls all of them).
    - [ModelRetry]: [agent/retry.go], on top of the model router.
    - [WorkflowState], [WorkflowBudget], [WorkflowContinuation]:
      [agent/workflow_state.go], [workflow_budget.go], [workflow_yield.go] and
      [runtime/workflow_continuation.go]: the budget of a workflow, its circuit
      breaker, and the runs that continue a run which yielded.
    - [Hooks], [HookExecutor], [HookSync]: the [hooks] package, with
      [internal/domain/scope/parse.go] and the hook plan of
      [bootstrap/plugin_refresh_transaction.go].
    - [ReloadGraph], [RefreshTransaction], [RefreshDomains]:
      [bootstrap/reload_graph.go], [channel_runtime_diff.go],
      [runtime_transaction_domains.go], [effective_config_transaction.go],
      [effective_config_execution.go], [controlplane_runtime_apply.go] and the plan
      of [effective_config.go]: what a change of the configuration rebuilds, the
      protocol of domains with the models and the channels, and all the domains
      with applying, committing and rolling back the change.
    - [TextDiff], [TextHunks], [TextPatch]: [toolruntime/diff.go] and
      [toolruntime/patch.go]: the shortest edit script between two texts, its
      unified diff, and reading and applying such a diff.

    ** What the theorems show

    - Planning: validation establishes well-formed plans and is idempotent on
      them; every operation on a plan moves tasks only along the task state
      machine and keeps the set of running tasks exact; failure propagation
      reaches exactly the tasks that depend on a failed or skipped task and,
      for an acyclic plan, leaves a ready task, a running one or a terminal
      plan; the fallback plan is executable.
    - Execution: the graph mirrors the plan; a selected batch consists of ready
      tasks that do not conflict, the first one among them; the results of a batch are
      applied fail-fast; the end of a run ends its plan; requeueing is exact.
    - Runs: the transition table has the shape the agent relies on;
      [transitionRun] obeys it; sessions run one run at a time, in order of
      arrival; the store finds what was created, a queued run is claimed by one
      caller only, pruning removes exactly the old terminal runs; finalizing a
      run ends the run with its error and time, its plan and its place in the queue.
    - Models: the selected profile is compatible and the best one when the
      comparator is an order; failures open a cooldown or disable window that
      excludes the model until it ends; back-off durations.
    - Events: the history is the most recent events; a reader that follows
      cursors gets every retained event once and is told when it missed some;
      every published event is received, waiting or counted as dropped.
    - Approvals: at most one pending ticket per run, verdicts are final, an
      approval is never broader than its policy; the grant store implements the
      history of grants and revocations, denials first; a path grant other than the
      root covers exactly what lies below it; a sweep cancels, warns and forces exactly what it should.

    - Tool policy: a tool call is allowed under exactly the stated conditions;
      every approval that is asked for can be answered; a chain of engines
      decides as its strictest layer, and its approval policy is no broader
      than that of any layer that asks.
    - Audit delivery: a delivered event is never sent again, an undelivered one
      is retried with the exponential back-off until its attempts are used up;
      processing what is due returns.
    - Channels: splitting loses no text and respects the limit; retries follow
      their policy; the de-duplicator implements the set of recent messages,
      also across a restart; gates, access policy and thread bindings.
    - Devices: payloads and tokens round-trip; a request is authenticated under
      exactly the stated conditions; a pairing code is used at most once; a user
      of direct messages is verified only after a code issued for this user was
      presented in time, with either store, when channels have no colon.
    - Automation: normalizing results is idempotent; the runner waits for the
      end of a run; the next run of a schedule is the next one; stores behave
      as maps; a firing of a timer runs exactly what is due; failing jobs back
      off and are switched off; watches run on changes only;
      timers wake when something is due; of merged wake-ups the most important
      one survives.
    - Automatic replies: the best eligible rule answers; replies keep the
      cool-down and the hourly limit; templates are expanded once.

    - Context: the budget of a request is handed out to the last token; the
      messages of a request fit it, keep their order and have a reply for every
      tool call; compacting a session keeps the recent messages, stores every
      message it discards in exactly one segment unless a hook fails after it, and turns annotated signals into
      state; roll-ups cover eight segments each and end; searching returns the
      best segments of the session; the receipt of a recall accounts for every
      hit, its injected hits are the text of the prompt, and it does not depend on
      the order of a map; the skill prompt holds the
      skills of the highest priority that fit and cannot be forged by a name;
      summarizing calls the model a bounded number of times and survives its
      failures.

    - Model retries: a retried call ends after a bounded number of requests and
      sends exactly the requests it should; the waits stay within their bounds.
    - Workflows: a round runs exactly when the budget and the circuit breaker
      allow it; a chain of continuations is bounded whatever its runs do.
    - Hooks: an event fires the matching hooks in the order of their priority and
      a failing hook of the pre phase stops the rest; the ring of results is the
      list of the most recent ones; hooks declared by modules are merged into
      the store exactly, and a refresh of them is all or nothing.
    - Refreshes: every set of changed sections has a valid plan with exactly the
      affected stages; a refresh whose result is not valid is undone in every part
      of the application, and a refresh that fails while it is applied is not.
    - Texts: comparing texts returns a shortest edit script, and a difference can be
      applied in both directions, whatever the lines are but for three cases that
      are stated.

    A few theorems record behaviour that the sources did not intend: a cyclic
    plan passes validation, pruning forgets the event of a live run, a
    background failure of a queued run leaves it queued, a cyclic profile order,
    a negative cooldown after twenty-one failures, and a denial that a call
    evades by naming a second resource; a blocked command behind a safe prefix
    runs; channel validation accepts everything; threads of different chats
    share a session; bindings and pairing codes collide; scopes come from the
    request; a stranger confirms his own pairing code; a missed job may run twice and a job in back-off keeps the cron
    loop spinning; a change whose run fails is lost; a failed start of the
    wake-up service sticks and a failed change of a trigger is kept; long
    cool-downs are forgotten, hourly limits do not roll; tool results
    without a transcript change with every normalization; times stored as text
    are misordered; trimmed texts exceed their limits; a failing hook after a
    compaction makes the next one store the same messages again; the limit of a
    summary undoes its quality guard; synthetic replies are added after a
    request was trimmed to its budget; a failover of the last attempt is never
    tried; steady progress opens the circuit breaker; a filter cannot compare
    with a value that contains an operator; a hook with a padded trigger never
    fires; a failed refresh keeps what it applied, a rollback leaves the
    restored channels disconnected, and a committed refresh leaves the gateway with
    the services of before; two checks of a watch that overlap hand over a change
    twice; a grant of the root covers nothing below it; a task is skipped although
    one of its dependencies completed; the difference of texts with SQL comments or
    carriage returns cannot be applied.

    ** Bounds and fuel

    The functions are structurally recursive except failure propagation, which
    iterates to a fixed point with the number of tasks plus one as fuel; each
    round that changes the plan skips at least one task, so the fuel is enough,
    which is part of the theorem.  Following a cursor takes a number of pages;
    the number of new events is enough.  Processing due deliveries has the
    attempts that remain as fuel, splitting a text its length; both are enough
    by theorem.  The runner polls until the context of the caller expires, so
    the number of polls until then is its fuel.  Trimming messages has their
    number as fuel and every round drops one, rolling up segments has the number
    of segments without a parent, decoding and matching a text its length.  The
    rounds of a comparison of texts are bounded by the number of lines, reading a
    patch by its lines, a retried call by its attempts and two more rounds; all are
    enough by theorem.  Counters are 64-bit: the theorems
    about generated identifiers assume fewer than 2^64 of them.  Integers that
    Go keeps in [int] or [time.Duration] wrap where the sources do arithmetic
    on them.

    ** What is not modelled

    Calls of model services, tools and channels, the HTTP and WebSocket
    servers, most of the persistence in SQL, configuration and the user
    interfaces.  Of the modelled packages: JSON repair of plans, the payloads
    of task outcomes, hooks and event attributes of finalized runs, metrics,
    the collection of a resource scope from a tool call's input, whose result
    is an argument, pairing by signatures, the drivers of watched sources, the
    parser of cron expressions and the database of time zones, which are
    classes, the digests of large tool outputs, the calibrated token estimator
    and the index of embeddings.  JSON files and rows of tables are their decoded
    contents.  Mutexes make each method
    atomic; concurrency is the order of the calls, or of the steps of a
    relation where goroutines hold copies.  The parts that a refresh swaps are
    handles: preparing them is not modelled, nor are the files of a patch.  Planned next: the heartbeat, the runtime's verification of results, allow lists
    of channels, the tool filter of the agent and the digests of
    tool outputs. *)
From Stdlib Require Export ZArith Lia.
From stdpp Require Export base tactics gmap sets strings option list.

(** ** Tactics *)

(** Case analysis on every [decide], [match] and [if] of the goal. *)
Ltac split_cases :=
  repeat (case_decide || case_match || case_bool_decide).

(** Turn boolean connectives of the hypotheses and the goal into propositions. *)
Ltac bool_prop :=
  repeat match goal with
  | H : (_ && _)%bool = true |- _ => apply andb_true_iff in H as [??]
  | H : (_ || _)%bool = false |- _ => apply orb_false_iff in H as [??]
  | H : negb _ = true |- _ => apply negb_true_iff in H
  | H : negb _ = false |- _ => apply negb_false_iff in H
  | H : bool_decide _ = true |- _ => apply bool_decide_eq_true in H
  | H : bool_decide _ = false |- _ => apply bool_decide_eq_false in H
  | H : context [bool_decide ?P = true] |- _ => rewrite bool_decide_eq_true in H
  | |- (_ && _)%bool = true => apply andb_true_iff; split
  | |- negb _ = true => apply negb_true_iff
  | |- bool_decide _ = true => apply bool_decide_eq_true
  | |- bool_decide _ = false => apply bool_decide_eq_false
  end.

(** ** Lists *)

Lemma list_filter_id {A} (P : A -> Prop) `{!forall x, Decision (P x)} (l : list A) :
  (forall x, x ∈ l -> P x) -> filter P l = l.
Proof.
  induction l as [|x l IH]; intros HP; [done|]. rewrite filter_cons_True.
  - f_equal. apply IH. intros y Hy. apply HP. by right.
  - apply HP. by left.
Qed.

Lemma list_filter_ext {A} (P Q : A -> Prop) `{!forall x, Decision (P x)}
    `{!forall x, Decision (Q x)} (l : list A) :
  (forall x, x ∈ l -> P x <-> Q x) -> filter P l = filter Q l.
Proof.
  induction l as [|x l IH]; intros Hpq; [done|]. rewrite !filter_cons.
  rewrite IH by (intros y Hy; apply Hpq; by right).
  pose proof (Hpq x ltac:(by left)). repeat case_decide; tauto.
Qed.

Lemma list_filter_fmap {A B} (P : B -> Prop) `{!forall x, Decision (P x)} (f : A -> B) (l : list A) :
  filter P (f <$> l) = f <$> filter (fun x => P (f x)) l.
Proof. induction l as [|x l IH]; [done|]. cbn [fmap list_fmap]. rewrite !filter_cons. case_decide; cbn; by rewrite IH. Qed.

Lemma list_filter_none {A} (P : A -> Prop) `{!forall x, Decision (P x)} (l : list A) :
  (forall x, x ∈ l -> ~ P x) -> filter P l = [].
Proof.
  intros Hn. destruct (filter P l) as [|x k] eqn:E; [done|].
  assert (x ∈ filter P l) as [Hp Hx]%list_elem_of_filter by (rewrite E; by left). by destruct (Hn x).
Qed.

Lemma forallb_false_elem {A} (f : A -> bool) (l : list A) :
  forallb f l = false -> exists x, x ∈ l ∧ f x = false.
Proof.
  induction l as [|x l IH]; simpl; [done|]. intros Hx. destruct (f x) eqn:E.
  - destruct (IH Hx) as (y&?&?). exists y. split; [by right|done].
  - exists x. split; [by left|done].
Qed.

Lemma forallb_true_elem {A} (f : A -> bool) (l : list A) :
  forallb f l = true <-> forall x, x ∈ l -> f x = true.
Proof.
  rewrite forallb_forall. by setoid_rewrite list_elem_of_In.
Qed.

(** ** Finite maps *)

Lemma filter_split_length {A} (f : A -> bool) (l : list A) :
  length (filter (fun x => f x = true) l) + length (filter (fun x => f x = false) l) = length l.
Proof.
  induction l as [|x l IH]; [done|]. rewrite !filter_cons. destruct (f x); simpl; lia.
Qed.

Lemma size_map_filter `{Countable K} {A} (P : K * A -> Prop) `{!forall x, Decision (P x)}
    (m : gmap K A) :
  size (filter P m) = length (filter P (map_to_list m)).
Proof.
  rewrite <- length_map_to_list, map_filter_alt.
  apply Permutation_length, map_to_list_to_map.
  eapply (sublist_NoDup _ (map_to_list m).*1); [apply NoDup_fst_map_to_list|].
  apply fmap_sublist, sublist_filter.
Qed.

(** ** Strings *)

Lemma string_app_assoc (s t u : string) : (s +:+ t) +:+ u = s +:+ (t +:+ u).
Proof.
  induction s as [|a s IH]; [done|].
  change (String a ((s +:+ t) +:+ u) = String a (s +:+ (t +:+ u))). by rewrite IH.
Qed.

Lemma concat_cons c rest : String.concat "" (c :: rest) = c +:+ String.concat "" rest.
Proof.
  destruct rest; [|done]. cbn [String.concat]. induction c as [|a c IH]; [done|].
  change (String a c +:+ "") with (String a (c +:+ "")). by rewrite <- IH.
Qed.

Lemma string_length_app s t : String.length (s +:+ t) = (String.length s + String.length t)%nat.
Proof. induction s as [|a s IH]; [done|]. cbn. by rewrite <- IH. Qed.

Lemma substring_length_le n s : (String.length (String.substring 0 n s) <= n)%nat.
Proof.
  revert n. induction s as [|a s IH]; intros [|n]; cbn; [lia..|]. specialize (IH n). lia.
Qed.
