(* ===== verification/GoLib.v ===== *)
(** * The parts of Go's language and standard library that HopClaw uses

    Strings are byte strings, as in Go: a [string] of [ascii] characters is the
    sequence of its bytes.  [TrimSpace] follows [strings.TrimSpace]: it removes
    every leading and trailing code point for which [unicode.IsSpace] holds, on
    the UTF-8 encoding.  Times are integers, in nanoseconds since the zero
    [time.Time]; a [time.Duration] is a signed 64-bit integer. *)
From S2P Require Import Prelude.
From Stdlib Require Import Ascii String.
From stdpp Require Import pretty.

Local Open Scope list_scope.

Module Str.

Abbreviation bytes := (list ascii).

Definition byte_in (lo hi : nat) (a : ascii) : bool :=
  (Nat.leb lo (nat_of_ascii a) && Nat.leb (nat_of_ascii a) hi)%bool.

Definition byte_is (n : nat) (a : ascii) : bool := Nat.eqb (nat_of_ascii a) n.

(** [unicode.IsSpace] on one-byte code points: tab to carriage return, space. *)
Definition space1 (a : ascii) : bool := byte_in 9 13 a || byte_is 32 a.

(** U+0085 and U+00A0, the two-byte white space. *)
Definition space2 (a b : ascii) : bool :=
  byte_is 194 a && (byte_is 133 b || byte_is 160 b).

(** U+1680, U+2000-U+200A, U+2028, U+2029, U+202F, U+205F and U+3000. *)
Definition space3 (a b c : ascii) : bool :=
  (byte_is 225 a && byte_is 154 b && byte_is 128 c)
  || (byte_is 226 a && byte_is 128 b
      && (byte_in 128 138 c || byte_is 168 c || byte_is 169 c || byte_is 175 c))
  || (byte_is 226 a && byte_is 129 b && byte_is 159 c)
  || (byte_is 227 a && byte_is 128 b && byte_is 128 c).

Section Trim.
(** The trimming loop, for white space of one, two and three bytes read in
    the order of the list. *)
Context (p1 : ascii -> bool) (p2 : ascii -> ascii -> bool)
        (p3 : ascii -> ascii -> ascii -> bool).

Fixpoint trim_front (l : bytes) : bytes :=
  match l with
  | [] => []
  | a :: l1 =>
    if p1 a then trim_front l1 else
    match l1 with
    | [] => l
    | b :: l2 =>
      if p2 a b then trim_front l2 else
      match l2 with
      | [] => l
      | c :: l3 => if p3 a b c then trim_front l3 else l
      end
    end
  end.

(** Whether the list starts with white space. *)
Definition front_space (l : bytes) : bool :=
  match l with
  | a :: b :: c :: _ => p1 a || p2 a b || p3 a b c
  | a :: b :: _ => p1 a || p2 a b
  | a :: _ => p1 a
  | [] => false
  end.

Lemma trim_front_id l : front_space l = false -> trim_front l = l.
Proof.
  destruct l as [|a [|b [|c l]]]; simpl; intros H;
    rewrite ?orb_false_iff in H; destruct_and?; 
    repeat (case_match; try congruence); done.
Qed.

Lemma front_space_app l k : front_space l = true -> front_space (l ++ k) = true.
Proof.
  destruct l as [|a [|b [|c l]]]; simpl; try done;
    destruct k as [|? [|? ?]]; simpl; rewrite ?orb_true_iff; naive_solver.
Qed.

Lemma trim_front_spec l : front_space (trim_front l) = false.
Proof.
  induction l as [l IH] using (well_founded_induction
    (well_founded_ltof _ (@length ascii))); unfold ltof in IH.
  destruct l as [|a [|b [|c l]]]; simpl; [done|..].
  - destruct (p1 a) eqn:?; simpl; auto.
  - destruct (p1 a) eqn:?; [apply (IH [b]); simpl; lia|].
    destruct (p2 a b) eqn:E; simpl; [done|]. by rewrite Heqb0, E.
  - destruct (p1 a) eqn:?; [apply (IH (b :: c :: l)); simpl; lia|].
    destruct (p2 a b) eqn:?; [apply (IH (c :: l)); simpl; lia|].
    destruct (p3 a b c) eqn:?; [apply IH; simpl; lia|].
    simpl. by rewrite Heqb0, Heqb1, Heqb2.
Qed.

Lemma trim_front_suffix l : exists k, l = k ++ trim_front l.
Proof.
  induction l as [l IH] using (well_founded_induction
    (well_founded_ltof _ (@length ascii))); unfold ltof in IH.
  destruct l as [|a [|b [|c l]]]; simpl.
  - by exists [].
  - destruct (p1 a); [by exists [a] | by exists []].
  - destruct (p1 a); [destruct (IH [b]) as [k Hk]; [simpl; lia|]; exists (a :: k);
      simpl in *; by rewrite <- Hk|].
    destruct (p2 a b); [by exists [a; b] | by exists []].
  - destruct (p1 a); [destruct (IH (b :: c :: l)) as [k Hk]; [simpl; lia|];
      exists (a :: k); simpl in *; by rewrite <- Hk|].
    destruct (p2 a b); [destruct (IH (c :: l)) as [k Hk]; [simpl; lia|];
      exists (a :: b :: k); simpl in *; by rewrite <- Hk|].
    destruct (p3 a b c); [|by exists []].
    destruct (IH l) as [k Hk]; [simpl; lia|]. exists (a :: b :: c :: k).
    simpl in *. by rewrite <- Hk.
Qed.
End Trim.

Definition trim_left : bytes -> bytes := trim_front space1 space2 space3.

Definition trim_right (l : bytes) : bytes :=
  rev (trim_front space1 (fun b a => space2 a b) (fun c b a => space3 a b c) (rev l)).

Definition trim_bytes (l : bytes) : bytes := trim_right (trim_left l).

(** [strings.TrimSpace]. *)
Definition TrimSpace (s : string) : string :=
  string_of_list_ascii (trim_bytes (list_ascii_of_string s)).

Lemma trim_right_prefix l : exists k, l = trim_right l ++ k.
Proof.
  unfold trim_right.
  destruct (trim_front_suffix space1 (fun b a => space2 a b)
              (fun c b a => space3 a b c) (rev l)) as [k Hk].
  exists (rev k). rewrite <- rev_app_distr, <- Hk. by rewrite rev_involutive.
Qed.

Lemma trim_right_idem l : trim_right (trim_right l) = trim_right l.
Proof.
  unfold trim_right. rewrite rev_involutive. f_equal.
  apply trim_front_id, trim_front_spec.
Qed.

Lemma trim_bytes_idem l : trim_bytes (trim_bytes l) = trim_bytes l.
Proof.
  unfold trim_bytes. set (m := trim_left l).
  assert (Hm : front_space space1 space2 space3 m = false) by apply trim_front_spec.
  assert (Hr : front_space space1 space2 space3 (trim_right m) = false).
  { destruct (trim_right_prefix m) as [k Hk].
    destruct (front_space _ _ _ (trim_right m)) eqn:E; [|done].
    apply front_space_app with (k := k) in E. rewrite <- Hk in E. congruence. }
  unfold trim_left at 1. rewrite trim_front_id by done. apply trim_right_idem.
Qed.

Lemma TrimSpace_idem s : TrimSpace (TrimSpace s) = TrimSpace s.
Proof.
  unfold TrimSpace. by rewrite list_ascii_of_string_of_list_ascii, trim_bytes_idem.
Qed.

(** [Trimmed s]: white space trimming leaves [s] as it is. *)
Definition Trimmed (s : string) : Prop := TrimSpace s = s.

Lemma Trimmed_TrimSpace s : Trimmed (TrimSpace s).
Proof. apply TrimSpace_idem. Qed.

Lemma Trimmed_empty : Trimmed "".
Proof. done. Qed.

(** Strings of printing ASCII characters other than space are trimmed. *)
Definition graphic (s : string) : bool :=
  forallb (byte_in 33 126) (list_ascii_of_string s).

Lemma byte_in_spec lo hi a :
  byte_in lo hi a = true <-> (lo <= nat_of_ascii a <= hi)%nat.
Proof. unfold byte_in. rewrite andb_true_iff, !Nat.leb_le. done. Qed.

Lemma byte_is_ne lo hi a n :
  byte_in lo hi a = true -> (n < lo \/ hi < n)%nat -> byte_is n a = false.
Proof. rewrite byte_in_spec. intros. apply Nat.eqb_neq. lia. Qed.

Lemma byte_in_disj lo hi lo' hi' a :
  byte_in lo hi a = true -> (hi' < lo \/ hi < lo')%nat -> byte_in lo' hi' a = false.
Proof.
  rewrite byte_in_spec. intros. apply not_true_iff_false. rewrite byte_in_spec. lia.
Qed.

Lemma graphic_front l :
  forallb (byte_in 33 126) l = true ->
  front_space space1 space2 space3 l = false
  /\ front_space space1 (fun b a => space2 a b) (fun c b a => space3 a b c) l = false.
Proof.
  destruct l as [|a [|b [|c l]]]; simpl; [done|..]; rewrite ?andb_true_iff;
    intros; destruct_and?; unfold space1, space2, space3;
    repeat match goal with
    | H : byte_in 33 126 ?x = true |- context [byte_is ?n ?x] =>
        rewrite (byte_is_ne 33 126 x n H) by lia
    | H : byte_in 33 126 ?x = true |- context [byte_in ?l ?h ?x] =>
        rewrite (byte_in_disj 33 126 l h x H) by lia
    end; simpl; rewrite ?andb_false_r; done.
Qed.

Lemma forallb_rev {A} (f : A -> bool) l : forallb f (rev l) = forallb f l.
Proof.
  induction l; simpl; [done|]. rewrite forallb_app, IHl. simpl.
  by rewrite andb_true_r, andb_comm.
Qed.

Lemma graphic_trimmed s : graphic s = true -> Trimmed s.
Proof.
  unfold graphic, Trimmed, TrimSpace, trim_bytes, trim_right, trim_left. intros H.
  rewrite (trim_front_id space1 space2 space3) by (by apply graphic_front).
  rewrite trim_front_id by (apply graphic_front; by rewrite forallb_rev).
  by rewrite rev_involutive, string_of_list_ascii_of_string.
Qed.

Lemma graphic_app s1 s2 : graphic (s1 +:+ s2) = graphic s1 && graphic s2.
Proof.
  unfold graphic. induction s1 as [|a s1 IH]; simpl; [done|].
  unfold graphic in IH. by rewrite IH, andb_assoc.
Qed.

Lemma graphic_pretty_go x s : graphic s = true -> graphic (pretty_N_go x s) = true.
Proof.
  revert s. induction (N.lt_wf_0 x) as [x _ IH]; intros s Hs.
  destruct (decide (0 < x)%N) as [Hx|]; [|by replace x with 0%N by lia].
  rewrite pretty_N_go_step by done. apply IH; [by apply N.div_lt|].
  unfold graphic in *. simpl. rewrite Hs, andb_true_r.
  unfold pretty_N_char. by repeat case_match.
Qed.

Lemma graphic_pretty (n : nat) : graphic (pretty n) = true.
Proof.
  change (graphic (if decide (N.of_nat n = 0%N) then "0" else pretty_N_go (N.of_nat n) "")
          = true).
  case_decide; [done|]. by apply graphic_pretty_go.
Qed.
End Str.

Create HintDb golib.
#[export] Hint Resolve Str.Trimmed_TrimSpace Str.Trimmed_empty : golib.

(** ** Machine integers and time *)
Module GoInt.
Local Open Scope Z_scope.

Definition min_int64 : Z := - 2 ^ 63.
Definition max_int64 : Z := 2 ^ 63 - 1.

(** Two's complement wrap-around of a signed 64-bit operation. *)
Definition wrap64 (z : Z) : Z := (z + 2 ^ 63) mod 2 ^ 64 - 2 ^ 63.

Definition in_int64 (z : Z) : Prop := min_int64 <= z <= max_int64.

Lemma wrap64_range z : in_int64 (wrap64 z).
Proof.
  unfold in_int64, wrap64, min_int64, max_int64.
  pose proof (Z.mod_pos_bound (z + 2 ^ 63) (2 ^ 64) ltac:(lia)). lia.
Qed.

Lemma wrap64_id z : in_int64 z -> wrap64 z = z.
Proof.
  unfold in_int64, wrap64, min_int64, max_int64. intros.
  rewrite Z.mod_small; lia.
Qed.
End GoInt.

Module GoTime.
Local Open Scope Z_scope.

(** Instants in nanoseconds since January 1, year 1, 00:00:00 UTC, the zero
    [time.Time]; the location of a [time.Time] is not part of the model, so
    [UTC] is the identity. *)
Abbreviation Time := Z (only parsing).
Abbreviation Duration := Z (only parsing).

Definition zeroTime : Time := 0.
Definition IsZero (t : Time) : bool := bool_decide (t = zeroTime).
Definition After (t u : Time) : bool := bool_decide (u < t).
Definition Before (t u : Time) : bool := bool_decide (t < u).
Definition Add (t : Time) (d : Duration) : Time := t + d.

(** [t.Sub(u)] saturates at the bounds of [time.Duration]. *)
Definition Sub (t u : Time) : Duration :=
  Z.max GoInt.min_int64 (Z.min GoInt.max_int64 (t - u)).

Definition Nanosecond : Duration := 1.
Definition Millisecond : Duration := 1000000.
Definition Second : Duration := 1000000000.
Definition Minute : Duration := 60 * Second.
Definition Hour : Duration := 60 * Minute.

Lemma Sub_ge_iff t u d :
  0 < d <= GoInt.max_int64 -> (d <= Sub t u <-> u + d <= t).
Proof. unfold Sub, GoInt.max_int64, GoInt.min_int64. lia. Qed.

Lemma Sub_lt_iff t u d :
  0 < d <= GoInt.max_int64 -> (Sub t u < d <-> t < u + d).
Proof. unfold Sub, GoInt.max_int64, GoInt.min_int64. lia. Qed.
End GoTime.

(** ** Dynamically typed values ([any] decoded from JSON) *)
Module GoAny.
Inductive Any :=
  | AnyNil
  | AnyBool (b : bool)
  | AnyNumber (bits : Z)      (* an IEEE double, by its bits *)
  | AnyString (s : string)
  | AnySlice (l : list Any)
  | AnyMap (m : list (string * Any)).

(** A type assertion [v.(string)] with its zero value. *)
Definition as_string (v : option Any) : option string :=
  match v with Some (AnyString s) => Some s | _ => None end.
End GoAny.

(** ** Searching and case *)
Module Text.

Definition HasPrefix (s p : string) : bool := String.prefix p s.

(** [strings.TrimPrefix]. *)
Definition TrimPrefix (s prefix : string) : string :=
  if String.prefix prefix s
  then String.substring (String.length prefix) (String.length s - String.length prefix) s else s.

Lemma HasPrefix_spec s p : HasPrefix s p = true <-> exists t, s = p +:+ t.
Proof.
  unfold HasPrefix. revert s. induction p as [|a p IH]; intros s; simpl.
  - split; [intros _; by exists s|by destruct s].
  - destruct s as [|b s]; [split; [done|by intros (?&?)]|].
    change (String.prefix (String a p) (String b s))
      with (if ascii_dec a b then String.prefix p s else false).
    change (exists t, String b s = String a p +:+ t) with (exists t, String b s = String a (p +:+ t)).
    destruct (ascii_dec a b) as [->|Hab].
    + rewrite IH. split; intros (t & Ht); exists t; [by rewrite Ht|by simplify_eq/=].
    + split; [done|]. intros (t & Ht). by simplify_eq/=.
Qed.

Lemma HasPrefix_app p t : HasPrefix (p +:+ t) p = true.
Proof. apply HasPrefix_spec. by exists t. Qed.

Lemma TrimPrefix_app p t : TrimPrefix (p +:+ t) p = t.
Proof.
  unfold TrimPrefix. change (String.prefix p (p +:+ t)) with (HasPrefix (p +:+ t) p). rewrite HasPrefix_app, string_length_app.
  replace (String.length p + String.length t - String.length p)%nat with (String.length t) by lia.
  induction p as [|a p IH]; [|exact IH]. cbn [String.length]. change ("" +:+ t) with t.
  induction t as [|a t IH]; [done|]. cbn [String.length String.substring]. by rewrite IH.
Qed.

(** [strings.Contains]. *)
Fixpoint Contains (s sub : string) : bool :=
  String.prefix sub s ||
  match s with
  | EmptyString => false
  | String _ rest => Contains rest sub
  end.

Definition lower_byte (a : ascii) : ascii :=
  if Str.byte_in 65 90 a then ascii_of_nat (nat_of_ascii a + 32) else a.

Fixpoint ascii_lower (s : string) : string :=
  match s with
  | EmptyString => EmptyString
  | String a rest => String (lower_byte a) (ascii_lower rest)
  end.

Definition is_ascii (s : string) : bool :=
  forallb (fun a => Nat.ltb (nat_of_ascii a) 128) (String.list_ascii_of_string s).

(** Case mapping and case folding depend on the Unicode tables; this is what
    they promise: on ASCII strings they work letter by letter, folding is an
    equivalence, and lowering is idempotent. *)
Class GoUnicode := {
  ToLower : string -> string;
  EqualFold : string -> string -> bool;
  ToLower_ascii s : is_ascii s = true -> ToLower s = ascii_lower s;
  ToLower_idem s : ToLower (ToLower s) = ToLower s;
  EqualFold_refl s : EqualFold s s = true;
  EqualFold_sym s t : EqualFold s t = EqualFold t s;
  EqualFold_trans s t u : EqualFold s t = true -> EqualFold t u = true -> EqualFold s u = true;
  EqualFold_ascii s t : is_ascii s = true -> is_ascii t = true ->
    EqualFold s t = bool_decide (ascii_lower s = ascii_lower t)
}.

Lemma lower_byte_idem a : lower_byte (lower_byte a) = lower_byte a.
Proof. destruct a as [[] [] [] [] [] [] [] []]; reflexivity. Qed.

Lemma ascii_lower_idem s : ascii_lower (ascii_lower s) = ascii_lower s.
Proof. induction s as [|a s IH]; simpl; [done|]. by rewrite lower_byte_idem, IH. Qed.

(** The interpretation that leaves every byte outside ASCII alone. *)
Definition ascii_fold (s t : string) : bool := bool_decide (ascii_lower s = ascii_lower t).

Definition ascii_unicode : GoUnicode.
Proof.
  refine {| ToLower := ascii_lower; EqualFold := ascii_fold |}; unfold ascii_fold.
  - done.
  - apply ascii_lower_idem.
  - intros s. by bool_prop.
  - intros s t. by apply bool_decide_ext.
  - intros s t u ??. bool_prop. congruence.
  - done.
Defined.

End Text.
