(* ===== verification/Normalize.v ===== *)
(** * String normalization helpers ([internal/support/normalize/normalize.go]) *)
From S2P Require Import Prelude GoLib.
Import Str.

(** The trimming, blank-skipping, duplicate-skipping loop: [seen] is the set of
    the items already emitted. *)
Fixpoint dedupe_loop (seen : gset string) (items : list string) : list string :=
  match items with
  | [] => []
  | item :: rest =>
    let trimmed := TrimSpace item in
    if decide (trimmed = "") then dedupe_loop seen rest
    else if decide (trimmed ∈ seen) then dedupe_loop seen rest
    else trimmed :: dedupe_loop ({[trimmed]} ∪ seen) rest
  end.

Definition DedupeStrings (items : list string) : list string := dedupe_loop ∅ items.

Fixpoint FirstNonEmpty (values : list string) : string :=
  match values with
  | [] => ""
  | value :: rest =>
    let trimmed := TrimSpace value in
    if decide (trimmed = "") then FirstNonEmpty rest else trimmed
  end.

(** What the loop promises: trimmed, non-blank items without duplicates. *)
Definition clean (l : list string) : Prop :=
  Forall (fun s => Trimmed s ∧ s ≠ "") l ∧ NoDup l.

Lemma dedupe_loop_fresh seen items s :
  s ∈ dedupe_loop seen items -> s ∉ seen ∧ Trimmed s ∧ s ≠ "".
Proof.
  revert seen; induction items as [|x items IH]; intros seen; simpl; [set_solver|].
  repeat case_decide; auto. rewrite elem_of_cons. intros [->|Hs].
  - auto with golib.
  - apply IH in Hs as (?&?&?). split_and!; [set_solver|done..].
Qed.

Lemma dedupe_loop_elem seen items s :
  s ∈ dedupe_loop seen items <->
  s ∉ seen ∧ s ≠ "" ∧ exists x, x ∈ items ∧ s = TrimSpace x.
Proof.
  revert seen; induction items as [|x items IH]; intros seen; simpl.
  - split; [by intros ?%elem_of_nil|]. by intros (_&_&?&?%elem_of_nil&_).
  - setoid_rewrite elem_of_cons.
    repeat case_decide; rewrite ?elem_of_cons, ?IH; [naive_solver..|].
    rewrite not_elem_of_union, not_elem_of_singleton.
    destruct (decide (s = TrimSpace x)) as [->|]; naive_solver.
Qed.

Lemma dedupe_loop_clean seen items : clean (dedupe_loop seen items).
Proof.
  split; [apply Forall_forall; intros s Hs; apply dedupe_loop_fresh in Hs as (_&?&?); done|].
  revert seen; induction items as [|x items IH]; intros seen; simpl; [constructor|].
  repeat case_decide; auto. constructor; [|done].
  intros [Hx _]%dedupe_loop_fresh. set_solver.
Qed.

Lemma dedupe_loop_id seen l :
  clean l -> (forall s, s ∈ l -> s ∉ seen) -> dedupe_loop seen l = l.
Proof.
  intros [Hf Hn]. revert seen.
  induction l as [|x l IH]; intros seen Hs; simpl; [done|].
  apply Forall_cons in Hf as [[Htr Hne] Hf]. apply NoDup_cons in Hn as [Hx Hn].
  unfold Trimmed in Htr. rewrite Htr.
  rewrite decide_False by done. rewrite decide_False by set_solver.
  f_equal. apply IH; set_solver.
Qed.

Lemma DedupeStrings_clean l : clean (DedupeStrings l).
Proof. apply dedupe_loop_clean. Qed.

Lemma DedupeStrings_id l : clean l -> DedupeStrings l = l.
Proof. intros. apply dedupe_loop_id; set_solver. Qed.

Lemma DedupeStrings_elem l s :
  s ∈ DedupeStrings l <-> s ≠ "" ∧ exists x, x ∈ l ∧ s = TrimSpace x.
Proof.
  unfold DedupeStrings. rewrite dedupe_loop_elem.
  split; [by intros (_&?&?)|]. split; [apply not_elem_of_empty|done].
Qed.

Lemma clean_nil : clean [].
Proof. split; constructor. Qed.

#[export] Hint Resolve DedupeStrings_clean dedupe_loop_clean clean_nil : golib.
