(* ===== verification/Planner.v ===== *)
(** * The planner's data model and task state machine ([planner/types.go],
    [planner/validate.go], [planner/state.go])

    A plan is a list of tasks with dependencies between their identifiers, the
    set of running tasks and the legacy "active" task.  Operations that mutate
    the plan through a pointer return the plan after the call; a [nil] plan is
    [None].  A pointer to a task of the plan is its index, returned together
    with the task it points to. *)
From S2P Require Import Prelude GoLib Normalize.
From stdpp Require Import pretty.
Import Str.

(** ** Data ([planner/types.go]) *)

(** Go's string enumerations: the declared constants, the empty string and any
    other string. *)
Inductive Strategy :=
  | StrategyEmpty | StrategySerial | StrategyParallel | StrategyMixed
  | StrategyOther (s : string).

Inductive FailurePolicy :=
  | FailurePolicyEmpty | FailFast | ContinueOnError | FailurePolicyOther (s : string).

Inductive TaskStatus :=
  | TaskStatusEmpty | TaskQueued | TaskRunning | TaskCompleted | TaskFailed
  | TaskCancelled | TaskSkipped | TaskStatusOther (s : string).

Inductive TaskKind :=
  | TaskKindEmpty | TaskResearch | TaskTranslate | TaskTransform | TaskWrite
  | TaskExecute | TaskReview | TaskDeliver | TaskKindOther (s : string).

#[export] Instance Strategy_eq_dec : EqDecision Strategy.
Proof. solve_decision. Defined.
#[export] Instance FailurePolicy_eq_dec : EqDecision FailurePolicy.
Proof. solve_decision. Defined.
#[export] Instance TaskStatus_eq_dec : EqDecision TaskStatus.
Proof. solve_decision. Defined.
#[export] Instance TaskKind_eq_dec : EqDecision TaskKind.
Proof. solve_decision. Defined.

Record Task := mkTask {
  Task_ID : string;
  Task_Title : string;
  Task_Kind : TaskKind;
  Task_Goal : string;
  Task_DependsOn : list string;
  Task_Outputs : list string;
  Task_RequiredCapabilities : list string;
  Task_VerificationHints : list string;
  Task_Status : TaskStatus;
  Task_ResultSummary : string;
  Task_Error : string
}.

Record Plan := mkPlan {
  Plan_Goal : string;
  Plan_Summary : string;
  Plan_Strategy : Strategy;
  Plan_FailurePolicy : FailurePolicy;
  Plan_Tasks : list Task;
  Plan_FinalTask : string;
  Plan_CoverageWarnings : list string;
  Plan_ActiveTask : string;
  Plan_RunningTasks : list string
}.

(** Field assignments. *)
Definition task_set_status (s : TaskStatus) (t : Task) : Task :=
  mkTask (Task_ID t) (Task_Title t) (Task_Kind t) (Task_Goal t) (Task_DependsOn t)
    (Task_Outputs t) (Task_RequiredCapabilities t) (Task_VerificationHints t) s
    (Task_ResultSummary t) (Task_Error t).

Definition task_set_error (e : string) (t : Task) : Task :=
  mkTask (Task_ID t) (Task_Title t) (Task_Kind t) (Task_Goal t) (Task_DependsOn t)
    (Task_Outputs t) (Task_RequiredCapabilities t) (Task_VerificationHints t)
    (Task_Status t) (Task_ResultSummary t) e.

Definition task_set_summary (r : string) (t : Task) : Task :=
  mkTask (Task_ID t) (Task_Title t) (Task_Kind t) (Task_Goal t) (Task_DependsOn t)
    (Task_Outputs t) (Task_RequiredCapabilities t) (Task_VerificationHints t)
    (Task_Status t) r (Task_Error t).

Definition plan_set_tasks (ts : list Task) (p : Plan) : Plan :=
  mkPlan (Plan_Goal p) (Plan_Summary p) (Plan_Strategy p) (Plan_FailurePolicy p) ts
    (Plan_FinalTask p) (Plan_CoverageWarnings p) (Plan_ActiveTask p) (Plan_RunningTasks p).

Definition plan_set_active (a : string) (p : Plan) : Plan :=
  mkPlan (Plan_Goal p) (Plan_Summary p) (Plan_Strategy p) (Plan_FailurePolicy p)
    (Plan_Tasks p) (Plan_FinalTask p) (Plan_CoverageWarnings p) a (Plan_RunningTasks p).

Definition plan_set_running (r : list string) (p : Plan) : Plan :=
  mkPlan (Plan_Goal p) (Plan_Summary p) (Plan_Strategy p) (Plan_FailurePolicy p)
    (Plan_Tasks p) (Plan_FinalTask p) (Plan_CoverageWarnings p) (Plan_ActiveTask p) r.

(** Write through the pointer [i] to a task of the plan. *)
Definition plan_write (i : nat) (f : Task -> Task) (p : Plan) : Plan :=
  plan_set_tasks (alter f i (Plan_Tasks p)) p.

(** ** Helpers ([planner/state.go], [planner/validate.go]) *)

Fixpoint appendUnique (slice : list string) (val : string) : list string :=
  match slice with
  | [] => [val]
  | s :: rest => if decide (s = val) then slice else s :: appendUnique rest val
  end.

Definition removeString (slice : list string) (val : string) : list string :=
  filter (fun s => s <> val) slice.

(** The same trimming and de-duplicating loop as [normalize.DedupeStrings]. *)
Definition trimNonEmpty (items : list string) : list string := dedupe_loop ∅ items.

(** ** Validation ([planner/validate.go]) *)

Inductive ValidateError :=
  | ErrPlanRequired
  | ErrGoalRequired
  | ErrNoTasks
  | ErrInvalidStrategy (s : Strategy)
  | ErrInvalidFailurePolicy (f : FailurePolicy)
  | ErrTaskGoalRequired (id : string)
  | ErrTaskInvalidKind (id : string) (k : TaskKind)
  | ErrTaskInvalidStatus (id : string) (s : TaskStatus)
  | ErrDuplicateTask (id : string)
  | ErrUnknownDependency (id dep : string)
  | ErrFinalTaskNotFound (id : string)
  | ErrActiveTaskNotFound (id : string).

Definition strategy_known (s : Strategy) : bool :=
  match s with StrategyOther _ => false | _ => true end.
Definition failure_policy_known (f : FailurePolicy) : bool :=
  match f with FailurePolicyOther _ => false | _ => true end.
Definition kind_known (k : TaskKind) : bool :=
  match k with TaskKindOther _ => false | _ => true end.
Definition status_known (s : TaskStatus) : bool :=
  match s with TaskStatusOther _ => false | _ => true end.

(** The assignments at the head of the task loop's body: trimming and the
    generated identifier of the [i]-th task. *)
Definition validate_trim_task (i : nat) (t : Task) : Task :=
  let id := TrimSpace (Task_ID t) in
  mkTask (if decide (id = "") then "task_" +:+ pretty (S i) else id)
    (TrimSpace (Task_Title t)) (Task_Kind t) (TrimSpace (Task_Goal t))
    (Task_DependsOn t) (Task_Outputs t) (Task_RequiredCapabilities t)
    (Task_VerificationHints t) (Task_Status t)
    (TrimSpace (Task_ResultSummary t)) (TrimSpace (Task_Error t)).

Definition validate_default_kind (t : Task) : Task :=
  mkTask (Task_ID t) (Task_Title t)
    (match Task_Kind t with TaskKindEmpty => TaskExecute | k => k end)
    (Task_Goal t) (Task_DependsOn t) (Task_Outputs t) (Task_RequiredCapabilities t)
    (Task_VerificationHints t) (Task_Status t) (Task_ResultSummary t) (Task_Error t).

Definition validate_trim_lists (t : Task) : Task :=
  mkTask (Task_ID t) (Task_Title t) (Task_Kind t) (Task_Goal t)
    (trimNonEmpty (Task_DependsOn t)) (trimNonEmpty (Task_Outputs t))
    (trimNonEmpty (Task_RequiredCapabilities t)) (trimNonEmpty (Task_VerificationHints t))
    (Task_Status t) (Task_ResultSummary t) (Task_Error t).

(** One iteration of the task loop: the task as the iteration leaves it, and
    the error it returns. *)
Definition validate_task (seen : gset string) (i : nat) (t : Task) : Task * option ValidateError :=
  let t := validate_trim_task i t in
  if decide (Task_Goal t = "") then (t, Some (ErrTaskGoalRequired (Task_ID t)))
  else if negb (kind_known (Task_Kind t)) then
    (t, Some (ErrTaskInvalidKind (Task_ID t) (Task_Kind t)))
  else if negb (status_known (Task_Status t)) then
    (t, Some (ErrTaskInvalidStatus (Task_ID t) (Task_Status t)))
  else
    let t := validate_default_kind t in
    if decide (Task_ID t ∈ seen) then (t, Some (ErrDuplicateTask (Task_ID t)))
    else (validate_trim_lists t, None).

(** The task loop: the tasks it leaves, the identifiers seen, its error. *)
Fixpoint validate_tasks (seen : gset string) (i : nat) (ts : list Task)
    : list Task * gset string * option ValidateError :=
  match ts with
  | [] => ([], seen, None)
  | t :: rest =>
    match validate_task seen i t with
    | (t', Some err) => (t' :: rest, seen, Some err)
    | (t', None) =>
      let '(rest', seen', err) := validate_tasks ({[Task_ID t']} ∪ seen) (S i) rest in
      (t' :: rest', seen', err)
    end
  end.

(** The dependency loop: the first unknown dependency in plan order. *)
Fixpoint validate_deps (seen : gset string) (ts : list Task) : option ValidateError :=
  match ts with
  | [] => None
  | t :: rest =>
    match list_find (fun dep => dep ∉ seen) (Task_DependsOn t) with
    | Some (_, dep) => Some (ErrUnknownDependency (Task_ID t) dep)
    | None => validate_deps seen rest
    end
  end.

Definition validate_final_task (p : Plan) : string :=
  let f := TrimSpace (Plan_FinalTask p) in
  if decide (f = "") then from_option Task_ID "" (last (Plan_Tasks p)) else f.

(** [Validate]: the plan as the call leaves it (also when it fails) and the
    error it returns. *)
Definition Validate (plan : option Plan) : option Plan * option ValidateError :=
  match plan with
  | None => (None, Some ErrPlanRequired)
  | Some p0 =>
    let p := mkPlan (TrimSpace (Plan_Goal p0)) (TrimSpace (Plan_Summary p0))
               (Plan_Strategy p0) (Plan_FailurePolicy p0) (Plan_Tasks p0)
               (Plan_FinalTask p0) (Plan_CoverageWarnings p0) (Plan_ActiveTask p0)
               (Plan_RunningTasks p0) in
    if decide (Plan_Goal p = "") then (Some p, Some ErrGoalRequired)
    else if decide (Plan_Tasks p = []) then (Some p, Some ErrNoTasks)
    else if negb (strategy_known (Plan_Strategy p)) then
      (Some p, Some (ErrInvalidStrategy (Plan_Strategy p)))
    else
    let p := mkPlan (Plan_Goal p) (Plan_Summary p)
               (match Plan_Strategy p with StrategyEmpty => StrategySerial | s => s end)
               (Plan_FailurePolicy p) (Plan_Tasks p) (Plan_FinalTask p)
               (Plan_CoverageWarnings p) (Plan_ActiveTask p) (Plan_RunningTasks p) in
    if negb (failure_policy_known (Plan_FailurePolicy p)) then
      (Some p, Some (ErrInvalidFailurePolicy (Plan_FailurePolicy p)))
    else
    let p := mkPlan (Plan_Goal p) (Plan_Summary p) (Plan_Strategy p)
               (match Plan_FailurePolicy p with FailurePolicyEmpty => FailFast | f => f end)
               (Plan_Tasks p) (Plan_FinalTask p) (Plan_CoverageWarnings p)
               (Plan_ActiveTask p) (Plan_RunningTasks p) in
    let '(ts, seen, err) := validate_tasks ∅ 0 (Plan_Tasks p) in
    let p := plan_set_tasks ts p in
    match err with
    | Some e => (Some p, Some e)
    | None =>
      match validate_deps seen ts with
      | Some e => (Some p, Some e)
      | None =>
        let p := mkPlan (Plan_Goal p) (Plan_Summary p) (Plan_Strategy p)
                   (Plan_FailurePolicy p) (Plan_Tasks p) (validate_final_task p)
                   (Plan_CoverageWarnings p) (Plan_ActiveTask p) (Plan_RunningTasks p) in
        if decide (Plan_FinalTask p ∉ seen) then
          (Some p, Some (ErrFinalTaskNotFound (Plan_FinalTask p)))
        else
          let p := plan_set_active (TrimSpace (Plan_ActiveTask p)) p in
          if decide (Plan_ActiveTask p <> "" /\ Plan_ActiveTask p ∉ seen) then
            (Some p, Some (ErrActiveTaskNotFound (Plan_ActiveTask p)))
          else (Some p, None)
      end
    end
  end.

(** ** The task state machine ([planner/state.go]) *)

Definition AllowedTaskTransitions (s : TaskStatus) : option (list TaskStatus) :=
  match s with
  | TaskQueued => Some [TaskRunning; TaskSkipped; TaskCancelled]
  | TaskRunning => Some [TaskCompleted; TaskFailed; TaskSkipped; TaskCancelled]
  | TaskCompleted | TaskFailed | TaskSkipped | TaskCancelled => Some []
  | TaskStatusEmpty | TaskStatusOther _ => None
  end.

Definition ValidTaskTransition (from to : TaskStatus) : bool :=
  match AllowedTaskTransitions from with
  | None => false
  | Some allowed => existsb (fun s => bool_decide (s = to)) allowed
  end.

(** [FindTask]: the first task with the identifier. *)
Definition FindTask (plan : option Plan) (id : string) : option (nat * Task) :=
  match plan with
  | None => None
  | Some p =>
    if decide (TrimSpace id = "") then None
    else list_find (fun t => Task_ID t = id) (Plan_Tasks p)
  end.

#[global] Arguments FindTask : simpl never.

Definition Active (plan : option Plan) : option (nat * Task) :=
  match plan with
  | None => None
  | Some p =>
    if decide (TrimSpace (Plan_ActiveTask p) = "") then None
    else FindTask plan (Plan_ActiveTask p)
  end.

Definition normalize_task (t : Task) : Task :=
  let t := task_set_error (TrimSpace (Task_Error t))
             (task_set_summary (TrimSpace (Task_ResultSummary t)) t) in
  let t := if status_known (Task_Status t) then t else task_set_status TaskQueued t in
  if decide (Task_Status t = TaskStatusEmpty) then task_set_status TaskQueued t else t.

(** Whether the identifier is that of a running task. *)
Definition is_running (p : Plan) (id : string) : bool :=
  match FindTask (Some p) id with
  | Some (_, t) => bool_decide (Task_Status t = TaskRunning)
  | None => false
  end.

Definition NormalizeExecution (plan : option Plan) : option Plan :=
  match plan with
  | None => None
  | Some p =>
    let p := plan_set_active (TrimSpace (Plan_ActiveTask p)) p in
    let p := plan_set_tasks (normalize_task <$> Plan_Tasks p) p in
    let p :=
      if decide (Plan_ActiveTask p <> "") then
        if is_running p (Plan_ActiveTask p) then p else plan_set_active "" p
      else p in
    Some (plan_set_running
            (filter (fun id => is_running p id = true) (Plan_RunningTasks p)) p)
  end.

(** Pointers to the tasks of a status-dependent selection, in plan order. *)
Definition select_tasks (P : Task -> bool) (plan : option Plan) : list (nat * Task) :=
  match plan with
  | None => []
  | Some p => filter (fun it => P it.2 = true) (imap pair (Plan_Tasks p))
  end.

Definition Running (plan : option Plan) : list (nat * Task) :=
  select_tasks (fun t => bool_decide (Task_Status t = TaskRunning)) plan.

Definition depsCompleted (plan : option Plan) (t : Task) : bool :=
  forallb (fun dep =>
    match FindTask plan dep with
    | Some (_, d) => bool_decide (Task_Status d = TaskCompleted)
    | None => false
    end) (Task_DependsOn t).

Definition task_ready (plan : option Plan) (t : Task) : bool :=
  bool_decide (Task_Status t = TaskQueued) && depsCompleted plan t.

Definition NextReady (plan : option Plan) : option (nat * Task) :=
  match plan with
  | None => None
  | Some p => list_find (fun t => task_ready plan t = true) (Plan_Tasks p)
  end.

Definition ReadyTasks (plan : option Plan) : list (nat * Task) :=
  select_tasks (task_ready plan) plan.

(** ** Mutations *)

Definition markRunning_one (p : Plan) (id : string) : Plan :=
  match FindTask (Some p) id with
  | Some (i, t) =>
    if decide (Task_Status t = TaskQueued) then
      plan_set_running (appendUnique (Plan_RunningTasks p) id)
        (plan_write i (fun t => task_set_error "" (task_set_status TaskRunning t)) p)
    else p
  | None => p
  end.

Definition MarkRunning (plan : option Plan) (ids : list string) : option Plan :=
  match plan with
  | None => None
  | Some p =>
    let p := foldl markRunning_one p ids in
    Some (match Plan_RunningTasks p with
          | r :: _ => if decide (Plan_ActiveTask p = "") then plan_set_active r p else p
          | [] => p
          end)
  end.

(** The bookkeeping shared by [MarkCompleted] and [MarkFailed]: drop the task
    from the running set and elect the next active task. *)
Definition release_running (id : string) (p : Plan) : Plan :=
  let p := plan_set_running (removeString (Plan_RunningTasks p) id) p in
  if decide (Plan_ActiveTask p = id) then
    plan_set_active (match Plan_RunningTasks p with r :: _ => r | [] => "" end) p
  else p.

Definition MarkCompleted (plan : option Plan) (id summary : string) : option Plan :=
  match plan with
  | None => None
  | Some p =>
    match FindTask plan id with
    | Some (i, t) =>
      if decide (Task_Status t <> TaskRunning) then Some p
      else Some (release_running id (plan_write i (fun t =>
             task_set_summary (TrimSpace summary)
               (task_set_error "" (task_set_status TaskCompleted t))) p))
    | None => Some (release_running id p)
    end
  end.

Definition MarkFailed (plan : option Plan) (id errMsg : string) : option Plan :=
  match plan with
  | None => None
  | Some p =>
    match FindTask plan id with
    | Some (i, t) =>
      if decide (Task_Status t <> TaskRunning) then Some p
      else Some (release_running id (plan_write i (fun t =>
             task_set_error (TrimSpace errMsg) (task_set_status TaskFailed t)) p))
    | None => Some (release_running id p)
    end
  end.

Definition MarkSkipped (plan : option Plan) (id reason : string) : option Plan :=
  match plan with
  | None => None
  | Some p =>
    let p :=
      match FindTask plan id with
      | Some (i, t) =>
        if decide (Task_Status t = TaskQueued \/ Task_Status t = TaskRunning) then
          plan_write i (fun t =>
            task_set_error (TrimSpace reason) (task_set_status TaskSkipped t)) p
        else p
      | None => p
      end in
    let p := plan_set_running (removeString (Plan_RunningTasks p) id) p in
    Some (if decide (Plan_ActiveTask p = id) then plan_set_active "" p else p)
  end.

(** Whether a dependency is failed or skipped in the current plan. *)
Definition dep_failed (p : Plan) (dep : string) : bool :=
  match FindTask (Some p) dep with
  | Some (_, d) => bool_decide (Task_Status d = TaskFailed \/ Task_Status d = TaskSkipped)
  | None => false
  end.

(** The loop body of [SkipDependentsOf] on the [i]-th task, and whether it set
    [changed]. *)
Definition skip_one (p : Plan) (i : nat) : Plan * bool :=
  match Plan_Tasks p !! i with
  | Some t =>
    if decide (Task_Status t <> TaskQueued) then (p, false)
    else
      match list_find (fun dep => dep_failed p dep = true) (Task_DependsOn t) with
      | Some (_, dep) =>
        (plan_write i (fun t =>
           task_set_error ("dependency " +:+ dep +:+ " failed")
             (task_set_status TaskSkipped t)) p, true)
      | None => (p, false)
      end
  | None => (p, false)
  end.

(** One pass over the tasks; each task is updated in place, so later tasks of
    the pass see the statuses it has already written. *)
Definition skip_pass (p : Plan) : Plan * bool :=
  foldl (fun acc i => let '(p', c) := skip_one acc.1 i in (p', acc.2 || c))
    (p, false) (seq 0 (length (Plan_Tasks p))).

(** [for changed { ... }], at most [fuel] passes. *)
Fixpoint skip_loop (fuel : nat) (p : Plan) : Plan :=
  match fuel with
  | O => p
  | S fuel => let '(p', changed) := skip_pass p in if changed then skip_loop fuel p' else p'
  end.

Definition queued_count (p : Plan) : nat :=
  length (filter (fun t => Task_Status t = TaskQueued) (Plan_Tasks p)).

(** [SkipDependentsOf]; the identifier argument is not used by the body.  Every
    pass that sets [changed] takes at least one task out of [TaskQueued], so
    [S (queued_count p)] passes reach the exit of the loop. *)
Definition SkipDependentsOf (plan : option Plan) (failedID : string) : option Plan :=
  match plan with
  | None => None
  | Some p => Some (skip_loop (S (queued_count p)) p)
  end.

Definition cancel_running_task (reason : string) (t : Task) : Task :=
  if decide (Task_Status t = TaskRunning) then
    task_set_error (TrimSpace reason) (task_set_status TaskCancelled t)
  else t.

Definition CancelRunning (plan : option Plan) (reason : string) : option Plan :=
  match plan with
  | None => None
  | Some p =>
    Some (plan_set_active "" (plan_set_running []
      (plan_set_tasks (cancel_running_task reason <$> Plan_Tasks p) p)))
  end.

(** ** Counters and terminal checks *)

Definition countState (plan : option Plan) (state : TaskStatus) : nat :=
  match plan with
  | None => 0
  | Some p => length (filter (fun t => Task_Status t = state) (Plan_Tasks p))
  end.

Definition CompletedCount (plan : option Plan) : nat := countState plan TaskCompleted.
Definition FailedCount (plan : option Plan) : nat := countState plan TaskFailed.
Definition SkippedCount (plan : option Plan) : nat := countState plan TaskSkipped.
Definition RunningCount (plan : option Plan) : nat := countState plan TaskRunning.
Definition TotalCount (plan : option Plan) : nat :=
  match plan with None => 0 | Some p => length (Plan_Tasks p) end.

Definition task_terminal (t : Task) : bool :=
  match Task_Status t with
  | TaskCompleted | TaskFailed | TaskSkipped | TaskCancelled => true
  | _ => false
  end.

Definition IsDone (plan : option Plan) : bool :=
  match plan with
  | None => true
  | Some p => forallb (fun t => bool_decide (Task_Status t = TaskCompleted)) (Plan_Tasks p)
  end.

Definition Terminal (plan : option Plan) : bool :=
  match plan with
  | None => true
  | Some p => forallb task_terminal (Plan_Tasks p)
  end.

Definition HasFailures (plan : option Plan) : bool :=
  match plan with
  | None => false
  | Some p => existsb (fun t => bool_decide (Task_Status t = TaskFailed)) (Plan_Tasks p)
  end.

Definition Incomplete (plan : option Plan) : list (nat * Task) :=
  select_tasks (fun t => negb (task_terminal t)) plan.
