(* ===== verification/PlannerValidate.v ===== *)
(** * Correctness of plan validation ([planner/validate.go])

    [well_formed] is the contract of a validated plan.  [Validate] establishes
    it, and leaves a plan that already satisfies it unchanged. *)
From S2P Require Import Prelude GoLib Normalize Planner.
From stdpp Require Import pretty.
Import Str.

(** A task as validation leaves it. *)
Record task_wf (t : Task) : Prop := {
  wf_id : Trimmed (Task_ID t) ∧ Task_ID t ≠ "";
  wf_title : Trimmed (Task_Title t);
  wf_goal : Trimmed (Task_Goal t) ∧ Task_Goal t ≠ "";
  wf_kind : kind_known (Task_Kind t) = true ∧ Task_Kind t ≠ TaskKindEmpty;
  wf_status : status_known (Task_Status t) = true;
  wf_lists : clean (Task_DependsOn t) ∧ clean (Task_Outputs t)
             ∧ clean (Task_RequiredCapabilities t) ∧ clean (Task_VerificationHints t);
  wf_texts : Trimmed (Task_ResultSummary t) ∧ Trimmed (Task_Error t)
}.

Definition plan_ids (p : Plan) : list string := Task_ID <$> Plan_Tasks p.

(** The contract of a validated plan: identifiers are unique, every dependency,
    the final task and the active task name a task of the plan. *)
Record well_formed (p : Plan) : Prop := {
  wf_plan_goal : Trimmed (Plan_Goal p) ∧ Plan_Goal p ≠ "";
  wf_plan_summary : Trimmed (Plan_Summary p);
  wf_strategy : strategy_known (Plan_Strategy p) = true ∧ Plan_Strategy p ≠ StrategyEmpty;
  wf_failure : failure_policy_known (Plan_FailurePolicy p) = true
               ∧ Plan_FailurePolicy p ≠ FailurePolicyEmpty;
  wf_nonempty : Plan_Tasks p ≠ [];
  wf_tasks : Forall task_wf (Plan_Tasks p);
  wf_unique : NoDup (plan_ids p);
  wf_deps : Forall (fun t => forall d, d ∈ Task_DependsOn t -> d ∈ plan_ids p) (Plan_Tasks p);
  wf_final : Trimmed (Plan_FinalTask p) ∧ Plan_FinalTask p ∈ plan_ids p;
  wf_active : Trimmed (Plan_ActiveTask p)
              ∧ (Plan_ActiveTask p = "" ∨ Plan_ActiveTask p ∈ plan_ids p)
}.

(** ** The task loop *)

Lemma validate_trim_task_id i t :
  Trimmed (Task_ID (validate_trim_task i t)) ∧ Task_ID (validate_trim_task i t) ≠ "".
Proof.
  unfold validate_trim_task. simpl. case_decide as H.
  - split; [|done]. apply graphic_trimmed. rewrite graphic_app, graphic_pretty. done.
  - auto with golib.
Qed.

Lemma validate_task_ok seen i t t' :
  validate_task seen i t = (t', None) -> task_wf t' ∧ Task_ID t' ∉ seen.
Proof.
  unfold validate_task. pose proof (validate_trim_task_id i t) as Hid.
  set (t0 := validate_trim_task i t) in *.
  destruct (decide (Task_Goal t0 = "")); [done|].
  destruct (kind_known (Task_Kind t0)) eqn:Hk; [|done].
  destruct (status_known (Task_Status t0)) eqn:Hs; [|done]. simpl.
  case_decide; [done|]. intros [= <-]. split; [|done].
  split; simpl; auto.
  - apply Trimmed_TrimSpace.
  - split; [apply Trimmed_TrimSpace|done].
  - subst t0. simpl in Hk. by destruct (Task_Kind t).
  - unfold trimNonEmpty. auto with golib.
  - split; apply Trimmed_TrimSpace.
Qed.

Lemma validate_task_id seen i t :
  task_wf t -> Task_ID t ∉ seen -> validate_task seen i t = (t, None).
Proof.
  intros [[Hi ?] Ht [Hg ?] [Hk ?] Hs (?&?&?&?) [Hr He]] Hseen.
  destruct t as [id title kind goal deps outs caps hints st rs er]; simpl in *.
  unfold Trimmed in *. unfold validate_task, validate_trim_task. simpl.
  rewrite Hi, Ht, Hg, Hr, He.
  rewrite (decide_False (P := id = "")) by done.
  rewrite (decide_False (P := goal = "")) by done.
  rewrite Hk, Hs. simpl. rewrite decide_False by done.
  unfold validate_trim_lists, validate_default_kind; simpl.
  unfold trimNonEmpty. rewrite !dedupe_loop_id by (done || (intros; set_solver)).
  by destruct kind.
Qed.

Lemma validate_tasks_ok seen i ts ts' seen' :
  validate_tasks seen i ts = (ts', seen', None) ->
  Forall task_wf ts' ∧ NoDup (Task_ID <$> ts')
  ∧ (forall s, s ∈ (Task_ID <$> ts') -> s ∉ seen)
  ∧ length ts' = length ts
  ∧ (forall s, s ∈ seen' <-> s ∈ seen ∨ s ∈ (Task_ID <$> ts')).
Proof.
  revert seen i ts' seen'. induction ts as [|t ts IH]; intros seen i ts' seen'; simpl.
  - intros [= <- <-]. simpl. split_and!; try constructor; set_solver.
  - destruct (validate_task seen i t) as [t' [err|]] eqn:E; [done|].
    apply validate_task_ok in E as [Hwf Hnew].
    destruct (validate_tasks _ _ ts) as [[rest seen''] err'] eqn:E'.
    intros [= <- <- ->]. apply IH in E' as (?&?&Hfr&?&Hs).
    rewrite !fmap_cons. split_and!.
    + by constructor.
    + constructor; [|done]. intros ?%Hfr. set_solver.
    + intros s [->|Hs']%elem_of_cons; [done|]. apply Hfr in Hs'. set_solver.
    + simpl. lia.
    + intros s. rewrite Hs, elem_of_cons. set_solver.
Qed.

Lemma validate_tasks_id seen i ts :
  Forall task_wf ts -> NoDup (Task_ID <$> ts) ->
  (forall s, s ∈ (Task_ID <$> ts) -> s ∉ seen) ->
  exists seen', validate_tasks seen i ts = (ts, seen', None)
    ∧ forall s, s ∈ seen' <-> s ∈ seen ∨ s ∈ (Task_ID <$> ts).
Proof.
  revert seen i. induction ts as [|t ts IH]; intros seen i Hwf Hnd Hs; simpl.
  - exists seen. set_solver.
  - apply Forall_cons in Hwf as [Ht Hwf]. rewrite fmap_cons in *.
    apply NoDup_cons in Hnd as [Hn Hnd].
    rewrite validate_task_id by (done || set_solver).
    destruct (IH ({[Task_ID t]} ∪ seen) (S i) Hwf Hnd) as [seen' [-> Hs']]; [set_solver|].
    exists seen'. split; [done|]. intros s. rewrite Hs', elem_of_cons. set_solver.
Qed.

Lemma validate_deps_ok seen ts :
  validate_deps seen ts = None <->
  Forall (fun t => forall d, d ∈ Task_DependsOn t -> d ∈ seen) ts.
Proof.
  induction ts as [|t ts IH]; simpl; [by split|]. rewrite Forall_cons.
  destruct (list_find _ _) as [[j dep]|] eqn:E.
  - split; [done|]. intros [Ht _]. apply list_find_Some in E as (Hl&Hd&_).
    destruct Hd. eapply Ht, list_elem_of_lookup_2; eauto.
  - rewrite IH. apply list_find_None in E. rewrite Forall_forall in E.
    split; [|by intros []]. intros ?; split; [|done].
    intros d Hd. by apply dec_stable, E.
Qed.

(** ** The theorems *)

Lemma last_id_elem ts : ts ≠ [] -> from_option Task_ID "" (last ts) ∈ (Task_ID <$> ts).
Proof.
  intros Hne. destruct (last ts) as [t|] eqn:E; [|by apply last_None in E].
  simpl. apply list_elem_of_fmap. exists t. split; [done|].
  apply last_Some in E as [l ->]. set_solver.
Qed.

Lemma Validate_ok_wf p p' : Validate (Some p) = (Some p', None) -> well_formed p'.
Proof.
  unfold Validate. simpl. case_decide as Hgoal; [done|].
  destruct (decide (Plan_Tasks p = [])) as [|Hne]; [done|].
  destruct (strategy_known (Plan_Strategy p)) eqn:Hst; [|done]. simpl.
  destruct (failure_policy_known (Plan_FailurePolicy p)) eqn:Hfp; [|done]. simpl.
  destruct (validate_tasks ∅ 0 (Plan_Tasks p)) as [[ts seen] [e|]] eqn:Hts; [done|].
  destruct (validate_deps seen ts) eqn:Hdeps; [done|].
  apply validate_tasks_ok in Hts as (Hwf&Hnd&_&Hlen&Hseen).
  assert (Hts : ts ≠ []) by (intros ->; simpl in Hlen; by destruct (Plan_Tasks p)).
  assert (Hids : forall s, s ∈ seen <-> s ∈ (Task_ID <$> ts)) by set_solver.
  apply validate_deps_ok in Hdeps.
  case_decide as Hfin; [done|]. case_decide as Hact; [done|]. intros [= <-].
  split; unfold plan_ids; simpl in *; auto with golib.
  - destruct (Plan_Strategy p); naive_solver.
  - destruct (Plan_FailurePolicy p); naive_solver.
  - eapply Forall_impl; [exact Hdeps|]. simpl. intros t Ht d Hd. by apply Hids, Ht.
  - split.
    + unfold validate_final_task. simpl. case_decide; [|apply Trimmed_TrimSpace].
      pose proof (last_id_elem ts Hts) as [t [-> Ht]]%list_elem_of_fmap.
      rewrite Forall_forall in Hwf. by apply Hwf.
    + by apply Hids.
  - split; [apply Trimmed_TrimSpace|].
    destruct (decide (TrimSpace (Plan_ActiveTask p) = "")); [by left|right].
    apply Hids, dec_stable. naive_solver.
Qed.

(** The defaults of the two plan-level enumerations. *)
Definition plan_defaults (p : Plan) : Plan :=
  mkPlan (Plan_Goal p) (Plan_Summary p)
    (match Plan_Strategy p with StrategyEmpty => StrategySerial | s => s end)
    (match Plan_FailurePolicy p with FailurePolicyEmpty => FailFast | f => f end)
    (Plan_Tasks p) (Plan_FinalTask p) (Plan_CoverageWarnings p) (Plan_ActiveTask p)
    (Plan_RunningTasks p).

Lemma plan_defaults_wf p : well_formed p -> plan_defaults p = p.
Proof.
  intros [_ _ [_ ?] [_ ?] _ _ _ _ _ _]. destruct p as [? ? [] []]; done.
Qed.

Lemma validate_final_task_wf p : well_formed p -> validate_final_task p = Plan_FinalTask p.
Proof.
  intros Hw. destruct (wf_final _ Hw) as [Hf Hin]. unfold validate_final_task. rewrite Hf.
  rewrite decide_False; [done|]. intros E. rewrite E in Hin.
  apply list_elem_of_fmap in Hin as [t [? Ht]].
  pose proof (wf_tasks _ Hw) as Hts. rewrite Forall_forall in Hts.
  by destruct (wf_id _ (Hts t Ht)).
Qed.

Lemma Validate_defaults_id p :
  well_formed (plan_defaults p) -> Validate (Some p) = (Some (plan_defaults p), None).
Proof.
  intros Hw. pose proof (validate_final_task_wf _ Hw) as Hfinal.
  destruct Hw as [[Hg Hg'] Hs [Hst _] [Hfp _] Hne Hwf Hnd Hdeps [_ Hf'] [Ha Ha']].
  destruct p as [goal summary strategy fpol tasks final cov active running].
  unfold plan_ids, Trimmed in *; simpl in *.
  unfold Validate. simpl. rewrite Hg, Hs.
  rewrite (decide_False (P := goal = "")) by done.
  rewrite (decide_False (P := tasks = [])) by done.
  replace (strategy_known strategy) with true by (by destruct strategy).
  replace (failure_policy_known fpol) with true by (by destruct fpol). simpl.
  destruct (validate_tasks_id ∅ 0 tasks Hwf Hnd) as [seen [-> Hseen]]; [set_solver|].
  assert (Hids : forall s, s ∈ seen <-> s ∈ (Task_ID <$> tasks)) by set_solver.
  replace (validate_deps seen tasks) with (@None ValidateError).
  2:{ symmetry. apply validate_deps_ok. eapply Forall_impl; [exact Hdeps|].
      simpl. intros t Ht d Hd. by apply Hids, Ht. }
  unfold validate_final_task, plan_set_tasks, plan_set_active in *. simpl in *. rewrite Ha.
  rewrite Hfinal. rewrite decide_False by (intros H; apply H; by apply Hids).
  rewrite decide_False; [done|].
  intros [? Hn]. destruct Ha' as [?|?]; [done|].
  by apply Hn, Hids.
Qed.

Lemma Validate_wf_id p : well_formed p -> Validate (Some p) = (Some p, None).
Proof.
  intros Hw. pose proof (plan_defaults_wf _ Hw) as E.
  etrans; [apply Validate_defaults_id; by rewrite E|by rewrite E].
Qed.

(** C25: validation is sound.  A plan that [Validate] accepts is well-formed as
    the call leaves it: unique non-blank identifiers, known dependencies, a
    final task and an active task of the plan, legal enumerations and
    normalized texts; and validating it again succeeds and changes nothing. *)
Theorem Validate_sound (p p' : Plan) :
  Validate (Some p) = (Some p', None) ->
  well_formed p' ∧ Validate (Some p') = (Some p', None).
Proof. intros H%Validate_ok_wf. split; [done|by apply Validate_wf_id]. Qed.

(** validation is complete for normalized plans.  [Validate] leaves a plan
    unchanged and accepts it exactly when the plan is well-formed. *)
Theorem Validate_fixpoint (p : Plan) :
  Validate (Some p) = (Some p, None) <-> well_formed p.
Proof. split; [apply Validate_ok_wf|apply Validate_wf_id]. Qed.

(** ** The fallback plan ([planner/prompt.go]) *)

Definition TrivialPlan (goal : string) : Plan :=
  let goal := TrimSpace goal in
  let goal := if decide (goal = "") then "Continue the current task." else goal in
  mkPlan goal goal StrategySerial FailurePolicyEmpty
    [mkTask "task_1" "" TaskExecute goal [] ["result"] [] [] TaskStatusEmpty "" ""]
    "task_1" [] "" [].

Lemma TrivialPlan_wf goal : well_formed (plan_defaults (TrivialPlan goal)).
Proof.
  assert (Hg : Trimmed (Plan_Goal (TrivialPlan goal)) ∧ Plan_Goal (TrivialPlan goal) ≠ "").
  { unfold TrivialPlan. simpl. case_decide; [by vm_compute|].
    split; [apply Trimmed_TrimSpace|done]. }
  unfold TrivialPlan in *. set (g := if decide _ then _ else _) in *. simpl in Hg. clearbody g.
  destruct Hg. split; unfold plan_ids; simpl; try done.
  - repeat constructor; simpl; done || (by vm_compute) || set_solver.
  - apply NoDup_singleton.
  - repeat constructor; simpl in *; set_solver.
  - split; [by vm_compute|by left].
  - split; [by vm_compute|by left].
Qed.

(** the fallback plan is executable.  Whatever the goal text, the plan built
    when planning fails passes validation, and once its statuses are
    normalized its single task is the ready task. *)
Theorem TrivialPlan_executable (goal : string) :
  exists p, Validate (Some (TrivialPlan goal)) = (Some p, None)
    ∧ exists q t, NormalizeExecution (Some p) = Some q ∧ NextReady (Some q) = Some (0, t)
        ∧ Task_ID t = "task_1" ∧ Task_Goal t = Plan_Goal (TrivialPlan goal).
Proof.
  eexists. split; [apply Validate_defaults_id, TrivialPlan_wf|].
  unfold TrivialPlan. set (g := if decide _ then _ else _). clearbody g.
  eexists _, _. split_and!; [vm_compute; reflexivity..|reflexivity|reflexivity].
Qed.

(** A plan as a language model returns it: blank padding, duplicate and unsorted
    dependencies, defaults left out. *)
Definition raw_plan : Plan :=
  mkPlan " ship it " "" StrategyEmpty ContinueOnError
    [ mkTask "fetch" "" TaskResearch "read the issue" [] [] [] [] TaskStatusEmpty "" "";
      mkTask "" "" TaskKindEmpty " write a patch" [" fetch"; "fetch"; ""] [] [] []
        TaskQueued "" "";
      mkTask "send " "" TaskDeliver "report" ["task_2"; "fetch"] [] [] [] TaskQueued "" "" ]
    "" [] "" [].

Lemma Validate_sound_witness :
  exists p', Validate (Some raw_plan) = (Some p', None) ∧ well_formed p'
             ∧ plan_ids p' = ["fetch"; "task_2"; "send"].
Proof.
  eexists. split; [vm_compute; reflexivity|]. split; [|reflexivity].
  eapply (Validate_sound raw_plan). vm_compute. reflexivity.
Defined.
