(* ===== verification/PlannerState.v ===== *)
(** * The task state machine: transitions and the running-set invariant
    ([planner/state.go])

    [plan_step] is one call of a mutating operation of the package.  Every step
    moves each task along [AllowedTaskTransitions], and keeps [RunningTasks]
    equal to the set of tasks whose status is [TaskRunning]. *)
From S2P Require Import Prelude GoLib Normalize Planner PlannerValidate.
From stdpp Require Import relations.
Import Str.

(** ** Statuses *)

(** Statuses the state machine knows, as [NormalizeExecution] leaves them. *)
Definition normal_status (s : TaskStatus) : Prop :=
  status_known s = true ∧ s ≠ TaskStatusEmpty.

Definition plan_normal (p : Plan) : Prop :=
  Forall (fun t => normal_status (Task_Status t)) (Plan_Tasks p).

(** What a step may do to one task: its identity and dependencies are fixed and
    its status stays or follows the state machine. *)
Definition task_moves (t t' : Task) : Prop :=
  Task_ID t' = Task_ID t ∧ Task_DependsOn t' = Task_DependsOn t
  ∧ (Task_Status t' = Task_Status t
     ∨ ValidTaskTransition (Task_Status t) (Task_Status t') = true).

Definition tasks_move (p p' : Plan) : Prop :=
  Forall2 task_moves (Plan_Tasks p) (Plan_Tasks p').

Inductive plan_step : Plan -> Plan -> Prop :=
  | step_normalize p p' : NormalizeExecution (Some p) = Some p' -> plan_step p p'
  | step_running p p' ids : MarkRunning (Some p) ids = Some p' -> plan_step p p'
  | step_completed p p' id s : MarkCompleted (Some p) id s = Some p' -> plan_step p p'
  | step_failed p p' id e : MarkFailed (Some p) id e = Some p' -> plan_step p p'
  | step_skipped p p' id r : MarkSkipped (Some p) id r = Some p' -> plan_step p p'
  | step_skip_deps p p' id : SkipDependentsOf (Some p) id = Some p' -> plan_step p p'
  | step_cancel p p' r : CancelRunning (Some p) r = Some p' -> plan_step p p'.

#[export] Instance task_moves_refl : Reflexive task_moves.
Proof. intros t. repeat split; auto. Qed.

#[export] Instance tasks_move_refl : Reflexive tasks_move.
Proof. intros p. unfold tasks_move. reflexivity. Qed.

Create HintDb plan.
#[export] Hint Resolve task_moves_refl tasks_move_refl : plan.

(** ** Writing through a task pointer *)

Lemma Forall2_alter_r {A} (R : A -> A -> Prop) `{!Reflexive R} f i (l : list A) :
  (forall x, l !! i = Some x -> R x (f x)) -> Forall2 R l (alter f i l).
Proof.
  intros Hf. apply Forall2_same_length_lookup. split; [by rewrite length_alter|].
  intros j x y Hx Hy. destruct (decide (i = j)) as [->|].
  - rewrite list_lookup_alter_eq, Hx in Hy. simplify_eq/=. by apply Hf.
  - rewrite list_lookup_alter_ne in Hy by done. simplify_eq. reflexivity.
Qed.

Lemma plan_write_moves i f p :
  (forall t, Plan_Tasks p !! i = Some t -> task_moves t (f t)) ->
  tasks_move p (plan_write i f p).
Proof. intros. by apply Forall2_alter_r; [apply _|]. Qed.

Lemma FindTask_Some p id i t :
  FindTask (Some p) id = Some (i, t) ->
  Plan_Tasks p !! i = Some t ∧ Task_ID t = id ∧ TrimSpace id ≠ "".
Proof.
  unfold FindTask. case_decide; [done|]. intros (?&?&_)%list_find_Some. done.
Qed.

(** Moves of one kind: the status stays, or goes from [from] to [to]. *)
Definition via (from to : TaskStatus) (t t' : Task) : Prop :=
  Task_ID t' = Task_ID t ∧ Task_DependsOn t' = Task_DependsOn t
  ∧ (Task_Status t' = Task_Status t ∨ (Task_Status t = from ∧ Task_Status t' = to)).

#[export] Instance via_refl from to : Reflexive (via from to).
Proof. intros t. repeat split; auto. Qed.

#[export] Instance via_trans from to : Transitive (via from to).
Proof.
  intros t t' t'' (?&?&M) (?&?&M'). repeat split; [congruence..|].
  destruct M as [M|[M1 M2]], M' as [M'|[M1' M2']]; [left|right|right|]; try split; try congruence.
  destruct (decide (from = to)); [left|right; split]; congruence.
Qed.

Lemma via_moves from to t t' :
  ValidTaskTransition from to = true -> via from to t t' -> task_moves t t'.
Proof.
  intros HV (?&?&[?|[E1 E2]]); repeat split; auto. right. by rewrite E1, E2.
Qed.

Definition plan_via (from to : TaskStatus) (p p' : Plan) : Prop :=
  Forall2 (via from to) (Plan_Tasks p) (Plan_Tasks p').

#[export] Instance plan_via_refl from to : Reflexive (plan_via from to).
Proof. intros p. unfold plan_via. reflexivity. Qed.

#[export] Instance plan_via_trans from to : Transitive (plan_via from to).
Proof. intros p1 p2 p3. unfold plan_via. apply transitivity. Qed.

Lemma plan_via_moves from to p p' :
  ValidTaskTransition from to = true -> plan_via from to p p' -> tasks_move p p'.
Proof. intros HV H. eapply Forall2_impl; [exact H|]. intros. by eapply via_moves. Qed.

(** A write that sends a task of status [from] to status [to]. *)
Lemma plan_write_via from to i f p :
  (forall t, Plan_Tasks p !! i = Some t -> Task_Status t = from
     ∧ Task_ID (f t) = Task_ID t ∧ Task_DependsOn (f t) = Task_DependsOn t
     ∧ Task_Status (f t) = to) ->
  plan_via from to p (plan_write i f p).
Proof.
  intros Hf. apply Forall2_alter_r; [apply _|]. intros t Ht.
  destruct (Hf t Ht) as (?&?&?&?). repeat split; auto.
Qed.

(** ** The steps move tasks along the state machine *)

Lemma markRunning_one_via p id : plan_via TaskQueued TaskRunning p (markRunning_one p id).
Proof.
  unfold markRunning_one. destruct (FindTask (Some p) id) as [[i t]|] eqn:E; [|reflexivity].
  case_decide as Hs; [|reflexivity]. apply FindTask_Some in E as (E&_&_).
  unfold plan_via. simpl. apply plan_write_via. intros ? ?. simplify_eq. done.
Qed.

Lemma MarkRunning_via p p' ids :
  MarkRunning (Some p) ids = Some p' -> plan_via TaskQueued TaskRunning p p'.
Proof.
  intros [= <-]. trans (foldl markRunning_one p ids); [|unfold plan_via; repeat case_match; reflexivity].
  revert p. induction ids as [|id ids IH]; intros p; simpl; [reflexivity|].
  etrans; [apply markRunning_one_via|apply IH].
Qed.

Lemma release_running_tasks id p : Plan_Tasks (release_running id p) = Plan_Tasks p.
Proof. unfold release_running. by case_decide. Qed.

Lemma MarkCompleted_via p p' id s :
  MarkCompleted (Some p) id s = Some p' -> plan_via TaskRunning TaskCompleted p p'.
Proof.
  unfold MarkCompleted. destruct (FindTask (Some p) id) as [[i t]|] eqn:E.
  - case_decide as Hs; intros [= <-]; [reflexivity|]. apply FindTask_Some in E as (E&_&_).
    unfold plan_via. rewrite release_running_tasks.
    apply plan_write_via. intros ? ?. simplify_eq. done.
  - intros [= <-]. unfold plan_via. by rewrite release_running_tasks.
Qed.

Lemma MarkFailed_via p p' id s :
  MarkFailed (Some p) id s = Some p' -> plan_via TaskRunning TaskFailed p p'.
Proof.
  unfold MarkFailed. destruct (FindTask (Some p) id) as [[i t]|] eqn:E.
  - case_decide as Hs; intros [= <-]; [reflexivity|]. apply FindTask_Some in E as (E&_&_).
    unfold plan_via. rewrite release_running_tasks.
    apply plan_write_via. intros ? ?. simplify_eq. done.
  - intros [= <-]. unfold plan_via. by rewrite release_running_tasks.
Qed.

Lemma MarkSkipped_moves p p' id r :
  MarkSkipped (Some p) id r = Some p' -> tasks_move p p'.
Proof.
  unfold MarkSkipped. intros [= <-]. unfold tasks_move.
  match goal with |- Forall2 _ _ (Plan_Tasks (if _ then plan_set_active _ ?q else _)) =>
    set (q' := q) end.
  replace (Plan_Tasks (if decide (Plan_ActiveTask q' = id) then plan_set_active "" q' else q'))
    with (Plan_Tasks q') by by case_decide.
  subst q'. simpl. destruct (FindTask (Some p) id) as [[i t]|] eqn:E; [|reflexivity].
  case_decide as Hs; [|reflexivity]. apply FindTask_Some in E as (E&_&_).
  destruct Hs as [Hs|Hs].
  - apply (plan_via_moves TaskQueued TaskSkipped); [done|]. apply plan_write_via.
    intros ? ?. by simplify_eq.
  - apply (plan_via_moves TaskRunning TaskSkipped); [done|]. apply plan_write_via.
    intros ? ?. by simplify_eq.
Qed.

Lemma skip_one_via p i : plan_via TaskQueued TaskSkipped p (skip_one p i).1.
Proof.
  unfold skip_one. destruct (Plan_Tasks p !! i) as [t|] eqn:E; [|reflexivity].
  case_decide as Hs; [reflexivity|]. destruct (list_find _ _) as [[? dep]|]; [|reflexivity].
  simpl. apply plan_write_via. intros ? ?. simplify_eq. done.
Qed.

(** The fold of one pass, from any accumulator. *)
Lemma skip_fold_via ixs p b :
  plan_via TaskQueued TaskSkipped p
    (foldl (fun acc i => let '(p', c) := skip_one acc.1 i in (p', acc.2 || c)) (p, b) ixs).1.
Proof.
  revert p b. induction ixs as [|i ixs IH]; intros p b; simpl; [reflexivity|].
  destruct (skip_one p i) as [p' c] eqn:E. etrans; [|apply IH].
  pose proof (skip_one_via p i) as H. by rewrite E in H.
Qed.

Lemma skip_loop_via n p : plan_via TaskQueued TaskSkipped p (skip_loop n p).
Proof.
  revert p. induction n as [|n IH]; intros p; simpl; [reflexivity|].
  destruct (skip_pass p) as [p' c] eqn:E.
  assert (plan_via TaskQueued TaskSkipped p p').
  { pose proof (skip_fold_via (seq 0 (length (Plan_Tasks p))) p false) as H.
    unfold skip_pass in E. by rewrite E in H. }
  destruct c; [|done]. by etrans; [|apply IH].
Qed.

Lemma CancelRunning_via p p' r :
  CancelRunning (Some p) r = Some p' -> plan_via TaskRunning TaskCancelled p p'.
Proof.
  intros [= <-]. unfold plan_via. simpl. induction (Plan_Tasks p) as [|t ts IH]; [constructor|].
  constructor; [|done]. unfold cancel_running_task. case_decide; [|reflexivity].
  repeat split. by right.
Qed.

Lemma normalize_task_normal t :
  normal_status (Task_Status t) -> Task_Status (normalize_task t) = Task_Status t.
Proof.
  intros [H1 H2]. unfold normalize_task. simpl. rewrite H1. simpl. by rewrite decide_False.
Qed.

Lemma normalize_task_ids t :
  Task_ID (normalize_task t) = Task_ID t ∧ Task_DependsOn (normalize_task t) = Task_DependsOn t.
Proof. unfold normalize_task. simpl. by repeat case_match. Qed.

Lemma NormalizeExecution_tasks p p' :
  NormalizeExecution (Some p) = Some p' -> Plan_Tasks p' = normalize_task <$> Plan_Tasks p.
Proof. unfold NormalizeExecution. intros [= <-]. simpl. by repeat case_match. Qed.

Lemma NormalizeExecution_moves p p' :
  plan_normal p -> NormalizeExecution (Some p) = Some p' -> tasks_move p p'.
Proof.
  intros Hn H%NormalizeExecution_tasks. unfold tasks_move. rewrite H.
  unfold plan_normal in Hn. clear H.
  induction Hn as [|t ts Ht Hts IH]; [constructor|]. constructor; [|done].
  destruct (normalize_task_ids t). repeat split; auto using normalize_task_normal.
Qed.

Lemma plan_step_moves p p' : plan_normal p -> plan_step p p' -> tasks_move p p'.
Proof.
  intros Hn Hstep. revert Hn.
  destruct Hstep as [q q' H|q q' ids H|q q' id s H|q q' id e H|q q' id r H|q q' id H|q q' r H];
    intros Hn.
  - by eapply NormalizeExecution_moves.
  - by eapply plan_via_moves, MarkRunning_via.
  - by eapply plan_via_moves, MarkCompleted_via.
  - by eapply plan_via_moves, MarkFailed_via.
  - by eapply MarkSkipped_moves.
  - apply (inj Some) in H as <-. by eapply plan_via_moves, skip_loop_via.
  - by eapply plan_via_moves, CancelRunning_via.
Qed.

Lemma valid_target_normal s s' : ValidTaskTransition s s' = true -> normal_status s'.
Proof. destruct s, s'; by vm_compute. Qed.

Lemma tasks_move_normal p p' : plan_normal p -> tasks_move p p' -> plan_normal p'.
Proof.
  unfold plan_normal, tasks_move. intros Hn Hm.
  induction Hm as [|t t' ts ts' (_&_&M) _ IH]; [constructor|].
  apply Forall_cons in Hn as [Ht Hn]. constructor; [|auto].
  destruct M as [->|M]; [done|]. by eapply valid_target_normal.
Qed.

(** ** Terminal statuses are final *)

Lemma terminal_no_transition t s :
  task_terminal t = true -> ValidTaskTransition (Task_Status t) s = false.
Proof. unfold task_terminal. by destruct (Task_Status t). Qed.

Lemma tasks_move_terminal p p' i t :
  tasks_move p p' -> Plan_Tasks p !! i = Some t -> task_terminal t = true ->
  exists t', Plan_Tasks p' !! i = Some t' ∧ Task_ID t' = Task_ID t
             ∧ Task_Status t' = Task_Status t ∧ task_terminal t' = true.
Proof.
  intros Hm Ht Hterm. destruct (Forall2_lookup_l _ _ _ _ _ Hm Ht) as [t' [Ht' (?&_&M)]].
  exists t'. assert (Hs : Task_Status t' = Task_Status t).
  { destruct M as [->|M]; [done|]. by rewrite terminal_no_transition in M. }
  split_and!; auto. unfold task_terminal in *. by rewrite Hs.
Qed.

Lemma plan_steps_normal p p' : plan_normal p -> rtc plan_step p p' -> plan_normal p'.
Proof.
  intros Hn Hr. induction Hr as [|p q p' Hs _ IH]; [done|].
  eapply IH, tasks_move_normal, plan_step_moves; eauto.
Qed.

(** ** The running-set invariant *)

(** Identifiers as [Validate] leaves them: unique, trimmed, not blank. *)
Definition ids_ok (p : Plan) : Prop :=
  NoDup (plan_ids p) ∧ Forall (fun id => Trimmed id ∧ id ≠ "") (plan_ids p).

(** [RunningTasks] lists, without duplicates, exactly the running tasks, and the
    active task is one of them. *)
Record exec_inv (p : Plan) : Prop := {
  inv_ids : ids_ok p;
  inv_nodup : NoDup (Plan_RunningTasks p);
  inv_running : forall id, id ∈ Plan_RunningTasks p <-> is_running p id = true;
  inv_active : Plan_ActiveTask p = "" ∨ Plan_ActiveTask p ∈ Plan_RunningTasks p
}.

Lemma plan_ids_moves p p' : tasks_move p p' -> plan_ids p' = plan_ids p.
Proof.
  unfold tasks_move, plan_ids. induction 1 as [|t t' ts ts' (?&_) _ IH]; [done|].
  rewrite !fmap_cons. by f_equal.
Qed.

Lemma FindTask_unique p i t :
  ids_ok p ->
  Plan_Tasks p !! i = Some t -> FindTask (Some p) (Task_ID t) = Some (i, t).
Proof.
  intros [Hnd Hb] Ht. unfold FindTask. rewrite decide_False.
  2:{ rewrite Forall_forall in Hb. destruct (Hb (Task_ID t)) as [-> ?]; [|done].
      apply list_elem_of_fmap. exists t. split; [done|]. by eapply list_elem_of_lookup_2. }
  apply list_find_Some. split_and!; [done..|]. intros j t' Ht' Hlt E.
  assert (j = i); [|lia]. eapply NoDup_lookup; [exact Hnd|..];
    unfold plan_ids; rewrite list_lookup_fmap; [by rewrite Ht'|rewrite Ht; simpl; by rewrite E].
Qed.

Lemma is_running_iff p id :
  ids_ok p ->
  is_running p id = true <->
  exists i t, Plan_Tasks p !! i = Some t ∧ Task_ID t = id ∧ Task_Status t = TaskRunning.
Proof.
  intros Hok. unfold is_running. split.
  - destruct (FindTask (Some p) id) as [[i t]|] eqn:E; [|done]. intros ?%bool_decide_eq_true.
    apply FindTask_Some in E as (?&?&_). eauto.
  - intros (i&t&Ht&<-&Hs). rewrite (FindTask_unique p i t) by done. by bool_prop.
Qed.

(** [is_running] depends on the tasks only. *)
Lemma is_running_tasks p q id : Plan_Tasks p = Plan_Tasks q -> is_running p id = is_running q id.
Proof. unfold is_running, FindTask. by intros ->. Qed.

Lemma is_running_set_running r p id : is_running (plan_set_running r p) id = is_running p id.
Proof. by apply is_running_tasks. Qed.

Lemma is_running_set_active a p id : is_running (plan_set_active a p) id = is_running p id.
Proof. by apply is_running_tasks. Qed.

#[export] Hint Rewrite is_running_set_running is_running_set_active : plan.

(** Writing status [s] to the task with identifier [id] only affects [id]. *)
Lemma is_running_write p i t f s :
  ids_ok p ->
  Plan_Tasks p !! i = Some t ->
  (forall t, Task_ID (f t) = Task_ID t ∧ Task_Status (f t) = s) ->
  forall id, is_running (plan_write i f p) id
             = if decide (id = Task_ID t) then bool_decide (s = TaskRunning)
               else is_running p id.
Proof.
  intros Hok Ht Hf id. destruct (Hf t) as [Hid Hs].
  assert (Hids : plan_ids (plan_write i f p) = plan_ids p).
  { unfold plan_ids. simpl. apply list_eq. intros j. rewrite !list_lookup_fmap.
    destruct (decide (i = j)) as [->|];
      [rewrite list_lookup_alter_eq | by rewrite list_lookup_alter_ne].
    rewrite Ht. simpl. by rewrite Hid. }
  apply eq_bool_prop_intro. rewrite !Is_true_true.
  rewrite is_running_iff by (unfold ids_ok; by rewrite Hids). case_decide as E.
  - subst id. rewrite bool_decide_eq_true. split.
    + intros (j&t'&Ht'&E&<-). destruct (decide (i = j)) as [->|Hne].
      * simpl in Ht'. rewrite list_lookup_alter_eq, Ht in Ht'. by simplify_eq/=.
      * simpl in Ht'. rewrite list_lookup_alter_ne in Ht' by done. destruct Hne.
        eapply NoDup_lookup; [apply Hok|..]; unfold plan_ids; rewrite list_lookup_fmap;
          [by rewrite Ht|rewrite Ht'; simpl; by rewrite E].
    + intros ->. exists i, (f t). simpl. by rewrite list_lookup_alter_eq, Ht.
  - rewrite is_running_iff by done.
    split; intros (j&t'&Ht'&E'&Hr); exists j, t'; split; [|done| |done]; simpl in *.
    + destruct (decide (i = j)) as [->|]; [|by rewrite list_lookup_alter_ne in Ht'].
      rewrite list_lookup_alter_eq, Ht in Ht'. simplify_eq/=.
    + rewrite list_lookup_alter_ne; [done|]. intros ->. congruence.
Qed.

(** ** Preservation *)

Lemma elem_of_appendUnique l v x : x ∈ appendUnique l v <-> x ∈ l ∨ x = v.
Proof.
  induction l as [|y l IH]; simpl; [set_solver|]. case_decide; [set_solver|].
  rewrite !elem_of_cons, IH. tauto.
Qed.

Lemma NoDup_appendUnique l v : NoDup l -> NoDup (appendUnique l v).
Proof.
  induction 1 as [|y l Hy Hl IH]; simpl; [apply NoDup_singleton|].
  case_decide; constructor; auto. rewrite elem_of_appendUnique. naive_solver.
Qed.

Lemma elem_of_removeString l v x : x ∈ removeString l v <-> x ≠ v ∧ x ∈ l.
Proof. unfold removeString. by rewrite list_elem_of_filter. Qed.

Lemma ids_ok_moves p p' : tasks_move p p' -> ids_ok p -> ids_ok p'.
Proof. unfold ids_ok. by intros ->%plan_ids_moves. Qed.

Lemma is_running_not_found p id : FindTask (Some p) id = None -> is_running p id = false.
Proof. unfold is_running. by intros ->. Qed.

Lemma is_running_find p id i t :
  FindTask (Some p) id = Some (i, t) ->
  is_running p id = bool_decide (Task_Status t = TaskRunning).
Proof. unfold is_running. by intros ->. Qed.

Lemma markRunning_one_inv p id : exec_inv p -> exec_inv (markRunning_one p id).
Proof.
  intros [Hok Hnd Hr Ha]. pose proof (markRunning_one_via p id) as Hvia.
  apply plan_via_moves in Hvia; [|done]. unfold markRunning_one in *.
  destruct (FindTask (Some p) id) as [[i t]|] eqn:E; [|done]. case_decide as Hs; [|done].
  apply FindTask_Some in E as (Ht&Hid&_). split; simpl.
  - by eapply ids_ok_moves.
  - by apply NoDup_appendUnique.
  - intros id'. rewrite elem_of_appendUnique, Hr.
    autorewrite with plan. rewrite (is_running_write p i t _ TaskRunning) by done.
    rewrite Hid. case_decide; naive_solver.
  - destruct Ha; [by left|right]. rewrite elem_of_appendUnique. by left.
Qed.

Lemma MarkRunning_inv p p' ids :
  exec_inv p -> MarkRunning (Some p) ids = Some p' -> exec_inv p'.
Proof.
  intros Hinv [= <-]. assert (exec_inv (foldl markRunning_one p ids)) as [Hok Hnd Hr Ha].
  { revert p Hinv. induction ids as [|id ids IH]; intros p Hinv; simpl; [done|].
    by apply IH, markRunning_one_inv. }
  destruct (Plan_RunningTasks _) as [|r rs] eqn:E; [split; rewrite ?E; done|].
  case_decide; split; simpl; rewrite ?E; try done. right. apply list_elem_of_here.
Qed.

(** The state between the status write and [release_running]: the running set
    is right except for [id], which no longer runs. *)
Lemma release_running_inv p id :
  ids_ok p -> NoDup (Plan_RunningTasks p) -> is_running p id = false ->
  (forall id', id' ≠ id -> id' ∈ Plan_RunningTasks p <-> is_running p id' = true) ->
  (Plan_ActiveTask p = "" ∨ Plan_ActiveTask p ∈ Plan_RunningTasks p) ->
  exec_inv (release_running id p)
  ∧ exec_inv (plan_set_running (removeString (Plan_RunningTasks p) id)
                (if decide (Plan_ActiveTask p = id) then plan_set_active "" p else p)).
Proof.
  intros Hok Hnd Hid Hr Ha.
  assert (Hr' : forall id', id' ∈ removeString (Plan_RunningTasks p) id
                            <-> is_running p id' = true).
  { intros id'. rewrite elem_of_removeString. destruct (decide (id' = id)) as [->|].
    - rewrite Hid. naive_solver.
    - rewrite Hr by done. naive_solver. }
  assert (Hnd' : NoDup (removeString (Plan_RunningTasks p) id)) by by apply NoDup_filter.
  assert (Ha' : Plan_ActiveTask p ≠ id -> Plan_ActiveTask p = ""
                ∨ Plan_ActiveTask p ∈ removeString (Plan_RunningTasks p) id).
  { intros. destruct Ha; [by left|right]. by rewrite elem_of_removeString. }
  unfold release_running. simpl. split; case_decide; split; simpl; auto.
  destruct (removeString _ _); [by left|right; apply list_elem_of_here].
Qed.

(** A write that takes the task named [id] out of [TaskRunning]. *)
Lemma write_release_inv p id i t f s :
  exec_inv p -> FindTask (Some p) id = Some (i, t) -> s ≠ TaskRunning ->
  (forall t, Task_ID (f t) = Task_ID t ∧ Task_Status (f t) = s) ->
  tasks_move p (plan_write i f p) ->
  exec_inv (release_running id (plan_write i f p))
  ∧ exec_inv (plan_set_running (removeString (Plan_RunningTasks p) id)
      (if decide (Plan_ActiveTask p = id) then plan_set_active "" (plan_write i f p)
       else plan_write i f p)).
Proof.
  intros [Hok Hnd Hr Ha] E Hs Hf Hm. apply FindTask_Some in E as (Ht&Hid&_).
  pose proof (is_running_write p i t f s Hok Ht Hf) as Hw. rewrite Hid in Hw.
  apply (release_running_inv (plan_write i f p)); simpl; [by eapply ids_ok_moves|done|..|done].
  - rewrite Hw, decide_True by done. by bool_prop.
  - intros id' Hne. by rewrite Hw, decide_False, Hr.
Qed.

Lemma MarkCompleted_inv p p' id s :
  exec_inv p -> MarkCompleted (Some p) id s = Some p' -> exec_inv p'.
Proof.
  unfold MarkCompleted. intros Hinv. destruct (FindTask (Some p) id) as [[i t]|] eqn:E.
  - case_decide as Hs; intros [= <-]; [done|]. pose proof (FindTask_Some _ _ _ _ E) as (Ht&_).
    eapply (write_release_inv p id i t _ TaskCompleted); [done..|].
    apply (plan_via_moves TaskRunning TaskCompleted); [done|]. apply plan_write_via.
    intros ??. by simplify_eq.
  - intros [= <-]. destruct Hinv. apply release_running_inv; auto using is_running_not_found.
Qed.

Lemma MarkFailed_inv p p' id s :
  exec_inv p -> MarkFailed (Some p) id s = Some p' -> exec_inv p'.
Proof.
  unfold MarkFailed. intros Hinv. destruct (FindTask (Some p) id) as [[i t]|] eqn:E.
  - case_decide as Hs; intros [= <-]; [done|]. pose proof (FindTask_Some _ _ _ _ E) as (Ht&_).
    eapply (write_release_inv p id i t _ TaskFailed); [done..|].
    apply (plan_via_moves TaskRunning TaskFailed); [done|]. apply plan_write_via.
    intros ??. by simplify_eq.
  - intros [= <-]. destruct Hinv. apply release_running_inv; auto using is_running_not_found.
Qed.

Lemma MarkSkipped_shape p id r :
  MarkSkipped (Some p) id r =
  Some (let q := match FindTask (Some p) id with
                 | Some (i, t) =>
                   if decide (Task_Status t = TaskQueued ∨ Task_Status t = TaskRunning)
                   then plan_write i (fun t =>
                     task_set_error (TrimSpace r) (task_set_status TaskSkipped t)) p
                   else p
                 | None => p
                 end in
        plan_set_running (removeString (Plan_RunningTasks p) id)
          (if decide (Plan_ActiveTask p = id) then plan_set_active "" q else q)).
Proof.
  unfold MarkSkipped. f_equal. destruct (FindTask (Some p) id) as [[i t]|];
    repeat case_decide; simpl in *; congruence || done.
Qed.

Lemma MarkSkipped_inv p p' id r :
  exec_inv p -> MarkSkipped (Some p) id r = Some p' -> exec_inv p'.
Proof.
  rewrite MarkSkipped_shape. intros Hinv [= <-].
  destruct (FindTask (Some p) id) as [[i t]|] eqn:E; simpl.
  - pose proof (FindTask_Some _ _ _ _ E) as (Ht&_).
    destruct (decide (Task_Status t = TaskQueued ∨ Task_Status t = TaskRunning)) as [Hs|Hs].
    + eapply (write_release_inv p id i t _ TaskSkipped); [done..|].
      eapply Forall2_alter_r; [apply _|]. intros ? ?. simplify_eq.
      repeat split. right. simpl. destruct Hs as [-> | ->]; done.
    + destruct Hinv. apply release_running_inv; auto.
      rewrite (is_running_find _ _ _ _ E). bool_prop. naive_solver.
  - destruct Hinv. apply release_running_inv; auto using is_running_not_found.
Qed.

(** Moves between statuses other than [TaskRunning] do not change who runs. *)
Lemma plan_via_is_running from to p p' id :
  from ≠ TaskRunning -> to ≠ TaskRunning -> ids_ok p -> plan_via from to p p' ->
  ids_ok p' -> is_running p' id = is_running p id.
Proof.
  intros Hf Ht Hok Hv Hok'. apply eq_bool_prop_intro. rewrite !Is_true_true, !is_running_iff by done.
  split; intros (i&t&Hl&Hid&Hs).
  - destruct (Forall2_lookup_r _ _ _ _ _ Hv Hl) as [t' [? (?&?&[?|[? ?]])]]; [|congruence].
    exists i, t'. split_and!; congruence.
  - destruct (Forall2_lookup_l _ _ _ _ _ Hv Hl) as [t' [? (?&?&[?|[? ?]])]]; [|congruence].
    exists i, t'. split_and!; congruence.
Qed.

Lemma skip_frame_running n p :
  Plan_RunningTasks (skip_loop n p) = Plan_RunningTasks p
  ∧ Plan_ActiveTask (skip_loop n p) = Plan_ActiveTask p.
Proof.
  assert (Hone : forall q i, Plan_RunningTasks (skip_one q i).1 = Plan_RunningTasks q
                             ∧ Plan_ActiveTask (skip_one q i).1 = Plan_ActiveTask q).
  { intros q i. unfold skip_one. repeat case_match; done. }
  assert (Hfold : forall ixs q b, let r := foldl (fun acc i =>
      let '(p', c) := skip_one acc.1 i in (p', acc.2 || c)) (q, b) ixs in
      Plan_RunningTasks r.1 = Plan_RunningTasks q ∧ Plan_ActiveTask r.1 = Plan_ActiveTask q).
  { induction ixs as [|i ixs IH]; intros q b; simpl; [done|].
    specialize (Hone q i). destruct (skip_one q i) as [q' c]. simpl in Hone.
    destruct Hone as [<- <-]. apply IH. }
  revert p. induction n as [|n IH]; intros p; simpl; [done|].
  specialize (Hfold (seq 0 (length (Plan_Tasks p))) p false). simpl in Hfold.
  unfold skip_pass. destruct (foldl _ _ _) as [q c]. simpl in Hfold.
  destruct Hfold as [<- <-]. by destruct c.
Qed.

Lemma SkipDependentsOf_inv p p' id :
  exec_inv p -> SkipDependentsOf (Some p) id = Some p' -> exec_inv p'.
Proof.
  intros [Hok Hnd Hr Ha] H. apply (inj Some) in H as <-.
  pose proof (skip_loop_via (S (queued_count p)) p) as Hv.
  destruct (skip_frame_running (S (queued_count p)) p) as [E1 E2].
  assert (Hok' : ids_ok (skip_loop (S (queued_count p)) p))
    by (eapply ids_ok_moves, Hok; by eapply plan_via_moves, Hv).
  revert Hv E1 E2 Hok'. generalize (skip_loop (S (queued_count p)) p). intros q Hv E1 E2 Hok'.
  split; [done|by rewrite E1| |rewrite E1, E2; exact Ha].
  intros x. rewrite E1, Hr. by rewrite (plan_via_is_running TaskQueued TaskSkipped p q x).
Qed.

Lemma CancelRunning_inv p p' r :
  exec_inv p -> CancelRunning (Some p) r = Some p' -> exec_inv p'.
Proof.
  intros [Hok _ _ _] H. pose proof (CancelRunning_via _ _ _ H) as Hv.
  assert (Hok' : ids_ok p') by (eapply ids_ok_moves, Hok; by eapply plan_via_moves, Hv).
  split; [done|injection H as <-; constructor| |injection H as <-; by left].
  intros id. injection H as <-. simpl. split; [by intros ?%elem_of_nil|].
  rewrite is_running_iff by done. intros (i&t&Hl&_&Hs). simpl in Hl.
  rewrite list_lookup_fmap in Hl. destruct (Plan_Tasks p !! i) as [t0|]; [|done].
  simplify_eq/=. unfold cancel_running_task in Hs. by case_decide.
Qed.

Lemma is_running_elem p id : is_running p id = true -> id ∈ plan_ids p.
Proof.
  unfold is_running. destruct (FindTask _ _) as [[i t]|] eqn:E; [|done]. intros _.
  apply FindTask_Some in E as (?&<-&_). apply list_elem_of_fmap.
  eauto using list_elem_of_lookup_2.
Qed.

Lemma NormalizeExecution_inv p p' :
  plan_normal p -> exec_inv p -> NormalizeExecution (Some p) = Some p' -> exec_inv p'.
Proof.
  intros Hn [Hok Hnd Hr Ha] H. pose proof (NormalizeExecution_moves _ _ Hn H) as Hm.
  pose proof (NormalizeExecution_tasks _ _ H) as HT.
  assert (Hok' : ids_ok p') by by eapply ids_ok_moves.
  assert (Hrun : forall id, is_running (plan_set_tasks (normalize_task <$> Plan_Tasks p) p) id
                            = is_running p id).
  { intros id. rewrite (is_running_tasks _ p') by (by rewrite HT).
    apply eq_bool_prop_intro. rewrite !Is_true_true, !is_running_iff by done. rewrite HT.
    setoid_rewrite list_lookup_fmap. split; intros (i&t&Hl&Hid&Hs).
    - destruct (Plan_Tasks p !! i) as [t0|] eqn:E; simplify_eq/=. exists i, t0.
      rewrite normalize_task_normal in Hs by (eapply Forall_lookup_1 in Hn; eauto).
      split_and!; auto. symmetry. apply normalize_task_ids.
    - exists i, (normalize_task t). rewrite Hl. split_and!; [done|rewrite <- Hid; apply normalize_task_ids|].
      rewrite normalize_task_normal; [done|]. by eapply Forall_lookup_1 in Hn. }
  assert (Htrim : TrimSpace (Plan_ActiveTask p) = Plan_ActiveTask p).
  { destruct Ha as [->|Ha]; [done|]. apply Hr, is_running_elem in Ha.
    destruct Hok as [_ Hok]. rewrite Forall_forall in Hok. by apply Hok in Ha as [? _]. }
  unfold NormalizeExecution in H. simpl in H. rewrite Htrim in H.
  set (q := plan_set_tasks _ _) in H.
  assert (Hq : forall id, is_running q id = is_running p id).
  { intros id. rewrite <- (Hrun id). by apply is_running_tasks. }
  rewrite Hq in H.
  assert (Hfilt : forall r, (forall id, is_running r id = is_running p id) ->
    filter (fun id => is_running r id = true) (Plan_RunningTasks p) = Plan_RunningTasks p).
  { intros r Hr'. apply list_filter_id. intros x Hx. rewrite Hr'. by apply Hr. }
  case_decide as Hact.
  - assert (Hrt : is_running p (Plan_ActiveTask p) = true) by (apply Hr; naive_solver).
    rewrite Hrt in H. injection H as <-. simpl in *. rewrite Hfilt in * by done.
    split; simpl; auto. intros id. autorewrite with plan. by rewrite Hr, Hq.
  - injection H as <-. simpl in *. rewrite Hfilt in * by done.
    split; simpl; auto. intros id. autorewrite with plan. by rewrite Hr, Hq.
Qed.

Lemma plan_step_inv p p' : plan_normal p -> exec_inv p -> plan_step p p' -> exec_inv p'.
Proof.
  intros Hn Hi Hs. revert Hn Hi. destruct Hs; intros Hn Hi.
  - by eapply NormalizeExecution_inv.
  - by eapply MarkRunning_inv.
  - by eapply MarkCompleted_inv.
  - by eapply MarkFailed_inv.
  - by eapply MarkSkipped_inv.
  - by eapply SkipDependentsOf_inv.
  - by eapply CancelRunning_inv.
Qed.

(** ** The theorems *)

(** C2: the operations of the planner follow the task state machine, and
    terminal statuses are final.  Whatever sequence of operations is applied to
    a plan in execution, each single operation moves every task along
    [AllowedTaskTransitions] or leaves its status, and a task that is
    completed, failed, skipped or cancelled keeps that status for ever. *)
Theorem plan_steps_follow_state_machine (p q p' : Plan) :
  plan_normal p -> rtc plan_step p q -> plan_step q p' ->
  tasks_move q p'
  ∧ forall i t, Plan_Tasks p !! i = Some t -> task_terminal t = true ->
      exists t', Plan_Tasks p' !! i = Some t' ∧ Task_ID t' = Task_ID t
                 ∧ Task_Status t' = Task_Status t.
Proof.
  intros Hn Hr Hs. split; [eapply plan_step_moves, Hs; by eapply plan_steps_normal|].
  assert (Hrtc : rtc plan_step p p') by (eapply rtc_r; eauto).
  clear Hr Hs. induction Hrtc as [p|p q' p' Hstep _ IH]; intros i t Hl Ht; [eauto|].
  pose proof (plan_step_moves _ _ Hn Hstep) as Hm.
  destruct (tasks_move_terminal _ _ _ _ Hm Hl Ht) as (t1&Hl1&E1&E2&Ht1).
  destruct (IH (tasks_move_normal _ _ Hn Hm) _ _ Hl1 Ht1) as (t2&?&?&?).
  exists t2. split_and!; congruence.
Qed.

(** C3: the running set is exact.  From a plan whose identifiers are as
    [Validate] leaves them and none of whose tasks runs, every sequence of
    planner operations keeps [RunningTasks] free of duplicates and equal to the
    set of tasks in status running, with the active task among them. *)
Theorem running_set_exact (p p' : Plan) :
  plan_normal p -> ids_ok p -> RunningCount (Some p) = 0 ->
  Plan_RunningTasks p = [] -> Plan_ActiveTask p = "" ->
  rtc plan_step p p' -> exec_inv p'.
Proof.
  intros Hn Hok Hc Hrt Ha Hr.
  assert (Hi : exec_inv p).
  { split; [done|rewrite Hrt; constructor| |by left].
    intros id. rewrite Hrt. split; [by intros ?%elem_of_nil|].
    rewrite is_running_iff by done. intros (i&t&Hl&_&Hs).
    apply nil_length_inv in Hc. eapply list_elem_of_lookup_2 in Hl.
    assert (t ∈ filter (fun t => Task_Status t = TaskRunning) (Plan_Tasks p)) as Hin
      by by apply list_elem_of_filter.
    rewrite Hc in Hin. by apply elem_of_nil in Hin. }
  clear Hok Hc Hrt Ha. induction Hr as [|p q p' Hs _ IH]; [done|].
  apply IH; [|by eapply plan_step_inv].
  by eapply tasks_move_normal, plan_step_moves.
Qed.
