(* ===== verification/PlannerSkip.v ===== *)
(** * Failure propagation and progress ([SkipDependentsOf], [NextReady],
    [ReadyTasks] of [planner/state.go])

    [SkipDependentsOf] is a fixed-point loop.  It terminates, and it skips
    exactly the queued tasks that depend, directly or through other queued
    tasks, on a failed or skipped task ([Doomed]).  After it, a plan with
    acyclic dependencies that has not finished always has a ready task. *)
From S2P Require Import Prelude GoLib Normalize Planner PlannerValidate PlannerState.
From stdpp Require Import relations.
Import Str.

(** ** The specification *)

(** The task at index [i] is queued and reaches a failed or skipped task
    through its dependencies, by a path of queued tasks. *)
Inductive Doomed (p : Plan) : nat -> Prop :=
  | doomed_direct i t dep j d :
      Plan_Tasks p !! i = Some t -> Task_Status t = TaskQueued ->
      dep ∈ Task_DependsOn t -> FindTask (Some p) dep = Some (j, d) ->
      Task_Status d = TaskFailed ∨ Task_Status d = TaskSkipped -> Doomed p i
  | doomed_through i t dep j d :
      Plan_Tasks p !! i = Some t -> Task_Status t = TaskQueued ->
      dep ∈ Task_DependsOn t -> FindTask (Some p) dep = Some (j, d) ->
      Doomed p j -> Doomed p i.

(** No queued task has a failed or skipped dependency. *)
Definition skip_stable (p : Plan) : Prop :=
  forall i t dep, Plan_Tasks p !! i = Some t -> Task_Status t = TaskQueued ->
    dep ∈ Task_DependsOn t -> dep_failed p dep = false.

(** ** Termination of the loop *)

Definition queued_in (ts : list Task) : nat :=
  length (filter (fun t => Task_Status t = TaskQueued) ts).

Lemma queued_in_alter f i t ts :
  ts !! i = Some t -> Task_Status t = TaskQueued -> Task_Status (f t) ≠ TaskQueued ->
  S (queued_in (alter f i ts)) = queued_in ts.
Proof.
  unfold queued_in. revert i. induction ts as [|x ts IH]; intros [|i] Hl Ht Hf; simplify_eq/=.
  - change (alter f 0 (t :: ts)) with (f t :: ts). by rewrite filter_cons_False, filter_cons_True.
  - change (alter f (S i) (x :: ts)) with (x :: alter f i ts). rewrite !filter_cons.
    case_decide; simpl; rewrite ?IH; auto.
Qed.

Lemma skip_one_unchanged p p' i : skip_one p i = (p', false) -> p' = p.
Proof. unfold skip_one. intros. by repeat case_match; simplify_eq. Qed.

Lemma skip_one_changed p p' i :
  skip_one p i = (p', true) -> S (queued_count p') = queued_count p.
Proof.
  unfold skip_one. destruct (Plan_Tasks p !! i) as [t|] eqn:E; [|done].
  case_decide as Hs; [done|]. destruct (list_find _ _) as [[? dep]|]; [|done].
  intros [= <-]. eapply queued_in_alter; [done..|done].
Qed.

(** The accumulator of a pass. *)
Definition skip_acc (acc : Plan * bool) (i : nat) : Plan * bool :=
  let '(p', c) := skip_one acc.1 i in (p', acc.2 || c).

Lemma skip_acc_true ixs p : (foldl skip_acc (p, true) ixs).2 = true.
Proof.
  revert p. induction ixs as [|i ixs IH]; intros p; simpl; [done|].
  unfold skip_acc at 2. simpl. destruct (skip_one p i). apply IH.
Qed.

Lemma skip_fold_count ixs p b :
  queued_count (foldl skip_acc (p, b) ixs).1 <= queued_count p
  ∧ ((foldl skip_acc (p, b) ixs).2 = true ->
     b = true ∨ queued_count (foldl skip_acc (p, b) ixs).1 < queued_count p).
Proof.
  revert p b. induction ixs as [|i ixs IH]; intros p b; simpl; [auto|].
  unfold skip_acc at 2 4 6. simpl. destruct (skip_one p i) as [p' c] eqn:E.
  destruct (IH p' (b || c)) as [Hle Hlt]. destruct c.
  - apply skip_one_changed in E. split; [lia|]. intros _. right. lia.
  - apply skip_one_unchanged in E as ->. split; [lia|]. rewrite orb_false_r in *. done.
Qed.

Lemma skip_fold_unchanged ixs p :
  (foldl skip_acc (p, false) ixs).2 = false ->
  (foldl skip_acc (p, false) ixs).1 = p ∧ forall i, i ∈ ixs -> skip_one p i = (p, false).
Proof.
  induction ixs as [|i ixs IH]; simpl; [split; [done|]; by intros ? ?%elem_of_nil|].
  unfold skip_acc at 2 4. simpl. destruct (skip_one p i) as [p' c] eqn:E. destruct c.
  - by rewrite skip_acc_true.
  - apply skip_one_unchanged in E as E'. subst p'. intros H. apply IH in H as [H1 H2].
    split; [done|]. intros j [->|Hj]%elem_of_cons; auto.
Qed.

Lemma skip_pass_fold p :
  skip_pass p = foldl skip_acc (p, false) (seq 0 (length (Plan_Tasks p))).
Proof. done. Qed.

Lemma skip_one_stable p :
  (forall i, i < length (Plan_Tasks p) -> skip_one p i = (p, false)) -> skip_stable p.
Proof.
  intros H i t dep Hl Hq Hd. specialize (H i (lookup_lt_Some _ _ _ Hl)).
  unfold skip_one in H. rewrite Hl, decide_False in H by (by intros []).
  destruct (list_find _ _) as [[? ?]|] eqn:E; [done|].
  apply list_find_None in E. rewrite Forall_forall in E. apply E in Hd.
  by destruct (dep_failed p dep).
Qed.

(** Enough fuel: the loop exits, on a stable plan, and more fuel changes
    nothing. *)
Lemma skip_loop_stable n p : queued_count p < n -> skip_stable (skip_loop n p).
Proof.
  revert p. induction n as [|n IH]; intros p Hn; [lia|]. simpl.
  destruct (skip_pass p) as [p' c] eqn:E. rewrite skip_pass_fold in E.
  destruct (skip_fold_count (seq 0 (length (Plan_Tasks p))) p false) as [_ Hlt].
  rewrite E in Hlt. simpl in Hlt. destruct c.
  - apply IH. destruct Hlt; [done..|lia].
  - destruct (skip_fold_unchanged (seq 0 (length (Plan_Tasks p))) p) as [E1 E2];
      [by rewrite E|]. rewrite E in E1. simpl in E1. subst p'.
    apply skip_one_stable. intros i Hi. apply E2, elem_of_seq. lia.
Qed.

Lemma skip_loop_fuel n m p :
  queued_count p < n -> n <= m -> skip_loop m p = skip_loop n p.
Proof.
  revert m p. induction n as [|n IH]; intros m p Hn Hm; [lia|].
  destruct m as [|m]; [lia|]. simpl. destruct (skip_pass p) as [p' c] eqn:E.
  rewrite skip_pass_fold in E.
  destruct (skip_fold_count (seq 0 (length (Plan_Tasks p))) p false) as [_ Hlt].
  rewrite E in Hlt. simpl in Hlt. destruct c; [|done].
  apply IH; [|lia]. destruct Hlt; [done..|lia].
Qed.

(** A pass over a stable plan changes nothing. *)
Lemma skip_stable_one p i : skip_stable p -> skip_one p i = (p, false).
Proof.
  intros Hst. unfold skip_one. destruct (Plan_Tasks p !! i) as [t|] eqn:E; [|done].
  case_decide as Hq; [done|]. destruct (list_find _ _) as [[k dep]|] eqn:Ef; [|done].
  apply list_find_Some in Ef as (Hl&Hd&_). apply list_elem_of_lookup_2 in Hl.
  by rewrite (Hst _ _ _ E Hq Hl) in Hd.
Qed.

Lemma skip_stable_pass p : skip_stable p -> skip_pass p = (p, false).
Proof.
  intros Hst. rewrite skip_pass_fold. generalize (seq 0 (length (Plan_Tasks p))).
  intros ixs. induction ixs as [|i ixs IH]; simpl; [done|].
  unfold skip_acc at 2. simpl. by rewrite skip_stable_one.
Qed.

(** ** Soundness and completeness of the skipping *)

(** Lookups by identifier are stable under moves of tasks. *)
Lemma FindTask_via from to p p' id j d :
  plan_via from to p p' -> FindTask (Some p) id = Some (j, d) ->
  exists d', FindTask (Some p') id = Some (j, d') ∧ via from to d d'.
Proof.
  unfold FindTask. intros Hv. case_decide; [done|].
  intros (Hl&Hid&Hmin)%list_find_Some.
  destruct (Forall2_lookup_l _ _ _ _ _ Hv Hl) as [d' [Hl' Hd]]. exists d'. split; [|done].
  apply list_find_Some. split_and!; [done|by rewrite (proj1 Hd)|].
  intros k y Hy Hk Hky. destruct (Forall2_lookup_r _ _ _ _ _ Hv Hy) as [y0 [Hy0 [E _]]].
  apply (Hmin k y0 Hy0 Hk). congruence.
Qed.

Lemma FindTask_via_inv from to p p' id j d' :
  plan_via from to p p' -> FindTask (Some p') id = Some (j, d') ->
  exists d, FindTask (Some p) id = Some (j, d) ∧ via from to d d'.
Proof.
  unfold FindTask. intros Hv. case_decide; [done|].
  intros (Hl&Hid&Hmin)%list_find_Some.
  destruct (Forall2_lookup_r _ _ _ _ _ Hv Hl) as [d [Hl' Hd]]. exists d. split; [|done].
  apply list_find_Some. split_and!; [done|by rewrite <- (proj1 Hd)|].
  intros k y Hy Hk Hky. destruct (Forall2_lookup_l _ _ _ _ _ Hv Hy) as [y0 [Hy0 [E _]]].
  apply (Hmin k y0 Hy0 Hk). congruence.
Qed.

(** The task a skip writes. *)
Definition skipped_by (dep : string) (t : Task) : Task :=
  task_set_error ("dependency " +:+ dep +:+ " failed") (task_set_status TaskSkipped t).

(** [p'] is [p] after some skips, each of a doomed task. *)
Definition skips (p p' : Plan) : Prop :=
  p' = plan_set_tasks (Plan_Tasks p') p
  ∧ plan_via TaskQueued TaskSkipped p p'
  ∧ forall i t t', Plan_Tasks p !! i = Some t -> Plan_Tasks p' !! i = Some t' ->
      t' = t ∨ (Doomed p i ∧ exists dep, dep ∈ Task_DependsOn t ∧ t' = skipped_by dep t).

Lemma skips_refl p : skips p p.
Proof.
  split_and!; [by destruct p|reflexivity|]. intros i t t' H1 H2. left. by simplify_eq.
Qed.

Lemma Doomed_dep p p' i t dep :
  skips p p' -> Plan_Tasks p !! i = Some t -> Task_Status t = TaskQueued ->
  dep ∈ Task_DependsOn t -> dep_failed p' dep = true -> Doomed p i.
Proof.
  intros (_&Hv&Hd) Ht Hq Hdep Hf. unfold dep_failed in Hf.
  destruct (FindTask (Some p') dep) as [[j d']|] eqn:E; [|done]. bool_prop.
  destruct (FindTask_via_inv _ _ _ _ _ _ _ Hv E) as (d&E0&_).
  apply FindTask_Some in E as (Hl'&_). pose proof (FindTask_Some _ _ _ _ E0) as (Hl&_).
  destruct (Hd _ _ _ Hl Hl') as [->|[Hdm _]].
  - eapply doomed_direct; eauto.
  - eapply doomed_through; eauto.
Qed.

Lemma skips_one p p' i : skips p p' -> skips p (skip_one p' i).1.
Proof.
  intros Hs. pose proof (skip_one_via p' i) as Hv1. unfold skip_one in *.
  destruct (Plan_Tasks p' !! i) as [t'|] eqn:E; [|done].
  case_decide as Hq; [done|]. destruct (list_find _ _) as [[k dep]|] eqn:Ef; [|done].
  simpl in *. apply list_find_Some in Ef as (Hl&Hf&_). apply list_elem_of_lookup_2 in Hl.
  pose proof Hs as (Hp&Hv&Hd). split_and!.
  - unfold plan_write, plan_set_tasks. simpl. by rewrite Hp.
  - by etrans.
  - intros j t t'' Ht Ht''. simpl in Ht''. destruct (decide (i = j)) as [<-|].
    + rewrite list_lookup_alter_eq, E in Ht''. simplify_eq/=.
      destruct (Hd _ _ _ Ht E) as [->|(_&?&?&->)]; [|done]. right.
      split; [by eapply Doomed_dep|by exists dep].
    + rewrite list_lookup_alter_ne in Ht'' by done. eauto.
Qed.

Lemma skips_fold p p' b ixs : skips p p' -> skips p (foldl skip_acc (p', b) ixs).1.
Proof.
  revert p' b. induction ixs as [|i ixs IH]; intros p' b Hs; simpl; [done|].
  unfold skip_acc at 2. simpl. destruct (skip_one p' i) as [q c] eqn:E.
  apply IH. pose proof (skips_one p p' i Hs) as H. by rewrite E in H.
Qed.

Lemma skips_loop n p p' : skips p p' -> skips p (skip_loop n p').
Proof.
  revert p'. induction n as [|n IH]; intros p' Hs; simpl; [done|].
  pose proof (skips_fold p p' false (seq 0 (length (Plan_Tasks p'))) Hs) as H.
  rewrite <- skip_pass_fold in H. destruct (skip_pass p') as [q [|]]; auto.
Qed.

(** In a stable plan nothing doomed is left queued. *)
Lemma Doomed_skipped p p' i t' :
  skips p p' -> skip_stable p' -> Doomed p i -> Plan_Tasks p' !! i = Some t' ->
  Task_Status t' = TaskSkipped.
Proof.
  intros (Hp&Hv&Hd) Hst Hdm. revert t'.
  induction Hdm as [i t dep j d Ht Hq Hdep Hf Hs|i t dep j d Ht Hq Hdep Hf Hj IH]; intros t' Ht';
    (destruct (Hd _ _ _ Ht Ht') as [->|(_&?&_&->)]; [exfalso|done]);
    destruct (FindTask_via _ _ _ _ _ _ _ Hv Hf) as (d'&Hf'&Hvia);
    pose proof (Hst _ _ _ Ht' Hq Hdep) as Hn; unfold dep_failed in Hn; rewrite Hf' in Hn;
    bool_prop; apply Hn.
  - destruct Hvia as (_&_&[->|[E _]]); [done|]. rewrite E in Hs. naive_solver.
  - right. apply FindTask_Some in Hf' as (?&_). auto.
Qed.

(** ** Progress *)

(** The dependencies resolve, and are well-founded for the rank [rank] of task
    positions: the plan has no dependency cycle. *)
Definition acyclic (p : Plan) (rank : nat -> nat) : Prop :=
  forall i t dep, Plan_Tasks p !! i = Some t -> dep ∈ Task_DependsOn t ->
    exists j d, FindTask (Some p) dep = Some (j, d) ∧ rank j < rank i.

(** No task is in one of the statuses [ss]. *)
Definition no_status (ss : list TaskStatus) (p : Plan) : Prop :=
  Forall (fun t => Task_Status t ∉ ss) (Plan_Tasks p).

Lemma NextReady_Some p i t :
  Plan_Tasks p !! i = Some t -> task_ready (Some p) t = true -> is_Some (NextReady (Some p)).
Proof.
  intros Hl Hr. unfold NextReady.
  eapply list_find_elem_of; [by eapply list_elem_of_lookup_2|done].
Qed.

(** In a stable acyclic plan in which only queued tasks are unfinished, a
    queued task leads to a ready one. *)
Lemma queued_ready p rank :
  acyclic p rank -> skip_stable p -> plan_normal p -> no_status [TaskRunning; TaskCancelled] p ->
  forall n i t, rank i < n -> Plan_Tasks p !! i = Some t -> Task_Status t = TaskQueued ->
    is_Some (NextReady (Some p)).
Proof.
  intros Hac Hst Hn Hno n. induction n as [|n IH]; intros i t Hi Ht Hq; [lia|].
  destruct (depsCompleted (Some p) t) eqn:Hdeps.
  { eapply NextReady_Some; [done|]. unfold task_ready. rewrite Hdeps. bool_prop; auto. }
  apply forallb_false_elem in Hdeps as (dep&Hdep&Hnc).
  destruct (Hac _ _ _ Ht Hdep) as (j&d&Hf&Hrk). rewrite Hf in Hnc. bool_prop.
  pose proof (FindTask_Some _ _ _ _ Hf) as (Hl&_). apply (IH j d); [lia|done|].
  pose proof (Hst _ _ _ Ht Hq Hdep) as Hs. unfold dep_failed in Hs. rewrite Hf in Hs. bool_prop.
  eapply Forall_lookup_1 in Hno, Hn; [|exact Hl..]. destruct Hn as [Hk He].
  destruct (Task_Status d); set_solver.
Qed.

(** The statuses of the result of the skipping loop. *)
Lemma skips_no_status p p' ss :
  TaskSkipped ∉ ss -> skips p p' -> no_status ss p -> no_status ss p'.
Proof.
  intros Hs (_&Hv&_) Hno. apply Forall_lookup. intros i t' Ht'.
  destruct (Forall2_lookup_r _ _ _ _ _ Hv Ht') as (t&Ht&(_&_&M)).
  eapply Forall_lookup_1 in Hno; [|exact Ht]. destruct M as [->|[_ ->]]; done.
Qed.

Lemma skips_acyclic p p' rank : skips p p' -> acyclic p rank -> acyclic p' rank.
Proof.
  intros (_&Hv&_) Hac i t' dep Ht' Hdep.
  destruct (Forall2_lookup_r _ _ _ _ _ Hv Ht') as (t&Ht&(_&Ed&_)). rewrite Ed in Hdep.
  destruct (Hac _ _ _ Ht Hdep) as (j&d&Hf&?).
  destruct (FindTask_via _ _ _ _ _ _ _ Hv Hf) as (d'&?&_). eauto.
Qed.

(** C4: failure propagation is exact and stops.  [SkipDependentsOf] changes
    nothing but the tasks that are queued and depend, directly or through
    queued tasks, on a failed or skipped task; every one of these becomes
    skipped with the dependency that caused it as its error, also one with
    another dependency that is completed; and the loop has reached a fixed
    point: another pass changes nothing, and no larger number of passes gives
    another result.  The comment of the function exempts tasks with an alternative
    completed dependency path, which the code does not do
    ([skipped_despite_completed]). *)
Theorem SkipDependentsOf_exact (p p' : Plan) (id : string) :
  SkipDependentsOf (Some p) id = Some p' ->
  p' = plan_set_tasks (Plan_Tasks p') p
  ∧ length (Plan_Tasks p') = length (Plan_Tasks p)
  ∧ (forall i t, Plan_Tasks p !! i = Some t ->
       (¬ Doomed p i ∧ Plan_Tasks p' !! i = Some t)
       ∨ (Doomed p i ∧ exists dep, dep ∈ Task_DependsOn t
            ∧ Plan_Tasks p' !! i = Some (skipped_by dep t)))
  ∧ skip_pass p' = (p', false)
  ∧ forall n, queued_count p < n -> skip_loop n p = p'.
Proof.
  intros H. apply (inj Some) in H as <-. set (p' := skip_loop _ p).
  assert (Hs : skips p p') by apply skips_loop, skips_refl.
  assert (Hst : skip_stable p') by (apply skip_loop_stable; lia).
  pose proof Hs as (Hp&Hv&Hd). split_and!; [done| | |by apply skip_stable_pass|].
  - symmetry. by eapply Forall2_length.
  - intros i t Ht. destruct (Forall2_lookup_l _ _ _ _ _ Hv Ht) as (t'&Ht'&_).
    destruct (Hd _ _ _ Ht Ht') as [->|(?&dep&?&->)]; [left|right; eauto].
    split; [|done]. intros Hdm.
    pose proof (Doomed_skipped _ _ _ _ Hs Hst Hdm Ht') as Hsk.
    inversion Hdm; simplify_eq; congruence.
  - intros n Hn. unfold p'. apply skip_loop_fuel; lia.
Qed.

(** C24: no deadlock.  When no task of an acyclic plan runs or was cancelled,
    propagating failures leaves a plan that is finished or has a ready task:
    the executor can always make progress. *)
Theorem skip_then_progress (p p' : Plan) (id : string) (rank : nat -> nat) :
  plan_normal p -> acyclic p rank -> no_status [TaskRunning; TaskCancelled] p ->
  SkipDependentsOf (Some p) id = Some p' ->
  Terminal (Some p') = true ∨ is_Some (NextReady (Some p')).
Proof.
  intros Hn Hac Hno H. apply (inj Some) in H as <-. set (p' := skip_loop _ p).
  assert (Hs : skips p p') by apply skips_loop, skips_refl.
  assert (Hst : skip_stable p') by (apply skip_loop_stable; lia).
  assert (Hno' : no_status [TaskRunning; TaskCancelled] p')
    by (eapply skips_no_status; eauto; set_solver).
  assert (Hn' : plan_normal p') by (eapply tasks_move_normal, plan_via_moves, Hs; done).
  destruct (Terminal (Some p')) eqn:Ht; [by left|right].
  apply forallb_false_elem in Ht as (t&Hin&Hter).
  apply list_elem_of_lookup in Hin as [i Hl].
  eapply (queued_ready p' rank) with (i := i) (n := S (rank i)); eauto using skips_acyclic.
  eapply Forall_lookup_1 in Hno', Hn'; [|exact Hl..]. destruct Hn' as [Hk He].
  unfold task_terminal in Hter. destruct (Task_Status t); set_solver.
Qed.

(** ** The ready set *)

Lemma elem_of_imap_pair {A} (l : list A) i x :
  (i, x) ∈ imap pair l <-> l !! i = Some x.
Proof.
  rewrite list_elem_of_lookup. setoid_rewrite list_lookup_imap_Some. split.
  - intros (k&y&Hy&?). by simplify_eq.
  - intros Hx. by exists i, x.
Qed.

Lemma elem_of_select P p i t :
  (i, t) ∈ select_tasks P (Some p) <-> Plan_Tasks p !! i = Some t ∧ P t = true.
Proof. unfold select_tasks. rewrite list_elem_of_filter, elem_of_imap_pair. simpl. tauto. Qed.

Lemma head_filter_imap {A} (P : A -> bool) (l : list A) (n : nat) :
  head (filter (fun it => P it.2 = true) (imap (fun i x => (n + i, x)) l))
  = prod_map (Nat.add n) id <$> list_find (fun x => P x = true) l.
Proof.
  revert n. induction l as [|x l IH]; intros n; simpl; [done|]. rewrite filter_cons. simpl.
  case_decide; simpl; [done|]. specialize (IH (S n)).
  rewrite (imap_ext _ (fun i x => (S n + i, x))) by (intros; simpl; f_equal; lia).
  rewrite IH. destruct (list_find _ l) as [[j y]|]; simpl; [|done].
  unfold prod_map. simpl. do 2 f_equal. lia.
Qed.

(** the ready tasks.  [ReadyTasks] lists exactly the queued tasks all of
    whose dependencies are completed tasks of the plan, in plan order, and
    [NextReady] is the first of them. *)
Theorem ReadyTasks_spec (p : Plan) :
  (forall i t, (i, t) ∈ ReadyTasks (Some p) <->
     Plan_Tasks p !! i = Some t ∧ Task_Status t = TaskQueued
     ∧ forall dep, dep ∈ Task_DependsOn t ->
         exists j d, FindTask (Some p) dep = Some (j, d) ∧ Task_Status d = TaskCompleted)
  ∧ NextReady (Some p) = head (ReadyTasks (Some p)).
Proof.
  split.
  - intros i t. unfold ReadyTasks. rewrite elem_of_select. unfold task_ready.
    rewrite andb_true_iff, bool_decide_eq_true. unfold depsCompleted. rewrite forallb_true_elem.
    apply and_iff_compat_l, and_iff_compat_l. split; intros Hd dep Hin; specialize (Hd dep Hin).
    + destruct (FindTask _ dep) as [[j d]|]; [|done]. bool_prop. eauto.
    + destruct Hd as (j&d&->&Hs). by bool_prop.
  - unfold ReadyTasks, select_tasks, NextReady. symmetry.
    pose proof (head_filter_imap (task_ready (Some p)) (Plan_Tasks p) 0) as H. simpl in H.
    etrans; [exact H|]. destruct (list_find _ _) as [[j d]|]; done.
Qed.

(** ** Dependency cycles *)

(** Two tasks that wait for each other. *)
Definition cyclic_plan : Plan :=
  mkPlan "loop" "" StrategySerial FailFast
    [ mkTask "a" "" TaskExecute "first" ["b"] [] [] [] TaskQueued "" "";
      mkTask "b" "" TaskExecute "second" ["a"] [] [] [] TaskQueued "" "" ]
    "b" [] "" [].

(** validation does not look for dependency cycles.  A plan of two tasks
    that depend on each other is accepted as it is, yet no task of it is ever
    ready, failure propagation does not touch it, and it is not terminal. *)
Theorem Validate_accepts_cycle :
  Validate (Some cyclic_plan) = (Some cyclic_plan, None)
  ∧ ReadyTasks (Some cyclic_plan) = [] ∧ NextReady (Some cyclic_plan) = None
  ∧ SkipDependentsOf (Some cyclic_plan) "a" = Some cyclic_plan
  ∧ Terminal (Some cyclic_plan) = false
  ∧ forall rank, ¬ acyclic cyclic_plan rank.
Proof.
  split_and!; [by vm_compute..|]. intros rank Hac.
  destruct (Hac 0 _ "b" eq_refl) as (j&d&E&Hlt); [set_solver|].
  destruct (Hac 1 _ "a" eq_refl) as (j'&d'&E'&Hlt'); [set_solver|].
  vm_compute in E, E'. simplify_eq. lia.
Qed.

(** ** Examples *)

(** A three-task chain after its first task has failed, next to an independent
    task. *)
Definition chain_plan : Plan :=
  mkPlan "ship" "" StrategyMixed ContinueOnError
    [ mkTask "a" "" TaskExecute "build" [] [] [] [] TaskFailed "" "no compiler";
      mkTask "c" "" TaskDeliver "send" ["b"] [] [] [] TaskQueued "" "";
      mkTask "b" "" TaskExecute "test" ["a"] [] [] [] TaskQueued "" "";
      mkTask "d" "" TaskWrite "notes" [] [] [] [] TaskQueued "" "" ]
    "c" [] "" [].

(** A completed dependency does not save a task whose other dependency failed. *)
Definition joined_plan : Plan :=
  mkPlan "join" "" StrategyMixed ContinueOnError
    [ mkTask "a" "" TaskExecute "build" [] [] [] [] TaskFailed "" "no compiler";
      mkTask "b" "" TaskExecute "fetch" [] [] [] [] TaskCompleted "done" "";
      mkTask "c" "" TaskDeliver "send" ["b"; "a"] [] [] [] TaskQueued "" "" ]
    "c" [] "" [].

Lemma skipped_despite_completed :
  (fun p => Task_Status <$> Plan_Tasks p) <$> SkipDependentsOf (Some joined_plan) "a"
  = Some [TaskFailed; TaskCompleted; TaskSkipped].
Proof. by vm_compute. Qed.

Lemma SkipDependentsOf_exact_witness :
  exists p', SkipDependentsOf (Some chain_plan) "a" = Some p'
    ∧ (Task_Status <$> Plan_Tasks p') = [TaskFailed; TaskSkipped; TaskSkipped; TaskQueued]
    ∧ skip_pass p' = (p', false).
Proof.
  eexists. split; [vm_compute; reflexivity|]. split; [reflexivity|].
  eapply (SkipDependentsOf_exact chain_plan _ "a"). vm_compute. reflexivity.
Defined.

Lemma skip_then_progress_witness :
  exists p', SkipDependentsOf (Some chain_plan) "a" = Some p'
    ∧ (Terminal (Some p') = true ∨ is_Some (NextReady (Some p'))).
Proof.
  eexists. split; [vm_compute; reflexivity|].
  apply (skip_then_progress chain_plan _ "a" (fun i => nth i [0; 2; 1; 0] 0)).
  - repeat constructor; done.
  - intros i t dep Ht Hd.
    do 4 (destruct i as [|i];
      [injection Ht as <-; simpl in Hd; repeat (apply elem_of_cons in Hd as [-> | Hd]);
       try (by apply elem_of_nil in Hd); eexists _, _;
       (split; [vm_compute; reflexivity|simpl; lia])|]).
    done.
  - repeat constructor; set_solver.
  - vm_compute. reflexivity.
Defined.

Lemma plan_steps_witness :
  exists p', plan_step chain_plan p' ∧ tasks_move chain_plan p'.
Proof.
  eexists. split; [apply (step_running _ _ ["d"]); vm_compute; reflexivity|].
  refine (proj1 (plan_steps_follow_state_machine chain_plan chain_plan _ _ _ _)).
  - repeat constructor; done.
  - reflexivity.
  - apply (step_running _ _ ["d"]). vm_compute. reflexivity.
Defined.

Lemma running_set_witness :
  exists p', rtc plan_step chain_plan p' ∧ Plan_RunningTasks p' = ["d"] ∧ exec_inv p'.
Proof.
  assert (Hs : exists p', rtc plan_step chain_plan p' ∧ Plan_RunningTasks p' = ["d"]).
  { eexists. split.
    - eapply rtc_once, (step_running _ _ ["d"; "a"]). vm_compute. reflexivity.
    - reflexivity. }
  destruct Hs as (p'&Hr&E). exists p'. split; [done|]. split; [done|].
  apply (running_set_exact chain_plan); [| |reflexivity..|done].
  - repeat constructor; done.
  - split.
    + vm_compute. repeat constructor; set_solver.
    + repeat constructor; by vm_compute.
Defined.
