(* ===== verification/Sha1.v ===== *)
(** * SHA-1 and hexadecimal encoding (Go's [crypto/sha1], [encoding/hex])

    The digest behind the idempotency keys of execution tasks, executable so
    that keys can be evaluated; checked on the published test vectors. *)
From S2P Require Import Prelude.
From Stdlib Require Import Ascii.

Local Open Scope Z_scope.

(** ** 32-bit words *)

Definition w32 (x : Z) : Z := x mod 2 ^ 32.
Definition add32 (x y : Z) : Z := w32 (x + y).
Definition rotl (n x : Z) : Z := Z.lor (w32 (Z.shiftl x n)) (Z.shiftr x (32 - n)).
Definition not32 (x : Z) : Z := Z.lxor x (2 ^ 32 - 1).

(** ** Padding *)

(** The message length in bits, as eight big-endian bytes. *)
Definition be64 (n : Z) : list Z :=
  (fun i => Z.land (Z.shiftr n (8 * i)) 255) <$> [7; 6; 5; 4; 3; 2; 1; 0].

Definition pad (msg : list Z) : list Z :=
  let len := Z.of_nat (length msg) in
  let k := Z.to_nat ((55 - len) mod 64) in
  msg ++ [128] ++ replicate k 0 ++ be64 (8 * len).

Fixpoint words (bs : list Z) : list Z :=
  match bs with
  | a :: b :: c :: d :: rest =>
    Z.lor (Z.shiftl a 24) (Z.lor (Z.shiftl b 16) (Z.lor (Z.shiftl c 8) d)) :: words rest
  | _ => []
  end.

(** ** Compression *)

(** The message schedule, most recent word first. *)
Fixpoint schedule (n : nat) (ws : list Z) : list Z :=
  match n with
  | O => ws
  | S n =>
    let x := rotl 1 (Z.lxor (Z.lxor (nth 2 ws 0) (nth 7 ws 0))
                       (Z.lxor (nth 13 ws 0) (nth 15 ws 0))) in
    schedule n (x :: ws)
  end.

Record hash := mkHash { ha : Z; hb : Z; hc : Z; hd : Z; he : Z }.

Definition round_fk (t : nat) (b c d : Z) : Z * Z :=
  if Nat.ltb t 20 then (Z.lor (Z.land b c) (Z.land (not32 b) d), 0x5A827999)
  else if Nat.ltb t 40 then (Z.lxor b (Z.lxor c d), 0x6ED9EBA1)
  else if Nat.ltb t 60 then
    (Z.lor (Z.land b c) (Z.lor (Z.land b d) (Z.land c d)), 0x8F1BBCDC)
  else (Z.lxor b (Z.lxor c d), 0xCA62C1D6).

Fixpoint rounds (t : nat) (ws : list Z) (h : hash) : hash :=
  match ws with
  | [] => h
  | w :: ws =>
    let '(f, k) := round_fk t (hb h) (hc h) (hd h) in
    let tmp := add32 (add32 (add32 (rotl 5 (ha h)) f) (add32 (he h) k)) w in
    rounds (S t) ws (mkHash tmp (ha h) (rotl 30 (hb h)) (hc h) (hd h))
  end.

Definition compress (h : hash) (block : list Z) : hash :=
  let h' := rounds 0 (reverse (schedule 64 (reverse block))) h in
  mkHash (add32 (ha h) (ha h')) (add32 (hb h) (hb h')) (add32 (hc h) (hc h'))
    (add32 (hd h) (hd h')) (add32 (he h) (he h')).

(** The blocks of sixteen words; [n] bounds their number. *)
Fixpoint blocks (n : nat) (ws : list Z) (h : hash) : hash :=
  match n with
  | O => h
  | S n =>
    match ws with
    | [] => h
    | _ => blocks n (drop 16 ws) (compress h (take 16 ws))
    end
  end.

Definition sha1_sum (msg : list Z) : list Z :=
  let ws := words (pad msg) in
  let h := blocks (length ws) ws
    (mkHash 0x67452301 0xEFCDAB89 0x98BADCFE 0x10325476 0xC3D2E1F0) in
  concat ((fun w => (fun i => Z.land (Z.shiftr w (8 * i)) 255) <$> [3; 2; 1; 0])
            <$> [ha h; hb h; hc h; hd h; he h]).

(** ** Hexadecimal *)

Definition hex_digit (n : Z) : ascii :=
  ascii_of_N (Z.to_N (if n <? 10 then 48 + n else 87 + n)).

Fixpoint hex (bs : list Z) : string :=
  match bs with
  | [] => EmptyString
  | b :: rest => String (hex_digit (b / 16)) (String (hex_digit (b mod 16)) (hex rest))
  end.

Definition string_bytes (s : string) : list Z :=
  (fun a => Z.of_N (N_of_ascii a)) <$> String.list_ascii_of_string s.

(** [hex.EncodeToString(sha1.Sum(...))]. *)
Definition sha1_hex (s : string) : string := hex (sha1_sum (string_bytes s)).

Lemma sha1_vectors :
  sha1_hex "abc"%string = "a9993e364706816aba3e25717850c26c9cd0d89d"%string
  ∧ sha1_hex EmptyString = "da39a3ee5e6b4b0d3255bfef95601890afd80709"%string
  ∧ sha1_hex "abcdbcdecdefdefgefghfghighijhijkijkljklmklmnlmnomnopnopq"%string
    = "84983e441c3bd26ebaae4aa1f95129e5e54670f1"%string.
Proof. split_and!; by vm_compute. Qed.
