(* ===== verification/ExecutionTask.v ===== *)
(** * Execution tasks and their conflicts ([agent/execution_graph.go], first part)

    What the executor knows about a plan task beyond the plan: the resources it
    touches, the reach of its side effects, how its result is merged, how often
    it was attempted and its last outcome.  The result payload of an outcome
    (blocks, tool results, artifacts) is left out. *)
From S2P Require Import Prelude GoLib Normalize Planner Sha1.
From stdpp Require Import sorting.
Import Str GoTime.

(** ** Data *)

Inductive MergeStrategy :=
  | MergeStrategyEmpty | MergeStrategyTaskOrder | MergeStrategySerialOnly
  | MergeStrategyOther (s : string).

Inductive SideEffectScope :=
  | SideEffectScopeEmpty | SideEffectScopeReadOnly | SideEffectScopeWorkspace
  | SideEffectScopeSessionAll | SideEffectScopeOther (s : string).

#[export] Instance MergeStrategy_eq_dec : EqDecision MergeStrategy.
Proof. solve_decision. Defined.
#[export] Instance SideEffectScope_eq_dec : EqDecision SideEffectScope.
Proof. solve_decision. Defined.

Record TaskOutcome := mkOutcome {
  Outcome_TaskID : string;
  Outcome_Status : TaskStatus;
  Outcome_Attempt : Z;
  Outcome_Summary : string;
  Outcome_Error : option string;           (* the message of the error *)
  Outcome_MergeStrategy : MergeStrategy;
  Outcome_IdempotencyKey : string;
  Outcome_StartedAt : Time;
  Outcome_FinishedAt : Time
}.

Record ExecutionTask := mkExecTask {
  ET_ID : string;
  ET_Title : string;
  ET_Kind : TaskKind;
  ET_Goal : string;
  ET_DependsOn : list string;
  ET_ResourceKeys : list string;
  ET_SideEffectScope : SideEffectScope;
  ET_MergeStrategy : MergeStrategy;
  ET_IdempotencyKey : string;
  ET_Status : TaskStatus;
  ET_AttemptCount : Z;
  ET_LastOutcome : option TaskOutcome
}.

Record ExecutionGraph := mkGraph {
  EG_RunID : string;
  EG_SessionID : string;
  EG_Scope : string;
  EG_MergeStrategy : MergeStrategy;
  EG_SingleSession : bool;
  EG_SessionLocking : bool;
  EG_Tasks : list ExecutionTask
}.

Definition et_set_status (s : TaskStatus) (t : ExecutionTask) : ExecutionTask :=
  mkExecTask (ET_ID t) (ET_Title t) (ET_Kind t) (ET_Goal t) (ET_DependsOn t)
    (ET_ResourceKeys t) (ET_SideEffectScope t) (ET_MergeStrategy t) (ET_IdempotencyKey t)
    s (ET_AttemptCount t) (ET_LastOutcome t).
Definition et_set_attempts (n : Z) (t : ExecutionTask) : ExecutionTask :=
  mkExecTask (ET_ID t) (ET_Title t) (ET_Kind t) (ET_Goal t) (ET_DependsOn t)
    (ET_ResourceKeys t) (ET_SideEffectScope t) (ET_MergeStrategy t) (ET_IdempotencyKey t)
    (ET_Status t) n (ET_LastOutcome t).
Definition et_set_outcome (o : option TaskOutcome) (t : ExecutionTask) : ExecutionTask :=
  mkExecTask (ET_ID t) (ET_Title t) (ET_Kind t) (ET_Goal t) (ET_DependsOn t)
    (ET_ResourceKeys t) (ET_SideEffectScope t) (ET_MergeStrategy t) (ET_IdempotencyKey t)
    (ET_Status t) (ET_AttemptCount t) o.
Definition outcome_set_error (e : option string) (o : TaskOutcome) : TaskOutcome :=
  mkOutcome (Outcome_TaskID o) (Outcome_Status o) (Outcome_Attempt o) (Outcome_Summary o) e
    (Outcome_MergeStrategy o) (Outcome_IdempotencyKey o) (Outcome_StartedAt o)
    (Outcome_FinishedAt o).

(** ** Normalization *)

(** Trim, drop blanks and duplicates, sort by bytes. *)
Definition normalizeExecutionStrings (values : list string) : list string :=
  merge_sort String.le (dedupe_loop ∅ values).

Definition normalizeExecutionTask (t : ExecutionTask) : ExecutionTask :=
  mkExecTask (TrimSpace (ET_ID t)) (TrimSpace (ET_Title t)) (ET_Kind t)
    (TrimSpace (ET_Goal t)) (normalizeExecutionStrings (ET_DependsOn t))
    (normalizeExecutionStrings (ET_ResourceKeys t))
    (match ET_SideEffectScope t with
     | SideEffectScopeEmpty => SideEffectScopeReadOnly | s => s end)
    (match ET_MergeStrategy t with
     | MergeStrategyEmpty => MergeStrategyTaskOrder | m => m end)
    (TrimSpace (ET_IdempotencyKey t))
    (match ET_Status t with TaskStatusEmpty => TaskQueued | s => s end)
    (ET_AttemptCount t) (ET_LastOutcome t).

(** ** Derivation from a plan task *)

Definition kind_string (k : TaskKind) : string :=
  match k with
  | TaskKindEmpty => "" | TaskResearch => "research" | TaskTranslate => "translate"
  | TaskTransform => "transform" | TaskWrite => "write" | TaskExecute => "execute"
  | TaskReview => "review" | TaskDeliver => "deliver" | TaskKindOther s => s
  end.

Definition readonly_kind (k : TaskKind) : bool :=
  match k with TaskResearch | TaskReview | TaskTranslate => true | _ => false end.

Definition executionTaskResourceKeys (t : Task) : list string :=
  let keys := (fun o => "output:" +:+ o)
                <$> filter (fun o => o <> "") (TrimSpace <$> Task_Outputs t) in
  let keys := if decide (keys = [] /\ readonly_kind (Task_Kind t) = false)
              then keys ++ ["session:mutable_state"] else keys in
  normalizeExecutionStrings keys.

Definition executionTaskSideEffectScope (t : Task) : SideEffectScope :=
  match Task_Kind t with
  | TaskResearch | TaskReview | TaskTranslate => SideEffectScopeReadOnly
  | TaskTransform | TaskWrite | TaskExecute => SideEffectScopeWorkspace
  | _ => SideEffectScopeSessionAll
  end.

Definition executionTaskMergeStrategy (t : Task) : MergeStrategy :=
  match Task_Kind t with TaskDeliver => MergeStrategySerialOnly | _ => MergeStrategyTaskOrder end.

Definition newline : string := String (Ascii.ascii_of_nat 10) "".

Fixpoint join (sep : string) (parts : list string) : string :=
  match parts with
  | [] => ""
  | [p] => p
  | p :: rest => p +:+ sep +:+ join sep rest
  end.

(** [run]: the identifiers of the run and its session, when there is a run. *)
Definition executionTaskIdempotencyKey (run : option (string * string)) (t : Task) : string :=
  let parts := [TrimSpace (Task_ID t); kind_string (Task_Kind t); TrimSpace (Task_Goal t)] in
  let parts := match run with
               | Some (rid, sid) => parts ++ [TrimSpace rid; TrimSpace sid]
               | None => parts
               end in
  "task:" +:+ sha1_hex (join newline parts).

Definition executionTaskFromPlanTask (run : option (string * string)) (t : Task) : ExecutionTask :=
  normalizeExecutionTask
    (mkExecTask (TrimSpace (Task_ID t)) (TrimSpace (Task_Title t)) (Task_Kind t)
       (TrimSpace (Task_Goal t)) (Task_DependsOn t) (executionTaskResourceKeys t)
       (executionTaskSideEffectScope t) (executionTaskMergeStrategy t)
       (executionTaskIdempotencyKey run t)
       (match Task_Status t with TaskStatusEmpty => TaskQueued | s => s end) 0 None).

(** ** Conflicts *)

Definition executionTaskHasUnknownMutableScope (t : ExecutionTask) : bool :=
  bool_decide (ET_SideEffectScope t <> SideEffectScopeReadOnly /\ ET_ResourceKeys t = []).

Definition executionTasksShareResourceKey (left right : list string) : bool :=
  if decide (left = [] \/ right = []) then false
  else
    let seen : gset string := list_to_set (TrimSpace <$> left) in
    existsb (fun key => bool_decide (TrimSpace key ∈ seen)) right.

Definition executionTasksConflict (a b : ExecutionTask) : bool :=
  if decide (ET_ID a = "" \/ ET_ID b = "" \/ ET_ID a = ET_ID b) then false
  else if decide (ET_MergeStrategy a = MergeStrategySerialOnly
                  \/ ET_MergeStrategy b = MergeStrategySerialOnly) then true
  else if decide (ET_SideEffectScope a = SideEffectScopeSessionAll
                  \/ ET_SideEffectScope b = SideEffectScopeSessionAll) then true
  else if executionTaskHasUnknownMutableScope a || executionTaskHasUnknownMutableScope b
  then true
  else if negb (executionTasksShareResourceKey (ET_ResourceKeys a) (ET_ResourceKeys b))
  then false
  else bool_decide (ET_SideEffectScope a <> SideEffectScopeReadOnly
                    \/ ET_SideEffectScope b <> SideEffectScopeReadOnly).

(** ** Lemmas *)

Lemma normalizeExecutionStrings_perm vs :
  normalizeExecutionStrings vs ≡ₚ dedupe_loop ∅ vs.
Proof. apply merge_sort_Permutation. Qed.

Lemma normalizeExecutionStrings_sorted vs :
  StronglySorted String.le (normalizeExecutionStrings vs).
Proof. apply (StronglySorted_merge_sort String.le). Qed.

#[export] Instance clean_perm : Proper ((≡ₚ) ==> iff) clean.
Proof. intros l1 l2 Hp. unfold clean. by rewrite Hp. Qed.

Lemma normalizeExecutionStrings_clean vs : clean (normalizeExecutionStrings vs).
Proof. rewrite normalizeExecutionStrings_perm. auto with golib. Qed.

Lemma normalizeExecutionStrings_elem vs x :
  x ∈ normalizeExecutionStrings vs <-> x ≠ "" ∧ exists v, v ∈ vs ∧ x = TrimSpace v.
Proof. rewrite normalizeExecutionStrings_perm. apply DedupeStrings_elem. Qed.

(** A clean sorted list is a fixed point. *)
Lemma normalizeExecutionStrings_id vs :
  clean vs -> StronglySorted String.le vs -> normalizeExecutionStrings vs = vs.
Proof.
  intros Hc Hs. apply (StronglySorted_unique String.le);
    [apply normalizeExecutionStrings_sorted|done|].
  rewrite normalizeExecutionStrings_perm. by rewrite (DedupeStrings_id vs Hc : dedupe_loop ∅ vs = vs).
Qed.

Lemma normalizeExecutionStrings_idem vs :
  normalizeExecutionStrings (normalizeExecutionStrings vs) = normalizeExecutionStrings vs.
Proof.
  apply normalizeExecutionStrings_id;
    [apply normalizeExecutionStrings_clean|apply normalizeExecutionStrings_sorted].
Qed.

Lemma normalizeExecutionTask_idem t :
  normalizeExecutionTask (normalizeExecutionTask t) = normalizeExecutionTask t.
Proof.
  unfold normalizeExecutionTask. simpl.
  rewrite !TrimSpace_idem, !normalizeExecutionStrings_idem.
  f_equal; [by destruct (ET_SideEffectScope t)|by destruct (ET_MergeStrategy t)
    |by destruct (ET_Status t)].
Qed.

Lemma share_spec l r :
  executionTasksShareResourceKey l r = true <->
  exists x y, x ∈ l ∧ y ∈ r ∧ TrimSpace x = TrimSpace y.
Proof.
  unfold executionTasksShareResourceKey. case_decide as Hn.
  { split; [done|]. intros (x&y&Hx&Hy&_). destruct Hn as [-> | ->].
    - by apply elem_of_nil in Hx.
    - by apply elem_of_nil in Hy. }
  rewrite existsb_exists. setoid_rewrite <- list_elem_of_In. setoid_rewrite bool_decide_eq_true.
  setoid_rewrite elem_of_list_to_set. setoid_rewrite list_elem_of_fmap. naive_solver.
Qed.

Lemma share_sym l r : executionTasksShareResourceKey l r = executionTasksShareResourceKey r l.
Proof. apply eq_bool_prop_intro. rewrite !Is_true_true, !share_spec. naive_solver. Qed.

Lemma conflict_sym a b : executionTasksConflict a b = executionTasksConflict b a.
Proof.
  unfold executionTasksConflict. rewrite share_sym, orb_comm.
  apply eq_bool_prop_intro. split; intros; repeat case_decide; try naive_solver.
  all: repeat case_match; try naive_solver.
  all: rewrite !Is_true_true, bool_decide_eq_true in *; tauto.
Qed.

Lemma conflict_serial_only a b :
  ET_ID a ≠ "" -> ET_ID b ≠ "" -> ET_ID a ≠ ET_ID b ->
  ET_MergeStrategy b = MergeStrategySerialOnly -> executionTasksConflict a b = true.
Proof.
  intros Ha Hb Hab Hm. unfold executionTasksConflict.
  rewrite decide_False by (intros [?|[?|?]]; done). by rewrite decide_True by auto.
Qed.

(** Two tasks that may run side by side. *)
Lemma no_conflict a b :
  ET_ID a ≠ "" -> ET_ID b ≠ "" -> ET_ID a ≠ ET_ID b ->
  executionTasksConflict a b = false ->
  ET_MergeStrategy a ≠ MergeStrategySerialOnly ∧ ET_MergeStrategy b ≠ MergeStrategySerialOnly
  ∧ ET_SideEffectScope a ≠ SideEffectScopeSessionAll
  ∧ ET_SideEffectScope b ≠ SideEffectScopeSessionAll
  ∧ (forall x y, x ∈ ET_ResourceKeys a -> y ∈ ET_ResourceKeys b -> TrimSpace x = TrimSpace y ->
       ET_SideEffectScope a = SideEffectScopeReadOnly
       ∧ ET_SideEffectScope b = SideEffectScopeReadOnly).
Proof.
  intros Ha Hb Hab. unfold executionTasksConflict. rewrite decide_False by naive_solver.
  case_decide as Hm; [done|]. case_decide as Hs; [done|].
  destruct (_ || _) eqn:Hu; [done|].
  destruct (executionTasksShareResourceKey _ _) eqn:Hsh; simpl; intros Hr.
  - bool_prop. split_and!; [naive_solver..|]. intros x y _ _ _.
    split; apply dec_stable; naive_solver.
  - split_and!; [naive_solver..|]. intros x y Hx Hy E. exfalso.
    apply not_true_iff_false in Hsh. apply Hsh, share_spec. eauto.
Qed.

(** execution metadata is canonical.  Normalizing an execution task twice
    is normalizing it once; its dependency and resource lists come out trimmed,
    without blanks or duplicates and sorted, and hold exactly the non-blank
    trimmed inputs; and whether two tasks conflict does not depend on the order
    in which they are compared. *)
Theorem execution_task_canonical (t t' : ExecutionTask) :
  normalizeExecutionTask (normalizeExecutionTask t) = normalizeExecutionTask t
  ∧ (forall x, x ∈ ET_ResourceKeys (normalizeExecutionTask t) <->
       x ≠ "" ∧ exists v, v ∈ ET_ResourceKeys t ∧ x = TrimSpace v)
  ∧ clean (ET_ResourceKeys (normalizeExecutionTask t))
  ∧ StronglySorted String.le (ET_ResourceKeys (normalizeExecutionTask t))
  ∧ executionTasksConflict t t' = executionTasksConflict t' t.
Proof.
  split_and!.
  - apply normalizeExecutionTask_idem.
  - intros x. apply normalizeExecutionStrings_elem.
  - apply normalizeExecutionStrings_clean.
  - apply normalizeExecutionStrings_sorted.
  - apply conflict_sym.
Qed.
