(* ===== verification/RunState.v ===== *)
(** * The lifecycle of a run ([internal/domain/runstate/runstate.go],
    [agent/run_transition.go], the [Run] record of [agent/types.go])

    A run is one request executed for a session.  Its status follows the map
    [AllowedTransitions]; [transitionRun] is the single place where the agent
    changes it.  The run's fields that no modelled operation reads or writes
    (traces, contracts, profiles) are left out of the record. *)
From S2P Require Import Prelude GoLib Planner ExecutionTask.
From stdpp Require Import relations.
Import Str GoTime.

(** ** Modes *)

Definition QueueMode := string.
Definition QueueEnqueue : QueueMode := "enqueue".
Definition QueueInterrupt : QueueMode := "interrupt".
Definition QueueCoalesce : QueueMode := "coalesce".
Definition QueueReject : QueueMode := "reject".

Definition QueueMode_Normalize (m : QueueMode) : QueueMode :=
  if decide (TrimSpace m ∈ [QueueInterrupt; QueueCoalesce; QueueReject]) then m
  else QueueEnqueue.

Definition ExecutionMode := string.
Definition ExecutionModeDirect : ExecutionMode := "direct".
Definition ExecutionModePlanned : ExecutionMode := "planned".
Definition ExecutionModeWatch : ExecutionMode := "watch".
Definition ExecutionModeWorkflow : ExecutionMode := "workflow".

Definition ExecutionMode_Normalize (m : ExecutionMode) : ExecutionMode :=
  if decide (TrimSpace m ∈ [ExecutionModePlanned; ExecutionModeWatch; ExecutionModeWorkflow])
  then m else ExecutionModeDirect.

(** ** Status and phase *)

Inductive Status :=
  | StatusEmpty | RunQueued | RunWaitingInput | RunRunning | RunWaitingApproval
  | RunStreaming | RunCompleted | RunFailed | RunCancelled | StatusOther (s : string).

#[export] Instance Status_eq_dec : EqDecision Status.
Proof. solve_decision. Defined.

Definition Status_Terminal (s : Status) : bool :=
  match s with RunCompleted | RunFailed | RunCancelled => true | _ => false end.

Definition Status_Waiting (s : Status) : bool :=
  match s with RunWaitingInput | RunWaitingApproval => true | _ => false end.

Definition Status_Active (s : Status) : bool :=
  match s with
  | RunQueued | RunRunning | RunStreaming | RunWaitingInput | RunWaitingApproval => true
  | _ => false
  end.

Definition AllowedTransitions (s : Status) : option (list Status) :=
  match s with
  | RunQueued => Some [RunRunning; RunWaitingInput; RunWaitingApproval; RunCancelled]
  | RunWaitingInput => Some [RunRunning; RunCancelled]
  | RunRunning =>
    Some [RunWaitingApproval; RunWaitingInput; RunStreaming; RunCompleted; RunFailed;
          RunCancelled]
  | RunWaitingApproval => Some [RunQueued; RunRunning; RunCompleted; RunFailed; RunCancelled]
  | RunStreaming => Some [RunRunning; RunCompleted; RunFailed; RunCancelled]
  | RunCompleted | RunFailed | RunCancelled => Some []
  | StatusEmpty | StatusOther _ => None
  end.

Definition ValidTransition (from to : Status) : bool :=
  match AllowedTransitions from with
  | None => false
  | Some allowed => existsb (fun s => bool_decide (s = to)) allowed
  end.

Inductive Phase :=
  | PhaseEmpty | PhasePreparing | PhaseWaitingModel | PhaseExecutingTools
  | PhaseWaitingApproval | PhaseCommitting | PhaseFinalize | PhaseOther (s : string).

#[export] Instance Phase_eq_dec : EqDecision Phase.
Proof. solve_decision. Defined.

Definition Phase_Active (p : Phase) : bool :=
  match p with
  | PhasePreparing | PhaseWaitingModel | PhaseExecutingTools | PhaseWaitingApproval
  | PhaseCommitting => true
  | _ => false
  end.

(** ** Runs *)

Record ToolCall := mkToolCall {
  ToolCall_ID : string;
  ToolCall_Name : string;
  ToolCall_Input : list (string * GoAny.Any)
}.

Record Run := mkRun {
  Run_ID : string;
  Run_SessionID : string;
  Run_Scope : string;                     (* Scope.AutomationID *)
  Run_ParentRunID : string;
  Run_InputEventID : string;
  Run_Status : Status;
  Run_QueueMode : QueueMode;
  Run_Phase : Phase;
  Run_ExecutionMode : ExecutionMode;
  Run_Model : string;
  Run_LastSessionRevision : Z;
  Run_ApprovalID : string;
  Run_PendingTools : list ToolCall;
  Run_Error : string;
  Run_Plan : option Plan;
  Run_ExecutionGraph : option ExecutionGraph;
  Run_StartedAt : Time;
  Run_UpdatedAt : Time;
  Run_FinishedAt : Time
}.

(** Field assignments. *)
Definition run_set_status (v : Status) (r : Run) : Run :=
  mkRun (Run_ID r) (Run_SessionID r) (Run_Scope r) (Run_ParentRunID r) (Run_InputEventID r)
    v (Run_QueueMode r) (Run_Phase r) (Run_ExecutionMode r) (Run_Model r)
    (Run_LastSessionRevision r) (Run_ApprovalID r) (Run_PendingTools r) (Run_Error r)
    (Run_Plan r) (Run_ExecutionGraph r) (Run_StartedAt r) (Run_UpdatedAt r) (Run_FinishedAt r).
Definition run_set_phase (v : Phase) (r : Run) : Run :=
  mkRun (Run_ID r) (Run_SessionID r) (Run_Scope r) (Run_ParentRunID r) (Run_InputEventID r)
    (Run_Status r) (Run_QueueMode r) v (Run_ExecutionMode r) (Run_Model r)
    (Run_LastSessionRevision r) (Run_ApprovalID r) (Run_PendingTools r) (Run_Error r)
    (Run_Plan r) (Run_ExecutionGraph r) (Run_StartedAt r) (Run_UpdatedAt r) (Run_FinishedAt r).
Definition run_set_revision (v : Z) (r : Run) : Run :=
  mkRun (Run_ID r) (Run_SessionID r) (Run_Scope r) (Run_ParentRunID r) (Run_InputEventID r)
    (Run_Status r) (Run_QueueMode r) (Run_Phase r) (Run_ExecutionMode r) (Run_Model r)
    v (Run_ApprovalID r) (Run_PendingTools r) (Run_Error r)
    (Run_Plan r) (Run_ExecutionGraph r) (Run_StartedAt r) (Run_UpdatedAt r) (Run_FinishedAt r).
Definition run_set_approval (v : string) (r : Run) : Run :=
  mkRun (Run_ID r) (Run_SessionID r) (Run_Scope r) (Run_ParentRunID r) (Run_InputEventID r)
    (Run_Status r) (Run_QueueMode r) (Run_Phase r) (Run_ExecutionMode r) (Run_Model r)
    (Run_LastSessionRevision r) v (Run_PendingTools r) (Run_Error r)
    (Run_Plan r) (Run_ExecutionGraph r) (Run_StartedAt r) (Run_UpdatedAt r) (Run_FinishedAt r).
Definition run_set_pending (v : list ToolCall) (r : Run) : Run :=
  mkRun (Run_ID r) (Run_SessionID r) (Run_Scope r) (Run_ParentRunID r) (Run_InputEventID r)
    (Run_Status r) (Run_QueueMode r) (Run_Phase r) (Run_ExecutionMode r) (Run_Model r)
    (Run_LastSessionRevision r) (Run_ApprovalID r) v (Run_Error r)
    (Run_Plan r) (Run_ExecutionGraph r) (Run_StartedAt r) (Run_UpdatedAt r) (Run_FinishedAt r).
Definition run_set_error (v : string) (r : Run) : Run :=
  mkRun (Run_ID r) (Run_SessionID r) (Run_Scope r) (Run_ParentRunID r) (Run_InputEventID r)
    (Run_Status r) (Run_QueueMode r) (Run_Phase r) (Run_ExecutionMode r) (Run_Model r)
    (Run_LastSessionRevision r) (Run_ApprovalID r) (Run_PendingTools r) v
    (Run_Plan r) (Run_ExecutionGraph r) (Run_StartedAt r) (Run_UpdatedAt r) (Run_FinishedAt r).
Definition run_set_plan (v : option Plan) (r : Run) : Run :=
  mkRun (Run_ID r) (Run_SessionID r) (Run_Scope r) (Run_ParentRunID r) (Run_InputEventID r)
    (Run_Status r) (Run_QueueMode r) (Run_Phase r) (Run_ExecutionMode r) (Run_Model r)
    (Run_LastSessionRevision r) (Run_ApprovalID r) (Run_PendingTools r) (Run_Error r)
    v (Run_ExecutionGraph r) (Run_StartedAt r) (Run_UpdatedAt r) (Run_FinishedAt r).
Definition run_set_graph (v : option ExecutionGraph) (r : Run) : Run :=
  mkRun (Run_ID r) (Run_SessionID r) (Run_Scope r) (Run_ParentRunID r) (Run_InputEventID r)
    (Run_Status r) (Run_QueueMode r) (Run_Phase r) (Run_ExecutionMode r) (Run_Model r)
    (Run_LastSessionRevision r) (Run_ApprovalID r) (Run_PendingTools r) (Run_Error r)
    (Run_Plan r) v (Run_StartedAt r) (Run_UpdatedAt r) (Run_FinishedAt r).
Definition run_set_started (v : Time) (r : Run) : Run :=
  mkRun (Run_ID r) (Run_SessionID r) (Run_Scope r) (Run_ParentRunID r) (Run_InputEventID r)
    (Run_Status r) (Run_QueueMode r) (Run_Phase r) (Run_ExecutionMode r) (Run_Model r)
    (Run_LastSessionRevision r) (Run_ApprovalID r) (Run_PendingTools r) (Run_Error r)
    (Run_Plan r) (Run_ExecutionGraph r) v (Run_UpdatedAt r) (Run_FinishedAt r).
Definition run_set_updated (v : Time) (r : Run) : Run :=
  mkRun (Run_ID r) (Run_SessionID r) (Run_Scope r) (Run_ParentRunID r) (Run_InputEventID r)
    (Run_Status r) (Run_QueueMode r) (Run_Phase r) (Run_ExecutionMode r) (Run_Model r)
    (Run_LastSessionRevision r) (Run_ApprovalID r) (Run_PendingTools r) (Run_Error r)
    (Run_Plan r) (Run_ExecutionGraph r) (Run_StartedAt r) v (Run_FinishedAt r).
Definition run_set_finished (v : Time) (r : Run) : Run :=
  mkRun (Run_ID r) (Run_SessionID r) (Run_Scope r) (Run_ParentRunID r) (Run_InputEventID r)
    (Run_Status r) (Run_QueueMode r) (Run_Phase r) (Run_ExecutionMode r) (Run_Model r)
    (Run_LastSessionRevision r) (Run_ApprovalID r) (Run_PendingTools r) (Run_Error r)
    (Run_Plan r) (Run_ExecutionGraph r) (Run_StartedAt r) (Run_UpdatedAt r) v.

(** ** Transitions ([agent/run_transition.go]) *)

(** The specification an option list builds up; a field is [None] while its
    [...Set] flag is false. *)
Record runTransitionSpec := mkSpec {
  spec_error : option string;
  spec_approval : option string;
  spec_pendingTools : option (list ToolCall);
  spec_finishedAt : option Time;
  spec_lastSessionRevision : option Z
}.

Definition RunTransitionOption := runTransitionSpec -> runTransitionSpec.

Definition withRunError (text : string) : RunTransitionOption := fun s =>
  mkSpec (Some text) (spec_approval s) (spec_pendingTools s) (spec_finishedAt s)
    (spec_lastSessionRevision s).
Definition withRunApproval (id : string) : RunTransitionOption := fun s =>
  mkSpec (spec_error s) (Some id) (spec_pendingTools s) (spec_finishedAt s)
    (spec_lastSessionRevision s).
Definition withRunPendingTools (calls : list ToolCall) : RunTransitionOption := fun s =>
  mkSpec (spec_error s) (spec_approval s) (Some calls) (spec_finishedAt s)
    (spec_lastSessionRevision s).
Definition withRunFinishedAt (at_ : Time) : RunTransitionOption := fun s =>
  mkSpec (spec_error s) (spec_approval s) (spec_pendingTools s) (Some at_)
    (spec_lastSessionRevision s).
Definition withRunLastSessionRevision (revision : Z) : RunTransitionOption := fun s =>
  mkSpec (spec_error s) (spec_approval s) (spec_pendingTools s) (spec_finishedAt s)
    (Some revision).

(** The assignments after the status check. *)
Definition apply_spec (s : runTransitionSpec) (r : Run) : Run :=
  let r := match spec_error s with Some e => run_set_error (TrimSpace e) r | None => r end in
  let r := match spec_approval s with
           | Some a => run_set_approval (TrimSpace a) r | None => r end in
  let r := match spec_pendingTools s with Some c => run_set_pending c r | None => r end in
  let r := match spec_finishedAt s with Some t => run_set_finished t r | None => r end in
  match spec_lastSessionRevision s with Some v => run_set_revision v r | None => r end.

Definition transition_spec (opts : list (option RunTransitionOption)) : runTransitionSpec :=
  foldl (fun s opt => match opt with Some f => f s | None => s end)
    (mkSpec None None None None None) opts.

(** [transitionRun]: the run as the call leaves it; an illegal transition is
    logged and changes nothing. *)
Definition transitionRun (run : option Run) (status : Status) (phase : Phase)
    (opts : list (option RunTransitionOption)) : option Run :=
  match run with
  | None => None
  | Some r =>
    let finish r :=
      Some (apply_spec (transition_spec opts)
              (if decide (phase <> PhaseEmpty) then run_set_phase phase r else r)) in
    if decide (status <> StatusEmpty /\ status <> Run_Status r) then
      if negb (ValidTransition (Run_Status r) status) then Some r
      else finish (run_set_status status r)
    else finish r
  end.

#[global] Arguments transitionRun : simpl never.

(** ** The theorems *)

Lemma apply_spec_frame s r :
  Run_Status (apply_spec s r) = Run_Status r ∧ Run_Phase (apply_spec s r) = Run_Phase r
  ∧ Run_ID (apply_spec s r) = Run_ID r ∧ Run_SessionID (apply_spec s r) = Run_SessionID r
  ∧ Run_Plan (apply_spec s r) = Run_Plan r ∧ Run_QueueMode (apply_spec s r) = Run_QueueMode r.
Proof. destruct s as [[] [] [] [] []]; split_and!; done. Qed.

(** The three outcomes of a transition. *)
Lemma transitionRun_cases r status phase opts :
  (status ≠ StatusEmpty ∧ status ≠ Run_Status r ∧ ValidTransition (Run_Status r) status = false
   ∧ transitionRun (Some r) status phase opts = Some r)
  ∨ (exists r', transitionRun (Some r) status phase opts = Some r'
      ∧ Run_Phase r' = (if decide (phase = PhaseEmpty) then Run_Phase r else phase)
      ∧ Run_ID r' = Run_ID r ∧ Run_Plan r' = Run_Plan r
      ∧ ((status = StatusEmpty ∨ status = Run_Status r) ∧ Run_Status r' = Run_Status r
         ∨ ValidTransition (Run_Status r) status = true ∧ Run_Status r' = status)).
Proof.
  unfold transitionRun.
  destruct (decide (status ≠ StatusEmpty ∧ status ≠ Run_Status r)) as [[H1 H2]|Hn].
  - destruct (ValidTransition (Run_Status r) status) eqn:HV; simpl; [right|left; done].
    eexists. split; [done|].
    destruct (apply_spec_frame (transition_spec opts)
      (if decide (phase ≠ PhaseEmpty) then run_set_phase phase (run_set_status status r)
       else run_set_status status r)) as (->&->&->&_&->&_).
    repeat case_decide; split_and!; auto; congruence.
  - right. eexists. split; [done|].
    destruct (apply_spec_frame (transition_spec opts)
      (if decide (phase ≠ PhaseEmpty) then run_set_phase phase r else r)) as (->&->&->&_&->&_).
    assert (status = StatusEmpty ∨ status = Run_Status r).
    { destruct (decide (status = StatusEmpty)); [by left|].
      destruct (decide (status = Run_Status r)); [by right|naive_solver]. }
    repeat case_decide; split_and!; auto; congruence.
Qed.

(** Reachability in the run state machine. *)
Definition run_edge (s s' : Status) : Prop := ValidTransition s s' = true.

(** the shape of the run state machine.  Every declared status is either
    active or terminal and not both; waiting statuses are active; exactly the
    terminal statuses have no successor; every active run can be cancelled in
    one transition, and can reach both completion and failure. *)
Theorem run_state_machine_shape (s : Status) :
  AllowedTransitions s <> None ->
  (Status_Active s = negb (Status_Terminal s))
  ∧ (Status_Waiting s = true -> Status_Active s = true)
  ∧ (Status_Terminal s = true <-> forall s', ¬ run_edge s s')
  ∧ (Status_Active s = true ->
       run_edge s RunCancelled
       ∧ exists s1, rtc run_edge s s1 ∧ run_edge s1 RunCompleted ∧ run_edge s1 RunFailed).
Proof.
  intros Hd. split; [by destruct s|]. split; [by destruct s|]. split.
  - unfold run_edge. split.
    + by destruct s.
    + intros Hn. destruct s; try done; by destruct (Hn RunCancelled).
  - intros Ha. split; [by destruct s|].
    destruct s; try done.
    all: exists RunRunning; (split; [|done]).
    all: first [reflexivity | by apply rtc_once].
Qed.

Lemma run_state_machine_shape_witness :
  AllowedTransitions RunWaitingInput <> None ∧ run_edge RunWaitingInput RunCancelled.
Proof.
  split; [done|]. by apply (run_state_machine_shape RunWaitingInput).
Defined.

(** C26: [transitionRun] obeys the state machine.  Whatever sequence of
    transitions is attempted on a run, its identity and plan are kept, the
    status it ends in is reachable in the state machine, a terminal status is
    kept whatever is attempted later, and a refused transition changes nothing
    of the run. *)
Theorem transitionRun_obeys (r : Run)
    (attempts : list (Status * Phase * list (option RunTransitionOption))) :
  exists r', foldl (fun run '(s, p, o) => transitionRun run s p o) (Some r) attempts = Some r'
    ∧ Run_ID r' = Run_ID r ∧ Run_Plan r' = Run_Plan r
    ∧ rtc run_edge (Run_Status r) (Run_Status r')
    ∧ (Status_Terminal (Run_Status r) = true -> Run_Status r' = Run_Status r)
    ∧ forall s p o, s ≠ StatusEmpty -> s ≠ Run_Status r' -> ¬ run_edge (Run_Status r') s ->
        transitionRun (Some r') s p o = Some r'.
Proof.
  assert (Hterm : forall s s', rtc run_edge s s' -> Status_Terminal s = true -> s' = s).
  { intros s s' [|? s1 ? He _] Ht; [done|]. unfold run_edge in He. by destruct x. }
  cut (exists r', foldl (fun run '(s, p, o) => transitionRun run s p o) (Some r) attempts = Some r'
    ∧ Run_ID r' = Run_ID r ∧ Run_Plan r' = Run_Plan r ∧ rtc run_edge (Run_Status r) (Run_Status r')).
  { intros (r'&E&?&?&Hr). exists r'. split_and!; auto.
    intros s p o H1 H2 H3. destruct (transitionRun_cases r' s p o) as
      [(_&_&_&->)|(r2&_&_&_&_&[[[]]|[? _]])]; done. }
  revert r. induction attempts as [|[[s p] o] rest IH]; intros r; simpl; [by exists r|].
  destruct (transitionRun_cases r s p o) as [(_&_&_&->)|(r1&->&_&Hid&Hpl&Hs)]; [apply IH|].
  destruct (IH r1) as (r'&->&Hid'&Hpl'&Hr). exists r'. split_and!; [done|congruence..|].
  destruct Hs as [[_ Es]|[HV Es]].
  - by rewrite <- Es.
  - eapply rtc_l; [|exact Hr]. unfold run_edge. by rewrite Es.
Qed.

(** mode normalization tests the trimmed text and returns the untrimmed
    one.  On a trimmed mode the result is one of the four declared modes and
    normalizing is idempotent; on a padded one, as ["interrupt "], the result
    is not a declared mode at all. *)
Theorem QueueMode_Normalize_padding :
  (forall m, Trimmed m ->
     QueueMode_Normalize m ∈ [QueueEnqueue; QueueInterrupt; QueueCoalesce; QueueReject]
     ∧ (m ∈ [QueueEnqueue; QueueInterrupt; QueueCoalesce; QueueReject] ->
        QueueMode_Normalize m = m))
  ∧ (forall m, QueueMode_Normalize (QueueMode_Normalize m) = QueueMode_Normalize m)
  ∧ QueueMode_Normalize "interrupt " = "interrupt "
  ∧ ExecutionMode_Normalize " planned" = " planned".
Proof.
  split_and!; [| |by vm_compute..].
  - intros m Ht. unfold QueueMode_Normalize. rewrite Ht. case_decide as Hm.
    + split; [by right|done].
    + split; [by left|]. intros [->|?]%elem_of_cons; done.
  - intros m. unfold QueueMode_Normalize. destruct (decide (TrimSpace m ∈ _)) eqn:E.
    + by rewrite E.
    + rewrite decide_False; [done|]. vm_compute (TrimSpace _).
      intros [?|[?|[?|?%elem_of_nil]%elem_of_cons]%elem_of_cons]%elem_of_cons; done.
Qed.
