(* ===== verification/Coordinator.v ===== *)
(** * Per-session run queues ([InMemoryCoordinator] of [agent/memory.go], the
    [Coordinator] interface of [agent/types.go])

    Each session has one active run and a list of queued runs.  The interface is
    the class [Coordinator]: its four operations, a view of the two fields, and
    the laws the agent relies on; the in-memory implementation is an instance.
    Mutual exclusion and first-in first-out order are proved against the
    interface. *)
From S2P Require Import Prelude GoLib RunState.

Inductive CoordinatorError :=
  | ErrRunRejected
  | ErrAlreadyActive (sessionID active : string).

(** ** The in-memory implementation *)

Record sessionQueue := mkQueue { q_active : string; q_queued : list string }.

Definition InMemoryCoordinator := gmap string sessionQueue.

Definition NewInMemoryCoordinator : InMemoryCoordinator := ∅.

(** The entry of a session, created when it is missing. *)
Definition coord_queue (c : InMemoryCoordinator) (sessionID : string) : sessionQueue :=
  default (mkQueue "" []) (c !! sessionID).

(** The update of a slice's last element. *)
Fixpoint set_last (l : list string) (v : string) : list string :=
  match l with
  | [] => []
  | [_] => [v]
  | x :: rest => x :: set_last rest v
  end.

Definition mem_EnqueueSessionRun (c : InMemoryCoordinator) (sessionID runID : string)
    (mode : QueueMode) : InMemoryCoordinator * option CoordinatorError :=
  let q := coord_queue c sessionID in
  let put queued := <[sessionID := mkQueue (q_active q) queued]> c in
  let append := (put (q_queued q ++ [runID]), None) in
  if decide (mode = QueueReject) then
    if decide (q_active q <> "" \/ q_queued q <> []) then
      (put (q_queued q), Some ErrRunRejected)
    else append
  else if decide (mode = QueueInterrupt) then (put [runID], None)
  else if decide (mode = QueueCoalesce) then
    if decide (q_queued q <> []) then (put (set_last (q_queued q) runID), None)
    else append
  else append.

Definition mem_NextQueuedRun (c : InMemoryCoordinator) (sessionID : string)
    : InMemoryCoordinator * option string :=
  let q := coord_queue c sessionID in (<[sessionID := q]> c, head (q_queued q)).

Definition mem_StartRun (c : InMemoryCoordinator) (sessionID runID : string)
    : InMemoryCoordinator * option CoordinatorError :=
  let q := coord_queue c sessionID in
  let put q' := <[sessionID := q']> c in
  if decide (q_active q = runID) then (put q, None)
  else if decide (q_active q <> "" /\ q_active q <> runID) then
    (put q, Some (ErrAlreadyActive sessionID (q_active q)))
  else
    match q_queued q with
    | [] => (put (mkQueue runID []), None)
    | first :: rest =>
      if decide (first <> runID) then (put (mkQueue runID (q_queued q)), None)
      else (put (mkQueue runID rest), None)
    end.

Definition mem_FinishRun (c : InMemoryCoordinator) (sessionID runID : string)
    : InMemoryCoordinator * option CoordinatorError :=
  let q := coord_queue c sessionID in
  let active := if decide (q_active q = runID) then "" else q_active q in
  (<[sessionID := mkQueue active (filter (fun id => id <> runID) (q_queued q))]> c, None).

(** ** The interface *)

(** The four operations, and the state of a session as the operations see it:
    its active run (empty when there is none) and its queue. *)
Class Coordinator (Q : Type) := {
  EnqueueSessionRun : Q -> string -> string -> QueueMode -> Q * option CoordinatorError;
  NextQueuedRun : Q -> string -> Q * option string;
  StartRun : Q -> string -> string -> Q * option CoordinatorError;
  FinishRun : Q -> string -> string -> Q * option CoordinatorError;
  view : Q -> string -> sessionQueue
}.

(** Enqueueing on an abstract queue, by mode. *)
Definition enqueue_spec (mode : QueueMode) (runID : string) (q : sessionQueue) : option sessionQueue :=
  if decide (mode = QueueReject ∧ (q_active q ≠ "" ∨ q_queued q ≠ [])) then None
  else Some (mkQueue (q_active q)
    (if decide (mode = QueueInterrupt) then [runID]
     else if decide (mode = QueueCoalesce ∧ q_queued q ≠ []) then
       take (length (q_queued q) - 1) (q_queued q) ++ [runID]
     else q_queued q ++ [runID])).

Class CoordinatorLaws (Q : Type) `{!Coordinator Q} := {
  (** every operation touches one session only *)
  law_frame_enqueue c s r m s' : s' ≠ s -> view (EnqueueSessionRun c s r m).1 s' = view c s';
  law_frame_next c s s' : s' ≠ s -> view (NextQueuedRun c s).1 s' = view c s';
  law_frame_start c s r s' : s' ≠ s -> view (StartRun c s r).1 s' = view c s';
  law_frame_finish c s r s' : s' ≠ s -> view (FinishRun c s r).1 s' = view c s';
  (** what it does there *)
  law_enqueue c s r m :
    match enqueue_spec m r (view c s) with
    | Some q => view (EnqueueSessionRun c s r m).1 s = q ∧ (EnqueueSessionRun c s r m).2 = None
    | None => view (EnqueueSessionRun c s r m).1 s = view c s
              ∧ (EnqueueSessionRun c s r m).2 = Some ErrRunRejected
    end;
  law_next c s : view (NextQueuedRun c s).1 s = view c s
                 ∧ (NextQueuedRun c s).2 = head (q_queued (view c s));
  law_start_ok c s r : (StartRun c s r).2 = None <->
                       q_active (view c s) = "" ∨ q_active (view c s) = r;
  law_start_refused c s r : (StartRun c s r).2 ≠ None -> view (StartRun c s r).1 s = view c s;
  law_start c s r : (StartRun c s r).2 = None ->
    q_active (view (StartRun c s r).1 s) = r
    ∧ q_queued (view (StartRun c s r).1 s)
      = if decide (q_active (view c s) ≠ r ∧ head (q_queued (view c s)) = Some r)
        then tail (q_queued (view c s)) else q_queued (view c s);
  law_finish c s r : (FinishRun c s r).2 = None
    ∧ view (FinishRun c s r).1 s
      = mkQueue (if decide (q_active (view c s) = r) then "" else q_active (view c s))
          (filter (fun id => id ≠ r) (q_queued (view c s)))
}.

#[export] Instance mem_coordinator : Coordinator InMemoryCoordinator := {
  EnqueueSessionRun := mem_EnqueueSessionRun;
  NextQueuedRun := mem_NextQueuedRun;
  StartRun := mem_StartRun;
  FinishRun := mem_FinishRun;
  view := coord_queue
}.

Lemma coord_queue_insert c s q : coord_queue (<[s := q]> c) s = q.
Proof. unfold coord_queue, InMemoryCoordinator in *. by rewrite lookup_insert_eq. Qed.

Lemma coord_queue_insert_ne c s s' q : s' ≠ s -> coord_queue (<[s := q]> c) s' = coord_queue c s'.
Proof. intros. unfold coord_queue, InMemoryCoordinator in *. by rewrite lookup_insert_ne. Qed.

Lemma set_last_spec l v : l ≠ [] -> set_last l v = take (length l - 1) l ++ [v].
Proof.
  induction l as [|x [|y l] IH]; intros Hl; [done..|].
  simpl in *. rewrite IH by done. f_equal.
  by destruct l.
Qed.

Ltac solve_frame :=
  intros; simpl; repeat (case_decide || case_match); simpl; by rewrite ?coord_queue_insert_ne.

#[export] Instance mem_coordinator_laws : CoordinatorLaws InMemoryCoordinator.
Proof.
  split.
  - unfold EnqueueSessionRun, view, mem_coordinator, mem_EnqueueSessionRun. solve_frame.
  - unfold NextQueuedRun, view, mem_coordinator, mem_NextQueuedRun. solve_frame.
  - unfold StartRun, view, mem_coordinator, mem_StartRun. solve_frame.
  - unfold FinishRun, view, mem_coordinator, mem_FinishRun. solve_frame.
  - intros c s r m. simpl. unfold enqueue_spec, mem_EnqueueSessionRun.
    destruct (coord_queue c s) as [a q] eqn:E. simpl.
    repeat case_decide; simpl; rewrite ?coord_queue_insert, ?set_last_spec;
      naive_solver.
  - intros c s. simpl. by rewrite coord_queue_insert.
  - intros c s r. simpl. unfold mem_StartRun. destruct (coord_queue c s) as [a q]. simpl.
    destruct (decide (a = "")); repeat (case_decide || case_match); simpl; naive_solver.
  - intros c s r. simpl. unfold mem_StartRun. destruct (coord_queue c s) as [a q]. simpl.
    repeat (case_decide || case_match); simpl; rewrite ?coord_queue_insert; done.
  - intros c s r. simpl. unfold mem_StartRun. destruct (coord_queue c s) as [a q]. simpl.
    repeat (case_decide || case_match); simpl; rewrite ?coord_queue_insert; simpl;
      simplify_eq/=; naive_solver.
  - intros c s r. simpl. unfold mem_FinishRun. by rewrite coord_queue_insert.
Qed.

(** ** What the agent gets from the interface *)

(** A call of the interface. *)
Inductive coord_op :=
  | OpEnqueue (s r : string) (m : QueueMode)
  | OpNext (s : string)
  | OpStart (s r : string)
  | OpFinish (s r : string).

Section interface.
Context {Q : Type} `{!Coordinator Q} `{!CoordinatorLaws Q}.

Definition coord_exec (c : Q) (op : coord_op) : Q :=
  match op with
  | OpEnqueue s r m => (EnqueueSessionRun c s r m).1
  | OpNext s => (NextQueuedRun c s).1
  | OpStart s r => (StartRun c s r).1
  | OpFinish s r => (FinishRun c s r).1
  end.

(** Take every queued run of a session: next, start, finish. *)
Fixpoint drain (fuel : nat) (c : Q) (s : string) : list string * Q :=
  match fuel with
  | O => ([], c)
  | S fuel =>
    match NextQueuedRun c s with
    | (c1, None) => ([], c1)
    | (c1, Some r) =>
      match StartRun c1 s r with
      | (c2, Some _) => ([], c2)
      | (c2, None) =>
        let '(rs, c4) := drain fuel (FinishRun c2 s r).1 s in (r :: rs, c4)
      end
    end
  end.

Lemma enqueue_active c s r m :
  q_active (view (EnqueueSessionRun c s r m).1 s) = q_active (view c s).
Proof.
  pose proof (law_enqueue c s r m) as H. unfold enqueue_spec in H.
  case_decide; simpl in H; destruct H as [-> _]; done.
Qed.

(** The active run of a session changes only when it finishes. *)
Lemma coord_exec_active c op s r :
  q_active (view c s) = r -> r ≠ "" -> op ≠ OpFinish s r ->
  q_active (view (coord_exec c op) s) = r.
Proof.
  intros Ha Hr Hop. destruct op as [s' r' m|s'|s' r'|s' r']; simpl;
    (destruct (decide (s = s')) as [<-|];
     [|rewrite ?law_frame_enqueue, ?law_frame_next, ?law_frame_start, ?law_frame_finish; done]).
  - by rewrite enqueue_active.
  - by rewrite (proj1 (law_next c s)).
  - destruct (StartRun c s r').2 eqn:E.
    + rewrite law_start_refused; [done|congruence].
    + destruct (law_start c s r' E) as [-> _].
      apply law_start_ok in E as [E|E]; congruence.
  - rewrite (proj2 (law_finish c s r')). simpl. case_decide; [|done]. congruence.
Qed.

Lemma coord_execs_active ops c s r :
  q_active (view c s) = r -> r ≠ "" -> OpFinish s r ∉ ops ->
  q_active (view (foldl coord_exec c ops) s) = r.
Proof.
  revert c. induction ops as [|op ops IH]; intros c Ha Hr Hops; simpl; [done|].
  apply not_elem_of_cons in Hops as [??]. apply IH; [|done..].
  by apply coord_exec_active.
Qed.

(** Draining a session whose queue holds [ids] yields [ids]. *)
Lemma drain_queue ids c s :
  view c s = mkQueue "" ids -> NoDup ids -> "" ∉ ids ->
  (drain (length ids) c s).1 = ids ∧ view (drain (length ids) c s).2 s = mkQueue "" [].
Proof.
  revert c. induction ids as [|r ids IH]; intros c Hv Hnd Hne; simpl; [done|].
  apply NoDup_cons in Hnd as [Hr Hnd]. apply not_elem_of_cons in Hne as [Hre Hne].
  destruct (law_next c s) as [Hv1 Hn]. destruct (NextQueuedRun c s) as [c1 o]. simpl in *.
  rewrite Hv in Hv1, Hn. simpl in Hn. subst o.
  destruct (StartRun c1 s r) as [c2 e] eqn:E.
  assert (e = None) as ->.
  { replace e with (StartRun c1 s r).2 by by rewrite E. apply law_start_ok.
    left. by rewrite Hv1. }
  destruct (law_start c1 s r) as [Ha Hq]; [by rewrite E|]. rewrite E, Hv1 in *. simpl in *.
  rewrite decide_True in Hq by done.
  destruct (IH (FinishRun c2 s r).1) as [H1 H2]; [|done..|].
  - rewrite (proj2 (law_finish c2 s r)). rewrite Ha, decide_True by done. f_equal.
    rewrite Hq. apply list_filter_id. congruence.
  - destruct (drain (length ids) (FinishRun c2 s r).1 s). simpl in *. by subst.
Qed.

Lemma enqueue_all ids c s a q :
  view c s = mkQueue a q ->
  view (foldl (fun c r => (EnqueueSessionRun c s r QueueEnqueue).1) c ids) s
  = mkQueue a (q ++ ids).
Proof.
  revert c q. induction ids as [|r ids IH]; intros c q Hv; simpl; [by rewrite app_nil_r|].
  replace (q ++ r :: ids) with ((q ++ [r]) ++ ids) by (by rewrite <- app_assoc).
  apply IH. pose proof (law_enqueue c s r QueueEnqueue) as H. rewrite Hv in H.
  unfold enqueue_spec in H. rewrite decide_False in H by (by intros [? _]).
  rewrite decide_False in H by done. rewrite decide_False in H by (by intros [? _]).
  by destruct H as [-> _].
Qed.
End interface.

(** C21: one run at a time per session.  Once a run has been started in a
    session, and until it is finished there, it stays the active run whatever
    the coordinator is asked to do, for this or for other sessions, and every
    attempt to start another run of the session is refused. *)
Theorem session_mutual_exclusion {Q : Type} `{!Coordinator Q, !CoordinatorLaws Q}
    (c : Q) (s r : string) (ops : list coord_op) :
  r ≠ "" -> (StartRun c s r).2 = None -> OpFinish s r ∉ ops ->
  q_active (view (foldl coord_exec (StartRun c s r).1 ops) s) = r
  ∧ forall r', r' ≠ r -> (StartRun (foldl coord_exec (StartRun c s r).1 ops) s r').2 ≠ None.
Proof.
  intros Hr Hs Hops.
  assert (Ha : q_active (view (foldl coord_exec (StartRun c s r).1 ops) s) = r).
  { apply coord_execs_active; [|done..]. by destruct (law_start c s r Hs). }
  split; [done|]. intros r' Hne [E|E]%law_start_ok; congruence.
Qed.

Lemma session_mutual_exclusion_witness :
  (StartRun (foldl coord_exec (StartRun NewInMemoryCoordinator "s1" "run-1").1
     [OpEnqueue "s1" "run-2" QueueInterrupt; OpFinish "s1" "run-2"]) "s1" "run-3").2 ≠ None.
Proof.
  apply (session_mutual_exclusion NewInMemoryCoordinator "s1" "run-1"
    [OpEnqueue "s1" "run-2" QueueInterrupt; OpFinish "s1" "run-2"]);
    [done|by vm_compute|set_solver|done].
Defined.

(** enqueued runs of an idle session are executed in the order they were
    submitted, each once, and the session is idle again afterwards. *)
Theorem session_fifo {Q : Type} `{!Coordinator Q, !CoordinatorLaws Q}
    (c : Q) (s : string) (ids : list string) :
  view c s = mkQueue "" [] -> NoDup ids -> "" ∉ ids ->
  let c' := foldl (fun c r => (EnqueueSessionRun c s r QueueEnqueue).1) c ids in
  (drain (length ids) c' s).1 = ids ∧ view (drain (length ids) c' s).2 s = mkQueue "" [].
Proof.
  intros Hv Hnd Hne c'. apply drain_queue; [|done..]. exact (enqueue_all ids c s "" [] Hv).
Qed.

Lemma session_fifo_witness :
  (drain 2 (foldl (fun c r => (EnqueueSessionRun c "s" r QueueEnqueue).1)
     NewInMemoryCoordinator ["run-1"; "run-2"]) "s").1 = ["run-1"; "run-2"].
Proof.
  apply (session_fifo NewInMemoryCoordinator "s" ["run-1"; "run-2"]).
  - reflexivity.
  - repeat constructor; set_solver.
  - set_solver.
Defined.

(** the queue modes.  Enqueueing never changes the active run; [reject]
    fails exactly when the session is busy, and then changes nothing;
    [interrupt] replaces the whole queue; [coalesce] replaces the last queued
    run, so the queue keeps its length or becomes a single entry; any other
    mode appends. *)
Theorem enqueue_modes (c : InMemoryCoordinator) (s r : string) (m : QueueMode) :
  let q := coord_queue c s in
  let '(c', err) := mem_EnqueueSessionRun c s r m in
  q_active (coord_queue c' s) = q_active q
  ∧ (err ≠ None <-> m = QueueReject ∧ (q_active q ≠ "" ∨ q_queued q ≠ []))
  ∧ (err ≠ None -> coord_queue c' s = q)
  ∧ (err = None -> last (q_queued (coord_queue c' s)) = Some r)
  ∧ (m = QueueInterrupt -> q_queued (coord_queue c' s) = [r])
  ∧ (m = QueueCoalesce ->
       length (q_queued (coord_queue c' s)) = Nat.max 1 (length (q_queued q)))
  ∧ (m ∉ [QueueInterrupt; QueueCoalesce] -> err = None ->
       q_queued (coord_queue c' s) = q_queued q ++ [r])
  ∧ forall s', s' ≠ s -> coord_queue c' s' = coord_queue c s'.
Proof.
  intros q. pose proof (law_enqueue c s r m) as H.
  pose proof (law_frame_enqueue c s r m) as Hf. simpl in H, Hf.
  unfold enqueue_spec in H. fold q in H.
  destruct (mem_EnqueueSessionRun c s r m) as [c' err]. simpl in *.
  case_decide as Hrej; simpl in H; destruct H as [-> ->].
  - split_and!; try done.
    + by intros ->; destruct Hrej.
    + by intros ->; destruct Hrej.
  - simpl. split_and!; try done.
    + intros _. by repeat case_decide; rewrite ?last_snoc.
    + intros ->. by rewrite decide_True.
    + intros ->. rewrite decide_False by done. case_decide as Hc.
      * rewrite length_app, length_take. simpl. destruct Hc as [_ Hc].
        destruct (q_queued q); [done|]. simpl. lia.
      * destruct (decide (q_queued q = [])) as [->|]; [done|naive_solver].
    + intros Hm _. apply not_elem_of_cons in Hm as [? Hm].
      apply not_elem_of_cons in Hm as [? _].
      rewrite decide_False by done. rewrite decide_False; [done|]. by intros [? _].
Qed.
