(* ===== verification/RunStore.v ===== *)
(** * The in-memory run store ([InMemoryRunStore] of [agent/memory.go], the
    scope filter of [agent/types.go])

    Runs by identifier, and for every external event the run it created last.
    Pointers handed out are clones, so the store is a value: each operation
    returns the new store.  [time.Now] is an argument. *)
From S2P Require Import Prelude GoLib Normalize Planner RunState.
From Stdlib Require Import DecimalString DecimalN.
From stdpp Require Import relations sorting.
Import Str GoTime.

(** ** Run identifiers ([fmt.Sprintf("run-%06d", n)]) *)

(** Go's decimal formatting of an unsigned integer. *)
Definition fmt_d (n : N) : string := NilEmpty.string_of_uint (N.to_uint n).

Fixpoint zeros (k : nat) : string :=
  match k with O => "" | S k => "0" +:+ zeros k end.

Definition fmt_06d (n : N) : string := zeros (6 - String.length (fmt_d n)) +:+ fmt_d n.

Definition run_id (n : N) : string := "run-" +:+ fmt_06d n.

(** Reading the digits back. *)
Definition decimal_value (s : string) : option N :=
  N.of_uint <$> NilEmpty.uint_of_string s.

Lemma decimal_value_zeros k n : decimal_value (zeros k +:+ fmt_d n) = Some n.
Proof.
  unfold decimal_value, fmt_d. induction k as [|k IH].
  - change (zeros 0 +:+ ?s) with s. rewrite NilEmpty.usu. simpl. by rewrite Unsigned.of_to.
  - change (zeros (S k) +:+ ?s) with ("0" +:+ (zeros k +:+ s)).
    revert IH. generalize (zeros k +:+ NilEmpty.string_of_uint (N.to_uint n)). intros s.
    change (NilEmpty.uint_of_string ("0" +:+ s))
      with (option_map Decimal.D0 (NilEmpty.uint_of_string s)).
    by destruct (NilEmpty.uint_of_string s).
Qed.

#[export] Instance fmt_06d_inj : Inj (=) (=) fmt_06d.
Proof.
  intros m n H. apply (f_equal decimal_value) in H. unfold fmt_06d in H.
  rewrite !decimal_value_zeros in H. by simplify_eq.
Qed.

#[export] Instance run_id_inj : Inj (=) (=) run_id.
Proof. intros m n H. by apply (inj (String.append "run-")), (inj fmt_06d) in H. Qed.

(** ** Scope filters ([agent/types.go], [internal/domain/scope]) *)

Record ScopeFilter := mkScopeFilter { Scope_AutomationIDs : list string; Scope_Deny : bool }.

Definition ScopeFilter_Normalize (f : ScopeFilter) : ScopeFilter :=
  mkScopeFilter (dedupe_loop ∅ (Scope_AutomationIDs f)) (Scope_Deny f).

Definition ScopeFilter_IsZero (f : ScopeFilter) : bool :=
  let n := ScopeFilter_Normalize f in
  negb (Scope_Deny n) && bool_decide (Scope_AutomationIDs n = []).

(** [scope] is the reference's automation identifier. *)
Definition ScopeFilter_Matches (f : ScopeFilter) (scope : string) : bool :=
  let n := ScopeFilter_Normalize f in
  if Scope_Deny n then false
  else if decide (Scope_AutomationIDs n = []) then true
  else existsb (fun allowed => bool_decide (TrimSpace scope = allowed)) (Scope_AutomationIDs n).

(** ** The store *)

Record InMemoryRunStore := mkRunStore {
  rs_nextID : Z;
  rs_byID : gmap string Run;
  rs_byEventID : gmap string string
}.

Definition NewInMemoryRunStore : InMemoryRunStore := mkRunStore 0 ∅ ∅.

(** The fields of [IncomingMessage] and [AgentConfig] that creating a run reads. *)
Record IncomingMessage := mkMsg {
  Msg_ExternalEventID : string;
  Msg_ParentRunID : string;
  Msg_Model : string;
  Msg_AutomationID : string
}.
Record AgentConfig := mkConfig { Cfg_QueueMode : QueueMode; Cfg_DefaultModel : string }.

Inductive RunStoreError :=
  | ErrRunRequired
  | ErrRunNotFound (id : string)
  | ErrEventNotFound (event : string).

Definition Seen (s : InMemoryRunStore) (now : Time) (event : string) (within : Duration) : bool :=
  if decide (event = "") then false
  else
    match rs_byEventID s !! event with
    | None => false
    | Some runID =>
      match rs_byID s !! runID with
      | None => false
      | Some run =>
        if decide (within <= 0)%Z then true
        else bool_decide (Sub now (Run_UpdatedAt run) <= within)%Z
      end
    end.

Definition FindByExternalEvent (s : InMemoryRunStore) (event : string) : Run + RunStoreError :=
  match rs_byEventID s !! event with
  | None => inr (ErrEventNotFound event)
  | Some runID =>
    match rs_byID s !! runID with
    | None => inr (ErrRunNotFound runID)
    | Some run => inl run
    end
  end.

Definition GetScoped (s : InMemoryRunStore) (runID : string) (scope : ScopeFilter)
    : Run + RunStoreError :=
  match rs_byID s !! runID with
  | None => inr (ErrRunNotFound runID)
  | Some run =>
    if negb (ScopeFilter_Matches scope (Run_Scope run)) then inr (ErrRunNotFound runID)
    else inl run
  end.

Definition Get (s : InMemoryRunStore) (runID : string) : Run + RunStoreError :=
  GetScoped s runID (mkScopeFilter [] false).

Definition defaultString (v fallback : string) : string := if decide (v <> "") then v else fallback.

(** The run [Create] builds from counter value [n]. *)
Definition new_run (now : Time) (n : Z) (sessionID : string) (msg : IncomingMessage)
    (cfg : AgentConfig) : Run :=
  mkRun (run_id (Z.to_N n)) sessionID (TrimSpace (TrimSpace (Msg_AutomationID msg)))
    (TrimSpace (Msg_ParentRunID msg)) (Msg_ExternalEventID msg) RunQueued (Cfg_QueueMode cfg)
    PhasePreparing ExecutionModeDirect (defaultString (Msg_Model msg) (Cfg_DefaultModel cfg))
    0 "" [] "" None None zeroTime now zeroTime.

(** [atomic.Uint64.Add(1)]. *)
Definition next_counter (n : Z) : Z := ((n + 1) mod 2 ^ 64)%Z.

Definition Create (s : InMemoryRunStore) (now : Time) (sessionID : string)
    (msg : IncomingMessage) (cfg : AgentConfig) : InMemoryRunStore * Run :=
  let n := next_counter (rs_nextID s) in
  let run := new_run now n sessionID msg cfg in
  (mkRunStore n (<[Run_ID run := run]> (rs_byID s))
     (if decide (Msg_ExternalEventID msg <> "") then
        <[Msg_ExternalEventID msg := Run_ID run]> (rs_byEventID s)
      else rs_byEventID s), run).

(** [Update]: the store, the caller's run (its [UpdatedAt] is written through
    the pointer) and the error. *)
Definition Update (s : InMemoryRunStore) (now : Time) (run : option Run)
    : InMemoryRunStore * option Run * option RunStoreError :=
  match run with
  | None => (s, None, Some ErrRunRequired)
  | Some r =>
    match rs_byID s !! Run_ID r with
    | None => (s, Some r, Some (ErrRunNotFound (Run_ID r)))
    | Some _ =>
      let r := run_set_updated now r in
      (mkRunStore (rs_nextID s) (<[Run_ID r := r]> (rs_byID s))
         (if decide (Run_InputEventID r <> "") then
            <[Run_InputEventID r := Run_ID r]> (rs_byEventID s)
          else rs_byEventID s), Some r, None)
    end
  end.

(** [ClaimQueuedRun]: the store and the run with the claimed flag, or the error. *)
Definition ClaimQueuedRun (s : InMemoryRunStore) (now : Time) (runID : string)
    : InMemoryRunStore * (Run * bool + RunStoreError) :=
  match rs_byID s !! runID with
  | None => (s, inr (ErrRunNotFound runID))
  | Some current =>
    if decide (Run_Status current <> RunQueued) then (s, inl (current, false))
    else
      let claimed := run_set_status RunRunning current in
      let claimed := if IsZero (Run_StartedAt claimed) then run_set_started now claimed
                     else claimed in
      let claimed := run_set_updated now claimed in
      (mkRunStore (rs_nextID s) (<[runID := claimed]> (rs_byID s)) (rs_byEventID s),
       inl (claimed, true))
  end.

Definition isTerminalRunStatus (s : Status) : bool :=
  match s with RunCompleted | RunFailed | RunCancelled => true | _ => false end.

(** The condition under which the pruning loop deletes a run. *)
Definition prunable (before : Time) (run : Run) : bool :=
  isTerminalRunStatus (Run_Status run) && negb (IsZero (Run_FinishedAt run))
  && Before (Run_FinishedAt run) before.

Definition prune_one (before : Time) (acc : InMemoryRunStore * nat) (entry : string * Run)
    : InMemoryRunStore * nat :=
  let '(s, deleted) := acc in
  let '(id, run) := entry in
  if prunable before run then
    (mkRunStore (rs_nextID s) (delete id (rs_byID s))
       (if decide (TrimSpace (Run_InputEventID run) <> "") then
          delete (Run_InputEventID run) (rs_byEventID s)
        else rs_byEventID s), S deleted)
  else acc.

(** [PruneRuns] visits the runs in some order [entries] of the map. *)
Definition PruneRuns_order (entries : list (string * Run)) (s : InMemoryRunStore) (before : Time)
    : InMemoryRunStore * nat :=
  if IsZero before then (s, 0) else foldl (prune_one before) (s, 0) entries.

Definition PruneRuns (s : InMemoryRunStore) (before : Time) : InMemoryRunStore * nat :=
  PruneRuns_order (map_to_list (rs_byID s)) s before.

(** ** Listing *)

Record RunListFilter := mkRunListFilter {
  List_SessionID : string;
  List_Status : Status;
  List_Scope : ScopeFilter;
  List_Limit : Z
}.

Definition list_matches (f : RunListFilter) (run : Run) : bool :=
  negb (bool_decide (List_SessionID f <> "" /\ Run_SessionID run <> List_SessionID f))
  && negb (bool_decide (List_Status f <> StatusEmpty /\ Run_Status run <> List_Status f))
  && ScopeFilter_Matches (List_Scope f) (Run_Scope run).

(** The order of the listing: most recently updated first. *)
Definition newer (a b : Run) : Prop := (Run_UpdatedAt b <= Run_UpdatedAt a)%Z.
#[export] Instance newer_dec : RelDecision newer.
Proof. intros a b. unfold newer. apply _. Defined.

(** [List], when the map is visited in the order [entries].  Go's sort is not
    stable, so runs updated at the same instant come out in any order: every
    outcome is the stable sort of some order of the entries. *)
Definition ListRuns (entries : list Run) (f : RunListFilter) : list Run :=
  let out := merge_sort newer (filter (fun r => list_matches f r = true) entries) in
  if decide (0 < List_Limit f /\ List_Limit f < Z.of_nat (length out))%Z then
    take (Z.to_nat (List_Limit f)) out
  else out.

(** ** The store's invariant *)

(** [id] was handed out by the counter. *)
Definition issued (s : InMemoryRunStore) (id : string) : Prop :=
  exists k, (1 <= k <= rs_nextID s)%Z ∧ id = run_id (Z.to_N k).

Record store_inv (s : InMemoryRunStore) : Prop := {
  inv_counter : (0 <= rs_nextID s < 2 ^ 64)%Z;
  inv_byID : forall id r, rs_byID s !! id = Some r -> Run_ID r = id ∧ issued s id;
  inv_issued : forall ev id, rs_byEventID s !! ev = Some id -> issued s id;
  inv_event : forall ev id r, rs_byEventID s !! ev = Some id -> rs_byID s !! id = Some r ->
    Run_InputEventID r = ev
}.

(** One call that changes the store.  The agent never changes the event of a run
    it updates. *)
Inductive store_step : InMemoryRunStore -> InMemoryRunStore -> Prop :=
  | store_create s s' r now sid msg cfg :
      (rs_nextID s + 1 < 2 ^ 64)%Z -> Create s now sid msg cfg = (s', r) -> store_step s s'
  | store_update s s' r r' now err :
      (forall r0, rs_byID s !! Run_ID r = Some r0 -> Run_InputEventID r0 = Run_InputEventID r) ->
      Update s now (Some r) = (s', r', err) -> store_step s s'
  | store_claim s s' now id res : ClaimQueuedRun s now id = (s', res) -> store_step s s'
  | store_prune s s' before n entries :
      entries ≡ₚ map_to_list (rs_byID s) ->
      PruneRuns_order entries s before = (s', n) -> store_step s s'.

Lemma new_store_inv : store_inv NewInMemoryRunStore.
Proof.
  split; simpl; [lia|..].
  - intros ??. by rewrite lookup_empty.
  - intros ??. by rewrite lookup_empty.
  - intros ???. by rewrite lookup_empty.
Qed.

Lemma next_counter_small n : (0 <= n)%Z -> (n + 1 < 2 ^ 64)%Z -> next_counter n = (n + 1)%Z.
Proof. intros. unfold next_counter. apply Z.mod_small. lia. Qed.

Lemma issued_mono s s' id :
  (rs_nextID s <= rs_nextID s')%Z -> issued s id -> issued s' id.
Proof. intros Hle (k&?&->). exists k. split; [lia|done]. Qed.

Lemma issued_fresh s : (0 <= rs_nextID s)%Z -> ¬ issued s (run_id (Z.to_N (rs_nextID s + 1))).
Proof. intros H0 (k&Hk&E). apply (inj run_id) in E. lia. Qed.

Lemma Create_inv s s' r now sid msg cfg :
  store_inv s -> (rs_nextID s + 1 < 2 ^ 64)%Z -> Create s now sid msg cfg = (s', r) ->
  store_inv s' ∧ rs_byID s !! Run_ID r = None ∧ rs_byID s' = <[Run_ID r := r]> (rs_byID s).
Proof.
  intros [Hc Hb Hi He] Hlt H. unfold Create in H.
  rewrite next_counter_small in H by lia.
  assert (Hfresh : rs_byID s !! run_id (Z.to_N (rs_nextID s + 1)) = None).
  { destruct (rs_byID s !! _) eqn:E; [|done]. apply Hb in E as [_ E].
    by apply issued_fresh in E; [|lia]. }
  injection H as <- <-. split; [|done]. simpl.
  assert (Hmono : forall id, issued s id ->
    issued (mkRunStore (rs_nextID s + 1) ∅ ∅) id) by (intros; eapply issued_mono; eauto; simpl; lia).
  assert (Hnew : issued (mkRunStore (rs_nextID s + 1) ∅ ∅) (run_id (Z.to_N (rs_nextID s + 1))))
    by (exists (rs_nextID s + 1)%Z; simpl; split; [lia|done]).
  split; simpl; [lia|..].
  - intros id r [[<- <-]|[Hne Hl]]%lookup_insert_Some; [done|].
    apply Hb in Hl as [? ?]. split; [done|]. by apply Hmono.
  - intros ev id. case_decide.
    + intros [[<- <-]|[? Hl]]%lookup_insert_Some; [done|]. by eapply Hmono, Hi.
    + intros Hl. by eapply Hmono, Hi.
  - intros ev id r Hev Hid. case_decide.
    + apply lookup_insert_Some in Hev as [[<- <-]|[Hne Hev]].
      * rewrite lookup_insert_eq in Hid. by simplify_eq/=.
      * apply lookup_insert_Some in Hid as [[<- <-]|[? Hid]]; [|by eapply He].
        exfalso. eapply issued_fresh; [|by eapply Hi]. lia.
    + apply lookup_insert_Some in Hid as [[<- <-]|[? Hid]]; [|by eapply He].
      exfalso. eapply issued_fresh; [|by eapply Hi]. lia.
Qed.

(** Writing a run back under its own identifier, with its event. *)
Lemma put_inv s id r r0 (ev : bool) :
  store_inv s -> rs_byID s !! id = Some r0 -> Run_ID r = id ->
  Run_InputEventID r0 = Run_InputEventID r ->
  store_inv (mkRunStore (rs_nextID s) (<[id := r]> (rs_byID s))
    (if ev then <[Run_InputEventID r := id]> (rs_byEventID s) else rs_byEventID s)).
Proof.
  intros [Hc Hb Hi He] Hl Hid Hev. split; simpl; [done|..].
  - intros id' r' [[<- <-]|[? Hl']]%lookup_insert_Some; [|by apply Hb].
    split; [done|]. by apply Hb in Hl as [_ ?].
  - intros ev' id'. destruct ev; [|apply Hi].
    intros [[<- <-]|[? Hl']]%lookup_insert_Some; [by apply Hb in Hl as [_ ?]|by eapply Hi].
  - intros ev' id' r' Hm Hr. apply lookup_insert_Some in Hr as [[<- <-]|[Hne Hr]].
    + destruct ev; [apply lookup_insert_Some in Hm as [[<- _]|[? Hm]]; [done|]|];
        rewrite <- Hev; by eapply He.
    + destruct ev; [apply lookup_insert_Some in Hm as [[<- <-]|[? Hm]]; [done|]|];
        by eapply He.
Qed.

Lemma decide_bool {A} (P : Prop) `{Decision0 : !Decision P} (x y : A) :
  (if decide P then x else y) = (if bool_decide P then x else y).
Proof. unfold bool_decide, decide. by destruct Decision0. Qed.

Lemma Update_inv s s' r r' now err :
  store_inv s ->
  (forall r0, rs_byID s !! Run_ID r = Some r0 -> Run_InputEventID r0 = Run_InputEventID r) ->
  Update s now (Some r) = (s', r', err) -> store_inv s'.
Proof.
  intros Hinv Hev. unfold Update. destruct (rs_byID s !! Run_ID r) as [r0|] eqn:E.
  - intros [= <- _ _]. rewrite decide_bool.
    apply (put_inv _ _ (run_set_updated now r) r0); auto.
  - by intros [= <- _ _].
Qed.

Lemma ClaimQueuedRun_inv s s' now id res :
  store_inv s -> ClaimQueuedRun s now id = (s', res) -> store_inv s'.
Proof.
  intros Hinv. unfold ClaimQueuedRun. destruct (rs_byID s !! id) as [r|] eqn:E.
  - case_decide; [by intros [= <- _]|]. intros [= <- _].
    apply (put_inv s id _ r false); try done; [|by case_match].
    pose proof (inv_byID _ Hinv _ _ E) as [? _]. by case_match.
  - by intros [= <- _].
Qed.

(** ** Pruning *)

(** The entries that delete identifier [id], or the mapping of event [ev]. *)
Definition prunes_id (before : Time) (id : string) (e : string * Run) : Prop :=
  prunable before e.2 = true ∧ e.1 = id.
Definition prunes_event (before : Time) (ev : string) (e : string * Run) : Prop :=
  prunable before e.2 = true ∧ Run_InputEventID e.2 = ev ∧ TrimSpace ev ≠ "".

Lemma lookup_delete_iff {A} (m : gmap string A) (k id : string) (r : A) :
  delete k m !! id = Some r <-> m !! id = Some r ∧ k ≠ id.
Proof. rewrite lookup_delete_Some. tauto. Qed.

(** The state of the pruning loop after some entries. *)
Lemma prune_fold_spec before entries s n :
  let res := foldl (prune_one before) (s, n) entries in
  rs_nextID res.1 = rs_nextID s
  ∧ (forall id r, rs_byID res.1 !! id = Some r <->
       rs_byID s !! id = Some r ∧ ¬ Exists (prunes_id before id) entries)
  ∧ (forall ev id, rs_byEventID res.1 !! ev = Some id <->
       rs_byEventID s !! ev = Some id ∧ ¬ Exists (prunes_event before ev) entries)
  ∧ res.2 = n + length (filter (fun e => prunable before e.2 = true) entries).
Proof.
  revert s n. induction entries as [|[id0 r0] entries IH]; intros s n; cbn [foldl].
  { simpl. split_and!; [done|..|lia]; intros; rewrite Exists_nil; tauto. }
  specialize (IH (prune_one before (s, n) (id0, r0)).1 (prune_one before (s, n) (id0, r0)).2).
  rewrite <- surjective_pairing in IH. destruct IH as (->&Hid&Hev&->).
  rewrite filter_cons. setoid_rewrite Hid. setoid_rewrite Hev. setoid_rewrite Exists_cons.
  unfold prunes_id, prunes_event, prune_one. simpl.
  destruct (prunable before r0) eqn:Ep; simpl.
  - split_and!; [done| | |simpl; lia].
    + intros id r. rewrite lookup_delete_iff. naive_solver.
    + intros ev id. case_decide; [rewrite lookup_delete_iff|]; naive_solver.
  - split_and!; [done| | |done]; intros; naive_solver.
Qed.

Lemma PruneRuns_order_inv s s' before n entries :
  store_inv s -> PruneRuns_order entries s before = (s', n) -> store_inv s'.
Proof.
  intros [Hc Hb Hi He] H. unfold PruneRuns_order in H. destruct (IsZero before).
  { by injection H as <- _. }
  pose proof (prune_fold_spec before entries s 0) as (Hn&Hid&Hev&_).
  rewrite H in *. simpl in *. assert (Hiss : forall id, issued s id -> issued s' id).
  { intros id. apply issued_mono. lia. }
  split; [by rewrite Hn|..].
  - intros id r [Hl _]%Hid. apply Hb in Hl as [??]. auto.
  - intros ev id [Hl _]%Hev. eauto.
  - intros ev id r [Hl _]%Hev [Hr _]%Hid. eauto.
Qed.

Lemma store_step_inv s s' : store_inv s -> store_step s s' -> store_inv s'.
Proof.
  intros Hi Hs. revert Hi. destruct Hs; intros Hi.
  - by eapply Create_inv.
  - by eapply Update_inv.
  - by eapply ClaimQueuedRun_inv.
  - by eapply PruneRuns_order_inv.
Qed.

Lemma store_steps_inv s s' : store_inv s -> rtc store_step s s' -> store_inv s'.
Proof. intros Hi Hr. induction Hr; eauto using store_step_inv. Qed.

Lemma store_step_counter s s' :
  store_inv s -> store_step s s' -> (rs_nextID s <= rs_nextID s')%Z.
Proof.
  intros Hi Hs. revert Hi.
  destruct Hs as [s s' r1 ? ? ? ? Hlt H|s s' ? ? ? ? _ H|s s' ? ? ? H|s s' before ? entries _ H];
    intros Hi.
  - unfold Create in H. injection H as <- _. simpl.
    rewrite next_counter_small; [lia|apply Hi|done].
  - unfold Update in H. destruct (rs_byID s !! _); injection H as <- _ _; simpl; lia.
  - unfold ClaimQueuedRun in H. repeat case_match; injection H as <- _; simpl; lia.
  - unfold PruneRuns_order in H. destruct (IsZero before); [injection H as <- _; lia|].
    pose proof (prune_fold_spec before entries s 0) as (E&_). rewrite H in E. simpl in E. lia.
Qed.

(** ** The theorems *)

(** the run store never confuses runs or events.  In every store reached
    from the empty one, a run just created has an identifier no stored run has;
    a run found by an external event was created for that event and is what a
    read by its identifier returns; and when the event counts as seen, the
    lookup that follows succeeds. *)
Theorem run_store_lookup (s : InMemoryRunStore) :
  rtc store_step NewInMemoryRunStore s ->
  (forall now sid msg cfg s' r, (rs_nextID s + 1 < 2 ^ 64)%Z ->
     Create s now sid msg cfg = (s', r) ->
     rs_byID s !! Run_ID r = None ∧ Get s' (Run_ID r) = inl r)
  ∧ (forall ev r, FindByExternalEvent s ev = inl r ->
       Run_InputEventID r = ev ∧ Get s (Run_ID r) = inl r)
  ∧ (forall now ev within, Seen s now ev within = true ->
       exists r, FindByExternalEvent s ev = inl r).
Proof.
  intros Hr. pose proof (store_steps_inv _ _ new_store_inv Hr) as Hi. split_and!.
  - intros now sid msg cfg s' r Hlt H. destruct (Create_inv _ _ _ _ _ _ _ Hi Hlt H) as (_&?&E).
    split; [done|]. unfold Get, GetScoped. by rewrite E, lookup_insert_eq.
  - intros ev r. unfold FindByExternalEvent.
    destruct (rs_byEventID s !! ev) as [id|] eqn:E1; [|done].
    destruct (rs_byID s !! id) as [r'|] eqn:E2; [|done]. intros [= ->].
    split; [by eapply inv_event|]. destruct (inv_byID _ Hi _ _ E2) as [-> _].
    unfold Get, GetScoped. by rewrite E2.
  - intros now ev within. unfold Seen, FindByExternalEvent. case_decide; [done|].
    destruct (rs_byEventID s !! ev) as [id|]; [|done].
    destruct (rs_byID s !! id) as [r'|]; [|done]. eauto.
Qed.

(** The run [id] is not queued. *)
Definition not_queued (id : string) (s : InMemoryRunStore) : Prop :=
  forall r, rs_byID s !! id = Some r -> Run_Status r ≠ RunQueued.

(** Steps that do not put run [id] back into the queue. *)
Definition keeps_claimed (id : string) (s s' : InMemoryRunStore) : Prop :=
  store_step s s' ∧ forall r now r' err,
    Update s now (Some r) = (s', r', err) -> Run_ID r = id -> Run_Status r ≠ RunQueued.

Lemma claim_result s s' now id r :
  ClaimQueuedRun s now id = (s', inl (r, true)) ->
  exists r0, rs_byID s !! id = Some r0 ∧ Run_Status r0 = RunQueued
    ∧ Run_Status r = RunRunning ∧ rs_byID s' = <[id := r]> (rs_byID s).
Proof.
  unfold ClaimQueuedRun. destruct (rs_byID s !! id) as [r0|]; [|done].
  case_decide; [done|]. intros [= <- <-]. exists r0. split_and!; [done..| |done].
  by case_match.
Qed.

Lemma store_step_not_queued id s s' :
  store_inv s -> issued s id -> not_queued id s -> keeps_claimed id s s' -> not_queued id s'.
Proof.
  intros Hi Hiss Hq [Hs Hup]. revert Hi Hiss Hq Hup.
  destruct Hs as [s s' r now sid msg cfg Hlt H|s s' r r' now err _ H|s s' now id' res H
                 |s s' before n entries _ H]; intros Hi Hiss Hq Hup r1 Hr1.
  - destruct (Create_inv _ _ _ _ _ _ _ Hi Hlt H) as (_&Hnone&E). rewrite E in Hr1.
    apply lookup_insert_Some in Hr1 as [[<- <-]|[? Hr1]]; [|by apply Hq].
    unfold Create in H. injection H as <- <-. simpl in Hiss, Hnone. exfalso.
    rewrite next_counter_small in Hiss by (lia || apply Hi).
    eapply issued_fresh, Hiss. apply Hi.
  - specialize (Hup r now r' err H). unfold Update in H.
    destruct (rs_byID s !! Run_ID r); injection H as <- _ _; [|by apply Hq].
    simpl in Hr1. apply lookup_insert_Some in Hr1 as [[<- <-]|[? Hr1]]; [|by apply Hq].
    by apply Hup.
  - unfold ClaimQueuedRun in H. destruct (rs_byID s !! id') as [r0|] eqn:E.
    + case_decide as Hc; injection H as <- _; [by apply Hq|]. simpl in Hr1.
      apply lookup_insert_Some in Hr1 as [[<- <-]|[? Hr1]]; [|by apply Hq].
      by case_match.
    + injection H as <- _. by apply Hq.
  - unfold PruneRuns_order in H. destruct (IsZero before); [injection H as <- _; by apply Hq|].
    pose proof (prune_fold_spec before entries s 0) as (_&Hid&_). rewrite H in Hid.
    apply Hid in Hr1 as [? _]. by apply Hq.
Qed.

(** C22: a queued run is claimed at most once.  After one worker's claim of a
    run succeeded, and as long as nobody writes the run back as queued, no
    later claim of the run succeeds, whatever other runs are created, updated,
    claimed or pruned in between. *)
Theorem claim_exclusive (s s1 s2 : InMemoryRunStore) (now : Time) (id : string) (r : Run) :
  rtc store_step NewInMemoryRunStore s ->
  ClaimQueuedRun s now id = (s1, inl (r, true)) ->
  rtc (keeps_claimed id) s1 s2 ->
  Run_Status r = RunRunning
  ∧ forall now' r', (ClaimQueuedRun s2 now' id).2 ≠ inl (r', true).
Proof.
  intros Hr Hc Hk. pose proof (store_steps_inv _ _ new_store_inv Hr) as Hi.
  pose proof (claim_result _ _ _ _ _ Hc) as (r0&Hr0&_&Hrun&E1). split; [done|].
  assert (Hi1 : store_inv s1) by by eapply ClaimQueuedRun_inv.
  assert (Hiss : issued s1 id).
  { eapply inv_byID; [done|]. rewrite E1. apply lookup_insert_eq. }
  assert (Hq : not_queued id s1).
  { intros r1. rewrite E1, lookup_insert_eq. intros [= <-]. by rewrite Hrun. }
  clear Hr Hc Hi E1 Hr0. induction Hk as [s1|s1 s3 s2 Hs _ IH].
  - intros now' r' H. destruct (ClaimQueuedRun s1 now' id) as [s4 res] eqn:E. simpl in H. subst.
    apply claim_result in E as (r1&Hl&Hst&_). by apply Hq in Hl.
  - assert (Hi3 : store_inv s3) by (eapply store_step_inv; [|apply Hs]; done).
    apply IH; [done| |by apply (store_step_not_queued id s1)].
    eapply issued_mono, Hiss. apply store_step_counter; [done|apply Hs].
Qed.

Lemma entries_prune_id before m entries id r :
  entries ≡ₚ map_to_list (m : gmap string Run) -> m !! id = Some r ->
  Exists (prunes_id before id) entries <-> prunable before r = true.
Proof.
  intros -> Hr. rewrite Exists_exists. unfold prunes_id. split.
  - intros ([id' r']&Hin&Hp&Hid). simpl in *. subst.
    apply elem_of_map_to_list in Hin. by simplify_eq.
  - intros Hp. exists (id, r). split; [|done]. by apply elem_of_map_to_list.
Qed.

Lemma prune_byID before s entries :
  entries ≡ₚ map_to_list (rs_byID s) ->
  rs_byID (foldl (prune_one before) (s, 0) entries).1
  = filter (fun e => prunable before e.2 = false) (rs_byID s).
Proof.
  intros Hp. apply map_eq. intros id. apply option_eq. intros r.
  destruct (prune_fold_spec before entries s 0) as (_&Hid&_). rewrite Hid.
  rewrite map_lookup_filter_Some. simpl. split; intros [Hl Hx]; (split; [done|]).
  - rewrite (entries_prune_id before _ _ _ _ Hp Hl) in Hx. by destruct (prunable before r).
  - rewrite (entries_prune_id before _ _ _ _ Hp Hl). congruence.
Qed.

(** pruning removes exactly the finished runs older than the cutoff.
    Whatever the order in which the map is visited, a run is kept unless it is
    in a terminal status with a finish time before the cutoff; no run that is
    still queued, running or waiting is ever removed; the count returned is the
    number of runs removed; and the zero cutoff prunes nothing. *)
Theorem prune_exact (s s' : InMemoryRunStore) (before : Time) (entries : list (string * Run))
    (n : nat) :
  entries ≡ₚ map_to_list (rs_byID s) -> PruneRuns_order entries s before = (s', n) ->
  (forall id r, rs_byID s' !! id = Some r <->
     rs_byID s !! id = Some r ∧ (IsZero before = true ∨ prunable before r = false))
  ∧ (forall id r, rs_byID s !! id = Some r -> Status_Terminal (Run_Status r) = false ->
       rs_byID s' !! id = Some r)
  ∧ size (rs_byID s') + n = size (rs_byID s)
  ∧ s' = (PruneRuns s before).1.
Proof.
  intros Hp H. unfold PruneRuns, PruneRuns_order in *. destruct (IsZero before).
  { injection H as <- <-. split_and!; [naive_solver|done|lia|done]. }
  pose proof (prune_byID before s entries Hp) as Hb. rewrite H in Hb. simpl in Hb.
  destruct (prune_fold_spec before entries s 0) as (Hn&_&Hev&Hc). rewrite H in Hn, Hev, Hc.
  simpl in Hn, Hev, Hc.
  assert (Hk : forall id r, rs_byID s' !! id = Some r <->
    rs_byID s !! id = Some r ∧ prunable before r = false).
  { intros id r. by rewrite Hb, map_lookup_filter_Some. }
  split_and!.
  - intros id r. rewrite Hk. naive_solver.
  - intros id r Hl Ht. apply Hk. split; [done|]. unfold prunable.
    by destruct (Run_Status r).
  - rewrite Hb, size_map_filter, Hc, Hp, <- length_map_to_list.
    pose proof (filter_split_length (fun e => prunable before e.2) (map_to_list (rs_byID s))). lia.
  - destruct (prune_fold_spec before (map_to_list (rs_byID s)) s 0) as (Hn'&_&Hev'&_).
    pose proof (prune_byID before s (map_to_list (rs_byID s)) (reflexivity _)) as Hb'.
    destruct (foldl _ (s, 0) (map_to_list _)) as [s'' n'']. simpl in *.
    destruct s', s''. simpl in *. f_equal; [congruence..|].
    apply map_eq. intros ev. apply option_eq. intros id. by rewrite Hev, Hev', Hp.
Qed.

(** ** Listing *)

#[export] Instance newer_total : Total newer.
Proof. intros a b. unfold newer. lia. Qed.
#[export] Instance newer_trans : Transitive newer.
Proof. intros a b c. unfold newer. lia. Qed.

Lemma StronglySorted_app_le {A} (R : A -> A -> Prop) (l1 l2 : list A) x y :
  StronglySorted R (l1 ++ l2) -> x ∈ l1 -> y ∈ l2 -> R x y.
Proof.
  induction l1 as [|a l1 IH]; intros Hs Hx Hy; [by apply elem_of_nil in Hx|].
  apply StronglySorted_inv in Hs as [Hs Hf]. apply elem_of_cons in Hx as [->|Hx]; [|auto].
  rewrite Forall_forall in Hf. apply Hf. set_solver.
Qed.

(** listing runs.  The listing holds only runs that match the filter, most
    recently updated first; it is cut at a positive limit and nowhere else; and
    a matching run that the limit left out is not more recent than any run
    listed. *)
Theorem ListRuns_spec (entries : list Run) (f : RunListFilter) :
  exists rest, ListRuns entries f ++ rest ≡ₚ filter (fun r => list_matches f r = true) entries
    ∧ StronglySorted newer (ListRuns entries f)
    ∧ (forall a b, a ∈ ListRuns entries f -> b ∈ rest -> newer a b)
    ∧ (rest ≠ [] -> (0 < List_Limit f)%Z ∧ Z.of_nat (length (ListRuns entries f)) = List_Limit f)
    ∧ ((0 < List_Limit f)%Z -> (Z.of_nat (length (ListRuns entries f)) <= List_Limit f)%Z).
Proof.
  unfold ListRuns. set (l := filter _ entries).
  pose proof (StronglySorted_merge_sort newer l) as Hs.
  pose proof (merge_sort_Permutation newer l) as Hp.
  set (out := merge_sort newer l) in *. case_decide as Hl.
  - exists (drop (Z.to_nat (List_Limit f)) out). rewrite take_drop.
    assert (Hlen : length (take (Z.to_nat (List_Limit f)) out) = Z.to_nat (List_Limit f))
      by (rewrite length_take; lia).
    split_and!; [done| | |intros _; rewrite Hlen; lia|rewrite Hlen; lia].
    + rewrite <- (take_drop (Z.to_nat (List_Limit f)) out) in Hs.
      by apply StronglySorted_app_1_l in Hs.
    + intros a b. apply StronglySorted_app_le. by rewrite take_drop.
  - exists []. rewrite app_nil_r. split_and!; [done..| |done|lia].
    by intros a b _ ?%elem_of_nil.
Qed.

(** ** A scenario: pruning an old run of an event that has a newer run *)

Definition msg_e1 : IncomingMessage := mkMsg "e1" "" "" "".
Definition cfg_default : AgentConfig := mkConfig QueueEnqueue "model".

(** Two runs of one event, the first finished at time 20. *)
Definition two_runs : InMemoryRunStore :=
  let '(s1, r1) := Create NewInMemoryRunStore 10 "s" msg_e1 cfg_default in
  let s2 := (Update s1 20 (Some (run_set_finished 20 (run_set_status RunCompleted r1)))).1.1 in
  (Create s2 90 "s" msg_e1 cfg_default).1.

Lemma two_runs_reachable : rtc store_step NewInMemoryRunStore two_runs.
Proof.
  eapply rtc_l; [apply (store_create _ _ (new_run 10 1 "s" msg_e1 cfg_default) 10 "s" msg_e1 cfg_default);
    [by vm_compute|reflexivity]|].
  eapply rtc_l; [eapply (store_update _ _
    (run_set_finished 20 (run_set_status RunCompleted (new_run 10 1 "s" msg_e1 cfg_default))) _ 20);
    [|reflexivity]|].
  { intros r0 H. vm_compute in H. injection H as <-. reflexivity. }
  eapply rtc_once, (store_create _ _ (new_run 90 2 "s" msg_e1 cfg_default) 90 "s" msg_e1 cfg_default);
    [by vm_compute|reflexivity].
Qed.

(** pruning forgets the event of a live run.  In a reachable store with a
    finished run and a newer queued run of the same event, the event leads to
    the queued run; pruning the finished one deletes that mapping too, although
    the queued run is kept: the event then counts as not seen. *)
Theorem prune_forgets_live_event :
  rtc store_step NewInMemoryRunStore two_runs
  ∧ (exists r, FindByExternalEvent two_runs "e1" = inl r ∧ Run_ID r = "run-000002"
       ∧ Run_Status r = RunQueued)
  ∧ (PruneRuns two_runs 50).2 = 1
  ∧ (exists r, Get (PruneRuns two_runs 50).1 "run-000002" = inl r)
  ∧ FindByExternalEvent (PruneRuns two_runs 50).1 "e1" = inr (ErrEventNotFound "e1")
  ∧ Seen (PruneRuns two_runs 50).1 95 "e1" 0 = false.
Proof.
  split; [apply two_runs_reachable|]. split; [eexists; split; [by vm_compute|by vm_compute]|].
  split; [by vm_compute|]. split; [eexists; by vm_compute|]. by vm_compute.
Qed.

(** ** Witnesses *)

Lemma run_store_lookup_witness :
  exists r, FindByExternalEvent two_runs "e1" = inl r ∧ Get two_runs (Run_ID r) = inl r.
Proof.
  eexists. split; [by vm_compute|].
  apply (proj1 (proj2 (run_store_lookup two_runs two_runs_reachable)) "e1"). by vm_compute.
Defined.

Lemma claim_exclusive_witness :
  exists s1 r, ClaimQueuedRun two_runs 95 "run-000002" = (s1, inl (r, true))
    ∧ forall now' r', (ClaimQueuedRun s1 now' "run-000002").2 ≠ inl (r', true).
Proof.
  eexists _, _. split; [vm_compute; reflexivity|].
  eapply (claim_exclusive two_runs); [exact two_runs_reachable|vm_compute; reflexivity|].
  reflexivity.
Defined.

Lemma prune_exact_witness :
  size (rs_byID (PruneRuns two_runs 50).1) + 1 = size (rs_byID two_runs).
Proof.
  apply (prune_exact two_runs (PruneRuns two_runs 50).1 50 (map_to_list (rs_byID two_runs)) 1);
    [reflexivity|by vm_compute].
Defined.
