(* ===== verification/ExecutionGraph.v ===== *)
(** * The execution graph of a run ([agent/execution_graph.go])

    The graph mirrors the run's plan with the execution metadata of each task.
    It is rebuilt from the plan on every use, keeping what the previous graph
    recorded.  A pointer to a task of the plan or of the graph is its index; a
    [nil] task pointer is an index the plan does not have. *)
From S2P Require Import Prelude GoLib Normalize Planner PlannerValidate PlannerState ExecutionTask RunState.
From stdpp Require Import sorting.
Import Str GoTime.

(** ** Lookup *)

Definition executionGraphTask (graph : option ExecutionGraph) (id : string)
    : option (nat * ExecutionTask) :=
  match graph with
  | None => None
  | Some g =>
    if decide (TrimSpace id = "") then None
    else list_find (fun t => ET_ID t = id) (EG_Tasks g)
  end.

Definition graph_set_tasks (ts : list ExecutionTask) (g : ExecutionGraph) : ExecutionGraph :=
  mkGraph (EG_RunID g) (EG_SessionID g) (EG_Scope g) (EG_MergeStrategy g)
    (EG_SingleSession g) (EG_SessionLocking g) ts.

Definition graph_write (i : nat) (f : ExecutionTask -> ExecutionTask) (g : ExecutionGraph)
    : ExecutionGraph := graph_set_tasks (alter f i (EG_Tasks g)) g.

(** ** Building the graph *)

Definition run_ref (r : Run) : string * string := (Run_ID r, Run_SessionID r).

(** The previous graph's tasks by identifier; a later task wins. *)
Definition existing_by_id (ts : list ExecutionTask) : gmap string ExecutionTask :=
  foldl (fun m t =>
    let id := TrimSpace (ET_ID t) in
    if decide (id = "") then m else <[id := normalizeExecutionTask t]> m) ∅ ts.

(** What a rebuilt task keeps of its previous version. *)
Definition merge_previous (task previous : ExecutionTask) : ExecutionTask :=
  mkExecTask (ET_ID task) (ET_Title task) (ET_Kind task) (ET_Goal task) (ET_DependsOn task)
    (if decide (ET_ResourceKeys previous <> []) then ET_ResourceKeys previous
     else ET_ResourceKeys task)
    (match ET_SideEffectScope previous with
     | SideEffectScopeEmpty => ET_SideEffectScope task | s => s end)
    (match ET_MergeStrategy previous with
     | MergeStrategyEmpty => ET_MergeStrategy task | m => m end)
    (if decide (TrimSpace (ET_IdempotencyKey previous) <> "")
     then TrimSpace (ET_IdempotencyKey previous) else ET_IdempotencyKey task)
    (ET_Status task) (ET_AttemptCount previous) (ET_LastOutcome previous).

Definition build_task (r : Run) (previous : gmap string ExecutionTask) (t : Task)
    : ExecutionTask :=
  let task := executionTaskFromPlanTask (Some (run_ref r)) t in
  match previous !! ET_ID task with
  | Some p => merge_previous task p
  | None => task
  end.

(** [buildExecutionGraph] also normalizes the run's plan. *)
Definition buildExecutionGraph (run : option Run) (existing : option ExecutionGraph)
    : option Run * option ExecutionGraph :=
  match run with
  | None => (None, None)
  | Some r =>
    match NormalizeExecution (Run_Plan r) with
    | None => (Some r, None)
    | Some p =>
      let r := run_set_plan (Some p) r in
      let previous := match existing with Some g => existing_by_id (EG_Tasks g) | None => ∅ end in
      let merge :=
        match existing with
        | Some g => match EG_MergeStrategy g with
                    | MergeStrategyEmpty => MergeStrategyTaskOrder | m => m end
        | None => MergeStrategyTaskOrder
        end in
      (Some r, Some (mkGraph (TrimSpace (Run_ID r)) (TrimSpace (Run_SessionID r))
                       "single_session" merge true true (build_task r previous <$> Plan_Tasks p)))
    end
  end.

Definition ensureExecutionGraph (r : Run) : Run :=
  match Run_Plan r with
  | None => r
  | Some _ =>
    match buildExecutionGraph (Some r) (Run_ExecutionGraph r) with
    | (Some r', g) => run_set_graph g r'
    | (None, _) => r
    end
  end.

Definition clearExecutionGraph (r : Run) : Run := run_set_graph None r.

(** The metadata of a task: the graph's record of it, or one derived from the
    plan task. *)
Definition task_meta (r : Run) (t : Task) : ExecutionTask :=
  match executionGraphTask (Run_ExecutionGraph r) (Task_ID t) with
  | Some (_, e) => normalizeExecutionTask e
  | None => executionTaskFromPlanTask (Some (run_ref r)) t
  end.

Definition executionMetadataForTask (run : option Run) (task : option Task)
    : option Run * option ExecutionTask :=
  match task with
  | None => (run, None)
  | Some t =>
    match run with
    | None => (None, Some (executionTaskFromPlanTask None t))
    | Some r => let r := ensureExecutionGraph r in (Some r, Some (task_meta r t))
    end
  end.

(** ** Selecting a batch *)

Definition plan_task (r : Run) (i : nat) : option Task :=
  match Run_Plan r with Some p => Plan_Tasks p !! i | None => None end.

(** The selection loop, with the metadata of the tasks selected so far. *)
Fixpoint select_loop (r : Run) (metas : list ExecutionTask) (ready : list nat) : list nat :=
  match ready with
  | [] => []
  | i :: rest =>
    match plan_task r i with
    | None => select_loop r metas rest
    | Some t =>
      let meta := task_meta r t in
      if existsb (executionTasksConflict meta) metas then select_loop r metas rest
      else i :: (if decide (ET_MergeStrategy meta = MergeStrategySerialOnly) then []
                 else select_loop r (metas ++ [meta]) rest)
    end
  end.

(** [selectExecutionBatch], on pointers into the run's plan. *)
Definition selectExecutionBatch (run : option Run) (ready : list nat) : option Run * list nat :=
  match run with
  | None => (None, ready)
  | Some r =>
    if decide (length ready <= 1) then (Some r, ready)
    else
      let r := ensureExecutionGraph r in
      match Run_ExecutionGraph r, Run_Plan r with
      | Some _, Some p =>
        if decide (Plan_Strategy p = StrategySerial) then (Some r, ready)
        else
          let selected := select_loop r [] ready in
          (Some r, if decide (selected = []) then take 1 ready else selected)
      | _, _ => (Some r, ready)
      end
  end.

(** ** Updating the graph *)

Definition markExecutionTasksRunning (graph : option ExecutionGraph) (ids : list string)
    : option ExecutionGraph :=
  foldl (fun graph id =>
    match graph, executionGraphTask graph id with
    | Some g, Some (i, _) =>
      Some (graph_write i (fun t => et_set_attempts (GoInt.wrap64 (ET_AttemptCount t + 1)%Z)
                                      (et_set_status TaskRunning t)) g)
    | _, _ => graph
    end) graph ids.

Definition requeueExecutionTasksForRetry (graph : option ExecutionGraph) (ids : list string)
    : option ExecutionGraph :=
  foldl (fun graph id =>
    match graph, executionGraphTask graph id with
    | Some g, Some (i, t) =>
      if decide (ET_Status t <> TaskRunning) then graph
      else Some (graph_write i (et_set_status TaskQueued) g)
    | _, _ => graph
    end) graph ids.

(** The fields of a task's execution result that update the plan and the graph. *)
Record TaskExecutionResult := mkResult {
  Result_TaskID : string;
  Result_Status : TaskStatus;
  Result_Summary : string;
  Result_Error : string;
  Result_Attempt : Z;
  Result_Outcome : option TaskOutcome;
  Result_RequiresSerial : bool
}.

Definition status_final (s : TaskStatus) : bool :=
  match s with
  | TaskCompleted | TaskFailed | TaskSkipped | TaskCancelled => true
  | _ => false
  end.

Definition apply_result (res : TaskExecutionResult) (t : ExecutionTask) : ExecutionTask :=
  let t := et_set_status (Result_Status res) t in
  match Result_Outcome res with
  | Some o => et_set_outcome (Some o) t
  | None =>
    if status_final (Result_Status res) then
      et_set_outcome (Some (mkOutcome (Result_TaskID res) (Result_Status res)
        (Result_Attempt res) (TrimSpace (Result_Summary res))
        (if decide (Result_Error res <> "" /\ Result_Status res <> TaskCompleted)
         then Some (TrimSpace (Result_Error res)) else None)
        (ET_MergeStrategy t) (ET_IdempotencyKey t) zeroTime zeroTime)) t
    else t
  end.

Definition applyTaskResultToExecutionGraph (graph : option ExecutionGraph)
    (res : TaskExecutionResult) : option ExecutionGraph :=
  match graph with
  | None => None
  | Some g =>
    if decide (TrimSpace (Result_TaskID res) = "") then graph
    else
      match executionGraphTask graph (Result_TaskID res) with
      | None => graph
      | Some (i, _) => Some (graph_write i (apply_result res) g)
      end
  end.

(** One iteration of the synchronization loop on the graph's task. *)
Definition sync_task (pt : Task) (t : ExecutionTask) : ExecutionTask :=
  let t := et_set_status (Task_Status pt) t in
  if decide (Task_Status pt <> TaskSkipped /\ Task_Status pt <> TaskCancelled) then t
  else
    let o := default (mkOutcome (Task_ID pt) (Task_Status pt) 0 (TrimSpace (Task_Error pt)) None
                        (ET_MergeStrategy t) (ET_IdempotencyKey t) zeroTime zeroTime)
               (ET_LastOutcome t) in
    et_set_outcome (Some (
      if decide (TrimSpace (Task_Error pt) <> "" /\ Outcome_Error o = None)
      then outcome_set_error (Some (TrimSpace (Task_Error pt))) o else o)) t.

Definition sync_one (graph : option ExecutionGraph) (pt : Task) : option ExecutionGraph :=
  match graph, executionGraphTask graph (Task_ID pt) with
  | Some g, Some (i, _) => Some (graph_write i (sync_task pt) g)
  | _, _ => graph
  end.

Definition syncExecutionGraphWithPlan (run : option Run) : option Run :=
  match run with
  | None => None
  | Some r =>
    match Run_Plan r with
    | None => Some r
    | Some _ =>
      let r := ensureExecutionGraph r in
      match Run_Plan r with
      | Some p => Some (run_set_graph (foldl sync_one (Run_ExecutionGraph r) (Plan_Tasks p)) r)
      | None => Some r
      end
    end
  end.

(** ** The rebuilt graph *)

Lemma NormalizeExecution_frame p p' :
  NormalizeExecution (Some p) = Some p' ->
  Plan_Strategy p' = Plan_Strategy p ∧ plan_ids p' = plan_ids p
  ∧ Plan_FailurePolicy p' = Plan_FailurePolicy p.
Proof.
  intros H. pose proof (NormalizeExecution_tasks _ _ H) as E. unfold plan_ids. rewrite E.
  split_and!.
  - unfold NormalizeExecution in H. injection H as <-. by repeat case_match.
  - rewrite <- list_fmap_compose. apply list_fmap_ext. intros i t _. simpl.
    by destruct (normalize_task_ids t).
  - unfold NormalizeExecution in H. injection H as <-. by repeat case_match.
Qed.

(** The previous tasks a rebuild starts from. *)
Definition previous_of (g : option ExecutionGraph) : gmap string ExecutionTask :=
  match g with Some g => existing_by_id (EG_Tasks g) | None => ∅ end.

Lemma build_task_ref r r' prev t : run_ref r = run_ref r' -> build_task r prev t = build_task r' prev t.
Proof. unfold build_task. by intros ->. Qed.

Lemma ensure_cases r :
  (Run_Plan r = None ∧ ensureExecutionGraph r = r)
  ∨ exists p p' g, Run_Plan r = Some p ∧ NormalizeExecution (Some p) = Some p'
      ∧ ensureExecutionGraph r = run_set_graph (Some g) (run_set_plan (Some p') r)
      ∧ EG_Tasks g = build_task r (previous_of (Run_ExecutionGraph r)) <$> Plan_Tasks p'
      ∧ EG_RunID g = TrimSpace (Run_ID r) ∧ EG_SessionID g = TrimSpace (Run_SessionID r)
      ∧ EG_Scope g = "single_session" ∧ EG_SingleSession g = true ∧ EG_SessionLocking g = true
      ∧ EG_MergeStrategy g = match Run_ExecutionGraph r with
          | Some g0 => match EG_MergeStrategy g0 with
                       | MergeStrategyEmpty => MergeStrategyTaskOrder | m => m end
          | None => MergeStrategyTaskOrder end.
Proof.
  unfold ensureExecutionGraph. destruct (Run_Plan r) as [p|] eqn:E; [right|by left].
  unfold buildExecutionGraph. rewrite E.
  destruct (NormalizeExecution (Some p)) as [p'|] eqn:En; [|done].
  eexists p, p', _. split_and!; [done|done|reflexivity|done..].
Qed.

Lemma executionTaskFromPlanTask_id run t :
  ET_ID (executionTaskFromPlanTask run t) = TrimSpace (Task_ID t).
Proof. simpl. apply TrimSpace_idem. Qed.

Lemma build_task_id r prev t : ET_ID (build_task r prev t) = TrimSpace (Task_ID t).
Proof.
  unfold build_task. rewrite <- (executionTaskFromPlanTask_id (Some (run_ref r)) t).
  by destruct (prev !! _).
Qed.

Lemma ids_ok_trimmed p t : ids_ok p -> t ∈ Plan_Tasks p ->
  TrimSpace (Task_ID t) = Task_ID t ∧ Task_ID t ≠ "".
Proof.
  intros [_ Hf] Ht. rewrite Forall_forall in Hf.
  apply (Hf (Task_ID t)). apply list_elem_of_fmap. eauto.
Qed.

(** Lookups in a graph that mirrors a plan with proper identifiers. *)
Lemma executionGraphTask_mirror p g i t :
  ids_ok p -> (ET_ID <$> EG_Tasks g) = plan_ids p -> Plan_Tasks p !! i = Some t ->
  exists e, executionGraphTask (Some g) (Task_ID t) = Some (i, e) ∧ EG_Tasks g !! i = Some e
            ∧ ET_ID e = Task_ID t.
Proof.
  intros Hok Hids Ht.
  assert (Hid : (ET_ID <$> EG_Tasks g) !! i = Some (Task_ID t))
    by (rewrite Hids; unfold plan_ids; by rewrite list_lookup_fmap, Ht).
  rewrite list_lookup_fmap in Hid. destruct (EG_Tasks g !! i) as [e|] eqn:He; [|done].
  injection Hid as Hid. exists e. split; [|done]. unfold executionGraphTask.
  destruct (ids_ok_trimmed p t Hok) as [Htr Hne]; [by eapply list_elem_of_lookup_2|].
  rewrite Htr, decide_False by done. apply list_find_Some. split_and!; [done..|].
  intros j e' Hj Hlt Heq. destruct Hok as [Hnd _]. rewrite <- Hids in Hnd.
  assert (j = i); [|lia]. eapply (NoDup_lookup _ j i (Task_ID t) Hnd).
  - by rewrite list_lookup_fmap, Hj, <- Heq.
  - by rewrite list_lookup_fmap, He, <- Hid.
Qed.

Lemma graph_mirror r prev p g :
  ids_ok p -> EG_Tasks g = build_task r prev <$> Plan_Tasks p ->
  (ET_ID <$> EG_Tasks g) = plan_ids p.
Proof.
  intros Hok ->. rewrite <- list_fmap_compose. unfold plan_ids. apply list_fmap_ext.
  intros i t Ht. simpl. rewrite build_task_id.
  by apply (ids_ok_trimmed p); [|eapply list_elem_of_lookup_2].
Qed.

Lemma ids_ok_ids p p' : plan_ids p' = plan_ids p -> ids_ok p -> ids_ok p'.
Proof. unfold ids_ok. by intros ->. Qed.

(** The metadata used for a ready task carries the task's identifier. *)
Lemma task_meta_id r p i t :
  Run_Plan r = Some p -> ids_ok p -> Plan_Tasks p !! i = Some t ->
  ET_ID (task_meta r t) = Task_ID t.
Proof.
  intros Hp Hok Ht. destruct (ids_ok_trimmed p t Hok) as [Htr Hne]; [by eapply list_elem_of_lookup_2|].
  unfold task_meta. destruct (executionGraphTask _ _) as [[j e]|] eqn:E.
  - unfold executionGraphTask in E. destruct (Run_ExecutionGraph r); [|done].
    case_decide; [done|]. apply list_find_Some in E as (_&E&_). simpl. by rewrite E.
  - by rewrite executionTaskFromPlanTask_id.
Qed.

(** ** The selected batch *)

Definition compatible (r : Run) (i j : nat) : Prop :=
  forall t u, plan_task r i = Some t -> plan_task r j = Some u ->
    executionTasksConflict (task_meta r u) (task_meta r t) = false.

Lemma select_loop_avoids r metas ready i t m :
  i ∈ select_loop r metas ready -> plan_task r i = Some t -> m ∈ metas ->
  executionTasksConflict (task_meta r t) m = false.
Proof.
  revert metas. induction ready as [|j ready IH]; intros metas Hi Ht Hm; simpl in Hi.
  { by apply elem_of_nil in Hi. }
  destruct (plan_task r j) as [u|] eqn:Ej; [|eauto].
  destruct (existsb _ metas) eqn:Ec; [eauto|].
  apply elem_of_cons in Hi as [->|Hi].
  - simplify_eq. apply not_true_iff_false. intros Hc. apply not_true_iff_false in Ec. apply Ec.
    apply existsb_exists. exists m. split; [by apply list_elem_of_In|done].
  - case_decide; [by apply elem_of_nil in Hi|]. eapply IH; eauto. set_solver.
Qed.

Lemma select_loop_sublist r metas ready : select_loop r metas ready `sublist_of` ready.
Proof.
  revert metas. induction ready as [|j ready IH]; intros metas; simpl; [done|].
  repeat (case_match || case_decide); try (by apply sublist_cons).
  - apply sublist_skip, sublist_nil_l.
  - by apply sublist_skip.
Qed.

Lemma select_loop_compatible r metas ready :
  StronglySorted (compatible r) (select_loop r metas ready).
Proof.
  revert metas. induction ready as [|j ready IH]; intros metas; simpl; [constructor|].
  destruct (plan_task r j) as [u|] eqn:Ej; [|eauto].
  destruct (existsb _ metas) eqn:Ec; [eauto|]. case_decide; [repeat constructor|].
  constructor; [eauto|]. apply Forall_forall. intros i Hi t v Ht Hv. simplify_eq.
  eapply select_loop_avoids; eauto. set_solver.
Qed.

Lemma select_loop_maximal r metas ready i t :
  i ∈ ready -> plan_task r i = Some t ->
  i ∈ select_loop r metas ready
  ∨ existsb (executionTasksConflict (task_meta r t)) metas = true
  ∨ exists j u, j ∈ select_loop r metas ready ∧ plan_task r j = Some u
      ∧ (executionTasksConflict (task_meta r t) (task_meta r u) = true
         ∨ ET_MergeStrategy (task_meta r u) = MergeStrategySerialOnly).
Proof.
  revert metas. induction ready as [|k ready IH]; intros metas Hi Ht; simpl.
  { by apply elem_of_nil in Hi. }
  apply elem_of_cons in Hi as [->|Hi].
  { rewrite Ht. destruct (existsb _ metas) eqn:Ec; [auto|]. left. by left. }
  destruct (plan_task r k) as [u|] eqn:Ek; [|eauto].
  destruct (existsb (executionTasksConflict (task_meta r u)) metas) eqn:Ec; [eauto|].
  case_decide as Hser.
  - right. right. exists k, u. split; [by left|]. auto.
  - destruct (IH (metas ++ [task_meta r u]) Hi Ht) as [?|[Hc|(j&v&?&?&?)]].
    + left. by right.
    + rewrite existsb_app in Hc. apply orb_true_iff in Hc as [Hc|Hc]; [auto|].
      simpl in Hc. rewrite orb_false_r in Hc. right. right. exists k, u.
      split; [by left|auto].
    + right. right. exists j, v. split; [by right|auto].
Qed.

Lemma select_loop_first r i rest t :
  plan_task r i = Some t -> head (select_loop r [] (i :: rest)) = Some i.
Proof. simpl. by intros ->. Qed.

Lemma compatible_both r l i j :
  StronglySorted (compatible r) l -> i ∈ l -> j ∈ l -> i ≠ j ->
  compatible r i j ∨ compatible r j i.
Proof.
  induction 1 as [|k l Hs IH Hf]; intros Hi Hj Hne; [by apply elem_of_nil in Hi|].
  rewrite Forall_forall in Hf.
  apply elem_of_cons in Hi as [->|Hi], Hj as [->|Hj]; [done|left|right|]; auto.
Qed.

(** The two metadata records of distinct tasks of a plan. *)
Lemma distinct_meta r p i j t u :
  Run_Plan r = Some p -> ids_ok p -> plan_task r i = Some t -> plan_task r j = Some u -> i ≠ j ->
  ET_ID (task_meta r t) ≠ "" ∧ ET_ID (task_meta r u) ≠ ""
  ∧ ET_ID (task_meta r t) ≠ ET_ID (task_meta r u).
Proof.
  intros Hp Hok Ht Hu Hne. unfold plan_task in *. rewrite Hp in *.
  rewrite (task_meta_id r p i t), (task_meta_id r p j u) by done.
  split_and!; [eapply ids_ok_trimmed; [done|by eapply list_elem_of_lookup_2]..|].
  intros E. apply Hne. destruct Hok as [Hnd _].
  eapply (NoDup_lookup _ i j (Task_ID t) Hnd); unfold plan_ids; rewrite list_lookup_fmap.
  - by rewrite Ht.
  - by rewrite Hu, E.
Qed.

(** C23: a batch runs side by side only what may run side by side.  For a
    validated, non-serial plan, the batch selected from two or more ready tasks
    keeps their order and starts with the first; no two tasks of it share a
    resource unless both only read, and neither a serial-only nor a
    session-exclusive task is ever batched with another; and the batch is
    maximal: each ready task left out conflicts with a selected one. *)
Theorem selectExecutionBatch_safe (r r' : Run) (p : Plan) (ready batch : list nat) :
  Run_Plan r = Some p -> ids_ok p -> Plan_Strategy p ≠ StrategySerial ->
  1 < length ready -> Forall (fun i => i < length (Plan_Tasks p)) ready ->
  selectExecutionBatch (Some r) ready = (Some r', batch) ->
  batch `sublist_of` ready ∧ head batch = head ready
  ∧ (forall i j t u, i ∈ batch -> j ∈ batch -> i ≠ j ->
       plan_task r' i = Some t -> plan_task r' j = Some u ->
       let a := task_meta r' t in let b := task_meta r' u in
       ET_MergeStrategy a ≠ MergeStrategySerialOnly
       ∧ ET_SideEffectScope a ≠ SideEffectScopeSessionAll
       ∧ forall x y, x ∈ ET_ResourceKeys a -> y ∈ ET_ResourceKeys b ->
           TrimSpace x = TrimSpace y ->
           ET_SideEffectScope a = SideEffectScopeReadOnly
           ∧ ET_SideEffectScope b = SideEffectScopeReadOnly)
  ∧ (forall i t, i ∈ ready -> i ∉ batch -> plan_task r' i = Some t ->
       exists j u, j ∈ batch ∧ plan_task r' j = Some u
         ∧ executionTasksConflict (task_meta r' t) (task_meta r' u) = true).
Proof.
  intros Hp Hok Hser Hlen Hidx H. unfold selectExecutionBatch in H.
  rewrite decide_False in H by lia.
  destruct (ensure_cases r) as [[E _]|(p0&p'&g&Ep&En&Er&_)]; [congruence|].
  assert (p0 = p) as -> by congruence.
  destruct (NormalizeExecution_frame _ _ En) as (Es&Eids&_).
  pose proof (NormalizeExecution_tasks _ _ En) as Ets.
  rewrite Er in H. simpl in H. rewrite decide_False in H by congruence.
  rewrite <- Er in H. set (r1 := ensureExecutionGraph r) in *.
  assert (Hp1 : Run_Plan r1 = Some p') by (by rewrite Er).
  assert (Hok1 : ids_ok p') by by eapply ids_ok_ids.
  destruct ready as [|i0 rest]; [simpl in Hlen; lia|].
  assert (exists t0, plan_task r1 i0 = Some t0) as [t0 Ht0].
  { unfold plan_task. rewrite Hp1, Ets, list_lookup_fmap. apply Forall_cons in Hidx as [Hi _].
    apply lookup_lt_is_Some in Hi as [t ->]. by eexists. }
  pose proof (select_loop_first r1 i0 rest t0 Ht0) as Hhead.
  rewrite decide_False in H by (intros E; by rewrite E in Hhead).
  assert (r' = r1 ∧ batch = select_loop r1 [] (i0 :: rest)) as [-> ->] by (split; congruence).
  split; [apply select_loop_sublist|]. split; [done|]. split.
  - intros i j t u Hi Hj Hne Ht Hu a b.
    destruct (distinct_meta r1 p' i j t u) as (?&?&?); [done..|].
    assert (executionTasksConflict a b = false) as Hc.
    { destruct (compatible_both r1 _ i j (select_loop_compatible r1 [] (i0 :: rest))) as [Hc|Hc];
        [done..| |]; specialize (Hc _ _ ltac:(eassumption) ltac:(eassumption)).
      - by rewrite conflict_sym.
      - done. }
    destruct (no_conflict a b) as (?&_&?&_&?); done.
  - intros i t Hi Hni Ht.
    destruct (select_loop_maximal r1 [] _ i t Hi Ht) as [?|[?|(j&u&Hj&Hu&Hc)]]; [done..|].
    exists j, u. split_and!; [done..|]. destruct Hc as [Hc|Hc]; [done|].
    destruct (distinct_meta r1 p' i j t u) as (?&?&?); [done..|by intros ->|].
    apply conflict_serial_only; auto.
Qed.

(** ** Rebuilding is idempotent *)

Definition normalized_status (s : TaskStatus) : TaskStatus :=
  match s with TaskStatusEmpty | TaskStatusOther _ => TaskQueued | s => s end.

Lemma normalize_task_eq t :
  normalize_task t = task_set_status (normalized_status (Task_Status t))
    (task_set_error (TrimSpace (Task_Error t))
       (task_set_summary (TrimSpace (Task_ResultSummary t)) t)).
Proof.
  destruct t as [? ? ? ? ? ? ? ? s rs er]. unfold normalize_task.
  cbn [task_set_summary task_set_error Task_Status Task_Error Task_ResultSummary].
  destruct s; simpl; try case_decide; first [reflexivity | congruence].
Qed.

Lemma normalize_task_idem t : normalize_task (normalize_task t) = normalize_task t.
Proof.
  rewrite (normalize_task_eq (normalize_task t)), !normalize_task_eq.
  unfold task_set_status, task_set_error, task_set_summary.
  cbn [Task_ID Task_Title Task_Kind Task_Goal Task_DependsOn Task_Outputs
    Task_RequiredCapabilities Task_VerificationHints Task_Status Task_ResultSummary Task_Error].
  rewrite !TrimSpace_idem. f_equal. by destruct (Task_Status t).
Qed.

(** The result of normalization, by field. *)
Lemma NormalizeExecution_eq p (q := plan_set_tasks (normalize_task <$> Plan_Tasks p) p) :
  NormalizeExecution (Some p) =
  Some (plan_set_running (filter (fun id => is_running q id = true) (Plan_RunningTasks p))
    (plan_set_active (if is_running q (TrimSpace (Plan_ActiveTask p))
                      then TrimSpace (Plan_ActiveTask p) else "") q)).
Proof.
  assert (Hq : forall a id, is_running (plan_set_tasks (normalize_task <$> Plan_Tasks p)
    (plan_set_active a p)) id = is_running q id) by (intros; by apply is_running_tasks).
  assert (Hq' : forall a id, is_running (plan_set_active "" (plan_set_tasks
    (normalize_task <$> Plan_Tasks p) (plan_set_active a p))) id = is_running q id)
    by (intros; by apply is_running_tasks).
  unfold NormalizeExecution. cbn [Plan_ActiveTask plan_set_tasks plan_set_active Plan_RunningTasks].
  f_equal. case_decide as Hd.
  - rewrite Hq. destruct (is_running q _); unfold plan_set_running; simpl; f_equal;
      apply list_filter_iff; intros id; by rewrite ?Hq, ?Hq'.
  - assert (is_running q (TrimSpace (Plan_ActiveTask p)) = false) as ->.
    { destruct (TrimSpace (Plan_ActiveTask p)); [done|naive_solver]. }
    unfold plan_set_running; simpl. f_equal.
    by destruct (TrimSpace (Plan_ActiveTask p)); [|naive_solver].
Qed.

Lemma NormalizeExecution_idem p p' :
  NormalizeExecution (Some p) = Some p' -> NormalizeExecution (Some p') = Some p'.
Proof.
  intros H. pose proof (NormalizeExecution_tasks _ _ H) as Ets.
  assert (Hts : normalize_task <$> Plan_Tasks p' = Plan_Tasks p').
  { rewrite Ets, <- list_fmap_compose. apply list_fmap_ext. intros i t _. apply normalize_task_idem. }
  rewrite NormalizeExecution_eq in H. apply (inj Some) in H.
  set (q := plan_set_tasks (normalize_task <$> Plan_Tasks p) p) in H.
  assert (Hq : forall id, is_running (plan_set_tasks (normalize_task <$> Plan_Tasks p') p') id
                          = is_running q id).
  { intros id. apply is_running_tasks. simpl. by rewrite Hts. }
  rewrite NormalizeExecution_eq. f_equal.
  rewrite (list_filter_iff _ (fun id => is_running q id = true)) by (intros; by rewrite Hq).
  rewrite Hq, Hts.
  assert (Hr : Plan_RunningTasks p' = filter (fun id => is_running q id = true) (Plan_RunningTasks p))
    by (by rewrite <- H).
  assert (Ha : Plan_ActiveTask p' = if is_running q (TrimSpace (Plan_ActiveTask p))
                                    then TrimSpace (Plan_ActiveTask p) else "")
    by (by rewrite <- H).
  rewrite (list_filter_id _ (Plan_RunningTasks p')).
  2:{ intros id. rewrite Hr. by intros [? _]%list_elem_of_filter. }
  assert ((if is_running q (TrimSpace (Plan_ActiveTask p')) then TrimSpace (Plan_ActiveTask p')
           else "") = Plan_ActiveTask p') as ->.
  { rewrite Ha. destruct (is_running q (TrimSpace (Plan_ActiveTask p))) eqn:E; [|done].
    rewrite TrimSpace_idem. by rewrite E. }
  by destruct p'.
Qed.

(** Records that normalization leaves alone. *)
Definition et_normal (e : ExecutionTask) : Prop := normalizeExecutionTask e = e.

Lemma merge_normal d q : et_normal d -> et_normal q -> et_normal (merge_previous d q).
Proof.
  unfold et_normal, normalizeExecutionTask, merge_previous.
  destruct d as [di dt dk dg dd dr ds dm dik dst da dl], q as [qi qt qk qg qd qr qs qm qik qst qa ql].
  simpl. intros Hd Hq. injection Hd as Hdi Hdt Hdg Hdd Hdr Hds Hdm Hdik Hdst.
  injection Hq as Hqi Hqt Hqg Hqd Hqr Hqs Hqm Hqik Hqst.
  f_equal; try done.
  - by case_decide.
  - by destruct qs, ds.
  - by destruct qm, dm.
  - case_decide; [by rewrite !TrimSpace_idem|done].
Qed.

Lemma merge_absorb d q :
  et_normal d -> merge_previous d (merge_previous d q) = merge_previous d q.
Proof.
  intros Hd. assert (Hk : TrimSpace (ET_IdempotencyKey d) = ET_IdempotencyKey d)
    by exact (f_equal ET_IdempotencyKey Hd).
  unfold merge_previous. simpl. f_equal.
  - by repeat case_decide.
  - by destruct (ET_SideEffectScope q), (ET_SideEffectScope d).
  - by destruct (ET_MergeStrategy q), (ET_MergeStrategy d).
  - destruct (decide (TrimSpace (ET_IdempotencyKey q) ≠ "")) as [Hq|Hq].
    + rewrite TrimSpace_idem. by rewrite decide_True.
    + by case_decide.
Qed.

Lemma executionTaskFromPlanTask_normal run t : et_normal (executionTaskFromPlanTask run t).
Proof. apply normalizeExecutionTask_idem. Qed.

Lemma merge_self d : et_normal d -> merge_previous d d = d.
Proof.
  intros Hd. assert (Hk : TrimSpace (ET_IdempotencyKey d) = ET_IdempotencyKey d)
    by exact (f_equal ET_IdempotencyKey Hd).
  unfold merge_previous. rewrite Hk. destruct d as [? ? ? ? ? k s m i ? ? ?]. simpl.
  f_equal; [by case_decide|by destruct s|by destruct m|by case_decide].
Qed.

Lemma existing_fold_lookup ts (m : gmap string ExecutionTask) id :
  Forall (fun e => TrimSpace (ET_ID e) ≠ id) ts ->
  foldl (fun m t =>
    let id := TrimSpace (ET_ID t) in
    if decide (id = "") then m else <[id := normalizeExecutionTask t]> m) m ts !! id = m !! id.
Proof.
  revert m. induction ts as [|e ts IH]; intros m Hf; simpl; [done|].
  apply Forall_cons in Hf as [He Hf]. rewrite IH by done.
  case_decide; [done|]. by rewrite lookup_insert_ne.
Qed.

(** The previous version of a task, when identifiers are unique. *)
Lemma existing_by_id_lookup ts i e :
  NoDup ((fun e => TrimSpace (ET_ID e)) <$> ts) -> ts !! i = Some e -> TrimSpace (ET_ID e) ≠ "" ->
  existing_by_id ts !! TrimSpace (ET_ID e) = Some (normalizeExecutionTask e).
Proof.
  unfold existing_by_id. generalize (∅ : gmap string ExecutionTask). revert i.
  induction ts as [|e0 ts IH]; intros i m Hnd Hl Hne; [done|].
  rewrite fmap_cons in Hnd. apply NoDup_cons in Hnd as [Hni Hnd]. simpl.
  destruct i as [|i]; simpl in Hl; [|by eapply IH].
  injection Hl as ->. rewrite existing_fold_lookup.
  - by rewrite decide_False, lookup_insert_eq.
  - apply Forall_forall. intros e' He' E. apply Hni. apply list_elem_of_fmap. by exists e'.
Qed.

(** Rebuilding from a graph that was itself just built. *)
Lemma rebuild_task r prev t (e := build_task r prev t) :
  (forall id q, prev !! id = Some q -> et_normal q) ->
  normalizeExecutionTask e = e
  ∧ merge_previous (executionTaskFromPlanTask (Some (run_ref r)) t) e = e.
Proof.
  intros Hprev. unfold e, build_task.
  pose proof (executionTaskFromPlanTask_normal (Some (run_ref r)) t) as Hd.
  destruct (prev !! _) as [q|] eqn:E.
  - apply Hprev in E. split; [by apply merge_normal|by apply merge_absorb].
  - split; [done|by apply merge_self].
Qed.

Lemma existing_by_id_normal ts id q : existing_by_id ts !! id = Some q -> et_normal q.
Proof.
  unfold existing_by_id. assert (Hm : forall id q, (∅ : gmap string ExecutionTask) !! id = Some q ->
    et_normal q) by (intros ??; by rewrite lookup_empty).
  revert Hm. generalize (∅ : gmap string ExecutionTask).
  induction ts as [|e ts IH]; intros m Hm; simpl; [apply Hm|]. apply IH.
  intros id' q'. case_decide; [apply Hm|].
  intros [[_ <-]|[_ ?]]%lookup_insert_Some; [apply normalizeExecutionTask_idem|eauto].
Qed.

Lemma previous_of_normal g id q : previous_of g !! id = Some q -> et_normal q.
Proof. destruct g; simpl; [apply existing_by_id_normal|by rewrite lookup_empty]. Qed.

Lemma build_task_status r prev t :
  ET_Status (build_task r prev t)
  = match Task_Status t with TaskStatusEmpty => TaskQueued | s => s end.
Proof.
  unfold build_task. destruct (prev !! _); simpl; by destruct (Task_Status t).
Qed.

Lemma build_task_kept r prev t :
  (ET_AttemptCount (build_task r prev t), ET_LastOutcome (build_task r prev t)) =
  match prev !! TrimSpace (Task_ID t) with
  | Some q => (ET_AttemptCount q, ET_LastOutcome q)
  | None => (0%Z, None)
  end.
Proof.
  unfold build_task. rewrite executionTaskFromPlanTask_id. by destruct (prev !! _).
Qed.

Lemma rebuild_tasks r p prev :
  ids_ok p -> (forall id q, prev !! id = Some q -> et_normal q) ->
  build_task r (existing_by_id (build_task r prev <$> Plan_Tasks p)) <$> Plan_Tasks p
  = build_task r prev <$> Plan_Tasks p.
Proof.
  intros Hok Hprev. apply list_fmap_ext. intros i t Ht.
  destruct (rebuild_task r prev t Hprev) as [Hn Hm].
  destruct (ids_ok_trimmed p t Hok) as [Htr Hne]; [by eapply list_elem_of_lookup_2|].
  assert (Hids : (fun e => TrimSpace (ET_ID e)) <$> (build_task r prev <$> Plan_Tasks p) = plan_ids p).
  { rewrite <- list_fmap_compose. apply list_fmap_ext. intros k u Hu. simpl.
    rewrite build_task_id, TrimSpace_idem. apply (ids_ok_trimmed p u Hok).
    by eapply list_elem_of_lookup_2. }
  pose proof (existing_by_id_lookup (build_task r prev <$> Plan_Tasks p) i (build_task r prev t)) as Hl.
  rewrite Hids, build_task_id, TrimSpace_idem, Htr, list_lookup_fmap, Ht in Hl.
  unfold build_task at 1. rewrite executionTaskFromPlanTask_id, Htr.
  rewrite Hl by (apply Hok || done). by rewrite Hn.
Qed.

Lemma ensure_idem r p :
  Run_Plan r = Some p -> ids_ok p ->
  ensureExecutionGraph (ensureExecutionGraph r) = ensureExecutionGraph r.
Proof.
  intros Hp Hok.
  destruct (ensure_cases r) as [[E _]|(p0&p'&g&Ep&En&Er&Egt&E1&E2&E3&E4&E5&E6)]; [congruence|].
  assert (p0 = p) as -> by congruence.
  destruct (NormalizeExecution_frame _ _ En) as (_&Eids&_).
  assert (Hok' : ids_ok p') by by eapply ids_ok_ids.
  rewrite Er. set (r1 := run_set_graph (Some g) (run_set_plan (Some p') r)).
  destruct (ensure_cases r1) as [[E _]|(p1&p2&g'&Ep'&En'&Er'&Egt'&F1&F2&F3&F4&F5&F6)]; [done|].
  injection Ep' as <-. rewrite (NormalizeExecution_idem _ _ En) in En'. injection En' as <-.
  rewrite Er'. assert (g' = g) as ->; [|done].
  simpl in Egt', F1, F2, F6. rewrite Egt in Egt'.
  change (build_task r1) with (build_task r) in Egt'.
  rewrite rebuild_tasks in Egt' by (done || apply previous_of_normal).
  rewrite <- Egt in Egt'.
  assert (EG_MergeStrategy g' = EG_MergeStrategy g).
  { rewrite F6, E6.
    by destruct (Run_ExecutionGraph r) as [g0|]; [destruct (EG_MergeStrategy g0)|]. }
  clear E6 F6. destruct g, g'. simpl in *. f_equal; congruence.
Qed.

(** the execution graph mirrors the plan and rebuilding it is idempotent.
    For a plan with proper identifiers, the graph has one task per plan task, in
    plan order, with its identifier and status; it keeps the attempt count and
    the last outcome the previous graph recorded under the identifier; and
    rebuilding a run that has just been rebuilt changes nothing. *)
Theorem ensureExecutionGraph_mirror (r : Run) (p : Plan) :
  Run_Plan r = Some p -> ids_ok p ->
  ensureExecutionGraph (ensureExecutionGraph r) = ensureExecutionGraph r
  ∧ exists p' g, NormalizeExecution (Some p) = Some p'
      ∧ Run_Plan (ensureExecutionGraph r) = Some p'
      ∧ Run_ExecutionGraph (ensureExecutionGraph r) = Some g
      ∧ length (EG_Tasks g) = length (Plan_Tasks p)
      ∧ forall i t, Plan_Tasks p' !! i = Some t -> exists e, EG_Tasks g !! i = Some e
          ∧ ET_ID e = Task_ID t ∧ ET_Status e = Task_Status t
          ∧ (ET_AttemptCount e, ET_LastOutcome e) =
            match previous_of (Run_ExecutionGraph r) !! Task_ID t with
            | Some q => (ET_AttemptCount q, ET_LastOutcome q)
            | None => (0%Z, None)
            end.
Proof.
  intros Hp Hok. split; [by eapply ensure_idem|].
  destruct (ensure_cases r) as [[E _]|(p0&p'&g&Ep&En&Er&Egt&_)]; [congruence|].
  assert (p0 = p) as -> by congruence.
  destruct (NormalizeExecution_frame _ _ En) as (_&Eids&_).
  assert (Hok' : ids_ok p') by by eapply ids_ok_ids.
  pose proof (NormalizeExecution_tasks _ _ En) as Ets.
  exists p', g. rewrite Er. split_and!; [done..| |].
  { by rewrite Egt, Ets, !length_fmap. }
  intros i t Ht. destruct (ids_ok_trimmed p' t Hok') as [Htr _]; [by eapply list_elem_of_lookup_2|].
  exists (build_task r (previous_of (Run_ExecutionGraph r)) t).
  rewrite Egt, list_lookup_fmap, Ht, build_task_id, build_task_status, build_task_kept, Htr.
  split_and!; try done. rewrite Ets, list_lookup_fmap in Ht.
  destruct (Plan_Tasks p !! i) as [t0|]; [|done]. injection Ht as <-.
  rewrite normalize_task_eq. simpl. by destruct (Task_Status t0).
Qed.

(** ** Examples *)

(** Three independent tasks, the first two of which write the same output. *)
Definition demo_plan : Plan :=
  mkPlan "ship" "" StrategyParallel FailFast
    [ mkTask "a" "" TaskWrite "draft" [] ["report"] [] [] TaskQueued "" "";
      mkTask "b" "" TaskWrite "redraft" [] ["report"] [] [] TaskQueued "" "";
      mkTask "c" "" TaskResearch "look up" [] [] [] [] TaskQueued "" "" ]
    "c" [] "" [].

Definition demo_run : Run :=
  mkRun "run-000001" "s" "" "" "" RunRunning QueueEnqueue PhasePreparing ExecutionModePlanned
    "model" 0 "" [] "" (Some demo_plan) None 0 0 0.

Lemma demo_ids_ok : ids_ok demo_plan.
Proof. split; [vm_compute; repeat constructor; set_solver|repeat constructor; by vm_compute]. Qed.

Lemma selectExecutionBatch_safe_witness :
  exists r', selectExecutionBatch (Some demo_run) [0; 1; 2] = (Some r', [0; 2])
    ∧ exists j u t, plan_task r' 1 = Some t ∧ j ∈ [0; 2] ∧ plan_task r' j = Some u
        ∧ executionTasksConflict (task_meta r' t) (task_meta r' u) = true.
Proof.
  eexists. split; [vm_compute; reflexivity|].
  match goal with |- exists j u t, plan_task ?r 1 = _ ∧ _ => set (r' := r) end.
  assert (Ht : plan_task r' 1 = Some (normalize_task
    (mkTask "b" "" TaskWrite "redraft" [] ["report"] [] [] TaskQueued "" ""))) by (by vm_compute).
  destruct (selectExecutionBatch_safe demo_run r' demo_plan [0; 1; 2] [0; 2])
    as (_&_&_&Hmax); [reflexivity|apply demo_ids_ok|done|simpl; lia|
      repeat constructor|by vm_compute|].
  destruct (Hmax 1 _ ltac:(set_solver) ltac:(set_solver) Ht) as (j&u&?&?&?).
  exists j, u. eexists. split_and!; eauto.
Defined.

Lemma ensureExecutionGraph_mirror_witness :
  ensureExecutionGraph (ensureExecutionGraph demo_run) = ensureExecutionGraph demo_run.
Proof.
  apply (ensureExecutionGraph_mirror demo_run demo_plan); [reflexivity|apply demo_ids_ok].
Defined.
