(* ===== verification/PlanExecutor.v ===== *)
(** * Plan bookkeeping of the agent ([agent/plan_executor.go])

    The parts of the executor that change a run's plan: failing or cancelling
    the plan of a run that ends, applying the results of a batch, and putting
    an interrupted batch back into the queue.  The agent's state is its run
    store, its queue (behind the [Coordinator] interface), the runs whose
    context it can still cancel and the trace of the events it emitted; an
    event is kept by its kind and subject.  Emission errors are only logged, so
    emitting always succeeds here. *)
From S2P Require Import Prelude GoLib Normalize Planner PlannerValidate PlannerState PlannerSkip ExecutionTask RunState ExecutionGraph Coordinator RunStore.
Import Str GoTime.

(** ** The agent's state *)

Inductive RunEventType := EventRunCompleted | EventRunFailed | EventRunCancelled.

#[export] Instance RunEventType_eq_dec : EqDecision RunEventType.
Proof. solve_decision. Defined.

Inductive AgentEvent :=
  | EvPlanTaskCompleted (runID taskID : string)
  | EvPlanTaskFailed (runID taskID : string)
  | EvPlanTaskSkipped (runID taskID : string)
  | EvPlanTaskCancelled (runID taskID : string)
  | EvTaskProgress (runID : string)
  | EvPlanSnapshot (runID : string)
  | EvRunStatus (kind : RunEventType) (runID : string)
  | EvMetric (status : Status)
  | EvHook (runID : string)
  | EvCancelContext (runID : string).

Record Agent (Q : Type) := mkAgent {
  ag_runs : InMemoryRunStore;
  ag_queue : option Q;
  ag_cancels : gset string;
  ag_trace : list AgentEvent
}.
Arguments mkAgent {Q}.
Arguments ag_runs {Q}.
Arguments ag_queue {Q}.
Arguments ag_cancels {Q}.
Arguments ag_trace {Q}.

Definition emit {Q} (evs : list AgentEvent) (a : Agent Q) : Agent Q :=
  mkAgent (ag_runs a) (ag_queue a) (ag_cancels a) (ag_trace a ++ evs).

(** [a.runs.Update(ctx, run)]. *)
Definition agent_update {Q} (now : Time) (a : Agent Q) (r : Run)
    : Agent Q * Run * option RunStoreError :=
  let '(s, r', err) := Update (ag_runs a) now (Some r) in
  (mkAgent s (ag_queue a) (ag_cancels a) (ag_trace a), default r r', err).

(** ** Plan operations *)

(** A planner operation applied to the run's plan. *)
Definition run_plan (f : option Plan -> option Plan) (r : Run) : Run :=
  run_set_plan (f (Run_Plan r)) r.

Definition planTaskStatuses (plan : option Plan) : gmap string TaskStatus :=
  match plan with
  | None => ∅
  | Some p => foldl (fun m t => <[Task_ID t := Task_Status t]> m) ∅ (Plan_Tasks p)
  end.

(** The events of [emitSkippedPlanTasks]. *)
Definition skipped_events (r : Run) (before : gmap string TaskStatus) : list AgentEvent :=
  match Run_Plan r with
  | None => []
  | Some p =>
    concat ((fun t =>
      if decide (Task_Status t = TaskSkipped /\ before !! Task_ID t <> Some TaskSkipped) then
        [EvPlanTaskSkipped (Run_ID r) (Task_ID t); EvTaskProgress (Run_ID r)]
      else []) <$> Plan_Tasks p)
  end.

Definition fail_one (msg : string) (p : option Plan) (id : string) : option Plan :=
  SkipDependentsOf (MarkFailed p id msg) id.

(** The loop over the task indices that skips what is still queued. *)
Definition skip_queued_one (reason : string) (plan : option Plan) (i : nat) : option Plan :=
  match plan with
  | Some p =>
    match Plan_Tasks p !! i with
    | Some t => if decide (Task_Status t = TaskQueued) then MarkSkipped plan (Task_ID t) reason
                else plan
    | None => plan
    end
  | None => None
  end.

Definition plan_len (plan : option Plan) : nat := TotalCount plan.

Definition skip_queued (reason : string) (plan : option Plan) : option Plan :=
  foldl (skip_queued_one reason) plan (seq 0 (plan_len plan)).

(** The plan after [failRunningPlanTasks]; the running tasks are collected
    before the loop changes any of them. *)
Definition fail_plan (msg : string) (plan : option Plan) : option Plan :=
  let plan := NormalizeExecution plan in
  let plan := foldl (fail_one msg) plan ((fun it => Task_ID it.2) <$> Running plan) in
  skip_queued ("run failed: " +:+ msg) plan.

(** The plan after [cancelPlanTasks]. *)
Definition cancel_plan (reason : string) (plan : option Plan) : option Plan :=
  let plan := CancelRunning (NormalizeExecution plan) reason in
  foldl (fun plan id => MarkSkipped plan id reason) plan
    ((fun it => Task_ID it.2) <$> Incomplete plan).

Section agent.
Context {Q : Type}.

(** [failRunningPlanTasks]; [taskErr] is the error's text. *)
Definition failRunningPlanTasks (now : Time) (a : Agent Q) (r : Run) (taskErr : option string)
    : Agent Q * Run * option RunStoreError :=
  match Run_Plan r, taskErr with
  | Some _, Some msg =>
    let before := planTaskStatuses (NormalizeExecution (Run_Plan r)) in
    let failed := (fun it => EvPlanTaskFailed (Run_ID r) (Task_ID it.2))
                    <$> Running (NormalizeExecution (Run_Plan r)) in
    let r := run_plan (fail_plan msg) r in
    let r := default r (syncExecutionGraphWithPlan (Some r)) in
    agent_update now
      (emit (failed ++ skipped_events r before ++ [EvPlanSnapshot (Run_ID r)]) a) r
  | _, _ => (a, r, None)
  end.

Definition cancelPlanTasks (now : Time) (a : Agent Q) (r : Run) (reason : string)
    : Agent Q * Run * option RunStoreError :=
  match Run_Plan r with
  | None => (a, r, None)
  | Some _ =>
    let norm := NormalizeExecution (Run_Plan r) in
    let before := planTaskStatuses norm in
    if decide (Running norm = [] /\ Incomplete norm = []) then (a, run_plan NormalizeExecution r, None)
    else
      let r := run_plan (cancel_plan reason) r in
      let r := default r (syncExecutionGraphWithPlan (Some r)) in
      let '(a, r, err) := agent_update now a r in
      match err with
      | Some e => (a, r, Some e)
      | None =>
        (emit (((fun it => EvPlanTaskCancelled (Run_ID r) (Task_ID it.2)) <$> Running norm)
               ++ skipped_events r before ++ [EvPlanSnapshot (Run_ID r)]) a, r, None)
      end
  end.

(** ** Batch results *)

(** The loop body of [applyBatchResults]: the run, the events and whether a
    task failed. *)
Definition apply_one (acc : Run * list AgentEvent * bool) (res : TaskExecutionResult)
    : Run * list AgentEvent * bool :=
  let '(r, evs, hadFailure) := acc in
  match Result_Status res with
  | TaskCompleted =>
    let r := run_plan (fun p => MarkCompleted p (Result_TaskID res) (Result_Summary res)) r in
    let r := run_set_graph (applyTaskResultToExecutionGraph (Run_ExecutionGraph r) res) r in
    (r, evs ++ [EvPlanTaskCompleted (Run_ID r) (Result_TaskID res); EvTaskProgress (Run_ID r)],
     hadFailure)
  | TaskFailed =>
    let r := run_plan (fun p => MarkFailed p (Result_TaskID res) (Result_Error res)) r in
    let r := run_set_graph (applyTaskResultToExecutionGraph (Run_ExecutionGraph r) res) r in
    (run_plan (fun p => SkipDependentsOf p (Result_TaskID res)) r,
     evs ++ [EvPlanTaskFailed (Run_ID r) (Result_TaskID res); EvTaskProgress (Run_ID r)], true)
  | _ => acc
  end.

Definition abort_plan (plan : option Plan) : option Plan :=
  skip_queued "fail_fast: plan aborted"
    (CancelRunning plan "fail_fast: upstream task failed").

Definition applyBatchResults (now : Time) (a : Agent Q) (r : Run)
    (results : list TaskExecutionResult) : Agent Q * Run * (bool + RunStoreError) :=
  match Run_Plan r with
  | None => (a, r, inl true)
  | Some p0 =>
    let before := planTaskStatuses (Some p0) in
    let '(r, evs, hadFailure) := foldl apply_one (ensureExecutionGraph r, [], false) results in
    let r := if decide (hadFailure = true
                        /\ (Plan_FailurePolicy <$> Run_Plan r) <> Some ContinueOnError)
             then run_plan abort_plan r else r in
    let r := default r (syncExecutionGraphWithPlan (Some r)) in
    let '(a, r, err) :=
      agent_update now (emit (evs ++ skipped_events r before ++ [EvPlanSnapshot (Run_ID r)]) a) r in
    match err with
    | Some e => (a, r, inr e)
    | None => (a, r, inl (Terminal (Run_Plan r)))
    end
  end.
End agent.

(** ** Retrying a batch *)

Definition requeue_task (ids : gset string) (t : Task) : Task :=
  if decide (Task_ID t ∈ ids /\ Task_Status t = TaskRunning) then
    task_set_error "" (task_set_status TaskQueued t)
  else t.

Definition requeueBatchTasksForRetry (r : Run) (ids : list string) : Run :=
  match Run_Plan r with
  | None => r
  | Some p =>
    if decide (ids = []) then r
    else
      let r := run_set_graph (requeueExecutionTasksForRetry (Run_ExecutionGraph r) ids) r in
      let p := plan_set_tasks (requeue_task (list_to_set ids) <$> Plan_Tasks p) p in
      let running := Task_ID <$> filter (fun t => Task_Status t = TaskRunning) (Plan_Tasks p) in
      let p := plan_set_running running p in
      run_set_plan (Some (plan_set_active (default "" (head running)) p)) r
  end.

(** ** The shape of the plan after failing or cancelling it *)

Lemma FindTask_at p i t :
  ids_ok p -> Plan_Tasks p !! i = Some t -> FindTask (Some p) (Task_ID t) = Some (i, t).
Proof. apply FindTask_unique. Qed.

(** [p'] has the tasks of [p] with the task at [i] replaced. *)
Definition skip_task (reason : string) (t : Task) : Task :=
  task_set_error (TrimSpace reason) (task_set_status TaskSkipped t).

Lemma MarkSkipped_at p i t reason :
  ids_ok p -> Plan_Tasks p !! i = Some t ->
  Task_Status t = TaskQueued ∨ Task_Status t = TaskRunning ->
  exists p', MarkSkipped (Some p) (Task_ID t) reason = Some p'
    ∧ Plan_Tasks p' = alter (skip_task reason) i (Plan_Tasks p).
Proof.
  intros Hok Ht Hs. eexists. split; [apply MarkSkipped_shape|].
  rewrite (FindTask_at p i t Hok Ht), decide_True by done. simpl. by case_decide.
Qed.

Lemma MarkFailed_at p i t msg :
  ids_ok p -> Plan_Tasks p !! i = Some t -> Task_Status t = TaskRunning ->
  exists p', MarkFailed (Some p) (Task_ID t) msg = Some p'
    ∧ Plan_Tasks p' = alter (fun t => task_set_error (TrimSpace msg)
                               (task_set_status TaskFailed t)) i (Plan_Tasks p).
Proof.
  intros Hok Ht Hs. unfold MarkFailed. rewrite (FindTask_at p i t Hok Ht).
  rewrite decide_False by (by intros ?). eexists. split; [done|].
  by rewrite release_running_tasks.
Qed.

(** No task of a plan is in status [s], beyond the indices below [n]. *)
Definition status_free (s : TaskStatus) (p : Plan) (ixs : list nat) : Prop :=
  forall i t, Plan_Tasks p !! i = Some t -> Task_Status t = s -> i ∈ ixs.

Lemma status_free_alter s p p' f i ixs :
  Plan_Tasks p' = alter f i (Plan_Tasks p) -> (forall t, Task_Status (f t) ≠ s) ->
  status_free s p (i :: ixs) -> status_free s p' ixs.
Proof.
  intros E Hf Hs j t. rewrite E. destruct (decide (i = j)) as [->|Hne].
  - rewrite list_lookup_alter_eq. destruct (Plan_Tasks p !! j) as [t0|]; [|done].
    intros [= <-] Ht. by apply Hf in Ht.
  - rewrite list_lookup_alter_ne by done. intros Hl Ht. apply (Hs j t Hl) in Ht.
    apply elem_of_cons in Ht as [->|?]; done.
Qed.

Lemma status_free_via s from to p p' ixs :
  to ≠ s -> plan_via from to p p' -> status_free s p ixs -> status_free s p' ixs.
Proof.
  intros Hne Hv Hs i t' Ht' E. destruct (Forall2_lookup_r _ _ _ _ _ Hv Ht') as (t&Ht&(_&_&[M|[_ M]]));
    [|congruence]. apply (Hs i t Ht). congruence.
Qed.

Lemma status_free_drop s p i ixs :
  (forall t, Plan_Tasks p !! i = Some t -> Task_Status t ≠ s) ->
  status_free s p (i :: ixs) -> status_free s p ixs.
Proof.
  intros Hi Hs j t Hl Ht. destruct (elem_of_cons ixs j i) as [Hc _].
  destruct (Hc (Hs j t Hl Ht)) as [->|?]; [|done]. by destruct (Hi t).
Qed.

Lemma ids_ok_tasks p p' i f :
  Plan_Tasks p' = alter f i (Plan_Tasks p) -> (forall t, Task_ID (f t) = Task_ID t) ->
  ids_ok p -> ids_ok p'.
Proof.
  intros E Hf. apply ids_ok_ids. unfold plan_ids. rewrite E. apply list_eq. intros j.
  rewrite !list_lookup_fmap. destruct (decide (i = j)) as [->|].
  - rewrite list_lookup_alter_eq. destruct (Plan_Tasks p !! j); simpl; [by rewrite Hf|done].
  - by rewrite list_lookup_alter_ne.
Qed.

(** The skipping loop takes every queued task of its indices out of the queue,
    and changes nothing else. *)
Lemma skip_queued_fold reason ixs p :
  ids_ok p -> status_free TaskQueued p ixs ->
  exists p', foldl (skip_queued_one reason) (Some p) ixs = Some p' ∧ ids_ok p'
    ∧ status_free TaskQueued p' [] ∧ plan_via TaskQueued TaskSkipped p p'.
Proof.
  revert p. induction ixs as [|i ixs IH]; intros p Hok Hq; [by exists p|]. cbn [foldl].
  unfold skip_queued_one at 2. destruct (Plan_Tasks p !! i) as [t|] eqn:Et.
  - case_decide as Ht.
    + destruct (MarkSkipped_at p i t reason Hok Et) as (p1&E1&E2); [by left|]. rewrite E1.
      assert (plan_via TaskQueued TaskSkipped p p1).
      { unfold plan_via. rewrite E2. apply Forall2_alter_r; [apply _|].
        intros ? ?. simplify_eq. repeat split. by right. }
      destruct (IH p1) as (p'&?&?&?&?).
      * by eapply ids_ok_tasks.
      * eapply status_free_alter; [exact E2|done|exact Hq].
      * exists p'. split_and!; try done. by etrans.
    + apply IH; [done|]. eapply status_free_drop; [|exact Hq]. congruence.
  - apply IH; [done|]. eapply status_free_drop; [|exact Hq]. congruence.
Qed.

Lemma skip_queued_spec reason p :
  ids_ok p -> exists p', skip_queued reason (Some p) = Some p' ∧ ids_ok p'
    ∧ status_free TaskQueued p' [] ∧ plan_via TaskQueued TaskSkipped p p'.
Proof.
  intros Hok. apply skip_queued_fold; [done|]. intros i t Hl _. apply elem_of_seq.
  apply lookup_lt_Some in Hl. simpl. lia.
Qed.

Lemma terminal_of_free p :
  plan_normal p -> status_free TaskQueued p [] -> status_free TaskRunning p [] ->
  Terminal (Some p) = true.
Proof.
  intros Hn Hq Hr. simpl. apply forallb_true_elem. intros t Ht.
  apply list_elem_of_lookup in Ht as [i Hl].
  pose proof (Forall_lookup_1 _ _ _ _ Hn Hl) as [Hk He].
  assert (Task_Status t ≠ TaskQueued) by (intros E; by apply (Hq _ _ Hl), elem_of_nil in E).
  assert (Task_Status t ≠ TaskRunning) by (intros E; by apply (Hr _ _ Hl), elem_of_nil in E).
  unfold task_terminal. by destruct (Task_Status t).
Qed.

Lemma plan_via_normal from to p p' :
  ValidTaskTransition from to = true -> plan_normal p -> plan_via from to p p' -> plan_normal p'.
Proof. intros HV Hn Hv. eapply tasks_move_normal, plan_via_moves; eauto. Qed.

Lemma normalize_normal p p' : NormalizeExecution (Some p) = Some p' -> plan_normal p'.
Proof.
  intros H%NormalizeExecution_tasks. unfold plan_normal. rewrite H. apply Forall_fmap, Forall_forall.
  intros t _. simpl. rewrite normalize_task_eq. simpl. by destruct (Task_Status t).
Qed.

(** What the end of a run does to a task: one that runs stops in status [stop],
    one that is queued is skipped. *)
Definition fate (stop : TaskStatus) (t t' : Task) : Prop :=
  Task_ID t' = Task_ID t
  ∧ (Task_Status t' = Task_Status t
     ∨ (Task_Status t = TaskRunning ∧ Task_Status t' = stop)
     ∨ (Task_Status t = TaskQueued ∧ Task_Status t' = TaskSkipped)).

Definition plan_fate (stop : TaskStatus) (p p' : Plan) : Prop :=
  Forall2 (fate stop) (Plan_Tasks p) (Plan_Tasks p').

#[export] Instance fate_refl stop : Reflexive (fate stop).
Proof. intros t. split; auto. Qed.

#[export] Instance plan_fate_refl stop : Reflexive (plan_fate stop).
Proof. intros p. unfold plan_fate. reflexivity. Qed.

(** Statuses in which a task is no longer queued or running. *)
Definition stopped (s : TaskStatus) : Prop := s ≠ TaskRunning ∧ s ≠ TaskQueued.

Lemma fate_trans stop t t' t'' :
  stopped stop -> fate stop t t' -> fate stop t' t'' -> fate stop t t''.
Proof.
  intros [H1 H2] (E&M) (E'&M'). split; [congruence|].
  destruct M as [M|[[M1 M2]|[M1 M2]]], M' as [M'|[[M1' M2']|[M1' M2']]]; try congruence;
    [left; congruence|right; left; split; congruence|right; right; split; congruence
    |right; left; split; congruence|right; right; split; congruence].
Qed.

Lemma plan_fate_trans stop p p' p'' :
  stopped stop -> plan_fate stop p p' -> plan_fate stop p' p'' -> plan_fate stop p p''.
Proof.
  intros Hs. unfold plan_fate. revert Hs. generalize (Plan_Tasks p'') as l''.
  intros l'' Hs H. revert l''. induction H as [|t t' l l' Ht _ IH]; intros l'' H'; [done|].
  apply Forall2_cons_inv_l in H' as (t''&l2&?&?&->). constructor; [by eapply fate_trans|auto].
Qed.

Lemma via_fate_stop stop p p' : plan_via TaskRunning stop p p' -> plan_fate stop p p'.
Proof.
  intros Hv. eapply Forall2_impl; [exact Hv|]. intros t t' (E&_&M). split; [done|].
  destruct M as [M|[??]]; auto.
Qed.

Lemma via_fate_skip stop p p' : plan_via TaskQueued TaskSkipped p p' -> plan_fate stop p p'.
Proof.
  intros Hv. eapply Forall2_impl; [exact Hv|]. intros t t' (E&_&M). split; [done|].
  destruct M as [M|[??]]; auto.
Qed.

(** Failing the running tasks one by one, with propagation. *)
Lemma fail_fold msg ixs p :
  ids_ok p -> plan_normal p -> status_free TaskRunning p ixs.*1 ->
  Forall (fun it => exists t, Plan_Tasks p !! it.1 = Some t ∧ Task_ID t = it.2) ixs ->
  exists p', foldl (fail_one msg) (Some p) ixs.*2 = Some p' ∧ ids_ok p' ∧ plan_normal p'
    ∧ status_free TaskRunning p' [] ∧ plan_fate TaskFailed p p'.
Proof.
  revert p. induction ixs as [|[i id] ixs IH]; intros p Hok Hn Hr Hf; [by exists p|].
  apply Forall_cons in Hf as [(t&Et&Hid) Hf]. simpl in Et, Hid. subst id.
  rewrite !fmap_cons in *. cbn [foldl fst snd] in *. unfold fail_one at 2.
  destruct (MarkFailed (Some p) (Task_ID t) msg) as [p1|] eqn:E1.
  2:{ unfold MarkFailed in E1. by repeat case_match. }
  pose proof (MarkFailed_via _ _ _ _ E1) as Hv1.
  destruct (SkipDependentsOf (Some p1) (Task_ID t)) as [p2|] eqn:E2; [|done].
  assert (Hv2 : plan_via TaskQueued TaskSkipped p1 p2)
    by (apply (inj Some) in E2 as <-; apply skip_loop_via).
  assert (Hids : plan_ids p2 = plan_ids p).
  { rewrite (plan_ids_moves p1 p2), (plan_ids_moves p p1);
      [done|by eapply plan_via_moves, Hv1|by eapply plan_via_moves, Hv2]. }
  destruct (IH p2) as (p'&?&?&?&?&Hfate).
  5:{ exists p'. split_and!; try done. eapply plan_fate_trans, plan_fate_trans, Hfate;
        [done|by apply via_fate_stop|done|by apply via_fate_skip]. }
  - by eapply ids_ok_ids.
  - eapply plan_via_normal, Hv2; [done|]. by eapply plan_via_normal, Hv1.
  - eapply status_free_via, status_free_drop; [|exact Hv2| |];
      [done| |eapply status_free_via; [|exact Hv1|exact Hr]; done].
    intros t1 Ht1 Hs1. destruct (decide (Task_Status t = TaskRunning)) as [Hs|Hs].
    + destruct (MarkFailed_at p i t msg Hok Et Hs) as (p1'&E1'&E). simplify_eq.
      rewrite E, list_lookup_alter_eq, Et in Ht1. by simplify_eq/=.
    + destruct (Forall2_lookup_l _ _ _ _ _ Hv1 Et) as (t'&?&(_&_&[M|[? _]])); simplify_eq.
      congruence.
  - eapply Forall_impl; [exact Hf|]. intros [j jd] (u&Hu&Hid). simpl in *.
    destruct (Forall2_lookup_l _ _ _ _ _ Hv1 Hu) as (u1&Hu1&(?&_)).
    destruct (Forall2_lookup_l _ _ _ _ _ Hv2 Hu1) as (u2&Hu2&(?&_)).
    exists u2. split; congruence.
Qed.

(** Skipping listed tasks of a plan in which nothing runs. *)
Lemma mark_skipped_fold reason ixs p :
  ids_ok p -> plan_normal p -> status_free TaskRunning p [] ->
  status_free TaskQueued p ixs.*1 ->
  Forall (fun it => exists t, Plan_Tasks p !! it.1 = Some t ∧ Task_ID t = it.2) ixs ->
  exists p', foldl (fun plan id => MarkSkipped plan id reason) (Some p) ixs.*2 = Some p'
    ∧ plan_normal p' ∧ status_free TaskRunning p' [] ∧ status_free TaskQueued p' []
    ∧ plan_via TaskQueued TaskSkipped p p'.
Proof.
  revert p. induction ixs as [|[i id] ixs IH]; intros p Hok Hn Hr Hq Hf; [by exists p|].
  apply Forall_cons in Hf as [(t&Et&Hid) Hf]. simpl in Et, Hid. subst id.
  rewrite !fmap_cons in *. cbn [foldl fst snd] in *.
  assert (exists p1, MarkSkipped (Some p) (Task_ID t) reason = Some p1
    ∧ plan_via TaskQueued TaskSkipped p p1 ∧ status_free TaskQueued p1 ixs.*1) as (p1&E1&Hv&Hq1).
  { destruct (decide (Task_Status t = TaskQueued)) as [Hs|Hs].
    - destruct (MarkSkipped_at p i t reason Hok Et) as (p1&E1&E2); [by left|].
      exists p1. split_and!; [done| |eapply status_free_alter; [exact E2|done|exact Hq]].
      unfold plan_via. rewrite E2. apply Forall2_alter_r; [apply _|].
      intros ? ?. simplify_eq. repeat split. by right.
    - assert (Task_Status t ≠ TaskRunning) by (intros E; by apply (Hr _ _ Et), elem_of_nil in E).
      eexists. split; [apply MarkSkipped_shape|]. rewrite (FindTask_at p i t Hok Et).
      rewrite decide_False by naive_solver. simpl. split; [unfold plan_via; simpl; by case_decide|].
      eapply status_free_drop; [|intros k u Hk Hu; eapply (Hq k u); [|done]; simpl in Hk; by case_decide].
      intros u Hu. simpl in Hu. case_decide; simpl in Hu; congruence. }
  rewrite E1. destruct (IH p1) as (p'&?&?&?&?&?).
  - eapply ids_ok_moves, Hok. by eapply plan_via_moves, Hv.
  - by eapply plan_via_normal, Hv.
  - by apply (status_free_via TaskRunning TaskQueued TaskSkipped p).
  - done.
  - eapply Forall_impl; [exact Hf|]. intros [j jd] (u&Hu&Hid). simpl in *.
    destruct (Forall2_lookup_l _ _ _ _ _ Hv Hu) as (u1&Hu1&(?&_)). exists u1. split; congruence.
  - exists p'. split_and!; try done. by etrans.
Qed.

(** The statuses a plan ends with when its run ends. *)
Definition final_status (stop s : TaskStatus) : TaskStatus :=
  match normalized_status s with TaskRunning => stop | TaskQueued => TaskSkipped | s => s end.

Lemma fate_final stop p p0 p' :
  NormalizeExecution (Some p) = Some p0 -> plan_fate stop p0 p' ->
  status_free TaskQueued p' [] -> status_free TaskRunning p' [] ->
  forall i t, Plan_Tasks p !! i = Some t -> exists t', Plan_Tasks p' !! i = Some t'
    ∧ Task_ID t' = Task_ID t ∧ Task_Status t' = final_status stop (Task_Status t).
Proof.
  intros Hn%NormalizeExecution_tasks Hf Hq Hr i t Ht.
  assert (Ht0 : Plan_Tasks p0 !! i = Some (normalize_task t))
    by (by rewrite Hn, list_lookup_fmap, Ht).
  destruct (Forall2_lookup_l _ _ _ _ _ Hf Ht0) as (t'&Ht'&E&M). exists t'.
  rewrite normalize_task_eq in E, M. simpl in E, M. split_and!; [done..|].
  assert (Task_Status t' ≠ TaskQueued) by (intros X; by apply (Hq _ _ Ht'), elem_of_nil in X).
  assert (Task_Status t' ≠ TaskRunning) by (intros X; by apply (Hr _ _ Ht'), elem_of_nil in X).
  unfold final_status. destruct (normalized_status (Task_Status t)); naive_solver.
Qed.

Lemma elem_of_running p i t :
  (i, t) ∈ Running (Some p) <-> Plan_Tasks p !! i = Some t ∧ Task_Status t = TaskRunning.
Proof. unfold Running. by rewrite elem_of_select, bool_decide_eq_true. Qed.

(** The listing of a selection, as index and identifier. *)
Lemma selected_pairs P p :
  (fun it : nat * Task => Task_ID it.2) <$> select_tasks P (Some p)
  = ((fun it : nat * Task => (it.1, Task_ID it.2)) <$> select_tasks P (Some p)).*2
  ∧ Forall (fun it => exists t, Plan_Tasks p !! it.1 = Some t ∧ Task_ID t = it.2)
      ((fun it : nat * Task => (it.1, Task_ID it.2)) <$> select_tasks P (Some p))
  ∧ forall i t, Plan_Tasks p !! i = Some t -> P t = true ->
      i ∈ ((fun it : nat * Task => (it.1, Task_ID it.2)) <$> select_tasks P (Some p)).*1.
Proof.
  split_and!.
  - by rewrite <- list_fmap_compose.
  - apply Forall_fmap, Forall_forall. intros [i t] [Ht _]%elem_of_select. simpl. eauto.
  - intros i t Ht HP. rewrite <- list_fmap_compose. apply list_elem_of_fmap.
    exists (i, t). split; [done|]. by apply elem_of_select.
Qed.

(** ** Ending a plan *)

(** How a plan ends when its run ends: finished, each task as [final_status]. *)
Definition plan_ended (stop : TaskStatus) (p p' : Plan) : Prop :=
  Terminal (Some p') = true
  ∧ forall i t, Plan_Tasks p !! i = Some t -> exists t', Plan_Tasks p' !! i = Some t'
      ∧ Task_ID t' = Task_ID t ∧ Task_Status t' = final_status stop (Task_Status t).

Lemma fail_plan_ends msg p :
  ids_ok p -> exists p', fail_plan msg (Some p) = Some p' ∧ plan_ended TaskFailed p p'
                         ∧ plan_normal p'.
Proof.
  intros Hok. unfold fail_plan.
  destruct (NormalizeExecution (Some p)) as [p0|] eqn:E0; [|done].
  destruct (NormalizeExecution_frame _ _ E0) as (_&Eids&_).
  pose proof (selected_pairs (fun t => bool_decide (Task_Status t = TaskRunning)) p0)
    as (Esel&Hsel&Hall).
  unfold Running. rewrite Esel.
  destruct (fail_fold msg _ p0 (ids_ok_ids _ _ Eids Hok) (normalize_normal _ _ E0)
    ltac:(intros i t Ht Hs; apply (Hall i t Ht); by bool_prop) Hsel)
    as (p1&E1&Hok1&Hn1&Hr1&Hf1). rewrite E1.
  destruct (skip_queued_spec ("run failed: " +:+ msg) p1 Hok1) as (p2&E2&_&Hq2&Hv2).
  assert (Hr2 : status_free TaskRunning p2 [])
    by by apply (status_free_via _ TaskQueued TaskSkipped p1).
  assert (Hn2 : plan_normal p2) by by eapply plan_via_normal, Hv2.
  exists p2. split_and!; [done| |done]. split; [by apply terminal_of_free|].
  eapply fate_final; eauto. eapply plan_fate_trans; [done|exact Hf1|by apply via_fate_skip].
Qed.

Lemma CancelRunning_free p p' r :
  CancelRunning (Some p) r = Some p' -> status_free TaskRunning p' [].
Proof.
  intros [= <-] i t Ht Hs. simpl in Ht. rewrite list_lookup_fmap in Ht.
  destruct (Plan_Tasks p !! i) as [t0|]; [|done]. simplify_eq/=.
  unfold cancel_running_task in Hs. by case_decide.
Qed.

Lemma cancel_plan_ends reason p :
  ids_ok p -> exists p', cancel_plan reason (Some p) = Some p' ∧ plan_ended TaskCancelled p p'
                         ∧ plan_normal p'.
Proof.
  intros Hok. unfold cancel_plan.
  destruct (NormalizeExecution (Some p)) as [p0|] eqn:E0; [|done].
  destruct (NormalizeExecution_frame _ _ E0) as (_&Eids&_).
  destruct (CancelRunning (Some p0) reason) as [p1|] eqn:E1; [|done].
  pose proof (CancelRunning_via _ _ _ E1) as Hv1.
  assert (Hn1 : plan_normal p1) by (eapply plan_via_normal, Hv1; [done|by eapply normalize_normal]).
  assert (Hok1 : ids_ok p1).
  { eapply ids_ok_moves; [by eapply plan_via_moves, Hv1|by eapply ids_ok_ids]. }
  pose proof (selected_pairs (fun t => negb (task_terminal t)) p1) as (Esel&Hsel&Hall).
  unfold Incomplete. rewrite Esel.
  destruct (mark_skipped_fold reason _ p1 Hok1 Hn1 (CancelRunning_free _ _ _ E1)
    ltac:(intros i t Ht Hs; apply (Hall i t Ht); unfold task_terminal; by rewrite Hs) Hsel)
    as (p2&E2&Hn2&Hr2&Hq2&Hv2).
  exists p2. split_and!; [done| |done]. split; [by apply terminal_of_free|].
  eapply fate_final; eauto.
  eapply plan_fate_trans; [done|by apply via_fate_stop, Hv1|by apply via_fate_skip].
Qed.

(** Synchronizing the graph only normalizes the plan. *)
Lemma sync_run r p :
  Run_Plan r = Some p -> exists r' p', syncExecutionGraphWithPlan (Some r) = Some r'
    ∧ NormalizeExecution (Some p) = Some p' ∧ Run_Plan r' = Some p'
    ∧ r' = run_set_graph (Run_ExecutionGraph r') (run_set_plan (Some p') r).
Proof.
  intros Hp. unfold syncExecutionGraphWithPlan. rewrite Hp.
  destruct (ensure_cases r) as [[E _]|(p0&p'&g&Ep&En&Er&_)]; [congruence|].
  assert (p0 = p) as -> by congruence. rewrite Er. simpl.
  eexists _, p'. split_and!; [reflexivity|done..].
Qed.

Lemma normalize_ended stop p p1 p2 :
  stopped stop -> stop ≠ TaskStatusEmpty -> status_known stop = true ->
  plan_ended stop p p1 -> NormalizeExecution (Some p1) = Some p2 -> plan_ended stop p p2.
Proof.
  intros Hst Hse Hsk [Ht Hf] H%NormalizeExecution_tasks. split.
  - simpl. rewrite H. apply forallb_true_elem. intros t' (t&->&Hin)%list_elem_of_fmap.
    simpl in Ht. rewrite forallb_true_elem in Ht. apply Ht in Hin. unfold task_terminal in *.
    rewrite normalize_task_eq. simpl. by destruct (Task_Status t).
  - intros i t Hl. destruct (Hf i t Hl) as (t'&Hl'&Hid&Hs). exists (normalize_task t').
    rewrite H, list_lookup_fmap, Hl'. split_and!; [done| |].
    + by rewrite (proj1 (normalize_task_ids t')).
    + rewrite normalize_task_normal; [done|]. rewrite Hs. unfold final_status.
      destruct (Task_Status t); by split.
Qed.

(** The store accepts the update of a run it has. *)
Lemma agent_update_known {Q} now (a : Agent Q) r r0 :
  rs_byID (ag_runs a) !! Run_ID r = Some r0 ->
  exists a', agent_update now a r = (a', run_set_updated now r, None)
    ∧ rs_byID (ag_runs a') = <[Run_ID r := run_set_updated now r]> (rs_byID (ag_runs a))
    ∧ ag_queue a' = ag_queue a ∧ ag_trace a' = ag_trace a ∧ ag_cancels a' = ag_cancels a.
Proof.
  intros H. unfold agent_update, Update. rewrite H. simpl.
  eexists. split; [reflexivity|]. done.
Qed.

(** A run without its plan, the execution graph of the plan and the time of the
    last write. *)
Definition run_but_plan (r : Run) : Run := run_set_updated zeroTime (run_set_graph None (run_set_plan None r)).

(** What ending a plan leaves of the agent and the run. *)
Definition run_plan_ended {Q} (stop : TaskStatus) (r : Run) (p : Plan)
    (a' : Agent Q) (r' : Run) : Prop :=
  (exists p', Run_Plan r' = Some p' ∧ plan_ended stop p p')
  ∧ run_but_plan r' = run_but_plan r
  ∧ is_Some (rs_byID (ag_runs a') !! Run_ID r).

Lemma run_but_plan_fields r r' : run_but_plan r' = run_but_plan r ->
  Run_ID r' = Run_ID r ∧ Run_Status r' = Run_Status r ∧ Run_SessionID r' = Run_SessionID r.
Proof. intros [=]. done. Qed.

Lemma failRunningPlanTasks_ends {Q} now (a : Agent Q) r p r0 msg :
  Run_Plan r = Some p -> ids_ok p -> rs_byID (ag_runs a) !! Run_ID r = Some r0 ->
  exists a' r', failRunningPlanTasks now a r (Some msg) = (a', r', None)
    ∧ run_plan_ended TaskFailed r p a' r' ∧ ag_queue a' = ag_queue a
    ∧ ag_cancels a' = ag_cancels a.
Proof.
  intros Hp Hok Hst. unfold failRunningPlanTasks. rewrite Hp.
  destruct (fail_plan_ends msg p Hok) as (p1&E1&Hend&Hn1).
  set (r1 := run_plan (fail_plan msg) r).
  assert (Hp1 : Run_Plan r1 = Some p1) by (unfold r1, run_plan; simpl; by rewrite Hp).
  destruct (sync_run r1 p1 Hp1) as (r2&p2&E2&En&Hp2&Er2). rewrite E2. simpl.
  match goal with |- exists _ _, agent_update _ ?a1 _ = _ ∧ _ =>
    destruct (agent_update_known now a1 r2 r0) as (a'&->&Hb&Hqu&_&Hca) end.
  { rewrite Er2. done. }
  eexists _, _. split; [done|]. split; [|done]. split_and!.
  - exists p2. split; [done|]. by eapply normalize_ended.
  - by rewrite Er2.
  - rewrite Hb, Er2. simpl. rewrite lookup_insert_eq. by eexists.
Qed.

Lemma incomplete_nil_terminal p :
  Incomplete (Some p) = [] -> Terminal (Some p) = true.
Proof.
  intros H. simpl. apply forallb_true_elem. intros t [i Ht]%list_elem_of_lookup.
  destruct (task_terminal t) eqn:E; [done|].
  assert ((i, t) ∈ Incomplete (Some p)) as Hin by (apply elem_of_select; by rewrite E).
  rewrite H in Hin. by apply elem_of_nil in Hin.
Qed.

Lemma cancelPlanTasks_ends {Q} now (a : Agent Q) r p r0 reason :
  Run_Plan r = Some p -> ids_ok p -> rs_byID (ag_runs a) !! Run_ID r = Some r0 ->
  exists a' r', cancelPlanTasks now a r reason = (a', r', None)
    ∧ run_plan_ended TaskCancelled r p a' r' ∧ ag_queue a' = ag_queue a
    ∧ ag_cancels a' = ag_cancels a.
Proof.
  intros Hp Hok Hst. unfold cancelPlanTasks. rewrite Hp. case_decide as Hnone.
  - destruct (NormalizeExecution (Some p)) as [p0|] eqn:E0; [|done]. destruct Hnone as [_ Hinc].
    eexists _, _. split; [done|]. split; [|done]. split_and!; [|done..|by eexists].
    exists p0. unfold run_plan. simpl. rewrite Hp. split; [done|].
    pose proof (incomplete_nil_terminal _ Hinc) as Ht. split; [done|].
    intros i t Hl. apply NormalizeExecution_tasks in E0. exists (normalize_task t).
    rewrite E0, list_lookup_fmap, Hl. split_and!; [done|by destruct (normalize_task_ids t)|].
    simpl in Ht. rewrite forallb_true_elem in Ht. specialize (Ht (normalize_task t)).
    rewrite normalize_task_eq in *. simpl. unfold final_status.
    assert (Hin : task_terminal (normalize_task t) = true).
    { rewrite normalize_task_eq. apply Ht. rewrite E0. apply list_elem_of_fmap. exists t.
      rewrite normalize_task_eq. split; [done|by eapply list_elem_of_lookup_2]. }
    rewrite normalize_task_eq in Hin. unfold task_terminal in Hin. simpl in Hin.
    by destruct (normalized_status (Task_Status t)).
  - destruct (cancel_plan_ends reason p Hok) as (p1&E1&Hend&Hn1).
    set (r1 := run_plan (cancel_plan reason) r).
    assert (Hp1 : Run_Plan r1 = Some p1) by (unfold r1, run_plan; simpl; by rewrite Hp).
    destruct (sync_run r1 p1 Hp1) as (r2&p2&E2&En&Hp2&Er2). rewrite E2. simpl.
    destruct (agent_update_known now a r2 r0) as (a'&->&Hb&Hqu&_&Hca); [by rewrite Er2|].
    eexists _, _. split; [done|]. split; [|done]. split_and!.
    + exists p2. split; [done|]. by eapply normalize_ended.
    + by rewrite Er2.
    + simpl. rewrite Hb, Er2. simpl. rewrite lookup_insert_eq. by eexists.
Qed.

(** a run that ends leaves no task behind.  Failing the plan of a stored run
    ends every task: one that runs fails, one that waits is skipped, finished
    ones keep their status; cancelling it does the same with cancelled for
    failed.  The plan is then terminal and the run is written back. *)
Theorem end_of_run_ends_plan {Q} (now : Time) (a : Agent Q) (r r0 : Run) (p : Plan)
    (msg reason : string) :
  Run_Plan r = Some p -> ids_ok p -> rs_byID (ag_runs a) !! Run_ID r = Some r0 ->
  (exists a' r', failRunningPlanTasks now a r (Some msg) = (a', r', None)
     ∧ run_plan_ended TaskFailed r p a' r')
  ∧ (exists a' r', cancelPlanTasks now a r reason = (a', r', None)
     ∧ run_plan_ended TaskCancelled r p a' r').
Proof.
  intros Hp Hok Hst. split.
  - destruct (failRunningPlanTasks_ends now a r p r0 msg) as (a'&r'&?&?&_); eauto.
  - destruct (cancelPlanTasks_ends now a r p r0 reason) as (a'&r'&?&?&_); eauto.
Qed.

(** ** Batch results *)

(** What the batch loop keeps: identifiers, statuses the machine knows, the
    failure policy and the run's identity. *)
Definition batch_inv (r : Run) (fp : FailurePolicy) (r' : Run) : Prop :=
  Run_ID r' = Run_ID r
  ∧ exists p, Run_Plan r' = Some p ∧ ids_ok p ∧ plan_normal p ∧ Plan_FailurePolicy p = fp.

Lemma SkipDependentsOf_frame p p' id :
  SkipDependentsOf (Some p) id = Some p' ->
  plan_via TaskQueued TaskSkipped p p' ∧ Plan_FailurePolicy p' = Plan_FailurePolicy p.
Proof.
  intros H. apply (inj Some) in H as <-. split; [apply skip_loop_via|].
  destruct (skips_loop (S (queued_count p)) p p (skips_refl p)) as [-> _]. done.
Qed.

Lemma mark_policy p p' id x :
  MarkCompleted (Some p) id x = Some p' ∨ MarkFailed (Some p) id x = Some p' ->
  Plan_FailurePolicy p' = Plan_FailurePolicy p.
Proof.
  unfold MarkCompleted, MarkFailed, release_running.
  intros [H|H]; repeat case_match; by simplify_eq.
Qed.

Lemma moves_inv p p' fp :
  tasks_move p p' -> Plan_FailurePolicy p' = Plan_FailurePolicy p ->
  ids_ok p ∧ plan_normal p ∧ Plan_FailurePolicy p = fp ->
  ids_ok p' ∧ plan_normal p' ∧ Plan_FailurePolicy p' = fp.
Proof.
  intros Hm Hf (Hok&Hn&Hp). split_and!; [by eapply ids_ok_moves|by eapply tasks_move_normal|congruence].
Qed.

Lemma apply_one_inv r fp r1 evs b res :
  batch_inv r fp r1 -> batch_inv r fp (apply_one (r1, evs, b) res).1.1
  ∧ (b = true ∨ Result_Status res = TaskFailed -> (apply_one (r1, evs, b) res).2 = true).
Proof.
  intros (Hid&p&Hp&Hinv). unfold apply_one, batch_inv, run_plan.
  destruct (Result_Status res) eqn:Es; simpl; rewrite ?Hp;
    try (split; [by eauto 10|intros [->|?]; done]).
  - destruct (MarkCompleted (Some p) (Result_TaskID res) (Result_Summary res)) as [p1|] eqn:E1.
    2:{ unfold MarkCompleted in E1. by repeat case_match. }
    split; [split; [done|]|intros [->|?]; done]. exists p1. split; [done|].
    eapply moves_inv, Hinv; [|eapply mark_policy; by left].
    eapply plan_via_moves, MarkCompleted_via, E1. done.
  - destruct (MarkFailed (Some p) (Result_TaskID res) (Result_Error res)) as [p1|] eqn:E1.
    2:{ unfold MarkFailed in E1. by repeat case_match. }
    split; [split; [done|]|done].
    destruct (SkipDependentsOf (Some p1) (Result_TaskID res)) as [p2|] eqn:E2; [|done].
    destruct (SkipDependentsOf_frame _ _ _ E2) as [Hv2 Hf2].
    exists p2. split; [done|]. eapply moves_inv, moves_inv, Hinv; [|done| |].
    + by eapply plan_via_moves, Hv2.
    + eapply plan_via_moves, MarkFailed_via, E1. done.
    + eapply mark_policy. by right.
Qed.

Lemma apply_fold_inv r fp results r1 evs b :
  batch_inv r fp r1 ->
  batch_inv r fp (foldl apply_one (r1, evs, b) results).1.1
  ∧ (b = true ∨ Exists (fun res => Result_Status res = TaskFailed) results ->
     (foldl apply_one (r1, evs, b) results).2 = true).
Proof.
  revert r1 evs b. induction results as [|res results IH]; intros r1 evs b Hinv;
    cbn [foldl].
  { split; [done|]. rewrite Exists_nil. simpl. tauto. }
  destruct (apply_one_inv r fp r1 evs b res Hinv) as [Hi Hb].
  destruct (apply_one (r1, evs, b) res) as [[r2 evs2] b2]. simpl in *.
  destruct (IH r2 evs2 b2 Hi) as [Hi' Hb']. split; [done|].
  rewrite Exists_cons. intros [->|[Hf|Hf]]; apply Hb'; [left; auto|left; auto|by right].
Qed.

Lemma abort_plan_terminal p :
  ids_ok p -> plan_normal p -> exists p', abort_plan (Some p) = Some p' ∧ Terminal (Some p') = true.
Proof.
  intros Hok Hn. unfold abort_plan.
  destruct (CancelRunning (Some p) "fail_fast: upstream task failed") as [p1|] eqn:E1; [|done].
  pose proof (CancelRunning_via _ _ _ E1) as Hv1.
  assert (Hok1 : ids_ok p1) by (eapply ids_ok_moves, Hok; by eapply plan_via_moves, Hv1).
  destruct (skip_queued_spec "fail_fast: plan aborted" p1 Hok1) as (p2&E2&_&Hq2&Hv2).
  exists p2. split; [done|]. apply terminal_of_free; [|done|].
  - eapply plan_via_normal, Hv2; [done|]. by eapply plan_via_normal, Hv1.
  - apply (status_free_via _ TaskQueued TaskSkipped p1); [done..|]. by eapply CancelRunning_free.
Qed.

Lemma normalize_terminal p p' :
  Terminal (Some p) = true -> NormalizeExecution (Some p) = Some p' -> Terminal (Some p') = true.
Proof.
  intros Ht H%NormalizeExecution_tasks. simpl in *. rewrite H.
  rewrite forallb_true_elem in *. intros t' (t&->&Hin)%list_elem_of_fmap.
  apply Ht in Hin. unfold task_terminal in *. rewrite normalize_task_eq. simpl.
  by destruct (Task_Status t).
Qed.

(** fail-fast.  When a result of a batch is a failure and the plan's failure
    policy is not to continue, applying the results of the batch to a stored
    run reports the plan as finished: whatever was still running is cancelled
    and whatever was queued is skipped. *)
Theorem applyBatchResults_fail_fast {Q} (now : Time) (a : Agent Q) (r r0 : Run) (p : Plan)
    (results : list TaskExecutionResult) :
  Run_Plan r = Some p -> ids_ok p -> rs_byID (ag_runs a) !! Run_ID r = Some r0 ->
  Plan_FailurePolicy p ≠ ContinueOnError ->
  Exists (fun res => Result_Status res = TaskFailed) results ->
  exists a' r' p', applyBatchResults now a r results = (a', r', inl true)
    ∧ Run_Plan r' = Some p' ∧ Terminal (Some p') = true
    ∧ rs_byID (ag_runs a') !! Run_ID r = Some r'.
Proof.
  intros Hp Hok Hst Hfp Hex. unfold applyBatchResults. rewrite Hp.
  assert (Hinv0 : batch_inv r (Plan_FailurePolicy p) (ensureExecutionGraph r)).
  { destruct (ensure_cases r) as [[E _]|(p0&p'&g&Ep&En&Er&_)]; [congruence|].
    assert (p0 = p) as -> by congruence. destruct (NormalizeExecution_frame _ _ En) as (_&Ei&Ef).
    rewrite Er. split; [done|]. exists p'. split_and!; [done|by eapply ids_ok_ids| |done].
    by eapply normalize_normal. }
  destruct (apply_fold_inv r _ results _ [] false Hinv0) as [Hinv Hfail].
  specialize (Hfail (or_intror Hex)).
  destruct (foldl apply_one _ results) as [[r1 evs] had]. simpl in Hinv, Hfail. subst had.
  destruct Hinv as (Hid&p1&Hp1&Hok1&Hn1&Hf1).
  rewrite decide_True. 2:{ split; [done|]. rewrite Hp1. simpl. congruence. }
  destruct (abort_plan_terminal p1 Hok1 Hn1) as (p2&E2&Ht2).
  assert (Hp2 : Run_Plan (run_plan abort_plan r1) = Some p2) by (unfold run_plan; simpl; by rewrite Hp1).
  destruct (sync_run _ _ Hp2) as (r3&p3&E3&En3&Hp3&Er3). rewrite E3. simpl.
  match goal with |- context [agent_update now ?a1 r3] =>
    destruct (agent_update_known now a1 r3 r0) as (a'&->&Hb&_) end.
  { rewrite Er3. simpl. by rewrite Hid. }
  pose proof (normalize_terminal _ _ Ht2 En3) as Ht3.
  exists a', (run_set_updated now r3), p3. split_and!; [|done..|].
  - simpl. by rewrite Hp3, <- Ht3.
  - rewrite Hb. simpl. replace (Run_ID r3) with (Run_ID r) by (rewrite Er3; simpl; congruence).
    apply lookup_insert_eq.
Qed.

(** ** Retrying a batch *)

Lemma requeue_ids ids (ts : list Task) : Task_ID <$> (requeue_task ids <$> ts) = Task_ID <$> ts.
Proof.
  rewrite <- list_fmap_compose. apply list_fmap_ext. intros i t _. simpl.
  unfold requeue_task. by case_decide.
Qed.

Lemma requeue_status ids t :
  Task_Status (requeue_task ids t)
  = if decide (Task_ID t ∈ ids ∧ Task_Status t = TaskRunning) then TaskQueued else Task_Status t.
Proof. unfold requeue_task. by case_decide. Qed.

(** putting an interrupted batch back.  The retry keeps the running set
    exact and the plan's tasks and dependencies as they were; exactly the
    listed tasks that run become queued again.  This move from running to
    queued is not one of [AllowedTaskTransitions]. *)
Theorem requeue_exact (r : Run) (p : Plan) (ids : list string) :
  Run_Plan r = Some p -> exec_inv p ->
  exists p', Run_Plan (requeueBatchTasksForRetry r ids) = Some p' ∧ exec_inv p'
    ∧ length (Plan_Tasks p') = length (Plan_Tasks p)
    ∧ (forall i t, Plan_Tasks p !! i = Some t -> exists t', Plan_Tasks p' !! i = Some t'
         ∧ Task_ID t' = Task_ID t ∧ Task_DependsOn t' = Task_DependsOn t
         ∧ Task_Status t' = if decide (Task_ID t ∈ ids ∧ Task_Status t = TaskRunning)
                            then TaskQueued else Task_Status t)
    ∧ ValidTaskTransition TaskRunning TaskQueued = false.
Proof.
  intros Hp Hinv. unfold requeueBatchTasksForRetry. rewrite Hp. case_decide as Hids.
  { exists p. split_and!; [done..| |done]. intros i t Ht. exists t. split_and!; [done..|].
    rewrite decide_False; [done|]. subst. by intros [?%elem_of_nil _]. }
  eexists. split; [reflexivity|]. set (ts := requeue_task (list_to_set ids) <$> Plan_Tasks p).
  set (running := Task_ID <$> filter _ _).
  assert (Hok : ids_ok (plan_set_tasks ts p)).
  { eapply ids_ok_ids, Hinv. apply requeue_ids. }
  split_and!; [| |..|done].
  - assert (Hrun : forall id, id ∈ running <-> is_running (plan_set_tasks ts p) id = true).
    { intros id. rewrite is_running_iff by done. unfold running. rewrite list_elem_of_fmap.
      setoid_rewrite list_elem_of_filter. simpl. setoid_rewrite list_elem_of_lookup. naive_solver. }
    split.
    + done.
    + simpl. destruct Hok as [Hnd _]. eapply sublist_NoDup; [exact Hnd|].
      apply fmap_sublist, sublist_filter.
    + intros id. simpl. rewrite Hrun. by rewrite !is_running_set_active, is_running_set_running.
    + simpl. destruct running as [|x l]; [by left|right]. simpl. apply list_elem_of_here.
  - unfold ts. simpl. by rewrite length_fmap.
  - intros i t Ht. exists (requeue_task (list_to_set ids) t). simpl. unfold ts.
    rewrite list_lookup_fmap, Ht. split_and!; [done|by (unfold requeue_task; case_decide)..|].
    rewrite requeue_status. destruct (decide (Task_ID t ∈ ids)) as [Hi|Hi].
    + case_decide as Hd; case_decide as Hd'; try done;
        rewrite elem_of_list_to_set in Hd; naive_solver.
    + case_decide as Hd; case_decide as Hd'; try done;
        rewrite elem_of_list_to_set in Hd; naive_solver.
Qed.
