(* ===== verification/RunFinalizer.v ===== *)
(** * Ending a run ([agent/run_finalizer.go])

    [finalizeRun] moves a run to its final status, ends its plan, writes it
    back, releases its context and its place in the session queue, and
    announces it.  The clock is read once per call. *)
From S2P Require Import Prelude GoLib Normalize Planner PlannerValidate PlannerState ExecutionTask RunState ExecutionGraph Coordinator RunStore PlanExecutor.
Import Str GoTime.

Inductive runFinalPlanAction := runFinalPlanNone | runFinalPlanCancel | runFinalPlanFail.

(** The specification of a finalization: event attributes, hook texts and the
    session only shape what is announced, so they are left out; [fin_hook] says
    whether a hook phase is set. *)
Record runFinalization := mkFinalization {
  fin_status : Status;
  fin_errorText : string;
  fin_eventType : option RunEventType;
  fin_planAction : runFinalPlanAction;
  fin_planReason : string;
  fin_planErr : option string;
  fin_cancelContext : bool;
  fin_finishQueue : bool;
  fin_hook : bool
}.

Section finalizer.
Context {Q : Type} `{!Coordinator Q}.

Definition finish_queue (a : Agent Q) (r : Run) : Agent Q :=
  mkAgent (ag_runs a)
    ((fun q => (FinishRun q (Run_SessionID r) (Run_ID r)).1) <$> ag_queue a)
    (ag_cancels a) (ag_trace a).

(** [loadAndDeleteRunCancel] and the call of what it returns. *)
Definition cancel_context (a : Agent Q) (r : Run) : Agent Q :=
  if decide (TrimSpace (Run_ID r) <> "" /\ Run_ID r ∈ ag_cancels a) then
    emit [EvCancelContext (Run_ID r)]
      (mkAgent (ag_runs a) (ag_queue a) (ag_cancels a ∖ {[Run_ID r]}) (ag_trace a))
  else a.

(** The plan action of the specification. *)
Definition finalize_plan (now : Time) (a : Agent Q) (r : Run) (spec : runFinalization)
    : Agent Q * Run * option RunStoreError :=
  match fin_planAction spec with
  | runFinalPlanFail => failRunningPlanTasks now a r (fin_planErr spec)
  | runFinalPlanCancel => cancelPlanTasks now a r (TrimSpace (fin_planReason spec))
  | runFinalPlanNone => (a, r, None)
  end.

(** The effects after the run has been written back. *)
Definition finalize_effects (a : Agent Q) (r : Run) (spec : runFinalization) : Agent Q :=
  let a := if isTerminalRunStatus (fin_status spec)
           then emit [EvMetric (fin_status spec)] a else a in
  let a := if fin_cancelContext spec then cancel_context a r else a in
  let a := if fin_finishQueue spec then finish_queue a r else a in
  let a := match fin_eventType spec with
           | Some ev => emit [EvRunStatus ev (Run_ID r)] a
           | None => a
           end in
  if fin_hook spec then emit [EvHook (Run_ID r)] a else a.

Definition finalizeRun (now : Time) (a : Agent Q) (run : option Run) (spec : runFinalization)
    : Agent Q * option Run * option RunStoreError :=
  match run with
  | None => (a, None, None)
  | Some r =>
    if Status_Terminal (Run_Status r) then (a, Some r, None)
    else
      let r := default r (transitionRun (Some r) (fin_status spec) PhaseFinalize
                 [Some (withRunPendingTools []); Some (withRunApproval "");
                  Some (withRunError (TrimSpace (fin_errorText spec)));
                  Some (withRunFinishedAt now)]) in
      let '(a, r, err) := finalize_plan now a r spec in
      match err with
      | Some e => (a, Some r, Some e)
      | None =>
        let '(a, r, err) := agent_update now a r in
        match err with
        | Some e => (a, Some r, Some e)
        | None =>
          (finalize_effects a r spec, Some r, None)
        end
      end
  end.

(** What [MarkBackgroundFailure] asks of [finalizeRun]. *)
Definition failure_spec (runErr : string) : runFinalization :=
  mkFinalization RunFailed runErr (Some EventRunFailed) runFinalPlanFail "" (Some runErr)
    true true true.

Definition MarkBackgroundFailure (now : Time) (a : Agent Q) (runID : string)
    (runErr : option string) : Agent Q * option RunStoreError :=
  match runErr with
  | None => (a, None)
  | Some msg =>
    if decide (TrimSpace runID = "") then (a, None)
    else
      match Get (ag_runs a) runID with
      | inr e => (a, Some e)
      | inl run =>
        if Status_Terminal (Run_Status run) || bool_decide (Run_Status run = RunWaitingApproval)
        then (a, None)
        else let '(a, _, err) := finalizeRun now a (Some run) (failure_spec msg) in (a, err)
      end
  end.

Definition RunReasonClarificationSuperseded : string := "clarification_superseded".

Definition supersede_spec (reason : string) : runFinalization :=
  mkFinalization RunCancelled reason (Some EventRunCancelled) runFinalPlanCancel reason None
    true true true.

Definition SupersedeWaitingInputRun (now : Time) (a : Agent Q) (runID reason : string)
    : Agent Q * option RunStoreError :=
  if decide (TrimSpace runID = "") then (a, None)
  else
    match Get (ag_runs a) runID with
    | inr e => (a, Some e)
    | inl run =>
      if decide (Run_Status run <> RunWaitingInput) then (a, None)
      else
        let reason := TrimSpace reason in
        let reason := if decide (reason = "") then RunReasonClarificationSuperseded else reason in
        let '(a, _, err) := finalizeRun now a (Some run) (supersede_spec reason) in (a, err)
    end.
End finalizer.

(** ** The finalized run *)

(** The options every finalization passes. *)
Definition final_opts (now : Time) (text : string) : list (option RunTransitionOption) :=
  [Some (withRunPendingTools []); Some (withRunApproval ""); Some (withRunError text);
   Some (withRunFinishedAt now)].

Lemma final_transition r st now text :
  st ≠ StatusEmpty -> st ≠ Run_Status r -> ValidTransition (Run_Status r) st = true ->
  transitionRun (Some r) st PhaseFinalize (final_opts now text)
  = Some (run_set_finished now (run_set_pending [] (run_set_approval "" (run_set_error (TrimSpace text)
      (run_set_phase PhaseFinalize (run_set_status st r)))))).
Proof.
  intros H1 H2 HV. unfold transitionRun. rewrite decide_True by done. rewrite HV. done.
Qed.

(** Whether the plan action of a specification ends the plan, and how. *)
Definition plan_stop (spec : runFinalization) : option TaskStatus :=
  match fin_planAction spec, fin_planErr spec with
  | runFinalPlanFail, Some _ => Some TaskFailed
  | runFinalPlanCancel, _ => Some TaskCancelled
  | _, _ => None
  end.

(** The plan of the run has proper identifiers, if there is a plan. *)
Definition run_ids_ok (r : Run) : Prop := forall p, Run_Plan r = Some p -> ids_ok p.

Section theorems.
Context {Q : Type} `{!Coordinator Q, !CoordinatorLaws Q}.

(** The plan step of a finalization succeeds on a stored run and changes only
    its plan. *)
Lemma finalize_plan_spec now (a : Agent Q) r r0 spec :
  run_ids_ok r -> rs_byID (ag_runs a) !! Run_ID r = Some r0 ->
  exists a' r', finalize_plan now a r spec = (a', r', None)
    ∧ run_but_plan r' = run_but_plan r
    ∧ is_Some (rs_byID (ag_runs a') !! Run_ID r)
    ∧ ag_queue a' = ag_queue a ∧ ag_cancels a' = ag_cancels a
    ∧ (forall p stop, Run_Plan r = Some p -> plan_stop spec = Some stop ->
         exists p', Run_Plan r' = Some p' ∧ plan_ended stop p p').
Proof.
  intros Hok Hst. unfold finalize_plan, plan_stop.
  destruct (Run_Plan r) as [p|] eqn:Hp.
  - destruct (fin_planAction spec).
    + exists a, r. split_and!; by eauto.
    + destruct (cancelPlanTasks_ends now a r p r0 (TrimSpace (fin_planReason spec)) Hp (Hok p Hp) Hst)
        as (a'&r'&->&(Hpl&?&?)&?&?).
      exists a', r'. split_and!; try done. intros ? ? [= <-] [= <-]. done.
    + destruct (fin_planErr spec) as [msg|].
      * destruct (failRunningPlanTasks_ends now a r p r0 msg Hp (Hok p Hp) Hst)
          as (a'&r'&->&(Hpl&?&?)&?&?).
        exists a', r'. split_and!; try done. intros ? ? [= <-] [= <-]. done.
      * unfold failRunningPlanTasks. rewrite Hp. exists a, r. split_and!; by eauto.
  - exists a, r. unfold failRunningPlanTasks, cancelPlanTasks. rewrite Hp.
    split_and!; try done; by destruct (fin_planAction spec).
Qed.

(** Everything after the write-back keeps the store. *)
Lemma finalize_tail (a : Agent Q) r spec :
  ag_runs (finalize_effects a r spec) = ag_runs a
  ∧ ag_queue (finalize_effects a r spec) = (if fin_finishQueue spec
      then (fun q => (FinishRun q (Run_SessionID r) (Run_ID r)).1) <$> ag_queue a
      else ag_queue a)
  ∧ (forall ev, fin_eventType spec = Some ev ->
       EvRunStatus ev (Run_ID r) ∈ ag_trace (finalize_effects a r spec)).
Proof.
  assert (Hc : forall b : Agent Q, ag_runs (cancel_context b r) = ag_runs b
               ∧ ag_queue (cancel_context b r) = ag_queue b)
    by (intros b; unfold cancel_context; by case_decide).
  unfold finalize_effects. set (a1 := if isTerminalRunStatus _ then _ else a).
  set (a2 := if fin_cancelContext spec then _ else _).
  assert (ag_runs a2 = ag_runs a ∧ ag_queue a2 = ag_queue a) as [<- <-].
  { unfold a2, a1. destruct (fin_cancelContext spec), (isTerminalRunStatus (fin_status spec));
      rewrite ?(proj1 (Hc _)), ?(proj2 (Hc _)); done. }
  clearbody a2. destruct (fin_eventType spec) as [ev|], (fin_hook spec), (fin_finishQueue spec);
    (split; [done|]; split; [done|]); intros ? [= <-]; simpl;
    rewrite !elem_of_app, ?list_elem_of_singleton; auto.
Qed.

(** The counter of the status, the hook and the cancelled context of a
    finalization. *)
Lemma finalize_tail_trace (a : Agent Q) r spec :
  (isTerminalRunStatus (fin_status spec) = true -> EvMetric (fin_status spec) ∈ ag_trace (finalize_effects a r spec))
  ∧ (fin_hook spec = true -> EvHook (Run_ID r) ∈ ag_trace (finalize_effects a r spec))
  ∧ (fin_cancelContext spec = true -> TrimSpace (Run_ID r) ≠ "" ->
       Run_ID r ∉ ag_cancels (finalize_effects a r spec)
       ∧ (Run_ID r ∈ ag_cancels a -> EvCancelContext (Run_ID r) ∈ ag_trace (finalize_effects a r spec))).
Proof.
  unfold finalize_effects, cancel_context. split_and!.
  - intros ->. destruct (fin_cancelContext spec), (fin_eventType spec), (fin_hook spec), (fin_finishQueue spec);
      cbn; repeat case_decide; cbn; rewrite !elem_of_app, ?list_elem_of_singleton; tauto.
  - intros ->. destruct (isTerminalRunStatus (fin_status spec)), (fin_cancelContext spec), (fin_eventType spec), (fin_finishQueue spec);
      cbn; repeat case_decide; cbn; rewrite !elem_of_app, ?list_elem_of_singleton; tauto.
  - intros -> Hid. split.
    + destruct (isTerminalRunStatus (fin_status spec)), (fin_eventType spec), (fin_hook spec), (fin_finishQueue spec); cbn; case_decide; cbn; set_solver.
    + intros Hin. destruct (isTerminalRunStatus (fin_status spec)), (fin_eventType spec), (fin_hook spec), (fin_finishQueue spec);
        cbn; rewrite decide_True by done; cbn; rewrite !elem_of_app, ?list_elem_of_singleton; tauto.
Qed.

(** The run left its session's queue. *)
Definition dequeued (q : Q) (r : Run) : Prop :=
  q_active (view q (Run_SessionID r)) ≠ Run_ID r
  ∧ Run_ID r ∉ q_queued (view q (Run_SessionID r)).

Lemma FinishRun_dequeued q r :
  Run_ID r ≠ "" -> dequeued (FinishRun q (Run_SessionID r) (Run_ID r)).1 r.
Proof.
  intros Hne. unfold dequeued. rewrite (proj2 (law_finish q (Run_SessionID r) (Run_ID r))).
  simpl. split; [by case_decide|]. by intros [? _]%list_elem_of_filter.
Qed.
End theorems.

(** What a finalization assigns to a run. *)
Definition final_run (now : Time) (spec : runFinalization) (r : Run) : Run :=
  run_set_finished now (run_set_pending [] (run_set_approval "" (run_set_error (TrimSpace (fin_errorText spec))
    (run_set_phase PhaseFinalize (run_set_status (fin_status spec) r))))).

(** C1: ending a run.  When the state machine allows the final status, finalizing
    a stored run that is still active puts exactly that status, the trimmed
    error text and the time into the run, clears its approval and its pending
    tools, changes nothing else of it but its plan, the graph of the plan and the
    time of the update, ends the plan, writes the run back, removes it from its session's queue and cancels its context if
    asked to, counts and announces it and runs the hook; and finalizing the run
    again, in any way, is a no-op. *)
Theorem finalizeRun_ends {Q} `{!Coordinator Q, !CoordinatorLaws Q}
    (now : Time) (a : Agent Q) (r r0 : Run) (spec : runFinalization) :
  run_ids_ok r -> Run_ID r ≠ "" -> rs_byID (ag_runs a) !! Run_ID r = Some r0 ->
  Status_Terminal (Run_Status r) = false -> Status_Terminal (fin_status spec) = true ->
  ValidTransition (Run_Status r) (fin_status spec) = true ->
  exists a' r', finalizeRun now a (Some r) spec = (a', Some r', None)
    ∧ run_but_plan r' = run_but_plan (final_run now spec r) ∧ Run_UpdatedAt r' = now
    ∧ rs_byID (ag_runs a') !! Run_ID r = Some r'
    ∧ (forall p stop, Run_Plan r = Some p -> plan_stop spec = Some stop ->
         exists p', Run_Plan r' = Some p' ∧ plan_ended stop p p')
    ∧ (forall q, ag_queue a' = Some q -> fin_finishQueue spec = true -> dequeued q r')
    ∧ (fin_cancelContext spec = true -> TrimSpace (Run_ID r) ≠ "" -> Run_ID r ∉ ag_cancels a')
    ∧ EvMetric (fin_status spec) ∈ ag_trace a'
    ∧ (forall ev, fin_eventType spec = Some ev -> EvRunStatus ev (Run_ID r) ∈ ag_trace a')
    ∧ (fin_hook spec = true -> EvHook (Run_ID r) ∈ ag_trace a')
    ∧ forall now' spec', finalizeRun now' a' (Some r') spec' = (a', Some r', None).
Proof.
  intros Hok Hid Hst Hnt Ht HV. unfold finalizeRun at 1. rewrite Hnt.
  fold (final_opts now (TrimSpace (fin_errorText spec))).
  rewrite final_transition; [|by intros E; rewrite E in Ht|by intros E; congruence|done].
  rewrite TrimSpace_idem. cbn [default from_option id]. fold (final_run now spec r). set (r1 := final_run now spec r).
  destruct (finalize_plan_spec now a r1 r0 spec) as
    (a2&r2&->&Hf2&[r0' Hst2]&Hq2&_&Hpl); [exact Hok|exact Hst|].
  pose proof (run_but_plan_fields _ _ Hf2) as (Hid2&Hs2&Hse2).
  destruct (agent_update_known now a2 r2 r0') as (a3&->&Hb3&Hq3&_); [by rewrite Hid2|].
  set (r3 := run_set_updated now r2) in *.
  destruct (finalize_tail a3 r3 spec) as (Er&Eq&Ev). destruct (finalize_tail_trace a3 r3 spec) as (Em&Eh&Ec).
  change (Run_ID r3) with (Run_ID r2) in *. rewrite Hid2 in Ev, Eh, Ec. change (Run_ID r1) with (Run_ID r) in *.
  eexists _, r3. split; [reflexivity|]. split_and!; [exact Hf2|done| |exact Hpl| |intros Hcc Htr; by apply Ec| |exact Ev|exact Eh|].
  - rewrite Er, Hb3, Hid2. apply lookup_insert_eq.
  - intros q Hq Hf. rewrite Eq, Hf in Hq. destruct (ag_queue a3) as [q3|]; [|done].
    apply (inj Some) in Hq as <-. refine (FinishRun_dequeued q3 r3 _). change (Run_ID r3) with (Run_ID r2).
    rewrite Hid2. exact Hid.
  - apply Em. by destruct (fin_status spec).
  - intros now' spec'. unfold finalizeRun. change (Run_Status r3) with (Run_Status r2).
    rewrite Hs2. change (Run_Status r1) with (fin_status spec). by rewrite Ht.
Qed.

(** A transition into [st]: refused ones leave the run as it is. *)
Lemma final_transition_refused r st opts :
  st ≠ StatusEmpty -> st ≠ Run_Status r -> ValidTransition (Run_Status r) st = false ->
  transitionRun (Some r) st PhaseFinalize opts = Some r.
Proof.
  intros H1 H2 HV. unfold transitionRun. rewrite decide_True by done. by rewrite HV.
Qed.

(** The status and identity of the run a finalization to [RunFailed] works on. *)
Lemma failed_transition r now text (r1 := default r (transitionRun (Some r) RunFailed PhaseFinalize
    (final_opts now text))) :
  Run_Status r ≠ RunFailed ->
  Run_ID r1 = Run_ID r ∧ Run_Plan r1 = Run_Plan r ∧ Run_SessionID r1 = Run_SessionID r
  ∧ Run_Status r1 = if ValidTransition (Run_Status r) RunFailed then RunFailed else Run_Status r.
Proof.
  intros Hne. unfold r1. destruct (ValidTransition (Run_Status r) RunFailed) eqn:HV.
  - by rewrite final_transition.
  - by rewrite final_transition_refused.
Qed.

(** a background failure is announced whether or not the run can fail.  For
    every stored run that is neither finished nor waiting for approval,
    [MarkBackgroundFailure] succeeds, announces the run as failed and takes it
    out of its session's queue; but the stored run becomes failed only if its
    status may move to failed.  A queued run or one that waits for input keeps
    its status, and is in no queue any more. *)
Theorem background_failure_outcome {Q} `{!Coordinator Q, !CoordinatorLaws Q}
    (now : Time) (a : Agent Q) (r : Run) (msg : string) :
  run_ids_ok r -> TrimSpace (Run_ID r) ≠ "" -> rs_byID (ag_runs a) !! Run_ID r = Some r ->
  Status_Active (Run_Status r) = true -> Run_Status r ≠ RunWaitingApproval ->
  exists a' r', MarkBackgroundFailure now a (Run_ID r) (Some msg) = (a', None)
    ∧ rs_byID (ag_runs a') !! Run_ID r = Some r'
    ∧ Run_Status r' = (if decide (Run_Status r = RunQueued ∨ Run_Status r = RunWaitingInput)
                       then Run_Status r else RunFailed)
    ∧ EvRunStatus EventRunFailed (Run_ID r) ∈ ag_trace a'
    ∧ forall q, ag_queue a' = Some q -> dequeued q r.
Proof.
  intros Hok Hid Hst Hact Hwa. unfold MarkBackgroundFailure. rewrite decide_False by done.
  assert (Get (ag_runs a) (Run_ID r) = inl r) as -> by (unfold Get, GetScoped; by rewrite Hst).
  assert (Hnt : Status_Terminal (Run_Status r) = false) by (by destruct (Run_Status r)).
  rewrite Hnt. rewrite bool_decide_eq_false_2 by done. cbn [orb].
  unfold finalizeRun. rewrite Hnt. cbn [fin_status failure_spec fin_errorText].
  fold (final_opts now (TrimSpace msg)).
  destruct (failed_transition r now (TrimSpace msg)) as (Hid1&Hp1&Hse1&Hs1);
    [by intros E; rewrite E in Hnt|].
  set (r1 := default r _) in *.
  destruct (finalize_plan_spec now a r1 r (failure_spec msg)) as
    (a2&r2&->&Hf2&[r0' Hst2]&Hq2&_&_); [by unfold run_ids_ok; rewrite Hp1|by rewrite Hid1|].
  pose proof (run_but_plan_fields _ _ Hf2) as (Hid2&Hs2&Hse2).
  destruct (agent_update_known now a2 r2 r0') as (a3&->&Hb3&Hq3&_); [by rewrite Hid2|].
  set (r3 := run_set_updated now r2) in *.
  destruct (finalize_tail a3 r3 (failure_spec msg)) as (Er&Eq&Ev).
  assert (Hid3 : Run_ID r3 = Run_ID r) by (etrans; [exact Hid2|exact Hid1]).
  assert (Hse3 : Run_SessionID r3 = Run_SessionID r) by (etrans; [exact Hse2|exact Hse1]).
  eexists _, r3. split; [reflexivity|]. split_and!.
  - rewrite Er, Hb3. change (Run_ID r2) with (Run_ID r3). rewrite Hid3. apply lookup_insert_eq.
  - change (Run_Status r3) with (Run_Status r2). rewrite Hs2, Hs1.
    by destruct (Run_Status r).
  - rewrite <- Hid3. by apply Ev.
  - intros q Hq. rewrite Eq in Hq. cbn [fin_finishQueue failure_spec] in Hq.
    destruct (ag_queue a3) as [q3|]; [|done]. apply (inj Some) in Hq as <-.
    unfold dequeued. rewrite <- Hid3, <- Hse3. apply (FinishRun_dequeued q3 r3).
    rewrite Hid3. by intros E; rewrite E in Hid.
Qed.

(** ** Examples *)

(** A planned run of an agent, in a given status. *)
Definition demo_agent (st : Status) : Agent InMemoryCoordinator * Run :=
  let r := run_set_status st demo_run in
  (mkAgent (mkRunStore 1 {[Run_ID r := r]} ∅)
     (Some (mem_EnqueueSessionRun NewInMemoryCoordinator "s" (Run_ID r) QueueEnqueue).1) ∅ [], r).

Lemma demo_run_ids_ok st : run_ids_ok (demo_agent st).2.
Proof. intros p [= <-]. apply demo_ids_ok. Qed.

Lemma finalizeRun_ends_witness :
  exists a' r', finalizeRun 9 (demo_agent RunRunning).1 (Some (demo_agent RunRunning).2)
                  (supersede_spec "stop") = (a', Some r', None)
    ∧ Run_Status r' = RunCancelled ∧ Run_Error r' = "stop" ∧ Run_FinishedAt r' = 9%Z.
Proof.
  destruct (finalizeRun_ends 9 (demo_agent RunRunning).1 (demo_agent RunRunning).2
    (demo_agent RunRunning).2 (supersede_spec "stop")) as (a'&r'&H&Hr&_);
    [apply demo_run_ids_ok|done|by vm_compute|done|done|done|].
  exists a', r'. split; [exact H|]. clear H.
  split; [exact (f_equal Run_Status Hr)|].
  split; [exact (f_equal Run_Error Hr)|exact (f_equal Run_FinishedAt Hr)].
Defined.

Lemma background_failure_witness :
  exists a' r', MarkBackgroundFailure 9 (demo_agent RunQueued).1 "run-000001" (Some "lost")
                = (a', None)
    ∧ rs_byID (ag_runs a') !! "run-000001" = Some r' ∧ Run_Status r' = RunQueued.
Proof.
  destruct (background_failure_outcome 9 (demo_agent RunQueued).1 (demo_agent RunQueued).2 "lost")
    as (a'&r'&H&Hl&Hs&_);
    [apply demo_run_ids_ok|by vm_compute|by vm_compute|done|done|].
  exists a', r'. by split_and!.
Defined.

Lemma end_of_run_witness :
  exists a' r', failRunningPlanTasks 9 (demo_agent RunRunning).1 (demo_agent RunRunning).2 (Some "x")
                = (a', r', None)
    ∧ run_plan_ended TaskFailed (demo_agent RunRunning).2 demo_plan a' r'.
Proof.
  apply (end_of_run_ends_plan 9 (demo_agent RunRunning).1 (demo_agent RunRunning).2
    (demo_agent RunRunning).2 demo_plan "x" ""); [done|apply demo_ids_ok|by vm_compute].
Defined.

(** A batch in which the first task failed. *)
Definition failed_result : TaskExecutionResult :=
  mkResult "a" TaskFailed "" "disk full" 1 None false.

Lemma applyBatchResults_witness :
  exists a' r' p', applyBatchResults 9 (demo_agent RunRunning).1 (demo_agent RunRunning).2
                     [failed_result] = (a', r', inl true)
    ∧ Run_Plan r' = Some p' ∧ Terminal (Some p') = true.
Proof.
  destruct (applyBatchResults_fail_fast 9 (demo_agent RunRunning).1 (demo_agent RunRunning).2
    (demo_agent RunRunning).2 demo_plan [failed_result]) as (a'&r'&p'&?&?&?&_);
    [done|apply demo_ids_ok|by vm_compute|done|by constructor|].
  exists a', r', p'. by split_and!.
Defined.

Lemma requeue_exact_witness :
  exists p', Run_Plan (requeueBatchTasksForRetry (run_plan (fun p => MarkRunning p ["a"; "c"]) demo_run)
                         ["a"]) = Some p'
    ∧ exec_inv p'.
Proof.
  destruct (requeue_exact (run_plan (fun p => MarkRunning p ["a"; "c"]) demo_run)
    (default demo_plan (MarkRunning (Some demo_plan) ["a"; "c"])) ["a"]) as (p'&?&?&_);
    [reflexivity| |exists p'; by split].
  eapply (MarkRunning_inv demo_plan _ ["a"; "c"]); [|reflexivity].
  split; [apply demo_ids_ok|constructor| |by left].
  intros id. simpl. split; [by intros ?%elem_of_nil|].
  rewrite is_running_iff by apply demo_ids_ok. intros (i&t&Ht&_&Hs).
  do 3 (destruct i as [|i]; [by injection Ht as <-|]). done.
Defined.
