(* ===== verification/ModelRouter.v ===== *)
(** * The model router ([modelrouter/router.go], [modelrouter/backoff.go],
    [modelrouter/classifier.go])

    The router keeps the model profiles and, per model, the failures reported
    for it.  A transient failure puts the model on a cooldown, a permanent one
    disables it for a while; [Select] picks the best model that is available
    and compatible.  The clock is an argument, read once per call. *)
From S2P Require Import Prelude GoLib.
From stdpp Require Import sorting.
Import Str GoTime GoInt Text.

Local Open Scope Z_scope.

(** ** Failure reasons *)

Definition FailureReason := string.
Definition FailureAuth : FailureReason := "auth".
Definition FailureAuthPermanent : FailureReason := "auth_permanent".
Definition FailureFormat : FailureReason := "format".
Definition FailureRateLimit : FailureReason := "rate_limit".
Definition FailureOverloaded : FailureReason := "overloaded".
Definition FailureBilling : FailureReason := "billing".
Definition FailureTimeout : FailureReason := "timeout".
Definition FailureModelNotFound : FailureReason := "model_not_found".
Definition FailureUnknown : FailureReason := "unknown".

Inductive FailureClass :=
  | FailureRateLimited | FailureQuota | FailureUnavailable | FailureServer | FailureClient
  | FailureClassOther (s : string).

Definition FailureClassToReason (c : FailureClass) : FailureReason :=
  match c with
  | FailureRateLimited => FailureRateLimit
  | FailureQuota => FailureBilling
  | FailureUnavailable => FailureOverloaded
  | FailureServer => FailureTimeout
  | FailureClient => FailureFormat
  | FailureClassOther _ => FailureUnknown
  end.

Definition IsTransient (r : FailureReason) : bool :=
  bool_decide (r ∈ [FailureRateLimit; FailureOverloaded; FailureTimeout; FailureUnknown]).

(** [ClassifyError]. *)
Definition ClassifyError `{GoUnicode} (status : Z) (message : string) : FailureReason :=
  let lower := ToLower message in
  if status =? 402 then
    if Contains lower "rate" then FailureRateLimit else FailureBilling
  else if status =? 429 then FailureRateLimit
  else if status =? 401 then FailureAuth
  else if status =? 403 then FailureAuthPermanent
  else if (status =? 404) && Contains lower "model" then FailureModelNotFound
  else if status =? 400 then FailureFormat
  else if status =? 408 then FailureTimeout
  else if (status =? 503) && Contains lower "overload" then FailureOverloaded
  else if (status =? 502) || (status =? 504) || (status =? 529) then FailureTimeout
  else if Contains lower "rate limit" then FailureRateLimit
  else if Contains lower "overload" then FailureOverloaded
  else if Contains lower "timeout" || Contains lower "timed out" then FailureTimeout
  else if Contains lower "billing" || Contains lower "quota" || Contains lower "insufficient"
  then FailureBilling
  else FailureUnknown.

(** ** Backoff *)

(** Go computes the two durations in [float64] and converts the product to
    [int64].  The product is an exact integer in range as long as
    [20 * 3^(n-1)] has at most 53 significant bits, [n <= 32], and
    [2^(n-1)] hours stay below [2^63] nanoseconds, [n <= 22]; beyond that the
    product is rounded, or the conversion is left to the implementation, and
    the result is given by [inexact]. *)
Class FloatConversion := { inexact_seconds : Z -> Z; inexact_nanoseconds : Z -> Z }.

Definition transientCooldownMax : Duration := 30 * Minute.
Definition permanentDisableMax : Duration := 12 * Hour.

Definition TransientCooldown `{FloatConversion} (errorCount : Z) : Duration :=
  let n := if errorCount <=? 0 then 1 else errorCount in
  let seconds := if n <=? 32 then 20 * 3 ^ (n - 1) else wrap64 (inexact_seconds n) in
  let d := wrap64 (seconds * Second) in
  if transientCooldownMax <? d then transientCooldownMax else d.

Definition PermanentDisableDuration `{FloatConversion} (errorCount : Z) : Duration :=
  let n := if errorCount <=? 0 then 1 else errorCount in
  let d := if n <=? 22 then 2 ^ (n - 1) * Hour else wrap64 (inexact_nanoseconds n) in
  if permanentDisableMax <? d then permanentDisableMax else d.

(** ** Profiles *)

Definition Capability := string.
Definition CapabilityChat : Capability := "chat".

Record ModelProfile := mkProfile {
  MP_ID : string;
  MP_Provider : string;
  MP_Priority : Z;
  MP_ContextWindow : Z;
  MP_MaxOutputTokens : Z;
  MP_Enabled : bool;
  MP_Supports : gmap Capability bool;
  MP_CooldownUntil : Time
}.

Record ProfileFailureStats := mkStats {
  PF_CooldownUntil : Time;
  PF_DisabledUntil : Time;
  PF_DisabledReason : FailureReason;
  PF_ErrorCount : Z;
  PF_FailureCounts : gmap FailureReason Z;
  PF_LastFailureAt : Time;
  PF_LastSuccessAt : Time
}.

Record RouteRequest := mkRequest {
  Req_RequestedModel : string;
  Req_Required : list Capability;
  Req_MinContextWindow : Z;
  Req_MinOutputTokens : Z
}.

Record RouteDecision := mkDecision {
  Dec_Model : ModelProfile;
  Dec_FailoverFrom : string;
  Dec_Reason : string
}.

Inductive RouterError := ErrNoCompatibleModel | ErrModelNotFound (id : string).

Record InMemoryRouter := mkRouter {
  rt_profiles : gmap string ModelProfile;
  rt_failureStats : gmap string ProfileFailureStats;
  rt_defaultCooldown : Duration
}.

(** The public view of a profile. *)
Record ProfileView := mkView {
  View_ID : string; View_Provider : string; View_Priority : Z; View_ContextWindow : Z;
  View_MaxOutputTokens : Z; View_Enabled : bool; View_Supports : gmap Capability bool
}.

Definition ProfileViewFromProfile (p : ModelProfile) : ProfileView :=
  mkView (MP_ID p) (MP_Provider p) (MP_Priority p) (MP_ContextWindow p) (MP_MaxOutputTokens p)
    (MP_Enabled p) (MP_Supports p).

Definition ProfileViewsFromProfiles (ps : list ModelProfile) : list ProfileView :=
  ProfileViewFromProfile <$> ps.

Definition ProfileView_ModelProfile (v : ProfileView) : ModelProfile :=
  mkProfile (View_ID v) (View_Provider v) (View_Priority v) (View_ContextWindow v)
    (View_MaxOutputTokens v) (View_Enabled v) (View_Supports v) zeroTime.

Definition normalizeProfile (p : ModelProfile) : ModelProfile :=
  mkProfile (MP_ID p) (MP_Provider p) (MP_Priority p) (MP_ContextWindow p)
    (MP_MaxOutputTokens p) (MP_Enabled p) (<[CapabilityChat := true]> (MP_Supports p))
    (MP_CooldownUntil p).

Definition empty_stats : ProfileFailureStats := mkStats zeroTime zeroTime "" 0 ∅ zeroTime zeroTime.

Definition NewInMemoryRouter (profiles : list ModelProfile) (defaultCooldown : Duration)
    : InMemoryRouter :=
  let '(index, stats) :=
    foldl (fun acc p =>
      if decide (MP_ID p = "") then acc
      else (<[MP_ID p := normalizeProfile p]> acc.1,
            <[MP_ID p := mkStats (MP_CooldownUntil p) zeroTime "" 0 ∅ zeroTime zeroTime]> acc.2))
      (∅, ∅) profiles in
  mkRouter index stats (if defaultCooldown <=? 0 then 30 * Second else defaultCooldown).

(** ** Reporting *)

Definition count_sum (m : gmap FailureReason Z) : Z :=
  map_fold (fun _ c total => wrap64 (total + c)) 0 m.

Definition drop_reasons (transient : bool) (m : gmap FailureReason Z) : gmap FailureReason Z :=
  filter (fun rc => IsTransient rc.1 = negb transient) m.

(** A window is open while its end is set and in the future. *)
Definition window_open (until now : Time) : bool := negb (IsZero until) && After until now.

Section router.
Context `{FloatConversion} `{GoUnicode}.

Definition record_failure (now : Time) (reason : FailureReason) (st : ProfileFailureStats)
    : ProfileFailureStats :=
  let count := wrap64 (default 0 (PF_FailureCounts st !! reason) + 1) in
  let st := mkStats (PF_CooldownUntil st) (PF_DisabledUntil st) (PF_DisabledReason st)
              (wrap64 (PF_ErrorCount st + 1)) (<[reason := count]> (PF_FailureCounts st)) now
              (PF_LastSuccessAt st) in
  if IsTransient reason then
    if IsZero (PF_CooldownUntil st) || negb (After (PF_CooldownUntil st) now) then
      mkStats (Add now (TransientCooldown count)) (PF_DisabledUntil st) (PF_DisabledReason st)
        (PF_ErrorCount st) (PF_FailureCounts st) (PF_LastFailureAt st) (PF_LastSuccessAt st)
    else st
  else if IsZero (PF_DisabledUntil st) || negb (After (PF_DisabledUntil st) now) then
    mkStats (PF_CooldownUntil st) (Add now (PermanentDisableDuration count)) reason
      (PF_ErrorCount st) (PF_FailureCounts st) (PF_LastFailureAt st) (PF_LastSuccessAt st)
  else st.

Definition reportFailureWithReason (now : Time) (r : InMemoryRouter) (modelID : string)
    (reason : FailureReason) : InMemoryRouter * option RouterError :=
  match rt_profiles r !! modelID with
  | None => (r, Some (ErrModelNotFound modelID))
  | Some _ =>
    let st := default empty_stats (rt_failureStats r !! modelID) in
    (mkRouter (rt_profiles r) (<[modelID := record_failure now reason st]> (rt_failureStats r))
       (rt_defaultCooldown r), None)
  end.

Definition ReportFailure (now : Time) (r : InMemoryRouter) (modelID : string) (c : FailureClass)
    : InMemoryRouter * option RouterError :=
  reportFailureWithReason now r modelID (FailureClassToReason c).

Definition record_success (now : Time) (st : ProfileFailureStats) : ProfileFailureStats :=
  let counts := drop_reasons true (PF_FailureCounts st) in
  mkStats zeroTime (PF_DisabledUntil st) (PF_DisabledReason st) (count_sum counts) counts
    (PF_LastFailureAt st) now.

Definition ReportSuccess (now : Time) (r : InMemoryRouter) (modelID : string)
    : InMemoryRouter * option RouterError :=
  match rt_profiles r !! modelID with
  | None => (r, Some (ErrModelNotFound modelID))
  | Some _ =>
    match rt_failureStats r !! modelID with
    | None => (r, None)
    | Some st =>
      (mkRouter (rt_profiles r) (<[modelID := record_success now st]> (rt_failureStats r))
         (rt_defaultCooldown r), None)
    end
  end.

(** ** Selection *)

Definition clear_expired (now : Time) (st : ProfileFailureStats) : ProfileFailureStats :=
  let st :=
    if negb (IsZero (PF_CooldownUntil st)) && negb (After (PF_CooldownUntil st) now) then
      mkStats zeroTime (PF_DisabledUntil st) (PF_DisabledReason st) (PF_ErrorCount st)
        (drop_reasons true (PF_FailureCounts st)) (PF_LastFailureAt st) (PF_LastSuccessAt st)
    else st in
  if negb (IsZero (PF_DisabledUntil st)) && negb (After (PF_DisabledUntil st) now) then
    let counts := drop_reasons false (PF_FailureCounts st) in
    mkStats (PF_CooldownUntil st) zeroTime "" (count_sum counts) counts (PF_LastFailureAt st)
      (PF_LastSuccessAt st)
  else st.

Definition clearExpiredCooldowns (now : Time) (r : InMemoryRouter) : InMemoryRouter :=
  mkRouter (rt_profiles r) (clear_expired now <$> rt_failureStats r) (rt_defaultCooldown r).

Definition isCompatible (now : Time) (r : InMemoryRouter) (p : ModelProfile) (req : RouteRequest)
    : bool :=
  MP_Enabled p
  && match rt_failureStats r !! MP_ID p with
     | Some st => negb (window_open (PF_CooldownUntil st) now)
                  && negb (window_open (PF_DisabledUntil st) now)
     | None => true
     end
  && negb (window_open (MP_CooldownUntil p) now)
  && negb ((0 <? Req_MinContextWindow req) && (MP_ContextWindow p <? Req_MinContextWindow req))
  && negb ((0 <? Req_MinOutputTokens req) && (0 <? MP_MaxOutputTokens p)
           && (MP_MaxOutputTokens p <? Req_MinOutputTokens req))
  && forallb (fun c => default false (MP_Supports p !! c)) (Req_Required req).

(** The comparison [sortProfiles] hands to [sort.Slice]. *)
Definition profile_less (a b : ModelProfile) : bool :=
  if decide (MP_Priority a <> MP_Priority b) then MP_Priority b <? MP_Priority a
  else if negb (EqualFold (MP_Provider a) (MP_Provider b)) then
    String.ltb (MP_Provider a) (MP_Provider b)
  else String.ltb (MP_ID a) (MP_ID b).

Definition profile_le (a b : ModelProfile) : Prop := profile_less b a = false.

#[global] Instance profile_le_dec : RelDecision profile_le.
Proof. intros a b. unfold profile_le. apply _. Defined.

(** [sortProfiles]: a list on which [profile_less] is a strict total order has
    one sorted arrangement, whatever algorithm [sort.Slice] uses. *)
Definition sortProfiles (ps : list ModelProfile) : list ModelProfile := merge_sort profile_le ps.

(** [compatibleProfiles], when the profile map is visited in the order [entries]. *)
Definition compatibleProfiles (now : Time) (entries : list ModelProfile) (r : InMemoryRouter)
    (req : RouteRequest) : list ModelProfile :=
  let known := if decide (Req_RequestedModel req <> "") then rt_profiles r !! Req_RequestedModel req
               else None in
  let requestedProvider := from_option MP_Provider "" known in
  let requested := match known with
                   | Some p => if isCompatible now r p req then Some p else None
                   | None => None
                   end in
  let usable := filter (fun p =>
      (from_option (fun q => bool_decide (MP_ID p = MP_ID q)) false requested = false)
      /\ isCompatible now r p req = true) entries in
  let same p := bool_decide (requestedProvider <> "" /\ MP_Provider p = requestedProvider) in
  option_list requested
  ++ sortProfiles (filter (fun p => same p = true) usable)
  ++ sortProfiles (filter (fun p => same p = false) usable).

Definition SelectModel (now : Time) (entries : list ModelProfile) (r : InMemoryRouter)
    (req : RouteRequest) : InMemoryRouter * (RouteDecision + RouterError) :=
  let r := clearExpiredCooldowns now r in
  match compatibleProfiles now entries r req with
  | [] => (r, inr ErrNoCompatibleModel)
  | chosen :: _ =>
    (r, inl (if decide (Req_RequestedModel req <> "" /\ MP_ID chosen <> Req_RequestedModel req)
             then mkDecision chosen (Req_RequestedModel req)
                    "requested model unavailable or incompatible"
             else mkDecision chosen "" ""))
  end.

Definition GetFailureStats (r : InMemoryRouter) (modelID : string) : option ProfileFailureStats :=
  rt_failureStats r !! modelID.
End router.

(** A model that is selected is enabled, in service and fits the request. *)
Lemma SelectModel_compatible `{GoUnicode} now entries r req r1 d :
  SelectModel now entries r req = (r1, inl d) -> isCompatible now r1 (Dec_Model d) req = true.
Proof.
  unfold SelectModel. set (r' := clearExpiredCooldowns now r).
  destruct (compatibleProfiles now entries r' req) as [|m l] eqn:E; [done|].
  intros [= <- <-].
  match goal with |- isCompatible _ _ (Dec_Model ?x) _ = true => replace (Dec_Model x) with m by (by case_decide) end.
  assert (m ∈ compatibleProfiles now entries r' req) as Hm by (rewrite E; left). clear E. revert Hm.
  unfold compatibleProfiles, sortProfiles. rewrite !elem_of_app, !merge_sort_Permutation, !list_elem_of_filter.
  intros [Hm|[(_ & (_ & Hm) & _)|(_ & (_ & Hm) & _)]]; [|done..].
  revert Hm. case_decide; [|by intros ?%elem_of_nil]. destruct (rt_profiles r' !! _) as [p|]; [|by intros ?%elem_of_nil].
  destruct (isCompatible now r' p req) eqn:Hp; [|by intros ?%elem_of_nil]. by intros ->%list_elem_of_singleton.
Qed.

(** ** Backoff *)

(** backoff durations.  Up to nineteen failures in a row the transient
    cooldown is twenty seconds tripled per failure and capped at thirty
    minutes; up to twenty-two failures the disable time is one hour doubled per
    failure and capped at twelve hours; counts below one count as one.  At
    twenty-one failures the transient product overflows 64 bits and the
    cooldown comes out negative. *)
Theorem backoff_durations `{FloatConversion} :
  (forall n, 1 <= n <= 19 ->
     TransientCooldown n = Z.min (30 * Minute) (20 * Second * 3 ^ (n - 1)))
  ∧ (forall n, 1 <= n <= 22 ->
       PermanentDisableDuration n = Z.min (12 * Hour) (Hour * 2 ^ (n - 1)))
  ∧ (forall n, n <= 0 -> TransientCooldown n = 20 * Second ∧ PermanentDisableDuration n = Hour)
  ∧ TransientCooldown 21 < 0.
Proof.
  assert (Hc : forall m n, 1 <= n <= Z.of_nat m -> exists k, (k < m)%nat ∧ n = Z.of_nat k + 1).
  { intros m n Hn. exists (Z.to_nat (n - 1)). lia. }
  split_and!.
  - intros n (k&Hk&->)%(Hc 19%nat). do 19 (destruct k as [|k]; [reflexivity|]). lia.
  - intros n (k&Hk&->)%(Hc 22%nat). do 22 (destruct k as [|k]; [reflexivity|]). lia.
  - intros n Hn. unfold TransientCooldown, PermanentDisableDuration.
    by rewrite (proj2 (Z.leb_le n 0) Hn).
  - reflexivity.
Qed.

Lemma TransientCooldown_bounds `{FloatConversion} n :
  1 <= n <= 19 -> 0 < TransientCooldown n <= 30 * Minute.
Proof.
  intros Hn. unfold TransientCooldown.
  assert (exists k, (k < 19)%nat ∧ n = Z.of_nat k + 1) as (k&Hk&->)
    by (exists (Z.to_nat (n - 1)); lia).
  do 19 (destruct k as [|k]; [by vm_compute|]). lia.
Qed.

(** ** The order of candidates *)

Lemma string_ltb_le s t : String.ltb s t = false <-> String.le t s.
Proof.
  unfold String.ltb, String.le, String.leb. rewrite (String.compare_antisym s t).
  by destruct (String.compare t s); simpl; split.
Qed.

(** The lexicographic order: higher priority first, then provider, then
    identifier. *)
Definition ranked (a b : ModelProfile) : Prop :=
  MP_Priority b <= MP_Priority a
  ∧ (MP_Priority a = MP_Priority b ->
       String.le (MP_Provider a) (MP_Provider b)
       ∧ (MP_Provider a = MP_Provider b -> String.le (MP_ID a) (MP_ID b))).

#[export] Instance ranked_trans : Transitive ranked.
Proof.
  intros a b c [H1 H2] [H3 H4]. split; [lia|]. intros E.
  destruct H2 as [H2 H2']; [lia|]. destruct H4 as [H4 H4']; [lia|]. split; [by etrans|].
  intros Ep. rewrite Ep in H2.
  assert (MP_Provider b = MP_Provider c) as Eb by (by apply (anti_symm String.le)).
  etrans; [apply H2'; congruence|by apply H4'].
Qed.

Section order.
Context `{GoUnicode}.

(** Providers that differ only in case do not occur together. *)
Definition providers_consistent (ps : list ModelProfile) : Prop :=
  forall a b, a ∈ ps -> b ∈ ps -> EqualFold (MP_Provider a) (MP_Provider b) = true ->
    MP_Provider a = MP_Provider b.

#[local] Instance profile_le_total : Total profile_le.
Proof.
  intros a b. unfold profile_le, profile_less. rewrite (EqualFold_sym (MP_Provider b)).
  repeat case_decide; try congruence.
  - destruct (Z.ltb_spec (MP_Priority a) (MP_Priority b)); [right|left]; [|done].
    apply Z.ltb_ge. lia.
  - destruct (negb _).
    + rewrite !string_ltb_le. apply (total String.le).
    + rewrite !string_ltb_le. apply (total String.le).
Qed.

Lemma profile_le_ranked a b :
  (EqualFold (MP_Provider a) (MP_Provider b) = true -> MP_Provider a = MP_Provider b) ->
  profile_le a b -> ranked a b.
Proof.
  intros Hc. unfold profile_le, profile_less. rewrite (EqualFold_sym (MP_Provider b)).
  case_decide as Hp; intros Hl.
  - apply Z.ltb_ge in Hl. split; [lia|]. intros E. congruence.
  - split; [lia|]. intros _. destruct (EqualFold (MP_Provider a) (MP_Provider b)) eqn:E; simpl in Hl;
      apply string_ltb_le in Hl.
    + rewrite Hc by done. split; [reflexivity|]. done.
    + split; [done|]. intros E'. rewrite E', EqualFold_refl in E. done.
Qed.

Lemma sortProfiles_ranked ps : providers_consistent ps -> StronglySorted ranked (sortProfiles ps).
Proof.
  intros Hc. apply Sorted_StronglySorted; [apply _|].
  pose proof (Sorted_merge_sort profile_le ps) as Hs.
  assert (Hin : forall x, x ∈ merge_sort profile_le ps -> x ∈ ps)
    by (intros x; by rewrite merge_sort_Permutation).
  unfold sortProfiles. revert Hs Hin. generalize (merge_sort profile_le ps) as l.
  induction l as [|x l IH]; intros Hs Hin; [constructor|].
  apply Sorted_inv in Hs as [Hs Hd]. constructor; [apply IH; set_solver|].
  destruct Hd as [|y l Hxy]; constructor. apply profile_le_ranked; [|done].
  apply Hc; apply Hin; set_solver.
Qed.

Lemma sortProfiles_head ps m l :
  providers_consistent ps -> sortProfiles ps = m :: l ->
  m ∈ ps ∧ forall q, q ∈ ps -> q = m ∨ ranked m q.
Proof.
  intros Hc E. pose proof (sortProfiles_ranked ps Hc) as Hs. rewrite E in Hs.
  apply StronglySorted_inv in Hs as [_ Hf]. rewrite Forall_forall in Hf.
  assert (Hin : forall x, x ∈ ps <-> x ∈ m :: l)
    by (intros x; rewrite <- E; unfold sortProfiles; by rewrite merge_sort_Permutation).
  split; [apply Hin; set_solver|]. intros q Hq%Hin. apply elem_of_cons in Hq as [->|]; auto.
Qed.
End order.

(** ** Selection *)

(** Profiles are stored under their own identifier. *)
Definition router_wf (r : InMemoryRouter) : Prop :=
  forall id p, rt_profiles r !! id = Some p -> MP_ID p = id.

(** The model is available and fits the request. *)
Definition usable (now : Time) (r : InMemoryRouter) (req : RouteRequest)
    (p : ModelProfile) : Prop :=
  rt_profiles r !! MP_ID p = Some p ∧ isCompatible now r p req = true.

(** The profile the request names, if the router knows it. *)
Definition named (r : InMemoryRouter) (req : RouteRequest) : option ModelProfile :=
  if decide (Req_RequestedModel req ≠ "") then rt_profiles r !! Req_RequestedModel req else None.

Section selection.
Context `{GoUnicode}.
Context (now : Time) (r : InMemoryRouter) (req : RouteRequest) (entries : list ModelProfile).
Hypothesis Hwf : router_wf r.
Hypothesis Hentries : entries ≡ₚ (map_to_list (rt_profiles r)).*2.
Hypothesis Hcons : providers_consistent entries.

Lemma elem_of_entries p : p ∈ entries <-> rt_profiles r !! MP_ID p = Some p.
Proof.
  rewrite Hentries, list_elem_of_fmap. split.
  - intros ([id q]&->&Hq%elem_of_map_to_list). simpl. by rewrite (Hwf id q Hq).
  - intros Hp. exists (MP_ID p, p). split; [done|]. by apply elem_of_map_to_list.
Qed.

(** The named profile, when it is usable. *)
Definition requested_usable : option ModelProfile :=
  match named r req with
  | Some p => if isCompatible now r p req then Some p else None
  | None => None
  end.

Lemma requested_usable_spec p :
  requested_usable = Some p <-> named r req = Some p ∧ isCompatible now r p req = true.
Proof.
  unfold requested_usable. destruct (named r req) as [q|]; [|by split; [|intros []]].
  destruct (isCompatible now r q req) eqn:E; split.
  - by intros [= <-].
  - by intros [[= <-] _].
  - done.
  - intros [[= <-] ?]. congruence.
Qed.

Lemma named_known p : named r req = Some p -> rt_profiles r !! MP_ID p = Some p.
Proof.
  unfold named. case_decide; [|done]. intros Hp. by rewrite (Hwf _ _ Hp).
Qed.

(** The candidates other than the requested one, of the requested provider or of
    the others. *)
Definition candidates (same : bool) : list ModelProfile :=
  filter (fun p => bool_decide (from_option MP_Provider "" (named r req) ≠ ""
            ∧ MP_Provider p = from_option MP_Provider "" (named r req)) = same)
    (filter (fun p =>
      (from_option (fun q => bool_decide (MP_ID p = MP_ID q)) false requested_usable = false)
      ∧ isCompatible now r p req = true) entries).

Lemma compatibleProfiles_eq :
  compatibleProfiles now entries r req
  = option_list requested_usable ++ sortProfiles (candidates true) ++ sortProfiles (candidates false).
Proof. reflexivity. Qed.

Lemma candidates_elem same p :
  p ∈ candidates same <->
  bool_decide (from_option MP_Provider "" (named r req) ≠ ""
            ∧ MP_Provider p = from_option MP_Provider "" (named r req)) = same
  ∧ from_option (fun q => bool_decide (MP_ID p = MP_ID q)) false requested_usable = false
  ∧ usable now r req p.
Proof.
  unfold candidates, usable. rewrite !list_elem_of_filter, elem_of_entries. tauto.
Qed.

Lemma candidates_consistent same : providers_consistent (candidates same).
Proof.
  intros a b Ha Hb. apply Hcons; [clear Hb|clear Ha; rename Hb into Ha];
    apply candidates_elem in Ha as (_&_&[? _]); by apply elem_of_entries.
Qed.

Lemma compatible_empty :
  compatibleProfiles now entries r req = [] <-> forall p, ¬ usable now r req p.
Proof.
  rewrite compatibleProfiles_eq. split.
  - intros E p Hp. apply app_eq_nil in E as [E1 E2]. apply app_eq_nil in E2 as [E2 E3].
    destruct requested_usable as [q|] eqn:Eq; [done|].
    assert (Hin : p ∈ candidates (bool_decide (from_option MP_Provider "" (named r req) ≠ ""
              ∧ MP_Provider p = from_option MP_Provider "" (named r req)))).
    { apply candidates_elem. split_and!; [done|by rewrite Eq|done]. }
    destruct (bool_decide _).
    + assert (p ∈ sortProfiles (candidates true)) as Hs
        by (unfold sortProfiles; by rewrite merge_sort_Permutation).
      rewrite E2 in Hs. by apply elem_of_nil in Hs.
    + assert (p ∈ sortProfiles (candidates false)) as Hs
        by (unfold sortProfiles; by rewrite merge_sort_Permutation).
      rewrite E3 in Hs. by apply elem_of_nil in Hs.
  - intros Hn. destruct requested_usable as [q|] eqn:Eq.
    { apply requested_usable_spec in Eq as [Hq Hc]. destruct (Hn q). split; [by apply named_known|done]. }
    assert (Hnil : forall same, candidates same = []).
    { intros same. destruct (candidates same) as [|p l] eqn:E; [done|]. exfalso.
      assert (p ∈ candidates same) as Hp by (rewrite E; set_solver).
      apply candidates_elem in Hp as (_&_&Hp). by apply (Hn p). }
    by rewrite !Hnil.
Qed.

Lemma compatible_head m l :
  compatibleProfiles now entries r req = m :: l ->
  usable now r req m
  ∧ (forall p, named r req = Some p -> isCompatible now r p req = true -> m = p)
  ∧ (forall p q, requested_usable = None -> named r req = Some p -> MP_Provider p ≠ "" ->
       usable now r req q -> MP_Provider q = MP_Provider p -> MP_Provider m = MP_Provider p)
  ∧ (forall q, requested_usable = None -> usable now r req q ->
       MP_Provider q = MP_Provider m ∨ MP_Provider m ≠ from_option MP_Provider "" (named r req) ->
       MP_Priority q <= MP_Priority m).
Proof.
  rewrite compatibleProfiles_eq. intros E.
  destruct requested_usable as [p0|] eqn:Eq.
  { injection E as <- _. apply requested_usable_spec in Eq as [Hq Hc].
    split_and!; [split; [by apply named_known|done]|intros p Hp _; congruence|done|done]. }
  simpl in E.
  assert (Hcand : forall q, usable now r req q -> q ∈ candidates
    (bool_decide (from_option MP_Provider "" (named r req) ≠ ""
            ∧ MP_Provider q = from_option MP_Provider "" (named r req)))).
  { intros q Hq. apply candidates_elem. by rewrite Eq. }
  assert (Hreq : forall p, named r req = Some p -> isCompatible now r p req = true -> m = p).
  { intros p Hp Hc. assert (requested_usable = Some p) by by apply requested_usable_spec. congruence. }
  destruct (sortProfiles (candidates true)) as [|m' l'] eqn:Es.
  - simpl in E. apply sortProfiles_head in E as [Hm Hbest]; [|apply candidates_consistent].
    assert (Hnone : candidates true = []).
    { symmetry. apply Permutation_nil_l. rewrite <- Es. apply merge_sort_Permutation. }
    apply candidates_elem in Hm as (_&_&Hm).
    assert (Hall : forall q, usable now r req q -> q ∈ candidates false).
    { intros q Hq%Hcand. destruct (bool_decide _); [|done]. rewrite Hnone in Hq.
      by apply elem_of_nil in Hq. }
    split_and!; [done..| |].
    + intros p q _ Hp Hne Hq Hpr. apply Hall, candidates_elem in Hq as (Hb&_). exfalso.
      rewrite Hp in Hb. bool_prop. by apply Hb.
    + intros q _ Hq _. destruct (Hbest q (Hall q Hq)) as [->|[? _]]; lia.
  - simpl in E. injection E as -> _. apply sortProfiles_head in Es as [Hm Hbest];
      [|apply candidates_consistent].
    apply candidates_elem in Hm as (Hsame&_&Hm). apply bool_decide_eq_true in Hsame as [Hne Hpm].
    split_and!; [done..| |].
    + intros p q _ Hp _ _ _. by rewrite Hp in Hpm.
    + intros q _ Hq [Hpq|Hn]; [|done]. apply Hcand in Hq.
      rewrite bool_decide_eq_true_2 in Hq by (split; [done|congruence]).
      destruct (Hbest q Hq) as [->|[? _]]; lia.
Qed.
End selection.

(** the router picks the best available model.  Whatever the order in which
    the profile map is visited: [Select] fails exactly when no profile is
    enabled, outside every cooldown and disable window, large enough and
    capable enough; otherwise the chosen model is such a profile.  It is the
    requested model whenever that is usable; else it comes from the requested
    model's provider if that provider has a usable model; and no usable
    alternative of the group it was chosen from has a higher priority. *)
Theorem SelectModel_best `{GoUnicode} (now : Time) (r : InMemoryRouter) (req : RouteRequest)
    (entries : list ModelProfile) (r' := clearExpiredCooldowns now r) :
  router_wf r -> entries ≡ₚ (map_to_list (rt_profiles r)).*2 -> providers_consistent entries ->
  match SelectModel now entries r req with
  | (r1, inr _) => r1 = r' ∧ forall p, ¬ usable now r' req p
  | (r1, inl d) => let m := Dec_Model d in
      r1 = r' ∧ usable now r' req m
      ∧ (forall p, named r req = Some p -> usable now r' req p -> m = p ∧ Dec_FailoverFrom d = "")
      ∧ (forall p q, named r req = Some p -> MP_Provider p ≠ "" -> usable now r' req q ->
           MP_Provider q = MP_Provider p -> MP_Provider m = MP_Provider p)
      ∧ (forall q, (forall p, named r req = Some p -> ¬ usable now r' req p) ->
           usable now r' req q ->
           MP_Provider q = MP_Provider m
             ∨ MP_Provider m ≠ from_option MP_Provider "" (named r req) ->
           MP_Priority q <= MP_Priority m)
  end.
Proof.
  intros Hwf He Hc. unfold SelectModel. fold r'.
  assert (Hwf' : router_wf r') by exact Hwf.
  assert (He' : entries ≡ₚ (map_to_list (rt_profiles r')).*2) by exact He.
  destruct (compatibleProfiles now entries r' req) as [|m l] eqn:E.
  { split; [done|]. by apply (compatible_empty now r' req entries). }
  pose proof (compatible_head now r' req entries Hwf' He' Hc m l E) as (Hm&Hreq&Hprov&Hprio).
  change (named r' req) with (named r req) in *.
  assert (Hnone : (forall p, named r req = Some p -> ¬ usable now r' req p) ->
                  requested_usable now r' req = None).
  { intros Hn. destruct (requested_usable now r' req) as [p|] eqn:Eq; [|done]. exfalso.
    apply requested_usable_spec in Eq as [Hp Hcp]. apply (Hn p Hp).
    split; [by apply (named_known r' req)|done]. }
  assert (Hid : forall p, named r req = Some p -> MP_ID p = Req_RequestedModel req).
  { intros p. unfold named. case_decide; [|done]. intros Hp. by apply Hwf. }
  set (d := if decide _ then _ else _).
  assert (Dec_Model d = m) as -> by (unfold d; by case_decide). split_and!; [done..| | |].
  - intros p Hp [_ Hcp]. rewrite (Hreq p Hp Hcp). split; [done|]. unfold d.
    rewrite decide_False; [done|]. intros [_ Hne]. apply Hne. rewrite (Hreq p Hp Hcp). auto.
  - intros p q Hp Hne Hq Hpq. destruct (requested_usable now r' req) as [p0|] eqn:Eq; [|by eapply Hprov].
    apply requested_usable_spec in Eq as [Hp0 Hcp]. change (named r' req) with (named r req) in Hp0.
    rewrite (Hreq p0 Hp0 Hcp). congruence.
  - intros q Hn Hq Hg. by apply Hprio; [apply Hnone| |].
Qed.

(** the candidate order is not an order.  Comparing providers without case
    before comparing them by bytes makes the comparison handed to the sort
    cyclic: with providers [a], [A] and [B] at one priority, each of the three
    profiles comes strictly before the next.  So the selection among them
    depends on the map's iteration order. *)
Theorem profile_less_cyclic `{GoUnicode} :
  exists a b c : ModelProfile, MP_Priority a = MP_Priority b ∧ MP_Priority b = MP_Priority c
    ∧ profile_less a b = true ∧ profile_less b c = true ∧ profile_less c a = true.
Proof.
  exists (mkProfile "m1" "a" 1 0 0 true ∅ 0), (mkProfile "m2" "A" 1 0 0 true ∅ 0),
    (mkProfile "m0" "B" 1 0 0 true ∅ 0).
  unfold profile_less. cbn [MP_Provider MP_Priority MP_ID].
  rewrite !EqualFold_ascii by reflexivity. by vm_compute.
Qed.

(** ** Failure windows *)

Section windows.
Context `{FloatConversion} `{GoUnicode}.

Lemma window_open_true until now : 0 < until -> now < until -> window_open until now = true.
Proof.
  intros. unfold window_open, IsZero, After, zeroTime.
  rewrite bool_decide_eq_false_2 by lia. by rewrite bool_decide_eq_true_2.
Qed.

Lemma window_closed until now :
  IsZero until || negb (After until now) = negb (window_open until now).
Proof. unfold window_open. by destruct (IsZero until), (After until now). Qed.

Lemma clear_expired_cooldown t st :
  PF_CooldownUntil (clear_expired t st)
  = if window_open (PF_CooldownUntil st) t then PF_CooldownUntil st else zeroTime.
Proof.
  unfold clear_expired, window_open. destruct (IsZero (PF_CooldownUntil st)) eqn:E; simpl.
  - unfold IsZero in E. apply bool_decide_eq_true in E. by destruct (negb _ && _).
  - destruct (After (PF_CooldownUntil st) t); simpl; by destruct (negb _ && _).
Qed.

(** The cooldown a transient failure leaves. *)
Lemma record_failure_cooldown now reason st :
  IsTransient reason = true ->
  PF_CooldownUntil (record_failure now reason st) =
  if window_open (PF_CooldownUntil st) now then PF_CooldownUntil st
  else now + TransientCooldown (wrap64 (default 0 (PF_FailureCounts st !! reason) + 1)).
Proof.
  intros Ht. unfold record_failure. rewrite Ht. simpl. rewrite window_closed.
  by destruct (window_open (PF_CooldownUntil st) now).
Qed.

Lemma report_stats now r id reason p :
  rt_profiles r !! id = Some p ->
  reportFailureWithReason now r id reason
  = (mkRouter (rt_profiles r)
       (<[id := record_failure now reason (default empty_stats (rt_failureStats r !! id))]>
          (rt_failureStats r)) (rt_defaultCooldown r), None).
Proof. intros Hp. unfold reportFailureWithReason. by rewrite Hp. Qed.

Lemma not_compatible_cooling t r p req st :
  rt_failureStats r !! MP_ID p = Some st -> window_open (PF_CooldownUntil st) t = true ->
  isCompatible t r p req = false.
Proof.
  intros Hs Hw. unfold isCompatible. rewrite Hs, Hw. simpl.
  by destruct (MP_Enabled p).
Qed.
End windows.

(** cooldowns.  A transient failure of a known model outside a cooldown, with
    fewer than nineteen failures of the kind on record, makes the model
    unusable for any request exactly until the backoff of the new count has
    passed; a further transient failure in that time does not extend the
    cooldown; when it has passed, selecting clears it; and the records of other
    models are not touched. *)
Theorem failure_cooldown `{FloatConversion} (now : Time) (r r' : InMemoryRouter)
    (p : ModelProfile) (reason : FailureReason)
    (st0 := default empty_stats (rt_failureStats r !! MP_ID p))
    (n := default 0 (PF_FailureCounts st0 !! reason)) (until := now + TransientCooldown (n + 1)) :
  0 <= now -> rt_profiles r !! MP_ID p = Some p -> IsTransient reason = true -> 0 <= n < 19 ->
  window_open (PF_CooldownUntil st0) now = false ->
  reportFailureWithReason now r (MP_ID p) reason = (r', None) ->
  now < until <= now + 30 * Minute
  ∧ (forall t req, t < until -> isCompatible t (clearExpiredCooldowns t r') p req = false)
  ∧ (forall t st, until <= t -> rt_failureStats (clearExpiredCooldowns t r') !! MP_ID p = Some st ->
       PF_CooldownUntil st = zeroTime)
  ∧ (forall t reason', t < until -> IsTransient reason' = true ->
       PF_CooldownUntil <$> (rt_failureStats (reportFailureWithReason t r' (MP_ID p) reason').1
         !! MP_ID p) = Some until)
  ∧ (forall id, id ≠ MP_ID p -> rt_failureStats r' !! id = rt_failureStats r !! id).
Proof.
  intros Hnow Hp Ht Hn Hw Hr. rewrite (report_stats now r _ reason p Hp) in Hr. fold st0 in Hr.
  pose proof (TransientCooldown_bounds (n + 1) ltac:(lia)) as Hb.
  assert (Hu : PF_CooldownUntil (record_failure now reason st0) = until).
  { rewrite record_failure_cooldown by done. rewrite Hw. unfold until.
    rewrite wrap64_id; [done|]. unfold in_int64, min_int64, max_int64. fold n. lia. }
  assert (Hl : rt_failureStats r' !! MP_ID p = Some (record_failure now reason st0))
    by (injection Hr as <-; apply lookup_insert_eq).
  assert (Hpos : 0 < until) by (unfold until; lia).
  split_and!; [unfold until; lia..| | | |].
  - intros t req Hlt. eapply not_compatible_cooling.
    + unfold clearExpiredCooldowns. simpl. rewrite lookup_fmap, Hl. reflexivity.
    + rewrite clear_expired_cooldown, Hu. by rewrite (window_open_true until t), window_open_true.
  - intros t st Hge. unfold clearExpiredCooldowns. simpl. rewrite lookup_fmap, Hl.
    intros [= <-]. rewrite clear_expired_cooldown, Hu. unfold window_open, After.
    rewrite (bool_decide_eq_false_2 (t < until)) by lia. by rewrite andb_false_r.
  - intros t reason' Hlt Ht'.
    assert (rt_profiles r' !! MP_ID p = Some p) as Hp' by (by injection Hr as <-).
    rewrite (report_stats t r' _ reason' p Hp'). simpl. rewrite lookup_insert_eq, Hl. simpl.
    rewrite record_failure_cooldown by done. by rewrite Hu, window_open_true.
  - intros id Hne. injection Hr as <-. simpl. by rewrite lookup_insert_ne.
Qed.

(** ** Examples *)

Definition demo_profiles : list ModelProfile :=
  [ mkProfile "fast" "acme" 10 8000 1000 true ∅ 0; mkProfile "big" "acme" 5 200000 4000 true ∅ 0;
    mkProfile "other" "zeta" 20 200000 0 true ∅ 0 ].

Definition demo_router : InMemoryRouter := NewInMemoryRouter demo_profiles 0.

Definition demo_request : RouteRequest := mkRequest "fast" ["chat"] 100000 0.

(** An arbitrary choice for the conversions that do not occur below. *)
Definition demo_float : FloatConversion :=
  {| inexact_seconds := fun _ => 0; inexact_nanoseconds := fun _ => 0 |}.

Lemma demo_router_wf : router_wf demo_router.
Proof.
  intros id p. unfold demo_router, NewInMemoryRouter. simpl.
  rewrite !lookup_insert_Some, lookup_empty. naive_solver.
Qed.

(** The profiles in one order in which the map may be visited. *)
Definition demo_entries : list ModelProfile := reverse (normalizeProfile <$> demo_profiles).

Lemma demo_entries_perm : demo_entries ≡ₚ (map_to_list (rt_profiles demo_router)).*2.
Proof.
  unfold demo_router, NewInMemoryRouter. cbn [demo_profiles foldl rt_profiles].
  rewrite !decide_False by done. cbn [fst snd rt_profiles MP_ID].
  rewrite !map_to_list_insert, map_to_list_empty
    by (rewrite ?lookup_insert_ne by done; apply lookup_empty).
  reflexivity.
Qed.

Lemma demo_consistent : @providers_consistent ascii_unicode demo_entries.
Proof.
  intros a b Ha Hb. unfold demo_entries in *. simpl in Ha, Hb.
  repeat (apply elem_of_cons in Ha as [->|Ha]); try (by apply elem_of_nil in Ha);
    repeat (apply elem_of_cons in Hb as [->|Hb]); try (by apply elem_of_nil in Hb); done.
Qed.

Lemma SelectModel_best_witness :
  exists r1 d, @SelectModel ascii_unicode 5 demo_entries demo_router demo_request = (r1, inl d)
    ∧ MP_ID (Dec_Model d) = "big"
    ∧ usable 5 (clearExpiredCooldowns 5 demo_router) demo_request (Dec_Model d).
Proof.
  pose proof (@SelectModel_best ascii_unicode 5 demo_router demo_request demo_entries
    demo_router_wf demo_entries_perm demo_consistent) as HB.
  destruct (@SelectModel ascii_unicode 5 demo_entries demo_router demo_request)
    as [r1 [d|e]] eqn:E; [|vm_compute in E; discriminate].
  exists r1, d. split; [done|]. split; [|apply HB].
  vm_compute in E. injection E as _ <-. reflexivity.
Defined.

Lemma failure_cooldown_witness :
  exists r', @reportFailureWithReason demo_float 1000 demo_router "fast" FailureTimeout
             = (r', None)
    ∧ isCompatible (1000 + 19 * Second)
        (clearExpiredCooldowns (1000 + 19 * Second) r')
        (normalizeProfile (mkProfile "fast" "acme" 10 8000 1000 true ∅ 0))
        (mkRequest "" [] 0 0) = false.
Proof.
  eexists. split; [reflexivity|].
  refine (proj1 (proj2 (@failure_cooldown demo_float 1000 demo_router _
    (normalizeProfile (mkProfile "fast" "acme" 10 8000 1000 true ∅ 0)) FailureTimeout
    _ _ _ _ _ _)) _ _ _); try reflexivity; done.
Defined.
