(* ===== verification/EventBus.v ===== *)
(** * The in-memory event bus ([eventbus/bus.go])

    The bus keeps a bounded history of the published events, calls its sinks
    and fans every event out to channel subscriptions without blocking.  Sinks
    are functions from an event to an error; subscriptions live in a heap, the
    bus holds pointers to them.  A buffered channel is the list of the events
    waiting in it. *)
From S2P Require Import Prelude GoLib RunStore.
Import Str GoTime GoInt.

(** ** Data *)

Definition EventType := string.

Record Event := mkEvent {
  Ev_ID : string;
  Ev_Type : EventType;
  Ev_RunID : string;
  Ev_SessionID : string;
  Ev_Time : Time;
  Ev_Attrs : option (list (string * GoAny.Any))
}.

Record Subscription := mkSub {
  sub_ch : list Event;          (* waiting in the channel *)
  sub_cap : nat;                (* its buffer size *)
  sub_closed : bool;
  sub_drops : Z;
  sub_lastDrop : Time
}.

Definition Sink := Event -> option string.

Record InMemoryBus := mkBus {
  bus_nextID : Z;
  bus_events : list Event;
  bus_sinks : list Sink;
  bus_subs : list nat;
  bus_heap : gmap nat Subscription;
  bus_max : Z
}.

Definition NewInMemoryBusWithLimit (limit : Z) : InMemoryBus :=
  mkBus 0 [] [] [] ∅ (if decide (limit <= 0)%Z then 1000 else limit).

Definition NewInMemoryBus : InMemoryBus := NewInMemoryBusWithLimit 1000.

(** ** Publishing *)

(** [trySend]: the subscription, and whether the event was dropped. *)
Definition trySend (now : Time) (event : Event) (s : Subscription) : Subscription * bool :=
  if sub_closed s then (s, false)
  else if decide (length (sub_ch s) < sub_cap s) then
    (mkSub (sub_ch s ++ [event]) (sub_cap s) (sub_closed s) (sub_drops s) (sub_lastDrop s), false)
  else
    (mkSub (sub_ch s) (sub_cap s) (sub_closed s) ((sub_drops s + 1) mod 2 ^ 64)%Z now, true).

(** The event with the fields the bus fills in. *)
Definition complete_event (now : Time) (n : Z) (e : Event) : Event :=
  mkEvent (if decide (Ev_ID e = "") then "evt-" +:+ fmt_06d (Z.to_N n) else Ev_ID e)
    (Ev_Type e) (Ev_RunID e) (Ev_SessionID e)
    (if IsZero (Ev_Time e) then now else Ev_Time e)
    (match Ev_Attrs e with None => Some [] | a => a end).

(** The history after an event. *)
Definition store_event (max : Z) (events : list Event) (e : Event) : list Event :=
  if decide (0 < max /\ max <= Z.of_nat (length events))%Z then tail events ++ [e]
  else events ++ [e].

Definition fan_out (now : Time) (e : Event) (heap : gmap nat Subscription) (subs : list nat)
    : gmap nat Subscription :=
  foldl (fun heap p => alter (fun s => (trySend now e s).1) p heap) heap subs.

(** [Publish]: the bus, the event as stored, and the errors of the sinks. *)
Definition Publish (now : Time) (b : InMemoryBus) (e : Event)
    : InMemoryBus * Event * list string :=
  let n := if decide (Ev_ID e = "") then next_counter (bus_nextID b) else bus_nextID b in
  let e := complete_event now n e in
  (mkBus n (store_event (bus_max b) (bus_events b) e) (bus_sinks b) (bus_subs b)
     (fan_out now e (bus_heap b) (bus_subs b)) (bus_max b),
   e, omap (fun sink => sink e) (bus_sinks b)).

Definition Subscribe (b : InMemoryBus) (sink : option Sink) : InMemoryBus :=
  match sink with
  | None => b
  | Some s => mkBus (bus_nextID b) (bus_events b) (bus_sinks b ++ [s]) (bus_subs b) (bus_heap b)
                (bus_max b)
  end.

(** [SubscribeChannel]: the bus and the pointer to the new subscription. *)
Definition SubscribeChannel (b : InMemoryBus) (bufSize : Z) : InMemoryBus * nat :=
  let cap := if decide (bufSize <= 0)%Z then 64%Z else bufSize in
  let p := fresh (dom (bus_heap b)) in
  (mkBus (bus_nextID b) (bus_events b) (bus_sinks b) (bus_subs b ++ [p])
     (<[p := mkSub [] (Z.to_nat cap) false 0 zeroTime]> (bus_heap b)) (bus_max b), p).

(** [Close] of a subscription. *)
Definition CloseSub (b : InMemoryBus) (p : nat) : InMemoryBus :=
  mkBus (bus_nextID b) (bus_events b) (bus_sinks b)
    (match list_find (fun q => q = p) (bus_subs b) with
     | Some (i, _) => take i (bus_subs b) ++ drop (S i) (bus_subs b)
     | None => bus_subs b
     end)
    (alter (fun s => if sub_closed s then s
                     else mkSub (sub_ch s) (sub_cap s) true (sub_drops s) (sub_lastDrop s))
       p (bus_heap b)) (bus_max b).

(** A receive from the subscription's channel. *)
Definition Receive (b : InMemoryBus) (p : nat) : InMemoryBus * option Event :=
  match bus_heap b !! p with
  | Some s =>
    match sub_ch s with
    | e :: rest =>
      (mkBus (bus_nextID b) (bus_events b) (bus_sinks b) (bus_subs b)
         (<[p := mkSub rest (sub_cap s) (sub_closed s) (sub_drops s) (sub_lastDrop s)]>
            (bus_heap b)) (bus_max b), Some e)
    | [] => (b, None)
    end
  | None => (b, None)
  end.

(** ** Reading the history *)

Definition Snapshot (b : InMemoryBus) : list Event := bus_events b.

Inductive CursorStatus := CursorOK | CursorExpired | CursorEmpty.

Record CursorResult := mkCursor {
  Cur_Events : list Event;
  Cur_Status : CursorStatus;
  Cur_Next : string
}.

Definition lastEventID (events : list Event) : string := from_option Ev_ID "" (last events).

(** At most [limit] events from the end, or from the start, of a list. *)
Definition limit_last (limit : Z) (l : list Event) : list Event :=
  if decide (0 < limit /\ limit < Z.of_nat (length l))%Z then
    drop (length l - Z.to_nat limit) l
  else l.
Definition limit_first (limit : Z) (l : list Event) : list Event :=
  if decide (0 < limit /\ limit < Z.of_nat (length l))%Z then take (Z.to_nat limit) l else l.

(** The events after the first one with the identifier, when there is one. *)
Definition after_cursor (sinceID : string) (l : list Event) : option (list Event) :=
  match list_find (fun e => Ev_ID e = sinceID) l with
  | Some (i, _) => Some (drop (S i) l)
  | None => None
  end.

Definition SnapshotSince (b : InMemoryBus) (sinceID : string) (limit : Z) : list Event :=
  if decide (sinceID = "") then limit_last limit (bus_events b)
  else limit_first limit (default (bus_events b) (after_cursor sinceID (bus_events b))).

Definition SnapshotSinceWithStatus (b : InMemoryBus) (sinceID : string) (limit : Z)
    : CursorResult :=
  if decide (sinceID = "") then
    let out := limit_last limit (bus_events b) in mkCursor out CursorEmpty (lastEventID out)
  else
    let found := after_cursor sinceID (bus_events b) in
    let out := limit_first limit (default (bus_events b) found) in
    mkCursor out (match found with Some _ => CursorOK | None => CursorExpired end)
      (lastEventID out).

(** A reader that follows the cursor, keeping its own when a page is empty. *)
Fixpoint follow (pages : nat) (b : InMemoryBus) (cursor : string) (limit : Z) : list Event :=
  match pages with
  | O => []
  | S pages =>
    let r := SnapshotSinceWithStatus b cursor limit in
    match Cur_Events r with
    | [] => []
    | out => out ++ follow pages b (Cur_Next r) limit
    end
  end.

(** ** The history is the most recent events *)

Definition last_n (n : nat) (l : list Event) : list Event := drop (length l - n) l.

(** Publishing one event after the other; the events as stored. *)
Fixpoint publish_all (b : InMemoryBus) (evs : list (Time * Event)) : InMemoryBus * list Event :=
  match evs with
  | [] => (b, [])
  | (now, e) :: evs =>
    let '(b, e, _) := Publish now b e in
    let '(b, out) := publish_all b evs in (b, e :: out)
  end.

Lemma store_event_last max l e :
  (0 < max)%Z ->
  store_event max (last_n (Z.to_nat max) l) e = last_n (Z.to_nat max) (l ++ [e]).
Proof.
  intros Hm. unfold store_event, last_n. rewrite length_drop, length_app. simpl.
  case_decide as Hd.
  - change (tail ?x) with (drop 1 x). rewrite drop_drop, drop_app_le by lia. do 2 f_equal. lia.
  - rewrite drop_app_le by lia. do 2 f_equal. lia.
Qed.

Lemma publish_all_app b evs1 evs2 :
  publish_all b (evs1 ++ evs2) =
  let '(b1, out1) := publish_all b evs1 in
  let '(b2, out2) := publish_all b1 evs2 in (b2, out1 ++ out2).
Proof.
  revert b. induction evs1 as [|[now e] evs1 IH]; intros b; [simpl; by destruct (publish_all b evs2)|].
  cbn [publish_all app]. destruct (Publish now b e) as [[b1 e'] errs]. rewrite IH.
  destruct (publish_all b1 evs1) as [b2 o1]. by destruct (publish_all b2 evs2).
Qed.

Lemma publish_all_history b evs b' out past :
  publish_all b evs = (b', out) -> (0 < bus_max b)%Z ->
  bus_events b = last_n (Z.to_nat (bus_max b)) past ->
  bus_max b' = bus_max b /\ bus_events b' = last_n (Z.to_nat (bus_max b)) (past ++ out).
Proof.
  revert b out past. induction evs as [|[now e] evs IH]; intros b out past H Hm Hp.
  - simplify_eq/=. by rewrite app_nil_r.
  - cbn [publish_all] in H. destruct (Publish now b e) as [[b1 e'] errs] eqn:Hpub.
    destruct (publish_all b1 evs) as [b2 o] eqn:Hrest. simplify_eq.
    unfold Publish in Hpub. simplify_eq.
    apply (IH _ _ (past ++ [complete_event now (if decide (Ev_ID e = "")
      then next_counter (bus_nextID b) else bus_nextID b) e])) in Hrest as [-> ->]; simpl.
    + by rewrite <- app_assoc.
    + done.
    + by rewrite Hp, store_event_last.
Qed.

Lemma publish_all_length b evs b' out : publish_all b evs = (b', out) -> length out = length evs.
Proof.
  revert b out. induction evs as [|[now e] evs IH]; intros b0 out H; [by simplify_eq/=|].
  cbn [publish_all] in H. destruct (Publish now b0 e) as [[b1 e'] errs].
  destruct (publish_all b1 evs) eqn:Hr. simplify_eq/=. f_equal. by eapply IH.
Qed.

Lemma new_bus_max limit : (0 < bus_max (NewInMemoryBusWithLimit limit))%Z.
Proof. simpl. case_decide; lia. Qed.

(** The identifiers the bus assigns. *)
Definition event_id (n : nat) : string := "evt-" +:+ fmt_06d (N.of_nat n).

#[export] Instance event_id_inj : Inj (=) (=) event_id.
Proof. intros m n H. apply (inj (String.append "evt-")), (inj fmt_06d) in H. lia. Qed.

Lemma publish_all_ids b evs b' out :
  publish_all b evs = (b', out) -> Forall (fun te => Ev_ID te.2 = "") evs ->
  (0 <= bus_nextID b)%Z -> (bus_nextID b + Z.of_nat (length evs) < 2 ^ 64)%Z ->
  bus_nextID b' = (bus_nextID b + Z.of_nat (length evs))%Z /\
  Ev_ID <$> out = event_id <$> seq (S (Z.to_nat (bus_nextID b))) (length evs).
Proof.
  revert b out. induction evs as [|[now e] evs IH]; intros b out H HE H0 Hb.
  { simplify_eq/=. split; [lia|done]. }
  cbn [publish_all] in H. destruct (Publish now b e) as [[b1 e'] errs] eqn:Hpub.
  destruct (publish_all b1 evs) as [b2 o] eqn:Hrest. simplify_eq.
  apply Forall_cons in HE as [He HE]. simpl in He, Hb.
  unfold Publish in Hpub. rewrite decide_True in Hpub by done. simplify_eq.
  assert (Hn : next_counter (bus_nextID b) = (bus_nextID b + 1)%Z)
    by (apply next_counter_small; lia).
  apply IH in Hrest as [-> Ho]; [|done|simpl; lia..]. simpl bus_nextID in *. rewrite Hn in *.
  split; [simpl; lia|]. cbn [fmap list_fmap length seq]. rewrite Ho. f_equal.
  - unfold event_id. simpl Ev_ID. rewrite decide_True by done. do 2 f_equal. lia.
  - do 2 f_equal. lia.
Qed.

(** Publishing any sequence of events on a new bus leaves in its history
    exactly the most recent ones, as stored and in order, at most [max] of
    them; when the events come without identifiers, fewer than 2^64 of them,
    the identifiers the bus assigns are [evt-000001], [evt-000002] and so on,
    all distinct. *)
Theorem published_history limit evs b out :
  publish_all (NewInMemoryBusWithLimit limit) evs = (b, out) ->
  let max := if decide (limit <= 0)%Z then 1000%Z else limit in
  Snapshot b = drop (length out - Z.to_nat max) out /\
  (Z.of_nat (length (Snapshot b)) <= max)%Z /\ length out = length evs /\
  (Forall (fun te => Ev_ID te.2 = "") evs -> (Z.of_nat (length evs) < 2 ^ 64)%Z ->
   Ev_ID <$> out = event_id <$> seq 1 (length evs) /\ NoDup (Ev_ID <$> Snapshot b)).
Proof.
  intros H max. pose proof (new_bus_max limit) as Hmax. simpl in Hmax. fold max in Hmax.
  destruct (publish_all_history _ _ _ _ [] H (new_bus_max limit)) as [_ Hev]; [done|].
  simpl in Hev. fold max in Hev. unfold last_n in Hev.
  assert (Hlen : length out = length evs).
  { by eapply publish_all_length. }
  unfold Snapshot. split_and!; [done| |done|].
  - rewrite Hev, length_drop. lia.
  - intros HE Hb. destruct (publish_all_ids _ _ _ _ H HE) as [_ Ho]; [simpl; lia..|].
    simpl in Ho. split; [done|]. rewrite Hev, fmap_drop, Ho.
    eapply sublist_NoDup; [|apply sublist_drop]. apply NoDup_fmap_2; [apply _|].
    apply NoDup_seq.
Qed.

Lemma published_history_witness :
  let e := mkEvent "" "run.started" "r" "s" zeroTime None in
  let r := publish_all (NewInMemoryBusWithLimit 2) (replicate 3 (5%Z, e)) in
  Snapshot r.1 = drop 1 r.2 /\ NoDup (Ev_ID <$> Snapshot r.1).
Proof.
  intros e r.
  destruct (published_history 2 (replicate 3 (5%Z, e)) r.1 r.2) as (H1 & _ & _ & H2);
    [apply surjective_pairing|].
  split; [apply H1|]. apply H2; [|done]. by repeat constructor.
Defined.

(** ** Reading by cursor *)

Lemma list_find_id l1 e l2 :
  NoDup (Ev_ID <$> (l1 ++ e :: l2)) ->
  list_find (fun e' => Ev_ID e' = Ev_ID e) (l1 ++ e :: l2) = Some (length l1, e).
Proof.
  intros Hnd. apply list_find_Some. split_and!; [by apply list_lookup_middle|done|].
  intros j e' Hj Hlt Heq. rewrite lookup_app_l in Hj by done.
  rewrite fmap_app, NoDup_app in Hnd. destruct Hnd as (_ & Hnd & _).
  apply (Hnd (Ev_ID e')); [apply list_elem_of_fmap; eauto using list_elem_of_lookup_2|].
  rewrite Heq. simpl. by left.
Qed.

Lemma after_cursor_spec l1 e l2 :
  NoDup (Ev_ID <$> (l1 ++ e :: l2)) -> after_cursor (Ev_ID e) (l1 ++ e :: l2) = Some l2.
Proof.
  intros Hnd. unfold after_cursor. rewrite list_find_id by done. f_equal.
  by rewrite (cons_middle e), app_assoc, drop_app_length' by (rewrite length_app; simpl; lia).
Qed.

Lemma after_cursor_gone c l : c ∉ Ev_ID <$> l -> after_cursor c l = None.
Proof.
  intros Hc. unfold after_cursor.
  destruct (list_find _ l) as [[i e]|] eqn:Hf; [|done]. destruct Hc.
  apply list_find_Some in Hf as (Hl & <- & _).
  apply list_elem_of_fmap. eauto using list_elem_of_lookup_2.
Qed.

(** A page of a list with events is not empty and the list begins with it. *)
Lemma limit_first_split limit l :
  l <> [] -> exists p e r, limit_first limit l = p ++ [e] /\ l = p ++ e :: r.
Proof.
  intros Hl. assert (exists page rest, limit_first limit l = page /\ l = page ++ rest /\ page <> [])
    as (page & rest & -> & -> & Hp).
  { unfold limit_first. case_decide as Hd.
    - exists (take (Z.to_nat limit) l), (drop (Z.to_nat limit) l).
      rewrite take_drop. split_and!; [done..|]. intros Hn. apply (f_equal length) in Hn.
      rewrite length_take in Hn. simpl in Hn. lia.
    - exists l, []. by rewrite app_nil_r. }
  destruct (exists_last Hp) as (p & e & ->). exists p, e, rest. by rewrite <- app_assoc.
Qed.

Lemma lastEventID_snoc p e : lastEventID (p ++ [e]) = Ev_ID e.
Proof. unfold lastEventID. by rewrite last_snoc. Qed.

(** The histories cursors work on: distinct identifiers, none of them empty. *)
Definition event_ids_ok (l : list Event) : Prop :=
  NoDup (Ev_ID <$> l) /\ Forall (fun e => Ev_ID e <> "") l.

Lemma follow_from b limit l1 e l2 pages :
  event_ids_ok (bus_events b) -> bus_events b = l1 ++ e :: l2 -> length l2 <= pages ->
  follow pages b (Ev_ID e) limit = l2.
Proof.
  intros [Hnd Hne]. revert l1 e l2. induction pages as [|pages IH]; intros l1 e l2 Hb Hp.
  { by destruct l2; [|simpl in Hp; lia]. }
  cbn [follow]. unfold SnapshotSinceWithStatus. rewrite decide_False; last first.
  { rewrite Forall_forall in Hne. apply Hne. rewrite Hb. set_solver. }
  rewrite Hb, after_cursor_spec by (by rewrite <- Hb). cbn [Cur_Events Cur_Next default from_option]; unfold id.
  destruct (decide (l2 = [])) as [->|Hl2].
  { unfold limit_first. case_decide; [simpl in *; lia|done]. }
  destruct (limit_first_split limit l2 Hl2) as (p & e' & r & Hpage & ->).
  rewrite Hpage, lastEventID_snoc.
  rewrite (IH (l1 ++ e :: p) e' r); last first.
  { rewrite length_app in Hp. simpl in Hp. lia. }
  { by rewrite Hb, <- app_assoc. }
  destruct (p ++ [e']) eqn:Hx; [by destruct p|]. by rewrite <- Hx, <- app_assoc.
Qed.

Lemma follow_expired b limit c pages :
  event_ids_ok (bus_events b) -> c <> "" -> c ∉ Ev_ID <$> bus_events b ->
  length (bus_events b) <= pages -> follow pages b c limit = bus_events b.
Proof.
  intros Hok Hc Hn Hp. destruct pages as [|pages].
  { by destruct (bus_events b); [|simpl in Hp; lia]. }
  cbn [follow]. unfold SnapshotSinceWithStatus. rewrite decide_False by done.
  rewrite after_cursor_gone by done. cbn [Cur_Events Cur_Next default from_option]; unfold id.
  destruct (decide (bus_events b = [])) as [E|Hl2].
  { rewrite E. unfold limit_first. case_decide; [simpl in *; lia|done]. }
  destruct (limit_first_split limit _ Hl2) as (p & e' & r & Hpage & E).
  rewrite Hpage, lastEventID_snoc, (follow_from b limit p e' r); [|done..|]; last first.
  { rewrite E, length_app in Hp. simpl in Hp. lia. }
  destruct (p ++ [e']) eqn:Hx; [by destruct p|]. by rewrite <- Hx, <- app_assoc.
Qed.

Lemma event_id_nonempty n : event_id n <> "".
Proof. done. Qed.

Lemma assigned_event_ids_ok l k n : Ev_ID <$> l = event_id <$> seq k n -> event_ids_ok l.
Proof.
  intros H. split.
  - rewrite H. apply NoDup_fmap_2; [apply _|]. apply NoDup_seq.
  - apply Forall_forall. intros e He E.
    assert (Hin : Ev_ID e ∈ event_id <$> seq k n) by (rewrite <- H; by apply list_elem_of_fmap_2).
    rewrite E in Hin. apply list_elem_of_fmap in Hin as (i & Hi & _).
    by apply (event_id_nonempty i).
Qed.

Lemma event_ids_ok_drop n l : event_ids_ok l -> event_ids_ok (drop n l).
Proof.
  intros [H1 H2]. split; [|by apply Forall_drop].
  rewrite fmap_drop. eapply sublist_NoDup; [done|apply sublist_drop].
Qed.

Lemma lastEventID_limit_last page p e : lastEventID (limit_last page (p ++ [e])) = Ev_ID e.
Proof.
  unfold limit_last. case_decide; [|apply lastEventID_snoc].
  rewrite drop_app_le; [apply lastEventID_snoc|]. rewrite length_app. simpl. lia.
Qed.

Lemma last_n_snoc n p e : 0 < n -> exists q, last_n n (p ++ [e]) = q ++ [e].
Proof.
  intros. unfold last_n. rewrite drop_app_le; [by eexists|]. rewrite length_app. simpl. lia.
Qed.

(** The status and the stream of a reader whose cursor is the event [e], in a
    history of [n] events that ends [p ++ e :: new]. *)
Lemma resume_stream b p e new n page pages :
  event_ids_ok (p ++ e :: new) -> bus_events b = last_n n (p ++ e :: new) -> length new <= pages ->
  let r := SnapshotSinceWithStatus b (Ev_ID e) page in
  (length new < n -> Cur_Status r = CursorOK /\ follow pages b (Ev_ID e) page = new) /\
  (n <= length new ->
   Cur_Status r = CursorExpired /\ follow pages b (Ev_ID e) page = last_n n new).
Proof.
  intros Hok Hb Hp r.
  assert (Hc : Ev_ID e <> "") by (destruct Hok as [_ H]; rewrite Forall_forall in H;
    apply H; set_solver).
  assert (Hokb : event_ids_ok (bus_events b)) by (rewrite Hb; by apply event_ids_ok_drop).
  subst r. unfold SnapshotSinceWithStatus. rewrite decide_False by done. cbn [Cur_Status].
  unfold last_n in *. rewrite length_app in Hb. simpl in Hb. split; intros Hn.
  - rewrite drop_app_le in Hb by lia. split; [|by eapply follow_from].
    rewrite Hb, after_cursor_spec; [done|]. rewrite <- Hb. apply Hokb.
  - assert (E : bus_events b = drop (length new - n) new).
    { rewrite Hb, (cons_middle e), app_assoc, drop_app_ge; rewrite length_app; simpl; [|lia].
      f_equal. lia. }
    assert (Hgone : Ev_ID e ∉ Ev_ID <$> bus_events b).
    { rewrite E, fmap_drop. intros Hin. apply (subseteq_drop _ (Ev_ID <$> new)) in Hin.
      destruct Hok as [Hnd _]. rewrite fmap_app, NoDup_app in Hnd.
      destruct Hnd as (_ & _ & Hnd). by apply NoDup_cons in Hnd as [? _]. }
    rewrite after_cursor_gone by done. split; [done|]. rewrite <- E.
    apply follow_expired; [done..|]. rewrite E, length_drop. lia.
Qed.

(** Cursors lose and repeat nothing that is retained: a reader that takes
    the cursor of any latest-events page and comes back after more events were
    published gets, by following the cursor page by page with whatever page
    size, exactly the newly published events in order with status ok when
    fewer than [max] events came in between; otherwise the status of the first
    page says that the cursor expired and the reader gets exactly the last
    [max] events. *)
Theorem resume_after_publish limit evs0 evs1 b0 o0 b1 o1 page pages :
  publish_all (NewInMemoryBusWithLimit limit) evs0 = (b0, o0) ->
  publish_all b0 evs1 = (b1, o1) ->
  evs0 <> [] -> Forall (fun te => Ev_ID te.2 = "") (evs0 ++ evs1) ->
  (Z.of_nat (length (evs0 ++ evs1)) < 2 ^ 64)%Z -> length evs1 <= pages ->
  let max := Z.to_nat (bus_max b0) in
  let cursor := Cur_Next (SnapshotSinceWithStatus b0 "" page) in
  let r := SnapshotSinceWithStatus b1 cursor page in
  (length evs1 < max -> Cur_Status r = CursorOK /\ follow pages b1 cursor page = o1) /\
  (max <= length evs1 ->
   Cur_Status r = CursorExpired /\ follow pages b1 cursor page = last_n max o1).
Proof.
  intros H0 H1 Hne Hids Hlen Hp max cursor r.
  pose proof (new_bus_max limit) as Hpos.
  destruct (publish_all_history _ _ _ _ [] H0 Hpos eq_refl) as [Hm0 He0].
  assert (H01 : publish_all (NewInMemoryBusWithLimit limit) (evs0 ++ evs1) = (b1, o0 ++ o1))
    by (by rewrite publish_all_app, H0, H1).
  destruct (publish_all_history _ _ _ _ [] H01 Hpos eq_refl) as [_ He1].
  destruct (publish_all_ids _ _ _ _ H01 Hids) as [_ Hid]; [simpl; lia..|].
  apply assigned_event_ids_ok in Hid.
  assert (length o0 = length evs0) as L0 by (by eapply publish_all_length).
  assert (length o1 = length evs1) as L1 by (by eapply publish_all_length).
  assert (o0 <> []) as Ho0 by (intros ->; by destruct evs0).
  destruct (exists_last Ho0) as (p & e & ->).
  rewrite <- Hm0 in He0, He1. fold max in He0, He1. cbn [app] in He0, He1.
  destruct (last_n_snoc max p e) as [q Hq]; [subst max; lia|].
  assert (Hcur : cursor = Ev_ID e).
  { subst cursor. unfold SnapshotSinceWithStatus. rewrite decide_True by done.
    cbn [Cur_Next]. by rewrite He0, Hq, lastEventID_limit_last. }
  rewrite <- app_assoc in He1, Hid. cbn [app] in He1, Hid. rewrite <- L1. subst r.
  rewrite Hcur. apply (resume_stream b1 p e o1); [done..|lia].
Qed.

Lemma resume_after_publish_witness :
  let e := mkEvent "" "run.started" "r" "s" zeroTime None in
  let r0 := publish_all (NewInMemoryBusWithLimit 3) (replicate 2 (5%Z, e)) in
  let r1 := publish_all r0.1 (replicate 2 (6%Z, e)) in
  let cursor := Cur_Next (SnapshotSinceWithStatus r0.1 "" 1) in
  Cur_Status (SnapshotSinceWithStatus r1.1 cursor 1) = CursorOK /\
  follow 4 r1.1 cursor 1 = r1.2.
Proof.
  intros e r0 r1 cursor.
  apply (resume_after_publish 3 (replicate 2 (5%Z, e)) (replicate 2 (6%Z, e)) r0.1 r0.2 r1.1 r1.2);
    [apply surjective_pairing..|done|by repeat constructor|done|simpl; lia|simpl; lia].
Defined.

(** ** What a subscription delivers *)

Inductive BusOp :=
| OpPublish (now : Time) (e : Event)
| OpSubscribe (sink : option Sink)
| OpSubscribeChannel (bufSize : Z)
| OpClose (q : nat)
| OpReceive (q : nat).

(** One operation: the bus, the event stored, the event received through [p]. *)
Definition bus_step (p : nat) (b : InMemoryBus) (op : BusOp)
    : InMemoryBus * list Event * list Event :=
  match op with
  | OpPublish now e => let '(b, e, _) := Publish now b e in (b, [e], [])
  | OpSubscribe sink => (Subscribe b sink, [], [])
  | OpSubscribeChannel n => ((SubscribeChannel b n).1, [], [])
  | OpClose q => (CloseSub b q, [], [])
  | OpReceive q =>
    let '(b, oe) := Receive b q in (b, [], if decide (q = p) then option_list oe else [])
  end.

Fixpoint bus_run (p : nat) (b : InMemoryBus) (ops : list BusOp)
    : InMemoryBus * list Event * list Event :=
  match ops with
  | [] => (b, [], [])
  | op :: ops =>
    let '(b, pub, rcv) := bus_step p b op in
    let '(b, pubs, rcvs) := bus_run p b ops in (b, pub ++ pubs, rcv ++ rcvs)
  end.

(** The subscriptions are distinct and allocated. *)
Definition bus_wf (b : InMemoryBus) : Prop :=
  NoDup (bus_subs b) /\ forall p, p ∈ bus_subs b -> is_Some (bus_heap b !! p).

Lemma fan_out_lookup now e heap subs p :
  NoDup subs ->
  fan_out now e heap subs !! p =
  if decide (p ∈ subs) then (fun s => (trySend now e s).1) <$> heap !! p else heap !! p.
Proof.
  unfold fan_out. revert heap. induction subs as [|q subs IH]; intros heap Hnd; [done|].
  apply NoDup_cons in Hnd as [Hq Hnd]. cbn [foldl]. rewrite IH by done.
  destruct (decide (p = q)) as [->|Hne].
  - rewrite (decide_False (P := q ∈ subs)), (decide_True (P := q ∈ q :: subs)) by set_solver.
    by rewrite lookup_alter_eq.
  - rewrite lookup_alter_ne by done.
    destruct (decide (p ∈ subs)); [rewrite decide_True by set_solver|rewrite decide_False by set_solver]; done.
Qed.

Lemma remove_sub_spec (subs : list nat) p :
  NoDup subs ->
  let subs' := match list_find (fun q => q = p) subs with
               | Some (i, _) => take i subs ++ drop (S i) subs | None => subs end in
  NoDup subs' /\ forall q, q ∈ subs' <-> q ∈ subs /\ q <> p.
Proof.
  intros Hnd subs'. subst subs'. destruct (list_find _ subs) as [[i q]|] eqn:Hf.
  - apply list_find_Some in Hf as (Hl & -> & _).
    pose proof (take_drop_middle _ _ _ Hl) as E. rewrite <- E in Hnd at 1.
    apply NoDup_app in Hnd as (N1 & N2 & N3). apply NoDup_cons in N3 as [N3 N4]. split.
    + apply NoDup_app. split_and!; [done| |done]. intros x Hx Hd. apply (N2 x Hx). by right.
    + intros q. rewrite <- E at 3. rewrite !elem_of_app, elem_of_cons.
      split; [|naive_solver]. intros [H|H].
      * split; [by left|]. intros ->. apply (N2 p H). by left.
      * split; [by right; right|]. by intros ->.
  - split; [done|]. intros q. apply list_find_None in Hf. rewrite Forall_forall in Hf.
    naive_solver.
Qed.

Lemma bus_step_wf p b op : bus_wf b -> bus_wf (bus_step p b op).1.1.
Proof.
  intros [Hnd Hal]. destruct op as [now e|[sink|]|n|q|q]; simpl; try done.
  - split; [done|]. intros q Hq. cbn [bus_heap bus_subs] in *.
    rewrite fan_out_lookup, decide_True by done. apply fmap_is_Some. by apply Hal.
  - split; simpl.
    + apply NoDup_app. split_and!; [done| |apply NoDup_singleton]. intros q Hq Hin.
      apply list_elem_of_singleton in Hin as ->. apply Hal in Hq.
      apply elem_of_dom in Hq. by apply is_fresh in Hq.
    + intros q Hq. destruct (decide (q = fresh (dom (bus_heap b)))) as [->|Hne].
      * rewrite lookup_insert_eq. eauto.
      * rewrite lookup_insert_ne by done. apply Hal. set_solver.
  - destruct (remove_sub_spec (bus_subs b) q Hnd) as [H1 H2]. split; [done|]. simpl.
    intros r Hr. apply H2 in Hr as [Hr Hne]. rewrite lookup_alter_ne by done. by apply Hal.
  - unfold Receive. destruct (bus_heap b !! q) as [s|] eqn:Hs; [|done].
    destruct (sub_ch s); [done|]. split; [done|]. simpl. intros r Hr.
    destruct (decide (r = q)) as [->|]; [rewrite lookup_insert_eq; eauto|].
    rewrite lookup_insert_ne by done. by apply Hal.
Qed.

(** What happens to one open subscription in a step. *)
Definition sub_after (p : nat) (s : Subscription) (op : BusOp) (pub rcv : list Event)
    (s' : Subscription) : Prop :=
  sub_cap s' = sub_cap s /\ sub_closed s' = false /\
  ((pub = [] /\ sub_ch s = rcv ++ sub_ch s' /\ sub_drops s' = sub_drops s) \/
   (rcv = [] /\ length (sub_ch s) < sub_cap s /\ sub_ch s' = sub_ch s ++ pub /\
    length pub = 1 /\ sub_drops s' = sub_drops s) \/
   (rcv = [] /\ sub_ch s' = sub_ch s /\ length pub = 1 /\
    sub_drops s' = ((sub_drops s + 1) mod 2 ^ 64)%Z)).

Lemma bus_step_sub p b op s :
  bus_wf b -> p ∈ bus_subs b -> bus_heap b !! p = Some s -> sub_closed s = false ->
  op <> OpClose p ->
  let '(b', pub, rcv) := bus_step p b op in
  p ∈ bus_subs b' /\ exists s', bus_heap b' !! p = Some s' /\ sub_after p s op pub rcv s'.
Proof.
  intros [Hnd Hal] Hp Hs Hcl Hop. destruct op as [now e|[sink|]|n|q|q]; simpl; unfold sub_after.
  - split; [done|]. rewrite fan_out_lookup, decide_True, Hs by done. eexists; split; [done|].
    unfold sub_after, trySend. rewrite Hcl. case_decide; simpl; (split_and!; [done..|]); naive_solver.
  - split; [done|]. exists s. split; [done|]. split_and!; [done..|]. naive_solver.
  - split; [done|]. exists s. split; [done|]. split_and!; [done..|]. naive_solver.
  - split; [set_solver|]. exists s. split; [|split_and!; [done..|]; naive_solver].
    rewrite lookup_insert_ne; [done|]. intros E. apply (is_fresh (dom (bus_heap b))).
    rewrite E. apply elem_of_dom. eauto.
  - destruct (remove_sub_spec (bus_subs b) q Hnd) as [_ H2].
    assert (Hne : p <> q) by congruence. split; [by apply H2|]. exists s.
    rewrite lookup_alter_ne by done. split; [done|]. split_and!; [done..|]. naive_solver.
  - unfold Receive. destruct (bus_heap b !! q) as [t|] eqn:Ht; [destruct (sub_ch t) as [|e rest] eqn:Hch|].
    + split; [done|]. exists s. split; [done|]. split_and!; [done..|]. case_decide; naive_solver.
    + split; [done|]. simpl. case_decide as Hq.
      * subst q. rewrite lookup_insert_eq. simplify_eq. eexists; split; [done|].
        split_and!; [done..|]. left. by rewrite Hch.
      * rewrite lookup_insert_ne by done. exists s. split; [done|]. split_and!; [done..|].
        naive_solver.
    + split; [done|]. exists s. split; [done|]. split_and!; [done..|]. case_decide; naive_solver.
Qed.

Lemma sublist_full {A} (l k : list A) : l `sublist_of` k -> length k <= length l -> l = k.
Proof.
  intros H. induction H as [|x l k H IH|x l k H IH]; simpl; intros Hle; [done| |].
  - rewrite IH; [done|lia].
  - apply sublist_length in H. lia.
Qed.

Lemma bus_run_sub p ops b s b' pubs rcvs :
  bus_wf b -> p ∈ bus_subs b -> bus_heap b !! p = Some s -> sub_closed s = false ->
  OpClose p ∉ ops -> length (sub_ch s) <= sub_cap s -> (0 <= sub_drops s)%Z ->
  (sub_drops s + Z.of_nat (length pubs) < 2 ^ 64)%Z ->
  bus_run p b ops = (b', pubs, rcvs) ->
  exists s', bus_heap b' !! p = Some s' /\ sub_cap s' = sub_cap s /\
    length (sub_ch s') <= sub_cap s' /\
    (sub_drops s <= sub_drops s')%Z /\
    (exists kept, kept `sublist_of` pubs /\ sub_ch s ++ kept = rcvs ++ sub_ch s' /\
       (Z.of_nat (length pubs) = Z.of_nat (length kept) + (sub_drops s' - sub_drops s))%Z).
Proof.
  revert b s pubs rcvs. induction ops as [|op ops IH];
    intros b s pubs rcvs Hwf Hp Hs Hcl Hops Hcap Hd0 Hd Hrun.
  { simplify_eq/=. exists s. split_and!; [done..|lia|]. exists [].
    rewrite app_nil_r. split_and!; [done..|simpl; lia]. }
  cbn [bus_run] in Hrun.
  pose proof (bus_step_sub p b op s Hwf Hp Hs Hcl ltac:(set_solver)) as Hstep.
  pose proof (bus_step_wf p b op Hwf) as Hwf1.
  destruct (bus_step p b op) as [[b1 pub] rcv]. cbn [fst] in Hwf1.
  destruct Hstep as (Hp1 & s1 & Hs1 & Hc1 & Hcl1 & Hcase).
  destruct (bus_run p b1 ops) as [[b2 pubs2] rcvs2] eqn:Hr. simplify_eq.
  rewrite length_app in Hd.
  assert (Hpre : length (sub_ch s1) <= sub_cap s1 /\ (sub_drops s <= sub_drops s1)%Z /\
    exists k, k `sublist_of` pub /\ sub_ch s ++ k = rcv ++ sub_ch s1 /\
    (Z.of_nat (length pub) = Z.of_nat (length k) + (sub_drops s1 - sub_drops s))%Z).
  { destruct Hcase as [(-> & E & ->)|[(-> & Hlt & -> & E & ->)|(-> & -> & E & Ed)]].
    - rewrite E, length_app in Hcap. split_and!; [lia..|]. exists [].
      rewrite app_nil_r. split_and!; [done..|simpl; lia].
    - rewrite length_app. split_and!; [lia..|]. exists pub. split_and!; [done..|lia].
    - rewrite Z.mod_small in Ed by lia. split_and!; [lia..|]. exists [].
      rewrite app_nil_r. split_and!; [apply sublist_nil_l|done|simpl; lia]. }
  destruct Hpre as (Hcap1 & Hd1 & k & Hk1 & Hk2 & Hk3).
  destruct (IH b1 s1 pubs2 rcvs2 Hwf1 Hp1 Hs1 Hcl1 ltac:(set_solver) Hcap1 ltac:(lia) ltac:(lia) Hr)
    as (s2 & Hs2 & Hc2 & Hcap2 & Hd2 & k2 & Hk21 & Hk22 & Hk23).
  exists s2. split_and!; [done|congruence|done|lia|].
  exists (k ++ k2). split_and!; [by apply sublist_app| |rewrite !length_app; lia].
  rewrite app_assoc, Hk2, <- !app_assoc. by rewrite Hk22.
Qed.

(** What a channel subscription delivers, over any sequence of publishes,
    receives, other subscriptions and closes of other subscriptions: the
    events received through it and still waiting in it are published events
    in publication order, its buffer never overflows, and every published
    event is received, waiting or counted as dropped (for fewer than 2^64
    publishes), so with no drops the subscriber misses nothing. *)
Theorem subscription_accounting b0 bufSize b1 p ops b pubs rcvs :
  bus_wf b0 -> SubscribeChannel b0 bufSize = (b1, p) -> OpClose p ∉ ops ->
  bus_run p b1 ops = (b, pubs, rcvs) -> (Z.of_nat (length pubs) < 2 ^ 64)%Z ->
  exists s, bus_heap b !! p = Some s /\
    length (sub_ch s) <= Z.to_nat (if decide (bufSize <= 0)%Z then 64 else bufSize)%Z /\
    rcvs ++ sub_ch s `sublist_of` pubs /\
    (Z.of_nat (length pubs) =
       Z.of_nat (length rcvs) + Z.of_nat (length (sub_ch s)) + sub_drops s)%Z /\
    (sub_drops s = 0%Z -> rcvs ++ sub_ch s = pubs).
Proof.
  intros Hwf Hsub Hops Hrun Hlen.
  pose proof (bus_step_wf 0 b0 (OpSubscribeChannel bufSize) Hwf) as Hwf1.
  cbn [bus_step fst] in Hwf1. rewrite Hsub in Hwf1. cbn [fst] in Hwf1.
  unfold SubscribeChannel in Hsub. simplify_eq.
  edestruct (bus_run_sub (fresh (dom (bus_heap b0))) ops) with (pubs := pubs) as (s & Hs & Hc & Hcap & Hd & k & H1 & H2 & H3);
    [exact Hwf1|simpl; set_solver|apply lookup_insert_eq|done|done|simpl; lia|simpl; lia|simpl; lia|exact Hrun|].
  simpl in H2, H3, Hc. rewrite Hc in Hcap. exists s. rewrite <- H2. split_and!; [done..| |].
  - apply (f_equal length) in H2. rewrite length_app in H2. simpl in H2. lia.
  - intros E. apply sublist_full; [done|lia].
Qed.

Lemma subscription_accounting_witness :
  let e := mkEvent "" "run.started" "r" "s" zeroTime None in
  let sub := SubscribeChannel NewInMemoryBus 1 in
  let ops := [OpPublish 5%Z e; OpPublish 6%Z e; OpReceive sub.2; OpPublish 7%Z e] in
  let r := bus_run sub.2 sub.1 ops in
  length r.2 = 1 /\
  exists s, bus_heap r.1.1 !! sub.2 = Some s /\ r.2 ++ sub_ch s `sublist_of` r.1.2 /\
    (3 = 1 + Z.of_nat (length (sub_ch s)) + sub_drops s)%Z.
Proof.
  intros e sub ops r. split; [reflexivity|].
  destruct (subscription_accounting NewInMemoryBus 1 sub.1 sub.2 ops r.1.1 r.1.2 r.2)
    as (s & Hs & _ & H1 & H2 & _).
  - split; [apply NoDup_nil_2|]. intros q Hq. by apply not_elem_of_nil in Hq.
  - apply surjective_pairing.
  - subst ops. rewrite !not_elem_of_cons. split_and!; try discriminate. apply not_elem_of_nil.
  - rewrite <- !surjective_pairing. reflexivity.
  - reflexivity.
  - exists s. split_and!; [exact Hs|exact H1|exact H2].
Defined.
