(* ===== verification/ResourceScope.v ===== *)
(** * Resource scopes of approval grants ([approval/resource_scope.go])

    A resource scope says which paths, hosts, commands and parameter values a
    tool call touches, or which ones a grant covers.  Modelled are the
    normalization, the signature, and the matching of a call's scope against
    a grant's.  The scope of a call is collected from its input, which involves
    URL parsing; the model takes the collected scope as given. *)
From S2P Require Import Prelude GoLib Normalize RunStore.
From Stdlib Require Import Ascii String.
From stdpp Require Import sorting.
Import Str Text.

Local Open Scope list_scope.

(** ** Paths ([path.Clean] and the normalization of scope paths) *)

(** The parts of a path between slashes. *)
Fixpoint split_slash (s : string) : list string :=
  match s with
  | EmptyString => [""]
  | String a rest =>
    if decide (a = "/"%char) then "" :: split_slash rest
    else match split_slash rest with
         | [] => [String a ""]
         | part :: parts => String a part :: parts
         end
  end.

Definition Join (parts : list string) (sep : string) : string := String.concat sep parts.

(** One element of a path, on the elements kept so far, the last one first. *)
Definition clean_step (rooted : bool) (kept : list string) (elem : string) : list string :=
  if decide (elem = "" \/ elem = ".") then kept
  else if decide (elem = "..") then
    match kept with
    | [] => if rooted then [] else [".."]
    | top :: below => if decide (top = "..") then ".." :: kept else below
    end
  else elem :: kept.

(** [path.Clean]. *)
Definition Clean (path : string) : string :=
  let rooted := HasPrefix path "/" in
  let kept := rev (foldl (clean_step rooted) [] (split_slash path)) in
  let out := (if rooted then "/" else "") +:+ Join kept "/" in
  if decide (out = "") then "." else out.

(** [strings.ReplaceAll(raw, "\", "/")]. *)
Fixpoint replace_backslash (s : string) : string :=
  match s with
  | EmptyString => EmptyString
  | String a rest =>
    String (if decide (a = "\"%char) then "/"%char else a) (replace_backslash rest)
  end.

Definition isASCIILetter (a : ascii) : bool := byte_in 97 122 a || byte_in 65 90 a.

Definition looksWindowsStylePath (raw : string) : bool :=
  if Contains raw "\" then true
  else
    let raw := TrimSpace (replace_backslash raw) in
    match raw with
    | String a (String b _) =>
      (isASCIILetter a && bool_decide (b = ":"%char)) || HasPrefix raw "//"
    | _ => HasPrefix raw "//"
    end.

Section Scope.
Context `{GoUnicode}.

Definition normalizeScopePath (raw : string) : string :=
  let raw := TrimSpace raw in
  if decide (raw = "") then ""
  else
    let windowsStyle := looksWindowsStylePath raw in
    let cleaned := Clean (replace_backslash raw) in
    if windowsStyle || looksWindowsStylePath cleaned then ToLower cleaned else cleaned.

Definition pathWithinScope (allowed requested : string) : bool :=
  let allowed := normalizeScopePath allowed in
  let requested := normalizeScopePath requested in
  if decide (allowed = "" \/ requested = "") then false
  else if decide (allowed = ".") then true
  else if decide (requested = allowed) then true
  else if negb (HasPrefix requested allowed) then false
  else bool_decide (String.get (String.length allowed) requested = Some "/"%char).

Definition hostMatches (allowed requested : string) : bool :=
  EqualFold (TrimSpace allowed) (TrimSpace requested).

Definition commandMatches (allowed requested : string) : bool :=
  let allowed := TrimSpace allowed in
  let requested := TrimSpace requested in
  bool_decide (allowed <> "") && bool_decide (requested <> "") && HasPrefix requested allowed.

Definition exactMatch (allowed requested : string) : bool :=
  EqualFold (TrimSpace allowed) (TrimSpace requested).

Definition allRequestValuesAllowed (allowed requested : list string)
    (matches : string -> string -> bool) : bool :=
  if decide (allowed = []) then true
  else if decide (requested = []) then false
  else forallb (fun requestValue =>
    existsb (fun allowedValue => matches allowedValue requestValue) allowed) requested.

Definition allRequestPathsWithin (allowed requested : list string) : bool :=
  if decide (allowed = []) then true
  else if decide (requested = []) then false
  else forallb (fun requestPath =>
    existsb (fun allowedPath => pathWithinScope allowedPath requestPath) allowed) requested.

(** ** Scopes *)

Record ResourceScope := mkRS {
  PathPrefixes : list string;
  Hosts : list string;
  CommandPrefixes : list string;
  Parameters : gmap string (list string);
  RS_Summary : string
}.

Definition emptyScope : ResourceScope := mkRS [] [] [] ∅ "".

Definition normalizeStrings (values : list string) : list string :=
  filter (fun value => value <> "") (TrimSpace <$> values).

Definition limitScopeValues (values : list string) : list string :=
  if decide (length values <= 3) then values
  else take 3 values ++ ["+" +:+ fmt_d (N.of_nat (length values - 3)) +:+ " more"].

(** The keys of a parameter map, by [sort.Strings]. *)
Definition sorted_keys (m : gmap string (list string)) : list string :=
  merge_sort String.le (map_to_list m).*1.

(** A part of a summary or of a signature, when it has values. *)
Definition part (label : string) (values : list string) : list string :=
  if decide (values = []) then [] else [label +:+ Join values ","].

Definition summary (s : ResourceScope) : string :=
  Join
    (part "paths=" (limitScopeValues (PathPrefixes s))
     ++ part "hosts=" (limitScopeValues (Hosts s))
     ++ part "commands=" (limitScopeValues (CommandPrefixes s))
     ++ (if decide (Parameters s = ∅) then []
         else ["params=" +:+ Join (limitScopeValues
                 ((fun key => key +:+ "=" +:+
                     Join (limitScopeValues (default [] (Parameters s !! key))) ",")
                  <$> sorted_keys (Parameters s))) ";"]))
    " | ".

(** The parameters with normalized keys and values; the range over the map
    visits the keys in some order, which matters when two keys have the same
    normalized form. *)
Definition normalizeParameters (params : gmap string (list string))
    : gmap string (list string) :=
  foldl (fun out kv =>
    let normalizedKey := TrimSpace (ToLower kv.1) in
    if decide (normalizedKey = "") then out
    else
      let normalizedValues := DedupeStrings (normalizeStrings kv.2) in
      if decide (normalizedValues = []) then out
      else <[normalizedKey := normalizedValues]> out) ∅ (map_to_list params).

Definition Normalized (s : ResourceScope) : ResourceScope :=
  let out := mkRS (DedupeStrings (normalizeStrings (PathPrefixes s)))
    (DedupeStrings (normalizeStrings (Hosts s)))
    (DedupeStrings (normalizeStrings (CommandPrefixes s)))
    (normalizeParameters (Parameters s)) (TrimSpace (RS_Summary s)) in
  if decide (RS_Summary out = "") then
    mkRS (PathPrefixes out) (Hosts out) (CommandPrefixes out) (Parameters out) (summary out)
  else out.

Definition Empty (s : ResourceScope) : bool :=
  let n := Normalized s in
  bool_decide (PathPrefixes n = []) && bool_decide (Hosts n = []) &&
  bool_decide (CommandPrefixes n = []) && bool_decide (Parameters n = ∅).

Definition Matches (s request : ResourceScope) : bool :=
  let granted := Normalized s in
  let request := Normalized request in
  if Empty granted then true
  else if negb (allRequestPathsWithin (PathPrefixes granted) (PathPrefixes request)) then false
  else if negb (allRequestValuesAllowed (Hosts granted) (Hosts request) hostMatches) then false
  else if negb (allRequestValuesAllowed (CommandPrefixes granted) (CommandPrefixes request)
                  commandMatches) then false
  else if decide (Parameters granted = ∅) then true
  else if decide (Parameters request = ∅) then false
  else forallb (fun kv =>
    allRequestValuesAllowed kv.2 (default [] (Parameters request !! kv.1)) exactMatch)
    (map_to_list (Parameters granted)).

Definition signature (s : ResourceScope) : string :=
  let n := Normalized s in
  Join (part "paths=" (PathPrefixes n) ++ part "hosts=" (Hosts n)
        ++ part "commands=" (CommandPrefixes n)
        ++ ((fun key => "param:" +:+ key +:+ "=" +:+ Join (default [] (Parameters n !! key)) ",")
            <$> sorted_keys (Parameters n))) "|".
End Scope.

(** ** Paths as lists of components *)

Lemma split_slash_nonempty s : split_slash s <> [].
Proof. destruct s as [|a s]; simpl; [done|]. case_decide; [done|]. by case_match. Qed.

Lemma split_slash_app s t : split_slash (s +:+ "/" +:+ t) = split_slash s ++ split_slash t.
Proof.
  induction s as [|a s IH]; simpl.
  - done.
  - case_decide; simpl; [by rewrite <- IH|].
    change (String.append s (String "/" t)) with (s +:+ "/" +:+ t). rewrite IH.
    destruct (split_slash s) eqn:E; [by apply split_slash_nonempty in E|done].
Qed.

Lemma Join_cons x l : l <> [] -> Join (x :: l) "/" = x +:+ "/" +:+ Join l "/".
Proof. by destruct l. Qed.

Lemma Join_app l k :
  l <> [] -> k <> [] -> Join (l ++ k) "/" = Join l "/" +:+ "/" +:+ Join k "/".
Proof.
  intros Hl Hk. induction l as [|x l IH]; [done|]. cbn [app].
  rewrite Join_cons by (destruct l; [exact Hk|done]). destruct (decide (l = [])) as [->|Hne]; [done|].
  rewrite IH, (Join_cons x l) by done. by rewrite !string_app_assoc.
Qed.

Lemma Join_split s : Join (split_slash s) "/" = s.
Proof.
  induction s as [|a s IH]; simpl; [done|]. pose proof (split_slash_nonempty s) as Hne.
  case_decide as Ha.
  - rewrite Join_cons, IH by done. by subst.
  - destruct (split_slash s) as [|p l]; [done|]. rewrite <- IH.
    destruct (decide (l = [])) as [->|Hl]; [done|]. by rewrite !Join_cons by done.
Qed.

Lemma get_app_length (s t : string) : String.get (String.length s) (s +:+ t) = String.get 0 t.
Proof. by induction s. Qed.

(** Being the path or below it is having its components as a prefix. *)
Lemma below_iff_prefix a r :
  r = a \/ (HasPrefix r a = true /\ String.get (String.length a) r = Some "/"%char) <->
  split_slash a `prefix_of` split_slash r.
Proof.
  rewrite HasPrefix_spec. split.
  - intros [->|((t & ->) & Hg)]; [done|]. rewrite get_app_length in Hg.
    destruct t as [|b t]; simplify_eq/=. change (String "/" t) with ("/" +:+ t).
    rewrite split_slash_app. by apply prefix_app_r.
  - intros [k Hk]. destruct (decide (k = [])) as [->|Hne].
    + left. rewrite app_nil_r in Hk. by rewrite <- (Join_split r), Hk, Join_split.
    + right. assert (E : r = a +:+ "/" +:+ Join k "/").
      { rewrite <- (Join_split r), Hk, Join_app, Join_split; auto using split_slash_nonempty. }
      split; [by eexists|]. by rewrite E, get_app_length.
Qed.

Definition no_slash (s : string) : Prop := split_slash s = [s].

Lemma split_slash_parts s : Forall no_slash (split_slash s).
Proof.
  unfold no_slash. induction s as [|a s IH]; simpl; [by constructor|].
  case_decide as Ha; [by constructor|].
  destruct (split_slash s) as [|p l]; [by apply Forall_singleton; simpl; rewrite decide_False|].
  apply Forall_cons in IH as [Hp Hl]. constructor; [|done]. simpl.
  by rewrite decide_False, Hp by done.
Qed.

Lemma split_Join l : l <> [] -> Forall no_slash l -> split_slash (Join l "/") = l.
Proof.
  intros Hl. induction l as [|x l IH]; [done|]. rewrite Forall_cons. intros [Hx Hf].
  destruct (decide (l = [])) as [->|Hne]; [done|].
  rewrite Join_cons, split_slash_app, IH by done. by rewrite Hx.
Qed.

(** What [Clean] keeps, last element first: names above leading [..]s, of
    which a rooted path has none. *)
Definition clean_elems (rooted : bool) (kept : list string) : Prop :=
  exists names dots, kept = names ++ dots /\ Forall no_slash kept /\
    Forall (fun x => x <> ".." /\ x <> "") names /\ Forall (fun x => x = "..") dots /\
    (rooted = true -> dots = []).

Lemma clean_step_elems rooted kept elem :
  clean_elems rooted kept -> no_slash elem -> clean_elems rooted (clean_step rooted kept elem).
Proof.
  intros (names & dots & -> & Hs & Hn & Hd & Hr) He. unfold clean_step.
  case_decide as H1; [by exists names, dots|]. case_decide as H2.
  - subst elem. destruct names as [|n names]; simpl.
    + destruct dots as [|d dots].
      * destruct rooted; [by exists [], []|]. exists [], [".."]. by split_and!; repeat constructor.
      * apply Forall_cons in Hd as [-> Hd]. rewrite decide_True by done.
        exists [], (".." :: ".." :: dots). split_and!; [done|by constructor|constructor|by repeat constructor|].
        intros E. by apply Hr in E.
    + apply Forall_cons in Hn as [[Hn1 Hn2] Hn]. rewrite decide_False by done.
      exists names, dots. split_and!; try done. by apply Forall_cons in Hs as [_ Hs].
  - exists (elem :: names), dots. split_and!; try done; constructor; naive_solver.
Qed.

Lemma clean_fold_elems rooted l kept :
  Forall no_slash l -> clean_elems rooted kept ->
  clean_elems rooted (foldl (clean_step rooted) kept l).
Proof.
  revert kept. induction l as [|e l IH]; intros kept Hl Hk; [done|]. cbn [foldl].
  apply Forall_cons in Hl as [He Hl]. apply IH; [done|]. by apply clean_step_elems.
Qed.

(** A cleaned path that does not start with [..] has no [..] at all. *)
Lemma Clean_no_dotdot p :
  head (split_slash (Clean p)) <> Some ".." -> ".." ∉ split_slash (Clean p).
Proof.
  unfold Clean. set (rooted := HasPrefix p "/").
  destruct (clean_fold_elems rooted (split_slash p) [] (split_slash_parts p))
    as (names & dots & E & Hs & Hn & Hd & Hr); [by exists [], []; split_and!|].
  rewrite E in *. rewrite rev_app_distr.
  set (l := rev dots ++ rev names) in *.
  assert (Hl : Forall no_slash l).
  { subst l. rewrite <- rev_app_distr. by apply Forall_rev. }
  assert (Hnames : ".." ∉ rev names).
  { intros Hin. rewrite Forall_forall in Hn. destruct (Hn "..") as [Hne _]; [|by apply Hne].
    rewrite list_elem_of_In in *. by apply in_rev. }
  destruct rooted.
  - subst l. rewrite (Hr eq_refl) in *. cbn [rev app] in *. rewrite decide_False by done.
    intros _. destruct (decide (rev names = [])) as [->|Hne].
    + vm_compute. intros Hin. set_solver.
    + change ("/" +:+ ?x) with ("" +:+ "/" +:+ x). rewrite split_slash_app, split_Join by done.
      simpl. set_solver.
  - change ("" +:+ ?x) with x. destruct (decide (l = [])) as [El|Hne].
    + rewrite El. vm_compute. intros _ Hin. set_solver.
    + case_decide as Hj; [vm_compute; intros _ Hin; set_solver|]. rewrite split_Join by done.
      intros Hh. subst l. destruct dots as [|d dots] using rev_ind; [done|].
      apply Forall_app in Hd as [_ Hd]. apply Forall_singleton in Hd as ->.
      rewrite rev_app_distr in Hh. by simpl in Hh.
Qed.

Lemma normalizeScopePath_unix `{GoUnicode} raw :
  looksWindowsStylePath (TrimSpace raw) = false ->
  looksWindowsStylePath (Clean (replace_backslash (TrimSpace raw))) = false ->
  TrimSpace raw <> "" ->
  normalizeScopePath raw = Clean (replace_backslash (TrimSpace raw)).
Proof.
  intros H1 H2 H3. unfold normalizeScopePath. by rewrite decide_False, H1, H2 by done.
Qed.

(** Neither the path as written nor its cleaned form looks like a Windows path. *)
Definition unix_path (raw : string) : Prop :=
  TrimSpace raw <> "" /\ looksWindowsStylePath (TrimSpace raw) = false /\
  looksWindowsStylePath (Clean (replace_backslash (TrimSpace raw))) = false.

(** What a path grant covers.  A request is within a grant if and only if
    neither is blank and the grant is the current directory, which covers every
    path, or the components of the granted normalized path are a prefix of the
    components of the requested one: the path itself and what lies below it, so
    that [/srv/data] does not cover [/srv/database], except for a grant of the root,
    whose two empty components no other path starts with: it covers the root
    alone ([root_grant_covers_root_only]).  A request that looks like no Windows
    path and is within a grant without a [..] component, other than the current
    directory, cannot climb out of it: its normalized form has no such component
    either. *)
Theorem path_grant_no_escape `{GoUnicode} allowed requested :
  let a := normalizeScopePath allowed in
  let r := normalizeScopePath requested in
  (pathWithinScope allowed requested = true <->
   a <> "" /\ r <> "" /\ (a = "." \/ split_slash a `prefix_of` split_slash r)) /\
  (unix_path requested -> a <> "." -> ".." ∉ split_slash a ->
   pathWithinScope allowed requested = true -> ".." ∉ split_slash r).
Proof.
  intros a r. assert (Hiff : pathWithinScope allowed requested = true <->
    a <> "" /\ r <> "" /\ (a = "." \/ split_slash a `prefix_of` split_slash r)).
  { rewrite <- below_iff_prefix. unfold pathWithinScope. fold a r.
    case_decide; [naive_solver|]. case_decide; [naive_solver|]. case_decide; [naive_solver|].
    destruct (HasPrefix r a); simpl; [|naive_solver]. rewrite bool_decide_eq_true. naive_solver. }
  split; [done|]. intros (H1 & H2 & H3) Ha Hdots Hin.
  apply Hiff in Hin as (_ & _ & [?|[k Hk]]); [done|].
  assert (Hr : r = Clean (replace_backslash (TrimSpace requested)))
    by (by apply normalizeScopePath_unix).
  rewrite Hr. apply Clean_no_dotdot. rewrite <- Hr, Hk. intros Hh.
  destruct (split_slash a) as [|x l] eqn:E; [by apply split_slash_nonempty in E|].
  simplify_eq/=. apply Hdots. by left.
Qed.

(** A grant of the root does not cover what lies below it. *)
Theorem root_grant_covers_root_only :
  let u := ascii_unicode in
  pathWithinScope "/" "/" = true /\ pathWithinScope "/" "/etc" = false /\ pathWithinScope "/" "/srv/data" = false.
Proof. intros u. split_and!; reflexivity. Qed.

Lemma path_grant_no_escape_witness :
  let u := ascii_unicode in
  pathWithinScope "/srv/data" "/srv/data/x/../y" = true /\
  pathWithinScope "/srv/data" "/srv/data/../secret" = false /\
  pathWithinScope "/srv/data" "/srv/database" = false /\
  ".." ∉ split_slash (normalizeScopePath "/srv/data/x/../y").
Proof.
  intros u. split_and!; [reflexivity..|].
  apply (path_grant_no_escape "/srv/data" "/srv/data/x/../y").
  - split_and!; [discriminate|reflexivity..].
  - discriminate.
  - replace (split_slash (normalizeScopePath "/srv/data")) with [""; "srv"; "data"] by reflexivity.
    rewrite !not_elem_of_cons. split_and!; try discriminate. apply not_elem_of_nil.
  - reflexivity.
Defined.

(** A grant covers a request when every granted dimension covers every value
    the request has in it, and the request has some. *)
Definition covers (allowed requested : list string) (matches : string -> string -> bool) : Prop :=
  allowed = [] \/
  (requested <> [] /\
   forall v, v ∈ requested -> exists g, g ∈ allowed /\ matches g v = true).

Lemma existsb_elem {A} (f : A -> bool) l : existsb f l = true <-> exists x, x ∈ l /\ f x = true.
Proof. rewrite existsb_exists. by setoid_rewrite list_elem_of_In. Qed.

Lemma allRequestValuesAllowed_covers allowed requested matches :
  allRequestValuesAllowed allowed requested matches = true <-> covers allowed requested matches.
Proof.
  unfold allRequestValuesAllowed, covers. case_decide; [naive_solver|].
  case_decide; [naive_solver|]. rewrite forallb_true_elem. setoid_rewrite existsb_elem.
  naive_solver.
Qed.

Lemma allRequestPathsWithin_covers `{GoUnicode} allowed requested :
  allRequestPathsWithin allowed requested = true <-> covers allowed requested pathWithinScope.
Proof. apply (allRequestValuesAllowed_covers allowed requested pathWithinScope). Qed.
