(* ===== verification/ApprovalPolicy.v ===== *)
(** * Approval scopes and policies ([approval/scope_policy.go],
    [internal/domain/governance/decision.go])

    How long a grant lasts, from the single invocation to the session, and
    which scope a policy lets an approver choose. *)
From S2P Require Import Prelude GoLib Normalize.
Import Str Text GoTime GoAny.

(** ** Scopes *)

Abbreviation Scope := string (only parsing).

Definition ScopeOnce : Scope := "once".
Definition ScopeSession : Scope := "session".
Definition ScopeAlways : Scope := "always".
Definition ScopeDeny : Scope := "deny".

Inductive ApprovalError :=
| ErrRunIDRequired
| ErrNotFound
| ErrAlreadyResolved
| ErrInvalidResolution
| ErrInvalidScope
| ErrScopePolicy
| ErrProviderRequired.

(** The strings a normalized scope can be. *)
Definition valid_scope (s : Scope) : Prop :=
  s = "" \/ s = ScopeOnce \/ s = ScopeSession \/ s = ScopeAlways \/ s = ScopeDeny.

#[export] Instance valid_scope_dec s : Decision (valid_scope s).
Proof. unfold valid_scope. apply _. Defined.

(** [fmt.Sprint] of a dynamic value: a string prints as it is, nil as [<nil>]. *)
Class GoFmt := {
  Sprint : Any -> string;
  Sprint_string s : Sprint (AnyString s) = s;
  Sprint_nil : Sprint AnyNil = "<nil>"
}.

(** A printer for the values that are not numbers or containers. *)
Definition simple_fmt : GoFmt.
Proof.
  refine {| Sprint v := match v with
                        | AnyString s => s | AnyNil => "<nil>"
                        | AnyBool true => "true" | AnyBool false => "false"
                        | _ => "[]" end |}; done.
Defined.

Section Policy.
Context `{GoUnicode} `{GoFmt}.

(** [None] is [ErrInvalidScope]. *)
Definition NormalizeScope (scope : Scope) : option Scope :=
  let s := TrimSpace (ToLower scope) in
  if decide (valid_scope s) then Some s else None.

(** [scope, _ := NormalizeScope(...)]. *)
Definition scope_or_empty (scope : Scope) : Scope := default "" (NormalizeScope scope).

Definition ScopeRank (scope : Scope) : Z :=
  let normalized := scope_or_empty scope in
  if decide (normalized = ScopeOnce) then 1
  else if decide (normalized = ScopeSession) then 2
  else if decide (normalized = ScopeAlways) then 3
  else 0.

Definition IsScopeBroader (scope maxScope : Scope) : bool :=
  let scopeRank := ScopeRank scope in
  if decide (scopeRank = 0%Z) then false
  else
    let maxRank := ScopeRank maxScope in
    if decide (maxRank = 0%Z) then true else bool_decide (maxRank < scopeRank)%Z.

Fixpoint narrower_loop (winner : Scope) (values : list Scope) : option Scope :=
  match values with
  | [] => Some winner
  | candidate :: rest =>
    match NormalizeScope candidate with
    | None => None
    | Some normalized =>
      if decide (normalized = "") then narrower_loop winner rest
      else if decide (winner = "" \/ (ScopeRank normalized < ScopeRank winner)%Z)
      then narrower_loop normalized rest
      else narrower_loop winner rest
    end
  end.

Definition NarrowerScopeChecked (values : list Scope) : option Scope := narrower_loop "" values.

Definition NarrowerScope (values : list Scope) : Scope := default "" (NarrowerScopeChecked values).

(** ** Policies and decisions *)

Record ApprovalPolicy := mkPolicy { DefaultScope : Scope; MaxScope : Scope }.

Definition Policy_Normalized (p : ApprovalPolicy) : ApprovalPolicy :=
  let dflt := default ScopeOnce (NormalizeScope (DefaultScope p)) in
  let max := default ScopeOnce (NormalizeScope (MaxScope p)) in
  let max := if decide (max = "" /\ dflt <> "") then dflt else max in
  mkPolicy (if IsScopeBroader dflt max then max else dflt) max.

Definition Policy_Empty (p : ApprovalPolicy) : bool :=
  bool_decide (DefaultScope p = "") && bool_decide (MaxScope p = "").

Record PolicyDecision := mkDecision {
  Action : string;
  Reasons : list string;
  ReasonCodes : list string;
  PolicySource : string;
  Dec_Summary : string;
  PolicyLayers : list string;
  AuditLabels : list string;
  Dec_ApprovalPolicy : option ApprovalPolicy
}.

Definition DecisionAllow : string := "allow".
Definition DecisionRequireApproval : string := "require_approval".
Definition DecisionDeny : string := "deny".

Definition Decision_Normalized (d : PolicyDecision) : PolicyDecision :=
  let a := TrimSpace (Action d) in
  mkDecision
    (if decide (a = DecisionRequireApproval \/ a = DecisionDeny) then Action d else DecisionAllow)
    (Reasons d) (DedupeStrings (ReasonCodes d)) (TrimSpace (PolicySource d))
    (TrimSpace (Dec_Summary d)) (DedupeStrings (PolicyLayers d)) (DedupeStrings (AuditLabels d))
    (match Dec_ApprovalPolicy d with
     | None => None
     | Some p =>
       let policy := Policy_Normalized p in
       if Policy_Empty policy then None else Some policy
     end).

Definition RequiresApproval (d : PolicyDecision) : bool :=
  bool_decide (Action d = DecisionRequireApproval).
Definition Denied (d : PolicyDecision) : bool := bool_decide (Action d = DecisionDeny).

Definition Decision_Empty (d : PolicyDecision) : bool :=
  bool_decide (TrimSpace (Action d) = "") && bool_decide (Reasons d = []) &&
  bool_decide (ReasonCodes d = []) && bool_decide (TrimSpace (PolicySource d) = "") &&
  bool_decide (TrimSpace (Dec_Summary d) = "") && bool_decide (PolicyLayers d = []) &&
  bool_decide (AuditLabels d = []) &&
  match Dec_ApprovalPolicy d with None => true | Some p => Policy_Empty p end.

(** ** Facts *)

Lemma valid_scope_fixed s : valid_scope s -> NormalizeScope s = Some s.
Proof.
  intros Hv. unfold NormalizeScope.
  assert (E : TrimSpace (ToLower s) = s).
  { rewrite ToLower_ascii by (by destruct Hv as [->|[->|[->|[->| ->]]]]).
    by destruct Hv as [->|[->|[->|[->| ->]]]]. }
  by rewrite E, decide_True.
Qed.

Lemma NormalizeScope_valid s n : NormalizeScope s = Some n -> valid_scope n.
Proof. unfold NormalizeScope. case_decide; [|done]. by intros [= <-]. Qed.

Lemma scope_or_empty_valid s : valid_scope (scope_or_empty s).
Proof.
  unfold scope_or_empty. destruct (NormalizeScope s) eqn:E; [|by left].
  by eapply NormalizeScope_valid.
Qed.

Lemma scope_or_empty_id s : valid_scope s -> scope_or_empty s = s.
Proof. intros. unfold scope_or_empty. by rewrite valid_scope_fixed. Qed.

Lemma ScopeRank_range s : (0 <= ScopeRank s <= 3)%Z.
Proof. unfold ScopeRank. repeat case_decide; lia. Qed.

Lemma IsScopeBroader_rank s m : IsScopeBroader s m = bool_decide (ScopeRank m < ScopeRank s)%Z.
Proof.
  unfold IsScopeBroader. pose proof (ScopeRank_range s). pose proof (ScopeRank_range m).
  repeat case_decide; symmetry; bool_prop || done; lia.
Qed.

(** A normalized policy: scopes that are already normalized, a default no
    broader than the maximum. *)
Definition policy_ok (p : ApprovalPolicy) : Prop :=
  valid_scope (DefaultScope p) /\ valid_scope (MaxScope p) /\
  (ScopeRank (DefaultScope p) <= ScopeRank (MaxScope p))%Z.

Lemma Policy_Normalized_ok p : policy_ok (Policy_Normalized p).
Proof.
  unfold Policy_Normalized, policy_ok.
  assert (Hv : forall s, valid_scope (default ScopeOnce (NormalizeScope s))).
  { intros s. destruct (NormalizeScope s) eqn:E; simpl; [by eapply NormalizeScope_valid|].
    right; by left. }
  set (d := default ScopeOnce (NormalizeScope (DefaultScope p))).
  set (m0 := default ScopeOnce (NormalizeScope (MaxScope p))).
  set (m := if decide _ then d else m0).
  assert (valid_scope d) by apply Hv.
  assert (valid_scope m) by (subst m; case_decide; apply Hv).
  cbn [DefaultScope MaxScope]. rewrite IsScopeBroader_rank. case_bool_decide; split_and!; try done; lia.
Qed.

(** A proper policy: normalized, with both scopes named. *)
Definition policy_named (p : ApprovalPolicy) : Prop :=
  policy_ok p /\ DefaultScope p <> "" /\ MaxScope p <> "".

Lemma Policy_Normalized_id p : policy_named p -> Policy_Normalized p = p.
Proof.
  intros ((Hd & Hm & Hle) & Hd0 & Hm0). unfold Policy_Normalized.
  rewrite !valid_scope_fixed by done. cbn [default from_option]. unfold id.
  rewrite (decide_False (P := MaxScope p = "" /\ _)) by tauto.
  rewrite IsScopeBroader_rank, bool_decide_eq_false_2 by lia. by destruct p.
Qed.

(** A normalized policy with a default scope also has a maximal one. *)
Lemma Policy_Normalized_named p :
  DefaultScope (Policy_Normalized p) <> "" -> policy_named (Policy_Normalized p).
Proof.
  intros Hd. pose proof (Policy_Normalized_ok p) as Hok. split_and!; [done|done|]. clear Hok.
  unfold Policy_Normalized in *. cbn [MaxScope DefaultScope] in *. intros E. revert Hd E. set (d := default ScopeOnce _). set (mx := default ScopeOnce _).
  case_decide as Hc; intros Hd E; [by destruct Hc as [_ []]|].
  destruct (decide (d = "")) as [Ed|Ed]; [|by destruct Hc].
  rewrite E, Ed in Hd. by destruct (IsScopeBroader _ _).
Qed.

(** The narrowest of a list of scopes. *)
Lemma narrower_loop_spec winner values out :
  narrower_loop winner values = Some out -> valid_scope winner ->
  valid_scope out /\ (out = winner \/ exists v, v ∈ values /\ NormalizeScope v = Some out) /\
  (winner <> "" -> out <> "" /\ (ScopeRank out <= ScopeRank winner)%Z) /\
  (forall v n, v ∈ values -> NormalizeScope v = Some n -> n <> "" ->
     out <> "" /\ (ScopeRank out <= ScopeRank n)%Z).
Proof.
  revert winner. induction values as [|c rest IH]; intros winner Hl Hw; cbn [narrower_loop] in Hl.
  { apply (inj Some) in Hl as <-. split_and!; [done|by left|done|].
    by intros v n ?%elem_of_nil. }
  destruct (NormalizeScope c) as [n|] eqn:Hc; [|done].
  pose proof (NormalizeScope_valid _ _ Hc) as Hn.
  assert (Hmem : forall P : string -> Prop, (forall v m, v ∈ rest -> NormalizeScope v = Some m -> P m) -> P n ->
    forall v m, v ∈ c :: rest -> NormalizeScope v = Some m -> P m).
  { intros P HP HPn v m Hv Hm. apply elem_of_cons in Hv as [->|Hv]; [|eauto]. congruence. }
  case_decide as H1; [|case_decide as H2]; apply IH in Hl as (V & Ho & Hwin & Hall); try done;
    (split_and!; [done| | |]).
  - destruct Ho as [->|(v & ? & ?)]; [by left|right]. exists v. split; [by right|done].
  - done.
  - apply (Hmem (fun m => m <> "" -> out <> "" /\ (ScopeRank out <= ScopeRank m)%Z)); [done|]. by intros.
  - right. destruct Ho as [->|(v & ? & ?)]; [exists c|exists v]; (split; [|done]); [by left|by right].
  - intros Hw0. destruct (Hwin H1). split; [done|]. destruct H2; [done|lia].
  - apply (Hmem (fun m => m <> "" -> out <> "" /\ (ScopeRank out <= ScopeRank m)%Z)); [done|]. intros Hn0. by apply Hwin.
  - destruct Ho as [->|(v & ? & ?)]; [by left|right]. exists v. split; [by right|done].
  - done.
  - apply (Hmem (fun m => m <> "" -> out <> "" /\ (ScopeRank out <= ScopeRank m)%Z)); [done|]. intros _. assert (Hw0 : winner <> "") by tauto.
    destruct (Hwin Hw0). split; [done|]. assert (~ (ScopeRank n < ScopeRank winner)%Z) by tauto. lia.
Qed.
End Policy.
