(* ===== verification/Approval.v ===== *)
(** * Approval tickets and their in-memory store ([approval/store.go], the
    resolution policy of [approval/scope_policy.go])

    Tickets handed out are clones, so the store is a value: each operation
    returns the new store.  [time.Now] is an argument. *)
From S2P Require Import Prelude GoLib Normalize RunStore ResourceScope ApprovalPolicy.
From Stdlib Require Import Ascii String.
From stdpp Require Import sorting relations.
Import Str Text GoTime GoAny.

Local Open Scope list_scope.

(** ** Data *)

Abbreviation TicketStatus := string (only parsing).

Definition StatusPending : TicketStatus := "pending".
Definition StatusApproved : TicketStatus := "approved".
Definition StatusDenied : TicketStatus := "denied".
Definition StatusCancelled : TicketStatus := "cancelled".

Definition KindToolCalls : string := "tool_calls".
Definition KindSkillInstall : string := "skill_install".

Record ApprovalToolCall := mkATC {
  ATC_ID : string;
  ATC_Name : string;
  ATC_Input : option (gmap string Any);
  ATC_ResourceScope : ResourceScope
}.

Record ExternalReference := mkRef {
  Ref_Provider : string;
  Ref_ExternalID : string;
  Ref_URL : string;
  Ref_Status : string;
  Ref_Metadata : option (gmap string Any);
  Ref_SyncedAt : Time
}.

Definition zeroRef : ExternalReference := mkRef "" "" "" "" None zeroTime.

Record Ticket := mkTicket {
  T_ID : string;
  T_RunID : string;
  T_SessionID : string;
  T_Kind : string;
  T_Status : TicketStatus;
  T_ToolCalls : list ApprovalToolCall;
  T_Reasons : list string;
  T_Metadata : option (gmap string Any);
  T_CreatedAt : Time;
  T_ResolvedAt : Time;
  T_ResolvedBy : string;
  T_Note : string;
  T_Scope : Scope;
  T_External : list ExternalReference
}.

Record Resolution := mkRes {
  Res_Status : TicketStatus;
  Res_ResolvedBy : string;
  Res_Note : string;
  Res_Scope : Scope
}.

Record ListFilter := mkLF { LF_Status : TicketStatus; LF_Limit : Z; LF_Offset : Z }.

Definition ListFilter_Normalize (f : ListFilter) : ListFilter :=
  mkLF (LF_Status f) (Z.max 0 (LF_Limit f)) (Z.max 0 (LF_Offset f)).

Record ApprovalStore := mkAS {
  as_nextID : Z;
  as_byID : gmap string Ticket;
  as_byRunID : gmap string string;
  as_byExtID : gmap string string
}.

Definition NewApprovalStore : ApprovalStore := mkAS 0 ∅ ∅ ∅.

Section Store.
Context `{GoUnicode} `{GoFmt}.

(** ** External references *)

(** The byte between the two halves of a lookup key. *)
Definition nul : string := String "000"%char EmptyString.

Definition ExternalReferenceLookupKey (provider externalID : string) : string :=
  let provider := ToLower (TrimSpace provider) in
  let externalID := TrimSpace externalID in
  if decide (provider = "" \/ externalID = "") then "" else provider +:+ nul +:+ externalID.

Definition normalizeExternalReference (ref : ExternalReference) : ExternalReference :=
  mkRef (TrimSpace (Ref_Provider ref)) (TrimSpace (Ref_ExternalID ref)) (TrimSpace (Ref_URL ref))
    (TrimSpace (Ref_Status ref)) (Ref_Metadata ref) (Ref_SyncedAt ref).

Definition cloneExternalReferences (refs : list ExternalReference) : list ExternalReference :=
  normalizeExternalReference <$> refs.

Definition externalReferenceByProvider (refs : list ExternalReference) (provider : string)
    : option ExternalReference :=
  let provider := ToLower (TrimSpace provider) in
  if decide (provider = "") then None
  else normalizeExternalReference <$>
    head (filter (fun ref => ToLower (TrimSpace (Ref_Provider ref)) = provider) refs).

Definition or_else (update current : string) : string :=
  if decide (update = "") then current else update.

Definition mergeExternalReference (now : Time) (current update : ExternalReference)
    : ExternalReference :=
  let out := normalizeExternalReference current in
  mkRef (or_else (Ref_Provider update) (Ref_Provider out))
    (or_else (Ref_ExternalID update) (Ref_ExternalID out))
    (or_else (Ref_URL update) (Ref_URL out)) (or_else (Ref_Status update) (Ref_Status out))
    (let m := default ∅ (Ref_Metadata update) in
     if decide (map_to_list m = []) then Ref_Metadata out
     else Some (m ∪ default ∅ (Ref_Metadata out)))
    (if negb (IsZero (Ref_SyncedAt update)) then Ref_SyncedAt update
     else if IsZero (Ref_SyncedAt out) then now else Ref_SyncedAt out).

(** The order of [sortExternalReferences]. *)
Definition ref_le (a b : ExternalReference) : Prop :=
  let left := ToLower (TrimSpace (Ref_Provider a)) in
  let right := ToLower (TrimSpace (Ref_Provider b)) in
  if decide (left = right) then
    String.le (TrimSpace (Ref_ExternalID a)) (TrimSpace (Ref_ExternalID b))
  else String.le left right.

#[export] Instance ref_le_dec : RelDecision ref_le.
Proof. intros a b. unfold ref_le. case_decide; apply _. Defined.

Definition sortExternalReferences (items : list ExternalReference) : list ExternalReference :=
  merge_sort ref_le items.

(** The updated list and the merged reference. *)
Definition UpsertExternalReferences (now : Time) (existing : list ExternalReference)
    (update : ExternalReference)
    : (list ExternalReference * ExternalReference) + ApprovalError :=
  let update := normalizeExternalReference update in
  if decide (Ref_Provider update = "") then inr ErrProviderRequired
  else
    let out := cloneExternalReferences existing in
    match list_find (fun ref =>
            EqualFold (TrimSpace (Ref_Provider ref)) (Ref_Provider update) = true) out with
    | Some (index, ref) =>
      let merged := mergeExternalReference now ref update in
      inl (sortExternalReferences (<[index := merged]> out), merged)
    | None =>
      let merged := mergeExternalReference now zeroRef update in
      inl (sortExternalReferences (out ++ [merged]), merged)
    end.

(** ** Resolutions *)

(** The policy scopes a ticket carries in its metadata. *)
Definition scopePolicyFromTicket (t : Ticket) : Scope * Scope :=
  match T_Metadata t with
  | None => ("", "")
  | Some m =>
    let scope key := scope_or_empty (TrimSpace (Sprint (default AnyNil (m !! key)))) in
    (scope "policy_approval_default_scope", scope "policy_approval_max_scope")
  end.

Definition NormalizeResolution (t : Ticket) (r : Resolution) : Resolution + ApprovalError :=
  match NormalizeScope (Res_Scope r) with
  | None => inr ErrInvalidScope
  | Some scope =>
    if decide (Res_Status r <> StatusApproved) then
      inl (mkRes (Res_Status r) (Res_ResolvedBy r) (Res_Note r) scope)
    else
      let '(defaultScope, maxScope) := scopePolicyFromTicket t in
      let scope := if decide (scope = "") then defaultScope else scope in
      let scope := if decide (scope = "") then ScopeOnce else scope in
      let maxScope := if decide (maxScope = "") then defaultScope else maxScope in
      let maxScope := if decide (maxScope = "") then ScopeOnce else maxScope in
      if IsScopeBroader scope maxScope then inr ErrScopePolicy
      else inl (mkRes (Res_Status r) (Res_ResolvedBy r) (Res_Note r) scope)
  end.

(** The policy scopes a governance decision adds to the metadata of a ticket
    ([approvalGovernanceMetadata] of [agent/approval_flow.go]). *)
Definition put_scope (key : string) (scope : Scope) (m : gmap string Any) : gmap string Any :=
  let scope := TrimSpace scope in
  if decide (scope = "") then m else <[key := AnyString scope]> m.

Definition approvalPolicyMetadata (policy : option ApprovalPolicy) (m : gmap string Any)
    : gmap string Any :=
  match policy with
  | None => m
  | Some p =>
    put_scope "policy_approval_max_scope" (MaxScope p)
      (put_scope "policy_approval_default_scope" (DefaultScope p) m)
  end.

(** ** The store *)

Definition cloneTicket (t : Ticket) : Ticket :=
  mkTicket (T_ID t) (T_RunID t) (T_SessionID t) (T_Kind t) (T_Status t)
    ((fun c => mkATC (ATC_ID c) (ATC_Name c) (ATC_Input c) (Normalized (ATC_ResourceScope c)))
     <$> T_ToolCalls t)
    (T_Reasons t) (T_Metadata t) (T_CreatedAt t) (T_ResolvedAt t) (T_ResolvedBy t) (T_Note t)
    (T_Scope t) (cloneExternalReferences (T_External t)).

Definition appr_id (n : N) : string := "appr-" +:+ fmt_06d n.

(** The ticket a creation starts from: pending, with its identifier and kind. *)
Definition pending_ticket (now : Time) (n : Z) (t : Ticket) : Ticket :=
  mkTicket (appr_id (Z.to_N n)) (T_RunID t) (T_SessionID t)
    (if decide (T_Kind t = "") then KindToolCalls else T_Kind t) StatusPending
    (T_ToolCalls t) (T_Reasons t) (T_Metadata t) now (T_ResolvedAt t) (T_ResolvedBy t)
    (T_Note t) (T_Scope t) (cloneExternalReferences (T_External t)).

Definition index_refs (id : string) (refs : list ExternalReference) (m : gmap string string)
    : gmap string string :=
  foldl (fun m ref =>
    let key := ExternalReferenceLookupKey (Ref_Provider ref) (Ref_ExternalID ref) in
    if decide (key = "") then m else <[key := id]> m) m refs.

Definition insert_ticket (s : ApprovalStore) (now : Time) (t : Ticket) : ApprovalStore * Ticket :=
  let n := next_counter (as_nextID s) in
  let copied := cloneTicket (pending_ticket now n t) in
  (mkAS n (<[T_ID copied := copied]> (as_byID s)) (<[T_RunID copied := T_ID copied]> (as_byRunID s))
     (index_refs (T_ID copied) (T_External copied) (as_byExtID s)), cloneTicket copied).

Definition CreateTicket (s : ApprovalStore) (now : Time) (t : Ticket)
    : ApprovalStore * (Ticket + ApprovalError) :=
  if decide (T_RunID t = "") then (s, inr ErrRunIDRequired)
  else
    match as_byRunID s !! T_RunID t ≫= (as_byID s !!.) with
    | Some existing =>
      if decide (T_Status existing = StatusPending) then (s, inl (cloneTicket existing))
      else let '(s, t) := insert_ticket s now t in (s, inl t)
    | None => let '(s, t) := insert_ticket s now t in (s, inl t)
    end.

Definition GetTicket (s : ApprovalStore) (id : string) : option Ticket :=
  cloneTicket <$> as_byID s !! id.

Definition GetByRun (s : ApprovalStore) (runID : string) : option Ticket :=
  cloneTicket <$> (as_byRunID s !! runID ≫= (as_byID s !!.)).

Definition GetByExternal (s : ApprovalStore) (provider externalID : string) : option Ticket :=
  cloneTicket <$>
    (as_byExtID s !! ExternalReferenceLookupKey provider externalID ≫= (as_byID s !!.)).

(** Creation order, identifiers breaking ties. *)
Definition older (a b : Ticket) : Prop :=
  if decide (T_CreatedAt a = T_CreatedAt b) then String.le (T_ID a) (T_ID b)
  else (T_CreatedAt a < T_CreatedAt b)%Z.

#[export] Instance older_dec : RelDecision older.
Proof. intros a b. unfold older. case_decide; apply _. Defined.

Definition ListTickets (s : ApprovalStore) (f : ListFilter) : list Ticket :=
  let f := ListFilter_Normalize f in
  let out := merge_sort older (cloneTicket <$>
    filter (fun t => LF_Status f = "" \/ T_Status t = LF_Status f) (map_to_list (as_byID s)).*2) in
  let out := drop (Z.to_nat (LF_Offset f)) out in
  if decide (0 < LF_Limit f /\ LF_Limit f < Z.of_nat (length out))%Z then
    take (Z.to_nat (LF_Limit f)) out
  else out.

Definition resolved_ticket (now : Time) (t : Ticket) (r : Resolution) : Ticket :=
  mkTicket (T_ID t) (T_RunID t) (T_SessionID t) (T_Kind t) (Res_Status r) (T_ToolCalls t)
    (T_Reasons t) (T_Metadata t) (T_CreatedAt t) now (Res_ResolvedBy r) (Res_Note r)
    (Res_Scope r) (T_External t).

Definition Resolve (s : ApprovalStore) (now : Time) (id : string) (r : Resolution)
    : ApprovalStore * (Ticket + ApprovalError) :=
  match as_byID s !! id with
  | None => (s, inr ErrNotFound)
  | Some t =>
    if decide (T_Status t <> StatusPending) then (s, inr ErrAlreadyResolved)
    else if negb (bool_decide (Res_Status r ∈ [StatusApproved; StatusDenied; StatusCancelled]))
    then (s, inr ErrInvalidResolution)
    else
      match NormalizeResolution t r with
      | inr err => (s, inr err)
      | inl r =>
        let t := resolved_ticket now t r in
        (mkAS (as_nextID s) (<[id := t]> (as_byID s)) (as_byRunID s) (as_byExtID s),
         inl (cloneTicket t))
      end
  end.

Definition with_external (t : Ticket) (refs : list ExternalReference) : Ticket :=
  mkTicket (T_ID t) (T_RunID t) (T_SessionID t) (T_Kind t) (T_Status t) (T_ToolCalls t)
    (T_Reasons t) (T_Metadata t) (T_CreatedAt t) (T_ResolvedAt t) (T_ResolvedBy t) (T_Note t)
    (T_Scope t) refs.

Definition UpsertExternalRef (s : ApprovalStore) (now : Time) (id : string)
    (ref : ExternalReference) : ApprovalStore * (Ticket + ApprovalError) :=
  match as_byID s !! id with
  | None => (s, inr ErrNotFound)
  | Some t =>
    let previous := externalReferenceByProvider (T_External t) (Ref_Provider ref) in
    match UpsertExternalReferences now (T_External t) ref with
    | inr err => (s, inr err)
    | inl (nextRefs, merged) =>
      let m := match previous with
               | Some p =>
                 if decide (TrimSpace (Ref_ExternalID p) <> "") then
                   delete (ExternalReferenceLookupKey (Ref_Provider p) (Ref_ExternalID p))
                     (as_byExtID s)
                 else as_byExtID s
               | None => as_byExtID s
               end in
      let m := if decide (TrimSpace (Ref_ExternalID merged) <> "") then
                 <[ExternalReferenceLookupKey (Ref_Provider merged) (Ref_ExternalID merged)
                   := id]> m
               else m in
      let t := with_external t nextRefs in
      (mkAS (as_nextID s) (<[id := t]> (as_byID s)) (as_byRunID s) m, inl (cloneTicket t))
    end
  end.

(** ** The store's invariant *)

#[export] Instance appr_id_inj : Inj (=) (=) appr_id.
Proof. intros m n E. by apply (inj (String.append "appr-")), (inj fmt_06d) in E. Qed.

(** [id] was handed out by the counter. *)
Definition appr_issued (s : ApprovalStore) (id : string) : Prop :=
  exists k, (1 <= k <= as_nextID s)%Z /\ id = appr_id (Z.to_N k).

Record tickets_inv (s : ApprovalStore) : Prop := {
  ti_counter : (0 <= as_nextID s < 2 ^ 64)%Z;
  ti_byID : forall id t, as_byID s !! id = Some t -> T_ID t = id /\ appr_issued s id;
  ti_pending : forall id t, as_byID s !! id = Some t -> T_Status t = StatusPending ->
    as_byRunID s !! T_RunID t = Some id
}.

(** One call that changes the store. *)
Inductive ticket_step : ApprovalStore -> ApprovalStore -> Prop :=
| ts_create s s' now t r :
    (as_nextID s + 1 < 2 ^ 64)%Z -> CreateTicket s now t = (s', r) -> ticket_step s s'
| ts_resolve s s' now id res r : Resolve s now id res = (s', r) -> ticket_step s s'
| ts_upsert s s' now id ref r : UpsertExternalRef s now id ref = (s', r) -> ticket_step s s'.

(** What a ticket records about its resolution. *)
Definition verdict (t : Ticket) : TicketStatus * Time * string * string * Scope :=
  (T_Status t, T_ResolvedAt t, T_ResolvedBy t, T_Note t, T_Scope t).

(** How a stored ticket may change: its run stays, a verdict is final. *)
Definition ticket_le (t t' : Ticket) : Prop :=
  T_RunID t' = T_RunID t /\ T_CreatedAt t' = T_CreatedAt t /\ T_Metadata t' = T_Metadata t /\
  (T_Status t <> StatusPending -> verdict t' = verdict t).

#[export] Instance ticket_le_preorder : PreOrder ticket_le.
Proof.
  split; [by intros t|]. unfold ticket_le, verdict. intros t1 t2 t3 (E1 & E2 & E3 & E4) (F1 & F2 & F3 & F4).
  split_and!; [congruence..|]. intros Hp. specialize (E4 Hp). simplify_eq/=.
  rewrite F4; congruence.
Qed.

(** The shape of every step: one ticket is added under a fresh identifier, or
    one is updated, or none changes. *)
Inductive store_change (s s' : ApprovalStore) : Prop :=
| sc_same : s' = s -> store_change s s'
| sc_insert t :
    as_nextID s' = (as_nextID s + 1)%Z -> T_ID t = appr_id (Z.to_N (as_nextID s + 1)) ->
    as_byID s' = <[T_ID t := t]> (as_byID s) -> as_byRunID s' = <[T_RunID t := T_ID t]> (as_byRunID s) ->
    (forall id t0, as_byRunID s !! T_RunID t = Some id -> as_byID s !! id = Some t0 ->
       T_Status t0 <> StatusPending) -> store_change s s'
| sc_update id t t' :
    as_nextID s' = as_nextID s -> as_byID s !! id = Some t -> as_byID s' = <[id := t']> (as_byID s) ->
    as_byRunID s' = as_byRunID s -> T_ID t' = T_ID t -> ticket_le t t' ->
    (T_Status t <> StatusPending -> T_Status t' <> StatusPending) -> store_change s s'.

Lemma insert_ticket_change s now t s' r :
  (0 <= as_nextID s)%Z -> (as_nextID s + 1 < 2 ^ 64)%Z -> insert_ticket s now t = (s', r) ->
  (forall id t0, as_byRunID s !! T_RunID t = Some id -> as_byID s !! id = Some t0 ->
     T_Status t0 <> StatusPending) ->
  store_change s s'.
Proof.
  intros Hge Hlt Hi Hp. unfold insert_ticket in Hi. rewrite next_counter_small in Hi by done.
  simplify_eq. by apply (sc_insert _ _ (cloneTicket (pending_ticket now (as_nextID s + 1) t))).
Qed.

Lemma step_change s s' : tickets_inv s -> ticket_step s s' -> store_change s s'.
Proof.
  intros Hinv Hstep. pose proof (ti_counter _ Hinv) as Hc.
  destruct Hstep as [s s' now t r Hn Hs|s s' now id res r Hs|s s' now id ref r Hs].
  - unfold CreateTicket in Hs. case_decide; [simplify_eq; by constructor|].
    destruct (as_byRunID s !! T_RunID t ≫= (as_byID s !!.)) as [ex|] eqn:Hex.
    + case_decide as Hpend; [simplify_eq; by constructor|].
      destruct (insert_ticket s now t) as [s1 t1] eqn:Hi. simplify_eq.
      eapply insert_ticket_change; [lia|done|exact Hi|].
      intros id t0 E1 E2. rewrite E1 in Hex. simpl in Hex. congruence.
    + destruct (insert_ticket s now t) as [s1 t1] eqn:Hi. simplify_eq.
      eapply insert_ticket_change; [lia|done|exact Hi|].
      intros id t0 E1 E2. rewrite E1 in Hex. simpl in Hex. congruence.
  - unfold Resolve in Hs. destruct (as_byID s !! id) as [t|] eqn:Ht; [|simplify_eq; by constructor].
    case_decide as Hpend; [simplify_eq; by constructor|].
    destruct (negb _); [simplify_eq; by constructor|].
    destruct (NormalizeResolution t res) as [r'|e]; [|simplify_eq; by constructor].
    simplify_eq. eapply sc_update; [done..| |]; [|done]. by split_and!.
  - unfold UpsertExternalRef in Hs.
    destruct (as_byID s !! id) as [t|] eqn:Ht; [|simplify_eq; by constructor].
    destruct (UpsertExternalReferences now (T_External t) ref) as [[refs merged]|e];
      [|simplify_eq; by constructor].
    simplify_eq. by eapply sc_update.
Qed.

Lemma fresh_id s : tickets_inv s -> as_byID s !! appr_id (Z.to_N (as_nextID s + 1)) = None.
Proof.
  intros Hinv. destruct (as_byID s !! _) as [t|] eqn:E; [|done].
  apply (ti_byID _ Hinv) in E as [_ (k & Hk & E)]. apply (inj appr_id) in E.
  apply (f_equal Z.of_N) in E. pose proof (ti_counter _ Hinv).
  rewrite !Z2N.id in E by lia. lia.
Qed.

Lemma change_inv s s' :
  tickets_inv s -> (as_nextID s' < 2 ^ 64)%Z -> store_change s s' -> tickets_inv s'.
Proof.
  intros Hinv Hb [->|t Hn Hid Hby Hrun Hp|id t t' Hn Ht Hby Hrun Hid Hle Hst]; [done| |].
  - pose proof (fresh_id s Hinv) as Hf. rewrite <- Hid in Hf.
    assert (Hiss : forall id, appr_issued s id -> appr_issued s' id).
    { intros id (k & ? & ->). exists k. split; [lia|done]. }
    pose proof (ti_counter _ Hinv). split; [lia| |].
    + rewrite Hby. intros id t0 [[<- <-]|[Hne Hl]]%lookup_insert_Some.
      * split; [done|]. exists (as_nextID s + 1)%Z. split; [lia|done].
      * apply (ti_byID _ Hinv) in Hl as [? ?]. auto.
    + rewrite Hby, Hrun. intros id t0 [[<- <-]|[Hne Hl]]%lookup_insert_Some Hpend.
      * by rewrite lookup_insert_eq.
      * pose proof (ti_pending _ Hinv _ _ Hl Hpend) as Hr.
        destruct (decide (T_RunID t = T_RunID t0)) as [E|E].
        -- exfalso. rewrite <- E in Hr. by apply (Hp _ _ Hr Hl).
        -- by rewrite lookup_insert_ne.
  - pose proof (ti_counter _ Hinv). split; [lia| |].
    + rewrite Hby. unfold appr_issued. rewrite Hn. intros id0 t0 [[<- <-]|[Hne Hl]]%lookup_insert_Some.
      * rewrite Hid. by apply (ti_byID _ Hinv).
      * by apply (ti_byID _ Hinv).
    + rewrite Hby, Hrun. intros id0 t0 [[<- <-]|[Hne Hl]]%lookup_insert_Some Hpend.
      * destruct Hle as (-> & _). apply (ti_pending _ Hinv); [done|].
        destruct (decide (T_Status t = StatusPending)); [done|]. by apply Hst in Hpend.
      * by apply (ti_pending _ Hinv).
Qed.

Lemma change_mono s s' id t :
  tickets_inv s -> store_change s s' -> as_byID s !! id = Some t ->
  exists t', as_byID s' !! id = Some t' /\ ticket_le t t'.
Proof.
  intros Hinv [->|t0 Hn Hid Hby Hrun Hp|id0 t0 t' Hn Ht Hby Hrun Hid Hle Hst] Hl; [by exists t| |].
  - exists t. split; [|done]. rewrite Hby, lookup_insert_ne; [done|]. intros E.
    pose proof (fresh_id s Hinv) as Hf. rewrite <- Hid in Hf. congruence.
  - rewrite Hby. destruct (decide (id0 = id)) as [->|Hne].
    + rewrite lookup_insert_eq. exists t'. split; [done|]. congruence.
    + rewrite lookup_insert_ne by done. by exists t.
Qed.

Lemma step_inv s s' : tickets_inv s -> ticket_step s s' -> tickets_inv s'.
Proof.
  intros Hinv Hst. pose proof (step_change s s' Hinv Hst) as Hch.
  apply (change_inv s); [done| |done]. pose proof (ti_counter _ Hinv).
  destruct Hch as [->|t Hn|id t t' Hn]; [lia| |lia].
  destruct Hst as [s s' now t1 r Hn1 Hs|s s' now id res r Hs|s s' now id ref r Hs]; [lia|..].
  - unfold Resolve in Hs. repeat case_match; simplify_eq/=; lia.
  - unfold UpsertExternalRef in Hs. repeat case_match; simplify_eq/=; lia.
Qed.

Lemma reachable_inv s : rtc ticket_step NewApprovalStore s -> tickets_inv s.
Proof.
  assert (H1 : tickets_inv NewApprovalStore) by (split; simpl; [done|by intros ?? ?%lookup_empty_Some..]).
  revert H1. generalize NewApprovalStore. intros s0 H1 Hr. revert H1.
  induction Hr; eauto using step_inv.
Qed.

Lemma reachable_mono s s' id t :
  tickets_inv s -> rtc ticket_step s s' -> as_byID s !! id = Some t ->
  exists t', as_byID s' !! id = Some t' /\ ticket_le t t'.
Proof.
  intros Hinv Hr. revert t Hinv. induction Hr as [s|s s1 s' Hst Hr IH]; intros t Hinv Hl; [by exists t|].
  destruct (change_mono s s1 id t Hinv (step_change _ _ Hinv Hst) Hl) as (t1 & Hl1 & Hle1).
  destruct (IH t1 (step_inv _ _ Hinv Hst) Hl1) as (t2 & Hl2 & Hle2).
  exists t2. split; [done|]. by transitivity t1.
Qed.

Lemma ticket_le_clone t t' : ticket_le t t' -> ticket_le (cloneTicket t) (cloneTicket t').
Proof. done. Qed.

(** C38: In every state of the approval store that its operations can reach, at
    most one ticket of a run is pending and a look-up by the run finds it;
    whatever operations follow, a ticket that was stored stays stored under its
    identifier with its run, and once it is resolved its verdict (status, time,
    resolver, note and scope) never changes again. *)
Theorem approval_tickets_safe s :
  rtc ticket_step NewApprovalStore s ->
  (forall id1 id2 t1 t2, GetTicket s id1 = Some t1 -> GetTicket s id2 = Some t2 ->
     T_Status t1 = StatusPending -> T_Status t2 = StatusPending -> T_RunID t1 = T_RunID t2 ->
     id1 = id2 /\ GetByRun s (T_RunID t1) = Some t1) /\
  (forall s' id t, rtc ticket_step s s' -> GetTicket s id = Some t ->
     exists t', GetTicket s' id = Some t' /\ T_RunID t' = T_RunID t /\
       (T_Status t <> StatusPending -> verdict t' = verdict t)).
Proof.
  intros Hr. pose proof (reachable_inv s Hr) as Hinv. unfold GetTicket, GetByRun. split.
  - intros id1 id2 t1 t2 (u1 & E1 & ->)%fmap_Some (u2 & E2 & ->)%fmap_Some P1 P2 HR. simpl in *.
    pose proof (ti_pending _ Hinv _ _ E1 P1) as R1. pose proof (ti_pending _ Hinv _ _ E2 P2) as R2.
    rewrite HR in R1. split; [congruence|]. rewrite HR, R1.
    change (cloneTicket <$> as_byID s !! id1 = Some (cloneTicket u1)). by rewrite E1.
  - intros s' id t Hr' (u & E & ->)%fmap_Some.
    destruct (reachable_mono s s' id u Hinv Hr' E) as (u' & E' & Hle).
    exists (cloneTicket u'). rewrite E'. split; [done|].
    destruct (ticket_le_clone _ _ Hle) as (? & _ & _ & ?). done.
Qed.

(** ** Resolutions and policies *)

(** The broadest scope a ticket may be approved with. *)
Definition policy_ceiling (t : Ticket) : Scope :=
  let '(defaultScope, maxScope) := scopePolicyFromTicket t in
  let maxScope := if decide (maxScope = "") then defaultScope else maxScope in
  if decide (maxScope = "") then ScopeOnce else maxScope.

(** What [NormalizeResolution] makes of an approval. *)
Lemma NormalizeResolution_approved t r r' :
  NormalizeResolution t r = inl r' -> Res_Status r = StatusApproved ->
  Res_Status r' = StatusApproved /\ valid_scope (Res_Scope r') /\ Res_Scope r' <> "" /\
  (ScopeRank (Res_Scope r') <= ScopeRank (policy_ceiling t))%Z.
Proof.
  intros Hn Ha. unfold NormalizeResolution in Hn.
  destruct (NormalizeScope (Res_Scope r)) as [scope|] eqn:Hs; [|done].
  apply NormalizeScope_valid in Hs. rewrite decide_False in Hn by (by intros []).
  unfold policy_ceiling. unfold scopePolicyFromTicket in *.
  destruct (T_Metadata t) as [m|].
  - set (d := scope_or_empty _) in *. set (mx := scope_or_empty _) in *.
    assert (Hd : valid_scope d) by apply scope_or_empty_valid.
    rewrite IsScopeBroader_rank in Hn. case_bool_decide as Hb; [done|].
    apply (inj inl) in Hn as <-. cbn [Res_Status Res_Scope].
    split_and!; [done| | |lia]; repeat case_decide; try done; by right; left.
  - rewrite IsScopeBroader_rank in Hn. case_bool_decide as Hb; [done|].
    apply (inj inl) in Hn as <-. cbn [Res_Status Res_Scope].
    split_and!; [done| | |lia]; repeat case_decide; try done; by right; left.
Qed.

Lemma NormalizeResolution_status t r r' :
  NormalizeResolution t r = inl r' -> Res_Status r' = Res_Status r.
Proof.
  unfold NormalizeResolution. repeat case_match; intros E; by simplify_eq/=.
Qed.

Lemma scope_in_metadata s m key :
  valid_scope s -> m !! key = None ->
  scope_or_empty (TrimSpace (Sprint (default AnyNil (put_scope key s m !! key)))) = s.
Proof.
  intros Hv Hm. unfold put_scope.
  assert (Ht : TrimSpace s = s) by (by destruct Hv as [->|[->|[->|[->| ->]]]]).
  rewrite Ht. case_decide as Hs.
  - rewrite Hm. simpl. rewrite Sprint_nil. subst s. unfold scope_or_empty, NormalizeScope.
    by rewrite ToLower_ascii by done.
  - rewrite lookup_insert_eq. simpl. rewrite Sprint_string, Ht. by apply scope_or_empty_id.
Qed.

Lemma put_scope_ne s m key key' : key <> key' -> put_scope key s m !! key' = m !! key'.
Proof. intros. unfold put_scope. case_decide; [done|]. by apply lookup_insert_ne. Qed.

(** The policy written into the metadata is the one read back. *)
Lemma policy_metadata_roundtrip t p m :
  policy_ok p -> T_Metadata t = Some (approvalPolicyMetadata (Some p) m) ->
  m !! "policy_approval_default_scope" = None -> m !! "policy_approval_max_scope" = None ->
  scopePolicyFromTicket t = (DefaultScope p, MaxScope p).
Proof.
  intros (Hd & Hm & _) Ht H1 H2. unfold scopePolicyFromTicket. rewrite Ht.
  cbn [approvalPolicyMetadata]. f_equal.
  - rewrite put_scope_ne by done. by apply scope_in_metadata.
  - apply scope_in_metadata; [done|]. by rewrite put_scope_ne.
Qed.

(** A pending ticket that carries a proper policy is approved at the policy's
    default scope when the resolution names none. *)
Lemma Resolve_default_scope s now id r t p m :
  policy_named p -> as_byID s !! id = Some t -> T_Status t = StatusPending ->
  T_Metadata t = Some (approvalPolicyMetadata (Some p) m) ->
  m !! "policy_approval_default_scope" = None -> m !! "policy_approval_max_scope" = None ->
  Res_Status r = StatusApproved -> Res_Scope r = "" ->
  exists t', (Resolve s now id r).2 = inl t' /\ T_Scope t' = DefaultScope p.
Proof.
  intros (Hok & Hd & Hmax) Ht Hpend Hm H1 H2 Ha Hs. pose proof Hok as (Hv1 & Hv2 & Hle).
  pose proof (policy_metadata_roundtrip t _ m Hok Hm H1 H2) as Hpol.
  destruct (Resolve s now id r) as [s' res] eqn:Hres. unfold Resolve in Hres.
  rewrite Ht, decide_False in Hres by (by intros []).
  unfold NormalizeResolution in Hres. rewrite Ha, Hs, Hpol in Hres.
  rewrite (valid_scope_fixed "") in Hres by (by left). rewrite decide_False in Hres by (by intros []).
  rewrite (decide_True (P := "" = "")), (decide_False (P := DefaultScope _ = "")) in Hres by done.
  rewrite !(decide_False (P := MaxScope _ = "")) in Hres by done.
  rewrite bool_decide_eq_true_2 in Hres by (by left). cbn [negb] in Hres.
  rewrite IsScopeBroader_rank, bool_decide_eq_false_2 in Hres by lia. simplify_eq. by eexists.
Qed.

(** Resolving a ticket.  A failed resolution changes nothing.  A
    successful one found the ticket pending, stores the requested status,
    leaves every other ticket alone, and an approval is stored with a valid
    scope that is never broader than what the ticket's policy allows (once,
    when it has none).  Conversely a ticket whose metadata carries a
    normalized policy with a default scope can always be approved without
    naming a scope, and gets that default. *)
Theorem resolution_within_policy s now id r s' res :
  Resolve s now id r = (s', res) ->
  match res with
  | inr _ => s' = s
  | inl t' => exists t, as_byID s !! id = Some t /\ T_Status t = StatusPending /\
      T_Status t' = Res_Status r /\
      Res_Status r ∈ [StatusApproved; StatusDenied; StatusCancelled] /\
      GetTicket s' id = Some t' /\
      (forall id', id' <> id -> GetTicket s' id' = GetTicket s id') /\
      (Res_Status r = StatusApproved ->
       T_Scope t' <> "" /\ valid_scope (T_Scope t') /\
       (ScopeRank (T_Scope t') <= ScopeRank (policy_ceiling t))%Z)
  end /\
  (forall t p m, as_byID s !! id = Some t -> T_Status t = StatusPending ->
     T_Metadata t = Some (approvalPolicyMetadata (Some (Policy_Normalized p)) m) ->
     m !! "policy_approval_default_scope" = None -> m !! "policy_approval_max_scope" = None ->
     DefaultScope (Policy_Normalized p) <> "" ->
     Res_Status r = StatusApproved -> Res_Scope r = "" ->
     exists t', res = inl t' /\ T_Scope t' = DefaultScope (Policy_Normalized p)).
Proof.
  intros Hres. split.
  - unfold Resolve in Hres. destruct (as_byID s !! id) as [t|] eqn:Ht; [|by simplify_eq].
    case_decide as Hpend; [by simplify_eq|]. destruct (negb _) eqn:Hin; [by simplify_eq|].
    destruct (NormalizeResolution t r) as [r'|e] eqn:Hn; [|by simplify_eq]. simplify_eq.
    bool_prop. exists t. unfold GetTicket. cbn [as_byID]. rewrite lookup_insert_eq.
    split_and!; [done|done|by apply NormalizeResolution_status in Hn|done|done| |].
    + intros id' Hne. by rewrite lookup_insert_ne.
    + intros Ha. by apply NormalizeResolution_approved in Hn as (_ & ? & ? & ?).
  - intros t p m Ht Hpend Hm H1 H2 Hd Ha Hs.
    destruct (Resolve_default_scope s now id r t (Policy_Normalized p) m) as (t' & Ht' & Hsc); auto.
    { by apply Policy_Normalized_named. }
    rewrite Hres in Ht'. by exists t'.
Qed.
End Store.

(** ** A scenario: a ticket is created, approved and linked to an external system *)
Section Scenario.
#[local] Existing Instance ascii_unicode.
#[local] Existing Instance simple_fmt.

Definition session_policy : ApprovalPolicy := mkPolicy "session" "always".

Definition asked : Ticket :=
  mkTicket "" "run-1" "s" "" "" [] []
    (Some (approvalPolicyMetadata (Some (Policy_Normalized session_policy)) ∅))
    zeroTime zeroTime "" "" "" [].

Definition approve : Resolution := mkRes StatusApproved "alice" "" "".
Definition jira : ExternalReference := mkRef "Jira" " T-1 " "" "" None zeroTime.

Definition created : ApprovalStore := (CreateTicket NewApprovalStore 5 asked).1.
Definition approved : ApprovalStore := (Resolve created 6 "appr-000001" approve).1.
Definition linked : ApprovalStore := (UpsertExternalRef approved 7 "appr-000001" jira).1.

Lemma approved_reachable : rtc ticket_step NewApprovalStore approved.
Proof.
  eapply rtc_l; [|eapply rtc_l; [|apply rtc_refl]].
  - apply (ts_create _ created 5 asked (CreateTicket NewApprovalStore 5 asked).2);
      [reflexivity|apply surjective_pairing].
  - eapply (ts_resolve _ approved). apply surjective_pairing.
Qed.

Lemma approval_tickets_safe_witness :
  exists t', GetTicket linked "appr-000001" = Some t' /\
    verdict t' = (StatusApproved, 6%Z, "alice", "", ScopeSession).
Proof.
  destruct (GetTicket approved "appr-000001") as [t|] eqn:Ht; [|vm_compute in Ht; discriminate].
  destruct (proj2 (approval_tickets_safe approved approved_reachable) linked "appr-000001" t)
    as (t' & Ht' & _ & Hv).
  - eapply rtc_l; [|apply rtc_refl]. eapply (ts_upsert _ linked). apply surjective_pairing.
  - exact Ht.
  - exists t'. split; [exact Ht'|]. apply (f_equal (fmap verdict)) in Ht.
    assert (E : verdict t = (StatusApproved, 6%Z, "alice", "", ScopeSession)).
    { apply (inj Some). change (verdict <$> Some t = Some (StatusApproved, 6%Z, "alice", "", ScopeSession)).
      rewrite <- Ht. vm_compute. reflexivity. }
    rewrite Hv; [exact E|]. unfold verdict in E. injection E as -> _ _ _ _. discriminate.
Defined.

Lemma resolution_within_policy_witness :
  exists t', (Resolve created 6 "appr-000001" approve).2 = inl t' /\ T_Scope t' = ScopeSession.
Proof.
  destruct (resolution_within_policy created 6 "appr-000001" approve approved
    (Resolve created 6 "appr-000001" approve).2) as [_ H]; [apply surjective_pairing|].
  apply (H (cloneTicket (pending_ticket 5 1 asked)) session_policy ∅); vm_compute; reflexivity || discriminate.
Defined.
End Scenario.
