(* ===== verification/GrantStore.v ===== *)
(** * Standing approval grants ([approval/scope.go])

    Per session and tool the store keeps grants and denials, each for a
    resource scope.  [Evaluate] takes the resource scope collected from the
    call's input. *)
From S2P Require Import Prelude GoLib ResourceScope ApprovalPolicy.
Import Str Text.

Record grantRecord := mkGrant { gr_scope : Scope; gr_resourceScope : ResourceScope }.

(** The grants by session and tool. *)
Abbreviation GrantMap := (gmap (string * string) (list grantRecord)).

Record GrantDecision := mkGD {
  GD_Granted : bool;
  GD_Denied : bool;
  GD_Scope : Scope;
  GD_ResourceScope : ResourceScope
}.

Definition noDecision : GrantDecision := mkGD false false "" emptyScope.

Definition NewGrantStore : GrantMap := ∅.

Section Grants.
Context `{GoUnicode}.

Definition rec_signature (r : grantRecord) : string := signature (gr_resourceScope r).

Fixpoint upsertGrantRecord (records : list grantRecord) (candidate : grantRecord)
    : list grantRecord :=
  match records with
  | [] => [candidate]
  | record :: rest =>
    if decide (rec_signature record <> rec_signature candidate)
    then record :: upsertGrantRecord rest candidate
    else candidate :: rest
  end.

Definition GrantScoped (g : GrantMap) (sessionID toolName : string) (scope : Scope)
    (resourceScope : ResourceScope) : GrantMap :=
  let key := (sessionID, toolName) in
  let record := mkGrant scope (Normalized resourceScope) in
  if decide (scope = ScopeSession \/ scope = ScopeAlways \/ scope = ScopeDeny) then
    <[key := upsertGrantRecord (default [] (g !! key)) record]> g
  else g.

Definition Grant (g : GrantMap) (sessionID toolName : string) (scope : Scope) : GrantMap :=
  GrantScoped g sessionID toolName scope emptyScope.

Definition standing (r : grantRecord) : bool :=
  bool_decide (gr_scope r = ScopeSession) || bool_decide (gr_scope r = ScopeAlways).

Definition IsGranted (g : GrantMap) (sessionID toolName : string) : bool :=
  existsb standing (default [] (g !! (sessionID, toolName))).

Definition IsDenied (g : GrantMap) (sessionID toolName : string) : bool :=
  existsb (fun r => bool_decide (gr_scope r = ScopeDeny)) (default [] (g !! (sessionID, toolName))).

(** [Evaluate] of a call whose collected scope is [request]. *)
Definition Evaluate (g : GrantMap) (sessionID toolName : string) (request : ResourceScope)
    : GrantDecision :=
  let records := default [] (g !! (sessionID, toolName)) in
  match head (filter (fun r => gr_scope r = ScopeDeny /\
                               Matches (gr_resourceScope r) request = true) records) with
  | Some r => mkGD false true (gr_scope r) (Normalized (gr_resourceScope r))
  | None =>
    match head (filter (fun r => standing r = true /\
                                 Matches (gr_resourceScope r) request = true) records) with
    | Some r => mkGD true false (gr_scope r) (Normalized (gr_resourceScope r))
    | None => noDecision
    end
  end.

Definition Revoke (g : GrantMap) (sessionID toolName : string) : GrantMap :=
  delete (sessionID, toolName) g.

Definition RevokeSession (g : GrantMap) (sessionID : string) : GrantMap :=
  filter (fun kv => kv.1.1 <> sessionID) g.

(** ** The specification: the grants in force after a history *)

Inductive GrantOp :=
| OpGrant (sessionID toolName : string) (scope : Scope) (rs : ResourceScope)
| OpRevoke (sessionID toolName : string)
| OpRevokeSession (sessionID : string).

Definition grant_step (g : GrantMap) (op : GrantOp) : GrantMap :=
  match op with
  | OpGrant sid tool scope rs => GrantScoped g sid tool scope rs
  | OpRevoke sid tool => Revoke g sid tool
  | OpRevokeSession sid => RevokeSession g sid
  end.

(** What an operation does to the grant of one resource signature for one
    session and tool. *)
Definition live_step (sid tool sig : string) (live : option grantRecord) (op : GrantOp)
    : option grantRecord :=
  match op with
  | OpGrant sid' tool' scope rs =>
    let r := mkGrant scope (Normalized rs) in
    if decide ((sid', tool') = (sid, tool) /\ scope ∈ [ScopeSession; ScopeAlways; ScopeDeny]
               /\ rec_signature r = sig) then Some r else live
  | OpRevoke sid' tool' => if decide ((sid', tool') = (sid, tool)) then None else live
  | OpRevokeSession sid' => if decide (sid' = sid) then None else live
  end.

(** The grant in force: the last one given and not revoked since. *)
Definition live (ops : list GrantOp) (sid tool sig : string) : option grantRecord :=
  foldl (live_step sid tool sig) None ops.

Definition grants_after (ops : list GrantOp) : GrantMap := foldl grant_step NewGrantStore ops.

(** ** Refinement *)

(** The records of one key hold the grants in force, one per signature. *)
Definition records_live (l : list grantRecord) (live : string -> option grantRecord) : Prop :=
  NoDup (rec_signature <$> l) /\ forall r, r ∈ l <-> live (rec_signature r) = Some r.

Lemma upsert_elem l c r :
  NoDup (rec_signature <$> l) ->
  r ∈ upsertGrantRecord l c <-> r = c \/ (r ∈ l /\ rec_signature r <> rec_signature c).
Proof.
  induction l as [|x l IH]; simpl; intros Hnd.
  - rewrite list_elem_of_singleton. split; [by left|]. intros [->|[H1%elem_of_nil _]]; done.
  - apply NoDup_cons in Hnd as [Hx Hnd]. case_decide as Hs.
    + rewrite !elem_of_cons, IH by done. naive_solver.
    + rewrite !elem_of_cons. split; [|naive_solver]. intros [->|Hr]; [by left|right].
      split; [by right|]. intros E. apply Hx. rewrite Hs, <- E. by apply list_elem_of_fmap_2.
Qed.

Lemma upsert_signatures l c :
  NoDup (rec_signature <$> l) -> NoDup (rec_signature <$> upsertGrantRecord l c).
Proof.
  induction l as [|x l IH]; simpl; intros Hnd; [apply NoDup_singleton|].
  pose proof Hnd as [Hx Hl]%NoDup_cons. case_decide as Hs.
  - simpl. constructor; [|by apply IH]. intros (r & E & Hr)%list_elem_of_fmap.
    apply upsert_elem in Hr; [|done]. destruct Hr as [->|[Hr _]]; [done|].
    apply Hx. rewrite E. by apply list_elem_of_fmap_2.
  - simpl. by rewrite <- Hs.
Qed.

Lemma records_live_upsert l lv c :
  records_live l lv ->
  records_live (upsertGrantRecord l c)
    (fun sig => if decide (rec_signature c = sig) then Some c else lv sig).
Proof.
  intros [Hnd Hl]. split; [by apply upsert_signatures|]. intros r.
  rewrite upsert_elem, Hl by done. case_decide as Hs; [|naive_solver].
  split; [naive_solver|]. intros [= ->]. by left.
Qed.

Lemma records_live_ext l lv lv' :
  records_live l lv -> (forall sig, lv sig = lv' sig) -> records_live l lv'.
Proof. intros [H1 H2] E. split; [done|]. intros r. by rewrite H2, E. Qed.

Lemma grant_step_live g lv sid tool op :
  records_live (default [] (g !! (sid, tool))) lv ->
  records_live (default [] (grant_step g op !! (sid, tool)))
    (fun sig => live_step sid tool sig (lv sig) op).
Proof.
  intros Hl. assert (Hnil : records_live [] (fun _ => None)).
  { split; [constructor|]. intros r. split; [by intros ?%elem_of_nil|done]. }
  destruct op as [sid' tool' scope rs|sid' tool'|sid']; cbn [grant_step live_step].
  - unfold GrantScoped. destruct (decide (scope = ScopeSession \/ _)) as [Hs|Hs].
    + assert (Hin : scope ∈ [ScopeSession; ScopeAlways; ScopeDeny])
        by (rewrite !elem_of_cons; naive_solver).
      destruct (decide ((sid', tool') = (sid, tool))) as [E|E].
      * rewrite E, lookup_insert_eq. eapply records_live_ext; [by apply records_live_upsert|].
        intros sig. cbv beta. repeat case_decide; naive_solver.
      * rewrite lookup_insert_ne by done. eapply records_live_ext; [done|].
        intros sig. cbv beta. case_decide; naive_solver.
    + eapply records_live_ext; [done|]. intros sig. simpl. case_decide as Hc; [|done].
      destruct Hc as (_ & Hin & _). rewrite !elem_of_cons in Hin.
      destruct Hin as [?|[?|[?|[]%elem_of_nil]]]; naive_solver.
  - unfold Revoke. destruct (decide ((sid', tool') = (sid, tool))) as [E|E].
    + by rewrite E, lookup_delete_eq.
    + by rewrite lookup_delete_ne.
  - unfold RevokeSession. rewrite map_lookup_filter.
    destruct (g !! (sid, tool)) as [l|] eqn:Hg; simpl in *.
    + destruct (decide (sid' = sid)) as [->|Hne].
      * rewrite option_guard_False by (by intros []). done.
      * rewrite option_guard_True by congruence. done.
    + case_decide; done.
Qed.

Lemma grants_after_live ops sid tool :
  records_live (default [] (grants_after ops !! (sid, tool))) (live ops sid tool).
Proof.
  unfold grants_after, live. induction ops as [|op ops IH] using rev_ind; simpl.
  - split; [constructor|]. intros r. split; [by intros ?%elem_of_nil|done].
  - rewrite foldl_snoc. eapply records_live_ext; [by apply grant_step_live|].
    intros sig. simpl. by rewrite foldl_snoc.
Qed.

Lemma head_filter_Some {A} (P : A -> Prop) `{!forall x, Decision (P x)} l x :
  head (filter P l) = Some x -> x ∈ l /\ P x.
Proof.
  intros Hh. assert (Hx : x ∈ filter P l).
  { destruct (filter P l) as [|y l']; [done|]. simplify_eq/=. by left. }
  apply list_elem_of_filter in Hx. tauto.
Qed.

Lemma head_filter_None {A} (P : A -> Prop) `{!forall x, Decision (P x)} l :
  head (filter P l) = None -> forall x, x ∈ l -> ~ P x.
Proof.
  intros Hh x Hx HP. assert (Hin : x ∈ filter P l) by (by apply list_elem_of_filter).
  destruct (filter P l); [by apply elem_of_nil in Hin|done].
Qed.

(** Some grant in force has the property. *)
Definition in_force (ops : list GrantOp) (sid tool : string) (P : grantRecord -> Prop) : Prop :=
  exists sig r, live ops sid tool sig = Some r /\ rec_signature r = sig /\ P r.

(** C39: The grant store implements its history: after any sequence of grants and
    revocations, a call is denied exactly when a denial in force (given for
    its session and tool, not replaced by a later grant for the same resources
    and not revoked since) covers it; it is granted exactly when none does and
    a session or always grant in force covers it; it is never both, and a
    grant for a single invocation leaves no trace. *)
Theorem grants_implement_history ops sid tool request :
  let d := Evaluate (grants_after ops) sid tool request in
  let covering (P : grantRecord -> Prop) :=
    in_force ops sid tool (fun r => P r /\ Matches (gr_resourceScope r) request = true) in
  (GD_Denied d = true <-> covering (fun r => gr_scope r = ScopeDeny)) /\
  (GD_Granted d = true <->
   ~ covering (fun r => gr_scope r = ScopeDeny) /\ covering (fun r => standing r = true)) /\
  ~ (GD_Denied d = true /\ GD_Granted d = true) /\
  (forall sid' tool' rs,
     Evaluate (grants_after (ops ++ [OpGrant sid' tool' ScopeOnce rs])) sid tool request = d).
Proof.
  intros d covering. destruct (grants_after_live ops sid tool) as [_ Hl].
  assert (Hcov : forall P : grantRecord -> Prop,
    covering P <-> exists r, r ∈ default [] (grants_after ops !! (sid, tool)) /\ P r /\
      Matches (gr_resourceScope r) request = true).
  { intros P. unfold covering, in_force. setoid_rewrite Hl. naive_solver. }
  rewrite !Hcov. subst d. split_and!.
  - unfold Evaluate. destruct (head _) as [r|] eqn:Hh.
    + apply head_filter_Some in Hh as (? & ? & ?). simpl. naive_solver.
    + pose proof (head_filter_None _ _ Hh) as Hn. simpl in Hn.
      destruct (head (filter (fun r => standing r = true /\ _) _)); simpl; naive_solver.
  - unfold Evaluate. destruct (head _) as [r|] eqn:Hh.
    + apply head_filter_Some in Hh as (? & ? & ?). simpl. naive_solver.
    + pose proof (head_filter_None _ _ Hh) as Hn. simpl in Hn.
      destruct (head (filter (fun r => standing r = true /\ _) _)) as [r|] eqn:Hh2; simpl.
      * apply head_filter_Some in Hh2 as (? & ? & ?). naive_solver.
      * pose proof (head_filter_None _ _ Hh2) as Hn2. simpl in Hn2. naive_solver.
  - unfold Evaluate. destruct (head _); simpl; [naive_solver|].
    destruct (head _); simpl; naive_solver.
  - intros sid' tool' rs. unfold grants_after. rewrite foldl_snoc. cbn [grant_step].
    unfold GrantScoped. by rewrite decide_False by (by intros [|[|]]).
Qed.

(** A denial covers a call only when it covers every resource of the call:
    with a standing grant for the tool and a denial of [/etc], writing
    [/etc/passwd] is denied, but writing it together with [/tmp/x] is
    granted. *)
Theorem denial_evaded :
  let ops := [OpGrant "s" "fs.write" ScopeAlways emptyScope;
              OpGrant "s" "fs.write" ScopeDeny (mkRS ["/etc"] [] [] ∅ "")] in
  let one := mkRS ["/etc/passwd"] [] [] ∅ "" in
  let two := mkRS ["/etc/passwd"; "/tmp/x"] [] [] ∅ "" in
  GD_Denied (Evaluate (grants_after ops) "s" "fs.write" one) = true /\
  GD_Granted (Evaluate (grants_after ops) "s" "fs.write" two) = true.
Proof. split; vm_compute; reflexivity. Qed.
End Grants.
