(* ===== verification/ApprovalTimeout.v ===== *)
(** * Timing out pending approvals ([approval/timeout.go])

    The service sweeps the pending tickets: it cancels the ones that are too
    old, warns once about the ones that soon will be, and forces the
    cancellation of tickets that keep failing to cancel.  The callbacks belong
    to the caller: [resolve] and [force] are functions that return the error of
    the call, and the calls made are logged as actions.  [time.Now] and the
    listing of the store are arguments of a sweep. *)
From S2P Require Import Prelude GoLib Normalize RunStore ResourceScope ApprovalPolicy Approval.
Import Str GoTime GoInt.

(** ** Data *)

Record TimeoutConfig := mkTC {
  ApprovalTimeout : Duration;
  GracePeriod : Duration;
  CheckInterval : Duration
}.

(** Which of the failure callbacks are installed. *)
Record TimeoutFailureHooks := mkHooks {
  OnListFailure : bool;
  OnListRecovered : bool;
  OnResolveFailure : bool;
  OnResolveRecovered : bool
}.

Record TimeoutService := mkTS {
  ts_config : TimeoutConfig;
  ts_notify : bool;                     (* a warning callback is installed *)
  ts_notified : gset string;
  ts_resolveFailures : gmap string Z;
  ts_forceResolve : bool;               (* a forced cancellation is installed *)
  ts_maxForceAttempts : Z;
  ts_failureHooks : TimeoutFailureHooks;
  ts_listFailed : bool;
  ts_running : bool                     (* the sweep loop has been started *)
}.

Inductive Action :=
| ActResolve (id : string)
| ActForce (id : string)
| ActNotify (id : string) (remaining : Duration)
| ActResolveFailure (id : option string) (attempts : Z) (err : string)
| ActResolveRecovered (id : string)
| ActListFailure (err : string)
| ActListRecovered.

Definition defaultCheckInterval : Duration := (30 * Second)%Z.
Definition defaultForceAttempts : Z := 3.

Definition NewTimeoutService (cfg : TimeoutConfig) (notify : bool) : TimeoutService :=
  mkTS (mkTC (ApprovalTimeout cfg) (GracePeriod cfg)
          (if decide (CheckInterval cfg <= 0)%Z then defaultCheckInterval else CheckInterval cfg))
    notify ∅ ∅ false 0 (mkHooks false false false false) false false.

Definition WithFailureHooks (s : TimeoutService) (hooks : TimeoutFailureHooks) : TimeoutService :=
  mkTS (ts_config s) (ts_notify s) (ts_notified s) (ts_resolveFailures s) (ts_forceResolve s)
    (ts_maxForceAttempts s) hooks (ts_listFailed s) (ts_running s).

Definition WithForceResolve (s : TimeoutService) (maxAttempts : Z) (force : bool)
    : TimeoutService :=
  mkTS (ts_config s) (ts_notify s) (ts_notified s) (ts_resolveFailures s) force
    (if force && bool_decide (maxAttempts <= 0)%Z then defaultForceAttempts else maxAttempts)
    (ts_failureHooks s) (ts_listFailed s) (ts_running s).

Definition set_notified (s : TimeoutService) (n : gset string) : TimeoutService :=
  mkTS (ts_config s) (ts_notify s) n (ts_resolveFailures s) (ts_forceResolve s)
    (ts_maxForceAttempts s) (ts_failureHooks s) (ts_listFailed s) (ts_running s).

Definition set_failures (s : TimeoutService) (f : gmap string Z) : TimeoutService :=
  mkTS (ts_config s) (ts_notify s) (ts_notified s) f (ts_forceResolve s)
    (ts_maxForceAttempts s) (ts_failureHooks s) (ts_listFailed s) (ts_running s).

Definition set_listFailed (s : TimeoutService) (b : bool) : TimeoutService :=
  mkTS (ts_config s) (ts_notify s) (ts_notified s) (ts_resolveFailures s) (ts_forceResolve s)
    (ts_maxForceAttempts s) (ts_failureHooks s) b (ts_running s).

Definition set_running (s : TimeoutService) (b : bool) : TimeoutService :=
  mkTS (ts_config s) (ts_notify s) (ts_notified s) (ts_resolveFailures s) (ts_forceResolve s)
    (ts_maxForceAttempts s) (ts_failureHooks s) (ts_listFailed s) b.

(** [Start] launches one loop; the result says whether it did. *)
Definition Start (s : TimeoutService) : TimeoutService * bool :=
  if ts_running s then (s, false) else (set_running s true, true).

Definition Stop (s : TimeoutService) : TimeoutService := set_running s false.

(** ** Failures *)

Definition hook (installed : bool) (a : Action) : list Action := if installed then [a] else [].

Definition recordListFailure (s : TimeoutService) (err : string) : TimeoutService * list Action :=
  (set_listFailed s true, hook (OnListFailure (ts_failureHooks s)) (ActListFailure err)).

Definition clearListFailure (s : TimeoutService) : TimeoutService * list Action :=
  (set_listFailed s false,
   hook (ts_listFailed s && OnListRecovered (ts_failureHooks s)) ActListRecovered).

Definition clearResolveFailure (s : TimeoutService) (ticketID : string)
    : TimeoutService * list Action :=
  let ticketID := TrimSpace ticketID in
  if decide (ticketID = "") then (s, [])
  else
    (set_failures s (delete ticketID (ts_resolveFailures s)),
     hook (bool_decide (is_Some (ts_resolveFailures s !! ticketID))
           && OnResolveRecovered (ts_failureHooks s)) (ActResolveRecovered ticketID)).

Definition nextResolveFailureForTicket (s : TimeoutService) (ticketID : string)
    : TimeoutService * Z :=
  let n := wrap64 (default 0%Z (ts_resolveFailures s !! ticketID) + 1) in
  (set_failures s (<[ticketID := n]> (ts_resolveFailures s)), n).

Section Sweep.
(** The callbacks: the error of cancelling a ticket, and of forcing it. *)
Context (resolve : string -> option string) (force : Ticket -> option string).

Definition force_error (err forceErr : string) : string :=
  "resolve timed-out approval: " +:+ err +:+ "; force-cancel fallback failed: " +:+ forceErr.

(** [handleResolveFailure]; the attempts and the error it returns are logged
    only. *)
Definition handleResolveFailure (s : TimeoutService) (ticket : option Ticket) (err : string)
    : TimeoutService * list Action :=
  match ticket with
  | None => (s, hook (OnResolveFailure (ts_failureHooks s)) (ActResolveFailure None 1 err))
  | Some t =>
    let '(s, attempts) := nextResolveFailureForTicket s (T_ID t) in
    let failed acts finalErr :=
      (s, acts ++ hook (OnResolveFailure (ts_failureHooks s))
                    (ActResolveFailure (Some (T_ID t)) attempts finalErr)) in
    if ts_forceResolve s && bool_decide (0 < ts_maxForceAttempts s)%Z
       && bool_decide (ts_maxForceAttempts s <= attempts)%Z then
      match force t with
      | None =>
        let '(s, acts) := clearResolveFailure s (T_ID t) in (s, ActForce (T_ID t) :: acts)
      | Some forceErr => failed [ActForce (T_ID t)] (force_error err forceErr)
      end
    else failed [] err
  end.

Definition age (now : Time) (t : Ticket) : Duration := Sub now (T_CreatedAt t).

Definition timed_out (s : TimeoutService) (now : Time) (t : Ticket) : bool :=
  bool_decide (ApprovalTimeout (ts_config s) <= age now t)%Z.

Definition graceThreshold (s : TimeoutService) : Duration :=
  wrap64 (ApprovalTimeout (ts_config s) - GracePeriod (ts_config s)).

(** The body of the sweep's loop. *)
Definition sweep_ticket (now : Time) (s : TimeoutService) (t : Ticket)
    : TimeoutService * list Action :=
  if timed_out s now t then
    match resolve (T_ID t) with
    | Some err =>
      let '(s, acts) := handleResolveFailure s (Some t) err in (s, ActResolve (T_ID t) :: acts)
    | None =>
      let '(s, acts) := clearResolveFailure s (T_ID t) in (s, ActResolve (T_ID t) :: acts)
    end
  else if bool_decide (graceThreshold s <= age now t)%Z && ts_notify s then
    if decide (T_ID t ∈ ts_notified s) then (s, [])
    else (set_notified s ({[T_ID t]} ∪ ts_notified s),
          [ActNotify (T_ID t) (wrap64 (ApprovalTimeout (ts_config s) - age now t))])
  else (s, []).

Fixpoint sweep_loop (now : Time) (s : TimeoutService) (tickets : list Ticket)
    : TimeoutService * list Action :=
  match tickets with
  | [] => (s, [])
  | t :: rest =>
    let '(s, acts) := sweep_ticket now s t in
    let '(s, acts') := sweep_loop now s rest in (s, acts ++ acts')
  end.

(** Forgetting the tickets that are no longer pending. *)
Definition prune (s : TimeoutService) (pendingIDs : gset string) : TimeoutService * list Action :=
  let gone := filter (fun kv => kv.1 ∉ pendingIDs) (map_to_list (ts_resolveFailures s)) in
  (set_failures (set_notified s (ts_notified s ∩ pendingIDs))
     (filter (fun kv => kv.1 ∈ pendingIDs) (ts_resolveFailures s)),
   gone ≫= (fun kv => hook (OnResolveRecovered (ts_failureHooks s)) (ActResolveRecovered kv.1))).

(** [sweep], on the listing of the pending tickets or its error. *)
Definition sweep (now : Time) (s : TimeoutService) (listing : list Ticket + string)
    : TimeoutService * list Action :=
  match listing with
  | inr err => recordListFailure s err
  | inl tickets =>
    let '(s, acts1) := clearListFailure s in
    let '(s, acts2) := sweep_loop now s tickets in
    let '(s, acts3) := prune s (list_to_set (T_ID <$> tickets)) in
    (s, acts1 ++ acts2 ++ acts3)
  end.

(** ** The calls a sweep makes *)

Definition resolve_calls (acts : list Action) : list string :=
  omap (fun a => match a with ActResolve id => Some id | _ => None end) acts.
Definition force_calls (acts : list Action) : list string :=
  omap (fun a => match a with ActForce id => Some id | _ => None end) acts.
Definition notify_calls (acts : list Action) : list (string * Duration) :=
  omap (fun a => match a with ActNotify id d => Some (id, d) | _ => None end) acts.

(** What callers configure, and no sweep changes. *)
Definition settings (s : TimeoutService) : TimeoutConfig * bool * bool * Z * TimeoutFailureHooks :=
  (ts_config s, ts_notify s, ts_forceResolve s, ts_maxForceAttempts s, ts_failureHooks s).

(** The ticket is in its grace period. *)
Definition in_grace (s : TimeoutService) (now : Time) (t : Ticket) : bool :=
  negb (timed_out s now t) && bool_decide (graceThreshold s <= age now t)%Z && ts_notify s.

(** The number of the failure that would be recorded now. *)
Definition next_attempt (s : TimeoutService) (t : Ticket) : Z :=
  wrap64 (default 0%Z (ts_resolveFailures s !! T_ID t) + 1).

(** Cancelling fails and the forced cancellation is due. *)
Definition force_due (s : TimeoutService) (now : Time) (t : Ticket) : bool :=
  timed_out s now t && bool_decide (is_Some (resolve (T_ID t))) && ts_forceResolve s
  && bool_decide (0 < ts_maxForceAttempts s)%Z
  && bool_decide (ts_maxForceAttempts s <= next_attempt s t)%Z.

(** The failures recorded for a listed ticket after the sweep. *)
Definition failures_after (s : TimeoutService) (now : Time) (t : Ticket) : option Z :=
  if timed_out s now t then
    match resolve (T_ID t) with
    | None => None
    | Some _ =>
      if force_due s now t && bool_decide (force t = None) then None else Some (next_attempt s t)
    end
  else ts_resolveFailures s !! T_ID t.

Lemma omap_hook {B} (f : Action -> option B) b a : f a = None -> omap f (hook b a) = [].
Proof. intros E. unfold hook. destruct b; [|done]. cbn. by rewrite E. Qed.

(** The effect of the loop's body on one ticket. *)
Lemma sweep_ticket_spec now s t s' acts :
  sweep_ticket now s t = (s', acts) -> Trimmed (T_ID t) -> T_ID t <> "" ->
  settings s' = settings s /\
  resolve_calls acts = (if timed_out s now t then [T_ID t] else []) /\
  force_calls acts = (if force_due s now t then [T_ID t] else []) /\
  (if decide (in_grace s now t = true /\ T_ID t ∉ ts_notified s) then
     notify_calls acts = [(T_ID t, wrap64 (ApprovalTimeout (ts_config s) - age now t))] /\
     ts_notified s' = {[T_ID t]} ∪ ts_notified s
   else notify_calls acts = [] /\ ts_notified s' = ts_notified s) /\
  ts_resolveFailures s' !! T_ID t = failures_after s now t /\
  (forall id, id <> T_ID t -> ts_resolveFailures s' !! id = ts_resolveFailures s !! id).
Proof.
  intros Hs Htr Hne. unfold Trimmed in Htr. unfold sweep_ticket in Hs.
  unfold in_grace, failures_after, force_due.
  destruct (timed_out s now t) eqn:Hto; cbn [negb andb].
  - rewrite decide_False by (by intros []).
    destruct (resolve (T_ID t)) as [err|] eqn:Hr.
    + rewrite bool_decide_eq_true_2 by (by eexists). cbn [andb].
      unfold handleResolveFailure, nextResolveFailureForTicket in Hs.
      fold (next_attempt s t) in Hs. cbn [ts_forceResolve ts_maxForceAttempts set_failures] in Hs.
      destruct (ts_forceResolve s && _ && _) eqn:Hf; cbn [andb].
      * destruct (force t) as [ferr|] eqn:Hfo.
        -- simplify_eq. rewrite (bool_decide_eq_false_2 (Some ferr = None)) by done.
           cbn [resolve_calls force_calls notify_calls omap list_omap app].
           split_and!; try done; try by apply omap_hook.
           ++ cbn. by rewrite omap_hook.
           ++ cbn. by rewrite omap_hook.
           ++ apply lookup_insert_eq.
           ++ intros id Hid. by apply lookup_insert_ne.
        -- unfold clearResolveFailure in Hs. rewrite Htr, decide_False in Hs by done. simplify_eq.
           rewrite (bool_decide_eq_true_2 (None = None)) by done.
           split_and!; try done; try (cbn; by rewrite omap_hook).
           ++ apply lookup_delete_eq.
           ++ intros id Hid. cbn. by rewrite lookup_delete_ne, lookup_insert_ne.
      * simplify_eq. split_and!; try done; try (cbn; by rewrite omap_hook).
        -- apply lookup_insert_eq.
        -- intros id Hid. by apply lookup_insert_ne.
    + unfold clearResolveFailure in Hs. rewrite Htr, decide_False in Hs by done. simplify_eq.
      rewrite (bool_decide_eq_false_2 (is_Some None)) by (by intros []).
      split_and!; try done; try (cbn; by rewrite omap_hook).
      * apply lookup_delete_eq.
      * intros id Hid. by apply lookup_delete_ne.
  - destruct (bool_decide _ && ts_notify s); [|simplify_eq].
    + case_decide as Hin; simplify_eq.
      * rewrite decide_False by (by intros []). done.
      * by rewrite decide_True by done.
    + rewrite decide_False by (by intros []). done.
Qed.

(** Two services that agree on the settings and on one ticket treat it alike. *)
Lemma settings_ext now s s' t :
  settings s' = settings s ->
  ts_resolveFailures s' !! T_ID t = ts_resolveFailures s !! T_ID t ->
  timed_out s' now t = timed_out s now t /\ in_grace s' now t = in_grace s now t /\
  force_due s' now t = force_due s now t /\ failures_after s' now t = failures_after s now t.
Proof.
  unfold settings. intros E F. injection E as E1 E2 E3 E4 E5.
  unfold in_grace, failures_after, force_due, next_attempt, timed_out, graceThreshold.
  by rewrite E1, E2, E3, E4, F.
Qed.

(** Listings of the store: distinct, trimmed, non-empty identifiers. *)
Definition listing_ok (tickets : list Ticket) : Prop :=
  NoDup (T_ID <$> tickets) /\ Forall (fun t => Trimmed (T_ID t) /\ T_ID t <> "") tickets.

(** The tickets the sweep warns about. *)
Definition to_warn (s : TimeoutService) (now : Time) (tickets : list Ticket) : list Ticket :=
  filter (fun t => in_grace s now t = true /\ T_ID t ∉ ts_notified s) tickets.

Definition warning (s : TimeoutService) (now : Time) (t : Ticket) : string * Duration :=
  (T_ID t, wrap64 (ApprovalTimeout (ts_config s) - age now t)).

Lemma sweep_loop_spec now s tickets s' acts :
  sweep_loop now s tickets = (s', acts) -> listing_ok tickets ->
  settings s' = settings s /\
  resolve_calls acts = T_ID <$> filter (fun t => timed_out s now t = true) tickets /\
  force_calls acts = T_ID <$> filter (fun t => force_due s now t = true) tickets /\
  notify_calls acts = warning s now <$> to_warn s now tickets /\
  ts_notified s' = list_to_set (T_ID <$> to_warn s now tickets) ∪ ts_notified s /\
  (forall t, t ∈ tickets -> ts_resolveFailures s' !! T_ID t = failures_after s now t) /\
  (forall id, id ∉ T_ID <$> tickets -> ts_resolveFailures s' !! id = ts_resolveFailures s !! id).
Proof.
  revert s acts. induction tickets as [|t rest IH]; intros s acts Hs [Hnd Htr].
  { simplify_eq/=. split_and!; try done; [set_solver|by intros t ?%elem_of_nil]. }
  cbn [sweep_loop] in Hs. destruct (sweep_ticket now s t) as [s1 acts1] eqn:Ht.
  destruct (sweep_loop now s1 rest) as [s2 acts2] eqn:Hr. simplify_eq.
  apply Forall_cons in Htr as [[Htr Hne] Hrest]. apply NoDup_cons in Hnd as [Hnotin Hnd].
  destruct (sweep_ticket_spec _ _ _ _ _ Ht Htr Hne) as (E & R1 & F1 & N1 & L1 & O1).
  destruct (IH _ _ Hr (conj Hnd Hrest)) as (E' & R2 & F2 & N2 & Nt2 & L2 & O2).
  assert (Hids : forall u, u ∈ rest -> T_ID u <> T_ID t).
  { intros u Hu Eq. apply Hnotin. rewrite <- Eq. by apply list_elem_of_fmap_2. }
  assert (Hext : forall u, u ∈ rest -> timed_out s1 now u = timed_out s now u /\
    in_grace s1 now u = in_grace s now u /\ force_due s1 now u = force_due s now u /\
    failures_after s1 now u = failures_after s now u).
  { intros u Hu. apply settings_ext; [done|]. apply O1. by apply Hids. }
  assert (Hw : to_warn s1 now rest = to_warn s now rest).
  { unfold to_warn. apply list_filter_ext. intros u Hu. destruct (Hext u Hu) as (_ & -> & _).
    pose proof (Hids u Hu). case_decide; destruct N1 as [_ ->]; set_solver. }
  assert (Hwarn : forall u, warning s1 now u = warning s now u).
  { intros u. unfold settings in E. injection E as Ec _ _ _ _. unfold warning. by rewrite Ec. }
  rewrite Hw in N2, Nt2. rewrite (list_fmap_ext (warning s1 now) (warning s now)) in N2; last first.
  { intros; apply Hwarn. }
  unfold resolve_calls, force_calls, notify_calls in *. rewrite !omap_app, R1, R2, F1, F2, N2.
  rewrite (list_filter_ext _ (fun u => timed_out s now u = true)) by
    (intros u Hu; by destruct (Hext u Hu) as (-> & _)).
  rewrite (list_filter_ext (fun u => force_due s1 now u = true) (fun u => force_due s now u = true)) by
    (intros u Hu; by destruct (Hext u Hu) as (_ & _ & -> & _)).
  rewrite !filter_cons. split_and!.
  - congruence.
  - destruct (timed_out s now t); [by rewrite decide_True|by rewrite decide_False].
  - destruct (force_due s now t); [by rewrite decide_True|by rewrite decide_False].
  - unfold to_warn at 2. rewrite filter_cons. fold (to_warn s now rest).
    case_decide; destruct N1 as [-> _]; done.
  - rewrite Nt2. unfold to_warn at 2. rewrite filter_cons. fold (to_warn s now rest).
    case_decide; destruct N1 as [_ ->]; set_solver.
  - intros u [->|Hu]%elem_of_cons; [by rewrite O2, L1|].
    rewrite L2 by done. by destruct (Hext u Hu) as (_ & _ & _ & ->).
  - intros id [Hid1 Hid2]%not_elem_of_cons. rewrite O2 by done. by apply O1.
Qed.

(** The calls of a pruning: only recoveries. *)
Lemma prune_spec s pending s' acts :
  prune s pending = (s', acts) ->
  settings s' = settings s /\ ts_notified s' = ts_notified s ∩ pending /\
  resolve_calls acts = [] /\ force_calls acts = [] /\ notify_calls acts = [] /\
  forall id, ts_resolveFailures s' !! id =
    if decide (id ∈ pending) then ts_resolveFailures s !! id else None.
Proof.
  intros Hp. unfold prune in Hp. simplify_eq.
  assert (Hno : forall {B} (f : Action -> option B), (forall id, f (ActResolveRecovered id) = None) ->
    forall l : list (string * Z), omap f (l ≫= (fun kv => hook (OnResolveRecovered (ts_failureHooks s))
      (ActResolveRecovered kv.1))) = []).
  { intros B f Hf l. induction l as [|kv l IH]; [done|]. cbn [mbind list_bind].
    by rewrite omap_app, omap_hook. }
  split_and!; try done; try by apply Hno.
  intros id. cbn. rewrite map_lookup_filter. destruct (ts_resolveFailures s !! id); simpl.
  - case_decide; [by rewrite option_guard_True|by rewrite option_guard_False].
  - by case_decide.
Qed.
End Sweep.

(** ** Sweeps *)

(** What one sweep meets: the time, the callbacks and the listing. *)
Record SweepInput := mkSI {
  si_now : Time;
  si_resolve : string -> option string;
  si_force : Ticket -> option string;
  si_listing : list Ticket + string
}.

Fixpoint sweeps (s : TimeoutService) (inputs : list SweepInput) : TimeoutService * list Action :=
  match inputs with
  | [] => (s, [])
  | i :: rest =>
    let '(s, acts) := sweep (si_resolve i) (si_force i) (si_now i) s (si_listing i) in
    let '(s, acts') := sweeps s rest in (s, acts ++ acts')
  end.

Lemma sweep_spec resolve force now s tickets s' acts :
  sweep resolve force now s (inl tickets) = (s', acts) -> listing_ok tickets ->
  resolve_calls acts = T_ID <$> filter (fun t => timed_out s now t = true) tickets /\
  force_calls acts = T_ID <$> filter (fun t => force_due resolve s now t = true) tickets /\
  notify_calls acts = warning s now <$> to_warn s now tickets /\
  ts_notified s' =
    (list_to_set (T_ID <$> to_warn s now tickets) ∪ ts_notified s) ∩ list_to_set (T_ID <$> tickets) /\
  (forall t, t ∈ tickets ->
     ts_resolveFailures s' !! T_ID t = failures_after resolve force s now t) /\
  (forall id, id ∉ T_ID <$> tickets -> ts_resolveFailures s' !! id = None).
Proof.
  intros Hs Hok. unfold sweep, clearListFailure in Hs.
  destruct (sweep_loop _ _ _ _ _) as [s1 acts2] eqn:Hl.
  destruct (prune s1 _) as [s2 acts3] eqn:Hp. simplify_eq.
  destruct (sweep_loop_spec _ _ _ _ _ _ _ Hl Hok) as (_ & R & F & N & Nt & L & _).
  destruct (prune_spec _ _ _ _ Hp) as (_ & Nt' & R' & F' & N' & L').
  unfold resolve_calls, force_calls, notify_calls in *.
  rewrite !omap_app, R, F, N, R', F', N', !app_nil_r, !omap_hook by done. split_and!; try done.
  - by rewrite Nt', Nt.
  - intros t Ht. rewrite L', decide_True; [by apply L|].
    apply elem_of_list_to_set. by apply list_elem_of_fmap_2.
  - intros id Hid. rewrite L', decide_False; [done|]. by rewrite elem_of_list_to_set.
Qed.

(** A ticket that stays listed stays notified, and is not warned about again. *)
Definition lists_ticket (id : string) (i : SweepInput) : Prop :=
  match si_listing i with
  | inl tickets => listing_ok tickets /\ id ∈ T_ID <$> tickets
  | inr _ => True
  end.

Lemma sweeps_no_second_warning s id inputs s' acts :
  sweeps s inputs = (s', acts) -> Forall (lists_ticket id) inputs -> id ∈ ts_notified s ->
  id ∉ (notify_calls acts).*1.
Proof.
  revert s acts. induction inputs as [|i inputs IH]; intros s acts Hs Hall Hin.
  { simplify_eq/=. apply not_elem_of_nil. }
  cbn [sweeps] in Hs. destruct (sweep _ _ _ _ _) as [s1 acts1] eqn:H1.
  destruct (sweeps s1 inputs) as [s2 acts2] eqn:H2. simplify_eq.
  apply Forall_cons in Hall as [Hi Hall]. unfold lists_ticket in Hi.
  assert (Hone : id ∈ ts_notified s1 /\ id ∉ (notify_calls acts1).*1).
  { destruct (si_listing i) as [tickets|err].
    - destruct Hi as [Hok Hid].
      destruct (sweep_spec _ _ _ _ _ _ _ H1 Hok) as (_ & _ & -> & -> & _). split; [set_solver|].
      rewrite <- list_fmap_compose. intros (t & -> & Ht)%list_elem_of_fmap.
      unfold to_warn in Ht. apply list_elem_of_filter in Ht as [[_ Hn] _]. done.
    - simpl in H1. unfold recordListFailure in H1. simplify_eq. split; [done|].
      unfold notify_calls. rewrite omap_hook by done. apply not_elem_of_nil. }
  destruct Hone as [Hin1 Hno]. unfold notify_calls in *. rewrite omap_app, fmap_app, elem_of_app.
  intros [?|Hx]; [done|]. by apply (IH _ _ H2 Hall Hin1).
Qed.

(** A sweep over the pending tickets cancels exactly the ones whose age has
    reached the timeout, each once and in listing order; it warns exactly about
    the ones in their grace period that were not warned before, and no later
    sweep warns again about a ticket that stays pending; it forces the
    cancellation of exactly the timed-out tickets whose cancellation fails for
    at least the configured number of consecutive sweeps; and it counts one
    more failure for a ticket that could not be cancelled, forgetting the count
    when it is cancelled, forced or no longer pending. *)
Theorem approval_timeout_sweep resolve force now s tickets s' acts :
  sweep resolve force now s (inl tickets) = (s', acts) -> listing_ok tickets ->
  resolve_calls acts = T_ID <$> filter (fun t => timed_out s now t = true) tickets /\
  force_calls acts = T_ID <$> filter (fun t => force_due resolve s now t = true) tickets /\
  notify_calls acts = warning s now <$> to_warn s now tickets /\
  (forall t, t ∈ tickets ->
     ts_resolveFailures s' !! T_ID t = failures_after resolve force s now t) /\
  (forall id, id ∉ T_ID <$> tickets -> ts_resolveFailures s' !! id = None) /\
  (forall t inputs s'' acts', t ∈ tickets -> in_grace s now t = true ->
     sweeps s' inputs = (s'', acts') -> Forall (lists_ticket (T_ID t)) inputs ->
     T_ID t ∉ (notify_calls acts').*1).
Proof.
  intros Hs Hok. destruct (sweep_spec _ _ _ _ _ _ _ Hs Hok) as (R & F & N & Nt & L & O).
  split_and!; try done. intros t inputs s'' acts' Ht Hg Hrest Hall.
  eapply sweeps_no_second_warning; [exact Hrest|done|]. rewrite Nt.
  apply elem_of_intersection. split; [|apply elem_of_list_to_set; by apply list_elem_of_fmap_2].
  destruct (decide (T_ID t ∈ ts_notified s)); [set_solver|]. apply elem_of_union_l.
  apply elem_of_list_to_set, list_elem_of_fmap_2. unfold to_warn. by apply list_elem_of_filter.
Qed.

Lemma approval_timeout_sweep_witness :
  let mk id created := mkTicket id "r" "s" "" StatusPending [] [] None created zeroTime "" "" "" [] in
  let s := NewTimeoutService (mkTC (10 * Minute) (2 * Minute) 0) true in
  let tickets := [mk "a" 1%Z; mk "b" (2 * Minute)%Z] in
  let r := sweep (fun _ => None) (fun _ => None) (11 * Minute)%Z s (inl tickets) in
  resolve_calls r.2 = ["a"] /\ notify_calls r.2 = [("b", Minute)].
Proof.
  intros mk s tickets r.
  destruct (approval_timeout_sweep (fun _ => None) (fun _ => None) (11 * Minute)%Z s tickets r.1 r.2)
    as (R & _ & N & _).
  - apply surjective_pairing.
  - split.
    + apply NoDup_cons. split; [|apply NoDup_singleton]. rewrite list_elem_of_singleton. discriminate.
    + repeat constructor; discriminate.
  - split; [rewrite R|rewrite N]; reflexivity.
Defined.
