(* ===== verification/GoText.v ===== *)
(** * More of Go's text libraries: fields, quoting and regular expressions

    [strings.Fields] on UTF-8 bytes; [strconv.Quote] as a class, because which
    code points it escapes depends on the Unicode tables; [regexp] as a class
    with an instance that compiles and runs the part of the syntax that the
    sources use in their built-in patterns: literals, [^], [$], [\s], groups,
    alternatives and [+]. *)
From S2P Require Import Prelude GoLib.
From Stdlib Require Import Ascii String DecimalString DecimalN DecimalFacts.
Import Str.

Local Open Scope list_scope.

(** ** [strings.Fields] *)

(** The words of a text; [cur] is the current word, last byte first. *)
Fixpoint fields_loop (cur l : bytes) : list bytes :=
  let flush (rest : list bytes) := match cur with [] => rest | _ => rev cur :: rest end in
  match l with
  | [] => flush []
  | a :: l1 =>
    if space1 a then flush (fields_loop [] l1) else
    match l1 with
    | [] => fields_loop (a :: cur) l1
    | b :: l2 =>
      if space2 a b then flush (fields_loop [] l2) else
      match l2 with
      | [] => fields_loop (a :: cur) l1
      | c :: l3 =>
        if space3 a b c then flush (fields_loop [] l3) else fields_loop (a :: cur) l1
      end
    end
  end.

Definition Fields (s : string) : list string :=
  string_of_list_ascii <$> fields_loop [] (list_ascii_of_string s).

(** [strings.Join]. *)
Definition Joins (parts : list string) (sep : string) : string := String.concat sep parts.

(** ** Trimming keeps printing characters *)

Lemma trim_front_keeps p1 p2 p3 (x : ascii) l :
  p1 x = false -> (forall b, p2 x b = false /\ p2 b x = false) ->
  (forall b c, p3 x b c = false /\ p3 b x c = false /\ p3 b c x = false) ->
  In x l -> In x (trim_front p1 p2 p3 l).
Proof.
  intros H1 H2 H3.
  induction l as [l IH] using (well_founded_induction
    (well_founded_ltof _ (@List.length ascii))); unfold ltof in IH.
  assert (Hrec : forall l', (List.length l' < List.length l)%nat -> In x l' -> In x (trim_front p1 p2 p3 l')) by auto.
  clear IH. destruct l as [|a [|b [|c l]]]; cbn [trim_front]; intros Hin; [done|..].
  - destruct (p1 a) eqn:Ha; [|done]. destruct Hin as [->|[]]. congruence.
  - destruct (p1 a) eqn:Ha.
    { destruct Hin as [->|Hin]; [congruence|]. by apply (Hrec [b]); [simpl; lia|]. }
    destruct (p2 a b) eqn:Hab; [|done].
    destruct Hin as [->|[->|[]]]; [destruct (H2 b)|destruct (H2 a)]; congruence.
  - destruct (p1 a) eqn:Ha.
    { destruct Hin as [->|Hin]; [congruence|]. by apply (Hrec (b :: c :: l)); [simpl; lia|]. }
    destruct (p2 a b) eqn:Hab.
    { destruct Hin as [->|[->|Hin]]; [destruct (H2 b); congruence|destruct (H2 a); congruence|].
      by apply (Hrec (c :: l)); [simpl; lia|]. }
    destruct (p3 a b c) eqn:Habc; [|done].
    destruct Hin as [->|[->|[->|Hin]]];
      [destruct (H3 b c) as (? & ? & ?)|destruct (H3 a c) as (? & ? & ?)|destruct (H3 a b) as (? & ? & ?)|];
      try congruence. apply Hrec; [simpl; lia|done].
Qed.

Lemma TrimSpace_keeps x s :
  byte_in 33 126 x = true -> In x (list_ascii_of_string s) -> TrimSpace s <> "".
Proof.
  intros Hx Hin.
  assert (Hsp : space1 x = false /\ (forall b, space2 x b = false /\ space2 b x = false) /\
    (forall b c, space3 x b c = false /\ space3 b x c = false /\ space3 b c x = false)).
  { unfold space1, space2, space3.
    rewrite !(byte_is_ne 33 126 x _ Hx) by lia. rewrite !(byte_in_disj 33 126 _ _ x Hx) by lia.
    split; [done|]. cbn [orb andb].
    split; intros; rewrite ?andb_false_r; split_and!; reflexivity. }
  destruct Hsp as (S1 & S2 & S3). intros Ht.
  assert (Hb : In x (trim_bytes (list_ascii_of_string s))).
  { unfold trim_bytes, trim_right, trim_left. apply in_rev. rewrite rev_involutive.
    apply trim_front_keeps; [done|..].
    - intros b. destruct (S2 b); done.
    - intros b c. destruct (S3 c b) as (? & ? & ?), (S3 b c) as (? & ? & ?). done.
    - apply in_rev. rewrite rev_involutive. apply trim_front_keeps; auto. }
  unfold TrimSpace in Ht. destruct (trim_bytes _); done.
Qed.

(** ** [strconv.Quote] *)

Definition quote_mark : string := String (ascii_of_nat 34) EmptyString.

(** Printing ASCII without quotation marks and backslashes. *)
Definition plain_byte (a : ascii) : bool :=
  byte_in 32 126 a && negb (byte_is 34 a) && negb (byte_is 92 a).

Class GoQuote := {
  Quote : string -> string;
  Quote_plain s : forallb plain_byte (list_ascii_of_string s) = true ->
    Quote s = quote_mark +:+ s +:+ quote_mark
}.

Definition simple_quote : GoQuote.
Proof. refine {| Quote s := quote_mark +:+ s +:+ quote_mark |}; done. Defined.

(** ** [regexp] *)

Class GoRegexp := {
  Regexp : Type;
  Compile : string -> option Regexp;
  MatchString : Regexp -> string -> bool
}.

Module Regex.
Inductive re :=
  | REmpty | RBegin | REnd | RSpace
  | RChar (a : ascii)
  | RSeq (r s : re)
  | RAlt (r s : re)
  | RPlus (r : re).

(** [\s] is [[\t\n\f\r ]]. *)
Definition re_space (a : ascii) : bool :=
  byte_in 9 10 a || byte_in 12 13 a || byte_is 32 a.

(** Whether a match of the expression at this point of the text can be
    continued; [first] says that the point is the start of the text. *)
Fixpoint rmatch (r : re) (first : bool) (l : bytes) (k : bool -> bytes -> bool) : bool :=
  match r with
  | REmpty => k first l
  | RBegin => first && k first l
  | REnd => match l with [] => k first l | _ => false end
  | RSpace => match l with a :: l' => re_space a && k false l' | [] => false end
  | RChar c => match l with a :: l' => bool_decide (a = c) && k false l' | [] => false end
  | RSeq r s => rmatch r first l (fun f l' => rmatch s f l' k)
  | RAlt r s => rmatch r first l k || rmatch s first l k
  | RPlus r =>
    (fix plus (n : nat) (first : bool) (l : bytes) : bool :=
       match n with
       | O => false
       | S n => rmatch r first l (fun f l' => k f l' || plus n f l')
       end) (S (List.length l)) first l
  end.

(** A match that starts at any point. *)
Fixpoint search (r : re) (first : bool) (l : bytes) : bool :=
  rmatch r first l (fun _ _ => true) ||
  match l with [] => false | _ :: l' => search r false l' end.

(** The characters that the subset does not give their literal meaning. *)
Definition special (a : ascii) : bool :=
  existsb (fun b => bool_decide (a = b)) (list_ascii_of_string "\.*?[]{}|()+^$").

(** Parsing an alternative of sequences up to a closing parenthesis or the
    end; [fuel] bounds the number of steps. *)
Fixpoint parse (fuel : nat) (acc : re) (l : bytes) : option (re * bytes) :=
  match fuel with
  | O => None
  | S fuel =>
    let atom (r : re) (l : bytes) :=
      match l with
      | a :: l' => if decide (a = "+"%char) then parse fuel (RSeq acc (RPlus r)) l'
                   else parse fuel (RSeq acc r) l
      | [] => parse fuel (RSeq acc r) l
      end in
    match l with
    | [] => Some (acc, [])
    | a :: l' =>
      if decide (a = ")"%char) then Some (acc, l)
      else if decide (a = "|"%char) then
        match parse fuel REmpty l' with
        | Some (r, rest) => Some (RAlt acc r, rest)
        | None => None
        end
      else if decide (a = "^"%char) then atom RBegin l'
      else if decide (a = "$"%char) then atom REnd l'
      else if decide (a = "("%char) then
        match parse fuel REmpty l' with
        | Some (r, b :: rest) => if decide (b = ")"%char) then atom r rest else None
        | _ => None
        end
      else if decide (a = "\"%char) then
        match l' with
        | b :: rest => if decide (b = "s"%char) then atom RSpace rest else None
        | [] => None
        end
      else if special a then None
      else atom (RChar a) l'
    end
  end.

Definition compile (p : string) : option re :=
  let l := list_ascii_of_string p in
  match parse (S (2 * List.length l)) REmpty l with
  | Some (r, []) => Some r
  | _ => None
  end.

Definition match_string (r : re) (s : string) : bool := search r true (list_ascii_of_string s).
End Regex.

Definition builtin_regexp : GoRegexp :=
  {| Regexp := Regex.re; Compile := Regex.compile; MatchString := Regex.match_string |}.

(** ** Splitting and joining at one byte *)

(** [strings.Split(s, sep)] for a separator of one byte. *)
Fixpoint SplitByte (sep : ascii) (s : string) : list string :=
  match s with
  | EmptyString => [""]
  | String a rest =>
    if decide (a = sep) then "" :: SplitByte sep rest
    else match SplitByte sep rest with
         | [] => [String a ""]
         | part :: parts => String a part :: parts
         end
  end.

(** The string does not contain the byte. *)
Definition lacks (c : ascii) (s : string) : Prop := ~ In c (list_ascii_of_string s).

#[export] Instance lacks_dec c s : Decision (lacks c s).
Proof. unfold lacks. destruct (in_dec ascii_dec c (list_ascii_of_string s)); [right|left]; tauto. Defined.

Lemma in_app_string c s t :
  In c (list_ascii_of_string (s +:+ t)) <->
  In c (list_ascii_of_string s) \/ In c (list_ascii_of_string t).
Proof.
  induction s as [|a s IH]; [cbn; tauto|].
  change (String a s +:+ t) with (String a (s +:+ t)). cbn [list_ascii_of_string]. cbn. tauto.
Qed.

Lemma lacks_app c s t : lacks c (s +:+ t) <-> lacks c s /\ lacks c t.
Proof. unfold lacks. rewrite in_app_string. tauto. Qed.

Lemma SplitByte_lacks sep s : lacks sep s -> SplitByte sep s = [s].
Proof.
  unfold lacks. induction s as [|a s IH]; intros Hl; [done|]. cbn [SplitByte].
  rewrite decide_False by (intros ->; apply Hl; by left).
  rewrite IH; [done|]. intros Hin. apply Hl. by right.
Qed.

Lemma SplitByte_app sep part s :
  lacks sep part -> SplitByte sep (part +:+ String sep s) = part :: SplitByte sep s.
Proof.
  unfold lacks. induction part as [|a part IH]; intros Hl.
  - change ("" +:+ String sep s) with (String sep s). cbn [SplitByte]. by rewrite decide_True.
  - change (String a part +:+ String sep s) with (String a (part +:+ String sep s)). cbn [SplitByte].
    rewrite decide_False by (intros ->; apply Hl; by left).
    rewrite IH; [done|]. intros Hin. apply Hl. by right.
Qed.

(** Splitting undoes joining when no part contains the separator. *)
Lemma SplitByte_Joins sep parts :
  parts <> [] -> Forall (lacks sep) parts -> SplitByte sep (Joins parts (String sep "")) = parts.
Proof.
  unfold Joins. induction parts as [|part [|part' parts] IH]; intros Hne Hf; [done|..].
  - apply SplitByte_lacks. by inversion Hf.
  - apply Forall_cons in Hf as [Hp Hf].
    change (String.concat (String sep "") (part :: part' :: parts))
      with (part +:+ String sep (String.concat (String sep "") (part' :: parts))).
    rewrite SplitByte_app by done. by rewrite IH.
Qed.

(** ** [strconv.FormatInt] and [strconv.ParseInt] in base ten *)

Definition decimal (n : N) : string := NilEmpty.string_of_uint (N.to_uint n).

Definition FormatInt (z : Z) : string :=
  if decide (z < 0)%Z then "-" +:+ decimal (Z.to_N (- z)) else decimal (Z.to_N z).

(** The digits of an unsigned number: at least one, nothing else. *)
Definition parse_digits (s : string) : option N :=
  if decide (s = "") then None else N.of_uint <$> NilEmpty.uint_of_string s.

(** [ParseInt(s, 10, 64)]; [None] for a syntax or range error. *)
Definition ParseInt (s : string) : option Z :=
  let z := match s with
           | String a rest =>
             if decide (a = "-"%char) then (fun n => (- Z.of_N n)%Z) <$> parse_digits rest
             else if decide (a = "+"%char) then Z.of_N <$> parse_digits rest
             else Z.of_N <$> parse_digits s
           | EmptyString => None
           end in
  match z with
  | Some z => if decide (GoInt.min_int64 <= z <= GoInt.max_int64)%Z then Some z else None
  | None => None
  end.

Lemma decimal_shape n : exists a rest, decimal n = String a rest /\ byte_in 48 57 a = true.
Proof.
  unfold decimal. destruct (N.to_uint n) as [|u|u|u|u|u|u|u|u|u|u] eqn:E; cbn;
    try (by repeat eexists).
  exfalso. assert (n = 0%N) as -> by (by rewrite <- (Unsigned.of_to n), E). done.
Qed.

Lemma parse_digits_decimal n : parse_digits (decimal n) = Some n.
Proof.
  destruct (decimal_shape n) as (a & rest & E & _). unfold parse_digits.
  rewrite decide_False by congruence. unfold decimal. rewrite NilEmpty.usu. simpl. by rewrite Unsigned.of_to.
Qed.

Lemma ParseInt_FormatInt z : GoInt.in_int64 z -> ParseInt (FormatInt z) = Some z.
Proof.
  intros Hz. unfold ParseInt, FormatInt. case_decide as Hneg.
  - change ("-" +:+ decimal (Z.to_N (- z))) with (String "-" (decimal (Z.to_N (- z)))).
    lazy beta iota zeta. rewrite decide_True, parse_digits_decimal by done. simpl.
    replace (- Z.of_N (Z.to_N (- z)))%Z with z by lia. by rewrite decide_True.
  - destruct (decimal_shape (Z.to_N z)) as (a & rest & E & Ha). rewrite E.
    lazy beta iota zeta. rewrite (decide_False (P := a = _)), (decide_False (P := a = _)) by (intros ->; done). rewrite <- E, parse_digits_decimal. simpl.
    rewrite Z2N.id by lia. by rewrite decide_True.
Qed.

(** A number of 64 bits has at most 64 digits. *)
Lemma uint_acc_bound d : forall acc, (Z.pos acc * 2 ^ Z.of_nat (Decimal.nb_digits d) <= Z.pos (Pos.of_uint_acc d acc))%Z.
Proof.
  induction d as [|d IH|d IH|d IH|d IH|d IH|d IH|d IH|d IH|d IH|d IH]; intros acc; [cbn; lia|..];
    cbn [Decimal.nb_digits Pos.of_uint_acc]; rewrite Nat2Z.inj_succ, Z.pow_succ_r by lia;
    (etransitivity; [|apply IH]); pose proof (Z.pow_nonneg 2 (Z.of_nat (Decimal.nb_digits d)) ltac:(lia)); nia.
Qed.
Lemma length_uint u : String.length (NilEmpty.string_of_uint u) = Decimal.nb_digits u.
Proof. induction u; cbn; congruence. Qed.
Lemma decimal_length n : (n < 2 ^ 63)%N -> String.length (decimal n) <= 64.
Proof.
  intros Hn. unfold decimal. rewrite length_uint. destruct n as [|p]; [cbn; lia|].
  pose proof (Unsigned.of_to (N.pos p)) as Hof. pose proof (Unsigned.to_of (N.to_uint (N.pos p))) as Hto. rewrite Hof in Hto.
  assert (Hacc : forall u (i : positive), Pos.of_uint_acc u i = p -> S (Decimal.nb_digits u) <= 64).
  { intros u i Hi. pose proof (uint_acc_bound u i) as Hb. rewrite Hi in Hb.
    destruct (decide (Decimal.nb_digits u <= 63)); [lia|]. exfalso.
    pose proof (Z.pow_le_mono_r 2 63 (Z.of_nat (Decimal.nb_digits u)) ltac:(lia) ltac:(lia)). nia. }
  destruct (N.to_uint (N.pos p)) as [|u|u|u|u|u|u|u|u|u|u] eqn:E; [done| |injection Hof as Hof; exact (Hacc _ _ Hof)..].
  exfalso. unfold Decimal.unorm in Hto. cbn [Decimal.nzhead] in Hto. pose proof (nb_digits_nzhead u) as Hnb.
  destruct (Decimal.nzhead u) as [|u'|u'|u'|u'|u'|u'|u'|u'|u'|u'] eqn:En; [|rewrite <- Hto in Hnb; cbn in Hnb; lia..].
  injection Hto as ->. done.
Qed.
