(* ===== verification/TextTrim.v ===== *)
(** * Trimmed texts

    When a concatenation of trimmed texts is trimmed again.  White space is
    recognized in the UTF-8 bytes, so appending to an invalid text could in
    principle complete a white-space character; an ASCII byte in between rules
    this out.  [strings.Fields] yields words without white space, and joining
    them with blanks gives a trimmed text. *)
From S2P Require Import Prelude GoLib GoText.
From Stdlib Require Import Ascii String.
Import Str.

Local Open Scope list_scope.

Definition low (a : ascii) : Prop := (nat_of_ascii a < 128)%nat.

Definition front_free : bytes -> Prop := fun l => front_space space1 space2 space3 l = false.

Definition back_free : bytes -> Prop := fun l =>
  front_space space1 (fun b a => space2 a b) (fun c b a => space3 a b c) (rev l) = false.

Lemma low_blank : low " "%char.
Proof. unfold low. apply Nat.ltb_lt. reflexivity. Qed.

Lemma low_not_in lo hi a : low a -> (128 <= lo)%nat -> byte_in lo hi a = false.
Proof. unfold low, byte_in. intros. destruct (Nat.leb_spec lo (nat_of_ascii a)); [lia|done]. Qed.

Lemma low_not_is n a : low a -> (128 <= n)%nat -> byte_is n a = false.
Proof. unfold low, byte_is. intros. apply Nat.eqb_neq. lia. Qed.

(** A byte below 128 is part of no white space of several bytes. *)
Lemma low_spaces a b c :
  low a -> space2 a b = false /\ space2 b a = false /\
    space3 a b c = false /\ space3 b a c = false /\ space3 b c a = false.
Proof.
  intros Ha. unfold space2, space3. rewrite !(low_not_is _ a Ha), !(low_not_in _ _ a Ha) by lia.
  cbn [orb andb]. rewrite ?andb_false_r, ?orb_false_r. done.
Qed.

Lemma front_free_app l a k : l <> [] -> front_free l -> low a -> front_free (l ++ a :: k).
Proof.
  unfold front_free. intros Hl Hf Ha. pose proof (fun b c => low_spaces a b c Ha) as Hs.
  destruct l as [|x [|y [|z l]]]; [done|..]; cbn in Hf |- *.
  - destruct (Hs x x) as (_ & H2 & _). rewrite Hf, H2.
    destruct k as [|z k]; [done|]. by destruct (Hs x z) as (_ & _ & _ & -> & _).
  - apply orb_false_iff in Hf as [-> ->]. by destruct (Hs x y) as (_ & _ & _ & _ & ->).
  - done.
Qed.

Lemma back_free_app l a k : l <> [] -> back_free l -> low a -> back_free (k ++ a :: l).
Proof.
  unfold back_free. intros Hl Hf Ha. pose proof (fun b c => low_spaces a b c Ha) as Hs.
  rewrite rev_app_distr. cbn [rev]. rewrite <- app_assoc. cbn [app].
  assert (Hr : rev l <> []) by (intros E; apply Hl; rewrite <- (rev_involutive l), E; done).
  revert Hf Hr. generalize (rev l) as r, (rev k) as m. clear l k Hl. intros r m Hf Hr.
  destruct r as [|x [|y [|z r]]]; [done|..]; cbn in Hf |- *.
  - destruct (Hs x x) as (H2 & _). rewrite Hf, H2.
    destruct m as [|z m]; [done|]. by destruct (Hs z x) as (_ & _ & _ & -> & _).
  - apply orb_false_iff in Hf as [-> ->]. by destruct (Hs y x) as (_ & _ & -> & _).
  - done.
Qed.

Lemma trimmed_bytes s :
  Trimmed s <-> front_free (list_ascii_of_string s) /\ back_free (list_ascii_of_string s).
Proof.
  unfold Trimmed, TrimSpace. set (l := list_ascii_of_string s). split.
  - intros E. assert (Hl : trim_bytes l = l).
    { apply (f_equal list_ascii_of_string) in E.
      by rewrite list_ascii_of_string_of_list_ascii in E. }
    assert (Hb : back_free l).
    { unfold back_free. rewrite <- Hl. unfold trim_bytes, trim_right. rewrite rev_involutive.
      apply trim_front_spec. }
    split; [|done]. unfold front_free.
    destruct (front_space space1 space2 space3 l) eqn:Ef; [|done]. exfalso.
    pose proof (trim_front_spec space1 space2 space3 l) as Hs.
    destruct (trim_front_suffix space1 space2 space3 l) as [k Hk].
    destruct (trim_right_prefix (trim_left l)) as [m Hm].
    assert (Hlen : (List.length (trim_bytes l) <= List.length (trim_left l))%nat).
    { unfold trim_bytes. rewrite Hm at 2. rewrite length_app. lia. }
    rewrite Hl in Hlen. apply (f_equal (@List.length ascii)) in Hk as Hk'.
    rewrite length_app in Hk'. change (trim_front space1 space2 space3 l) with (trim_left l) in Hk', Hk, Hs.
    destruct k as [|x k]; [|cbn in Hk'; lia]. cbn in Hk. rewrite <- Hk in Hs. congruence.
  - intros [Hf Hb]. assert (Hl : trim_bytes l = l).
    { unfold trim_bytes, trim_left. rewrite trim_front_id by done. unfold trim_right.
      rewrite trim_front_id by done. apply rev_involutive. }
    rewrite Hl. apply string_of_list_ascii_of_string.
Qed.

Lemma list_ascii_app s t :
  list_ascii_of_string (s +:+ t) = list_ascii_of_string s ++ list_ascii_of_string t.
Proof. induction s as [|a s IH]; [done|]. cbn. by rewrite <- IH. Qed.

Lemma list_ascii_nonempty s : s <> "" -> list_ascii_of_string s <> [].
Proof. by destruct s. Qed.

Lemma space1_low a : space1 a = true -> low a.
Proof.
  unfold space1, low. rewrite orb_true_iff. intros [H|H].
  - unfold byte_in in H. apply andb_true_iff in H as [_ H]. apply Nat.leb_le in H. lia.
  - unfold byte_is in H. apply Nat.eqb_eq in H. lia.
Qed.

(** Two trimmed texts around a separator that starts and ends in ASCII. *)
Lemma Trimmed_around s sep t a :
  Trimmed s -> Trimmed t -> s <> "" -> t <> "" -> sep = String a "" -> low a ->
  Trimmed (s +:+ sep +:+ t).
Proof.
  rewrite !trimmed_bytes, !list_ascii_app. intros [Hs _] [_ Ht] Hs0 Ht0 -> Ha. cbn [list_ascii_of_string app].
  split; [by apply front_free_app; [apply list_ascii_nonempty| |]|].
  by apply back_free_app; [apply list_ascii_nonempty| |].
Qed.

(** A trimmed text in front of graphic ASCII. *)
Lemma Trimmed_suffix s t : Trimmed s -> t <> "" -> graphic t = true -> Trimmed (s +:+ t).
Proof.
  intros Hs Ht0 Hg. pose proof (graphic_trimmed t Hg) as Ht.
  destruct (decide (s = "")) as [->|Hs0]; [done|]. revert Hs Ht.
  rewrite !trimmed_bytes, !list_ascii_app. intros [Hs _] [_ Hb].
  unfold graphic in Hg. destruct t as [|a t]; [done|]. cbn [list_ascii_of_string] in Hg, Hb |- *.
  cbn [forallb] in Hg. apply andb_true_iff in Hg as [Ha Hg].
  assert (low a) by (apply byte_in_spec in Ha; unfold low; lia).
  split; [by apply front_free_app; [apply list_ascii_nonempty| |]|].
  unfold back_free. rewrite rev_app_distr.
  assert (Hg' : forallb (byte_in 33 126) (rev (a :: list_ascii_of_string t)) = true).
  { rewrite forallb_rev. cbn [forallb]. by rewrite Ha, Hg. }
  revert Hg'. assert (Hr : rev (a :: list_ascii_of_string t) <> []).
  { intros E. apply (f_equal (@List.length ascii)) in E. rewrite length_rev in E. done. }
  destruct (rev (a :: list_ascii_of_string t)) as [|x r]; [done|]. cbn [forallb app]. intros Hg'.
  apply andb_true_iff in Hg' as [Hx _].
  assert (Hx1 : space1 x = false).
  { unfold space1. rewrite (byte_is_ne 33 126 x) by (done || lia).
    by rewrite (byte_in_disj 33 126 9 13 x) by (done || lia). }
  assert (Hxl : low x) by (apply byte_in_spec in Hx; unfold low; lia).
  generalize (r ++ rev (list_ascii_of_string s)). intros m. unfold front_space.
  destruct m as [|y [|z m]]; [done|..]; rewrite Hx1; cbn [orb].
  - by destruct (low_spaces x y y Hxl) as (_ & -> & _).
  - destruct (low_spaces x y z Hxl) as (_ & -> & _).
    by destruct (low_spaces x z y Hxl) as (_ & _ & _ & _ & ->).
Qed.

(** Graphic ASCII, a blank and a trimmed text. *)
Lemma Trimmed_labelled p t :
  graphic p = true -> p <> "" -> Trimmed t -> t <> "" -> Trimmed (p +:+ " " +:+ t).
Proof.
  intros Hp Hp0 Ht Ht0. apply (Trimmed_around p " " t " "%char); auto using graphic_trimmed, low_blank.
Qed.

(** ** Words *)

(** No white space starts anywhere in the bytes. *)
Definition spaceless (f : bytes) : Prop :=
  f <> [] /\ forall pre rest, f = pre ++ rest -> front_free rest.

Lemma front_free_prefix l k : front_free (l ++ k) -> front_free l.
Proof.
  unfold front_free. intros H. destruct (front_space space1 space2 space3 l) eqn:E; [|done].
  apply (front_space_app _ _ _ l k) in E. congruence.
Qed.

Lemma spaceless_free f : spaceless f -> front_free f /\ back_free f.
Proof.
  intros [Hn Hf]. split; [by apply (Hf [])|]. unfold back_free.
  destruct (rev f) as [|x [|y [|z r]]] eqn:E; [done|..];
    apply (f_equal (@rev ascii)) in E; rewrite rev_involutive in E; cbn in E; cbn.
  - exact (Hf [] [x] E).
  - pose proof (Hf [] [y; x] E) as H2. pose proof (Hf [y] [x] E) as H1.
    unfold front_free in H1, H2. cbn in H1, H2. apply orb_false_iff in H2 as [_ H2]. by rewrite H1, H2.
  - rewrite <- !app_assoc in E. cbn in E.
    pose proof (Hf (rev r) [z; y; x] E) as H3.
    pose proof (Hf (rev r ++ [z]) [y; x] ltac:(rewrite <- app_assoc; exact E)) as H2.
    pose proof (Hf (rev r ++ [z; y]) [x] ltac:(rewrite <- app_assoc; exact E)) as H1.
    unfold front_free in H1, H2, H3. cbn in H1, H2, H3.
    apply orb_false_iff in H2 as [_ H2]. apply orb_false_iff in H3 as [_ H3].
    by rewrite H1, H2, H3.
Qed.

(** The invariant of [fields_loop]: nothing in the current word starts white
    space, even together with what follows. *)
Definition cur_free (cur l : bytes) : Prop :=
  forall pre x rest, rev cur = pre ++ x :: rest -> front_free ((x :: rest) ++ l).

Lemma cur_free_nil l : cur_free [] l.
Proof. intros pre x rest E. by destruct pre. Qed.

Lemma cur_free_step cur a l : cur_free cur (a :: l) -> front_free (a :: l) -> cur_free (a :: cur) l.
Proof.
  intros Hc Ha pre x rest E. cbn [rev] in E.
  destruct (exists_last (l := x :: rest)) as (m & y & Em); [done|].
  rewrite Em in E |- *. rewrite app_assoc in E. apply app_inj_tail in E as [E ->].
  rewrite <- app_assoc. cbn [app]. destruct m as [|z m]; [done|]. by apply (Hc pre z m).
Qed.

Lemma cur_free_word cur l : cur_free cur l -> cur <> [] -> spaceless (rev cur).
Proof.
  intros Hc Hn. split.
  - intros E. apply Hn. by rewrite <- (rev_involutive cur), E.
  - intros pre [|x rest] E; [done|]. apply (front_free_prefix _ l). by apply (Hc pre).
Qed.

Lemma flush_spaceless cur l (rest : list bytes) :
  cur_free cur l -> Forall spaceless rest ->
  Forall spaceless (match cur with [] => rest | _ => rev cur :: rest end).
Proof.
  intros Hc Hr. destruct cur as [|a word]; [done|].
  constructor; [by apply (cur_free_word _ l)|done].
Qed.

Lemma fields_spaceless cur l : cur_free cur l -> Forall spaceless (fields_loop cur l).
Proof.
  revert cur. induction l as [l IH] using (well_founded_induction
    (well_founded_ltof _ (@List.length ascii))); unfold ltof in IH. intros cur Hc.
  pose proof (flush_spaceless cur l) as Hflush.
  destruct l as [|a [|b [|c l]]]; cbn [fields_loop] in *.
  - by apply Hflush.
  - destruct (space1 a) eqn:H1; [by apply Hflush|].
    apply (IH [] ltac:(cbn; lia) (a :: cur)). by apply cur_free_step.
  - destruct (space1 a) eqn:H1.
    { apply Hflush; [done|]. exact (IH [b] ltac:(cbn; lia) [] (cur_free_nil _)). }
    destruct (space2 a b) eqn:H2; [by apply Hflush|].
    apply (IH [b] ltac:(cbn; lia) (a :: cur)). apply cur_free_step; [done|].
    unfold front_free. cbn. by rewrite H1, H2.
  - destruct (space1 a) eqn:H1.
    { apply Hflush; [done|]. exact (IH (b :: c :: l) ltac:(cbn; lia) [] (cur_free_nil _)). }
    destruct (space2 a b) eqn:H2.
    { apply Hflush; [done|]. exact (IH (c :: l) ltac:(cbn; lia) [] (cur_free_nil _)). }
    destruct (space3 a b c) eqn:H3.
    { apply Hflush; [done|]. exact (IH l ltac:(cbn; lia) [] (cur_free_nil _)). }
    apply (IH (b :: c :: l) ltac:(cbn; lia) (a :: cur)). apply cur_free_step; [done|].
    unfold front_free. cbn. by rewrite H1, H2, H3.
Qed.

Lemma Fields_words s : Forall (fun w => Trimmed w /\ w <> "") (Fields s).
Proof.
  unfold Fields. apply Forall_fmap. eapply Forall_impl; [apply fields_spaceless, cur_free_nil|].
  intros f Hf. unfold compose. rewrite trimmed_bytes, list_ascii_of_string_of_list_ascii.
  split; [by apply spaceless_free|]. destruct Hf as [Hn _]. by destruct f.
Qed.

Lemma Joins_trimmed words :
  Forall (fun w => Trimmed w /\ w <> "") words -> Trimmed (Joins words " ").
Proof.
  unfold Joins. induction words as [|w words IH]; intros Hw; [done|].
  apply Forall_cons in Hw as [[Hw Hw0] Hws]. destruct words as [|v words]; [done|].
  change (String.concat " " (w :: v :: words)) with (w +:+ " " +:+ String.concat " " (v :: words)).
  apply (Trimmed_around _ " " _ " "%char); [done|by apply IH|done| |done|apply low_blank].
  apply Forall_cons in Hws as [[_ Hv0] _]. by destruct words, v.
Qed.

Lemma Joins_Fields_trimmed s : Trimmed (Joins (Fields s) " ").
Proof. apply Joins_trimmed, Fields_words. Qed.

#[export] Hint Resolve Joins_Fields_trimmed Trimmed_suffix Trimmed_labelled : golib.

(** ** Texts in angle brackets *)

Definition enclosed (s : string) : Prop := exists m, s = String "<"%char (m +:+ ">").

Lemma front_free_graphic x m : byte_in 33 126 x = true -> front_free (x :: m).
Proof.
  intros Hx. assert (Hxl : low x) by (apply byte_in_spec in Hx; unfold low; lia).
  assert (Hx1 : space1 x = false).
  { unfold space1. rewrite (byte_is_ne 33 126 x) by (done || lia).
    by rewrite (byte_in_disj 33 126 9 13 x) by (done || lia). }
  unfold front_free, front_space. destruct m as [|y [|z m]]; [done|..]; rewrite Hx1; cbn [orb].
  - by destruct (low_spaces x y y Hxl) as (-> & _).
  - destruct (low_spaces x y z Hxl) as (-> & _). by destruct (low_spaces x y z Hxl) as (_ & _ & -> & _).
Qed.

Lemma back_free_graphic x m : byte_in 33 126 x = true -> back_free (m ++ [x]).
Proof.
  intros Hx. assert (Hxl : low x) by (apply byte_in_spec in Hx; unfold low; lia).
  assert (Hx1 : space1 x = false).
  { unfold space1. rewrite (byte_is_ne 33 126 x) by (done || lia).
    by rewrite (byte_in_disj 33 126 9 13 x) by (done || lia). }
  unfold back_free. rewrite rev_app_distr. cbn [rev app]. unfold front_space.
  destruct (rev m) as [|y [|z r]]; [done|..]; rewrite Hx1; cbn [orb].
  - by destruct (low_spaces x y y Hxl) as (_ & -> & _).
  - destruct (low_spaces x y z Hxl) as (_ & -> & _). by destruct (low_spaces x z y Hxl) as (_ & _ & _ & _ & ->).
Qed.

Lemma enclosed_trimmed s : enclosed s -> Trimmed s.
Proof.
  intros [m ->]. apply trimmed_bytes. cbn [String.list_ascii_of_string]. rewrite list_ascii_app.
  split; [by apply front_free_graphic|]. rewrite app_comm_cons. by apply (back_free_graphic ">"%char).
Qed.

Lemma enclosed_join a b sep : enclosed a -> enclosed b -> enclosed (a +:+ sep +:+ b).
Proof.
  intros [m ->] [k ->]. exists (m +:+ ">" +:+ sep +:+ String "<"%char k).
  change (String "<"%char ((m +:+ ">") +:+ sep +:+ String "<"%char (k +:+ ">"))
          = String "<"%char ((m +:+ ">" +:+ sep +:+ String "<"%char k) +:+ ">")).
  by rewrite !string_app_assoc.
Qed.

Lemma Joins_enclosed bs sep : bs <> [] -> Forall enclosed bs -> enclosed (Joins bs sep).
Proof.
  intros Hne Hb. induction Hb as [|b bs Hb Hbs IH]; [done|]. unfold Joins. destruct bs as [|c bs]; [done|].
  change (String.concat sep (b :: c :: bs)) with (b +:+ sep +:+ String.concat sep (c :: bs)).
  apply enclosed_join; [done|]. by apply IH.
Qed.
