(* ===== verification/GoClock.v ===== *)
(** * Times and durations as text

    [Duration.String] and the calendar day of an instant, as the time package
    of Go computes them.  Parsing is a class: the parser of durations rounds
    fractions in floating point and the parser of RFC 3339 accepts several
    deviating forms, so only the range of their results is fixed.  The
    instance reads durations of one whole number and one unit. *)
From S2P Require Import Prelude GoLib GoText.
From Stdlib Require Import Ascii String.
Import Str GoTime.
Local Open Scope Z_scope.

Definition Day : Duration := 24 * Hour.

(** ** The calendar *)

(** [n] in decimal with at least [width] digits. *)
Definition padded (width : nat) (n : Z) : string :=
  let s := FormatInt n in
  String.concat "" (repeat "0" (width - String.length s)%nat) +:+ s.

(** Years before the given day of a 400-year cycle, and the day of the year. *)
Definition cycle_year (day : Z) : Z * Z :=
  let n100 := Z.min 3 (day / 36524) in
  let day := day - 36524 * n100 in
  let n4 := day / 1461 in
  let day := day - 1461 * n4 in
  let n1 := Z.min 3 (day / 365) in
  (100 * n100 + 4 * n4 + n1, day - 365 * n1).

Definition isLeap (year : Z) : bool :=
  bool_decide (year mod 4 = 0) && (negb (bool_decide (year mod 100 = 0)) || bool_decide (year mod 400 = 0)).

Fixpoint month_day (month : Z) (lengths : list Z) (yday : Z) : Z * Z :=
  match lengths with
  | [] => (month, yday + 1)
  | n :: rest => if decide (yday < n) then (month, yday + 1) else month_day (month + 1) rest (yday - n)
  end.

(** Year, month and day of an instant in UTC. *)
Definition Date (t : Time) : Z * Z * Z :=
  let days := t / Day in
  let '(y, yday) := cycle_year (days mod 146097) in
  let year := 400 * (days / 146097) + y + 1 in
  let '(month, day) := month_day 1
    [31; if isLeap year then 29 else 28; 31; 30; 31; 30; 31; 31; 30; 31; 30; 31] yday in
  (year, month, day).

(** [t.UTC().Format("2006-01-02")]. *)
Definition FormatDay (t : Time) : string :=
  let '(year, month, day) := Date t in
  padded 4 year +:+ "-" +:+ padded 2 month +:+ "-" +:+ padded 2 day.

(** ** [Duration.String] *)

(** The fraction of [v] over [10^prec], without trailing zeros, and the whole
    part. *)
Fixpoint fmtFrac (prec : nat) (v : Z) (digits : string) : string * Z :=
  match prec with
  | O => (if decide (digits = "") then "" else "." +:+ digits, v)
  | S prec =>
    let digit := v mod 10 in
    fmtFrac prec (v / 10)
      (if decide (digits = "" /\ digit = 0) then "" else FormatInt digit +:+ digits)
  end.

Definition micro : string := String (ascii_of_nat 194) (String (ascii_of_nat 181) "s").

Definition abs_duration_string (u : Z) : string :=
  if decide (u = 0) then "0s"
  else if decide (u < 1000) then FormatInt u +:+ "ns"
  else if decide (u < 1000000) then let '(f, v) := fmtFrac 3 u "" in FormatInt v +:+ f +:+ micro
  else if decide (u < 1000000000) then let '(f, v) := fmtFrac 6 u "" in FormatInt v +:+ f +:+ "ms"
  else
    let '(f, v) := fmtFrac 9 u "" in
    let seconds := FormatInt (v mod 60) +:+ f +:+ "s" in
    let v := v / 60 in
    if decide (v = 0) then seconds else
    let minutes := FormatInt (v mod 60) +:+ "m" +:+ seconds in
    let v := v / 60 in
    if decide (v = 0) then minutes else FormatInt v +:+ "h" +:+ minutes.

Definition DurationString (d : Duration) : string :=
  if decide (d < 0) then "-" +:+ abs_duration_string (- d) else abs_duration_string d.

Example duration_texts :
  DurationString (10 * Minute) = "10m0s" /\ DurationString (1500 * Millisecond) = "1.5s" /\
  DurationString (26 * Hour + 90 * Second) = "26h1m30s" /\ DurationString (2 * Millisecond) = "2ms".
Proof. vm_compute. done. Qed.

Example day_texts :
  FormatDay 0 = "0001-01-01" /\ FormatDay (719162 * Day) = "1970-01-01" /\
  FormatDay (738944 * Day + 5 * Hour) = "2024-02-29".
Proof. vm_compute. done. Qed.

(** ** The earliest of several times *)

(** The loop with which the services find the next time to wake: the zero time
    stands for none. *)
Definition earliest_of {A} (scheduled : A -> bool) (at_ : A -> Time) (l : list A) : Time :=
  foldl (fun earliest x =>
    if negb (scheduled x) then earliest
    else if IsZero earliest || Before (at_ x) earliest then at_ x else earliest) zeroTime l.

Lemma earliest_of_spec {A} (scheduled : A -> bool) (at_ : A -> Time) (l : list A) :
  (forall x, scheduled x = true -> at_ x <> zeroTime) ->
  let t := earliest_of scheduled at_ l in
  (t = zeroTime <-> forall x, x ∈ l -> scheduled x = false) /\
  (t <> zeroTime -> (exists x, x ∈ l /\ scheduled x = true /\ at_ x = t) /\
    forall x, x ∈ l -> scheduled x = true -> t <= at_ x).
Proof.
  intros Hnz. cbn zeta. induction l as [|y l IH] using rev_ind.
  { split; [|done]. split; [intros _ x Hx; by apply elem_of_nil in Hx|done]. }
  unfold earliest_of. rewrite foldl_app. fold (earliest_of scheduled at_ l). cbn [foldl].
  destruct IH as [Hz Hmin]. set (t := earliest_of scheduled at_ l) in *.
  assert (Hin : forall x, x ∈ l ++ [y] <-> x ∈ l \/ x = y).
  { intros x. by rewrite elem_of_app, list_elem_of_singleton. }
  setoid_rewrite Hin. destruct (scheduled y) eqn:Ey; cbn [negb].
  - unfold IsZero, Before. destruct (bool_decide (t = zeroTime) || bool_decide (at_ y < t)) eqn:Eb.
    + split; [split; [intros E; by destruct (Hnz y Ey)|intros Hall; rewrite (Hall y) in Ey by auto; done]|].
      intros _. split; [by exists y; auto|]. intros x [Hx| ->] Hs; [|lia].
      apply orb_true_iff in Eb as [Eb|Eb]; apply bool_decide_eq_true in Eb.
      * rewrite (proj1 Hz Eb x Hx) in Hs. done.
      * destruct (decide (t = zeroTime)) as [E0|E0]; [rewrite (proj1 Hz E0 x Hx) in Hs; done|].
        destruct (Hmin E0) as [_ Hle]. specialize (Hle x Hx Hs). lia.
    + apply orb_false_iff in Eb as [E0 E1]. apply bool_decide_eq_false in E0, E1.
      destruct (Hmin E0) as [(x & Hx & Hs & E) Hle].
      split; [split; [done|intros Hall; rewrite (Hall y) in Ey by auto; done]|].
      intros _. split; [by exists x; auto|]. intros z [Hzl| ->] Hsz; [auto|lia].
  - split.
    + rewrite Hz. split; [intros Hall x [Hx| ->]; auto|auto].
    + intros Ht. destruct (Hmin Ht) as [(x & Hx & Hs & E) Hle]. split; [by exists x; auto|].
      intros z [Hzl| ->] Hsz; [auto|congruence].
Qed.

(** ** Parsing *)

Class GoTimeText := {
  ParseRFC3339 : string -> option Time;
  ParseDuration : string -> option Duration;
  ParseDuration_range s d : ParseDuration s = Some d -> GoInt.in_int64 d
}.

Fixpoint split_digits (s : string) : string * string :=
  match s with
  | String a rest =>
    if byte_in 48 57 a then let '(d, r) := split_digits rest in (String a d, r) else ("", s)
  | EmptyString => ("", "")
  end.

Definition duration_unit (u : string) : option Z :=
  if decide (u = "ns") then Some 1
  else if decide (u = "ms") then Some Millisecond
  else if decide (u = "s") then Some Second
  else if decide (u = "m") then Some Minute
  else if decide (u = "h") then Some Hour
  else None.

Definition parse_whole_duration (s : string) : option Duration :=
  let '(digits, unit) := split_digits s in
  n ← ParseInt digits; u ← duration_unit unit;
  if decide (GoInt.min_int64 <= n * u <= GoInt.max_int64) then Some (n * u) else None.

Definition whole_durations : GoTimeText.
Proof.
  refine {| ParseRFC3339 _ := None; ParseDuration := parse_whole_duration |}.
  intros s d. unfold parse_whole_duration. destruct (split_digits s) as [digits unit].
  destruct (ParseInt digits) as [n|]; cbn; [|done]. destruct (duration_unit unit) as [u|]; cbn; [|done].
  case_decide; [|done]. intros [= <-]. done.
Defined.
