(* ===== verification/ListStore.v ===== *)
(** * Lists of items with unique identifiers

    The stores of cron jobs and wake-up triggers keep their items in a slice
    in the order of insertion and search it by identifier.  Here is this
    pattern once, and the proof that it implements a finite map. *)
From S2P Require Import Prelude GoLib.
From Stdlib Require Import String.

Inductive StoreError := ErrNotFound | ErrDuplicateID.

Section ListStore.
Context {A : Type} (key : A -> string).

Fixpoint list_get (items : list A) (id : string) : option A :=
  match items with
  | [] => None
  | x :: rest => if decide (key x = id) then Some x else list_get rest id
  end.

Definition list_add (items : list A) (item : A) : StoreError + list A :=
  if existsb (fun x => bool_decide (key x = key item)) items then inl ErrDuplicateID
  else inr (items ++ [item]).

Fixpoint update_loop (items : list A) (id : string) (fn : A -> A) : option (list A) :=
  match items with
  | [] => None
  | x :: rest => if decide (key x = id) then Some (fn x :: rest) else cons x <$> update_loop rest id fn
  end.

Definition list_update (items : list A) (id : string) (fn : A -> A) : StoreError + list A :=
  match update_loop items id fn with Some l => inr l | None => inl ErrNotFound end.

Fixpoint remove_loop (items : list A) (id : string) : option (list A) :=
  match items with
  | [] => None
  | x :: rest => if decide (key x = id) then Some rest else cons x <$> remove_loop rest id
  end.

Definition list_remove (items : list A) (id : string) : StoreError + list A :=
  match remove_loop items id with Some l => inr l | None => inl ErrNotFound end.

(** Identifiers are unique. *)
Definition list_wf (items : list A) : Prop := NoDup (key <$> items).

(** The abstract store: a finite map from identifiers to items. *)
Definition list_contents (items : list A) : gmap string A :=
  list_to_map ((fun x => (key x, x)) <$> items).

Lemma contents_fst items : ((fun x => (key x, x)) <$> items).*1 = key <$> items.
Proof. rewrite <- list_fmap_compose. done. Qed.

Lemma contents_cons j items : list_contents (j :: items) = <[key j := j]> (list_contents items).
Proof. done. Qed.

Lemma list_get_contents items id : list_get items id = list_contents items !! id.
Proof.
  induction items as [|j items IH]; [done|]. cbn [list_get]. rewrite contents_cons.
  case_decide as E; [subst; by rewrite lookup_insert_eq|]. by rewrite lookup_insert_ne, IH.
Qed.

Lemma contents_None items id : list_contents items !! id = None <-> id ∉ key <$> items.
Proof. unfold list_contents. rewrite <- not_elem_of_list_to_map, contents_fst. done. Qed.

Lemma list_get_id items id j : list_get items id = Some j -> key j = id.
Proof.
  induction items as [|j0 items IH]; [done|]. cbn [list_get]. case_decide; [by intros [= <-]|done].
Qed.

Lemma contents_elem items j : list_wf items -> j ∈ items -> list_contents items !! key j = Some j.
Proof.
  intros Hwf Hj. apply elem_of_list_to_map; [by rewrite contents_fst|].
  apply list_elem_of_fmap. eauto.
Qed.

Lemma list_wf_inj items j j' : list_wf items -> j ∈ items -> j' ∈ items -> key j' = key j -> j = j'.
Proof.
  intros Hwf Hj Hj' E. apply (contents_elem _ _ Hwf) in Hj, Hj'. rewrite E in Hj'. congruence.
Qed.

Lemma update_loop_spec items id fn :
  list_wf items -> (forall j, key (fn j) = key j) ->
  match update_loop items id fn with
  | Some l => list_wf l /\ exists j, list_contents items !! id = Some j /\ list_contents l = <[id := fn j]> (list_contents items)
      /\ key <$> l = key <$> items
  | None => list_contents items !! id = None
  end.
Proof.
  unfold list_wf. intros Hwf Hfn. induction items as [|j items IH]; [done|].
  cbn [update_loop]. rewrite fmap_cons in Hwf. apply NoDup_cons in Hwf as [Hj Hwf].
  specialize (IH Hwf). rewrite contents_cons. case_decide as E.
  - split; [rewrite fmap_cons, Hfn; by constructor|]. exists j. subst id.
    rewrite lookup_insert_eq, contents_cons, Hfn, insert_insert_eq. split_and!; auto.
    by rewrite !fmap_cons, Hfn.
  - destruct (update_loop items id fn) as [l|]; cbn [fmap option_fmap option_map].
    + destruct IH as [Hl (j' & Hj' & Hc & Hids)]. split; [rewrite fmap_cons, Hids; by constructor|].
      exists j'. rewrite lookup_insert_ne by done. rewrite contents_cons, Hc.
      rewrite insert_insert_ne by done. split_and!; auto. by rewrite !fmap_cons, Hids.
    + by rewrite lookup_insert_ne.
Qed.

Lemma remove_loop_spec items id :
  list_wf items ->
  match remove_loop items id with
  | Some l => list_wf l /\ is_Some (list_contents items !! id) /\ list_contents l = delete id (list_contents items)
      /\ l ⊆ items
  | None => list_contents items !! id = None
  end.
Proof.
  unfold list_wf. intros Hwf. induction items as [|j items IH]; [done|].
  cbn [remove_loop]. rewrite fmap_cons in Hwf. apply NoDup_cons in Hwf as [Hj Hwf].
  specialize (IH Hwf). rewrite contents_cons. case_decide as E.
  - subst id. split_and!; [done|rewrite lookup_insert_eq; eauto| |by intros x; right].
    rewrite delete_insert_eq, delete_id; [done|]. by apply contents_None.
  - destruct (remove_loop items id) as [l|]; cbn [fmap option_fmap option_map].
    + destruct IH as (Hl & Hsome & Hc & Hsub). split_and!.
      * constructor; [|done]. intros Hin. apply Hj. apply list_elem_of_fmap in Hin as (x & -> & Hx).
        apply list_elem_of_fmap. eauto.
      * by rewrite lookup_insert_ne.
      * rewrite contents_cons, Hc, delete_insert_ne by done. done.
      * intros x Hx. apply elem_of_cons in Hx as [->|Hx]; [left|right; auto].
    + by rewrite lookup_insert_ne.
Qed.

(** The operations that change the store, and what they do to the map. *)
Inductive store_op :=
  | OpAdd (item : A)
  | OpUpdate (id : string) (fn : A -> A)
  | OpRemove (id : string).

Definition store_step (items : list A) (op : store_op) : option StoreError * list A :=
  match match op with
        | OpAdd item => list_add items item
        | OpUpdate id fn => list_update items id fn
        | OpRemove id => list_remove items id
        end with
  | inl err => (Some err, items)
  | inr items => (None, items)
  end.

Definition map_step (m : gmap string A) (op : store_op) : option StoreError * gmap string A :=
  match op with
  | OpAdd item =>
    match m !! key item with Some _ => (Some ErrDuplicateID, m) | None => (None, <[key item := item]> m) end
  | OpUpdate id fn =>
    match m !! id with Some j => (None, <[id := fn j]> m) | None => (Some ErrNotFound, m) end
  | OpRemove id =>
    match m !! id with Some _ => (None, delete id m) | None => (Some ErrNotFound, m) end
  end.

Fixpoint steps {S} (step : S -> store_op -> option StoreError * S) (s : S) (ops : list store_op) :
    list (option StoreError) * S :=
  match ops with
  | [] => ([], s)
  | op :: rest =>
    let '(err, s) := step s op in let '(errs, s) := steps step s rest in (err :: errs, s)
  end.

(** Updates keep the identifier, as every update of the sources does. *)
Definition keeps_id (op : store_op) : Prop :=
  match op with OpUpdate _ fn => forall j, key (fn j) = key j | _ => True end.

Lemma existsb_id items id :
  existsb (fun j => bool_decide (key j = id)) items = bool_decide (id ∈ key <$> items).
Proof.
  induction items as [|j items IH]; [done|]. cbn [existsb]. rewrite IH.
  rewrite <- bool_decide_or. apply bool_decide_ext. rewrite fmap_cons, elem_of_cons. naive_solver.
Qed.

Lemma contents_snoc items item :
  key item ∉ key <$> items -> list_contents (items ++ [item]) = <[key item := item]> (list_contents items).
Proof.
  intros Hn. unfold list_contents. rewrite fmap_app, list_to_map_app. cbn. fold (list_contents items).
  rewrite <- insert_union_r by by apply contents_None. by rewrite map_union_empty.
Qed.

Lemma store_step_simulates items op :
  list_wf items -> keeps_id op ->
  let '(err, items') := store_step items op in
  list_wf items' /\ map_step (list_contents items) op = (err, list_contents items').
Proof.
  intros Hwf Hop. unfold store_step. destruct op as [item|id fn|id]; cbn [map_step].
  - unfold list_add. rewrite existsb_id. case_bool_decide as Hin.
    + split; [done|]. destruct (list_contents items !! key item) eqn:E; [done|].
      by apply contents_None in E.
    + rewrite (proj2 (contents_None _ _) Hin). rewrite contents_snoc by done. split; [|done].
      unfold list_wf. rewrite fmap_app. apply NoDup_app. split_and!; [done| |apply NoDup_singleton].
      intros x Hx. cbn. rewrite list_elem_of_singleton. by intros ->.
  - unfold list_update. pose proof (update_loop_spec items id fn Hwf Hop) as Hu.
    destruct (update_loop items id fn) as [l|].
    + destruct Hu as [Hl (j & -> & -> & _)]. done.
    + by rewrite Hu.
  - unfold list_remove. pose proof (remove_loop_spec items id Hwf) as Hr.
    destruct (remove_loop items id) as [l|].
    + destruct Hr as (Hl & [j ->] & -> & _). done.
    + by rewrite Hr.
Qed.

(** Every sequence of operations behaves as on the map: from any list of items with
    distinct identifiers, every sequence of additions, updates and removals
    reports exactly the errors of the map operations and leaves items with
    distinct identifiers whose map is the result of the map operations;
    looking an item up in the list is looking it up in the map. *)
Lemma list_store_is_map items ops id :
  list_wf items -> Forall keeps_id ops ->
  let '(errs, items') := steps store_step items ops in
  list_wf items' /\ steps map_step (list_contents items) ops = (errs, list_contents items') /\
  list_get items' id = list_contents items' !! id.
Proof.
  revert items. induction ops as [|op ops IH]; intros items Hwf Hops; cbn [steps].
  { split_and!; auto using list_get_contents. }
  apply Forall_cons in Hops as [Hop Hops]. pose proof (store_step_simulates items op Hwf Hop) as Hs.
  destruct (store_step items op) as [err items1]. destruct Hs as [Hwf1 ->].
  specialize (IH items1 Hwf1 Hops). destruct (steps store_step items1 ops) as [errs items'].
  destruct IH as (? & -> & ?). done.
Qed.

End ListStore.
Arguments store_op : clear implicits.
