(* ===== verification/ToolPolicy.v ===== *)
(** * The tool policy engine ([policy/policy.go], [policy/blocked_commands.go],
    [policy/safe_commands.go], the tool normalization of [toolspec/types.go])

    The default engine decides whether a tool call is allowed, needs an
    approval or is denied.  The resource scope collected from a call's input and
    the findings of the security auditor are arguments of the engine; regular
    expressions, quoting and printing are the classes of [GoText] and
    [ApprovalPolicy].  Of a tool only the fields that the engine reads are
    modelled. *)
From S2P Require Import Prelude GoLib GoText Normalize ResourceScope ApprovalPolicy GrantStore Approval.
Import Str Text GoTime GoAny.

(** ** Tools *)

Record ToolManifest := mkManifest {
  Man_Name : string;
  Man_SideEffectClass : string;
  Man_RequiresApproval : bool
}.

Record EligibilityResult := mkElig { Eligible : bool; Elig_Reasons : list string }.

Record ToolAvailability := mkAvail { Avail_Status : string; Avail_Reasons : list string }.

Record ToolDefinition := mkDef {
  Def_Name : string;
  Def_SideEffectClass : string;
  Def_RequiresApproval : bool;
  Def_Eligible : bool;
  Def_EligibilityReasons : list string;
  Def_Availability : ToolAvailability
}.

(** [RT_Trust] is the trust of the tool's package, when it has one. *)
Record ResolvedTool := mkTool {
  RT_Descriptor : ToolDefinition;
  RT_Manifest : ToolManifest;
  RT_Trust : option string;
  RT_Eligibility : EligibilityResult
}.

(** What a call carries as its tool. *)
Inductive ToolArg :=
| NilTool
| ResolvedArg (t : ResolvedTool)
| BoundArg (m : ToolManifest) (trust : option string) (e : EligibilityResult)
| OtherArg.

Section Tools.
Context `{GoUnicode}.

Definition NormalizeSideEffectClass (v : string) : string :=
  let s := TrimSpace (ToLower v) in
  if decide (s ∈ [""; "read"; "readonly"; "read_only"]) then "read"
  else if decide (s ∈ ["local_write"; "local-write"]) then "local_write"
  else if decide (s ∈ ["external_write"; "external-write"; "remote_write"; "remote-write"])
  then "external_write"
  else "destructive".

Definition mergeManifestFromDescriptor (m : ToolManifest) (d : ToolDefinition) : ToolManifest :=
  mkManifest (TrimSpace (FirstNonEmpty [Man_Name m; Def_Name d]))
    (if decide (TrimSpace (Man_SideEffectClass m) = "")
     then NormalizeSideEffectClass (Def_SideEffectClass d) else Man_SideEffectClass m)
    (Man_RequiresApproval m || Def_RequiresApproval d).

Definition mergeDescriptor (d : ToolDefinition) (m : ToolManifest) (e : EligibilityResult)
    : ToolDefinition :=
  mkDef (if decide (TrimSpace (Def_Name d) = "") then TrimSpace (Man_Name m) else Def_Name d)
    (if decide (TrimSpace (Def_SideEffectClass d) = "")
     then NormalizeSideEffectClass (Man_SideEffectClass m) else Def_SideEffectClass d)
    (Def_RequiresApproval d || Man_RequiresApproval m)
    (Def_Eligible d || Eligible e)
    (if decide (Def_EligibilityReasons d = []) then Elig_Reasons e else Def_EligibilityReasons d)
    (Def_Availability d).

Definition AvailabilityReady : string := "ready".
Definition AvailabilityBlocked : string := "blocked".
Definition AvailabilityDiscoverable : string := "discoverable".

Definition normalizeAvailability (av : ToolAvailability) (eligible : bool) (reasons : list string)
    : ToolAvailability :=
  let rs := if decide (Avail_Reasons av = []) then reasons else Avail_Reasons av in
  mkAvail
    (if decide (Avail_Status av = "") then
       if eligible then AvailabilityReady
       else if decide (rs = []) then "" else AvailabilityBlocked
     else Avail_Status av) rs.

Definition NormalizeDefinition (d : ToolDefinition) : ToolDefinition :=
  mkDef (TrimSpace (Def_Name d)) (NormalizeSideEffectClass (Def_SideEffectClass d))
    (Def_RequiresApproval d) (Def_Eligible d) (Def_EligibilityReasons d)
    (normalizeAvailability (Def_Availability d) (Def_Eligible d) (Def_EligibilityReasons d)).

Definition NormalizeResolvedTool (t : ResolvedTool) : ResolvedTool :=
  let m := if decide (TrimSpace (Man_Name (RT_Manifest t)) = "")
           then mergeManifestFromDescriptor (RT_Manifest t) (RT_Descriptor t)
           else RT_Manifest t in
  let e := RT_Eligibility t in
  let e := mkElig (Eligible e || Def_Eligible (RT_Descriptor t))
             (if decide (Elig_Reasons e = []) then Def_EligibilityReasons (RT_Descriptor t)
              else Elig_Reasons e) in
  mkTool (NormalizeDefinition (mergeDescriptor (RT_Descriptor t) m e)) m (RT_Trust t) e.

Definition normalizeTool (raw : ToolArg) : option ResolvedTool :=
  match raw with
  | NilTool | OtherArg => None
  | ResolvedArg t => Some (NormalizeResolvedTool t)
  | BoundArg m trust e =>
    Some (NormalizeResolvedTool
      (mkTool (mkDef (Man_Name m) (Man_SideEffectClass m) (Man_RequiresApproval m)
                 (Eligible e) (Elig_Reasons e) (mkAvail "" [])) m trust e))
  end.

(** ** Reasons *)

(** [dedupeReasons]: empty and repeated items are dropped, nothing is trimmed. *)
Fixpoint dedupe_reasons (seen : gset string) (items : list string) : list string :=
  match items with
  | [] => []
  | item :: rest =>
    if decide (item = "" \/ item ∈ seen) then dedupe_reasons seen rest
    else item :: dedupe_reasons ({[item]} ∪ seen) rest
  end.

Definition dedupeReasons (items : list string) : list string := dedupe_reasons ∅ items.

Definition summarizeReasons (reasons : list string) : string :=
  match dedupeReasons reasons with
  | [] => ""
  | [r] => r
  | r1 :: r2 :: _ => r1 +:+ "; " +:+ r2
  end.

Definition with_summary (prefix summary : string) : string :=
  if decide (summary = "") then prefix else prefix +:+ ": " +:+ summary.

Definition summarizeDecision (d : PolicyDecision) : string :=
  let reasonSummary := summarizeReasons (Reasons d) in
  if decide (Action d = DecisionDeny) then with_summary "denied by policy" reasonSummary
  else if decide (Action d = DecisionRequireApproval)
  then with_summary "approval required by policy" reasonSummary
  else with_summary "allowed by policy" reasonSummary.

Definition policySourceRules : string := "policy.default_engine/rules".

Definition finalizeDecision (d : PolicyDecision) : PolicyDecision :=
  let d := Decision_Normalized d in
  let source := if decide (PolicySource d = "") then policySourceRules else PolicySource d in
  mkDecision (Action d) (Reasons d) (ReasonCodes d) source
    (if decide (Dec_Summary d = "") then summarizeDecision d else Dec_Summary d)
    (PolicyLayers d) (AuditLabels d) (Dec_ApprovalPolicy d).

(** ** Command matchers *)

Definition normalizeBlockedCommand (raw : string) : string :=
  ToLower (Joins (Fields (TrimSpace raw)) " ").

Record BlockedCommandMatcher := mkBlocked { Blk_names : gset string; Blk_prefixes : list string }.

Definition NewBlockedCommandMatcher (items : list string) : option BlockedCommandMatcher :=
  let normalized := filter (fun s => s <> "") (normalizeBlockedCommand <$> items) in
  let prefixes := filter (fun s => Contains s " " = true) normalized in
  let names := list_to_set (filter (fun s => Contains s " " = false) normalized) in
  if decide (normalized = []) then None else Some (mkBlocked names (dedupeReasons prefixes)).

(** The name or prefix that blocks a command. *)
Definition BlockedMatch (m : option BlockedCommandMatcher) (command : string) : option string :=
  match m with
  | None => None
  | Some m =>
    let normalized := normalizeBlockedCommand command in
    if decide (normalized = "") then None
    else
      match Fields normalized with
      | [] => None
      | first :: _ =>
        if decide (first ∈ Blk_names m) then Some first
        else head (filter (fun prefix =>
               normalized = prefix \/ HasPrefix normalized (prefix +:+ " ") = true)
               (Blk_prefixes m))
      end
  end.
End Tools.

Section Safe.
Context `{GoRegexp}.

Definition DefaultSafePatterns : list string :=
  ["^ls(\s|$)"; "^cat\s"; "^head\s"; "^tail\s"; "^wc(\s|$)"; "^echo(\s|$)"; "^date(\s|$)";
   "^whoami(\s|$)"; "^pwd(\s|$)"; "^uname(\s|$)"; "^env(\s|$)"; "^printenv(\s|$)";
   "^git\s+(status|log|diff|show|branch|tag|remote|rev-parse)(\s|$)"; "^which\s"; "^file\s";
   "^stat\s"; "^df(\s|$)"; "^du\s"; "^hostname(\s|$)"; "^uptime(\s|$)"; "^id(\s|$)";
   "^groups(\s|$)"].

(** The compiled patterns and the ones that do not compile. *)
Record SafeCommandMatcher := mkSafe { patterns : list Regexp; invalidPatterns : list string }.

Definition NewSafeCommandMatcher (ps : list string) : SafeCommandMatcher :=
  mkSafe (omap Compile ps) (filter (fun p => Compile p = None) ps).

Definition IsSafe (m : SafeCommandMatcher) (command : string) : bool :=
  let command := TrimSpace command in
  if decide (command = "") then false else existsb (fun re => MatchString re command) (patterns m).
End Safe.

(** ** The engine *)

Record PolicyConfig := mkCfg {
  AllowUnknownTools : bool;
  RequireApprovalForWrite : bool;
  AllowLocalWriteWithoutApproval : bool;
  RequireApprovalCommunity : bool;
  SkipManifestApproval : bool;
  DenyDestructive : bool;
  SkillInstallPolicy : string;
  DefaultApprovalScope : Scope;
  MaxApprovalScope : Scope;
  SkillInstallDefaultScope : Scope;
  SkillInstallMaxScope : Scope;
  SafePatterns : list string;
  BlockedCommands : list string;
  DangerousTools : list string
}.

Record SecurityRisk := mkRisk { Risk_Type : string; Risk_Detail : string; Severity : string }.

Record ToolContext := mkCall {
  Call_SessionID : string;
  Call_ToolName : string;
  Call_Input : option (gmap string Any);
  Call_Tool : ToolArg
}.

Section Engine.
Context `{GoUnicode} `{GoFmt} `{GoQuote} `{GoRegexp}.

(** [ResourceScopeFromToolCall]. *)
Context (collect : string -> option (gmap string Any) -> ResourceScope).

(** The engine: its grant store and its auditor are optional. *)
Record DefaultEngine := mkEngine {
  eng_config : PolicyConfig;
  eng_safe : SafeCommandMatcher;
  eng_blocked : option BlockedCommandMatcher;
  eng_grants : option GrantMap;
  eng_auditor : option (string -> option (gmap string Any) -> list SecurityRisk);
  eng_dangerous : gset string
}.

Definition normalizeApprovalScopeWithFallback (raw fallback : Scope) : Scope :=
  match NormalizeScope raw with
  | None => fallback
  | Some scope => if decide (scope = "") then fallback else scope
  end.

Definition Config_Normalized (c : PolicyConfig) : PolicyConfig :=
  let d := normalizeApprovalScopeWithFallback (DefaultApprovalScope c) ScopeOnce in
  let m := normalizeApprovalScopeWithFallback (MaxApprovalScope c) ScopeSession in
  let d := if IsScopeBroader d m then m else d in
  let sd := normalizeApprovalScopeWithFallback (SkillInstallDefaultScope c) ScopeOnce in
  let sm := normalizeApprovalScopeWithFallback (SkillInstallMaxScope c) ScopeOnce in
  let sd := if IsScopeBroader sd sm then sm else sd in
  mkCfg (AllowUnknownTools c) (RequireApprovalForWrite c) (AllowLocalWriteWithoutApproval c)
    (RequireApprovalCommunity c) (SkipManifestApproval c) (DenyDestructive c)
    (SkillInstallPolicy c) d m sd sm (SafePatterns c) (BlockedCommands c) (DangerousTools c).

Definition ApprovalDefaults (c : PolicyConfig) : ApprovalPolicy :=
  let c := Config_Normalized c in
  Policy_Normalized (mkPolicy (DefaultApprovalScope c) (MaxApprovalScope c)).

Definition SkillInstallApprovalDefaults (c : PolicyConfig) : ApprovalPolicy :=
  let c := Config_Normalized c in
  Policy_Normalized (mkPolicy (SkillInstallDefaultScope c) (SkillInstallMaxScope c)).

Definition NewDefaultEngine (cfg : PolicyConfig) : DefaultEngine :=
  let cfg := Config_Normalized cfg in
  let ps := if decide (SafePatterns cfg = []) then DefaultSafePatterns else SafePatterns cfg in
  mkEngine cfg (NewSafeCommandMatcher ps) (NewBlockedCommandMatcher (BlockedCommands cfg))
    None None
    (list_to_set (filter (fun s => s <> "") ((fun t => TrimSpace (ToLower t)) <$> DangerousTools cfg))).

Definition SetGrantStore (e : DefaultEngine) (g : option GrantMap) : DefaultEngine :=
  mkEngine (eng_config e) (eng_safe e) (eng_blocked e) g (eng_auditor e) (eng_dangerous e).

Definition SetSecurityAuditor (e : DefaultEngine)
    (a : option (string -> option (gmap string Any) -> list SecurityRisk)) : DefaultEngine :=
  mkEngine (eng_config e) (eng_safe e) (eng_blocked e) (eng_grants e) a (eng_dangerous e).

Definition ptrDecisionApprovalPolicy (p : ApprovalPolicy) : option ApprovalPolicy :=
  if Policy_Empty p then None else Some (Policy_Normalized p).

Definition isExecTool (name : string) : bool :=
  bool_decide (TrimSpace (ToLower name) ∈ ["exec.run"; "exec.shell"; "exec.script"]).

Definition isSkillInstallTool (name : string) : bool :=
  bool_decide (TrimSpace (ToLower name) ∈ ["skill.install"; "skill.ensure"]).

Definition normalizeSkillInstallPolicy (raw : string) : string :=
  let s := TrimSpace (ToLower raw) in if decide (s = "") then "ask" else s.

(** The command of an exec call. *)
Definition extractExecCommand (call : ToolContext) : string :=
  match Call_Input call with
  | None => ""
  | Some input =>
    match input !! "command" with Some (AnyString cmd) => TrimSpace cmd | _ => "" end
  end.

(** The first of the naming inputs that prints as something. *)
Definition describeSkillInstallTarget (call : ToolContext) : string :=
  match Call_Input call with
  | None => ""
  | Some input =>
    default "" (head (filter (fun text => text <> "" /\ text <> "<nil>")
      (omap (fun key => (fun raw => TrimSpace (Sprint raw)) <$> input !! key)
         ["name"; "skill_id"; "query"; "goal"])))
  end.

Definition describeSkillInstallApproval (call : ToolContext) : string :=
  let target := describeSkillInstallTarget call in
  if decide (target = "") then "skill installation requires approval by policy"
  else "install skill " +:+ Quote target +:+ " requires approval by policy".

Definition describeSkillInstallDenial (call : ToolContext) : string :=
  let target := describeSkillInstallTarget call in
  if decide (target = "") then "skill installation is denied by policy"
  else "install skill " +:+ Quote target +:+ " is denied by policy".

(** A decision before it is finalized. *)
Definition decision (action : string) (reasons codes labels : list string)
    (source summary : string) (policy : option ApprovalPolicy) : PolicyDecision :=
  finalizeDecision (mkDecision action reasons codes source summary [] labels policy).

Definition HasHighSeverity (risks : list SecurityRisk) : bool :=
  existsb (fun r => bool_decide (Severity r = "high")) risks.

Definition audit_reasons (risks : list SecurityRisk) : list string :=
  (fun r => "security: " +:+ Risk_Type r +:+ " — " +:+ Risk_Detail r) <$>
    filter (fun r => Severity r = "high") risks.

(** The rules that ask for an approval: the reasons, codes and labels so far,
    and whether an approval is required. *)
Record Findings := mkFindings {
  f_require : bool;
  f_reasons : list string;
  f_codes : list string;
  f_labels : list string
}.

Definition note (cond require : bool) (reason : string) (codes labels : list string) (f : Findings)
    : Findings :=
  if cond then mkFindings (f_require f || require) (f_reasons f ++ [reason]) (f_codes f ++ codes)
                 (f_labels f ++ labels)
  else f.

Definition rule_findings (e : DefaultEngine) (call : ToolContext) (t : ResolvedTool) : Findings :=
  let c := eng_config e in
  let sideEffect := NormalizeSideEffectClass (Man_SideEffectClass (RT_Manifest t)) in
  let manifest := Man_RequiresApproval (RT_Manifest t) in
  let write := RequireApprovalForWrite c && bool_decide (sideEffect <> "")
               && bool_decide (sideEffect <> "read") in
  let local := bool_decide (sideEffect = "local_write") && AllowLocalWriteWithoutApproval c in
  let f := mkFindings false [] [] [] in
  let f := note (manifest && SkipManifestApproval c) false
    "tool manifest requires approval, but policy is configured to bypass manifest approval" [] [] f in
  let f := note (manifest && negb (SkipManifestApproval c)) true
    "tool manifest requires approval" ["manifest_requires_approval"] [] f in
  let f := note (write && local) false
    "local write tools are auto-approved by policy" ["local_write_auto_allowed"] [] f in
  let f := note (write && negb local) true
    ("side effect class " +:+ Quote sideEffect +:+ " requires approval")
    ["side_effect_requires_approval"] ["write_tool"] f in
  let f := note (RequireApprovalCommunity c && bool_decide (RT_Trust t = Some "community")) true
    "community tools require approval" ["community_tool_requires_approval"] [] f in
  note (bool_decide (TrimSpace (ToLower (Call_ToolName call)) ∈ eng_dangerous e)) true
    "tool is marked as dangerous" ["dangerous_tool_requires_approval"] ["dangerous_tool"] f.

(** The decision after the early exits. *)
Definition rules_decision (e : DefaultEngine) (call : ToolContext) (t : ResolvedTool)
    : PolicyDecision :=
  let f := rule_findings e call t in
  let risks := match eng_auditor e with
               | Some audit => audit (Call_ToolName call) (Call_Input call)
               | None => []
               end in
  if HasHighSeverity risks && DenyDestructive (eng_config e) then
    decision DecisionDeny (dedupeReasons (audit_reasons risks)) ["high_security_risk"]
      ["security_risk"] "policy.default_engine/security_audit"
      "denied because high-severity security risks were detected" None
  else
    let f := if HasHighSeverity risks
             then mkFindings true (f_reasons f ++ audit_reasons risks)
                    (f_codes f ++ ["high_security_risk"]) (f_labels f ++ ["security_risk"])
             else f in
    decision (if f_require f then DecisionRequireApproval else DecisionAllow)
      (dedupeReasons (f_reasons f)) (f_codes f) (f_labels f) policySourceRules ""
      (if f_require f then ptrDecisionApprovalPolicy (ApprovalDefaults (eng_config e)) else None).

(** The verdict of the grant store, when it is wired and the call has a session. *)
Definition grant_decision (e : DefaultEngine) (call : ToolContext) : GrantDecision :=
  match eng_grants e with
  | Some g =>
    if decide (Call_SessionID call = "") then noDecision
    else Evaluate g (Call_SessionID call) (Call_ToolName call)
           (collect (Call_ToolName call) (Call_Input call))
  | None => noDecision
  end.

Definition skill_install_decision (e : DefaultEngine) (call : ToolContext) : PolicyDecision :=
  let p := normalizeSkillInstallPolicy (SkillInstallPolicy (eng_config e)) in
  let source := "policy.default_engine/skill_install" in
  if decide (p = "auto") then
    decision DecisionAllow [] ["skill_install_auto_allowed"] ["skill_install"] source
      "allowed because skill installation is auto-approved by policy" None
  else if decide (p = "deny") then
    decision DecisionDeny [describeSkillInstallDenial call] ["skill_install_denied"]
      ["skill_install"] source "denied by skill installation policy" None
  else
    decision DecisionRequireApproval [describeSkillInstallApproval call]
      ["skill_install_requires_approval"] ["skill_install"] source
      "approval is required by skill installation policy"
      (ptrDecisionApprovalPolicy (SkillInstallApprovalDefaults (eng_config e))).

Definition EvaluateTool (e : DefaultEngine) (call : ToolContext) : PolicyDecision :=
  let c := eng_config e in
  match normalizeTool (Call_Tool call) with
  | None =>
    if AllowUnknownTools c then
      decision DecisionAllow [] ["unknown_tool_allowed"] [] "policy.default_engine/unknown_tool"
        "allowed because unknown tools are permitted by policy" None
    else
      decision DecisionDeny ["unknown tool"] ["unknown_tool"] ["tool_unknown"]
        "policy.default_engine/unknown_tool" "denied because the tool is unknown" None
  | Some t =>
    let av := Def_Availability (RT_Descriptor t) in
    if decide (Avail_Status av = AvailabilityBlocked \/ Avail_Status av = AvailabilityDiscoverable)
    then
      decision DecisionDeny
        (if decide (Avail_Reasons av = []) then ["tool is unavailable"] else Avail_Reasons av)
        ["tool_unavailable"] ["tool_unavailable"] "policy.default_engine/availability"
        "denied because the tool is unavailable" None
    else if negb (Eligible (RT_Eligibility t)) then
      decision DecisionDeny (Elig_Reasons (RT_Eligibility t)) ["tool_ineligible"]
        ["tool_ineligible"] "policy.default_engine/eligibility"
        "denied because the tool is not eligible in the current runtime" None
    else
      let g := grant_decision e call in
      if GD_Denied g then
        decision DecisionDeny ["tool denied by session grant"] ["session_denied_grant"]
          ["approval_grant"] "policy.default_engine/grant" "denied by session grant policy" None
      else if GD_Granted g then
        decision DecisionAllow [] ["approval_grant"] [] "policy.default_engine/grant"
          "allowed by approval grant" None
      else
        let cmd := if isExecTool (Call_ToolName call) then extractExecCommand call else "" in
        match (if decide (cmd = "") then None else BlockedMatch (eng_blocked e) cmd) with
        | Some blockedBy =>
          decision DecisionDeny ["command " +:+ Quote blockedBy +:+ " is blocked by policy"]
            ["blocked_command"] ["blocked_command"] "policy.default_engine/blocked_command"
            "denied because the exec command is blocked by policy" None
        | None =>
          if bool_decide (cmd <> "") && IsSafe (eng_safe e) cmd then
            decision DecisionAllow [] ["safe_exec_allowlist"] []
              "policy.default_engine/safe_exec" "allowed by safe exec allowlist" None
          else if DenyDestructive c
                  && bool_decide (NormalizeSideEffectClass (Man_SideEffectClass (RT_Manifest t))
                                  = "destructive") then
            decision DecisionDeny ["destructive tools are denied by policy"]
              ["destructive_tool_blocked"] ["destructive_tool"]
              "policy.default_engine/destructive" "denied because destructive tools are blocked" None
          else if isSkillInstallTool (Call_ToolName call) then skill_install_decision e call
          else rules_decision e call t
        end
  end.

(** ** What a finalized decision keeps *)

(** The actions an engine decides on. *)
Definition known_action (a : string) : Prop :=
  a = DecisionAllow \/ a = DecisionRequireApproval \/ a = DecisionDeny.

Lemma decision_action a reasons codes labels source summary p :
  known_action a -> Action (decision a reasons codes labels source summary p) = a.
Proof. by intros [->|[->| ->]]. Qed.

Lemma decision_policy a reasons codes labels source summary p :
  Dec_ApprovalPolicy (decision a reasons codes labels source summary p) =
  match p with
  | None => None
  | Some p => let p := Policy_Normalized p in if Policy_Empty p then None else Some p
  end.
Proof. done. Qed.

Lemma fallback_scope raw fallback :
  valid_scope fallback -> fallback <> "" ->
  valid_scope (normalizeApprovalScopeWithFallback raw fallback) /\
  normalizeApprovalScopeWithFallback raw fallback <> "".
Proof.
  intros Hv Hn. unfold normalizeApprovalScopeWithFallback.
  destruct (NormalizeScope raw) as [s|] eqn:Hs; [|done]. case_decide; [done|].
  split; [by eapply NormalizeScope_valid|done].
Qed.

(** Capping a default scope by a maximum gives a proper policy. *)
Lemma capped_policy_named d m :
  valid_scope d -> d <> "" -> valid_scope m -> m <> "" ->
  policy_named (mkPolicy (if IsScopeBroader d m then m else d) m).
Proof.
  intros Hd Hd0 Hm Hm0. rewrite IsScopeBroader_rank.
  case_bool_decide; unfold policy_named, policy_ok; cbn [DefaultScope MaxScope];
    (split_and!; [try done..]); lia.
Qed.

Lemma ApprovalDefaults_named c : policy_named (ApprovalDefaults c).
Proof.
  unfold ApprovalDefaults, Config_Normalized. cbn [DefaultApprovalScope MaxApprovalScope].
  destruct (fallback_scope (DefaultApprovalScope c) ScopeOnce); [by right; left|done|].
  destruct (fallback_scope (MaxApprovalScope c) ScopeSession); [by right; right; left|done|].
  rewrite Policy_Normalized_id; by apply capped_policy_named.
Qed.

Lemma SkillInstallApprovalDefaults_named c : policy_named (SkillInstallApprovalDefaults c).
Proof.
  unfold SkillInstallApprovalDefaults, Config_Normalized.
  cbn [SkillInstallDefaultScope SkillInstallMaxScope].
  destruct (fallback_scope (SkillInstallDefaultScope c) ScopeOnce); [by right; left|done|].
  destruct (fallback_scope (SkillInstallMaxScope c) ScopeOnce); [by right; left|done|].
  rewrite Policy_Normalized_id; by apply capped_policy_named.
Qed.

Lemma decision_named_policy a reasons codes labels source summary p :
  policy_named p ->
  Dec_ApprovalPolicy (decision a reasons codes labels source summary (ptrDecisionApprovalPolicy p))
  = Some p.
Proof.
  intros Hp. rewrite decision_policy. unfold ptrDecisionApprovalPolicy.
  assert (Hne : Policy_Empty p = false).
  { unfold Policy_Empty. destruct Hp as (_ & Hd & _). by rewrite bool_decide_eq_false_2. }
  rewrite Hne. cbv zeta. rewrite !(Policy_Normalized_id p) by done. by rewrite Hne.
Qed.

(** ** When a call is allowed *)

(** The command an exec tool would run. *)
Definition exec_command (call : ToolContext) : string :=
  if isExecTool (Call_ToolName call) then extractExecCommand call else "".

Definition command_blocked (e : DefaultEngine) (call : ToolContext) : Prop :=
  exec_command call <> "" /\ is_Some (BlockedMatch (eng_blocked e) (exec_command call)).

Definition command_safe (e : DefaultEngine) (call : ToolContext) : Prop :=
  exec_command call <> "" /\ IsSafe (eng_safe e) (exec_command call) = true.

Definition tool_usable (t : ResolvedTool) : Prop :=
  Avail_Status (Def_Availability (RT_Descriptor t)) ∉ [AvailabilityBlocked; AvailabilityDiscoverable]
  /\ Eligible (RT_Eligibility t) = true.

Definition risky (e : DefaultEngine) (call : ToolContext) : bool :=
  match eng_auditor e with
  | Some audit => HasHighSeverity (audit (Call_ToolName call) (Call_Input call))
  | None => false
  end.

(** Some rule of the policy asks for an approval of the call. *)
Definition approval_needed (e : DefaultEngine) (call : ToolContext) (t : ResolvedTool) : Prop :=
  let c := eng_config e in
  let sideEffect := NormalizeSideEffectClass (Man_SideEffectClass (RT_Manifest t)) in
  (Man_RequiresApproval (RT_Manifest t) = true /\ SkipManifestApproval c = false) \/
  (RequireApprovalForWrite c = true /\ sideEffect <> "read" /\
   ~ (sideEffect = "local_write" /\ AllowLocalWriteWithoutApproval c = true)) \/
  (RequireApprovalCommunity c = true /\ RT_Trust t = Some "community") \/
  TrimSpace (ToLower (Call_ToolName call)) ∈ eng_dangerous e \/
  risky e call = true.

Lemma f_require_note cond require reason codes labels f :
  f_require (note cond require reason codes labels f) = f_require f || (cond && require).
Proof. destruct cond, require, (f_require f) eqn:E; simpl; rewrite ?E; done. Qed.

Lemma side_effect_nonempty v : NormalizeSideEffectClass v <> "".
Proof. unfold NormalizeSideEffectClass. repeat case_decide; done. Qed.

Lemma rule_findings_require e call t :
  f_require (rule_findings e call t) = true \/ risky e call = true <-> approval_needed e call t.
Proof.
  unfold rule_findings. rewrite !f_require_note. cbn [f_require].
  rewrite (bool_decide_eq_true_2 (NormalizeSideEffectClass _ <> "")) by apply side_effect_nonempty.
  rewrite !orb_true_iff, !andb_true_iff, !negb_true_iff, andb_false_iff, !bool_decide_eq_true,
    bool_decide_eq_false.
  unfold approval_needed.
  destruct (AllowLocalWriteWithoutApproval (eng_config e)),
    (decide (NormalizeSideEffectClass (Man_SideEffectClass (RT_Manifest t)) = "local_write"));
    intuition congruence.
Qed.

Lemma risky_risks e call :
  risky e call = HasHighSeverity (match eng_auditor e with
    | Some audit => audit (Call_ToolName call) (Call_Input call) | None => [] end).
Proof. unfold risky. by destruct (eng_auditor e). Qed.

Lemma rules_decision_action e call t :
  Action (rules_decision e call t) =
  if risky e call && DenyDestructive (eng_config e) then DecisionDeny
  else if f_require (rule_findings e call t) || risky e call then DecisionRequireApproval
  else DecisionAllow.
Proof.
  unfold rules_decision. rewrite risky_risks. cbv zeta.
  destruct (HasHighSeverity _) eqn:Hr; cbn [andb].
  - destruct (DenyDestructive (eng_config e)).
    + rewrite decision_action; [done|]. by right; right.
    + cbn [f_require]. rewrite orb_true_r, decision_action; [done|]. by right; left.
  - rewrite orb_false_r. destruct (f_require _); rewrite decision_action; unfold known_action; tauto.
Qed.

Lemma skill_install_action e call :
  Action (skill_install_decision e call) =
  let p := normalizeSkillInstallPolicy (SkillInstallPolicy (eng_config e)) in
  if decide (p = "auto") then DecisionAllow
  else if decide (p = "deny") then DecisionDeny else DecisionRequireApproval.
Proof.
  unfold skill_install_decision. cbv zeta.
  repeat case_decide; rewrite decision_action; unfold known_action; tauto.
Qed.

(** The verdict on a tool that is usable, neither denied nor granted by the
    session, and whose command is neither blocked nor safe. *)
Definition rules_allow (e : DefaultEngine) (call : ToolContext) (t : ResolvedTool) : Prop :=
  ~ (DenyDestructive (eng_config e) = true /\
     NormalizeSideEffectClass (Man_SideEffectClass (RT_Manifest t)) = "destructive") /\
  if isSkillInstallTool (Call_ToolName call)
  then normalizeSkillInstallPolicy (SkillInstallPolicy (eng_config e)) = "auto"
  else ~ approval_needed e call t.

Lemma rules_decision_allow e call t :
  Action (rules_decision e call t) = DecisionAllow <-> ~ approval_needed e call t.
Proof.
  rewrite rules_decision_action, <- rule_findings_require.
  destruct (risky e call), (DenyDestructive (eng_config e)), (f_require (rule_findings e call t));
    cbn [andb orb]; naive_solver.
Qed.

Lemma skill_install_allow e call :
  Action (skill_install_decision e call) = DecisionAllow <->
  normalizeSkillInstallPolicy (SkillInstallPolicy (eng_config e)) = "auto".
Proof. rewrite skill_install_action. cbv zeta. repeat case_decide; naive_solver. Qed.

(** The command test of the engine, on the command of the call. *)
Lemma blocked_match_command e call :
  (if decide (exec_command call = "") then None else BlockedMatch (eng_blocked e) (exec_command call))
  = None <-> ~ command_blocked e call.
Proof.
  unfold command_blocked. case_decide as Hc; [naive_solver|].
  rewrite eq_None_not_Some. naive_solver.
Qed.

Lemma safe_match_command e call :
  bool_decide (exec_command call <> "") && IsSafe (eng_safe e) (exec_command call) = true <->
  command_safe e call.
Proof. unfold command_safe. by rewrite andb_true_iff, bool_decide_eq_true. Qed.

(** C5: When a tool call runs without asking anybody.  An unknown tool is
    allowed only if the configuration says so.  A known one is allowed exactly
    when it is available and eligible, the session has not denied it, and
    either the session granted it or its command is not blocked and is on the
    safe list or passes the rules: it is not a denied destructive tool, and no
    rule (manifest, write, community, dangerous, security audit) asks for an
    approval; a skill installation instead needs the "auto" policy. *)
Theorem tool_allowed_exactly e call :
  Action (EvaluateTool e call) = DecisionAllow <->
  match normalizeTool (Call_Tool call) with
  | None => AllowUnknownTools (eng_config e) = true
  | Some t =>
    tool_usable t /\ GD_Denied (grant_decision e call) = false /\
    (GD_Granted (grant_decision e call) = true \/
     ~ command_blocked e call /\ (command_safe e call \/ rules_allow e call t))
  end.
Proof.
  unfold EvaluateTool, rules_allow, tool_usable. fold (exec_command call). cbv zeta.
  destruct (normalizeTool (Call_Tool call)) as [t|].
  2:{ destruct (AllowUnknownTools _); rewrite decision_action; unfold known_action; naive_solver. }
  case_decide as Hav.
  { rewrite decision_action by (by right; right). set_solver. }
  assert (Hav' : Avail_Status (Def_Availability (RT_Descriptor t))
            ∉ [AvailabilityBlocked; AvailabilityDiscoverable]) by set_solver.
  destruct (Eligible (RT_Eligibility t)); cbn [negb].
  2:{ rewrite decision_action by (by right; right). naive_solver. }
  destruct (GD_Denied _).
  { rewrite decision_action by (by right; right). naive_solver. }
  destruct (GD_Granted _).
  { rewrite decision_action by (by left). naive_solver. }
  pose proof (blocked_match_command e call) as Hb. pose proof (safe_match_command e call) as Hs.
  destruct (if decide (exec_command call = "") then None else _) as [b|].
  { rewrite decision_action by (by right; right). naive_solver. }
  destruct (bool_decide (exec_command call <> "") && _).
  { rewrite decision_action by (by left). naive_solver. }
  destruct (DenyDestructive (eng_config e)); cbn [andb].
  - case_bool_decide.
    { rewrite decision_action by (by right; right). naive_solver. }
    destruct (isSkillInstallTool _); rewrite ?skill_install_allow, ?rules_decision_allow; naive_solver.
  - destruct (isSkillInstallTool _); rewrite ?skill_install_allow, ?rules_decision_allow; naive_solver.
Qed.

(** The policy that accompanies a request for approval. *)
Definition asked_policy (e : DefaultEngine) (call : ToolContext) : ApprovalPolicy :=
  if isSkillInstallTool (Call_ToolName call) then SkillInstallApprovalDefaults (eng_config e)
  else ApprovalDefaults (eng_config e).

Lemma asked_policy_named e call : policy_named (asked_policy e call).
Proof.
  unfold asked_policy. destruct (isSkillInstallTool _);
    [apply SkillInstallApprovalDefaults_named|apply ApprovalDefaults_named].
Qed.

Lemma decision_settled a reasons codes labels source summary p :
  a = DecisionAllow \/ a = DecisionDeny ->
  Action (decision a reasons codes labels source summary p) <> DecisionRequireApproval.
Proof. intros [-> | ->]; rewrite decision_action; unfold known_action; naive_solver. Qed.

Lemma skill_install_policy e call :
  Action (skill_install_decision e call) = DecisionRequireApproval ->
  Dec_ApprovalPolicy (skill_install_decision e call) =
  Some (SkillInstallApprovalDefaults (eng_config e)).
Proof.
  rewrite skill_install_action. unfold skill_install_decision. cbv zeta.
  repeat case_decide; try done. intros _.
  apply decision_named_policy, SkillInstallApprovalDefaults_named.
Qed.

Lemma rules_policy e call t :
  Action (rules_decision e call t) = DecisionRequireApproval ->
  Dec_ApprovalPolicy (rules_decision e call t) = Some (ApprovalDefaults (eng_config e)).
Proof.
  unfold rules_decision. cbv zeta.
  case_match; [intros Ha; by apply decision_settled in Ha; [|right]|].
  destruct (f_require _) eqn:Hf.
  - intros _. apply decision_named_policy, ApprovalDefaults_named.
  - intros Ha. by apply decision_settled in Ha; [|left].
Qed.

Lemma EvaluateTool_policy e call :
  Action (EvaluateTool e call) = DecisionRequireApproval ->
  Dec_ApprovalPolicy (EvaluateTool e call) = Some (asked_policy e call).
Proof.
  unfold EvaluateTool, asked_policy. cbv zeta.
  repeat first [ case_decide | case_match ];
    auto using skill_install_policy, rules_policy;
    intros Ha; exfalso; revert Ha; apply decision_settled; auto.
Qed.

(** A request for approval can be answered.  Every decision that asks for
    an approval carries a normalized policy with both scopes named, and a
    pending ticket that records this policy in its metadata is approved, at the
    policy's default scope, by a resolution that names no scope. *)
Theorem approval_request_answerable e call m s now id t r :
  Action (EvaluateTool e call) = DecisionRequireApproval ->
  m !! "policy_approval_default_scope" = None -> m !! "policy_approval_max_scope" = None ->
  as_byID s !! id = Some t -> T_Status t = StatusPending ->
  T_Metadata t = Some (approvalPolicyMetadata (Dec_ApprovalPolicy (EvaluateTool e call)) m) ->
  Res_Status r = StatusApproved -> Res_Scope r = "" ->
  exists p t', Dec_ApprovalPolicy (EvaluateTool e call) = Some p /\ policy_named p /\
    (Resolve s now id r).2 = inl t' /\ T_Scope t' = DefaultScope p.
Proof.
  intros Ha Hm1 Hm2 Ht Hp Hmeta Hr Hsc. apply EvaluateTool_policy in Ha. rewrite Ha in *.
  destruct (Resolve_default_scope s now id r t (asked_policy e call) m) as (t' & ? & ?);
    auto using asked_policy_named.
  exists (asked_policy e call), t'. auto using asked_policy_named.
Qed.
End Engine.

(** ** Scenarios *)
Section Scenario.
#[local] Existing Instance ascii_unicode.
#[local] Existing Instance simple_fmt.
#[local] Existing Instance simple_quote.
#[local] Existing Instance builtin_regexp.

Definition strict_config : PolicyConfig :=
  mkCfg false true false true false true "" "session" "always" "" "" [] ["rm"; "git push"] ["net.fetch"].

Definition shell_tool : ResolvedTool :=
  mkTool (mkDef "exec.shell" "destructive" true true [] (mkAvail "" []))
    (mkManifest "exec.shell" "destructive" true) None (mkElig true []).

Definition shell_call (cmd : string) : ToolContext :=
  mkCall "s" "exec.shell" (Some {[ "command" := AnyString cmd ]}) (ResolvedArg shell_tool).

Definition write_call : ToolContext :=
  mkCall "s" "file.write" (Some ∅) (BoundArg (mkManifest "file.write" "local-write" false) None (mkElig true [])).

Definition no_scope (_ : string) (_ : option (gmap string Any)) : ResourceScope := emptyScope.

(** The safe list looks at the beginning of a command only.  With the
    default patterns, a configuration that blocks "rm" and denies destructive
    tools rejects "rm -rf /" and lets the shell run "ls ; rm -rf /" without an
    approval. *)
Theorem safe_list_checks_prefix_only :
  let e := NewDefaultEngine strict_config in
  Action (EvaluateTool no_scope e (shell_call "rm -rf /")) = DecisionDeny /\
  Action (EvaluateTool no_scope e (shell_call "ls ; rm -rf /")) = DecisionAllow.
Proof. vm_compute. split; reflexivity. Qed.

Definition write_ticket : Ticket :=
  mkTicket "" "run-1" "s" "" "" [] []
    (Some (approvalPolicyMetadata
       (Dec_ApprovalPolicy (EvaluateTool no_scope (NewDefaultEngine strict_config) write_call)) ∅))
    zeroTime zeroTime "" "" "" [].

Lemma approval_request_answerable_witness :
  exists t', (Resolve (CreateTicket NewApprovalStore 5 write_ticket).1 6 "appr-000001" approve).2 = inl t'
    /\ T_Scope t' = ScopeSession.
Proof.
  destruct (approval_request_answerable no_scope (NewDefaultEngine strict_config) write_call ∅
    (CreateTicket NewApprovalStore 5 write_ticket).1 6 "appr-000001"
    (cloneTicket (pending_ticket 5 1 write_ticket)) approve)
    as (p & t' & Hp & _ & Hr & Hs); [vm_compute; reflexivity..|].
  exists t'. split; [exact Hr|]. rewrite Hs. apply (inj Some). change (DefaultScope <$> Some p = Some ScopeSession).
  rewrite <- Hp. vm_compute. reflexivity.
Defined.
End Scenario.
