(* ===== verification/PolicyChain.v ===== *)
(** * Layered policies ([policy/chain.go])

    A chain evaluates every layer and keeps the strictest action; the approval
    policies of the layers are merged by keeping the narrower scopes. *)
From S2P Require Import Prelude GoLib GoText Normalize ResourceScope ApprovalPolicy GrantStore ToolPolicy.
Import Str Text GoAny.

Section Chain.
Context `{GoUnicode} `{GoFmt}.

(** An engine answers with a decision or fails. *)
Definition Engine : Type := ToolContext -> PolicyDecision + string.

Record Layer := mkLayer { Layer_Name : string; Layer_Engine : option Engine }.

Definition AddLayer (layers : list Layer) (name : string) (engine : option Engine) : list Layer :=
  match engine with
  | None => layers
  | Some _ => layers ++ [mkLayer (TrimSpace name) engine]
  end.

Definition NewChainEngine (layers : list Layer) : list Layer :=
  foldl (fun acc layer => AddLayer acc (Layer_Name layer) (Layer_Engine layer)) [] layers.

Definition actionPriority (action : string) : Z :=
  if decide (action = DecisionDeny) then 2
  else if decide (action = DecisionRequireApproval) then 1 else 0.

Definition chainLayerSource (layer : Layer) (d : PolicyDecision) : string :=
  if decide (TrimSpace (PolicySource d) = "") then
    if decide (TrimSpace (Layer_Name layer) = "") then "policy.chain/layer"
    else "policy.chain/" +:+ TrimSpace (Layer_Name layer)
  else TrimSpace (PolicySource d).

Fixpoint dedupe_layers (seen : gset string) (values : list string) : list string :=
  match values with
  | [] => []
  | value :: rest =>
    let trimmed := TrimSpace value in
    if decide (trimmed = "" \/ trimmed ∈ seen) then dedupe_layers seen rest
    else trimmed :: dedupe_layers ({[trimmed]} ∪ seen) rest
  end.

Definition dedupePolicyLayers (values : list string) : list string := dedupe_layers ∅ values.

(** A policy after normalization, dropped when it says nothing. *)
Definition present (p : ApprovalPolicy) : option ApprovalPolicy :=
  let p := Policy_Normalized p in if Policy_Empty p then None else Some p.

Definition mergeApprovalPolicies (current next : option ApprovalPolicy) : option ApprovalPolicy :=
  match current, next with
  | None, None => None
  | None, Some p | Some p, None => present p
  | Some c, Some n =>
    present (mkPolicy
      (default ScopeOnce (NarrowerScopeChecked [DefaultScope c; DefaultScope n]))
      (default ScopeOnce (NarrowerScopeChecked [MaxScope c; MaxScope n])))
  end.

(** What the loop over the layers carries. *)
Record ChainState := mkChain {
  ch_final : PolicyDecision;
  ch_winning : Z;
  ch_sources : list string;
  ch_evaluated : bool
}.

Definition chain_start : ChainState :=
  mkChain (mkDecision DecisionAllow [] [] "" "" [] [] None) (actionPriority DecisionAllow) [] false.

(** One layer's decision is folded into the state. *)
Definition chain_step (st : ChainState) (layer : Layer) (answer : PolicyDecision) : ChainState :=
  let d := Decision_Normalized answer in
  let source := chainLayerSource layer d in
  let f := ch_final st in
  let priority := actionPriority (Action d) in
  let summary := TrimSpace (Dec_Summary d) in
  let wins := bool_decide (ch_winning st < priority)%Z in
  let ties := bool_decide (priority = ch_winning st) in
  mkChain
    (mkDecision
       (if wins then Action d else Action f)
       (Reasons f ++ Reasons d) (ReasonCodes f ++ ReasonCodes d)
       (if wins then FirstNonEmpty [PolicySource d; source]
        else if ties then FirstNonEmpty [PolicySource d; source; PolicySource f]
        else PolicySource f)
       (if wins then summary
        else if ties && bool_decide (summary <> "") then summary else Dec_Summary f)
       (PolicyLayers f) (AuditLabels f ++ AuditLabels d)
       (mergeApprovalPolicies (Dec_ApprovalPolicy f) (Dec_ApprovalPolicy d)))
    (if wins then priority else ch_winning st)
    (if decide (source = "") then ch_sources st else ch_sources st ++ [source])
    true.

Fixpoint chain_loop (call : ToolContext) (st : ChainState) (layers : list Layer)
    : ChainState + string :=
  match layers with
  | [] => inl st
  | layer :: rest =>
    match Layer_Engine layer with
    | None => chain_loop call (st) rest
    | Some engine =>
      match engine call with
      | inr err => inr err
      | inl answer => chain_loop call (chain_step st layer answer) rest
      end
    end
  end.

Definition ChainEvaluateTool (layers : list Layer) (call : ToolContext) : PolicyDecision + string :=
  if decide (layers = []) then
    inl (finalizeDecision (mkDecision DecisionAllow [] [] "policy.chain/empty"
      "allowed because no policy layers are configured" [] [] None))
  else
    match chain_loop call chain_start layers with
    | inr err => inr err
    | inl st =>
      if ch_evaluated st then
        let f := ch_final st in
        inl (finalizeDecision (mkDecision (Action f) (Reasons f) (ReasonCodes f) (PolicySource f)
          (Dec_Summary f) (dedupePolicyLayers (ch_sources st)) (AuditLabels f)
          (if decide (Action f = DecisionRequireApproval) then Dec_ApprovalPolicy f else None)))
      else
        inl (finalizeDecision (mkDecision DecisionAllow [] [] "policy.chain/empty"
          "allowed because no active policy layers are configured" [] [] None))
    end.

(** ** The specification: the strictest answer, or a failure *)

Definition layer_action (call : ToolContext) (engine : Engine) : option string :=
  match engine call with inl d => Some (Action (Decision_Normalized d)) | inr _ => None end.

Definition strictest (actions : list string) : string :=
  if bool_decide (DecisionDeny ∈ actions) then DecisionDeny
  else if bool_decide (DecisionRequireApproval ∈ actions) then DecisionRequireApproval
  else DecisionAllow.

Definition chain_verdict (call : ToolContext) (layers : list Layer) : option string :=
  strictest <$> mapM (layer_action call) (omap Layer_Engine layers).

Definition verdict_of (r : PolicyDecision + string) : option string :=
  match r with inl d => Some (Action d) | inr _ => None end.

#[export] Instance strictest_proper : Proper ((≡ₚ) ==> (=)) strictest.
Proof.
  intros l1 l2 Hp. unfold strictest.
  by rewrite !(bool_decide_ext (_ ∈ l1) (_ ∈ l2)) by (by rewrite Hp).
Qed.

Lemma mapM_cons' {A B} (f : A -> option B) x l :
  mapM f (x :: l) = match f x with Some y => cons y <$> mapM f l | None => None end.
Proof. simpl. destruct (f x); [simpl|done]. by destruct (mapM f l). Qed.

Lemma mapM_permutation {A B} (f : A -> option B) l1 l2 :
  l1 ≡ₚ l2 ->
  match mapM f l1, mapM f l2 with
  | Some k1, Some k2 => k1 ≡ₚ k2
  | None, None => True
  | _, _ => False
  end.
Proof.
  induction 1 as [|x l1 l2 _ IH|x y l|l1 l2 l3 _ IH1 _ IH2]; [simpl; constructor|..].
  - simpl. destruct (f x); [|done]. simpl. destruct (mapM f l1), (mapM f l2); simpl; try done.
    by constructor.
  - simpl. destruct (f y), (f x); simpl; try done; destruct (mapM f l); simpl; constructor || done.
  - destruct (mapM f l1), (mapM f l2), (mapM f l3); try done. by etrans.
Qed.

Lemma chain_verdict_permutation call l1 l2 :
  l1 ≡ₚ l2 -> chain_verdict call l1 = chain_verdict call l2.
Proof.
  intros Hp. apply (omap_Permutation Layer_Engine) in Hp. unfold chain_verdict.
  pose proof (mapM_permutation (layer_action call) _ _ Hp) as Hm.
  destruct (mapM _ (omap _ l1)), (mapM _ (omap _ l2)); try done. simpl. by rewrite Hm.
Qed.

(** ** The loop *)

(** The state's action is a known one and its priority is recorded. *)
Definition chain_ok (st : ChainState) : Prop :=
  known_action (Action (ch_final st)) /\ ch_winning st = actionPriority (Action (ch_final st)).

Lemma strictest_known actions : known_action (strictest actions).
Proof. unfold strictest, known_action. repeat case_bool_decide; tauto. Qed.

Lemma strictest_merge a b actions : known_action a ->
  strictest ((if bool_decide (actionPriority a < actionPriority b)%Z then b else a) :: actions) =
  strictest (a :: b :: actions).
Proof.
  intros Ha.
  assert (Hc : forall (x y : string) l, bool_decide (x ∈ y :: l) = bool_decide (x = y) || bool_decide (x ∈ l)).
  { intros x y l. rewrite <- bool_decide_or. apply bool_decide_ext, elem_of_cons. }
  unfold strictest. rewrite !Hc. clear Hc.
  destruct (decide (b = DecisionDeny)) as [->|Hd];
    [|destruct (decide (b = DecisionRequireApproval)) as [->|Hr]];
    destruct Ha as [->|[->| ->]]; try done.
  all: assert (Hb : actionPriority b = 0%Z) by (unfold actionPriority; by rewrite !decide_False).
  all: rewrite Hb; cbn; rewrite ?(bool_decide_eq_false_2 (_ = b)) by congruence; done.
Qed.

Lemma normalized_priority d :
  (0 < actionPriority (Action (Decision_Normalized d)))%Z ->
  known_action (Action (Decision_Normalized d)).
Proof. unfold actionPriority, known_action. repeat case_decide; auto; lia. Qed.

Lemma chain_step_action st layer answer : chain_ok st ->
  chain_ok (chain_step st layer answer) /\
  forall actions,
    strictest (Action (ch_final (chain_step st layer answer)) :: actions) =
    strictest (Action (ch_final st) :: Action (Decision_Normalized answer) :: actions).
Proof.
  intros [Hk Hw]. unfold chain_ok, chain_step. cbn [ch_final ch_winning Action]. rewrite Hw. split.
  - case_bool_decide as Hlt; [|done]. split; [|done]. apply normalized_priority.
    unfold actionPriority at 1 in Hlt. repeat case_decide; lia.
  - intros actions. by apply strictest_merge.
Qed.

Lemma chain_loop_spec call layers st : chain_ok st ->
  match chain_loop call st layers with
  | inr _ => chain_verdict call layers = None
  | inl st' => chain_ok st' /\
      exists actions, mapM (layer_action call) (omap Layer_Engine layers) = Some actions /\
        Action (ch_final st') = strictest (Action (ch_final st) :: actions) /\
        (ch_evaluated st' = false -> ch_evaluated st = false /\ actions = [])
  end.
Proof.
  revert st. induction layers as [|layer rest IH]; intros st Hok.
  { simpl. split; [done|]. exists []. destruct Hok as [Hk _].
    split_and!; [done| |done]. unfold strictest. destruct Hk as [-> | [-> | ->]]; done. }
  unfold chain_verdict. cbn [chain_loop]. cbn [omap list_omap].
  destruct (Layer_Engine layer) as [engine|]; [|by apply IH].
  assert (Hl : layer_action call engine =
    match engine call with inl d => Some (Action (Decision_Normalized d)) | inr _ => None end) by done.
  rewrite !mapM_cons', Hl. destruct (engine call) as [answer|err]; [|done].
  destruct (chain_step_action st layer answer Hok) as [Hok' Hst].
  specialize (IH _ Hok'). unfold chain_verdict in IH.
  destruct (chain_loop call _ rest) as [st'|err'].
  - destruct IH as (? & actions & Hm & Ha & He). split; [done|].
    exists (Action (Decision_Normalized answer) :: actions). rewrite Hm. split_and!; [done| |].
    + by rewrite Ha, Hst.
    + intros Hf. by destruct (He Hf).
  - apply fmap_None in IH. by rewrite IH.
Qed.

Lemma finalize_action d : known_action (Action d) -> Action (finalizeDecision d) = Action d.
Proof. destruct d. cbn. by intros [->|[->| ->]]. Qed.

Lemma chain_start_ok : chain_ok chain_start.
Proof. split; [by left|done]. Qed.

Lemma ChainEvaluateTool_verdict layers call :
  verdict_of (ChainEvaluateTool layers call) = chain_verdict call layers.
Proof.
  unfold ChainEvaluateTool. case_decide as Hl; [by subst|].
  pose proof (chain_loop_spec call layers chain_start chain_start_ok) as Hs.
  destruct (chain_loop call chain_start layers) as [st|err]; [|done].
  destruct Hs as ([Hk _] & actions & Hm & Ha & He). unfold chain_verdict. rewrite Hm. cbn [fmap option_fmap option_map].
  assert (Hact : Action (ch_final st) = strictest actions).
  { rewrite Ha. unfold strictest.
    by rewrite !(bool_decide_ext (_ ∈ Action (ch_final chain_start) :: actions) (_ ∈ actions))
      by (rewrite elem_of_cons; split; [by intros [?|?]|by right]). }
  destruct (ch_evaluated st).
  - cbn [verdict_of]. by rewrite finalize_action, <- Hact.
  - destruct (He eq_refl) as [_ ->]. done.
Qed.

(** C6: A chain of policies is as strict as its strictest layer.  The call
    fails exactly when some active layer fails; otherwise it is denied when
    some layer denies it, needs an approval when none denies and some layer
    asks for one, and is allowed only when every layer allows it.  The order of
    the layers makes no difference. *)
Theorem chain_is_strictest layers call :
  verdict_of (ChainEvaluateTool layers call) = chain_verdict call layers /\
  (forall layers', layers ≡ₚ layers' ->
     verdict_of (ChainEvaluateTool layers' call) = verdict_of (ChainEvaluateTool layers call)).
Proof.
  split; [apply ChainEvaluateTool_verdict|]. intros layers' Hp.
  rewrite !ChainEvaluateTool_verdict. symmetry. by apply chain_verdict_permutation.
Qed.

(** ** The merged approval policy *)

(** A policy that survives [present]: normalized, with a maximal scope. *)
Definition policy_capped (p : ApprovalPolicy) : Prop := policy_ok p /\ MaxScope p <> "".

(** [q] allows no more than [p]. *)
Definition no_broader (q p : ApprovalPolicy) : Prop :=
  (ScopeRank (MaxScope q) <= ScopeRank (MaxScope p))%Z.

Lemma Policy_Normalized_max p :
  Policy_Empty (Policy_Normalized p) = false -> MaxScope (Policy_Normalized p) <> "".
Proof.
  intros He Hm. destruct (decide (DefaultScope (Policy_Normalized p) = "")) as [Hd|Hd].
  - unfold Policy_Empty in He. by rewrite Hd, Hm in He.
  - by apply Policy_Normalized_named in Hd as (_ & _ & ?).
Qed.

Lemma present_capped p q : present p = Some q -> policy_capped q.
Proof.
  unfold present. cbv zeta. destruct (Policy_Empty _) eqn:He; [done|]. intros [= <-].
  split; [apply Policy_Normalized_ok|by apply Policy_Normalized_max].
Qed.

(** A named maximal scope is kept by the normalization. *)
Lemma present_max d m : valid_scope m -> m <> "" ->
  exists q, present (mkPolicy d m) = Some q /\ MaxScope q = m.
Proof.
  intros Hv Hm. unfold present. cbv zeta.
  assert (HM : MaxScope (Policy_Normalized (mkPolicy d m)) = m).
  { unfold Policy_Normalized. cbn [MaxScope DefaultScope]. rewrite (valid_scope_fixed m) by done.
    cbn [default from_option]. by rewrite decide_False by tauto. }
  assert (He : Policy_Empty (Policy_Normalized (mkPolicy d m)) = false).
  { unfold Policy_Empty. rewrite HM, (bool_decide_eq_false_2 (m = "")), andb_false_r by done. done. }
  rewrite He. eauto.
Qed.

Lemma narrower_total winner values :
  Forall valid_scope values -> is_Some (narrower_loop winner values).
Proof.
  intros Hf. revert winner. induction Hf as [|v rest Hv _ IH]; intros winner; [by eexists|].
  cbn [narrower_loop]. rewrite valid_scope_fixed by done. repeat case_decide; apply IH.
Qed.

Lemma merge_narrower c n :
  (forall p, c = Some p -> policy_capped p) -> (forall p, n = Some p -> policy_capped p) ->
  forall p, c = Some p \/ n = Some p ->
  exists q, mergeApprovalPolicies c n = Some q /\ policy_capped q /\ no_broader q p.
Proof.
  intros Hc Hn p Hp.
  assert (Hone : forall p0, policy_capped p0 ->
    exists q, present p0 = Some q /\ policy_capped q /\ no_broader q p0).
  { intros [d m] [(_ & Hv & _) Hm]. destruct (present_max d m Hv Hm) as (q & Hq & Hqm).
    exists q. split_and!; [done|by eapply present_capped|]. unfold no_broader. rewrite Hqm. cbn. lia. }
  destruct c as [c|], n as [n|]; cbn [mergeApprovalPolicies].
  2,3: destruct Hp as [Hp|Hp]; [..]; try done; apply (inj Some) in Hp as <-; eauto.
  2: by destruct Hp.
  destruct (Hc c eq_refl) as [(_ & Hvc & _) Hmc]. destruct (Hn n eq_refl) as [(_ & Hvn & _) Hmn].
  unfold NarrowerScopeChecked at 2.
  destruct (narrower_total "" [MaxScope c; MaxScope n]) as [out Hout]; [by rewrite Forall_cons, Forall_singleton|].
  rewrite Hout. cbn [default from_option].
  apply narrower_loop_spec in Hout as (Hv & _ & _ & Hall); [|by left].
  destruct (Hall (MaxScope c) (MaxScope c)) as [Hne Hrc]; [set_solver|by apply valid_scope_fixed|done|].
  destruct (Hall (MaxScope n) (MaxScope n)) as [_ Hrn]; [set_solver|by apply valid_scope_fixed|done|].
  edestruct (present_max (default ScopeOnce (NarrowerScopeChecked [DefaultScope c; DefaultScope n])) out)
    as (q & Hq & Hqm); [done|done|].
  exists q. split_and!; [exact Hq|by eapply present_capped|].
  unfold no_broader. rewrite Hqm. destruct Hp as [Hp|Hp]; apply (inj Some) in Hp as <-; done.
Qed.

Lemma Decision_Normalized_capped d p :
  Dec_ApprovalPolicy (Decision_Normalized d) = Some p -> policy_capped p.
Proof.
  unfold Decision_Normalized. cbn [Dec_ApprovalPolicy]. destruct (Dec_ApprovalPolicy d); [|done].
  apply present_capped.
Qed.

Lemma no_broader_trans r q p : no_broader r q -> no_broader q p -> no_broader r p.
Proof. unfold no_broader. lia. Qed.

(** The policy of the state after the loop is no broader than the one before
    it and than the one of any layer. *)
Lemma chain_loop_policy call layers st st' :
  chain_loop call st layers = inl st' ->
  (forall p, Dec_ApprovalPolicy (ch_final st) = Some p -> policy_capped p) ->
  forall p, Dec_ApprovalPolicy (ch_final st) = Some p \/
    (exists layer engine answer, layer ∈ layers /\ Layer_Engine layer = Some engine /\
       engine call = inl answer /\ Dec_ApprovalPolicy (Decision_Normalized answer) = Some p) ->
  exists q, Dec_ApprovalPolicy (ch_final st') = Some q /\ policy_capped q /\ no_broader q p.
Proof.
  revert st. induction layers as [|layer rest IH]; intros st Hl Hcap p Hp; cbn [chain_loop] in Hl.
  { apply (inj inl) in Hl as <-. destruct Hp as [Hp|(layer & _ & _ & Hin & _)]; [|by apply elem_of_nil in Hin].
    exists p. unfold no_broader. split_and!; [done|by apply Hcap|lia]. }
  destruct (Layer_Engine layer) as [engine|] eqn:Hle.
  2:{ apply (IH st Hl Hcap). destruct Hp as [?|(l & e & a & Hin & He & Hr)]; [by left|right].
      exists l, e, a. split; [|done]. apply elem_of_cons in Hin as [->|?]; [congruence|done]. }
  destruct (engine call) as [answer|] eqn:Hans; [|done].
  pose proof (merge_narrower (Dec_ApprovalPolicy (ch_final st))
    (Dec_ApprovalPolicy (Decision_Normalized answer)) Hcap (Decision_Normalized_capped answer)) as Hm.
  assert (Hcap' : forall p, Dec_ApprovalPolicy (ch_final (chain_step st layer answer)) = Some p ->
            policy_capped p).
  { unfold chain_step. cbn [ch_final Dec_ApprovalPolicy]. intros p' Hp'.
    destruct (Dec_ApprovalPolicy (ch_final st)) as [c|] eqn:Ec.
    - destruct (Hm c (or_introl eq_refl)) as (q & Hq & Hqc & _). congruence.
    - destruct (Dec_ApprovalPolicy (Decision_Normalized answer)) as [n|] eqn:En; [|done].
      destruct (Hm n (or_intror eq_refl)) as (q & Hq & Hqc & _). congruence. }
  destruct Hp as [Hp|(l & e & a & Hin & He & Ha & Hp)].
  - destruct (Hm p (or_introl Hp)) as (q & Hq & _ & Hnb).
    destruct (IH _ Hl Hcap' q (or_introl Hq)) as (r & ? & ? & ?). eauto using no_broader_trans.
  - apply elem_of_cons in Hin as [->|Hin].
    + assert (e = engine) as -> by congruence. assert (a = answer) as -> by congruence.
      destruct (Hm p (or_intror Hp)) as (q & Hq & _ & Hnb).
      destruct (IH _ Hl Hcap' q (or_introl Hq)) as (r & ? & ? & ?). eauto using no_broader_trans.
    + apply (IH _ Hl Hcap' p). right. by exists l, e, a.
Qed.

(** The policy of a chain's request for approval is no broader than the one
    of any layer: when the chain asks for an approval and some layer answered
    with an approval policy, the merged policy is normalized, names a maximal
    scope, and neither its maximal nor its default scope is broader than the
    maximal scope of that layer. *)
Theorem chain_policy_no_broader layers call d layer engine answer p :
  ChainEvaluateTool layers call = inl d -> Action d = DecisionRequireApproval ->
  layer ∈ layers -> Layer_Engine layer = Some engine -> engine call = inl answer ->
  Dec_ApprovalPolicy (Decision_Normalized answer) = Some p ->
  exists q, Dec_ApprovalPolicy d = Some q /\ policy_ok q /\ MaxScope q <> "" /\
    (ScopeRank (MaxScope q) <= ScopeRank (MaxScope p))%Z /\
    (ScopeRank (DefaultScope q) <= ScopeRank (MaxScope p))%Z.
Proof.
  intros Hd Ha Hin Hl He Hp. unfold ChainEvaluateTool in Hd.
  case_decide as Hnil; [subst; by apply elem_of_nil in Hin|].
  destruct (chain_loop call chain_start layers) as [st|] eqn:Hloop; [|done].
  pose proof (chain_loop_spec call layers chain_start chain_start_ok) as Hs. rewrite Hloop in Hs.
  destruct Hs as ([Hk _] & _). destruct (ch_evaluated st); [|by simplify_eq].
  destruct (chain_loop_policy call layers chain_start st Hloop) with (p := p) as (q & Hq & Hcap & Hnb);
    [done|right; by exists layer, engine, answer|].
  apply (inj inl) in Hd as <-. rewrite finalize_action in Ha by done. cbn [Action] in Ha.
  unfold finalizeDecision, Decision_Normalized. cbn [Dec_ApprovalPolicy Action].
  rewrite (decide_True (P := Action (ch_final st) = _)), Hq by done.
  destruct (merge_narrower (Some q) None) with (p := q) as (r & Hr & Hrc & Hrn);
    [by intros ? [= <-]|done|by left|].
  exists r. destruct Hrc as [Hrok Hrm]. pose proof Hrok as (_ & _ & Hle).
  unfold no_broader in *. split_and!; [exact Hr|done|done|lia|lia].
Qed.
End Chain.

(** ** A scenario: a strict layer over a permissive one *)
Section Scenario.
#[local] Existing Instance ascii_unicode.
#[local] Existing Instance simple_fmt.
#[local] Existing Instance simple_quote.
#[local] Existing Instance builtin_regexp.

Definition strict_layer : Engine := fun call => inl (EvaluateTool no_scope (NewDefaultEngine strict_config) call).

Definition lax_layer : Engine := fun call =>
  inl (EvaluateTool no_scope (NewDefaultEngine
    (mkCfg true false true false true false "auto" "once" "once" "" "" [] [] ["file.write"])) call).

Definition two_layers : list Layer :=
  NewChainEngine [mkLayer "org" (Some strict_layer); mkLayer " user " (Some lax_layer); mkLayer "x" None].

Lemma chain_policy_no_broader_witness :
  exists d q, ChainEvaluateTool two_layers write_call = inl d /\ Dec_ApprovalPolicy d = Some q /\
    (ScopeRank (MaxScope q) <= ScopeRank ScopeOnce)%Z.
Proof.
  destruct (ChainEvaluateTool two_layers write_call) as [d|] eqn:Hd; [|vm_compute in Hd; discriminate].
  destruct (lax_layer write_call) as [a|] eqn:Ha; [|vm_compute in Ha; discriminate].
  destruct (chain_policy_no_broader two_layers write_call d (mkLayer "user" (Some lax_layer)) lax_layer a
    (mkPolicy ScopeOnce ScopeOnce) Hd) as (q & Hq & _ & _ & Hr & _).
  - assert (E : Some (Action d) = Some DecisionRequireApproval); [|by apply (inj Some)].
    change (verdict_of (inl d) = Some DecisionRequireApproval). rewrite <- Hd. vm_compute. reflexivity.
  - right. left.
  - reflexivity.
  - exact Ha.
  - change (match @inl _ string a with
             | inl x => Dec_ApprovalPolicy (Decision_Normalized x) | inr _ => None end = Some (mkPolicy ScopeOnce ScopeOnce)).
    rewrite <- Ha. vm_compute. reflexivity.
  - exists d, q. auto.
Defined.
End Scenario.
