(* ===== verification/AuditDelivery.v ===== *)
(** * Reliable delivery of audit events ([audit/delivery.go])

    The dispatcher queues every event once per sink in a delivery store and
    retries failed deliveries with an exponential back-off until they succeed
    or become dead letters.  Sinks are records of a name and a delivery
    function; both the clock and the sinks depend on the number of effects so
    far, so that nothing is assumed of them.  Copying an event copies its
    attribute map one level deep, which on values is the identity.  The sort of
    the Go library may order equal elements in any way; here they keep their
    order. *)
From S2P Require Import Prelude GoLib Normalize RunStore EventBus.
From stdpp Require Import sorting relations.
Import Str Text GoTime.
Local Open Scope Z_scope.

Definition DeliveryStatusPending : string := "pending".
Definition DeliveryStatusDelivered : string := "delivered".
Definition DeliveryStatusDeadLetter : string := "dead_letter".

Record DeliveryEntry := mkEntry {
  DE_ID : string;
  DE_SinkName : string;
  DE_EventID : string;
  DE_EventType : string;
  DE_RunID : string;
  DE_SessionID : string;
  DE_Event : Event;
  DE_Status : string;
  DE_Attempts : Z;
  DE_MaxAttempts : Z;
  DE_LastError : string;
  DE_NextAttemptAt : Time;
  DE_LastAttemptAt : Time;
  DE_CreatedAt : Time;
  DE_UpdatedAt : Time;
  DE_DeliveredAt : Time
}.

(** An entry with the fields that a delivery or a redrive changes. *)
Definition DE_set (e : DeliveryEntry) (status : string) (attempts : Z) (err : string)
    (next last updated delivered : Time) : DeliveryEntry :=
  mkEntry (DE_ID e) (DE_SinkName e) (DE_EventID e) (DE_EventType e) (DE_RunID e) (DE_SessionID e)
    (DE_Event e) status attempts (DE_MaxAttempts e) err next last (DE_CreatedAt e) updated delivered.

Record DeliveryListFilter := mkDF {
  DF_Status : string;
  DF_SinkName : string;
  DF_RunID : string;
  DF_SessionID : string;
  DF_EventType : string;
  DF_Query : string;
  DF_Limit : Z
}.

Record DeliveryRedriveOptions := mkRedrive { ResetAttempts : bool; ClearError : bool }.

Record DeliveryStats := mkStats {
  St_Total : Z;
  St_ByStatus : gmap string Z;
  St_Delivered : Z;
  St_Pending : Z;
  St_DeadLetter : Z;
  St_OldestPendingAt : Time;
  St_OldestDeadLetterAt : Time
}.

Record DeliveryConfig := mkDC {
  DC_MaxAttempts : Z;
  BaseBackoff : Duration;
  MaxBackoff : Duration;
  PollInterval : Duration;
  BatchSize : Z
}.

Definition DeliveryConfig_normalized (c : DeliveryConfig) : DeliveryConfig :=
  let base := if decide (BaseBackoff c <= 0) then 5 * Second else BaseBackoff c in
  let max := if decide (MaxBackoff c <= 0) then 5 * Minute else MaxBackoff c in
  mkDC (if decide (DC_MaxAttempts c <= 0) then 8 else DC_MaxAttempts c)
    base (if decide (max < base) then base else max)
    (if decide (PollInterval c <= 0) then 2 * Second else PollInterval c)
    (if decide (BatchSize c <= 0) then 32 else BatchSize c).

(** ** Back-off *)

(** The loop of [computeBackoff], for the remaining number of doublings; the
    product wraps. *)
Fixpoint backoff_loop (max delay : Duration) (rounds : nat) : Duration :=
  match rounds with
  | O => delay
  | S rest =>
    if decide (delay < max) then
      let doubled := GoInt.wrap64 (delay * 2) in
      backoff_loop max (if decide (max < doubled) then max else doubled) rest
    else delay
  end.

Definition computeBackoff (base max : Duration) (attempts : Z) : Duration :=
  if decide (attempts <= 0) then base else backoff_loop max base (Z.to_nat (attempts - 1)).

Lemma backoff_loop_closed max delay rounds :
  0 < delay -> delay <= max -> max <= 2 ^ 62 ->
  backoff_loop max delay rounds = Z.min max (delay * 2 ^ Z.of_nat rounds).
Proof.
  revert delay. induction rounds as [|rounds IH]; intros delay Hd Hm Hb; cbn [backoff_loop].
  { rewrite Z.pow_0_r. lia. }
  rewrite Nat2Z.inj_succ, Z.pow_succ_r by lia. pose proof (Z.pow_pos_nonneg 2 (Z.of_nat rounds)).
  case_decide; [|nia].
  rewrite GoInt.wrap64_id by (unfold GoInt.in_int64, GoInt.min_int64, GoInt.max_int64; lia).
  rewrite IH by (try case_decide; lia). case_decide; nia.
Qed.

(** The back-off is the exponential one.  For a normalized configuration
    whose maximum is at most 2^62 nanoseconds the loop never overflows: the
    delay before attempt [n] is the base doubled [n-1] times, capped by the
    maximum, hence between the base and the maximum and never decreasing. *)
Theorem computeBackoff_closed c attempts :
  let c' := DeliveryConfig_normalized c in
  MaxBackoff c' <= 2 ^ 62 -> 1 <= attempts ->
  let delay := computeBackoff (BaseBackoff c') (MaxBackoff c') in
  delay attempts = Z.min (MaxBackoff c') (BaseBackoff c' * 2 ^ (attempts - 1)) /\
  0 < BaseBackoff c' <= delay attempts /\ delay attempts <= MaxBackoff c' /\
  delay attempts <= delay (attempts + 1).
Proof.
  intros c' Hb Ha delay.
  assert (Hc : 0 < BaseBackoff c' <= MaxBackoff c').
  { unfold c', DeliveryConfig_normalized, Second, Minute. cbn [BaseBackoff MaxBackoff].
    repeat case_decide; lia. }
  assert (Hclosed : forall n, 1 <= n ->
    delay n = Z.min (MaxBackoff c') (BaseBackoff c' * 2 ^ (n - 1))).
  { intros n Hn. unfold delay, computeBackoff. rewrite decide_False by lia.
    rewrite backoff_loop_closed by lia. by rewrite Z2Nat.id by lia. }
  rewrite !Hclosed by lia. replace (attempts + 1 - 1) with (Z.succ (attempts - 1)) by lia.
  rewrite Z.pow_succ_r by lia. pose proof (Z.pow_pos_nonneg 2 (attempts - 1)). nia.
Qed.

Lemma computeBackoff_closed_witness :
  computeBackoff (5 * Second) (5 * Minute) 4 = 40 * Second.
Proof.
  destruct (computeBackoff_closed (mkDC 0 0 0 0 0) 4) as [E _]; [vm_compute; discriminate|lia|].
  exact E.
Defined.

(** ** The in-memory store *)

Record InMemoryDeliveryStore := mkDS {
  ds_nextID : Z;
  ds_entries : gmap string DeliveryEntry;
  ds_order : list string;
  ds_bySinkEvent : gmap string string
}.

Definition NewInMemoryDeliveryStore : InMemoryDeliveryStore := mkDS 0 ∅ [] ∅.

Definition delivery_id (n : N) : string := "adel-" +:+ fmt_06d n.

Section Delivery.
Context `{GoUnicode}.

Definition sinkEventKey (sinkName eventID : string) : string :=
  let sinkName := ToLower (TrimSpace sinkName) in
  let eventID := TrimSpace eventID in
  if decide (sinkName = "" \/ eventID = "") then "" else sinkName +:+ "|" +:+ eventID.

(** The entry that [Enqueue] stores. *)
Definition enqueued (now : Time) (id : string) (e : DeliveryEntry) : DeliveryEntry :=
  let created := if IsZero (DE_CreatedAt e) then now else DE_CreatedAt e in
  mkEntry id (DE_SinkName e) (DE_EventID e) (DE_EventType e) (DE_RunID e) (DE_SessionID e)
    (DE_Event e) (if decide (DE_Status e = "") then DeliveryStatusPending else DE_Status e)
    (DE_Attempts e) (DE_MaxAttempts e) (DE_LastError e)
    (if IsZero (DE_NextAttemptAt e) then created else DE_NextAttemptAt e)
    (DE_LastAttemptAt e) created
    (if IsZero (DE_UpdatedAt e) then created else DE_UpdatedAt e) (DE_DeliveredAt e).

Definition Enqueue (s : InMemoryDeliveryStore) (now : Time) (entry : DeliveryEntry)
    : InMemoryDeliveryStore * option DeliveryEntry :=
  let key := sinkEventKey (DE_SinkName entry) (DE_EventID entry) in
  match (if decide (key = "") then None else ds_bySinkEvent s !! key) with
  | Some existingID => (s, ds_entries s !! existingID)
  | None =>
    let n := next_counter (ds_nextID s) in
    let e := enqueued now (delivery_id (Z.to_N n)) entry in
    (mkDS n (<[DE_ID e := e]> (ds_entries s)) (ds_order s ++ [DE_ID e])
       (if decide (key = "") then ds_bySinkEvent s else <[key := DE_ID e]> (ds_bySinkEvent s)),
     Some e)
  end.

Definition applyLimit {A} (items : list A) (limit : Z) : list A :=
  if decide (0 < limit /\ limit < Z.of_nat (length items)) then take (Z.to_nat limit) items
  else items.

Definition is_due (now : Time) (e : DeliveryEntry) : bool :=
  bool_decide (DE_Status e = DeliveryStatusPending) &&
  negb (IsZero (DE_NextAttemptAt e)) && negb (After (DE_NextAttemptAt e) now).

(** Earliest attempt first, then oldest first. *)
Definition due_le (a b : DeliveryEntry) : Prop :=
  DE_NextAttemptAt a < DE_NextAttemptAt b \/
  DE_NextAttemptAt a = DE_NextAttemptAt b /\ DE_CreatedAt a <= DE_CreatedAt b.

#[export] Instance due_le_dec a b : Decision (due_le a b).
Proof. unfold due_le. apply _. Defined.

Definition stored (s : InMemoryDeliveryStore) : list DeliveryEntry :=
  omap (fun id => ds_entries s !! id) (ds_order s).

Definition Due (s : InMemoryDeliveryStore) (now : Time) (limit : Z) : list DeliveryEntry :=
  applyLimit (merge_sort due_le (filter (fun e => is_due now e = true) (stored s))) limit.

(** [None]: the error that the delivery is not found. *)
Definition Save (s : InMemoryDeliveryStore) (entry : DeliveryEntry) : option InMemoryDeliveryStore :=
  match ds_entries s !! DE_ID entry with
  | None => None
  | Some _ => Some (mkDS (ds_nextID s) (<[DE_ID entry := entry]> (ds_entries s)) (ds_order s)
                      (ds_bySinkEvent s))
  end.

Definition GetDelivery (s : InMemoryDeliveryStore) (id : string) : option DeliveryEntry :=
  ds_entries s !! TrimSpace id.

Definition matchesDeliveryFilter (e : DeliveryEntry) (f : DeliveryListFilter) : bool :=
  let query := ToLower (TrimSpace (DF_Query f)) in
  (bool_decide (DF_Status f = "") || bool_decide (DE_Status e = DF_Status f)) &&
  (bool_decide (TrimSpace (DF_SinkName f) = "")
   || EqualFold (DE_SinkName e) (TrimSpace (DF_SinkName f))) &&
  (bool_decide (TrimSpace (DF_RunID f) = "") || bool_decide (DE_RunID e = TrimSpace (DF_RunID f))) &&
  (bool_decide (TrimSpace (DF_SessionID f) = "")
   || bool_decide (DE_SessionID e = TrimSpace (DF_SessionID f))) &&
  (bool_decide (DF_EventType f = "") || bool_decide (DE_EventType e = DF_EventType f)) &&
  (bool_decide (query = "") ||
   existsb (fun candidate => Contains (ToLower candidate) query)
     [DE_ID e; DE_SinkName e; DE_EventID e; DE_EventType e; DE_RunID e; DE_SessionID e; DE_LastError e]).

(** Newest first, then by descending identifier. *)
Definition list_le (a b : DeliveryEntry) : Prop :=
  DE_CreatedAt b < DE_CreatedAt a \/
  DE_CreatedAt a = DE_CreatedAt b /\ String.le (DE_ID b) (DE_ID a).

#[export] Instance list_le_dec a b : Decision (list_le a b).
Proof. unfold list_le. apply _. Defined.

Definition ListDeliveries (s : InMemoryDeliveryStore) (f : DeliveryListFilter) : list DeliveryEntry :=
  applyLimit (merge_sort list_le (filter (fun e => matchesDeliveryFilter e f = true) (stored s)))
    (DF_Limit f).

Definition oldest (current : Time) (e : DeliveryEntry) : Time :=
  if IsZero current || (negb (IsZero (DE_CreatedAt e)) && Before (DE_CreatedAt e) current)
  then DE_CreatedAt e else current.

Definition count_delivery (st : DeliveryStats) (e : DeliveryEntry) : DeliveryStats :=
  let byStatus := <[DE_Status e := default 0 (St_ByStatus st !! DE_Status e) + 1]> (St_ByStatus st) in
  let total := St_Total st + 1 in
  if decide (DE_Status e = DeliveryStatusDelivered) then
    mkStats total byStatus (St_Delivered st + 1) (St_Pending st) (St_DeadLetter st)
      (St_OldestPendingAt st) (St_OldestDeadLetterAt st)
  else if decide (DE_Status e = DeliveryStatusPending) then
    mkStats total byStatus (St_Delivered st) (St_Pending st + 1) (St_DeadLetter st)
      (oldest (St_OldestPendingAt st) e) (St_OldestDeadLetterAt st)
  else if decide (DE_Status e = DeliveryStatusDeadLetter) then
    mkStats total byStatus (St_Delivered st) (St_Pending st) (St_DeadLetter st + 1)
      (St_OldestPendingAt st) (oldest (St_OldestDeadLetterAt st) e)
  else mkStats total byStatus (St_Delivered st) (St_Pending st) (St_DeadLetter st)
         (St_OldestPendingAt st) (St_OldestDeadLetterAt st).

Definition summarizeDeliveries (items : list DeliveryEntry) : DeliveryStats :=
  foldl count_delivery (mkStats 0 ∅ 0 0 0 zeroTime zeroTime) items.

Definition Stats (s : InMemoryDeliveryStore) (f : DeliveryListFilter) : DeliveryStats :=
  summarizeDeliveries (ListDeliveries s
    (mkDF (DF_Status f) (DF_SinkName f) (DF_RunID f) (DF_SessionID f) (DF_EventType f) (DF_Query f) 0)).

(** One entry goes back to the queue. *)
Definition redriven (now : Time) (opts : DeliveryRedriveOptions) (e : DeliveryEntry) : DeliveryEntry :=
  DE_set e DeliveryStatusPending (if ResetAttempts opts then 0 else DE_Attempts e)
    (if ClearError opts then "" else DE_LastError e) now (DE_LastAttemptAt e) now zeroTime.

(** The identifiers are processed in order; [now] is read for each of them. *)
Fixpoint Redrive (s : InMemoryDeliveryStore) (ids : list (string * Time))
    (opts : DeliveryRedriveOptions) : InMemoryDeliveryStore * list DeliveryEntry :=
  match ids with
  | [] => (s, [])
  | (rawID, now) :: rest =>
    let id := TrimSpace rawID in
    match (if decide (id = "") then None else ds_entries s !! id) with
    | None => Redrive s rest opts
    | Some e =>
      if decide (DE_Status e = DeliveryStatusDelivered) then Redrive s rest opts
      else
        let e' := redriven now opts e in
        let (s', updated) := Redrive (mkDS (ds_nextID s) (<[id := e']> (ds_entries s)) (ds_order s)
                                        (ds_bySinkEvent s)) rest opts in
        (s', e' :: updated)
    end
  end.

(** ** The dispatcher *)

(** [Sink_Deliver k event] is the answer of the sink to the [k]-th effect of the
    world: [None], or the text of an error. *)
Record DeliverySink := mkSink { Sink_Name : string; Sink_Deliver : nat -> Event -> option string }.

Record ReliableDispatcher := mkDisp {
  d_config : DeliveryConfig;
  d_targets : list DeliverySink;
  d_targetByName : gmap string DeliverySink
}.

Definition NewReliableDispatcher (cfg : DeliveryConfig) (sinks : list (option DeliverySink))
    : ReliableDispatcher :=
  let targets := filter (fun sink => TrimSpace (Sink_Name sink) <> "") (omap id sinks) in
  mkDisp (DeliveryConfig_normalized cfg) targets
    (foldl (fun m sink => <[ToLower (TrimSpace (Sink_Name sink)) := sink]> m) ∅ targets).

(** Times read from the clock, by the number of effects so far. *)
Context (now_at : nat -> Time).

Definition delivery_entry (d : ReliableDispatcher) (now : Time) (event : Event) (sink : DeliverySink)
    : DeliveryEntry :=
  mkEntry "" (TrimSpace (Sink_Name sink)) (TrimSpace (Ev_ID event)) (Ev_Type event)
    (TrimSpace (Ev_RunID event)) (TrimSpace (Ev_SessionID event)) event DeliveryStatusPending 0
    (DC_MaxAttempts (d_config d)) "" now zeroTime now now zeroTime.

Definition Handle (d : ReliableDispatcher) (s : InMemoryDeliveryStore) (k : nat) (event : Event)
    : InMemoryDeliveryStore :=
  let now := now_at k in
  let event := if IsZero (Ev_Time event)
               then mkEvent (Ev_ID event) (Ev_Type event) (Ev_RunID event) (Ev_SessionID event) now
                      (Ev_Attrs event)
               else event in
  foldl (fun s sink => (Enqueue s now (delivery_entry d now event sink)).1) s (d_targets d).

(** The entry after a delivery attempt; the clock is read as the [k]-th effect
    and the sink is called as the next one. *)
Definition attempted (d : ReliableDispatcher) (k : nat) (e : DeliveryEntry) : DeliveryEntry :=
  let now := now_at k in
  match d_targetByName d !! ToLower (TrimSpace (DE_SinkName e)) with
  | None =>
    DE_set e DeliveryStatusDeadLetter
      (if decide (DE_Attempts e < DE_MaxAttempts e) then DE_MaxAttempts e else DE_Attempts e)
      "audit sink not registered" (DE_NextAttemptAt e) now now (DE_DeliveredAt e)
  | Some sink =>
    match Sink_Deliver sink (S k) (DE_Event e) with
    | Some err =>
      let attempts := DE_Attempts e + 1 in
      if decide (DE_MaxAttempts e <= attempts) then
        DE_set e DeliveryStatusDeadLetter attempts (TrimSpace err) (DE_NextAttemptAt e) now now zeroTime
      else
        DE_set e DeliveryStatusPending attempts (TrimSpace err)
          (Add now (computeBackoff (BaseBackoff (d_config d)) (MaxBackoff (d_config d)) attempts))
          now now (DE_DeliveredAt e)
    | None =>
      DE_set e DeliveryStatusDelivered (DE_Attempts e + 1) "" (DE_NextAttemptAt e) now now now
    end
  end.

(** [deliverOne]: the attempt is saved; a failing save is only logged. *)
Definition deliverOne (d : ReliableDispatcher) (sk : InMemoryDeliveryStore * nat) (e : DeliveryEntry)
    : InMemoryDeliveryStore * nat :=
  let '(s, k) := sk in (default s (Save s (attempted d k e)), S (S k)).

(** [None]: out of fuel. *)
Fixpoint processDue (fuel : nat) (d : ReliableDispatcher) (sk : InMemoryDeliveryStore * nat)
    : option (InMemoryDeliveryStore * nat) :=
  match fuel with
  | O => None
  | S fuel =>
    let '(s, k) := sk in
    let items := Due s (now_at k) (BatchSize (d_config d)) in
    if decide (items = []) then Some (s, S k)
    else
      let sk' := foldl (deliverOne d) (s, S k) items in
      if decide (Z.of_nat (length items) < BatchSize (d_config d)) then Some sk'
      else processDue fuel d sk'
  end.

(** ** Termination *)

(** How often the dispatcher will still try to deliver an entry, at most. *)
Definition weight (e : DeliveryEntry) : nat :=
  if decide (DE_Status e = DeliveryStatusPending)
  then Nat.max 1 (Z.to_nat (DE_MaxAttempts e - DE_Attempts e)) else 0%nat.

(** Entries are stored under their identifiers. *)
Definition keyed (s : InMemoryDeliveryStore) : Prop :=
  forall id e, ds_entries s !! id = Some e -> DE_ID e = id.

Definition weight_of (s : InMemoryDeliveryStore) (id : string) : nat :=
  match ds_entries s !! id with Some e => weight e | None => 0 end.

Definition remaining (s : InMemoryDeliveryStore) : nat := sum_list_with (weight_of s) (ds_order s).

Lemma attempted_weight d k e : DE_Status e = DeliveryStatusPending ->
  (weight (attempted d k e) < weight e)%nat.
Proof.
  intros Hp. unfold attempted. repeat (case_decide || case_match);
    unfold weight, DE_set; cbn [DE_Status DE_MaxAttempts DE_Attempts]; rewrite Hp;
    rewrite (decide_True (P := DeliveryStatusPending = _)) by done;
    rewrite ?(decide_False (P := DeliveryStatusDeadLetter = _)) by done;
    rewrite ?(decide_False (P := DeliveryStatusDelivered = _)) by done;
    rewrite ?(decide_True (P := DeliveryStatusPending = _)) by done; lia.
Qed.

Lemma attempted_id d k e : DE_ID (attempted d k e) = DE_ID e.
Proof. unfold attempted. by repeat (case_decide || case_match). Qed.

Lemma deliverOne_stored d s k e : is_Some (ds_entries s !! DE_ID e) ->
  deliverOne d (s, k) e =
  (mkDS (ds_nextID s) (<[DE_ID e := attempted d k e]> (ds_entries s)) (ds_order s) (ds_bySinkEvent s),
   S (S k)).
Proof. intros [e0 He]. unfold deliverOne, Save. by rewrite attempted_id, He. Qed.

(** A batch keeps the identifiers and never adds work; it takes some off every
    entry of the batch. *)
Lemma batch_weight d (W : string -> nat) items s k s' k' :
  foldl (deliverOne d) (s, k) items = (s', k') ->
  keyed s -> (forall id, weight_of s id <= W id)%nat ->
  (forall e, e ∈ items -> DE_Status e = DeliveryStatusPending /\
     is_Some (ds_entries s !! DE_ID e) /\ weight e = W (DE_ID e)) ->
  keyed s' /\ ds_order s' = ds_order s /\ (forall id, weight_of s' id <= W id)%nat /\
  (forall id, (weight_of s id < W id \/ exists e, e ∈ items /\ DE_ID e = id) -> weight_of s' id < W id)%nat.
Proof.
  revert s k. induction items as [|e items IH]; intros s k Hf Hkey Hle Hitems; cbn [foldl] in Hf.
  { simplify_eq. split_and!; try done. intros id [?|(e & He & _)]; [done|by apply elem_of_nil in He]. }
  destruct (Hitems e) as (Hp & Hs & Hw); [by left|]. rewrite deliverOne_stored in Hf by done.
  pose proof (attempted_weight d k e Hp) as Hdec.
  set (s1 := mkDS _ _ _ _) in Hf.
  assert (Hw1 : forall id, weight_of s1 id =
    if decide (id = DE_ID e) then weight (attempted d k e) else weight_of s id).
  { intros id. unfold weight_of, s1. cbn [ds_entries]. case_decide as E.
    - by rewrite E, lookup_insert_eq.
    - by rewrite lookup_insert_ne. }
  destruct (IH s1 _ Hf) as (Hk' & Ho & Hle' & Hlt).
  - intros id e0. unfold s1. cbn [ds_entries]. intros [[<- <-]|[_ ?]]%lookup_insert_Some;
      [apply attempted_id|by apply Hkey].
  - intros id. rewrite Hw1. case_decide; [subst; lia|apply Hle].
  - intros e0 He0. destruct (Hitems e0) as (? & ? & ?); [by right|]. split_and!; [done| |done].
    unfold s1. cbn [ds_entries]. by apply lookup_insert_is_Some'; right.
  - split_and!; [done|done|done|]. intros id Hid. apply Hlt. rewrite Hw1.
    destruct Hid as [Hid|(e0 & He0 & <-)]; [left; case_decide; [subst; lia|done]|].
    apply elem_of_cons in He0 as [->|He0]; [|by right; exists e0].
    left. rewrite decide_True by done. lia.
Qed.

Lemma Due_items s now limit e : keyed s -> e ∈ Due s now limit ->
  DE_ID e ∈ ds_order s /\ ds_entries s !! DE_ID e = Some e /\ DE_Status e = DeliveryStatusPending.
Proof.
  unfold Due, applyLimit. intros Hkey He.
  assert (He' : e ∈ merge_sort due_le (filter (fun e => is_due now e = true) (stored s))).
  { case_decide; [|done]. by eapply elem_of_take in He as (? & ?%list_elem_of_lookup_2 & _). }
  rewrite merge_sort_Permutation in He'. apply list_elem_of_filter in He' as [Hdue He'].
  unfold stored in He'. apply list_elem_of_omap in He' as (id & Hid & Hl).
  rewrite (Hkey _ _ Hl). unfold is_due in Hdue. by bool_prop.
Qed.

Lemma stored_ids s : keyed s ->
  DE_ID <$> stored s = filter (fun id => is_Some (ds_entries s !! id)) (ds_order s).
Proof.
  intros Hk. unfold stored. induction (ds_order s) as [|id order IH]; [done|].
  cbn [omap list_omap]. rewrite filter_cons. destruct (ds_entries s !! id) as [e|] eqn:He.
  - rewrite decide_True by (by eexists). rewrite fmap_cons, IH. by rewrite (Hk _ _ He).
  - rewrite decide_False by (intros [? ?]; congruence). done.
Qed.

Lemma Due_nodup s now limit : keyed s -> NoDup (ds_order s) -> NoDup (DE_ID <$> Due s now limit).
Proof.
  intros Hk Hn. unfold Due, applyLimit.
  set (sorted := merge_sort due_le _).
  assert (Hall : NoDup (DE_ID <$> sorted)).
  { unfold sorted. rewrite merge_sort_Permutation.
    eapply sublist_NoDup; [|apply fmap_sublist, sublist_filter]. rewrite stored_ids by done.
    by apply NoDup_filter. }
  case_decide; [|done]. rewrite fmap_take. eapply sublist_NoDup; [done|apply sublist_take].
Qed.

Lemma sum_list_lt {A} (f g : A -> nat) l :
  (forall x, f x <= g x)%nat -> (exists x, x ∈ l /\ f x < g x)%nat ->
  (sum_list_with f l < sum_list_with g l)%nat.
Proof.
  intros Hle (x & Hx & Hlt).
  assert (Hall : forall l', (sum_list_with f l' <= sum_list_with g l')%nat).
  { induction l' as [|y l' IH]; simpl; [done|]. specialize (Hle y). lia. }
  induction Hx as [y l Hy|x' y l Hx IH]; simpl.
  - specialize (Hall l). subst. lia.
  - specialize (Hle y). specialize (IH Hlt). lia.
Qed.

Lemma processDue_terminates fuel d s k :
  keyed s -> (remaining s < fuel)%nat -> is_Some (processDue fuel d (s, k)).
Proof.
  revert s k. induction fuel as [|fuel IH]; intros s k Hkey Hfuel; [lia|]. cbn [processDue].
  set (items := Due s _ _). case_decide as Hnil; [by eexists|].
  case_decide; [by eexists|].
  assert (Hitems : forall e, e ∈ items ->
    DE_ID e ∈ ds_order s /\ ds_entries s !! DE_ID e = Some e /\ DE_Status e = DeliveryStatusPending)
    by (intros e He; by eapply Due_items).
  destruct (foldl (deliverOne d) (s, S k) items) as [s' k'] eqn:Hf.
  destruct (batch_weight d (weight_of s) items s (S k) s' k' Hf Hkey) as (Hk' & Ho & Hle & Hlt).
  - done.
  - intros e He. destruct (Hitems e He) as (_ & Hl & Hp). split_and!; [done|by eexists|].
    unfold weight_of. by rewrite Hl.
  - apply IH; [done|]. unfold remaining in *. rewrite Ho.
    destruct items as [|e items]; [done|]. destruct (Hitems e) as (Hin & _); [by left|].
    eapply Nat.lt_le_trans; [|apply Nat.lt_succ_r, Hfuel].
    apply sum_list_lt; [done|]. exists (DE_ID e). split; [done|]. apply Hlt.
    right. exists e. split; [by left|done].
Qed.

(** ** The life of a delivery *)

Definition entry_key (e : DeliveryEntry) : string := sinkEventKey (DE_SinkName e) (DE_EventID e).

(** What a delivery is about, which no operation changes. *)
Definition subject (e : DeliveryEntry) : string * string * string * Event * Z :=
  (DE_ID e, DE_SinkName e, DE_EventID e, DE_Event e, DE_MaxAttempts e).

(** A well-formed entry: pending, delivered after some attempt, or a dead
    letter that has used up its attempts. *)
Definition entry_ok (e : DeliveryEntry) : Prop :=
  0 <= DE_Attempts e /\
  (DE_Status e = DeliveryStatusPending \/
   DE_Status e = DeliveryStatusDelivered /\ 1 <= DE_Attempts e \/
   DE_Status e = DeliveryStatusDeadLetter /\ DE_MaxAttempts e <= DE_Attempts e).

Record store_ok (s : InMemoryDeliveryStore) : Prop := {
  so_keyed : keyed s;
  so_entries : forall id e, ds_entries s !! id = Some e -> entry_ok e;
  so_order : forall id, id ∈ ds_order s <-> is_Some (ds_entries s !! id);
  so_nodup : NoDup (ds_order s);
  so_counter : 0 <= ds_nextID s;
  so_issued : forall id, id ∈ ds_order s ->
    exists n, id = delivery_id (Z.to_N n) /\ 0 < n <= ds_nextID s;
  so_index : forall key id, ds_bySinkEvent s !! key = Some id ->
    exists e, ds_entries s !! id = Some e /\ entry_key e = key;
  so_indexed : forall id e, ds_entries s !! id = Some e -> entry_key e <> "" ->
    ds_bySinkEvent s !! entry_key e = Some id
}.

Lemma subject_key e e' : subject e = subject e' -> entry_key e = entry_key e'.
Proof. unfold subject, entry_key. by intros [= _ -> -> _ _]. Qed.

Lemma store_ok_update s id e e' :
  store_ok s -> ds_entries s !! id = Some e -> subject e' = subject e -> entry_ok e' ->
  store_ok (mkDS (ds_nextID s) (<[id := e']> (ds_entries s)) (ds_order s) (ds_bySinkEvent s)).
Proof.
  intros [Hk He Ho Hn Hc Hi Hx Hy] Hl Hsub Hok. pose proof (subject_key _ _ Hsub) as Hkey.
  constructor; unfold keyed; cbn [ds_nextID ds_entries ds_order ds_bySinkEvent]; try done.
  - intros id' e0 [[<- <-]|[_ ?]]%lookup_insert_Some; [|by apply Hk].
    rewrite <- (Hk _ _ Hl). unfold subject in Hsub. congruence.
  - intros id' e0 [[<- <-]|[_ ?]]%lookup_insert_Some; [done|by eapply He].
  - intros id'. rewrite Ho. destruct (decide (id' = id)) as [->|Hne];
      [rewrite lookup_insert_eq, Hl|by rewrite lookup_insert_ne]. split; by eexists.
  - intros key id' (e0 & He0 & Hk0)%Hx. destruct (decide (id' = id)) as [->|Hne].
    + exists e'. rewrite lookup_insert_eq. split; [done|]. congruence.
    + exists e0. by rewrite lookup_insert_ne.
  - intros id' e0 [[<- <-]|[_ ?]]%lookup_insert_Some; [|by apply Hy].
    rewrite Hkey. by apply Hy.
Qed.

Lemma Enqueue_ok s now e : store_ok s -> entry_ok (enqueued now "" e) ->
  ds_nextID s + 1 < 2 ^ 64 ->
  let s' := (Enqueue s now e).1 in
  store_ok s' /\ ds_entries s ⊆ ds_entries s' /\ ds_nextID s' <= ds_nextID s + 1.
Proof.
  intros Hs Hok Hsmall. unfold Enqueue. cbv zeta.
  destruct (if decide (sinkEventKey _ _ = "") then None else _) as [id|] eqn:Hex;
    [cbn; split_and!; [done|done|lia]|].
  destruct Hs as [Hk He Ho Hn Hc Hi Hx Hy]. rewrite next_counter_small by done. cbn [fst].
  set (id := delivery_id (Z.to_N (ds_nextID s + 1))). set (e' := enqueued now id e).
  change (DE_ID e') with id.
  assert (Hfresh : id ∉ ds_order s).
  { intros (n & Heq & Hn')%Hi. apply (inj (String.append "adel-")), (inj fmt_06d) in Heq. lia. }
  assert (Hnone : ds_entries s !! id = None).
  { apply eq_None_not_Some. by rewrite <- Ho. }
  assert (Hkey : entry_key e' = sinkEventKey (DE_SinkName e) (DE_EventID e)) by done.
  rewrite <- Hkey in *.
  split_and!; [|by apply insert_subseteq|cbn; lia].
  constructor; unfold keyed; cbn [ds_nextID ds_entries ds_order ds_bySinkEvent].
  - intros id' e0 [[<- <-]|[_ ?]]%lookup_insert_Some; [done|by apply Hk].
  - intros id' e0 [[<- <-]|[_ ?]]%lookup_insert_Some; [done|by eapply He].
  - intros id'. rewrite elem_of_app, list_elem_of_singleton, Ho, lookup_insert_is_Some. naive_solver.
  - apply NoDup_app. split_and!; [done| |apply NoDup_singleton].
    intros x Hx1 ->%list_elem_of_singleton. done.
  - lia.
  - intros id' [(n & -> & ?)%Hi| ->%list_elem_of_singleton]%elem_of_app; eexists; (split; [done|lia]).
  - intros key id' Hkid.
    assert (Hcase : (key = entry_key e' /\ id' = id) \/ ds_bySinkEvent s !! key = Some id').
    { case_decide; [by right|]. apply lookup_insert_Some in Hkid as [[<- <-]|[_ ?]]; auto. }
    destruct Hcase as [[-> ->]|(e0 & He0 & Hk0)%Hx].
    + exists e'. by rewrite lookup_insert_eq.
    + exists e0. rewrite lookup_insert_ne; [done|]. congruence.
  - intros id' e0 [[<- <-]|[Hne He0]]%lookup_insert_Some Hnk.
    + rewrite decide_False by done. by rewrite lookup_insert_eq.
    + pose proof (Hy _ _ He0 Hnk) as Hy0. case_decide as Hd; [done|].
      rewrite lookup_insert_ne; [done|]. intros Heq. rewrite <- Heq, Hex in Hy0. done.
Qed.

(** What the entries of a store become: they keep their subject, a delivered
    one does not change at all, and outside [busy] a pending one stays so. *)
Definition evolves (busy : string -> Prop) (s s' : InMemoryDeliveryStore) : Prop :=
  forall id e, ds_entries s !! id = Some e ->
  exists e', ds_entries s' !! id = Some e' /\ subject e' = subject e /\
    (DE_Status e = DeliveryStatusDelivered -> e' = e) /\
    (~ busy id -> DE_Status e = DeliveryStatusPending -> DE_Status e' = DeliveryStatusPending).

Lemma evolves_subseteq busy s s' : ds_entries s ⊆ ds_entries s' -> evolves busy s s'.
Proof. intros Hsub id e He. exists e. split_and!; [by eapply lookup_weaken|done..]. Qed.

Lemma evolves_trans busy s1 s2 s3 : evolves busy s1 s2 -> evolves busy s2 s3 -> evolves busy s1 s3.
Proof.
  intros H12 H23 id e He. destruct (H12 id e He) as (e2 & He2 & Hs2 & Hd2 & Hp2).
  destruct (H23 id e2 He2) as (e3 & He3 & Hs3 & Hd3 & Hp3). exists e3.
  split_and!; [done|congruence| |naive_solver]. intros Hd. pose proof (Hd2 Hd). subst. by apply Hd3.
Qed.

Lemma evolves_update (busy : string -> Prop) s id e e' :
  ds_entries s !! id = Some e -> subject e' = subject e -> DE_Status e <> DeliveryStatusDelivered ->
  (busy id \/ DE_Status e' = DeliveryStatusPending) ->
  evolves busy s (mkDS (ds_nextID s) (<[id := e']> (ds_entries s)) (ds_order s) (ds_bySinkEvent s)).
Proof.
  intros He Hsub Hd Hb id0 e0 He0. cbn [ds_entries]. destruct (decide (id0 = id)) as [->|Hne].
  - rewrite lookup_insert_eq. exists e'. assert (e0 = e) as -> by congruence.
    split_and!; [done|done|by intros|tauto].
  - rewrite lookup_insert_ne by done. by exists e0.
Qed.

Definition idle : string -> Prop := fun _ => False.

Lemma Handle_ok d s k event :
  store_ok s -> ds_nextID s + Z.of_nat (length (d_targets d)) < 2 ^ 64 ->
  store_ok (Handle d s k event) /\ evolves idle s (Handle d s k event).
Proof.
  unfold Handle. cbv zeta. set (ev := if IsZero _ then _ else _). clearbody ev.
  generalize (d_targets d) as sinks. intros sinks. revert s.
  induction sinks as [|sink sinks IH]; intros s Hs Hsmall; cbn [foldl length] in *.
  { split; [done|by apply evolves_subseteq]. }
  destruct (Enqueue_ok s (now_at k) (delivery_entry d (now_at k) ev sink)) as (Hs1 & Hsub & Hn).
  - done.
  - split; [done|by left].
  - lia.
  - destruct (IH _ Hs1) as [? ?]; [lia|]. split; [done|].
    eapply evolves_trans; [|done]. by apply evolves_subseteq.
Qed.

Lemma Redrive_ok s ids opts :
  store_ok s -> store_ok (Redrive s ids opts).1 /\ evolves idle s (Redrive s ids opts).1.
Proof.
  revert s. induction ids as [|[rawID now] rest IH]; intros s Hs; cbn [Redrive].
  { split; [done|by apply evolves_subseteq]. }
  destruct (if decide (TrimSpace rawID = "") then None else _) as [e|] eqn:He; [|by apply IH].
  case_decide as Hempty; [done|]. case_decide as Hd; [by apply IH|].
  assert (Hsub : subject (redriven now opts e) = subject e) by done.
  pose proof (so_entries s Hs _ _ He) as [Ha _].
  assert (Hok : entry_ok (redriven now opts e)).
  { split; [|by left]. cbn. destruct (ResetAttempts opts); lia. }
  pose proof (store_ok_update s _ e _ Hs He Hsub Hok) as Hs1.
  pose proof (evolves_update idle s _ e _ He Hsub Hd (or_intror eq_refl)) as Hev.
  specialize (IH _ Hs1) as [IH1 IH2]. destruct (Redrive _ rest opts) as [s' updated]. cbn [fst] in *.
  split; [done|]. by eapply evolves_trans.
Qed.

(** ** Interleavings of the dispatcher with its clients *)

(** The store with the rest of the batch that the dispatcher is working on:
    copies of entries.  Events and redrives may come between any two steps. *)
Inductive delivery_step (d : ReliableDispatcher)
    : InMemoryDeliveryStore * list DeliveryEntry -> InMemoryDeliveryStore * list DeliveryEntry -> Prop :=
| step_handle s batch k event :
    ds_nextID s + Z.of_nat (length (d_targets d)) < 2 ^ 64 ->
    delivery_step d (s, batch) (Handle d s k event, batch)
| step_redrive s batch ids opts :
    delivery_step d (s, batch) ((Redrive s ids opts).1, batch)
| step_fetch s k :
    delivery_step d (s, []) (s, Due s (now_at k) (BatchSize (d_config d)))
| step_deliver s batch k e :
    delivery_step d (s, e :: batch) ((deliverOne d (s, k) e).1, batch).

(** A copy in the batch is of a stored entry that is still pending. *)
Definition copy_of (s : InMemoryDeliveryStore) (e : DeliveryEntry) : Prop :=
  0 <= DE_Attempts e /\
  exists e0, ds_entries s !! DE_ID e = Some e0 /\ subject e = subject e0 /\
    DE_Status e0 = DeliveryStatusPending.

Definition delivery_ok (st : InMemoryDeliveryStore * list DeliveryEntry) : Prop :=
  store_ok st.1 /\ NoDup (DE_ID <$> st.2) /\ Forall (copy_of st.1) st.2.

Lemma copies_evolve busy s s' batch :
  evolves busy s s' -> (forall e, e ∈ batch -> ~ busy (DE_ID e)) ->
  Forall (copy_of s) batch -> Forall (copy_of s') batch.
Proof.
  rewrite !Forall_forall. intros Hev Hb Hall e He. destruct (Hall e He) as (Ha & e0 & He0 & Hsub & Hp).
  destruct (Hev _ _ He0) as (e1 & He1 & Hs1 & _ & Hp1). split; [done|]. exists e1.
  split_and!; [done|congruence|auto].
Qed.

Lemma attempted_subject d k e : subject (attempted d k e) = subject e.
Proof. unfold attempted. by repeat (case_decide || case_match). Qed.

Lemma attempted_ok d k e : 0 <= DE_Attempts e -> entry_ok (attempted d k e).
Proof.
  intros Ha. unfold attempted, entry_ok. repeat (case_decide || case_match); cbn; split_and!; try lia;
    (left; done) || (right; left; split; [done|lia]) || (right; right; split; [done|lia]).
Qed.

Lemma delivery_step_ok d st st' :
  delivery_ok st -> delivery_step d st st' ->
  delivery_ok st' /\ evolves (fun _ => True) st.1 st'.1.
Proof.
  assert (Hweak : forall s s', evolves idle s s' -> evolves (fun _ => True) s s').
  { intros s s' Hev id e He. destruct (Hev id e He) as (e' & ? & ? & ? & _).
    exists e'. split_and!; [done|done|done|by intros []]. }
  intros (Hs & Hn & Hb) Hstep. destruct Hstep as [s batch k event Hsmall|s batch ids opts|s k|s batch k e];
    cbn [fst snd] in *.
  - destruct (Handle_ok d s k event Hs Hsmall) as [? Hev].
    split; [split_and!; [done|done|by eapply copies_evolve; eauto]|auto].
  - destruct (Redrive_ok s ids opts Hs) as [? Hev].
    split; [split_and!; [done|done|by eapply copies_evolve; eauto]|auto].
  - split; [|by apply evolves_subseteq]. split_and!; [done| |]; cbn [fst snd].
    + apply Due_nodup; apply Hs.
    + apply Forall_forall. intros e He.
      destruct (Due_items _ _ _ _ (so_keyed s Hs) He) as (_ & Hl & Hp).
      split; [apply (so_entries s Hs _ _ Hl)|]. by exists e.
  - apply Forall_cons in Hb as [(Ha & e0 & He0 & Hsub & Hp) Hb]. rewrite fmap_cons in Hn.
    apply NoDup_cons in Hn as [Hnin Hn].
    rewrite deliverOne_stored by (by eexists). cbn [fst].
    assert (Hsub' : subject (attempted d k e) = subject e0) by (by rewrite attempted_subject).
    assert (Hev : evolves (fun id => id = DE_ID e) s
      (mkDS (ds_nextID s) (<[DE_ID e := attempted d k e]> (ds_entries s)) (ds_order s)
         (ds_bySinkEvent s))).
    { eapply evolves_update; [done|done|by rewrite Hp|by left]. }
    split.
    + split_and!; [by eapply store_ok_update; eauto using attempted_ok|done|].
      eapply copies_evolve; [done| |done]. cbn. intros e1 He1 Heq. apply Hnin. rewrite <- Heq.
      by apply list_elem_of_fmap_2.
    + intros id e1 He1. destruct (Hev id e1 He1) as (e2 & ? & ? & ? & _).
      exists e2. split_and!; [done|done|done|by intros []].
Qed.

Lemma delivery_init_ok : delivery_ok (NewInMemoryDeliveryStore, []).
Proof.
  split_and!; [|apply NoDup_nil_2|done]. constructor; cbn; try done.
  - intros id. rewrite elem_of_nil, lookup_empty, is_Some_alt. done.
  - apply NoDup_nil_2.
  - by intros id ?%elem_of_nil.
Qed.

Lemma delivery_steps_ok d st st' :
  delivery_ok st -> rtc (delivery_step d) st st' ->
  delivery_ok st' /\ evolves (fun _ => True) st.1 st'.1.
Proof.
  intros Hok Hr. induction Hr as [st|st1 st2 st3 H12 _ IH]; [split; [done|by apply evolves_subseteq]|].
  destruct (delivery_step_ok d st1 st2 Hok H12) as [Hok2 He12]. destruct (IH Hok2) as [? He23].
  split; [done|]. by eapply evolves_trans.
Qed.

(** C7: The life of a delivery, for every interleaving of published events,
    redrives and the dispatcher's batches.  Every stored entry is pending,
    delivered after at least one attempt, or a dead letter whose attempts are
    used up; a sink and an event with an identifier have one entry at most;
    and whatever happens later, an entry stays in the store with its sink,
    event and maximum number of attempts, and a delivered one is never touched
    again, so it is not delivered a second time. *)
Theorem deliveries_settle d st :
  rtc (delivery_step d) (NewInMemoryDeliveryStore, []) st ->
  (forall id e, ds_entries st.1 !! id = Some e -> DE_ID e = id /\ entry_ok e) /\
  (forall id1 id2 e1 e2, ds_entries st.1 !! id1 = Some e1 -> ds_entries st.1 !! id2 = Some e2 ->
     entry_key e1 = entry_key e2 -> entry_key e1 <> "" -> id1 = id2) /\
  (forall e, e ∈ st.2 -> exists e0, ds_entries st.1 !! DE_ID e = Some e0 /\
     DE_Status e0 = DeliveryStatusPending) /\
  (forall st' id e, rtc (delivery_step d) st st' -> ds_entries st.1 !! id = Some e ->
     exists e', ds_entries st'.1 !! id = Some e' /\ subject e' = subject e /\
       (DE_Status e = DeliveryStatusDelivered -> e' = e)).
Proof.
  intros Hr. destruct (delivery_steps_ok d _ _ delivery_init_ok Hr) as [(Hs & Hn & Hb) _].
  split_and!.
  - intros id e He. split; [by apply (so_keyed _ Hs)|by eapply so_entries].
  - intros id1 id2 e1 e2 H1 H2 Hk Hne. apply (inj Some).
    rewrite <- (so_indexed _ Hs _ _ H1) by done. rewrite Hk. apply (so_indexed _ Hs); [done|congruence].
  - intros e He. rewrite Forall_forall in Hb. destruct (Hb e He) as (_ & e0 & ? & _ & ?). by exists e0.
  - intros st' id e Hr' He.
    destruct (delivery_steps_ok d st st' (conj Hs (conj Hn Hb)) Hr') as [_ Hev].
    destruct (Hev id e He) as (e' & ? & ? & ? & _). by exists e'.
Qed.

Lemma batch_steps d items s k s' k' :
  foldl (deliverOne d) (s, k) items = (s', k') -> rtc (delivery_step d) (s, items) (s', []).
Proof.
  revert s k. induction items as [|e items IH]; intros s k Hf; cbn [foldl] in Hf; [by simplify_eq|].
  eapply rtc_l; [apply (step_deliver d s items k e)|].
  destruct (deliverOne d (s, k) e) as [s1 k1]. by eapply IH.
Qed.

Lemma processDue_steps fuel d s k s' k' :
  processDue fuel d (s, k) = Some (s', k') -> rtc (delivery_step d) (s, []) (s', []).
Proof.
  revert s k. induction fuel as [|fuel IH]; intros s k Hp; [done|]. cbn [processDue] in Hp.
  case_decide; [by simplify_eq|].
  destruct (foldl (deliverOne d) _ _) as [s1 k1] eqn:Hf.
  eapply rtc_l; [apply (step_fetch d s k)|]. etrans; [by eapply batch_steps|].
  case_decide; [by simplify_eq|]. by eapply IH.
Qed.

(** A pass over the due deliveries ends, whatever the sinks answer and
    however the clock moves while it runs: from a reachable store, fuel
    exceeding the number of attempts that the pending entries have left is
    enough, and the pass is a sequence of steps of the dispatcher, so it leaves
    a reachable store. *)
Theorem processDue_returns d s k fuel :
  rtc (delivery_step d) (NewInMemoryDeliveryStore, []) (s, []) ->
  (remaining s < fuel)%nat ->
  exists s' k', processDue fuel d (s, k) = Some (s', k') /\ rtc (delivery_step d) (s, []) (s', []).
Proof.
  intros Hr Hfuel. destruct (delivery_steps_ok d _ _ delivery_init_ok Hr) as [(Hs & _ & _) _].
  cbn [fst] in Hs. destruct (processDue_terminates fuel d s k (so_keyed s Hs) Hfuel) as [[s' k'] Hp].
  exists s', k'. split; [done|]. by eapply processDue_steps.
Qed.

Lemma summarize_loop items st :
  Forall entry_ok items -> St_Total st = St_Pending st + St_Delivered st + St_DeadLetter st ->
  let st' := foldl count_delivery st items in
  St_Total st' = St_Pending st' + St_Delivered st' + St_DeadLetter st' /\
  St_Total st' = St_Total st + Z.of_nat (length items).
Proof.
  revert st. induction items as [|e items IH]; intros st Hok Hst; cbn [foldl length]; [cbv zeta; lia|].
  apply Forall_cons in Hok as [(_ & He) Hok].
  assert (Hstep : St_Total (count_delivery st e) = St_Total st + 1 /\
    St_Total (count_delivery st e) =
    St_Pending (count_delivery st e) + St_Delivered (count_delivery st e) + St_DeadLetter (count_delivery st e)).
  { unfold count_delivery. repeat case_decide; cbn; try lia.
    exfalso. naive_solver. }
  destruct Hstep as [Ht Hs]. destruct (IH _ Hok Hs) as [? ?]. split; [done|]. lia.
Qed.

Lemma summarize_spec items :
  Forall entry_ok items ->
  let st := summarizeDeliveries items in
  St_Total st = St_Pending st + St_Delivered st + St_DeadLetter st /\
  St_Total st = Z.of_nat (length items).
Proof. intros Hok. by apply (summarize_loop items). Qed.

(** The statistics add up.  For the entries of a reachable store and any
    filter, the total is the number of listed entries and the sum of the
    pending, delivered and dead ones. *)
Theorem delivery_stats_add_up d st f :
  rtc (delivery_step d) (NewInMemoryDeliveryStore, []) st ->
  let stats := Stats st.1 f in
  St_Total stats = St_Pending stats + St_Delivered stats + St_DeadLetter stats /\
  St_Total stats = Z.of_nat (length (filter (fun e => matchesDeliveryFilter e f = true) (stored st.1))).
Proof.
  intros Hr. destruct (delivery_steps_ok d _ _ delivery_init_ok Hr) as [(Hs & _ & _) _].
  assert (Hall : forall e, e ∈ stored st.1 -> entry_ok e).
  { intros e He. unfold stored in He. apply list_elem_of_omap in He as (id & _ & Hl).
    by eapply so_entries. }
  unfold Stats, ListDeliveries, applyLimit. cbn [DF_Limit]. rewrite decide_False by lia.
  set (items := filter _ (stored st.1)).
  assert (Hlen : length (merge_sort list_le items) = length items) by (by rewrite merge_sort_Permutation).
  rewrite <- Hlen.
  assert (Hok : Forall entry_ok (merge_sort list_le items)).
  { apply Forall_forall. intros e. rewrite merge_sort_Permutation. unfold items.
    rewrite list_elem_of_filter. intros [_ ?]. by apply Hall. }
  by apply summarize_spec.
Qed.
End Delivery.

(** ** A scenario: a sink that fails once *)
Section Scenario.
#[local] Existing Instance ascii_unicode.

Definition flaky_sink : DeliverySink :=
  mkSink " Splunk " (fun k _ => if decide (k < 5)%nat then Some "503" else None).

Definition ticking (k : nat) : Time := (Z.of_nat k + 1) * Minute.

Definition flaky_dispatcher : ReliableDispatcher :=
  NewReliableDispatcher (mkDC 3 0 0 0 1) [Some flaky_sink; None].

Definition audited : Event := mkEvent "evt-1" "run.completed" "run-1" "s" 0 None.

Definition queued_store : InMemoryDeliveryStore :=
  Handle ticking flaky_dispatcher NewInMemoryDeliveryStore 0 audited.

Lemma queued_reachable :
  rtc (delivery_step ticking flaky_dispatcher) (NewInMemoryDeliveryStore, []) (queued_store, []).
Proof. eapply rtc_l; [|apply rtc_refl]. apply step_handle. vm_compute. reflexivity. Qed.

Lemma processDue_returns_witness :
  exists s' k', processDue ticking 4 flaky_dispatcher (queued_store, 1%nat) = Some (s', k') /\
    DE_Status <$> GetDelivery s' "adel-000001" = Some DeliveryStatusDelivered.
Proof.
  destruct (processDue_returns ticking flaky_dispatcher queued_store 1 4) as (s' & k' & Hp & _).
  - exact queued_reachable.
  - vm_compute. lia.
  - exists s', k'. split; [exact Hp|].
    change (match Some (s', k') with Some (x, _) => DE_Status <$> GetDelivery x "adel-000001" | None => None end
            = Some DeliveryStatusDelivered).
    rewrite <- Hp. vm_compute. reflexivity.
Defined.

Lemma deliveries_settle_witness :
  exists e, ds_entries queued_store !! "adel-000001" = Some e /\ entry_ok e.
Proof.
  destruct (deliveries_settle ticking flaky_dispatcher (queued_store, []) queued_reachable) as [Hall _].
  destruct (ds_entries queued_store !! "adel-000001") as [e|] eqn:He; [|vm_compute in He; discriminate].
  exists e. split; [reflexivity|]. by eapply Hall.
Defined.

Lemma delivery_stats_add_up_witness :
  St_Total (Stats queued_store (mkDF "" "" "" "" "" "SPLUNK" 0)) = 1.
Proof.
  destruct (delivery_stats_add_up ticking flaky_dispatcher (queued_store, [])
    (mkDF "" "" "" "" "" "SPLUNK" 0) queued_reachable) as [_ E].
  etransitivity; [exact E|]. vm_compute. reflexivity.
Defined.
End Scenario.
