(* ===== verification/ChannelSend.v ===== *)
(** * Sending on channels ([channels/chunk.go], [channels/send_retry.go])

    Splitting a long text into messages, and sending with retries.  An error is
    the part of Go's error chains that these functions look at; the answer of a
    send and of a wait depend on the attempt. *)
From S2P Require Import Prelude GoLib.
From Stdlib Require Import Ascii String.
Import Str GoTime.
Local Open Scope Z_scope.
Local Open Scope string_scope.

(** ** Slices of strings *)

Fixpoint str_take (n : nat) (s : string) : string :=
  match n, s with
  | S n, String a rest => String a (str_take n rest)
  | _, _ => ""
  end.

Fixpoint str_drop (n : nat) (s : string) : string :=
  match n, s with
  | S n, String _ rest => str_drop n rest
  | _, _ => s
  end.

(** [strings.LastIndexByte], [None] for -1. *)
Fixpoint LastIndexByte (s : string) (c : ascii) : option nat :=
  match s with
  | "" => None
  | String a rest =>
    match LastIndexByte rest c with
    | Some i => Some (S i)
    | None => if decide (a = c) then Some O else None
    end
  end.

Definition newline : ascii := ascii_of_nat 10.
Definition blank : ascii := ascii_of_nat 32.

(** ** [ChunkText] *)

(** Where a text longer than the limit is cut. *)
Definition chunk_cut (text : string) (limit : nat) : nat :=
  match LastIndexByte (str_take limit text) newline with
  | Some (S idx) => S (S idx)
  | _ =>
    match LastIndexByte (str_take limit text) blank with
    | Some (S idx) => S (S idx)
    | _ => limit
    end
  end.

(** The loop; every round cuts off at least one byte, so the length of the text
    is enough fuel. *)
Fixpoint chunk_loop (fuel : nat) (text : string) (limit : nat) : list string :=
  match fuel with
  | O => []
  | S fuel =>
    if decide (text = "") then []
    else if decide (String.length text <= limit)%nat then [text]
    else
      let cut := chunk_cut text limit in
      str_take cut text :: chunk_loop fuel (str_drop cut text) limit
  end.

Definition ChunkText (text : string) (limit : Z) : list string :=
  if decide (limit <= 0 \/ Z.of_nat (String.length text) <= limit) then [text]
  else chunk_loop (String.length text) text (Z.to_nat limit).

Lemma str_take_drop n s : str_take n s +:+ str_drop n s = s.
Proof.
  revert s. induction n as [|n IH]; intros s; [by destruct s|].
  destruct s as [|a s]; [done|]. cbn [str_take str_drop].
  change (String a (str_take n s) +:+ str_drop n s) with (String a (str_take n s +:+ str_drop n s)).
  by rewrite IH.
Qed.

Lemma length_str_take n s : String.length (str_take n s) = Nat.min n (String.length s).
Proof. revert s. induction n as [|n IH]; intros [|a s]; cbn; try done. by rewrite IH. Qed.

Lemma length_str_drop n s : String.length (str_drop n s) = (String.length s - n)%nat.
Proof. revert s. induction n as [|n IH]; intros [|a s]; cbn; try done. Qed.

(** The index of the last occurrence: the text up to it ends with the byte. *)
Lemma LastIndexByte_spec s c i :
  LastIndexByte s c = Some i ->
  (i < String.length s)%nat /\ exists p, str_take (S i) s = p +:+ String c "".
Proof.
  revert i. induction s as [|a s IH]; intros i Hi; [done|]. cbn [LastIndexByte] in Hi.
  destruct (LastIndexByte s c) as [j|] eqn:Hj.
  - apply (inj Some) in Hi as <-. destruct (IH j eq_refl) as (Hlt & p & Hp).
    split; [cbn; lia|]. exists (String a p). cbn [str_take] in *. by rewrite Hp.
  - case_decide; [|done]. apply (inj Some) in Hi as <-. subst. split; [cbn; lia|]. by exists "".
Qed.

Lemma str_take_take m n s : (m <= n)%nat -> str_take m (str_take n s) = str_take m s.
Proof.
  revert n s. induction m as [|m IH]; intros [|n] s Hle; try lia; [by destruct s..|].
  destruct s as [|a s]; [done|]. cbn. by rewrite IH by lia.
Qed.

(** Where a text may be cut: after a newline or a blank, or at the limit. *)
Definition good_cut (limit : nat) (chunk : string) : Prop :=
  (exists p, chunk = p +:+ String newline "") \/ (exists p, chunk = p +:+ String blank "") \/
  String.length chunk = limit.

Lemma chunk_cut_spec text limit : (0 < limit)%nat -> (limit < String.length text)%nat ->
  (0 < chunk_cut text limit <= limit)%nat /\ good_cut limit (str_take (chunk_cut text limit) text).
Proof.
  intros Hpos Hlen. unfold chunk_cut.
  assert (Hidx : forall c idx, LastIndexByte (str_take limit text) c = Some (S idx) ->
    (S (S idx) <= limit)%nat /\ exists p, str_take (S (S idx)) text = p +:+ String c "").
  { intros c idx Hi. apply LastIndexByte_spec in Hi as (Hlt & p & Hp).
    rewrite length_str_take in Hlt. rewrite str_take_take in Hp by lia. split; [lia|by exists p]. }
  assert (Hhard : (0 < limit <= limit)%nat /\ good_cut limit (str_take limit text)).
  { split; [lia|]. right; right. rewrite length_str_take. lia. }
  assert (Hblank : let cut := match LastIndexByte (str_take limit text) blank with
                              | Some (S idx) => S (S idx) | _ => limit end in
    (0 < cut <= limit)%nat /\ good_cut limit (str_take cut text)).
  { cbv zeta. destruct (LastIndexByte _ blank) as [[|idx]|] eqn:Hb; [done| |done].
    destruct (Hidx _ _ Hb) as [? ?]. split; [lia|]. by right; left. }
  destruct (LastIndexByte _ newline) as [[|idx]|] eqn:Hn; [done| |done].
  destruct (Hidx _ _ Hn) as [? ?]. split; [lia|]. by left.
Qed.

(** The chunks up to the last one end at a good cut. *)
Fixpoint cut_well (limit : nat) (chunks : list string) : Prop :=
  match chunks with
  | [] | [_] => True
  | chunk :: rest => good_cut limit chunk /\ cut_well limit rest
  end.

Lemma cut_well_cons limit chunk rest :
  good_cut limit chunk -> cut_well limit rest -> cut_well limit (chunk :: rest).
Proof. by destruct rest. Qed.

Lemma chunk_loop_spec fuel text limit : (0 < limit)%nat -> (String.length text <= fuel)%nat ->
  String.concat "" (chunk_loop fuel text limit) = text /\
  Forall (fun c => 0 < String.length c <= limit)%nat (chunk_loop fuel text limit) /\
  cut_well limit (chunk_loop fuel text limit).
Proof.
  intros Hpos. revert text. induction fuel as [|fuel IH]; intros text Hlen; cbn [chunk_loop].
  { destruct text; [|cbn in Hlen; lia]. done. }
  case_decide as Hempty; [by subst|]. case_decide as Hshort.
  { split_and!; [done|apply Forall_singleton|done]. destruct text; [done|]. cbn in *. lia. }
  destruct (chunk_cut_spec text limit) as [Hcut Hgood]; [done|lia|].
  destruct (IH (str_drop (chunk_cut text limit) text)) as (Hc & Hf & Hw);
    [rewrite length_str_drop; lia|].
  split_and!.
  - by rewrite concat_cons, Hc, str_take_drop.
  - apply Forall_cons. split; [|done]. rewrite length_str_take. lia.
  - by apply cut_well_cons.
Qed.

(** Splitting a text loses nothing.  Joining the chunks gives the text back;
    with a positive limit every chunk fits into it, no chunk of a text is empty,
    and a text is only cut after a newline or a blank, or at the limit. *)
Theorem ChunkText_roundtrip text limit :
  String.concat "" (ChunkText text limit) = text /\
  (0 < limit -> Forall (fun c => Z.of_nat (String.length c) <= limit) (ChunkText text limit)) /\
  (text <> "" -> Forall (fun c => c <> "") (ChunkText text limit)) /\
  cut_well (Z.to_nat limit) (ChunkText text limit).
Proof.
  unfold ChunkText. case_decide as Hc.
  { split_and!; [done| |by intros; apply Forall_singleton|done].
    intros. apply Forall_singleton. lia. }
  destruct (chunk_loop_spec (String.length text) text (Z.to_nat limit)) as (H1 & H2 & H3);
    [lia|done|]. split_and!; [done| | |done].
  - intros _. eapply Forall_impl; [exact H2|]. cbn. intros c. lia.
  - intros _. eapply Forall_impl; [exact H2|]. cbn. intros [|a c]; [cbn; lia|done].
Qed.

Lemma ChunkText_roundtrip_witness :
  ChunkText "one two three" 8 = ["one two "; "three"] /\
  Forall (fun c => Z.of_nat (String.length c) <= 8) (ChunkText "one two three" 8).
Proof.
  split; [vm_compute; reflexivity|].
  destruct (ChunkText_roundtrip "one two three" 8) as (_ & H & _). apply H. lia.
Defined.

(** ** Errors *)

(** The links of an error chain, outermost first. *)
Inductive ErrLink :=
| LinkContext                                          (* [context.Canceled], [context.DeadlineExceeded] *)
| LinkSend (retryable : bool) (statusCode : Z)         (* [*SendError] *)
| LinkRate (retryAfter : Duration) (statusCode : Z)    (* [*RateLimitError] *)
| LinkOther (text : string).

Definition Err : Type := list ErrLink.

(** [errors.As] for [*SendError]: the chain from the first such link on. *)
Fixpoint as_send (err : Err) : option (bool * Z * Err) :=
  match err with
  | [] => None
  | LinkSend retryable code :: rest => Some (retryable, code, rest)
  | _ :: rest => as_send rest
  end.

Fixpoint as_rate (err : Err) : option (Duration * Z) :=
  match err with
  | [] => None
  | LinkRate after code :: _ => Some (after, code)
  | _ :: rest => as_rate rest
  end.

Definition is_context (err : Err) : bool :=
  existsb (fun l => match l with LinkContext => true | _ => false end) err.

Definition MarkSendError (err : Err) (retryable : bool) (statusCode : Z) : Err :=
  match as_send err with
  | Some (_, code, rest) =>
    LinkSend retryable (if decide (0 < statusCode) then statusCode else code) :: rest
  | None => LinkSend retryable statusCode :: err
  end.

Definition ShouldRetrySend (err : option Err) : bool :=
  match err with
  | None => false
  | Some err =>
    if is_context err then false
    else match as_send err with Some (retryable, _, _) => retryable | None => true end
  end.

Definition sendErrorStatusCode (err : Err) : Z :=
  match as_send err with
  | Some (_, code, _) => code
  | None => match as_rate err with Some (_, code) => code | None => 0 end
  end.

(** ** Retries *)

Record SendRetryPolicy := mkRetry {
  MaxAttempts : Z;
  BaseBackoff : Duration;
  MaxBackoff : Duration
}.

Definition defaultSendRetryAttempts : Z := 3.
Definition defaultSendRetryBaseBackoff : Duration := 200 * Millisecond.
Definition defaultSendRetryMaxBackoff : Duration := 2 * Second.

(** The doublings; the product wraps. *)
Fixpoint retry_delay (maxBackoff delay : Duration) (rounds : nat) : Duration :=
  match rounds with
  | O => if decide (maxBackoff < delay) then maxBackoff else delay
  | S rest =>
    if decide (maxBackoff <= delay) then maxBackoff
    else retry_delay maxBackoff (GoInt.wrap64 (delay * 2)) rest
  end.

Definition retry_base (p : SendRetryPolicy) : Duration :=
  if decide (BaseBackoff p <= 0) then defaultSendRetryBaseBackoff else BaseBackoff p.

Definition retry_max (p : SendRetryPolicy) : Duration :=
  if decide (MaxBackoff p <= 0) then defaultSendRetryMaxBackoff else MaxBackoff p.

Definition retryBackoffDelay (p : SendRetryPolicy) (attempt : Z) (err : Err) : Duration :=
  let exponential := retry_delay (retry_max p) (retry_base p) (Z.to_nat (attempt - 1)) in
  match as_rate err with
  | Some (after, _) => if decide (0 < after) then after else exponential
  | None => exponential
  end.

Definition retry_attempts (p : SendRetryPolicy) : Z :=
  if decide (MaxAttempts p <= 0) then defaultSendRetryAttempts else MaxAttempts p.

(** What a call of [RetrySend] did: its result, how often it sent, and the
    delays it waited for. *)
Record RetryTrace := mkTrace {
  tr_result : option Err;
  tr_sends : Z;
  tr_delays : list Duration
}.

Section Retry.
(** The answer to a send and to a wait, by attempt; a wait fails when the
    context ends first. *)
Context (send wait : Z -> option Err).

(** [rest] attempts remain, [attempt] is the next one. *)
Fixpoint retry_loop (p : SendRetryPolicy) (attempt : Z) (lastErr : option Err)
    (delays : list Duration) (rest : nat) : RetryTrace :=
  match rest with
  | O => mkTrace lastErr (attempt - 1) delays
  | S rest =>
    match send attempt with
    | None => mkTrace None attempt delays
    | Some err =>
      if negb (ShouldRetrySend (Some err)) then mkTrace (Some err) attempt delays
      else if decide (rest = O) then
        mkTrace (Some (MarkSendError err false (sendErrorStatusCode err))) attempt delays
      else
        let delays := (delays ++ [retryBackoffDelay p attempt err])%list in
        match wait attempt with
        | Some cancelled => mkTrace (Some cancelled) attempt delays
        | None => retry_loop p (attempt + 1) (Some err) delays rest
        end
    end
  end.

Definition RetrySend (p : SendRetryPolicy) : RetryTrace :=
  retry_loop p 1 None [] (Z.to_nat (retry_attempts p)).

Lemma MarkSendError_final err code : ShouldRetrySend (Some (MarkSendError err false code)) = false.
Proof.
  unfold MarkSendError, ShouldRetrySend. destruct (as_send err) as [[[? ?] ?]|];
    cbn [is_context existsb as_send]; by destruct (existsb _ _).
Qed.

Lemma retry_delay_closed mx delay rounds : 0 < delay -> 0 < mx <= 2 ^ 62 -> delay <= 2 ^ 62 \/ rounds = O ->
  retry_delay mx delay rounds = Z.min mx (delay * 2 ^ Z.of_nat rounds).
Proof.
  revert delay. induction rounds as [|rounds IH]; intros delay Hd Hm Hb; cbn [retry_delay].
  { rewrite Z.pow_0_r. case_decide; lia. }
  rewrite Nat2Z.inj_succ, Z.pow_succ_r by lia. pose proof (Z.pow_pos_nonneg 2 (Z.of_nat rounds)).
  case_decide; [nia|].
  rewrite GoInt.wrap64_id by (unfold GoInt.in_int64, GoInt.min_int64, GoInt.max_int64; lia).
  destruct (decide (mx <= delay * 2)) as [Hge|Hlt].
  - destruct rounds as [|rounds]; cbn [retry_delay].
    + rewrite Z.mul_1_r. case_decide; lia.
    + rewrite decide_True by done. nia.
  - rewrite IH by lia. f_equal. lia.
Qed.

(** Attempts [first], ..., [last - 1] failed in a way that allows a retry, were
    not cut short, and waited for [delays]. *)
Inductive retried (p : SendRetryPolicy) : Z -> Z -> list Duration -> Prop :=
| retried_none n : retried p n n []
| retried_more n m err delays :
    send n = Some err -> ShouldRetrySend (Some err) = true -> wait n = None ->
    retried p (n + 1) m delays -> retried p n m (retryBackoffDelay p n err :: delays).

(** How attempt [n] ends the call. *)
Inductive ends_send (p : SendRetryPolicy) (n : Z) : option Err -> list Duration -> Prop :=
| ends_ok : send n = None -> ends_send p n None []
| ends_permanent err :
    send n = Some err -> ShouldRetrySend (Some err) = false -> ends_send p n (Some err) []
| ends_exhausted err :
    send n = Some err -> ShouldRetrySend (Some err) = true -> n = retry_attempts p ->
    ends_send p n (Some (MarkSendError err false (sendErrorStatusCode err))) []
| ends_cancelled err cancelled :
    send n = Some err -> ShouldRetrySend (Some err) = true -> n < retry_attempts p ->
    wait n = Some cancelled -> ends_send p n (Some cancelled) [retryBackoffDelay p n err].

Lemma retry_loop_spec p attempt lastErr delays rest :
  (0 < rest)%nat -> attempt + Z.of_nat rest - 1 = retry_attempts p ->
  exists n ds1 ds2, attempt <= n <= retry_attempts p /\ retried p attempt n ds1 /\
    ends_send p n (tr_result (retry_loop p attempt lastErr delays rest)) ds2 /\
    tr_sends (retry_loop p attempt lastErr delays rest) = n /\
    tr_delays (retry_loop p attempt lastErr delays rest) = (delays ++ ds1 ++ ds2)%list.
Proof.
  revert attempt lastErr delays. induction rest as [|rest IH]; intros attempt lastErr delays Hr Ha; [lia|].
  cbn [retry_loop]. destruct (send attempt) as [err|] eqn:Hs.
  2:{ exists attempt, [], []. rewrite !app_nil_r. split_and!; [lia|lia|constructor|by constructor|done|done]. }
  destruct (ShouldRetrySend (Some err)) eqn:Hretry; cbn [negb].
  2:{ exists attempt, [], []. rewrite !app_nil_r. split_and!; [lia|lia|constructor|by constructor|done|done]. }
  case_decide as Hlast.
  { exists attempt, [], []. rewrite !app_nil_r.
    split_and!; [lia|lia|constructor|constructor; (done || lia)|done|done]. }
  cbv zeta. destruct (wait attempt) as [cancelled|] eqn:Hw.
  { exists attempt, [], [retryBackoffDelay p attempt err].
    split_and!; [lia|lia|constructor|econstructor; (eassumption || lia)|done|done]. }
  destruct (IH (attempt + 1) (Some err) (delays ++ [retryBackoffDelay p attempt err])%list)
    as (n & ds1 & ds2 & Hn & Hre & He & Hsn & Hd); [lia|lia|].
  exists n, (retryBackoffDelay p attempt err :: ds1), ds2.
  split_and!; [lia|lia|by econstructor|done|done|]. rewrite Hd. by rewrite <- !app_assoc.
Qed.

(** Sending with retries.  The number of sends is at least one and at most
    the configured number of attempts; every send but the last one failed in a
    way that allows a retry and was followed by its back-off, and the last one
    succeeded, failed permanently, was the last attempt (its error is returned
    marked as not to be retried), or was followed by a cancelled wait.  Unless
    the service asked for a longer pause, the back-off after attempt [n] is the
    base doubled [n-1] times, capped by the maximum. *)
Theorem RetrySend_spec p :
  let tr := RetrySend p in
  (exists ds1 ds2, 1 <= tr_sends tr <= retry_attempts p /\ retried p 1 (tr_sends tr) ds1 /\
     ends_send p (tr_sends tr) (tr_result tr) ds2 /\ tr_delays tr = (ds1 ++ ds2)%list) /\
  (tr_sends tr = retry_attempts p -> ShouldRetrySend (tr_result tr) = false \/ tr_result tr = None) /\
  (forall n err, 1 <= n -> as_rate err = None -> retry_base p <= 2 ^ 62 -> retry_max p <= 2 ^ 62 ->
     retryBackoffDelay p n err = Z.min (retry_max p) (retry_base p * 2 ^ (n - 1))).
Proof.
  cbv zeta. assert (Hpos : 1 <= retry_attempts p).
  { unfold retry_attempts, defaultSendRetryAttempts. case_decide; lia. }
  destruct (retry_loop_spec p 1 None [] (Z.to_nat (retry_attempts p)))
    as (n & ds1 & ds2 & Hn & Hre & He & Hsn & Hd); [lia|lia|].
  fold (RetrySend p) in *. split_and!.
  - exists ds1, ds2. rewrite Hsn. split_and!; [lia|lia|done|done|done].
  - rewrite Hsn. intros Hlast. destruct He; [by right|by left|left; apply MarkSendError_final|lia].
  - intros k err Hk Hrate Hb Hm. unfold retryBackoffDelay. rewrite Hrate.
    assert (0 < retry_base p /\ 0 < retry_max p) as [? ?].
    { unfold retry_base, retry_max, defaultSendRetryBaseBackoff, defaultSendRetryMaxBackoff, Second, Millisecond.
      repeat case_decide; lia. }
    rewrite retry_delay_closed by lia. by rewrite Z2Nat.id by lia.
Qed.
End Retry.
