(* ===== verification/ChannelGuards.v ===== *)
(** * Inbound guards of the channels ([channels/dedupe.go], [channels/status_gate.go])

    The de-duplication of messages with its file, and the gate that silences a
    channel after an authentication failure.  The file of the de-duplicator is
    its decoded payload; whether a write succeeds is an argument of the
    operations that write. *)
From S2P Require Import Prelude GoLib.
From stdpp Require Import relations.
Import Str GoTime.
Local Open Scope Z_scope.

(** ** Seconds of the Unix epoch *)

Definition unix_epoch : Z := 62135596800.
Definition Unix (t : Time) : Z := t / Second - unix_epoch.
Definition of_Unix (sec : Z) : Time := (sec + unix_epoch) * Second.

Lemma of_Unix_Unix t : of_Unix (Unix t) <= t < of_Unix (Unix t) + Second.
Proof.
  unfold of_Unix, Unix, Second. pose proof (Z.mul_div_le t 1000000000).
  pose proof (Z.mul_succ_div_gt t 1000000000). lia.
Qed.

Lemma Unix_of_Unix sec : Unix (of_Unix sec) = sec.
Proof. unfold of_Unix, Unix. rewrite Z.div_mul by (unfold Second; lia). lia. Qed.

(** ** The message de-duplicator *)

(** The file: missing, unreadable or not JSON, or a payload of seconds. *)
Inductive DedupeFile :=
| FileMissing
| FileBroken
| FilePayload (payload : gmap string Z).

Record MessageDeduper := mkDeduper {
  dd_path : string;
  dd_ttl : Duration;
  dd_memory : gmap string Time;
  dd_loaded : bool;
  dd_lastErr : bool;
  dd_dirty : bool;
  dd_persisted : bool;
  dd_flushScheduled : bool
}.

Definition NewMessageDeduper (path : string) (ttl : Duration) : MessageDeduper :=
  mkDeduper (TrimSpace path) (if decide (ttl <= 0) then 24 * Hour else ttl) ∅
    false false false false false.

Definition loadLocked (d : MessageDeduper) (file : DedupeFile) : MessageDeduper :=
  let set memory err :=
    mkDeduper (dd_path d) (dd_ttl d) memory true err (dd_dirty d) (dd_persisted d)
      (dd_flushScheduled d) in
  if decide (dd_loaded d = true \/ dd_path d = "") then set (dd_memory d) (dd_lastErr d)
  else
    match file with
    | FileMissing => set (dd_memory d) (dd_lastErr d)
    | FileBroken => set (dd_memory d) true
    | FilePayload raw =>
      set ((of_Unix <$> filter (fun kv => 0 < kv.2) raw) ∪ dd_memory d) false
    end.

(** An entry is kept while it is younger than the time to live. *)
Definition fresh (ttl : Duration) (now : Time) (seenAt : Time) : Prop := Sub now seenAt < ttl.

#[export] Instance fresh_dec ttl now seenAt : Decision (fresh ttl now seenAt).
Proof. unfold fresh. apply _. Defined.

(** The state after pruning, and whether anything was removed. *)
Definition pruneLocked (d : MessageDeduper) (now : Time) : MessageDeduper * bool :=
  if decide (dd_ttl d <= 0) then (d, false)
  else
    let kept := filter (fun kv => fresh (dd_ttl d) now kv.2) (dd_memory d) in
    (mkDeduper (dd_path d) (dd_ttl d) kept (dd_loaded d) (dd_lastErr d) (dd_dirty d)
       (dd_persisted d) (dd_flushScheduled d), bool_decide (kept <> dd_memory d)).

(** [persistLocked]; [ok] says whether the file could be written. *)
Definition persistLocked (d : MessageDeduper) (file : DedupeFile) (ok : bool)
    : MessageDeduper * DedupeFile :=
  if decide (dd_path d = "") then (d, file)
  else
    (mkDeduper (dd_path d) (dd_ttl d) (dd_memory d) (dd_loaded d) (negb ok) (dd_dirty d)
       (dd_persisted d) (dd_flushScheduled d),
     if ok then FilePayload (Unix <$> dd_memory d) else file).

Definition with_flags (d : MessageDeduper) (dirty persisted scheduled : bool) : MessageDeduper :=
  mkDeduper (dd_path d) (dd_ttl d) (dd_memory d) (dd_loaded d) (dd_lastErr d) dirty persisted scheduled.

Definition schedulePersistLocked (d : MessageDeduper) : MessageDeduper :=
  if decide (dd_path d = "" \/ dd_flushScheduled d = true) then d
  else with_flags d (dd_dirty d) (dd_persisted d) true.

Definition persistStateChangeLocked (d : MessageDeduper) (file : DedupeFile) (ok : bool)
    : MessageDeduper * DedupeFile :=
  if decide (dd_path d = "") then (with_flags d false true (dd_flushScheduled d), file)
  else if dd_persisted d then (schedulePersistLocked d, file)
  else
    let (d, file) := persistLocked d file ok in
    (if dd_lastErr d then d else with_flags d false true (dd_flushScheduled d), file).

(** [flushAfterDelay], when its timer has fired. *)
Definition flush (d : MessageDeduper) (file : DedupeFile) (ok : bool) : MessageDeduper * DedupeFile :=
  let d := with_flags d (dd_dirty d) (dd_persisted d) false in
  if negb (dd_persisted d) || negb (dd_dirty d) then (d, file)
  else
    let (d, file) := persistLocked d file ok in
    if dd_lastErr d then (if dd_dirty d then schedulePersistLocked d else d, file)
    else (with_flags d false (dd_persisted d) (dd_flushScheduled d), file).

Definition Seen (d : MessageDeduper) (file : DedupeFile) (now : Time) (ok : bool) (rawKey : string)
    : MessageDeduper * DedupeFile * bool :=
  let key := TrimSpace rawKey in
  if decide (key = "") then (d, file, false)
  else
    let (d, changed) := pruneLocked (loadLocked d file) now in
    match dd_memory d !! key with
    | Some _ =>
      (if changed || dd_dirty d then persistStateChangeLocked d file ok else (d, file), true)
    | None =>
      let d := mkDeduper (dd_path d) (dd_ttl d) (<[key := now]> (dd_memory d)) (dd_loaded d)
                 (dd_lastErr d) true (dd_persisted d) (dd_flushScheduled d) in
      (persistStateChangeLocked d file ok, false)
    end.

(** ** What the de-duplicator promises *)

(** The specification keeps the time of the last accepted message of every key
    and never forgets. *)
Definition spec_seen (ttl : Duration) (accepted : gmap string Time) (now : Time) (rawKey : string)
    : gmap string Time * bool :=
  let key := TrimSpace rawKey in
  if decide (key = "") then (accepted, false)
  else
    match accepted !! key with
    | Some t => if decide (fresh ttl now t) then (accepted, true) else (<[key := now]> accepted, false)
    | None => (<[key := now]> accepted, false)
    end.

(** The de-duplicator's view of the accepted messages at time [last]: its memory
    (or, before it is loaded, the payload of its file) holds those that had not
    expired. *)
Definition dedupe_view (d : MessageDeduper) (file : DedupeFile) : gmap string Time :=
  dd_memory (loadLocked d file).

Definition simulates (d : MessageDeduper) (file : DedupeFile) (last : Time)
    (accepted : gmap string Time) : Prop :=
  0 < dd_ttl d /\
  (forall key t, dedupe_view d file !! key = Some t -> accepted !! key = Some t) /\
  (forall key t, accepted !! key = Some t -> fresh (dd_ttl d) last t ->
     dedupe_view d file !! key = Some t).

Lemma loadLocked_loaded d file : dd_loaded d = true -> dd_memory (loadLocked d file) = dd_memory d.
Proof. intros Hl. unfold loadLocked. by rewrite decide_True by (by left). Qed.

Lemma fresh_mono ttl last now t : last <= now -> fresh ttl now t -> fresh ttl last t.
Proof. unfold fresh, Sub, GoInt.max_int64, GoInt.min_int64. lia. Qed.

Lemma pruned_memory d now : 0 < dd_ttl d ->
  dd_memory (pruneLocked d now).1 = filter (fun kv => fresh (dd_ttl d) now kv.2) (dd_memory d).
Proof. intros Ht. unfold pruneLocked. by rewrite decide_False by lia. Qed.

(** Persisting and flushing touch the flags and the file only. *)
Lemma persistStateChange_view d file ok :
  let r := persistStateChangeLocked d file ok in
  dd_memory r.1 = dd_memory d /\ dd_ttl r.1 = dd_ttl d /\ dd_loaded r.1 = dd_loaded d /\
  dd_path r.1 = dd_path d.
Proof.
  unfold persistStateChangeLocked, schedulePersistLocked, persistLocked.
  repeat case_decide; destruct (dd_persisted d), ok; repeat case_decide; done.
Qed.

Lemma flush_view d file ok :
  let r := flush d file ok in
  dd_memory r.1 = dd_memory d /\ dd_ttl r.1 = dd_ttl d /\ dd_loaded r.1 = dd_loaded d /\
  dd_path r.1 = dd_path d.
Proof.
  unfold flush, persistLocked, schedulePersistLocked, with_flags. cbn.
  destruct (dd_persisted d), (dd_dirty d), ok; cbn; repeat case_decide; cbn; repeat case_decide; try done;
    repeat case_match; done.
Qed.

Lemma Seen_simulates d file last accepted now ok rawKey :
  simulates d file last accepted -> last <= now ->
  let r := Seen d file now ok rawKey in
  let r' := spec_seen (dd_ttl d) accepted now rawKey in
  r.2 = r'.2 /\ simulates r.1.1 r.1.2 now r'.1 /\ dd_ttl r.1.1 = dd_ttl d.
Proof.
  intros (Ht & Hsub & Hcov) Hle. unfold Seen, spec_seen. cbv zeta.
  set (key := TrimSpace rawKey). case_decide as Hkey.
  { split_and!; [done| |done]. split_and!; [done|done|]. intros k t Ha Hf. apply Hcov; [done|].
    by eapply fresh_mono. }
  set (l := loadLocked d file).
  assert (Hl : dd_ttl l = dd_ttl d /\ dd_loaded l = true).
  { unfold l, loadLocked. case_decide; [done|]. by destruct file. }
  destruct Hl as [Hlt Hll].
  pose proof (pruned_memory l now) as Hm. rewrite Hlt in Hm. specialize (Hm Ht).
  assert (Hp : dd_ttl (pruneLocked l now).1 = dd_ttl d /\ dd_loaded (pruneLocked l now).1 = true).
  { unfold pruneLocked. by case_decide. }
  destruct (pruneLocked l now) as [p changed]. cbn [fst] in Hm, Hp. destruct Hp as [Hpt Hpl].
  assert (Hmem : forall k t, dd_memory p !! k = Some t <-> accepted !! k = Some t /\ fresh (dd_ttl d) now t).
  { intros k t. rewrite Hm, map_lookup_filter_Some. cbn [snd]. split.
    - intros [Hk Hf]. split; [by apply Hsub|done].
    - intros [Ha Hf]. split; [|done]. apply Hcov; [done|]. by eapply fresh_mono. }
  destruct (dd_memory p !! key) as [t|] eqn:Hk.
  - apply Hmem in Hk as [Ha Hf]. rewrite Ha. rewrite decide_True by done.
    assert (Hr : forall q, dd_memory q.1 = dd_memory p /\ dd_ttl q.1 = dd_ttl p /\
        dd_loaded q.1 = dd_loaded p /\ dd_path q.1 = dd_path p ->
      simulates q.1 q.2 now accepted /\ dd_ttl q.1 = dd_ttl d).
    { intros [q f] (E1 & E2 & E3 & _). cbn [fst snd] in *. split; [|congruence].
      unfold simulates, dedupe_view. rewrite loadLocked_loaded, E1, E2, Hpt by congruence.
      split_and!; [done|intros k t' Hq; by apply Hmem|intros k t' H1 H2; by apply Hmem]. }
    split; [done|]. destruct (changed || dd_dirty p); cbn [fst snd].
    + apply (Hr (persistStateChangeLocked p file ok)), persistStateChange_view.
    + by apply (Hr (p, file)).
  - set (d' := mkDeduper _ _ _ _ _ _ _ _). cbn [fst snd].
    assert (Hnew : (if accepted !! key is Some t then
        if decide (fresh (dd_ttl d) now t) then (accepted, true) else (<[key := now]> accepted, false)
        else (<[key := now]> accepted, false)) = (<[key := now]> accepted, false)).
    { destruct (accepted !! key) as [t|] eqn:Ha; [|done]. rewrite decide_False; [done|].
      intros Hf. assert (dd_memory p !! key = Some t) by (by apply Hmem). congruence. }
    rewrite Hnew. split; [done|]. cbn [fst].
    destruct (persistStateChange_view d' file ok) as (E1 & E2 & E3 & _).
    split; [|rewrite E2; cbn; congruence].
    unfold simulates, dedupe_view.
    rewrite loadLocked_loaded, E1, E2 by (rewrite E3; exact Hpl).
    cbn [d' dd_ttl dd_memory]. rewrite Hpt. split_and!; [done| |].
    + intros k t [[<- <-]|[? Hq]]%lookup_insert_Some; [by rewrite lookup_insert_eq|].
      rewrite lookup_insert_ne by done. by apply Hmem.
    + intros k t [[<- <-]|[? Hq]]%lookup_insert_Some Hf; [by rewrite lookup_insert_eq|].
      rewrite lookup_insert_ne by done. by apply Hmem.
Qed.

Lemma Seen_loaded d file now ok key :
  TrimSpace key <> "" \/ dd_loaded d = true -> dd_loaded (Seen d file now ok key).1.1 = true.
Proof.
  intros Hb. unfold Seen. cbv zeta. destruct (decide (TrimSpace key = "")) as [Hk|Hk]; [by destruct Hb|].
  assert (Hll : dd_loaded (pruneLocked (loadLocked d file) now).1 = true).
  { unfold pruneLocked, loadLocked. repeat case_decide; try done; by destruct file. }
  destruct (pruneLocked _ now) as [p changed]. cbn [fst] in *.
  destruct (dd_memory p !! _); cbn [fst].
  - destruct (changed || dd_dirty p); [|done].
    destruct (persistStateChange_view p file ok) as (_ & _ & E & _). by rewrite E.
  - match goal with |- dd_loaded (persistStateChangeLocked ?x _ _).1 = _ =>
      destruct (persistStateChange_view x file ok) as (_ & _ & E & _) end. by rewrite E.
Qed.

(** ** Runs *)

Inductive DedupeOp :=
| OpSeen (now : Time) (ok : bool) (key : string)
| OpFlush (ok : bool).

(** The answers of a run, with the final state and file. *)
Fixpoint dedupe_run (d : MessageDeduper) (file : DedupeFile) (ops : list DedupeOp)
    : list bool * MessageDeduper * DedupeFile :=
  match ops with
  | [] => ([], d, file)
  | OpSeen now ok key :: rest =>
    let '(d, file, answer) := Seen d file now ok key in
    let '(answers, d, file) := dedupe_run d file rest in (answer :: answers, d, file)
  | OpFlush ok :: rest =>
    let (d, file) := flush d file ok in dedupe_run d file rest
  end.

Fixpoint spec_run (ttl : Duration) (accepted : gmap string Time) (ops : list DedupeOp) : list bool :=
  match ops with
  | [] => []
  | OpSeen now _ key :: rest =>
    let (accepted, answer) := spec_seen ttl accepted now key in answer :: spec_run ttl accepted rest
  | OpFlush _ :: rest => spec_run ttl accepted rest
  end.

(** The clock does not go backwards, and a flush comes after a message. *)
Fixpoint clock_ok (started : bool) (last : Time) (ops : list DedupeOp) : Prop :=
  match ops with
  | [] => True
  | OpSeen now _ key :: rest => last <= now /\ clock_ok (started || bool_decide (TrimSpace key <> "")) now rest
  | OpFlush _ :: rest => started = true /\ clock_ok started last rest
  end.

Lemma flush_simulates d file last accepted ok :
  dd_loaded d = true -> simulates d file last accepted ->
  let r := flush d file ok in simulates r.1 r.2 last accepted.
Proof.
  intros Hl. unfold simulates, dedupe_view. rewrite (loadLocked_loaded d) by done.
  destruct (flush_view d file ok) as (E1 & E2 & E3 & _). cbv zeta.
  by rewrite loadLocked_loaded, E1, E2 by congruence.
Qed.

Lemma dedupe_run_simulates d file last accepted ops started :
  simulates d file last accepted -> (started = true -> dd_loaded d = true) -> clock_ok started last ops ->
  (dedupe_run d file ops).1.1 = spec_run (dd_ttl d) accepted ops.
Proof.
  revert d file last accepted started. induction ops as [|op ops IH]; intros d file last accepted started Hs Hst Hc; [done|].
  destruct op as [now ok key|ok]; cbn [dedupe_run spec_run clock_ok] in *.
  - destruct Hc as [Hle Hc]. destruct (Seen_simulates d file last accepted now ok key Hs Hle) as (Ha & Hs' & Ht).
    assert (Hl : started || bool_decide (TrimSpace key <> "") = true -> dd_loaded (Seen d file now ok key).1.1 = true).
    { intros Hb. apply Seen_loaded. apply orb_true_iff in Hb as [Hb|Hb]; [right; auto|left; by bool_prop]. }
    destruct (Seen d file now ok key) as [[d' file'] b]. cbn [fst snd] in *.
    destruct (spec_seen (dd_ttl d) accepted now key) as [acc' b']. cbn [fst snd] in *. subst b'.
    specialize (IH d' file' now acc' _ Hs' Hl Hc). rewrite Ht in IH.
    destruct (dedupe_run d' file' ops) as [[answers d2] f2]. cbn [fst] in *. by rewrite IH.
  - destruct Hc as [Hstart Hc]. pose proof (flush_simulates d file last accepted ok (Hst Hstart) Hs) as Hs'.
    destruct (flush_view d file ok) as (_ & E2 & E3 & _).
    destruct (flush d file ok) as [d' file']. cbn [fst snd] in *.
    rewrite <- E2. eapply IH; [done| |done]. intros _. rewrite E3. by apply Hst.
Qed.

(** C36: The de-duplicator implements its specification.  Over any sequence of
    messages with a clock that does not go backwards, with the delayed writes of
    the file at any points and with writes that may fail, a message is reported
    as seen exactly when a message with the same trimmed key was accepted less
    than the time to live ago, counting the messages that the file already held
    when the process started. *)
Theorem dedupe_refines_spec path ttl file start ops :
  let d := NewMessageDeduper path ttl in
  clock_ok false start ops ->
  (dedupe_run d file ops).1.1 = spec_run (dd_ttl d) (dedupe_view d file) ops.
Proof.
  intros d Hc. eapply dedupe_run_simulates; [|done|done].
  split_and!; [|done|done]. unfold d, NewMessageDeduper, Hour, Minute, Second. cbn. case_decide; lia.
Qed.

(** ** Restarts *)

(** The file holds a message. *)
Definition held (file : DedupeFile) (key : string) (t : Time) : Prop :=
  exists payload, file = FilePayload payload /\ payload !! key = Some (Unix t).

Definition all_held (d : MessageDeduper) (file : DedupeFile) : Prop :=
  dd_path d <> "" -> dd_dirty d = false -> map_Forall (held file) (dd_memory d).

(** A state with unwritten messages has a write under way, unless no write has
    succeeded yet, in which case the next message tries again. *)
Definition write_pending (d : MessageDeduper) : Prop :=
  dd_path d <> "" -> dd_persisted d = true -> dd_dirty d = true -> dd_flushScheduled d = true.

Record dedupe_ok (d : MessageDeduper) (file : DedupeFile) : Prop := {
  dok_start : dd_loaded d = false -> dd_memory d = ∅ /\ dd_dirty d = false;
  dok_held : all_held d file;
  dok_pending : write_pending d
}.

Lemma persistLocked_ok d file : dd_path d <> "" ->
  persistLocked d file true =
  (mkDeduper (dd_path d) (dd_ttl d) (dd_memory d) (dd_loaded d) false (dd_dirty d) (dd_persisted d)
     (dd_flushScheduled d), FilePayload (Unix <$> dd_memory d)).
Proof. intros Hp. unfold persistLocked. by rewrite decide_False. Qed.

Lemma memory_held d : map_Forall (held (FilePayload (Unix <$> dd_memory d))) (dd_memory d).
Proof. intros k t Hk. eexists. split; [done|]. by rewrite lookup_fmap, Hk. Qed.

Lemma persistStateChange_ok d file ok :
  dd_loaded d = true -> all_held d file ->
  let r := persistStateChangeLocked d file ok in dedupe_ok r.1 r.2.
Proof.
  intros Hl Hh. cbv zeta.
  unfold persistStateChangeLocked. case_decide as Hp.
  { constructor; [intros Hf; cbn in Hf; congruence| |]; intros Hp'; by destruct Hp'. }
  destruct (dd_persisted d) eqn:Hper.
  { unfold schedulePersistLocked. case_decide as Hs; constructor; cbn; try done; try (intros Hf; cbn in Hf; congruence).
    intros _ _ _. by destruct Hs. }
  destruct ok.
  - rewrite persistLocked_ok by done. cbn. constructor; cbn; [intros Hf; cbn in Hf; congruence| |done].
    intros _ _. exact (memory_held d).
  - unfold persistLocked. rewrite decide_False by done. cbn.
    constructor; cbn; [intros Hf; cbn in Hf; congruence|exact Hh|]. intros _ Hc. cbn in Hc. congruence.
Qed.

Lemma flush_ok d file ok : dd_loaded d = true -> dedupe_ok d file ->
  let r := flush d file ok in dedupe_ok r.1 r.2.
Proof.
  intros Hl [_ Hh Hp]. cbv zeta. unfold flush, with_flags. cbn.
  destruct (dd_persisted d) eqn:Hper, (dd_dirty d) eqn:Hd; cbn.
  2-4: constructor; cbn; try congruence; unfold all_held, write_pending in *; cbn; congruence || auto.
  unfold persistLocked, schedulePersistLocked. cbn. case_decide as Hpath; cbn.
  - repeat case_match; constructor; cbn; try congruence; unfold all_held, write_pending; cbn; congruence || auto.
  - destruct ok; cbn.
    + constructor; cbn; [congruence| |done]. intros _ _. exact (memory_held d).
    + case_decide as Hs; [by destruct Hs|]. constructor; cbn; [congruence|by intros ? ?|done].
Qed.

Lemma loadLocked_ok d file : dedupe_ok d file ->
  dd_loaded (loadLocked d file) = true /\ all_held (loadLocked d file) file /\
  dd_path (loadLocked d file) = dd_path d.
Proof.
  intros [Hs Hh _]. unfold loadLocked, all_held in *. case_decide as Hc; cbn; [done|].
  destruct file as [| |raw]; cbn; split_and!; try done. intros Hp Hd k t Hk.
  assert (Hm : dd_memory d = ∅) by (apply Hs; destruct (dd_loaded d); [tauto|done]).
  rewrite Hm, (right_id_L ∅ (∪)), lookup_fmap in Hk.
  apply fmap_Some in Hk as (u & Hu & ->). apply map_lookup_filter_Some in Hu as [Hu _].
  exists raw. by rewrite Unix_of_Unix.
Qed.

Lemma Seen_ok d file now ok rawKey : dedupe_ok d file ->
  let r := Seen d file now ok rawKey in dedupe_ok r.1.1 r.1.2 /\ dd_path r.1.1 = dd_path d.
Proof.
  intros Hok. cbv zeta. unfold Seen. cbv zeta. destruct (decide (TrimSpace rawKey = "")); [done|].
  destruct (loadLocked_ok d file Hok) as (Hl & Hh & Hpath).
  assert (Hpr : dd_loaded (pruneLocked (loadLocked d file) now).1 = true /\
    all_held (pruneLocked (loadLocked d file) now).1 file /\
    dd_path (pruneLocked (loadLocked d file) now).1 = dd_path d /\
    ((pruneLocked (loadLocked d file) now).2 = false ->
      write_pending (loadLocked d file) -> write_pending (pruneLocked (loadLocked d file) now).1)).
  { unfold pruneLocked. case_decide; cbn; split_and!; try done. unfold all_held in *. cbn.
    intros Hp Hd k t [Hk _]%map_lookup_filter_Some. by apply (Hh Hp Hd). }
  assert (Hw : write_pending (loadLocked d file)).
  { destruct Hok as [_ _ Hw]. unfold loadLocked, write_pending in *. case_decide; [done|]. by destruct file. }
  destruct (pruneLocked (loadLocked d file) now) as [p changed]. cbn [fst snd] in Hpr.
  destruct Hpr as (Hpl & Hph & Hpp & Hpw). destruct (dd_memory p !! TrimSpace rawKey).
  - destruct (changed || dd_dirty p) eqn:Hcd; cbn [fst snd].
    + split; [by apply persistStateChange_ok|].
      destruct (persistStateChange_view p file ok) as (_ & _ & _ & E). congruence.
    + apply orb_false_iff in Hcd as [Hc _]. split; [|done]. constructor; [congruence|done|auto].
  - cbn [fst snd]. set (d' := mkDeduper _ _ _ _ _ _ _ _). split.
    + apply persistStateChange_ok; [done|]. intros _ Hd. cbn in Hd. done.
    + destruct (persistStateChange_view d' file ok) as (_ & _ & _ & E). rewrite E. done.
Qed.

Lemma dedupe_run_ok d file ops started last :
  dedupe_ok d file -> (started = true -> dd_loaded d = true) -> clock_ok started last ops ->
  let r := dedupe_run d file ops in
  dedupe_ok r.1.2 r.2 /\ dd_path r.1.2 = dd_path d.
Proof.
  revert d file started last. induction ops as [|op ops IH]; intros d file started last Hok Hst Hc; [done|].
  destruct op as [now ok key|ok]; cbn [dedupe_run clock_ok] in *; destruct Hc as [Hle Hc].
  - destruct (Seen_ok d file now ok key Hok) as [Hok' Hp].
    pose proof (Seen_loaded d file now ok key) as Hl.
    destruct (Seen d file now ok key) as [[d' file'] b]. cbn [fst snd] in *.
    destruct (IH d' file' (started || bool_decide (TrimSpace key <> "")) now Hok') as [? ?]; [|exact Hc|].
    { intros Hb. apply Hl. apply orb_true_iff in Hb as [Hb|Hb]; [right; auto|left; by bool_prop]. }
    destruct (dedupe_run d' file' ops) as [[answers d2] f2]. cbn [fst snd] in *. split; congruence.
  - pose proof (flush_ok d file ok (Hst Hle) Hok) as Hok'.
    destruct (flush_view d file ok) as (_ & _ & E3 & E4).
    destruct (flush d file ok) as [d' file']. cbn [fst snd] in *.
    destruct (IH d' file' started last Hok') as [? ?]; [|done|split; congruence].
    intros _. rewrite E3. by apply Hst.
Qed.

(** The de-duplicator survives a restart.  After any run, if there is nothing
    left to write, a new process on the same file reports every message of the
    old one's memory as seen, up to one second before its time to live ends (the
    file keeps whole seconds); and while messages are left to write, a write is
    scheduled as soon as the first one has succeeded. *)
Theorem dedupe_survives_restart path ttl file0 start ops answers d file :
  clock_ok false start ops -> TrimSpace path <> "" ->
  dedupe_run (NewMessageDeduper path ttl) file0 ops = (answers, d, file) ->
  (dd_persisted d = true -> dd_dirty d = true -> dd_flushScheduled d = true) /\
  (dd_dirty d = false -> forall rawKey t now ok,
     TrimSpace rawKey <> "" -> dd_memory d !! TrimSpace rawKey = Some t -> 0 < Unix t ->
     now - t < dd_ttl (NewMessageDeduper path ttl) - Second ->
     (Seen (NewMessageDeduper path ttl) file now ok rawKey).2 = true).
Proof.
  intros Hc Hp Hrun.
  assert (Hnew : dedupe_ok (NewMessageDeduper path ttl) file0) by (constructor; done).
  destruct (dedupe_run_ok (NewMessageDeduper path ttl) file0 ops false start Hnew) as [[_ Hh Hw] Hpath]; [done|done|].
  rewrite Hrun in *. cbn [fst snd] in *.
  assert (Hne : dd_path d <> "") by (by rewrite Hpath).
  split; [by apply Hw|]. intros Hd rawKey t now ok Hk Ht Hu Hlt.
  destruct (Hh Hne Hd _ _ Ht) as (payload & -> & Hpay).
  unfold Seen. cbv zeta. rewrite (decide_False (P := TrimSpace rawKey = "")) by done.
  set (n := NewMessageDeduper path ttl).
  assert (Httl : 0 < dd_ttl n).
  { unfold n, NewMessageDeduper, Hour, Minute, Second. cbn. case_decide; lia. }
  assert (Hload : dd_memory (loadLocked n (FilePayload payload)) !! TrimSpace rawKey = Some (of_Unix (Unix t))
                  /\ dd_ttl (loadLocked n (FilePayload payload)) = dd_ttl n).
  { unfold loadLocked. rewrite decide_False by (intros [?|?]; done). cbn. split; [|done].
    rewrite (right_id_L ∅ (∪)), lookup_fmap. apply fmap_Some. exists (Unix t). split; [|done].
    by apply map_lookup_filter_Some. }
  destruct Hload as [Hm Ht']. pose proof (pruned_memory (loadLocked n (FilePayload payload)) now) as Hpr.
  rewrite Ht' in Hpr. specialize (Hpr Httl).
  destruct (pruneLocked _ now) as [p changed]. cbn [fst] in Hpr.
  assert (Hin : dd_memory p !! TrimSpace rawKey = Some (of_Unix (Unix t))).
  { rewrite Hpr. apply map_lookup_filter_Some. split; [done|]. cbn [snd].
    pose proof (of_Unix_Unix t). unfold fresh, Sub, GoInt.min_int64, GoInt.max_int64.
    fold n in Hlt. lia. }
  by rewrite Hin.
Qed.

(** ** The gate after an authentication failure *)

Record authFailureItem := mkItem { item_until : Time; item_lastNotice : Time }.

Record AuthFailureGate := mkGate {
  gate_cooldown : Duration;
  gate_reminder : Duration;
  gate_items : gmap string authFailureItem
}.

Definition DefaultAuthFailureCooldown : Duration := 30 * Second.
Definition DefaultAuthFailureReminderInterval : Duration := 15 * Second.

Definition NewAuthFailureGate (cooldown reminder : Duration) : AuthFailureGate :=
  mkGate (if decide (cooldown <= 0) then DefaultAuthFailureCooldown else cooldown)
    (if decide (reminder <= 0) then DefaultAuthFailureReminderInterval else reminder) ∅.

Definition with_items (g : AuthFailureGate) (items : gmap string authFailureItem) : AuthFailureGate :=
  mkGate (gate_cooldown g) (gate_reminder g) items.

Definition Arm (g : AuthFailureGate) (now : Time) (key : string) : AuthFailureGate :=
  if decide (TrimSpace key = "") then g
  else with_items g (<[key := mkItem (Add now (gate_cooldown g)) zeroTime]> (gate_items g)).

Definition Clear (g : AuthFailureGate) (key : string) : AuthFailureGate :=
  if decide (TrimSpace key = "") then g else with_items g (delete key (gate_items g)).

(** Whether the key is blocked, and whether to tell the sender. *)
Definition Blocked (g : AuthFailureGate) (now : Time) (key : string)
    : AuthFailureGate * (bool * bool) :=
  if decide (TrimSpace key = "") then (g, (false, false))
  else
    match gate_items g !! key with
    | None => (g, (false, false))
    | Some item =>
      if negb (After (item_until item) now) then (with_items g (delete key (gate_items g)), (false, false))
      else if IsZero (item_lastNotice item)
              || bool_decide (gate_reminder g <= Sub now (item_lastNotice item)) then
        (with_items g (<[key := mkItem (item_until item) now]> (gate_items g)), (true, true))
      else (g, (true, false))
    end.

(** The answers to a sequence of messages. *)
Fixpoint blocked_run (g : AuthFailureGate) (key : string) (times : list Time) : list (bool * bool) :=
  match times with
  | [] => []
  | now :: rest => let (g', answer) := Blocked g now key in answer :: blocked_run g' key rest
  end.

(** The answers that the gate owes after it was armed at [armed]: blocked while
    the cooldown lasts, with a notice on the first message and then whenever the
    reminder interval has passed since the last notice. *)
Fixpoint gate_answers (armed cooldown reminder : Z) (notice : option Time) (times : list Time)
    : list (bool * bool) :=
  match times with
  | [] => []
  | now :: rest =>
    if decide (now < armed + cooldown) then
      if match notice with None => true | Some t => bool_decide (reminder <= Sub now t) end
      then (true, true) :: gate_answers armed cooldown reminder (Some now) rest
      else (true, false) :: gate_answers armed cooldown reminder notice rest
    else (false, false) :: gate_answers armed cooldown reminder notice rest
  end.

Fixpoint ascending (last : Time) (times : list Time) : Prop :=
  match times with
  | [] => True
  | now :: rest => last <= now /\ ascending now rest
  end.

Lemma blocked_cleared g key times :
  gate_items g !! key = None -> Forall (fun a => a = (false, false)) (blocked_run g key times).
Proof.
  intros Hk. induction times as [|now rest IH]; [done|]. cbn [blocked_run]. unfold Blocked.
  destruct (decide (TrimSpace key = "")); [by constructor|]. rewrite Hk. by constructor.
Qed.

Lemma gate_over armed cooldown reminder notice last times :
  ascending last times -> armed + cooldown <= last ->
  gate_answers armed cooldown reminder notice times = replicate (length times) (false, false).
Proof.
  revert last. induction times as [|now rest IH]; intros last Hasc Hover; [done|].
  destruct Hasc as [Hle Ha]. cbn [gate_answers length replicate]. rewrite decide_False by lia. f_equal. eapply IH; [done|lia].
Qed.

Lemma blocked_run_spec g key armed notice last times :
  TrimSpace key <> "" -> 0 < last -> ascending last times ->
  gate_items g !! key = Some (mkItem (armed + gate_cooldown g) (default zeroTime notice)) ->
  (forall t, notice = Some t -> 0 < t) ->
  blocked_run g key times = gate_answers armed (gate_cooldown g) (gate_reminder g) notice times.
Proof.
  intros Hkey. revert g notice last. induction times as [|now rest IH]; intros g notice last Hpos Hasc Hi Hn;
    [done|]. destruct Hasc as [Hle Hasc]. cbn [blocked_run gate_answers]. unfold Blocked.
  rewrite (decide_False (P := TrimSpace key = "")) by done. rewrite Hi. cbn [item_until item_lastNotice].
  unfold After. case_bool_decide as Hu; cbn [negb].
  2:{ rewrite (decide_False (P := now < _)) by lia. f_equal.
      rewrite (gate_over _ _ _ _ now) by (done || lia).
      assert (Hall := blocked_cleared (with_items g (delete key (gate_items g))) key rest).
      rewrite Forall_forall in Hall. apply list_eq_same_length with (n := length rest); [| |].
      - by rewrite length_replicate.
      - clear. generalize (with_items g (delete key (gate_items g))) as h.
        induction rest as [|t rest IHr]; intros h; [done|]. cbn [blocked_run].
        destruct (Blocked h t key). cbn. by rewrite IHr.
      - intros i x y Hlt Hx Hy. apply lookup_replicate in Hy as [-> _].
        apply Hall; [by apply lookup_delete_eq|]. by eapply list_elem_of_lookup_2. }
  rewrite (decide_True (P := now < _)) by lia.
  assert (Hcond : IsZero (default zeroTime notice) || bool_decide (gate_reminder g <= Sub now (default zeroTime notice))
    = match notice with None => true | Some t => bool_decide (gate_reminder g <= Sub now t) end).
  { destruct notice as [t|]; cbn [default from_option]; unfold id.
    - unfold IsZero, zeroTime. rewrite bool_decide_eq_false_2; [done|]. specialize (Hn t eq_refl). lia.
    - done. }
  rewrite Hcond. destruct (match notice with None => true | _ => _ end).
  - f_equal. set (g' := with_items g _).
    change (gate_cooldown g) with (gate_cooldown g'). change (gate_reminder g) with (gate_reminder g').
    apply (IH g' (Some now) now); [lia|done| |].
    + cbn [g' with_items gate_items gate_cooldown]. by rewrite lookup_insert_eq.
    + intros t [= <-]. lia.
  - f_equal. by eapply (IH g notice now); [lia|..].
Qed.

(** The gate.  Once armed, and until it is armed again or cleared, a key is
    blocked exactly while the cooldown lasts, for any ascending times of its
    messages; the first blocked message is answered with a notice and after that
    one at most per reminder interval. *)
Theorem gate_blocks_for_cooldown g key armed times :
  TrimSpace key <> "" -> 0 < armed -> ascending armed times ->
  blocked_run (Arm g armed key) key times =
  gate_answers armed (gate_cooldown g) (gate_reminder g) None times.
Proof.
  intros Hkey Hpos Hasc. unfold Arm. rewrite decide_False by done.
  eapply (blocked_run_spec (with_items _ _) key armed None armed); [done|done|done| |done].
  cbn. by rewrite lookup_insert_eq.
Qed.

(** ** Scenarios *)

Definition minutes (n : Z) : Time := of_Unix 1700000000 + n * Minute.

Definition dedupe_ops : list DedupeOp :=
  [OpSeen (minutes 0) true "m1"; OpSeen (minutes 1) true " m1 "; OpSeen (minutes 2) true "m2";
   OpFlush true; OpSeen (minutes 61) true "m1"].

Lemma dedupe_refines_spec_witness :
  clock_ok false 0 dedupe_ops /\
  (dedupe_run (NewMessageDeduper "f.json" Hour) FileMissing dedupe_ops).1.1 = [false; true; false; false].
Proof.
  assert (Hc : clock_ok false 0 dedupe_ops) by (vm_compute; repeat split; discriminate).
  split; [exact Hc|]. pose proof (dedupe_refines_spec "f.json" Hour FileMissing 0 dedupe_ops Hc) as E.
  etransitivity; [exact E|]. vm_compute. reflexivity.
Defined.

Definition first_ops : list DedupeOp := [OpSeen (minutes 0) true "m1"].

Lemma dedupe_survives_restart_witness :
  exists file, dedupe_run (NewMessageDeduper "f.json" Hour) FileMissing first_ops
    = ([false], (dedupe_run (NewMessageDeduper "f.json" Hour) FileMissing first_ops).1.2, file) /\
  (Seen (NewMessageDeduper "f.json" Hour) file (minutes 58) true "m1").2 = true.
Proof.
  exists (dedupe_run (NewMessageDeduper "f.json" Hour) FileMissing first_ops).2.
  split; [vm_compute; reflexivity|].
  destruct (dedupe_survives_restart "f.json" Hour FileMissing 0 first_ops [false]
    (dedupe_run (NewMessageDeduper "f.json" Hour) FileMissing first_ops).1.2
    (dedupe_run (NewMessageDeduper "f.json" Hour) FileMissing first_ops).2) as [_ H].
  - vm_compute. repeat split; discriminate.
  - vm_compute. discriminate.
  - vm_compute. reflexivity.
  - apply (H eq_refl) with (t := minutes 0); vm_compute; reflexivity || discriminate.
Defined.

Lemma gate_blocks_for_cooldown_witness :
  blocked_run (Arm (NewAuthFailureGate 0 0) 100 "slack") "slack" [101; 102; 100 + 16 * Second; 100 + 30 * Second]
  = [(true, true); (true, false); (true, true); (false, false)].
Proof.
  pose proof (gate_blocks_for_cooldown (NewAuthFailureGate 0 0) "slack" 100
    [101; 102; 100 + 16 * Second; 100 + 30 * Second]) as E.
  etransitivity; [apply E|vm_compute; reflexivity]; vm_compute; repeat split; discriminate.
Defined.
