(* ===== verification/ChannelPolicy.v ===== *)
(** * Who may talk to the agent, and in which session ([channels/policy.go],
    [channels/group_policy.go], [channels/thread_binding.go])

    The file of the thread bindings is its decoded payload; whether a write
    succeeds is an argument of the operations that write (the code ignores a
    failure). *)
From S2P Require Import Prelude GoLib GoText.
Import Str Text GoTime.
Local Open Scope string_scope.

(** ** Configuration *)

Record ChannelPolicyConfig := mkPC {
  DMPolicy : string;
  AllowFrom : list string;
  GroupPolicy : string;
  GroupAllowFrom : list string;
  RequireMention : bool;
  GroupSessionScope : string;
  ReplyInThread : bool;
  DedupeTTL : Duration;
  DedupeDir : string
}.

Record PolicyEnvelope := mkEnv {
  SenderID : string;
  ChatID : string;
  ChatType : string;
  ThreadID : string;
  MessageID : string;
  Mentioned : bool
}.

Record PolicyVerdict := mkVerdict { Allow : bool; Notify : string }.

Record SessionKeyOptions := mkSKO {
  AccountID : string;
  DirectPrefix : string;
  UseChatIDForDirect : bool
}.

Section Policy.
Context `{GoUnicode}.

Definition normalizePolicyValue (value defaultValue : string) (allowed : list string) : string :=
  let current := ToLower (TrimSpace value) in
  if decide (current ∈ allowed) then current else defaultValue.

Definition NormalizePolicyConfig (c : ChannelPolicyConfig) : ChannelPolicyConfig :=
  mkPC (normalizePolicyValue (DMPolicy c) "open" ["allowlist"; "pairing"]) (AllowFrom c)
    (normalizePolicyValue (GroupPolicy c) "open" ["allowlist"; "disabled"]) (GroupAllowFrom c)
    (RequireMention c)
    (normalizePolicyValue (GroupSessionScope c) "group"
       ["group_sender"; "group_thread"; "group_thread_sender"])
    (ReplyInThread c) (if decide (DedupeTTL c <= 0)%Z then (24 * Hour)%Z else DedupeTTL c)
    (DedupeDir c).

(** [None], or the text of the error. *)
Definition validatePolicyValue (path value : string) (allowed : list string) : option string :=
  if decide (TrimSpace value ∈ allowed) then None
  else Some (path +:+ " must be one of " +:+ Joins allowed ", ").

Definition or_else (a b : option string) : option string :=
  match a with Some e => Some e | None => b end.

Definition ValidatePolicyConfig (path : string) (c : ChannelPolicyConfig) : option string :=
  let c := NormalizePolicyConfig c in
  or_else (validatePolicyValue (path +:+ ".dm_policy") (DMPolicy c) ["open"; "allowlist"; "pairing"])
    (or_else
       (validatePolicyValue (path +:+ ".group_policy") (GroupPolicy c) ["open"; "allowlist"; "disabled"])
       (validatePolicyValue (path +:+ ".group_session_scope") (GroupSessionScope c)
          ["group"; "group_sender"; "group_thread"; "group_thread_sender"])).

(** ** Decisions *)

Definition normalizeAllowEntry (value : string) : string :=
  foldl TrimPrefix (TrimSpace (ToLower value))
    ["feishu:"; "slack:"; "discord:"; "telegram:"; "user:"; "open_id:"].

Definition SenderAllowed (allowlist : list string) (senderID : string) : bool :=
  existsb (fun entry => bool_decide (normalizeAllowEntry entry = "*") ||
             bool_decide (normalizeAllowEntry entry = normalizeAllowEntry senderID)) allowlist.

Definition isDirectChat (chatType : string) : bool :=
  bool_decide (ToLower (TrimSpace chatType) ∈ [""; "direct"; "dm"; "private"; "p2p"; "private_chat"]).

Definition EvaluatePolicy (c : ChannelPolicyConfig) (env : PolicyEnvelope) : PolicyVerdict :=
  let c := NormalizePolicyConfig c in
  if isDirectChat (ChatType env) then
    if decide (DMPolicy c = "allowlist") then mkVerdict (SenderAllowed (AllowFrom c) (SenderID env)) ""
    else if decide (DMPolicy c = "pairing") then
      let allow := SenderAllowed (AllowFrom c) (SenderID env) in
      mkVerdict allow (if allow then "" else "This direct message is gated by pairing policy.")
    else mkVerdict true ""
  else if decide (GroupPolicy c = "disabled") then mkVerdict false ""
  else if bool_decide (GroupPolicy c = "allowlist") && negb (SenderAllowed (GroupAllowFrom c) (SenderID env))
  then mkVerdict false ""
  else mkVerdict (negb (RequireMention c && negb (Mentioned env))) "".

(** [GroupPolicy.IsToolAllowed]; [None] is a nil policy. *)
Definition IsToolAllowed (gp : option (list string * list string)) (toolName : string) : bool :=
  match gp with
  | None => true
  | Some (allowedTools, deniedTools) =>
    if decide (toolName ∈ deniedTools) then false
    else if decide (allowedTools = []) then true else bool_decide (toolName ∈ allowedTools)
  end.

Definition SessionKeyForEnvelope (channel : string) (c : ChannelPolicyConfig) (env : PolicyEnvelope)
    (opts : SessionKeyOptions) : string :=
  let c := NormalizePolicyConfig c in
  let channel := if decide (TrimSpace channel = "") then "channel" else TrimSpace channel in
  let directPrefix := if decide (TrimSpace (DirectPrefix opts) = "") then "user"
                      else TrimSpace (DirectPrefix opts) in
  let account := TrimSpace (AccountID opts) in
  let prefix := if decide (account <> "" /\ account <> "default") then channel +:+ ":" +:+ account
                else channel in
  let chat := TrimSpace (ChatID env) in
  let sender := TrimSpace (SenderID env) in
  let thread := TrimSpace (ThreadID env) in
  let by_sender := prefix +:+ ":" +:+ chat +:+ ":sender:" +:+ sender in
  if isDirectChat (ChatType env) then
    if UseChatIDForDirect opts then prefix +:+ ":" +:+ chat
    else prefix +:+ ":" +:+ directPrefix +:+ ":" +:+ sender
  else if decide (GroupSessionScope c = "group_sender") then by_sender
  else if decide (GroupSessionScope c = "group_thread" /\ thread <> "") then
    prefix +:+ ":thread:" +:+ thread
  else if decide (GroupSessionScope c = "group_thread_sender") then
    if decide (thread = "") then by_sender
    else prefix +:+ ":thread:" +:+ thread +:+ ":sender:" +:+ sender
  else prefix +:+ ":" +:+ chat.

(** ** Facts *)

Lemma normalizePolicyValue_in value dflt allowed :
  normalizePolicyValue value dflt allowed ∈ dflt :: allowed.
Proof. unfold normalizePolicyValue. case_decide; set_solver. Qed.

(** A message reaches the agent exactly when the normalized policy lets it.
    In a direct chat the sender must be on the list, unless the policy is
    neither "allowlist" nor "pairing"; in a group the policy must not be
    "disabled", the sender must be on the group's list when there is an
    "allowlist" policy, and the agent must be mentioned when that is required.
    A notice is only sent to direct senders that pairing keeps out. *)
Theorem EvaluatePolicy_exact c env :
  let dm := ToLower (TrimSpace (DMPolicy c)) in
  let group := ToLower (TrimSpace (GroupPolicy c)) in
  (Allow (EvaluatePolicy c env) = true <->
   if isDirectChat (ChatType env)
   then dm ∈ ["allowlist"; "pairing"] -> SenderAllowed (AllowFrom c) (SenderID env) = true
   else group <> "disabled" /\
        (group = "allowlist" -> SenderAllowed (GroupAllowFrom c) (SenderID env) = true) /\
        (RequireMention c = true -> Mentioned env = true)) /\
  (Notify (EvaluatePolicy c env) <> "" <->
   isDirectChat (ChatType env) = true /\ dm = "pairing" /\ Allow (EvaluatePolicy c env) = false).
Proof.
  cbv zeta. unfold EvaluatePolicy, NormalizePolicyConfig, normalizePolicyValue.
  cbn [DMPolicy AllowFrom GroupPolicy GroupAllowFrom RequireMention].
  generalize (ToLower (TrimSpace (DMPolicy c))) as dm, (ToLower (TrimSpace (GroupPolicy c))) as group.
  intros dm group.
  destruct (isDirectChat (ChatType env)).
  - destruct (decide (dm ∈ ["allowlist"; "pairing"])) as [Hin|Hin].
    + assert (dm = "allowlist" \/ dm = "pairing") as [Hd|Hd] by set_solver; rewrite Hd; cbn;
        destruct (SenderAllowed (AllowFrom c) (SenderID env)); cbn; naive_solver.
    + cbn. naive_solver set_solver.
  - destruct (decide (group ∈ ["allowlist"; "disabled"])) as [Hin|Hin].
    + assert (group = "allowlist" \/ group = "disabled") as [Hd|Hd] by set_solver; rewrite Hd; cbn;
        destruct (SenderAllowed (GroupAllowFrom c) (SenderID env)), (RequireMention c), (Mentioned env);
        cbn; naive_solver.
    + cbn. destruct (RequireMention c), (Mentioned env); cbn; naive_solver set_solver.
Qed.

(** Validation looks at the normalized configuration only. *)
Lemma ValidatePolicyConfig_never path c : ValidatePolicyConfig path c = None.
Proof.
  unfold ValidatePolicyConfig, NormalizePolicyConfig. cbn [DMPolicy GroupPolicy GroupSessionScope].
  assert (Hv : forall p v d allowed, Forall (fun a => TrimSpace a = a) (d :: allowed) ->
    validatePolicyValue p (normalizePolicyValue v d allowed) (d :: allowed) = None).
  { intros p v d allowed Hf. pose proof (normalizePolicyValue_in v d allowed) as Hin.
    unfold validatePolicyValue. rewrite Forall_forall in Hf. rewrite (Hf _ Hin). by rewrite decide_True. }
  rewrite !Hv by (repeat constructor). done.
Qed.

(** The validation of a channel's configuration accepts everything, since it
    checks the values after they have been normalized to valid ones, and an
    unknown policy is normalized to the most permissive one: with a direct
    message policy that is not one of the documented ones, every sender is let
    in. *)
Theorem channel_validation_vacuous path c env :
  ValidatePolicyConfig path c = None /\
  (ToLower (TrimSpace (DMPolicy c)) ∉ ["open"; "allowlist"; "pairing"] ->
   isDirectChat (ChatType env) = true -> Allow (EvaluatePolicy c env) = true).
Proof.
  split; [apply ValidatePolicyConfig_never|]. intros Hn Hd.
  unfold EvaluatePolicy, NormalizePolicyConfig, normalizePolicyValue. rewrite Hd.
  cbn [DMPolicy]. rewrite (decide_False (P := _ ∈ ["allowlist"; "pairing"])) by (intros Hin; apply Hn; by right). done.
Qed.

(** In the "group_thread" scope the session key does not contain the chat,
    so two chats of a channel whose threads have the same identifier share one
    session. *)
Theorem thread_sessions_shared channel c env1 env2 opts :
  ToLower (TrimSpace (GroupSessionScope c)) = "group_thread" ->
  isDirectChat (ChatType env1) = false -> isDirectChat (ChatType env2) = false ->
  TrimSpace (ThreadID env1) <> "" -> TrimSpace (ThreadID env1) = TrimSpace (ThreadID env2) ->
  SessionKeyForEnvelope channel c env1 opts = SessionKeyForEnvelope channel c env2 opts.
Proof.
  intros Hs H1 H2 Hne Heq. unfold SessionKeyForEnvelope, NormalizePolicyConfig, normalizePolicyValue.
  cbn [GroupSessionScope]. rewrite Hs, H1, H2, <- Heq. cbv zeta.
  rewrite (decide_True (P := "group_thread" ∈ _)) by (right; left).
  rewrite !(decide_False (P := "group_thread" = "group_sender")) by done.
  by rewrite !(decide_True (P := "group_thread" = "group_thread" /\ _)).
Qed.
End Policy.

(** ** Thread bindings *)

(** The file: missing or not JSON, or the bindings. *)
Definition BindingFile : Type := option (gmap string string).

Record ThreadBinding := mkTB {
  tb_bindings : gmap string string;
  tb_path : string;
  tb_loaded : bool
}.

Definition NewThreadBinding : ThreadBinding := mkTB ∅ "" false.
Definition NewPersistentThreadBinding (path : string) : ThreadBinding := mkTB ∅ (TrimSpace path) false.

Definition tb_load (tb : ThreadBinding) (file : BindingFile) : ThreadBinding :=
  if decide (tb_loaded tb = true \/ tb_path tb = "") then mkTB (tb_bindings tb) (tb_path tb) true
  else
    match file with
    | None => mkTB (tb_bindings tb) (tb_path tb) true
    | Some raw =>
      mkTB (filter (fun kv => TrimSpace kv.1 <> "" /\ TrimSpace kv.2 <> "") raw ∪ tb_bindings tb)
        (tb_path tb) true
    end.

Definition tb_persist (tb : ThreadBinding) (file : BindingFile) (ok : bool) : BindingFile :=
  if decide (tb_path tb = "") then file else if ok then Some (tb_bindings tb) else file.

Definition binding_key (channel threadID : string) : string := channel +:+ ":" +:+ threadID.

Definition Bind (tb : ThreadBinding) (file : BindingFile) (ok : bool)
    (channel threadID sessionKey : string) : ThreadBinding * BindingFile :=
  let tb := tb_load tb file in
  let tb := mkTB (<[binding_key channel threadID := sessionKey]> (tb_bindings tb)) (tb_path tb) true in
  (tb, tb_persist tb file ok).

Definition ResolveThread (tb : ThreadBinding) (file : BindingFile) (channel threadID : string)
    : ThreadBinding * option string :=
  let tb := tb_load tb file in (tb, tb_bindings tb !! binding_key channel threadID).

Definition Unbind (tb : ThreadBinding) (file : BindingFile) (ok : bool) (channel threadID : string)
    : ThreadBinding * BindingFile :=
  let tb := tb_load tb file in
  let tb := mkTB (delete (binding_key channel threadID) (tb_bindings tb)) (tb_path tb) true in
  (tb, tb_persist tb file ok).

(** The bindings whose key starts with the channel and a colon, by thread. *)
Definition ListByChannel (tb : ThreadBinding) (file : BindingFile) (channel : string)
    : gmap string string :=
  let prefix := channel +:+ ":" in
  list_to_map (omap (fun kv =>
    if decide (String.length prefix < String.length kv.1)%nat then
      if String.prefix prefix kv.1
      then Some (String.substring (String.length prefix) (String.length kv.1 - String.length prefix) kv.1, kv.2)
      else None
    else None) (map_to_list (tb_bindings (tb_load tb file)))).

Lemma tb_load_loaded tb file : tb_loaded (tb_load tb file) = true /\ tb_path (tb_load tb file) = tb_path tb.
Proof. unfold tb_load. case_decide; [done|]. by destruct file. Qed.

Lemma tb_load_again tb file : tb_loaded tb = true -> tb_bindings (tb_load tb file) = tb_bindings tb.
Proof. intros Hl. unfold tb_load. by rewrite decide_True by (by left). Qed.

Lemma Resolve_after tb file channel threadID :
  tb_loaded tb = true ->
  (ResolveThread tb file channel threadID).2 = tb_bindings tb !! binding_key channel threadID.
Proof. intros Hl. unfold ResolveThread. cbn. by rewrite tb_load_again. Qed.

(** A key contains a colon, so it is never blank. *)
Lemma binding_key_trim channel threadID : TrimSpace (binding_key channel threadID) <> "".
Proof.
  apply (TrimSpace_keeps (Ascii.ascii_of_nat 58)); [done|]. unfold binding_key.
  induction channel as [|a channel IH]; [by left|]. by right.
Qed.

(** Binding a thread.  After a thread is bound it resolves to its session,
    every thread with another key resolves as before, and unbinding it removes
    it; when the file could be written, a new process that reads the file
    resolves the thread to the same session. *)
Theorem binding_roundtrip tb file ok channel threadID sessionKey :
  let r := Bind tb file ok channel threadID sessionKey in
  (forall f, (ResolveThread r.1 f channel threadID).2 = Some sessionKey) /\
  (forall f c t, binding_key c t <> binding_key channel threadID ->
     (ResolveThread r.1 f c t).2 = (ResolveThread tb file c t).2) /\
  (forall f f' ok', (ResolveThread (Unbind r.1 f ok' channel threadID).1 f' channel threadID).2 = None) /\
  (forall path, ok = true -> tb_path tb = TrimSpace path -> TrimSpace path <> "" ->
     TrimSpace sessionKey <> "" ->
     (ResolveThread (NewPersistentThreadBinding path) r.2 channel threadID).2 = Some sessionKey).
Proof.
  cbv zeta. unfold Bind. cbn [fst snd]. set (k := binding_key channel threadID). split_and!.
  - intros f. rewrite Resolve_after by done. cbn. by rewrite lookup_insert_eq.
  - intros f c t Hne. rewrite Resolve_after by done. cbn. by rewrite lookup_insert_ne.
  - intros f f' ok'. unfold Unbind. cbn [fst]. rewrite Resolve_after by done. cbn. apply lookup_delete_eq.
  - intros path -> Hpath Hp Hs. unfold ResolveThread. cbn [snd]. fold k. unfold tb_persist. cbn [tb_path tb_bindings].
    destruct (tb_load_loaded tb file) as [_ ->]. rewrite Hpath, (decide_False (P := TrimSpace path = "")) by done.
    unfold tb_load at 1. cbn [NewPersistentThreadBinding tb_loaded tb_path].
    rewrite decide_False by (intros [?|?]; done). cbn [tb_bindings].
    apply lookup_union_Some_l, map_lookup_filter_Some. rewrite lookup_insert_eq.
    split; [done|]. split; [apply binding_key_trim|done].
Qed.

(** Threads of different channels can share a binding: the key joins the
    channel and the thread with a colon, so binding thread [z] of channel [x:y]
    also binds thread [y:z] of channel [x]. *)
Theorem binding_collision tb file ok f x y z sessionKey :
  (ResolveThread (Bind tb file ok (x +:+ ":" +:+ y) z sessionKey).1 f x (y +:+ ":" +:+ z)).2
  = Some sessionKey.
Proof.
  unfold Bind. cbn [fst]. rewrite Resolve_after by done. cbn [tb_bindings].
  assert (E : binding_key x (y +:+ ":" +:+ z) = binding_key (x +:+ ":" +:+ y) z).
  { unfold binding_key. induction x as [|a x IH]; [done|].
    exact (f_equal (String a) IH). }
  rewrite E. apply lookup_insert_eq.
Qed.

(** ** Scenarios *)
Section Scenario.
#[local] Existing Instance ascii_unicode.

Definition disabled_dm : ChannelPolicyConfig := mkPC "disabled" [] "" [] false "group_thread" false 0 "".

Lemma channel_validation_vacuous_witness :
  ValidatePolicyConfig "channels.slack" disabled_dm = None /\
  Allow (EvaluatePolicy disabled_dm (mkEnv "U1" "C1" "dm" "" "" false)) = true.
Proof.
  destruct (channel_validation_vacuous "channels.slack" disabled_dm
    (mkEnv "U1" "C1" "dm" "" "" false)) as [H1 H2].
  split; [exact H1|]. apply H2; [|vm_compute; reflexivity].
  change (ToLower (TrimSpace (DMPolicy disabled_dm))) with "disabled".
  rewrite !elem_of_cons, elem_of_nil. intuition discriminate.
Defined.

Lemma thread_sessions_shared_witness :
  SessionKeyForEnvelope "slack" disabled_dm (mkEnv "U1" "C1" "group" "17" "" true) (mkSKO "" "" false) =
  SessionKeyForEnvelope "slack" disabled_dm (mkEnv "U2" "C2" "group" "17" "" true) (mkSKO "" "" false).
Proof.
  apply (thread_sessions_shared "slack" disabled_dm (mkEnv "U1" "C1" "group" "17" "" true)
    (mkEnv "U2" "C2" "group" "17" "" true) (mkSKO "" "" false)); vm_compute; reflexivity || discriminate.
Defined.
End Scenario.
