(* ===== verification/DevicePayload.v ===== *)
(** * Device credentials on the wire ([deviceauth/payload.go], [deviceauth/token.go])

    The payload that a device sends with a request, and its tokens.  Random
    bytes are arguments; the digest of a token is the class [GoSha256]. *)
From S2P Require Import Prelude GoLib GoText Normalize ExecutionTask.
From Stdlib Require Import Ascii String.
From stdpp Require Import sorting.
Import Str GoTime.
Local Open Scope string_scope.

(** ** Roles and payloads *)

Definition validRoles : list string := ["operator"; "node"; "automation"; "viewer"].
Definition IsValidRole (r : string) : bool := bool_decide (r ∈ validRoles).

Record AuthPayload := mkPayload {
  AP_Version : Z;
  AP_DeviceID : string;
  AP_ClientID : string;
  AP_ClientMode : string;
  AP_Role : string;
  AP_Scopes : list string;
  AP_SignedAtMs : Z;
  AP_Token : string;
  AP_Nonce : string;
  AP_Platform : string;
  AP_DeviceFamily : string
}.

(** ** Scopes *)

Definition comma : ascii := ascii_of_nat 44.
Definition bar : ascii := ascii_of_nat 124.

(** Split, trim, drop blanks and repetitions, sort. *)
Definition normalizeScopes (raw : string) : list string :=
  if decide (raw = "") then [] else merge_sort String.le (dedupe_loop ∅ (SplitByte comma raw)).

(** Elements equal to their predecessor are dropped. *)
Fixpoint drop_repeats (prev : option string) (l : list string) : list string :=
  match l with
  | [] => []
  | s :: rest =>
    if decide (prev = Some s) then drop_repeats (Some s) rest else s :: drop_repeats (Some s) rest
  end.

Definition sorted_scopes (scopes : list string) : list string :=
  drop_repeats None (merge_sort String.le scopes).

Definition normalizeScopesString (scopes : list string) : string :=
  Joins (sorted_scopes scopes) (String comma "").

(** ** Encoding and decoding *)

Definition payload_fields (p : AuthPayload) : list string :=
  [AP_DeviceID p; AP_ClientID p; AP_ClientMode p; AP_Role p; normalizeScopesString (AP_Scopes p);
   FormatInt (AP_SignedAtMs p); AP_Token p; AP_Nonce p].

Definition EncodePayloadV2 (p : AuthPayload) : string :=
  Joins ("v2" :: payload_fields p) (String bar "").

Definition EncodePayloadV3 (p : AuthPayload) : string :=
  Joins ("v3" :: payload_fields p ++ [AP_Platform p; AP_DeviceFamily p]) (String bar "").

(** Which errors decoding gives. *)
Inductive PayloadError :=
| ErrUnsupportedVersion (version : string)
| ErrFieldCount (version : Z) (got : nat)
| ErrSignedAt (version : Z) (field : string).

Definition decodeV2 (fields : list string) : AuthPayload + PayloadError :=
  match fields with
  | [_; device; client; mode; role; scopes; signedAt; token; nonce] =>
    match ParseInt signedAt with
    | None => inr (ErrSignedAt 2 signedAt)
    | Some ms => inl (mkPayload 2 device client mode role (normalizeScopes scopes) ms token nonce "" "")
    end
  | _ => inr (ErrFieldCount 2 (length fields))
  end.

Definition decodeV3 (fields : list string) : AuthPayload + PayloadError :=
  match fields with
  | [_; device; client; mode; role; scopes; signedAt; token; nonce; platform; family] =>
    match ParseInt signedAt with
    | None => inr (ErrSignedAt 3 signedAt)
    | Some ms =>
      inl (mkPayload 3 device client mode role (normalizeScopes scopes) ms token nonce platform family)
    end
  | _ => inr (ErrFieldCount 3 (length fields))
  end.

Definition DecodePayload (raw : string) : AuthPayload + PayloadError :=
  let fields := SplitByte bar raw in
  let version := default "" (head fields) in
  if decide (version = "v2") then decodeV2 fields
  else if decide (version = "v3") then decodeV3 fields
  else inr (ErrUnsupportedVersion version).

(** ** Validation *)

Definition payloadMaxAgeMs : Z := 300000.

(** [None]: valid at the time [nowMs]. *)
Definition ValidatePayload (nowMs : Z) (p : AuthPayload) : option string :=
  let age := GoInt.wrap64 (nowMs - AP_SignedAtMs p) in
  if decide (AP_DeviceID p = "") then Some "payload missing device_id"
  else if negb (IsValidRole (AP_Role p)) then Some "payload has invalid role"
  else if decide (AP_Nonce p = "") then Some "payload missing nonce"
  else if decide (payloadMaxAgeMs < age)%Z then Some "payload is stale"
  else if decide (age < 0)%Z then Some "payload signed_at_ms is in the future"
  else None.

(** ** Tokens *)

Class GoSha256 := { Sum256_hex : string -> string }.

Definition HashToken `{GoSha256} (token : string) : string := Sum256_hex token.

Definition hex_digit (n : N) : ascii :=
  ascii_of_N (if decide (n < 10)%N then 48 + n else 87 + n)%N.

(** [hex.EncodeToString]. *)
Fixpoint hex_encode (b : bytes) : string :=
  match b with
  | [] => ""
  | a :: rest =>
    String (hex_digit (N_of_ascii a / 16)) (String (hex_digit (N_of_ascii a mod 16)) (hex_encode rest))
  end.

Definition tokenPrefix : string := "hc_".
Definition tokenLength : nat := 32.
Definition tokenHexLength : nat := 64.

(** [GenerateToken] with the random bytes as an argument. *)
Definition GenerateToken (random : bytes) : string := tokenPrefix +:+ hex_encode random.

Definition isHexChar (a : ascii) : bool := byte_in 48 57 a || byte_in 97 102 a || byte_in 65 70 a.

Definition drop3 (s : string) : string :=
  match s with String _ (String _ (String _ rest)) => rest | _ => "" end.

(** [None]: the token is well formed. *)
Definition ValidateToken (token : string) : option string :=
  if negb (String.prefix tokenPrefix token) then Some "token missing required prefix"
  else
    let hexPart := drop3 token in
    if decide (String.length hexPart <> tokenHexLength) then Some "token hex part length"
    else if forallb isHexChar (list_ascii_of_string hexPart) then None
    else Some "token contains non-hex character".

(** [fmt.Sprintf] of the sixteen bytes of a version 4 UUID. *)
Definition GenerateDeviceID (random : bytes) : string :=
  let at_ i := N_of_ascii (nth i random "000"%char) in
  let set i := if decide (i = 6%nat) then N.lor (N.land (at_ 6%nat) 15) 64
               else if decide (i = 8%nat) then N.lor (N.land (at_ 8%nat) 63) 128 else at_ i in
  let hex lo hi := hex_encode ((fun i => ascii_of_N (set i)) <$> seq lo (hi - lo)) in
  hex 0%nat 4%nat +:+ "-" +:+ hex 4%nat 6%nat +:+ "-" +:+ hex 6%nat 8%nat +:+ "-" +:+
  hex 8%nat 10%nat +:+ "-" +:+ hex 10%nat 16%nat.

(** ** Round trips *)

Lemma lacks_Joins c sep parts :
  c <> sep -> Forall (lacks c) parts -> lacks c (Joins parts (String sep "")).
Proof.
  intros Hne. unfold Joins. induction parts as [|part [|part' parts] IH]; intros Hf.
  - by intros [].
  - by inversion Hf.
  - apply Forall_cons in Hf as [Hp Hf].
    change (String.concat (String sep "") (part :: part' :: parts))
      with (part +:+ (String sep "" +:+ String.concat (String sep "") (part' :: parts))).
    apply lacks_app. split; [done|]. apply lacks_app. split; [|by apply IH].
    intros [H|[]]. by apply Hne.
Qed.

Lemma decimal_lacks c n : byte_in 48 57 c = false -> lacks c (decimal n).
Proof.
  intros Hc. unfold lacks, decimal. induction (N.to_uint n) as [|u IH|u IH|u IH|u IH|u IH|u IH|u IH|u IH|u IH|u IH];
    cbn; [tauto|..]; intros [<-|Hin]; done.
Qed.

Lemma FormatInt_lacks z : lacks bar (FormatInt z).
Proof.
  unfold FormatInt. case_decide; [apply lacks_app; split; [by intros [|[]]|]|]; by apply decimal_lacks.
Qed.

Lemma drop_repeats_sub prev l x : x ∈ drop_repeats prev l -> x ∈ l.
Proof.
  revert prev. induction l as [|s rest IH]; intros prev; cbn [drop_repeats]; [done|].
  case_decide; rewrite ?elem_of_cons; naive_solver.
Qed.

Lemma drop_repeats_covers prev l x : x ∈ l -> prev <> Some x -> x ∈ drop_repeats prev l.
Proof.
  revert prev. induction l as [|s rest IH]; intros prev Hx Hp; cbn [drop_repeats]; [done|].
  destruct (decide (x = s)) as [->|Hne]; [rewrite decide_False by done; by left|].
  apply elem_of_cons in Hx as [?|Hx]; [done|].
  case_decide; [|right]; apply IH; try done; congruence.
Qed.

(** On a sorted list the result is sorted without repetitions. *)
Lemma drop_repeats_sorted prev l :
  StronglySorted String.le l -> (forall p, prev = Some p -> Forall (String.le p) l) ->
  StronglySorted String.le (drop_repeats prev l) /\ NoDup (drop_repeats prev l) /\
  (forall p, prev = Some p -> p ∉ drop_repeats prev l).
Proof.
  intros Hs. revert prev. induction Hs as [|s rest Hs IH Hle]; intros prev Hp; cbn [drop_repeats].
  { split_and!; [constructor|constructor|]. by intros p _ ?%elem_of_nil. }
  destruct (IH (Some s)) as (Hs' & Hn & Hns); [by intros p [= <-]|].
  case_decide as Hd; [split_and!; [done|done|]; intros p Hp'; apply Hns; congruence|].
  split_and!.
  - constructor; [done|]. rewrite !Forall_forall in *. intros x Hx. apply Hle. by eapply drop_repeats_sub.
  - constructor; [by apply Hns|done].
  - intros p Hp'. rewrite elem_of_cons. intros [->|Hin]; [congruence|].
    assert (p ∈ rest) by (by eapply drop_repeats_sub).
    assert (String.le p s) by (specialize (Hp p Hp'); by inversion Hp).
    assert (String.le s p) by (rewrite Forall_forall in Hle; by apply Hle).
    assert (p = s) by (by apply (anti_symm String.le)). congruence.
Qed.

Lemma sorted_scopes_spec scopes :
  StronglySorted String.le (sorted_scopes scopes) /\ NoDup (sorted_scopes scopes) /\
  (forall x, x ∈ sorted_scopes scopes <-> x ∈ scopes).
Proof.
  unfold sorted_scopes.
  destruct (drop_repeats_sorted None (merge_sort String.le scopes)) as (Hs & Hn & _);
    [apply (StronglySorted_merge_sort String.le)|done|].
  split_and!; [done|done|]. intros x.
  rewrite <- (merge_sort_Permutation String.le scopes) at 2.
  split; [apply drop_repeats_sub|]. intros Hx. by apply drop_repeats_covers.
Qed.

(** A scope that survives the wire. *)
Definition scope_ok (s : string) : Prop := Trimmed s /\ s <> "" /\ lacks comma s /\ lacks bar s.

Lemma scopes_roundtrip scopes :
  Forall scope_ok scopes -> normalizeScopes (normalizeScopesString scopes) = sorted_scopes scopes.
Proof.
  intros Hf. destruct (sorted_scopes_spec scopes) as (Hs & Hn & He).
  assert (Hf' : Forall scope_ok (sorted_scopes scopes)).
  { rewrite Forall_forall in *. intros x Hx. by apply Hf, He. }
  unfold normalizeScopes, normalizeScopesString. case_decide as Hempty.
  - destruct (sorted_scopes scopes) as [|s rest]; [done|]. exfalso.
    apply Forall_cons in Hf' as [(_ & Hne & _) _]. unfold Joins in Hempty. by destruct s, rest.
  - rewrite SplitByte_Joins.
    + apply normalizeExecutionStrings_id; [|done]. split; [|done].
      eapply Forall_impl; [done|]. by intros s (? & ? & _).
    + intros E. apply Hempty. by rewrite E.
    + eapply Forall_impl; [done|]. by intros s (_ & _ & ? & _).
Qed.

(** The fields of a payload that can be sent. *)
Definition payload_ok (p : AuthPayload) : Prop :=
  Forall (lacks bar) [AP_DeviceID p; AP_ClientID p; AP_ClientMode p; AP_Role p; AP_Token p;
    AP_Nonce p; AP_Platform p; AP_DeviceFamily p] /\
  Forall scope_ok (AP_Scopes p) /\ GoInt.in_int64 (AP_SignedAtMs p).

Lemma payload_fields_lack p : payload_ok p -> Forall (lacks bar) (payload_fields p).
Proof.
  intros (Hf & Hs & _). rewrite !Forall_cons in Hf. destruct_and! Hf.
  unfold payload_fields. rewrite !Forall_cons. split_and!; try done; [|apply FormatInt_lacks].
  apply lacks_Joins; [done|]. rewrite Forall_forall in *. intros x Hx.
  apply (sorted_scopes_spec (AP_Scopes p)) in Hx. by apply Hs in Hx as (_ & _ & _ & ?).
Qed.

Lemma version_lacks : lacks bar "v2" /\ lacks bar "v3".
Proof. split; apply (bool_decide_unpack _); vm_compute; done. Qed.

Lemma DecodePayload_V3 p : payload_ok p ->
  DecodePayload (EncodePayloadV3 p) =
  inl (mkPayload 3 (AP_DeviceID p) (AP_ClientID p) (AP_ClientMode p) (AP_Role p)
    (sorted_scopes (AP_Scopes p)) (AP_SignedAtMs p) (AP_Token p) (AP_Nonce p) (AP_Platform p)
    (AP_DeviceFamily p)).
Proof.
  intros Hok. pose proof (payload_fields_lack p Hok) as Hl. destruct Hok as (Hf & Hs & Hz).
  unfold DecodePayload, EncodePayloadV3. rewrite SplitByte_Joins; [|done|].
  - cbn [head default from_option decodeV3 payload_fields app id].
    rewrite scopes_roundtrip, ParseInt_FormatInt by done. done.
  - apply Forall_cons. split; [apply version_lacks|]. apply Forall_app. split; [done|].
    rewrite !Forall_cons in *. tauto.
Qed.

(** C37: A payload survives the wire.  If no field contains the separator, the
    scopes are trimmed, non-empty and without commas, and the time fits into 64
    bits, decoding an encoded payload gives the same payload, with its scopes
    sorted and without repetitions; version 2 drops the two fields that it does
    not have. *)
Theorem payload_roundtrip p :
  payload_ok p ->
  let wire v platform family :=
    mkPayload v (AP_DeviceID p) (AP_ClientID p) (AP_ClientMode p) (AP_Role p)
      (sorted_scopes (AP_Scopes p)) (AP_SignedAtMs p) (AP_Token p) (AP_Nonce p) platform family in
  DecodePayload (EncodePayloadV3 p) = inl (wire 3%Z (AP_Platform p) (AP_DeviceFamily p)) /\
  DecodePayload (EncodePayloadV2 p) = inl (wire 2%Z "" "") /\
  StronglySorted String.le (sorted_scopes (AP_Scopes p)) /\ NoDup (sorted_scopes (AP_Scopes p)) /\
  (forall x, x ∈ sorted_scopes (AP_Scopes p) <-> x ∈ AP_Scopes p).
Proof.
  intros Hok. cbv zeta. split_and!; [by apply DecodePayload_V3| |apply sorted_scopes_spec..].
  pose proof (payload_fields_lack p Hok) as Hl. destruct Hok as (Hf & Hs & Hz).
  unfold DecodePayload, EncodePayloadV2. rewrite SplitByte_Joins; [|done|].
  - cbn [head default from_option decodeV2 payload_fields app id].
    rewrite scopes_roundtrip, ParseInt_FormatInt by done. done.
  - apply Forall_cons. split; [apply version_lacks|done].
Qed.

(** The value of a lower-case hexadecimal digit. *)
Definition hex_value (a : ascii) : option N :=
  if byte_in 48 57 a then Some (N_of_ascii a - 48)%N
  else if byte_in 97 102 a then Some (N_of_ascii a - 87)%N else None.

Fixpoint hex_decode (s : string) : option bytes :=
  match s with
  | "" => Some []
  | String hi (String lo rest) =>
    match hex_value hi, hex_value lo, hex_decode rest with
    | Some h, Some l, Some b => Some (ascii_of_N (h * 16 + l) :: b)
    | _, _, _ => None
    end
  | _ => None
  end.

Lemma hex_digit_value n :
  (n < 16)%N -> isHexChar (hex_digit n) = true /\ hex_value (hex_digit n) = Some n.
Proof.
  intros Hn. assert (Hin : In n (List.map N.of_nat (List.seq 0 16))).
  { apply in_map_iff. exists (N.to_nat n). split; [lia|]. apply in_seq. lia. }
  revert Hin. cbn. intros Hin. repeat destruct Hin as [<-|Hin]; try done; split; reflexivity.
Qed.

Lemma hex_byte a :
  let hi := hex_digit (N_of_ascii a / 16) in
  let lo := hex_digit (N_of_ascii a mod 16) in
  isHexChar hi = true /\ isHexChar lo = true /\
  exists h l, hex_value hi = Some h /\ hex_value lo = Some l /\ ascii_of_N (h * 16 + l) = a.
Proof.
  cbv zeta. pose proof (N_ascii_bounded a) as Hb.
  destruct (hex_digit_value (N_of_ascii a / 16)) as [H1 V1]; [apply N.Div0.div_lt_upper_bound; lia|].
  destruct (hex_digit_value (N_of_ascii a mod 16)) as [H2 V2]; [by apply N.mod_lt|].
  split_and!; [done|done|]. do 2 eexists. split_and!; [done|done|].
  rewrite (N.mul_comm _ 16), <- N.div_mod by done. apply ascii_N_embedding.
Qed.

Lemma hex_roundtrip b :
  hex_decode (hex_encode b) = Some b /\ String.length (hex_encode b) = (2 * length b)%nat /\
  forallb isHexChar (list_ascii_of_string (hex_encode b)) = true.
Proof.
  induction b as [|a b (IH1 & IH2 & IH3)]; [done|].
  destruct (hex_byte a) as (H1 & H2 & h & l & Hh & Hl & E). cbn [hex_encode hex_decode].
  rewrite Hh, Hl, IH1, E. split_and!; [done| |].
  - cbn [String.length length]. lia.
  - cbn [list_ascii_of_string forallb]. by rewrite H1, H2.
Qed.

(** Every generated token passes the format check and carries all of its
    random bytes: for 32 bytes the check accepts the token, decoding its
    hexadecimal part gives the bytes back, so different bytes give different
    tokens; with any other number of bytes the check rejects it. *)
Theorem token_roundtrip random :
  let token := GenerateToken random in
  hex_decode (drop3 token) = Some random /\
  (ValidateToken token = None <-> length random = tokenLength) /\
  (forall random', GenerateToken random' = token -> random' = random).
Proof.
  destruct (hex_roundtrip random) as (H1 & H2 & H3). cbv zeta.
  assert (Hd : forall r, drop3 (GenerateToken r) = hex_encode r) by done.
  assert (Hp : String.prefix tokenPrefix (GenerateToken random) = true) by (unfold GenerateToken; generalize (hex_encode random); intros []; reflexivity).
  split_and!.
  - by rewrite Hd.
  - unfold ValidateToken. rewrite Hp, Hd. cbn [negb]. unfold tokenHexLength, tokenLength.
    rewrite H2, H3. case_decide; split; intros; (done || lia).
  - intros random' E. apply (f_equal drop3) in E. rewrite !Hd in E.
    destruct (hex_roundtrip random') as (H1' & _). rewrite E in H1'. congruence.
Qed.

(** ** A scenario *)

Definition phone : AuthPayload :=
  mkPayload 0 "dev-1" "app" "mobile" "operator" ["write"; "read"; "read"] 1700000000000 "hc_ab" "n1" "ios" "mobile".

Lemma payload_roundtrip_witness :
  DecodePayload (EncodePayloadV3 phone) =
  inl (mkPayload 3 "dev-1" "app" "mobile" "operator" ["read"; "write"] 1700000000000 "hc_ab" "n1" "ios" "mobile").
Proof.
  destruct (payload_roundtrip phone) as [E _].
  - assert (Hd : forall c s, bool_decide (lacks c s) = true -> lacks c s)
      by (intros c s Hb; exact (bool_decide_eq_true_1 _ Hb)).
    split; [|split].
    + rewrite !Forall_cons, Forall_nil. repeat split; apply Hd; vm_compute; reflexivity.
    + change (AP_Scopes phone) with ["write"; "read"; "read"].
      rewrite !Forall_cons, Forall_nil. unfold scope_ok.
      repeat split; try (apply Hd; vm_compute; reflexivity); try (vm_compute; reflexivity); discriminate.
    + vm_compute. split; discriminate.
  - etransitivity; [exact E|]. vm_compute. reflexivity.
Defined.
