(* ===== verification/DevicePairing.v ===== *)
(** * Devices: store, pairing and authentication ([deviceauth/store.go],
    [deviceauth/pairing.go], [deviceauth/middleware.go])

    The clock, the random numbers of the pairing codes and whether the store's
    file can be written are arguments.  The store's maps of pointers become maps
    of values: an operation that writes through a pointer updates the map. *)
From S2P Require Import Prelude GoLib GoText RunStore DevicePayload.
From stdpp Require Import relations.
Import Str GoTime.
Local Open Scope Z_scope.

(** ** The store *)

Record DeviceIdentity := mkDev {
  Dev_ID : string;
  Dev_Name : string;
  Dev_Platform : string;
  Dev_Family : string;
  Dev_CreatedAt : Time;
  Dev_LastSeenAt : Time;
  Dev_Trusted : bool
}.

Record DeviceToken := mkTok {
  Tok_Token : string;
  Tok_DeviceID : string;
  Tok_Role : string;
  Tok_Scopes : list string;
  Tok_IssuedAt : Time;
  Tok_ExpiresAt : Time;
  Tok_UpdatedAt : Time
}.

Record DeviceStore := mkStore {
  st_DeviceID : string;
  st_Tokens : gmap string DeviceToken;
  st_Devices : gmap string DeviceIdentity
}.

Definition NewStore : DeviceStore := mkStore "" ∅ ∅.

Inductive StoreError :=
| ErrDeviceIDRequired
| ErrInvalidRole
| ErrNotFound
| ErrSave.

(** [saveLocked]; [ok] says whether the file could be written.  The change in
    memory stays when it could not. *)
Definition saved (ok : bool) : option StoreError := if ok then None else Some ErrSave.

Definition tokenMapKey (deviceID role : string) : string := TrimSpace deviceID +:+ ":" +:+ TrimSpace role.

Definition GetToken (s : DeviceStore) (deviceID role : string) : option DeviceToken :=
  st_Tokens s !! tokenMapKey deviceID role.

Definition SetToken (s : DeviceStore) (now : Time) (ok : bool) (t : DeviceToken)
    : DeviceStore * option StoreError :=
  let id := TrimSpace (Tok_DeviceID t) in
  let role := TrimSpace (Tok_Role t) in
  if decide (id = "") then (s, Some ErrDeviceIDRequired)
  else if negb (IsValidRole role) then (s, Some ErrInvalidRole)
  else
    let t := mkTok (Tok_Token t) id role (Tok_Scopes t) (Tok_IssuedAt t) (Tok_ExpiresAt t) now in
    (mkStore (st_DeviceID s) (<[tokenMapKey id role := t]> (st_Tokens s)) (st_Devices s), saved ok).

Definition DeleteToken (s : DeviceStore) (ok : bool) (deviceID role : string)
    : DeviceStore * option StoreError :=
  let key := tokenMapKey deviceID role in
  match st_Tokens s !! key with
  | None => (s, Some ErrNotFound)
  | Some _ => (mkStore (st_DeviceID s) (delete key (st_Tokens s)) (st_Devices s), saved ok)
  end.

Definition or_blank (s fallback : string) : string := if decide (TrimSpace s = "") then fallback else s.

Definition or_zero (t fallback : Time) : Time := if IsZero t then fallback else t.

(** The registered identity, filled in from the existing one. *)
Definition registered (now : Time) (existing : option DeviceIdentity) (d : DeviceIdentity)
    : DeviceIdentity :=
  let d := match existing with
           | None => d
           | Some e =>
             mkDev (Dev_ID d) (or_blank (Dev_Name d) (Dev_Name e)) (or_blank (Dev_Platform d) (Dev_Platform e))
               (or_blank (Dev_Family d) (Dev_Family e)) (or_zero (Dev_CreatedAt d) (Dev_CreatedAt e))
               (or_zero (Dev_LastSeenAt d) (Dev_LastSeenAt e)) (Dev_Trusted d || Dev_Trusted e)
           end in
  let created := or_zero (Dev_CreatedAt d) now in
  mkDev (Dev_ID d) (Dev_Name d) (Dev_Platform d) (Dev_Family d) created
    (or_zero (Dev_LastSeenAt d) created) (Dev_Trusted d).

Definition put_device (s : DeviceStore) (id : string) (d : DeviceIdentity) : DeviceStore :=
  mkStore (st_DeviceID s) (st_Tokens s) (<[id := d]> (st_Devices s)).

Definition RegisterDevice (s : DeviceStore) (now : Time) (ok : bool) (d : DeviceIdentity)
    : DeviceStore * option StoreError :=
  let id := TrimSpace (Dev_ID d) in
  let d := mkDev id (Dev_Name d) (Dev_Platform d) (Dev_Family d) (Dev_CreatedAt d) (Dev_LastSeenAt d)
             (Dev_Trusted d) in
  if decide (id = "") then (s, Some ErrDeviceIDRequired)
  else (put_device s id (registered now (st_Devices s !! id) d), saved ok).

Definition GetDevice (s : DeviceStore) (deviceID : string) : option DeviceIdentity :=
  st_Devices s !! deviceID.

(** An update of a registered device. *)
Definition with_device (s : DeviceStore) (ok : bool) (deviceID : string)
    (f : DeviceIdentity -> DeviceIdentity) : DeviceStore * option StoreError :=
  match st_Devices s !! deviceID with
  | None => (s, Some ErrNotFound)
  | Some d => (put_device s deviceID (f d), saved ok)
  end.

Definition UpdateLastSeen (s : DeviceStore) (now : Time) (ok : bool) (deviceID : string) :=
  with_device s ok deviceID (fun d =>
    mkDev (Dev_ID d) (Dev_Name d) (Dev_Platform d) (Dev_Family d) (Dev_CreatedAt d) now (Dev_Trusted d)).

Definition set_trusted (trusted : bool) (d : DeviceIdentity) : DeviceIdentity :=
  mkDev (Dev_ID d) (Dev_Name d) (Dev_Platform d) (Dev_Family d) (Dev_CreatedAt d) (Dev_LastSeenAt d) trusted.

Definition TrustDevice (s : DeviceStore) (ok : bool) (deviceID : string) :=
  with_device s ok deviceID (set_trusted true).

Definition RevokeDevice (s : DeviceStore) (ok : bool) (deviceID : string) :=
  with_device s ok deviceID (set_trusted false).

(** Tokens read from the file: blank devices and unknown roles are dropped; an
    old file has the role as its key. *)
Definition normalize_token (key : string) (t : DeviceToken) : option (string * DeviceToken) :=
  let id := TrimSpace (Tok_DeviceID t) in
  if decide (id = "") then None
  else
    let role := if IsValidRole (Tok_Role t) then Tok_Role t
                else if IsValidRole (TrimSpace key) then TrimSpace key else Tok_Role t in
    if IsValidRole role then
      Some (tokenMapKey id role,
        mkTok (Tok_Token t) id role (Tok_Scopes t) (Tok_IssuedAt t) (Tok_ExpiresAt t) (Tok_UpdatedAt t))
    else None.

(** The entries in the order of the range over the map. *)
Definition normalizeTokenMap (order : list (string * DeviceToken)) : gmap string DeviceToken :=
  foldl (fun out kt => match normalize_token kt.1 kt.2 with
                       | Some (key, t) => <[key := t]> out
                       | None => out
                       end) ∅ order.

(** ** Authentication *)

Inductive AuthError :=
| ErrMissingHeader
| ErrDecode (e : PayloadError)
| ErrPayload (reason : string)
| ErrDeviceNotRegistered
| ErrDeviceNotTrusted
| ErrTokenNotFound
| ErrTokenMismatch
| ErrTokenExpired.

Record DeviceContext := mkDC {
  DC_DeviceID : string;
  DC_Role : string;
  DC_Scopes : list string;
  DC_Platform : string;
  DC_DeviceFamily : string;
  DC_Trusted : bool
}.

Section Auth.
Context `{GoSha256}.

Definition validateToken (s : DeviceStore) (now : Time) (p : AuthPayload) : option AuthError :=
  match GetToken s (AP_DeviceID p) (AP_Role p) with
  | None => Some ErrTokenNotFound
  | Some stored =>
    if decide (HashToken (Tok_Token stored) <> HashToken (AP_Token p)) then Some ErrTokenMismatch
    else if negb (IsZero (Tok_ExpiresAt stored)) && Before (Tok_ExpiresAt stored) now
    then Some ErrTokenExpired else None
  end.

(** [nowMs] is the clock in milliseconds of the Unix epoch, [now] the time. *)
Definition AuthenticateRequest (s : DeviceStore) (nowMs : Z) (now : Time) (ok : bool) (raw : string)
    : DeviceStore * (DeviceContext + AuthError) :=
  if decide (raw = "") then (s, inr ErrMissingHeader)
  else
    match DecodePayload raw with
    | inr e => (s, inr (ErrDecode e))
    | inl p =>
      match ValidatePayload nowMs p with
      | Some reason => (s, inr (ErrPayload reason))
      | None =>
        match GetDevice s (AP_DeviceID p) with
        | None => (s, inr ErrDeviceNotRegistered)
        | Some device =>
          if negb (Dev_Trusted device) then (s, inr ErrDeviceNotTrusted)
          else
            match validateToken s now p with
            | Some e => (s, inr e)
            | None =>
              ((UpdateLastSeen s now ok (AP_DeviceID p)).1,
               inl (mkDC (AP_DeviceID p) (AP_Role p) (AP_Scopes p) (AP_Platform p) (AP_DeviceFamily p)
                      (Dev_Trusted device)))
            end
        end
      end
    end.

(** ** Facts of the authentication *)

(** The credentials of a payload are those of the store. *)
Definition credentials (s : DeviceStore) (now : Time) (p : AuthPayload) : Prop :=
  (exists d, GetDevice s (AP_DeviceID p) = Some d /\ Dev_Trusted d = true) /\
  exists t, GetToken s (AP_DeviceID p) (AP_Role p) = Some t /\
    HashToken (Tok_Token t) = HashToken (AP_Token p) /\
    (Tok_ExpiresAt t = zeroTime \/ now <= Tok_ExpiresAt t).

Lemma validateToken_None s now p :
  validateToken s now p = None <->
  exists t, GetToken s (AP_DeviceID p) (AP_Role p) = Some t /\
    HashToken (Tok_Token t) = HashToken (AP_Token p) /\
    (Tok_ExpiresAt t = zeroTime \/ now <= Tok_ExpiresAt t).
Proof.
  unfold validateToken. destruct (GetToken _ _ _) as [t|]; [|naive_solver].
  case_decide as Hh; [naive_solver|].
  unfold IsZero, Before. destruct (decide (Tok_ExpiresAt t = zeroTime)) as [Hz|Hz].
  - rewrite bool_decide_eq_true_2 by done. cbn. naive_solver.
  - rewrite (bool_decide_eq_false_2 (_ = zeroTime)) by done. cbn [negb andb].
    case_bool_decide; naive_solver lia.
Qed.

(** A payload that is complete and fresh: it names a device, one of the four
    roles and a nonce, and the clock is between the time it was signed at and five minutes
    after that, both in milliseconds and their difference in 64 bits. *)
Definition complete_and_fresh (nowMs : Z) (p : AuthPayload) : Prop :=
  AP_DeviceID p <> "" /\ AP_Role p ∈ ["operator"; "node"; "automation"; "viewer"] /\ AP_Nonce p <> "" /\
  0 <= GoInt.wrap64 (nowMs - AP_SignedAtMs p) <= 5 * 60 * 1000.

Lemma ValidatePayload_None nowMs p : ValidatePayload nowMs p = None <-> complete_and_fresh nowMs p.
Proof.
  unfold ValidatePayload, complete_and_fresh, payloadMaxAgeMs.
  assert (IsValidRole (AP_Role p) = true <-> AP_Role p ∈ ["operator"; "node"; "automation"; "viewer"]) as <-
    by apply bool_decide_eq_true.
  cbv zeta. generalize (GoInt.wrap64 (nowMs - AP_SignedAtMs p)). intros age.
  case_decide; [naive_solver|]. destruct (IsValidRole _); cbn [negb]; [|naive_solver].
  case_decide; [naive_solver|]. case_decide; [naive_solver lia|]. case_decide; naive_solver lia.
Qed.

(** A device that was seen at a time. *)
Definition seen_at (now : Time) (d : DeviceIdentity) : DeviceIdentity :=
  mkDev (Dev_ID d) (Dev_Name d) (Dev_Platform d) (Dev_Family d) (Dev_CreatedAt d) now (Dev_Trusted d).

(** C12: Authentication is exact.  A request is authenticated exactly when its
    header decodes to a payload with a device, a known role and a nonce, signed
    at most five minutes ago and not in the future, whose device is registered
    and trusted and whose token has the digest of the stored, unexpired token of
    that device and role.  The answer then carries the device, role, scopes,
    platform and family of the payload, and the store becomes the old one with the
    time at which this device was last seen, and nothing else, changed; a rejected
    request leaves the store as it is. *)
Theorem authentication_exact s nowMs now ok raw :
  let r := AuthenticateRequest s nowMs now ok raw in
  (forall dc, r.2 = inl dc <->
     raw <> "" /\ exists p, DecodePayload raw = inl p /\ complete_and_fresh nowMs p /\
       credentials s now p /\
       dc = mkDC (AP_DeviceID p) (AP_Role p) (AP_Scopes p) (AP_Platform p) (AP_DeviceFamily p) true) /\
  (forall dc, r.2 = inl dc -> exists d, st_Devices s !! DC_DeviceID dc = Some d /\
     r.1 = mkStore (st_DeviceID s) (st_Tokens s) (<[DC_DeviceID dc := seen_at now d]> (st_Devices s))) /\
  (forall e, r.2 = inr e -> r.1 = s).
Proof.
  cbv zeta. setoid_rewrite <- ValidatePayload_None. unfold AuthenticateRequest, credentials.
  destruct (decide (raw = "")) as [Hr|Hr].
  { split_and!; [|done|done]. intros dc. split; [done|]. by intros [? _]. }
  destruct (DecodePayload raw) as [p|e].
  2:{ split_and!; [|done|done]. intros dc. split; [done|]. by intros (_ & p & ? & _). }
  destruct (ValidatePayload nowMs p) as [reason|] eqn:Hval.
  { split_and!; [|done|done]. intros dc. split; [done|].
    intros (_ & p' & Hp & Hv & _). congruence. }
  destruct (GetDevice s (AP_DeviceID p)) as [device|] eqn:Hd.
  2:{ split_and!; [|done|done]. intros dc. split; [done|].
      intros (_ & p' & Hp & _ & [(d & Hd' & _) _] & _). congruence. }
  destruct (Dev_Trusted device) eqn:Ht; cbn [negb].
  2:{ split_and!; [|done|done]. intros dc. split; [done|].
      intros (_ & p' & Hp & _ & [(d & Hd' & Ht') _] & _). congruence. }
  pose proof (validateToken_None s now p) as Hv.
  destruct (validateToken s now p) as [e|].
  { split_and!; [|done|done]. intros dc. split; [done|].
    intros (_ & p' & Hp & _ & [_ Htok] & _). injection Hp as <-. by apply Hv in Htok. }
  destruct Hv as [Hv _]. specialize (Hv eq_refl). cbn [fst snd].
  unfold UpdateLastSeen, with_device. unfold GetDevice in *. rewrite Hd. cbn [fst].
  split_and!; [| |done].
  - intros dc. split.
    + intros [= <-]. split; [done|]. exists p. split_and!; [done|done|by exists device|done|done].
    + intros (_ & p' & [= <-] & _ & _ & ->). done.
  - intros dc [= <-]. exists device. by split.
Qed.

(** What a device may do is what it asks for.  A well-formed payload with
    valid credentials is authenticated with exactly the scopes that it lists,
    whatever scopes the stored token was issued with; and since the nonce is not
    remembered, the same header is accepted again. *)
Theorem scopes_come_from_payload s nowMs now ok p :
  payload_ok p -> ValidatePayload nowMs p = None -> credentials s now p ->
  let r := AuthenticateRequest s nowMs now ok (EncodePayloadV3 p) in
  let dc := mkDC (AP_DeviceID p) (AP_Role p) (sorted_scopes (AP_Scopes p)) (AP_Platform p)
              (AP_DeviceFamily p) true in
  r.2 = inl dc /\ (AuthenticateRequest r.1 nowMs now ok (EncodePayloadV3 p)).2 = inl dc.
Proof.
  intros Hok Hval Hcred. cbv zeta.
  assert (Hdec : DecodePayload (EncodePayloadV3 p) =
    inl (mkPayload 3 (AP_DeviceID p) (AP_ClientID p) (AP_ClientMode p) (AP_Role p)
      (sorted_scopes (AP_Scopes p)) (AP_SignedAtMs p) (AP_Token p) (AP_Nonce p) (AP_Platform p)
      (AP_DeviceFamily p))) by (by apply DecodePayload_V3).
  assert (Hraw : EncodePayloadV3 p <> "") by done.
  assert (Hauth : forall s0, credentials s0 now p ->
    (AuthenticateRequest s0 nowMs now ok (EncodePayloadV3 p)).2 =
    inl (mkDC (AP_DeviceID p) (AP_Role p) (sorted_scopes (AP_Scopes p)) (AP_Platform p) (AP_DeviceFamily p) true)).
  { intros s0 [(d & Hd & Ht) Htok]. unfold AuthenticateRequest.
    rewrite decide_False, Hdec by done.
    change (ValidatePayload nowMs (mkPayload _ _ _ _ _ _ _ _ _ _ _)) with (ValidatePayload nowMs p).
    rewrite Hval. cbn [AP_DeviceID]. rewrite Hd, Ht. cbn [negb].
    change (validateToken s0 now (mkPayload _ _ _ _ _ _ _ _ _ _ _)) with (validateToken s0 now p).
    apply validateToken_None in Htok. by rewrite Htok. }
  split; [by apply Hauth|]. apply Hauth.
  destruct Hcred as [(d & Hd & Ht) (t & Htok & Hrest)]. unfold AuthenticateRequest.
  rewrite decide_False, Hdec by done.
  change (ValidatePayload nowMs (mkPayload _ _ _ _ _ _ _ _ _ _ _)) with (ValidatePayload nowMs p).
  rewrite Hval. cbn [AP_DeviceID]. rewrite Hd, Ht. cbn [negb].
  change (validateToken s now (mkPayload _ _ _ _ _ _ _ _ _ _ _)) with (validateToken s now p).
  rewrite (proj2 (validateToken_None s now p)) by (by exists t). cbn [fst].
  unfold UpdateLastSeen, with_device. unfold GetDevice in Hd. rewrite Hd. cbn [fst].
  split; [|by exists t]. eexists. unfold GetDevice. cbn [put_device st_Devices].
  rewrite lookup_insert_eq. split; [reflexivity|done].
Qed.
End Auth.

(** ** Pairing *)

Definition PairingPending : string := "pending".
Definition PairingVerified : string := "verified".
Definition PairingRevoked : string := "revoked".
Definition PairingExpired : string := "expired".

Record PairingRecord := mkPair {
  PR_DeviceID : string;
  PR_Channel : string;
  PR_Code : string;
  PR_Status : string;
  PR_CreatedAt : Time;
  PR_ExpiresAt : Time;
  PR_VerifiedAt : Time
}.

Record PairingManager := mkPM {
  pm_records : gmap string PairingRecord;
  pm_byCode : gmap string string;
  pm_store : DeviceStore
}.

Definition NewPairingManager (s : DeviceStore) : PairingManager := mkPM ∅ ∅ s.

Inductive PairingError :=
| ErrPairingMaxPending
| ErrPairingExpired
| ErrPairingNotPending
| ErrPairingNotFound
| ErrCodeGeneration
| ErrRegister (e : StoreError).

Definition pairingCodeExpiry : Duration := 10 * Minute.
Definition pairingMaxPending : nat := 100.

Definition pairingKey (channel deviceID : string) : string := channel +:+ ":" +:+ deviceID.

Definition pendingCount (m : PairingManager) : nat :=
  size (filter (fun kr => PR_Status kr.2 = PairingPending) (pm_records m)).

(** At most ten random numbers below a million are tried; [None] is a failure of
    the random source. *)
Fixpoint generate_code (byCode : gmap string string) (random : list (option N)) : option string :=
  match random with
  | [] | None :: _ => None
  | Some n :: rest =>
    let code := fmt_06d n in
    if decide (byCode !! code = None) then Some code else generate_code byCode rest
  end.

Definition generateCode (byCode : gmap string string) (random : list (option N)) : option string :=
  generate_code byCode (take 10 random).

Definition InitiatePairing (m : PairingManager) (now : Time) (random : list (option N))
    (channel deviceID : string) : PairingManager * (PairingRecord + PairingError) :=
  let key := pairingKey channel deviceID in
  let existing := pm_records m !! key in
  if decide (existing = None /\ (pairingMaxPending <= pendingCount m)%nat) then
    (m, inr ErrPairingMaxPending)
  else
    let byCode := match existing with Some e => delete (PR_Code e) (pm_byCode m) | None => pm_byCode m end in
    match generateCode byCode random with
    | None => (mkPM (pm_records m) byCode (pm_store m), inr ErrCodeGeneration)
    | Some code =>
      let rec := mkPair deviceID channel code PairingPending now (Add now pairingCodeExpiry) zeroTime in
      (mkPM (<[key := rec]> (pm_records m)) (<[code := key]> byCode) (pm_store m), inl rec)
    end.

Definition set_status (r : PairingRecord) (status : string) (verifiedAt : Time) : PairingRecord :=
  mkPair (PR_DeviceID r) (PR_Channel r) (PR_Code r) status (PR_CreatedAt r) (PR_ExpiresAt r) verifiedAt.

(** [now] is read for the expiry, [at_] for the time of the verification; [ok]
    says whether the store's file could be written. *)
Definition VerifyCode (m : PairingManager) (now at_ : Time) (ok : bool) (code : string)
    : PairingManager * (PairingRecord + PairingError) :=
  match pm_byCode m !! code with
  | None => (m, inr ErrPairingNotFound)
  | Some key =>
    let byCode := delete code (pm_byCode m) in
    match pm_records m !! key with
    | None => (mkPM (pm_records m) byCode (pm_store m), inr ErrPairingNotFound)
    | Some rec =>
      if decide (PR_Status rec <> PairingPending) then (m, inr ErrPairingNotPending)
      else if After now (PR_ExpiresAt rec) then
        (mkPM (<[key := set_status rec PairingExpired (PR_VerifiedAt rec)]> (pm_records m)) byCode
           (pm_store m), inr ErrPairingExpired)
      else
        let rec' := set_status rec PairingVerified at_ in
        let (store, err) := RegisterDevice (pm_store m) at_ ok
                              (mkDev (PR_DeviceID rec) "" "" "" at_ zeroTime true) in
        (mkPM (<[key := rec']> (pm_records m)) byCode store,
         match err with None => inl rec' | Some e => inr (ErrRegister e) end)
    end
  end.

Definition RevokePairing (m : PairingManager) (channel deviceID : string)
    : PairingManager * option PairingError :=
  let key := pairingKey channel deviceID in
  match pm_records m !! key with
  | None => (m, Some ErrPairingNotFound)
  | Some rec =>
    (mkPM (<[key := set_status rec PairingRevoked (PR_VerifiedAt rec)]> (pm_records m))
       (delete (PR_Code rec) (pm_byCode m)) (pm_store m), None)
  end.

Definition IsVerified (m : PairingManager) (channel deviceID : string) : bool :=
  match pm_records m !! pairingKey channel deviceID with
  | Some rec => bool_decide (PR_Status rec = PairingVerified)
  | None => false
  end.

Definition GetByCode (m : PairingManager) (code : string) : option PairingRecord :=
  key ← pm_byCode m !! code; pm_records m !! key.

(** A pending record whose code has expired. *)
Definition reapable (now : Time) (r : PairingRecord) : Prop :=
  PR_Status r = PairingPending /\ PR_ExpiresAt r < now.

#[export] Instance reapable_dec now r : Decision (reapable now r).
Proof. unfold reapable. apply _. Defined.

Definition reapExpired (m : PairingManager) (now : Time) : PairingManager :=
  let expired := (fun kr => PR_Code kr.2) <$> map_to_list (filter (fun kr => reapable now kr.2) (pm_records m)) in
  mkPM (filter (fun kr => ~ reapable now kr.2) (pm_records m))
    (filter (fun ck => ck.1 ∉ expired) (pm_byCode m)) (pm_store m).

(** ** Codes are used once *)

Inductive pairing_step : PairingManager -> PairingManager -> Prop :=
| step_initiate m now random channel deviceID :
    pairing_step m (InitiatePairing m now random channel deviceID).1
| step_verify m now at_ ok code : pairing_step m (VerifyCode m now at_ ok code).1
| step_revoke m channel deviceID : pairing_step m (RevokePairing m channel deviceID).1
| step_reap m now : pairing_step m (reapExpired m now).

(** Every indexed code is the code of a pending record. *)
Definition pairing_ok (m : PairingManager) : Prop :=
  (forall code key, pm_byCode m !! code = Some key ->
     exists rec, pm_records m !! key = Some rec /\ PR_Code rec = code /\ PR_Status rec = PairingPending) /\
  (forall key rec, pm_records m !! key = Some rec -> key = pairingKey (PR_Channel rec) (PR_DeviceID rec)).

(** Replacing the record of a key keeps the index right when no code leads to
    that key any more. *)
Lemma index_update (records : gmap string PairingRecord) (byCode : gmap string string) key rec' :
  (forall code k, byCode !! code = Some k -> exists rec, records !! k = Some rec /\ PR_Code rec = code /\
     PR_Status rec = PairingPending) ->
  (forall code, byCode !! code <> Some key) ->
  forall code k, byCode !! code = Some k ->
  exists rec, <[key := rec']> records !! k = Some rec /\ PR_Code rec = code /\ PR_Status rec = PairingPending.
Proof.
  intros Hi Hno code k Hk. destruct (Hi _ _ Hk) as (rec & Hr & Hc & Hs).
  exists rec. rewrite lookup_insert_ne; [done|]. intros ->. by apply (Hno code).
Qed.

(** Deleting a record's code leaves no code that leads to the record. *)
Lemma index_delete m key rec code :
  pairing_ok m -> pm_records m !! key = Some rec -> delete (PR_Code rec) (pm_byCode m) !! code <> Some key.
Proof.
  intros [Hi _] Hr Hd. apply lookup_delete_Some in Hd as [Hne Hk].
  destruct (Hi _ _ Hk) as (rec' & Hr' & Hc & _). congruence.
Qed.

Lemma index_subset m code0 : pairing_ok m ->
  forall code k, delete code0 (pm_byCode m) !! code = Some k ->
  exists rec, pm_records m !! k = Some rec /\ PR_Code rec = code /\ PR_Status rec = PairingPending.
Proof. intros [Hi _] code k Hk. apply lookup_delete_Some in Hk as [_ Hk]. by apply Hi. Qed.

Lemma generateCode_fresh byCode random code : generateCode byCode random = Some code -> byCode !! code = None.
Proof.
  unfold generateCode. induction (take 10 random) as [|[n|] rest IH]; cbn [generate_code]; [done| |done].
  case_decide; [by intros [= <-]|done].
Qed.

Lemma Initiate_ok m now random channel deviceID :
  pairing_ok m -> pairing_ok (InitiatePairing m now random channel deviceID).1.
Proof.
  intros Hok. unfold InitiatePairing. case_decide as Hmax; [done|].
  set (key := pairingKey channel deviceID).
  set (byCode := match pm_records m !! key with Some e => _ | None => _ end).
  assert (Hsub : forall code k, byCode !! code = Some k ->
    exists rec, pm_records m !! k = Some rec /\ PR_Code rec = code /\ PR_Status rec = PairingPending).
  { unfold byCode. destruct (pm_records m !! key); [by apply index_subset|apply Hok]. }
  assert (Hno : forall code, byCode !! code <> Some key).
  { intros code Hc. unfold byCode in Hc. destruct (pm_records m !! key) as [e|] eqn:He.
    - by eapply index_delete.
    - apply Hok in Hc as (rec & Hr & _). congruence. }
  destruct (generateCode byCode random) as [code|]; cbn [fst]; [|split; [done|apply Hok]].
  split; cbn [pm_byCode pm_records].
  - intros c k [[<- <-]|[Hne Hk]]%lookup_insert_Some.
    + eexists. by rewrite lookup_insert_eq.
    + by eapply index_update.
  - intros k rec [[<- <-]|[_ Hr]]%lookup_insert_Some; [done|by apply Hok].
Qed.

Lemma Verify_ok m now at_ ok code : pairing_ok m -> pairing_ok (VerifyCode m now at_ ok code).1.
Proof.
  intros Hok. unfold VerifyCode. destruct (pm_byCode m !! code) as [key|] eqn:Hc; [|done].
  destruct (pm_records m !! key) as [rec|] eqn:Hr.
  2:{ split; cbn [fst pm_byCode pm_records]; [by apply index_subset|apply Hok]. }
  destruct (decide (PR_Status rec <> PairingPending)); [done|].
  assert (Hcode : PR_Code rec = code).
  { destruct Hok as [Hi _]. destruct (Hi _ _ Hc) as (rec' & Hr' & Hc' & _). congruence. }
  assert (Hupd : forall rec', PR_Channel rec' = PR_Channel rec -> PR_DeviceID rec' = PR_DeviceID rec ->
    forall store, pairing_ok (mkPM (<[key := rec']> (pm_records m)) (delete code (pm_byCode m)) store)).
  { intros rec' H1 H2 store. split; cbn [pm_byCode pm_records].
    - apply index_update; [by apply index_subset|]. intros c. rewrite <- Hcode. by eapply index_delete.
    - intros k r [[<- <-]|[_ Hr']]%lookup_insert_Some; [|by apply Hok]. rewrite H1, H2. by apply Hok. }
  destruct (After now (PR_ExpiresAt rec)); [by apply Hupd|].
  destruct (RegisterDevice _ _ _ _) as [store err]. by apply Hupd.
Qed.

Lemma Revoke_ok m channel deviceID : pairing_ok m -> pairing_ok (RevokePairing m channel deviceID).1.
Proof.
  intros Hok. unfold RevokePairing. destruct (pm_records m !! _) as [rec|] eqn:Hr; [|done].
  split; cbn [fst pm_byCode pm_records].
  - apply index_update; [by apply index_subset|]. intros c. by eapply index_delete.
  - intros k r [[<- <-]|[_ Hr']]%lookup_insert_Some; [|by apply Hok].
    apply (proj2 Hok) in Hr. cbn. done.
Qed.

Lemma Reap_ok m now : pairing_ok m -> pairing_ok (reapExpired m now).
Proof.
  intros [Hi Hk]. unfold reapExpired. split; cbn [pm_byCode pm_records].
  - intros code key [Hc Hne]%map_lookup_filter_Some. cbn [fst] in Hne.
    destruct (Hi _ _ Hc) as (rec & Hr & Hcode & Hs). exists rec. split; [|done].
    apply map_lookup_filter_Some. split; [done|]. cbn [snd]. intros Hre. apply Hne.
    apply list_elem_of_fmap. exists (key, rec). split; [done|]. apply elem_of_map_to_list.
    by apply map_lookup_filter_Some.
  - intros key rec [Hr _]%map_lookup_filter_Some. by apply Hk.
Qed.

Lemma pairing_reachable_ok s m : rtc pairing_step (NewPairingManager s) m -> pairing_ok m.
Proof.
  intros Hr. assert (Hinit : pairing_ok (NewPairingManager s)) by (split; intros ? ?; cbn; by rewrite lookup_empty).
  revert Hinit. induction Hr as [m|m1 m2 m3 Hstep _ IH]; [done|]. intros Hok. apply IH.
  destruct Hstep; auto using Initiate_ok, Verify_ok, Revoke_ok, Reap_ok.
Qed.

(** C8: Pairing codes are sound and work once.  In every reachable state each
    code of the index is the code of a pending record.  If a code verifies, it
    was indexed, its record was pending and not expired; afterwards the pairing
    is verified, its device is registered as trusted, and verifying the code
    again fails.  A verification that fails before the registration leaves the
    store of devices alone. *)
Theorem pairing_codes_once s m now at_ ok code m' res :
  rtc pairing_step (NewPairingManager s) m ->
  VerifyCode m now at_ ok code = (m', res) ->
  (forall c key, pm_byCode m !! c = Some key -> exists rec, pm_records m !! key = Some rec /\
     PR_Code rec = c /\ PR_Status rec = PairingPending) /\
  match res with
  | inl rec' =>
    (exists rec, GetByCode m code = Some rec /\ PR_Status rec = PairingPending /\ now <= PR_ExpiresAt rec /\
       rec' = set_status rec PairingVerified at_) /\
    IsVerified m' (PR_Channel rec') (PR_DeviceID rec') = true /\
    (exists d, GetDevice (pm_store m') (TrimSpace (PR_DeviceID rec')) = Some d /\ Dev_Trusted d = true) /\
    (forall now' at' ok', (VerifyCode m' now' at' ok' code).2 = inr ErrPairingNotFound)
  | inr (ErrRegister _) => True
  | inr _ => pm_store m' = pm_store m
  end.
Proof.
  intros Hr Hv. apply pairing_reachable_ok in Hr as Hok. destruct Hok as [Hi Hk]. split; [done|].
  unfold VerifyCode in Hv. destruct (pm_byCode m !! code) as [key|] eqn:Hc; [|by simplify_eq].
  destruct (Hi _ _ Hc) as (rec & Hrec & Hcode & Hs). rewrite Hrec in Hv.
  rewrite decide_False in Hv by (intros Hn; by apply Hn).
  destruct (After now (PR_ExpiresAt rec)) eqn:Hexp; [by apply (inj2 pair) in Hv as [<- <-]|].
  unfold RegisterDevice in Hv. cbn [Dev_ID] in Hv.
  case_decide as Hid; [by apply (inj2 pair) in Hv as [<- <-]|].
  destruct ok; cbn [saved] in Hv; [|by apply (inj2 pair) in Hv as [<- <-]]. apply (inj2 pair) in Hv as [<- <-].
  cbn [pm_store set_status PR_Channel PR_DeviceID]. split_and!.
  - exists rec. unfold GetByCode. rewrite Hc. cbn. split_and!; [done|done| |done].
    unfold After in Hexp. bool_prop. lia.
  - unfold IsVerified. cbn [pm_records]. rewrite <- (Hk _ _ Hrec), lookup_insert_eq. done.
  - eexists. unfold GetDevice. cbn [put_device st_Devices]. rewrite lookup_insert_eq.
    split; [done|]. unfold registered. by destruct (st_Devices _ !! _).
  - intros now' at' ok'. unfold VerifyCode. cbn [pm_byCode]. by rewrite lookup_delete_eq.
Qed.

(** ** Scenarios *)
Section Scenario.

Definition identity_sha : GoSha256 := {| Sum256_hex s := s |}.
#[local] Existing Instance identity_sha.

Definition first_code : PairingManager :=
  (InitiatePairing (NewPairingManager NewStore) 1000 [Some 42%N] "web" "phone").1.

Definition paired : PairingManager := (VerifyCode first_code 2000 2000 true "000042").1.

Lemma paired_reachable : rtc pairing_step (NewPairingManager NewStore) paired.
Proof. eapply rtc_l; [apply (step_initiate _ 1000 [Some 42%N] "web" "phone")|]. apply rtc_once, step_verify. Qed.

Lemma pairing_codes_once_witness :
  exists rec, (VerifyCode first_code 2000 2000 true "000042").2 = inl rec /\
    (VerifyCode paired 2001 2001 true "000042").2 = inr ErrPairingNotFound.
Proof.
  assert (Hr : rtc pairing_step (NewPairingManager NewStore) first_code)
    by (apply rtc_once, (step_initiate _ 1000 [Some 42%N] "web" "phone")).
  pose proof (pairing_codes_once NewStore first_code 2000 2000 true "000042" paired
    (VerifyCode first_code 2000 2000 true "000042").2 Hr (surjective_pairing _)) as [_ H].
  destruct (VerifyCode first_code 2000 2000 true "000042").2 as [rec|e] eqn:E; [|vm_compute in E; discriminate].
  exists rec. split; [reflexivity|]. apply H.
Defined.

(** Three things that pairing gets wrong.  A verified record keeps its code,
    and the code may be given to another device: revoking the first pairing then
    removes the code of the second, whose pending, unexpired code is no longer
    found.  Starting a pairing again resets a verified one, although only
    pending ones are to be replaced.  And when the store cannot be written, the
    verification fails but the pairing counts as verified. *)
Theorem pairing_code_lost :
  let tablet := (InitiatePairing paired 3000 [Some 42%N] "web" "tablet").1 in
  (VerifyCode tablet 4000 4000 true "000042").2
    = inl (mkPair "tablet" "web" "000042" PairingVerified 3000 (3000 + pairingCodeExpiry) 4000) /\
  (VerifyCode (RevokePairing tablet "web" "phone").1 4000 4000 true "000042").2 = inr ErrPairingNotFound /\
  (IsVerified paired "web" "phone" = true /\
   IsVerified (InitiatePairing paired 3000 [Some 43%N] "web" "phone").1 "web" "phone" = false) /\
  ((VerifyCode first_code 2000 2000 false "000042").2 = inr (ErrRegister ErrSave) /\
   IsVerified (VerifyCode first_code 2000 2000 false "000042").1 "web" "phone" = true).
Proof. vm_compute. repeat split; reflexivity. Qed.

(** A device whose token was issued for reading only. *)
Definition trusted_phone : DeviceStore :=
  (SetToken (RegisterDevice NewStore 1000 true (mkDev "dev-1" "" "" "" 1000 1000 true)).1 1000 true
     (mkTok "hc_ab" "dev-1" "operator" ["read"] 1000 zeroTime 1000)).1.

Lemma scopes_come_from_payload_witness :
  exists dc, (AuthenticateRequest trusted_phone 1700000000000 2000 true (EncodePayloadV3 phone)).2 = inl dc /\
    DC_Scopes dc = ["read"; "write"].
Proof.
  destruct (scopes_come_from_payload trusted_phone 1700000000000 2000 true phone) as [E _].
  - assert (Hd : forall c s, bool_decide (lacks c s) = true -> lacks c s)
      by (intros c s Hb; exact (bool_decide_eq_true_1 _ Hb)).
    split; [|split].
    + rewrite !Forall_cons, Forall_nil. repeat split; apply Hd; vm_compute; reflexivity.
    + change (AP_Scopes phone) with ["write"; "read"; "read"].
      rewrite !Forall_cons, Forall_nil. unfold scope_ok.
      repeat split; try (apply Hd; vm_compute; reflexivity); try (vm_compute; reflexivity); discriminate.
    + vm_compute. split; discriminate.
  - vm_compute. reflexivity.
  - split; eexists; (split; [vm_compute; reflexivity|]); [reflexivity|].
    split; [reflexivity|]. left. reflexivity.
  - eexists. split; [exact E|]. vm_compute. reflexivity.
Defined.
End Scenario.
