(* ===== verification/ResultModel.v ===== *)
(** * Results of tools and automations ([resultmodel/types.go],
    [resultmodel/automation.go])

    The canonical records for what a tool call or an automated run produced,
    and their normalization.  Maps of dynamically typed values are association
    lists; cloning a slice, a map or a pointer is the identity on values, so
    the clone functions have no counterpart.  A nil pointer is [None], a nil
    slice or map the empty list. *)
From S2P Require Import Prelude GoLib GoText TextTrim.
From Stdlib Require Import Ascii String.
Import Str Text GoAny.

Definition summaryMaxChars : nat := 240.

Definition ToolResultOK : string := "ok".
Definition ToolResultPartial : string := "partial".
Definition ToolResultError : string := "error".
Definition ResultActionFollowUp : string := "followup".

Record ResultBlock := mkBlock {
  RB_Kind : string; RB_Title : string; RB_Content : string; RB_Data : Any }.

Record ResultArtifact := mkArtifact {
  RA_Kind : string; RA_Name : string; RA_URI : string; RA_ContentType : string;
  RA_SizeBytes : Z; RA_PreviewText : string; RA_Metadata : list (string * Any) }.

Record ResultAction := mkAction {
  Act_Kind : string; Act_Label : string; Act_Target : string;
  Act_Params : list (string * Any) }.

Record ResultVerification := mkVerification { RV_Status : string; RV_Summary : string }.

Record ResultError := mkResultError {
  RE_Code : string; RE_Message : string; RE_Retryable : bool;
  RE_Metadata : list (string * Any) }.

(** [&ResultError{Message: msg}]. *)
Definition plainError (msg : string) : ResultError := mkResultError "" msg false [].

Record ToolResult := mkToolResult {
  TR_ToolName : string;
  TR_ToolCallID : string;
  TR_Status : string;
  TR_TranscriptText : string;
  TR_Summary : string;
  TR_Structured : list (string * Any);
  TR_Blocks : list ResultBlock;
  TR_Artifacts : list ResultArtifact;
  TR_Actions : list ResultAction;
  TR_Verification : option ResultVerification;
  TR_Error : option ResultError;
  TR_Metadata : list (string * Any);
  TR_Content : string;
  TR_ArtifactURI : string
}.

Record AutomationResult := mkAutomationResult {
  AR_Source : string;
  AR_Status : string;
  AR_RunID : string;
  AR_RunStatus : string;
  AR_Summary : string;
  AR_Output : string;
  AR_Fingerprint : string;
  AR_Error : option ResultError;
  AR_Verification : option ResultVerification;
  AR_Artifacts : list ResultArtifact;
  AR_Actions : list ResultAction;
  AR_Metadata : list (string * Any)
}.

(** ** Shortening a text *)

(** [compact]; [text[:maxChars]] cuts bytes. *)
Definition compact (text : string) (maxChars : nat) : string :=
  let text := TrimSpace text in
  if decide (text = "") then "" else
  let text := Joins (Fields text) " " in
  if decide (maxChars = 0 \/ String.length text <= maxChars)%nat then text
  else TrimSpace (substring 0 maxChars text) +:+ "...".

Lemma compact_trimmed text n : Trimmed (compact text n).
Proof. unfold compact. repeat case_decide; auto with golib; done. Qed.

Lemma TrimSpace_length s : (String.length (TrimSpace s) <= String.length s)%nat.
Proof.
  assert (Hl : forall l, String.length (string_of_list_ascii l) = List.length l).
  { induction l; cbn; congruence. }
  rewrite <- (string_of_list_ascii_of_string s) at 2. unfold TrimSpace. rewrite !Hl.
  set (l := list_ascii_of_string s). unfold trim_bytes.
  destruct (trim_right_prefix (trim_left l)) as [k Hk].
  destruct (trim_front_suffix space1 space2 space3 l) as [m Hm].
  apply (f_equal (@List.length ascii)) in Hk, Hm. rewrite length_app in Hk, Hm.
  unfold trim_left in *. lia.
Qed.

(** The summary has at most the requested bytes and an ellipsis. *)
Lemma compact_length text n : (0 < n)%nat -> (String.length (compact text n) <= n + 3)%nat.
Proof.
  intros Hn. unfold compact. repeat case_decide; cbn; [lia|lia|].
  rewrite string_length_app.
  pose proof (TrimSpace_length (substring 0 n (Joins (Fields (TrimSpace text)) " "))).
  pose proof (substring_length_le n (Joins (Fields (TrimSpace text)) " ")). cbn. lia.
Qed.

(** ** Tool results *)

Definition error_text (e : option ResultError) : string :=
  match e with Some e => TrimSpace (RE_Message e) | None => "" end.

Fixpoint first_uri (items : list ResultArtifact) : string :=
  match items with
  | [] => ""
  | item :: rest => if decide (TrimSpace (RA_URI item) = "") then first_uri rest
                    else TrimSpace (RA_URI item)
  end.

Definition PrimaryArtifactURI (r : ToolResult) : string :=
  let uri := first_uri (TR_Artifacts r) in
  if decide (uri = "") then TrimSpace (TR_ArtifactURI r) else uri.

Definition deriveSummary (r : ToolResult) : string :=
  if decide (TR_TranscriptText r <> "") then compact (TR_TranscriptText r) summaryMaxChars
  else if decide (TR_Artifacts r <> []) then
    FormatInt (Z.of_nat (List.length (TR_Artifacts r))) +:+ " artifact(s) ready"
  else if decide (error_text (TR_Error r) <> "") then
    match TR_Error r with Some e => compact (RE_Message e) summaryMaxChars | None => "" end
  else TrimSpace (TR_Status r).

(** The fields that normalization may change. *)
Definition TR_set (r : ToolResult) (name call status transcript summary content uri : string)
    (artifacts : list ResultArtifact) : ToolResult :=
  mkToolResult name call status transcript summary (TR_Structured r) (TR_Blocks r) artifacts
    (TR_Actions r) (TR_Verification r) (TR_Error r) (TR_Metadata r) content uri.

(** The trimming at the head of [Normalized]. *)
Definition TR_trim (r : ToolResult) : ToolResult :=
  TR_set r (TrimSpace (TR_ToolName r)) (TrimSpace (TR_ToolCallID r)) (TR_Status r)
    (TrimSpace (TR_TranscriptText r)) (TrimSpace (TR_Summary r)) (TrimSpace (TR_Content r))
    (TrimSpace (TR_ArtifactURI r)) (TR_Artifacts r).

(** The two conditionals on the artifact URI. *)
Definition TR_uri (r : ToolResult) : ToolResult :=
  let r := if decide (TR_ArtifactURI r <> "" /\ PrimaryArtifactURI r = "") then
      TR_set r (TR_ToolName r) (TR_ToolCallID r) (TR_Status r) (TR_TranscriptText r) (TR_Summary r)
        (TR_Content r) (TR_ArtifactURI r)
        (mkArtifact "artifact" "" (TR_ArtifactURI r) "" 0 "" [] :: TR_Artifacts r)
    else r in
  TR_set r (TR_ToolName r) (TR_ToolCallID r) (TR_Status r) (TR_TranscriptText r) (TR_Summary r)
    (TR_Content r) (if decide (TR_ArtifactURI r = "") then PrimaryArtifactURI r else TR_ArtifactURI r)
    (TR_Artifacts r).

(** The transcript, derived when it is empty. *)
Definition TR_transcript (r : ToolResult) : string :=
  if decide (TR_TranscriptText r <> "") then TR_TranscriptText r
  else if decide (TR_Content r <> "") then TR_Content r
  else if decide (error_text (TR_Error r) <> "") then "error: " +:+ error_text (TR_Error r)
  else TR_Summary r.

Definition ToolResult_Normalized (r : ToolResult) : ToolResult :=
  let r := TR_uri (TR_trim r) in
  let r := TR_set r (TR_ToolName r) (TR_ToolCallID r) (TR_Status r) (TR_transcript r)
    (TR_Summary r) (TR_Content r) (TR_ArtifactURI r) (TR_Artifacts r) in
  TR_set r (TR_ToolName r) (TR_ToolCallID r)
    (if decide (TR_Status r = "") then
       (if decide (error_text (TR_Error r) <> "") then ToolResultError else ToolResultOK)
     else TR_Status r)
    (TR_TranscriptText r)
    (if decide (TR_Summary r = "") then deriveSummary r else TR_Summary r)
    (if decide (TR_Content r = "") then TR_TranscriptText r else TR_Content r)
    (TR_ArtifactURI r) (TR_Artifacts r).

Definition Transcript (r : ToolResult) : string :=
  TrimSpace (TR_TranscriptText (ToolResult_Normalized r)).

(** [UnavailableToolResult]. *)
Definition UnavailableToolResult (toolName toolCallID : string) (reasons hints : list string) : ToolResult :=
  let message := match reasons with
    | [] => "tool is unavailable"
    | _ => "tool is unavailable: " +:+ Joins reasons "; "
    end in
  ToolResult_Normalized
    (mkToolResult (TrimSpace toolName) (TrimSpace toolCallID) ToolResultError message
      "tool unavailable"
      [("available", AnyBool false); ("reasons", AnySlice (AnyString <$> reasons));
       ("hints", AnySlice (AnyString <$> hints))]
      [] []
      (match hints with
       | [] => []
       | _ => [mkAction ResultActionFollowUp "review install hints"
                 (Joins hints (String (ascii_of_nat 10) "")) []]
       end)
      None (Some (mkResultError "tool_unavailable" message false [])) [] "" "").

(** ** Automation results *)

Definition AutomationSourceRuntime : string := "runtime".
Definition AutomationSourceCron : string := "cron".
Definition AutomationStatusPending : string := "pending".
Definition AutomationStatusOK : string := "ok".
Definition AutomationStatusError : string := "error".
Definition AutomationStatusSkipped : string := "skipped".
Definition AutomationStatusPrimed : string := "primed".
Definition AutomationStatusUnchanged : string := "unchanged".
Definition AutomationStatusTriggered : string := "triggered".

Definition automationStatuses : list string :=
  [AutomationStatusPending; AutomationStatusOK; AutomationStatusError; AutomationStatusSkipped;
   AutomationStatusPrimed; AutomationStatusUnchanged; AutomationStatusTriggered].

Definition normalizeAutomationStatus (status : string) : string :=
  if decide (TrimSpace status ∈ automationStatuses) then TrimSpace status else "".

Definition AR_trim (r : AutomationResult) : AutomationResult :=
  mkAutomationResult (TrimSpace (AR_Source r)) (normalizeAutomationStatus (AR_Status r))
    (TrimSpace (AR_RunID r)) (TrimSpace (AR_RunStatus r)) (TrimSpace (AR_Summary r))
    (TrimSpace (AR_Output r)) (TrimSpace (AR_Fingerprint r)) (AR_Error r) (AR_Verification r)
    (AR_Artifacts r) (AR_Actions r) (AR_Metadata r).

Definition AR_set (r : AutomationResult) (status summary : string) (err : option ResultError) :
    AutomationResult :=
  mkAutomationResult (AR_Source r) status (AR_RunID r) (AR_RunStatus r) summary (AR_Output r)
    (AR_Fingerprint r) err (AR_Verification r) (AR_Artifacts r) (AR_Actions r) (AR_Metadata r).

Section Unicode.
Context `{GoUnicode}.

Definition verificationFailed (v : option ResultVerification) : bool :=
  match v with Some v => EqualFold (TrimSpace (RV_Status v)) "failed" | None => false end.

Definition inferAutomationStatus (r : AutomationResult) : string :=
  if decide (error_text (AR_Error r) <> "") then AutomationStatusError else
  let s := ToLower (TrimSpace (AR_RunStatus r)) in
  if decide (s = "completed") then AutomationStatusOK
  else if decide (s = "failed") then AutomationStatusError
  else if decide (s = "cancelled") then AutomationStatusSkipped
  else if decide (s ∈ ["queued"; "running"; "streaming"; "waiting_input"; "waiting_approval"])
    then AutomationStatusPending
  else if decide (AR_Output r <> "" \/ AR_Summary r <> "" \/ AR_Artifacts r <> [])
    then AutomationStatusOK
  else AutomationStatusPending.

(** The branch of [Normalized] for a failed verification. *)
Definition AR_verified (r : AutomationResult) : AutomationResult :=
  match AR_Verification r with
  | Some v =>
    if verificationFailed (Some v) then
      AR_set r
        (if decide (AR_Status r = AutomationStatusSkipped) then AR_Status r else AutomationStatusError)
        (AR_Summary r)
        (match AR_Error r with
         | Some e => Some e
         | None => Some (plainError (if decide (TrimSpace (RV_Summary v) = "") then "verification failed"
                                     else TrimSpace (RV_Summary v)))
         end)
    else r
  | None => r
  end.

Definition AR_summary (r : AutomationResult) : string :=
  if decide (AR_Summary r <> "") then AR_Summary r
  else if decide (AR_Output r <> "") then compact (AR_Output r) summaryMaxChars
  else if decide (error_text (AR_Error r) <> "") then
    match AR_Error r with Some e => compact (RE_Message e) summaryMaxChars | None => "" end
  else TrimSpace (AR_RunStatus r).

Definition AutomationResult_Normalized (r : AutomationResult) : AutomationResult :=
  let r := AR_verified (AR_trim r) in
  let r := AR_set r (if decide (AR_Status r = "") then inferAutomationStatus r else AR_Status r)
    (AR_Summary r) (AR_Error r) in
  AR_set r (AR_Status r) (AR_summary r) (AR_Error r).

Definition CloneAutomationResult (r : option AutomationResult) : option AutomationResult :=
  AutomationResult_Normalized <$> r.

Definition Populated (r : AutomationResult) : bool :=
  negb (bool_decide (TrimSpace (AR_Source r) = "")) || negb (bool_decide (TrimSpace (AR_Status r) = ""))
  || negb (bool_decide (TrimSpace (AR_RunID r) = "")) || negb (bool_decide (TrimSpace (AR_RunStatus r) = ""))
  || negb (bool_decide (TrimSpace (AR_Summary r) = "")) || negb (bool_decide (TrimSpace (AR_Output r) = ""))
  || negb (bool_decide (TrimSpace (AR_Fingerprint r) = ""))
  || bool_decide (is_Some (AR_Error r)) || bool_decide (is_Some (AR_Verification r))
  || match AR_Artifacts r with [] => false | _ => true end
  || match AR_Actions r with [] => false | _ => true end
  || match AR_Metadata r with [] => false | _ => true end.

Definition ErrorMessage (r : AutomationResult) : string := error_text (AR_Error (AutomationResult_Normalized r)).

Fixpoint uris_loop (seen : gset string) (items : list ResultArtifact) : list string :=
  match items with
  | [] => []
  | item :: rest =>
    let uri := TrimSpace (RA_URI item) in
    if decide (uri = "") then uris_loop seen rest
    else if decide (uri ∈ seen) then uris_loop seen rest
    else uri :: uris_loop ({[ uri ]} ∪ seen) rest
  end.

Definition ArtifactURIs (r : AutomationResult) : list string :=
  uris_loop ∅ (AR_Artifacts (AutomationResult_Normalized r)).

(** ** Normalization of automation results is idempotent *)

Lemma normalizeAutomationStatus_idem s :
  normalizeAutomationStatus (normalizeAutomationStatus s) = normalizeAutomationStatus s.
Proof.
  unfold normalizeAutomationStatus. destruct (decide (TrimSpace s ∈ automationStatuses)) as [Hs|Hs].
  - rewrite TrimSpace_idem. by rewrite decide_True.
  - rewrite decide_False; [done|]. vm_compute. intros Hin.
    repeat (apply elem_of_cons in Hin as [Hin|Hin]; [discriminate|]). by apply elem_of_nil in Hin.
Qed.

(** The normal forms. *)
Record AR_normal (r : AutomationResult) : Prop := {
  arn_source : Trimmed (AR_Source r);
  arn_run : Trimmed (AR_RunID r);
  arn_run_status : Trimmed (AR_RunStatus r);
  arn_output : Trimmed (AR_Output r);
  arn_fingerprint : Trimmed (AR_Fingerprint r);
  arn_status : AR_Status r ∈ automationStatuses;
  arn_verified : verificationFailed (AR_Verification r) = true ->
    is_Some (AR_Error r) /\ AR_Status r ∈ [AutomationStatusError; AutomationStatusSkipped];
  arn_summary : Trimmed (AR_Summary r) /\ AR_Summary r = AR_summary r
}.

Lemma status_known_trimmed s : s ∈ automationStatuses -> TrimSpace s = s /\ s <> "".
Proof.
  intros Hs. unfold automationStatuses in Hs.
  repeat (apply elem_of_cons in Hs as [->|Hs]; [split; [vm_compute; reflexivity|discriminate]|]).
  by apply elem_of_nil in Hs.
Qed.

Lemma normalizeAutomationStatus_known s :
  normalizeAutomationStatus s = "" \/ normalizeAutomationStatus s ∈ automationStatuses.
Proof. unfold normalizeAutomationStatus. case_decide; auto. Qed.

Lemma infer_known r : inferAutomationStatus r ∈ automationStatuses.
Proof.
  assert (Hk : Forall (.∈ automationStatuses)
    [AutomationStatusError; AutomationStatusOK; AutomationStatusSkipped; AutomationStatusPending]).
  { repeat constructor; apply (bool_decide_unpack _); reflexivity. }
  rewrite Forall_forall in Hk. apply Hk. unfold inferAutomationStatus.
  repeat case_decide; rewrite !elem_of_cons; auto.
Qed.

Lemma AR_verified_fields r :
  let r' := AR_verified r in
  AR_Source r' = AR_Source r /\ AR_RunID r' = AR_RunID r /\ AR_RunStatus r' = AR_RunStatus r /\
  AR_Summary r' = AR_Summary r /\ AR_Output r' = AR_Output r /\
  AR_Fingerprint r' = AR_Fingerprint r /\ AR_Verification r' = AR_Verification r /\
  (AR_Status r' = AR_Status r \/ AR_Status r' = AutomationStatusError) /\
  (verificationFailed (AR_Verification r) = true ->
    is_Some (AR_Error r') /\ AR_Status r' ∈ [AutomationStatusError; AutomationStatusSkipped]).
Proof.
  cbn zeta. unfold AR_verified. destruct (AR_Verification r) as [v|] eqn:Ev;
    [|split_and!; auto; discriminate].
  destruct (verificationFailed (Some v)) eqn:Ef; [|split_and!; auto; congruence].
  cbn [AR_set AR_Source AR_RunID AR_RunStatus AR_Summary AR_Output AR_Fingerprint AR_Verification
       AR_Status AR_Error].
  split_and!; auto; [case_decide; auto|]. intros _. split; [by destruct (AR_Error r)|].
  case_decide as E; rewrite ?E, !elem_of_cons; auto.
Qed.

Lemma AR_summary_trimmed r :
  Trimmed (AR_Summary r) -> Trimmed (AR_summary r).
Proof.
  intros Hs. unfold AR_summary. repeat case_decide; auto using compact_trimmed, Trimmed_TrimSpace.
  destruct (AR_Error r); auto using compact_trimmed. done.
Qed.

Lemma AR_summary_idem r st :
  AR_summary (AR_set r st (AR_summary r) (AR_Error r)) = AR_summary r.
Proof.
  unfold AR_summary at 1. cbn [AR_set AR_Summary AR_Output AR_Error AR_RunStatus].
  destruct (decide (AR_summary r <> "")) as [|E]; [done|]. apply dec_stable in E.
  unfold AR_summary in E |- *. repeat case_decide; done.
Qed.

Lemma Normalized_normal r : AR_normal (AutomationResult_Normalized r).
Proof.
  unfold AutomationResult_Normalized. set (t := AR_trim r).
  destruct (AR_verified_fields t) as (E1 & E2 & E3 & E4 & E5 & E6 & E7 & E8 & E9).
  set (v := AR_verified t) in *. cbn zeta in *.
  split; cbn [AR_set AR_Source AR_RunID AR_RunStatus AR_Summary AR_Output AR_Fingerprint
    AR_Verification AR_Status AR_Error].
  1-5: rewrite ?E1, ?E2, ?E3, ?E5, ?E6; apply Trimmed_TrimSpace.
  - case_decide as Es; [apply infer_known|].
    destruct E8 as [E8|E8]; rewrite E8; [|by apply (bool_decide_unpack _)].
    destruct (normalizeAutomationStatus_known (AR_Status r)) as [E|E]; [|exact E].
    exfalso. apply Es. rewrite E8. exact E.
  - rewrite E7. intros Hf. destruct (E9 Hf) as [He Hst]. split; [done|].
    rewrite decide_False; [done|]. intros E. rewrite E in Hst.
    rewrite !elem_of_cons in Hst. destruct Hst as [?|[?|Hst]]; [discriminate..|by apply elem_of_nil in Hst].
  - assert (Ht : Trimmed (AR_Summary v)) by (rewrite E4; apply Trimmed_TrimSpace).
    split; [by apply AR_summary_trimmed|]. symmetry. apply (AR_summary_idem (AR_set v _ _ _)).
Qed.

Lemma AR_normal_id r : AR_normal r -> AutomationResult_Normalized r = r.
Proof.
  intros [Ha Hb Hc Hd He Hs Hv [Ht Hsum]]. destruct (status_known_trimmed _ Hs) as [Hst Hne].
  assert (Hn : AR_trim r = r).
  { unfold AR_trim, normalizeAutomationStatus. rewrite Ha, Hb, Hc, Hd, He, Ht, Hst.
    rewrite decide_True by done. by destruct r. }
  assert (Hf : AR_verified r = r).
  { unfold AR_verified. destruct (AR_Verification r) as [v|] eqn:Ev; [|done].
    destruct (verificationFailed (Some v)) eqn:Ef; [|done].
    destruct (Hv eq_refl) as [[e Ee] Hin]. rewrite Ee.
    replace (if decide (AR_Status r = AutomationStatusSkipped) then AR_Status r
      else AutomationStatusError) with (AR_Status r).
    { rewrite <- Ee. by destruct r. }
    case_decide; [done|]. apply elem_of_cons in Hin as [->|Hin]; [done|].
    by apply list_elem_of_singleton in Hin. }
  unfold AutomationResult_Normalized. rewrite Hn, Hf. rewrite decide_False by done.
  assert (Hid : AR_set r (AR_Status r) (AR_Summary r) (AR_Error r) = r) by by destruct r.
  rewrite Hid. rewrite <- Hsum. done.
Qed.

(** Normalizing a result twice is normalizing it once, whatever the input:
    the summary cut out of a long output, a status inferred from the run and
    the error made from a failed verification are fixed points.  A normalized
    result has one of the seven statuses, and after a failed verification it
    carries an error and counts as failed or skipped. *)
Theorem automation_result_normal_form r :
  AutomationResult_Normalized (AutomationResult_Normalized r) = AutomationResult_Normalized r /\
  AR_Status (AutomationResult_Normalized r) ∈ automationStatuses /\
  (verificationFailed (AR_Verification r) = true ->
    is_Some (AR_Error (AutomationResult_Normalized r)) /\
    AR_Status (AutomationResult_Normalized r) ∈ [AutomationStatusError; AutomationStatusSkipped]).
Proof.
  pose proof (Normalized_normal r) as Hn. split_and!.
  - by apply AR_normal_id.
  - apply Hn.
  - intros Hf. apply (arn_verified _ Hn).
    destruct (AR_verified_fields (AR_trim r)) as (_ & _ & _ & _ & _ & _ & E & _).
    unfold AutomationResult_Normalized. cbn [AR_set AR_Verification]. by rewrite E.
Qed.

Lemma ErrorMessage_normalized r : ErrorMessage (AutomationResult_Normalized r) = ErrorMessage r.
Proof. unfold ErrorMessage. by rewrite (AR_normal_id _ (Normalized_normal r)). Qed.
End Unicode.

(** ** Normalization of tool results *)

Definition TR_normal (r : ToolResult) : Prop := ToolResult_Normalized r = r.

Lemma first_uri_trimmed l : Trimmed (first_uri l).
Proof. induction l as [|x l IH]; cbn; [done|]. case_decide; auto using Trimmed_TrimSpace. Qed.

Lemma PrimaryArtifactURI_trimmed r : Trimmed (PrimaryArtifactURI r).
Proof. unfold PrimaryArtifactURI. case_decide; auto using first_uri_trimmed, Trimmed_TrimSpace. Qed.

(** The first conditional never applies: [PrimaryArtifactURI] itself falls back
    on the URI that the conditional requires to be present. *)
Lemma TR_uri_eq r :
  TR_uri r = TR_set r (TR_ToolName r) (TR_ToolCallID r) (TR_Status r) (TR_TranscriptText r)
    (TR_Summary r) (TR_Content r)
    (if decide (TR_ArtifactURI r = "") then PrimaryArtifactURI r else TR_ArtifactURI r)
    (TR_Artifacts r) \/ ~ Trimmed (TR_ArtifactURI r).
Proof.
  unfold TR_uri. case_decide as Hd; [|by left]. right. destruct Hd as [Hu Hp].
  unfold PrimaryArtifactURI in Hp. case_decide; [|done]. intros Ht. rewrite Ht in Hp. done.
Qed.

Record TR_stable (r : ToolResult) : Prop := {
  trs_name : Trimmed (TR_ToolName r);
  trs_call : Trimmed (TR_ToolCallID r);
  trs_transcript : Trimmed (TR_TranscriptText r) /\ TR_TranscriptText r <> "";
  trs_summary : Trimmed (TR_Summary r) /\
    (TR_Summary r = "" -> compact (TR_TranscriptText r) summaryMaxChars = "");
  trs_content : Trimmed (TR_Content r) /\ TR_Content r <> "";
  trs_status : TR_Status r <> "";
  trs_uri : Trimmed (TR_ArtifactURI r) /\ (TR_ArtifactURI r = "" -> PrimaryArtifactURI r = "")
}.

Lemma TR_trim_uri r :
  TR_uri (TR_trim r) = TR_set r (TrimSpace (TR_ToolName r)) (TrimSpace (TR_ToolCallID r))
    (TR_Status r) (TrimSpace (TR_TranscriptText r)) (TrimSpace (TR_Summary r))
    (TrimSpace (TR_Content r))
    (if decide (TrimSpace (TR_ArtifactURI r) = "") then PrimaryArtifactURI r
     else TrimSpace (TR_ArtifactURI r)) (TR_Artifacts r).
Proof.
  destruct (TR_uri_eq (TR_trim r)) as [->|Hn]; [|by destruct Hn; apply Trimmed_TrimSpace].
  unfold TR_trim. cbn [TR_set TR_ToolName TR_ToolCallID TR_Status TR_TranscriptText TR_Summary
    TR_Content TR_ArtifactURI TR_Artifacts TR_Structured TR_Blocks TR_Actions TR_Verification
    TR_Error TR_Metadata]. unfold TR_set.
  cbn [TR_ToolName TR_ToolCallID TR_Status TR_TranscriptText TR_Summary
    TR_Content TR_ArtifactURI TR_Artifacts TR_Structured TR_Blocks TR_Actions TR_Verification
    TR_Error TR_Metadata]. f_equal. case_decide; [|done].
  unfold PrimaryArtifactURI. cbn [TR_Artifacts TR_ArtifactURI]. by rewrite TrimSpace_idem.
Qed.

Lemma TR_stable_id r : TR_stable r -> ToolResult_Normalized r = r.
Proof.
  intros [Hn Hc [Ht Ht0] [Hs Hs0] [Hco Hco0] Hst [Hu Hu0]].
  unfold ToolResult_Normalized. rewrite TR_trim_uri. unfold Trimmed in *.
  rewrite Hn, Hc, Ht, Hs, Hco, Hu.
  replace (if decide (TR_ArtifactURI r = "") then PrimaryArtifactURI r else TR_ArtifactURI r)
    with (TR_ArtifactURI r) by (case_decide as E; [rewrite Hu0, E by done|]; done).
  assert (Hid : TR_set r (TR_ToolName r) (TR_ToolCallID r) (TR_Status r) (TR_TranscriptText r)
    (TR_Summary r) (TR_Content r) (TR_ArtifactURI r) (TR_Artifacts r) = r) by by destruct r.
  rewrite Hid. unfold TR_transcript. rewrite (decide_True _ _ Ht0), Hid.
  rewrite !(decide_False _ _ Hst), (decide_False _ _ Hco0).
  case_decide as E; [|done]. unfold deriveSummary. rewrite (decide_True _ _ Ht0), Hs0, <- E by done.
  done.
Qed.

Lemma TR_transcript_trimmed r :
  Trimmed (TR_TranscriptText r) -> Trimmed (TR_Content r) -> Trimmed (TR_Summary r) ->
  Trimmed (TR_transcript r).
Proof.
  intros. unfold TR_transcript. repeat case_decide; auto.
  apply (Trimmed_labelled "error:"); [done|done| |done].
  unfold error_text. destruct (TR_Error r); auto with golib.
Qed.

Lemma Normalized_stable r :
  TR_TranscriptText (ToolResult_Normalized r) <> "" -> TR_stable (ToolResult_Normalized r).
Proof.
  unfold ToolResult_Normalized. rewrite TR_trim_uri.
  set (m := TR_set r _ _ _ _ _ _ _ _).
  assert (Ht : Trimmed (TR_transcript m)) by (apply TR_transcript_trimmed; apply Trimmed_TrimSpace).
  cbn zeta. cbn [TR_set TR_TranscriptText]. intros Ht0.
  assert (Hsum : deriveSummary (TR_set m (TR_ToolName m) (TR_ToolCallID m) (TR_Status m)
    (TR_transcript m) (TR_Summary m) (TR_Content m) (TR_ArtifactURI m) (TR_Artifacts m))
    = compact (TR_transcript m) summaryMaxChars).
  { unfold deriveSummary. cbn [TR_set TR_TranscriptText]. by rewrite decide_True. }
  split; cbn [TR_set TR_ToolName TR_ToolCallID TR_Status TR_TranscriptText TR_Summary
    TR_Content TR_ArtifactURI TR_Artifacts].
  - apply Trimmed_TrimSpace.
  - apply Trimmed_TrimSpace.
  - done.
  - change (if decide (TR_Summary m = "") then _ else _) with
      (if decide (TR_Summary m = "") then deriveSummary (TR_set m (TR_ToolName m) (TR_ToolCallID m)
        (TR_Status m) (TR_transcript m) (TR_Summary m) (TR_Content m) (TR_ArtifactURI m)
        (TR_Artifacts m)) else TR_Summary m).
    rewrite Hsum. case_decide; split; auto using compact_trimmed; [apply Trimmed_TrimSpace|done].
  - case_decide; split; auto; apply Trimmed_TrimSpace.
  - repeat case_decide; done.
  - unfold m. cbn [TR_set TR_ArtifactURI]. case_decide as E.
    + split; [apply PrimaryArtifactURI_trimmed|]. intros E'. unfold PrimaryArtifactURI in E' |- *.
      cbn [TR_set TR_Artifacts TR_ArtifactURI]. case_decide as E1; [|done]. 
      by rewrite E.
    + split; [apply Trimmed_TrimSpace|done].
Qed.

(** A tool result with a transcript is normalized once and for all.
    Normalization never changes the list of artifacts, although the sources
    mean to add the artifact that only [ArtifactURI] names: their test asks
    [PrimaryArtifactURI], which already answers with that URI. *)
Theorem tool_result_normal_form r :
  (TR_TranscriptText (ToolResult_Normalized r) <> "" ->
   ToolResult_Normalized (ToolResult_Normalized r) = ToolResult_Normalized r) /\
  TR_Artifacts (ToolResult_Normalized r) = TR_Artifacts r.
Proof.
  split; [intros Ht; by apply TR_stable_id, Normalized_stable|].
  unfold ToolResult_Normalized. by rewrite TR_trim_uri.
Qed.

Lemma tool_result_normal_form_witness :
  let r := mkToolResult " exec " "c1" "" "" "" [] [] [] [] None (Some (plainError "boom")) [] "" " a " in
  TR_TranscriptText (ToolResult_Normalized r) = "error: boom" /\
  ToolResult_Normalized (ToolResult_Normalized r) = ToolResult_Normalized r.
Proof.
  intros r. split; [vm_compute; reflexivity|]. apply (tool_result_normal_form r). vm_compute. discriminate.
Defined.

(** Without a transcript the result keeps changing: normalizing the empty
    result again makes its status the summary, and a third time makes that
    summary its transcript and content. *)
Theorem empty_tool_result_drifts :
  let r := mkToolResult "" "" "" "" "" [] [] [] [] None None [] "" "" in
  let n := ToolResult_Normalized in
  TR_Summary (n r) = "" /\ TR_Summary (n (n r)) = "ok" /\ TR_TranscriptText (n (n r)) = "" /\
  TR_TranscriptText (n (n (n r))) = "ok" /\ TR_Content (n (n (n r))) = "ok".
Proof. vm_compute. done. Qed.
