(* ===== verification/Automation.v ===== *)
(** * Automated runs ([automation/runner.go], [automation/types.go])

    The runner submits a request to the runtime and polls until the run ends;
    the statistics count the notifications sent about an automation.  The
    runtime is an interface: its answers, which may differ from call to call,
    are arguments.  The context of the runner expires at some poll, which is
    an argument too; expiry is only noticed between polls. *)
From S2P Require Import Prelude GoLib GoText RunState TextTrim ResultModel GoClock.
From Stdlib Require Import String.
Import Str GoTime GoAny.
Local Open Scope Z_scope.

Definition Status_string (s : Status) : string :=
  match s with
  | StatusEmpty => ""
  | RunQueued => "queued"
  | RunWaitingInput => "waiting_input"
  | RunRunning => "running"
  | RunWaitingApproval => "waiting_approval"
  | RunStreaming => "streaming"
  | RunCompleted => "completed"
  | RunFailed => "failed"
  | RunCancelled => "cancelled"
  | StatusOther s => s
  end.

Record DeliveryTarget := mkTarget {
  DTg_Kind : string; DTg_Provider : string; DTg_Channel : string; DTg_AccountID : string;
  DTg_TargetType : string; DTg_Target : string; DTg_Label : string }.

Record DeliverableRef := mkDeliverable {
  Dv_Kind : string; Dv_Name : string; Dv_URI : string; Dv_ContentType : string;
  Dv_SizeBytes : Z; Dv_PreviewText : string }.

(** The fields of [runtime.RunResult] that automations read. *)
Record RunResult := mkRunResult {
  RR_RunID : string;
  RR_Status : Status;
  RR_Error : string;
  RR_Summary : string;
  RR_Output : string;
  RR_Deliverables : list DeliverableRef;
  RR_NextActions : list ResultAction;
  RR_Canonical : AutomationResult
}.

Definition RR_set_id (r : RunResult) (id : string) : RunResult :=
  mkRunResult id (RR_Status r) (RR_Error r) (RR_Summary r) (RR_Output r) (RR_Deliverables r)
    (RR_NextActions r) (RR_Canonical r).

Record SubmitRequest := mkSubmit {
  SR_SessionKey : string;
  SR_Content : string;
  SR_Model : string;
  SR_AutomationID : string;
  SR_Metadata : list (string * Any);
  SR_Execute : option bool
}.

(** ** The runner *)

(** A call of the runtime fails with a message or returns a result, which may
    be nil. *)
Abbreviation Answer := (string + option RunResult)%type (only parsing).

Record Runner := mkRunner { Rn_timeout : Duration; Rn_pollInterval : Duration }.

(** [NewRunner] for a runtime that is not nil. *)
Definition NewRunner (timeout pollInterval : Duration) : Runner :=
  mkRunner (if decide (timeout <= 0) then 10 * Minute else timeout)
    (if decide (pollInterval <= 0) then 3 * Second else pollInterval).

Section Run.
Context (submit : SubmitRequest -> Answer) (get : nat -> string -> Answer).

(** The polling loop: [i] counts the polls, the context expires after
    [patience] more waits. *)
Fixpoint poll_loop (r : Runner) (patience i : nat) (pollRunID : string) : string + RunResult :=
  match get i pollRunID with
  | inl err => inl err
  | inr None => inl "poll returned nil result"
  | inr (Some result) =>
    let result := if decide (RR_RunID result = "") then RR_set_id result pollRunID else result in
    if Status_Terminal (RR_Status result) then inr result
    else match patience with
         | O => inl ("execution timed out after " +:+ DurationString (Rn_timeout r))
         | S patience => poll_loop r patience (S i) (RR_RunID result)
         end
  end.

Definition Runner_Run (r : Runner) (patience : nat) (req : SubmitRequest) : string + RunResult :=
  match submit req with
  | inl err => inl err
  | inr None => inl "submit returned nil result"
  | inr (Some result) =>
    if Status_Terminal (RR_Status result) then inr result
    else if decide (TrimSpace (RR_RunID result) = "") then
      inl "submit returned non-terminal status without run id"
    else poll_loop r patience 0 (RR_RunID result)
  end.

Lemma poll_loop_result r patience i id res :
  id <> "" -> poll_loop r patience i id = inr res ->
  Status_Terminal (RR_Status res) = true /\ RR_RunID res <> "".
Proof.
  revert i id. induction patience as [|patience IH]; intros i id Hid; cbn [poll_loop];
    (destruct (get i id) as [err|[result|]]; [done| |done]);
    set (result' := if decide (RR_RunID result = "") then _ else _);
    (assert (Hid' : RR_RunID result' <> "") by (unfold result'; case_decide; done));
    (destruct (Status_Terminal (RR_Status result')) eqn:Et; [intros [= <-]; done|]).
  - done.
  - by apply IH.
Qed.

(** The first [n] polls from [i] on answer for the run [id] and it is still
    active. *)
Definition active_polls (i n : nat) (id : string) : Prop :=
  forall k, (k < n)%nat -> exists res, get (i + k) id = inr (Some res) /\
    Status_Terminal (RR_Status res) = false /\ (RR_RunID res = id \/ RR_RunID res = "").

Lemma active_polls_step i n id : active_polls i (S n) id -> active_polls (S i) n id.
Proof.
  intros Ha k Hk. destruct (Ha (S k)) as (res & Hg & Hr); [lia|]. exists res.
  by replace (S i + k)%nat with (i + S k)%nat by lia.
Qed.

Definition with_id (res : RunResult) (id : string) : RunResult :=
  if decide (RR_RunID res = "") then RR_set_id res id else res.

Lemma poll_step r patience i id res :
  get i id = inr (Some res) -> Status_Terminal (RR_Status res) = false ->
  (RR_RunID res = id \/ RR_RunID res = "") ->
  poll_loop r (S patience) i id = poll_loop r patience (S i) id.
Proof.
  intros Hg Ht Hid. cbn [poll_loop]. rewrite Hg.
  destruct (decide (RR_RunID res = "")) as [E|E].
  - change (RR_Status (RR_set_id res id)) with (RR_Status res). by rewrite Ht.
  - rewrite Ht. by destruct Hid as [->|Hid].
Qed.

Lemma poll_loop_final r n patience i id fin :
  (n <= patience)%nat -> active_polls i n id ->
  get (i + n) id = inr (Some fin) -> Status_Terminal (RR_Status fin) = true ->
  poll_loop r patience i id = inr (with_id fin id).
Proof.
  revert patience i. induction n as [|n IH]; intros patience i Hp Ha Hg Ht.
  - rewrite Nat.add_0_r in Hg. unfold with_id.
    destruct patience; cbn [poll_loop]; rewrite Hg; case_decide; cbn [RR_set_id RR_Status];
      by rewrite Ht.
  - destruct patience as [|patience]; [lia|].
    destruct (Ha 0%nat) as (res & Hg0 & Ht0 & Hid0); [lia|]. rewrite Nat.add_0_r in Hg0.
    rewrite (poll_step _ _ _ _ res) by done. apply IH; [lia|by apply active_polls_step| |done].
    by replace (S i + n)%nat with (i + S n)%nat by lia.
Qed.

Lemma poll_loop_timeout r patience i id :
  active_polls i (S patience) id ->
  poll_loop r patience i id = inl ("execution timed out after " +:+ DurationString (Rn_timeout r)).
Proof.
  revert i. induction patience as [|patience IH]; intros i Ha;
    destruct (Ha 0%nat) as (res & Hg0 & Ht0 & Hid0); try lia; rewrite Nat.add_0_r in Hg0.
  - cbn [poll_loop]. rewrite Hg0. case_decide; cbn [RR_set_id RR_Status]; by rewrite Ht0.
  - rewrite (poll_step _ _ _ _ res) by done. by apply IH, active_polls_step.
Qed.

(** The runner waits for the end of the run.  Whatever the runtime answers,
    a result it returns is final, and carries a run identifier if it was
    polled for.  If the submitted run [id] is active for [n] polls and final at the
    next one, and the context outlives these polls, the final answer is
    returned; if the run is still active when the context expires, the runner
    reports the timeout. *)
Theorem runner_waits_for_end r patience req :
  (forall res, Runner_Run r patience req = inr res -> Status_Terminal (RR_Status res) = true) /\
  forall first, submit req = inr (Some first) -> Status_Terminal (RR_Status first) = false ->
    TrimSpace (RR_RunID first) <> "" ->
    (forall res, Runner_Run r patience req = inr res -> RR_RunID res <> "") /\
    (forall n fin, (n <= patience)%nat -> active_polls 0 n (RR_RunID first) ->
      get n (RR_RunID first) = inr (Some fin) -> Status_Terminal (RR_Status fin) = true ->
      Runner_Run r patience req = inr (with_id fin (RR_RunID first))) /\
    (active_polls 0 (S patience) (RR_RunID first) ->
      Runner_Run r patience req = inl ("execution timed out after " +:+ DurationString (Rn_timeout r))).
Proof.
  unfold Runner_Run. split.
  - intros res. destruct (submit req) as [err|[first|]]; [done| |done].
    destruct (Status_Terminal (RR_Status first)) eqn:Et; [intros [= <-]; done|].
    case_decide as Hid; [done|]. apply poll_loop_result. intros E; apply Hid; by rewrite E.
  - intros first -> Hact Hid. rewrite Hact, decide_False by done.
    assert (Hne : RR_RunID first <> "") by (intros E; apply Hid; by rewrite E).
    split_and!.
    + intros res Hr. by apply (poll_loop_result _ _ _ _ _ Hne) in Hr as [_ ?].
    + intros n fin Hn Ha Hg Ht. by apply (poll_loop_final _ n).
    + apply poll_loop_timeout.
Qed.
End Run.

Definition no_result : AutomationResult :=
  mkAutomationResult "" "" "" "" "" "" "" None None [] [] [].

Lemma runner_waits_for_end_witness :
  let answer st := inr (Some (mkRunResult "r1" st "" "" "" [] [] no_result)) in
  let get (i : nat) (_ : string) : Answer := answer (if decide (i < 2)%nat then RunRunning else RunCompleted) in
  let submit (_ : SubmitRequest) : Answer := answer RunQueued in
  Runner_Run submit get (NewRunner 0 0) 5 (mkSubmit "s" "c" "" "" [] None)
    = inr (mkRunResult "r1" RunCompleted "" "" "" [] [] no_result).
Proof.
  intros answer get submit.
  destruct (runner_waits_for_end submit get (NewRunner 0 0) 5 (mkSubmit "s" "c" "" "" [] None)) as [_ H].
  destruct (H (mkRunResult "r1" RunQueued "" "" "" [] [] no_result)) as (_ & Hfin & _);
    [reflexivity|reflexivity|vm_compute; discriminate|].
  apply (Hfin 2%nat (mkRunResult "r1" RunCompleted "" "" "" [] [] no_result)); [lia| |reflexivity|reflexivity].
  intros k Hk. exists (mkRunResult "r1" RunRunning "" "" "" [] [] no_result).
  unfold get. cbn. rewrite decide_True by lia. split_and!; auto.
Defined.

(** ** Notification statistics *)

Record NotificationStats := mkNS {
  NS_TotalCount : Z;
  NS_FailureCount : Z;
  NS_TodayCount : Z;
  NS_TodayDate : string;
  NS_LastAttemptAt : Time;
  NS_LastDeliveredAt : Time;
  NS_LastStatus : string;
  NS_LastError : string
}.

Definition emptyStats : NotificationStats := mkNS 0 0 0 "" 0 0 "" "".

Definition RecordNotification (stats : NotificationStats) (now : Time) (delivered : bool)
    (errText : string) : NotificationStats :=
  let day := FormatDay now in
  let same := bool_decide (TrimSpace (NS_TodayDate stats) = day) in
  let date := if same then NS_TodayDate stats else day in
  let today := if same then NS_TodayCount stats else 0 in
  if delivered then
    mkNS (GoInt.wrap64 (NS_TotalCount stats + 1)) (NS_FailureCount stats)
      (GoInt.wrap64 (today + 1)) date now now "delivered" ""
  else
    mkNS (NS_TotalCount stats) (GoInt.wrap64 (NS_FailureCount stats + 1)) today date now
      (NS_LastDeliveredAt stats) "failed" (TrimSpace errText).

Definition NotificationStats_Populated (s : NotificationStats) : bool :=
  bool_decide (0 < NS_TotalCount s) || bool_decide (0 < NS_FailureCount s)
  || bool_decide (0 < NS_TodayCount s) || negb (IsZero (NS_LastAttemptAt s))
  || negb (IsZero (NS_LastDeliveredAt s)) || negb (bool_decide (TrimSpace (NS_LastStatus s) = ""))
  || negb (bool_decide (TrimSpace (NS_LastError s) = "")).

Record NotificationSummary := mkNSum {
  NU_TotalCount : Z; NU_FailureCount : Z; NU_TodayCount : Z; NU_TodayDate : string }.

(** [AggregateNotifications] over the statistics of the items. *)
Definition AggregateNotifications (items : list (option NotificationStats)) (now : Time) :
    NotificationSummary :=
  let day := FormatDay now in
  foldl (fun out item =>
    match item with
    | None => out
    | Some s =>
      mkNSum (GoInt.wrap64 (NU_TotalCount out + NS_TotalCount s))
        (GoInt.wrap64 (NU_FailureCount out + NS_FailureCount s))
        (if decide (TrimSpace (NS_TodayDate s) = day)
         then GoInt.wrap64 (NU_TodayCount out + NS_TodayCount s) else NU_TodayCount out)
        (NU_TodayDate out)
    end) (mkNSum 0 0 0 day) items.
