(* ===== verification/CronSchedule.v ===== *)
(** * Schedules and jobs of the cron service ([cron/schedule.go],
    [cron/types.go], [cron/store.go], [cron/events.go])

    When a job runs next, the list of jobs and the queue of system events.
    The parser of cron expressions and the database of time zones are outside
    the repository: they are the operations of the class [CronLib], whose law
    is that the next activation is later than the given time. *)
From S2P Require Import Prelude GoLib GoText RunState TextTrim ResultModel GoClock Automation ListStore.
From Stdlib Require Import String.
Import Str Text GoTime.
Local Open Scope Z_scope.

Definition ScheduleKindAt : string := "at".
Definition ScheduleKindEvery : string := "every".
Definition ScheduleKindCron : string := "cron".

Record Schedule := mkSchedule {
  Sch_Kind : string; Sch_At : string; Sch_Every : string; Sch_Expression : string;
  Sch_Timezone : string }.

Class CronLib := {
  Location : Type;
  LocalZone : Location;
  LoadLocation : string -> option Location;
  CronSpec : Type;
  cronParse : string -> option CronSpec;
  CronNext : CronSpec -> Location -> Time -> Time;
  CronNext_later spec loc t : CronNext spec loc t = zeroTime \/ t < CronNext spec loc t
}.

(** Why a schedule is invalid. *)
Inductive ScheduleError :=
  | UnknownKind (kind : string)
  | AtRequired
  | AtUnparsable (at_ : string)
  | EveryRequired
  | EveryUnparsable (every : string)
  | EveryNotPositive (d : Duration)
  | ExpressionRequired
  | ExpressionUnparsable (expr : string)
  | TimezoneUnknown (tz : string).

Section Schedules.
Context `{GoUnicode} `{GoTimeText} `{CronLib}.

Definition nextRunAt (s : Schedule) (after : Time) : ScheduleError + Time :=
  let at_ := TrimSpace (Sch_At s) in
  if decide (at_ = "") then inl AtRequired else
  match ParseRFC3339 at_ with
  | None => inl (AtUnparsable at_)
  | Some t => if After t after then inr t else inr zeroTime
  end.

(** [elapsed/d] truncates; the steps and their product wrap. *)
Definition nextRunEveryAnchored (s : Schedule) (after anchor : Time) : ScheduleError + Time :=
  let raw := TrimSpace (Sch_Every s) in
  if decide (raw = "") then inl EveryRequired else
  match ParseDuration raw with
  | None => inl (EveryUnparsable raw)
  | Some d =>
    if decide (d <= 0) then inl (EveryNotPositive d) else
    let anchor := if IsZero anchor then after else anchor in
    if Before after anchor then inr anchor else
    let elapsed := Sub after anchor in
    let steps := GoInt.wrap64 (Z.quot elapsed d + 1) in
    inr (Add anchor (GoInt.wrap64 (steps * d)))
  end.

Definition nextRunEvery (s : Schedule) (after : Time) : ScheduleError + Time :=
  nextRunEveryAnchored s after after.

Definition nextRunCron (s : Schedule) (after : Time) : ScheduleError + Time :=
  let expr := TrimSpace (Sch_Expression s) in
  if decide (expr = "") then inl ExpressionRequired else
  match cronParse expr with
  | None => inl (ExpressionUnparsable expr)
  | Some spec =>
    let tz := TrimSpace (Sch_Timezone s) in
    match (if decide (tz = "") then Some LocalZone else LoadLocation tz) with
    | None => inl (TimezoneUnknown tz)
    | Some loc =>
      let next := CronNext spec loc after in
      if IsZero next then inr zeroTime else inr next
    end
  end.

Definition NextRunTime (s : Schedule) (after : Time) : ScheduleError + Time :=
  let kind := TrimSpace (ToLower (Sch_Kind s)) in
  if decide (kind = ScheduleKindAt) then nextRunAt s after
  else if decide (kind = ScheduleKindEvery) then nextRunEvery s after
  else if decide (kind = ScheduleKindCron) then nextRunCron s after
  else inl (UnknownKind (Sch_Kind s)).

Definition NextRunTimeAnchored (s : Schedule) (after anchor : Time) : ScheduleError + Time :=
  if decide (Sch_Kind s = ScheduleKindEvery) then nextRunEveryAnchored s after anchor
  else NextRunTime s after.

Lemma every_tick (after anchor d : Z) :
  0 < d -> anchor <= after -> after - anchor + d <= GoInt.max_int64 ->
  let t := Add anchor (GoInt.wrap64 (GoInt.wrap64 (Z.quot (Sub after anchor) d + 1) * d)) in
  after < t <= after + d /\ exists k, 0 < k /\ t = anchor + k * d.
Proof.
  intros Hd Ha Hmax. cbn zeta. unfold Add, Sub, GoInt.max_int64, GoInt.min_int64 in *.
  rewrite (Z.min_r _ (after - anchor)) by lia. rewrite Z.max_r by lia.
  rewrite Z.quot_div_nonneg by lia.
  pose proof (Z.div_mod (after - anchor) d ltac:(lia)) as Hq.
  pose proof (Z.mod_pos_bound (after - anchor) d ltac:(lia)) as Hm.
  set (q := (after - anchor) / d) in *. assert (0 <= q) by (apply Z.div_pos; lia).
  assert (q <= d * q) by nia.
  rewrite (GoInt.wrap64_id (q + 1)) by (unfold GoInt.in_int64, GoInt.min_int64, GoInt.max_int64; lia).
  rewrite GoInt.wrap64_id by (unfold GoInt.in_int64, GoInt.min_int64, GoInt.max_int64; nia).
  split; [nia|]. exists (q + 1). lia.
Qed.

(** Without an anchor the next run is later than the reference time, whatever
    the schedule. *)
Lemma NextRunTime_later s after t : NextRunTime s after = inr t -> t = zeroTime \/ after < t.
Proof.
  unfold NextRunTime. repeat case_decide; [..|done].
  - unfold nextRunAt. case_decide; [done|]. destruct (ParseRFC3339 _); [|done].
    unfold After. case_bool_decide; intros [= <-]; auto.
  - unfold nextRunEvery, nextRunEveryAnchored. case_decide; [done|].
    destruct (ParseDuration _) as [d|] eqn:Ed; [|done]. case_decide; [done|]. cbn zeta.
    replace (if IsZero after then after else after) with after by by destruct (IsZero after).
    unfold Before. rewrite bool_decide_eq_false_2 by lia. intros [= <-]. right.
    pose proof (ParseDuration_range _ _ Ed) as [_ Hmax].
    destruct (every_tick after after d) as [[Hlo _] _]; lia.
  - unfold nextRunCron. case_decide; [done|]. destruct (cronParse _) as [spec|]; [|done].
    destruct (if decide (TrimSpace (Sch_Timezone s) = "") then _ else _) as [loc|]; [|done].
    destruct (CronNext_later spec loc after) as [E|E]; destruct (IsZero (CronNext spec loc after));
      intros [= <-]; auto.
Qed.

(** The next run lies in the future and keeps the cadence.  A successful
    answer is the zero time, which only one-shot and cron schedules give, or
    strictly later than the reference time.  A schedule of kind "every" with
    the parsed interval [d] answers the first of the times [anchor + k * d] after
    the reference time; when the reference time precedes the anchor, the
    anchor itself.  The time between anchor and reference time plus one
    interval has to fit into a duration (292 years). *)
Theorem next_run_is_next s after anchor t :
  (forall d, ParseDuration (TrimSpace (Sch_Every s)) = Some d ->
     (if IsZero anchor then 0 else after - anchor) + d <= GoInt.max_int64) ->
  NextRunTimeAnchored s after anchor = inr t ->
  (t = zeroTime \/ after < t) /\
  (Sch_Kind s = ScheduleKindEvery ->
    let base := if IsZero anchor then after else anchor in
    after < t /\
    exists d k, ParseDuration (TrimSpace (Sch_Every s)) = Some d /\ 0 < d /\ 0 <= k /\
      t = base + k * d /\ (t <= after + d \/ t = base)).
Proof.
  intros Hfit.
  assert (Hev : forall anchor', (forall d, ParseDuration (TrimSpace (Sch_Every s)) = Some d ->
      (if IsZero anchor' then 0 else after - anchor') + d <= GoInt.max_int64) ->
    nextRunEveryAnchored s after anchor' = inr t ->
    let base := if IsZero anchor' then after else anchor' in
    after < t /\ exists d k, ParseDuration (TrimSpace (Sch_Every s)) = Some d /\ 0 < d /\ 0 <= k /\
      t = base + k * d /\ (t <= after + d \/ t = base)).
  { intros anchor' Hf. unfold nextRunEveryAnchored. case_decide; [done|].
    destruct (ParseDuration _) as [d|] eqn:Ed; [|done]. case_decide; [done|]. cbn zeta.
    set (base := if IsZero anchor' then after else anchor'). unfold Before.
    case_bool_decide as Hb.
    - intros [= <-]. split; [lia|]. exists d, 0. split_and!; auto; lia.
    - intros [= <-]. assert (Hfit' : after - base + d <= GoInt.max_int64).
      { specialize (Hf d eq_refl). unfold base. destruct (IsZero anchor'); lia. }
      destruct (every_tick after base d) as [[Hlo Hhi] (k & Hk & Ht)]; [lia|lia|done|].
      split; [done|]. exists d, k. split_and!; auto; lia. }
  unfold NextRunTimeAnchored. case_decide as Hk.
  - intros Hr. apply Hev in Hr; [|done]. split; [|done]. right. apply Hr.
  - intros Hr. split; [by apply NextRunTime_later in Hr|done].
Qed.
End Schedules.

(** A time zone without shifts and the expression of every minute. *)
Definition every_minute : CronLib.
Proof.
  refine {| Location := unit; LocalZone := tt; LoadLocation _ := Some tt; CronSpec := unit;
            cronParse e := if decide (e = "* * * * *") then Some tt else None;
            CronNext _ _ t := (t / Minute + 1) * Minute |}.
  intros _ _ t. right. pose proof (Z.div_mod t Minute ltac:(discriminate)).
  pose proof (Z.mod_pos_bound t Minute ltac:(reflexivity)). lia.
Defined.

Lemma next_run_is_next_witness :
  let anchor := 700000 * Day in
  let s := mkSchedule "every" "" " 30m " "" "" in
  let next := @NextRunTimeAnchored ascii_unicode whole_durations every_minute s (anchor + 100 * Minute) anchor in
  next = inr (anchor + 120 * Minute) /\ anchor + 100 * Minute < anchor + 120 * Minute.
Proof.
  intros anchor s next. assert (E : next = inr (anchor + 120 * Minute)) by (vm_compute; reflexivity).
  split; [exact E|].
  pose proof (@next_run_is_next ascii_unicode whole_durations every_minute s (anchor + 100 * Minute) anchor
    (anchor + 120 * Minute)) as Hn.
  destruct Hn as [_ Hev]; [|exact E|apply Hev; reflexivity].
  intros d Hd. change (Some (30 * Minute) = Some d) in Hd. injection Hd as <-. vm_compute. discriminate.
Defined.

(** ** Jobs *)

Record Job := mkJob {
  J_ID : string;
  J_Name : string;
  J_Enabled : bool;
  J_Schedule : Schedule;
  J_Payload : string;
  J_Delivery : option DeliveryTarget;
  J_Notifications : NotificationStats;
  J_SessionKey : string;
  J_Model : string;
  J_AutomationID : string;
  J_LastRunAt : Time;
  J_LastRunID : string;
  J_NextRunAt : Time;
  J_LastStatus : string;
  J_LastError : string;
  J_LastSummary : string;
  J_LastVerificationStatus : string;
  J_LastVerificationSummary : string;
  J_LastResult : option AutomationResult;
  J_ConsecutiveErrors : Z;
  J_BackoffUntil : Time;
  J_CreatedAt : Time;
  J_UpdatedAt : Time
}.

(** ** The store

    The list of jobs in memory, in the order of insertion. *)

Definition GetJob : list Job -> string -> option Job := list_get J_ID.
Definition AddJob : list Job -> Job -> StoreError + list Job := list_add J_ID.
Definition UpdateJob : list Job -> string -> (Job -> Job) -> StoreError + list Job := list_update J_ID.
Definition RemoveJob : list Job -> string -> StoreError + list Job := list_remove J_ID.

Abbreviation store_wf := (list_wf J_ID).
Abbreviation contents := (list_contents J_ID).

Lemma GetJob_contents jobs id : GetJob jobs id = contents jobs !! id.
Proof. apply list_get_contents. Qed.

(** The job store behaves as a finite map.  From any list of jobs with
    distinct identifiers, every sequence of additions, updates that keep the
    identifier and removals reports exactly the errors of the map operations
    and leaves jobs with distinct identifiers whose map is the result of the
    map operations; looking a job up in the list is looking it up in the map. *)
Theorem job_store_is_map jobs ops id :
  store_wf jobs -> Forall (keeps_id J_ID) ops ->
  let '(errs, jobs') := steps (store_step J_ID) jobs ops in
  store_wf jobs' /\ steps (map_step J_ID) (contents jobs) ops = (errs, contents jobs') /\
  GetJob jobs' id = contents jobs' !! id.
Proof. apply list_store_is_map. Qed.

Definition blankJob (id : string) : Job :=
  mkJob id "" true (mkSchedule "every" "" "1h" "" "") "" None emptyStats "" "" "" 0 "" 0 "" "" "" "" ""
    None 0 0 0 0.

Lemma job_store_is_map_witness :
  let ops := [OpAdd (blankJob "a"); OpAdd (blankJob "b"); OpAdd (blankJob "a"); OpRemove "a"; OpRemove "c"] in
  (steps (store_step J_ID) [] ops).1 = [None; None; Some ErrDuplicateID; None; Some ErrNotFound] /\
  GetJob (steps (store_step J_ID) [] ops).2 "b" = contents (steps (store_step J_ID) [] ops).2 !! "b".
Proof.
  intros ops. pose proof (job_store_is_map [] ops "b") as H.
  destruct (steps (store_step J_ID) [] ops) as [errs jobs'] eqn:E.
  destruct H as (_ & _ & Hget); [constructor|by repeat constructor|].
  split; [|exact Hget]. cbn [fst]. change errs with (errs, jobs').1. rewrite <- E. vm_compute. reflexivity.
Defined.

(** ** System events *)

Definition maxEventsPerSession : nat := 20.

Record SystemEvent := mkSystemEvent {
  SE_Text : string; SE_SessionKey : string; SE_AgentID : string; SE_CreatedAt : Time }.

Abbreviation EventQueue := (gmap string (list SystemEvent)) (only parsing).

Definition EnqueueEvent (q : EventQueue) (now : Time) (ev : SystemEvent) : EventQueue :=
  if decide (SE_SessionKey ev = "" \/ SE_Text ev = "") then q else
  let ev := if IsZero (SE_CreatedAt ev)
            then mkSystemEvent (SE_Text ev) (SE_SessionKey ev) (SE_AgentID ev) now else ev in
  let events := default [] (q !! SE_SessionKey ev) ++ [ev] in
  let events := if decide (maxEventsPerSession < List.length events)%nat
                then drop (List.length events - maxEventsPerSession) events else events in
  <[SE_SessionKey ev := events]> q.

Definition DrainEvents (q : EventQueue) (key : string) : list SystemEvent * EventQueue :=
  match default [] (q !! key) with [] => ([], q) | events => (events, delete key q) end.

Definition QueueLen (q : EventQueue) : nat := map_fold (fun _ events n => List.length events + n)%nat 0%nat q.

Definition SessionKeys (q : EventQueue) : list string :=
  (filter (fun kv => kv.2 <> []) (map_to_list q)).*1.

(** The abstract queue of a session: everything since the last drain. *)
Inductive queue_op := OpEnqueue (now : Time) (ev : SystemEvent) | OpDrain (key : string).

Definition queue_step (q : EventQueue) (op : queue_op) : EventQueue :=
  match op with OpEnqueue now ev => EnqueueEvent q now ev | OpDrain key => (DrainEvents q key).2 end.

Definition log_step (key : string) (log : list SystemEvent) (op : queue_op) : list SystemEvent :=
  match op with
  | OpEnqueue now ev =>
    if decide (SE_SessionKey ev = key /\ SE_Text ev <> "" /\ key <> "") then
      log ++ [if IsZero (SE_CreatedAt ev)
              then mkSystemEvent (SE_Text ev) key (SE_AgentID ev) now else ev]
    else log
  | OpDrain key' => if decide (key' = key) then [] else log
  end.

Definition newest {A} (n : nat) (l : list A) : list A := drop (List.length l - n) l.

Lemma newest_snoc {A} n (l : list A) x : (0 < n)%nat -> newest n (newest n l ++ [x]) = newest n (l ++ [x]).
Proof.
  intros Hn. unfold newest. rewrite !length_app, length_drop. cbn [List.length].
  destruct (Nat.le_gt_cases (List.length l) n) as [Hl|Hl].
  - replace (List.length l - n)%nat with 0%nat by lia. rewrite drop_0.
    by replace (List.length l - 0 + 1 - n)%nat with (List.length l + 1 - n)%nat by lia.
  - rewrite !skipn_app, !drop_drop, length_drop.
    f_equal; f_equal; lia.
Qed.

Lemma cap_newest {A} n (l : list A) :
  (if decide (n < List.length l)%nat then drop (List.length l - n) l else l) = newest n l.
Proof.
  unfold newest. case_decide; [done|]. by replace (List.length l - n)%nat with 0%nat by lia.
Qed.

Lemma queue_step_log key q op log :
  default [] (q !! key) = newest maxEventsPerSession log ->
  default [] (queue_step q op !! key) = newest maxEventsPerSession (log_step key log op).
Proof.
  intros Hq. destruct op as [now ev|key']; cbn [queue_step log_step].
  - unfold EnqueueEvent. case_decide as Hbad.
    { rewrite decide_False by (intros (<- & ? & ?); naive_solver). done. }
    rewrite cap_newest. set (ev' := if IsZero (SE_CreatedAt ev) then _ else _).
    assert (Hkey : SE_SessionKey ev' = SE_SessionKey ev) by (unfold ev'; by destruct (IsZero _)).
    rewrite Hkey. case_decide as Hk.
    + destruct Hk as (<- & _). rewrite lookup_insert_eq. cbn [default from_option]. rewrite Hq.
      apply newest_snoc. unfold maxEventsPerSession. lia.
    + rewrite lookup_insert_ne; [done|]. intros E. apply Hk. split; [done|]. naive_solver.
  - unfold DrainEvents. case_decide as Hk.
    + subst key'. destruct (default [] (q !! key)) as [|e l] eqn:E; cbn [snd]; [by rewrite E|].
      by rewrite lookup_delete_eq.
    + destruct (default [] (q !! key')); cbn [snd]; [done|]. by rewrite lookup_delete_ne.
Qed.

(** Draining a session returns its twenty newest events.  After any
    sequence of operations, draining a session returns, in order, the newest
    twenty of the events enqueued for it with a text since it was drained
    last, each stamped with the time of its arrival unless it carried a time;
    afterwards nothing is pending for the session, and the other sessions keep
    their events. *)
Theorem drain_returns_newest ops key :
  let q := foldl queue_step ∅ ops in
  (DrainEvents q key).1 = newest maxEventsPerSession (foldl (log_step key) [] ops) /\
  default [] ((DrainEvents q key).2 !! key) = [] /\
  forall other, other <> key -> (DrainEvents q key).2 !! other = q !! other.
Proof.
  intros q.
  assert (Hq : forall q0 log0, default [] (q0 !! key) = newest maxEventsPerSession log0 ->
    default [] (foldl queue_step q0 ops !! key) = newest maxEventsPerSession (foldl (log_step key) log0 ops)).
  { induction ops as [|op ops IH]; [done|]. intros q0 log0 H0. cbn [foldl]. apply IH.
    by apply queue_step_log. }
  specialize (Hq ∅ [] eq_refl). fold q in Hq. unfold DrainEvents.
  destruct (default [] (q !! key)) as [|e l] eqn:E; cbn [fst snd].
  - split_and!; auto.
  - rewrite lookup_delete_eq. split_and!; auto. intros other Ho. by rewrite lookup_delete_ne.
Qed.
