(* ===== verification/CronService.v ===== *)
(** * The cron service ([cron/service.go], [cron/executor.go])

    Running a job, recording its outcome, and the loop that runs due jobs.
    The world holds the jobs in memory, the jobs on disk, the number of
    effects so far, and the histories of submitted requests and delivered
    messages.  The clock, the runtime, the verifier, the channels and the file
    system answer as functions of the number of effects, so that nothing is
    assumed of them.  Logging is left out.  An execution works on the copy of
    the job that its caller took from the store, as in the sources, and is
    therefore atomic here: what others do during a run is seen only by later
    copies. *)
From S2P Require Import Prelude GoLib GoText Normalize RunState TextTrim ResultModel GoClock Automation ListStore CronSchedule.
From Stdlib Require Import Ascii String.
From stdpp Require Import relations.
Import Str Text GoTime GoAny.
Local Open Scope Z_scope.

Definition RunStatusOK : string := "ok".
Definition RunStatusError : string := "error".
Definition RunStatusSkipped : string := "skipped".
Definition maxConsecutiveErrors : Z := 10.
Definition failureAlertThreshold : Z := 3.
Definition backoffBase : Duration := 30 * Second.
Definition backoffMax : Duration := 1 * Hour.
Definition maxTimerDuration : Duration := 24 * Hour.
Definition minTimerDelay : Duration := 1 * Millisecond.
Definition maxCatchUpJobs : nat := 5.

(** ** Back-off *)

Fixpoint cron_backoff_loop (rounds : nat) (d : Duration) : Duration :=
  match rounds with
  | O => d
  | S rest => if decide (d < backoffMax) then cron_backoff_loop rest (GoInt.wrap64 (d * 2)) else d
  end.

(** [computeBackoff]; the loop runs at most [consecutiveErrors - 1] times. *)
Definition cron_computeBackoff (consecutiveErrors : Z) : Duration :=
  if decide (consecutiveErrors <= 0) then 0 else
  let d := cron_backoff_loop (Z.to_nat (consecutiveErrors - 1)) backoffBase in
  if decide (backoffMax < d) then backoffMax else d.

Lemma cron_backoff_loop_closed rounds d :
  0 < d <= 2 * backoffMax ->
  Z.min backoffMax (cron_backoff_loop rounds d) = Z.min backoffMax (d * 2 ^ Z.of_nat rounds).
Proof.
  revert d. induction rounds as [|rounds IH]; intros d Hd; cbn [cron_backoff_loop].
  { by rewrite Z.pow_0_r, Z.mul_1_r. }
  rewrite Nat2Z.inj_succ, Z.pow_succ_r by lia. pose proof (Z.pow_pos_nonneg 2 (Z.of_nat rounds)).
  unfold backoffMax, Hour, Minute, Second in *. case_decide; [|nia].
  rewrite GoInt.wrap64_id by (unfold GoInt.in_int64, GoInt.min_int64, GoInt.max_int64; lia).
  rewrite IH by lia. f_equal. lia.
Qed.

Lemma cron_computeBackoff_closed n :
  1 <= n -> cron_computeBackoff n = Z.min backoffMax (backoffBase * 2 ^ (n - 1)).
Proof.
  intros Hn. unfold cron_computeBackoff. rewrite decide_False by lia.
  pose proof (cron_backoff_loop_closed (Z.to_nat (n - 1)) backoffBase ltac:(done)) as E.
  rewrite Z2Nat.id in E by lia. case_decide; lia.
Qed.

(** ** Outcome of a run *)

Definition newline : string := String (ascii_of_nat 10) "".

(** [verificationFailed] of the cron package compares exactly. *)
Definition cron_verificationFailed (v : option ResultVerification) : bool :=
  match v with Some v => bool_decide (TrimSpace (RV_Status v) = "failed") | None => false end.

Definition verificationSummary (v : option ResultVerification) : string :=
  match v with Some v => TrimSpace (RV_Summary v) | None => "" end.

Definition verificationStatus (v : option ResultVerification) : string :=
  match v with Some v => TrimSpace (RV_Status v) | None => "" end.

Definition verificationWarningSummary (v : option ResultVerification) : string :=
  match v with
  | Some v =>
    if decide (TrimSpace (RV_Status v) = "warning") then
      "Verification warning: " +:+
      FirstNonEmpty [TrimSpace (RV_Summary v); "quality checks finished with warnings"]
    else ""
  | None => ""
  end.

Fixpoint compact_loop (seen : gset string) (items : list string) : list string :=
  match items with
  | [] => []
  | item :: rest =>
    let item := TrimSpace item in
    if decide (item = "") then compact_loop seen rest
    else if decide (item ∈ seen) then compact_loop seen rest
    else item :: compact_loop ({[ item ]} ∪ seen) rest
  end.

Definition compactArtifactURIs (items : list string) : list string := compact_loop ∅ items.

Definition containsAllArtifacts (content : string) (uris : list string) : bool :=
  forallb (fun uri => Contains content uri) uris.

Section Service.
Context `{GoUnicode} `{GoTimeText} `{CronLib} `{GoQuote}.

(** Status and error message of a result. *)
Definition outcomeFromResult (result : AutomationResult) : string * string :=
  let n := AutomationResult_Normalized result in
  let unexpected (s : string) : string := "unexpected terminal status: " +:+ s in
  if cron_verificationFailed (AR_Verification n) then
    let errMsg := verificationSummary (AR_Verification n) in
    (RunStatusError, if decide (errMsg = "") then "verification failed" else errMsg)
  else if decide (AR_Status n = AutomationStatusOK \/ AR_Status n = AutomationStatusTriggered) then
    (RunStatusOK, "")
  else if decide (AR_Status n = AutomationStatusError) then
    let errMsg := ErrorMessage n in
    (RunStatusError,
     if decide (errMsg = "") then FirstNonEmpty [verificationSummary (AR_Verification n); "run failed"]
     else errMsg)
  else if decide (AR_Status n = AutomationStatusSkipped) then (RunStatusSkipped, "run was cancelled")
  else if decide (AR_Status n = AutomationStatusPending) then
    (RunStatusError,
     if decide (AR_RunStatus n <> "") then unexpected (AR_RunStatus n)
     else "unexpected non-terminal automation result")
  else (RunStatusError,
        if decide (AR_RunStatus n <> "") then unexpected (AR_RunStatus n) else unexpected (AR_Status n)).

(** [cronRunResultFromRuntime] for a result that is not nil. *)
Definition cronRunResultFromRuntime (result : RunResult) : AutomationResult :=
  if Populated (RR_Canonical result) then AutomationResult_Normalized (RR_Canonical result) else
  let errText := TrimSpace (RR_Error result) in
  AutomationResult_Normalized
    (mkAutomationResult AutomationSourceRuntime "" (TrimSpace (RR_RunID result))
      (TrimSpace (Status_string (RR_Status result))) (TrimSpace (RR_Summary result))
      (TrimSpace (RR_Output result)) ""
      (if decide (errText = "") then None else Some (plainError errText)) None
      ((fun item => mkArtifact (TrimSpace (Dv_Kind item)) (TrimSpace (Dv_Name item))
          (TrimSpace (Dv_URI item)) (TrimSpace (Dv_ContentType item)) (Dv_SizeBytes item)
          (TrimSpace (Dv_PreviewText item)) []) <$> RR_Deliverables result)
      (RR_NextActions result) []).

Definition with_verification (r : AutomationResult) (v : ResultVerification) : AutomationResult :=
  mkAutomationResult (AR_Source r) (AR_Status r) (AR_RunID r) (AR_RunStatus r) (AR_Summary r)
    (AR_Output r) (AR_Fingerprint r) (AR_Error r) (Some v) (AR_Artifacts r) (AR_Actions r)
    (AR_Metadata r).

(** A result of the executor itself. *)
Definition failedResult (msg : string) : AutomationResult :=
  mkAutomationResult AutomationSourceCron AutomationStatusError "" "failed" "" "" ""
    (Some (plainError msg)) None [] [] [].

Definition bullets (uris : list string) : string :=
  String.concat "" ((fun uri => "- " +:+ uri +:+ newline) <$> uris).

Definition deliveryContent (job : Job) (result : AutomationResult) : string :=
  let n := AutomationResult_Normalized result in
  let output := TrimSpace (AR_Output n) in
  let summary := TrimSpace (AR_Summary n) in
  let artifacts := compactArtifactURIs (ArtifactURIs n) in
  let warning := verificationWarningSummary (AR_Verification n) in
  if decide (output <> "") then
    let base :=
      if bool_decide (artifacts <> []) && negb (containsAllArtifacts output artifacts) then
        TrimSpace (output +:+ newline +:+ newline +:+ "Artifacts:" +:+ newline +:+ bullets artifacts)
      else output in
    if decide (warning = "") then base else warning +:+ newline +:+ newline +:+ base
  else
    TrimSpace (Joins
      ((if decide (warning = "") then [] else [warning])
       ++ (if decide (summary <> "") then [summary]
           else ["[cron:" +:+ J_ID job +:+ "] job " +:+ Quote (J_Name job) +:+ " completed successfully"])
       ++ (if decide (artifacts <> []) then "Artifacts:" :: ((fun uri => "- " +:+ uri) <$> artifacts) else []))
      newline).

Definition verificationFailureContent (job : Job) (result : AutomationResult) : string :=
  let n := AutomationResult_Normalized result in
  let summary := FirstNonEmpty [verificationSummary (AR_Verification n); ErrorMessage n; "verification failed"] in
  "[cron:" +:+ J_ID job +:+ "] job " +:+ Quote (J_Name job) +:+ " failed verification: " +:+ summary.

(** ** World and environment *)

Record Env := mkEnv {
  E_now : nat -> Time;
  E_runner : option Runner;
  E_submit : nat -> SubmitRequest -> Answer;
  E_poll : nat -> nat -> string -> Answer;
  E_patience : nat -> nat;
  E_verifier : option (nat -> string -> string + option ResultVerification);
  E_channels : option (nat -> DeliveryTarget -> string -> option string);
  E_saveFails : nat -> bool
}.

Record World := mkWorld {
  W_jobs : list Job;
  W_disk : list Job;
  W_effects : nat;
  W_submitted : list (string * SubmitRequest);
  W_sent : list (DeliveryTarget * string)
}.

Context (e : Env).

Definition effect (w : World) : World :=
  mkWorld (W_jobs w) (W_disk w) (S (W_effects w)) (W_submitted w) (W_sent w).

Definition set_jobs (w : World) (jobs : list Job) : World :=
  mkWorld jobs (W_disk w) (W_effects w) (W_submitted w) (W_sent w).

Definition Now (w : World) : Time * World := (E_now e (W_effects w), effect w).

(** [store.Update], whose error is only logged. *)
Definition cron_Update (w : World) (id : string) (fn : Job -> Job) : World :=
  match UpdateJob (W_jobs w) id fn with inr jobs => set_jobs w jobs | inl _ => w end.

(** [store.Save]: the jobs replace the file, or the file stays as it is. *)
Definition SaveJobs (w : World) : World :=
  mkWorld (W_jobs w) (if E_saveFails e (W_effects w) then W_disk w else W_jobs w)
    (S (W_effects w)) (W_submitted w) (W_sent w).

(** ** The executor *)

Definition submitRequest (job : Job) : SubmitRequest :=
  mkSubmit (if decide (J_SessionKey job = "") then "cron:" +:+ J_ID job else J_SessionKey job)
    (J_Payload job) (J_Model job)
    (if decide (TrimSpace (J_AutomationID job) = "") then J_ID job else TrimSpace (J_AutomationID job))
    [("automation_kind", AnyString "cron"); ("automation_id", AnyString (J_ID job));
     ("automation_name", AnyString (TrimSpace (J_Name job)))] None.

Definition attachVerification (w : World) (result : AutomationResult) : AutomationResult * World :=
  match E_verifier e with
  | None => (result, w)
  | Some verify =>
    if decide (TrimSpace (AR_RunID result) = "") then (result, w) else
    let w' := effect w in
    match verify (W_effects w) (AR_RunID result) with
    | inl err => (with_verification result (mkVerification "warning" ("verification unavailable: " +:+ err)), w')
    | inr None => (result, w')
    | inr (Some v) =>
      (with_verification result (mkVerification (TrimSpace (RV_Status v)) (TrimSpace (RV_Summary v))), w')
    end
  end.

Definition run (w : World) (job : Job) : AutomationResult * World :=
  match E_runner e with
  | None => (failedResult "automation runner is not configured", w)
  | Some runner =>
    let n := W_effects w in
    let w := mkWorld (W_jobs w) (W_disk w) (S n) (W_submitted w ++ [(J_ID job, submitRequest job)]) (W_sent w) in
    match Runner_Run (E_submit e n) (E_poll e n) runner (E_patience e n) (submitRequest job) with
    | inl err => (failedResult ("submit failed: " +:+ err), w)
    | inr result => attachVerification w (cronRunResultFromRuntime result)
    end
  end.

(** The result is the error, if any. *)
Definition deliver (w : World) (job : Job) (content : string) : option string * World :=
  match E_channels e, J_Delivery job with
  | None, _ => (Some "channel deliverer is not configured", w)
  | Some _, None => (None, w)
  | Some send, Some target =>
    if decide (DTg_Channel target = "" \/ DTg_Target target = "") then (None, w) else
    (send (W_effects w) target content,
     mkWorld (W_jobs w) (W_disk w) (S (W_effects w)) (W_submitted w) (W_sent w ++ [(target, content)]))
  end.

(** ** Notifications *)

Definition errorText (err : option string) : string :=
  match err with Some msg => TrimSpace msg | None => "" end.

Definition J_set_notes (j : Job) (notes : NotificationStats) (updated : Time) : Job :=
  mkJob (J_ID j) (J_Name j) (J_Enabled j) (J_Schedule j) (J_Payload j) (J_Delivery j) notes
    (J_SessionKey j) (J_Model j) (J_AutomationID j) (J_LastRunAt j) (J_LastRunID j) (J_NextRunAt j)
    (J_LastStatus j) (J_LastError j) (J_LastSummary j) (J_LastVerificationStatus j)
    (J_LastVerificationSummary j) (J_LastResult j) (J_ConsecutiveErrors j) (J_BackoffUntil j)
    (J_CreatedAt j) updated.

(** The clock is read inside the update, hence only for a job that exists. *)
Definition recordNotificationAttempt (w : World) (jobID : string) (attemptAt : Time) (err : option string) : World :=
  if decide (TrimSpace jobID = "") then w else
  match GetJob (W_jobs w) jobID with
  | None => w
  | Some _ =>
    let '(updated, w) := Now w in
    SaveJobs (cron_Update w jobID (fun j =>
      J_set_notes j (RecordNotification (J_Notifications j) attemptAt (bool_decide (err = None)) (errorText err))
        updated))
  end.

Definition deliverNotification (w : World) (job : Job) (content : string) : World :=
  match J_Delivery job with
  | None => w
  | Some _ =>
    if decide (TrimSpace content = "") then w else
    let '(attemptAt, w) := Now w in
    let '(err, w) := deliver w job content in
    recordNotificationAttempt w (J_ID job) attemptAt err
  end.

(** ** Execution *)

(** The update of the job after a run. *)
Definition J_after_run (j : Job) (now : Time) (result : AutomationResult) (status errMsg : string)
    (nextRun : Time) (consecutiveErrors : Z) (backoffUntil : Time) (disable : bool) : Job :=
  mkJob (J_ID j) (J_Name j) (if disable then false else J_Enabled j) (J_Schedule j) (J_Payload j)
    (J_Delivery j) (J_Notifications j) (J_SessionKey j) (J_Model j) (J_AutomationID j)
    now (TrimSpace (AR_RunID result)) (if disable then zeroTime else nextRun)
    status errMsg (TrimSpace (AR_Summary (AutomationResult_Normalized result)))
    (verificationStatus (AR_Verification result)) (verificationSummary (AR_Verification result))
    (CloneAutomationResult (Some result))
    (if decide (status = RunStatusOK) then 0 else consecutiveErrors)
    (if decide (status = RunStatusOK) then zeroTime else backoffUntil)
    (J_CreatedAt j) now.

Definition consecutive_errors (job : Job) (status : string) : Z :=
  if decide (status = RunStatusError) then GoInt.wrap64 (J_ConsecutiveErrors job + 1) else 0.

Definition alertMessage (job : Job) (errors : Z) (errMsg : string) : string :=
  "[cron:" +:+ J_ID job +:+ "] job " +:+ Quote (J_Name job) +:+ " has failed " +:+ FormatInt errors
  +:+ " times consecutively. Last error: " +:+ errMsg.

Definition disableMessage (job : Job) (errors : Z) : string :=
  "[cron:" +:+ J_ID job +:+ "] job " +:+ Quote (J_Name job) +:+ " auto-disabled after "
  +:+ FormatInt errors +:+ " consecutive failures".

Definition executeAndUpdate (w : World) (job : Job) : World :=
  let '(now, w) := Now w in
  let '(result, w) := run w job in
  let '(status, errMsg) := outcomeFromResult result in
  let w := if decide (status = RunStatusOK) then deliverNotification w job (deliveryContent job result)
           else w in
  let w := if bool_decide (status = RunStatusError) && cron_verificationFailed (AR_Verification result) then
             deliverNotification w job (verificationFailureContent job result) else w in
  let nextRun := match NextRunTimeAnchored (J_Schedule job) now (J_CreatedAt job) with
                 | inr t => t | inl _ => zeroTime end in
  let errors := consecutive_errors job status in
  let disableAfterRun := bool_decide (Sch_Kind (J_Schedule job) = ScheduleKindAt) in
  let autoDisable := bool_decide (maxConsecutiveErrors <= errors) in
  let backoffUntil := if bool_decide (status = RunStatusError) && negb autoDisable
                      then Add now (cron_computeBackoff errors) else zeroTime in
  let w := cron_Update w (J_ID job) (fun j =>
    J_after_run j now result status errMsg nextRun errors backoffUntil (disableAfterRun || autoDisable)) in
  let w := if decide (errors = failureAlertThreshold) then deliverNotification w job (alertMessage job errors errMsg)
           else w in
  let w := if autoDisable then deliverNotification w job (disableMessage job errors) else w in
  SaveJobs w.

(** ** The loop *)

(** Whether [fireDueJobs] runs the job at [now]. *)
Definition due (now : Time) (job : Job) : bool :=
  J_Enabled job && negb (IsZero (J_NextRunAt job)) && negb (After (J_NextRunAt job) now)
  && negb (negb (IsZero (J_BackoffUntil job)) && Before now (J_BackoffUntil job)).

Fixpoint fire_loop (now : Time) (w : World) (jobs : list Job) : World :=
  match jobs with
  | [] => w
  | job :: rest => fire_loop now (if due now job then executeAndUpdate w job else w) rest
  end.

Definition fireDueJobs (w : World) : World :=
  let '(now, w) := Now w in fire_loop now w (W_jobs w).

Definition earliest_loop (jobs : list Job) : Time :=
  earliest_of (fun job => J_Enabled job && negb (IsZero (J_NextRunAt job))) J_NextRunAt jobs.

(** [nextDelay] at the time [now]. *)
Definition nextDelay (now : Time) (jobs : list Job) : Duration :=
  let earliest := earliest_loop jobs in
  if IsZero earliest then maxTimerDuration else
  let delay := Sub earliest now in
  if decide (delay <= 0) then minTimerDelay
  else if decide (maxTimerDuration < delay) then maxTimerDuration
  else delay.

(** ** Start *)

Definition J_set_next (j : Job) (next updated : Time) : Job :=
  mkJob (J_ID j) (J_Name j) (J_Enabled j) (J_Schedule j) (J_Payload j) (J_Delivery j)
    (J_Notifications j) (J_SessionKey j) (J_Model j) (J_AutomationID j) (J_LastRunAt j)
    (J_LastRunID j) next (J_LastStatus j) (J_LastError j) (J_LastSummary j)
    (J_LastVerificationStatus j) (J_LastVerificationSummary j) (J_LastResult j)
    (J_ConsecutiveErrors j) (J_BackoffUntil j) (J_CreatedAt j) updated.

Fixpoint seed_loop (now : Time) (w : World) (changed : bool) (jobs : list Job) : World * bool :=
  match jobs with
  | [] => (w, changed)
  | job :: rest =>
    if negb (J_Enabled job) || negb (IsZero (J_NextRunAt job)) then seed_loop now w changed rest else
    let anchor := if IsZero (J_LastRunAt job) then J_CreatedAt job else J_LastRunAt job in
    match NextRunTimeAnchored (J_Schedule job) now anchor with
    | inl _ => seed_loop now w changed rest
    | inr next =>
      if IsZero next then seed_loop now w changed rest
      else seed_loop now (cron_Update w (J_ID job) (fun j => J_set_next j next now)) true rest
    end
  end.

Definition seedNextRunTimes (w : World) : World :=
  let '(now, w) := Now w in
  let '(w, changed) := seed_loop now w false (W_jobs w) in
  if changed then SaveJobs w else w.

Definition missed (now : Time) (job : Job) : bool :=
  J_Enabled job && negb (IsZero (J_NextRunAt job)) && Before (J_NextRunAt job) now.

(** The jobs that [catchUpMissedJobs] hands to its goroutine. *)
Definition missedJobs (now : Time) (jobs : list Job) : list Job :=
  take maxCatchUpJobs (filter (fun job => missed now job = true) jobs).

(** ** What an execution changes *)

Lemma Update_spec w id fn :
  store_wf (W_jobs w) -> (forall j, J_ID (fn j) = J_ID j) ->
  let w' := cron_Update w id fn in
  store_wf (W_jobs w') /\ J_ID <$> W_jobs w' = J_ID <$> W_jobs w /\
  contents (W_jobs w') = alter fn id (contents (W_jobs w)) /\ W_submitted w' = W_submitted w.
Proof.
  intros Hwf Hfn. cbn zeta. unfold cron_Update, UpdateJob, list_update.
  pose proof (update_loop_spec J_ID (W_jobs w) id fn Hwf Hfn) as Hu.
  destruct (update_loop J_ID (W_jobs w) id fn) as [l|]; cbn [set_jobs W_jobs W_submitted].
  - destruct Hu as (Hl & j & Hj & -> & Hids). split_and!; auto.
    apply map_eq. intros k. destruct (decide (k = id)) as [->|Hk].
    + by rewrite lookup_insert_eq, lookup_alter_eq, Hj.
    + by rewrite lookup_insert_ne, lookup_alter_ne by done.
  - split_and!; auto. apply map_eq. intros k. destruct (decide (k = id)) as [->|Hk].
    + by rewrite lookup_alter_eq, Hu.
    + by rewrite lookup_alter_ne.
Qed.

(** Only the notification statistics of the job [id] may change. *)
Definition quiet (id : string) (w w' : World) : Prop :=
  store_wf (W_jobs w) ->
  store_wf (W_jobs w') /\ J_ID <$> W_jobs w' = J_ID <$> W_jobs w /\
  (forall k, k <> id -> contents (W_jobs w') !! k = contents (W_jobs w) !! k) /\
  (forall j, contents (W_jobs w) !! id = Some j ->
     exists n u, contents (W_jobs w') !! id = Some (J_set_notes j n u)) /\
  W_submitted w' = W_submitted w.

Lemma quiet_same id w w' :
  W_jobs w' = W_jobs w -> W_submitted w' = W_submitted w -> quiet id w w'.
Proof.
  intros Hj Hs Hwf. rewrite Hj. split_and!; auto. intros j Ej.
  exists (J_Notifications j), (J_UpdatedAt j). rewrite Ej. by destruct j.
Qed.

Lemma quiet_trans id w1 w2 w3 : quiet id w1 w2 -> quiet id w2 w3 -> quiet id w1 w3.
Proof.
  intros H12 H23 Hwf. destruct (H12 Hwf) as (Hwf2 & Hi2 & Ho2 & Hown2 & Hs2).
  destruct (H23 Hwf2) as (Hwf3 & Hi3 & Ho3 & Hown3 & Hs3). split_and!; [done|congruence| | |congruence].
  - intros k Hk. by rewrite Ho3, Ho2.
  - intros j Hj. destruct (Hown2 j Hj) as (n & u & Hj2). destruct (Hown3 _ Hj2) as (n' & u' & Hj3).
    exists n', u'. by rewrite Hj3.
Qed.

Lemma quiet_record w id at_ err : quiet id w (recordNotificationAttempt w id at_ err).
Proof.
  unfold recordNotificationAttempt. case_decide; [by apply quiet_same|].
  destruct (GetJob (W_jobs w) id) as [j0|]; [|by apply quiet_same]. cbn [Now].
  set (fn := fun j => J_set_notes j _ _).
  intros Hwf. destruct (Update_spec (effect w) id fn Hwf) as (Hwf' & Hi & Hc & Hs); [done|].
  change (W_jobs (SaveJobs (cron_Update (effect w) id fn))) with (W_jobs (cron_Update (effect w) id fn)).
  change (W_submitted (SaveJobs (cron_Update (effect w) id fn))) with (W_submitted (cron_Update (effect w) id fn)).
  rewrite Hc, Hs. split_and!; auto.
  - intros k Hk. by rewrite lookup_alter_ne.
  - intros j Hj. change (W_jobs (effect w)) with (W_jobs w). rewrite lookup_alter_eq, Hj. cbn. eauto.
Qed.

Lemma quiet_deliver w job content : quiet (J_ID job) w (deliverNotification w job content).
Proof.
  unfold deliverNotification. destruct (J_Delivery job) as [target|] eqn:Ed; [|by apply quiet_same].
  case_decide; [by apply quiet_same|]. cbn [Now].
  destruct (deliver (effect w) job content) as [err w'] eqn:Ew.
  apply (quiet_trans _ _ w'); [|apply quiet_record]. apply quiet_same.
  all: unfold deliver in Ew; rewrite Ed in Ew; destruct (E_channels e);
    repeat case_decide; by injection Ew as <- <-.
Qed.

Lemma run_effects w job :
  let w' := (run w job).2 in
  W_jobs w' = W_jobs w /\
  W_submitted w' = W_submitted w ++ match E_runner e with Some _ => [(J_ID job, submitRequest job)] | None => [] end.
Proof.
  cbn zeta. unfold run. destruct (E_runner e); [|by rewrite app_nil_r].
  destruct (Runner_Run _ _ _ _ _) as [err|result]; [done|]. unfold attachVerification.
  destruct (E_verifier e) as [verify|]; [|done]. case_decide; [done|].
  by destruct (verify _ _) as [|[]].
Qed.

(** The outcome of running the job in the world. *)
Definition outcome (w : World) (job : Job) : AutomationResult * string * string :=
  let result := (run (effect w) job).1 in (result, (outcomeFromResult result).1, (outcomeFromResult result).2).

(** The job that an execution leaves for the job [cur] of the store, when the
    executed copy is [job]. *)
Definition executed (w : World) (job cur : Job) : Job :=
  let '(result, status, errMsg) := outcome w job in
  let now := E_now e (W_effects w) in
  let errors := consecutive_errors job status in
  let autoDisable := bool_decide (maxConsecutiveErrors <= errors) in
  J_after_run cur now result status errMsg
    (match NextRunTimeAnchored (J_Schedule job) now (J_CreatedAt job) with inr t => t | inl _ => zeroTime end)
    errors
    (if bool_decide (status = RunStatusError) && negb autoDisable
     then Add now (cron_computeBackoff errors) else zeroTime)
    (bool_decide (Sch_Kind (J_Schedule job) = ScheduleKindAt) || autoDisable).

Lemma quiet_if id (b : bool) w w' : quiet id w w' -> quiet id w (if b then w' else w).
Proof. destruct b; [done|]. intros _. by apply quiet_same. Qed.

Lemma quiet_dec id {P} (d : Decision P) w w' : quiet id w w' -> quiet id w (if d then w' else w).
Proof. destruct d; [done|]. intros _. by apply quiet_same. Qed.

(** [executed] up to notification statistics, which deliveries before and
    after the update change. *)
Lemma executeAndUpdate_spec w job :
  store_wf (W_jobs w) ->
  let w' := executeAndUpdate w job in
  store_wf (W_jobs w') /\ J_ID <$> W_jobs w' = J_ID <$> W_jobs w /\
  (forall k, k <> J_ID job -> contents (W_jobs w') !! k = contents (W_jobs w) !! k) /\
  (forall cur, contents (W_jobs w) !! J_ID job = Some cur ->
    exists n u, contents (W_jobs w') !! J_ID job = Some (J_set_notes (executed w job cur) n u)) /\
  W_submitted w' = W_submitted w ++
    match E_runner e with Some _ => [(J_ID job, submitRequest job)] | None => [] end.
Proof.
  intros Hwf. cbn zeta. unfold executeAndUpdate, executed, outcome. cbn [Now].
  destruct (run_effects (effect w) job) as [Hj1 Hs1].
  destruct (run (effect w) job) as [result w1]. cbn [fst snd] in *.
  destruct (outcomeFromResult result) as [status errMsg]. cbn [fst snd].
  set (now := E_now e (W_effects w)).
  set (errors := consecutive_errors job status).
  set (auto := bool_decide (maxConsecutiveErrors <= errors)).
  set (fn := fun j => J_after_run j now _ _ _ _ _ _ _).
  set (w2 := if decide (status = RunStatusOK) then _ else w1).
  set (w3 := if bool_decide (status = RunStatusError) && _ then _ else w2).
  set (w4 := cron_Update w3 (J_ID job) fn).
  set (w5 := if decide (errors = failureAlertThreshold) then _ else w4).
  set (w6 := if auto then _ else w5).
  assert (Hpre : quiet (J_ID job) w1 w3).
  { apply (quiet_trans _ _ w2); [apply quiet_dec, quiet_deliver|apply quiet_if, quiet_deliver]. }
  assert (Hpost : quiet (J_ID job) w4 (SaveJobs w6)).
  { apply (quiet_trans _ _ w5); [apply quiet_dec, quiet_deliver|].
    apply (quiet_trans _ _ w6); [apply quiet_if, quiet_deliver|by apply quiet_same]. }
  change (W_jobs (effect w)) with (W_jobs w) in Hj1. rewrite <- Hj1 in Hwf.
  change (W_submitted (effect w)) with (W_submitted w) in Hs1. rewrite <- Hj1, <- Hs1.
  destruct (Hpre Hwf) as (Hwf3 & Hi3 & Ho3 & Hown3 & Hs3).
  destruct (Update_spec w3 (J_ID job) fn Hwf3) as (Hwf4 & Hi4 & Hc4 & Hs4); [done|].
  fold w4 in Hwf4, Hi4, Hc4, Hs4.
  destruct (Hpost Hwf4) as (Hwf6 & Hi6 & Ho6 & Hown6 & Hs6).
  split_and!; [done|congruence| | |congruence].
  - intros k Hk. rewrite Ho6, Hc4, lookup_alter_ne by done. by apply Ho3.
  - intros cur Hcur. destruct (Hown3 cur Hcur) as (n & u & Hn).
    destruct (Hown6 (fn (J_set_notes cur n u))) as (n' & u' & Hn').
    { by rewrite Hc4, lookup_alter_eq, Hn. }
    exists n', u'. rewrite Hn'. done.
Qed.
(** ** Firing due jobs *)

Definition submission (job : Job) : string * SubmitRequest := (J_ID job, submitRequest job).

Lemma fire_loop_spec now w jobs :
  is_Some (E_runner e) -> store_wf (W_jobs w) ->
  let w' := fire_loop now w jobs in
  store_wf (W_jobs w') /\ J_ID <$> W_jobs w' = J_ID <$> W_jobs w /\
  W_submitted w' = W_submitted w ++ (submission <$> filter (fun j => due now j = true) jobs) /\
  forall k, (forall j, j ∈ jobs -> J_ID j = k -> due now j = false) ->
    contents (W_jobs w') !! k = contents (W_jobs w) !! k.
Proof.
  intros [r Hr]. revert w. induction jobs as [|job jobs IH]; intros w Hwf; cbn [fire_loop].
  { rewrite app_nil_r. done. }
  destruct (due now job) eqn:Ed.
  - destruct (executeAndUpdate_spec w job Hwf) as (Hwf1 & Hi1 & Ho1 & _ & Hs1).
    destruct (IH _ Hwf1) as (Hwf' & Hi' & Hs' & Ho'). rewrite Hr in Hs1. split_and!; [done|congruence| |].
    + rewrite Hs', Hs1, filter_cons_True by done. by rewrite <- app_assoc.
    + intros k Hk. rewrite Ho' by (intros j Hj; apply Hk; by right). apply Ho1. intros ->.
      specialize (Hk job ltac:(by left) eq_refl). congruence.
  - destruct (IH _ Hwf) as (Hwf' & Hi' & Hs' & Ho'). split_and!; [done..| |].
    + rewrite Hs', filter_cons_False by congruence. done.
    + intros k Hk. apply Ho'. intros j Hj. apply Hk. by right.
Qed.

Lemma due_iff now job :
  due now job = true <->
  J_Enabled job = true /\ J_NextRunAt job <> zeroTime /\ J_NextRunAt job <= now /\
  (J_BackoffUntil job = zeroTime \/ J_BackoffUntil job <= now).
Proof.
  unfold due, IsZero, After, Before. rewrite !andb_true_iff, !negb_true_iff, !andb_false_iff.
  rewrite !negb_false_iff, !bool_decide_eq_true, !bool_decide_eq_false.
  intuition (auto; lia).
Qed.

(** C13: The timer runs exactly the due jobs.  With a configured runner and
    distinct identifiers, one firing of the timer submits, once each and in
    the order of the store, the jobs that are enabled, have a next run at or
    before the current time and are not backing off; every other job stays as
    it is, and no job is added or lost. *)
Theorem fire_runs_due_jobs w :
  is_Some (E_runner e) -> store_wf (W_jobs w) ->
  let now := E_now e (W_effects w) in
  let is_due j := J_Enabled j = true /\ J_NextRunAt j <> zeroTime /\ J_NextRunAt j <= now /\
    (J_BackoffUntil j = zeroTime \/ J_BackoffUntil j <= now) in
  let w' := fireDueJobs w in
  (exists ran, W_submitted w' = W_submitted w ++ (submission <$> ran) /\ ran `sublist_of` W_jobs w /\
    forall j, j ∈ ran <-> j ∈ W_jobs w /\ is_due j) /\
  J_ID <$> W_jobs w' = J_ID <$> W_jobs w /\
  forall j, j ∈ W_jobs w -> ~ is_due j -> GetJob (W_jobs w') (J_ID j) = Some j.
Proof.
  intros Hr Hwf now is_due w'.
  destruct (fire_loop_spec now (effect w) (W_jobs w) Hr Hwf) as (Hwf' & Hi & Hs & Ho).
  change (fire_loop now (effect w) (W_jobs w)) with w' in *. split_and!; [|done|].
  - exists (filter (fun j => due now j = true) (W_jobs w)). split_and!; [done|apply sublist_filter|].
    intros j. rewrite list_elem_of_filter, due_iff. unfold is_due; tauto.
  - intros j Hj Hn. rewrite GetJob_contents, Ho.
    + by apply contents_elem.
    + intros j' Hj' Eid. apply not_true_iff_false. rewrite due_iff. intros Hd. apply Hn.
      by rewrite (list_wf_inj J_ID (W_jobs w) j j').
Qed.

(** ** Failing jobs *)

Definition run_current (id : string) (w : World) : World :=
  match GetJob (W_jobs w) id with Some j => executeAndUpdate w j | None => w end.

Fixpoint run_times (id : string) (w : World) (n : nat) : World :=
  match n with O => w | S n => run_current id (run_times id w n) end.

(** What is known of a job after [n] failures in a row. *)
Definition failed_times (n : Z) (kind : string) (j : Job) : Prop :=
  J_ConsecutiveErrors j = n /\ Sch_Kind (J_Schedule j) = kind /\
  J_Enabled j = bool_decide (n < maxConsecutiveErrors) /\
  (1 <= n < maxConsecutiveErrors ->
    J_BackoffUntil j = J_LastRunAt j + Z.min backoffMax (backoffBase * 2 ^ (n - 1))) /\
  (n = maxConsecutiveErrors -> J_NextRunAt j = zeroTime /\ J_BackoffUntil j = zeroTime).

Lemma executed_failed w j n kind :
  (outcome w j).1.2 = RunStatusError -> kind <> ScheduleKindAt -> 0 <= n < maxConsecutiveErrors ->
  failed_times n kind j -> failed_times (n + 1) kind (executed w j j).
Proof.
  unfold failed_times, executed. destruct (outcome w j) as [[result status] errMsg]. cbn [fst snd].
  intros -> Hk Hn (Herr & Hkind & Hen & _). cbn [J_after_run J_ConsecutiveErrors J_Schedule J_Enabled
    J_BackoffUntil J_LastRunAt J_NextRunAt]. unfold consecutive_errors.
  rewrite !(decide_True (P := RunStatusError = RunStatusError)) by done.
  rewrite !(decide_False (P := RunStatusError = RunStatusOK)) by discriminate.
  unfold maxConsecutiveErrors in *. rewrite Herr.
  rewrite GoInt.wrap64_id by (unfold GoInt.in_int64, GoInt.min_int64, GoInt.max_int64; lia).
  rewrite (bool_decide_eq_false_2 (Sch_Kind (J_Schedule j) = ScheduleKindAt)) by congruence.
  rewrite (bool_decide_eq_true_2 (RunStatusError = RunStatusError)) by done. cbn [orb andb].
  split_and!; auto.
  - destruct (decide (10 <= n + 1)).
    + by rewrite bool_decide_eq_true_2, bool_decide_eq_false_2 by lia.
    + by rewrite bool_decide_eq_false_2, Hen, !bool_decide_eq_true_2 by lia.
  - intros Hlt. rewrite bool_decide_eq_false_2 by lia. cbn [negb]. unfold Add.
    by rewrite cron_computeBackoff_closed by lia.
  - intros E. by rewrite bool_decide_eq_true_2 by lia.
Qed.

Lemma failed_times_notes n kind j notes u :
  failed_times n kind j -> failed_times n kind (J_set_notes j notes u).
Proof. done. Qed.

(** A failing job backs off and is switched off after ten failures.  Take
    a repeating job that is enabled and has no failures, and suppose each of
    its runs ends in an error.  After [n] runs, for [n] up to ten, the job counts [n]
    failures; before the tenth it is enabled and backs off from its last run
    for 30 seconds doubled with every further failure, at most an hour; after
    the tenth it is disabled without a next run, so the timer never runs it. *)
Theorem failures_back_off_then_disable w id j n :
  store_wf (W_jobs w) -> GetJob (W_jobs w) id = Some j ->
  J_Enabled j = true -> J_ConsecutiveErrors j = 0 -> Sch_Kind (J_Schedule j) <> ScheduleKindAt ->
  (forall w' j', (outcome w' j').1.2 = RunStatusError) ->
  (n <= 10)%nat ->
  exists j', GetJob (W_jobs (run_times id w n)) id = Some j' /\
    J_ConsecutiveErrors j' = Z.of_nat n /\ J_Enabled j' = bool_decide (n < 10)%nat /\
    ((1 <= n < 10)%nat ->
      J_BackoffUntil j' = J_LastRunAt j' + Z.min (1 * Hour) (30 * Second * 2 ^ (Z.of_nat n - 1))) /\
    (n = 10%nat -> J_NextRunAt j' = zeroTime /\ forall now, due now j' = false).
Proof.
  intros Hwf Hj Hen Herr Hk Hfail Hn.
  assert (Hind : store_wf (W_jobs (run_times id w n)) /\ exists j',
    GetJob (W_jobs (run_times id w n)) id = Some j' /\
    failed_times (Z.of_nat n) (Sch_Kind (J_Schedule j)) j').
  { induction n as [|n IH]; cbn [run_times].
    { split; [done|]. exists j. split; [done|]. unfold failed_times, maxConsecutiveErrors.
      split_and!; auto; lia. }
    destruct (IH ltac:(lia)) as (Hwf' & j1 & Hj1 & Hf1). clear IH.
    generalize dependent (run_times id w n). intros w1 Hwf' Hj1. unfold run_current. rewrite Hj1.
    pose proof (list_get_id J_ID _ _ _ Hj1) as Eid.
    destruct (executeAndUpdate_spec w1 j1 Hwf') as (Hwf2 & _ & _ & Hown & _).
    split; [done|]. rewrite GetJob_contents in Hj1. rewrite <- Eid in Hj1.
    destruct (Hown j1 Hj1) as (notes & u & Hc). rewrite GetJob_contents, <- Eid.
    exists (J_set_notes (executed w1 j1 j1) notes u). split; [done|].
    apply failed_times_notes. replace (Z.of_nat (S n)) with (Z.of_nat n + 1) by lia.
    apply executed_failed; auto. unfold maxConsecutiveErrors. lia. }
  destruct Hind as (_ & j' & Hj' & Hc & _ & He & Hb & Hlast). exists j'.
  unfold maxConsecutiveErrors in *. split_and!; auto.
  - rewrite He. apply bool_decide_ext. lia.
  - intros Hn1. apply Hb. lia.
  - intros ->. destruct Hlast as [Hz Hz']; [lia|]. split; [done|]. intros now.
    apply not_true_iff_false. rewrite due_iff. tauto.
Qed.

(** A one-shot job runs once.  Whatever the outcome of its run, a job of
    kind "at" is disabled and has no next run afterwards; the timer never runs
    it, and a restart does not catch it up. *)
Theorem one_shot_runs_once w job :
  store_wf (W_jobs w) -> GetJob (W_jobs w) (J_ID job) = Some job ->
  Sch_Kind (J_Schedule job) = ScheduleKindAt ->
  exists j', GetJob (W_jobs (executeAndUpdate w job)) (J_ID job) = Some j' /\
    J_Enabled j' = false /\ J_NextRunAt j' = zeroTime /\
    forall now, due now j' = false /\ missed now j' = false.
Proof.
  intros Hwf Hj Hk. destruct (executeAndUpdate_spec w job Hwf) as (_ & _ & _ & Hown & _).
  rewrite GetJob_contents in Hj. destruct (Hown job Hj) as (n & u & Hc). rewrite GetJob_contents.
  eexists. split; [exact Hc|].
  assert (Hd : J_Enabled (executed w job job) = false /\ J_NextRunAt (executed w job job) = zeroTime).
  { unfold executed. destruct (outcome w job) as [[result status] errMsg].
    rewrite (bool_decide_eq_true_2 _ Hk). done. }
  destruct Hd as [Hd1 Hd2]. cbn [J_set_notes J_Enabled J_NextRunAt]. split_and!; auto.
  intros now. unfold due, missed. cbn [J_set_notes J_Enabled]. by rewrite Hd1.
Qed.
(** ** The timer *)

Definition scheduled (job : Job) : Prop := J_Enabled job = true /\ J_NextRunAt job <> zeroTime.

Lemma scheduled_iff job :
  J_Enabled job && negb (IsZero (J_NextRunAt job)) = true <-> scheduled job.
Proof.
  unfold scheduled, IsZero. by rewrite andb_true_iff, negb_true_iff, bool_decide_eq_false.
Qed.

Lemma earliest_loop_spec jobs :
  let t := earliest_loop jobs in
  (t = zeroTime <-> forall j, j ∈ jobs -> ~ scheduled j) /\
  (t <> zeroTime -> (exists j, j ∈ jobs /\ scheduled j /\ J_NextRunAt j = t) /\
    forall j, j ∈ jobs -> scheduled j -> t <= J_NextRunAt j).
Proof.
  destruct (earliest_of_spec (fun job => J_Enabled job && negb (IsZero (J_NextRunAt job)))
    J_NextRunAt jobs) as [Hz Hmin]; [by intros j Hj; apply scheduled_iff in Hj as [_ ?]|].
  cbn zeta. unfold earliest_loop. split.
  - rewrite Hz. split; intros Hall j Hj; specialize (Hall j Hj);
      [rewrite <- scheduled_iff|apply not_true_iff_false; rewrite scheduled_iff]; congruence || done.
  - intros Ht. destruct (Hmin Ht) as [(j & Hj & Hs & E) Hle]. split.
    + exists j. by rewrite <- scheduled_iff.
    + intros j' Hj' Hs'. apply Hle; [done|]. by apply scheduled_iff.
Qed.

(** The timer wakes in time.  The delay is positive and at most a day; the
    wake-up does not pass the next run of any enabled job, except that it comes
    after the minimal delay of a millisecond when a run is due already; and it
    is earlier than in a day only if the next run of an enabled job falls
    within it. *)
Theorem timer_wakes_in_time now jobs :
  let delay := nextDelay now jobs in
  0 < delay <= maxTimerDuration /\
  (forall j, j ∈ jobs -> scheduled j -> now + delay <= Z.max (J_NextRunAt j) (now + minTimerDelay)) /\
  (delay < maxTimerDuration -> exists j, j ∈ jobs /\ scheduled j /\ J_NextRunAt j <= now + delay).
Proof.
  cbn zeta. unfold nextDelay. destruct (earliest_loop_spec jobs) as [Hz Hmin]. cbn zeta in *.
  set (t := earliest_loop jobs) in *. unfold IsZero. unfold maxTimerDuration, minTimerDelay, Hour, Minute, Second, Millisecond in *.
  case_bool_decide as E0.
  { split_and!; [lia|lia| |lia]. intros j Hj Hs. by destruct (proj1 Hz E0 j Hj). }
  destruct (Hmin E0) as [(j & Hj & Hs & E) Hle].
  unfold Sub, GoInt.max_int64, GoInt.min_int64.
  repeat case_decide; (split_and!; [lia|lia| |]).
  all: try (intros j' Hj' Hs'; specialize (Hle j' Hj' Hs'); lia).
  all: intros; exists j; split_and!; [done|done|lia].
Qed.
(** A job that backs off keeps the loop busy.  If no job is due, because
    those whose next run has come are backing off, firing changes no job and
    submits nothing, and the timer is set to the minimal delay of a
    millisecond again: the loop wakes a thousand times per second until the
    back-off ends, although the minimal delay is meant to prevent spinning. *)
Theorem back_off_spins w job :
  let now := E_now e (W_effects w) in
  job ∈ W_jobs w -> scheduled job -> J_NextRunAt job <= now ->
  (forall j, j ∈ W_jobs w -> due now j = false) ->
  let w' := fireDueJobs w in
  W_jobs w' = W_jobs w /\ W_submitted w' = W_submitted w /\
  forall now', now <= now' -> nextDelay now' (W_jobs w') = minTimerDelay.
Proof.
  intros now Hjob Hs Hnext Hdue w'.
  assert (Hf : w' = effect w).
  { unfold w', fireDueJobs. cbn [Now]. change (E_now e (W_effects w)) with now.
    change (W_jobs (effect w)) with (W_jobs w). revert Hdue. generalize (W_jobs w) as l. clear.
    induction l as [|j l IH]; intros Hdue; cbn [fire_loop]; [done|].
    rewrite (Hdue j) by by left. apply IH. intros j' Hj'. apply Hdue. by right. }
  rewrite Hf. split_and!; [done..|]. intros now' Hle. cbn [effect W_jobs].
  destruct (earliest_loop_spec (W_jobs w)) as [Hz Hmin]. cbn zeta in *. unfold nextDelay, IsZero.
  rewrite bool_decide_eq_false_2 by (intros E; by destruct (proj1 Hz E job Hjob)).
  destruct (Hmin ltac:(intros E; by destruct (proj1 Hz E job Hjob))) as [_ Hmin'].
  specialize (Hmin' job Hjob Hs). rewrite decide_True; [done|].
  unfold Sub, GoInt.max_int64, GoInt.min_int64. lia.
Qed.

(** ** Catching up and the loop side by side

    [Start] hands the missed jobs to a goroutine and starts the loop; jobs
    triggered by hand run in goroutines of their own.  Every thread holds
    copies of the jobs that it is about to run. *)
Record Threads := mkThreads {
  T_world : World; T_catchUp : list Job; T_loop : list Job; T_triggered : list Job }.

Inductive service_step : Threads -> Threads -> Prop :=
  | step_timer w a t :
      service_step (mkThreads w a [] t)
        (mkThreads (effect w) a (filter (fun j => due (E_now e (W_effects w)) j = true) (W_jobs w)) t)
  | step_fire w a j b t :
      service_step (mkThreads w a (j :: b) t) (mkThreads (executeAndUpdate w j) a b t)
  | step_catch_up w j a b t :
      service_step (mkThreads w (j :: a) b t) (mkThreads (executeAndUpdate w j) a b t)
  | step_trigger w a b t id j :
      GetJob (W_jobs w) id = Some j ->
      service_step (mkThreads w a b t) (mkThreads w a b (t ++ [j]))
  | step_triggered w a b t1 j t2 :
      service_step (mkThreads w a b (t1 ++ j :: t2)) (mkThreads (executeAndUpdate w j) a b (t1 ++ t2)).

(** The state when [Start] returns: the jobs are seeded, and the missed ones
    copied for the goroutine. *)
Definition CronStart (w : World) : Threads :=
  let w := seedNextRunTimes w in
  mkThreads (effect w) (missedJobs (E_now e (W_effects w)) (W_jobs w)) [] [].

Definition count_runs (id : string) (w : World) : nat :=
  List.length (filter (fun s => s.1 = id) (W_submitted w)).

(** No step loses a job, creates one or breaks the uniqueness of identifiers. *)
Lemma service_step_wf s s' :
  service_step s s' -> store_wf (W_jobs (T_world s)) ->
  store_wf (W_jobs (T_world s')) /\ J_ID <$> W_jobs (T_world s') = J_ID <$> W_jobs (T_world s).
Proof.
  destruct 1; cbn [T_world]; intros Hwf; try done;
    destruct (executeAndUpdate_spec w j Hwf) as (? & ? & _); done.
Qed.

Lemma count_runs_exec id w job :
  is_Some (E_runner e) -> store_wf (W_jobs w) -> J_ID job = id ->
  count_runs id (executeAndUpdate w job) = S (count_runs id w).
Proof.
  intros [r Hr] Hwf Hid. destruct (executeAndUpdate_spec w job Hwf) as (_ & _ & _ & _ & Hs).
  unfold count_runs. rewrite Hs, Hr, filter_app, length_app.
  rewrite filter_cons_True by done. cbn. lia.
Qed.

(** A missed job can run twice at start-up.  If the only job of the service
    was missed while the service was down and is not backing off, the
    goroutine that catches up and the loop, which wakes after a millisecond
    because the job is due, can both run it: there is a sequence of steps
    after [Start] that submits it twice. *)
Theorem missed_job_runs_twice w job :
  let w1 := seedNextRunTimes w in
  is_Some (E_runner e) -> W_jobs w1 = [job] ->
  missed (E_now e (W_effects w1)) job = true -> due (E_now e (S (W_effects w1))) job = true ->
  exists s, rtc service_step (CronStart w) s /\
    count_runs (J_ID job) (T_world s) = S (S (count_runs (J_ID job) w1)).
Proof.
  intros w1 Hr Hjobs Hmissed Hdue. unfold CronStart. fold w1. rewrite Hjobs. unfold missedJobs.
  rewrite filter_cons_True by done. cbn [filter list_filter take maxCatchUpJobs].
  change (take maxCatchUpJobs [job]) with [job].
  assert (Hwf : store_wf (W_jobs (effect (effect w1)))).
  { change (store_wf (W_jobs w1)). unfold list_wf. rewrite Hjobs. apply NoDup_singleton. }
  eexists. split.
  - eapply rtc_l; [apply step_timer|]. cbn [effect W_jobs W_effects]. rewrite Hjobs.
    rewrite filter_cons_True by done. eapply rtc_l; [apply step_catch_up|]. apply rtc_once, step_fire.
  - cbn [T_world]. rewrite !count_runs_exec by (try done; by apply executeAndUpdate_spec). done.
Qed.
End Service.

(** ** A service on concrete inputs *)

#[local] Existing Instance ascii_unicode.
#[local] Existing Instance whole_durations.
#[local] Existing Instance every_minute.
#[local] Existing Instance simple_quote.

(** The clock advances a second with every effect, the runtime refuses every
    submission, nothing is configured besides. *)
Definition refusing : Env :=
  mkEnv (fun n => 700000 * Day + Z.of_nat n * Second) (Some (NewRunner 0 0))
    (fun _ _ => inl "no capacity") (fun _ _ _ => inl "no capacity") (fun _ => 3%nat) None None
    (fun _ => false).

Definition sampleJob (id : string) (sched : Schedule) (next backoff : Time) : Job :=
  mkJob id "nightly" true sched "report" None emptyStats "" "" "" 0 "" next "" "" "" "" "" None 0 backoff
    (690000 * Day) 0.

Definition hourly : Schedule := mkSchedule "every" "" "1h" "" "".

Definition sampleWorld (jobs : list Job) : World := mkWorld jobs [] 0 [] [].

Lemma refusing_fails w j : (outcome refusing w j).1.2 = RunStatusError.
Proof. reflexivity. Qed.

Lemma fire_runs_due_jobs_witness :
  let ready := sampleJob "a" hourly (699999 * Day) 0 in
  let waiting := sampleJob "b" hourly (700001 * Day) 0 in
  let w := sampleWorld [ready; waiting] in
  GetJob (W_jobs (fireDueJobs refusing w)) "b" = Some waiting /\
  W_submitted (fireDueJobs refusing w) = [submission ready].
Proof.
  intros ready waiting w.
  destruct (fire_runs_due_jobs refusing w) as (_ & _ & Hrest).
  - by eexists.
  - apply (bool_decide_unpack _). vm_compute. exact I.
  - split; [|vm_compute; reflexivity]. apply (Hrest waiting); [right; left|].
    intros (_ & _ & Hle & _). vm_compute in Hle. by apply Hle.
Defined.

Lemma failures_back_off_then_disable_witness :
  let j := sampleJob "a" hourly (699999 * Day) 0 in
  exists j', GetJob (W_jobs (run_times refusing "a" (sampleWorld [j]) 10)) "a" = Some j' /\
    J_Enabled j' = false /\ J_ConsecutiveErrors j' = 10.
Proof.
  intros j.
  destruct (failures_back_off_then_disable refusing (sampleWorld [j]) "a" j 10) as (j' & Hj' & Hc & He & _).
  - apply (bool_decide_unpack _). vm_compute. exact I.
  - reflexivity.
  - reflexivity.
  - reflexivity.
  - discriminate.
  - apply refusing_fails.
  - lia.
  - exists j'. split; [exact Hj'|]. split; [exact He|exact Hc].
Defined.

Lemma one_shot_runs_once_witness :
  let j := sampleJob "a" (mkSchedule "at" "2024-01-01T00:00:00Z" "" "" "") (699999 * Day) 0 in
  exists j', GetJob (W_jobs (executeAndUpdate refusing (sampleWorld [j]) j)) "a" = Some j' /\
    J_Enabled j' = false.
Proof.
  intros j. destruct (one_shot_runs_once refusing (sampleWorld [j]) j) as (j' & Hj' & He & _).
  - apply (bool_decide_unpack _). vm_compute. exact I.
  - reflexivity.
  - reflexivity.
  - exists j'. split; [exact Hj'|exact He].
Defined.

Lemma back_off_spins_witness :
  let j := sampleJob "a" hourly (699999 * Day) (700001 * Day) in
  let w := sampleWorld [j] in
  nextDelay (700000 * Day + Hour) (W_jobs (fireDueJobs refusing w)) = minTimerDelay.
Proof.
  intros j w. destruct (back_off_spins refusing w j) as (_ & _ & Hd).
  - left.
  - split; [reflexivity|discriminate].
  - vm_compute. discriminate.
  - intros j' Hj'. apply list_elem_of_singleton in Hj' as ->. vm_compute. reflexivity.
  - apply Hd. vm_compute. discriminate.
Defined.

Lemma missed_job_runs_twice_witness :
  let j := sampleJob "a" hourly (699999 * Day) 0 in
  exists s, rtc (service_step refusing) (CronStart refusing (sampleWorld [j])) s /\
    count_runs "a" (T_world s) = 2%nat.
Proof.
  intros j. apply (missed_job_runs_twice refusing (sampleWorld [j]) j).
  - by eexists.
  - reflexivity.
  - vm_compute. reflexivity.
  - vm_compute. reflexivity.
Defined.
