(* ===== verification/Wakeup.v ===== *)
(** * Wake-up triggers ([wakeup/wakeup.go], [wakeup/store.go],
    [wakeup/coalesce.go])

    Triggers wake the agent at scheduled times; requests that arrive close
    together are merged per session.  The state holds the triggers in memory
    and on disk, whether the service runs, the number of effects so far and
    the history of submitted triggers.  Clock, submitter and file system answer
    as functions of the number of effects. *)
From S2P Require Import Prelude GoLib GoText RunState TextTrim ResultModel GoClock Automation ListStore CronSchedule.
From Stdlib Require Import Ascii String.
Import Str Text GoTime.
Local Open Scope Z_scope.

Record ExecutionResult := mkExecution {
  X_RunID : string; X_Summary : string; X_VerificationStatus : string; X_VerificationSummary : string }.

Record Trigger := mkTrigger {
  Tr_ID : string;
  Tr_Name : string;
  Tr_Schedule : string;
  Tr_Channel : string;
  Tr_SessionKey : string;
  Tr_Message : string;
  Tr_Model : string;
  Tr_AutomationID : string;
  Tr_Enabled : bool;
  Tr_Timezone : string;
  Tr_Metadata : list (string * string);
  Tr_CreatedAt : Time;
  Tr_LastRunAt : Time;
  Tr_Last : ExecutionResult;      (* the four fields LastRunID ... LastVerificationSummary *)
  Tr_LastStatus : string;
  Tr_LastError : string;
  Tr_NextRunAt : Time
}.

Definition Tr_set (t : Trigger) (enabled : bool) (created lastRun : Time) (last : ExecutionResult)
    (status err : string) (next : Time) : Trigger :=
  mkTrigger (Tr_ID t) (Tr_Name t) (Tr_Schedule t) (Tr_Channel t) (Tr_SessionKey t) (Tr_Message t)
    (Tr_Model t) (Tr_AutomationID t) enabled (Tr_Timezone t) (Tr_Metadata t) created lastRun last
    status err next.

Definition Tr_plan (t : Trigger) (enabled : bool) (next : Time) : Trigger :=
  Tr_set t enabled (Tr_CreatedAt t) (Tr_LastRunAt t) (Tr_Last t) (Tr_LastStatus t) (Tr_LastError t) next.

Inductive WakeError :=
  | WakeStore (err : StoreError)
  | WakeSchedule (id : string) (err : ScheduleError)
  | WakeSaveFailed
  | ErrAlreadyRunning.

Definition GetTrigger : list Trigger -> string -> option Trigger := list_get Tr_ID.
Definition AddTrigger : list Trigger -> Trigger -> StoreError + list Trigger := list_add Tr_ID.
Definition UpdateTrigger : list Trigger -> string -> (Trigger -> Trigger) -> StoreError + list Trigger :=
  list_update Tr_ID.
Definition RemoveTrigger : list Trigger -> string -> StoreError + list Trigger := list_remove Tr_ID.

(** ** Schedules *)

(** [parseSchedule]; it never fails. *)
Definition parseSchedule (schedule timezone : string) : Schedule :=
  if (6 <? String.length schedule)%nat && bool_decide (substring 0 6 schedule = "every ")
  then mkSchedule "every" "" (substring 6 (String.length schedule - 6) schedule) "" timezone
  else mkSchedule "cron" "" "" schedule timezone.

Section Service.
Context `{GoUnicode} `{GoTimeText} `{CronLib}.

Definition computeNextRun (schedule timezone : string) (after : Time) : ScheduleError + Time :=
  NextRunTime (parseSchedule schedule timezone) after.

Record WakeEnv := mkWakeEnv {
  V_now : nat -> Time;
  V_submit : option (nat -> Trigger -> option ExecutionResult * option string);
  V_saveFails : nat -> bool
}.

Record WakeState := mkWake {
  S_triggers : list Trigger;
  S_disk : list Trigger;
  S_running : bool;
  S_effects : nat;
  S_submitted : list Trigger
}.

Context (e : WakeEnv).

Definition tick (s : WakeState) : WakeState :=
  mkWake (S_triggers s) (S_disk s) (S_running s) (S (S_effects s)) (S_submitted s).

Definition S_set (s : WakeState) (l : list Trigger) : WakeState :=
  mkWake l (S_disk s) (S_running s) (S_effects s) (S_submitted s).

Definition now (s : WakeState) : Time := V_now e (S_effects s).

Definition SaveTriggers (s : WakeState) : option WakeError * WakeState :=
  if V_saveFails e (S_effects s) then (Some WakeSaveFailed, tick s)
  else (None, mkWake (S_triggers s) (S_triggers s) (S_running s) (S (S_effects s)) (S_submitted s)).

(** ** Operations on triggers *)

Definition WakeAdd (s : WakeState) (t : Trigger) : option WakeError * WakeState :=
  let created := if IsZero (Tr_CreatedAt t) then now s else Tr_CreatedAt t in
  let s := if IsZero (Tr_CreatedAt t) then tick s else s in
  let t := Tr_set t (Tr_Enabled t) created (Tr_LastRunAt t) (Tr_Last t) (Tr_LastStatus t) (Tr_LastError t)
    (Tr_NextRunAt t) in
  let planned :=
    if Tr_Enabled t then
      match computeNextRun (Tr_Schedule t) (Tr_Timezone t) (now s) with
      | inl err => inl (WakeSchedule (Tr_ID t) err)
      | inr next => inr (Tr_plan t true next, tick s)
      end
    else inr (Tr_plan t false zeroTime, s) in
  match planned with
  | inl err => (Some err, tick s)
  | inr (t, s) =>
    match AddTrigger (S_triggers s) t with
    | inl err => (Some (WakeStore err), s)
    | inr l => SaveTriggers (S_set s l)
    end
  end.

Definition WakeRemove (s : WakeState) (id : string) : option WakeError * WakeState :=
  match RemoveTrigger (S_triggers s) id with
  | inl err => (Some (WakeStore err), s)
  | inr l => SaveTriggers (S_set s l)
  end.

(** A change inside [store.Update] that may also fail; the trigger it leaves
    is stored in either case. *)
Definition update_or_fail (s : WakeState) (id : string)
    (change : Trigger -> option ScheduleError * Trigger) : option WakeError * WakeState :=
  match GetTrigger (S_triggers s) id, UpdateTrigger (S_triggers s) id (fun t => (change t).2) with
  | Some t, inr l =>
    match (change t).1 with
    | Some err => (Some (WakeSchedule id err), S_set s l)
    | None => SaveTriggers (S_set s l)
    end
  | _, _ => (Some (WakeStore ErrNotFound), s)
  end.

Definition replan (t : Trigger) (now : Time) : option ScheduleError * Trigger :=
  match computeNextRun (Tr_Schedule t) (Tr_Timezone t) now with
  | inl err => (Some err, t)
  | inr next => (None, Tr_plan t (Tr_Enabled t) next)
  end.

Definition WakeUpdate (s : WakeState) (id : string) (fn : Trigger -> Trigger) : option WakeError * WakeState :=
  update_or_fail (tick s) id (fun old =>
    let t := fn old in
    if decide (Tr_Schedule t = Tr_Schedule old /\ Tr_Timezone t = Tr_Timezone old /\ Tr_Enabled t = Tr_Enabled old)
    then (None, t)
    else if Tr_Enabled t then replan t (now s) else (None, Tr_plan t (Tr_Enabled t) zeroTime)).

Definition Enable (s : WakeState) (id : string) : option WakeError * WakeState :=
  update_or_fail (tick s) id (fun t => replan (Tr_plan t true (Tr_NextRunAt t)) (now s)).

Definition Disable (s : WakeState) (id : string) : option WakeError * WakeState :=
  update_or_fail s id (fun t => (None, Tr_plan t false zeroTime)).

(** ** Firing *)

Definition trigger_due (now : Time) (t : Trigger) : bool :=
  Tr_Enabled t && negb (IsZero (Tr_NextRunAt t)) && negb (After (Tr_NextRunAt t) now).

Definition next_after (t : Trigger) (now : Time) : Time :=
  match computeNextRun (Tr_Schedule t) (Tr_Timezone t) now with inr next => next | inl _ => zeroTime end.

Definition fireTrigger (now : Time) (s : WakeState) (t : Trigger) : WakeState :=
  let '(execution, err, s) := match V_submit e with
    | None => (None, Some "wakeup submitter is not configured", s)
    | Some submit =>
      let '(execution, err) := submit (S_effects s) t in
      (execution, err, mkWake (S_triggers s) (S_disk s) (S_running s) (S (S_effects s)) (S_submitted s ++ [t]))
    end in
  let s := match UpdateTrigger (S_triggers s) (Tr_ID t) (fun current =>
      Tr_set current (Tr_Enabled current) (Tr_CreatedAt current) now (default (Tr_Last current) execution)
        (match err with Some _ => "error" | None => "triggered" end) (default "" err) (next_after t now)) with
    | inr l => S_set s l | inl _ => s end in
  (SaveTriggers s).2.

Definition fireDueTriggers (s : WakeState) : WakeState :=
  foldl (fireTrigger (now s)) (tick s)
    (filter (fun t => trigger_due (now s) t = true) (S_triggers s)).

(** ** Lifecycle *)

Fixpoint wake_seed_loop (at_ : Time) (s : WakeState) (changed : bool) (l : list Trigger) :
    option WakeError * bool * WakeState :=
  match l with
  | [] => (None, changed, s)
  | t :: rest =>
    if negb (Tr_Enabled t) || negb (IsZero (Tr_NextRunAt t)) then wake_seed_loop at_ s changed rest else
    match computeNextRun (Tr_Schedule t) (Tr_Timezone t) at_ with
    | inl err => (Some (WakeSchedule (Tr_ID t) err), changed, s)
    | inr next =>
      if IsZero next then wake_seed_loop at_ s changed rest else
      match UpdateTrigger (S_triggers s) (Tr_ID t) (fun t => Tr_plan t (Tr_Enabled t) next) with
      | inl err => (Some (WakeStore err), changed, s)
      | inr l => wake_seed_loop at_ (S_set s l) true rest
      end
    end
  end.

Definition wake_seed (s : WakeState) : option WakeError * WakeState :=
  let '(err, changed, s') := wake_seed_loop (now s) (tick s) false (S_triggers s) in
  match err with
  | Some err => (Some err, s')
  | None => if changed then SaveTriggers s' else (None, s')
  end.

Definition S_run (s : WakeState) (running : bool) : WakeState :=
  mkWake (S_triggers s) (S_disk s) running (S_effects s) (S_submitted s).

(** [Start] up to the point where it launches the loop, which it does exactly
    if the result is no error. *)
Definition WakeStart (s : WakeState) : option WakeError * WakeState :=
  if S_running s then (Some ErrAlreadyRunning, s) else wake_seed (S_run s true).

Definition WakeStop (s : WakeState) : WakeState := if S_running s then S_run s false else s.
(** ** Due triggers fire once *)

Lemma trigger_due_iff at_ t :
  trigger_due at_ t = true <->
  Tr_Enabled t = true /\ Tr_NextRunAt t <> zeroTime /\ Tr_NextRunAt t <= at_.
Proof.
  unfold trigger_due, IsZero, After. rewrite !andb_true_iff, !negb_true_iff, !bool_decide_eq_false.
  intuition (auto; lia).
Qed.

Lemma next_after_later t at_ : next_after t at_ = zeroTime \/ at_ < next_after t at_.
Proof.
  unfold next_after, computeNextRun. destruct (NextRunTime _ at_) eqn:E; [by left|].
  by apply NextRunTime_later in E.
Qed.

Lemma fireTrigger_spec at_ s t :
  list_wf Tr_ID (S_triggers s) ->
  let s' := fireTrigger at_ s t in
  list_wf Tr_ID (S_triggers s') /\
  (forall k, k <> Tr_ID t ->
    list_contents Tr_ID (S_triggers s') !! k = list_contents Tr_ID (S_triggers s) !! k) /\
  (forall cur, list_contents Tr_ID (S_triggers s) !! Tr_ID t = Some cur ->
    exists t', list_contents Tr_ID (S_triggers s') !! Tr_ID t = Some t' /\
      Tr_Enabled t' = Tr_Enabled cur /\ Tr_LastRunAt t' = at_ /\ Tr_NextRunAt t' = next_after t at_) /\
  S_submitted s' = S_submitted s ++ match V_submit e with Some _ => [t] | None => [] end.
Proof.
  intros Hwf. cbn zeta. unfold fireTrigger.
  assert (Hgen : forall execution err s0, S_triggers s0 = S_triggers s ->
    let fn current := Tr_set current (Tr_Enabled current) (Tr_CreatedAt current) at_
      (default (Tr_Last current) execution)
      (match err with Some _ => "error" | None => "triggered" end) (default "" err) (next_after t at_) in
    let s' := (SaveTriggers (match UpdateTrigger (S_triggers s0) (Tr_ID t) fn with
      | inr l => S_set s0 l | inl _ => s0 end)).2 in
    list_wf Tr_ID (S_triggers s') /\
    (forall k, k <> Tr_ID t ->
      list_contents Tr_ID (S_triggers s') !! k = list_contents Tr_ID (S_triggers s) !! k) /\
    (forall cur, list_contents Tr_ID (S_triggers s) !! Tr_ID t = Some cur ->
      exists t', list_contents Tr_ID (S_triggers s') !! Tr_ID t = Some t' /\
        Tr_Enabled t' = Tr_Enabled cur /\ Tr_LastRunAt t' = at_ /\ Tr_NextRunAt t' = next_after t at_) /\
    S_submitted s' = S_submitted s0).
  { intros execution err s0 Es fn. cbn zeta. rewrite Es. unfold UpdateTrigger, list_update.
    pose proof (update_loop_spec Tr_ID (S_triggers s) (Tr_ID t) fn Hwf ltac:(done)) as Hu.
    destruct (update_loop Tr_ID (S_triggers s) (Tr_ID t) fn) as [l|].
    - destruct Hu as (Hl & cur & Hcur & Hc & _).
      assert (Et : S_triggers (SaveTriggers (S_set s0 l)).2 = l
        /\ S_submitted (SaveTriggers (S_set s0 l)).2 = S_submitted s0)
        by (unfold SaveTriggers; by destruct (V_saveFails e _)).
      destruct Et as [-> ->]. rewrite Hc. split_and!; [done| | |done].
      + intros k Hk. by rewrite lookup_insert_ne.
      + intros cur' Hcur'. rewrite Hcur in Hcur'. injection Hcur' as <-. rewrite lookup_insert_eq.
        exists (fn cur). done.
    - assert (Et : S_triggers (SaveTriggers s0).2 = S_triggers s
        /\ S_submitted (SaveTriggers s0).2 = S_submitted s0)
        by (unfold SaveTriggers; rewrite <- Es; by destruct (V_saveFails e _)).
      destruct Et as [-> ->]. split_and!; [done|done| |done]. intros cur Hcur. congruence. }
  destruct (V_submit e) as [submit|].
  - destruct (submit (S_effects s) t) as [execution err].
    by apply (Hgen execution err (mkWake _ _ _ _ _)).
  - rewrite app_nil_r. by apply (Hgen None (Some _) s).
Qed.

Lemma fire_all_spec at_ due_list s :
  NoDup (Tr_ID <$> due_list) -> list_wf Tr_ID (S_triggers s) ->
  (forall t, t ∈ due_list -> list_contents Tr_ID (S_triggers s) !! Tr_ID t = Some t) ->
  let s' := foldl (fireTrigger at_) s due_list in
  list_wf Tr_ID (S_triggers s') /\
  (forall k, k ∉ Tr_ID <$> due_list ->
    list_contents Tr_ID (S_triggers s') !! k = list_contents Tr_ID (S_triggers s) !! k) /\
  (forall t, t ∈ due_list -> exists t', list_contents Tr_ID (S_triggers s') !! Tr_ID t = Some t' /\
      Tr_Enabled t' = Tr_Enabled t /\ Tr_LastRunAt t' = at_ /\ Tr_NextRunAt t' = next_after t at_) /\
  (is_Some (V_submit e) -> S_submitted s' = S_submitted s ++ due_list).
Proof.
  revert s. induction due_list as [|t l IH]; intros s Hnd Hwf Hin.
  { cbn. split_and!; auto; [intros t Ht; by apply elem_of_nil in Ht|]. by rewrite app_nil_r. }
  cbn [foldl]. rewrite fmap_cons in Hnd. apply NoDup_cons in Hnd as [Ht Hnd].
  destruct (fireTrigger_spec at_ s t Hwf) as (Hwf1 & Ho1 & Hown1 & Hs1).
  destruct (IH (fireTrigger at_ s t) Hnd Hwf1) as (Hwf' & Ho' & Hall' & Hs').
  { intros t' Ht'. rewrite Ho1; [apply Hin; by right|].
    intros E. apply Ht. rewrite <- E. by apply list_elem_of_fmap_2. }
  cbn zeta in *. split_and!.
  - done.
  - intros k Hk. rewrite fmap_cons in Hk. apply not_elem_of_cons in Hk as [Hk1 Hk2].
    rewrite Ho' by done. by apply Ho1.
  - intros t' Ht'. apply elem_of_cons in Ht' as [->|Ht']; [|by apply Hall'].
    rewrite Ho' by done. apply Hown1, Hin. by left.
  - intros Hsub. rewrite Hs', Hs1 by done. destruct Hsub as [f ->]. by rewrite <- app_assoc.
Qed.

(** Due triggers fire exactly once.  One round submits, in the order of the
    store, the triggers that are enabled and whose time has come.  Each of
    them is then marked as run now and has no next run or one later than now,
    whatever the submission returned; the other triggers are unchanged.  So no
    trigger of the store is due at the same time any more. *)
Theorem due_triggers_fire_once s :
  list_wf Tr_ID (S_triggers s) -> is_Some (V_submit e) ->
  let at_ := now s in
  let s' := fireDueTriggers s in
  (exists fired, S_submitted s' = S_submitted s ++ fired /\ fired `sublist_of` S_triggers s /\
    forall t, t ∈ fired <-> t ∈ S_triggers s /\ Tr_Enabled t = true /\ Tr_NextRunAt t <> zeroTime /\
      Tr_NextRunAt t <= at_) /\
  forall t, t ∈ S_triggers s -> exists t', GetTrigger (S_triggers s') (Tr_ID t) = Some t' /\
    trigger_due at_ t' = false /\ (trigger_due at_ t = false -> t' = t) /\
    (trigger_due at_ t = true -> Tr_LastRunAt t' = at_).
Proof.
  intros Hwf Hsub at_ s'.
  set (fired := filter (fun t => trigger_due at_ t = true) (S_triggers s)).
  assert (Hsl : fired `sublist_of` S_triggers s) by apply sublist_filter.
  destruct (fire_all_spec at_ fired (tick s)) as (Hwf' & Ho & Hown & Hs); [|done| |].
  { apply (sublist_NoDup _ (Tr_ID <$> S_triggers s)); [done|]. by apply fmap_sublist. }
  { intros t Ht. apply list_elem_of_filter in Ht as [_ Ht]. by apply contents_elem. }
  change (foldl (fireTrigger at_) (tick s) fired) with s' in *. split.
  - exists fired. split_and!; [by apply Hs|done|]. intros t. unfold fired.
    rewrite list_elem_of_filter, trigger_due_iff. tauto.
  - intros t Ht. unfold GetTrigger. rewrite list_get_contents. destruct (trigger_due at_ t) eqn:Ed.
    + destruct (Hown t) as (t' & Ht' & He & Hl & Hn); [by apply list_elem_of_filter|].
      exists t'. split_and!; auto; [|done]. apply not_true_iff_false. rewrite trigger_due_iff, Hn.
      intros (_ & Hz & Hle). destruct (next_after_later t at_); [done|lia].
    + exists t. split_and!; auto; [|congruence]. rewrite Ho; [by apply contents_elem|].
      intros Hin. apply list_elem_of_fmap in Hin as (t0 & E & Ht0). unfold fired in Ht0.
      apply list_elem_of_filter in Ht0 as [Hd0 Ht0].
      rewrite (list_wf_inj Tr_ID (S_triggers s) t0 t Hwf Ht0 Ht E) in Hd0. congruence.
Qed.

(** ** Failing to start *)

Lemma wake_seed_fails at_ s changed l :
  (exists t, t ∈ l /\ Tr_Enabled t = true /\ Tr_NextRunAt t = zeroTime /\
     forall err, computeNextRun (Tr_Schedule t) (Tr_Timezone t) at_ <> inr err) ->
  exists err changed' s', wake_seed_loop at_ s changed l = (Some err, changed', s') /\ S_running s' = S_running s.
Proof.
  revert s changed. induction l as [|t l IH]; intros s changed (t0 & Hin & Hen & Hz & Hbad).
  { by apply elem_of_nil in Hin. }
  cbn [wake_seed_loop].
  apply elem_of_cons in Hin as [->|Hrest].
  - rewrite Hen, Hz. cbn. destruct (computeNextRun _ _ at_) as [err|next] eqn:E; [by do 3 eexists|].
    by destruct (Hbad next).
  - assert (Hex : exists t, t ∈ l /\ Tr_Enabled t = true /\ Tr_NextRunAt t = zeroTime /\
      forall err, computeNextRun (Tr_Schedule t) (Tr_Timezone t) at_ <> inr err) by eauto.
    destruct (negb (Tr_Enabled t) || negb (IsZero (Tr_NextRunAt t))); [by apply IH|].
    destruct (computeNextRun (Tr_Schedule t) (Tr_Timezone t) at_) as [err|next]; [by do 3 eexists|].
    destruct (IsZero next); [by apply IH|].
    destruct (UpdateTrigger _ _ _) as [err|l']; [by do 3 eexists|].
    destruct (IH (S_set s l') true Hex) as (err & c & s' & E & Hr). by exists err, c, s'.
Qed.

(** A trigger with an unusable schedule keeps the service from starting, for
    good.  When an enabled trigger has no next run and its schedule cannot be
    evaluated, [Start] fails; but the service is marked as running, so that a
    second attempt is refused although no loop was started. *)
Theorem failed_start_sticks s t :
  S_running s = false -> t ∈ S_triggers s -> Tr_Enabled t = true -> Tr_NextRunAt t = zeroTime ->
  (forall at_ next, computeNextRun (Tr_Schedule t) (Tr_Timezone t) at_ <> inr next) ->
  let '(err, s') := WakeStart s in
  is_Some err /\ S_running s' = true /\ WakeStart s' = (Some ErrAlreadyRunning, s').
Proof.
  intros Hr Hin Hen Hz Hbad. unfold WakeStart at 1. rewrite Hr. unfold wake_seed.
  destruct (wake_seed_fails (now (S_run s true)) (tick (S_run s true)) false (S_triggers (S_run s true)))
    as (err & c & s' & -> & Hrun); [by eauto 10|].
  split_and!; [done|done|]. unfold WakeStart. by rewrite Hrun.
Qed.

Lemma update_or_fail_error s id chg t err :
  list_wf Tr_ID (S_triggers s) -> (forall x, Tr_ID (chg x).2 = Tr_ID x) ->
  GetTrigger (S_triggers s) id = Some t -> (chg t).1 = Some err ->
  exists l, update_or_fail s id chg = (Some (WakeSchedule id err), S_set s l) /\
    list_contents Tr_ID l = <[id := (chg t).2]> (list_contents Tr_ID (S_triggers s)).
Proof.
  intros Hwf Hid Hget Herr. unfold update_or_fail. rewrite Hget, Herr.
  unfold UpdateTrigger, list_update.
  pose proof (update_loop_spec Tr_ID (S_triggers s) id (fun x => (chg x).2) Hwf Hid) as Hu.
  unfold GetTrigger in Hget. rewrite list_get_contents in Hget.
  destruct (update_loop Tr_ID (S_triggers s) id _) as [l|]; [|congruence].
  destruct Hu as (_ & t0 & Ht0 & Hc & _). rewrite Hget in Ht0. injection Ht0 as <-. by exists l.
Qed.

(** A failed change is kept.  Enabling a trigger whose schedule cannot be
    evaluated reports an error, yet the trigger is enabled in memory, with its
    former next run. *)
Theorem failed_enable_is_kept s id t err :
  list_wf Tr_ID (S_triggers s) -> GetTrigger (S_triggers s) id = Some t ->
  computeNextRun (Tr_Schedule t) (Tr_Timezone t) (now s) = inl err ->
  let '(res, s') := Enable s id in
  res = Some (WakeSchedule id err) /\ S_disk s' = S_disk s /\
  GetTrigger (S_triggers s') id = Some (Tr_plan t true (Tr_NextRunAt t)).
Proof.
  intros Hwf Hget Hbad. unfold Enable.
  set (chg := fun t0 => replan (Tr_plan t0 true (Tr_NextRunAt t0)) (now s)).
  assert (Hch : chg t = (Some err, Tr_plan t true (Tr_NextRunAt t))).
  { unfold chg, replan. cbn [Tr_plan Tr_set Tr_Schedule Tr_Timezone]. by rewrite Hbad. }
  destruct (update_or_fail_error (tick s) id chg t err Hwf) as (l & -> & Hl); [|done|by rewrite Hch|].
  { intros x. unfold chg, replan. by case_match. }
  split_and!; [done|done|]. unfold GetTrigger. rewrite list_get_contents. cbn [S_set S_triggers].
  by rewrite Hl, lookup_insert_eq, Hch.
Qed.
End Service.

(** ** Merging wake requests *)

Record WakeRequest := mkWakeRequest {
  WR_SessionKey : string; WR_Channel : string; WR_Message : string; WR_Priority : Z;
  WR_RequestedAt : Time }.

Definition PriorityRetry : Z := 1.
Definition PriorityInterval : Z := 2.
Definition PriorityDefault : Z := 3.
Definition PriorityAction : Z := 4.

(** The pending requests, at most one per session; the timer only decides when
    [Coalescer_flush] runs. *)
Abbreviation Coalescer := (gmap string WakeRequest) (only parsing).

Definition stamped (now : Time) (req : WakeRequest) : WakeRequest :=
  if IsZero (WR_RequestedAt req)
  then mkWakeRequest (WR_SessionKey req) (WR_Channel req) (WR_Message req) (WR_Priority req) now
  else req.

Definition Coalescer_Submit (c : Coalescer) (now : Time) (req : WakeRequest) : Coalescer :=
  let req := stamped now req in
  match c !! WR_SessionKey req with
  | Some existing => if decide (WR_Priority existing < WR_Priority req) then <[WR_SessionKey req := req]> c else c
  | None => <[WR_SessionKey req := req]> c
  end.

(** The requests handed to the callback, and the pending ones afterwards. *)
Definition Coalescer_flush (c : Coalescer) : list WakeRequest * Coalescer := ((map_to_list c).*2, ∅).

(** The request that wins among those of a session: the first of the highest
    priority. *)
Definition winner (reqs : list WakeRequest) (r : WakeRequest) : Prop :=
  exists before after, reqs = before ++ r :: after /\
    Forall (fun x => WR_Priority x < WR_Priority r) before /\
    Forall (fun x => WR_Priority x <= WR_Priority r) after.

Definition for_session (key : string) (reqs : list WakeRequest) : list WakeRequest :=
  filter (fun r => WR_SessionKey r = key) reqs.

Definition merges (c : Coalescer) (reqs : list WakeRequest) : Prop :=
  forall key, match c !! key with
    | Some r => winner (for_session key reqs) r
    | None => for_session key reqs = []
    end.

Lemma merges_submit c reqs now req :
  merges c reqs -> merges (Coalescer_Submit c now req) (reqs ++ [stamped now req]).
Proof.
  intros Hm key. unfold Coalescer_Submit. set (r := stamped now req).
  unfold for_session. rewrite filter_app. fold (for_session key reqs). specialize (Hm key).
  destruct (decide (WR_SessionKey r = key)) as [Hk|Hk].
  - rewrite filter_cons_True, filter_nil by done. rewrite Hk.
    destruct (c !! key) as [x|] eqn:Ex.
    + destruct Hm as (before & after & E & Hb & Ha). case_decide as Hp.
      * rewrite lookup_insert_eq. exists (before ++ x :: after), []. rewrite E.
        split_and!; [done| |constructor].
        apply Forall_app. split; [|constructor; [done|]];
          (eapply Forall_impl; [eassumption|]); cbn; intros; lia.
      * rewrite Ex. exists before, (after ++ [r]). rewrite E, <- app_assoc. split_and!; [done|done|].
        apply Forall_app. split; [done|]. constructor; [lia|constructor].
    + rewrite lookup_insert_eq, Hm. exists [], []. split_and!; [done|constructor|constructor].
  - rewrite filter_cons_False, filter_nil, app_nil_r by done.
    destruct (c !! WR_SessionKey r) as [x|]; [case_decide|]; rewrite ?lookup_insert_ne by done; done.
Qed.

(** Of the requests merged into one wake-up, the first one of the highest
    priority wins.  When the window closes after any sequence of requests, the
    callback gets exactly one request for each session that asked, and it is
    the first among those of that session with the highest priority; nothing
    stays pending. *)
Theorem coalescing_keeps_winner (reqs : list (Time * WakeRequest)) :
  let c := foldl (fun c nr => Coalescer_Submit c nr.1 nr.2) ∅ reqs in
  let asked := (fun nr => stamped nr.1 nr.2) <$> reqs in
  let '(sent, pending) := Coalescer_flush c in
  pending = ∅ /\ NoDup (WR_SessionKey <$> sent) /\
  (forall r, r ∈ sent <-> winner (for_session (WR_SessionKey r) asked) r) /\
  (forall r, r ∈ asked -> WR_SessionKey r ∈ WR_SessionKey <$> sent).
Proof.
  intros c asked.
  assert (Hm : merges c asked).
  { unfold c, asked. clear. induction reqs as [|[now r] reqs IH] using rev_ind.
    - intros key. cbn [foldl]. by rewrite lookup_empty.
    - rewrite foldl_app, fmap_app. cbn [foldl fmap list_fmap fst snd]. by apply merges_submit. }
  assert (Hkey : forall key r, c !! key = Some r -> WR_SessionKey r = key).
  { intros key r Hr. pose proof (Hm key) as Hk. rewrite Hr in Hk. destruct Hk as (b & a & E & _).
    assert (Hin : r ∈ for_session key asked) by (rewrite E; apply elem_of_app; right; left).
    by apply list_elem_of_filter in Hin as [? _]. }
  assert (Hsent : forall r, r ∈ (map_to_list c).*2 <-> c !! WR_SessionKey r = Some r).
  { intros r. rewrite list_elem_of_fmap. split.
    - intros ([key x] & -> & Hin). apply elem_of_map_to_list in Hin. cbn. by rewrite (Hkey key x).
    - intros Hr. exists (WR_SessionKey r, r). split; [done|]. by apply elem_of_map_to_list. }
  assert (Huniq : forall l r r', winner l r -> winner l r' -> r = r').
  { intros l r r' (b & a & -> & Hb & Ha) (b' & a' & E & Hb' & Ha'). rewrite Forall_forall in *.
    apply app_eq_inv in E as [(k & Ek & E)|(k & Ek & E)]; destruct k as [|x k];
      cbn in E; injection E as E1 E2; try congruence.
    - subst x. specialize (Hb r' ltac:(rewrite Ek; apply elem_of_app; right; left)).
      specialize (Ha' r ltac:(rewrite E2; apply elem_of_app; right; left)). lia.
    - subst x. specialize (Hb' r ltac:(rewrite Ek; apply elem_of_app; right; left)).
      specialize (Ha r' ltac:(rewrite E2; apply elem_of_app; right; left)). lia. }
  cbn [Coalescer_flush]. split_and!; [done| | |].
  - replace (WR_SessionKey <$> (map_to_list c).*2) with (map_to_list c).*1; [apply NoDup_fst_map_to_list|].
    rewrite <- list_fmap_compose. apply list_fmap_ext. intros i [key r] Hi. cbn.
    apply list_elem_of_lookup_2, elem_of_map_to_list in Hi. by rewrite (Hkey key r).
  - intros r. rewrite Hsent. pose proof (Hm (WR_SessionKey r)) as Hk.
    destruct (c !! WR_SessionKey r) as [x|] eqn:Ex.
    + split; [by intros [= ->]|]. intros Hw. f_equal. by apply (Huniq _ _ _ Hk).
    + split; [done|]. intros (b & a & E & _). rewrite Hk in E. by destruct b.
  - intros r Hr. pose proof (Hm (WR_SessionKey r)) as Hk.
    destruct (c !! WR_SessionKey r) as [x|] eqn:Ex.
    + apply list_elem_of_fmap. exists x. pose proof (Hkey _ _ Ex) as E. split; [done|].
      apply Hsent. by rewrite E.
    + assert (Hin : r ∈ for_session (WR_SessionKey r) asked) by by apply list_elem_of_filter.
      rewrite Hk in Hin. by apply elem_of_nil in Hin.
Qed.

(** ** Concrete triggers *)

#[local] Existing Instance ascii_unicode.
#[local] Existing Instance whole_durations.
#[local] Existing Instance every_minute.

Definition sampleTrigger (id schedule : string) (next : Time) : Trigger :=
  mkTrigger id "" schedule "" "" "" "" "" true "" [] 1 0 (mkExecution "" "" "" "") "" "" next.

Definition sampleEnv : WakeEnv :=
  mkWakeEnv (fun n => 700000 * Day + Z.of_nat n * Second) (Some (fun _ _ => (None, None))) (fun _ => false).

Lemma due_triggers_fire_once_witness :
  let t := sampleTrigger "a" "every 1h" (699999 * Day) in
  let s := mkWake [t] [] true 0 [] in
  exists t', GetTrigger (S_triggers (fireDueTriggers sampleEnv s)) "a" = Some t' /\
    Tr_LastRunAt t' = 700000 * Day /\ trigger_due (700000 * Day) t' = false.
Proof.
  intros t s. destruct (due_triggers_fire_once sampleEnv s) as [_ Hall].
  - apply (bool_decide_unpack _). vm_compute. exact I.
  - by eexists.
  - destruct (Hall t) as (t' & Ht' & Hd & _ & Hl); [left|]. exists t'. split; [exact Ht'|].
    split; [apply Hl; vm_compute; reflexivity|exact Hd].
Defined.

Lemma failed_start_sticks_witness :
  let s := mkWake [sampleTrigger "a" "every never" 0] [] false 0 [] in
  S_running (WakeStart sampleEnv s).2 = true.
Proof.
  intros s. pose proof (failed_start_sticks sampleEnv s (sampleTrigger "a" "every never" 0)) as Hf.
  destruct (WakeStart sampleEnv s) as [err s'].
  destruct Hf as (_ & Hr & _); [reflexivity|left|reflexivity|reflexivity|discriminate|exact Hr].
Defined.

Lemma failed_enable_is_kept_witness :
  let s := mkWake [sampleTrigger "a" "every never" 7] [] false 0 [] in
  GetTrigger (S_triggers (Enable sampleEnv s "a").2) "a" = Some (sampleTrigger "a" "every never" 7).
Proof.
  intros s.
  pose proof (failed_enable_is_kept sampleEnv s "a" (sampleTrigger "a" "every never" 7) (EveryUnparsable "never")) as Hf.
  destruct (Enable sampleEnv s "a") as [err s'].
  destruct Hf as (_ & _ & Hg); [|reflexivity|vm_compute; reflexivity|exact Hg].
  apply (bool_decide_unpack _). vm_compute. exact I.
Defined.
