(* ===== verification/Watch.v ===== *)
(** * Watches ([watch/service.go], [watch/types.go], [watch/store.go])

    A watch probes a source at intervals and runs the agent when the
    fingerprint of what it sees changes.  Sources and their drivers, which
    talk to files, servers and mailboxes, are the operations of a class.  The
    world and the environment are those of the cron service, for watches
    instead of jobs. *)
From S2P Require Import Prelude GoLib GoText Normalize RunState TextTrim ResultModel GoClock Automation ListStore CronSchedule CronService.
From Stdlib Require Import Ascii String.
Import Str Text GoTime GoAny.
Local Open Scope Z_scope.

Record Observation := mkObservation { Ob_Summary : string; Ob_Body : string; Ob_Fingerprint : string }.

Class WatchDrivers := {
  Source : Type;
  Source_Kind : Source -> string;
  driver_Validate : Source -> option string;           (* the error *)
  driver_Describe : Source -> string;
  driver_Probe : nat -> Source -> string + Observation
}.

Definition AutomationSourceWatch : string := "watch".

Section Watches.
Context `{GoUnicode} `{GoTimeText} `{WatchDrivers}.

Record Watch := mkWatch {
  Wt_ID : string;
  Wt_Name : string;
  Wt_Enabled : bool;
  Wt_Interval : string;
  Wt_Source : Source;
  Wt_Delivery : option DeliveryTarget;
  Wt_Notifications : NotificationStats;
  Wt_Prompt : string;
  Wt_SessionKey : string;
  Wt_Model : string;
  Wt_AutomationID : string;
  Wt_FireOnStart : bool;
  Wt_LastCheckedAt : Time;
  Wt_LastTriggeredAt : Time;
  Wt_LastRunID : string;
  Wt_LastStatus : string;
  Wt_LastError : string;
  Wt_LastSummary : string;
  Wt_LastVerificationStatus : string;
  Wt_LastVerificationSummary : string;
  Wt_LastResult : option AutomationResult;
  Wt_ConsecutiveErrors : Z;
  Wt_BackoffUntil : Time;
  Wt_LastFingerprint : string;
  Wt_NextCheckAt : Time;
  Wt_CreatedAt : Time;
  Wt_UpdatedAt : Time
}.

Definition GetWatch : list Watch -> string -> option Watch := list_get Wt_ID.
Definition AddWatch : list Watch -> Watch -> StoreError + list Watch := list_add Wt_ID.
Definition UpdateWatch : list Watch -> string -> (Watch -> Watch) -> StoreError + list Watch := list_update Wt_ID.
Definition RemoveWatch : list Watch -> string -> StoreError + list Watch := list_remove Wt_ID.

(** ** Validation and results *)

Definition parseIntervalOrDefault (raw : string) : Duration := default 0 (ParseDuration (TrimSpace raw)).

(** The error, if any. *)
Definition ValidateWatch (item : Watch) : option string :=
  if decide (parseIntervalOrDefault (Wt_Interval item) <= 0) then Some "invalid interval" else
  match Wt_Delivery item with
  | Some d =>
    if decide (TrimSpace (DTg_Channel d) = "" \/ TrimSpace (DTg_Target d) = "")
    then Some "delivery requires both channel and target" else driver_Validate (Wt_Source item)
  | None => driver_Validate (Wt_Source item)
  end.

Definition watchErrorResult (summary fingerprint errText : string) : AutomationResult :=
  AutomationResult_Normalized
    (mkAutomationResult AutomationSourceWatch AutomationStatusError "" "" (TrimSpace summary) ""
      (TrimSpace fingerprint) (Some (plainError (TrimSpace errText))) None [] [] []).

(** The result of a check that needs no run. *)
Definition quietResult (status summary fingerprint : string) : AutomationResult :=
  AutomationResult_Normalized
    (mkAutomationResult AutomationSourceWatch status "" "" summary "" fingerprint None None [] [] []).

(** [watchRuntimeResult] for a result that is not nil; the text is the one of
    the cron package. *)
Definition watchRuntimeResult (result : RunResult) : AutomationResult := cronRunResultFromRuntime result.

Definition buildWatchPrompt (item : Watch) (ob : Observation) : string :=
  let sourceLabel := driver_Describe (Wt_Source item) in
  let body := if (4000 <? String.length (Ob_Body ob))%nat
              then TrimSpace (substring 0 4000 (Ob_Body ob)) +:+ newline +:+ "[truncated]" else Ob_Body ob in
  let base := TrimSpace (Wt_Prompt item) in
  let base := if decide (base = "")
    then "The watched source changed. Summarize what changed and highlight actionable updates." else base in
  Joins ([base]
    ++ (if decide (sourceLabel = "") then [] else ["Source: " +:+ sourceLabel])
    ++ (if decide (Ob_Summary ob = "") then [] else ["Observed summary: " +:+ Ob_Summary ob])
    ++ (if decide (body = "") then [] else ["Latest observed content:" +:+ newline +:+ body]))
    (newline +:+ newline).

Definition watchRequest (item : Watch) (ob : Observation) : SubmitRequest :=
  let sessionKey := TrimSpace (Wt_SessionKey item) in
  let automationID := TrimSpace (Wt_AutomationID item) in
  mkSubmit (if decide (sessionKey = "") then "watch:" +:+ Wt_ID item else sessionKey)
    (buildWatchPrompt item ob) (TrimSpace (Wt_Model item))
    (if decide (automationID = "") then Wt_ID item else automationID)
    [("automation_kind", AnyString "watch"); ("automation_id", AnyString (Wt_ID item));
     ("automation_name", AnyString (TrimSpace (Wt_Name item)));
     ("watch_source", AnyString (TrimSpace (Source_Kind (Wt_Source item))))] None.

Definition AR_with (r : AutomationResult) (source status runID summary fingerprint : string)
    (err : option ResultError) (v : option ResultVerification) : AutomationResult :=
  mkAutomationResult source status runID (AR_RunStatus r) summary (AR_Output r) fingerprint err v
    (AR_Artifacts r) (AR_Actions r) (AR_Metadata r).

(** The end of [check]: from the result of the run to the result of the watch. *)
Definition watch_outcome (r : AutomationResult) (summary fingerprint : string) : AutomationResult :=
  let n := AutomationResult_Normalized r in
  let final status err := AutomationResult_Normalized
    (AR_with n AutomationSourceWatch status (AR_RunID n)
      (FirstNonEmpty [verificationSummary (AR_Verification n); AR_Summary n; summary]) fingerprint err
      (AR_Verification n)) in
  let or_error msg := match AR_Error n with Some e => Some e | None => Some (plainError msg) end in
  if decide (AR_Status n = AutomationStatusOK) then final AutomationStatusTriggered (AR_Error n)
  else if decide (AR_Status n = AutomationStatusSkipped) then
    final AutomationStatusSkipped (or_error "run was cancelled")
  else if decide (AR_Status n = AutomationStatusError) then
    final AutomationStatusError
      (or_error (FirstNonEmpty [TrimSpace (AR_RunStatus n); "runtime execution failed"]))
  else if decide (AR_Status n = AutomationStatusPending) then
    final AutomationStatusError (or_error "runtime returned non-terminal result")
  else if decide (AR_Error n = None /\ AR_RunID n = "") then
    watchErrorResult summary fingerprint "runtime returned nil result"
  else final AutomationStatusTriggered (AR_Error n).

Definition watchVerificationFailed : option ResultVerification -> bool := verificationFailed.

Definition shouldDeliverWatchResult (r : AutomationResult) : bool :=
  bool_decide (AR_Status r = AutomationStatusTriggered) || bool_decide (AR_Status r = AutomationStatusOK).

Definition watch_label (item : Watch) : string :=
  let name := TrimSpace (Wt_Name item) in
  "[watch:" +:+ TrimSpace (Wt_ID item) +:+ "] " +:+ (if decide (name = "") then TrimSpace (Wt_ID item) else name).

Definition watchDeliveryContent (item : Watch) (r : AutomationResult) : string :=
  let summary := TrimSpace (AR_Summary r) in
  let output := TrimSpace (AR_Output r) in
  let uris := filter (fun u => u <> "") ((fun a => TrimSpace (RA_URI a)) <$> AR_Artifacts r) in
  TrimSpace (Joins ([watch_label item]
    ++ (if decide (summary = "") then [] else [summary])
    ++ (if decide (output = "") then [] else [output])
    ++ (if decide (uris = []) then [] else ["Artifacts: " +:+ Joins uris ", "])) (newline +:+ newline)).

Definition watchVerificationFailureContent (item : Watch) (r : AutomationResult) : string :=
  let summary := verificationSummary (AR_Verification r) in
  TrimSpace (watch_label item +:+ newline +:+ newline +:+
    (if decide (summary = "") then FirstNonEmpty [TrimSpace (AR_Summary r); "verification failed"] else summary)).

(** ** The service *)

Record WatchWorld := mkWatchWorld {
  Q_items : list Watch;
  Q_disk : list Watch;
  Q_effects : nat;
  Q_submitted : list (string * SubmitRequest);
  Q_sent : list (DeliveryTarget * string)
}.

Context (e : Env).

Definition q_effect (w : WatchWorld) : WatchWorld :=
  mkWatchWorld (Q_items w) (Q_disk w) (S (Q_effects w)) (Q_submitted w) (Q_sent w).

Definition q_update (w : WatchWorld) (id : string) (fn : Watch -> Watch) : WatchWorld :=
  match UpdateWatch (Q_items w) id fn with
  | inr l => mkWatchWorld l (Q_disk w) (Q_effects w) (Q_submitted w) (Q_sent w)
  | inl _ => w
  end.

Definition q_save (w : WatchWorld) : WatchWorld :=
  mkWatchWorld (Q_items w) (if E_saveFails e (Q_effects w) then Q_disk w else Q_items w)
    (S (Q_effects w)) (Q_submitted w) (Q_sent w).

(** [run]: an error of the runner becomes a failed result. *)
Definition watch_run (w : WatchWorld) (runner : Runner) (item : Watch) (ob : Observation) : RunResult * WatchWorld :=
  let n := Q_effects w in
  let req := watchRequest item ob in
  let w := mkWatchWorld (Q_items w) (Q_disk w) (S n) (Q_submitted w ++ [(Wt_ID item, req)]) (Q_sent w) in
  (match Runner_Run (E_submit e n) (E_poll e n) runner (E_patience e n) req with
   | inl err => mkRunResult "" RunFailed ("execution failed: " +:+ err) "" "" [] [] no_result
   | inr result => result
   end, w).

(** The verification that is known of the run; empty fields stand for none. *)
Definition lookupVerification (w : WatchWorld) (runID : string) : ResultVerification * WatchWorld :=
  match E_verifier e with
  | None => (mkVerification "" "", w)
  | Some verify =>
    if decide (TrimSpace runID = "") then (mkVerification "" "", w) else
    (match verify (Q_effects w) runID with
     | inr (Some v) => mkVerification (TrimSpace (RV_Status v)) (TrimSpace (RV_Summary v))
     | _ => mkVerification "" ""
     end, q_effect w)
  end.

Definition watch_trigger (w : WatchWorld) (runner : Runner) (item : Watch) (ob : Observation) :
    AutomationResult * WatchWorld :=
  let '(result, w) := watch_run w runner item ob in
  let r := watchRuntimeResult result in
  let runID := if decide (AR_RunID r = "") then TrimSpace (Wt_LastRunID item) else AR_RunID r in
  let '(v, w) := match AR_Verification r with
    | Some v => (Some v, w)
    | None =>
      let '(v, w) := lookupVerification w runID in
      (if decide (RV_Status v <> "" \/ RV_Summary v <> "") then Some v else None, w)
    end in
  (watch_outcome (AR_with r (AR_Source r) (AR_Status r) runID (AR_Summary r) (AR_Fingerprint r) (AR_Error r) v)
     (Ob_Summary ob) (Ob_Fingerprint ob), w).

Definition check (w : WatchWorld) (item : Watch) : AutomationResult * WatchWorld :=
  match ValidateWatch item with
  | Some err => (watchErrorResult "" "" err, w)
  | None =>
    match driver_Probe (Q_effects w) (Wt_Source item) with
    | inl err => (watchErrorResult "" "" err, q_effect w)
    | inr ob =>
      let w := q_effect w in
      let fire := match E_runner e with
        | None => (watchErrorResult (Ob_Summary ob) (Ob_Fingerprint ob) "runtime submitter is not configured", w)
        | Some runner => watch_trigger w runner item ob
        end in
      if decide (TrimSpace (Wt_LastFingerprint item) = "") then
        if Wt_FireOnStart item then fire
        else (quietResult AutomationStatusPrimed (Ob_Summary ob) (Ob_Fingerprint ob), w)
      else if decide (Wt_LastFingerprint item = Ob_Fingerprint ob) then
        (quietResult AutomationStatusUnchanged (Ob_Summary ob) (Ob_Fingerprint ob), w)
      else fire
    end
  end.
Definition Wt_set_notes (x : Watch) (notes : NotificationStats) (updated : Time) : Watch :=
  mkWatch (Wt_ID x) (Wt_Name x) (Wt_Enabled x) (Wt_Interval x) (Wt_Source x) (Wt_Delivery x) notes
    (Wt_Prompt x) (Wt_SessionKey x) (Wt_Model x) (Wt_AutomationID x) (Wt_FireOnStart x)
    (Wt_LastCheckedAt x) (Wt_LastTriggeredAt x) (Wt_LastRunID x) (Wt_LastStatus x) (Wt_LastError x)
    (Wt_LastSummary x) (Wt_LastVerificationStatus x) (Wt_LastVerificationSummary x) (Wt_LastResult x)
    (Wt_ConsecutiveErrors x) (Wt_BackoffUntil x) (Wt_LastFingerprint x) (Wt_NextCheckAt x)
    (Wt_CreatedAt x) updated.

(** The clock is read inside the update, hence only for a watch that exists. *)
Definition watch_recordNotification (w : WatchWorld) (id : string) (attemptAt : Time) (err : option string) : WatchWorld :=
  if decide (TrimSpace id = "") then w else
  match GetWatch (Q_items w) id with
  | None => w
  | Some _ =>
    let updated := E_now e (Q_effects w) in
    q_save (q_update (q_effect w) id (fun x =>
      Wt_set_notes x (RecordNotification (Wt_Notifications x) attemptAt (bool_decide (err = None)) (errorText err))
        updated))
  end.

Definition deliverResult (w : WatchWorld) (item : Watch) (r : AutomationResult) : WatchWorld :=
  match E_channels e, Wt_Delivery item with
  | Some send, Some target =>
    if decide (TrimSpace (DTg_Channel target) = "" \/ TrimSpace (DTg_Target target) = "") then w else
    let content :=
      if shouldDeliverWatchResult r then watchDeliveryContent item r
      else if watchVerificationFailed (AR_Verification r) then watchVerificationFailureContent item r
      else "" in
    if decide (TrimSpace content = "") then w else
    let attemptAt := E_now e (Q_effects w) in
    let w := q_effect w in
    let err := send (Q_effects w) target content in
    let w := mkWatchWorld (Q_items w) (Q_disk w) (S (Q_effects w)) (Q_submitted w) (Q_sent w ++ [(target, content)]) in
    watch_recordNotification w (Wt_ID item) attemptAt err
  | _, _ => w
  end.

Definition watch_errors (item : Watch) (n : AutomationResult) : Z :=
  if decide (AR_Status n = AutomationStatusError) then GoInt.wrap64 (Wt_ConsecutiveErrors item + 1) else 0.

(** The update of the watch [x] of the store after checking the copy [item]. *)
Definition Wt_after_check (now : Time) (item : Watch) (n : AutomationResult) (x : Watch) : Watch :=
  let failed := bool_decide (AR_Status n = AutomationStatusError) in
  let errors := watch_errors item n in
  let autoDisable := failed && bool_decide (maxConsecutiveErrors <= errors) in
  mkWatch (Wt_ID x) (Wt_Name x) (if autoDisable then false else Wt_Enabled x) (Wt_Interval x)
    (Wt_Source x) (Wt_Delivery x) (Wt_Notifications x) (Wt_Prompt x) (Wt_SessionKey x) (Wt_Model x)
    (Wt_AutomationID x) (Wt_FireOnStart x) now
    (if decide (AR_RunID n = "") then Wt_LastTriggeredAt x else now)
    (if decide (AR_RunID n = "") then Wt_LastRunID x else AR_RunID n)
    (AR_Status n) (ErrorMessage n) (AR_Summary n)
    (verificationStatus (AR_Verification n)) (verificationSummary (AR_Verification n))
    (CloneAutomationResult (Some n)) errors
    (if failed && negb autoDisable then Add now (cron_computeBackoff errors) else zeroTime)
    (if decide (AR_Fingerprint n = "") then Wt_LastFingerprint x else AR_Fingerprint n)
    (if autoDisable then zeroTime else Add now (parseIntervalOrDefault (Wt_Interval item)))
    (Wt_CreatedAt x) now.

Definition watch_executeAndUpdate (w : WatchWorld) (item : Watch) : WatchWorld :=
  let now := E_now e (Q_effects w) in
  let '(result, w) := check (q_effect w) item in
  let n := AutomationResult_Normalized result in
  let w := match Wt_Delivery item with Some _ => deliverResult w item n | None => w end in
  q_save (q_update w (Wt_ID item) (Wt_after_check now item n)).

(** ** The loop *)

Definition watch_due (now : Time) (item : Watch) : bool :=
  Wt_Enabled item && negb (IsZero (Wt_NextCheckAt item)) && negb (After (Wt_NextCheckAt item) now)
  && negb (negb (IsZero (Wt_BackoffUntil item)) && After (Wt_BackoffUntil item) now).

Definition fireDue (w : WatchWorld) : WatchWorld :=
  let now := E_now e (Q_effects w) in
  foldl (fun w item => if watch_due now item then watch_executeAndUpdate w item else w)
    (q_effect w) (Q_items w).

Definition Wt_set_next (x : Watch) (now : Time) : Watch :=
  mkWatch (Wt_ID x) (Wt_Name x) (Wt_Enabled x) (Wt_Interval x) (Wt_Source x) (Wt_Delivery x)
    (Wt_Notifications x) (Wt_Prompt x) (Wt_SessionKey x) (Wt_Model x) (Wt_AutomationID x)
    (Wt_FireOnStart x) (Wt_LastCheckedAt x) (Wt_LastTriggeredAt x) (Wt_LastRunID x) (Wt_LastStatus x)
    (Wt_LastError x) (Wt_LastSummary x) (Wt_LastVerificationStatus x) (Wt_LastVerificationSummary x)
    (Wt_LastResult x) (Wt_ConsecutiveErrors x) (Wt_BackoffUntil x) (Wt_LastFingerprint x) now
    (Wt_CreatedAt x) now.

Definition seedNextCheckTimes (w : WatchWorld) : WatchWorld :=
  let now := E_now e (Q_effects w) in
  let unseeded item := Wt_Enabled item && IsZero (Wt_NextCheckAt item) in
  let w' := foldl (fun w item =>
    if unseeded item then q_update w (Wt_ID item) (fun x => Wt_set_next x now) else w)
    (q_effect w) (Q_items w) in
  if existsb unseeded (Q_items w) then q_save w' else w'.

Definition readyAt (item : Watch) : Time :=
  if negb (IsZero (Wt_BackoffUntil item)) && After (Wt_BackoffUntil item) (Wt_NextCheckAt item)
  then Wt_BackoffUntil item else Wt_NextCheckAt item.

Definition watch_earliest (items : list Watch) : Time :=
  earliest_of (fun item => Wt_Enabled item && negb (IsZero (Wt_NextCheckAt item))) readyAt items.

Definition watch_nextDelay (now : Time) (items : list Watch) : Duration :=
  let earliest := watch_earliest items in
  if IsZero earliest then maxTimerDuration else
  let delay := Sub earliest now in
  if decide (delay <= 0) then minTimerDelay
  else if decide (maxTimerDuration < delay) then maxTimerDuration
  else delay.
(** ** When a check runs the agent *)

(** The watch fires on the observation. *)
Definition changed (item : Watch) (ob : Observation) : Prop :=
  (TrimSpace (Wt_LastFingerprint item) = "" /\ Wt_FireOnStart item = true) \/
  (TrimSpace (Wt_LastFingerprint item) <> "" /\ Wt_LastFingerprint item <> Ob_Fingerprint ob).

Lemma watch_trigger_submits w runner item ob :
  let w' := (watch_trigger w runner item ob).2 in
  Q_submitted w' = Q_submitted w ++ [(Wt_ID item, watchRequest item ob)] /\ Q_items w' = Q_items w.
Proof.
  cbn zeta. unfold watch_trigger. cbn [watch_run].
  destruct (AR_Verification _); [done|]. unfold lookupVerification.
  destruct (E_verifier e) as [verify|]; [|done]. case_decide; done.
Qed.

Lemma check_submits w item :
  let w' := (check w item).2 in
  Q_items w' = Q_items w /\
  ((exists ob, ValidateWatch item = None /\ driver_Probe (Q_effects w) (Wt_Source item) = inr ob /\
     is_Some (E_runner e) /\ changed item ob /\
     Q_submitted w' = Q_submitted w ++ [(Wt_ID item, watchRequest item ob)]) \/
   (Q_submitted w' = Q_submitted w /\
    forall ob, ValidateWatch item = None -> driver_Probe (Q_effects w) (Wt_Source item) = inr ob ->
      is_Some (E_runner e) -> ~ changed item ob)).
Proof.
  cbn zeta. unfold check. destruct (ValidateWatch item) as [err|]; [split; [done|right; split; done]|].
  destruct (driver_Probe (Q_effects w) (Wt_Source item)) as [err|ob]; [split; [done|right; split; done]|].
  set (fire := match E_runner e with Some r => _ | None => _ end).
  assert (Hfire : changed item ob ->
    Q_items fire.2 = Q_items w /\
    ((exists ob', None = @None string /\ inr ob = @inr string _ ob' /\ is_Some (E_runner e) /\ changed item ob' /\
       Q_submitted fire.2 = Q_submitted w ++ [(Wt_ID item, watchRequest item ob')]) \/
     (Q_submitted fire.2 = Q_submitted w /\
      forall ob', None = @None string -> inr ob = @inr string _ ob' -> is_Some (E_runner e) -> ~ changed item ob'))).
  { intros Hc. unfold fire. destruct (E_runner e) as [r|].
    - destruct (watch_trigger_submits (q_effect w) r item ob) as [Hs Hi]. split; [done|].
      left. exists ob. split_and!; done.
    - split; [done|]. right. split; [done|]. intros ob' _ _ [? ?]. done. }
  case_decide as Hb; [destruct (Wt_FireOnStart item) eqn:Ef|case_decide as Hf].
  - apply Hfire. by left.
  - split; [done|]. right. split; [done|]. intros ob' _ [= <-] _ [[_ ?]|[? _]]; congruence.
  - split; [done|]. right. split; [done|]. intros ob' _ [= <-] _ [[? _]|[_ ?]]; congruence.
  - apply Hfire. by right.
Qed.

Lemma q_update_submitted w id fn : Q_submitted (q_update w id fn) = Q_submitted w.
Proof. unfold q_update. by destruct (UpdateWatch _ _ _). Qed.

Lemma deliverResult_submitted w item r : Q_submitted (deliverResult w item r) = Q_submitted w.
Proof.
  unfold deliverResult. destruct (E_channels e); [|done]. destruct (Wt_Delivery item); [|done].
  repeat case_decide; [done|done|]. unfold watch_recordNotification. case_decide; [done|].
  destruct (GetWatch _ _); [|done]. cbn [q_save Q_submitted]. by rewrite q_update_submitted.
Qed.

Lemma executeAndUpdate_submitted w item :
  Q_submitted (watch_executeAndUpdate w item) = Q_submitted (check (q_effect w) item).2.
Proof.
  unfold watch_executeAndUpdate. destruct (check (q_effect w) item) as [result w']. cbn [snd].
  cbn [q_save Q_submitted]. rewrite q_update_submitted.
  destruct (Wt_Delivery item); [apply deliverResult_submitted|done].
Qed.

(** A watch runs the agent exactly on a change.  Checking a watch submits
    one run if the watch is valid, the probe succeeds, a runner is configured,
    and the observed fingerprint differs from the last one, or none is known
    yet and the watch is to fire on start; in all other cases it submits
    nothing. *)
Theorem watch_runs_on_change w item :
  let w' := watch_executeAndUpdate w item in
  let probe := driver_Probe (S (Q_effects w)) (Wt_Source item) in
  (forall ob, ValidateWatch item = None -> probe = inr ob -> is_Some (E_runner e) -> changed item ob ->
    Q_submitted w' = Q_submitted w ++ [(Wt_ID item, watchRequest item ob)]) /\
  (Q_submitted w' = Q_submitted w \/
   exists ob, ValidateWatch item = None /\ probe = inr ob /\ is_Some (E_runner e) /\ changed item ob).
Proof.
  intros w' probe. unfold w'. rewrite executeAndUpdate_submitted.
  destruct (check_submits (q_effect w) item) as [_ [(ob & Hv & Hp & Hr & Hc & Hs)|[Hs Hn]]].
  - split; [|right; by exists ob]. intros ob' _ Hp' _ _. unfold probe in Hp'.
    change (Q_effects (q_effect w)) with (S (Q_effects w)) in Hp. rewrite Hp in Hp'.
    injection Hp' as <-. exact Hs.
  - split; [|by left]. intros ob Hv Hp Hr Hc. by destruct (Hn ob Hv Hp Hr).
Qed.

(** ** A change is handled once *)

Lemma Normalized_fingerprint r :
  AR_Fingerprint (AutomationResult_Normalized r) = TrimSpace (AR_Fingerprint r).
Proof.
  unfold AutomationResult_Normalized. cbn [AR_set AR_Fingerprint].
  destruct (AR_verified_fields (AR_trim r)) as (_ & _ & _ & _ & _ & E & _). by rewrite E.
Qed.

Lemma watch_outcome_fingerprint r summary fp :
  AR_Fingerprint (watch_outcome r summary fp) = TrimSpace fp.
Proof.
  unfold watch_outcome, watchErrorResult. repeat case_decide; rewrite Normalized_fingerprint;
    cbn [AR_with AR_Fingerprint]; by rewrite ?TrimSpace_idem.
Qed.

Lemma check_fingerprint w item ob :
  ValidateWatch item = None -> driver_Probe (Q_effects w) (Wt_Source item) = inr ob ->
  AR_Fingerprint (check w item).1 = TrimSpace (Ob_Fingerprint ob).
Proof.
  intros Hv Hp. unfold check. rewrite Hv, Hp.
  assert (Hfire : AR_Fingerprint (match E_runner e with
    | Some runner => watch_trigger (q_effect w) runner item ob
    | None => (watchErrorResult (Ob_Summary ob) (Ob_Fingerprint ob) "runtime submitter is not configured", q_effect w)
    end).1 = TrimSpace (Ob_Fingerprint ob)).
  { destruct (E_runner e) as [runner|].
    - unfold watch_trigger. cbn [watch_run]. destruct (AR_Verification _); [apply watch_outcome_fingerprint|].
      destruct (lookupVerification _ _) as [v w2]. apply watch_outcome_fingerprint.
    - cbn [fst]. unfold watchErrorResult. rewrite Normalized_fingerprint. cbn [AR_Fingerprint].
      by rewrite TrimSpace_idem. }
  repeat case_decide; [destruct (Wt_FireOnStart item)|..]; try done; cbn [fst]; unfold quietResult;
    by rewrite Normalized_fingerprint.
Qed.

Lemma q_update_contents w id fn x :
  list_wf Wt_ID (Q_items w) -> (forall y, Wt_ID (fn y) = Wt_ID y) -> GetWatch (Q_items w) id = Some x ->
  list_wf Wt_ID (Q_items (q_update w id fn)) /\ GetWatch (Q_items (q_update w id fn)) id = Some (fn x).
Proof.
  intros Hwf Hid Hx. unfold q_update, UpdateWatch, list_update.
  unfold GetWatch in *. rewrite list_get_contents in Hx |- *.
  pose proof (update_loop_spec Wt_ID (Q_items w) id fn Hwf Hid) as Hu.
  destruct (update_loop Wt_ID (Q_items w) id fn) as [l|]; [|congruence].
  destruct Hu as (Hl & y & Hy & Hc & _). cbn [Q_items]. split; [done|].
  rewrite Hc, lookup_insert_eq. congruence.
Qed.

Lemma deliverResult_keeps w item r x :
  list_wf Wt_ID (Q_items w) -> GetWatch (Q_items w) (Wt_ID item) = Some x ->
  list_wf Wt_ID (Q_items (deliverResult w item r)) /\
  exists n u, GetWatch (Q_items (deliverResult w item r)) (Wt_ID item) = Some (Wt_set_notes x n u).
Proof.
  intros Hwf Hx. assert (Hsame : forall w', Q_items w' = Q_items w -> list_wf Wt_ID (Q_items w') /\
    exists n u, GetWatch (Q_items w') (Wt_ID item) = Some (Wt_set_notes x n u)).
  { intros w' ->. split; [done|]. exists (Wt_Notifications x), (Wt_UpdatedAt x). rewrite Hx. by destruct x. }
  unfold deliverResult. destruct (E_channels e); [|by apply Hsame].
  destruct (Wt_Delivery item); [|by apply Hsame]. repeat case_decide; [by apply Hsame..|].
  unfold watch_recordNotification. case_decide; [by apply Hsame|].
  cbn [q_effect Q_items]. rewrite Hx. cbn [q_save Q_items].
  set (w0 := q_effect _). set (fn := fun x0 => Wt_set_notes x0 _ _).
  destruct (q_update_contents w0 (Wt_ID item) fn x) as [Hwf' Hg]; [done|done|done|].
  split; [done|]. eexists _, _. exact Hg.
Qed.

(** Without overlapping checks, a change is handled at most once, even if handling
    it fails.  When a watch as it is in the store is checked and sees a fingerprint
    without white space around it, as those of the built-in drivers, that
    fingerprint becomes its last one, whatever came of the run.  As long as the
    source shows the same fingerprint, later checks of the stored watch submit
    nothing.  A check that was started before, on a copy of the watch, does
    ([overlapping_checks_submit_twice]). *)
Theorem change_handled_once w item ob :
  list_wf Wt_ID (Q_items w) -> GetWatch (Q_items w) (Wt_ID item) = Some item ->
  ValidateWatch item = None -> driver_Probe (S (Q_effects w)) (Wt_Source item) = inr ob ->
  Trimmed (Ob_Fingerprint ob) -> Ob_Fingerprint ob <> "" ->
  exists item', GetWatch (Q_items (watch_executeAndUpdate w item)) (Wt_ID item) = Some item' /\
    Wt_LastFingerprint item' = Ob_Fingerprint ob /\
    forall w2 ob2, driver_Probe (S (Q_effects w2)) (Wt_Source item') = inr ob2 ->
      Ob_Fingerprint ob2 = Ob_Fingerprint ob ->
      Q_submitted (watch_executeAndUpdate w2 item') = Q_submitted w2.
Proof.
  intros Hwf Hget Hv Hp Ht Hne.
  assert (Hex : exists item', GetWatch (Q_items (watch_executeAndUpdate w item)) (Wt_ID item) = Some item' /\
    Wt_LastFingerprint item' = Ob_Fingerprint ob).
  { unfold watch_executeAndUpdate.
    pose proof (check_fingerprint (q_effect w) item ob Hv Hp) as Hfp.
    destruct (check_submits (q_effect w) item) as [Hi _].
    destruct (check (q_effect w) item) as [result w1]. cbn [fst snd] in *.
    set (n := AutomationResult_Normalized result).
    assert (Hn : AR_Fingerprint n = Ob_Fingerprint ob).
    { unfold n. rewrite Normalized_fingerprint, Hfp, TrimSpace_idem. exact Ht. }
    cbn [q_save Q_items].
    assert (Hpre : list_wf Wt_ID (Q_items (match Wt_Delivery item with Some _ => deliverResult w1 item n | None => w1 end))
      /\ exists x, GetWatch (Q_items (match Wt_Delivery item with Some _ => deliverResult w1 item n | None => w1 end))
           (Wt_ID item) = Some x).
    { change (Q_items (q_effect w)) with (Q_items w) in Hi. rewrite <- Hi in Hwf, Hget.
      destruct (Wt_Delivery item); [|by eauto].
      destruct (deliverResult_keeps w1 item n item Hwf Hget) as (? & ? & ? & ?). by eauto. }
    destruct Hpre as (Hwf' & x & Hx).
    destruct (q_update_contents _ (Wt_ID item) (Wt_after_check (E_now e (Q_effects w)) item n) x Hwf')
      as [_ Hg]; [done|done|].
    eexists. split; [exact Hg|]. cbn [Wt_after_check Wt_LastFingerprint]. rewrite Hn. by case_decide. }
  destruct Hex as (item' & Hg & Hfp). exists item'. split_and!; [done|done|].
  intros w2 ob2 Hp2 E2. rewrite executeAndUpdate_submitted.
  destruct (check_submits (q_effect w2) item') as [_ [(ob3 & _ & Hp3 & _ & Hc & _)|[Hs _]]]; [|exact Hs].
  exfalso. change (Q_effects (q_effect w2)) with (S (Q_effects w2)) in Hp3. rewrite Hp2 in Hp3.
  injection Hp3 as <-. destruct Hc as [[Hb _]|[_ Hd]]; [|congruence].
  rewrite Hfp, Ht in Hb. done.
Qed.

(** ** The timer *)

Lemma watch_due_iff now item :
  watch_due now item = true <->
  Wt_Enabled item && negb (IsZero (Wt_NextCheckAt item)) = true /\ readyAt item <= now.
Proof.
  unfold watch_due, readyAt, IsZero, After. rewrite !andb_true_iff, !negb_true_iff, !andb_false_iff.
  rewrite !negb_false_iff, !bool_decide_eq_true, !bool_decide_eq_false.
  destruct (negb (bool_decide (Wt_BackoffUntil item = zeroTime)) &&
    bool_decide (Wt_NextCheckAt item < Wt_BackoffUntil item)) eqn:E.
  - apply andb_true_iff in E as [E1 E2]. apply bool_decide_eq_true in E2.
    apply negb_true_iff, bool_decide_eq_false in E1. intuition (auto; lia).
  - apply andb_false_iff in E as [E|E].
    + apply negb_false_iff, bool_decide_eq_true in E. intuition (auto; lia).
    + apply bool_decide_eq_false in E. intuition (auto; lia).
Qed.

(** The timer of the watches sleeps exactly until a check is due.  When no
    watch is due, none becomes due before the timer fires; and if the timer
    fires within a day, a watch is due then.  So the loop never spins while
    watches back off, unlike that of the cron service. *)
Theorem watch_timer_exact now items :
  (forall item, item ∈ items -> watch_due now item = false) ->
  let delay := watch_nextDelay now items in
  0 < delay <= maxTimerDuration /\
  (forall t item, item ∈ items -> now <= t < now + delay -> watch_due t item = false) /\
  (delay < maxTimerDuration -> exists item, item ∈ items /\ watch_due (now + delay) item = true).
Proof.
  intros Hnone. cbn zeta. unfold watch_nextDelay, watch_earliest.
  destruct (earliest_of_spec (fun item => Wt_Enabled item && negb (IsZero (Wt_NextCheckAt item)))
    readyAt items) as [Hz Hmin].
  { intros x Hx. apply andb_true_iff in Hx as [_ Hx]. unfold readyAt.
    destruct (negb (IsZero (Wt_BackoffUntil x)) && After (Wt_BackoffUntil x) (Wt_NextCheckAt x)) eqn:E;
      [apply andb_true_iff in E as [E _]|]; by apply negb_true_iff, bool_decide_eq_false in E || 
      by apply negb_true_iff, bool_decide_eq_false in Hx. }
  set (t := earliest_of _ _ _) in *. unfold IsZero.
  assert (Hday : 0 < maxTimerDuration) by reflexivity.
  case_bool_decide as E0.
  { split_and!; [lia|lia| |lia]. intros u x Hx _. apply not_true_iff_false. rewrite watch_due_iff.
    intros [Hs _]. pose proof (proj1 Hz E0 x Hx) as Hf. cbn beta in Hf. congruence. }
  destruct (Hmin E0) as [(x & Hx & Hs & Ex) Hle]. cbn beta in *.
  assert (Hfut : now < t).
  { pose proof (Hnone x Hx) as Hd. apply not_true_iff_false in Hd. rewrite watch_due_iff in Hd.
    destruct (decide (now < t)); [done|]. destruct Hd. split; [done|lia]. }
  assert (Hno : forall u y, y ∈ items -> u < t -> watch_due u y = false).
  { intros u y Hy Hu. apply not_true_iff_false. rewrite watch_due_iff. intros [Hsy Hry].
    specialize (Hle y Hy Hsy). lia. }
  assert (Hsub : Sub t now = Z.min GoInt.max_int64 (t - now)).
  { unfold Sub, GoInt.max_int64, GoInt.min_int64. lia. }
  rewrite decide_False by (rewrite Hsub; unfold GoInt.max_int64; lia).
  unfold maxTimerDuration, Hour, Minute, Second, GoInt.max_int64 in *.
  case_decide as Hbig; (split_and!; [lia|lia| |]).
  - intros u y Hy Hu. apply Hno; [done|lia].
  - lia.
  - intros u y Hy Hu. apply Hno; [done|lia].
  - intros _. exists x. split; [done|]. apply watch_due_iff. split; [done|lia].
Qed.
End Watches.

(** ** A watch on concrete inputs *)

#[local] Existing Instance ascii_unicode.
#[local] Existing Instance whole_durations.

(** A file whose content is its fingerprint. *)
Definition file_drivers : WatchDrivers :=
  {| Source := string; Source_Kind _ := "file"; driver_Validate _ := None; driver_Describe s := s;
     driver_Probe _ s := inr (mkObservation s s s) |}.

#[local] Existing Instance file_drivers.

Definition sampleWatch (content last : string) (next backoff : Time) : Watch :=
  mkWatch "w1" "" true "1h" content None emptyStats "" "" "" "" false 0 0 "" "" "" "" "" "" None 0 backoff
    last next 0 0.

Definition watchWorld (item : Watch) : WatchWorld := mkWatchWorld [item] [] 0 [] [].

Lemma watch_runs_on_change_witness :
  let item := sampleWatch "new" "old" 1 0 in
  List.length (Q_submitted (watch_executeAndUpdate refusing (watchWorld item) item)) = 1%nat.
Proof.
  intros item. destruct (watch_runs_on_change refusing (watchWorld item) item) as [Hrun _].
  rewrite (Hrun (mkObservation "new" "new" "new")); [reflexivity|reflexivity|reflexivity|by eexists|].
  right. split; [vm_compute; discriminate|discriminate].
Defined.

Lemma change_handled_once_witness :
  let item := sampleWatch "new" "old" 1 0 in
  exists item', GetWatch (Q_items (watch_executeAndUpdate refusing (watchWorld item) item)) "w1" = Some item' /\
    Wt_LastFingerprint item' = "new".
Proof.
  intros item.
  destruct (change_handled_once refusing (watchWorld item) item (mkObservation "new" "new" "new"))
    as (item' & Hg & Hf & _).
  - apply NoDup_singleton.
  - reflexivity.
  - reflexivity.
  - reflexivity.
  - vm_compute. reflexivity.
  - discriminate.
  - exists item'. split; [exact Hg|exact Hf].
Defined.

Lemma watch_timer_exact_witness :
  let now := 700000 * Day in
  let item := sampleWatch "a" "a" (699999 * Day) (now + Minute) in
  watch_nextDelay now [item] = Minute /\ watch_due (now + Minute) item = true.
Proof.
  intros now item. split; [vm_compute; reflexivity|].
  destruct (watch_timer_exact now [item]) as (_ & _ & Hd).
  - intros x Hx. apply list_elem_of_singleton in Hx as ->. vm_compute. reflexivity.
  - destruct Hd as (x & Hx & Hdue); [vm_compute; reflexivity|].
    apply list_elem_of_singleton in Hx as ->. exact Hdue.
Defined.

(** A change whose run fails is lost.  The runtime refuses the run for a
    change; the check records an error and one failure, and the fingerprint
    of the change.  The next check of the same content reports "unchanged"
    and clears the failure count, and no run is submitted for the change. *)
Theorem failed_change_not_retried :
  let item := sampleWatch "new" "old" 1 0 in
  let w1 := watch_executeAndUpdate refusing (watchWorld item) item in
  let item1 := default item (GetWatch (Q_items w1) "w1") in
  let w2 := watch_executeAndUpdate refusing w1 item1 in
  let item2 := default item (GetWatch (Q_items w2) "w1") in
  Wt_LastStatus item1 = "error" /\ Wt_ConsecutiveErrors item1 = 1 /\ Wt_LastFingerprint item1 = "new" /\
  Wt_LastStatus item2 = "unchanged" /\ Wt_ConsecutiveErrors item2 = 0 /\
  Q_submitted w2 = Q_submitted w1.
Proof. vm_compute. split_and!; reflexivity. Qed.

(** A check that is triggered while another one runs works on a copy of the watch
    from before: the same change is submitted twice. *)
Theorem overlapping_checks_submit_twice :
  let item := sampleWatch "new" "old" 1 0 in
  let w1 := watch_executeAndUpdate refusing (watchWorld item) item in
  let w2 := watch_executeAndUpdate refusing w1 item in
  List.length (Q_submitted w2) = 2%nat /\ Wt_LastFingerprint <$> Q_items w2 = ["new"].
Proof. vm_compute. split; reflexivity. Qed.

(** The stored fingerprint is trimmed but the one it is compared with is not, so that
    a driver whose fingerprints have white space around them fires at every check. *)
Theorem untrimmed_fingerprint_fires_again :
  let item := sampleWatch " new" "old" 1 0 in
  let w1 := watch_executeAndUpdate refusing (watchWorld item) item in
  let item1 := default item (GetWatch (Q_items w1) "w1") in
  let w2 := watch_executeAndUpdate refusing w1 item1 in
  Wt_LastFingerprint item1 = "new" /\ List.length (Q_submitted w2) = 2%nat.
Proof. vm_compute. split; reflexivity. Qed.
