(* ===== verification/AutoReply.v ===== *)
(** * Automatic replies ([autoreply/engine.go], [autoreply/matcher.go],
    [autoreply/cooldown.go], [autoreply/template.go], [autoreply/types.go])

    The engine answers an incoming message with the first rule, by priority,
    that matches and is neither cooling down nor over its hourly limit.  An
    evaluation and a clean-up take place at one instant, which is an argument.
    The time of a message carries its offset from UTC, because the rules look
    at the wall clock of the message. *)
From S2P Require Import Prelude GoLib GoText GoClock.
From Stdlib Require Import Ascii String.
Import Str Text GoTime.
Local Open Scope Z_scope.

Definition MatchExact : string := "exact".
Definition MatchPrefix : string := "prefix".
Definition MatchContains : string := "contains".
Definition MatchRegex : string := "regex".
Definition MatchAny : string := "any".

Record Rule := mkRule {
  R_ID : string;
  R_Name : string;
  R_Enabled : bool;
  R_Priority : Z;
  R_MatchMode : string;
  R_Pattern : string;
  R_Response : string;
  R_Channels : list string;
  R_Sessions : list string;
  R_Cooldown : Duration;
  R_MaxPerHour : Z;
  R_ActiveFrom : string;
  R_ActiveUntil : string
}.

Record ReplyConfig := mkReplyConfig {
  RC_Enabled : bool; RC_DefaultCooldown : Duration; RC_Rules : list Rule }.

(** An instant and the offset of its location, in seconds. *)
Record LocalTime := mkLocal { LT_instant : Time; LT_offset : Z }.

Record MessageContext := mkMessage {
  MC_SenderID : string; MC_SenderName : string; MC_Channel : string; MC_SessionKey : string;
  MC_Content : string; MC_ReceivedAt : LocalTime }.

Record Reply := mkReply { Rp_RuleID : string; Rp_RuleName : string; Rp_Text : string }.

(** ** Wall-clock time *)

Definition wall (t : LocalTime) : Time := LT_instant t + LT_offset t * Second.

Definition Hour_of (t : LocalTime) : Z := (wall t mod Day) / GoTime.Hour.
Definition Minute_of (t : LocalTime) : Z := (wall t mod GoTime.Hour) / GoTime.Minute.
Definition Second_of (t : LocalTime) : Z := (wall t mod GoTime.Minute) / GoTime.Second.

(** January 1, year 1 was a Monday. *)
Definition Weekday_name (t : LocalTime) : string :=
  nth (Z.to_nat ((wall t / Day) mod 7))
    ["Monday"; "Tuesday"; "Wednesday"; "Thursday"; "Friday"; "Saturday"; "Sunday"] "".

Definition FormatTimeOfDay (t : LocalTime) : string :=
  padded 2 (Hour_of t) +:+ ":" +:+ padded 2 (Minute_of t).

Definition FormatZone (offset : Z) : string :=
  if decide (offset = 0) then "Z" else
  let minutes := Z.quot offset 60 in
  (if decide (minutes < 0) then "-" else "+") +:+ padded 2 (Z.abs minutes / 60) +:+ ":"
  +:+ padded 2 (Z.abs minutes mod 60).

Definition FormatRFC3339 (t : LocalTime) : string :=
  FormatDay (wall t) +:+ "T" +:+ FormatTimeOfDay t +:+ ":" +:+ padded 2 (Second_of t)
  +:+ FormatZone (LT_offset t).

Definition digit (a : ascii) : option Z :=
  if byte_in 48 57 a then Some (Z.of_nat (nat_of_ascii a) - 48) else None.

(** [time.Parse] with the layout "15:04", in minutes since midnight: an hour
    of one or two digits and a minute of two. *)
Definition ParseTimeOfDay (s : string) : option Z :=
  let finish (hour : Z) (rest : string) : option Z :=
    match rest with
    | String c (String m1 (String m2 EmptyString)) =>
      if byte_is 58 c then
        m1 ← digit m1; m2 ← digit m2;
        if decide (hour < 24 /\ 10 * m1 + m2 < 60) then Some (60 * hour + 10 * m1 + m2) else None
      else None
    | _ => None
    end in
  match s with
  | String h1 rest =>
    h1 ← digit h1;
    match rest with
    | String h2 rest' => match digit h2 with Some h2 => finish (10 * h1 + h2) rest' | None => finish h1 rest end
    | EmptyString => None
    end
  | EmptyString => None
  end.

(** ** Templates *)

(** [strings.NewReplacer(...).Replace]: one pass from the left; at each
    position the first of the pairs that applies.  [skip] bytes of the current
    match are still to be passed over. *)
Fixpoint find_prefix (pairs : list (string * string)) (s : string) : option (string * string) :=
  match pairs with
  | [] => None
  | (old, new) :: rest => if HasPrefix s old then Some (old, new) else find_prefix rest s
  end.

Fixpoint replace_from (pairs : list (string * string)) (skip : nat) (s : string) : string :=
  match s with
  | EmptyString => EmptyString
  | String a rest =>
    match skip with
    | S skip => replace_from pairs skip rest
    | O =>
      match find_prefix pairs s with
      | Some (old, new) => new +:+ replace_from pairs (String.length old - 1) rest
      | None => String a (replace_from pairs 0 rest)
      end
    end
  end.

Definition template_pairs (ctx : MessageContext) : list (string * string) :=
  [("{{.SenderID}}", MC_SenderID ctx); ("{{.SenderName}}", MC_SenderName ctx);
   ("{{.Channel}}", MC_Channel ctx); ("{{.SessionKey}}", MC_SessionKey ctx);
   ("{{.Content}}", MC_Content ctx); ("{{.ReceivedAt}}", FormatRFC3339 (MC_ReceivedAt ctx));
   ("{{.Date}}", FormatDay (wall (MC_ReceivedAt ctx))); ("{{.Time}}", FormatTimeOfDay (MC_ReceivedAt ctx));
   ("{{.DayOfWeek}}", Weekday_name (MC_ReceivedAt ctx))].

Definition applyTemplate (tmpl : string) (ctx : MessageContext) : string :=
  if decide (tmpl = "") then "" else replace_from (template_pairs ctx) 0 tmpl.

(** ** Selecting rules *)

(** [sort.SliceStable] by ascending priority. *)
Fixpoint insert_rule (r : Rule) (l : list Rule) : list Rule :=
  match l with
  | [] => [r]
  | x :: rest => if decide (R_Priority r <= R_Priority x) then r :: x :: rest else x :: insert_rule r rest
  end.

Definition sortedRules (rules : list Rule) : list Rule := foldr insert_rule [] rules.

Definition sessionAllowed (r : Rule) (sessionKey : string) : bool :=
  match R_Sessions r with [] => true | l => bool_decide (sessionKey ∈ l) end.

Definition timeOfDayAllowed (r : Rule) (ts : LocalTime) : bool :=
  if decide (R_ActiveFrom r = "" /\ R_ActiveUntil r = "") then true else
  let nowMinutes := Hour_of ts * 60 + Minute_of ts in
  let from := if decide (R_ActiveFrom r = "") then Some 0 else ParseTimeOfDay (R_ActiveFrom r) in
  let until := if decide (R_ActiveUntil r = "") then Some (24 * 60) else ParseTimeOfDay (R_ActiveUntil r) in
  match from, until with
  | Some from, Some until =>
    if decide (from <= until) then bool_decide (from <= nowMinutes) && bool_decide (nowMinutes < until)
    else bool_decide (from <= nowMinutes) || bool_decide (nowMinutes < until)
  | _, _ => true
  end.

(** ** Cool-down *)

Abbreviation cooldownKey := (string * string)%type (only parsing).

Record CooldownTracker := mkTracker {
  CT_entries : gmap (string * string) Time;
  CT_counts : gmap (string * string) (Z * Time)     (* fires, windowEnd *)
}.

Definition NewCooldownTracker : CooldownTracker := mkTracker ∅ ∅.

Definition IsOnCooldown (t : CooldownTracker) (now : Time) (key : cooldownKey) (cooldown : Duration) : bool :=
  if decide (cooldown <= 0) then false else
  match CT_entries t !! key with
  | None => false
  | Some last => bool_decide (Sub now last < cooldown)
  end.

Definition ExceedsMaxPerHour (t : CooldownTracker) (now : Time) (key : cooldownKey) (maxPerHour : Z) : bool :=
  if decide (maxPerHour <= 0) then false else
  match CT_counts t !! key with
  | None => false
  | Some (fires, windowEnd) => if After now windowEnd then false else bool_decide (maxPerHour <= fires)
  end.

Definition RecordFire (t : CooldownTracker) (now : Time) (key : cooldownKey) : CooldownTracker :=
  let fresh := (1, Add now GoTime.Hour) in
  mkTracker (<[key := now]> (CT_entries t))
    (<[key := match CT_counts t !! key with
              | None => fresh
              | Some (fires, windowEnd) =>
                if After now windowEnd then fresh else (GoInt.wrap64 (fires + 1), windowEnd)
              end]> (CT_counts t)).

Definition cleanup (t : CooldownTracker) (now : Time) : CooldownTracker :=
  mkTracker (filter (fun kv => Before kv.2 (Add now (- GoTime.Hour)) = false) (CT_entries t))
    (filter (fun kv => After now kv.2.2 = false) (CT_counts t)).

(** ** The engine *)

Section ReplyEngine.
Context `{GoUnicode} `{GoRegexp}.

Definition channelAllowed (r : Rule) (channel : string) : bool :=
  match R_Channels r with [] => true | l => existsb (fun ch => EqualFold ch channel) l end.

Abbreviation Matcher := (gmap string Regexp) (only parsing).

Definition maxCompiledRegexCache : nat := 100.

(** The compiled expression, if the pattern is valid, and the cache. *)
Definition getOrCompileRegex (m : Matcher) (pattern : string) : option Regexp * Matcher :=
  match m !! pattern with
  | Some re => (Some re, m)
  | None =>
    match Compile pattern with
    | None => (None, m)
    | Some compiled =>
      let m := if decide (maxCompiledRegexCache <= size m)%nat then ∅ else m in
      (Some compiled, <[pattern := compiled]> m)
    end
  end.

Definition matchRegex (m : Matcher) (pattern content : string) : bool * Matcher :=
  let '(re, m) := getOrCompileRegex m pattern in
  (match re with Some re => MatchString re content | None => false end, m).

Definition Match (m : Matcher) (r : Rule) (content : string) : bool * Matcher :=
  let mode := R_MatchMode r in let pattern := R_Pattern r in
  if decide (mode = MatchExact) then (EqualFold pattern content, m)
  else if decide (mode = MatchPrefix) then (HasPrefix (ToLower content) (ToLower pattern), m)
  else if decide (mode = MatchContains) then (Contains (ToLower content) (ToLower pattern), m)
  else if decide (mode = MatchRegex) then matchRegex m pattern content
  else if decide (mode = MatchAny) then (true, m)
  else (false, m).

Record ReplyEngine := mkEngine {
  En_config : ReplyConfig; En_matcher : gmap string Regexp; En_cooldown : CooldownTracker }.

Definition NewEngine (cfg : ReplyConfig) : ReplyEngine := mkEngine cfg ∅ NewCooldownTracker.

Definition Reload (en : ReplyEngine) (cfg : ReplyConfig) : ReplyEngine := mkEngine cfg (En_matcher en) (En_cooldown en).

Definition effective_cooldown (cfg : ReplyConfig) (r : Rule) : Duration :=
  if decide (R_Cooldown r <= 0) then RC_DefaultCooldown cfg else R_Cooldown r.

Fixpoint evaluate_loop (cfg : ReplyConfig) (now : Time) (msg : MessageContext) (m : Matcher)
    (t : CooldownTracker) (rules : list Rule) : option Reply * Matcher * CooldownTracker :=
  match rules with
  | [] => (None, m, t)
  | r :: rest =>
    let key := (R_ID r, MC_SessionKey msg) in
    if negb (R_Enabled r && channelAllowed r (MC_Channel msg) && sessionAllowed r (MC_SessionKey msg)
             && timeOfDayAllowed r (MC_ReceivedAt msg)) then evaluate_loop cfg now msg m t rest
    else
    let '(matched, m) := Match m r (MC_Content msg) in
    if negb matched then evaluate_loop cfg now msg m t rest
    else if IsOnCooldown t now key (effective_cooldown cfg r) then evaluate_loop cfg now msg m t rest
    else if ExceedsMaxPerHour t now key (R_MaxPerHour r) then evaluate_loop cfg now msg m t rest
    else (Some (mkReply (R_ID r) (R_Name r) (applyTemplate (R_Response r) msg)), m, RecordFire t now key)
  end.

Definition EvaluateMessage (en : ReplyEngine) (now : Time) (msg : MessageContext) : option Reply * ReplyEngine :=
  let cfg := En_config en in
  if negb (RC_Enabled cfg) then (None, en) else
  let '(reply, m, t) := evaluate_loop cfg now msg (En_matcher en) (En_cooldown en) (sortedRules (RC_Rules cfg)) in
  (reply, mkEngine cfg m t).

Definition CleanupEngine (en : ReplyEngine) (now : Time) : ReplyEngine :=
  mkEngine (En_config en) (En_matcher en) (cleanup (En_cooldown en) now).
(** ** Matching without the cache *)

Definition matches (r : Rule) (content : string) : bool :=
  let mode := R_MatchMode r in let pattern := R_Pattern r in
  if decide (mode = MatchExact) then EqualFold pattern content
  else if decide (mode = MatchPrefix) then HasPrefix (ToLower content) (ToLower pattern)
  else if decide (mode = MatchContains) then Contains (ToLower content) (ToLower pattern)
  else if decide (mode = MatchRegex) then
    match Compile pattern with Some re => MatchString re content | None => false end
  else bool_decide (mode = MatchAny).

Definition cache_ok (m : Matcher) : Prop :=
  (size m <= maxCompiledRegexCache)%nat /\ forall p re, m !! p = Some re -> Compile p = Some re.

Lemma cache_ok_empty : cache_ok ∅.
Proof. split; [rewrite map_size_empty; unfold maxCompiledRegexCache; lia|]. intros p re. by rewrite lookup_empty. Qed.

Lemma getOrCompileRegex_spec m pattern :
  cache_ok m ->
  let '(re, m') := getOrCompileRegex m pattern in re = Compile pattern /\ cache_ok m'.
Proof.
  intros [Hsize Hm]. unfold getOrCompileRegex. destruct (m !! pattern) as [re|] eqn:E.
  { split; [symmetry; by apply Hm|done]. }
  destruct (Compile pattern) as [compiled|] eqn:Ec; [|done]. split; [done|].
  assert (Hgen : forall m0, (size m0 < maxCompiledRegexCache)%nat ->
    (forall p re, m0 !! p = Some re -> Compile p = Some re) -> cache_ok (<[pattern := compiled]> m0)).
  { intros m0 Hs Hm0. split.
    - destruct (m0 !! pattern) as [x|] eqn:Ex.
      + rewrite map_size_insert_Some by eauto. lia.
      + rewrite map_size_insert_None by done. lia.
    - intros p re. destruct (decide (p = pattern)) as [->|Hp].
      + rewrite lookup_insert_eq. congruence.
      + rewrite lookup_insert_ne by done. apply Hm0. }
  case_decide as Hd; apply Hgen.
  - rewrite map_size_empty. unfold maxCompiledRegexCache. lia.
  - intros p re. by rewrite lookup_empty.
  - lia.
  - done.
Qed.

Lemma Match_spec m r content :
  cache_ok m -> let '(b, m') := Match m r content in b = matches r content /\ cache_ok m'.
Proof.
  intros Hm. unfold Match, matches. repeat case_decide; try done.
  unfold matchRegex. pose proof (getOrCompileRegex_spec m (R_Pattern r) Hm) as Hg.
  destruct (getOrCompileRegex m (R_Pattern r)) as [re m']. destruct Hg as [-> Hm']. done.
Qed.

(** ** The rule that answers *)

(** Everything [Evaluate] asks of a rule. *)
Definition eligible (cfg : ReplyConfig) (now : Time) (t : CooldownTracker) (msg : MessageContext) (r : Rule) : bool :=
  let key := (R_ID r, MC_SessionKey msg) in
  R_Enabled r && channelAllowed r (MC_Channel msg) && sessionAllowed r (MC_SessionKey msg)
  && timeOfDayAllowed r (MC_ReceivedAt msg) && matches r (MC_Content msg)
  && negb (IsOnCooldown t now key (effective_cooldown cfg r))
  && negb (ExceedsMaxPerHour t now key (R_MaxPerHour r)).

Lemma evaluate_loop_spec cfg now msg m t rules :
  cache_ok m ->
  let '(reply, m', t') := evaluate_loop cfg now msg m t rules in
  cache_ok m' /\
  match find (eligible cfg now t msg) rules with
  | Some r => reply = Some (mkReply (R_ID r) (R_Name r) (applyTemplate (R_Response r) msg)) /\
      t' = RecordFire t now (R_ID r, MC_SessionKey msg)
  | None => reply = None /\ t' = t
  end.
Proof.
  revert m. induction rules as [|r rules IH]; intros m Hm; cbn [evaluate_loop find]; [done|].
  unfold eligible at 1.
  destruct (R_Enabled r && channelAllowed r (MC_Channel msg) && sessionAllowed r (MC_SessionKey msg)
    && timeOfDayAllowed r (MC_ReceivedAt msg)); cbn [negb andb]; [|by apply IH].
  pose proof (Match_spec m r (MC_Content msg) Hm) as Hs.
  destruct (Match m r (MC_Content msg)) as [matched m1]. destruct Hs as [-> Hm1].
  destruct (matches r (MC_Content msg)); cbn [negb andb]; [|by apply IH].
  destruct (IsOnCooldown _ _ _ _); cbn [negb andb]; [by apply IH|].
  destruct (ExceedsMaxPerHour _ _ _ _); cbn [negb andb]; [by apply IH|]. done.
Qed.

(** [r] is the first of the rules satisfying [f] with the least priority number. *)
Definition first_best (f : Rule -> bool) (rules : list Rule) (r : Rule) : Prop :=
  f r = true /\ exists before after, rules = before ++ r :: after /\
    Forall (fun x => f x = true -> R_Priority r < R_Priority x) before /\
    Forall (fun x => f x = true -> R_Priority r <= R_Priority x) after.

Fixpoint ascending (l : list Rule) : Prop :=
  match l with [] => True | x :: rest => Forall (fun y => R_Priority x <= R_Priority y) rest /\ ascending rest end.

Lemma insert_rule_Forall P r l : Forall P (insert_rule r l) <-> P r /\ Forall P l.
Proof.
  induction l as [|x l IH]; cbn [insert_rule].
  - rewrite Forall_cons. done.
  - case_decide; rewrite !Forall_cons; [done|]. rewrite IH. tauto.
Qed.

Lemma insert_rule_ascending r l : ascending l -> ascending (insert_rule r l).
Proof.
  induction l as [|x l IH]; cbn [insert_rule ascending]; [done|]. intros [Hx Hl].
  case_decide; cbn [ascending].
  - split; [|done]. constructor; [done|]. eapply Forall_impl; [exact Hx|]. cbn. intros; lia.
  - split; [|by apply IH]. apply insert_rule_Forall. split; [lia|done].
Qed.

Lemma sortedRules_ascending l : ascending (sortedRules l).
Proof. induction l as [|x l IH]; [done|]. by apply insert_rule_ascending. Qed.

Lemma find_insert_rule f r l :
  ascending l ->
  find f (insert_rule r l) =
    if f r then match find f l with
                | Some y => if decide (R_Priority r <= R_Priority y) then Some r else Some y
                | None => Some r
                end
    else find f l.
Proof.
  induction l as [|x l IH]; cbn [insert_rule ascending find]; [done|]. intros [Hx Hl].
  destruct (decide (R_Priority r <= R_Priority x)) as [Hp|Hp]; cbn [find].
  - destruct (f r) eqn:Er; [|done]. destruct (f x) eqn:Ex; [by rewrite decide_True|].
    destruct (find f l) as [y|] eqn:Ey; [|done]. rewrite decide_True; [done|].
    apply find_some in Ey as [Hy _]. rewrite Forall_forall in Hx.
    specialize (Hx y ltac:(by apply list_elem_of_In)). lia.
  - destruct (f x) eqn:Ex; [destruct (f r); [by rewrite decide_False|done]|]. by apply IH.
Qed.

Lemma find_sorted f rules :
  match find f (sortedRules rules) with
  | Some r => first_best f rules r
  | None => Forall (fun x => f x = false) rules
  end.
Proof.
  induction rules as [|x rules IH]; [constructor|]. cbn [sortedRules foldr].
  fold (sortedRules rules). rewrite find_insert_rule by apply sortedRules_ascending.
  destruct (find f (sortedRules rules)) as [y|].
  - destruct IH as (Hy & before & after & E & Hb & Ha).
    assert (Hkeep : (f x = true -> R_Priority y < R_Priority x) -> first_best f (x :: rules) y).
    { intros Hx. split; [done|]. exists (x :: before), after. rewrite E. split_and!; [done| |done].
      by constructor. }
    destruct (f x) eqn:Ex; [|apply Hkeep; congruence]. case_decide as Hp; [|apply Hkeep; lia].
    split; [done|]. exists [], rules. split_and!; [done|constructor|]. rewrite E.
    apply Forall_app. split; [|constructor; [done|]];
      (eapply Forall_impl; [eassumption|]); cbn; intros z Hz Hfz; specialize (Hz Hfz); lia.
  - destruct (f x) eqn:Ex.
    + split; [done|]. exists [], rules. split_and!; [done|constructor|].
      eapply Forall_impl; [exact IH|]. cbn. congruence.
    + by constructor.
Qed.

(** C14: The reply comes from the best rule.  If the engine is enabled, it
    answers a message with the rule of the smallest priority number, and the
    first configured among equals, of those that are enabled, allow the
    channel, the session and the time of day, match the content, and are
    neither cooling down nor over the hourly limit; without such a rule it
    stays silent.  Only the answering rule is recorded as fired.  The cache of
    regular expressions, which never holds more than a hundred, does not
    influence the answer. *)
Theorem reply_from_best_rule en now msg :
  cache_ok (En_matcher en) ->
  let '(reply, en') := EvaluateMessage en now msg in
  let ok := eligible (En_config en) now (En_cooldown en) msg in
  cache_ok (En_matcher en') /\ En_config en' = En_config en /\
  match reply with
  | Some rep => RC_Enabled (En_config en) = true /\ exists r, first_best ok (RC_Rules (En_config en)) r /\
      rep = mkReply (R_ID r) (R_Name r) (applyTemplate (R_Response r) msg) /\
      En_cooldown en' = RecordFire (En_cooldown en) now (R_ID r, MC_SessionKey msg)
  | None => En_cooldown en' = En_cooldown en /\
      (RC_Enabled (En_config en) = true -> Forall (fun r => ok r = false) (RC_Rules (En_config en)))
  end.
Proof.
  intros Hm. unfold EvaluateMessage. destruct (RC_Enabled (En_config en)) eqn:Een; cbn [negb]; [|done].
  pose proof (evaluate_loop_spec (En_config en) now msg (En_matcher en) (En_cooldown en)
    (sortedRules (RC_Rules (En_config en))) Hm) as Hs.
  pose proof (find_sorted (eligible (En_config en) now (En_cooldown en) msg) (RC_Rules (En_config en))) as Hf.
  destruct (evaluate_loop _ _ _ _ _ _) as [[reply m'] t']. destruct Hs as [Hm' Hs].
  cbn [En_matcher En_config En_cooldown]. split_and!; [done|done|].
  destruct (find _ (sortedRules _)) as [r|]; destruct Hs as [-> ->]; [|done].
  split; [done|]. by exists r.
Qed.
(** ** Histories

    The engine together with the replies it gave, with their times; the clock
    does not run backwards. *)
Inductive engine_run : ReplyEngine -> list (cooldownKey * Time) -> Time -> Prop :=
  | run_new cfg now : engine_run (NewEngine cfg) [] now
  | run_reload en hist now cfg : engine_run en hist now -> engine_run (Reload en cfg) hist now
  | run_cleanup en hist now now' :
      engine_run en hist now -> now <= now' -> engine_run (CleanupEngine en now') hist now'
  | run_message en hist now now' msg reply en' :
      engine_run en hist now -> now <= now' -> EvaluateMessage en now' msg = (reply, en') ->
      engine_run en' (match reply with
                      | Some rep => hist ++ [((Rp_RuleID rep, MC_SessionKey msg), now')]
                      | None => hist
                      end) now'.

(** How often the key fired since the given time. *)
Definition fires_since (hist : list (cooldownKey * Time)) (key : cooldownKey) (from : Time) : Z :=
  Z.of_nat (List.length (filter (fun f => f.1 = key /\ from <= f.2) hist)).

(** What the tracker remembers of the history. *)
Record tracks (t : CooldownTracker) (hist : list (cooldownKey * Time)) (now : Time) : Prop := {
  tr_past : forall key at_, (key, at_) ∈ hist -> at_ <= now;
  tr_entry : forall key at_, (key, at_) ∈ hist ->
    (exists last, CT_entries t !! key = Some last /\ at_ <= last) \/ at_ < now - GoTime.Hour;
  tr_window : forall key at_, (key, at_) ∈ hist ->
    (exists n windowEnd, CT_counts t !! key = Some (n, windowEnd) /\ at_ <= windowEnd) \/ at_ < now;
  tr_count : forall key n windowEnd, CT_counts t !! key = Some (n, windowEnd) ->
    n = GoInt.wrap64 (fires_since hist key (windowEnd - GoTime.Hour)) /\ windowEnd <= now + GoTime.Hour
}.

Lemma fires_since_snoc hist key k at_ from :
  fires_since (hist ++ [(k, at_)]) key from =
  fires_since hist key from + (if decide (k = key /\ from <= at_) then 1 else 0).
Proof.
  unfold fires_since. rewrite filter_app, length_app. case_decide as Hd.
  - rewrite filter_cons_True by done. cbn. lia.
  - rewrite filter_cons_False by done. cbn. lia.
Qed.

Lemma wrap64_succ z : GoInt.wrap64 (GoInt.wrap64 z + 1) = GoInt.wrap64 (z + 1).
Proof.
  unfold GoInt.wrap64. f_equal. 
  replace ((z + 2 ^ 63) mod 2 ^ 64 - 2 ^ 63 + 1 + 2 ^ 63) with ((z + 2 ^ 63) mod 2 ^ 64 + 1) by lia.
  rewrite Zplus_mod_idemp_l. f_equal. lia.
Qed.

Lemma tracks_later t hist now now' : tracks t hist now -> now <= now' -> tracks t hist now'.
Proof.
  intros [Hp He Hw Hc] Hle. split.
  - intros key at_ Hin. specialize (Hp key at_ Hin). lia.
  - intros key at_ Hin. destruct (He key at_ Hin) as [?|?]; [by left|right; lia].
  - intros key at_ Hin. destruct (Hw key at_ Hin) as [?|?]; [by left|right; lia].
  - intros key n w E. destruct (Hc key n w E) as [? ?]. split; [done|lia].
Qed.

Lemma tracks_cleanup t hist now : tracks t hist now -> tracks (cleanup t now) hist now.
Proof.
  intros [Hp He Hw Hc]. split; unfold cleanup; cbn [CT_entries CT_counts].
  - done.
  - intros key at_ Hin. destruct (He key at_ Hin) as [(last & Hl & Hle)|Hold]; [|by right].
    destruct (decide (last < now - GoTime.Hour)); [right; lia|]. left. exists last. split; [|done].
    apply map_lookup_filter_Some. split; [done|]. cbn. unfold Before, Add.
    apply bool_decide_eq_false. lia.
  - intros key at_ Hin. destruct (Hw key at_ Hin) as [(n & w & Hl & Hle)|Hold]; [|by right].
    destruct (decide (w < now)); [right; lia|]. left. exists n, w. split; [|done].
    apply map_lookup_filter_Some. split; [done|]. cbn. unfold After. apply bool_decide_eq_false. lia.
  - intros key n w Hl. apply map_lookup_filter_Some in Hl as [Hl _]. by apply Hc.
Qed.

Lemma tracks_fire t hist now key :
  tracks t hist now -> tracks (RecordFire t now key) (hist ++ [(key, now)]) now.
Proof.
  intros [Hp He Hw Hc].
  assert (Hin : forall k at_, (k, at_) ∈ hist ++ [(key, now)] -> (k, at_) ∈ hist \/ k = key /\ at_ = now).
  { intros k at_ Hx. apply elem_of_app in Hx as [Hx|Hx]; [by left|]. right.
    apply list_elem_of_singleton in Hx. by injection Hx. }
  assert (Hfresh : (forall at_, (key, at_) ∈ hist -> at_ < now) -> fires_since hist key now = 0).
  { intros Hlt. unfold fires_since. destruct (filter _ hist) as [|[k at_] l] eqn:E; [done|].
    assert (Hx : (k, at_) ∈ (k, at_) :: l) by left. rewrite <- E in Hx.
    apply list_elem_of_filter in Hx as [[Hk Hle] Hx]. cbn in Hk, Hle. subst k.
    specialize (Hlt at_ Hx). lia. }
  split; unfold RecordFire; cbn [CT_entries CT_counts].
  - intros k at_ Hx. destruct (Hin k at_ Hx) as [Hx'|[-> ->]]; [by apply (Hp k)|lia].
  - intros k at_ Hx. destruct (decide (k = key)) as [->|Hk].
    + left. exists now. rewrite lookup_insert_eq. split; [done|].
      destruct (Hin key at_ Hx) as [Hx'|[_ ->]]; [by apply (Hp key)|lia].
    + rewrite lookup_insert_ne by done. destruct (Hin k at_ Hx) as [Hx'|[-> _]]; [by apply He|done].
  - intros k at_ Hx. destruct (decide (k = key)) as [->|Hk].
    + left. rewrite lookup_insert_eq. assert (at_ <= now).
      { destruct (Hin key at_ Hx) as [Hx'|[_ ->]]; [by apply (Hp key)|lia]. }
      unfold After, Add, GoTime.Hour, GoTime.Minute, GoTime.Second.
      destruct (CT_counts t !! key) as [[n w]|]; [|eexists _, _; split; [done|lia]].
      case_bool_decide; eexists _, _; (split; [done|lia]).
    + rewrite lookup_insert_ne by done. destruct (Hin k at_ Hx) as [Hx'|[-> _]]; [by apply Hw|done].
  - intros k n w. destruct (decide (k = key)) as [->|Hk].
    + rewrite lookup_insert_eq. intros [= E]. revert E. unfold After, Add.
      assert (Hnew : (forall at_, (key, at_) ∈ hist -> at_ < now) -> (1, now + GoTime.Hour) = (n, w) ->
        n = GoInt.wrap64 (fires_since (hist ++ [(key, now)]) key (w - GoTime.Hour)) /\ w <= now + GoTime.Hour).
      { intros Hlt [= <- <-]. replace (now + GoTime.Hour - GoTime.Hour) with now by lia.
        rewrite fires_since_snoc, (Hfresh Hlt). rewrite decide_True by (split; [done|lia]).
        split; [done|lia]. }
      destruct (CT_counts t !! key) as [[n0 w0]|] eqn:Ec.
      * case_bool_decide as Hold.
        -- apply Hnew. intros at_ Hx. destruct (Hw key at_ Hx) as [(n1 & w1 & E1 & Hle)|?]; [|done].
           rewrite Ec in E1. injection E1 as <- <-. lia.
        -- intros [= <- <-]. destruct (Hc key n0 w0 Ec) as [-> Hb]. split; [|done].
           rewrite wrap64_succ, fires_since_snoc, decide_True by (split; [done|lia]). done.
      * apply Hnew. intros at_ Hx. destruct (Hw key at_ Hx) as [(n1 & w1 & E1 & _)|?]; [congruence|done].
    + rewrite lookup_insert_ne by done. intros E. rewrite fires_since_snoc, decide_False by naive_solver.
      rewrite Z.add_0_r. by apply Hc.
Qed.

Lemma engine_run_inv en hist now :
  engine_run en hist now -> cache_ok (En_matcher en) /\ tracks (En_cooldown en) hist now.
Proof.
  induction 1 as [cfg now|en hist now cfg _ [Hm Ht]|en hist now now' _ [Hm Ht] Hle
    |en hist now now' msg reply en' _ [Hm Ht] Hle E].
  - split; [apply cache_ok_empty|]. split; [intros ? ? Hin; by apply elem_of_nil in Hin..|].
    intros key n w. cbn. by rewrite lookup_empty.
  - done.
  - split; [done|]. apply tracks_cleanup. by apply (tracks_later _ _ now).
  - pose proof (reply_from_best_rule en now' msg Hm) as Hr. rewrite E in Hr.
    destruct Hr as (Hm' & _ & Hr). split; [done|]. apply (tracks_later _ _ now now') in Ht; [|done].
    destruct reply as [rep|].
    + destruct Hr as (_ & r & _ & -> & ->). cbn [Rp_RuleID]. by apply tracks_fire.
    + destruct Hr as [-> _]. done.
Qed.
(** Replies keep their distance.  In every history of messages, clean-ups
    and reloads, a rule answers a session only if all its former replies to
    that session are at least its cool-down ago, for cool-downs of up to an
    hour; and if it has an hourly limit and its current window is open, only
    if it replied fewer times than the limit since the window began. *)
Theorem replies_keep_distance en hist now now' msg rep en' :
  engine_run en hist now -> now <= now' -> EvaluateMessage en now' msg = (Some rep, en') ->
  Z.of_nat (List.length hist) <= GoInt.max_int64 ->
  exists r, first_best (eligible (En_config en) now' (En_cooldown en) msg) (RC_Rules (En_config en)) r /\
    Rp_RuleID rep = R_ID r /\
    let key := (R_ID r, MC_SessionKey msg) in
    let cooldown := effective_cooldown (En_config en) r in
    (0 < cooldown <= GoTime.Hour -> forall at_, (key, at_) ∈ hist -> at_ + cooldown <= now') /\
    (0 < R_MaxPerHour r -> forall n windowEnd, CT_counts (En_cooldown en) !! key = Some (n, windowEnd) ->
      now' <= windowEnd -> fires_since hist key (windowEnd - GoTime.Hour) < R_MaxPerHour r).
Proof.
  intros Hrun Hle E Hlen. destruct (engine_run_inv en hist now Hrun) as [Hm Ht].
  apply (tracks_later _ _ now now') in Ht; [|done].
  pose proof (reply_from_best_rule en now' msg Hm) as Hr. rewrite E in Hr.
  destruct Hr as (_ & _ & _ & r & Hbest & -> & _). exists r. cbn zeta. split_and!; [done|done|..].
  all: destruct Hbest as [Hel _]; unfold eligible in Hel; rewrite !andb_true_iff, !negb_true_iff in Hel;
    destruct Hel as [[_ Hcool] Hmax].
  - intros Hc at_ Hin. unfold IsOnCooldown in Hcool. rewrite decide_False in Hcool by lia.
    destruct (tr_entry _ _ _ Ht _ _ Hin) as [(last & Hl & Hal)|Hold]; [|lia].
    rewrite Hl in Hcool. apply bool_decide_eq_false in Hcool.
    assert (Hs : effective_cooldown (En_config en) r <= Sub now' last) by lia.
    apply Sub_ge_iff in Hs; [lia|].
    unfold GoInt.max_int64, GoTime.Hour, GoTime.Minute, GoTime.Second in *. lia.
  - intros Hpos n w Hw Hopen. unfold ExceedsMaxPerHour in Hmax. rewrite decide_False in Hmax by lia.
    rewrite Hw in Hmax. unfold After in Hmax. rewrite bool_decide_eq_false_2 in Hmax by lia.
    apply bool_decide_eq_false in Hmax. destruct (tr_count _ _ _ Ht _ _ _ Hw) as [En _].
    rewrite GoInt.wrap64_id in En; [lia|]. unfold fires_since, GoInt.in_int64, GoInt.min_int64.
    pose proof (length_filter (fun f => f.1 = (R_ID r, MC_SessionKey msg) /\ w - GoTime.Hour <= f.2) hist). lia.
Qed.
End ReplyEngine.

(** ** Templates are expanded once *)

Lemma replace_from_skip pairs s t :
  replace_from pairs (String.length s) (s +:+ t) = replace_from pairs 0 t.
Proof. induction s as [|a s IH]; [by destruct t|exact IH]. Qed.

(** Templates are expanded in one pass.  A placeholder is replaced by the
    value of its field, and the value is not expanded again, whatever
    placeholders a sender puts into it; the text after the placeholder is
    expanded on its own. *)
Theorem template_single_pass ctx name value rest :
  In (name, value) (template_pairs ctx) ->
  applyTemplate (name +:+ rest) ctx = value +:+ applyTemplate rest ctx.
Proof.
  intros Hin.
  assert (Hfind : find_prefix (template_pairs ctx) (name +:+ rest) = Some (name, value)).
  { unfold template_pairs in *. cbn [In] in Hin.
    repeat (destruct Hin as [Hin|Hin]; [injection Hin as <- <-; destruct rest; reflexivity|]). done. }
  assert (Hrest : applyTemplate rest ctx = replace_from (template_pairs ctx) 0 rest).
  { unfold applyTemplate. case_decide; [by subst|done]. }
  rewrite Hrest. unfold applyTemplate. destruct name as [|a name].
  { exfalso. unfold template_pairs in Hin. cbn [In] in Hin. naive_solver. }
  rewrite decide_False by discriminate. set (P := template_pairs ctx) in *.
  change (replace_from P 0 (String a name +:+ rest)) with
    (match find_prefix P (String a name +:+ rest) with
     | Some (old, new) => new +:+ replace_from P (String.length old - 1) (name +:+ rest)
     | None => String a (replace_from P 0 (name +:+ rest))
     end).
  rewrite Hfind. cbn [String.length]. rewrite Nat.sub_succ, Nat.sub_0_r. by rewrite replace_from_skip.
Qed.

(** ** Concrete engines *)

#[local] Existing Instance ascii_unicode.
#[local] Existing Instance builtin_regexp.

Definition helpRule (cooldown : Duration) (maxPerHour : Z) : Rule :=
  mkRule "r1" "help" true 0 MatchPrefix "help" "hi {{.SenderName}}" [] [] cooldown maxPerHour "" "".

Definition helpMessage : MessageContext :=
  mkMessage "u1" "{{.Content}}" "chat" "s1" "Help me" (mkLocal 0 0).

Definition helpEngine (cooldown : Duration) (maxPerHour : Z) : ReplyEngine :=
  NewEngine (mkReplyConfig true 0 [helpRule cooldown maxPerHour]).

Lemma template_single_pass_witness :
  applyTemplate ("{{.SenderName}}" +:+ "!") helpMessage = "{{.Content}}!".
Proof.
  rewrite (template_single_pass helpMessage "{{.SenderName}}" "{{.Content}}" "!"); [vm_compute; reflexivity|].
  right. left. reflexivity.
Defined.

Lemma reply_from_best_rule_witness :
  let out := EvaluateMessage (helpEngine 0 0) 5 helpMessage in
  cache_ok (En_matcher (snd out)) /\ fst out = Some (mkReply "r1" "help" "hi {{.Content}}").
Proof.
  intros out. split; [|vm_compute; reflexivity].
  pose proof (reply_from_best_rule (helpEngine 0 0) 5 helpMessage cache_ok_empty) as Hr.
  fold out in Hr. destruct out as [reply en']. exact (proj1 Hr).
Defined.

Lemma replies_keep_distance_witness :
  let en := helpEngine GoTime.Minute 0 in
  let en1 := (EvaluateMessage en GoTime.Hour helpMessage).2 in
  exists rep en2, EvaluateMessage en1 (GoTime.Hour + 2 * GoTime.Minute) helpMessage = (Some rep, en2) /\
    Rp_RuleID rep = "r1" /\ GoTime.Hour + GoTime.Minute <= GoTime.Hour + 2 * GoTime.Minute.
Proof.
  intros en en1.
  set (rep := mkReply "r1" "help" "hi {{.Content}}").
  assert (F1 : fst (EvaluateMessage en GoTime.Hour helpMessage) = Some rep) by (vm_compute; reflexivity).
  assert (F2 : fst (EvaluateMessage en1 (GoTime.Hour + 2 * GoTime.Minute) helpMessage) = Some rep)
    by (vm_compute; reflexivity).
  assert (Ec : RC_Rules (En_config en1) = [helpRule GoTime.Minute 0]) by (vm_compute; reflexivity).
  pose proof (eq_trans (surjective_pairing (EvaluateMessage en GoTime.Hour helpMessage))
    (f_equal2 pair F1 eq_refl)) as E1. fold en1 in E1. clearbody en1.
  assert (Hrun : engine_run en1 [((Rp_RuleID rep, MC_SessionKey helpMessage), GoTime.Hour)] GoTime.Hour).
  { exact (run_message en [] GoTime.Hour GoTime.Hour helpMessage (Some rep) en1
      (run_new _ _) (Z.le_refl _) E1). }
  pose proof (eq_trans (surjective_pairing (EvaluateMessage en1 (GoTime.Hour + 2 * GoTime.Minute) helpMessage))
    (f_equal2 pair F2 eq_refl)) as E2.
  exists rep, (EvaluateMessage en1 (GoTime.Hour + 2 * GoTime.Minute) helpMessage).2. split; [exact E2|].
  destruct (replies_keep_distance _ _ _ (GoTime.Hour + 2 * GoTime.Minute) helpMessage rep _ Hrun
    ltac:(vm_compute; discriminate) E2 ltac:(vm_compute; discriminate)) as (r & Hb & Hid & Hc & _).
  split; [reflexivity|]. destruct Hb as [_ (before & after & Er & _)]. rewrite Ec in Er.
  assert (r = helpRule GoTime.Minute 0) as ->.
  { destruct before as [|x [|y before]]; cbn in Er; [by injection Er|discriminate..]. }
  apply Hc; [|left]. unfold effective_cooldown. cbn [R_Cooldown helpRule].
  vm_compute. split; [reflexivity|discriminate].
Defined.

(** Cool-downs of more than an hour are forgotten.  A rule with a cool-down of
    a day answers the same session again two hours later, if the clean-up that
    runs every ten minutes came in between: it drops every entry that is older
    than an hour, whatever the cool-down of the rule. *)
Theorem long_cooldown_forgotten :
  let en := helpEngine (24 * GoTime.Hour) 0 in
  let en1 := (EvaluateMessage en 0 helpMessage).2 in
  let later := 2 * GoTime.Hour in
  is_Some (EvaluateMessage en 0 helpMessage).1 /\
  (EvaluateMessage en1 later helpMessage).1 = None /\
  is_Some (EvaluateMessage (CleanupEngine en1 later) later helpMessage).1.
Proof. vm_compute. split_and!; eauto. Qed.

(** The hourly limit is not a rolling one.  With a limit of two replies per
    hour, three replies can fall into two seconds: two windows may meet there. *)
Theorem hourly_limit_not_rolling :
  let en0 := helpEngine 0 2 in
  let step en at_ := EvaluateMessage en at_ helpMessage in
  let en1 := (step en0 0).2 in
  let t1 := GoTime.Hour in
  let en2 := (step en1 t1).2 in
  let t2 := GoTime.Hour + GoTime.Second in
  let en3 := (step en2 t2).2 in
  let t3 := GoTime.Hour + 2 * GoTime.Second in
  is_Some (step en1 t1).1 /\ is_Some (step en2 t2).1 /\ is_Some (step en3 t3).1.
Proof. vm_compute. split_and!; eexists; reflexivity. Qed.
