(* ===== verification/GoFloat.v ===== *)
(** * Go's [float64]

    A [float64] is an IEEE 754 binary64 number, in the executable form of the
    standard library's [SpecFloat]: precision 53, greatest exponent 1024, round
    to nearest, ties to even, and no fused multiply-add.  The file gives the
    operations the sources use and proves what the integer computations of the
    program rely on: an integer of at most 53 bits is represented exactly, and
    the quotient of two such integers, rounded, still has their integer
    quotient as its integral part. *)
From S2P Require Import Prelude GoLib.
From Stdlib Require Import Floats.SpecFloat.

Local Open Scope Z_scope.

Definition float64 : Type := spec_float.

(** [float64(z)]. *)
Definition of_int (z : Z) : float64 := binary_normalize 53 1024 z 0 false.

Definition fadd : float64 -> float64 -> float64 := SFadd 53 1024.
Definition fsub : float64 -> float64 -> float64 := SFsub 53 1024.
Definition fmul : float64 -> float64 -> float64 := SFmul 53 1024.
Definition fdiv : float64 -> float64 -> float64 := SFdiv 53 1024.
Definition fltb : float64 -> float64 -> bool := SFltb.
Definition fleb : float64 -> float64 -> bool := SFleb.
Definition feqb : float64 -> float64 -> bool := SFeqb.

(** A decimal constant [num/den]; the quotient of two exact integers is the
    nearest [float64], which is what the compiler stores for the constant. *)
Definition lit (num den : Z) : float64 := fdiv (of_int num) (of_int den).

(** The integral part of a finite number, toward zero. *)
Definition integral (m : positive) (e : Z) : Z :=
  if decide (0 <= e) then Z.pos m * 2 ^ e else Z.pos m / 2 ^ (- e).

(** [int(x)]; a value that does not fit becomes the least integer, as the
    conversion instruction of amd64 has it. *)
Definition to_int (x : float64) : Z :=
  match x with
  | S754_zero _ => 0
  | S754_finite s m e =>
    let z := cond_Zopp s (integral m e) in
    if decide (GoInt.min_int64 <= z <= GoInt.max_int64) then z else GoInt.min_int64
  | _ => GoInt.min_int64
  end.

(** [math.Ceil]. *)
Definition fceil (x : float64) : float64 :=
  match x with
  | S754_finite s m e =>
    if decide (0 <= e) then x
    else
      let z := - ((- cond_Zopp s (Z.pos m)) / 2 ^ (- e)) in
      if decide (z = 0) then S754_zero s else of_int z
  | _ => x
  end.

(** ** Digits *)

Lemma digits_bounds p :
  2 ^ (Z.pos (digits2_pos p) - 1) <= Z.pos p < 2 ^ Z.pos (digits2_pos p).
Proof.
  induction p as [p IH|p IH|]; cbn [digits2_pos]; [..|done];
    rewrite Pos2Z.inj_succ, Z.sub_succ_l, !Z.pow_succ_r by lia.
  - rewrite (Pos2Z.inj_xI p). lia.
  - rewrite (Pos2Z.inj_xO p). lia.
Qed.

Lemma digits_unique p n : 0 <= n -> 2 ^ n <= Z.pos p < 2 ^ (n + 1) -> Z.pos (digits2_pos p) = n + 1.
Proof.
  intros Hn [Hl Hu]. pose proof (digits_bounds p) as [Hl' Hu'].
  assert (n < Z.pos (digits2_pos p)) by (apply (Z.pow_lt_mono_r_iff 2); lia).
  assert (Z.pos (digits2_pos p) - 1 < n + 1) by (apply (Z.pow_lt_mono_r_iff 2); lia).
  lia.
Qed.

Lemma digits_le p n : Z.pos p < 2 ^ n -> Z.pos (digits2_pos p) <= n.
Proof.
  intros Hu. pose proof (digits_bounds p) as [Hl' Hu'].
  destruct (Z.le_gt_cases 0 n); [|rewrite Z.pow_neg_r in Hu by lia; lia].
  assert (Z.pos (digits2_pos p) - 1 < n) by (apply (Z.pow_lt_mono_r_iff 2); lia). lia.
Qed.

Lemma shl_pos p d : Z.pos (PosDef.Pos.iter xO p d) = Z.pos p * 2 ^ Z.pos d.
Proof.
  revert p. induction d as [|d IH] using Pos.peano_ind; intros p; [simpl; lia|].
  change (@PosDef.Pos.iter positive) with (@Pos.iter positive) in *. rewrite Pos.iter_succ.
  rewrite (Pos2Z.inj_xO (Pos.iter xO p d)), IH, Pos2Z.inj_succ, Z.pow_succ_r by lia. lia.
Qed.

(** ** Rounding *)

(** A mantissa of 53 digits needs no rounding. *)
Lemma shr_fexp_id m e l :
  2 ^ 52 <= Z.pos m < 2 ^ 53 -> -1074 <= e ->
  shr_fexp 53 1024 (Z.pos m) e l = (shr_record_of_loc (Z.pos m) l, e).
Proof.
  intros Hm He. unfold shr_fexp, fexp, emin. cbn [Zdigits2].
  rewrite (digits_unique m 52) by lia. replace (Z.max _ _ - e) with 0 by lia. done.
Qed.

(** A mantissa of 54 digits loses its last one. *)
Lemma shr_fexp_one m e l :
  2 ^ 53 <= Z.pos m < 2 ^ 54 -> -1074 <= e ->
  shr_fexp 53 1024 (Z.pos m) e l = (shr_1 (shr_record_of_loc (Z.pos m) l), e + 1).
Proof.
  intros Hm He. unfold shr_fexp, fexp, emin. cbn [Zdigits2].
  rewrite (digits_unique m 53) by lia. replace (Z.max _ _ - e) with 1 by lia. done.
Qed.

(** The second normalization after rounding: a carry out of the mantissa. *)
Lemma renormalize m e :
  2 ^ 52 <= m <= 2 ^ 53 -> -1074 <= e <= 970 ->
  exists m' e',
    (let '(mrs, e'') := shr_fexp 53 1024 m e loc_Exact in
     match shr_m mrs with
     | 0 => S754_zero false
     | Z.pos k => if e'' <=? 1024 - 53 then S754_finite false k e'' else S754_infinity false
     | Z.neg _ => S754_nan
     end) = S754_finite false m' e'
    /\ e <= e' <= e + 1 /\ Z.pos m' * 2 ^ (e' - e) = m /\ 2 ^ 52 <= Z.pos m' < 2 ^ 53.
Proof.
  intros Hm He. destruct m as [|m|m]; [lia| |lia].
  destruct (decide (Z.pos m = 2 ^ 53)) as [E|].
  - rewrite shr_fexp_one by lia. injection E as ->. cbn -[Z.pow Z.leb].
    rewrite (proj2 (Z.leb_le _ _)) by lia. do 2 eexists. split; [done|].
    replace (e + 1 - e) with 1 by lia. lia.
  - rewrite shr_fexp_id by lia. cbn -[Z.pow Z.leb].
    rewrite (proj2 (Z.leb_le _ _)) by lia. do 2 eexists. split; [done|].
    rewrite Z.sub_diag. lia.
Qed.

(** A number of at most 53 digits is represented exactly. *)
Lemma round_exact p e :
  Z.pos p < 2 ^ 53 -> -1074 <= e + Z.pos (digits2_pos p) - 53 -> e <= 900 ->
  exists m, binary_normalize 53 1024 (Z.pos p) e false
              = S754_finite false m (e + Z.pos (digits2_pos p) - 53)
    /\ Z.pos m = Z.pos p * 2 ^ (53 - Z.pos (digits2_pos p)) /\ 2 ^ 52 <= Z.pos m < 2 ^ 53.
Proof.
  intros Hp He He'. pose proof (digits_bounds p) as [Hl Hu]. pose proof (digits_le p 53 Hp) as Hd.
  set (d := Z.pos (digits2_pos p)) in *.
  assert (Hm : 2 ^ 52 <= Z.pos p * 2 ^ (53 - d) < 2 ^ 53).
  { replace (2 ^ 52) with (2 ^ (d - 1) * 2 ^ (53 - d)) by (rewrite <- Z.pow_add_r by lia; f_equal; lia).
    replace (2 ^ 53) with (2 ^ d * 2 ^ (53 - d)) by (rewrite <- Z.pow_add_r by lia; f_equal; lia).
    pose proof (Z.pow_pos_nonneg 2 (53 - d)). nia. }
  assert (Ha : exists m, shl_align p e (fexp 53 1024 (d + e)) = (m, e + d - 53)
                 /\ Z.pos m = Z.pos p * 2 ^ (53 - d)).
  { unfold shl_align, fexp, emin. replace (Z.max (d + e - 53) _) with (e + d - 53) by lia.
    destruct (e + d - 53 - e) as [|k|k] eqn:E; [|lia|].
    - exists p. replace (53 - d) with 0 by lia. split; [f_equal|]; lia.
    - exists (PosDef.Pos.iter xO p k). rewrite shl_pos. split; [done|]. do 2 f_equal. lia. }
  destruct Ha as (m & Ha & Em). exists m. rewrite Em. split; [|done].
  unfold binary_normalize, binary_round. fold d. rewrite Ha. unfold binary_round_aux.
  rewrite shr_fexp_id by lia. cbn [shr_record_of_loc loc_of_shr_record shr_m round_nearest_even].
  rewrite shr_fexp_id by lia. cbn [shr_record_of_loc shr_m].
  by rewrite (proj2 (Z.leb_le _ _)) by lia.
Qed.

Lemma of_int_exact x :
  0 < x < 2 ^ 53 ->
  exists m e, of_int x = S754_finite false m e
    /\ -52 <= e <= 0 /\ Z.pos m = x * 2 ^ (- e) /\ 2 ^ 52 <= Z.pos m < 2 ^ 53.
Proof.
  intros Hx. destruct x as [|p|p]; [lia| |lia]. pose proof (digits_le p 53 ltac:(lia)).
  destruct (round_exact p 0) as (m & Hr & Hm & Hb); [lia..|].
  exists m, (0 + Z.pos (digits2_pos p) - 53). split; [exact Hr|]. split; [lia|]. split; [|done].
  rewrite Hm. do 2 f_equal. lia.
Qed.

(** Rounding moves a mantissa of 53 or 54 digits by less than its last place. *)
Lemma round_near q e l :
  2 ^ 52 <= q < 2 ^ 54 -> -1074 <= e <= 900 ->
  exists m e', binary_round_aux 53 1024 false q e l = S754_finite false m e'
    /\ e <= e' <= e + 2 /\ 2 ^ 52 <= Z.pos m < 2 ^ 53
    /\ (Z.pos m * 2 ^ (e' - e) = q \/ Z.pos m * 2 ^ (e' - e) = q + 1
        \/ Z.odd q = true /\ Z.pos m * 2 ^ (e' - e) = q - 1)
    /\ (l = loc_Exact -> Z.even q = true -> Z.pos m * 2 ^ (e' - e) = q).
Proof.
  intros Hq He. destruct q as [|q|q]; [lia| |lia]. unfold binary_round_aux.
  destruct (decide (Z.pos q < 2 ^ 53)).
  - rewrite shr_fexp_id by lia.
    assert (Hr : shr_m (shr_record_of_loc (Z.pos q) l) = Z.pos q) by (by destruct l as [|[]]).
    assert (Hl : loc_of_shr_record (shr_record_of_loc (Z.pos q) l) = l) by (by destruct l as [|[]]).
    rewrite Hr, Hl.
    assert (Hn : round_nearest_even (Z.pos q) l = Z.pos q \/ round_nearest_even (Z.pos q) l = Z.pos q + 1)
      by (destruct l as [|[]]; simpl; auto; case_match; auto).
    destruct (renormalize (round_nearest_even (Z.pos q) l) e) as (m & e' & Hs & ? & Hm & ?); [lia..|].
    exists m, e'. rewrite <- Hs. split; [done|]. split; [lia|]. split; [done|]. split; [lia|].
    intros -> _. simpl in Hm. lia.
  - rewrite shr_fexp_one by lia. set (r := shr_1 _).
    assert (Hn : Z.odd (Z.pos q) = false /\ 2 * round_nearest_even (shr_m r) (loc_of_shr_record r) = Z.pos q
        \/ Z.odd (Z.pos q) = true
           /\ (2 * round_nearest_even (shr_m r) (loc_of_shr_record r) = Z.pos q - 1
               \/ 2 * round_nearest_even (shr_m r) (loc_of_shr_record r) = Z.pos q + 1)).
    { subst r. destruct q as [q|q|]; [right|left|lia]; (split; [done|]);
        destruct l as [|[]]; cbn -[Z.mul Z.add]; try case_match; lia. }
    destruct (renormalize (round_nearest_even (shr_m r) (loc_of_shr_record r)) (e + 1))
      as (m & e' & Hs & ? & Hm & ?); [lia..|].
    exists m, e'. rewrite <- Hs. split; [done|]. split; [lia|]. split; [done|].
    assert (Hw : Z.pos m * 2 ^ (e' - e) = 2 * round_nearest_even (shr_m r) (loc_of_shr_record r)).
    { rewrite <- Hm. replace (e' - e) with (Z.succ (e' - (e + 1))) by lia.
      rewrite Z.pow_succ_r by lia. ring. }
    rewrite Hw. split; [destruct Hn as [[_ Hn]|[Ho [Hn|Hn]]]; tauto|].
    intros _ Hev. rewrite <- Z.negb_odd in Hev.
    destruct Hn as [[_ Hn]|[Ho _]]; [lia|]. by rewrite Ho in Hev.
Qed.

(** ** Quotients of integers *)

(** The division of mantissas keeps 53 more binary places. *)
Lemma fdiv_core m1 e1 m2 e2 :
  2 ^ 52 <= Z.pos m1 < 2 ^ 53 -> 2 ^ 52 <= Z.pos m2 < 2 ^ 53 ->
  -52 <= e1 <= 0 -> -52 <= e2 <= 0 ->
  SFdiv_core_binary 53 1024 (Z.pos m1) e1 (Z.pos m2) e2
    = (Z.pos m1 * 2 ^ 53 / Z.pos m2, e1 - e2 - 53,
       new_location (Z.pos m2) ((Z.pos m1 * 2 ^ 53) mod Z.pos m2)).
Proof.
  intros H1 H2 He1 He2. unfold SFdiv_core_binary, fexp, emin. cbn [Zdigits2].
  rewrite (digits_unique m1 52), (digits_unique m2 52) by lia.
  replace (Z.min _ _) with (e1 - e2 - 53) by lia.
  replace (e1 - e2 - (e1 - e2 - 53)) with 53 by lia. cbv beta iota zeta.
  rewrite Z.shiftl_mul_pow2 by lia.
  unfold Z.div, Z.modulo. by destruct (Z.div_eucl _ _).
Qed.

Lemma new_location_exact k : new_location k 0 = loc_Exact.
Proof. unfold new_location, new_location_even, new_location_odd. by destruct (Z.even k). Qed.

(** The quotient of two integers as a rounded scaled quotient. *)
Lemma fdiv_shape x d :
  0 < x < 2 ^ 53 -> 0 < d < 2 ^ 53 ->
  exists n m e, fdiv (of_int x) (of_int d) = S754_finite false m e
    /\ d < 2 ^ n /\ (x < 2 ^ 52 -> 2 * d < 2 ^ n) /\ 1 <= n <= 105 /\ - n <= e <= - n + 2 /\ 2 ^ 52 <= Z.pos m < 2 ^ 53
    /\ (let q := x * 2 ^ n / d in
        let w := Z.pos m * 2 ^ (e + n) in
        (w = q \/ w = q + 1 \/ Z.odd q = true /\ w = q - 1)
        /\ (x mod d = 0 -> w = q)).
Proof.
  intros Hx Hd. destruct (of_int_exact x Hx) as (m1 & e1 & E1 & He1 & Hm1 & Hb1).
  destruct (of_int_exact d Hd) as (m2 & e2 & E2 & He2 & Hm2 & Hb2).
  set (n := 53 - e1 + e2).
  assert (Hs : Z.pos m1 * 2 ^ 53 = (x * 2 ^ n) * 2 ^ (- e2)).
  { rewrite Hm1, <- !Z.mul_assoc, <- !Z.pow_add_r by lia. do 2 f_equal. lia. }
  pose proof (Z.pow_pos_nonneg 2 (- e2)) as Hp2.
  assert (Hq : Z.pos m1 * 2 ^ 53 / Z.pos m2 = x * 2 ^ n / d)
    by (rewrite Hs, Hm2, Z.div_mul_cancel_r by lia; done).
  assert (Hqb : 2 ^ 52 <= x * 2 ^ n / d < 2 ^ 54).
  { rewrite <- Hq. split; [apply Z.div_le_lower_bound|apply Z.div_lt_upper_bound]; lia. }
  destruct (round_near (x * 2 ^ n / d) (- n) (new_location (Z.pos m2) ((Z.pos m1 * 2 ^ 53) mod Z.pos m2)))
    as (m & e & Hr & He & Hb & Hw & Hex); [lia..|].
  exists n, m, e. split.
  { unfold fdiv, SFdiv. rewrite E1, E2, fdiv_core by done. rewrite Hq.
    replace (e1 - e2 - 53) with (- n) by lia. exact Hr. }
  assert (Hdb : d < 2 ^ (53 + e2)).
  { apply (Z.mul_lt_mono_pos_r (2 ^ (- e2))); [lia|]. rewrite <- Z.pow_add_r, <- Hm2 by lia.
    replace (53 + e2 + - e2) with 53 by lia. lia. }
  split; [apply Z.lt_le_trans with (2 ^ (53 + e2)); [done|apply Z.pow_le_mono_r; lia]|].
  split.
  { intros Hx2. assert (e1 <> 0) by (intros ->; rewrite Z.pow_0_r in Hm1; lia).
    apply Z.lt_le_trans with (2 ^ Z.succ (53 + e2)); [|apply Z.pow_le_mono_r; lia].
    rewrite Z.pow_succ_r by lia. lia. }
  replace (e + n) with (e - - n) by lia. repeat (split; [lia|]). split; [exact Hw|].
  intros Hmod. apply Hex.
  - rewrite Hs, Hm2, Z.mul_mod_distr_r by lia.
    rewrite (proj2 (Z.mod_divide (x * 2 ^ n) d ltac:(lia))), Z.mul_0_l; [apply new_location_exact|].
    apply Z.divide_mul_l, Z.mod_divide; [lia|done].
  - apply Z.mod_divide in Hmod as [k ->]; [|lia].
    replace (k * d * 2 ^ n) with (k * 2 ^ n * d) by ring. rewrite Z.div_mul by lia.
    rewrite Z.even_mul, (Z.even_pow 2 n) by lia. apply orb_true_r.
Qed.

(** The integral part of a rounded quotient of integers is their quotient. *)
Lemma quotient_floor x d n w :
  0 < x -> 0 < d < 2 ^ n -> 1 <= n ->
  (w = x * 2 ^ n / d \/ w = x * 2 ^ n / d + 1 \/ Z.odd (x * 2 ^ n / d) = true /\ w = x * 2 ^ n / d - 1) ->
  w / 2 ^ n = x / d.
Proof.
  intros Hx Hd Hn Hw. pose proof (Z.pow_pos_nonneg 2 n) as Hp.
  set (q := x * 2 ^ n / d) in *. set (k := x / d).
  assert (Hk : k * d <= x < (k + 1) * d)
    by (pose proof (Z.mul_div_le x d); pose proof (Z.mul_succ_div_gt x d); unfold k; lia).
  assert (Hq : q * d <= x * 2 ^ n < (q + 1) * d)
    by (pose proof (Z.mul_div_le (x * 2 ^ n) d); pose proof (Z.mul_succ_div_gt (x * 2 ^ n) d);
        unfold q; lia).
  assert (Hl : k * 2 ^ n <= q) by nia.
  assert (Hu : q + 1 < (k + 1) * 2 ^ n) by nia.
  assert (Hodd : Z.odd q = true -> k * 2 ^ n <= q - 1).
  { intros Ho. assert (q <> k * 2 ^ n); [|lia]. intros E. rewrite E in Ho.
    rewrite Z.odd_mul, (Z.odd_pow 2 n) in Ho by lia. by rewrite andb_false_r in Ho. }
  symmetry. apply (Z.div_unique w (2 ^ n) k (w - k * 2 ^ n)); [left|lia].
  destruct Hw as [->|[->|[Ho ->]]]; [..|specialize (Hodd Ho)]; lia.
Qed.

Lemma of_int_0 : of_int 0 = S754_zero false.
Proof. done. Qed.

Lemma fdiv_zero d : 0 < d < 2 ^ 53 -> fdiv (of_int 0) (of_int d) = S754_zero false.
Proof. intros Hd. destruct (of_int_exact d Hd) as (m & e & -> & _). done. Qed.

(** A finite number at scale [2^-n]. *)
Lemma integral_scale m e n : 0 <= n -> 0 <= e + n -> integral m e = Z.pos m * 2 ^ (e + n) / 2 ^ n.
Proof.
  intros Hn He. unfold integral. pose proof (Z.pow_pos_nonneg 2 n). case_decide.
  - rewrite Z.pow_add_r, Z.mul_assoc, Z.div_mul by lia. done.
  - replace n with (- e + (e + n)) at 2 by lia. pose proof (Z.pow_pos_nonneg 2 (e + n)).
    pose proof (Z.pow_pos_nonneg 2 (- e)).
    rewrite (Z.pow_add_r 2 (- e)), Z.div_mul_cancel_r by lia. done.
Qed.

Lemma to_int_fdiv x d :
  0 <= x < 2 ^ 53 -> 0 < d < 2 ^ 53 -> to_int (fdiv (of_int x) (of_int d)) = x / d.
Proof.
  intros Hx Hd. destruct (decide (x = 0)) as [->|Hx0]; [by rewrite fdiv_zero|].
  destruct (fdiv_shape x d) as (n & m & e & -> & Hn & _ & Hn1 & He & Hb & Hw & _); [lia..|].
  unfold to_int. cbn [cond_Zopp]. rewrite (integral_scale m e n) by lia.
  rewrite (quotient_floor x d n _ ltac:(lia) ltac:(lia) ltac:(lia) Hw).
  pose proof (Z.div_le_upper_bound x d x ltac:(lia) ltac:(nia)). pose proof (Z.div_pos x d).
  rewrite decide_True; [done|]. unfold GoInt.min_int64, GoInt.max_int64. lia.
Qed.

(** ** The fractional part of a quotient *)

Lemma shl_align_exact m e e' :
  e' <= e -> exists k, fst (shl_align m e e') = k /\ Z.pos k = Z.pos m * 2 ^ (e - e').
Proof.
  intros He. unfold shl_align. destruct (e' - e) as [|p|p] eqn:E; [|lia|]; cbn [fst].
  - exists m. split; [done|]. replace (e - e') with 0 by lia. lia.
  - eexists. split; [done|]. rewrite shl_pos. do 2 f_equal. lia.
Qed.

Lemma scaled_diff a b w k P U :
  0 < P -> 0 < U -> a * P = w * U -> b * P = k * P * U -> k * P < w < (k + 1) * P -> 0 < a - b < U.
Proof.
  intros HP HU Ha Hb Hw. assert (E : (a - b) * P = (w - k * P) * U) by lia.
  assert (0 < (w - k * P) * U) by (apply Z.mul_pos_pos; lia).
  assert ((w - k * P) * U < P * U) by (apply Z.mul_lt_mono_pos_r; lia).
  split; apply (Z.mul_lt_mono_pos_r P); lia.
Qed.

(** The difference of a finite number and a positive integer below it by less
    than one is exact; its sign is that of the difference. *)
Lemma fsub_int m e n k :
  0 < k < 2 ^ 53 -> 0 <= n <= 105 -> - n <= e -> 2 ^ 52 <= Z.pos m < 2 ^ 53 ->
  k * 2 ^ n <= Z.pos m * 2 ^ (e + n) < (k + 1) * 2 ^ n ->
  (Z.pos m * 2 ^ (e + n) = k * 2 ^ n -> fsub (S754_finite false m e) (of_int k) = S754_zero false)
  /\ (k * 2 ^ n < Z.pos m * 2 ^ (e + n) ->
      exists m' e', fsub (S754_finite false m e) (of_int k) = S754_finite false m' e').
Proof.
  intros Hk Hn He Hm Hr. destruct (of_int_exact k Hk) as (mk & ek & -> & Hek & Hmk & Hbk).
  unfold fsub, SFsub. set (ez := Z.min e ek).
  destruct (shl_align_exact m e ez) as (a & -> & Ha); [lia|].
  destruct (shl_align_exact mk ek ez) as (b & -> & Hb); [lia|]. cbn [cond_Zopp].
  assert (Hlow : -52 <= e).
  { destruct (Z.le_gt_cases (-52) e); [done|exfalso].
    pose proof (Z.pow_le_mono_r 2 (e + n) (n - 53)). pose proof (Z.pow_pos_nonneg 2 (e + n)).
    assert (E : 2 ^ n = 2 ^ 53 * 2 ^ (n - 53)) by (rewrite <- Z.pow_add_r by lia; f_equal; lia).
    assert (Z.pos m * 2 ^ (e + n) < 2 ^ 53 * 2 ^ (n - 53)) by (apply Z.mul_lt_mono_nonneg; lia || nia).
    assert (2 ^ n <= k * 2 ^ n); [|lia]. pose proof (Z.pow_pos_nonneg 2 n). nia. }
  assert (Hs : Z.pos a * 2 ^ n = Z.pos m * 2 ^ (e + n) * 2 ^ (- ez)).
  { rewrite Ha, <- !Z.mul_assoc, <- !Z.pow_add_r by lia. do 2 f_equal. lia. }
  assert (Hsk : Z.pos b * 2 ^ n = k * 2 ^ n * 2 ^ (- ez)).
  { rewrite Hb, Hmk, <- !Z.mul_assoc, <- !Z.pow_add_r by lia. do 2 f_equal. lia. }
  pose proof (Z.pow_pos_nonneg 2 n) as Hpn. pose proof (Z.pow_pos_nonneg 2 (- ez)) as Hpz.
  split.
  - intros E. rewrite E in Hs. replace (Z.pos a - Z.pos b) with 0 by nia. done.
  - intros Hlt. assert (Hd : 0 < Z.pos a - Z.pos b < 2 ^ (- ez))
      by (apply (scaled_diff _ _ (Z.pos m * 2 ^ (e + n)) k (2 ^ n)); lia).
    pose proof (Z.pow_le_mono_r 2 (- ez) 52).
    destruct (Z.pos a - Z.pos b) as [|p|p]; [lia| |lia].
    destruct (round_exact p ez) as (m' & -> & _); [lia..|]. eauto.
Qed.

(** The fractional part of a rounded quotient is zero exactly when the
    division leaves no remainder, and is positive otherwise. *)
Lemma fdiv_frac x d :
  0 <= x < 2 ^ 52 -> 0 < d < 2 ^ 53 ->
  (x mod d = 0 -> fsub (fdiv (of_int x) (of_int d)) (of_int (x / d)) = S754_zero false)
  /\ (x mod d <> 0 -> exists m e,
      fsub (fdiv (of_int x) (of_int d)) (of_int (x / d)) = S754_finite false m e).
Proof.
  intros Hx Hd. destruct (decide (x = 0)) as [->|Hx0].
  { rewrite fdiv_zero, Z.div_0_l, Z.mod_0_l by lia. done. }
  destruct (fdiv_shape x d) as (n & m & e & -> & Hn & Hn2 & Hn1 & He & Hb & Hw & Hex); [lia..|].
  specialize (Hn2 ltac:(lia)).
  pose proof (Z.pow_pos_nonneg 2 n) as Hpn. set (w := Z.pos m * 2 ^ (e + n)) in *.
  pose proof (quotient_floor x d n w ltac:(lia) ltac:(lia) ltac:(lia) Hw) as Hfl.
  assert (Hr : x / d * 2 ^ n <= w < (x / d + 1) * 2 ^ n).
  { rewrite <- Hfl. pose proof (Z.mul_div_le w (2 ^ n)). pose proof (Z.mul_succ_div_gt w (2 ^ n)). lia. }
  pose proof (Z.div_mod x d ltac:(lia)) as Hdm. pose proof (Z.mod_pos_bound x d ltac:(lia)) as Hmb.
  assert (Heq : x mod d = 0 -> w = x / d * 2 ^ n).
  { intros H0. rewrite (Hex H0). rewrite H0, Z.add_0_r in Hdm. rewrite Hdm at 1.
    replace (d * (x / d) * 2 ^ n) with (x / d * 2 ^ n * d) by ring. by rewrite Z.div_mul by lia. }
  assert (Hgt : x mod d <> 0 -> x / d * 2 ^ n < w).
  { intros Hne. assert (Hq : x / d * 2 ^ n + 2 <= x * 2 ^ n / d).
    { apply Z.div_le_lower_bound; [lia|]. rewrite Hdm at 2. rewrite Z.mul_add_distr_r.
      assert (2 ^ n <= x mod d * 2 ^ n) by nia. lia. }
    destruct Hw as [->|[->|[_ ->]]]; lia. }
  destruct (decide (x / d = 0)) as [H0|H0].
  - rewrite H0. cbn [of_int]. split; [|intros _; by do 2 eexists].
    intros Hm0. exfalso. rewrite Hm0, H0 in Hdm. lia.
  - pose proof (Z.div_pos x d ltac:(lia) ltac:(lia)).
    pose proof (Z.div_le_upper_bound x d x ltac:(lia) ltac:(nia)).
    destruct (fsub_int m e n (x / d)) as [F1 F2]; [lia..|]. split; auto.
Qed.

(** ** The order *)

(** A number as a triple whose lexicographic order is the order of numbers in
    canonical form; NaN has none. *)
Definition frank (x : float64) : option (Z * Z * Z) :=
  match x with
  | S754_zero _ => Some (0, 0, 0)
  | S754_infinity s => Some (if s then -2 else 2, 0, 0)
  | S754_finite s m e => Some (if s then (-1, - e, - Z.pos m) else (1, e, Z.pos m))
  | S754_nan => None
  end.

Definition rank_lt (r1 r2 : Z * Z * Z) : Prop :=
  let '(a1, b1, c1) := r1 in let '(a2, b2, c2) := r2 in
  a1 < a2 \/ a1 = a2 /\ (b1 < b2 \/ b1 = b2 /\ c1 < c2).

Lemma SFcompare_rank x y :
  match SFcompare x y, frank x, frank y with
  | Some c, Some r1, Some r2 =>
    match c with Lt => rank_lt r1 r2 | Eq => r1 = r2 | Gt => rank_lt r2 r1 end
  | None, Some _, Some _ => False
  | c, _, _ => c = None
  end.
Proof.
  unfold SFcompare, frank, rank_lt.
  destruct x as [[]|[]| |[] m1 e1], y as [[]|[]| |[] m2 e2]; cbn -[Z.compare]; try done; try lia;
    destruct (Z.compare_spec e1 e2); simpl; try lia;
    change (PosDef.Pos.compare_cont Eq m1 m2) with (Pos.compare m1 m2);
    destruct (Pos.compare_spec m1 m2); simpl; subst; try done; lia.
Qed.

Lemma fltb_rank x y :
  fltb x y = true <-> exists r1 r2, frank x = Some r1 /\ frank y = Some r2 /\ rank_lt r1 r2.
Proof.
  unfold fltb, SFltb. pose proof (SFcompare_rank x y) as H.
  assert (Hasym : forall r r', rank_lt r r' -> ~ rank_lt r' r)
    by (intros [[??]?] [[??]?]; simpl; lia).
  split.
  - destruct (SFcompare x y) as [[]|]; try done. intros _.
    destruct (frank x), (frank y); try done. eauto.
  - intros (r1 & r2 & E1 & E2 & Hr). rewrite E1, E2 in H.
    destruct (SFcompare x y) as [[]|]; [simpl in H; subst; by destruct (Hasym _ _ Hr Hr)|done|by destruct (Hasym _ _ Hr H)|done].
Qed.

Lemma feqb_rank x y : feqb x y = true <-> exists r, frank x = Some r /\ frank y = Some r.
Proof.
  unfold feqb, SFeqb. pose proof (SFcompare_rank x y) as H.
  assert (Hirr : forall r, ~ rank_lt r r) by (intros [[??]?]; simpl; lia).
  split.
  - destruct (SFcompare x y) as [[]|]; try done. intros _.
    destruct (frank x), (frank y); try done. simpl in H. subst. eauto.
  - intros (r & E1 & E2). rewrite E1, E2 in H.
    destruct (SFcompare x y) as [[]|]; try done; by destruct (Hirr _ H).
Qed.

(** The running minimum of a scan stays below what was scanned before. *)
Lemma fltb_drop x m m' : fltb x m = false -> fltb m' m = true -> fltb x m' = false.
Proof.
  intros H1 H2. apply not_true_iff_false. intros H3. apply not_true_iff_false in H1. apply H1.
  apply fltb_rank in H2 as (r1 & r2 & E1 & E2 & H2). apply fltb_rank in H3 as (r3 & r4 & E3 & E4 & H3).
  apply fltb_rank. simplify_eq. exists r3, r2. split; [done|]. split; [done|].
  destruct r1 as [[??]?], r2 as [[??]?], r3 as [[??]?]; simpl in *; lia.
Qed.

Lemma fltb_irrefl x : fltb x x = false.
Proof.
  apply not_true_iff_false. rewrite fltb_rank. intros (r1 & r2 & E1 & E2 & H). simplify_eq.
  destruct r1 as [[??]?]; simpl in H. lia.
Qed.
