(* ===== verification/GoSort.v ===== *)
(** * Go's [sort.SliceStable]

    A stable sort by a comparison [less], as an insertion sort; for a strict
    weak order every stable sort gives this result. *)
From S2P Require Import Prelude GoFloat.
From Stdlib Require Import Sorting.Sorted.
From stdpp Require Import sorting.

Section SliceStable.
Context {A : Type} (less : A -> A -> bool).

(** Put [x] before the first element that is not less than it. *)
Fixpoint insert_stable (x : A) (l : list A) : list A :=
  match l with
  | [] => [x]
  | y :: rest => if less y x then y :: insert_stable x rest else x :: l
  end.

Definition SliceStable (l : list A) : list A := foldr insert_stable [] l.

(** [a] may stand before [b]. *)
Definition in_order (a b : A) : Prop := less b a = false.

Lemma insert_stable_perm x l : insert_stable x l ≡ₚ x :: l.
Proof.
  induction l as [|y l IH]; simpl; [done|]. case_match; [|done].
  rewrite IH. apply Permutation_swap.
Qed.

Lemma SliceStable_perm l : SliceStable l ≡ₚ l.
Proof. induction l as [|x l IH]; simpl; [done|]. by rewrite insert_stable_perm, IH. Qed.

Lemma SliceStable_length l : length (SliceStable l) = length l.
Proof. apply Permutation_length, SliceStable_perm. Qed.

(** What [sort] asks of a comparison, on the elements that occur. *)
Class StrictWeak (ok : A -> Prop) : Prop := {
  less_asym x y : ok x -> ok y -> less x y = true -> less y x = false;
  less_weak x y z : ok x -> ok y -> ok z ->
    less y x = false -> less z y = false -> less z x = false
}.

Lemma insert_stable_sorted {ok : A -> Prop} `{!StrictWeak ok} x l :
  ok x -> Forall ok l -> StronglySorted in_order l -> StronglySorted in_order (insert_stable x l).
Proof.
  intros Hx Hd. induction 1 as [|y l Hl IH Hy]; simpl; [by repeat constructor|].
  apply Forall_cons in Hd as [Hdy Hd]. destruct (less y x) eqn:E.
  - constructor; [by apply IH|]. rewrite insert_stable_perm. constructor; [by apply less_asym|done].
  - constructor; [by constructor|]. constructor; [done|].
    rewrite Forall_forall in Hd, Hy |- *. intros z Hz. eapply (less_weak x y z); eauto. by apply Hy.
Qed.

Lemma SliceStable_sorted {ok : A -> Prop} `{!StrictWeak ok} l :
  Forall ok l -> StronglySorted in_order (SliceStable l).
Proof.
  induction 1 as [|x l Hx Hl IH]; simpl; [constructor|].
  apply insert_stable_sorted; [done| |done]. by rewrite SliceStable_perm.
Qed.

(** Stability: elements that compare equal keep their order. *)
Lemma insert_stable_filter (p : A -> bool) x l :
  (forall y, y ∈ l -> p y = true -> p x = true -> less y x = false) ->
  filter (fun y => p y = true) (insert_stable x l) = filter (fun y => p y = true) (x :: l).
Proof.
  induction l as [|y l IH]; intros Hp; [done|]. cbn [insert_stable].
  destruct (less y x) eqn:E; [|done].
  rewrite !filter_cons, IH by (intros z Hz; apply Hp; by right). rewrite filter_cons.
  destruct (decide (p y = true)) as [Hy|]; [|done].
  destruct (decide (p x = true)) as [Hx|]; [|done].
  rewrite Hp in E; [done|by left|done..].
Qed.

Lemma SliceStable_stable (p : A -> bool) l :
  (forall x y, x ∈ l -> y ∈ l -> p x = true -> p y = true -> less y x = false) ->
  filter (fun y => p y = true) (SliceStable l) = filter (fun y => p y = true) l.
Proof.
  induction l as [|x l IH]; intros Hp; [done|]. cbn [SliceStable foldr].
  rewrite insert_stable_filter.
  - rewrite !filter_cons. fold (SliceStable l). rewrite IH; [done|].
    intros; apply Hp; [by right..|done|done].
  - intros y Hy Hpy Hpx. apply Hp; [by left| |done..]. right. by rewrite <- (SliceStable_perm l).
Qed.

(** In a sorted list the elements of a class that comes first are in front. *)
Lemma sorted_front (p : A -> bool) l n :
  StronglySorted (fun a b => p b = true -> p a = true) l ->
  (n <= length (filter (fun y => p y = true) l))%nat ->
  Forall (fun y => p y = true) (take n l).
Proof.
  intros Hs. revert n. induction Hs as [|x l Hs IH Hx]; intros n Hn; [by rewrite take_nil|].
  destruct n as [|n]; [constructor|]. rewrite filter_cons in Hn. cbn [take].
  destruct (decide (p x = true)) as [Hp|Hp].
  - constructor; [done|]. apply IH. simpl in Hn. lia.
  - exfalso. assert (filter (fun y => p y = true) l = []) as E; [|rewrite E in Hn; simpl in Hn; lia].
    clear IH Hs Hn. induction Hx as [|y l Hy Hx IH]; [done|]. rewrite filter_cons_False; [done|].
    intros Hpy. by apply Hp, Hy.
Qed.
End SliceStable.

Arguments StrictWeak {A} less ok.

(** ** The best of a sorted list *)

(** An element in the cut front is not beaten by one behind it. *)
Lemma take_sorted_best {A} (less : A -> A -> bool) l n x y :
  StronglySorted (in_order less) l -> x ∈ take n l -> y ∈ drop n l -> less y x = false.
Proof.
  intros Hs. revert n. induction Hs as [|z l Hl IH Hz]; intros n Hx Hy; [by rewrite take_nil in Hx; apply elem_of_nil in Hx|].
  destruct n as [|n]; [by apply elem_of_nil in Hx|]. cbn [firstn skipn] in *. apply elem_of_cons in Hx as [->|Hx].
  - rewrite Forall_forall in Hz. apply Hz. eapply elem_of_sublist; [exact Hy|apply sublist_drop].
  - by apply (IH n).
Qed.

(** Of two elements of a sorted list, the one before the other. *)
Lemma StronglySorted_lookup {A} (R : A -> A -> Prop) l i j a b :
  StronglySorted R l -> (i < j)%nat -> l !! i = Some a -> l !! j = Some b -> R a b.
Proof.
  intros Hs. revert i j. induction Hs as [|x l Hl IH Hx]; intros [|i] [|j] Hij Ha Hb; cbn in *; try lia; try done.
  - injection Ha as ->. rewrite Forall_forall in Hx. apply Hx. by eapply list_elem_of_lookup_2.
  - apply (IH i j); [lia|done|done].
Qed.

(** ** Comparisons by a key *)

Local Open Scope Z_scope.

Fixpoint lex_lt (a b : list Z) : Prop :=
  match a, b with
  | x :: a, y :: b => x < y \/ x = y /\ lex_lt a b
  | _, _ => False
  end.

Lemma lex_irrefl a : ~ lex_lt a a.
Proof. induction a as [|x a IH]; cbn; [tauto|]. intros [H|[_ H]]; [lia|done]. Qed.

Lemma lex_trans a b c : lex_lt a b -> lex_lt b c -> lex_lt a c.
Proof.
  revert b c. induction a as [|x a IH]; intros [|y b] [|z c]; cbn; try done.
  intros [H1|[-> H1]] [H2|[-> H2]]; [left; lia|left; lia|left; lia|right; eauto].
Qed.

Lemma lex_total a b : length a = length b -> lex_lt a b \/ a = b \/ lex_lt b a.
Proof.
  revert b. induction a as [|x a IH]; intros [|y b] Hl; cbn in *; try done; [auto|].
  destruct (Z.lt_total x y) as [|[->|]]; [auto| |auto]. destruct (IH b) as [|[->|]]; [lia|auto..].
Qed.

Lemma lex_app a b c d : length a = length b -> lex_lt (a ++ c) (b ++ d) <-> lex_lt a b \/ a = b /\ lex_lt c d.
Proof.
  revert b. induction a as [|x a IH]; intros [|y b] Hl; cbn in *; try done; [naive_solver|].
  rewrite IH by lia. naive_solver.
Qed.

Lemma lex_opp a b : lex_lt (Z.opp <$> a) (Z.opp <$> b) <-> lex_lt b a.
Proof.
  revert b. induction a as [|x a IH]; intros [|y b]; cbn; try done. rewrite IH. intuition lia.
Qed.

(** A comparison that compares keys is what [sort] asks for. *)
Lemma StrictWeak_key {A} (less : A -> A -> bool) (ok : A -> Prop) (key : A -> list Z) (n : nat) :
  (forall a, ok a -> length (key a) = n) ->
  (forall a b, ok a -> ok b -> less a b = true <-> lex_lt (key a) (key b)) ->
  StrictWeak less ok.
Proof.
  intros Hlen Hkey. split.
  - intros x y Hx Hy H. apply not_true_iff_false. rewrite Hkey in H |- * by done. intros H'.
    eapply lex_irrefl, lex_trans; [exact H|exact H'].
  - intros x y z Hx Hy Hz H1 H2. apply not_true_iff_false in H1, H2. apply not_true_iff_false.
    rewrite Hkey in H1, H2 |- * by done. intros H.
    destruct (lex_total (key y) (key x)) as [|[E|H3]]; [by rewrite !Hlen|done|by rewrite E in H2|].
    apply H2. by eapply lex_trans.
Qed.

(** A comparison that falls back on another one. *)
Lemma StrictWeak_lex {A} (less first second : A -> A -> bool) (ok : A -> Prop) :
  StrictWeak first ok -> StrictWeak second ok ->
  (forall a b, ok a -> ok b -> less a b = if first a b then true else if first b a then false else second a b) ->
  StrictWeak less ok.
Proof.
  intros W1 W2 Hl. split.
  - intros x y Hx Hy. rewrite !Hl by done. destruct (first x y) eqn:E1.
    + by rewrite (less_asym first x y Hx Hy E1).
    + destruct (first y x) eqn:E2; [done|]. by apply (less_asym second).
  - intros x y z Hx Hy Hz. rewrite !Hl by done.
    destruct (first y x) eqn:E1; [done|]. destruct (first z y) eqn:E2; [done|].
    rewrite (less_weak first x y z) by done. destruct (first x y) eqn:E3.
    { intros _ _. destruct (first x z) eqn:E4; [done|].
      assert (first x y = false); [|congruence]. by apply (less_weak first y z x). }
    destruct (first y z) eqn:E5.
    { intros _ _. destruct (first x z) eqn:E4; [done|].
      assert (first y z = false); [|congruence]. by apply (less_weak first z x y). }
    rewrite (less_weak first z y x) by done. by apply (less_weak second).
Qed.

(** A comparison that tells all elements apart leaves one order. *)
Lemma SliceStable_unique {A} (less : A -> A -> bool) (ok : A -> Prop) `{!StrictWeak less ok} l k :
  Forall ok l -> (forall a b, a ∈ l -> b ∈ l -> less a b = false -> less b a = false -> a = b) -> l ≡ₚ k ->
  SliceStable less l = SliceStable less k.
Proof.
  intros Hok Htot Hp. assert (Forall ok k) as Hokk by (by rewrite <- Hp).
  eapply (StronglySorted_unique_strong (in_order less)).
  - intros x y Hx Hy H1 H2. rewrite SliceStable_perm in Hx, Hy. rewrite <- Hp in Hy. by apply Htot.
  - by apply (SliceStable_sorted less (ok := ok)).
  - by apply (SliceStable_sorted less (ok := ok)).
  - by rewrite !SliceStable_perm.
Qed.

(** *** Floating-point keys *)

Definition fkey (x : float64) : list Z := match frank x with Some (a, b, c) => [a; b; c] | None => [] end.

Lemma fkey_length x : is_Some (frank x) -> length (fkey x) = 3%nat.
Proof. unfold fkey. by intros [[[a b] c] ->]. Qed.

Lemma fltb_fkey x y : is_Some (frank x) -> is_Some (frank y) -> fltb x y = true <-> lex_lt (fkey x) (fkey y).
Proof.
  intros [[[a b] c] Hx] [[[d e] f] Hy]. rewrite fltb_rank. unfold fkey. rewrite Hx, Hy. cbn. split.
  - intros (r1 & r2 & [= <-] & [= <-] & H). cbn in H. lia.
  - intros H. eexists _, _. split; [done|]. split; [done|]. cbn. lia.
Qed.

Lemma feqb_fkey x y : is_Some (frank x) -> is_Some (frank y) -> feqb x y = true <-> fkey x = fkey y.
Proof.
  intros [[[a b] c] Hx] [[[d e] f] Hy]. rewrite feqb_rank. unfold fkey. rewrite Hx, Hy. split.
  - by intros (r & [= <-] & [= <- <- <-]).
  - intros [= <- <- <-]. eauto.
Qed.

(** The pattern of the comparisons: the greater number first, then the rest. *)
Lemma float_desc x y (rest : bool) a b :
  is_Some (frank x) -> is_Some (frank y) -> (rest = true <-> lex_lt a b) ->
  (if negb (feqb x y) then fltb y x else rest) = true <-> lex_lt ((Z.opp <$> fkey x) ++ a) ((Z.opp <$> fkey y) ++ b).
Proof.
  intros Hx Hy Hr. rewrite lex_app, lex_opp, <- fltb_fkey by (rewrite ?length_fmap, ?fkey_length; done).
  destruct (feqb x y) eqn:E; cbn [negb].
  - apply feqb_fkey in E; [|done..]. rewrite Hr, E.
    assert (fltb y x = true -> False) as Hn; [|naive_solver].
    rewrite fltb_fkey, E by done. apply lex_irrefl.
  - apply not_true_iff_false in E. rewrite feqb_fkey in E by done.
    assert (Z.opp <$> fkey x = Z.opp <$> fkey y -> False) as Hn; [|naive_solver].
    intros H. apply E. revert H. apply list_fmap_eq_inj. intros p q. lia.
Qed.

(** The greater integer first. *)
Lemma int_desc x y (rest : bool) a b :
  (rest = true <-> lex_lt a b) ->
  (if decide (x <> y) then bool_decide (y < x) else rest) = true <-> lex_lt (- x :: a) (- y :: b).
Proof. intros Hr. case_decide; cbn; [rewrite bool_decide_eq_true|rewrite Hr]; intuition lia. Qed.

(** *** Texts *)

Lemma ltb_leb s t : String.ltb s t = negb (String.leb t s).
Proof. unfold String.ltb, String.leb. rewrite (String.compare_antisym t s). by destruct (String.compare s t). Qed.

Lemma ltb_weak {A} (f : A -> string) : StrictWeak (fun a b => String.ltb (f a) (f b)) (fun _ => True).
Proof.
  assert (forall s t, String.ltb s t = false <-> String.le t s) as H.
  { intros s t. rewrite ltb_leb, negb_false_iff. unfold String.le. by destruct (String.leb t s). }
  split.
  - intros x y _ _ Hlt. apply H. destruct (total String.le (f x) (f y)) as [|Hle]; [done|].
    apply H in Hle. congruence.
  - intros x y z _ _ _ H1%H H2%H. apply H. by etransitivity.
Qed.

Lemma ltb_total s t : String.ltb s t = false -> String.ltb t s = false -> s = t.
Proof.
  rewrite !ltb_leb, !negb_false_iff. intros H1 H2. by apply String.leb_antisym.
Qed.

(** *** Comparisons field by field *)

Section Fields.
Context {A : Type} (rest : A -> A -> bool) (ok : A -> Prop).

Lemma StrictWeak_mono (less : A -> A -> bool) (ok' : A -> Prop) :
  (forall a, ok a -> ok' a) -> StrictWeak less ok' -> StrictWeak less ok.
Proof. intros Hok [H1 H2]. split; [by eauto|]. intros x y z Hx Hy Hz. by apply H2; apply Hok. Qed.

(** Exactly one of less, equal and greater. *)
Lemma feqb_cases x y : is_Some (frank x) -> is_Some (frank y) ->
  (feqb x y = true /\ fltb x y = false /\ fltb y x = false)
  \/ (feqb x y = false /\ fltb x y = negb (fltb y x)).
Proof.
  intros Hx Hy. assert (length (fkey x) = length (fkey y)) as Hl by (by rewrite !fkey_length).
  pose proof (feqb_fkey x y Hx Hy) as He. pose proof (fltb_fkey x y Hx Hy) as H1. pose proof (fltb_fkey y x Hy Hx) as H2.
  destruct (lex_total _ _ Hl) as [H|[H|H]].
  - right. rewrite (proj2 H1 H). split.
    + apply not_true_iff_false. rewrite He. intros E. rewrite E in H. by apply lex_irrefl in H.
    + symmetry. apply negb_true_iff, not_true_iff_false. rewrite H2. intros H'. eapply lex_irrefl, lex_trans; [exact H|exact H'].
  - left. rewrite (proj2 He H). split_and!; [done|..]; apply not_true_iff_false; [rewrite H1|rewrite H2]; rewrite H; apply lex_irrefl.
  - right. rewrite (proj2 H2 H). split.
    + apply not_true_iff_false. rewrite He. intros E. rewrite E in H. by apply lex_irrefl in H.
    + apply not_true_iff_false. rewrite H1. intros H'. eapply lex_irrefl, lex_trans; [exact H|exact H'].
Qed.

Lemma float_field (f : A -> float64) :
  (forall a, ok a -> is_Some (frank (f a))) -> StrictWeak rest ok ->
  StrictWeak (fun a b => if negb (feqb (f a) (f b)) then fltb (f b) (f a) else rest a b) ok.
Proof.
  intros Hf Hr. apply (StrictWeak_lex _ (fun a b => fltb (f b) (f a)) rest); [|done|].
  - apply (StrictWeak_key _ _ (fun a => Z.opp <$> fkey (f a)) 3).
    + intros a Ha. by rewrite length_fmap, fkey_length by auto.
    + intros a b Ha Hb. rewrite lex_opp. apply fltb_fkey; auto.
  - intros a b Ha Hb. destruct (feqb_cases (f a) (f b)) as [(-> & -> & ->)|[-> E]]; [auto..|done|].
    rewrite E. by destruct (fltb (f b) (f a)).
Qed.

Lemma float_tie x y (r r' : bool) :
  is_Some (frank x) -> is_Some (frank y) ->
  (if negb (feqb x y) then fltb y x else r) = false -> (if negb (feqb y x) then fltb x y else r') = false ->
  r = false /\ r' = false.
Proof.
  intros Hx Hy. destruct (feqb_cases x y Hx Hy) as [(-> & H1 & H2)|[-> E]];
    destruct (feqb_cases y x Hy Hx) as [(-> & G1 & G2)|[-> F]]; cbn; intros; try done.
  all: destruct (fltb x y), (fltb y x); done.
Qed.

Lemma int_field (f : A -> Z) :
  StrictWeak rest ok -> StrictWeak (fun a b => if decide (f a <> f b) then bool_decide (f b < f a) else rest a b) ok.
Proof.
  intros Hr. apply (StrictWeak_lex _ (fun a b => bool_decide (f b < f a)) rest); [|done|].
  - apply (StrictWeak_key _ _ (fun a => [- f a]) 1); [done|]. intros a b _ _. rewrite bool_decide_eq_true. cbn. lia.
  - intros a b _ _. repeat case_bool_decide; case_decide; try done; lia.
Qed.

Lemma text_field (f : A -> string) :
  StrictWeak rest ok -> StrictWeak (fun a b => if decide (f a <> f b) then String.ltb (f a) (f b) else rest a b) ok.
Proof.
  intros Hr. apply (StrictWeak_lex _ (fun a b => String.ltb (f a) (f b)) rest); [|done|].
  - apply (StrictWeak_mono _ (fun _ => True)); [done|apply ltb_weak].
  - intros a b _ _. case_decide as E.
    + destruct (String.ltb (f a) (f b)) eqn:E1; [done|]. destruct (String.ltb (f b) (f a)) eqn:E2; [done|].
      by destruct E; apply ltb_total.
    + rewrite E. destruct (String.ltb (f b) (f b)) eqn:E1; [|done].
      pose proof (less_asym _ b b (StrictWeak := ltb_weak f) I I E1). congruence.
Qed.
End Fields.
