(* ===== verification/ContextBudget.v ===== *)
(** * Token budgets of the context engine

    [contextengine/budget.go]: how the input tokens of a model call are shared
    between the sections of the prompt, by the largest remainders, in the
    [float64] arithmetic of the source. *)
From S2P Require Import Prelude GoLib GoText GoFloat GoSort.
From Stdlib Require Import Floats.SpecFloat Sorting.Sorted.
Import Str Text.

Local Open Scope Z_scope.

Record BudgetPlan := mkBudgetPlan {
  PinnedFacts : Z; TaskState : Z; RecalledContext : Z; RecentMessages : Z; Knowledge : Z }.

Definition zeroPlan : BudgetPlan := mkBudgetPlan 0 0 0 0 0.

Record budgetProfile := mkBudgetProfile {
  pinnedFacts : Z; taskState : Z; recalledContext : Z; recentMessages : Z; knowledge : Z }.

(** [hasAnyBudgetDomain]: a map used as a set. *)
Definition hasAnyBudgetDomain (domains : gset string) (candidates : list string) : bool :=
  existsb (fun c => bool_decide (c ∈ domains)) candidates.

Section Unicode.
Context {U : GoUnicode}.

Definition domain_set (domains : list string) : gset string :=
  foldl (fun set d => let n := ToLower (TrimSpace d) in if decide (n = "") then set else {[ n ]} ∪ set)
        ∅ domains.

Definition normalizeBudgetClass (jobType : string) (domains : list string) : string :=
  let job := ToLower (TrimSpace jobType) in
  if decide (job ∈ ["debug"; "development"; "deployment"; "automation"; "monitor"; "ops"; "incident"])
  then "debug"
  else if decide (job ∈ ["writing"; "write"; "report"; "delivery"; "document"; "presentation"])
  then "writing"
  else if decide (job ∈ ["research"; "analysis"; "browse"; "browser"; "search"]) then "research"
  else if decide (job ∈ [""; "default"; "general"]) then
    let set := domain_set domains in
    if hasAnyBudgetDomain set ["search"; "news"; "browser"; "web"; "docs"; "research"; "knowledge"]
    then "research"
    else if hasAnyBudgetDomain set ["document"; "presentation"; "spreadsheet"; "canvas"; "email"; "text"]
    then "writing"
    else if hasAnyBudgetDomain set ["git"; "fs"; "exec"; "desktop"; "terminal"; "runtime"]
    then "debug"
    else "default"
  else "default".

Definition budgetProfileFor (jobType : string) (domains : list string) : budgetProfile :=
  let class := normalizeBudgetClass jobType domains in
  if decide (class = "debug") then mkBudgetProfile 8 10 15 60 7
  else if decide (class = "writing") then mkBudgetProfile 12 5 20 50 13
  else if decide (class = "research") then mkBudgetProfile 8 5 25 45 17
  else mkBudgetProfile 10 8 18 55 9.

Definition percents (p : budgetProfile) : list Z :=
  [pinnedFacts p; taskState p; recalledContext p; recentMessages p; knowledge p].

Record allocation := mkAllocation { al_index : nat; al_remainder : float64; al_percent : Z }.

(** The comparison of [sort.SliceStable]: larger remainders first, then larger
    shares, then the order of the sections. *)
Definition less_allocation (a b : allocation) : bool :=
  if feqb (al_remainder a) (al_remainder b) then
    if decide (al_percent a = al_percent b) then bool_decide (al_index a < al_index b)%nat
    else bool_decide (al_percent b < al_percent a)
  else fltb (al_remainder b) (al_remainder a).

Definition raw_share (totalTokens percent : Z) : float64 :=
  fdiv (of_int (GoInt.wrap64 (totalTokens * percent))) (of_int 100).

Definition base_share (totalTokens percent : Z) : Z := to_int (raw_share totalTokens percent).

(** The loop over the shares, from section [index] on. *)
Fixpoint remainders_from (totalTokens : Z) (index : nat) (shares : list Z) : list allocation :=
  match shares with
  | [] => []
  | p :: rest =>
    mkAllocation index (fsub (raw_share totalTokens p) (of_int (base_share totalTokens p))) p
    :: remainders_from totalTokens (S index) rest
  end.

(** [for index := 0; index < n; index++ { *assignments[remainders[index].index]++ }];
    [None] is the panic of an index out of range. *)
Fixpoint hand_out (n : nat) (remainders : list allocation) (assigned : list Z) : option (list Z) :=
  match n with
  | O => Some assigned
  | S n' =>
    match remainders with
    | [] => None
    | r :: rest => hand_out n' rest (alter Z.succ (al_index r) assigned)
    end
  end.

Definition plan_of (assigned : list Z) : option BudgetPlan :=
  match assigned with [a; b; c; d; e] => Some (mkBudgetPlan a b c d e) | _ => None end.

Definition sum_list_Z (l : list Z) : Z := foldl Z.add 0 l.

Definition PlanBudget (totalTokens : Z) (jobType : string) (domains : list string) : option BudgetPlan :=
  if decide (totalTokens <= 0) then Some zeroPlan else
  let shares := percents (budgetProfileFor jobType domains) in
  let bases := base_share totalTokens <$> shares in
  let remainders := SliceStable less_allocation (remainders_from totalTokens 0 shares) in
  assigned ← hand_out (Z.to_nat (totalTokens - sum_list_Z bases)) remainders bases;
  plan_of assigned.
End Unicode.

(** ** The order of the remainders *)

(** Remainders are zero or positive, never negative, infinite or NaN. *)
Definition proper (a : allocation) : Prop :=
  match al_remainder a with S754_zero false | S754_finite false _ _ => True | _ => False end.

(** A share that leaves something over. *)
Definition fractional (a : allocation) : bool :=
  match al_remainder a with S754_finite _ _ _ => true | _ => false end.

(** The comparison as an order on numbers. *)
Lemma less_allocation_rank a b r1 r2 :
  frank (al_remainder a) = Some r1 -> frank (al_remainder b) = Some r2 ->
  less_allocation a b = true <->
  rank_lt r2 r1 \/ r1 = r2 /\
    (al_percent b < al_percent a \/ al_percent b = al_percent a /\ (al_index a < al_index b)%nat).
Proof.
  intros Ha Hb. unfold less_allocation.
  assert (Hirr : ~ rank_lt r1 r1) by (destruct r1 as [[??]?]; simpl; lia).
  destruct (feqb _ _) eqn:E.
  - apply feqb_rank in E as (r & E1 & E2). simplify_eq. case_decide; rewrite bool_decide_eq_true; intuition lia.
  - apply not_true_iff_false in E. rewrite feqb_rank in E.
    assert (r1 <> r2) by (intros ->; eauto). rewrite fltb_rank. naive_solver.
Qed.

Lemma proper_rank a :
  proper a -> exists r, frank (al_remainder a) = Some r
    /\ (let '(c, _, _) := r in c = if fractional a then 1 else 0).
Proof.
  unfold proper, fractional. destruct (al_remainder a) as [[]|[]| |[] ? ?]; try done; by eexists.
Qed.

#[local] Instance less_allocation_weak : StrictWeak less_allocation proper.
Proof.
  split.
  - intros x y (r1 & E1 & _)%proper_rank (r2 & E2 & _)%proper_rank H.
    apply not_true_iff_false. intros H'.
    rewrite less_allocation_rank in H, H' by done. destruct r1 as [[??]?], r2 as [[??]?].
    unfold rank_lt in *. rewrite !pair_equal_spec in *. lia.
  - intros x y z (r1 & E1 & _)%proper_rank (r2 & E2 & _)%proper_rank (r3 & E3 & _)%proper_rank H1 H2.
    apply not_true_iff_false. intros H3. apply not_true_iff_false in H1, H2.
    rewrite less_allocation_rank in H1, H2, H3 by done.
    destruct r1 as [[??]?], r2 as [[??]?], r3 as [[??]?].
    unfold rank_lt in *. rewrite !pair_equal_spec in *. lia.
Qed.

Lemma in_order_fractional a b :
  proper a -> proper b -> in_order less_allocation a b -> fractional b = true -> fractional a = true.
Proof.
  intros (r1 & E1 & C1)%proper_rank (r2 & E2 & C2)%proper_rank Ho Hf.
  apply not_true_iff_false in Ho. rewrite less_allocation_rank in Ho by done.
  destruct r1 as [[??]?], r2 as [[??]?]. rewrite Hf in C2. unfold rank_lt in Ho.
  destruct (fractional a); [done|]. rewrite !pair_equal_spec in Ho. lia.
Qed.

(** ** Handing out what is left *)

Lemma hand_out_spec n rs l :
  (n <= length rs)%nat -> NoDup (al_index <$> rs) ->
  exists l', hand_out n rs l = Some l'
    /\ length l' = length l
    /\ forall i b, l !! i = Some b ->
         l' !! i = Some (if decide (i ∈ al_index <$> take n rs) then Z.succ b else b).
Proof.
  revert rs l. induction n as [|n IH]; intros rs l Hn Hnd.
  { exists l. split; [done|]. split; [done|]. intros i b Hi. rewrite decide_False; [done|]. apply not_elem_of_nil. }
  destruct rs as [|r rs]; [simpl in Hn; lia|]. cbn in Hnd. apply NoDup_cons in Hnd as [Hr Hnd].
  cbn [hand_out]. destruct (IH rs (alter Z.succ (al_index r) l)) as (l' & -> & Hlen & Hl'); [simpl in Hn; lia|done|].
  exists l'. split; [done|]. rewrite length_alter in Hlen. split; [done|]. intros i b Hi. cbn [take fmap list_fmap].
  assert (Hsub : forall i, i ∈ al_index <$> take n rs -> i ∈ al_index <$> rs)
    by (intros j; rewrite <- (take_drop n rs) at 2; rewrite fmap_app; set_solver).
  destruct (decide (i = al_index r)) as [->|Hne].
  - rewrite (decide_True (P := al_index r ∈ _ :: _)) by (by left).
    rewrite (Hl' _ (Z.succ b)) by (by rewrite list_lookup_alter_eq, Hi).
    rewrite decide_False; [done|]. auto.
  - rewrite (Hl' _ b) by (by rewrite list_lookup_alter_ne).
    apply (f_equal Some). apply decide_ext. rewrite elem_of_cons. tauto.
Qed.

Lemma sum_list_Z_cons x l : sum_list_Z (x :: l) = x + sum_list_Z l.
Proof.
  unfold sum_list_Z. cbn [foldl]. rewrite Z.add_0_l.
  assert (H : forall a b, foldl Z.add (a + b) l = a + foldl Z.add b l).
  { induction l as [|y l IH]; intros a b; cbn [foldl]; [done|].
    rewrite <- IH. f_equal. lia. }
  rewrite <- (H x 0). f_equal. lia.
Qed.

Lemma sum_alter i l : (i < length l)%nat -> sum_list_Z (alter Z.succ i l) = sum_list_Z l + 1.
Proof.
  revert i. induction l as [|x l IH]; intros [|i] Hi; cbn in Hi; [lia..| |].
  - change (alter Z.succ 0%nat (x :: l)) with (Z.succ x :: l). rewrite !sum_list_Z_cons. lia.
  - change (alter Z.succ (S i) (x :: l)) with (x :: alter Z.succ i l).
    rewrite !sum_list_Z_cons, IH by lia. lia.
Qed.

Lemma hand_out_sum n rs l l' :
  Forall (fun a => al_index a < length l)%nat rs -> hand_out n rs l = Some l' ->
  sum_list_Z l' = sum_list_Z l + Z.of_nat n.
Proof.
  revert rs l. induction n as [|n IH]; intros rs l Hb Hl; cbn in Hl; [simplify_eq; lia|].
  destruct rs as [|r rs]; [done|]. apply Forall_cons in Hb as [Hr Hb].
  apply IH in Hl; [|by rewrite length_alter]. rewrite Hl, sum_alter by done. lia.
Qed.

(** ** The shares *)

Definition total_bound : Z := 2 ^ 46.

Definition share_ok (p : Z) : Prop := 0 <= p <= 60.

Lemma raw_share_eq t p :
  0 < t < total_bound -> share_ok p -> raw_share t p = fdiv (of_int (t * p)) (of_int 100).
Proof.
  unfold total_bound, share_ok, raw_share. intros Ht Hp. rewrite GoInt.wrap64_id; [done|].
  unfold GoInt.in_int64, GoInt.min_int64, GoInt.max_int64. nia.
Qed.

Lemma base_share_eq t p : 0 < t < total_bound -> share_ok p -> base_share t p = t * p / 100.
Proof.
  intros Ht Hp. unfold base_share. rewrite raw_share_eq by done.
  unfold total_bound, share_ok in *. apply to_int_fdiv; [nia|lia].
Qed.

Lemma remainder_shape t p index :
  0 < t < total_bound -> share_ok p ->
  let a := mkAllocation index (fsub (raw_share t p) (of_int (base_share t p))) p in
  proper a /\ fractional a = bool_decide ((t * p) mod 100 <> 0).
Proof.
  intros Ht Hp. cbv zeta. rewrite base_share_eq, raw_share_eq by done.
  unfold total_bound, share_ok, proper, fractional in *. cbn [al_remainder].
  destruct (fdiv_frac (t * p) 100) as [H0 H1]; [nia|lia|].
  destruct (decide ((t * p) mod 100 = 0)) as [E|E].
  - rewrite H0 by done. by rewrite bool_decide_eq_false_2 by lia.
  - destruct (H1 E) as (m & e & ->). by rewrite bool_decide_eq_true_2.
Qed.

Lemma remainders_proper t i shares :
  0 < t < total_bound -> Forall share_ok shares -> Forall proper (remainders_from t i shares).
Proof.
  intros Ht Hs. revert i. induction Hs as [|p l Hp Hs IH]; intros i; constructor; [|done].
  by apply remainder_shape.
Qed.

Lemma remainders_index t i shares : al_index <$> remainders_from t i shares = seq i (length shares).
Proof. revert i. induction shares as [|p l IH]; intros i; [done|]. cbn. by rewrite IH. Qed.

Lemma remainders_lookup t i shares j a :
  remainders_from t i shares !! j = Some a ->
  exists p, shares !! j = Some p
    /\ a = mkAllocation (i + j) (fsub (raw_share t p) (of_int (base_share t p))) p.
Proof.
  revert i j. induction shares as [|p l IH]; intros i [|j] Ha; cbn in *; simplify_eq.
  - exists p. by rewrite Nat.add_0_r.
  - destruct (IH (S i) j Ha) as (q & Hq & ->). exists q. split; [done|]. f_equal. lia.
Qed.

(** What is left over is less than the number of shares with a fraction. *)
Lemma left_over t i shares :
  0 < t < total_bound -> Forall share_ok shares ->
  let n := Z.of_nat (length (filter (fun a => fractional a = true) (remainders_from t i shares))) in
  0 <= t * sum_list_Z shares - 100 * sum_list_Z (base_share t <$> shares) <= 99 * n.
Proof.
  intros Ht Hs. revert i. induction Hs as [|p l Hp Hs IH]; intros i; [cbn; lia|].
  cbn [fmap list_fmap]. rewrite !sum_list_Z_cons. cbn [remainders_from].
  destruct (remainder_shape t p i Ht Hp) as [_ Hf]. cbv zeta in Hf, IH |- *. rewrite filter_cons, Hf.
  specialize (IH (S i)). rewrite base_share_eq by done.
  pose proof (Z.div_mod (t * p) 100 ltac:(lia)). pose proof (Z.mod_pos_bound (t * p) 100 ltac:(lia)).
  case_bool_decide as Hm;
    [rewrite (decide_True (P := true = true)) by done; cbn [length]
    |rewrite (decide_False (P := false = true)) by done]; lia.
Qed.

Section Exact.
Context {U : GoUnicode}.

(** The sections of a plan, in the order of the shares. *)
Definition sections (p : BudgetPlan) : list Z :=
  [PinnedFacts p; TaskState p; RecalledContext p; RecentMessages p; Knowledge p].

(** The percentages of every class of job add up to the whole. *)
Lemma profile_whole jobType domains :
  let shares := percents (budgetProfileFor jobType domains) in
  Forall share_ok shares /\ length shares = 5%nat /\ sum_list_Z shares = 100.
Proof.
  unfold budgetProfileFor, share_ok. cbv zeta. split_cases;
    (split; [repeat constructor; simpl; lia|done]).
Qed.

(** The quota of a section: its share, rounded down or up. *)
Definition within_quota (t p s : Z) : Prop :=
  s = t * p / 100 \/ (t * p) mod 100 <> 0 /\ s = t * p / 100 + 1.

(** A section that gets one of the tokens left over has a fraction. *)
Lemma taken_fractional t shares n i p :
  0 < t < total_bound -> Forall share_ok shares -> shares !! i = Some p ->
  let sorted := SliceStable less_allocation (remainders_from t 0 shares) in
  (n <= length (filter (fun a => fractional a = true) sorted))%nat ->
  i ∈ al_index <$> take n sorted -> (t * p) mod 100 <> 0.
Proof.
  intros Ht Hok Hp sorted Hn Hi. apply list_elem_of_fmap in Hi as (a & -> & Ha).
  pose proof (remainders_proper t 0 shares Ht Hok) as Hprop.
  assert (Hf : Forall (fun a => fractional a = true) (take n sorted)).
  { apply sorted_front; [|done].
    pose proof (SliceStable_sorted less_allocation (ok := proper) _ Hprop) as Hs.
    rewrite <- (SliceStable_perm less_allocation) in Hprop. fold sorted in Hs, Hprop.
    clear -Hs Hprop. induction Hs as [|x l Hs IH Hx]; constructor;
      apply Forall_cons in Hprop as [Hpx Hpl]; [auto|].
    rewrite Forall_forall in Hx, Hpl |- *. intros y Hy. apply in_order_fractional; auto. }
  rewrite Forall_forall in Hf. specialize (Hf a Ha).
  assert (Hin : a ∈ remainders_from t 0 shares).
  { rewrite <- (SliceStable_perm less_allocation). fold sorted.
    rewrite <- (take_drop n sorted). set_solver. }
  apply list_elem_of_lookup in Hin as [j Hj].
  destruct (remainders_lookup _ _ _ _ _ Hj) as (p' & Hp' & ->). cbn [al_index plus] in Hp.
  simplify_eq. destruct (remainder_shape t p (0 + j) Ht) as [_ Hsh]; [by eapply Forall_lookup_1|].
  cbv zeta in Hsh. rewrite Hsh in Hf. by apply bool_decide_eq_true in Hf.
Qed.

Lemma hand_out_quota t shares :
  0 < t < total_bound -> Forall share_ok shares -> sum_list_Z shares = 100 ->
  let bases := base_share t <$> shares in
  exists l, hand_out (Z.to_nat (t - sum_list_Z bases))
              (SliceStable less_allocation (remainders_from t 0 shares)) bases = Some l
    /\ Forall2 (within_quota t) shares l /\ sum_list_Z l = t.
Proof.
  intros Ht Hok Hsum. cbv zeta. set (bases := base_share t <$> shares).
  set (rs := remainders_from t 0 shares). set (sorted := SliceStable less_allocation rs).
  pose proof (SliceStable_perm less_allocation rs) as Hperm. fold sorted in Hperm.
  pose proof (left_over t 0 shares Ht Hok) as Hleft. cbv zeta in Hleft. fold rs bases in Hleft.
  rewrite Hsum, <- Hperm in Hleft. set (n := Z.to_nat (t - sum_list_Z bases)).
  assert (Hn : (n <= length (filter (fun a => fractional a = true) sorted))%nat) by lia.
  pose proof (length_filter (fun a => fractional a = true) sorted) as Hfl.
  assert (Hnd : NoDup (al_index <$> sorted)).
  { rewrite Hperm. unfold rs. rewrite remainders_index. apply NoDup_seq. }
  destruct (hand_out_spec n sorted bases) as (l & Hl & Hlen & Hval); [lia|done|].
  exists l. split; [done|]. split.
  - apply Forall2_same_length_lookup. unfold bases in Hlen. rewrite length_fmap in Hlen.
    split; [done|]. intros i p s Hp Hs.
    assert (Hb : bases !! i = Some (base_share t p)) by (unfold bases; by rewrite list_lookup_fmap, Hp).
    rewrite (Hval i _ Hb) in Hs. assert (Hpo : share_ok p) by (by eapply Forall_lookup_1).
    rewrite base_share_eq in Hs by done. unfold within_quota.
    case_decide as Hi; simplify_eq; [right|by left]. split; [|lia].
    eapply taken_fractional; done.
  - erewrite hand_out_sum; [|..|exact Hl]; [unfold n; lia|].
    rewrite Hperm. apply Forall_forall. intros a Ha.
    assert (al_index a ∈ seq 0 (length shares)) as Hin
      by (rewrite <- (remainders_index t); by apply list_elem_of_fmap_2).
    unfold bases. rewrite length_fmap. apply elem_of_seq in Hin. lia.
Qed.

Lemma PlanBudget_spec t jobType domains :
  0 < t < total_bound ->
  exists plan, PlanBudget t jobType domains = Some plan
    /\ sum_list_Z (sections plan) = t
    /\ Forall2 (within_quota t) (percents (budgetProfileFor jobType domains)) (sections plan).
Proof.
  intros Ht. destruct (profile_whole jobType domains) as (Hok & Hlen & Hsum).
  destruct (hand_out_quota t _ Ht Hok Hsum) as (l & Hl & Hq & Hs).
  unfold PlanBudget. rewrite decide_False by lia. rewrite Hl. cbn [mbind option_bind].
  pose proof (Forall2_length _ _ _ Hq) as Hll. rewrite Hlen in Hll.
  destruct l as [|a [|b [|c [|d [|e [|]]]]]]; try done. eexists. by split.
Qed.

(** C18: [PlanBudget] hands out every token of the input budget and no more,
    and gives each section its percentage rounded down or up, for every class
    of job and every budget below 2^46 tokens: rounding in [float64] neither
    loses a token nor makes the loop over the remainders run out of sections. *)
Theorem budget_plan_exact t jobType domains :
  0 < t < total_bound ->
  exists plan, PlanBudget t jobType domains = Some plan
    /\ sum_list_Z (sections plan) = t
    /\ Forall2 (within_quota t) (percents (budgetProfileFor jobType domains)) (sections plan).
Proof. apply PlanBudget_spec. Qed.
End Exact.

Lemma budget_plan_exact_witness :
  0 < 96001 < total_bound
  /\ exists plan, PlanBudget (U := ascii_unicode) 96001 "Debug " [] = Some plan
       /\ sum_list_Z (sections plan) = 96001
       /\ Forall2 (within_quota 96001) [8; 10; 15; 60; 7] (sections plan).
Proof. split; [done|]. apply (budget_plan_exact (U := ascii_unicode) 96001 "Debug " []). done. Defined.
