(* ===== verification/ContextMessages.v ===== *)
(** * Messages of the context engine

    [contextengine/types.go] (messages), and of the sliding-window engine what
    chooses the messages of a model call: [selectMessages],
    [trimMessagesToBudget] with the importance of messages, and
    [repairOrphanedToolCalls] with [composeMessages]
    ([engine_prompt.go], [engine_budgeting.go]). *)
From S2P Require Import Prelude GoLib GoText GoFloat.
From Stdlib Require Import Floats.SpecFloat.
Import Str Text GoTime.

Local Open Scope Z_scope.

(** ** Dynamic values of message metadata *)

(** The dynamic types that the engine tells apart; [VOther] stands for every
    other one. *)
Inductive Value :=
  | VNil
  | VString (s : string)
  | VFloat64 (f : float64)
  | VFloat32 (f : float64)     (* the value, which is exact as a [float64] *)
  | VInt (z : Z)
  | VInt64 (z : Z)
  | VStrings (l : list string)
  | VSlice (l : list Value)
  | VMap (m : list (string * Value))
  | VOther (tag : nat).

(** A [map[string]any]; the first entry of a key is its value. *)
Abbreviation Metadata := (list (string * Value)).

Fixpoint meta_get (m : Metadata) (key : string) : option Value :=
  match m with
  | [] => None
  | (k, v) :: rest => if decide (k = key) then Some v else meta_get rest key
  end.

(** [strconv.ParseFloat(s, 64)] and [strings.ToUpper]. *)
Class GoNumberText := { ParseFloat : string -> option float64; ToUpper : string -> string }.

(** ** Data *)

Definition RoleSystem : string := "system".
Definition RoleUser : string := "user".
Definition RoleAssistant : string := "assistant".
Definition RoleTool : string := "tool".
Definition MetadataKeyMessageImportance : string := "message_importance".

Definition ContentBlockText : string := "text".
Definition ContentBlockImage : string := "image".

Record ContentBlock := mkContentBlock {
  CB_Type : string; CB_Text : string; CB_Label : string; CB_Path : string;
  CB_MediaType : string; CB_Data : string; CB_MediaRef : string; CB_SourceURL : string }.

Record ToolCallRef := mkToolCallRef { TC_ID : string; TC_Name : string; TC_Arguments : string }.

Record Message := mkMessage {
  M_Role : string;
  M_Content : string;
  M_ContentBlocks : list ContentBlock;
  M_Name : string;
  M_ToolCallID : string;
  M_ToolCalls : list ToolCallRef;
  M_CreatedAt : Time;
  M_Metadata : Metadata }.

Definition HasImageContent (m : Message) : bool :=
  existsb (fun b => bool_decide (CB_Type b = ContentBlockImage)) (M_ContentBlocks m).

Definition TextContent (m : Message) : string :=
  match M_ContentBlocks m with
  | [] => M_Content m
  | blocks =>
    Joins (CB_Text <$> filter (fun b => CB_Type b = ContentBlockText /\ CB_Text b <> "") blocks) ""
  end.

Definition NewTextMessage (role text : string) (now : Time) : Message :=
  mkMessage role text [] "" "" [] now [].

Definition NewImageMessage (role text mediaType base64Data : string) (now : Time) : Message :=
  let blocks := (if decide (text = "") then []
                 else [mkContentBlock ContentBlockText text "" "" "" "" "" ""])
                ++ [mkContentBlock ContentBlockImage "" "" "" mediaType base64Data "" ""] in
  mkMessage role text blocks "" "" [] now [].

(** [TokenEstimator]: how many tokens a text or a list of messages takes. *)
Class TokenEstimator := {
  Estimate : string -> Z;
  EstimateMessages : list Message -> Z
}.

(** ** Selecting messages *)

(** [selectMessages], for the counts of the configuration. *)
Definition selectMessages (KeepFirstN KeepLastN : nat) (messages : list Message) : list Message :=
  let totalKeep := (KeepFirstN + KeepLastN)%nat in
  if decide (length messages = 0 \/ totalKeep = 0 \/ length messages <= totalKeep)%nat then messages
  else
    let start := Nat.max KeepFirstN (length messages - KeepLastN) in
    take KeepFirstN messages ++ drop start messages.

Fixpoint latest_user (rev_messages : list Message) : string :=
  match rev_messages with
  | [] => ""
  | m :: rest =>
    if decide (M_Role m = RoleUser) then
      let content := TrimSpace (TextContent m) in
      if decide (content = "") then latest_user rest else content
    else latest_user rest
  end.

Definition extractLatestUserMessage (messages : list Message) : string := latest_user (rev messages).

(** ** The importance of a message *)

Definition clampMessageImportanceAdjustment (value : float64) : float64 :=
  if fltb (lit 25 100) value then lit 25 100
  else if fltb value (lit (-25) 100) then lit (-25) 100
  else value.

Section Importance.
Context {N : GoNumberText}.

Definition messageImportanceAdjustment (m : Message) : float64 :=
  match meta_get (M_Metadata m) MetadataKeyMessageImportance with
  | Some (VFloat64 f) | Some (VFloat32 f) => clampMessageImportanceAdjustment f
  | Some (VInt z) | Some (VInt64 z) => clampMessageImportanceAdjustment (of_int z)
  | Some (VString s) =>
    match ParseFloat (TrimSpace s) with
    | Some f => clampMessageImportanceAdjustment f
    | None => of_int 0
    end
  | _ => of_int 0
  end.

Definition failure_words : list string :=
  ["ERROR"; "FAIL"; "EXCEPTION"; "PANIC"; "DENIED"; "TIMEOUT"; "REFUSED"; "NOT FOUND"; "FATAL"].

Definition messageImportance (m : Message) (idx total : nat) : float64 :=
  let score := of_int 0 in
  let score := if decide (1 < total)%nat
               then fadd score (fmul (fdiv (of_int (Z.of_nat idx)) (of_int (Z.of_nat total - 1))) (lit 1 2))
               else score in
  let score := if decide (M_Role m = RoleUser) then fadd score (lit 35 100)
               else if decide (M_Role m = RoleAssistant) then fadd score (lit 25 100)
               else if decide (M_Role m = RoleTool) then fadd score (lit 5 100)
               else score in
  let upper := ToUpper (TextContent m) in
  let score := fadd score (messageImportanceAdjustment m) in
  if decide (M_Role m = RoleTool) then
    if existsb (Contains upper) failure_words then fadd score (lit 15 100) else score
  else score.

(** ** Trimming to a budget *)

(** The scan for the least important message: [i] is the index of the head of
    the list, [best] the index and score found so far. *)
Fixpoint scan_least (total i : nat) (best : nat * float64) (l : list Message) : nat * float64 :=
  match l with
  | [] => best
  | m :: rest =>
    let s := messageImportance m i total in
    scan_least total (S i) (if fltb s best.2 then (i, s) else best) rest
  end.

(** The index of the message to drop. *)
Definition drop_index (KeepFirstN : nat) (messages : list Message) : nat :=
  let total := length messages in
  let d := if decide (total <= KeepFirstN)%nat then 0%nat else KeepFirstN in
  match drop d messages with
  | [] => d
  | m :: rest => (scan_least total (S d) (d, messageImportance m d total) rest).1
  end.

Context {E : TokenEstimator}.

Definition request_tokens (systemPrompt summary : string) (messages : list Message) : Z :=
  Estimate systemPrompt + (if decide (summary = "") then 0 else Estimate summary)
  + EstimateMessages messages.

(** The loop of [trimMessagesToBudget]; every round that goes on drops one
    message, so the number of messages is enough fuel. *)
Fixpoint trim_loop (fuel KeepFirstN : nat) (systemPrompt summary : string) (messages : list Message)
    (maxInput : Z) : list Message :=
  match fuel, messages with
  | S fuel', _ :: _ =>
    if decide (request_tokens systemPrompt summary messages <= maxInput) then messages
    else trim_loop fuel' KeepFirstN systemPrompt summary
           (delete (drop_index KeepFirstN messages) messages) maxInput
  | _, _ => messages
  end.

Definition trimMessagesToBudget (KeepFirstN : nat) (systemPrompt summary : string)
    (messages : list Message) (maxInput : Z) : list Message :=
  trim_loop (length messages) KeepFirstN systemPrompt summary messages maxInput.

(** *** Which message is dropped *)

Lemma scan_least_spec total l i best :
  let r := scan_least total i best l in
  (r = best \/ exists j m, l !! j = Some m /\ r = ((i + j)%nat, messageImportance m (i + j) total))
  /\ (r.2 = best.2 \/ fltb r.2 best.2 = true)
  /\ forall j m, l !! j = Some m -> fltb (messageImportance m (i + j) total) r.2 = false.
Proof.
  revert i best. induction l as [|m l IH]; intros i best; cbn [scan_least]; cbv zeta.
  { split; [by left|]. split; [by left|]. intros j m Hj. done. }
  set (s := messageImportance m i total).
  remember (if fltb s best.2 then (i, s) else best) as best' eqn:Hb'.
  destruct (IH (S i) best') as (Hwhere & Hle & Hmin).
  assert (Hdown : forall x, fltb x best'.2 = false ->
            fltb x (scan_least total (S i) best' l).2 = false).
  { intros x Hx. destruct Hle as [->|Hle]; [done|]. by eapply fltb_drop. }
  split; [|split].
  - destruct Hwhere as [->|(j & m' & Hj & ->)].
    + destruct (fltb s best.2); [right; exists 0%nat, m|by left]. subst best'.
      by rewrite Nat.add_0_r.
    + right. exists (S j), m'. by rewrite Nat.add_succ_r.
  - destruct (fltb s best.2) eqn:Es; subst best'; [right|done]. cbn [snd] in Hle |- *.
    destruct Hle as [Hle|Hle]; [by rewrite Hle|].
    apply not_false_is_true. intros Eb.
    rewrite (fltb_drop _ _ _ Eb Es) in Hle. done.
  - intros [|j] m' Hj; cbn in Hj; [injection Hj as <-|].
    + rewrite Nat.add_0_r. apply Hdown. fold s. subst best'.
      destruct (fltb s best.2) eqn:Es; [apply fltb_irrefl|done].
    + replace (i + S j)%nat with (S i + j)%nat by lia. by apply Hmin.
Qed.

(** The dropped message is one that may be dropped, and none of those is less
    important. *)
Lemma drop_index_least KeepFirstN messages :
  messages <> [] ->
  let total := length messages in
  let d := drop_index KeepFirstN messages in
  let first := if decide (total <= KeepFirstN)%nat then 0%nat else KeepFirstN in
  (first <= d < total)%nat
  /\ forall m j m', messages !! d = Some m -> (first <= j)%nat -> messages !! j = Some m' ->
       fltb (messageImportance m' j total) (messageImportance m d total) = false.
Proof.
  intros Hne. cbv zeta. unfold drop_index. set (total := length messages).
  set (first := if decide _ then _ else _).
  assert (Hf : (first < total)%nat).
  { assert (total <> 0)%nat by (unfold total; by destruct messages). unfold first. case_decide; lia. }
  destruct (drop first messages) as [|m0 rest] eqn:Hdrop.
  { apply (f_equal length) in Hdrop. rewrite length_drop in Hdrop. fold total in Hdrop. simpl in Hdrop. lia. }
  assert (Hat : forall j, messages !! (first + j)%nat = (m0 :: rest) !! j)
    by (intros; by rewrite <- Hdrop, lookup_drop).
  destruct (scan_least_spec total rest (S first) (first, messageImportance m0 first total))
    as (Hwhere & Hle & Hmin).
  set (r := scan_least _ _ _ _) in *. cbn [fst snd] in *.
  assert (Hr : exists j m, (m0 :: rest) !! j = Some m
                 /\ r = ((first + j)%nat, messageImportance m (first + j) total)).
  { destruct Hwhere as [->|(j & m & Hj & ->)]; [exists 0%nat, m0|exists (S j), m].
    - by rewrite Nat.add_0_r.
    - by rewrite Nat.add_succ_r. }
  destruct Hr as (j & m & Hj & Er). rewrite Er in Hmin, Hle |- *. cbn [fst snd] in *. split.
  - split; [lia|]. rewrite <- Hat in Hj. by apply lookup_lt_Some in Hj.
  - intros m1 k mk Hm1 Hk Hmk. rewrite Hat in Hm1. simplify_eq.
    replace k with (first + (k - first))%nat in Hmk |- * by lia. rewrite Hat in Hmk.
    destruct (k - first)%nat as [|k'] eqn:Ek; cbn in Hmk; simplify_eq.
    + rewrite Nat.add_0_r. destruct Hle as [->|Hle]; [apply fltb_irrefl|].
      by eapply fltb_drop; [apply fltb_irrefl|].
    + rewrite Nat.add_succ_r. by apply Hmin.
Qed.

(** *** What trimming leaves *)

Lemma take_delete_ge {A} n i (l : list A) : (n <= i)%nat -> take n (delete i l) = take n l.
Proof.
  revert i l. induction n as [|n IH]; intros i l Hi; [done|].
  destruct i as [|i]; [lia|]. destruct l as [|x l]; [done|]. cbn. rewrite <- (IH i l) by lia. done.
Qed.

Definition fits (systemPrompt summary : string) (maxInput : Z) (l : list Message) : Prop :=
  request_tokens systemPrompt summary l <= maxInput.

Lemma trim_loop_spec fuel K sys summary max msgs :
  (length msgs <= fuel)%nat ->
  let r := trim_loop fuel K sys summary msgs max in
  (r = [] \/ fits sys summary max r)
  /\ r `sublist_of` msgs
  /\ ((K <= length r)%nat -> take K r = take K msgs)
  /\ (r = msgs \/ exists l i, l `sublist_of` msgs /\ (i < length l)%nat
        /\ r = delete i l /\ ~ fits sys summary max l).
Proof.
  unfold fits. revert msgs. induction fuel as [|fuel IH]; intros msgs Hlen; cbv zeta.
  { destruct msgs; [|simpl in Hlen; lia]. by auto. }
  destruct msgs as [|m msgs]; [by auto|]. cbn [trim_loop]. case_decide as Hfit; [by auto|].
  set (l := m :: msgs) in *. destruct (drop_index_least K l ltac:(done)) as [Hd _].
  set (d := drop_index K l) in *. 
  pose proof (length_delete l d (proj2 (lookup_lt_is_Some l d) (proj2 Hd))) as Hdel.
  destruct (IH (delete d l)) as (Hfits & Hsub & Hkeep & Hlast); [lia|].
  assert (Hsub' : delete d l `sublist_of` l) by apply sublist_delete.
  split; [done|]. split; [by etrans|]. split.
  - intros HK. rewrite Hkeep by done. apply take_delete_ge.
    apply sublist_length in Hsub. case_decide; lia.
  - right. destruct Hlast as [->|(l' & i & Hl' & Hi & Hr & Hn)].
    + exists l, d. repeat split; [done|lia|done].
    + exists l', i. split; [by etrans|done].
Qed.
End Importance.

Section TrimTheorem.
Context {N : GoNumberText} {E : TokenEstimator}.

(** [trimMessagesToBudget] returns messages whose estimate, with the system
    prompt and the summary, is within the budget, or no messages when nothing
    fits; it keeps the order, keeps the first [KeepFirstN] messages as long as
    that many are left, drops nothing from messages that fit already, and what
    it returns is one message short of a list that did not fit. *)
Theorem trim_messages_fit K sys summary msgs max :
  let r := trimMessagesToBudget K sys summary msgs max in
  (r = [] \/ fits sys summary max r)
  /\ r `sublist_of` msgs
  /\ ((K <= length r)%nat -> take K r = take K msgs)
  /\ (r = msgs \/ exists l i, l `sublist_of` msgs /\ (i < length l)%nat
        /\ r = delete i l /\ ~ fits sys summary max l).
Proof. apply trim_loop_spec. lia. Qed.

(** in every round the message that [trimMessagesToBudget] drops is the
    least important one: no message that may be dropped scores lower, also when
    scores are NaN. *)
Theorem least_important_dropped K msgs m :
  let d := drop_index K msgs in
  msgs !! d = Some m ->
  forall j m', msgs !! j = Some m' -> (length msgs <= K \/ K <= j)%nat ->
    fltb (messageImportance m' j (length msgs)) (messageImportance m d (length msgs)) = false.
Proof.
  cbv zeta. intros Hm j m' Hj HK. destruct (drop_index_least K msgs) as [_ Hleast]; [by intros ->|].
  apply (Hleast m j m'); [done| |done]. case_decide; lia.
Qed.
End TrimTheorem.

(** ** Repairing tool calls *)

Definition maxSyntheticToolResponses : nat := 20.

(** The IDs of the tool calls that assistant messages make. *)
Definition calledIDs (messages : list Message) : gset string :=
  foldl (fun ids m => if decide (M_Role m = RoleAssistant)
                      then foldl (fun s tc => {[ TC_ID tc ]} ∪ s) ids (M_ToolCalls m) else ids)
        ∅ messages.

(** A reply whose call is not among the messages. *)
Definition orphan (ids : gset string) (m : Message) : Prop :=
  M_Role m = RoleTool /\ M_ToolCallID m <> "" /\ M_ToolCallID m ∉ ids.

Definition cleaned (messages : list Message) : list Message :=
  filter (fun m => ~ orphan (calledIDs messages) m) messages.

Definition respondedIDs (messages : list Message) : gset string :=
  foldl (fun s m => if decide (M_Role m = RoleTool /\ M_ToolCallID m <> "")
                    then {[ M_ToolCallID m ]} ∪ s else s)
        ∅ messages.

Definition is_reply (id : string) (m : Message) : bool :=
  bool_decide (M_Role m = RoleTool /\ M_ToolCallID m = id).

Definition syntheticReply (m : Message) (tc : ToolCallRef) : Message :=
  mkMessage RoleTool "[pending: tool call awaiting approval or execution]" [] (TC_Name tc) (TC_ID tc)
            [] (M_CreatedAt m) [].

(** The loop over the tool calls of one assistant message; [rest] are the
    messages after it. *)
Fixpoint answer_calls (m : Message) (rest : list Message) (calls : list ToolCallRef)
    (responded : gset string) (count : nat) : list Message * gset string * nat :=
  match calls with
  | [] => ([], responded, count)
  | tc :: calls' =>
    if decide (TC_ID tc ∈ responded) then answer_calls m rest calls' responded count
    else if existsb (is_reply (TC_ID tc)) rest || bool_decide (maxSyntheticToolResponses <= count)%nat
    then answer_calls m rest calls' responded count
    else
      let '(out, r, c) := answer_calls m rest calls' ({[ TC_ID tc ]} ∪ responded) (S count) in
      (syntheticReply m tc :: out, r, c)
  end.

Fixpoint repair_loop (l : list Message) (responded : gset string) (count : nat) : list Message :=
  match l with
  | [] => []
  | m :: rest =>
    if decide (M_Role m = RoleAssistant /\ M_ToolCalls m <> []) then
      let '(out, r, c) := answer_calls m rest (M_ToolCalls m) responded count in
      m :: out ++ repair_loop rest r c
    else m :: repair_loop rest responded count
  end.

Definition repairOrphanedToolCalls (messages : list Message) : list Message :=
  let c := cleaned messages in repair_loop c (respondedIDs c) 0.

Definition composeMessages (summary : string) (selected : list Message) (now : Time) : list Message :=
  let head := if decide (TrimSpace summary = "") then []
              else [mkMessage RoleSystem (TrimSpace summary) [] "session-summary" "" [] now []] in
  repairOrphanedToolCalls (head ++ selected).

(** *** The sets of IDs *)

Definition calls_id (id : string) (m : Message) : Prop :=
  M_Role m = RoleAssistant /\ id ∈ TC_ID <$> M_ToolCalls m.

Definition answered (out : list Message) (id : string) : Prop := existsb (is_reply id) out = true.

Lemma answered_elem out id :
  answered out id <-> exists m, m ∈ out /\ M_Role m = RoleTool /\ M_ToolCallID m = id.
Proof.
  unfold answered, is_reply. rewrite existsb_exists. setoid_rewrite <- list_elem_of_In.
  setoid_rewrite bool_decide_eq_true. naive_solver.
Qed.

Lemma answered_mono l k id : l ⊆ k -> answered l id -> answered k id.
Proof. intros Hs. rewrite !answered_elem. set_solver. Qed.

Lemma foldl_set {A} (f : A -> gset string) (l : list A) (s : gset string) x :
  x ∈ foldl (fun s a => f a ∪ s) s l <-> x ∈ s \/ exists a, a ∈ l /\ x ∈ f a.
Proof.
  revert s. induction l as [|a l IH]; intros s; cbn [foldl]; [set_solver|].
  rewrite IH. set_solver.
Qed.

Lemma calledIDs_spec ms id : id ∈ calledIDs ms <-> exists m, m ∈ ms /\ calls_id id m.
Proof.
  unfold calledIDs, calls_id.
  set (f m := if decide (M_Role m = RoleAssistant)
              then list_to_set (TC_ID <$> M_ToolCalls m) : gset string else ∅).
  transitivity (id ∈ foldl (fun s m => f m ∪ s) ∅ ms).
  - generalize (∅ : gset string) at 1 2. induction ms as [|m ms IH]; intros s; cbn [foldl]; [done|].
    rewrite <- IH. match goal with |- _ ∈ foldl _ ?a _ <-> _ ∈ foldl _ ?b _ => assert (a = b) as -> end; [|done].
    unfold f. case_decide; [|set_solver]. apply leibniz_equiv. intros x.
    rewrite (foldl_set (fun tc => {[TC_ID tc]})). set_solver.
  - rewrite foldl_set. unfold f. split; [intros [|(m & Hm & Hx)]; [set_solver|]|].
    + case_decide; set_solver.
    + intros (m & Hm & Hr & Hx). right. exists m. rewrite decide_True by done. set_solver.
Qed.

Lemma respondedIDs_spec ms id :
  id ∈ respondedIDs ms <-> exists m, m ∈ ms /\ M_Role m = RoleTool /\ M_ToolCallID m = id /\ id <> "".
Proof.
  unfold respondedIDs.
  set (f m := if decide (M_Role m = RoleTool /\ M_ToolCallID m <> "")
              then {[ M_ToolCallID m ]} : gset string else ∅).
  transitivity (id ∈ foldl (fun s m => f m ∪ s) ∅ ms).
  - generalize (∅ : gset string) at 1 2. induction ms as [|m ms IH]; intros s; cbn [foldl]; [done|].
    rewrite <- IH. unfold f. case_decide; [done|]. by rewrite (left_id_L ∅ (∪) s).
  - rewrite foldl_set. unfold f. split; [intros [|(m & Hm & Hx)]; [set_solver|]|].
    + case_decide; set_solver.
    + intros (m & Hm & Hr & Hx & Hne). right. exists m. rewrite decide_True by (split; [done|]; congruence). set_solver.
Qed.

(** *** The repair loops *)

Lemma answer_calls_spec m rest calls R c out R' c' :
  answer_calls m rest calls R c = (out, R', c') ->
  c' = (c + length out)%nat
  /\ (c' <= Nat.max c maxSyntheticToolResponses)%nat
  /\ R ⊆ R'
  /\ Forall (fun x => M_Role x = RoleTool /\ M_ToolCallID x ∈ TC_ID <$> calls) out
  /\ (forall id, id ∈ R' -> id ∈ R \/ answered out id)
  /\ ((c' < maxSyntheticToolResponses)%nat ->
      forall tc, tc ∈ calls -> TC_ID tc ∈ R' \/ answered rest (TC_ID tc)).
Proof.
  revert R c out R' c'. induction calls as [|tc calls IH]; intros R c out R' c' Ha; cbn in Ha.
  { simplify_eq. repeat split; [simpl; lia|lia|done|constructor|by left|set_solver]. }
  case_decide as Hin; [|destruct (existsb _ _ || _) eqn:Hskip].
  - destruct (IH _ _ _ _ _ Ha) as (? & ? & Hsub & Hf & Hids & Hall). repeat split; [done..| | |].
    + eapply Forall_impl; [exact Hf|]. set_solver.
    + done.
    + intros Hc tc' Htc. apply elem_of_cons in Htc as [->|]; [left; set_solver|auto].
  - destruct (IH _ _ _ _ _ Ha) as (Hc' & ? & Hsub & Hf & Hids & Hall). repeat split; [done..| | |].
    + eapply Forall_impl; [exact Hf|]. set_solver.
    + done.
    + intros Hc tc' Htc. apply elem_of_cons in Htc as [->|]; [|auto]. right.
      apply orb_true_iff in Hskip as [Hskip|Hskip]; [done|]. bool_prop. lia.
  - destruct (answer_calls m rest calls _ _) as [[out0 r0] c0] eqn:Ea. simplify_eq.
    destruct (IH _ _ _ _ _ Ea) as (Hc' & Hmax & Hsub & Hf & Hids & Hall).
    apply orb_false_iff in Hskip as [_ Hskip]. bool_prop. repeat split.
    + simpl. lia.
    + lia.
    + set_solver.
    + constructor; [split; [done|set_solver]|]. eapply Forall_impl; [exact Hf|]. set_solver.
    + intros id Hid. destruct (Hids id Hid) as [Hid'|Hid'].
      * apply elem_of_union in Hid' as [Hid'|]; [right|by left]. apply elem_of_singleton in Hid' as ->.
        apply answered_elem. exists (syntheticReply m tc). split; [by left|done].
      * right. eapply answered_mono; [|exact Hid']. set_solver.
    + intros Hc tc' Htc. apply elem_of_cons in Htc as [->|]; [left; set_solver|auto].
Qed.

(** Replies after a message stay after it, and what is added answers calls. *)
Lemma repair_loop_spec l R c :
  let out := repair_loop l R c in
  l `sublist_of` out
  /\ (length out <= length l + (maxSyntheticToolResponses - c))%nat
  /\ (forall m, m ∈ out -> m ∈ l
        \/ M_Role m = RoleTool /\ exists a, a ∈ l /\ calls_id (M_ToolCallID m) a)
  /\ ((length out < length l + (maxSyntheticToolResponses - c))%nat ->
      forall a id, a ∈ l -> calls_id id a -> id ∈ R \/ answered out id).
Proof.
  revert R c. induction l as [|m rest IH]; intros R c; cbv zeta; cbn [repair_loop].
  { split; [done|]. split; [simpl; lia|]. split; set_solver. }
  case_decide as Ha.
  - destruct (answer_calls m rest (M_ToolCalls m) R c) as [[out r] c'] eqn:Ea.
    destruct (answer_calls_spec _ _ _ _ _ _ _ _ Ea) as (Hc & Hmax & Hsub & Hf & Hids & Hall).
    destruct (IH r c') as (Hs & Hl & Hin & Hans).
    rewrite !length_cons, length_app. split; [|split; [|split]].
    + constructor. by apply sublist_inserts_l.
    + unfold maxSyntheticToolResponses in *. lia.
    + intros x [->|[Hx|Hx]%elem_of_app]%elem_of_cons; [by left; left|right|].
      * rewrite Forall_forall in Hf. destruct (Hf x Hx) as [Hr Hi]. split; [done|].
        exists m. split; [by left|]. by split; [apply Ha|].
      * destruct (Hin x Hx) as [|(Hr & a & Ha' & Hi)]; [left; by right|].
        right. split; [done|]. exists a. split; [by right|done].
    + intros Hlt a id Hain Hcall. pose proof (sublist_length _ _ Hs).
      assert (Hc20 : (c' < maxSyntheticToolResponses)%nat) by (unfold maxSyntheticToolResponses in *; lia).
      assert (Hr : id ∈ r \/ answered rest id \/ answered (repair_loop rest r c') id).
      { apply elem_of_cons in Hain as [->|Hain].
        - destruct Hcall as [_ (tc & -> & Htc)%list_elem_of_fmap]. destruct (Hall Hc20 tc Htc); auto.
        - destruct (Hans ltac:(lia) a id Hain Hcall); auto. }
      destruct Hr as [Hr|[Hr|Hr]].
      * destruct (Hids id Hr) as [|Ho]; [by left|]. right. eapply answered_mono; [|exact Ho]. set_solver.
      * right. eapply answered_mono; [|exact Hr].
        intros x Hx. right. apply elem_of_app. right. by eapply elem_of_sublist.
      * right. eapply answered_mono; [|exact Hr]. set_solver.
  - destruct (IH R c) as (Hs & Hl & Hin & Hans). rewrite !length_cons. split; [by constructor|].
    split; [lia|]. split.
    + intros x [->|Hx]%elem_of_cons; [by left; left|]. destruct (Hin x Hx) as [|(? & a & ? & ?)]; [left; by right|].
      right. split; [done|]. exists a. split; [by right|done].
    + intros Hlt a id Hain Hcall. apply elem_of_cons in Hain as [->|Hain].
      * exfalso. apply Ha. destruct Hcall as [Hr Hid]. split; [done|]. intros E. by rewrite E in Hid; inversion Hid.
      * destruct (Hans ltac:(lia) a id Hain Hcall) as [|Hx]; [by left|]. right.
        eapply answered_mono; [|exact Hx]. set_solver.
Qed.

Lemma answer_calls_id m rest calls R c :
  (forall tc, tc ∈ calls -> TC_ID tc ∈ R) -> answer_calls m rest calls R c = ([], R, c).
Proof.
  induction calls as [|tc calls IH]; intros H; cbn; [done|].
  rewrite decide_True by (apply H; by left). apply IH. intros; apply H. by right.
Qed.

Lemma repair_loop_id l R c :
  (forall a id, a ∈ l -> calls_id id a -> id ∈ R) -> repair_loop l R c = l.
Proof.
  revert R c. induction l as [|m l IH]; intros R c H; cbn; [done|].
  rewrite (IH R c) by (intros; eapply H; [by right|done]). case_decide as Ha; [|done].
  rewrite answer_calls_id; [simpl; by rewrite (IH R c) by (intros; eapply H; [by right|done])|].
  intros tc Htc. apply (H m); [by left|]. split; [apply Ha|by apply list_elem_of_fmap_2].
Qed.

Lemma not_orphan_cleaned ms m : m ∈ ms -> M_Role m <> RoleTool -> m ∈ cleaned ms.
Proof. intros Hm Hr. apply list_elem_of_filter. split; [|done]. intros [? _]. done. Qed.

Lemma calls_id_role id m : calls_id id m -> M_Role m <> RoleTool.
Proof. intros [-> _]. done. Qed.

Lemma repaired_spec ms :
  let out := repairOrphanedToolCalls ms in
  cleaned ms `sublist_of` out
  /\ (length out <= length (cleaned ms) + maxSyntheticToolResponses)%nat
  /\ (forall m, m ∈ out -> M_Role m = RoleTool -> M_ToolCallID m <> "" ->
        exists a, a ∈ out /\ calls_id (M_ToolCallID m) a)
  /\ ((length out < length (cleaned ms) + maxSyntheticToolResponses)%nat ->
      forall a id, a ∈ out -> calls_id id a -> answered out id).
Proof.
  unfold repairOrphanedToolCalls. cbv zeta. set (c := cleaned ms).
  destruct (repair_loop_spec c (respondedIDs c) 0) as (Hs & Hl & Hin & Hans).
  rewrite Nat.sub_0_r in *. split; [done|]. split; [done|].
  assert (Hsub : forall a, a ∈ c -> a ∈ repair_loop c (respondedIDs c) 0)
    by (intros; by eapply elem_of_sublist).
  split.
  - intros m Hm Hr Hid. destruct (Hin m Hm) as [Hc|(_ & a & Ha & Hcall)]; [|eauto].
    apply list_elem_of_filter in Hc as [Hno Hms].
    destruct (decide (M_ToolCallID m ∈ calledIDs ms)) as [Hcalled|Hcalled]; [|by destruct Hno].
    apply calledIDs_spec in Hcalled as (a & Ha & Hcall). exists a. split; [|done].
    apply Hsub, not_orphan_cleaned; [done|by eapply calls_id_role].
  - intros Hlt a id Ha Hcall. destruct (Hin a Ha) as [Hc|[Hr _]];
      [|by destruct (calls_id_role id a)].
    destruct (Hans Hlt a id Hc Hcall) as [Hr|]; [|done].
    apply respondedIDs_spec in Hr as (m & Hm & Hr & Hid & _). apply answered_elem. eauto.
Qed.

(** C19: [repairOrphanedToolCalls] keeps every message but replies without a
    call, in order; afterwards every reply that names a call has that call among
    the messages, at most twenty replies were made up, and if fewer were, then
    every tool call has a reply. *)
Theorem repaired_transcript ms :
  let out := repairOrphanedToolCalls ms in
  cleaned ms `sublist_of` out
  /\ (length out <= length (cleaned ms) + maxSyntheticToolResponses)%nat
  /\ (forall m, m ∈ out -> M_Role m = RoleTool -> M_ToolCallID m <> "" ->
        exists a, a ∈ out /\ calls_id (M_ToolCallID m) a)
  /\ ((length out < length (cleaned ms) + maxSyntheticToolResponses)%nat ->
      forall a id, a ∈ out -> calls_id id a -> answered out id).
Proof. apply repaired_spec. Qed.

(** repairing is idempotent: with fewer than twenty made-up replies and
    nonempty call IDs, a repaired transcript needs no further repair. *)
Theorem repair_idempotent ms :
  let out := repairOrphanedToolCalls ms in
  (length out < length (cleaned ms) + maxSyntheticToolResponses)%nat ->
  (forall a, a ∈ ms -> ~ calls_id "" a) ->
  repairOrphanedToolCalls out = out.
Proof.
  cbv zeta. intros Hlt Hids.
  destruct (repaired_spec ms) as (_ & _ & Hcalled & Hans). specialize (Hans Hlt).
  set (out := repairOrphanedToolCalls ms) in *.
  assert (Hclean : cleaned out = out).
  { apply list_filter_id. intros m Hm (Hr & Hid & Hno). apply Hno, calledIDs_spec. by apply Hcalled. }
  unfold repairOrphanedToolCalls at 1. cbv zeta. rewrite Hclean. apply repair_loop_id.
  intros a id Ha Hcall. apply respondedIDs_spec.
  destruct (proj1 (answered_elem out id) (Hans a id Ha Hcall)) as (m & Hm & Hr & Hi).
  exists m. repeat split; [done..|]. intros ->.
  destruct (repair_loop_spec (cleaned ms) (respondedIDs (cleaned ms)) 0) as (_ & _ & Hin & _).
  destruct (Hin a Ha) as [Hc|[Hra _]]; [|by destruct (calls_id_role "" a)].
  apply list_elem_of_filter in Hc as [_ Hms]. by apply (Hids a).
Qed.

Definition sample_call : Message :=
  mkMessage RoleAssistant "" [] "" "" [mkToolCallRef "c1" "exec" "{}"; mkToolCallRef "c2" "read" "{}"] 5 [].

Definition sample_reply (id : string) : Message := mkMessage RoleTool "ok" [] "exec" id [] 6 [].

Definition sample_transcript : list Message :=
  [sample_reply "c0"; sample_call; sample_reply "c1"].

Lemma repair_idempotent_witness :
  repairOrphanedToolCalls sample_transcript
    = [sample_call; syntheticReply sample_call (mkToolCallRef "c2" "read" "{}"); sample_reply "c1"]
  /\ repairOrphanedToolCalls (repairOrphanedToolCalls sample_transcript)
     = repairOrphanedToolCalls sample_transcript.
Proof.
  split; [vm_compute; reflexivity|]. apply (repair_idempotent sample_transcript).
  - vm_compute. lia.
  - intros a [->|[->|[->|H]%elem_of_cons]%elem_of_cons]%elem_of_cons; [..|by inversion H];
      intros [Hr Hid]; try done. vm_compute in Hid. by repeat (apply elem_of_cons in Hid as [?|Hid]; [done|]); inversion Hid.
Defined.

(** ** The window *)

(** [selectMessages] keeps the first and the last messages and leaves out what
    is between them. *)
Lemma select_window F L ms :
  let r := selectMessages F L ms in
  r = ms \/ (F + L < length ms)%nat /\ length r = (F + L)%nat
    /\ r = take F ms ++ drop (length ms - L) ms.
Proof.
  unfold selectMessages. cbv zeta. case_decide as H; [by left|right].
  split; [lia|]. rewrite length_app, length_take, length_drop.
  replace (Nat.max F (length ms - L)) with (length ms - L)%nat by lia. split; [lia|done].
Qed.

Lemma select_sublist F L ms : selectMessages F L ms `sublist_of` ms.
Proof.
  destruct (select_window F L ms) as [->|(Hl & _ & ->)]; [done|].
  transitivity (take F ms ++ drop F ms); [|by rewrite take_drop]. apply sublist_app; [done|].
  replace (length ms - L)%nat with (F + (length ms - L - F))%nat by lia.
  rewrite <- drop_drop. apply sublist_drop.
Qed.
