(* ===== verification/ContextEstimate.v ===== *)
(** * Token estimates ([contextengine/estimator.go])

    The estimator that divides the length of a text by a number of bytes per
    token, in [float64] arithmetic, with a safety margin and a tighter ratio for
    texts in Chinese, Japanese or Korean.  Counts of tokens are not wrapped at
    64 bits: they are below the size of the texts in memory. *)
From S2P Require Import Prelude GoLib GoText GoFloat ContextMessages.
From Stdlib Require Import Ascii Floats.SpecFloat.
Import Str Text.

Local Open Scope Z_scope.

(** ** [utf8.DecodeRuneInString] *)

Definition RuneError : Z := 65533.

Definition byte_val (a : ascii) : Z := Z.of_nat (nat_of_ascii a).

Definition tail_bits (a : ascii) : Z := byte_val a - 128.

(** The first code point of a text and its size; an invalid encoding is one
    byte of [RuneError]. *)
Definition DecodeRune (l : bytes) : Z * nat :=
  match l with
  | [] => (RuneError, 0%nat)
  | a :: rest =>
    let cont n := match rest !! n with Some b => byte_in 128 191 b | None => false end in
    let bits n := match rest !! n with Some b => tail_bits b | None => 0 end in
    let second lo hi := match rest with b :: _ => byte_in lo hi b | [] => false end in
    if byte_in 0 127 a then (byte_val a, 1%nat)
    else if byte_in 194 223 a && cont 0%nat then ((byte_val a - 192) * 64 + bits 0%nat, 2%nat)
    else if ((byte_is 224 a && second 160%nat 191%nat) || ((byte_in 225 236 a || byte_in 238 239 a) && second 128%nat 191%nat)
             || (byte_is 237 a && second 128%nat 159%nat)) && cont 1%nat
    then ((byte_val a - 224) * 4096 + bits 0%nat * 64 + bits 1%nat, 3%nat)
    else if ((byte_is 240 a && second 144%nat 191%nat) || (byte_in 241 243 a && second 128%nat 191%nat)
             || (byte_is 244 a && second 128%nat 143%nat)) && cont 1%nat && cont 2%nat
    then ((byte_val a - 240) * 262144 + bits 0%nat * 4096 + bits 1%nat * 64 + bits 2%nat, 4%nat)
    else (RuneError, 1%nat)
  end.

(** ** Dense scripts *)

Definition isCJKRune (r : Z) : bool :=
  bool_decide (0x4E00 <= r <= 0x9FFF) || bool_decide (0x3400 <= r <= 0x4DBF)
  || bool_decide (0xF900 <= r <= 0xFAFF) || bool_decide (0x3000 <= r <= 0x303F)
  || bool_decide (0xFF00 <= r <= 0xFFEF) || bool_decide (0xAC00 <= r <= 0xD7AF).

(** The sample of at most [n] code points: how many there are and how many of
    them are dense. *)
Fixpoint sample_runes (n : nat) (l : bytes) : Z * Z :=
  match n, l with
  | S n', _ :: _ =>
    let '(r, size) := DecodeRune l in
    let '(total, cjk) := sample_runes n' (drop size l) in
    (total + 1, if isCJKRune r then cjk + 1 else cjk)
  | _, _ => (0, 0)
  end.

Definition cjkThreshold : float64 := lit 3 10.
Definition cjkDensityRatio : float64 := lit 25 10.
Definition defaultCharsPerToken : float64 := of_int 4.
Definition defaultEmptyMessageOverhead : Z := 4.
Definition safetyMargin : float64 := lit 12 10.

Definition isCJKHeavy (text : string) : bool :=
  if decide (text = "") then false
  else let '(total, cjk) := sample_runes 200 (String.list_ascii_of_string text) in
       fleb cjkThreshold (fdiv (of_int cjk) (of_int total)).

(** ** [CharRatioEstimator] *)

Record CharRatioEstimator := mkCharRatio {
  CharsPerToken : float64; ToolCharsPerToken : float64;
  EmptyMessageOverhead : Z; SafetyMargin : float64 }.

Definition safetyFactor (e : CharRatioEstimator) : float64 :=
  if fltb (of_int 0) (SafetyMargin e) then SafetyMargin e else safetyMargin.

Definition ratioForText (e : CharRatioEstimator) (text : string) (isTool : bool) : float64 :=
  let ratio := if fleb (CharsPerToken e) (of_int 0) then defaultCharsPerToken else CharsPerToken e in
  let ratio := if isTool && fltb (of_int 0) (ToolCharsPerToken e) then ToolCharsPerToken e else ratio in
  if isCJKHeavy text && fltb cjkDensityRatio ratio then cjkDensityRatio else ratio.

(** The tokens of a text at a ratio, at least one. *)
Definition ratio_tokens (e : CharRatioEstimator) (text : string) (ratio : float64) : Z :=
  let raw := fceil (fdiv (of_int (Z.of_nat (String.length text))) ratio) in
  Z.max 1 (to_int (fceil (fmul raw (safetyFactor e)))).

Definition CharRatio_Estimate (e : CharRatioEstimator) (text : string) : Z :=
  if decide (text = "") then 0 else ratio_tokens e text (ratioForText e text false).

Definition message_overhead (e : CharRatioEstimator) : Z :=
  if decide (EmptyMessageOverhead e <= 0) then defaultEmptyMessageOverhead else EmptyMessageOverhead e.

Definition message_tokens (e : CharRatioEstimator) (m : Message) : Z :=
  let content := TextContent m in
  ratio_tokens e content (ratioForText e content (bool_decide (M_Role m = RoleTool))) + message_overhead e.

Definition CharRatio_EstimateMessages (e : CharRatioEstimator) (msgs : list Message) : Z :=
  foldl (fun total m => total + message_tokens e m) 0 msgs.

Definition charRatio (e : CharRatioEstimator) : TokenEstimator :=
  {| Estimate := CharRatio_Estimate e; EstimateMessages := CharRatio_EstimateMessages e |}.

(** The estimator of [NewSlidingWindowEngine] when none is configured. *)
Definition defaultEstimator : CharRatioEstimator := mkCharRatio (of_int 4) (of_int 2) 4 (of_int 0).

(** ** What an estimate promises *)

Lemma message_tokens_pos e m : 1 + 1 <= message_tokens e m.
Proof.
  unfold message_tokens, ratio_tokens, message_overhead, defaultEmptyMessageOverhead.
  cbv zeta. case_decide; lia.
Qed.

Lemma estimate_messages_app e l k :
  CharRatio_EstimateMessages e (l ++ k) = CharRatio_EstimateMessages e l + CharRatio_EstimateMessages e k.
Proof.
  unfold CharRatio_EstimateMessages. rewrite foldl_app. generalize (foldl (fun total m => total + message_tokens e m) 0 l) as a.
  assert (H : forall a b, foldl (fun total m => total + message_tokens e m) (a + b) k
                          = a + foldl (fun total m => total + message_tokens e m) b k).
  { induction k as [|m k IH]; intros a b; cbn [foldl]; [done|]. rewrite <- IH. f_equal. lia. }
  intros a. rewrite <- (H a 0). f_equal. lia.
Qed.

(** the estimate of a list of messages is the sum of the estimates of its
    parts and grows by at least two tokens with every message, so that a budget
    bounds the number of messages whatever they contain; with the default
    configuration it grows by at least five. *)
Theorem estimate_counts_messages e :
  (forall l k, CharRatio_EstimateMessages e (l ++ k)
     = CharRatio_EstimateMessages e l + CharRatio_EstimateMessages e k)
  /\ (forall l, 2 * Z.of_nat (length l) <= CharRatio_EstimateMessages e l)
  /\ (forall l, 5 * Z.of_nat (length l) <= CharRatio_EstimateMessages defaultEstimator l)
  /\ forall text, text <> "" -> 0 < CharRatio_Estimate e text.
Proof.
  assert (Hgrow : forall e n, (forall m, n <= message_tokens e m) ->
            forall l, n * Z.of_nat (length l) <= CharRatio_EstimateMessages e l).
  { intros e' n Hn l. induction l as [|m l IH]; [unfold CharRatio_EstimateMessages; simpl; lia|].
    change (m :: l) with ([m] ++ l). rewrite estimate_messages_app, length_app. specialize (Hn m).
    unfold CharRatio_EstimateMessages at 1. cbn [foldl length]. lia. }
  split; [apply estimate_messages_app|]. split; [apply Hgrow; intros m; pose proof (message_tokens_pos e m); lia|].
  split.
  - apply Hgrow. intros m. unfold message_tokens, ratio_tokens.
    change (message_overhead defaultEstimator) with 4. cbv zeta. lia.
  - intros text Ht. unfold CharRatio_Estimate, ratio_tokens. rewrite decide_False by done. cbv zeta. lia.
Qed.
