(* ===== verification/ContextSummary.v ===== *)
(** * Summaries and trimmed texts of the context engine

    The text functions of [contextengine/engine_compaction.go],
    [engine_budgeting.go], [engine_prompt.go], [segment_rollup.go] and
    [summarizer.go]: cutting a text to a limit, joining the summaries of
    successive compactions and rendering a transcript. *)
From S2P Require Import Prelude GoLib GoText ResultModel ContextMessages.
From Stdlib Require Import Ascii.
Import Str Text GoTime.

Local Open Scope string_scope.
Local Open Scope nat_scope.

Definition newline : ascii := ascii_of_nat 10.
Definition nl : string := String newline "".
Definition para : string := String newline nl.

(** [s[n:]] for [n] within the text. *)
Definition str_from (n : nat) (s : string) : string := String.substring n (String.length s - n) s.

Lemma substring_whole t : String.substring 0 (String.length t) t = t.
Proof. induction t as [|b t IH]; [done|]. cbn. by rewrite IH. Qed.

Lemma str_from_app s t : str_from (String.length s) (s +:+ t) = t.
Proof.
  unfold str_from. rewrite string_length_app, Nat.add_comm, Nat.add_sub.
  induction s as [|a s IH]; [apply substring_whole|exact IH].
Qed.

Definition lines (s : string) : list string := SplitByte newline s.

(** [strings.Split(s, "\n\n")]. *)
Fixpoint SplitPara (s : string) : list string :=
  match s with
  | EmptyString => [""]
  | String a rest =>
    let keep := match SplitPara rest with
                | [] => [String a ""]
                | part :: parts => String a part :: parts
                end in
    match rest with
    | String b rest' => if decide (a = newline /\ b = newline) then "" :: SplitPara rest' else keep
    | EmptyString => keep
    end
  end.

Definition itoa (n : nat) : string := decimal (N.of_nat n).

(** ** Cutting *)

Definition softTrimContent (content : string) (maxChars keepLines : nat) : string :=
  if decide (String.length content <= maxChars) then content else
  let cut := TrimSpace (String.substring 0 maxChars content) +:+ nl +:+ "[truncated]" in
  if decide (0 < keepLines) then
    let ls := lines content in
    if decide (keepLines * 2 < length ls) then
      let omitted := length ls - keepLines * 2 in
      let head := Joins (take keepLines ls) nl in
      let tail := Joins (drop (length ls - keepLines) ls) nl in
      let trimmed := head +:+ nl +:+ "... [" +:+ itoa omitted +:+ " lines omitted] ..." +:+ nl +:+ tail in
      if decide (String.length trimmed < String.length content) then trimmed else cut
    else cut
  else cut.

Definition summaryTruncated : string := nl +:+ "...[summary truncated]..." +:+ nl.

Definition trimSummaryChunk (text : string) (maxChars : nat) : string :=
  let text := TrimSpace text in
  let n := String.length text in
  if decide (maxChars = 0 \/ n <= maxChars) then text
  else if decide (maxChars <= 24) then str_from (n - maxChars) text
  else
    let m := Z.of_nat maxChars in
    let k := Z.of_nat (String.length summaryTruncated) in
    let head := (m / 3)%Z in
    let tail := (m - k - head)%Z in
    let '(head, tail) := if decide (tail < 8)%Z then ((m - k - 8)%Z, 8%Z) else (head, tail) in
    let head := if decide (head < 8)%Z then 8%Z else head in
    if decide (Z.of_nat n <= head + k + tail)%Z then text
    else TrimSpace (String.substring 0 (Z.to_nat head) text) +:+ summaryTruncated
         +:+ TrimSpace (str_from (n - Z.to_nat tail) text).

(** ** Summaries *)

Definition compactReasonPrefix : string := "[compact_reason] ".

Definition stripCompactReasonMarkers (summary : string) : string :=
  if decide (TrimSpace summary = "") then "" else
  TrimSpace (Joins (filter (fun l => HasPrefix (TrimSpace l) compactReasonPrefix = false) (lines summary)) nl).

Definition splitSummaryParagraphs (summary : string) : list string :=
  filter (fun p => p <> "") (TrimSpace <$> SplitPara summary).

Definition compactedMarker : string := "[previous summary compacted]".

(** The loop of [compressSummaryText] over the paragraphs, last one first;
    [inr] is a return from inside the loop. *)
Fixpoint select_paragraphs (rev_paragraphs : list string) (selected : list string) (used maxChars : nat) :
    list string + string :=
  match rev_paragraphs with
  | [] => inl selected
  | p :: rest =>
    let extra := match selected with [] => String.length p | _ => String.length p + 2 end in
    if decide (maxChars < used + extra) then
      match selected with
      | [] => inr (trimSummaryChunk p maxChars)
      | _ => if decide (used + String.length compactedMarker + 2 <= maxChars)
             then inl (compactedMarker :: selected) else inl selected
      end
    else select_paragraphs rest (p :: selected) (used + extra) maxChars
  end.

(** A limit that is not positive, [None], means no limit. *)
Definition compressSummaryText (summary : string) (limit : option nat) : string :=
  let summary := TrimSpace summary in
  match limit with
  | None => summary
  | Some maxChars =>
    if decide (summary = "" \/ String.length summary <= maxChars) then summary else
    match splitSummaryParagraphs summary with
    | [] => trimSummaryChunk summary maxChars
    | ps =>
      match select_paragraphs (rev ps) [] 0 maxChars with
      | inr s => s
      | inl selected =>
        let result := Joins selected para in
        if decide (maxChars < String.length result) then trimSummaryChunk result maxChars else result
      end
    end
  end.

(** A Go limit: not positive means none. *)
Definition limit_of (n : Z) : option nat := if decide (0 < n)%Z then Some (Z.to_nat n) else None.

Definition mergeCompactSummaries (existing incoming reason : string) (maxChars : Z) : string :=
  let existing := stripCompactReasonMarkers existing in
  let incoming := stripCompactReasonMarkers incoming in
  let parts := filter (fun s => s <> "") [TrimSpace existing; TrimSpace incoming] in
  let body := Joins parts para in
  let body := if decide (0 < maxChars)%Z then compressSummaryText body (limit_of maxChars) else body in
  if decide (body = "") then "" else
  let reasonLine := compactReasonPrefix +:+ reason in
  let body :=
    if decide (0 < maxChars /\ maxChars < Z.of_nat (String.length body + 1 + String.length reasonLine))%Z
    then compressSummaryText body (limit_of (maxChars - Z.of_nat (String.length reasonLine) - 1))
    else body in
  if decide (body = "") then reasonLine else body +:+ nl +:+ reasonLine.

(** [summaryForPrompt], for the limit of the configuration. *)
Definition summaryForPrompt (CompactSummaryChars : Z) (summary : string) : string :=
  let summary := stripCompactReasonMarkers summary in
  if decide (summary = "") then "" else compressSummaryText summary (limit_of CompactSummaryChars).

(** [clampSummary]. *)
Definition clampSummary (summary : string) (maxChars : Z) : string :=
  let summary := TrimSpace summary in
  if decide (0 < maxChars < Z.of_nat (String.length summary))%Z
  then TrimSpace (String.substring 0 (Z.to_nat maxChars) summary) +:+ "..." else summary.

(** ** Lengths *)

Lemma str_from_length n s : String.length (str_from n s) = String.length s - n.
Proof.
  unfold str_from. revert n. induction s as [|a s IH]; intros [|n]; cbn; [done..| |].
  - specialize (IH 0). cbn in IH. rewrite Nat.sub_0_r in IH. by rewrite IH.
  - apply (IH n).
Qed.

Lemma Joins_length2 (ps : list string) p :
  String.length (Joins (p :: ps) para) = String.length p
    + match ps with [] => 0 | _ => String.length (Joins ps para) + 2 end.
Proof.
  unfold Joins. destruct ps as [|q ps]; [cbn; lia|].
  change (String.concat para (p :: q :: ps)) with (p +:+ para +:+ String.concat para (q :: ps)).
  rewrite !string_length_app. cbn [String.length para nl]. lia.
Qed.

(** A limit that [trimSummaryChunk] respects. *)
Definition chunk_limit (n : nat) : Prop := 0 < n <= 24 \/ 43 <= n.

Lemma trimSummaryChunk_fits text n :
  chunk_limit n -> String.length (trimSummaryChunk text n) <= n.
Proof.
  unfold chunk_limit, trimSummaryChunk. intros Hn. cbv zeta. set (t := TrimSpace text).
  case_decide as H1; [lia|]. case_decide as H2; [rewrite str_from_length; lia|].
  change (String.length summaryTruncated) with 27. set (m := Z.of_nat n).
  pose proof (Z.div_mod m 3). pose proof (Z.mod_pos_bound m 3).
  assert (Hcut : forall h tl, (0 <= h)%Z -> (0 <= tl)%Z -> (h + 27 + tl = m)%Z ->
    String.length (TrimSpace (String.substring 0 (Z.to_nat h) t) +:+ summaryTruncated
                   +:+ TrimSpace (str_from (String.length t - Z.to_nat tl) t)) <= n).
  { intros h tl Hh Htl Hsum. rewrite !string_length_app. change (String.length summaryTruncated) with 27.
    pose proof (TrimSpace_length (String.substring 0 (Z.to_nat h) t)).
    pose proof (substring_length_le (Z.to_nat h) t).
    pose proof (TrimSpace_length (str_from (String.length t - Z.to_nat tl) t)) as Ht.
    rewrite str_from_length in Ht. lia. }
  destruct (decide (m - Z.of_nat 27 - m / 3 < 8)%Z); repeat case_decide; try lia;
    apply Hcut; lia.
Qed.

(** The paragraphs that are kept take the bytes that were counted. *)
Lemma select_paragraphs_fits ps sel used n :
  chunk_limit n -> used <= n -> (sel = [] -> used = 0) ->
  (sel <> [] -> String.length (Joins sel para) = used) ->
  match select_paragraphs ps sel used n with
  | inl sel' => String.length (Joins sel' para) <= n
  | inr s => String.length s <= n
  end.
Proof.
  intros Hn. revert sel used. induction ps as [|p ps IH]; intros sel used Hu H0 H1; cbn [select_paragraphs].
  { destruct sel; [cbn; lia|]. rewrite H1 by done. done. }
  cbv zeta. case_decide as Hfit.
  - destruct sel as [|q sel]; [by apply trimSummaryChunk_fits|].
    specialize (H1 ltac:(done)). case_decide; [|lia].
    rewrite Joins_length2, H1. lia.
  - apply IH; [lia|done|]. intros _. rewrite Joins_length2.
    destruct sel as [|q sel]; [rewrite H0 by done; lia|]. rewrite H1 by done. lia.
Qed.

Lemma compressSummaryText_fits s n :
  chunk_limit n -> String.length (compressSummaryText s (Some n)) <= n.
Proof.
  intros Hn. unfold compressSummaryText. cbv zeta. case_decide as Hs; [destruct Hs as [->|]; cbn; lia|].
  destruct (splitSummaryParagraphs (TrimSpace s)) as [|p ps]; [by apply trimSummaryChunk_fits|].
  pose proof (select_paragraphs_fits (rev (p :: ps)) [] 0 n Hn ltac:(lia) ltac:(done) ltac:(done)) as H.
  destruct (select_paragraphs _ _ _ _); [|done]. case_decide; [by apply trimSummaryChunk_fits|lia].
Qed.

(** however often a session is compacted, its summary stays within
    [CompactSummaryChars], the line that names the reason included, for every
    limit that leaves 43 bytes beside that line; the summary of a prompt does
    too. *)
Theorem merged_summary_fits existing incoming reason n :
  (44 + Z.of_nat (String.length (compactReasonPrefix +:+ reason)) <= n)%Z ->
  (Z.of_nat (String.length (mergeCompactSummaries existing incoming reason n)) <= n)%Z
  /\ forall s, (Z.of_nat (String.length (summaryForPrompt n s)) <= n)%Z.
Proof.
  intros Hn. assert (Hcs : forall s k, (43 <= k)%Z ->
    (Z.of_nat (String.length (compressSummaryText s (limit_of k))) <= k)%Z).
  { intros s k Hk. unfold limit_of. rewrite decide_True by lia.
    pose proof (compressSummaryText_fits s (Z.to_nat k)) as H. unfold chunk_limit in H. lia. }
  split.
  - unfold mergeCompactSummaries. cbv zeta. rewrite (decide_True (P := (0 < n)%Z)) by lia.
    set (body := compressSummaryText _ (limit_of n)). set (r := compactReasonPrefix +:+ reason) in *.
    destruct (decide (body = "")); [cbn; lia|]. set (b' := if decide _ then _ else body).
    assert (Hb : (Z.of_nat (String.length b' + 1 + String.length r) <= n)%Z).
    { unfold b'. case_decide; [|lia].
      specialize (Hcs body (n - Z.of_nat (String.length r) - 1)%Z ltac:(lia)). lia. }
    case_decide; [lia|]. rewrite !string_length_app. change (String.length nl) with 1. lia.
  - intros s. unfold summaryForPrompt. cbv zeta. case_decide; [cbn; lia|]. apply Hcs. lia.
Qed.

Lemma merged_summary_fits_witness :
  (44 + Z.of_nat (String.length (compactReasonPrefix +:+ "auto_threshold")) <= 4000)%Z
  /\ (Z.of_nat (String.length (mergeCompactSummaries "old" "new" "auto_threshold" 4000)) <= 4000)%Z.
Proof.
  assert (H : (44 + Z.of_nat (String.length (compactReasonPrefix +:+ "auto_threshold")) <= 4000)%Z)
    by (vm_compute; congruence).
  exact (conj H (proj1 (merged_summary_fits "old" "new" "auto_threshold" 4000 H))).
Defined.

(** [n] times the byte [a]. *)
Fixpoint repeat_byte (n : nat) (a : ascii) : string :=
  match n with O => "" | S n => String a (repeat_byte n a) end.

(** a summary that is cut to a limit between 25 and 42 bytes comes out
    longer than the limit: the two ends keep eight bytes each around a marker of
    27 bytes. *)
Theorem small_limit_overflows :
  forall n, 25 <= n <= 42 ->
    n < String.length (compressSummaryText (repeat_byte 60 "x"%char) (Some n)).
Proof.
  assert (H : forallb (fun n => Nat.ltb n (String.length (compressSummaryText (repeat_byte 60 "x"%char) (Some n))))
                (seq 25 18) = true) by (vm_compute; reflexivity).
  intros n Hn. rewrite forallb_forall in H. apply Nat.ltb_lt, H, in_seq. lia.
Qed.

Lemma small_limit_overflows_witness :
  25 <= 30 <= 42 /\ 30 < String.length (compressSummaryText (repeat_byte 60 "x"%char) (Some 30)).
Proof. split; [lia|]. apply (small_limit_overflows 30). lia. Defined.

(** ** Soft trimming *)

Lemma soft_cut_length content n :
  String.length (TrimSpace (String.substring 0 n content) +:+ nl +:+ "[truncated]") <= n + 12.
Proof.
  rewrite !string_length_app. change (String.length nl) with 1. change (String.length "[truncated]") with 11.
  pose proof (TrimSpace_length (String.substring 0 n content)). pose proof (substring_length_le n content). lia.
Qed.

(** What soft trimming guarantees: a text within the limit is kept; a longer
    one is cut to the limit and a mark, unless its first and last lines with a
    note are shorter than the whole; without lines to keep, the cut is certain. *)
Lemma soft_trim_bounds content n k :
  (String.length content <= n -> softTrimContent content n k = content)
  /\ (String.length (softTrimContent content n k) <= n + 12
      \/ 0 < k /\ k * 2 < length (lines content)
         /\ String.length (softTrimContent content n k) < String.length content)
  /\ String.length (softTrimContent content n 0) <= n + 12.
Proof.
  pose proof (soft_cut_length content n) as Hc. unfold softTrimContent. cbv zeta.
  split; [intros H; by rewrite decide_True|]. destruct (decide (String.length content <= n)); [lia|].
  split; [|by rewrite decide_False by lia].
  repeat case_decide; try (left; exact Hc). right. done.
Qed.

(** soft trimming does not keep a text within its limit: a text of five
    lines of 200 bytes, limited to 50 bytes with one line kept at each end,
    comes out with more than 400 bytes, although the budget of a prompt section
    or of a tool result is enforced by this function alone. *)
Theorem soft_trim_exceeds_limit :
  let content := Joins (List.repeat (repeat_byte 200 "x"%char) 5) nl in
  400 < String.length (softTrimContent content 50 1) < String.length content.
Proof. vm_compute. lia. Qed.

(** ** Transcripts *)

(** The loop of [buildCompactSummary]; [b] is the text so far. *)
Fixpoint summary_loop (messages : list Message) (maxChars : Z) (b : string) : string :=
  match messages with
  | [] => b
  | m :: rest =>
    let content := TrimSpace (TextContent m) in
    if decide (content = "") then summary_loop rest maxChars b else
    let b := b +:+ (if decide (b = "") then "" else nl) +:+ "[" +:+ M_Role m +:+ "] " +:+ content in
    if decide (0 < maxChars <= Z.of_nat (String.length b))%Z then b else summary_loop rest maxChars b
  end.

Definition buildCompactSummary (messages : list Message) (maxChars : Z) : string :=
  let summary := summary_loop messages maxChars "" in
  if decide (0 < maxChars < Z.of_nat (String.length summary))%Z
  then TrimSpace (String.substring 0 (Z.to_nat maxChars) summary) +:+ "..." else summary.

Definition formatTranscript (messages : list Message) : string :=
  Joins ((fun m => "[" +:+ M_Role m +:+ "] " +:+ TrimSpace (TextContent m) +:+ nl)
         <$> filter (fun m => TrimSpace (TextContent m) <> "") messages) "".

(** [joinPromptSections]. *)
Definition joinPromptSections (parts : list string) : string :=
  Joins (filter (fun p => p <> "") (TrimSpace <$> parts)) para.

Lemma buildCompactSummary_length messages n :
  (0 < n)%Z -> (Z.of_nat (String.length (buildCompactSummary messages n)) <= n + 3)%Z.
Proof.
  intros Hn. unfold buildCompactSummary. cbv zeta. case_decide; [|lia].
  set (s := summary_loop _ _ _) in *. rewrite string_length_app. change (String.length "...") with 3.
  pose proof (TrimSpace_length (String.substring 0 (Z.to_nat n) s)).
  pose proof (substring_length_le (Z.to_nat n) s). lia.
Qed.
