(* ===== verification/ContextPinned.v ===== *)
(** * Pinned facts and signals of the context engine

    Pinned facts are statements that survive the compaction of a session
    ([contextengine/engine.go]); they are collected from the metadata of
    messages, merged by key, and mirrored in the memory of the agent
    ([pinned_memory_sync.go]).  Decisions, tasks and constraints are signals in
    the metadata of messages ([precompact_flush.go]).  The memory is an
    interface that [agent/kvstore.go] implements. *)
From S2P Require Import Prelude GoLib GoText GoClock ContextMessages ContextSummary.
From stdpp Require Import sorting.
Import Str Text GoTime.

Definition MetadataKeyPinnedFact : string := "pinned_fact".
Definition MetadataKeyPinnedFacts : string := "pinned_facts".
Definition MetadataKeySignalDecisions : string := "signal_decisions".
Definition MetadataKeySignalTODOs : string := "signal_todos".
Definition MetadataKeySignalConstraints : string := "signal_constraints".

(** [fmt.Sprint]. *)
Class GoSprint := {
  Sprint : Value -> string;
  Sprint_string s : Sprint (VString s) = s;
  Sprint_nil : Sprint VNil = "<nil>"
}.

Record PinnedFact := mkPinnedFact {
  PF_Key : string; PF_Content : string; PF_Source : string; PF_UpdatedAt : Time; PF_Metadata : Metadata }.

(** [normalizePinnedFact]; the copy of the metadata map has the same entries. *)
Definition normalizePinnedFact (f : PinnedFact) : PinnedFact :=
  mkPinnedFact (TrimSpace (PF_Key f)) (TrimSpace (PF_Content f)) (TrimSpace (PF_Source f))
               (PF_UpdatedAt f) (PF_Metadata f).

Section Pinned.
Context {U : GoUnicode} {P : GoSprint} {T : GoTimeText}.

Definition pinnedFactIdentity (f : PinnedFact) : string :=
  let key := ToLower (TrimSpace (PF_Key f)) in
  if decide (key = "") then "content:" +:+ ToLower (TrimSpace (PF_Content f)) else "key:" +:+ key.

(** ** Merging *)

(** One step of the loop of [mergePinnedFacts]: the facts so far and the index
    of each identity. *)
Definition merge_step (st : list PinnedFact * gmap string nat) (raw : PinnedFact) :
    list PinnedFact * gmap string nat :=
  let '(out, index) := st in
  let fact := normalizePinnedFact raw in
  if decide (PF_Content fact = "") then st else
  let identity := pinnedFactIdentity fact in
  match index !! identity with
  | Some i => (<[i := fact]> out, index)
  | None => (out ++ [fact], <[identity := length out]> index)
  end.

Definition mergePinnedFacts (groups : list (list PinnedFact)) : list PinnedFact :=
  (foldl (foldl merge_step) ([], ∅) groups).1.

(** ** Facts in the metadata of a message *)

Definition decodePinnedFactMap (raw : Metadata) (m : Message) : PinnedFact :=
  let key := match meta_get raw "key" with Some v => TrimSpace (Sprint v) | None => "" end in
  let content :=
    match filter (fun s => s <> "")
            ((fun field => match meta_get raw field with Some v => TrimSpace (Sprint v) | None => "" end)
             <$> ["content"; "text"; "summary"]) with
    | s :: _ => s
    | [] => ""
    end in
  let source := match meta_get raw "source" with Some v => TrimSpace (Sprint v) | None => M_Role m end in
  let updated := match meta_get raw "updated_at" with
                 | Some (VString s) => default (M_CreatedAt m) (ParseRFC3339 (TrimSpace s))
                 | _ => M_CreatedAt m
                 end in
  let metadata := match meta_get raw "metadata" with Some (VMap md) => md | _ => [] end in
  mkPinnedFact key content source updated metadata.

Definition one_fact (f : PinnedFact) : list PinnedFact :=
  let f := normalizePinnedFact f in if decide (PF_Content f = "") then [] else [f].

Fixpoint decodePinnedFactsMetadata (raw : Value) (m : Message) : list PinnedFact :=
  match raw with
  | VString s => one_fact (mkPinnedFact "" s (M_Role m) (M_CreatedAt m) [])
  | VMap md => one_fact (decodePinnedFactMap md m)
  | VSlice items =>
    (fix go (l : list Value) := match l with
                                | [] => []
                                | x :: rest => decodePinnedFactsMetadata x m ++ go rest
                                end) items
  | _ => []
  end.

Definition message_facts (m : Message) : list PinnedFact :=
  let get key := default VNil (meta_get (M_Metadata m) key) in
  decodePinnedFactsMetadata (get MetadataKeyPinnedFact) m
  ++ decodePinnedFactsMetadata (get MetadataKeyPinnedFacts) m.

Definition collectPinnedFacts (messages : list Message) : list PinnedFact :=
  mergePinnedFacts [List.concat (message_facts <$> messages)].

(** ** Signals *)

(** [dedupeStrings]: trimmed, not blank, the first of every spelling. *)
Fixpoint dedupe_folded (seen : gset string) (values : list string) : list string :=
  match values with
  | [] => []
  | v :: rest =>
    let trimmed := TrimSpace v in
    if decide (trimmed = "") then dedupe_folded seen rest
    else if decide (ToLower trimmed ∈ seen) then dedupe_folded seen rest
    else trimmed :: dedupe_folded ({[ ToLower trimmed ]} ∪ seen) rest
  end.

Definition dedupeStrings (values : list string) : list string := dedupe_folded ∅ values.

Definition limitStrings (values : list string) (limit : nat) : list string :=
  if decide (limit = 0 \/ length values <= limit) then values else take limit values.

Definition messageMetadataStrings (metadata : Metadata) (key : string) : list string :=
  match meta_get metadata key with
  | None | Some VNil => []
  | Some (VString s) => let s := TrimSpace s in if decide (s = "") then [] else [s]
  | Some (VStrings l) => dedupeStrings (filter (fun s => s <> "") (TrimSpace <$> l))
  | Some (VSlice l) =>
    dedupeStrings (filter (fun s => s <> "" /\ s <> "<nil>") ((fun v => TrimSpace (Sprint v)) <$> l))
  | Some v => let s := TrimSpace (Sprint v) in if decide (s = "" \/ s = "<nil>") then [] else [s]
  end.

Definition extractAnnotatedSignals (m : Message) : list string * list string * list string :=
  (messageMetadataStrings (M_Metadata m) MetadataKeySignalDecisions,
   messageMetadataStrings (M_Metadata m) MetadataKeySignalTODOs,
   messageMetadataStrings (M_Metadata m) MetadataKeySignalConstraints).

Definition extractAnnotatedSignalTexts (m : Message) : list string :=
  let '(d, t, c) := extractAnnotatedSignals m in dedupeStrings (d ++ t ++ c).

Definition extractSegmentSignals (messages : list Message) : list string * list string * list string :=
  let all f := dedupeStrings (List.concat ((fun m => f (extractAnnotatedSignals m)) <$> messages)) in
  (all (fun s => s.1.1), all (fun s => s.1.2), all (fun s => s.2)).

(** [countFlushableSignals]. *)
Definition countFlushableSignals (messages : list Message) : nat :=
  length (collectPinnedFacts messages)
  + sum_list ((fun m => length (extractAnnotatedSignalTexts m)) <$> messages)
  + (if existsb (fun m => bool_decide (M_Role m = RoleTool /\ TextContent m <> "")) messages then 1 else 0).

(** [pinnedFactsForPrompt], for the limit of the configuration. *)
Definition pinnedFactsForPrompt (PinnedFactsMaxChars : nat) (facts : list PinnedFact) : string :=
  match facts with
  | [] => ""
  | _ =>
    let line f := let content := TrimSpace (PF_Content f) in
                  let key := TrimSpace (PF_Key f) in
                  if decide (key = "") then "- " +:+ content else "- [" +:+ key +:+ "] " +:+ content in
    let ls := "Pinned facts: preserve these facts unless newer evidence explicitly contradicts them."
              :: (line <$> filter (fun f => TrimSpace (PF_Content f) <> "") facts) in
    let block := TrimSpace (Joins ls nl) in
    if decide (0 < PinnedFactsMaxChars < String.length block)
    then softTrimContent block PinnedFactsMaxChars 0 else block
  end.
End Pinned.

(** ** The merged facts *)

Section Merged.
Context {U : GoUnicode}.

(** The facts that count: normalized, with content. *)
Definition effective (raws : list PinnedFact) : list PinnedFact :=
  filter (fun f => PF_Content f <> "") (normalizePinnedFact <$> raws).

(** The last fact with an identity. *)
Definition latest (id : string) (facts : list PinnedFact) : option PinnedFact :=
  last (filter (fun f => pinnedFactIdentity f = id) facts).

Definition indexed (st : list PinnedFact * gmap string nat) : Prop :=
  forall id i, st.2 !! id = Some i <-> exists f, st.1 !! i = Some f /\ pinnedFactIdentity f = id.

Lemma latest_snoc id facts f :
  latest id (facts ++ [f]) = if decide (pinnedFactIdentity f = id) then Some f else latest id facts.
Proof.
  unfold latest. rewrite filter_app. case_decide as E.
  - rewrite (filter_cons_True _ f []), filter_nil by done. apply last_snoc.
  - rewrite (filter_cons_False _ f []), filter_nil by done. by rewrite app_nil_r.
Qed.

Lemma indexed_inj st i j f g :
  indexed st -> st.1 !! i = Some f -> st.1 !! j = Some g ->
  pinnedFactIdentity f = pinnedFactIdentity g -> i = j.
Proof.
  intros H Hi Hj E. assert (st.2 !! pinnedFactIdentity f = Some i) as H1 by (apply H; eauto).
  assert (st.2 !! pinnedFactIdentity f = Some j) as H2 by (apply H; eauto). congruence.
Qed.

(** The state of the loop represents the map of latest facts. *)
Definition represents (st : list PinnedFact * gmap string nat) (facts : list PinnedFact) : Prop :=
  indexed st /\ (forall f, f ∈ st.1 -> latest (pinnedFactIdentity f) facts = Some f)
  /\ (forall id f, latest id facts = Some f -> f ∈ st.1).

Lemma latest_identity id facts f : latest id facts = Some f -> pinnedFactIdentity f = id.
Proof.
  unfold latest. intros H. apply last_Some_elem_of in H. by apply list_elem_of_filter in H as [? _].
Qed.

Lemma merge_step_effective st raw :
  merge_step st raw = st /\ effective [raw] = []
  \/ effective [raw] = [normalizePinnedFact raw]
     /\ merge_step st raw =
        match st.2 !! pinnedFactIdentity (normalizePinnedFact raw) with
        | Some i => (<[i := normalizePinnedFact raw]> st.1, st.2)
        | None => (st.1 ++ [normalizePinnedFact raw],
                   <[pinnedFactIdentity (normalizePinnedFact raw) := length st.1]> st.2)
        end.
Proof.
  destruct st as [out index]. unfold merge_step, effective. cbn [fmap list_fmap].
  set (f := normalizePinnedFact raw). destruct (decide (PF_Content f = "")) as [E|E].
  - left. split; [done|]. rewrite filter_cons_False; [done|]. by intros [].
  - right. split; [by rewrite filter_cons_True, filter_nil|done].
Qed.

Lemma merge_step_represents st facts raw :
  represents st facts -> represents (merge_step st raw) (facts ++ effective [raw]).
Proof.
  intros (Hidx & Hout & Hall).
  destruct (merge_step_effective st raw) as [[-> ->]|[-> ->]]; [by rewrite app_nil_r|].
  set (f := normalizePinnedFact raw). destruct st as [out index]. cbn [fst snd] in *.
  destruct (index !! pinnedFactIdentity f) as [i|] eqn:Ei.
  - destruct (proj1 (Hidx _ _) Ei) as (g & Hg & Eg). cbn [fst] in Hg.
    assert (Hlt : i < length out) by (by eapply lookup_lt_Some).
    assert (Hsame : forall j h, <[i:=f]> out !! j = Some h ->
              i = j /\ h = f \/ i <> j /\ out !! j = Some h /\ pinnedFactIdentity h <> pinnedFactIdentity f).
    { intros j h Hj. destruct (decide (i = j)) as [->|Hne].
      - rewrite list_lookup_insert_eq in Hj by done. left. by simplify_eq.
      - rewrite list_lookup_insert_ne in Hj by done. right. split; [done|]. split; [done|].
        intros E. apply Hne. eapply (indexed_inj (out, index) i j g h); [done..|congruence]. }
    split; [|split].
    + intros id j. cbn [fst snd]. rewrite (Hidx id j). cbn [fst]. split.
      * intros (h & Hj & E). destruct (decide (i = j)) as [<-|Hne].
        -- exists f. rewrite list_lookup_insert_eq by done. split; [done|]. congruence.
        -- exists h. by rewrite list_lookup_insert_ne.
      * intros (h & Hj & E). destruct (Hsame j h Hj) as [[<- ->]|(Hne & Hj' & _)]; [|eauto].
        exists g. split; [done|]. congruence.
    + intros h [j Hj]%list_elem_of_lookup. rewrite latest_snoc. cbn [fst] in Hj.
      destruct (Hsame j h Hj) as [[_ ->]|(_ & Hj' & Hd)]; [by rewrite decide_True|].
      rewrite decide_False by congruence. apply Hout. by eapply list_elem_of_lookup_2.
    + intros id h. rewrite latest_snoc. cbn [fst]. case_decide as E.
      * intros [= <-]. apply list_elem_of_lookup_2 with i. by apply list_lookup_insert_eq.
      * intros Hl. pose proof (latest_identity _ _ _ Hl) as Eh.
        apply Hall, list_elem_of_lookup in Hl as [j Hj].
        apply list_elem_of_lookup_2 with j. rewrite list_lookup_insert_ne; [done|].
        intros ->. cbn in Hj. simplify_eq.
  - assert (Hnew : forall h, h ∈ out -> pinnedFactIdentity h <> pinnedFactIdentity f).
    { intros h [j Hj]%list_elem_of_lookup E. assert (index !! pinnedFactIdentity f = Some j); [|congruence].
      apply (Hidx _ j). eauto. }
    split; [|split].
    + intros id j. cbn [fst snd]. rewrite lookup_insert_Some, (Hidx id j). cbn [fst]. split.
      * intros [[<- <-]|[Hne (h & Hj & E)]].
        -- exists f. by rewrite lookup_app_r, Nat.sub_diag by lia.
        -- exists h. by rewrite lookup_app_l by (by eapply lookup_lt_Some).
      * intros (h & Hj & E). apply lookup_app_Some in Hj as [Hj|[Hle Hj]].
        -- right. split; [|eauto]. rewrite <- E. intros E'. by apply (Hnew h); [by eapply list_elem_of_lookup_2|].
        -- apply list_lookup_singleton_Some in Hj as [Hj ->]. left. split; [done|]. lia.
    + intros h [Hh|Hh%list_elem_of_singleton]%elem_of_app; rewrite latest_snoc.
      * rewrite decide_False; [by apply Hout|]. intros E. by apply (Hnew h).
      * subst h. by rewrite decide_True.
    + intros id h. rewrite latest_snoc. cbn [fst]. rewrite elem_of_app, list_elem_of_singleton.
      case_decide; [intros [= <-]; by right|]. intros Hl. left. by eapply Hall.
Qed.

Lemma effective_app l k : effective (l ++ k) = effective l ++ effective k.
Proof. unfold effective. by rewrite fmap_app, filter_app. Qed.

Lemma merge_loop_represents raws st facts :
  represents st facts -> represents (foldl merge_step st raws) (facts ++ effective raws).
Proof.
  revert st facts. induction raws as [|raw raws IH]; intros st facts Hr; cbn [foldl].
  - unfold effective. cbn. by rewrite app_nil_r.
  - change (raw :: raws) with ([raw] ++ raws). rewrite effective_app, app_assoc.
    apply IH. by apply merge_step_represents.
Qed.

Lemma merge_concat groups : mergePinnedFacts groups = (foldl merge_step ([], ∅) (List.concat groups)).1.
Proof.
  unfold mergePinnedFacts. f_equal. generalize (([], ∅) : list PinnedFact * gmap string nat).
  induction groups as [|g groups IH]; intros st; cbn; [done|]. by rewrite IH, foldl_app.
Qed.

Lemma merge_represents groups :
  represents (foldl merge_step ([], ∅) (List.concat groups)) (effective (List.concat groups)).
Proof.
  apply (merge_loop_represents _ _ []). split; [|split].
  - intros id i. cbn. rewrite lookup_empty. split; [done|]. by intros (f & ? & _).
  - intros f Hf. by apply elem_of_nil in Hf.
  - intros id f. done.
Qed.

Lemma represents_NoDup st facts : represents st facts -> NoDup (pinnedFactIdentity <$> st.1).
Proof.
  intros (Hidx & _). apply NoDup_alt. intros i j id Hi Hj.
  rewrite list_lookup_fmap in Hi, Hj.
  destruct (st.1 !! i) as [f|] eqn:Ef; [|done]. destruct (st.1 !! j) as [g|] eqn:Eg; [|done].
  cbn in Hi, Hj. eapply indexed_inj; [done..|congruence].
Qed.

(** A list of facts that merging leaves alone. *)
Definition merged (l : list PinnedFact) : Prop :=
  NoDup (pinnedFactIdentity <$> l)
  /\ Forall (fun f => normalizePinnedFact f = f /\ PF_Content f <> "") l.

Lemma normalize_fact_idem f : normalizePinnedFact (normalizePinnedFact f) = normalizePinnedFact f.
Proof. unfold normalizePinnedFact. cbn [PF_Key PF_Content PF_Source]. by rewrite !TrimSpace_idem. Qed.

Lemma effective_elem f raws : f ∈ effective raws -> normalizePinnedFact f = f /\ PF_Content f <> "".
Proof.
  intros [Hc Hf]%list_elem_of_filter. split; [|done].
  apply list_elem_of_fmap in Hf as (g & -> & _). apply normalize_fact_idem.
Qed.

Lemma latest_elem id facts f : latest id facts = Some f -> f ∈ facts.
Proof. intros H%last_Some_elem_of. by apply list_elem_of_filter in H as [_ ?]. Qed.

Lemma merge_merged groups : merged (mergePinnedFacts groups).
Proof.
  rewrite merge_concat. pose proof (merge_represents groups) as Hr. split; [by eapply represents_NoDup|].
  apply Forall_forall. intros f Hf. destruct Hr as (_ & Hout & _).
  by eapply effective_elem, latest_elem, Hout.
Qed.

Lemma merge_loop_id l st :
  merged (st.1 ++ l) -> indexed st -> (foldl merge_step st l).1 = st.1 ++ l.
Proof.
  revert st. induction l as [|f l IH]; intros st Hm Hidx; cbn [foldl]; [by rewrite app_nil_r|].
  destruct Hm as [Hnd Hf]. assert (Hfl := Hf). apply Forall_app in Hf as [Hf1 Hf2].
  apply Forall_cons in Hf2 as [[Hn Hc] Hf2].
  assert (Hfresh : st.2 !! pinnedFactIdentity f = None).
  { destruct (st.2 !! pinnedFactIdentity f) as [i|] eqn:E; [|done].
    apply Hidx in E as (g & Hg & E). rewrite fmap_app, fmap_cons in Hnd.
    apply NoDup_app in Hnd as (_ & Hd & _). exfalso.
    apply (Hd (pinnedFactIdentity f)); [|by left].
    rewrite <- E. apply list_elem_of_fmap_2. by eapply list_elem_of_lookup_2. }
  assert (Hst : merge_step st f = (st.1 ++ [f], <[pinnedFactIdentity f := length st.1]> st.2)).
  { destruct (merge_step_effective st f) as [[_ He]|[_ ->]].
    - unfold effective in He. cbn [fmap list_fmap] in He. rewrite Hn, filter_cons_True in He by done. done.
    - by rewrite Hn, Hfresh. }
  rewrite Hst, IH; cbn [fst]; [by rewrite <- app_assoc|..].
  - rewrite <- app_assoc. by split.
  - intros id i. cbn [fst snd]. rewrite lookup_insert_Some, (Hidx id i). split.
    + intros [[<- <-]|[_ (g & Hg & E)]].
      * exists f. by rewrite lookup_app_r, Nat.sub_diag by lia.
      * exists g. by rewrite lookup_app_l by (by eapply lookup_lt_Some).
    + intros (g & Hg & E). apply lookup_app_Some in Hg as [Hg|[Hle Hg]].
      * right. split; [|eauto]. rewrite <- E. intros E'.
        assert (st.2 !! pinnedFactIdentity f = Some i) by (apply Hidx; eauto). congruence.
      * apply list_lookup_singleton_Some in Hg as [Hg ->]. left. split; [done|]. lia.
Qed.

Lemma merge_id l : merged l -> mergePinnedFacts [l] = l.
Proof.
  intros Hm. rewrite merge_concat. cbn [List.concat]. rewrite app_nil_r. apply (merge_loop_id l ([], ∅) Hm).
  intros id i. cbn. rewrite lookup_empty. split; [done|]. by intros (f & ? & _).
Qed.

(** merging pinned facts implements a map whose later writes win: the
    merged facts have distinct identities, the fact of an identity is the last
    one that was given with content, nothing else is in the result, and merging
    a merged list changes nothing. *)
Theorem pinned_facts_last_wins groups :
  let out := mergePinnedFacts groups in
  let given := effective (List.concat groups) in
  NoDup (pinnedFactIdentity <$> out)
  /\ (forall id f, (f ∈ out /\ pinnedFactIdentity f = id) <-> latest id given = Some f)
  /\ mergePinnedFacts [out] = out.
Proof.
  cbv zeta. split; [apply merge_merged|]. split; [|apply merge_id, merge_merged].
  rewrite merge_concat. destruct (merge_represents groups) as (_ & Hout & Hall). intros id f. split.
  - intros [Hf <-]. by apply Hout.
  - intros Hl. split; [by eapply Hall|by eapply latest_identity].
Qed.
End Merged.
