(* ===== verification/AgentMemory.v ===== *)
(** * The key-value memory of the agent ([agent/kvstore.go]) and pinned facts in it

    The in-memory store without an embedding client: [Set], [Get], [Delete],
    [List] and the keyword search.  Its clients see it through the class
    [AgentMemory]; [contextengine/pinned_memory_sync.go] mirrors the pinned
    facts of a session in it and loads them back. *)
From S2P Require Import Prelude GoLib GoText GoClock ContextMessages ContextSummary ContextPinned.
From stdpp Require Import sorting.
Import Str Text GoTime.

(** ** The interface *)

(** What a memory promises: a write that succeeds is one entry of the view, one
    that fails changes nothing; a search returns stored entries, each key once,
    and all those whose key starts with an ASCII query. *)
Class AgentMemory := {
  Mem : Type;
  MSet : Mem -> string -> string -> Mem * bool;
  MSearch : Mem -> string -> option (list (string * string));
  view : Mem -> gmap string string;
  MSet_view m k v m' ok :
    MSet m k v = (m', ok) -> view m' = if ok then <[k := v]> (view m) else view m;
  MSearch_sound m q l k v : MSearch m q = Some l -> (k, v) ∈ l -> view m !! k = Some v;
  MSearch_complete m q l k v :
    MSearch m q = Some l -> is_ascii q = true -> HasPrefix k q = true -> view m !! k = Some v -> (k, v) ∈ l
}.

(** ** The in-memory store *)

(** The fields of [MemoryEntry] that the store sets. *)
Record MemoryEntry := mkEntry { ME_Key : string; ME_Value : string; ME_CreatedAt : Time; ME_UpdatedAt : Time }.

Abbreviation InMemoryKVStore := (gmap string MemoryEntry).

Definition KV_Get (s : InMemoryKVStore) (key : string) : option MemoryEntry := s !! key.

Definition KV_Set (s : InMemoryKVStore) (key value : string) (now : Time) : InMemoryKVStore :=
  match s !! key with
  | Some e => <[key := mkEntry (ME_Key e) value (ME_CreatedAt e) now]> s
  | None => <[key := mkEntry key value now now]> s
  end.

Definition KV_Delete (s : InMemoryKVStore) (key : string) : InMemoryKVStore := delete key s.

Definition entry_le (a b : MemoryEntry) : Prop := String.le (ME_Key a) (ME_Key b).

#[export] Instance entry_le_dec a b : Decision (entry_le a b).
Proof. unfold entry_le. apply _. Defined.

(** [sort.Slice] by key; keys are distinct. *)
Definition KV_List (s : InMemoryKVStore) : list MemoryEntry := merge_sort entry_le (map_to_list s).*2.

Section KV.
Context {U : GoUnicode}.

Definition keywordSearch (s : InMemoryKVStore) (query : string) : list MemoryEntry :=
  let q := ToLower query in
  merge_sort entry_le
    (filter (fun e => Contains (ToLower (ME_Key e)) q || Contains (ToLower (ME_Value e)) q = true)
            (map_to_list s).*2).

(** [mergeResults]. *)
Fixpoint merge_results (seen : gset string) (l : list MemoryEntry) : list MemoryEntry :=
  match l with
  | [] => []
  | e :: rest => if decide (ME_Key e ∈ seen) then merge_results seen rest
                 else e :: merge_results ({[ ME_Key e ]} ∪ seen) rest
  end.

Definition mergeResults (keyword semantic : list MemoryEntry) : list MemoryEntry :=
  merge_results ∅ (keyword ++ semantic).

(** [Search]; [semantic] is the answer of the vector search, when an embedding
    client is configured and answers. *)
Definition KV_Search (semantic : option (list MemoryEntry)) (s : InMemoryKVStore) (query : string) : list MemoryEntry :=
  match semantic with
  | None => keywordSearch s query
  | Some hits => mergeResults (keywordSearch s query) hits
  end.

(** Every entry is stored under its key. *)
Definition keyed (s : InMemoryKVStore) : Prop := forall k e, s !! k = Some e -> ME_Key e = k.

Lemma KV_Set_keyed s k v now : keyed s -> keyed (KV_Set s k v now).
Proof.
  intros Hk k' e. unfold KV_Set. destruct (s !! k) as [e0|] eqn:E.
  - rewrite lookup_insert_Some. intros [[<- <-]|[_ H]]; [exact (Hk k e0 E)|by apply Hk].
  - rewrite lookup_insert_Some. intros [[<- <-]|[_ H]]; [done|by apply Hk].
Qed.

Lemma KV_Delete_keyed s k : keyed s -> keyed (KV_Delete s k).
Proof. unfold KV_Delete. intros Hk k' e [_ H]%lookup_delete_Some. by apply Hk. Qed.

Lemma values_elem (s : InMemoryKVStore) e :
  e ∈ (map_to_list s).*2 <-> exists k, s !! k = Some e.
Proof.
  rewrite list_elem_of_fmap. split.
  - intros ([k e'] & -> & H%elem_of_map_to_list). eauto.
  - intros [k H%elem_of_map_to_list]. by exists (k, e).
Qed.

(** Writing a key keeps when it was created and is seen by every later read. *)
Lemma KV_Set_Get s k v now k' :
  ME_Value <$> KV_Get (KV_Set s k v now) k' = if decide (k = k') then Some v else ME_Value <$> KV_Get s k'.
Proof.
  unfold KV_Get, KV_Set. case_decide as E.
  - subst k'. destruct (s !! k); by rewrite lookup_insert_eq.
  - destruct (s !! k); by rewrite lookup_insert_ne.
Qed.
End KV.

(** ** The store as an agent memory *)

Section Instance.
Context {U : GoUnicode}.

(** [strings.ToLower] maps a text code point by code point, so an ASCII prefix
    is lowered on its own. *)
Hypothesis ToLower_ascii_app : forall q s, is_ascii q = true -> ToLower (q +:+ s) = ascii_lower q +:+ ToLower s.

Lemma Contains_prefix s q : HasPrefix s q = true -> Contains s q = true.
Proof. unfold HasPrefix. intros H. destruct s; cbn [Contains]; by rewrite H. Qed.

Definition kv_view (s : InMemoryKVStore) : gmap string string := ME_Value <$> s.

Lemma kv_set_view s k v now : kv_view (KV_Set s k v now) = <[k := v]> (kv_view s).
Proof. unfold kv_view, KV_Set. destruct (s !! k); by rewrite fmap_insert. Qed.

Definition kv_results (l : list MemoryEntry) : list (string * string) := (fun e => (ME_Key e, ME_Value e)) <$> l.

Lemma keywordSearch_elem s q e :
  e ∈ keywordSearch s q <->
  (exists k, s !! k = Some e)
  /\ (Contains (ToLower (ME_Key e)) (ToLower q) || Contains (ToLower (ME_Value e)) (ToLower q)) = true.
Proof.
  unfold keywordSearch. rewrite merge_sort_Permutation, list_elem_of_filter, values_elem. tauto.
Qed.

(** The store, with the invariant that entries are stored under their keys. *)
Definition kv_memory (now : Time) : AgentMemory.
Proof.
  refine {| Mem := { s : InMemoryKVStore | keyed s };
            MSet m k v := (exist _ (KV_Set (proj1_sig m) k v now) (KV_Set_keyed _ k v now (proj2_sig m)), true);
            MSearch m q := Some (kv_results (KV_Search None (proj1_sig m) q));
            view m := kv_view (proj1_sig m) |}.
  - intros m k v m' ok [= <- <-]. apply kv_set_view.
  - intros [s Hs] q l k v [= <-] (e & [= -> ->] & He)%list_elem_of_fmap. cbn [proj1_sig] in *.
    apply keywordSearch_elem in He as [[k He] _]. unfold kv_view.
    rewrite lookup_fmap, (Hs _ _ He), He. done.
  - intros [s Hs] q l k v [= <-] Hq Hp Hv. cbn [proj1_sig] in *. unfold kv_view in Hv.
    rewrite lookup_fmap in Hv. destruct (s !! k) as [e|] eqn:He; [|done]. injection Hv as <-.
    pose proof (Hs _ _ He) as Hk. apply list_elem_of_fmap. exists e. rewrite Hk. split; [done|].
    apply keywordSearch_elem. split; [eauto|]. apply orb_true_iff. left. apply Contains_prefix.
    apply HasPrefix_spec in Hp as [rest ->]. rewrite Hk, ToLower_ascii_app, (ToLower_ascii q) by done.
    apply HasPrefix_spec. by exists (ToLower rest).
Defined.
End Instance.

(** ** Pinned facts in the memory *)

Section Sync.
Context {M : AgentMemory}.

Definition pinnedMemoryKeyPrefix : string := "pinned:".

(** The loop of [SyncPinnedFactsToMemory]: the memory and the number of facts
    written. *)
Fixpoint SyncPinnedFactsToMemory (facts : list PinnedFact) (mem : Mem) : Mem * nat :=
  match facts with
  | [] => (mem, 0)
  | f :: rest =>
    if decide (PF_Key f = "" \/ PF_Content f = "") then SyncPinnedFactsToMemory rest mem
    else
      let '(mem, ok) := MSet mem (pinnedMemoryKeyPrefix +:+ PF_Key f) (PF_Content f) in
      let '(mem, n) := SyncPinnedFactsToMemory rest mem in
      (mem, if ok : bool then S n else n)
  end.

(** [strings.TrimPrefix] for a text that has the prefix. *)
Definition after_prefix (s p : string) : string := str_from (String.length p) s.

Definition loaded_fact (now : Time) (r : string * string) : PinnedFact :=
  mkPinnedFact (after_prefix r.1 pinnedMemoryKeyPrefix) r.2 "memory" now [].

Definition LoadPinnedFactsFromMemory (mem : Mem) (now : Time) : list PinnedFact :=
  match MSearch mem pinnedMemoryKeyPrefix with
  | None => []
  | Some results =>
    loaded_fact now <$> filter (fun r => HasPrefix r.1 pinnedMemoryKeyPrefix = true /\ TrimSpace r.2 <> "") results
  end.

(** The facts that are written. *)
Definition durable (f : PinnedFact) : Prop := PF_Key f <> "" /\ PF_Content f <> "".

Lemma prefix_app_inj p s t : p +:+ s = p +:+ t -> s = t.
Proof. intros E. by rewrite <- (str_from_app p s), E, str_from_app. Qed.

(** When every write succeeds, the memory holds the last content of each key
    and is unchanged elsewhere. *)
Lemma sync_view facts mem mem' n :
  (forall m k v, (MSet m k v).2 = true) -> SyncPinnedFactsToMemory facts mem = (mem', n) ->
  n = length (filter durable facts)
  /\ (forall f, f ∈ facts -> durable f -> NoDup (PF_Key <$> filter durable facts) ->
        view mem' !! (pinnedMemoryKeyPrefix +:+ PF_Key f) = Some (PF_Content f))
  /\ (forall k, (forall f, f ∈ facts -> durable f -> k <> pinnedMemoryKeyPrefix +:+ PF_Key f) ->
        view mem' !! k = view mem !! k).
Proof.
  intros Hok. revert mem mem' n. induction facts as [|f facts IH]; intros mem mem' n Hs; cbn in Hs.
  { simplify_eq. split; [done|]. split; [|done]. intros f Hf. by apply elem_of_nil in Hf. }
  rewrite filter_cons. case_decide as Hd.
  - destruct (decide (durable f)) as [[??]|_]; [tauto|]. destruct (IH _ _ _ Hs) as (Hn & Hin & Hout).
    split; [done|]. split.
    + intros g [->|Hg]%elem_of_cons Hgd Hnd; [unfold durable in Hgd; tauto|auto].
    + intros k Hk. apply Hout. intros g Hg. apply Hk. by right.
  - destruct (decide (durable f)) as [Hdur|Hno]; [|exfalso; apply Hno; split; tauto].
    pose proof (Hok mem (pinnedMemoryKeyPrefix +:+ PF_Key f) (PF_Content f)) as Hset.
    destruct (MSet mem _ _) as [mem1 ok] eqn:Em. cbn in Hset. subst ok.
    destruct (SyncPinnedFactsToMemory facts mem1) as [mem2 n2] eqn:Es. simplify_eq.
    destruct (IH _ _ _ Es) as (-> & Hin & Hout). pose proof (MSet_view _ _ _ _ _ Em) as Hv. cbn in Hv.
    split; [done|]. split.
    + intros g [->|Hg]%elem_of_cons Hgd Hnd; cbn in Hnd; apply NoDup_cons in Hnd as [Hfresh Hnd]; [|by apply Hin].
      rewrite Hout; [by rewrite Hv, lookup_insert_eq|]. intros h Hh Hhd E%prefix_app_inj. apply Hfresh.
      rewrite E. by apply list_elem_of_fmap_2, list_elem_of_filter.
    + intros k Hk. rewrite Hout by (intros g Hg; apply Hk; by right). rewrite Hv.
      rewrite lookup_insert_ne; [done|]. intros <-. by apply (Hk f); [left|..].
Qed.

(** C35: pinned facts survive in the memory of the agent: after writing merged
    facts of distinct keys, loading finds every fact that has a key, with its
    content, and what it finds besides was in the memory before. *)
Theorem pinned_facts_roundtrip facts mem now :
  (forall m k v, (MSet m k v).2 = true) -> (forall m q, MSearch m q <> None) ->
  NoDup (PF_Key <$> filter durable facts) -> Forall (fun f => normalizePinnedFact f = f) facts ->
  let mem' := (SyncPinnedFactsToMemory facts mem).1 in
  let loaded := LoadPinnedFactsFromMemory mem' now in
  (SyncPinnedFactsToMemory facts mem).2 = length (filter durable facts)
  /\ (forall f, f ∈ facts -> durable f ->
        exists g, g ∈ loaded /\ PF_Key g = PF_Key f /\ PF_Content g = PF_Content f)
  /\ (forall g, g ∈ loaded ->
        (exists f, f ∈ facts /\ durable f /\ PF_Key f = PF_Key g /\ PF_Content f = PF_Content g)
        \/ view mem !! (pinnedMemoryKeyPrefix +:+ PF_Key g) = Some (PF_Content g)).
Proof.
  intros Hok Hsearch Hnd Hnorm. cbv zeta.
  destruct (SyncPinnedFactsToMemory facts mem) as [mem' n] eqn:Es. cbn [fst snd].
  destruct (sync_view _ _ _ _ Hok Es) as (-> & Hin & Hout). split; [done|].
  unfold LoadPinnedFactsFromMemory. destruct (MSearch mem' pinnedMemoryKeyPrefix) as [l|] eqn:El; [|by apply Hsearch in El].
  assert (Hpre : forall k, HasPrefix (pinnedMemoryKeyPrefix +:+ k) pinnedMemoryKeyPrefix = true)
    by (intros k; apply HasPrefix_spec; by exists k).
  split.
  - intros f Hf Hd. exists (loaded_fact now (pinnedMemoryKeyPrefix +:+ PF_Key f, PF_Content f)).
    split; [|split; [apply str_from_app|done]]. apply list_elem_of_fmap_2, list_elem_of_filter. cbn [fst snd]. split.
    + split; [apply Hpre|]. rewrite Forall_forall in Hnorm. specialize (Hnorm f Hf).
      apply (f_equal PF_Content) in Hnorm. cbn [PF_Content normalizePinnedFact] in Hnorm. rewrite Hnorm. apply Hd.
    + eapply MSearch_complete; [done|done|apply Hpre|]. by apply Hin.
  - intros g ([k v] & -> & [[Hp _] Hr]%list_elem_of_filter)%list_elem_of_fmap. cbn [fst snd] in *.
    apply HasPrefix_spec in Hp as [key ->]. unfold loaded_fact, after_prefix. cbn [fst snd PF_Key PF_Content].
    rewrite str_from_app. pose proof (MSearch_sound _ _ _ _ _ El Hr) as Hv.
    destruct (decide (Exists (fun f => durable f /\ PF_Key f = key) facts)) as [He|He].
    + left. apply Exists_exists in He as (f & Hf & Hd & <-). exists f. split; [done|]. split; [done|]. split; [done|].
      rewrite Hin in Hv by done. by injection Hv.
    + right. rewrite <- Hv. symmetry. apply Hout. intros f Hf Hd E%prefix_app_inj. apply He, Exists_exists. eauto.
Qed.
End Sync.

Lemma ascii_lower_app q s : is_ascii q = true -> ascii_lower (q +:+ s) = ascii_lower q +:+ ascii_lower s.
Proof.
  intros _. induction q as [|a q IH]; [done|]. change (String a q +:+ s) with (String a (q +:+ s)).
  cbn [ascii_lower]. by rewrite IH.
Qed.

Definition sample_memory : AgentMemory := kv_memory (U := ascii_unicode) ascii_lower_app 7.

Lemma keyed_empty : keyed ∅.
Proof. intros k e H. by rewrite lookup_empty in H. Qed.

Definition empty_memory : @Mem sample_memory := exist _ ∅ keyed_empty.

Definition sample_facts : list PinnedFact :=
  [mkPinnedFact "workspace" "/srv" "user" 5 []; mkPinnedFact "" "be brief" "user" 6 []].

Lemma pinned_facts_roundtrip_witness :
  exists g, g ∈ LoadPinnedFactsFromMemory (M := sample_memory)
                  (SyncPinnedFactsToMemory (M := sample_memory) sample_facts empty_memory).1 9
    /\ PF_Key g = "workspace" /\ PF_Content g = "/srv".
Proof.
  apply (pinned_facts_roundtrip (M := sample_memory) sample_facts empty_memory 9) with
    (f := mkPinnedFact "workspace" "/srv" "user" 5 []).
  - done.
  - done.
  - vm_compute. repeat constructor. intros H. inversion H.
  - repeat constructor; by vm_compute.
  - by left.
  - by split.
Defined.
