(* ===== verification/SegmentStore.v ===== *)
(** * Episodes and summary segments in the session store

    The tables [session_episodes] and [summary_segments] of [store/sqlite.go]
    with the operations of [store/sqlite_segment.go] and
    [store/sqlite_episode.go].  A table is the list of its rows, oldest first;
    a primary key that is taken makes an insert fail; a query filters, sorts by
    its columns (stably) and cuts.  Times are stored as text, so SQL compares
    their texts.  Lists and vectors are stored by invertible encodings and are
    their contents; errors of the database itself are not modelled. *)
From S2P Require Import Prelude GoLib GoText GoClock GoFloat GoSort.
From Stdlib Require Import Floats.SpecFloat.
Import Str Text GoTime.

Local Open Scope Z_scope.

(** ** Times as text *)

(** [t.Format(time.RFC3339Nano)] in UTC: the fraction has no trailing zeros. *)
Definition FormatRFC3339Nano (t : Time) : string :=
  let '(frac, seconds) := fmtFrac 9 t "" in
  let s := seconds mod 86400 in
  FormatDay t +:+ "T" +:+ padded 2 (s / 3600) +:+ ":" +:+ padded 2 (s / 60 mod 60) +:+ ":"
  +:+ padded 2 (s mod 60) +:+ frac +:+ "Z".

Definition formatTime (t : Time) : string := if IsZero t then "" else FormatRFC3339Nano t.

(** The binary collation of SQLite on times. *)
Definition text_before (t u : Time) : bool := String.ltb (formatTime t) (formatTime u).

(** the store keeps times as RFC 3339 text without trailing zeros and lets
    SQL compare the texts, which is not the order of the times: an instant can
    be before another one and come after it in every query that sorts or
    filters by a time. *)
Theorem stored_times_misordered :
  exists t u, t < u /\ text_before t u = false /\ text_before u t = true.
Proof. exists (738944 * Day + 5 * Hour), (738944 * Day + 5 * Hour + 500 * Millisecond). vm_compute. done. Qed.

(** ** Rows *)

Record SummarySegment := mkSegment {
  Sg_ID : string;
  Sg_SessionID : string;
  Sg_EpisodeID : string;
  Sg_Level : Z;
  Sg_SeqStart : Z;
  Sg_SeqEnd : Z;
  Sg_TSStart : Time;
  Sg_TSEnd : Time;
  Sg_SummaryText : string;
  Sg_Decisions : list string;
  Sg_TODOs : list string;
  Sg_Constraints : list string;
  Sg_Entities : list string;
  Sg_ArtifactRefs : list string;
  Sg_Embedding : list float64;
  Sg_Keywords : string;
  Sg_QualityScore : float64;
  Sg_ParentSegmentID : string;
  Sg_CreatedAt : Time }.

Record Episode := mkEpisode {
  Ep_ID : string;
  Ep_SessionID : string;
  Ep_SeqNum : Z;
  Ep_Status : string;
  Ep_StartedAt : Time;
  Ep_SealedAt : Time;
  Ep_SeqStart : option Z;
  Ep_SeqEnd : option Z;
  Ep_Count : Z;
  Ep_Reason : string }.

Record SegmentDB := mkSegmentDB {
  DB_Sessions : gset string; DB_Episodes : list Episode; DB_Segments : list SummarySegment }.

Inductive SegmentError :=
  | ErrSessionRequired | ErrEpisodeRequired | ErrSegmentRequired
  | ErrSeqStart | ErrSeqEnd | ErrSummaryRequired
  | ErrSessionNotFound | ErrEpisodeNotFound | ErrSegmentNotFound
  | ErrHasActive (id : string) | ErrConstraint.

(** ** Segments *)

Definition set_parent (parent : string) (s : SummarySegment) : SummarySegment :=
  mkSegment (Sg_ID s) (Sg_SessionID s) (Sg_EpisodeID s) (Sg_Level s) (Sg_SeqStart s) (Sg_SeqEnd s)
    (Sg_TSStart s) (Sg_TSEnd s) (Sg_SummaryText s) (Sg_Decisions s) (Sg_TODOs s) (Sg_Constraints s)
    (Sg_Entities s) (Sg_ArtifactRefs s) (Sg_Embedding s) (Sg_Keywords s) (Sg_QualityScore s)
    parent (Sg_CreatedAt s).

(** [normalizeSummarySegment]; [fresh] is the next random ID. *)
Definition normalizeSummarySegment (seg : SummarySegment) (fresh : string) (now : Time) :
    SegmentError + SummarySegment :=
  let session := TrimSpace (Sg_SessionID seg) in
  let episode := TrimSpace (Sg_EpisodeID seg) in
  let text := TrimSpace (Sg_SummaryText seg) in
  if decide (session = "") then inl ErrSessionRequired
  else if decide (episode = "") then inl ErrEpisodeRequired
  else if decide (Sg_SeqStart seg <= 0) then inl ErrSeqStart
  else if decide (Sg_SeqEnd seg < Sg_SeqStart seg) then inl ErrSeqEnd
  else if decide (text = "") then inl ErrSummaryRequired
  else
    let start := if IsZero (Sg_TSStart seg) then now else Sg_TSStart seg in
    let stop := if IsZero (Sg_TSEnd seg) then start else Sg_TSEnd seg in
    let stop := if Before stop start then start else stop in
    inr (mkSegment (if decide (Sg_ID seg = "") then fresh else Sg_ID seg) session episode
           (if decide (Sg_Level seg <= 0) then 1 else Sg_Level seg) (Sg_SeqStart seg) (Sg_SeqEnd seg)
           start stop text (Sg_Decisions seg) (Sg_TODOs seg) (Sg_Constraints seg) (Sg_Entities seg)
           (Sg_ArtifactRefs seg) (Sg_Embedding seg) (TrimSpace (Sg_Keywords seg)) (Sg_QualityScore seg)
           (TrimSpace (Sg_ParentSegmentID seg))
           (if IsZero (Sg_CreatedAt seg) then now else Sg_CreatedAt seg)).

(** The update of the episode of a segment of level one. *)
Definition count_segment (seg : SummarySegment) (e : Episode) : Episode :=
  mkEpisode (Ep_ID e) (Ep_SessionID e) (Ep_SeqNum e) (Ep_Status e) (Ep_StartedAt e) (Ep_SealedAt e)
    (Some (match Ep_SeqStart e with None => Sg_SeqStart seg | Some s => Z.min s (Sg_SeqStart seg) end))
    (Some (match Ep_SeqEnd e with None => Sg_SeqEnd seg | Some s => Z.max s (Sg_SeqEnd seg) end))
    (Ep_Count e + Z.max 0 (Sg_SeqEnd seg - Sg_SeqStart seg + 1)) (Ep_Reason e).

Definition InsertSegment (db : SegmentDB) (seg : SummarySegment) (fresh : string) (now : Time) :
    SegmentError + SegmentDB :=
  match normalizeSummarySegment seg fresh now with
  | inl e => inl e
  | inr n =>
    if existsb (fun e => bool_decide (Ep_ID e = Sg_EpisodeID n /\ Ep_SessionID e = Sg_SessionID n)) (DB_Episodes db)
    then
      if existsb (fun s => bool_decide (Sg_ID s = Sg_ID n)) (DB_Segments db) then inl ErrConstraint
      else
        let episodes := if decide (Sg_Level n = 1)
          then (fun e => if decide (Ep_ID e = Sg_EpisodeID n) then count_segment n e else e) <$> DB_Episodes db
          else DB_Episodes db in
        inr (mkSegmentDB (DB_Sessions db) episodes (DB_Segments db ++ [n]))
    else inl ErrEpisodeNotFound
  end.

Definition segment_by_start (a b : SummarySegment) : bool :=
  if decide (Sg_SeqStart a = Sg_SeqStart b) then text_before (Sg_CreatedAt a) (Sg_CreatedAt b)
  else bool_decide (Sg_SeqStart a < Sg_SeqStart b).

Definition segment_by_level (a b : SummarySegment) : bool :=
  if decide (Sg_Level a = Sg_Level b) then segment_by_start a b else bool_decide (Sg_Level a < Sg_Level b).

Definition segment_newest (a b : SummarySegment) : bool :=
  if decide (Sg_SeqStart a = Sg_SeqStart b) then text_before (Sg_CreatedAt b) (Sg_CreatedAt a)
  else bool_decide (Sg_SeqStart b < Sg_SeqStart a).

Definition RecentSegments (db : SegmentDB) (sessionID : string) (level limit : Z) :
    SegmentError + list SummarySegment :=
  let sessionID := TrimSpace sessionID in
  if decide (sessionID = "") then inl ErrSessionRequired else
  let level := if decide (level <= 0) then 1 else level in
  let limit := if decide (limit <= 0) then 1 else limit in
  inr (take (Z.to_nat limit)
         (SliceStable segment_newest
            (filter (fun s => Sg_SessionID s = sessionID /\ Sg_Level s = level) (DB_Segments db)))).

Definition SegmentsByEpisode (db : SegmentDB) (episodeID : string) : SegmentError + list SummarySegment :=
  let episodeID := TrimSpace episodeID in
  if decide (episodeID = "") then inl ErrEpisodeRequired else
  inr (SliceStable segment_by_level (filter (fun s => Sg_EpisodeID s = episodeID) (DB_Segments db))).

(** A segment of level one that no segment of level two covers. *)
Definition unparented (episodeID : string) (s : SummarySegment) : Prop :=
  Sg_EpisodeID s = episodeID /\ Sg_Level s = 1 /\ Sg_ParentSegmentID s = "".

Definition UnparentedL1Segments (db : SegmentDB) (episodeID : string) (limit : Z) :
    SegmentError + list SummarySegment :=
  let episodeID := TrimSpace episodeID in
  if decide (episodeID = "") then inl ErrEpisodeRequired else
  let rows := SliceStable segment_by_start (filter (unparented episodeID) (DB_Segments db)) in
  inr (if decide (0 < limit) then take (Z.to_nat limit) rows else rows).

Definition UpdateParentSegmentID (db : SegmentDB) (segmentID parentID : string) : SegmentError + SegmentDB :=
  let segmentID := TrimSpace segmentID in
  if decide (segmentID = "") then inl ErrSegmentRequired
  else if existsb (fun s => bool_decide (Sg_ID s = segmentID)) (DB_Segments db) then
    inr (mkSegmentDB (DB_Sessions db) (DB_Episodes db)
           ((fun s => if decide (Sg_ID s = segmentID) then set_parent (TrimSpace parentID) s else s)
            <$> DB_Segments db))
  else inl ErrSegmentNotFound.

(** ** Episodes *)

Definition StatusActive : string := "active".
Definition StatusSealed : string := "sealed".

(** The active episodes of a session, the highest number first. *)
Definition episode_newest (a b : Episode) : bool := bool_decide (Ep_SeqNum b < Ep_SeqNum a).

Definition active_episodes (db : SegmentDB) (sessionID : string) : list Episode :=
  SliceStable episode_newest
    (filter (fun e => Ep_SessionID e = sessionID /\ Ep_Status e = StatusActive) (DB_Episodes db)).

Definition ActiveEpisode (db : SegmentDB) (sessionID : string) : SegmentError + string :=
  let sessionID := TrimSpace sessionID in
  if decide (sessionID = "") then inl ErrSessionRequired
  else inr (match active_episodes db sessionID with e :: _ => Ep_ID e | [] => "" end).

(** [COALESCE(MAX(seq_num), 0) + 1]. *)
Definition next_seq (db : SegmentDB) (sessionID : string) : Z :=
  match Ep_SeqNum <$> filter (fun e => Ep_SessionID e = sessionID) (DB_Episodes db) with
  | [] => 1
  | n :: rest => foldl Z.max n rest + 1
  end.

Definition CreateEpisode (db : SegmentDB) (sessionID reason fresh : string) (now : Time) :
    SegmentError + (SegmentDB * string) :=
  let sessionID := TrimSpace sessionID in
  if decide (sessionID = "") then inl ErrSessionRequired
  else if decide (sessionID ∉ DB_Sessions db) then inl ErrSessionNotFound
  else
    let activeID := match active_episodes db sessionID with e :: _ => Ep_ID e | [] => "" end in
    if decide (TrimSpace activeID <> "") then inl (ErrHasActive activeID)
    else if existsb (fun e => bool_decide (Ep_ID e = fresh)) (DB_Episodes db) then inl ErrConstraint
    else
      let e := mkEpisode fresh sessionID (next_seq db sessionID) StatusActive now zeroTime None None 0
                 (TrimSpace reason) in
      inr (mkSegmentDB (DB_Sessions db) (DB_Episodes db ++ [e]) (DB_Segments db), fresh).

Definition seal (seqEnd : Z) (now : Time) (e : Episode) : Episode :=
  mkEpisode (Ep_ID e) (Ep_SessionID e) (Ep_SeqNum e) StatusSealed (Ep_StartedAt e) now (Ep_SeqStart e)
    (if decide (0 < seqEnd)
     then Some (match Ep_SeqEnd e with None => seqEnd | Some s => Z.max s seqEnd end) else Ep_SeqEnd e)
    (Ep_Count e) (Ep_Reason e).

(** The statement of [SealEpisode]; the overview that it then generates is in
    [SegmentRollup]. *)
Definition seal_rows (db : SegmentDB) (episodeID : string) (seqEnd : Z) (now : Time) : SegmentError + SegmentDB :=
  let episodeID := TrimSpace episodeID in
  if decide (episodeID = "") then inl ErrEpisodeRequired
  else if existsb (fun e => bool_decide (Ep_ID e = episodeID)) (DB_Episodes db) then
    inr (mkSegmentDB (DB_Sessions db)
           ((fun e => if decide (Ep_ID e = episodeID) then seal seqEnd now e else e) <$> DB_Episodes db)
           (DB_Segments db))
  else inl ErrEpisodeNotFound.

Definition episode_by_number (a b : Episode) : bool := bool_decide (Ep_SeqNum a < Ep_SeqNum b).

Definition ListEpisodes (db : SegmentDB) (sessionID : string) : SegmentError + list Episode :=
  let sessionID := TrimSpace sessionID in
  if decide (sessionID = "") then inl ErrSessionRequired
  else inr (SliceStable episode_by_number (filter (fun e => Ep_SessionID e = sessionID) (DB_Episodes db))).

Definition defaultEpisodeReason (reason : string) : string :=
  if decide (TrimSpace reason = "") then "default" else TrimSpace reason.

Definition EnsureActiveEpisode (db : SegmentDB) (sessionID reason fresh : string) (now : Time) :
    SegmentError + (SegmentDB * string) :=
  match ActiveEpisode db sessionID with
  | inl e => inl e
  | inr id => if decide (TrimSpace id <> "") then inr (db, id)
              else CreateEpisode db sessionID (defaultEpisodeReason reason) fresh now
  end.

(** ** The invariant of the tables *)

Record segment_ok (db : SegmentDB) (s : SummarySegment) : Prop := {
  ok_id : Sg_ID s <> "";
  ok_level : 1 <= Sg_Level s;
  ok_range : 0 < Sg_SeqStart s <= Sg_SeqEnd s;
  ok_times : Sg_TSStart s <= Sg_TSEnd s;
  ok_text : Sg_SummaryText s <> "" /\ Trimmed (Sg_SummaryText s);
  ok_parent : Trimmed (Sg_ParentSegmentID s);
  ok_owner : Trimmed (Sg_SessionID s) /\ Trimmed (Sg_EpisodeID s)
             /\ Sg_SessionID s <> "" /\ Sg_EpisodeID s <> "";
  ok_episode : exists e, e ∈ DB_Episodes db /\ Ep_ID e = Sg_EpisodeID s /\ Ep_SessionID e = Sg_SessionID s
}.

Record episode_ok (db : SegmentDB) (e : Episode) : Prop := {
  ep_id : TrimSpace (Ep_ID e) <> "";
  ep_session : Ep_SessionID e ∈ DB_Sessions db;
  ep_number : 1 <= Ep_SeqNum e
}.

(** One active episode per session, and numbers that tell episodes apart. *)
Definition episodes_apart (l : list Episode) : Prop :=
  forall i j a b, l !! i = Some a -> l !! j = Some b -> Ep_SessionID a = Ep_SessionID b ->
    i = j \/ Ep_SeqNum a <> Ep_SeqNum b /\ ~ (Ep_Status a = StatusActive /\ Ep_Status b = StatusActive).

Record db_ok (db : SegmentDB) : Prop := {
  db_ids : NoDup (Sg_ID <$> DB_Segments db);
  db_ep_ids : NoDup (Ep_ID <$> DB_Episodes db);
  db_segments : Forall (segment_ok db) (DB_Segments db);
  db_episodes : Forall (episode_ok db) (DB_Episodes db);
  db_apart : episodes_apart (DB_Episodes db)
}.

Lemma existsb_key {A} (key : A -> string) (l : list A) id :
  existsb (fun x => bool_decide (key x = id)) l = true <-> id ∈ key <$> l.
Proof.
  rewrite existsb_exists, list_elem_of_fmap. setoid_rewrite <- list_elem_of_In.
  setoid_rewrite bool_decide_eq_true. naive_solver.
Qed.

Lemma existsb_key_false {A} (key : A -> string) (l : list A) id :
  existsb (fun x => bool_decide (key x = id)) l = false <-> id ∉ key <$> l.
Proof. rewrite <- (existsb_key key l id), not_true_iff_false. done. Qed.

(** Rewriting rows that keep their keys. *)
Lemma fmap_key {A B} (key : A -> B) (f : A -> A) (l : list A) :
  (forall x, key (f x) = key x) -> key <$> (f <$> l) = key <$> l.
Proof. intros H. rewrite <- list_fmap_compose. apply list_fmap_ext. intros i x _. apply H. Qed.

(** The segments stay in order when the episodes are rewritten in place. *)
Lemma segment_ok_episodes db db' s :
  (forall e, e ∈ DB_Episodes db -> exists e', e' ∈ DB_Episodes db' /\ Ep_ID e' = Ep_ID e
     /\ Ep_SessionID e' = Ep_SessionID e) ->
  segment_ok db s -> segment_ok db' s.
Proof.
  intros H []. constructor; [done..|]. destruct ok_episode0 as (e & He & E1 & E2).
  destruct (H e He) as (e' & He' & E1' & E2'). exists e'. split; [done|]. split; congruence.
Qed.

Lemma normalize_segment_ok db seg fresh now n :
  fresh <> "" -> normalizeSummarySegment seg fresh now = inr n ->
  (exists e, e ∈ DB_Episodes db /\ Ep_ID e = Sg_EpisodeID n /\ Ep_SessionID e = Sg_SessionID n) ->
  segment_ok db n.
Proof.
  unfold normalizeSummarySegment. intros Hf Hn He. repeat case_decide; simplify_eq;
    (constructor; cbn [Sg_ID Sg_Level Sg_SeqStart Sg_SeqEnd Sg_TSStart Sg_TSEnd Sg_SummaryText
       Sg_ParentSegmentID Sg_SessionID Sg_EpisodeID] in *; auto with golib; try lia);
    try (unfold Before; case_bool_decide; lia); split_and!; auto with golib.
Qed.

(** An update of episodes that keeps what identifies them. *)
Record keeps_episode (f : Episode -> Episode) : Prop := {
  ke_id e : Ep_ID (f e) = Ep_ID e;
  ke_session e : Ep_SessionID (f e) = Ep_SessionID e;
  ke_number e : Ep_SeqNum (f e) = Ep_SeqNum e;
  ke_status e : Ep_Status (f e) = StatusActive -> Ep_Status e = StatusActive
}.

Lemma db_ok_episodes db f :
  keeps_episode f -> db_ok db -> db_ok (mkSegmentDB (DB_Sessions db) (f <$> DB_Episodes db) (DB_Segments db)).
Proof.
  intros [Hid Hs Hn Hst] [H1 H2 H3 H4 H5]. constructor; cbn [DB_Sessions DB_Episodes DB_Segments]; [done|..].
  - by rewrite fmap_key.
  - eapply Forall_impl; [exact H3|]. intros s. apply segment_ok_episodes. intros e He.
    exists (f e). split; [by apply list_elem_of_fmap_2|]. by rewrite Hid, Hs.
  - apply Forall_fmap. eapply Forall_impl; [exact H4|]. intros e [a b c]. constructor; cbn [DB_Sessions].
    + by rewrite Hid.
    + by rewrite Hs.
    + by rewrite Hn.
  - intros i j a b Ha Hb Hab. rewrite list_lookup_fmap in Ha, Hb.
    destruct (DB_Episodes db !! i) as [a'|] eqn:Ea; [|done]. destruct (DB_Episodes db !! j) as [b'|] eqn:Eb; [|done].
    cbn in Ha, Hb. simplify_eq. rewrite !Hs in Hab. rewrite !Hn.
    destruct (H5 i j a' b' Ea Eb Hab) as [->|[Hne Hact]]; [by left|right]. split; [done|].
    intros [Ha Hb]. apply Hact. split; by apply Hst.
Qed.

Lemma count_segment_keeps n id : keeps_episode (fun e => if decide (Ep_ID e = id) then count_segment n e else e).
Proof. constructor; intros e; by case_decide. Qed.

Lemma seal_keeps seqEnd now id : keeps_episode (fun e => if decide (Ep_ID e = id) then seal seqEnd now e else e).
Proof. constructor; intros e; by case_decide. Qed.

Lemma InsertSegment_shape db seg fresh now db' :
  InsertSegment db seg fresh now = inr db' ->
  exists n f, normalizeSummarySegment seg fresh now = inr n /\ keeps_episode f
    /\ db' = mkSegmentDB (DB_Sessions db) (f <$> DB_Episodes db) (DB_Segments db ++ [n])
    /\ Sg_ID n ∉ Sg_ID <$> DB_Segments db
    /\ exists e, e ∈ DB_Episodes db /\ Ep_ID e = Sg_EpisodeID n /\ Ep_SessionID e = Sg_SessionID n.
Proof.
  unfold InsertSegment. destruct (normalizeSummarySegment seg fresh now) as [|n]; [done|].
  destruct (existsb _ (DB_Episodes db)) eqn:He; [|done].
  destruct (existsb _ (DB_Segments db)) eqn:Hs; [done|]. intros [= <-].
  apply existsb_key_false in Hs. apply existsb_exists in He as (e & He%list_elem_of_In & Ee).
  bool_prop. exists n, (if decide (Sg_Level n = 1) then (fun e => if decide (Ep_ID e = Sg_EpisodeID n) then count_segment n e else e) else id).
  split; [done|]. split; [case_decide; [apply count_segment_keeps|by constructor]|].
  split; [case_decide; [done|by rewrite list_fmap_id]|]. split; [done|]. naive_solver.
Qed.

Lemma InsertSegment_ok db seg fresh now db' :
  fresh <> "" -> db_ok db -> InsertSegment db seg fresh now = inr db' -> db_ok db'.
Proof.
  intros Hf Hok Hi. destruct (InsertSegment_shape _ _ _ _ _ Hi) as (n & f & Hn & Hk & -> & Hid & He).
  pose proof (db_ok_episodes db f Hk Hok) as [H1 H2 H3 H4 H5]. cbn [DB_Sessions DB_Episodes DB_Segments] in *.
  constructor; cbn [DB_Sessions DB_Episodes DB_Segments]; [|done|..|done].
  - rewrite fmap_app. apply NoDup_app. split; [done|]. split; [|apply NoDup_singleton].
    intros x Hx ->%list_elem_of_singleton. done.
  - apply Forall_app. split; [eapply Forall_impl; [exact H3|]; intros s; by apply segment_ok_episodes; eauto|].
    apply Forall_singleton. eapply normalize_segment_ok; [done..|]. destruct He as (e & He & E1 & E2).
    cbn [DB_Episodes]. exists (f e). split; [by apply list_elem_of_fmap_2|].
    by rewrite (ke_id f Hk), (ke_session f Hk).
  - eapply Forall_impl; [exact H4|]. intros e []. by constructor.
Qed.

Lemma UpdateParent_shape db id parent db' :
  UpdateParentSegmentID db id parent = inr db' ->
  db' = mkSegmentDB (DB_Sessions db) (DB_Episodes db)
          ((fun s => if decide (Sg_ID s = TrimSpace id) then set_parent (TrimSpace parent) s else s)
           <$> DB_Segments db).
Proof. unfold UpdateParentSegmentID. case_decide; [done|]. destruct (existsb _ _); [|done]. by intros [= <-]. Qed.

Lemma UpdateParent_ok db id parent db' :
  db_ok db -> UpdateParentSegmentID db id parent = inr db' -> db_ok db'.
Proof.
  intros [H1 H2 H3 H4 H5] ->%UpdateParent_shape. constructor; cbn [DB_Sessions DB_Episodes DB_Segments]; [|done|..|done].
  - rewrite fmap_key; [done|]. intros s. by case_decide.
  - apply Forall_fmap. eapply Forall_impl; [exact H3|]. intros s [].
    cbn [compose]. unfold compose. case_decide; constructor; cbn [set_parent Sg_ID Sg_Level Sg_SeqStart Sg_SeqEnd Sg_TSStart Sg_TSEnd
      Sg_SummaryText Sg_ParentSegmentID Sg_SessionID Sg_EpisodeID DB_Episodes]; auto with golib.
  - eapply Forall_impl; [exact H4|]. intros e []. by constructor.
Qed.

Lemma next_seq_gt db sid e : e ∈ DB_Episodes db -> Ep_SessionID e = sid -> Ep_SeqNum e < next_seq db sid.
Proof.
  intros He Hs. unfold next_seq.
  assert (Hin : Ep_SeqNum e ∈ Ep_SeqNum <$> filter (fun e => Ep_SessionID e = sid) (DB_Episodes db))
    by (by apply list_elem_of_fmap_2, list_elem_of_filter).
  destruct (Ep_SeqNum <$> _) as [|n rest]; [by apply elem_of_nil in Hin|].
  assert (Hmax : forall a, a <= foldl Z.max a rest /\ forall x, x ∈ rest -> x <= foldl Z.max a rest).
  { clear. induction rest as [|y rest IH]; intros a; cbn [foldl]; [split; [lia|set_solver]|].
    destruct (IH (Z.max a y)) as [Ha Hx]. split; [lia|].
    intros x [->|Hr]%elem_of_cons; [lia|by apply Hx]. }
  destruct (Hmax n) as [Ha Hx]. apply elem_of_cons in Hin as [->|Hin]; [lia|]. specialize (Hx _ Hin). lia.
Qed.

Lemma no_active db sid :
  Forall (episode_ok db) (DB_Episodes db) ->
  TrimSpace (match active_episodes db sid with e :: _ => Ep_ID e | [] => "" end) = "" ->
  forall e, e ∈ DB_Episodes db -> Ep_SessionID e = sid -> Ep_Status e <> StatusActive.
Proof.
  intros Hok Hno e He Hs Hst.
  assert (Hin : e ∈ active_episodes db sid) by (unfold active_episodes; rewrite SliceStable_perm; by apply list_elem_of_filter).
  destruct (active_episodes db sid) as [|a l] eqn:Ea; [by apply elem_of_nil in Hin|].
  assert (Ha : a ∈ DB_Episodes db).
  { assert (a ∈ active_episodes db sid) as H by (rewrite Ea; by left). unfold active_episodes in H.
    rewrite SliceStable_perm in H. by apply list_elem_of_filter in H as [_ ?]. }
  rewrite Forall_forall in Hok. by apply (ep_id db a (Hok a Ha)).
Qed.

Lemma CreateEpisode_ok db sid reason fresh now db' id :
  TrimSpace fresh <> "" -> db_ok db -> CreateEpisode db sid reason fresh now = inr (db', id) -> db_ok db'.
Proof.
  unfold CreateEpisode. intros Hf [H1 H2 H3 H4 H5]. set (s := TrimSpace sid).
  destruct (decide (s = "")) as [|Hs0]; [done|]. destruct (decide (s ∉ DB_Sessions db)) as [|Hin]; [done|].
  destruct (decide (_ <> "")) as [|Hact]; [done|]. apply dec_stable in Hact.
  destruct (existsb _ _) eqn:Hid; [done|]. intros [= <- <-]. apply existsb_key_false in Hid.
  pose proof (no_active db s H4 Hact) as Hna. pose proof (fun e => next_seq_gt db s e) as Hgt.
  assert (Hpos : 1 <= next_seq db s).
  { unfold next_seq. destruct (Ep_SeqNum <$> _) as [|n rest] eqn:E; [lia|].
    assert (Hn : n ∈ Ep_SeqNum <$> filter (fun e => Ep_SessionID e = s) (DB_Episodes db)) by (rewrite E; by left).
    apply list_elem_of_fmap in Hn as (e & -> & [He1 He2]%list_elem_of_filter).
    specialize (Hgt e He2 He1). unfold next_seq in Hgt. rewrite E in Hgt.
    rewrite Forall_forall in H4. destruct (H4 e He2). lia. }
  constructor; cbn [DB_Sessions DB_Episodes DB_Segments]; [done|..].
  - rewrite fmap_app. apply NoDup_app. split; [done|]. split; [|apply NoDup_singleton].
    intros x Hx ->%list_elem_of_singleton. done.
  - eapply Forall_impl; [exact H3|]. intros x. apply segment_ok_episodes. intros e He.
    exists e. cbn [DB_Episodes]. split; [by apply elem_of_app; left|done].
  - apply Forall_app. split; [eapply Forall_impl; [exact H4|]; intros e []; by constructor|].
    apply Forall_singleton. constructor; cbn; [done|by destruct (decide (s ∈ DB_Sessions db))|done].
  - intros i j a b Ha Hb Hab. apply lookup_app_Some in Ha as [Ha|[Hi Ha]], Hb as [Hb|[Hj Hb]].
    + by apply (H5 i j a b).
    + apply list_lookup_singleton_Some in Hb as [_ <-]. apply list_elem_of_lookup_2 in Ha. right. cbn in *.
      specialize (Hgt a Ha Hab). split; [lia|]. intros [Hst _]. by apply (Hna a).
    + apply list_lookup_singleton_Some in Ha as [_ <-]. apply list_elem_of_lookup_2 in Hb. right. cbn in *.
      specialize (Hgt b Hb (eq_sym Hab)). split; [lia|]. intros [_ Hst]. by apply (Hna b).
    + apply list_lookup_singleton_Some in Ha as [Ha _], Hb as [Hb _]. left. lia.
Qed.

(** *** Histories *)

Inductive segment_op :=
  | OpInsert (seg : SummarySegment) (fresh : string) (now : Time)
  | OpParent (id parent : string)
  | OpCreate (sessionID reason fresh : string) (now : Time)
  | OpSeal (episodeID : string) (seqEnd : Z) (now : Time).

Definition keep_on_error {A} (f : A -> SegmentDB) (db : SegmentDB) (r : SegmentError + A) : SegmentDB :=
  match r with inl _ => db | inr x => f x end.

Definition segment_step (db : SegmentDB) (op : segment_op) : SegmentDB :=
  match op with
  | OpInsert seg fresh now => keep_on_error id db (InsertSegment db seg fresh now)
  | OpParent i p => keep_on_error id db (UpdateParentSegmentID db i p)
  | OpCreate s r fresh now => keep_on_error fst db (CreateEpisode db s r fresh now)
  | OpSeal e n now => keep_on_error id db (seal_rows db e n now)
  end.

(** Random IDs are not blank. *)
Definition fresh_ok (op : segment_op) : Prop :=
  match op with
  | OpInsert _ fresh _ | OpCreate _ _ fresh _ => TrimSpace fresh <> ""
  | _ => True
  end.

Lemma segment_step_ok db op : fresh_ok op -> db_ok db -> db_ok (segment_step db op).
Proof.
  intros Hf Hok. destruct op as [seg fresh now|i p|s r fresh now|e n now]; cbn [segment_step keep_on_error] in *.
  - destruct (InsertSegment db seg fresh now) eqn:E; [done|]. eapply InsertSegment_ok; [|done..].
    intros ->. by apply Hf.
  - destruct (UpdateParentSegmentID db i p) eqn:E; [done|]. by eapply UpdateParent_ok.
  - destruct (CreateEpisode db s r fresh now) as [|[db' id]] eqn:E; [done|]. by eapply CreateEpisode_ok.
  - unfold seal_rows. cbv zeta. case_decide; [done|]. destruct (existsb _ _); [|done].
    apply db_ok_episodes; [apply seal_keeps|done].
Qed.

(** whatever is written to the tables of episodes and segments, in whatever
    order and with whatever errors, every segment has an identifier of its own,
    a range of messages that is not empty, an ordered range of times, a text and
    an episode of its session, and a session has at most one active episode and
    distinct episode numbers. *)
Theorem segment_tables_ok db ops :
  db_ok db -> Forall fresh_ok ops -> db_ok (foldl segment_step db ops).
Proof.
  intros Hok Hf. revert db Hok. induction Hf as [|op ops Hop Hf IH]; intros db Hok; cbn; [done|].
  apply IH. by apply segment_step_ok.
Qed.

Definition sample_segment (n : Z) : SummarySegment :=
  mkSegment "" " s1" "ep-1" 0 n (n + 4) 0 0 "Decided on staging." [] [] [] [] [] [] "" (of_int 0) "" 0.

Definition sample_ops : list segment_op :=
  [OpCreate "s1" "default" "ep-1" 100; OpInsert (sample_segment 1) "seg-1" 110;
   OpInsert (sample_segment 0) "seg-2" 111; OpCreate "s1" "second" "ep-2" 120;
   OpSeal "ep-1" 9 130; OpCreate "s1" "second" "ep-2" 140].

Lemma db_ok_empty sessions : db_ok (mkSegmentDB sessions [] []).
Proof.
  constructor; cbn; [constructor..|]. intros i j a b Ha. done.
Qed.

Lemma segment_tables_ok_witness :
  db_ok (foldl segment_step (mkSegmentDB {[ "s1" ]} [] []) sample_ops)
  /\ (Sg_ID <$> DB_Segments (foldl segment_step (mkSegmentDB {[ "s1" ]} [] []) sample_ops)) = ["seg-1"].
Proof.
  split; [|vm_compute; reflexivity].
  apply (segment_tables_ok (mkSegmentDB {[ "s1" ]} [] []) sample_ops); [apply db_ok_empty|].
  repeat constructor; by vm_compute.
Defined.
