(* ===== verification/SegmentRollup.v ===== *)
(** * Roll-ups of summary segments ([contextengine/segment_rollup.go])

    Every eight segments of level one that no other segment covers are summed
    up by a segment of level two; when an episode is sealed a segment of level
    three gives the overview.  The segments are in the tables of
    [SegmentStore]; the IDs that are drawn are an argument. *)
From S2P Require Import Prelude GoLib GoText GoFloat GoSort ContextMessages ContextSummary ContextPinned SegmentStore.
From Stdlib Require Import Ascii Floats.SpecFloat.
From stdpp Require Import sorting.
Import Str Text GoTime.

Local Open Scope Z_scope.

Definition l2RollupBatchSize : nat := 8.

(** ** What a segment says about its contents *)

(** Letters, digits, underscore and hyphen, in lower case. *)
Definition word_byte (a : ascii) : bool :=
  byte_is 95 a || byte_is 45 a || byte_in 48 57 a || byte_in 97 122 a.

(** [strings.FieldsFunc] with the other bytes as separators; [cur] is the
    current word, last byte first. *)
Fixpoint words_loop (cur : bytes) (l : bytes) : list bytes :=
  let flush (rest : list bytes) := match cur with [] => rest | _ => rev cur :: rest end in
  match l with
  | [] => flush []
  | a :: rest => if word_byte a then words_loop (a :: cur) rest else flush (words_loop [] rest)
  end.

Definition word_fields (s : string) : list string :=
  String.string_of_list_ascii <$> words_loop [] (String.list_ascii_of_string s).

Section Unicode.
Context {U : GoUnicode}.

Definition keyword_set (texts : list string) : gset string :=
  list_to_set (filter (fun w => (3 <= String.length w)%nat)
                 (List.concat ((fun t => word_fields (ToLower t)) <$> texts))).

Definition buildSegmentKeywords (summary : string) (groups : list (list string)) : string :=
  Joins (merge_sort String.le (elements (keyword_set (summary :: List.concat groups)))) " ".

Definition segmentQualityScore (summary : string) (decisions todos constraints entities : list string) : float64 :=
  let bonus (b : bool) (v : float64) (score : float64) := if b then fadd score v else score in
  let some (l : list string) := match l with [] => false | _ => true end in
  let score := lit 4 10 in
  let score := bonus (bool_decide (TrimSpace summary <> "")) (lit 2 10) score in
  let score := bonus (some decisions) (lit 1 10) score in
  let score := bonus (some todos) (lit 1 10) score in
  let score := bonus (some constraints) (lit 1 10) score in
  let score := bonus (some entities) (lit 1 10) score in
  if fltb (of_int 1) score then of_int 1 else score.

Definition extractArtifactRefs (entities : list string) : list string :=
  dedupeStrings (filter (fun e => Contains e "://" || Contains e "/" || Contains e "\" = true) entities).

(** ** Building a roll-up *)

(** [sortSegmentsForRollup]. *)
Definition rollup_less (a b : SummarySegment) : bool :=
  if decide (Sg_SeqStart a <> Sg_SeqStart b) then bool_decide (Sg_SeqStart a < Sg_SeqStart b)
  else if decide (Sg_Level a <> Sg_Level b) then bool_decide (Sg_Level a < Sg_Level b)
  else Before (Sg_CreatedAt a) (Sg_CreatedAt b).

Definition sortSegmentsForRollup : list SummarySegment -> list SummarySegment := SliceStable rollup_less.

(** [rollupStartTime] and [rollupEndTime] of a nonempty list. *)
Definition rollupStartTime (first : SummarySegment) (rest : list SummarySegment) (now : Time) : Time :=
  let start := foldl (fun start s =>
      if IsZero start || (negb (IsZero (Sg_TSStart s)) && Before (Sg_TSStart s) start)
      then Sg_TSStart s else start) (Sg_TSStart first) rest in
  if IsZero start then now else start.

Definition rollupEndTime (first : SummarySegment) (rest : list SummarySegment) (now : Time) : Time :=
  let stop := foldl (fun stop s => if IsZero stop || After (Sg_TSEnd s) stop then Sg_TSEnd s else stop)
                (Sg_TSEnd first) rest in
  if IsZero stop then rollupStartTime first rest now else stop.

Definition aggregateSegmentValues (segments : list SummarySegment) (values : SummarySegment -> list string) :
    list string := dedupeStrings (List.concat (values <$> segments)).

Definition labelled (label sep : string) (limit : nat) (values : list string) : list string :=
  match values with [] => [] | _ => [label +:+ Joins (limitStrings values limit) sep] end.

Definition buildRollupSummaryText (level : Z) (first last : SummarySegment) (segments : list SummarySegment)
    (decisions todos constraints entities : list string) : string :=
  let highlights := dedupeStrings
    ((fun s => softTrimContent (TrimSpace (Sg_SummaryText s)) 220 0)
     <$> filter (fun s => TrimSpace (Sg_SummaryText s) <> "") segments) in
  let range := " covering seq " +:+ FormatInt (Sg_SeqStart first) +:+ "-" +:+ FormatInt (Sg_SeqEnd last) +:+ "." in
  let header := (if decide (level = 3) then "Episode overview" else "Roll-up") +:+ range in
  TrimSpace (Joins ([header] ++ labelled "Highlights: " " " 2 highlights
    ++ labelled "Decisions: " " | " 3 decisions ++ labelled "TODOs: " " | " 3 todos
    ++ labelled "Constraints: " " | " 3 constraints ++ labelled "Entities: " " | " 4 entities) nl).

(** [buildRollupSegment]; [None] for no source, where the source returns the
    zero segment. *)
Definition buildRollupSegment (level : Z) (source : list SummarySegment) (id : string) (now : Time) :
    option SummarySegment :=
  match sortSegmentsForRollup source with
  | [] => None
  | first :: rest =>
    let segments := first :: rest in
    let final := default first (last rest) in
    let decisions := aggregateSegmentValues segments Sg_Decisions in
    let todos := aggregateSegmentValues segments Sg_TODOs in
    let constraints := aggregateSegmentValues segments Sg_Constraints in
    let entities := aggregateSegmentValues segments Sg_Entities in
    let summary := buildRollupSummaryText level first final segments decisions todos constraints entities in
    Some (mkSegment id (TrimSpace (Sg_SessionID first)) (TrimSpace (Sg_EpisodeID first)) level
            (Sg_SeqStart first) (Sg_SeqEnd final) (rollupStartTime first rest now) (rollupEndTime first rest now)
            summary decisions todos constraints entities (extractArtifactRefs entities) []
            (buildSegmentKeywords summary [decisions; todos; constraints; entities])
            (segmentQualityScore summary decisions todos constraints entities) "" now)
  end.

(** ** Level two *)

(** The loop that gives the children their parent; it stops at an error. *)
Fixpoint adopt_loop (db : SegmentDB) (children : list SummarySegment) (parent : string) :
    SegmentDB * option SegmentError :=
  match children with
  | [] => (db, None)
  | c :: rest =>
    if decide (TrimSpace (Sg_ID c) = "") then adopt_loop db rest parent
    else match UpdateParentSegmentID db (Sg_ID c) parent with
         | inl e => (db, Some e)
         | inr db' => adopt_loop db' rest parent
         end
  end.

(** The loop of [MaybeGenerateL2]; [None] when the fuel runs out.  [ids] are the
    IDs that [newGeneratedSegmentID] draws, by round. *)
Fixpoint l2_loop (fuel : nat) (db : SegmentDB) (episodeID : string) (ids : nat -> string) (round : nat) (now : Time) :
    option (SegmentDB * option SegmentError) :=
  match fuel with
  | O => None
  | S fuel' =>
    match UnparentedL1Segments db episodeID (Z.of_nat l2RollupBatchSize) with
    | inl e => Some (db, Some e)
    | inr children =>
      if decide (length children < l2RollupBatchSize)%nat then Some (db, None) else
      match buildRollupSegment 2 (take l2RollupBatchSize children) (ids round) now with
      | None => Some (db, None)
      | Some rollup =>
        match InsertSegment db rollup (ids round) now with
        | inl e => Some (db, Some e)
        | inr db1 =>
          match adopt_loop db1 (take l2RollupBatchSize children) (Sg_ID rollup) with
          | (db2, Some e) => Some (db2, Some e)
          | (db2, None) => l2_loop fuel' db2 episodeID ids (S round) now
          end
        end
      end
    end
  end.

Definition MaybeGenerateL2 (fuel : nat) (db : SegmentDB) (episodeID : string) (ids : nat -> string) (now : Time) :
    option (SegmentDB * option SegmentError) :=
  let episodeID := TrimSpace episodeID in
  if decide (episodeID = "") then Some (db, None) else l2_loop fuel db episodeID ids 0 now.

(** ** Level three *)

Definition selectOverviewSourceSegments (segments : list SummarySegment) : list SummarySegment :=
  if existsb (fun s => bool_decide (Sg_Level s = 3)) segments then [] else
  let level2 := filter (fun s => Sg_Level s = 2) segments in
  let free := filter (fun s => Sg_Level s = 1 /\ TrimSpace (Sg_ParentSegmentID s) = "") segments in
  let free := if decide (level2 = [] /\ free = []) then filter (fun s => Sg_Level s = 1) segments else free in
  sortSegmentsForRollup (level2 ++ free).

Definition GenerateL3EpisodeOverview (db : SegmentDB) (episodeID id : string) (now : Time) : SegmentError + SegmentDB :=
  let episodeID := TrimSpace episodeID in
  if decide (episodeID = "") then inr db else
  match SegmentsByEpisode db episodeID with
  | inl e => inl e
  | inr segments =>
    let inputs := selectOverviewSourceSegments segments in
    match buildRollupSegment 3 inputs id now with
    | None => inr db
    | Some overview =>
      let overview := match inputs with
                      | [s] => if decide (Sg_Level s = 2) then set_parent (Sg_ID s) overview else overview
                      | _ => overview
                      end in
      InsertSegment db overview id now
    end
  end.

(** [SealEpisode]; a failed overview is only logged. *)
Definition SealEpisode (db : SegmentDB) (episodeID : string) (seqEnd : Z) (id : string) (now : Time) :
    SegmentError + SegmentDB :=
  match seal_rows db episodeID seqEnd now with
  | inl e => inl e
  | inr db => inr (match GenerateL3EpisodeOverview db (TrimSpace episodeID) id now with inr db' => db' | inl _ => db end)
  end.

(** [StartNewEpisode]; [seqEnd] is the greatest message number of the session. *)
Definition StartNewEpisode (db : SegmentDB) (sessionID reason : string) (seqEnd : Z) (overviewID fresh : string) (now : Time) :
    SegmentError + (SegmentDB * string) :=
  match ActiveEpisode db sessionID with
  | inl e => inl e
  | inr current =>
    if decide (TrimSpace current = "") then CreateEpisode db sessionID (defaultEpisodeReason reason) fresh now
    else match SealEpisode db current seqEnd overviewID now with
         | inl e => inl e
         | inr db => CreateEpisode db sessionID (defaultEpisodeReason reason) fresh now
         end
  end.

(** ** One round of level two *)

#[local] Instance rollup_less_weak : StrictWeak rollup_less (fun _ => True).
Proof.
  unfold rollup_less, Before. constructor.
  - intros x y _ _ H. repeat case_decide; bool_prop; try lia; try done; apply bool_decide_eq_false; lia.
  - intros x y z _ _ _ H1 H2. repeat case_decide; bool_prop; try lia; apply bool_decide_eq_false; lia.
Qed.

Lemma rollup_text_nonblank level first final segs d t c e :
  buildRollupSummaryText level first final segs d t c e <> "".
Proof.
  unfold buildRollupSummaryText. case_decide;
    match goal with |- TrimSpace (Joins ([?h] ++ ?r) nl) <> "" =>
      set (rest := r); clearbody rest end.
  - apply (TrimSpace_keeps "E"%char); [done|]. destruct rest; by left.
  - apply (TrimSpace_keeps "R"%char); [done|]. destruct rest; by left.
Qed.

(** What a roll-up says about the segments it is built from. *)
Record rolls_up (level : Z) (id : string) (source : list SummarySegment) (r : SummarySegment) : Prop := {
  ru_id : Sg_ID r = id;
  ru_level : Sg_Level r = level;
  ru_parent : Sg_ParentSegmentID r = "";
  ru_start : Forall (fun s => Sg_SeqStart r <= Sg_SeqStart s) source;
  ru_end : exists s, s ∈ source /\ Sg_SeqEnd r = Sg_SeqEnd s;
  ru_first : exists s, s ∈ source /\ Sg_SeqStart r = Sg_SeqStart s
               /\ Sg_EpisodeID r = TrimSpace (Sg_EpisodeID s) /\ Sg_SessionID r = TrimSpace (Sg_SessionID s);
  ru_text : Sg_SummaryText r <> "" /\ Trimmed (Sg_SummaryText r)
}.

Lemma build_rolls_up level source id now :
  source <> [] -> exists r, buildRollupSegment level source id now = Some r /\ rolls_up level id source r.
Proof.
  intros Hne. unfold buildRollupSegment, sortSegmentsForRollup.
  pose proof (SliceStable_perm rollup_less source) as Hp.
  assert (StronglySorted (in_order rollup_less) (SliceStable rollup_less source)) as Hs
    by (apply (SliceStable_sorted _ (ok := fun _ => True)), Forall_true; done).
  destruct (SliceStable rollup_less source) as [|first rest].
  { by apply Permutation_nil_l in Hp. }
  eexists. split; [reflexivity|]. set (final := default first (last rest)).
  assert (final ∈ source) as Hfinal.
  { rewrite <- Hp. unfold final. destruct (last rest) as [x|] eqn:E; [|by left].
    right. apply last_Some in E as [l' ->]. apply elem_of_app. right. by left. }
  assert (first ∈ source) as Hfirst by (rewrite <- Hp; by left).
  constructor; cbn [Sg_ID Sg_Level Sg_ParentSegmentID Sg_SeqStart Sg_SeqEnd Sg_EpisodeID Sg_SessionID Sg_SummaryText];
    [done..| | |by exists first|].
  - rewrite <- Hp. apply StronglySorted_inv in Hs as [_ Hs]. constructor; [lia|].
    eapply Forall_impl; [exact Hs|]. intros s. unfold in_order, rollup_less, Before.
    repeat case_decide; intros; bool_prop; lia.
  - by exists final.
  - split; [apply rollup_text_nonblank|]. unfold buildRollupSummaryText. apply Trimmed_TrimSpace.
Qed.

(** The segments of level one of an episode that wait for a roll-up. *)
Definition free (ep : string) (db : SegmentDB) : list SummarySegment := filter (unparented ep) (DB_Segments db).

(** The batch that a round takes, and what it leaves. *)
Definition batch (ep : string) (db : SegmentDB) : list SummarySegment :=
  take l2RollupBatchSize (SliceStable segment_by_start (free ep db)).

Definition adopt (cids : list string) (parent : string) (s : SummarySegment) : SummarySegment :=
  if decide (Sg_ID s ∈ cids) then set_parent parent s else s.

(** An ID that a roll-up can be given. *)
Definition unused (db : SegmentDB) (id : string) : Prop :=
  Trimmed id /\ id <> "" /\ id ∉ Sg_ID <$> DB_Segments db /\ id ∉ Sg_ParentSegmentID <$> DB_Segments db.

(** An ID that no row has. *)
Definition new_id (db : SegmentDB) (id : string) : Prop := Trimmed id /\ id <> "" /\ id ∉ Sg_ID <$> DB_Segments db.

Lemma unused_new db id : unused db id -> new_id db id.
Proof. intros (H1 & H2 & H3 & _). by split_and!. Qed.

Definition ids_trimmed (db : SegmentDB) : Prop := Forall (fun s => Trimmed (Sg_ID s)) (DB_Segments db).

Lemma free_elem ep db s : s ∈ free ep db <-> unparented ep s /\ s ∈ DB_Segments db.
Proof. unfold free. by rewrite list_elem_of_filter. Qed.

Lemma batch_free ep db s : s ∈ batch ep db -> s ∈ free ep db.
Proof. intros H%elem_of_take. destruct H as (i & H & _). rewrite <- SliceStable_perm. by eapply list_elem_of_lookup_2. Qed.

(** A segment keeps its ID when it is adopted, and changes its parent only. *)
Lemma adopt_id cids p s : Sg_ID (adopt cids p s) = Sg_ID s.
Proof. unfold adopt. by case_decide. Qed.

Lemma set_parent_twice p q s : set_parent p (set_parent q s) = set_parent p s.
Proof. done. Qed.

Lemma adopt_loop_spec db children parent :
  Trimmed parent -> Forall (fun c => Trimmed (Sg_ID c) /\ Sg_ID c <> "" /\ Sg_ID c ∈ Sg_ID <$> DB_Segments db) children ->
  adopt_loop db children parent
  = (mkSegmentDB (DB_Sessions db) (DB_Episodes db) (adopt (Sg_ID <$> children) parent <$> DB_Segments db), None).
Proof.
  intros Hp Hc. revert db Hc. induction children as [|c rest IH]; intros db Hc; cbn [adopt_loop].
  - destruct db as [ss es segs]. cbn. do 2 f_equal. symmetry. rewrite <- (list_fmap_id segs) at 2.
    apply list_fmap_ext. intros i s _. unfold adopt. by rewrite decide_False by apply not_elem_of_nil.
  - apply Forall_cons in Hc as [(Ht & Hne & Hin) Hc]. rewrite decide_False by (by rewrite Ht).
    unfold UpdateParentSegmentID. rewrite Ht, Hp, decide_False by done.
    rewrite (proj2 (existsb_key _ _ _) Hin). rewrite IH; cbn [DB_Sessions DB_Episodes DB_Segments].
    + rewrite <- list_fmap_compose. do 2 f_equal. apply list_fmap_ext. intros i s _. unfold compose, adopt.
      rewrite fmap_cons.
      destruct (decide (Sg_ID s = Sg_ID c)) as [E|E].
      * rewrite (decide_True _ _ (P := Sg_ID s ∈ _ :: _)) by (rewrite E; by left). by case_decide.
      * destruct (decide (Sg_ID s ∈ Sg_ID <$> rest)) as [E'|E'].
        -- by rewrite decide_True by (by right).
        -- by rewrite decide_False by (by rewrite elem_of_cons; naive_solver).
    + eapply Forall_impl; [exact Hc|]. cbn beta. intros x (H1 & H2 & H3). split_and!; [done..|].
      rewrite fmap_key; [done|]. intros s. by case_decide.
Qed.

(** A roll-up of segments of the tables can be stored. *)
Lemma insert_rollup db source id now r :
  db_ok db -> new_id db id -> rolls_up 2 id source r -> Forall (fun s => s ∈ DB_Segments db) source ->
  exists n, InsertSegment db r id now
    = inr (mkSegmentDB (DB_Sessions db) (DB_Episodes db) (DB_Segments db ++ [n])) /\ rolls_up 2 id source n.
Proof.
  intros Hok (Hid & Hne & Hfresh) [R1 R2 R3 R4 (l & Hl & R5) (f & Hf & R6 & R7 & R8) [R9 R10]] Hsrc.
  rewrite Forall_forall in Hsrc, R4. pose proof (db_segments _ Hok) as Hsegs. rewrite Forall_forall in Hsegs.
  destruct (Hsegs f (Hsrc f Hf)) as [_ _ F1 _ _ _ (F2 & F3 & F4 & F5) F6]. rewrite F2 in R8. rewrite F3 in R7.
  pose proof (ok_range _ _ (Hsegs l (Hsrc l Hl))) as L1. pose proof (R4 l Hl) as L2. cbn beta in L2.
  unfold InsertSegment, normalizeSummarySegment.
  rewrite R1, R2, R3, R7, R8, F2, F3, R10, !decide_False by (first [done|lia]).
  cbn [Sg_ID Sg_EpisodeID Sg_SessionID Sg_Level].
  assert (existsb (fun e => bool_decide (Ep_ID e = Sg_EpisodeID f /\ Ep_SessionID e = Sg_SessionID f)) (DB_Episodes db) = true) as ->.
  { destruct F6 as (e & He & E1 & E2). apply existsb_exists. exists e. split; [by apply list_elem_of_In|].
    by apply bool_decide_eq_true. }
  rewrite (proj2 (existsb_key_false _ _ _) Hfresh). eexists. split; [reflexivity|].
  constructor; cbn [Sg_ID Sg_Level Sg_ParentSegmentID Sg_SeqStart Sg_SeqEnd Sg_EpisodeID Sg_SessionID Sg_SummaryText];
    [done..| | | |done].
  - by apply Forall_forall.
  - by exists l.
  - exists f. split_and!; [done..|by rewrite F3|by rewrite F2].
Qed.

(** The tables after a round that stored the roll-up [n] of the batch. *)
Definition after_round (ep : string) (db : SegmentDB) (n : SummarySegment) : SegmentDB :=
  mkSegmentDB (DB_Sessions db) (DB_Episodes db)
    ((adopt (Sg_ID <$> batch ep db) (Sg_ID n) <$> DB_Segments db) ++ [n]).

Lemma keyed_inj {A} (key : A -> string) (l : list A) x y :
  NoDup (key <$> l) -> x ∈ l -> y ∈ l -> key x = key y -> x = y.
Proof.
  intros Hnd [i Hi]%list_elem_of_lookup [j Hj]%list_elem_of_lookup E.
  assert (i = j) as <-; [|congruence].
  eapply (NoDup_lookup _ i j (key x) Hnd); rewrite list_lookup_fmap; [by rewrite Hi|by rewrite Hj, E].
Qed.

(** The rows with the keys of a part of the table are that part. *)
Lemma filter_keys {A} (key : A -> string) (l part : list A) :
  NoDup (key <$> l) -> NoDup part -> (forall x, x ∈ part -> x ∈ l) ->
  filter (fun x => key x ∈ key <$> part) l ≡ₚ part.
Proof.
  intros Hk Hp Hin. apply NoDup_Permutation; [apply NoDup_filter; by eapply NoDup_fmap_1|done|].
  intros x. rewrite list_elem_of_filter, list_elem_of_fmap. split.
  - intros [(y & E & Hy) Hx]. by rewrite (keyed_inj key l x y Hk Hx (Hin y Hy) E).
  - intros Hx. split; [by exists x|by apply Hin].
Qed.

Lemma NoDup_take {A} (l : list A) n : NoDup l -> NoDup (take n l).
Proof. intros H. apply (sublist_NoDup _ l); [done|apply sublist_take]. Qed.

Lemma sorted_free_NoDup ep db : db_ok db -> NoDup (SliceStable segment_by_start (free ep db)).
Proof.
  intros Hok. rewrite SliceStable_perm. apply NoDup_filter. eapply NoDup_fmap_1. by apply db_ids.
Qed.

Lemma batch_rows ep db : db_ok db ->
  filter (fun s => Sg_ID s ∈ Sg_ID <$> batch ep db) (DB_Segments db) ≡ₚ batch ep db.
Proof.
  intros Hok. apply filter_keys; [by apply db_ids|apply NoDup_take; by apply sorted_free_NoDup|].
  intros x Hx%batch_free%free_elem. apply Hx.
Qed.

(** Only segments of the batch are adopted. *)
Lemma adopted_in_batch ep db s : db_ok db -> s ∈ DB_Segments db ->
  Sg_ID s ∈ Sg_ID <$> batch ep db -> s ∈ batch ep db.
Proof. intros Hok Hs Hid. rewrite <- batch_rows by done. by apply list_elem_of_filter. Qed.

Lemma free_after_round ep db n : db_ok db -> Sg_Level n = 2 -> Sg_ID n <> "" ->
  length (free ep (after_round ep db n)) = (length (free ep db) - l2RollupBatchSize)%nat.
Proof.
  intros Hok Hn Hne. unfold free at 1, after_round. cbn [DB_Segments].
  rewrite filter_app, filter_cons_False by (intros (_ & E & _); lia).
  rewrite filter_nil, app_nil_r, list_filter_fmap, length_fmap.
  transitivity (length (filter (fun s => Sg_ID s ∉ Sg_ID <$> batch ep db) (free ep db))).
  { unfold free. rewrite list_filter_filter. f_equal. apply list_filter_iff. intros s.
    unfold adopt, unparented. case_decide; cbn [set_parent Sg_ParentSegmentID Sg_EpisodeID Sg_Level]; naive_solver. }
  pose proof (sorted_free_NoDup ep db Hok) as Hnd.
  transitivity (length (drop l2RollupBatchSize (SliceStable segment_by_start (free ep db)))).
  2: by rewrite length_drop, SliceStable_length.
  apply Permutation_length. etransitivity; [apply filter_Permutation; symmetry; apply (SliceStable_perm segment_by_start)|].
  unfold batch. remember (SliceStable segment_by_start (free ep db)) as l eqn:El.
  assert (forall z, z ∈ l -> z ∈ DB_Segments db) as Hin.
  { intros z Hz. rewrite El, SliceStable_perm in Hz. by apply free_elem in Hz as [_ Hz]. }
  clear El. pose proof (take_drop l2RollupBatchSize l) as El.
  set (b := take l2RollupBatchSize l) in *. set (d := drop l2RollupBatchSize l) in *. clearbody b d. subst l.
  apply NoDup_app in Hnd as (_ & Hd & _). rewrite filter_app.
  rewrite (list_filter_none _ b) by (intros x Hx H; by apply H, list_elem_of_fmap_2).
  rewrite app_nil_l, list_filter_id; [done|]. intros x Hx [y [E Hy]]%list_elem_of_fmap.
  assert (x = y) as <-; [|by apply (Hd x)].
  apply (keyed_inj Sg_ID (DB_Segments db)); [by apply db_ids|apply Hin, elem_of_app; auto..|done].
Qed.

(** ** The segments a roll-up covers *)

Definition children (db : SegmentDB) (id : string) : list SummarySegment :=
  filter (fun s => Sg_ParentSegmentID s = id) (DB_Segments db).

(** A segment [r] of level two stands for the eight segments that it has as
    children: they are of its episode and of level one, it starts where the
    first of them starts and ends where one of them ends. *)
Definition covers (db : SegmentDB) (r : SummarySegment) : Prop :=
  Sg_Level r = 2 /\ length (children db (Sg_ID r)) = l2RollupBatchSize
  /\ Forall (fun c => Sg_Level c = 1 /\ Sg_EpisodeID c = Sg_EpisodeID r /\ Sg_SeqStart r <= Sg_SeqStart c)
       (children db (Sg_ID r))
  /\ Exists (fun c => Sg_SeqStart c = Sg_SeqStart r) (children db (Sg_ID r))
  /\ Exists (fun c => Sg_SeqEnd c = Sg_SeqEnd r) (children db (Sg_ID r)).

(** A round leaves the children of other segments alone. *)
Lemma children_after_round ep db n id :
  db_ok db -> Sg_ParentSegmentID n = "" -> id <> "" -> id <> Sg_ID n ->
  children (after_round ep db n) id = children db id.
Proof.
  intros Hok Hn Hne Hid. unfold children, after_round. cbn [DB_Segments].
  rewrite filter_app, filter_cons_False, filter_nil, app_nil_r by congruence.
  rewrite list_filter_fmap. set (f := adopt _ _).
  assert (forall s, s ∈ DB_Segments db -> f s = s \/ Sg_ParentSegmentID s = "" /\ Sg_ParentSegmentID (f s) = Sg_ID n) as Hf.
  { intros s Hs. unfold f, adopt. case_decide as E; [right|by left].
    apply adopted_in_batch, batch_free, free_elem in E; [|done..]. by destruct E as [(_ & _ & E) _]. }
  rewrite (list_filter_ext _ (fun s => Sg_ParentSegmentID s = id)).
  - etransitivity; [|apply list_fmap_id]. apply Forall_fmap_ext, Forall_forall.
    intros s [E Hs]%list_elem_of_filter. destruct (Hf s Hs) as [->|[? _]]; [done|congruence].
  - intros s Hs. destruct (Hf s Hs) as [->|[E ->]]; [done|]. split; congruence.
Qed.

Lemma children_of_round ep db n : db_ok db -> unused db (Sg_ID n) -> Sg_ParentSegmentID n = "" ->
  children (after_round ep db n) (Sg_ID n) ≡ₚ set_parent (Sg_ID n) <$> batch ep db.
Proof.
  intros Hok (_ & Hne & _ & Hp) Hn. rewrite <- (batch_rows ep db Hok) at 1. unfold children, after_round. cbn [DB_Segments].
  rewrite filter_app, (filter_cons_False _ n), filter_nil, app_nil_r by congruence.
  rewrite list_filter_fmap, (list_filter_ext _ (fun s => Sg_ID s ∈ Sg_ID <$> batch ep db)).
  - erewrite (proj1 (Forall_fmap_ext (adopt _ _) (set_parent (Sg_ID n)) _)); [done|].
    apply Forall_forall. intros s [Hs _]%list_elem_of_filter. unfold adopt. by rewrite decide_True.
  - intros s Hs. unfold adopt. case_decide as E; [done|]. split; [|done]. intros E'. destruct Hp. rewrite <- E'.
    by apply list_elem_of_fmap_2.
Qed.

Lemma covers_round ep db n :
  db_ok db -> unused db (Sg_ID n) -> rolls_up 2 (Sg_ID n) (batch ep db) n ->
  length (batch ep db) = l2RollupBatchSize -> Trimmed ep -> covers (after_round ep db n) n.
Proof.
  intros Hok Hu [R1 R2 R3 R4 (l & Hl & R5) (f & Hf & R6 & R7 & _) _] Hlen Hep.
  assert (Sg_EpisodeID n = ep) as E.
  { rewrite R7. apply batch_free, free_elem in Hf as [(-> & _) _]. done. }
  unfold covers. pose proof (children_of_round ep db n Hok Hu R3) as Hc.
  split_and!; [done|by rewrite (Permutation_length Hc), length_fmap|..].
  all: symmetry in Hc; first [eapply Permutation_Forall|eapply Permutation_Exists]; [exact Hc|].
  - apply Forall_fmap, Forall_forall. intros s Hs. rewrite Forall_forall in R4. specialize (R4 s Hs).
    apply batch_free, free_elem in Hs as [(E1 & E2 & _) _].
    unfold compose. cbn [set_parent Sg_Level Sg_EpisodeID Sg_SeqStart]. split_and!; congruence || done.
  - apply Exists_fmap, Exists_exists. by exists f.
  - apply Exists_fmap, Exists_exists. by exists l.
Qed.

Lemma adopt_loop_ok db cs parent : db_ok db -> db_ok (adopt_loop db cs parent).1.
Proof.
  revert db. induction cs as [|c cs IH]; intros db Hok; cbn [adopt_loop]; [done|].
  case_decide; [by apply IH|]. destruct (UpdateParentSegmentID db (Sg_ID c) parent) eqn:E; [done|].
  apply IH. by eapply UpdateParent_ok.
Qed.

(** A round stores one roll-up and goes on. *)
Lemma l2_round fuel ep db ids round now :
  db_ok db -> ids_trimmed db -> new_id db (ids round) -> Trimmed ep -> ep <> "" ->
  (l2RollupBatchSize <= length (free ep db))%nat ->
  exists n, rolls_up 2 (ids round) (batch ep db) n /\ length (batch ep db) = l2RollupBatchSize
    /\ db_ok (after_round ep db n)
    /\ l2_loop (S fuel) db ep ids round now = l2_loop fuel (after_round ep db n) ep ids (S round) now.
Proof.
  intros Hok Htr Hu Hep Hne Hlen.
  assert (length (batch ep db) = l2RollupBatchSize) as Hb
    by (unfold batch; rewrite length_take, SliceStable_length; lia).
  assert (forall s, s ∈ batch ep db -> s ∈ DB_Segments db) as Hin by (intros s Hs%batch_free%free_elem; apply Hs).
  destruct (build_rolls_up 2 (batch ep db) (ids round) now) as (r & Hr & Hru); [by intros E; rewrite E in Hb|].
  destruct (insert_rollup db (batch ep db) (ids round) now r) as (n & Hi & Hn); [done..|by apply Forall_forall|].
  set (db1 := mkSegmentDB _ _ (DB_Segments db ++ [n])) in Hi.
  assert (adopt_loop db1 (batch ep db) (Sg_ID r) = (after_round ep db n, None)) as Ha.
  { rewrite (ru_id _ _ _ _ Hru), adopt_loop_spec; [|apply Hu|].
    - unfold after_round. cbn [DB_Sessions DB_Episodes DB_Segments db1]. rewrite (ru_id _ _ _ _ Hn), fmap_app. cbn [fmap list_fmap].
      do 4 f_equal. unfold adopt. rewrite decide_False; [done|].
      rewrite (ru_id _ _ _ _ Hn). intros (s & E & Hs)%list_elem_of_fmap. destruct Hu as (_ & _ & Hu).
      apply Hu. rewrite E. by apply list_elem_of_fmap_2, Hin.
    - apply Forall_forall. intros s Hs%Hin. unfold ids_trimmed in Htr. rewrite Forall_forall in Htr.
      pose proof (db_segments _ Hok) as Hsegs. rewrite Forall_forall in Hsegs. split_and!; [by apply Htr|by apply (Hsegs s)|].
      cbn [DB_Segments db1]. rewrite fmap_app, elem_of_app. left. by apply list_elem_of_fmap_2. }
  exists n. split_and!; [done..| |].
  - change (after_round ep db n) with ((after_round ep db n, @None SegmentError).1). rewrite <- Ha.
    apply adopt_loop_ok. eapply InsertSegment_ok; [|done|exact Hi]. apply Hu.
  - cbn [l2_loop]. unfold UnparentedL1Segments. rewrite Hep, decide_False by done.
    rewrite (decide_True _ _ (P := 0 < Z.of_nat l2RollupBatchSize)) by (unfold l2RollupBatchSize; lia).
    rewrite Nat2Z.id. change (take _ (SliceStable _ _)) with (batch ep db).
    rewrite decide_False by lia. rewrite (take_ge (batch ep db)) by lia. rewrite Hr, Hi, Ha. done.
Qed.

(** ** All rounds *)

(** A segment is as it was, or it waited for a roll-up and has a parent now. *)
Definition same_but_parent (ep : string) (s s' : SummarySegment) : Prop :=
  s' = s \/ unparented ep s /\ exists p, p <> "" /\ s' = set_parent p s.

Lemma same_but_parent_trans ep a b c : same_but_parent ep a b -> same_but_parent ep b c -> same_but_parent ep a c.
Proof.
  intros [->|[Hu (p & Hp & ->)]]; [done|]. intros [->|[(_ & _ & H) _]]; [right; eauto|done].
Qed.

(** The IDs that are still to be drawn. *)
Definition ids_unused (db : SegmentDB) (ids : nat -> string) (round : nat) : Prop :=
  (forall i j, ids i = ids j -> i = j) /\ (forall i, (round <= i)%nat -> unused db (ids i)).

Record l2_result (ep : string) (db db' : SegmentDB) : Prop := {
  l2_ok : db_ok db';
  l2_left : length (free ep db') = (length (free ep db) mod l2RollupBatchSize)%nat;
  l2_rows : exists old new, DB_Segments db' = old ++ new
    /\ Forall2 (same_but_parent ep) (DB_Segments db) old
    /\ length new = (length (free ep db) / l2RollupBatchSize)%nat
    /\ Forall (fun r => Sg_EpisodeID r = ep /\ covers db' r) new
}.

Lemma after_round_unused ep db n ids round :
  ids_unused db ids round -> Sg_ID n = ids round -> Sg_ParentSegmentID n = "" -> ids_unused (after_round ep db n) ids (S round).
Proof.
  intros [Hinj Hu] Hid Hp. split; [done|]. intros i Hi. destruct (Hu i ltac:(lia)) as (U1 & U2 & U3 & U4).
  assert (ids i <> Sg_ID n) as Hne by (rewrite Hid; intros E%Hinj; lia).
  unfold unused, after_round. cbn [DB_Segments]. rewrite !fmap_app. split_and!; [done..| |].
  - rewrite fmap_key by (intros; apply adopt_id). cbn. set_solver.
  - rewrite elem_of_app. cbn [fmap list_fmap]. rewrite list_elem_of_singleton, Hp. intros [H|H]; [|done].
    apply list_elem_of_fmap in H as (s' & E & (s & -> & Hs)%list_elem_of_fmap).
    unfold adopt in E. case_decide; [done|]. apply U4. rewrite E. by apply list_elem_of_fmap_2.
Qed.

Lemma after_round_trimmed ep db n : ids_trimmed db -> Trimmed (Sg_ID n) -> ids_trimmed (after_round ep db n).
Proof.
  intros Ht Hn. unfold ids_trimmed, after_round. cbn [DB_Segments]. apply Forall_app. split; [|by constructor].
  apply Forall_fmap. eapply Forall_impl; [exact Ht|]. intros s Hs. unfold compose. by rewrite adopt_id.
Qed.

Lemma after_round_rows ep db n : db_ok db -> Sg_ID n <> "" ->
  Forall2 (same_but_parent ep) (DB_Segments db) (adopt (Sg_ID <$> batch ep db) (Sg_ID n) <$> DB_Segments db).
Proof.
  intros Hok Hne. apply Forall2_fmap_r, Forall_Forall2_diag, Forall_forall. intros s Hs. cbn beta. unfold compose, adopt.
  case_decide as E; [right|by left]. split; [|eauto].
  apply adopted_in_batch, batch_free, free_elem in E; [|done..]. apply E.
Qed.

Lemma l2_loop_spec fuel ep db ids round now :
  db_ok db -> ids_trimmed db -> ids_unused db ids round -> Trimmed ep -> ep <> "" ->
  (length (free ep db) / l2RollupBatchSize < fuel)%nat ->
  exists db', l2_loop fuel db ep ids round now = Some (db', None) /\ l2_result ep db db'
    /\ forall id, id <> "" -> (forall i, (round <= i)%nat -> id <> ids i) -> children db' id = children db id.
Proof.
  intros Hok Htr Hu Hep Hne. revert db round Hok Htr Hu.
  induction fuel as [|fuel IH]; intros db round Hok Htr Hu Hf; [lia|].
  destruct (decide (length (free ep db) < l2RollupBatchSize)%nat) as [Hlt|Hge].
  { exists db. split_and!; [|constructor; [done|by rewrite Nat.mod_small|]|done].
    - cbn [l2_loop]. unfold UnparentedL1Segments. rewrite Hep, decide_False by done.
      rewrite (decide_True _ _ (P := 0 < Z.of_nat l2RollupBatchSize)) by (unfold l2RollupBatchSize; lia).
      rewrite decide_True; [done|]. rewrite length_take, SliceStable_length. unfold free in Hlt. lia.
    - exists (DB_Segments db), []. split_and!; [by rewrite app_nil_r| |by rewrite Nat.div_small|done].
      apply Forall_Forall2_diag, Forall_forall. by left. }
  destruct (l2_round fuel ep db ids round now) as (n & Hn & Hb & Hok' & Hstep); [done|done|apply unused_new, Hu; lia|done|done|lia|].
  pose proof Hn as [N1 N2 N3 _ _ _ _].
  assert (unused db (Sg_ID n)) as Hun by (rewrite N1; apply Hu; lia). pose proof Hun as (T1 & T2 & _).
  pose proof (free_after_round ep db n Hok N2 T2) as Hfree.
  assert (length (free ep db) = (length (free ep (after_round ep db n)) + 1 * l2RollupBatchSize)%nat) as Hlen by lia.
  rewrite Hlen, Nat.div_add in Hf by done.
  destruct (IH (after_round ep db n) (S round)) as (db' & Hl & [R1 R2 (old & new & R3 & R4 & R5 & R6)] & Hch);
    [done|by apply after_round_trimmed|by apply after_round_unused|lia|].
  exists db'. rewrite Hstep. split_and!; [done|constructor; [done|..]|].
  - by rewrite R2, Hlen, Nat.Div0.mod_add.
  - unfold after_round in R4. cbn [DB_Segments] in R4. apply Forall2_app_inv_l in R4 as (olda & oldb & H1 & H2 & ->).
    apply Forall2_cons_inv_l in H2 as (n' & k & H2 & H3%Forall2_nil_inv_l & ->). subst k.
    destruct H2 as [->|[(_ & H2 & _) _]]; [|congruence].
    exists olda, (n :: new). rewrite R3, <- app_assoc. split_and!; [done| | |].
    + eapply Forall2_trans; [intros x y z; apply same_but_parent_trans|by apply after_round_rows|done].
    + rewrite Hlen, Nat.div_add by done. cbn [length]. lia.
    + constructor; [|done]. split.
      * destruct (ru_first _ _ _ _ Hn) as (f & Hfb & _ & -> & _). apply batch_free, free_elem in Hfb as [(-> & _) _]. done.
      * pose proof (covers_round ep db n Hok Hun) as Hc. unfold covers in Hc |- *. rewrite Hch; [|done|].
        -- apply Hc; [by rewrite N1|done..].
        -- rewrite N1. intros i Hi E. destruct Hu as [Hinj _]. apply Hinj in E. lia.
  - intros id Hid Hids. rewrite Hch by (first [done|intros; apply Hids; lia]).
    apply children_after_round; [done..|]. rewrite N1. apply Hids. lia.
Qed.

(** The loop returns whatever IDs are drawn: an ID that is taken makes it stop with an
    error, any other one uses up eight segments. *)
Lemma l2_loop_returns fuel ep db ids round now :
  db_ok db -> ids_trimmed db -> (forall i, Trimmed (ids i) /\ ids i <> "") -> Trimmed ep -> ep <> "" ->
  (length (free ep db) / l2RollupBatchSize < fuel)%nat -> is_Some (l2_loop fuel db ep ids round now).
Proof.
  intros Hok Htr Hids Hep Hne. revert db round Hok Htr.
  induction fuel as [|fuel IH]; intros db round Hok Htr Hf; [lia|].
  destruct (decide (length (free ep db) < l2RollupBatchSize)%nat) as [Hlt|Hge].
  { cbn [l2_loop]. unfold UnparentedL1Segments. rewrite Hep, decide_False by done.
    rewrite (decide_True _ _ (P := 0 < Z.of_nat l2RollupBatchSize)) by (unfold l2RollupBatchSize; lia).
    rewrite decide_True; [by eexists|]. rewrite length_take, SliceStable_length. unfold free in Hlt. lia. }
  destruct (Hids round) as [Ht Hn0]. destruct (decide (ids round ∈ Sg_ID <$> DB_Segments db)) as [Hin|Hnew].
  - cbn [l2_loop]. destruct (UnparentedL1Segments _ _ _) as [|cs]; [by eexists|]. case_decide; [by eexists|].
    destruct (buildRollupSegment _ _ _ _) as [r|] eqn:Er; [|by eexists].
    destruct (InsertSegment db r (ids round) now) as [|db1] eqn:Ei; [by eexists|]. exfalso.
    assert (Sg_ID r = ids round) as Hid by (revert Er; unfold buildRollupSegment; destruct (sortSegmentsForRollup _); [done|]; by intros [= <-]).
    revert Ei. unfold InsertSegment, normalizeSummarySegment. rewrite Hid. repeat (case_decide; [done|]).
    cbn [Sg_ID Sg_EpisodeID Sg_SessionID Sg_Level]. destruct (existsb _ (DB_Episodes db)); [|done].
    by rewrite (proj2 (existsb_key Sg_ID (DB_Segments db) (ids round)) Hin).
  - destruct (l2_round fuel ep db ids round now) as (n & Hn & _ & Hok' & ->); [done|done|done|done|done|lia|].
    pose proof Hn as [N1 N2 _ _ _ _ _].
    apply IH; [done|apply after_round_trimmed; [done|by rewrite N1]|].
    rewrite (free_after_round ep db n Hok N2) by (by rewrite N1).
    assert (length (free ep db) = (length (free ep db) - l2RollupBatchSize) + 1 * l2RollupBatchSize)%nat as E by lia.
    rewrite E, Nat.div_add in Hf by done. lia.
Qed.

(** rolling up an episode ends with fewer than eight segments of level one
    left over: every eight segments that no
    other segment covered are the children of one new segment of level two, which
    spans their messages; nothing else of the tables changes and no step fails. *)
Theorem rollups_cover_eight fuel db episodeID ids now :
  let ep := TrimSpace episodeID in
  db_ok db -> ids_trimmed db -> ids_unused db ids 0 -> ep <> "" ->
  (length (free ep db) / l2RollupBatchSize < fuel)%nat ->
  exists db', MaybeGenerateL2 fuel db episodeID ids now = Some (db', None) /\ l2_result ep db db'.
Proof.
  intros ep Hok Htr Hu Hne Hf. unfold MaybeGenerateL2. fold ep. rewrite decide_False by done.
  destruct (l2_loop_spec fuel ep db ids 0 now) as (db' & H1 & H2 & _); [done|done|done|apply Trimmed_TrimSpace|done|done|].
  by exists db'.
Qed.

(** ** Sealing an episode *)

Lemma overview_episodes db ep id now db' :
  GenerateL3EpisodeOverview db ep id now = inr db' ->
  DB_Sessions db' = DB_Sessions db /\ exists f, keeps_episode f /\ DB_Episodes db' = f <$> DB_Episodes db.
Proof.
  unfold GenerateL3EpisodeOverview. cbv zeta. case_decide; [intros [= <-]|].
  { split; [done|]. exists (fun e => e). split; [by constructor|by rewrite list_fmap_id]. }
  destruct (SegmentsByEpisode _ _) as [|segs]; [done|].
  destruct (buildRollupSegment _ _ _ _) as [r|]; [|intros [= <-]].
  - intros (n & f & _ & Hf & -> & _)%InsertSegment_shape. split; [done|]. by exists f.
  - split; [done|]. exists (fun e => e). split; [by constructor|by rewrite list_fmap_id].
Qed.

Lemma overview_ok db ep id now db' :
  id <> "" -> db_ok db -> GenerateL3EpisodeOverview db ep id now = inr db' -> db_ok db'.
Proof.
  intros Hid Hok. unfold GenerateL3EpisodeOverview. cbv zeta. case_decide; [by intros [= <-]|].
  destruct (SegmentsByEpisode _ _) as [|segs]; [done|].
  destruct (buildRollupSegment _ _ _ _) as [r|]; [|by intros [= <-]].
  by apply InsertSegment_ok.
Qed.

(** Sealing the active episode leaves none active, with or without an overview. *)
Lemma SealEpisode_ok db ep seqEnd id now :
  id <> "" -> db_ok db -> Trimmed ep -> ep <> "" -> ep ∈ Ep_ID <$> DB_Episodes db ->
  exists db', SealEpisode db ep seqEnd id now = inr db' /\ db_ok db' /\ DB_Sessions db' = DB_Sessions db
    /\ exists f, keeps_episode f /\ DB_Episodes db' = f <$> DB_Episodes db
    /\ forall e, e ∈ DB_Episodes db -> Ep_ID e = ep -> Ep_Status (f e) <> StatusActive.
Proof.
  intros Hid Hok Ht Hne Hin. unfold SealEpisode, seal_rows. rewrite Ht, decide_False by done.
  rewrite (proj2 (existsb_key _ _ _) Hin). pose proof (seal_keeps seqEnd now ep) as Hk.
  set (f := fun e => if decide (Ep_ID e = ep) then _ else _) in *.
  pose proof (db_ok_episodes db f Hk Hok) as Hok1. set (db1 := mkSegmentDB _ _ _) in *.
  assert (forall e, Ep_ID e = ep -> Ep_Status (f e) <> StatusActive) as Hseal
    by (intros e He; unfold f; by rewrite decide_True).
  eexists. split; [reflexivity|].
  destruct (GenerateL3EpisodeOverview db1 ep id now) as [|db'] eqn:E.
  - split_and!; [done..|]. exists f. split_and!; [done..|eauto].
  - split; [exact (overview_ok _ _ _ _ _ Hid Hok1 E)|]. apply overview_episodes in E as (Es & g & Hg & Eg). split; [done|].
    exists (g ∘ f). rewrite Eg. cbn [db1 DB_Episodes]. rewrite <- list_fmap_compose. split_and!; [|done|].
    + constructor; intros e; unfold compose.
      * by rewrite (ke_id g Hg), (ke_id f Hk).
      * by rewrite (ke_session g Hg), (ke_session f Hk).
      * by rewrite (ke_number g Hg), (ke_number f Hk).
      * intros H. by apply (ke_status f Hk), (ke_status g Hg).
    + intros e _ He H. apply (Hseal e He). by apply (ke_status g Hg).
Qed.

Lemma active_elem db sid e :
  e ∈ active_episodes db sid <-> (Ep_SessionID e = sid /\ Ep_Status e = StatusActive) /\ e ∈ DB_Episodes db.
Proof. unfold active_episodes. by rewrite SliceStable_perm, list_elem_of_filter. Qed.

(** Creating an episode when none is active. *)
Lemma create_ok db sid reason fresh now :
  db_ok db -> TrimSpace sid ∈ DB_Sessions db -> TrimSpace sid <> "" -> fresh ∉ Ep_ID <$> DB_Episodes db ->
  (forall e, e ∈ DB_Episodes db -> Ep_SessionID e = TrimSpace sid -> Ep_Status e <> StatusActive) ->
  TrimSpace fresh <> "" ->
  exists db' e, CreateEpisode db sid reason fresh now = inr (db', fresh) /\ db_ok db'
    /\ DB_Episodes db' = DB_Episodes db ++ [e] /\ active_episodes db' (TrimSpace sid) = [e] /\ Ep_ID e = fresh
    /\ Forall (fun x => Ep_SessionID x = TrimSpace sid -> Ep_SeqNum x < Ep_SeqNum e) (DB_Episodes db).
Proof.
  intros Hok Hs Hne Hf Hna Hb.
  assert (filter (fun e => Ep_SessionID e = TrimSpace sid /\ Ep_Status e = StatusActive) (DB_Episodes db) = []) as Hnil
    by (apply list_filter_none; naive_solver).
  assert (active_episodes db (TrimSpace sid) = []) as Ha by (unfold active_episodes; by rewrite Hnil).
  destruct (CreateEpisode db sid reason fresh now) as [err|[db' i]] eqn:E.
  { revert E. unfold CreateEpisode. rewrite Ha, !decide_False by (first [done|by intros H]).
    by rewrite (proj2 (existsb_key_false _ _ _) Hf). }
  pose proof (CreateEpisode_ok _ _ _ _ _ _ _ Hb Hok E) as Hok'. revert E. unfold CreateEpisode.
  rewrite Ha, !decide_False by (first [done|by intros H]). rewrite (proj2 (existsb_key_false _ _ _) Hf).
  intros [= <- <-]. eexists _, _. split_and!; [done|done|reflexivity| |done|].
  - unfold active_episodes. cbn [DB_Episodes]. by rewrite filter_app, Hnil, filter_cons_True.
  - apply Forall_forall. intros x Hx Hxs. by apply next_seq_gt.
Qed.

(** starting a new episode seals the active one of the session, if there is
    one, and leaves the new one as the only active episode, with a number above
    those of the episodes before; the old episodes and what the invariant of the
    tables asks for are kept, whether an overview could be stored or not. *)
Theorem new_episode_replaces db sid reason seqEnd overviewID fresh now :
  db_ok db -> Forall (fun e => Trimmed (Ep_ID e)) (DB_Episodes db) ->
  TrimSpace sid ∈ DB_Sessions db -> TrimSpace sid <> "" ->
  overviewID <> "" -> TrimSpace fresh <> "" -> fresh ∉ Ep_ID <$> DB_Episodes db ->
  exists db' f e, StartNewEpisode db sid reason seqEnd overviewID fresh now = inr (db', fresh)
    /\ db_ok db' /\ keeps_episode f /\ DB_Episodes db' = (f <$> DB_Episodes db) ++ [e]
    /\ active_episodes db' (TrimSpace sid) = [e] /\ Ep_ID e = fresh
    /\ Forall (fun x => Ep_SessionID x = TrimSpace sid -> Ep_SeqNum x < Ep_SeqNum e) (f <$> DB_Episodes db).
Proof.
  intros Hok Ht Hs Hne Ho Hb Hf. unfold StartNewEpisode, ActiveEpisode. rewrite decide_False by done.
  pose proof (active_elem db (TrimSpace sid)) as Hact.
  destruct (active_episodes db (TrimSpace sid)) as [|a rest] eqn:Ea.
  - rewrite decide_True by done.
    destruct (create_ok db sid (defaultEpisodeReason reason) fresh now) as (db' & e & H1 & H2 & H3 & H4 & H5 & H6);
      [done..| |done|].
    { intros e He E1 E2. assert (e ∈ @nil Episode) as H; [by apply Hact|by apply elem_of_nil in H]. }
    exists db', (fun e => e), e. rewrite list_fmap_id. split_and!; done || by constructor.
  - destruct (Hact a) as [[[Ha1 Ha2] Ha3] _]; [by left|].
    rewrite Forall_forall in Ht. pose proof (Ht a Ha3) as Hta. cbn beta in Hta.
    pose proof (db_episodes _ Hok) as Heps. rewrite Forall_forall in Heps. pose proof (ep_id _ _ (Heps a Ha3)) as Hna.
    rewrite decide_False by done.
    destruct (SealEpisode_ok db (Ep_ID a) seqEnd overviewID now) as (db1 & -> & Hok1 & Hs1 & f & Hk & He1 & Hsealed);
      [done|done|done|by rewrite <- Hta|by apply list_elem_of_fmap_2|].
    destruct (create_ok db1 sid (defaultEpisodeReason reason) fresh now) as (db' & e & H1 & H2 & H3 & H4 & H5 & H6);
      [done|by rewrite Hs1|done| | |done|].
    + rewrite He1, fmap_key; [done|apply (ke_id f Hk)].
    + rewrite He1. intros x (y & -> & Hy)%list_elem_of_fmap Hx Hst. rewrite (ke_session f Hk) in Hx.
      pose proof (ke_status f Hk y Hst) as Hy2.
      assert (y = a) as ->; [|by apply (Hsealed a)].
      apply list_elem_of_lookup in Hy as [i Hi], Ha3 as [j Hj].
      destruct (db_apart _ Hok i j y a Hi Hj) as [->|[_ []]]; congruence || done.
    + exists db', f, e. rewrite <- He1. split_and!; done.
Qed.
End Unicode.

(** ** An episode with nine segments *)

Definition sample_id (n : nat) : string := repeat_byte (9 + n) "x"%char.

Lemma sample_id_graphic n : graphic (repeat_byte n "x"%char) = true.
Proof. induction n as [|n IH]; [done|]. unfold graphic in *. cbn. by rewrite IH. Qed.

Lemma sample_id_length n : String.length (repeat_byte n "x"%char) = n.
Proof. induction n as [|n IH]; [done|]. cbn. by rewrite IH. Qed.

Definition sample_history : list segment_op :=
  OpCreate "s1" "default" "ep-1" 100
  :: ((fun n => OpInsert (sample_segment (10 + 5 * Z.of_nat n)) ("seg-" +:+ itoa n) 110) <$> seq 0 9).

Definition sample_db : SegmentDB := foldl segment_step (mkSegmentDB {[ "s1" ]} [] []) sample_history.

Lemma sample_db_ok : db_ok sample_db.
Proof.
  unfold sample_db. assert (Forall fresh_ok sample_history) as Hf by (repeat constructor; by vm_compute).
  assert (db_ok (mkSegmentDB {[ "s1" ]} [] [])) as Hok by apply db_ok_empty.
  revert Hf Hok. generalize (mkSegmentDB {[ "s1" ]} [] []), sample_history. intros db ops Hf. revert db.
  induction Hf as [|op ops Hop Hf IH]; intros db Hok; cbn; [done|]. by apply IH, segment_step_ok.
Qed.

Lemma rollups_cover_eight_witness :
  exists db', MaybeGenerateL2 (U := ascii_unicode) 2 sample_db " ep-1" sample_id 200 = Some (db', None) /\ l2_result "ep-1" sample_db db'.
Proof.
  apply (rollups_cover_eight (U := ascii_unicode) 2 sample_db " ep-1" sample_id 200).
  - exact sample_db_ok.
  - unfold ids_trimmed, Trimmed. apply (bool_decide_unpack _). by vm_compute.
  - split.
    + intros i j E. apply (f_equal String.length) in E. unfold sample_id in E. rewrite !sample_id_length in E. lia.
    + intros i _. split; [apply graphic_trimmed, sample_id_graphic|]. split; [done|].
      split; intros H; apply list_elem_of_In in H; vm_compute in H; intuition discriminate.
  - by vm_compute.
  - vm_compute. lia.
Defined.

Lemma new_episode_replaces_witness :
  exists db' f e, StartNewEpisode (U := ascii_unicode) sample_db "s1 " "next" 60 "ov-1" "ep-2" 300 = inr (db', "ep-2")
    /\ db_ok db' /\ keeps_episode f /\ DB_Episodes db' = (f <$> DB_Episodes sample_db) ++ [e]
    /\ active_episodes db' "s1" = [e] /\ Ep_ID e = "ep-2"
    /\ Forall (fun x => Ep_SessionID x = "s1" -> Ep_SeqNum x < Ep_SeqNum e) (f <$> DB_Episodes sample_db).
Proof.
  apply (new_episode_replaces (U := ascii_unicode) sample_db "s1 " "next" 60 "ov-1" "ep-2" 300).
  - exact sample_db_ok.
  - unfold Trimmed. apply (bool_decide_unpack _). by vm_compute.
  - by vm_compute.
  - by vm_compute.
  - done.
  - by vm_compute.
  - intros H. apply list_elem_of_In in H. vm_compute in H. intuition discriminate.
Defined.
