(* ===== verification/SessionState.v ===== *)
(** * Durable state of a session

    The table [session_state] ([store/sqlite_state.go]) with the entries that
    compaction derives from the signals annotated on messages and the block of a
    prompt that shows them ([contextengine/engine_compaction.go]).  A write is a
    transaction: it fails as a whole. *)
From S2P Require Import Prelude GoLib GoText Sha1 GoFloat GoSort ContextMessages ContextSummary ContextPinned SegmentStore.
From Stdlib Require Import Floats.SpecFloat.
From stdpp Require Import sorting.
Import Str Text GoTime.

Local Open Scope Z_scope.

Record StateEntry := mkStateEntry {
  SE_Key : string; SE_Category : string; SE_Value : string; SE_Status : string;
  SE_SourceEpisode : string; SE_SourceSegment : string; SE_SupersededBy : string;
  SE_Confidence : float64; SE_CreatedAt : Time; SE_UpdatedAt : Time; SE_ExpiresAt : Time }.

Inductive StateError :=
  | ErrStateSession | ErrStateSessionNotFound | ErrStateKey | ErrStateCategory | ErrStateValue.

(** ** The table *)

(** The rows by session and key, the primary key of the table. *)
Abbreviation StateTable := (gmap (string * string) StateEntry).

Definition normalizeStateEntry (e : StateEntry) (now : Time) : StateError + StateEntry :=
  let key := TrimSpace (SE_Key e) in
  let category := TrimSpace (SE_Category e) in
  let value := TrimSpace (SE_Value e) in
  let status := TrimSpace (SE_Status e) in
  if decide (key = "") then inl ErrStateKey
  else if decide (category = "") then inl ErrStateCategory
  else if decide (value = "") then inl ErrStateValue
  else
    let created := if IsZero (SE_CreatedAt e) then now else SE_CreatedAt e in
    let updated := if IsZero (SE_UpdatedAt e) then created else SE_UpdatedAt e in
    let updated := if Before updated created then created else updated in
    inr (mkStateEntry key category value (if decide (status = "") then StatusActive else status)
           (TrimSpace (SE_SourceEpisode e)) (TrimSpace (SE_SourceSegment e)) (TrimSpace (SE_SupersededBy e))
           (if fleb (SE_Confidence e) (of_int 0) then of_int 1 else SE_Confidence e)
           created updated (SE_ExpiresAt e)).

Definition with_created (created : Time) (e : StateEntry) : StateEntry :=
  mkStateEntry (SE_Key e) (SE_Category e) (SE_Value e) (SE_Status e) (SE_SourceEpisode e) (SE_SourceSegment e)
    (SE_SupersededBy e) (SE_Confidence e) created (SE_UpdatedAt e) (SE_ExpiresAt e).

(** [INSERT ... ON CONFLICT DO UPDATE]: the creation time of a row stays. *)
Definition upsert_row (tbl : StateTable) (sid : string) (e : StateEntry) : StateTable :=
  <[(sid, SE_Key e) := match tbl !! (sid, SE_Key e) with
                       | Some old => with_created (SE_CreatedAt old) e
                       | None => e
                       end]> tbl.

Fixpoint upsert_loop (tbl : StateTable) (sid : string) (entries : list StateEntry) (now : Time) :
    StateError + StateTable :=
  match entries with
  | [] => inr tbl
  | e :: rest =>
    match normalizeStateEntry e now with
    | inl err => inl err
    | inr n => upsert_loop (upsert_row tbl sid n) sid rest now
    end
  end.

Definition UpsertState (sessions : gset string) (tbl : StateTable) (sessionID : string)
    (entries : list StateEntry) (now : Time) : StateError + StateTable :=
  let sid := TrimSpace sessionID in
  if decide (sid = "") then inl ErrStateSession
  else match entries with
  | [] => inr tbl
  | _ => if decide (sid ∈ sessions) then upsert_loop tbl sid entries now else inl ErrStateSessionNotFound
  end.

Definition category_rank (category : string) : Z :=
  if decide (category = "decision") then 0 else if decide (category = "constraint") then 1
  else if decide (category = "todo") then 2 else 3.

Definition state_le (a b : StateEntry) : Prop :=
  category_rank (SE_Category a) < category_rank (SE_Category b)
  \/ category_rank (SE_Category a) = category_rank (SE_Category b) /\ String.le (SE_Key a) (SE_Key b).

#[export] Instance state_le_dec a b : Decision (state_le a b).
Proof. unfold state_le. apply _. Defined.

Definition unexpired (now : Time) (e : StateEntry) : Prop :=
  SE_Status e = StatusActive /\ (IsZero (SE_ExpiresAt e) = true \/ text_before now (SE_ExpiresAt e) = true).

Definition ActiveStates (tbl : StateTable) (sessionID : string) (now : Time) : StateError + list StateEntry :=
  let sid := TrimSpace sessionID in
  if decide (sid = "") then inl ErrStateSession
  else inr (merge_sort state_le
              (snd <$> filter (fun r => r.1.1 = sid /\ unexpired now r.2) (map_to_list tbl))).

(** ** Entries of a compaction *)

Definition compactStateKey (lower : string -> string) (category value : string) : string :=
  let category := TrimSpace (lower category) in
  let value := TrimSpace value in
  category +:+ ":" +:+ hex (take 6 (sha1_sum (string_bytes (category +:+ nl +:+ value)))).

Section Compaction.
Context {U : GoUnicode} {P : GoSprint}.

Definition state_entries (category : string) (values : list string) (now : Time) : list StateEntry :=
  (fun v => mkStateEntry (compactStateKey ToLower category v) category v StatusActive "" "" "" (of_int 1) now now zeroTime)
  <$> values.

Definition buildCompactStateEntries (messages : list Message) (now : Time) : list StateEntry :=
  let '(decisions, todos, constraints) := extractSegmentSignals messages in
  state_entries "decision" decisions now ++ state_entries "constraint" constraints now
  ++ state_entries "todo" todos now.

(** [writeCompactState]. *)
Definition writeCompactState (sessions : gset string) (tbl : StateTable) (sessionID : string)
    (older : list Message) (now : Time) : StateError + StateTable :=
  if decide (TrimSpace sessionID = "") then inr tbl
  else match buildCompactStateEntries older now with
  | [] => inr tbl
  | entries => UpsertState sessions tbl sessionID entries now
  end.
End Compaction.

(** ** The block of a prompt *)

Section Render.
Context {E : TokenEstimator}.

Definition state_line (e : StateEntry) : string :=
  "- " +:+ TrimSpace (SE_Category e) +:+ ": " +:+ TrimSpace (SE_Value e).

Definition renderSessionStateBlock (states : list StateEntry) : string :=
  match state_line <$> filter (fun e => TrimSpace (SE_Value e) <> "") states with
  | [] => ""
  | ls => Joins (["<session_state>"] ++ ls ++ ["</session_state>"]) nl
  end.

Definition renderTrimmedSessionState (e : StateEntry) (maxTokens : Z) : string :=
  if decide (maxTokens = 0) then "" else
  let line := if decide (0 < maxTokens) then softTrimContent (state_line e) (Z.to_nat (maxTokens * 4)) 0
              else state_line e in
  Joins ["<session_state>"; line; "</session_state>"] nl.

Fixpoint state_loop (selected rest : list StateEntry) (maxTokens : Z) : string :=
  match rest with
  | [] => renderSessionStateBlock selected
  | e :: rest =>
    let candidate := selected ++ [e] in
    if decide (0 < maxTokens /\ maxTokens < Estimate (renderSessionStateBlock candidate)) then
      match selected with
      | [] => renderTrimmedSessionState e maxTokens
      | _ => renderSessionStateBlock selected
      end
    else state_loop candidate rest maxTokens
  end.

Definition sessionStateForPrompt (states : list StateEntry) (maxTokens : Z) : string :=
  match states with
  | [] => ""
  | _ => if decide (maxTokens = 0) then "" else state_loop [] states maxTokens
  end.
End Render.

(** ** What a write stores *)

Definition with_key (k : string) (ns : list StateEntry) : list StateEntry := filter (fun n => SE_Key n = k) ns.

(** The row that a sequence of valid entries leaves for a key: the last of them,
    created when the row or the first of them was. *)
Definition written (old : option StateEntry) (k : string) (ns : list StateEntry) : option StateEntry :=
  match last (with_key k ns) with
  | None => old
  | Some n => Some (with_created (default (SE_CreatedAt n)
                      (SE_CreatedAt <$> match old with Some o => Some o | None => head (with_key k ns) end)) n)
  end.

Definition upsert_rows (tbl : StateTable) (sid : string) (ns : list StateEntry) : StateTable :=
  foldl (fun t n => upsert_row t sid n) tbl ns.

Lemma upsert_row_eq tbl sid e : upsert_row tbl sid e !! (sid, SE_Key e)
  = Some (match tbl !! (sid, SE_Key e) with Some old => with_created (SE_CreatedAt old) e | None => e end).
Proof. unfold upsert_row. by rewrite lookup_insert_eq. Qed.

Lemma upsert_row_ne tbl sid e i : i <> (sid, SE_Key e) -> upsert_row tbl sid e !! i = tbl !! i.
Proof. intros Hi. unfold upsert_row. by rewrite lookup_insert_ne. Qed.

Lemma upsert_rows_other tbl sid ns s k : s <> sid -> upsert_rows tbl sid ns !! (s, k) = tbl !! (s, k).
Proof.
  intros Hs. revert tbl. induction ns as [|n ns IH]; intros tbl; [done|]. unfold upsert_rows in *. cbn [foldl].
  rewrite IH. apply upsert_row_ne. congruence.
Qed.

Lemma with_created_same n : with_created (SE_CreatedAt n) n = n.
Proof. by destruct n. Qed.

Lemma upsert_rows_lookup tbl sid ns k : upsert_rows tbl sid ns !! (sid, k) = written (tbl !! (sid, k)) k ns.
Proof.
  induction ns as [|n ns IH] using rev_ind; [done|]. unfold upsert_rows in *. rewrite foldl_snoc.
  unfold written, with_key in *. rewrite filter_app.
  destruct (decide (SE_Key n = k)) as [<-|Hk].
  - rewrite upsert_row_eq, IH, filter_cons_True, filter_nil, last_snoc by done.
    destruct (filter _ ns) as [|f fs] eqn:Ef; cbn [last app head].
    + destruct (tbl !! _); cbn; by rewrite ?with_created_same.
    + destruct (last (f :: fs)) as [l|] eqn:El; [|by apply last_None in El].
      by destruct (tbl !! _); cbn.
  - rewrite upsert_row_ne by congruence. rewrite IH, filter_cons_False, filter_nil, app_nil_r by done. done.
Qed.

Lemma upsert_loop_valid tbl sid entries now ns :
  Forall2 (fun e n => normalizeStateEntry e now = inr n) entries ns ->
  upsert_loop tbl sid entries now = inr (upsert_rows tbl sid ns).
Proof.
  intros H. revert tbl. induction H as [|e n entries ns He H IH]; intros tbl; [done|].
  cbn [upsert_loop]. rewrite He. apply IH.
Qed.

Lemma upsert_loop_invalid tbl sid entries now pre e post err :
  entries = pre ++ e :: post -> Forall (fun e => exists n, normalizeStateEntry e now = inr n) pre ->
  normalizeStateEntry e now = inl err -> upsert_loop tbl sid entries now = inl err.
Proof.
  intros -> H He. revert tbl. induction H as [|x pre (n & Hx) H IH]; intros tbl; cbn [upsert_loop app].
  - by rewrite He.
  - rewrite Hx. apply IH.
Qed.

(** A list is valid or has a first entry that is not. *)
Lemma entries_valid_or entries now :
  (exists ns, Forall2 (fun e n => normalizeStateEntry e now = inr n) entries ns)
  \/ exists pre e post err, entries = pre ++ e :: post
     /\ Forall (fun e => exists n, normalizeStateEntry e now = inr n) pre /\ normalizeStateEntry e now = inl err.
Proof.
  induction entries as [|e entries IH]; [left; by exists []|].
  destruct (normalizeStateEntry e now) as [err|n] eqn:He; [right; by exists [], e, entries, err|].
  destruct IH as [(ns & H)|(pre & x & post & err & -> & H1 & H2)]; [left; exists (n :: ns); by constructor|].
  right. exists (e :: pre), x, post, err. split_and!; [done|by constructor; eauto|done].
Qed.

(** writing the state of a known session is all or nothing: either an entry
    lacks a key, a category or a value and the write fails with the error of the
    first such entry, or every key that was written holds the last entry for it,
    as old as the first one, and every other row of the table is as before. *)
Theorem state_write_exact sessions tbl sid entries now :
  TrimSpace sid <> "" -> TrimSpace sid ∈ sessions ->
  (exists pre e post err, entries = pre ++ e :: post
     /\ Forall (fun e => exists n, normalizeStateEntry e now = inr n) pre /\ normalizeStateEntry e now = inl err
     /\ UpsertState sessions tbl sid entries now = inl err)
  \/ (exists ns tbl', Forall2 (fun e n => normalizeStateEntry e now = inr n) entries ns
     /\ UpsertState sessions tbl sid entries now = inr tbl'
     /\ (forall s k, s <> TrimSpace sid -> tbl' !! (s, k) = tbl !! (s, k))
     /\ forall k, tbl' !! (TrimSpace sid, k) = written (tbl !! (TrimSpace sid, k)) k ns).
Proof.
  intros Hne Hin. unfold UpsertState. rewrite decide_False by done.
  destruct (entries_valid_or entries now) as [(ns & H)|(pre & e & post & err & Hs & H1 & H2)].
  - right. exists ns, (upsert_rows tbl (TrimSpace sid) ns). split_and!; [done| | |].
    + destruct entries as [|e entries]; [by inversion H|]. rewrite decide_True by done. by apply upsert_loop_valid.
    + intros s k Hs. by apply upsert_rows_other.
    + intros k. apply upsert_rows_lookup.
  - left. exists pre, e, post, err. split_and!; [done..|].
    destruct entries as [|x entries]; [by destruct pre|]. rewrite decide_True by done.
    by apply (upsert_loop_invalid _ _ _ _ pre e post).
Qed.

(** ** What a compaction keeps *)

Lemma hex_digit_graphic n : 0 <= n < 16 -> byte_in 33 126 (hex_digit n) = true.
Proof.
  intros Hn. assert (In n (Z.of_nat <$> seq 0 16)) as H
    by (apply list_elem_of_In, list_elem_of_fmap; exists (Z.to_nat n); split; [lia|apply elem_of_seq; lia]).
  vm_compute in H. by repeat (destruct H as [<-|H]; [done|]).
Qed.

Lemma hex_graphic bs : Forall (fun b => 0 <= b < 256) bs -> graphic (hex bs) = true.
Proof.
  induction 1 as [|b bs Hb _ IH]; [done|]. unfold graphic in *. cbn.
  rewrite (hex_digit_graphic (b / 16)) by (split; [apply Z.div_pos|apply Z.div_lt_upper_bound]; lia).
  by rewrite hex_digit_graphic, IH by (apply Z.mod_pos_bound; lia).
Qed.

Lemma sha1_bytes msg : Forall (fun b => 0 <= b < 256) (sha1_sum msg).
Proof.
  unfold sha1_sum. apply Forall_concat, Forall_fmap, Forall_forall. intros w _. unfold compose.
  apply Forall_fmap, Forall_forall. intros i _. unfold compose.
  change 255 with (Z.ones 8). rewrite Z.land_ones by lia. apply Z.mod_pos_bound. lia.
Qed.

Section Kept.
Context {U : GoUnicode} {P : GoSprint}.

Lemma dedupe_folded_elem seen l v : v ∈ dedupe_folded seen l -> Trimmed v /\ v <> "".
Proof.
  revert seen. induction l as [|x l IH]; intros seen; cbn; [by intros ?%elem_of_nil|].
  repeat case_decide; [apply IH..|]. intros [->|Hin]%elem_of_cons; [|by eapply IH]. split; [apply Trimmed_TrimSpace|done].
Qed.

Lemma signals_trimmed ms d t c v :
  extractSegmentSignals ms = (d, t, c) -> v ∈ d \/ v ∈ t \/ v ∈ c -> Trimmed v /\ v <> "".
Proof. intros [= <- <- <-]. intros [H|[H|H]]; by apply dedupe_folded_elem in H. Qed.

(** Categories of the compaction. *)
Definition plain_category (c : string) : Prop := c = "decision" \/ c = "constraint" \/ c = "todo".

Lemma state_key_trimmed c v : plain_category c -> Trimmed (compactStateKey ToLower c v) /\ compactStateKey ToLower c v <> "".
Proof.
  intros Hc. unfold compactStateKey. split.
  - apply graphic_trimmed. rewrite !graphic_app, hex_graphic by (apply Forall_take, sha1_bytes).
    destruct Hc as [->|[->| ->]]; rewrite ToLower_ascii by done; done.
  - destruct Hc as [->|[->| ->]]; rewrite ToLower_ascii by done; done.
Qed.

(** Every entry of a compaction is stored as it is. *)
Lemma state_entry_valid c values now e :
  plain_category c -> (forall v, v ∈ values -> Trimmed v /\ v <> "") -> now <> zeroTime ->
  e ∈ state_entries c values now -> normalizeStateEntry e now = inr e.
Proof.
  intros Hc Hv Hnow (x & -> & Hx)%list_elem_of_fmap. destruct (Hv x Hx) as [Ht Hne].
  destruct (state_key_trimmed c x Hc) as [Hk Hkne].
  assert (Trimmed c /\ c <> "") as [Hct Hcne] by (destruct Hc as [->|[->| ->]]; done).
  unfold normalizeStateEntry. cbn [SE_Key SE_Category SE_Value SE_Status SE_SourceEpisode SE_SourceSegment SE_SupersededBy
    SE_Confidence SE_CreatedAt SE_UpdatedAt SE_ExpiresAt].
  rewrite Hk, Hct, Ht, !decide_False by done. unfold IsZero. rewrite bool_decide_false by done.
  unfold Before. rewrite bool_decide_false by lia. done.
Qed.

Lemma compaction_entries_valid ms now :
  now <> zeroTime ->
  Forall2 (fun e n => normalizeStateEntry e now = inr n) (buildCompactStateEntries ms now) (buildCompactStateEntries ms now).
Proof.
  intros Hnow. apply Forall_Forall2_diag, Forall_forall. intros e. unfold buildCompactStateEntries.
  destruct (extractSegmentSignals ms) as [[d t] c] eqn:Es. rewrite !elem_of_app.
  intros [H|[H|H]]; (eapply state_entry_valid; [|..|exact H]; [unfold plain_category; auto| |done]);
    intros v Hv; eapply (signals_trimmed _ _ _ _ v Es); auto.
Qed.

Lemma last_with_key ns e : NoDup (SE_Key <$> ns) -> e ∈ ns -> last (with_key (SE_Key e) ns) = Some e.
Proof.
  intros Hnd He. unfold with_key.
  assert (filter (fun n => SE_Key n = SE_Key e) ns = [e]) as ->; [|done].
  induction ns as [|n ns IH]; [by apply elem_of_nil in He|]. cbn in Hnd. apply NoDup_cons in Hnd as [Hn Hnd].
  apply elem_of_cons in He as [->|He].
  - rewrite filter_cons_True by done. f_equal. destruct (filter _ ns) as [|x l] eqn:Ef; [done|].
    assert (x ∈ filter (fun m => SE_Key m = SE_Key n) ns) as [E Hx]%list_elem_of_filter by (rewrite Ef; by left).
    destruct Hn. rewrite <- E. by apply list_elem_of_fmap_2.
  - rewrite filter_cons_False; [by apply IH|]. intros E. apply Hn. rewrite E. by apply list_elem_of_fmap_2.
Qed.

(** the decisions, open tasks and constraints annotated on the messages that
    a compaction discards are active state of the session afterwards, whatever
    the table held before, as long as the shortened hashes of their keys
    differ. *)
Theorem discarded_signals_become_state sessions tbl sid ms now later :
  TrimSpace sid <> "" -> TrimSpace sid ∈ sessions -> now <> zeroTime ->
  NoDup (SE_Key <$> buildCompactStateEntries ms now) ->
  exists tbl' states, writeCompactState sessions tbl sid ms now = inr tbl'
    /\ ActiveStates tbl' sid later = inr states
    /\ forall d t c, extractSegmentSignals ms = (d, t, c) -> forall v,
       (v ∈ d -> exists e, e ∈ states /\ SE_Category e = "decision" /\ SE_Value e = v)
       /\ (v ∈ t -> exists e, e ∈ states /\ SE_Category e = "todo" /\ SE_Value e = v)
       /\ (v ∈ c -> exists e, e ∈ states /\ SE_Category e = "constraint" /\ SE_Value e = v).
Proof.
  intros Hne Hin Hnow Hnd. pose proof (compaction_entries_valid ms now Hnow) as Hv.
  set (es := buildCompactStateEntries ms now) in *.
  assert (writeCompactState sessions tbl sid ms now = inr (upsert_rows tbl (TrimSpace sid) es)) as Hw.
  { unfold writeCompactState, UpsertState. rewrite decide_False by done. fold es. destruct es as [|e es']; [done|].
    rewrite decide_False, decide_True by done. by apply upsert_loop_valid. }
  eexists _, _. split; [exact Hw|]. unfold ActiveStates. rewrite decide_False by done. split; [reflexivity|].
  assert (forall e, e ∈ es -> SE_Status e = StatusActive -> SE_ExpiresAt e = zeroTime ->
    exists e', e' ∈ merge_sort state_le (snd <$> filter (fun r => r.1.1 = TrimSpace sid /\ unexpired later r.2)
                                      (map_to_list (upsert_rows tbl (TrimSpace sid) es)))
      /\ SE_Category e' = SE_Category e /\ SE_Value e' = SE_Value e) as Hkept.
  { intros e He Hs Hx. pose proof (upsert_rows_lookup tbl (TrimSpace sid) es (SE_Key e)) as Hl.
    unfold written in Hl. rewrite (last_with_key es e Hnd He) in Hl. set (r := with_created _ e) in Hl.
    exists r. split; [|done]. rewrite merge_sort_Permutation. apply list_elem_of_fmap. exists ((TrimSpace sid, SE_Key e), r).
    split; [done|]. apply list_elem_of_filter. split; [|by apply elem_of_map_to_list].
    split; [done|]. split; [done|]. left. unfold r, IsZero. cbn [with_created SE_ExpiresAt snd].
    by apply bool_decide_true. }
  intros d t c Es v.
  assert (es = state_entries "decision" d now ++ state_entries "constraint" c now ++ state_entries "todo" t now) as Hes
    by (unfold es, buildCompactStateEntries; by rewrite Es).
  split_and!; intros Hv'; match goal with |- exists e, _ /\ SE_Category e = ?cat /\ _ =>
    destruct (Hkept (mkStateEntry (compactStateKey ToLower cat v) cat v StatusActive "" "" "" (of_int 1) now now zeroTime))
      as (e' & H1 & H2 & H3); [rewrite Hes, !elem_of_app; unfold state_entries; rewrite !list_elem_of_fmap; eauto|done|done|] end;
    exists e'; split_and!; done.
Qed.
End Kept.

(** ** The block of a prompt is a prefix of the state *)

Section Prompt.
Context {E : TokenEstimator}.

(** A block of the entries [states] that fits and that one more entry overflows. *)
Definition longest_fitting (states : list StateEntry) (maxTokens : Z) (k : nat) : Prop :=
  (0 < k <= length states)%nat
  /\ (forall j, (0 < j <= k)%nat -> Estimate (renderSessionStateBlock (take j states)) <= maxTokens)
  /\ ((k < length states)%nat -> maxTokens < Estimate (renderSessionStateBlock (take (S k) states))).

Lemma state_loop_spec selected rest maxTokens :
  0 < maxTokens -> (0 < length selected)%nat ->
  (forall j, (0 < j <= length selected)%nat ->
     Estimate (renderSessionStateBlock (take j (selected ++ rest))) <= maxTokens) ->
  exists k, state_loop selected rest maxTokens = renderSessionStateBlock (take k (selected ++ rest))
    /\ longest_fitting (selected ++ rest) maxTokens k.
Proof.
  intros Hm. revert selected. induction rest as [|e rest IH]; intros selected Hlen Hfit; cbn [state_loop].
  { rewrite app_nil_r in *. exists (length selected). rewrite firstn_all. split; [done|]. split; [lia|]. split; [done|lia]. }
  destruct (decide (_ /\ _)) as [[_ Hover]|Hno].
  - exists (length selected). rewrite take_app_length. split; [by destruct selected; [cbn in Hlen; lia|]|].
    split; [rewrite length_app; cbn; lia|]. split; [done|]. intros _.
    replace (S (length selected)) with (length (selected ++ [e])) by (rewrite length_app; cbn; lia).
    change (e :: rest) with ([e] ++ rest). rewrite app_assoc, take_app_length. done.
  - destruct (IH (selected ++ [e])) as (k & Hk & Hl).
    + rewrite length_app. lia.
    + rewrite <- app_assoc. intros j Hj. rewrite length_app in Hj. cbn [length] in Hj.
      destruct (decide (j <= length selected)%nat); [apply Hfit; lia|].
      replace j with (length (selected ++ [e])) by (rewrite length_app; cbn; lia).
      rewrite app_assoc, take_app_length. lia.
    + rewrite <- app_assoc in Hk, Hl. by exists k.
Qed.

(** the block of the session state that goes into a prompt shows the longest
    beginning of the active entries that fits the tokens of its section; only
    when the first entry does not fit is the block the cut form of that entry,
    and there is no block for no tokens. *)
Theorem state_block_fits states maxTokens :
  0 <= maxTokens ->
  let block := sessionStateForPrompt states maxTokens in
  (block = "" /\ (states = [] \/ maxTokens = 0))
  \/ (exists k, block = renderSessionStateBlock (take k states) /\ longest_fitting states maxTokens k)
  \/ (exists e rest, states = e :: rest /\ block = renderTrimmedSessionState e maxTokens
        /\ maxTokens < Estimate (renderSessionStateBlock [e])).
Proof.
  intros Hm. unfold sessionStateForPrompt. destruct states as [|e rest]; [by left; auto|].
  destruct (decide (maxTokens = 0)); [by left; auto|]. right. cbn [state_loop app].
  destruct (decide (_ /\ _)) as [[_ Hover]|Hno]; [right; eauto|]. left.
  destruct (state_loop_spec [e] rest maxTokens) as (k & Hk & Hl); [lia|cbn; lia| |by exists k].
  intros j Hj. cbn in Hj. replace j with 1%nat by lia. cbn [firstn app].
  apply Z.nlt_ge. intros H. apply Hno. split; [lia|exact H].
Qed.
End Prompt.

(** ** Examples *)

(** [fmt.Sprint] of texts and of no value. *)
Definition plain_sprint : GoSprint.
Proof.
  refine {| Sprint := fun v => match v with VString s => s | VNil => "<nil>" | _ => "?" end |}; done.
Defined.

Definition sample_signals : list Message :=
  [mkMessage RoleUser "go" [] "" "" [] 5
     [(MetadataKeySignalDecisions, VString " use staging "); (MetadataKeySignalTODOs, VStrings ["write docs"; "Write docs"])];
   mkMessage RoleUser "no" [] "" "" [] 6 [(MetadataKeySignalConstraints, VSlice [VString "no downtime"; VNil])]].

Lemma discarded_signals_become_state_witness :
  extractSegmentSignals (U := ascii_unicode) (P := plain_sprint) sample_signals
    = (["use staging"], ["write docs"], ["no downtime"])
  /\ exists tbl' states, writeCompactState (U := ascii_unicode) (P := plain_sprint) {[ "s1" ]} ∅ "s1" sample_signals 7 = inr tbl'
    /\ ActiveStates tbl' "s1" 9 = inr states
    /\ forall d t c, extractSegmentSignals (U := ascii_unicode) (P := plain_sprint) sample_signals = (d, t, c) -> forall v,
       (v ∈ d -> exists e, e ∈ states /\ SE_Category e = "decision" /\ SE_Value e = v)
       /\ (v ∈ t -> exists e, e ∈ states /\ SE_Category e = "todo" /\ SE_Value e = v)
       /\ (v ∈ c -> exists e, e ∈ states /\ SE_Category e = "constraint" /\ SE_Value e = v).
Proof.
  split; [vm_compute; reflexivity|].
  apply (discarded_signals_become_state (U := ascii_unicode) (P := plain_sprint) {[ "s1" ]} ∅ "s1" sample_signals 7 9).
  - by vm_compute.
  - by vm_compute.
  - done.
  - apply (bool_decide_unpack _). by vm_compute.
Defined.

Definition sample_entry (value : string) (at_ : Time) : StateEntry :=
  mkStateEntry " k1" "todo" value "" "" "" "" (of_int 0) at_ at_ 0.

Lemma state_write_exact_witness :
  UpsertState {[ "s1" ]} ∅ "s1" [sample_entry "a" 5; sample_entry " " 6] 9 = inl ErrStateValue
  /\ ((exists pre e post err, [sample_entry "a" 5; sample_entry "b" 6] = pre ++ e :: post
     /\ Forall (fun e => exists n, normalizeStateEntry e 9 = inr n) pre /\ normalizeStateEntry e 9 = inl err
     /\ UpsertState {[ "s1" ]} ∅ "s1" [sample_entry "a" 5; sample_entry "b" 6] 9 = inl err)
  \/ (exists ns tbl', Forall2 (fun e n => normalizeStateEntry e 9 = inr n) [sample_entry "a" 5; sample_entry "b" 6] ns
     /\ UpsertState {[ "s1" ]} ∅ "s1" [sample_entry "a" 5; sample_entry "b" 6] 9 = inr tbl'
     /\ (forall s k, s <> "s1" -> tbl' !! (s, k) = (∅ : StateTable) !! (s, k))
     /\ forall k, tbl' !! ("s1", k) = written ((∅ : StateTable) !! ("s1", k)) k ns)).
Proof.
  split; [vm_compute; reflexivity|].
  apply (state_write_exact {[ "s1" ]} ∅ "s1" [sample_entry "a" 5; sample_entry "b" 6] 9); by vm_compute.
Defined.

(** An estimator by length, for examples. *)
Definition length_estimator : TokenEstimator :=
  {| Estimate := fun s => Z.of_nat (String.length s); EstimateMessages := fun l => Z.of_nat (length l) |}.

Lemma state_block_fits_witness :
  let block := sessionStateForPrompt (E := length_estimator) [sample_entry "a" 5; sample_entry "b" 6] 45 in
  block = renderSessionStateBlock [sample_entry "a" 5]
  /\ ((block = "" /\ ([sample_entry "a" 5; sample_entry "b" 6] = [] \/ 45 = 0))
  \/ (exists k, block = renderSessionStateBlock (take k [sample_entry "a" 5; sample_entry "b" 6])
        /\ longest_fitting (E := length_estimator) [sample_entry "a" 5; sample_entry "b" 6] 45 k)
  \/ (exists e rest, [sample_entry "a" 5; sample_entry "b" 6] = e :: rest /\ block = renderTrimmedSessionState e 45
        /\ 45 < Estimate (TokenEstimator := length_estimator) (renderSessionStateBlock [e]))).
Proof.
  split; [vm_compute; reflexivity|].
  apply (state_block_fits (E := length_estimator) [sample_entry "a" 5; sample_entry "b" 6] 45). lia.
Defined.
