(* ===== verification/Identifiers.v ===== *)
(** * Opaque identifiers in a text ([contextengine/summarizer.go])

    [extractOpaqueIdentifiers] collects hashes, URLs, paths, addresses and long
    numbers with one regular expression.  The expression is data here, and
    [find_all] finds its matches the way [regexp] does: leftmost, the first
    alternative that matches, repetitions as long as possible.  All its classes
    tell ASCII bytes apart only, so it can be run on bytes. *)
From S2P Require Import Prelude GoLib GoText.
From Stdlib Require Import Ascii String.
Import Str Text.

Local Open Scope list_scope.

(** ** Expressions *)

Inductive rx :=
  | XByte (p : ascii -> bool)
  | XSeq (r s : rx)
  | XAlt (r s : rx)
  | XOpt (r : rx)
  | XPlus (r : rx)
  | XEdge.

(** [[0-9A-Za-z_]] *)
Definition word_char (a : ascii) : bool :=
  byte_in 48 57 a || byte_in 65 90 a || byte_is 95 a || byte_in 97 122 a.

Definition word_at (o : option ascii) : bool := match o with Some a => word_char a | None => false end.

(** The rest of the text after the preferred match at this point; [prev] is the
    byte before it. *)
Fixpoint xmatch (r : rx) (prev : option ascii) (l : bytes) (k : option ascii -> bytes -> option bytes) : option bytes :=
  match r with
  | XByte p => match l with a :: l' => if p a then k (Some a) l' else None | [] => None end
  | XSeq r s => xmatch r prev l (fun p l' => xmatch s p l' k)
  | XAlt r s => match xmatch r prev l k with Some x => Some x | None => xmatch s prev l k end
  | XOpt r => match xmatch r prev l k with Some x => Some x | None => k prev l end
  | XPlus r =>
    (fix plus (n : nat) (prev : option ascii) (l : bytes) : option bytes :=
       match n with
       | O => None
       | S n => xmatch r prev l (fun p l' => match plus n p l' with Some x => Some x | None => k p l' end)
       end) (S (List.length l)) prev l
  | XEdge => if Bool.eqb (word_at prev) (word_at (head l)) then None else k prev l
  end.

(** [FindAllString(text, -1)]; a match of the expression below is never empty. *)
Fixpoint find_all (fuel : nat) (r : rx) (prev : option ascii) (l : bytes) : list bytes :=
  match fuel with
  | O => []
  | S fuel =>
    match xmatch r prev l (fun _ rest => Some rest) with
    | Some rest =>
      let found := take (List.length l - List.length rest) l in
      found :: find_all fuel r (last found) rest
    | None => match l with [] => [] | a :: l' => find_all fuel r (Some a) l' end
    end
  end.

(** *** Repetition *)

Fixpoint at_least (n : nat) (r : rx) : rx := match n with S (S _ as m) => XSeq r (at_least m r) | _ => XPlus r end.

Fixpoint up_to (n : nat) (r : rx) : rx := match n with S (S _ as m) => XSeq r (XOpt (up_to m r)) | _ => r end.

Fixpoint literal (s : string) : rx :=
  match s with
  | String a EmptyString => XByte (fun b => bool_decide (b = a))
  | String a rest => XSeq (XByte (fun b => bool_decide (b = a))) (literal rest)
  | EmptyString => XByte (fun _ => false)
  end.

(** *** The expression *)

Definition hex_char (a : ascii) : bool := byte_in 48 57 a || byte_in 65 70 a || byte_in 97 102 a.
Definition digit (a : ascii) : bool := byte_in 48 57 a.
Definition letter (a : ascii) : bool := byte_in 65 90 a || byte_in 97 122 a.
Definition one_of (s : string) (a : ascii) : bool := existsb (fun b => bool_decide (b = a)) (list_ascii_of_string s).

Definition path_char (a : ascii) : bool := word_char a || one_of ".-" a.
Definition windows_char (a : ascii) : bool := word_char a || one_of "\.-" a.
Definition host_char (a : ascii) : bool := letter a || digit a || one_of "._-" a.
Definition host_path_char (a : ascii) : bool := host_char a || one_of "/" a.

Definition identifierPattern : rx :=
  XAlt (at_least 8 (XByte hex_char))
  (XAlt (XSeq (literal "http") (XSeq (XOpt (literal "s")) (XSeq (literal "://") (XPlus (XByte (fun a => negb (Regex.re_space a)))))))
  (XAlt (XSeq (literal "/") (XSeq (at_least 2 (XByte path_char)) (XPlus (XSeq (literal "/") (XPlus (XByte path_char))))))
  (XAlt (XSeq (XByte letter) (XSeq (literal ":\") (XPlus (XByte windows_char))))
  (XAlt (XSeq (XPlus (XByte host_char)) (XSeq (literal ".") (XSeq (XPlus (XByte host_path_char))
           (XSeq (literal ":") (up_to 5 (XByte digit))))))
        (XSeq XEdge (XSeq (at_least 6 (XByte digit)) XEdge)))))).

(** ** Collecting *)

Fixpoint trim_cut (cut : ascii -> bool) (l : bytes) : bytes :=
  match l with a :: l' => if cut a then trim_cut cut l' else l | [] => [] end.

(** [strings.Trim] with a set of ASCII characters. *)
Definition TrimSet (cut : ascii -> bool) (l : bytes) : bytes := rev (trim_cut cut (rev (trim_cut cut l))).

Definition punctuation (a : ascii) : bool := one_of ".,;:!?()[]{}'" a || byte_is 34 a.

Definition upper_byte (a : ascii) : ascii :=
  if byte_in 97 122 a then ascii_of_nat (nat_of_ascii a - 32) else a.

Definition isPureHex (l : bytes) : bool := (8 <=? List.length l) && forallb hex_char l.

Definition normalizeIdentifier (l : bytes) : bytes := if isPureHex l then upper_byte <$> l else l.

(** The loop over the matches; [count] is the number of results so far, and
    a limit of 0 is none. *)
Fixpoint collect (seen : list bytes) (count maxCount : nat) (matches : list bytes) : list bytes :=
  match matches with
  | [] => []
  | m :: rest =>
    let m := TrimSet punctuation m in
    let n := normalizeIdentifier m in
    if (List.length n <? 4) || bool_decide (n ∈ seen) then collect seen count maxCount rest
    else m :: (if (0 <? maxCount) && (maxCount <=? S count) then []
               else collect (n :: seen) (S count) maxCount rest)
  end.

Definition identifier_matches (text : string) : list bytes :=
  let l := list_ascii_of_string text in find_all (S (List.length l)) identifierPattern None l.

Definition extractOpaqueIdentifiers (text : string) (maxCount : nat) : list string :=
  string_of_list_ascii <$> collect [] 0 maxCount (identifier_matches text).


(** Each alternative, with what is cut off and what counts as the same. *)
Lemma identifier_examples :
  extractOpaqueIdentifiers ("run deadBEEF42, then DEADbeef42; see https://x.io/a?b=1). In /var/log/app.log or (C:\tmp\a.txt) at "
    +:+ quote_mark +:+ "db.internal:5432" +:+ quote_mark +:+ " ticket 1234567 not 12345 /tmp a.b:123456") 16
  = ["deadBEEF42"; "https://x.io/a?b=1"; "/var/log/app.log"; "C:\tmp\a.txt"; "db.internal:5432"; "1234567"; "a.b:12345"].
Proof. vm_compute. reflexivity. Qed.

(** ** Matches are parts of the text *)

Definition infix (m l : bytes) : Prop := exists pre post, l = pre ++ m ++ post.

Lemma infix_refl l : infix l l.
Proof. exists [], []. by rewrite app_nil_r. Qed.

Lemma infix_trans a b c : infix a b -> infix b c -> infix a c.
Proof. intros (p & q1 & ->) (r & s & ->). exists (r ++ p), (q1 ++ s). by rewrite <- !app_assoc. Qed.

Lemma infix_suffix m l pre : infix m l -> infix m (pre ++ l).
Proof. intros (p & s & ->). exists (pre ++ p), s. by rewrite <- app_assoc. Qed.

(** A match ends where its continuation takes over. *)
Lemma xmatch_suffix r prev l k x :
  xmatch r prev l k = Some x -> exists p pre l', l = pre ++ l' /\ k p l' = Some x.
Proof.
  revert prev l k. induction r as [p|r IHr s IHs|r IHr s IHs|r IHr|r IHr|]; intros prev l k; cbn [xmatch].
  - destruct l as [|a l]; [done|]. destruct (p a); [|done]. intros H. by exists (Some a), [a], l.
  - intros (p & pre & l' & -> & H)%IHr. apply IHs in H as (p' & pre' & l'' & -> & H).
    exists p', (pre ++ pre'), l''. by rewrite <- app_assoc.
  - destruct (xmatch r prev l k) eqn:E; [intros [= <-]; by eapply IHr|apply IHs].
  - destruct (xmatch r prev l k) eqn:E; [intros [= <-]; by eapply IHr|]. intros H. by exists prev, [], l.
  - match goal with |- context [?F (List.length l)] => set (plus := F) end. generalize (List.length l). intros n.
    assert (forall n prev l, plus n prev l = Some x -> exists p pre l', l = pre ++ l' /\ k p l' = Some x) as Hplus.
    { clear n l prev. induction n as [|n IH]; intros prev l; [discriminate|]. intros (p & pre & l' & -> & H)%IHr.
      fold plus in H. destruct (plus n p l') eqn:E; [|by exists p, pre, l'].
      injection H as ->. apply IH in E as (p' & pre' & l'' & -> & H'). exists p', (pre ++ pre'), l''.
      split; [by rewrite <- app_assoc|done]. }
    intros (p & pre & l' & -> & H)%IHr. destruct (plus n p l') eqn:E; [|by exists p, pre, l'].
    injection H as ->. apply Hplus in E as (p' & pre' & l'' & -> & H'). exists p', (pre ++ pre'), l''.
    split; [by rewrite <- app_assoc|done].
  - destruct (Bool.eqb _ _); [done|]. intros H. by exists prev, [], l.
Qed.

Lemma find_all_infix fuel r prev l m : m ∈ find_all fuel r prev l -> infix m l.
Proof.
  revert prev l. induction fuel as [|fuel IH]; intros prev l; cbn; [by intros ?%elem_of_nil|].
  destruct (xmatch r prev l _) as [rest|] eqn:E.
  - apply xmatch_suffix in E as (p & pre & l' & -> & [= ->]).
    replace (List.length (pre ++ rest) - List.length rest) with (List.length pre) by (rewrite length_app; lia).
    rewrite take_app_length. intros [->|H]%elem_of_cons; [by exists [], rest|].
    apply infix_suffix. by eapply IH.
  - destruct l as [|a l]; [by intros ?%elem_of_nil|]. intros H. change (a :: l) with ([a] ++ l).
    apply infix_suffix. by eapply IH.
Qed.

Lemma trim_cut_suffix cut l : exists pre, l = pre ++ trim_cut cut l.
Proof.
  induction l as [|a l [pre E]]; [by exists []|]. cbn. destruct (cut a); [|by exists []].
  exists (a :: pre). cbn. by rewrite <- E.
Qed.

Lemma TrimSet_infix cut l : infix (TrimSet cut l) l.
Proof.
  unfold TrimSet. destruct (trim_cut_suffix cut l) as [pre E].
  destruct (trim_cut_suffix cut (rev (trim_cut cut l))) as [pre' E'].
  apply (f_equal (@rev _)) in E'. rewrite rev_involutive, rev_app_distr in E'.
  exists pre, (rev pre'). by rewrite <- E'.
Qed.

(** What the loop collects, and what it leaves out. *)
Lemma collect_spec seen count maxCount ms :
  let out := collect seen count maxCount ms in
  (forall x, x ∈ out -> 4 <= List.length (normalizeIdentifier x) /\ exists m, m ∈ ms /\ x = TrimSet punctuation m)
  /\ NoDup (normalizeIdentifier <$> out)
  /\ (forall x, x ∈ out -> normalizeIdentifier x ∉ seen)
  /\ (0 < maxCount -> count < maxCount -> count + List.length out <= maxCount)
  /\ (maxCount = 0 \/ count + List.length out < maxCount ->
      forall m, m ∈ ms -> let n := normalizeIdentifier (TrimSet punctuation m) in
        4 <= List.length n -> n ∈ seen \/ n ∈ normalizeIdentifier <$> out).
Proof.
  revert seen count. induction ms as [|m ms IH]; intros seen count; cbn [collect].
  { split_and!; [by intros ? ?%elem_of_nil|constructor|by intros ? ?%elem_of_nil|cbn; lia|by intros _ ? ?%elem_of_nil]. }
  set (t := TrimSet punctuation m). set (n := normalizeIdentifier t).
  destruct ((List.length n <? 4) || bool_decide (n ∈ seen)) eqn:Eskip.
  - destruct (IH seen count) as (H1 & H2 & H3 & H4 & H5). split_and!; [|done..|].
    + intros x Hx. destruct (H1 x Hx) as (? & m' & ? & ?). split; [done|]. exists m'. split; [by right|done].
    + intros Hc m' [->|Hm]%elem_of_cons; [|by apply H5]. cbv zeta. fold t n. intros Hlen.
      apply orb_true_iff in Eskip as [E|E]; bool_prop; [apply Nat.ltb_lt in E; lia|by left].
  - apply orb_false_iff in Eskip as [Elen Eseen]. apply Nat.ltb_ge in Elen. bool_prop.
    destruct ((0 <? maxCount) && (maxCount <=? S count)) eqn:Ecut.
    + apply andb_true_iff in Ecut as [E1%Nat.ltb_lt E2%Nat.leb_le]. split_and!.
      * intros x ->%list_elem_of_singleton. split; [done|]. exists m. split; [by left|done].
      * apply NoDup_singleton.
      * by intros x ->%list_elem_of_singleton.
      * cbn. lia.
      * cbn [List.length]. lia.
    + apply andb_false_iff in Ecut. rewrite Nat.ltb_ge, Nat.leb_gt in Ecut.
      destruct (IH (n :: seen) (S count)) as (H1 & H2 & H3 & H4 & H5). split_and!.
      * intros x [->|Hx]%elem_of_cons; [split; [done|]; exists m; split; [by left|done]|].
        destruct (H1 x Hx) as (? & m' & ? & ?). split; [done|]. exists m'. split; [by right|done].
      * cbn. apply NoDup_cons. split; [|done]. intros (x & E & Hx)%list_elem_of_fmap. apply (H3 x Hx). rewrite <- E. by left.
      * intros x [->|Hx]%elem_of_cons; [done|]. intros Hs. apply (H3 x Hx). by right.
      * cbn [List.length]. intros. specialize (H4 ltac:(lia)). lia.
      * cbn [List.length]. intros Hc m' [->|Hm]%elem_of_cons; cbv zeta; fold t n; intros Hlen; [right; by left|].
        destruct (H5 ltac:(lia) m' Hm Hlen) as [[->|Hs]%elem_of_cons|Ho]; [right; by left|by left|right; by right].
Qed.

Lemma string_of_bytes_length l : String.length (string_of_list_ascii l) = List.length l.
Proof. induction l as [|a l IH]; cbn; [done|by rewrite IH]. Qed.

(** the identifiers that are extracted from a text are parts of it, of at
    least four characters, no two the same (hexadecimal ones in either case),
    and no more than asked for; when there are fewer, every match in the text is
    among them or too short once the punctuation around it is cut off. *)
Theorem identifiers_exact text maxCount :
  let out := extractOpaqueIdentifiers text maxCount in
  (forall s, s ∈ out -> 4 <= String.length s /\ infix (list_ascii_of_string s) (list_ascii_of_string text))
  /\ NoDup ((fun s => normalizeIdentifier (list_ascii_of_string s)) <$> out)
  /\ (0 < maxCount -> List.length out <= maxCount)
  /\ (maxCount = 0 \/ List.length out < maxCount -> forall m, m ∈ identifier_matches text ->
      let n := normalizeIdentifier (TrimSet punctuation m) in
      List.length n < 4 \/ n ∈ (fun s => normalizeIdentifier (list_ascii_of_string s)) <$> out).
Proof.
  cbv zeta. unfold extractOpaqueIdentifiers.
  destruct (collect_spec [] 0 maxCount (identifier_matches text)) as (H1 & H2 & _ & H4 & H5).
  set (out := collect [] 0 maxCount (identifier_matches text)) in *.
  assert ((fun s => normalizeIdentifier (list_ascii_of_string s)) <$> (string_of_list_ascii <$> out)
          = normalizeIdentifier <$> out) as Hn.
  { rewrite <- list_fmap_compose. apply list_fmap_ext. intros i x _. unfold compose.
    by rewrite list_ascii_of_string_of_list_ascii. }
  rewrite Hn, length_fmap. split_and!; [|done|intros; specialize (H4 ltac:(lia)); lia|].
  - intros s (x & -> & Hx)%list_elem_of_fmap. destruct (H1 x Hx) as (Hlen & m & Hm & ->).
    rewrite list_ascii_of_string_of_list_ascii. split.
    + rewrite string_of_bytes_length. revert Hlen. unfold normalizeIdentifier. destruct (isPureHex _); [by rewrite length_fmap|done].
    + eapply infix_trans; [apply TrimSet_infix|]. by eapply find_all_infix.
  - intros Hc m Hm. destruct (decide (List.length (normalizeIdentifier (TrimSet punctuation m)) < 4)); [by left|right].
    by destruct (H5 ltac:(lia) m Hm ltac:(lia)) as [?%elem_of_nil|].
Qed.
