(* ===== verification/ContextCompact.v ===== *)
(** * Compaction of a session ([contextengine/engine_compaction.go])

    [Compact] discards the oldest messages of a session: it flushes what is
    annotated on them to the memory ([precompact_flush.go]) and to the state of
    the session, stores a summary of them as a segment, rolls segments up, and
    only then replaces the session.  The stores are one record that is passed
    along; a failing step leaves the changes of the steps before it.  Hooks,
    summarizer and embedding client are fields of the configuration; the IDs
    that are drawn and the time are arguments. *)
From S2P Require Import Prelude GoLib GoText GoClock GoFloat GoSort ContextMessages ContextSummary ContextPinned AgentMemory.
From S2P Require Import SegmentStore SegmentRollup SessionState Identifiers.
From Stdlib Require Import Floats.SpecFloat Sorted.
Import Str Text GoTime.

Local Open Scope Z_scope.

(** ** Sessions *)

(** [SkillSnapshot] is carried along unchanged and is left out. *)
Record Session := mkSession {
  S_ID : string;
  S_Messages : list Message;
  S_Summary : string;
  S_SummaryAt : Time;
  S_PinnedFacts : list PinnedFact;
  S_ExecutionWatermark : Z;
  S_LoadedMessageSeqs : list Z }.

Record CompactEvent := mkCompactEvent {
  CE_Session : Session; CE_Reason : string; CE_DiscardedCount : nat; CE_PreTokens : Z; CE_PostTokens : Z;
  CE_SummaryChars : nat; CE_PinnedFactCount : nat; CE_MemoryFlushCount : nat }.

Section Compact.
Context {U : GoUnicode} {P : GoSprint} {T : GoTimeText} {E : TokenEstimator} {M : AgentMemory}.

(** What the engine writes to. *)
Record Stores := mkStores { St_Segments : SegmentDB; St_States : StateTable; St_Memory : Mem }.

(** The fields of [Config] that compaction reads.  The segment writer and reader
    and the state writer are the session store, when they are set. *)
Record CompactConfig := mkCompactConfig {
  CompactKeepLastN : nat;
  CompactKeepRecentTokens : Z;
  CompactSummaryChars : Z;
  PreCompactHook : option (Stores -> list Message -> Session -> Stores * bool);
  HasStateWriter : bool;
  HasMemoryWriter : bool;
  Summarizer : option (list Message -> Z -> option string);
  HasSegmentWriter : bool;
  Embed : option (string -> option (list (list float64)));
  PostCompactHook : option (CompactEvent -> option Session) }.

(** The IDs that a compaction draws. *)
Record Drawn := mkDrawn { D_Episode : string; D_Segment : string; D_Rollups : nat -> string }.

Inductive CompactError :=
  | ErrCompactState (e : StateError)
  | ErrCompactSegment (e : SegmentError)
  | ErrPostCompactHook.

(** ** Flushing to the memory *)

(** [Format("20060102T150405")]. *)
Definition FormatFlushTime (t : Time) : string :=
  let '(y, m, d) := Date t in
  let s := (t / Second) mod 86400 in
  padded 4 y +:+ padded 2 m +:+ padded 2 d +:+ "T" +:+ padded 2 (s / 3600) +:+ padded 2 (s / 60 mod 60)
  +:+ padded 2 (s mod 60).

(** The entries of the hook: their suffix and their value. *)
Definition flush_entries (discarding : list Message) : list (string * string) :=
  let tool := String.concat "" ((fun m => TextContent m +:+ nl) <$> filter (fun m => M_Role m = RoleTool) discarding) in
  let ids := extractOpaqueIdentifiers tool 12 in
  ((fun f => ("pinned", PF_Content f)) <$> collectPinnedFacts discarding)
  ++ ((fun s => ("signal", s)) <$> List.concat (extractAnnotatedSignalTexts <$> discarding))
  ++ (if decide (ids = []) then [] else [("identifiers", Joins ids nl)]).

(** The writes, numbered from [idx]; false when one of them failed. *)
Fixpoint flush_loop (mem : Mem) (prefix : string) (idx : nat) (entries : list (string * string)) : Mem * bool :=
  match entries with
  | [] => (mem, true)
  | (suffix, value) :: rest =>
    if decide (value = "") then flush_loop mem prefix idx rest
    else
      let '(mem, ok) := MSet mem (prefix +:+ ":" +:+ itoa idx +:+ ":" +:+ suffix) value in
      let '(mem, all) := flush_loop mem prefix (S idx) rest in
      (mem, (ok : bool) && all)
  end.

(** The hook of [NewMemoryFlushHook]. *)
Definition MemoryFlushHook (now : Time) (st : Stores) (discarding : list Message) (session : Session) : Stores * bool :=
  match discarding with
  | [] => (st, true)
  | _ =>
    let prefix := "compact_flush:" +:+ S_ID session +:+ ":" +:+ FormatFlushTime now in
    let '(mem, ok) := flush_loop (St_Memory st) prefix 0 (flush_entries discarding) in
    (mkStores (St_Segments st) (St_States st) mem, ok)
  end.

(** ** Segments *)

(** [compactSegmentTimeRange]. *)
Definition compactSegmentTimeRange (messages : list Message) (now : Time) : Time * Time :=
  match messages with
  | [] => (now, now)
  | first :: rest =>
    let start := if IsZero (M_CreatedAt first) then now else M_CreatedAt first in
    let final := M_CreatedAt (default first (last rest)) in
    let stop := if IsZero final then start else final in
    (start, if Before stop start then start else stop)
  end.

Definition extractSegmentEntities (messages : list Message) : list string :=
  let texts := filter (fun s => s <> "") ((fun m => TrimSpace (TextContent m)) <$> messages) in
  dedupeStrings (extractOpaqueIdentifiers (Joins texts nl) 16).

Definition buildCompactSegment (sessionID episodeID : string) (messages : list Message) (summary : string)
    (seqStart seqEnd : Z) (now : Time) : SummarySegment :=
  let '(tsStart, tsEnd) := compactSegmentTimeRange messages now in
  let '(decisions, todos, constraints) := extractSegmentSignals messages in
  let entities := extractSegmentEntities messages in
  mkSegment "" sessionID episodeID 1 seqStart seqEnd tsStart tsEnd (TrimSpace summary) decisions todos constraints
    entities (extractArtifactRefs entities) []
    (buildSegmentKeywords summary [decisions; todos; constraints; entities])
    (segmentQualityScore summary decisions todos constraints entities) "" now.

Definition with_embedding (v : list float64) (s : SummarySegment) : SummarySegment :=
  mkSegment (Sg_ID s) (Sg_SessionID s) (Sg_EpisodeID s) (Sg_Level s) (Sg_SeqStart s) (Sg_SeqEnd s)
    (Sg_TSStart s) (Sg_TSEnd s) (Sg_SummaryText s) (Sg_Decisions s) (Sg_TODOs s) (Sg_Constraints s)
    (Sg_Entities s) (Sg_ArtifactRefs s) v (Sg_Keywords s) (Sg_QualityScore s) (Sg_ParentSegmentID s) (Sg_CreatedAt s).

(** [compactedDiscardedRange]. *)
Definition compactedDiscardedRange (loadedSeqs : list Z) (discardedCount discardedPersisted : nat) : option (Z * Z) :=
  if decide (discardedPersisted = 0 \/ discardedPersisted <> discardedCount \/ length loadedSeqs < discardedPersisted)%nat
  then None
  else match loadedSeqs !! 0%nat, loadedSeqs !! (discardedPersisted - 1)%nat with
       | Some a, Some b => Some (a, b)
       | _, _ => None
       end.

(** [ensureActiveEpisode], for the session store. *)
Definition ensureActiveEpisode (db : SegmentDB) (sessionID fresh : string) (now : Time) :
    SegmentError + (SegmentDB * string) :=
  match ActiveEpisode db sessionID with
  | inl e => inl e
  | inr id => if decide (TrimSpace id <> "") then inr (db, id) else CreateEpisode db sessionID "default" fresh now
  end.

(** [writeCompactSegment]: the tables and the episode, if a segment was written. *)
Definition writeCompactSegment (cfg : CompactConfig) (db : SegmentDB) (session : Session) (older : list Message)
    (summary : string) (range : option (Z * Z)) (d : Drawn) (now : Time) :
    SegmentDB * (SegmentError + option string) :=
  if decide (older = [] \/ TrimSpace summary = "" \/ TrimSpace (S_ID session) = "") then (db, inr None)
  else match range with
  | None => (db, inr None)
  | Some (a, b) =>
    match ensureActiveEpisode db (S_ID session) (D_Episode d) now with
    | inl e => (db, inl e)
    | inr (db, episodeID) =>
      let segment := buildCompactSegment (S_ID session) episodeID older summary a b now in
      let segment := match Embed cfg with
        | Some embed => match embed (Sg_SummaryText segment) with
                        | Some (v :: _) => with_embedding v segment
                        | _ => segment
                        end
        | None => segment
        end in
      match InsertSegment db segment (D_Segment d) now with
      | inl e => (db, inl e)
      | inr db => (db, inr (Some episodeID))
      end
    end
  end.

(** ** Where to cut *)

(** The loop from the newest message on; [cut] is the number of messages that
    are not kept so far. *)
Fixpoint token_cut (rev_messages : list Message) (budget : Z) (cut : nat) : nat :=
  match rev_messages with
  | [] => cut
  | m :: rest => if decide (0 < budget) then token_cut rest (budget - EstimateMessages [m]) (length rest) else cut
  end.

Definition compact_cut (cfg : CompactConfig) (messages : list Message) : nat :=
  let cutByCount := (length messages - CompactKeepLastN cfg)%nat in
  let cutByTokens := if decide (0 < CompactKeepRecentTokens cfg)
    then token_cut (rev messages) (CompactKeepRecentTokens cfg) (length messages) else cutByCount in
  Nat.min cutByTokens cutByCount.

(** ** The operation *)

(** The session without its first [cut] messages. *)
Definition nextSession (s : Session) (cut persisted : nat) : Session :=
  let '(watermark, seqs) :=
    if decide (0 < persisted)%nat
    then (default 0 (S_LoadedMessageSeqs s !! (persisted - 1)%nat), drop persisted (S_LoadedMessageSeqs s))
    else (S_ExecutionWatermark s, S_LoadedMessageSeqs s) in
  mkSession (S_ID s) (drop cut (S_Messages s)) (S_Summary s) (S_SummaryAt s)
    (mergePinnedFacts [collectPinnedFacts (take cut (S_Messages s)); S_PinnedFacts s]) watermark seqs.

Definition set_summary (summary : string) (now : Time) (s : Session) : Session :=
  mkSession (S_ID s) (S_Messages s) summary (if decide (summary = "") then S_SummaryAt s else now)
    (S_PinnedFacts s) (S_ExecutionWatermark s) (S_LoadedMessageSeqs s).

(** The summary of the discarded messages. *)
Definition compact_summary (cfg : CompactConfig) (older : list Message) : string :=
  match Summarizer cfg with
  | Some summarize => default (buildCompactSummary older (CompactSummaryChars cfg)) (summarize older (CompactSummaryChars cfg))
  | None => buildCompactSummary older (CompactSummaryChars cfg)
  end.

(** Storing the segment and rolling up; the fuel is enough for every table
    without blank identifiers.  [None] when rolling up does not end. *)
Definition compact_segment (cfg : CompactConfig) (db : SegmentDB) (session : Session) (older : list Message)
    (summary : string) (range : option (Z * Z)) (d : Drawn) (now : Time) : option (SegmentDB * option SegmentError) :=
  if HasSegmentWriter cfg then
    match writeCompactSegment cfg db session older summary range d now with
    | (db, inl e) => Some (db, Some e)
    | (db, inr None) => Some (db, None)
    | (db, inr (Some episodeID)) =>
      if decide (TrimSpace episodeID = "") then Some (db, None)
      else match MaybeGenerateL2 (S (length (DB_Segments db))) db episodeID (D_Rollups d) now with
           | None => None
           | Some (db, _) => Some (db, None)
           end
    end
  else Some (db, None).

Definition Compact (cfg : CompactConfig) (st : Stores) (s : Session) (reason : string) (d : Drawn) (now : Time) :
    option (Stores * Session * option CompactError) :=
  if decide (length (S_Messages s) <= CompactKeepLastN cfg)%nat then Some (st, s, None) else
  let preTokens := EstimateMessages (S_Messages s) in
  let cut := compact_cut cfg (S_Messages s) in
  if decide (cut = 0)%nat then Some (st, s, None) else
  let older := take cut (S_Messages s) in
  let persisted := Nat.min cut (length (S_LoadedMessageSeqs s)) in
  let range := compactedDiscardedRange (S_LoadedMessageSeqs s) cut persisted in
  let '(st, flushed) := match PreCompactHook cfg with
    | Some hook => let '(st, ok) := hook st older s in (st, if ok : bool then countFlushableSignals older else 0%nat)
    | None => (st, 0%nat)
    end in
  match (if HasStateWriter cfg then writeCompactState (DB_Sessions (St_Segments st)) (St_States st) (S_ID s) older now
         else inr (St_States st)) with
  | inl e => Some (st, s, Some (ErrCompactState e))
  | inr states =>
    let next := nextSession s cut persisted in
    let '(mem, synced) := if HasMemoryWriter cfg then SyncPinnedFactsToMemory (S_PinnedFacts next) (St_Memory st)
                          else (St_Memory st, 0%nat) in
    let summary := compact_summary cfg older in
    match compact_segment cfg (St_Segments st) s older summary range d now with
    | None => None
    | Some (db, Some e) => Some (mkStores db states mem, s, Some (ErrCompactSegment e))
    | Some (db, None) =>
      let st := mkStores db states mem in
      let next := set_summary (mergeCompactSummaries (S_Summary s) summary reason (CompactSummaryChars cfg)) now next in
      let event := mkCompactEvent next reason (length older) preTokens (EstimateMessages (S_Messages next))
                     (String.length (S_Summary next)) (length (S_PinnedFacts next)) (flushed + synced) in
      match PostCompactHook cfg with
      | Some hook => match hook event with
                     | None => Some (st, s, Some ErrPostCompactHook)
                     | Some next => Some (st, next, None)
                     end
      | None => Some (st, next, None)
      end
    end
  end.

(** ** Where the cut is *)

(** Tokens of messages, one at a time as the loop counts them. *)
Fixpoint single_tokens (l : list Message) : Z :=
  match l with [] => 0 | m :: rest => EstimateMessages [m] + single_tokens rest end.

Lemma single_tokens_rev l : single_tokens (rev l) = single_tokens l.
Proof.
  assert (forall a b, single_tokens (a ++ b) = single_tokens a + single_tokens b) as Happ
    by (induction a as [|m a IH]; intros b; cbn; [done|]; rewrite IH; lia).
  induction l as [|m l IH]; [done|]. cbn [rev]. rewrite Happ, IH. cbn. lia.
Qed.

Lemma token_cut_spec rl budget :
  let k := token_cut rl budget (length rl) in
  (k <= length rl)%nat /\ (k = 0%nat \/ budget <= single_tokens (take (length rl - k) rl))
  /\ forall j, (j < length rl - k)%nat -> single_tokens (take j rl) < budget.
Proof.
  revert budget. induction rl as [|m rl IH]; intros budget; cbn [token_cut].
  { split; [done|]. split; [by left|]. cbn. lia. }
  destruct (decide (0 < budget)) as [Hb|Hb].
  - destruct (IH (budget - EstimateMessages [m])) as (H1 & H2 & H3).
    set (k := token_cut rl (budget - EstimateMessages [m]) (length rl)) in *. cbn [length].
    split; [lia|]. replace (S (length rl) - k)%nat with (S (length rl - k)) by lia. split.
    + destruct H2 as [|H2]; [by left|right]. cbn [firstn single_tokens]. lia.
    + intros [|j] Hj; cbn [firstn single_tokens]; [lia|]. specialize (H3 j ltac:(lia)). lia.
  - rewrite Nat.sub_diag. split; [done|]. split; [right; cbn; lia|]. intros j Hj. lia.
Qed.

(** The messages from position [k] on, in the reversed list. *)
Lemma take_rev {A} (l : list A) k : take (length l - k) (rev l) = rev (drop k l).
Proof. rewrite firstn_rev. destruct (decide (k <= length l)%nat).
  - by replace (length l - (length l - k))%nat with k by lia.
  - rewrite (drop_ge l k) by lia. rewrite drop_ge by lia. done. Qed.

(** What has to be kept: enough messages, and enough tokens unless that takes
    all messages. *)
Definition enough (cfg : CompactConfig) (messages kept : list Message) : Prop :=
  (CompactKeepLastN cfg <= length kept)%nat
  /\ (0 < CompactKeepRecentTokens cfg -> kept = messages \/ CompactKeepRecentTokens cfg <= single_tokens kept).

Lemma single_tokens_drop ms i j :
  (forall m, 0 <= EstimateMessages [m]) -> (i <= j)%nat -> single_tokens (drop j ms) <= single_tokens (drop i ms).
Proof.
  intros Hpos. revert i j. induction ms as [|m ms IH]; intros i j Hij; [by rewrite !drop_nil|].
  destruct i as [|i], j as [|j]; [lia| |lia|apply IH; lia].
  transitivity (single_tokens ms); [apply (IH 0%nat j); lia|]. change (drop 0 (m :: ms)) with (m :: ms).
  cbn [single_tokens]. specialize (Hpos m). lia.
Qed.

(** The cut is the largest one that keeps enough. *)
Lemma compact_cut_spec cfg ms :
  (forall m, 0 <= EstimateMessages [m]) -> (CompactKeepLastN cfg < length ms)%nat ->
  let cut := compact_cut cfg ms in
  (cut < length ms \/ CompactKeepLastN cfg = 0)%nat /\ (cut <= length ms)%nat /\ enough cfg ms (drop cut ms)
  /\ forall k, (cut < k <= length ms)%nat -> ~ enough cfg ms (drop k ms).
Proof.
  intros Hpos Hlen. unfold compact_cut, enough. destruct (decide (0 < CompactKeepRecentTokens cfg)) as [Hb|Hb].
  - destruct (token_cut_spec (rev ms) (CompactKeepRecentTokens cfg)) as (H1 & H2 & H3). rewrite length_rev in *.
    set (kt := token_cut _ _ _) in *. rewrite take_rev, single_tokens_rev in H2. assert (H0 : (kt <= length ms)%nat) by done.
    split_and!; [destruct (decide (CompactKeepLastN cfg = 0)%nat); lia|lia|rewrite length_drop; lia| |].
    + intros _. destruct H2 as [->|H2]; [left; by rewrite Nat.min_0_l|right].
      pose proof (single_tokens_drop ms (Nat.min kt (length ms - CompactKeepLastN cfg)) kt Hpos ltac:(lia)). lia.
    + intros k Hk [K1 K2]. rewrite length_drop in K1. destruct (K2 Hb) as [K|K].
      * apply (f_equal length) in K. rewrite length_drop in K. lia.
      * specialize (H3 (length ms - k)%nat ltac:(lia)). rewrite take_rev, single_tokens_rev in H3. lia.
  - rewrite Nat.min_id. split_and!; [destruct (decide (CompactKeepLastN cfg = 0)%nat); lia|lia|rewrite length_drop; lia|done|]. intros k Hk [K1 _]. rewrite length_drop in K1. lia.
Qed.

(** ** The messages that segments cover *)

(** The ranges of messages of the segments of level one of a session, in the
    order in which they were stored. *)
Definition l1_ranges (db : SegmentDB) (sid : string) : list (Z * Z) :=
  (fun s => (Sg_SeqStart s, Sg_SeqEnd s)) <$> filter (fun s => Sg_Level s = 1 /\ Sg_SessionID s = sid) (DB_Segments db).

(** IDs as they are drawn: not empty and without spaces around them. *)
Definition proper_id (id : string) : Prop := Trimmed id /\ id <> "".

Definition drawn_ok (d : Drawn) : Prop :=
  proper_id (D_Episode d) /\ proper_id (D_Segment d) /\ forall i, proper_id (D_Rollups d i).

Lemma proper_nonblank id : proper_id id -> TrimSpace id <> "".
Proof. by intros [-> ?]. Qed.

Lemma normalize_shape seg fresh now n :
  normalizeSummarySegment seg fresh now = inr n ->
  Sg_Level n = (if decide (Sg_Level seg <= 0) then 1 else Sg_Level seg) /\ Sg_SessionID n = TrimSpace (Sg_SessionID seg)
  /\ Sg_SeqStart n = Sg_SeqStart seg /\ Sg_SeqEnd n = Sg_SeqEnd seg.
Proof. unfold normalizeSummarySegment. repeat case_decide; intros [= <-]; done. Qed.

Lemma l1_ranges_insert db seg fresh now db' sid :
  InsertSegment db seg fresh now = inr db' ->
  l1_ranges db' sid = l1_ranges db sid
    ++ (if decide ((if decide (Sg_Level seg <= 0) then 1 else Sg_Level seg) = 1 /\ TrimSpace (Sg_SessionID seg) = sid)
        then [(Sg_SeqStart seg, Sg_SeqEnd seg)] else []).
Proof.
  intros (n & f & Hn & _ & -> & _)%InsertSegment_shape. apply normalize_shape in Hn as (H1 & H2 & H3 & H4).
  unfold l1_ranges. cbn [DB_Segments]. rewrite filter_app, fmap_app, filter_cons, filter_nil, H1, H2. f_equal.
  destruct (decide (_ /\ _)); [|done]. cbn [fmap list_fmap]. by rewrite H3, H4.
Qed.

Lemma l1_ranges_parent db id parent db' sid :
  UpdateParentSegmentID db id parent = inr db' -> l1_ranges db' sid = l1_ranges db sid.
Proof.
  intros ->%UpdateParent_shape. unfold l1_ranges. cbn [DB_Segments].
  induction (DB_Segments db) as [|s l IH]; [done|]. rewrite fmap_cons, !filter_cons.
  destruct (decide (Sg_ID s = TrimSpace id)); cbn [set_parent Sg_Level Sg_SessionID];
    destruct (decide (_ /\ _)); rewrite ?fmap_cons, IH; done.
Qed.

Lemma adopt_loop_ranges db cs parent sid : l1_ranges (adopt_loop db cs parent).1 sid = l1_ranges db sid.
Proof.
  revert db. induction cs as [|c cs IH]; intros db; cbn [adopt_loop]; [done|]. case_decide; [apply IH|].
  destruct (UpdateParentSegmentID db (Sg_ID c) parent) eqn:Eu; [done|]. rewrite IH. by eapply l1_ranges_parent.
Qed.

Lemma rollup_level level source id now r : buildRollupSegment level source id now = Some r -> Sg_Level r = level.
Proof. unfold buildRollupSegment. destruct (sortSegmentsForRollup source); [done|]. by intros [= <-]. Qed.

(** Whatever happens while segments are rolled up, the invariant of the tables
    holds and the segments of level one cover what they covered. *)
Lemma l2_loop_ranges fuel db ep ids round now db' e :
  l2_loop fuel db ep ids round now = Some (db', e) -> db_ok db -> (forall i, ids i <> "") ->
  db_ok db' /\ forall sid, l1_ranges db' sid = l1_ranges db sid.
Proof.
  intros Hl Hok Hids. revert db round Hl Hok. induction fuel as [|fuel IH]; intros db round Hl Hok; [done|].
  cbn [l2_loop] in Hl. destruct (UnparentedL1Segments _ _ _) as [|cs]; [by simplify_eq|].
  case_decide; [by simplify_eq|]. destruct (buildRollupSegment _ _ _ _) as [r|] eqn:Er; [|by simplify_eq].
  destruct (InsertSegment db r (ids round) now) as [|db1] eqn:Ei; [by simplify_eq|].
  assert (db_ok db1) as Hok1 by (eapply InsertSegment_ok; [apply Hids|done..]).
  pose proof (adopt_loop_ok db1 (take l2RollupBatchSize cs) (Sg_ID r) Hok1) as Hok2.
  pose proof (adopt_loop_ranges db1 (take l2RollupBatchSize cs) (Sg_ID r)) as Hr2.
  assert (forall sid, l1_ranges db1 sid = l1_ranges db sid) as Hr1.
  { intros sid. rewrite (l1_ranges_insert _ _ _ _ _ sid Ei), (rollup_level _ _ _ _ _ Er). cbn.
    rewrite decide_False by naive_solver. apply app_nil_r. }
  destruct (adopt_loop db1 _ _) as [db2 [err|]]; cbn [fst] in *.
  - simplify_eq. split; [done|]. intros sid. by rewrite Hr2, Hr1.
  - destruct (IH db2 (S round) Hl Hok2) as [H1 H2]. split; [done|]. intros sid. by rewrite H2, Hr2, Hr1.
Qed.

Lemma MaybeGenerateL2_ranges fuel db ep ids now db' e :
  MaybeGenerateL2 fuel db ep ids now = Some (db', e) -> db_ok db -> (forall i, ids i <> "") ->
  db_ok db' /\ forall sid, l1_ranges db' sid = l1_ranges db sid.
Proof. unfold MaybeGenerateL2. case_decide; [by intros [= <- <-]|]. apply l2_loop_ranges. Qed.

(** Opening an episode does not touch the segments. *)
Lemma ensureActive_segments db sid fresh now db' ep :
  TrimSpace fresh <> "" -> db_ok db -> ensureActiveEpisode db sid fresh now = inr (db', ep) ->
  db_ok db' /\ DB_Segments db' = DB_Segments db /\ DB_Sessions db' = DB_Sessions db.
Proof.
  intros Hf Hok. unfold ensureActiveEpisode. destruct (ActiveEpisode db sid); [done|]. case_decide; [by intros [= <- <-]|].
  intros Hc. split; [by eapply CreateEpisode_ok|]. revert Hc. unfold CreateEpisode.
  repeat case_decide; try done; (destruct (existsb _ _); [done|]; by intros [= <- <-]).
Qed.

Lemma writeCompactSegment_ranges cfg db s older summary range d now db' r :
  writeCompactSegment cfg db s older summary range d now = (db', r) -> db_ok db -> drawn_ok d ->
  db_ok db' /\ (forall sid, sid <> TrimSpace (S_ID s) -> l1_ranges db' sid = l1_ranges db sid)
  /\ match r with
     | inr (Some _) => exists a b, range = Some (a, b)
         /\ l1_ranges db' (TrimSpace (S_ID s)) = l1_ranges db (TrimSpace (S_ID s)) ++ [(a, b)]
     | _ => l1_ranges db' (TrimSpace (S_ID s)) = l1_ranges db (TrimSpace (S_ID s))
     end.
Proof.
  intros Hw Hok (D1 & D2 & _). unfold writeCompactSegment in Hw. case_decide; [by simplify_eq|].
  destruct range as [[a b]|]; [|by simplify_eq].
  destruct (ensureActiveEpisode db (S_ID s) (D_Episode d) now) as [|[db1 ep]] eqn:Ee; [by simplify_eq|].
  apply ensureActive_segments in Ee as (Hok1 & Hs1 & _); [|by apply proper_nonblank|done].
  set (seg := match Embed cfg with Some _ => _ | None => _ end) in Hw.
  assert (Sg_Level seg = 1 /\ Sg_SessionID seg = S_ID s /\ Sg_SeqStart seg = a /\ Sg_SeqEnd seg = b) as (L1 & L2 & L3 & L4).
  { unfold seg. set (seg0 := buildCompactSegment _ _ _ _ _ _ _).
    assert (Sg_Level seg0 = 1 /\ Sg_SessionID seg0 = S_ID s /\ Sg_SeqStart seg0 = a /\ Sg_SeqEnd seg0 = b) as H0.
    { unfold seg0, buildCompactSegment. destruct (compactSegmentTimeRange older now).
      by destruct (extractSegmentSignals older) as [[? ?] ?]. }
    destruct (Embed cfg) as [f|]; [|exact H0]. destruct (f (Sg_SummaryText seg0)) as [[|v vs]|]; exact H0. }
  assert (forall sid, l1_ranges db1 sid = l1_ranges db sid) as Hr1 by (intros sid; unfold l1_ranges; by rewrite Hs1).
  destruct (InsertSegment db1 seg (D_Segment d) now) as [|db2] eqn:Ei; simplify_eq.
  - by split_and!.
  - pose proof (fun sid => l1_ranges_insert _ _ _ _ _ sid Ei) as Hi. rewrite L1, L2 in Hi. cbn in Hi.
    split; [exact (InsertSegment_ok _ _ _ _ _ (proj2 D2) Hok1 Ei)|]. split.
    + intros sid Hsid. rewrite Hi, decide_False by naive_solver. by rewrite app_nil_r, Hr1.
    + eexists _, _. split; [reflexivity|]. rewrite Hi, decide_True by done. by rewrite Hr1, L3, L4.
Qed.

Lemma compact_segment_ranges cfg db s older summary range d now db' e :
  compact_segment cfg db s older summary range d now = Some (db', e) -> db_ok db -> drawn_ok d ->
  db_ok db' /\ (forall sid, sid <> TrimSpace (S_ID s) -> l1_ranges db' sid = l1_ranges db sid)
  /\ (l1_ranges db' (TrimSpace (S_ID s)) = l1_ranges db (TrimSpace (S_ID s))
      \/ e = None /\ exists a b, range = Some (a, b)
         /\ l1_ranges db' (TrimSpace (S_ID s)) = l1_ranges db (TrimSpace (S_ID s)) ++ [(a, b)]).
Proof.
  intros Hc Hok Hd. unfold compact_segment in Hc. destruct (HasSegmentWriter cfg); [|simplify_eq; auto].
  destruct (writeCompactSegment cfg db s older summary range d now) as [db1 r] eqn:Ew.
  apply writeCompactSegment_ranges in Ew as (Hok1 & Ho1 & Hr1); [|done..].
  destruct r as [err|[ep|]]; simplify_eq; [by auto| |by auto].
  destruct Hr1 as (a & b & -> & Hr1). case_decide; [simplify_eq; eauto 10|].
  destruct (MaybeGenerateL2 _ db1 ep (D_Rollups d) now) as [[db2 e2]|] eqn:El; [|done]. simplify_eq.
  apply MaybeGenerateL2_ranges in El as [Hok2 Hr2]; [|done|intros i; apply Hd].
  split; [done|]. split; [intros sid Hsid; by rewrite Hr2, Ho1|]. right. split; [done|]. exists a, b. by rewrite Hr2.
Qed.

(** *** The identifiers of the segments stay proper *)

Lemma insert_trimmed db seg fresh now db' :
  Sg_ID seg = "" \/ Trimmed (Sg_ID seg) -> Trimmed fresh -> ids_trimmed db -> InsertSegment db seg fresh now = inr db' -> ids_trimmed db'.
Proof.
  intros Hs Hf Hdb (n & f & Hn & _ & -> & _)%InsertSegment_shape. unfold ids_trimmed. cbn [DB_Segments]. apply Forall_app. split; [done|].
  constructor; [|constructor]. revert Hn. unfold normalizeSummarySegment. repeat case_decide; intros [= <-]; cbn; naive_solver.
Qed.

Lemma adopt_trimmed db cs parent : ids_trimmed db -> ids_trimmed (adopt_loop db cs parent).1.
Proof.
  revert db. induction cs as [|c cs IH]; intros db Hdb; cbn [adopt_loop]; [done|]. case_decide; [by apply IH|].
  destruct (UpdateParentSegmentID db (Sg_ID c) parent) eqn:Eu; [done|]. apply IH. apply UpdateParent_shape in Eu as ->.
  unfold ids_trimmed. cbn [DB_Segments]. apply Forall_fmap. eapply Forall_impl; [exact Hdb|]. intros x Hx. unfold compose. by case_decide.
Qed.

Lemma l2_loop_trimmed fuel db ep ids round now db' e :
  l2_loop fuel db ep ids round now = Some (db', e) -> ids_trimmed db -> (forall i, proper_id (ids i)) -> ids_trimmed db'.
Proof.
  intros Hl Hdb Hids. revert db round Hl Hdb. induction fuel as [|fuel IH]; intros db round Hl Hdb; [done|].
  cbn [l2_loop] in Hl. destruct (UnparentedL1Segments _ _ _) as [|cs]; [by simplify_eq|].
  case_decide; [by simplify_eq|]. destruct (buildRollupSegment _ _ _ _) as [r|] eqn:Er; [|by simplify_eq].
  assert (Sg_ID r = ids round) as Hid
    by (revert Er; unfold buildRollupSegment; destruct (sortSegmentsForRollup _); [done|]; by intros [= <-]).
  destruct (InsertSegment db r (ids round) now) as [|db1] eqn:Ei; [by simplify_eq|].
  eapply insert_trimmed in Ei; [|right; rewrite Hid; apply Hids|apply Hids|done].
  apply (adopt_trimmed _ (take l2RollupBatchSize cs) (Sg_ID r)) in Ei.
  destruct (adopt_loop db1 _ _) as [db2 [err|]]; cbn [fst] in Ei; [by simplify_eq|]. by eapply IH.
Qed.

(** The steps on the segments return and keep the identifiers proper. *)
Lemma compact_segment_returns cfg db s older summary range d now :
  db_ok db -> ids_trimmed db -> drawn_ok d ->
  exists db' e, compact_segment cfg db s older summary range d now = Some (db', e) /\ ids_trimmed db'.
Proof.
  intros Hok Htr Hd. unfold compact_segment. destruct (HasSegmentWriter cfg); [|by eexists _, _].
  destruct (writeCompactSegment cfg db s older summary range d now) as [db1 r] eqn:Ew.
  assert (ids_trimmed db1) as Htr1.
  { revert Ew. unfold writeCompactSegment. case_decide; [by intros [= <- <-]|]. destruct range as [[a b]|]; [|by intros [= <- <-]].
    destruct (ensureActiveEpisode db (S_ID s) (D_Episode d) now) as [|[db0 ep]] eqn:Ee; [by intros [= <- <-]|].
    apply ensureActive_segments in Ee as (_ & Hs1 & _); [|apply proper_nonblank, Hd|done].
    set (seg := match Embed cfg with Some _ => _ | None => _ end).
    assert (Sg_ID seg = "") as Hid.
    { unfold seg. set (seg0 := buildCompactSegment _ _ _ _ _ _ _).
      assert (Sg_ID seg0 = "") as H0
        by (unfold seg0, buildCompactSegment; destruct (compactSegmentTimeRange older now); by destruct (extractSegmentSignals older) as [[? ?] ?]).
      destruct (Embed cfg) as [f|]; [|exact H0]. destruct (f (Sg_SummaryText seg0)) as [[|v vs]|]; exact H0. }
    assert (ids_trimmed db0) as Htr0 by (unfold ids_trimmed; by rewrite Hs1).
    destruct (InsertSegment db0 seg (D_Segment d) now) as [|db2] eqn:Ei; intros [= <- <-]; [done|].
    refine (insert_trimmed db0 seg (D_Segment d) now db2 _ _ Htr0 Ei); [by left|apply Hd]. }
  apply writeCompactSegment_ranges in Ew as (Hok1 & _ & _); [|done..].
  destruct r as [err|[ep|]]; [by eexists _, _| |by eexists _, _]. case_decide as Hep; [by eexists _, _|].
  assert (is_Some (MaybeGenerateL2 (S (length (DB_Segments db1))) db1 ep (D_Rollups d) now)) as [[db2 e] Hl].
  { unfold MaybeGenerateL2. rewrite decide_False by done.
    apply l2_loop_returns; [done|done|intros i; apply Hd|apply Trimmed_TrimSpace|done|].
    unfold free. pose proof (length_filter (unparented (TrimSpace ep)) (DB_Segments db1)).
    pose proof (Nat.Div0.div_le_upper_bound (length (filter (unparented (TrimSpace ep)) (DB_Segments db1))) l2RollupBatchSize
      (length (DB_Segments db1))). unfold l2RollupBatchSize in *. lia. }
  rewrite Hl. exists db2, None. split; [done|]. revert Hl. unfold MaybeGenerateL2. rewrite decide_False by done.
  intros Hl. eapply l2_loop_trimmed; [exact Hl|done|apply Hd].
Qed.

(** ** Compaction *)

(** A session whose loaded messages start with those that have a number, in
    order and after the watermark. *)
Record aligned (s : Session) : Prop := {
  al_sorted : StronglySorted Z.lt (S_LoadedMessageSeqs s);
  al_above : Forall (fun q => S_ExecutionWatermark s < q) (S_LoadedMessageSeqs s);
  al_length : (length (S_LoadedMessageSeqs s) <= length (S_Messages s))%nat;
  al_watermark : 0 <= S_ExecutionWatermark s
}.

(** Segments that follow each other without overlap, up to the watermark. *)
Definition tiles (watermark : Z) (ranges : list (Z * Z)) : Prop :=
  StronglySorted (fun a b => a.2 < b.1) ranges /\ Forall (fun r => r.1 <= r.2 <= watermark) ranges.

(** The hook before compaction leaves the tables of segments alone, as
    [MemoryFlushHook] does. *)
Definition flush_only (cfg : CompactConfig) : Prop :=
  match PreCompactHook cfg with
  | Some hook => forall st older s, St_Segments (hook st older s).1 = St_Segments st
  | None => True
  end.

Lemma MemoryFlushHook_segments now st older s : St_Segments (MemoryFlushHook now st older s).1 = St_Segments st.
Proof. unfold MemoryFlushHook. destruct older; [done|]. by destruct (flush_loop _ _ _ _). Qed.

(** What a compaction that returns has done to the session and the segments. *)
Inductive compact_outcome (cfg : CompactConfig) (st : Stores) (s : Session) (reason : string) (d : Drawn) (now : Time) :
    Stores -> Session -> option CompactError -> Prop :=
  | outcome_none : (length (S_Messages s) <= CompactKeepLastN cfg)%nat \/ compact_cut cfg (S_Messages s) = 0%nat ->
      compact_outcome cfg st s reason d now st s None
  | outcome_state st' e : St_Segments st' = St_Segments st ->
      compact_outcome cfg st s reason d now st' s (Some (ErrCompactState e))
  | outcome_rest st' db' e s' err (cut := compact_cut cfg (S_Messages s))
      (persisted := Nat.min cut (length (S_LoadedMessageSeqs s))) :
      (CompactKeepLastN cfg < length (S_Messages s))%nat -> (0 < cut)%nat ->
      compact_segment cfg (St_Segments st) s (take cut (S_Messages s)) (compact_summary cfg (take cut (S_Messages s)))
        (compactedDiscardedRange (S_LoadedMessageSeqs s) cut persisted) d now = Some (db', e) ->
      St_Segments st' = db' ->
      (match e with
       | Some e => s' = s /\ err = Some (ErrCompactSegment e)
       | None =>
         let next := set_summary (mergeCompactSummaries (S_Summary s) (compact_summary cfg (take cut (S_Messages s))) reason
                       (CompactSummaryChars cfg)) now (nextSession s cut persisted) in
         match PostCompactHook cfg with
         | None => s' = next /\ err = None
         | Some hook => exists event, CE_Session event = next
             /\ match hook event with None => s' = s /\ err = Some ErrPostCompactHook | Some s1 => s' = s1 /\ err = None end
         end
       end) ->
      compact_outcome cfg st s reason d now st' s' err.

Lemma Compact_outcome cfg st s reason d now st' s' err :
  flush_only cfg -> Compact cfg st s reason d now = Some (st', s', err) -> compact_outcome cfg st s reason d now st' s' err.
Proof.
  intros Hh. unfold Compact. destruct (decide (_ <= _)%nat) as [Hle|Hgt]; [intros [= <- <- <-]; apply outcome_none; auto|].
  destruct (decide (_ = 0)%nat) as [H0|H0]; [intros [= <- <- <-]; apply outcome_none; auto|].
  set (cut := compact_cut cfg (S_Messages s)) in *. set (older := take cut (S_Messages s)).
  set (persisted := Nat.min cut (length (S_LoadedMessageSeqs s))).
  destruct (match PreCompactHook cfg with Some hook => _ | None => _ end) as [st1 flushed] eqn:Eh.
  assert (St_Segments st1 = St_Segments st) as Hs1.
  { revert Eh. unfold flush_only in Hh. destruct (PreCompactHook cfg) as [hook|]; [|by intros [= <- <-]].
    specialize (Hh st older s). by destruct (hook st older s); intros [= <- <-]. }
  destruct (if HasStateWriter cfg then _ else _) as [e|states]; [intros [= <- <- <-]; by apply outcome_state|].
  destruct (if HasMemoryWriter cfg then _ else _) as [mem synced]. rewrite Hs1.
  destruct (compact_segment _ _ _ _ _ _ _ _) as [[db' [e|]]|] eqn:Ec; [| |done].
  - intros [= <- <- <-]. eapply outcome_rest; [lia|lia|exact Ec|done|done].
  - destruct (PostCompactHook cfg) as [hook|] eqn:Ep.
    + destruct (hook _) as [s1|] eqn:Eq; intros [= <- <- <-];
        (eapply outcome_rest; [lia|lia|exact Ec|done|]; cbv zeta; rewrite Ep;
         match type of Eq with hook ?ev = _ => exists ev end; split; [reflexivity|]; by rewrite Eq).
    + intros [= <- <- <-]. eapply outcome_rest; [lia|lia|exact Ec|done|]. cbv zeta. by rewrite Ep.
Qed.

(** compaction keeps the most recent messages as they are: what is left is
    at least the configured number of messages and of tokens, and no smaller
    rest would be; the session is not touched when there is nothing to discard
    or when a step fails. *)
Theorem compaction_keeps_recent cfg st s reason d now st' s' err :
  (forall m, 0 <= EstimateMessages [m]) -> flush_only cfg -> PostCompactHook cfg = None ->
  Compact cfg st s reason d now = Some (st', s', err) ->
  s' = s \/ err = None /\ exists cut, (0 < cut <= length (S_Messages s))%nat
    /\ S_Messages s' = drop cut (S_Messages s) /\ S_ID s' = S_ID s /\ enough cfg (S_Messages s) (S_Messages s')
    /\ forall k, (cut < k <= length (S_Messages s))%nat -> ~ enough cfg (S_Messages s) (drop k (S_Messages s)).
Proof.
  intros Hpos Hh Hp Hc. apply Compact_outcome in Hc; [|done].
  destruct Hc as [|? ? Hs|st' db' e s' err cut persisted Hlen Hcut Hseg Hst Hres]; [by left|by left|].
  destruct e as [e|]; [by left; destruct Hres|]. rewrite Hp in Hres. destruct Hres as [-> ->]. right. split; [done|].
  destruct (compact_cut_spec cfg (S_Messages s) Hpos Hlen) as (_ & H1 & H2 & H3). fold cut in H1, H2, H3.
  assert (forall w, S_Messages (set_summary w now (nextSession s cut persisted)) = drop cut (S_Messages s)
                    /\ S_ID (set_summary w now (nextSession s cut persisted)) = S_ID s) as Hn
    by (intros w; unfold nextSession; by case_decide).
  destruct (Hn (mergeCompactSummaries (S_Summary s) (compact_summary cfg (take cut (S_Messages s))) reason (CompactSummaryChars cfg)))
    as [Hn1 Hn2]. exists cut. rewrite Hn1, Hn2. split_and!; [lia|lia|done..].
Qed.

(** *** The watermark and the tiles *)

Lemma StronglySorted_snoc {A} (R : A -> A -> Prop) l x :
  StronglySorted R l -> Forall (fun y => R y x) l -> StronglySorted R (l ++ [x]).
Proof.
  induction 1 as [|y l Hl IH Hy]; cbn; intros Hx; [by repeat constructor|]. apply Forall_cons in Hx as [Hyx Hx].
  constructor; [by apply IH|]. apply Forall_app. split; [done|by constructor].
Qed.

Lemma sorted_drop (l : list Z) n : StronglySorted Z.lt l -> StronglySorted Z.lt (drop n l).
Proof.
  intros Hs. revert n. induction Hs as [|x l Hl IH Hx]; intros n; [rewrite drop_nil; constructor|].
  destruct n; [by constructor|apply IH].
Qed.

(** What becomes of the numbers of the messages. *)
Lemma nextSession_aligned s cut (persisted := Nat.min cut (length (S_LoadedMessageSeqs s))) w now :
  aligned s -> (cut <= length (S_Messages s))%nat ->
  let s' := set_summary w now (nextSession s cut persisted) in
  aligned s' /\ S_ExecutionWatermark s <= S_ExecutionWatermark s' /\ S_ID s' = S_ID s
  /\ (forall a b, compactedDiscardedRange (S_LoadedMessageSeqs s) cut persisted = Some (a, b) ->
        S_ExecutionWatermark s < a <= b /\ S_ExecutionWatermark s' = b /\ S_LoadedMessageSeqs s !! 0%nat = Some a).
Proof.
  intros [A1 A2 A3 A4] Hcut s'. rewrite Forall_forall in A2.
  assert (forall i q, S_LoadedMessageSeqs s !! i = Some q -> S_ExecutionWatermark s < q) as Habove
    by (intros i q Hq; apply A2; by eapply list_elem_of_lookup_2).
  unfold s', nextSession. destruct (decide (0 < persisted)%nat) as [Hp|Hp].
  - destruct (lookup_lt_is_Some_2 (S_LoadedMessageSeqs s) (persisted - 1)) as [b Hb]; [lia|].
    rewrite Hb. cbn [set_summary S_ExecutionWatermark S_LoadedMessageSeqs S_ID default from_option id].
    pose proof (Habove _ _ Hb) as Hbw. split_and!; [constructor; cbn| |done|].
    + by apply sorted_drop.
    + apply Forall_forall. intros q [i Hq]%list_elem_of_lookup. rewrite lookup_drop in Hq.
      eapply (StronglySorted_lookup Z.lt _ _ _ _ _ A1); [|exact Hb|exact Hq]. lia.
    + rewrite !length_drop. lia.
    + lia.
    + lia.
    + intros a b'. unfold compactedDiscardedRange. case_decide; [done|]. rewrite Hb.
      destruct (S_LoadedMessageSeqs s !! 0%nat) as [a'|] eqn:Ha; [|done]. intros [= <- <-].
      split_and!; [by apply (Habove 0%nat)| |done|done].
      destruct (decide (persisted - 1 = 0)%nat) as [E0|E0]; [rewrite E0, Ha in Hb; simplify_eq; lia|].
      assert (a' < b); [|lia]. eapply (StronglySorted_lookup Z.lt _ _ _ _ _ A1); [|exact Ha|exact Hb]. lia.
  - cbn [set_summary S_ExecutionWatermark S_LoadedMessageSeqs S_ID]. split_and!; [constructor; cbn|lia|done|].
    + done.
    + by apply Forall_forall.
    + rewrite length_drop. lia.
    + done.
    + intros a b. unfold compactedDiscardedRange. case_decide; [done|lia].
Qed.

Lemma tiles_mono w w' rs : tiles w rs -> w <= w' -> tiles w' rs.
Proof. intros [H1 H2] Hw. split; [done|]. eapply Forall_impl; [exact H2|]. cbn. lia. Qed.

Lemma tiles_snoc w rs a b : tiles w rs -> w < a <= b -> tiles b (rs ++ [(a, b)]).
Proof.
  intros [H1 H2] Hab. split.
  - apply StronglySorted_snoc; [done|]. eapply Forall_impl; [exact H2|]. cbn. lia.
  - apply Forall_app. split; [eapply Forall_impl; [exact H2|]; cbn; lia|]. constructor; [cbn; lia|constructor].
Qed.

(** The numbers of the messages of a session. *)
Definition numbering (s : Session) : string * list Z * Z * nat :=
  (S_ID s, S_LoadedMessageSeqs s, S_ExecutionWatermark s, length (S_Messages s)).

(** The hook after compaction, when it succeeds, leaves them alone. *)
Definition renumbers_nothing (cfg : CompactConfig) : Prop :=
  forall hook ev s1, PostCompactHook cfg = Some hook -> hook ev = Some s1 -> numbering s1 = numbering (CE_Session ev).

Lemma aligned_numbering s1 s2 : numbering s1 = numbering s2 -> aligned s2 -> aligned s1.
Proof. intros [= _ E2 E3 E4] [A1 A2 A3 A4]. constructor; rewrite ?E2, ?E3, ?E4; done. Qed.

(** Compaction returns. *)
Lemma Compact_returns cfg st s reason d now :
  db_ok (St_Segments st) -> ids_trimmed (St_Segments st) -> drawn_ok d -> flush_only cfg ->
  exists st' s' err, Compact cfg st s reason d now = Some (st', s', err) /\ ids_trimmed (St_Segments st').
Proof.
  intros Hok Htr Hd Hh. unfold Compact. case_decide; [by eexists _, _, _|]. case_decide; [by eexists _, _, _|]. cbv zeta.
  destruct (match PreCompactHook cfg with Some hook => _ | None => _ end) as [st1 flushed] eqn:Eh.
  assert (St_Segments st1 = St_Segments st) as Hs1.
  { revert Eh. unfold flush_only in Hh. destruct (PreCompactHook cfg) as [hook|]; [|by intros [= <- <-]].
    specialize (Hh st (take (compact_cut cfg (S_Messages s)) (S_Messages s)) s). by destruct (hook st _ s); intros [= <- <-]. }
  destruct (if HasStateWriter cfg then _ else _) as [e|states]; [eexists _, _, _; by rewrite Hs1|].
  destruct (if HasMemoryWriter cfg then _ else _) as [mem synced]. rewrite Hs1.
  set (older := take _ _). set (range := compactedDiscardedRange _ _ _).
  destruct (compact_segment_returns cfg (St_Segments st) s older (compact_summary cfg older) range d now)
    as (db' & [e|] & -> & Htr'); [done..|by eexists _, _, _|].
  destruct (PostCompactHook cfg) as [hook|]; [destruct (hook _)|]; by eexists _, _, _.
Qed.

(** C15: the segments of level one of a session cover ranges of messages that
    follow each other without overlap, all up to the watermark of the session,
    and the numbers of the loaded messages stay in order above the watermark.
    Every compaction returns and preserves this, whether it succeeds or fails,
    unless it fails in the hook after compaction: then the tables and the numbers
    stay well-formed, but the stored segment lies above the watermark
    ([failed_hook_duplicates_segment]).  The segments of other sessions are not
    touched.  The hook before compaction writes no segments, as [MemoryFlushHook],
    and the hook after it does not renumber the messages. *)
Theorem compaction_tiles cfg st s reason d now :
  db_ok (St_Segments st) -> ids_trimmed (St_Segments st) -> drawn_ok d -> flush_only cfg -> renumbers_nothing cfg -> aligned s ->
  tiles (S_ExecutionWatermark s) (l1_ranges (St_Segments st) (TrimSpace (S_ID s))) ->
  exists st' s' err, Compact cfg st s reason d now = Some (st', s', err)
  /\ db_ok (St_Segments st') /\ ids_trimmed (St_Segments st') /\ aligned s' /\ S_ID s' = S_ID s
  /\ S_ExecutionWatermark s <= S_ExecutionWatermark s'
  /\ (err <> Some ErrPostCompactHook ->
       tiles (S_ExecutionWatermark s') (l1_ranges (St_Segments st') (TrimSpace (S_ID s'))))
  /\ forall sid, sid <> TrimSpace (S_ID s) -> l1_ranges (St_Segments st') sid = l1_ranges (St_Segments st) sid.
Proof.
  intros Hok Htr Hd Hh Hp Hal Ht.
  destruct (Compact_returns cfg st s reason d now Hok Htr Hd Hh) as (st' & s' & err & Hc & Htr'). exists st', s', err. split; [done|].
  apply Compact_outcome in Hc; [|done].
  destruct Hc as [|st' ? Hs|st' db' e s' err cut persisted Hlen Hcut Hseg Hst Hres]; [by split_and!|by rewrite Hs|].
  apply compact_segment_ranges in Hseg as (Hok' & Hother & Hr); [|done..]. subst db'.
  destruct e as [e|].
  { destruct Hres as [-> ->]. destruct Hr as [Hr|[? _]]; [|done]. rewrite Hr. by split_and!. }
  destruct (nextSession_aligned s cut (mergeCompactSummaries (S_Summary s) (compact_summary cfg (take cut (S_Messages s))) reason
    (CompactSummaryChars cfg)) now Hal) as (N1 & N2 & N3 & N4); [unfold cut, compact_cut; lia|]. fold persisted in N1, N2, N3, N4.
  cbv zeta in Hres. set (next := set_summary _ _ _) in *.
  assert (numbering s' = numbering next /\ err = None \/ s' = s /\ err = Some ErrPostCompactHook) as [[Hn ->]|[-> ->]].
  { destruct (PostCompactHook cfg) as [hook|] eqn:Ep; [|left; by destruct Hres as [-> ->]].
    destruct Hres as (ev & Hev & Hres). destruct (hook ev) as [s1|] eqn:Eq; destruct Hres as [-> ->]; [left|by right].
    split; [|done]. rewrite (Hp hook ev s1 Ep Eq). by rewrite Hev. }
  - assert (S_ID s' = S_ID next) as E1 by exact (f_equal (fun x => x.1.1.1) Hn).
    assert (S_ExecutionWatermark s' = S_ExecutionWatermark next) as E3 by exact (f_equal (fun x => x.1.2) Hn).
    rewrite E1, E3. split_and!; [done|done|by eapply aligned_numbering|done|done| |done].
    intros _. rewrite N3. destruct Hr as [->|[_ (a & b & Hrange & ->)]]; [by eapply tiles_mono|].
    destruct (N4 a b Hrange) as (Ha & -> & _). by eapply tiles_snoc.
  - by split_and!.
Qed.

(** *** A compaction that has to succeed *)

(** IDs that are new to the tables. *)
Record drawn_fresh (db : SegmentDB) (d : Drawn) : Prop := {
  df_episode : Trimmed (D_Episode d) /\ D_Episode d <> "" /\ D_Episode d ∉ Ep_ID <$> DB_Episodes db;
  df_segment : unused db (D_Segment d);
  df_rollups : ids_unused db (D_Rollups d) 0;
  df_apart i : D_Rollups d i <> D_Segment d
}.

Lemma drawn_fresh_ok db d : drawn_fresh db d -> drawn_ok d.
Proof.
  intros [(H1 & H2 & _) (H3 & H4 & _) [_ H5] _]. split_and!; [by split..|].
  intros i. by destruct (H5 i ltac:(lia)) as (H6 & H7 & _).
Qed.

Lemma ensure_ok db sid fresh now :
  db_ok db -> Forall (fun e => Trimmed (Ep_ID e)) (DB_Episodes db) ->
  TrimSpace sid <> "" -> TrimSpace sid ∈ DB_Sessions db -> Trimmed fresh -> fresh <> "" -> fresh ∉ Ep_ID <$> DB_Episodes db ->
  exists db' e, ensureActiveEpisode db sid fresh now = inr (db', Ep_ID e) /\ e ∈ DB_Episodes db'
    /\ Ep_SessionID e = TrimSpace sid /\ Trimmed (Ep_ID e) /\ Ep_ID e <> "".
Proof.
  intros Hok Ht Hne Hin Hf Hf0 Hfresh. unfold ensureActiveEpisode, ActiveEpisode. rewrite decide_False by done.
  pose proof (active_elem db (TrimSpace sid)) as Hact.
  destruct (active_episodes db (TrimSpace sid)) as [|a rest] eqn:Ea.
  - rewrite decide_False by (by intros H).
    destruct (create_ok db sid "default" fresh now) as (db' & e & H1 & _ & H3 & H4 & H5 & _);
      [done..| |by rewrite Hf|].
    { intros e He E1 E2. assert (e ∈ @nil Episode) as H; [by apply Hact|by apply elem_of_nil in H]. }
    exists db', e. rewrite H5. split_and!; [done| | |done|done].
    + rewrite H3. apply elem_of_app. right. by left.
    + assert (e ∈ active_episodes db' (TrimSpace sid)) as [[? _] _]%active_elem by (rewrite H4; by left). done.
  - destruct (Hact a) as [[[Ha1 Ha2] Ha3] _]; [by left|]. rewrite Forall_forall in Ht. pose proof (Ht a Ha3) as Hta.
    pose proof (db_episodes _ Hok) as Heps. rewrite Forall_forall in Heps. pose proof (ep_id _ _ (Heps a Ha3)) as Hna.
    rewrite decide_True by done. exists db, a. split_and!; [done..|]. intros E0. by rewrite E0 in Hna.
Qed.

Lemma insert_new db seg fresh now e :
  e ∈ DB_Episodes db -> Ep_SessionID e = TrimSpace (Sg_SessionID seg) -> Ep_ID e = TrimSpace (Sg_EpisodeID seg) ->
  TrimSpace (Sg_SessionID seg) <> "" -> TrimSpace (Sg_EpisodeID seg) <> "" -> TrimSpace (Sg_SummaryText seg) <> "" ->
  0 < Sg_SeqStart seg <= Sg_SeqEnd seg -> Sg_ID seg = "" -> fresh ∉ Sg_ID <$> DB_Segments db ->
  exists db' n, InsertSegment db seg fresh now = inr db' /\ DB_Segments db' = DB_Segments db ++ [n]
    /\ Sg_ID n = fresh /\ Sg_ParentSegmentID n = TrimSpace (Sg_ParentSegmentID seg).
Proof.
  intros He E1 E2 H1 H2 H3 H4 H5 H6. unfold InsertSegment, normalizeSummarySegment.
  destruct (decide (TrimSpace (Sg_SessionID seg) = "")); [done|]. destruct (decide (TrimSpace (Sg_EpisodeID seg) = "")); [done|].
  destruct (decide (Sg_SeqStart seg <= 0)); [lia|]. destruct (decide (Sg_SeqEnd seg < Sg_SeqStart seg)); [lia|].
  destruct (decide (TrimSpace (Sg_SummaryText seg) = "")); [done|]. rewrite (decide_True _ _ (P := Sg_ID seg = "")) by done.
  cbn [Sg_ID Sg_EpisodeID Sg_SessionID Sg_Level].
  assert (existsb (fun x => bool_decide (Ep_ID x = TrimSpace (Sg_EpisodeID seg) /\ Ep_SessionID x = TrimSpace (Sg_SessionID seg)))
            (DB_Episodes db) = true) as ->.
  { apply existsb_exists. exists e. split; [by apply list_elem_of_In|]. by apply bool_decide_eq_true. }
  rewrite (proj2 (existsb_key_false _ _ _) H6). eexists _, _. split_and!; [reflexivity|reflexivity|done|done].
Qed.

Lemma state_write_ok cfg sessions tbl sid older now :
  TrimSpace sid <> "" -> TrimSpace sid ∈ sessions -> now <> zeroTime ->
  exists tbl', (if HasStateWriter cfg then writeCompactState sessions tbl sid older now else inr tbl) = inr tbl'.
Proof.
  intros H1 H2 H3. destruct (HasStateWriter cfg); [|eauto]. unfold writeCompactState, UpsertState. rewrite decide_False by done.
  pose proof (compaction_entries_valid older now H3) as Hv. destruct (buildCompactStateEntries older now) as [|x es]; [eauto|].
  rewrite decide_False, decide_True by done. eexists. by eapply upsert_loop_valid.
Qed.

(** The steps on the segments all succeed. *)
Lemma compact_segment_ok cfg db s older summary a b d now :
  db_ok db -> ids_trimmed db -> Forall (fun e => Trimmed (Ep_ID e)) (DB_Episodes db) ->
  TrimSpace (S_ID s) <> "" -> TrimSpace (S_ID s) ∈ DB_Sessions db -> drawn_fresh db d ->
  HasSegmentWriter cfg = true -> older <> [] -> TrimSpace summary <> "" -> 0 < a <= b ->
  exists db', compact_segment cfg db s older summary (Some (a, b)) d now = Some (db', None)
    /\ l1_ranges db' (TrimSpace (S_ID s)) = l1_ranges db (TrimSpace (S_ID s)) ++ [(a, b)].
Proof.
  intros Hok Htr Hep Hne Hin Hd Hw Hold Hsum Hab. pose proof (drawn_fresh_ok db d Hd) as (D1 & D2 & D3).
  destruct Hd as [(F1 & F2 & F3) (G1 & G2 & G3 & G4) Hru Hapart].
  destruct (ensure_ok db (S_ID s) (D_Episode d) now) as (db1 & e & He & Hin1 & Es & Et & En); [done..|].
  pose proof (ensureActive_segments _ _ _ _ _ _ (proper_nonblank _ D1) Hok He) as (Hok1 & Hs1 & _).
  destruct (writeCompactSegment cfg db s older summary (Some (a, b)) d now) as [db2 r] eqn:Ew.
  pose proof (writeCompactSegment_ranges _ _ _ _ _ _ _ _ _ _ Ew Hok (conj D1 (conj D2 D3))) as (Hok2 & _ & Hr2).
  assert (exists n, r = inr (Some (Ep_ID e)) /\ DB_Segments db2 = DB_Segments db ++ [n] /\ Sg_ID n = D_Segment d
          /\ Sg_ParentSegmentID n = "") as (n & -> & Hs2 & Hn & Hnp).
  { revert Ew. unfold writeCompactSegment. rewrite decide_False by naive_solver. rewrite He.
    set (seg := match Embed cfg with Some _ => _ | None => _ end).
    assert (Sg_SessionID seg = S_ID s /\ Sg_EpisodeID seg = Ep_ID e /\ Sg_SummaryText seg = TrimSpace summary
            /\ Sg_SeqStart seg = a /\ Sg_SeqEnd seg = b /\ Sg_ID seg = "" /\ Sg_ParentSegmentID seg = "")
      as (K1 & K2 & K3 & K4 & K5 & K6 & K7).
    { unfold seg. set (seg0 := buildCompactSegment _ _ _ _ _ _ _).
      assert (Sg_SessionID seg0 = S_ID s /\ Sg_EpisodeID seg0 = Ep_ID e /\ Sg_SummaryText seg0 = TrimSpace summary
              /\ Sg_SeqStart seg0 = a /\ Sg_SeqEnd seg0 = b /\ Sg_ID seg0 = "" /\ Sg_ParentSegmentID seg0 = "") as H0.
      { unfold seg0, buildCompactSegment. destruct (compactSegmentTimeRange older now).
        by destruct (extractSegmentSignals older) as [[? ?] ?]. }
      destruct (Embed cfg) as [f|]; [|exact H0]. destruct (f (Sg_SummaryText seg0)) as [[|v vs]|]; exact H0. }
    destruct (insert_new db1 seg (D_Segment d) now e) as (db3 & n & -> & Hs3 & Hn & Hnp);
      rewrite ?K1, ?K2, ?K3, ?K4, ?K5, ?K6, ?TrimSpace_idem, ?Hs1; [done|done|by rewrite Et|done|by rewrite Et|done|lia|done|done|].
    intros [= <- <-]. exists n. rewrite Hs3, Hs1, Hnp, K7. done. }
  destruct Hr2 as (a' & b' & [= <- <-] & Hr2).
  unfold compact_segment. rewrite Hw, Ew, decide_False by (by rewrite Et).
  unfold MaybeGenerateL2. rewrite Et, decide_False by done.
  destruct (l2_loop_spec (S (length (DB_Segments db2))) (Ep_ID e) db2 (D_Rollups d) 0 now) as (db' & Hl & [Hok' _ _] & _);
    [done| | |done|done| |].
  - unfold ids_trimmed. rewrite Hs2. apply Forall_app. split; [done|]. constructor; [by rewrite Hn|constructor].
  - destruct Hru as [Hinj Hu]. split; [done|]. intros i Hi. destruct (Hu i Hi) as (U1 & U2 & U3 & U4).
    unfold unused. rewrite Hs2, !fmap_app. cbn [fmap list_fmap]. rewrite Hn, Hnp. split_and!; [done..| |].
    + intros [H|H%list_elem_of_singleton]%elem_of_app; [done|]. by apply (Hapart i).
    + intros [H|H%list_elem_of_singleton]%elem_of_app; done.
  - unfold free. pose proof (length_filter (unparented (Ep_ID e)) (DB_Segments db2)).
    pose proof (Nat.Div0.div_le_upper_bound (length (filter (unparented (Ep_ID e)) (DB_Segments db2))) l2RollupBatchSize
      (length (DB_Segments db2))). unfold l2RollupBatchSize in *. lia.
  - rewrite Hl. exists db'. split; [done|].
    destruct (l2_loop_ranges _ _ _ _ _ _ _ _ Hl Hok2) as [_ ->]; [|done]. intros i. apply D3.
Qed.

(** a compaction whose discarded messages all have a number stores a segment
    that covers exactly those messages, advances the watermark to the last of
    them and returns without an error, as long as the session is known, the
    summary is not blank and the identifiers it draws are new. *)
Theorem compaction_stores_segment cfg st s reason d now :
  let db := St_Segments st in
  let cut := compact_cut cfg (S_Messages s) in
  db_ok db -> ids_trimmed db -> Forall (fun e => Trimmed (Ep_ID e)) (DB_Episodes db) -> drawn_fresh db d ->
  TrimSpace (S_ID s) <> "" -> TrimSpace (S_ID s) ∈ DB_Sessions db -> aligned s -> now <> zeroTime ->
  flush_only cfg -> PostCompactHook cfg = None -> HasSegmentWriter cfg = true ->
  (CompactKeepLastN cfg < length (S_Messages s))%nat -> (0 < cut <= length (S_LoadedMessageSeqs s))%nat ->
  TrimSpace (compact_summary cfg (take cut (S_Messages s))) <> "" ->
  exists st' s' a b, Compact cfg st s reason d now = Some (st', s', None)
    /\ S_LoadedMessageSeqs s !! 0%nat = Some a /\ S_LoadedMessageSeqs s !! (cut - 1)%nat = Some b
    /\ l1_ranges (St_Segments st') (TrimSpace (S_ID s)) = l1_ranges db (TrimSpace (S_ID s)) ++ [(a, b)]
    /\ S_ExecutionWatermark s' = b /\ S_Messages s' = drop cut (S_Messages s).
Proof.
  intros db cut Hok Htr Hep Hd Hne Hin Hal Hnow Hh Hp Hw Hlen Hcut Hsum.
  set (persisted := Nat.min cut (length (S_LoadedMessageSeqs s))). assert (persisted = cut) as Ep by lia.
  destruct (lookup_lt_is_Some_2 (S_LoadedMessageSeqs s) 0) as [a Ha]; [lia|].
  destruct (lookup_lt_is_Some_2 (S_LoadedMessageSeqs s) (cut - 1)) as [b Hb]; [lia|].
  assert (compactedDiscardedRange (S_LoadedMessageSeqs s) cut persisted = Some (a, b)) as Hrange
    by (unfold compactedDiscardedRange; rewrite Ep, decide_False by lia; by rewrite Ha, Hb).
  set (older := take cut (S_Messages s)) in *. set (sum := compact_summary cfg older) in *.
  destruct (nextSession_aligned s cut (mergeCompactSummaries (S_Summary s) sum reason (CompactSummaryChars cfg)) now Hal)
    as (_ & _ & _ & N4); [pose proof (al_length _ Hal); lia|]. fold persisted in N4. destruct (N4 a b Hrange) as (Hab & Hwm & _).
  assert (older <> []) as Hold.
  { intros E0. apply (f_equal length) in E0. unfold older in E0. rewrite length_take in E0. cbn in E0. lia. }
  destruct (compact_segment_ok cfg db s older sum a b d now) as (db' & Hseg & Hr); try done.
  { pose proof (al_watermark _ Hal). lia. }
  unfold Compact. rewrite decide_False by lia. fold cut. rewrite decide_False by lia. fold older persisted.
  destruct (match PreCompactHook cfg with Some hook => _ | None => _ end) as [st1 flushed] eqn:Eh.
  assert (St_Segments st1 = db) as Hs1.
  { revert Eh. unfold flush_only in Hh. destruct (PreCompactHook cfg) as [hook|]; [|by intros [= <- <-]].
    specialize (Hh st older s). by destruct (hook st older s); intros [= <- <-]. }
  rewrite Hs1. destruct (state_write_ok cfg (DB_Sessions db) (St_States st1) (S_ID s) older now) as [tbl ->]; [done..|].
  destruct (if HasMemoryWriter cfg then _ else _) as [mem synced]. fold sum. rewrite Hrange, Hseg, Hp.
  eexists _, _, a, b. split_and!; [reflexivity|done..| |].
  - exact Hwm.
  - unfold nextSession. by case_decide.
Qed.
End Compact.

(** ** Examples *)

Section Examples.
#[local] Existing Instances ascii_unicode plain_sprint whole_durations length_estimator sample_memory.

Definition sample_message (n : nat) : Message :=
  mkMessage RoleUser ("message " +:+ itoa n) [] "" "" [] (Z.of_nat (S n))
    (if decide (n = 0)%nat then [(MetadataKeyPinnedFact, VMap [("key", VString "db"); ("content", VString "use replica")])] else []).

Definition sample_session : Session :=
  mkSession "s1" (sample_message <$> seq 0 5) "" 0 [] 10 [11; 12; 14; 15; 19].

Definition sample_stores : Stores := mkStores (mkSegmentDB {[ "s1" ]} [] []) ∅ empty_memory.

Definition sample_drawn : Drawn := mkDrawn "ep-1" "seg-1" sample_id.

Definition compact_config (post : option (CompactEvent -> option Session)) : CompactConfig :=
  mkCompactConfig 2 2 400 (Some (MemoryFlushHook 50)) true true None true None post.

Lemma sample_aligned : aligned sample_session.
Proof.
  constructor; cbn.
  - repeat constructor; lia.
  - repeat constructor; lia.
  - lia.
  - lia.
Qed.

(** What can be read off a result at a glance. *)
Definition glance (r : option (Stores * Session * option CompactError)) : option (list (Z * Z) * list Z * nat * bool) :=
  match r with
  | Some (st, s, e) => Some (l1_ranges (St_Segments st) "s1", S_LoadedMessageSeqs s, length (S_Messages s), bool_decide (is_Some e))
  | None => None
  end.

Lemma glance_inv r ranges seqs n :
  glance r = Some (ranges, seqs, n, false) ->
  exists st s, r = Some (st, s, None) /\ l1_ranges (St_Segments st) "s1" = ranges
    /\ S_LoadedMessageSeqs s = seqs /\ length (S_Messages s) = n.
Proof.
  destruct r as [[[st s] e]|]; [|done]. intros [= H1 H2 H3 H4]. apply bool_decide_eq_false in H4.
  destruct e as [e|]; [destruct H4; by eexists|]. by exists st, s.
Qed.

Lemma sample_result :
  glance (Compact (compact_config None) sample_stores sample_session "manual" sample_drawn 60)
  = Some ([(11, 14)], [15; 19], 2%nat, false).
Proof. vm_compute. reflexivity. Qed.

Lemma sample_stores_ok : db_ok (St_Segments sample_stores).
Proof. apply db_ok_empty. Qed.

Lemma sample_flush_only post : flush_only (compact_config post).
Proof. intros st older s. apply MemoryFlushHook_segments. Qed.

Lemma sample_unused i : unused (St_Segments sample_stores) (sample_id i).
Proof. split; [apply graphic_trimmed, sample_id_graphic|]. split; [done|]. split; by apply not_elem_of_nil. Qed.

Lemma sample_drawn_fresh : drawn_fresh (St_Segments sample_stores) sample_drawn.
Proof.
  constructor.
  - split; [by vm_compute|]. split; [done|]. apply not_elem_of_nil.
  - split; [by vm_compute|]. split; [done|]. split; apply not_elem_of_nil.
  - split; [|intros i _; apply sample_unused].
    intros i j Eij. apply (f_equal String.length) in Eij. cbn [sample_drawn D_Rollups] in Eij. unfold sample_id in Eij.
    rewrite !sample_id_length in Eij. lia.
  - intros i. done.
Qed.

Lemma compaction_keeps_recent_witness :
  exists st' s', Compact (compact_config None) sample_stores sample_session "manual" sample_drawn 60 = Some (st', s', None)
  /\ length (S_Messages s') = 2%nat /\
  (s' = sample_session \/ @None CompactError = None /\ exists cut, (0 < cut <= 5)%nat
    /\ S_Messages s' = drop cut (S_Messages sample_session) /\ S_ID s' = "s1"
    /\ enough (compact_config None) (S_Messages sample_session) (S_Messages s')
    /\ forall k, (cut < k <= 5)%nat -> ~ enough (compact_config None) (S_Messages sample_session) (drop k (S_Messages sample_session))).
Proof.
  destruct (glance_inv _ _ _ _ sample_result) as (st' & s' & Er & _ & _ & Hn). exists st', s'.
  split; [exact Er|]. split; [exact Hn|].
  apply (compaction_keeps_recent (compact_config None) sample_stores sample_session "manual" sample_drawn 60 st' s' None).
  - intros m. vm_compute. discriminate.
  - apply sample_flush_only.
  - reflexivity.
  - exact Er.
Defined.

(** A hook that adds a note to the summary. *)
Definition note_hook (ev : CompactEvent) : option Session := Some (set_summary "noted" 61 (CE_Session ev)).

Lemma compaction_tiles_witness :
  renumbers_nothing (compact_config (Some note_hook)) /\
  exists st' s' err, Compact (compact_config (Some note_hook)) sample_stores sample_session "manual" sample_drawn 60 = Some (st', s', err)
  /\ db_ok (St_Segments st') /\ ids_trimmed (St_Segments st') /\ aligned s' /\ S_ID s' = "s1" /\ 10 <= S_ExecutionWatermark s'
  /\ (err <> Some ErrPostCompactHook -> tiles (S_ExecutionWatermark s') (l1_ranges (St_Segments st') (TrimSpace (S_ID s'))))
  /\ forall sid, sid <> "s1" -> l1_ranges (St_Segments st') sid = l1_ranges (St_Segments sample_stores) sid.
Proof.
  assert (renumbers_nothing (compact_config (Some note_hook))) as Hr by (intros hook ev s1 [= <-] [= <-]; reflexivity).
  split; [exact Hr|].
  apply (compaction_tiles (compact_config (Some note_hook)) sample_stores sample_session "manual" sample_drawn 60).
  - exact sample_stores_ok.
  - constructor.
  - exact (drawn_fresh_ok _ _ sample_drawn_fresh).
  - apply sample_flush_only.
  - exact Hr.
  - exact sample_aligned.
  - split; constructor.
Defined.

Lemma compaction_stores_segment_witness :
  compact_cut (compact_config None) (S_Messages sample_session) = 3%nat /\
  exists st' s' a b, Compact (compact_config None) sample_stores sample_session "manual" sample_drawn 60 = Some (st', s', None)
    /\ S_LoadedMessageSeqs sample_session !! 0%nat = Some a
    /\ S_LoadedMessageSeqs sample_session !! (compact_cut (compact_config None) (S_Messages sample_session) - 1)%nat = Some b
    /\ l1_ranges (St_Segments st') (TrimSpace (S_ID sample_session))
       = l1_ranges (St_Segments sample_stores) (TrimSpace (S_ID sample_session)) ++ [(a, b)]
    /\ S_ExecutionWatermark s' = b
    /\ S_Messages s' = drop (compact_cut (compact_config None) (S_Messages sample_session)) (S_Messages sample_session).
Proof.
  split; [reflexivity|].
  apply (compaction_stores_segment (compact_config None) sample_stores sample_session "manual" sample_drawn 60).
  - exact sample_stores_ok.
  - constructor.
  - constructor.
  - exact sample_drawn_fresh.
  - by vm_compute.
  - by vm_compute.
  - exact sample_aligned.
  - done.
  - apply sample_flush_only.
  - reflexivity.
  - reflexivity.
  - vm_compute. lia.
  - vm_compute. lia.
  - vm_compute. discriminate.
Defined.

(** A hook after compaction that fails leaves the session as it is, but the
    segment has been stored: the next attempt stores the same messages again and
    the episode counts them twice. *)
Theorem failed_hook_duplicates_segment :
  let cfg := compact_config (Some (fun _ => None)) in
  let second := mkDrawn "ep-2" "seg-2" sample_id in
  match Compact cfg sample_stores sample_session "manual" sample_drawn 60 with
  | Some (st1, s1, Some ErrPostCompactHook) =>
    match Compact cfg st1 s1 "manual" second 70 with
    | Some (st2, s2, Some ErrPostCompactHook) =>
      S_LoadedMessageSeqs s2 = S_LoadedMessageSeqs sample_session
      /\ l1_ranges (St_Segments st2) "s1" = [(11, 14); (11, 14)]
      /\ Ep_Count <$> DB_Episodes (St_Segments st2) = [8]
    | _ => False
    end
  | _ => False
  end.
Proof. vm_compute. split_and!; reflexivity. Qed.

(** The facts of discarded messages rank below those the session already has,
    although they can be newer; what a prompt shows ranks them the other way. *)
Theorem discarded_fact_overruled :
  let old := mkPinnedFact "db" "use primary" "" 0 [] in
  let s := mkSession "s1" (S_Messages sample_session) "" 0 [old] 10 (S_LoadedMessageSeqs sample_session) in
  match Compact (compact_config None) sample_stores s "manual" sample_drawn 60 with
  | Some (_, s', None) => PF_Content <$> S_PinnedFacts s' = ["use primary"]
      /\ PF_Content <$> mergePinnedFacts [S_PinnedFacts s; collectPinnedFacts (S_Messages s)] = ["use replica"]
  | _ => False
  end.
Proof. vm_compute. split; reflexivity. Qed.
End Examples.
