(* ===== verification/SegmentSearch.v ===== *)
(** * Searching summary segments ([store/sqlite_segment.go])

    [SearchSegments] ranks the segments of a session by the similarity of their
    embeddings to that of a query, or by the words of the query when there is no
    embedding. *)
From S2P Require Import Prelude GoLib GoText GoFloat GoSort ContextMessages ContextSummary ContextPinned SegmentStore SegmentRollup.
From Stdlib Require Import Floats.SpecFloat Sorted.
Import Str Text GoTime.

Local Open Scope Z_scope.

Definition fsqrt : float64 -> float64 := SFsqrt 53 1024.

Section Unicode.
Context {U : GoUnicode}.

(** ** Scores *)

(** [cosineSimilarity]; the elements of the vectors are [float32] values, which
    are [float64] values as well. *)
Definition cosine_sums (a b : list float64) : float64 * float64 * float64 :=
  foldl (fun '(dot, na, nb) '(x, y) => (fadd dot (fmul x y), fadd na (fmul x x), fadd nb (fmul y y)))
        (of_int 0, of_int 0, of_int 0) (combine a b).

Definition cosineSimilarity (a b : list float64) : float64 :=
  if decide (length a = 0 \/ length b = 0 \/ length a <> length b)%nat then of_int 0 else
  let '(dot, na, nb) := cosine_sums a b in
  if feqb na (of_int 0) || feqb nb (of_int 0) then of_int 0
  else fdiv dot (fmul (fsqrt na) (fsqrt nb)).

Definition keywordMatchTokens (queryText : string) : list string :=
  filter (fun w => (3 <= String.length w)%nat) (word_fields (ToLower (TrimSpace queryText))).

Definition keywordMatchScore (keywords : string) (tokens : list string) : Z :=
  if decide (TrimSpace keywords = "" \/ tokens = []) then 0
  else Z.of_nat (length (filter (fun t => Contains (ToLower keywords) t = true) tokens)).

(** ** Ranking *)

(** The tie-breaks after the score. *)
Definition better_segment (a b : SummarySegment) : bool :=
  if negb (feqb (Sg_QualityScore a) (Sg_QualityScore b)) then fltb (Sg_QualityScore b) (Sg_QualityScore a)
  else if decide (Sg_SeqEnd a <> Sg_SeqEnd b) then bool_decide (Sg_SeqEnd b < Sg_SeqEnd a)
  else After (Sg_CreatedAt a) (Sg_CreatedAt b).

Definition less_by_embedding (a b : SummarySegment * float64) : bool :=
  if negb (feqb a.2 b.2) then fltb b.2 a.2 else better_segment a.1 b.1.

Definition less_by_keywords (a b : SummarySegment * Z) : bool :=
  if decide (a.2 <> b.2) then bool_decide (b.2 < a.2) else better_segment a.1 b.1.

Definition rankSegmentsByEmbedding (segments : list SummarySegment) (query : list float64) (limit : nat) :
    list SummarySegment :=
  let scored := (fun s => (s, cosineSimilarity (Sg_Embedding s) query))
                <$> filter (fun s => Sg_Embedding s <> []) segments in
  fst <$> take limit (SliceStable less_by_embedding scored).

Definition rankSegmentsByKeywords (segments : list SummarySegment) (queryText : string) (limit : nat) :
    list SummarySegment :=
  match keywordMatchTokens queryText with
  | [] => []
  | tokens =>
    let scored := filter (fun p => 0 < p.2) ((fun s => (s, keywordMatchScore (Sg_Keywords s) tokens)) <$> segments) in
    fst <$> take limit (SliceStable less_by_keywords scored)
  end.

Definition loadSessionSegments (db : SegmentDB) (sid : string) : list SummarySegment :=
  filter (fun s => Sg_SessionID s = sid) (DB_Segments db).

Definition SearchSegments (db : SegmentDB) (sessionID queryText : string) (queryEmbedding : list float64) (limit : Z) :
    SegmentError + list SummarySegment :=
  let sid := TrimSpace sessionID in
  if decide (sid = "") then inl ErrSessionRequired else
  let limit := Z.to_nat (if decide (limit <= 0) then 1 else limit) in
  let segments := loadSessionSegments db sid in
  inr (match queryEmbedding with
       | [] => rankSegmentsByKeywords segments queryText limit
       | _ => rankSegmentsByEmbedding segments queryEmbedding limit
       end).

(** ** The best matches *)

(** Segments whose quality is a number. *)
Definition rated (s : SummarySegment) : Prop := is_Some (frank (Sg_QualityScore s)).

Definition segment_key (s : SummarySegment) : list Z := (Z.opp <$> fkey (Sg_QualityScore s)) ++ [- Sg_SeqEnd s; - Sg_CreatedAt s].

Lemma better_segment_key a b : rated a -> rated b -> better_segment a b = true <-> lex_lt (segment_key a) (segment_key b).
Proof.
  intros Ha Hb. unfold better_segment, segment_key. apply float_desc; [done..|]. apply int_desc.
  unfold After. cbn. rewrite bool_decide_eq_true. intuition lia.
Qed.

Lemma segment_key_length s : rated s -> length (segment_key s) = 5%nat.
Proof. intros Hs. unfold segment_key. by rewrite length_app, length_fmap, fkey_length. Qed.

(** A segment that matches and is left out is not better than one that is
    returned, and there was no room for it. *)
Lemma ranked_best {K} (less : SummarySegment * K -> SummarySegment * K -> bool) (ok : SummarySegment * K -> Prop)
    `{!StrictWeak less ok} (l : list (SummarySegment * K)) n :
  Forall ok l ->
  let out := take n (SliceStable less l) in
  (length out <= n)%nat /\ (forall p, p ∈ out -> p ∈ l)
  /\ forall p, p ∈ l -> p ∉ out -> length out = n /\ forall r, r ∈ out -> less p r = false.
Proof.
  intros Hok. cbv zeta. pose proof (SliceStable_sorted less (ok := ok) l Hok) as Hs.
  pose proof (SliceStable_perm less l) as Hp. set (k := SliceStable less l) in *. split_and!.
  - rewrite length_take. lia.
  - intros p H. rewrite <- Hp. eapply elem_of_sublist; [exact H|apply sublist_take].
  - intros p Hin Hout. rewrite <- Hp, <- (take_drop n k) in Hin. apply elem_of_app in Hin as [|Hd]; [done|]. split.
    + rewrite length_take. destruct (decide (length k <= n)%nat); [|lia]. rewrite drop_ge in Hd by lia. by apply elem_of_nil in Hd.
    + intros r Hr. by eapply take_sorted_best.
Qed.

#[local] Instance keywords_weak : StrictWeak less_by_keywords (fun p => rated p.1).
Proof.
  apply (StrictWeak_key _ _ (fun p => - p.2 :: segment_key p.1) 6).
  - intros p Hp. cbn. by rewrite segment_key_length.
  - intros a b Ha Hb. apply int_desc. by apply better_segment_key.
Qed.

#[local] Instance embedding_weak : StrictWeak less_by_embedding (fun p => rated p.1 /\ is_Some (frank p.2)).
Proof.
  apply (StrictWeak_key _ _ (fun p => (Z.opp <$> fkey p.2) ++ segment_key p.1) 8).
  - intros p [H1 H2]. by rewrite length_app, length_fmap, fkey_length, segment_key_length.
  - intros a b [Ha1 Ha2] [Hb1 Hb2]. apply float_desc; [done..|]. by apply better_segment_key.
Qed.

(** a search by words returns segments of the session that contain a word of
    the query, at most as many as asked for, and none that is left out contains
    more words than one that is returned; one is left out only when the limit is
    reached. *)
Theorem keyword_search_best db sid text limit out :
  TrimSpace sid <> "" -> Forall rated (loadSessionSegments db (TrimSpace sid)) ->
  SearchSegments db sid text [] limit = inr out ->
  let n := Z.to_nat (if decide (limit <= 0) then 1 else limit) in
  let score s := keywordMatchScore (Sg_Keywords s) (keywordMatchTokens text) in
  (length out <= n)%nat
  /\ (forall s, s ∈ out -> s ∈ DB_Segments db /\ Sg_SessionID s = TrimSpace sid /\ 0 < score s)
  /\ forall s, s ∈ DB_Segments db -> Sg_SessionID s = TrimSpace sid -> 0 < score s -> s ∉ out ->
       length out = n /\ forall r, r ∈ out -> score s <= score r.
Proof.
  intros Hne Hrated. unfold SearchSegments. rewrite decide_False by done. intros [= <-]. cbv zeta.
  set (n := Z.to_nat _). unfold rankSegmentsByKeywords.
  destruct (keywordMatchTokens text) as [|t ts] eqn:Et.
  { split; [cbn; lia|]. split; [by intros s ?%elem_of_nil|]. intros s _ _ Hs. exfalso. revert Hs.
    unfold keywordMatchScore. rewrite decide_True by auto. lia. }
  rewrite <- Et. clear Et t ts. set (tokens := keywordMatchTokens text).
  set (f := fun s => (s, keywordMatchScore (Sg_Keywords s) tokens)).
  set (scored := filter (fun p => 0 < p.2) (f <$> loadSessionSegments db (TrimSpace sid))).
  assert (forall p, p ∈ scored <-> p = f p.1 /\ 0 < p.2 /\ p.1 ∈ DB_Segments db /\ Sg_SessionID p.1 = TrimSpace sid) as Hsc.
  { intros p. unfold scored. rewrite list_elem_of_filter, list_elem_of_fmap. unfold loadSessionSegments. split.
    - intros [Hp (s & -> & [H1 H2]%list_elem_of_filter)]. done.
    - intros (H1 & H2 & H3 & H4). split; [done|]. exists p.1. split; [done|]. by apply list_elem_of_filter. }
  assert (Forall (fun p => rated p.1) scored) as Hok.
  { apply Forall_forall. intros p (_ & _ & H3 & H4)%Hsc. rewrite Forall_forall in Hrated. apply Hrated.
    by apply list_elem_of_filter. }
  destruct (ranked_best less_by_keywords (fun p => rated p.1) scored n Hok) as (R1 & R2 & R3).
  set (top := take n (SliceStable less_by_keywords scored)) in *. rewrite length_fmap. split_and!; [done| |].
  - intros s (p & -> & Hp)%list_elem_of_fmap. apply R2, Hsc in Hp as (H1 & H2 & H3 & H4). split_and!; [done..|].
    by rewrite H1 in H2.
  - intros s Hs Hsid Hpos Hout. destruct (R3 (f s)) as [R4 R5].
    + apply Hsc. done.
    + intros H. apply Hout. apply list_elem_of_fmap. by exists (f s).
    + split; [done|]. intros r (p & -> & Hp)%list_elem_of_fmap. specialize (R5 p Hp). apply R2, Hsc in Hp as (H1 & _).
      revert R5. rewrite H1. unfold less_by_keywords, f. cbn [fst snd]. case_decide; [|lia].
      rewrite bool_decide_eq_false. lia.
Qed.

(** The same of a search by embedding: nothing that is left out is more similar
    to the query than something that is returned. *)
Theorem embedding_search_best db sid text query limit out :
  TrimSpace sid <> "" -> query <> [] ->
  let sim s := cosineSimilarity (Sg_Embedding s) query in
  Forall (fun s => rated s /\ is_Some (frank (sim s))) (loadSessionSegments db (TrimSpace sid)) ->
  SearchSegments db sid text query limit = inr out ->
  let n := Z.to_nat (if decide (limit <= 0) then 1 else limit) in
  (length out <= n)%nat
  /\ (forall s, s ∈ out -> s ∈ DB_Segments db /\ Sg_SessionID s = TrimSpace sid /\ Sg_Embedding s <> [])
  /\ forall s, s ∈ DB_Segments db -> Sg_SessionID s = TrimSpace sid -> Sg_Embedding s <> [] -> s ∉ out ->
       length out = n /\ forall r, r ∈ out -> fltb (sim r) (sim s) = false.
Proof.
  intros Hne Hq sim Hrated. unfold SearchSegments. rewrite decide_False by done. destruct query as [|x xs]; [done|].
  intros [= <-]. cbv zeta. set (n := Z.to_nat _). unfold rankSegmentsByEmbedding. fold sim.
  set (f := fun s => (s, sim s)).
  set (scored := f <$> filter (fun s => Sg_Embedding s <> []) (loadSessionSegments db (TrimSpace sid))).
  assert (forall p, p ∈ scored <-> p = f p.1 /\ Sg_Embedding p.1 <> [] /\ p.1 ∈ DB_Segments db /\ Sg_SessionID p.1 = TrimSpace sid) as Hsc.
  { intros p. unfold scored. rewrite list_elem_of_fmap. unfold loadSessionSegments. split.
    - intros (s & -> & [H0 [H1 H2]%list_elem_of_filter]%list_elem_of_filter). done.
    - intros (H1 & H2 & H3 & H4). exists p.1. split; [done|]. by rewrite !list_elem_of_filter. }
  assert (Forall (fun p => rated p.1 /\ is_Some (frank p.2)) scored) as Hok.
  { apply Forall_forall. intros p (-> & _ & H3 & H4)%Hsc. rewrite Forall_forall in Hrated. apply (Hrated p.1).
    by apply list_elem_of_filter. }
  destruct (ranked_best less_by_embedding _ scored n Hok) as (R1 & R2 & R3).
  set (top := take n (SliceStable less_by_embedding scored)) in *. rewrite length_fmap. split_and!; [done| |].
  - intros s (p & -> & Hp)%list_elem_of_fmap. apply R2, Hsc in Hp as (_ & H2 & H3 & H4). done.
  - intros s Hs Hsid Hemb Hout. destruct (R3 (f s)) as [R4 R5].
    + apply Hsc. done.
    + intros H. apply Hout. apply list_elem_of_fmap. by exists (f s).
    + split; [done|]. intros r (p & -> & Hp)%list_elem_of_fmap. specialize (R5 p Hp). apply R2, Hsc in Hp as (H1 & _).
      revert R5. rewrite H1. unfold less_by_embedding, f. cbn [fst snd]. destruct (feqb (sim s) (sim p.1)) eqn:Ef; [|done].
      intros _. apply feqb_rank in Ef as (q & E1 & E2). apply not_true_iff_false. rewrite fltb_rank.
      intros (r1 & r2 & F1 & F2 & H). rewrite E2 in F1. rewrite E1 in F2. injection F1 as <-. injection F2 as <-.
      destruct q as [[? ?] ?]. cbn in H. lia.
Qed.
End Unicode.

(** ** Examples *)

Definition search_segment (id keywords : string) (quality : Z) (embedding : list Z) : SummarySegment :=
  mkSegment id "s1" "ep-1" 1 1 2 0 0 "text" [] [] [] [] [] (of_int <$> embedding) keywords (of_int quality) "" 0.

Definition search_db : SegmentDB :=
  mkSegmentDB {[ "s1" ]} [] [search_segment "a" "deploy staging" 1 [1; 0]; search_segment "b" "deploy database staging" 0 [0; 1];
    search_segment "c" "deploy" 1 [1; 1]; search_segment "d" "lunch" 1 []].

Lemma search_db_rated : Forall rated (loadSessionSegments search_db "s1").
Proof. repeat constructor; by eexists. Qed.

Lemma keyword_search_best_witness :
  let text := "Which database does staging deploy to?" in
  let score s := keywordMatchScore (U := ascii_unicode) (Sg_Keywords s) (keywordMatchTokens (U := ascii_unicode) text) in
  exists out, SearchSegments (U := ascii_unicode) search_db "s1 " text [] 2 = inr out /\ (Sg_ID <$> out) = ["b"; "a"]
  /\ (length out <= 2)%nat
  /\ (forall s, s ∈ out -> s ∈ DB_Segments search_db /\ Sg_SessionID s = "s1" /\ 0 < score s)
  /\ forall s, s ∈ DB_Segments search_db -> Sg_SessionID s = "s1" -> 0 < score s -> s ∉ out ->
       length out = 2%nat /\ forall r, r ∈ out -> score s <= score r.
Proof.
  eexists. split; [vm_compute; reflexivity|]. split; [vm_compute; reflexivity|].
  apply (keyword_search_best (U := ascii_unicode) search_db "s1 " "Which database does staging deploy to?" 2).
  - by vm_compute.
  - exact search_db_rated.
  - vm_compute. reflexivity.
Defined.

Lemma embedding_search_example :
  exists out, SearchSegments (U := ascii_unicode) search_db "s1" "" [of_int 2; of_int 1] 2 = inr out
  /\ (Sg_ID <$> out) = ["c"; "a"].
Proof. eexists. split; [vm_compute; reflexivity|]. vm_compute. reflexivity. Qed.
