(* ===== verification/ContextRecall.v ===== *)
(** * Recalling segments for a prompt ([contextengine/engine_recall.go])

    [prepareRecalledPrompt] searches the segments of a session for up to three
    queries, merges what they find, keeps the best match of every segment, and
    puts as many as fit the budget into the prompt, with a receipt of what became
    of each match.  The queries run concurrently but fill cells of their own, so
    their results are a list in the order of the queries.  The loop over the map
    of best matches takes its entries in any order: the order is an argument. *)
From S2P Require Import Prelude GoLib GoText TextTrim GoClock GoFloat GoSort ContextBudget ContextMessages ContextSummary.
From S2P Require Import ContextPinned SegmentStore SegmentRollup SessionState SegmentSearch.
From Stdlib Require Import Ascii Floats.SpecFloat Sorted.
Import Str Text GoTime.

Local Open Scope Z_scope.

Record recalledSearchHit := mkSearchHit {
  sh_segment : SummarySegment; sh_query : string; sh_score : float64; sh_order : nat }.

Record ReceiptHit := mkReceiptHit {
  RH_Kind : string; RH_ID : string; RH_Score : float64; RH_Reason : string; RH_Tokens : Z;
  RH_Injected : bool; RH_TrimReason : string }.

Record trackedRecalledHit := mkTracked {
  th_key : string; th_segment : SummarySegment; th_block : string; th_order : nat;
  th_queries : list string; th_hit : ReceiptHit }.

Record RetrievalReceipt := mkReceipt {
  RR_Queries : list string; RR_Hits : list ReceiptHit; RR_Injected : list ReceiptHit;
  RR_Trimmed : list ReceiptHit; RR_TotalTokens : Z; RR_GeneratedAt : Time }.

(** [Run] of the context engine. *)
Record ContextRun := mkContextRun {
  Rn_ID : string; Rn_SystemPrompt : string; Rn_Goal : string; Rn_TargetSummary : string; Rn_Model : string;
  Rn_JobType : string; Rn_DetectedDomains : list string; Rn_AllowedSkills : list string; Rn_MaxContextTokens : Z;
  Rn_MaxOutputTokens : Z }.

(** ** Scores *)

Definition recalledSegmentSimilarityScore (index total : Z) : float64 :=
  if decide (total <= 1) then of_int 1
  else if decide (index < 0) then of_int 0
  else let index := if decide (total <= index) then total - 1 else index in
       fsub (of_int 1) (fdiv (of_int index) (of_int (total - 1))).

Definition recalledSegmentReferenceTime (s : SummarySegment) : Time :=
  let start := Sg_TSStart s in
  let stop := Sg_TSEnd s in
  if negb (IsZero start) && negb (IsZero stop) then
    let stop := if Before stop start then start else stop in
    Add start (Z.quot (Sub stop start) 2)
  else if negb (IsZero stop) then stop
  else if negb (IsZero start) then start
  else Sg_CreatedAt s.

Definition recalledSegmentRecencyScore (s : SummarySegment) (now : Time) : float64 :=
  let reference := recalledSegmentReferenceTime s in
  if IsZero reference then lit 1 2 else
  let reference := if After reference now then now else reference in
  let age := Sub now reference in
  if decide (age <= 7 * 24 * Hour) then of_int 1
  else if decide (age <= 30 * 24 * Hour) then lit 9 10
  else if decide (age <= 90 * 24 * Hour) then lit 7 10
  else lit 1 2.

Definition recalledSegmentCoverageScore (s : SummarySegment) : float64 :=
  let coverage := Z.of_nat (length (Sg_Decisions s) + length (Sg_Constraints s)) in
  if decide (coverage <= 0) then of_int 0 else
  let score := fdiv (of_int coverage) (of_int 4) in
  if fltb (of_int 1) score then of_int 1 else score.

Definition recalledSegmentScore (s : SummarySegment) (index total : Z) (now : Time) : float64 :=
  fadd (fadd (fmul (lit 7 10) (recalledSegmentSimilarityScore index total))
             (fmul (lit 2 10) (recalledSegmentRecencyScore s now)))
       (fmul (lit 1 10) (recalledSegmentCoverageScore s)).

(** ** Rendering *)

Definition recalledSegmentSource (s : SummarySegment) : string :=
  let start := if IsZero (Sg_TSStart s) then Sg_CreatedAt s else Sg_TSStart s in
  let stop := if IsZero (Sg_TSEnd s) then start else Sg_TSEnd s in
  if IsZero start then "segment " +:+ TrimSpace (Sg_ID s)
  else "segment " +:+ TrimSpace (Sg_ID s) +:+ " from " +:+ FormatDay start +:+ " to " +:+ FormatDay stop.

Definition optional_line (label : string) (values : list string) : list string :=
  match values with [] => [] | _ => [label +:+ Joins values " | "] end.

Definition renderRecalledSegmentBlock (s : SummarySegment) : string :=
  let summary := TrimSpace (Sg_SummaryText s) in
  if decide (summary = "") then "" else
  Joins (["<recalled_context source=" +:+ quote_mark +:+ recalledSegmentSource s +:+ quote_mark +:+ ">"; "Summary: " +:+ summary]
    ++ optional_line "Decisions: " (Sg_Decisions s) ++ optional_line "TODOs: " (Sg_TODOs s)
    ++ optional_line "Constraints: " (Sg_Constraints s) ++ ["</recalled_context>"]) nl.

Definition renderTrimmedRecalledSegmentBlock (block : string) (maxTokens : Z) : string :=
  if decide (maxTokens = 0) then "" else softTrimContent block (Z.to_nat (maxTokens * 4)) 0.

Definition receiptHitID (s : SummarySegment) : string :=
  let id := TrimSpace (Sg_ID s) in if decide (id = "") then recalledSegmentSource s else id.

Definition appendReceiptReason (reason suffix : string) : string :=
  let reason := TrimSpace reason in
  let suffix := TrimSpace suffix in
  if decide (reason = "") then suffix else if decide (suffix = "") then reason else reason +:+ "; " +:+ suffix.

Section Recall.
Context {U : GoUnicode} {E : TokenEstimator}.

Definition recalledSegmentDedupKey (s : SummarySegment) : string :=
  let id := TrimSpace (Sg_ID s) in
  if decide (id = "")
  then ToLower (TrimSpace (Sg_SummaryText s)) +:+ "|" +:+ FormatRFC3339Nano (Sg_TSStart s) +:+ "|" +:+ FormatRFC3339Nano (Sg_TSEnd s)
  else ToLower id.

Definition recalledReceiptReason (queries : list string) : string :=
  match dedupeStrings queries with
  | [] => "matched recalled segment search"
  | [q] => "matched query: " +:+ q
  | qs => "matched queries: " +:+ Joins qs " | "
  end.

(** ** Search hits *)

(** The segment of a rank, for every query that has one. *)
Definition rank_row (queries : list string) (results : list (list SummarySegment)) (rank : nat) :
    list (SummarySegment * string) :=
  omap (fun '(q, rs) => (fun s => (s, q)) <$> rs !! rank) (combine queries results).

Definition buildRecalledSearchHits (queries : list string) (results : list (list SummarySegment)) (now : Time) :
    list recalledSearchHit :=
  let maxResults := max_list (length <$> results) in
  let total := Z.of_nat (sum_list (length <$> results)) in
  imap (fun order '(s, q) => mkSearchHit s q (recalledSegmentScore s (Z.of_nat order) total now) order)
       (List.concat ((fun rank => rank_row queries results rank) <$> seq 0 maxResults)).

(** ** The receipt *)

Definition track (raw : recalledSearchHit) : trackedRecalledHit :=
  let s := sh_segment raw in
  let block := renderRecalledSegmentBlock s in
  mkTracked (recalledSegmentDedupKey s) s block (sh_order raw) [sh_query raw]
    (mkReceiptHit "recalled_segment" (receiptHitID s) (sh_score raw) (recalledReceiptReason [sh_query raw])
       (if decide (block = "") then 0 else Estimate block) false "").

Definition with_hit (h : ReceiptHit) (t : trackedRecalledHit) : trackedRecalledHit :=
  mkTracked (th_key t) (th_segment t) (th_block t) (th_order t) (th_queries t) h.

(** Marking a hit: why it was left out, with a note. *)
Definition trim_hit (reason note : string) (t : trackedRecalledHit) : trackedRecalledHit :=
  let h := th_hit t in
  with_hit (mkReceiptHit (RH_Kind h) (RH_ID h) (RH_Score h) (appendReceiptReason (RH_Reason h) note) (RH_Tokens h)
              (RH_Injected h) reason) t.

Definition inject_hit (tokens : Z) (t : trackedRecalledHit) : trackedRecalledHit :=
  let h := th_hit t in
  with_hit (mkReceiptHit (RH_Kind h) (RH_ID h) (RH_Score h) (RH_Reason h) tokens true (RH_TrimReason h)) t.

(** Whether the hit at [i] beats the best one so far. *)
Definition beats (t best : trackedRecalledHit) : bool :=
  fltb (RH_Score (th_hit best)) (RH_Score (th_hit t))
  || feqb (RH_Score (th_hit t)) (RH_Score (th_hit best)) && bool_decide (th_order t < th_order best)%nat.

Record dedup_state := mkDedup {
  dd_tracked : list trackedRecalledHit; dd_queries : gmap string (list string); dd_best : gmap string nat }.

Definition dedup_step (st : dedup_state) (index : nat) : dedup_state :=
  match dd_tracked st !! index with
  | None => st
  | Some t =>
    let key := th_key t in
    let queries := <[key := dedupeStrings (default [] (dd_queries st !! key) ++ th_queries t)]> (dd_queries st) in
    let duplicate i note := alter (trim_hit "duplicate" note) i (dd_tracked st) in
    match dd_best st !! key with
    | None => mkDedup (dd_tracked st) queries (<[key := index]> (dd_best st))
    | Some best =>
      match dd_tracked st !! best with
      | None => st
      | Some b =>
        if beats t b
        then mkDedup (duplicate best "deduplicated by a higher-ranked match") queries (<[key := index]> (dd_best st))
        else mkDedup (duplicate index "duplicate segment match") queries (dd_best st)
      end
    end
  end.

Definition dedup (tracked : list trackedRecalledHit) : dedup_state :=
  foldl dedup_step (mkDedup tracked ∅ ∅) (seq 0 (length tracked)).

(** The reason of a hit that is kept names all queries that found the segment. *)
Definition merge_queries (st : dedup_state) (tracked : list trackedRecalledHit) (key : string) (index : nat) :
    list trackedRecalledHit :=
  let qs := default [] (dd_queries st !! key) in
  alter (fun t => let h := th_hit t in
    mkTracked (th_key t) (th_segment t) (th_block t) (th_order t) qs
      (mkReceiptHit (RH_Kind h) (RH_ID h) (RH_Score h) (recalledReceiptReason qs) (RH_Tokens h) (RH_Injected h) (RH_TrimReason h)))
    index tracked.

Definition less_recalled (a b : trackedRecalledHit) : bool :=
  let ta := recalledSegmentReferenceTime (th_segment a) in
  let tb := recalledSegmentReferenceTime (th_segment b) in
  let ia := TrimSpace (Sg_ID (th_segment a)) in
  let ib := TrimSpace (Sg_ID (th_segment b)) in
  if negb (feqb (RH_Score (th_hit a)) (RH_Score (th_hit b))) then fltb (RH_Score (th_hit b)) (RH_Score (th_hit a))
  else if decide (ta <> tb) then After ta tb
  else if negb (feqb (Sg_QualityScore (th_segment a)) (Sg_QualityScore (th_segment b)))
       then fltb (Sg_QualityScore (th_segment b)) (Sg_QualityScore (th_segment a))
  else if decide (ia <> ib) then String.ltb ia ib
  else bool_decide (th_order a < th_order b)%nat.

(** The comparison of two positions of the list of hits. *)
Definition less_at (tracked : list trackedRecalledHit) (i j : nat) : bool :=
  match tracked !! i, tracked !! j with Some a, Some b => less_recalled a b | _, _ => false end.

(** *** The budget *)

Definition not_injected : string := "not injected within recalled context budget".

(** Marking the hits at the given positions that are not marked yet. *)
Definition trim_rest (tracked : list trackedRecalledHit) (rest : list nat) : list trackedRecalledHit :=
  foldl (fun l i => alter (fun t => if decide (RH_TrimReason (th_hit t) = "") then trim_hit "budget_exceeded" not_injected t else t) i l)
        tracked rest.

(** The loop of [applyRecalledPromptBudget]: the hits, the blocks of the prompt
    and the tokens. *)
Fixpoint budget_loop (tracked : list trackedRecalledHit) (selected : list nat) (blocks : list string) (tokens maxTokens : Z) :
    list trackedRecalledHit * list string * Z :=
  match selected with
  | [] => (tracked, blocks, tokens)
  | i :: rest =>
    match tracked !! i with
    | None => (tracked, blocks, tokens)
    | Some t =>
      if decide (RH_TrimReason (th_hit t) <> "") then budget_loop tracked rest blocks tokens maxTokens
      else if decide (TrimSpace (th_block t) = "") then
        budget_loop (alter (trim_hit "low_score" "empty recalled content") i tracked) rest blocks tokens maxTokens
      else if decide (0 < maxTokens /\ maxTokens < Estimate (Joins (blocks ++ [th_block t]) para)) then
        match blocks with
        | [] =>
          let trimmed := renderTrimmedRecalledSegmentBlock (th_block t) maxTokens in
          if decide (TrimSpace trimmed = "")
          then (trim_rest (alter (trim_hit "budget_exceeded" not_injected) i tracked) rest, blocks, tokens)
          else let n := Estimate trimmed in
               (trim_rest (alter (fun t => inject_hit n (trim_hit "budget_exceeded" "trimmed to fit recalled context budget" t)) i tracked) rest,
                blocks ++ [trimmed], tokens + n)
        | _ => (trim_rest (alter (trim_hit "budget_exceeded" not_injected) i tracked) rest, blocks, tokens)
        end
      else
        let n := Estimate (th_block t) in
        budget_loop (alter (inject_hit n) i tracked) rest (blocks ++ [th_block t]) (tokens + n) maxTokens
    end
  end.

Definition applyRecalledPromptBudget (tracked : list trackedRecalledHit) (selected : list nat) (maxTokens : Z) :
    list trackedRecalledHit * string * Z :=
  match selected with
  | [] => (tracked, "", 0)
  | _ =>
    if decide (maxTokens = 0)
    then (foldl (fun l i => alter (trim_hit "budget_exceeded" not_injected) i l) tracked selected, "", 0)
    else let '(tracked, blocks, tokens) := budget_loop tracked selected [] 0 maxTokens in
         (tracked, TrimSpace (Joins blocks para), tokens)
  end.

(** The best hits with all their queries, in the order of the ranking, at most
    [limit] of them; [order] is the order in which the map of the best hits is
    read. *)
Definition rank_hits (st : dedup_state) (order : list (string * nat)) (limit : nat) : list trackedRecalledHit * list nat :=
  let tracked := foldl (fun l '(key, index) => merge_queries st l key index) (dd_tracked st) order in
  let selected := SliceStable (less_at tracked) (snd <$> order) in
  if decide (0 < limit < length selected)%nat
  then (foldl (fun l i => alter (trim_hit "low_score" "dropped after rerank") i l) tracked (drop limit selected),
        take limit selected)
  else (tracked, selected).

Definition buildRecalledReceipt (order : list (string * nat)) (queries : list string) (rawHits : list recalledSearchHit)
    (limit : nat) (maxTokens : Z) (now : Time) : string * option RetrievalReceipt :=
  match rawHits with
  | [] => ("", None)
  | _ =>
    let '(tracked, selected) := rank_hits (dedup (track <$> rawHits)) order limit in
    let '(tracked, prompt, tokens) := applyRecalledPromptBudget tracked selected maxTokens in
    let hits := th_hit <$> tracked in
    (prompt, Some (mkReceipt queries hits (filter (fun h => RH_Injected h = true) hits)
                     (filter (fun h => RH_TrimReason h <> "") hits) tokens now))
  end.

(** ** Recalling *)

Definition recalledPromptGoalQuery (run : option ContextRun) : string :=
  match run with
  | None => ""
  | Some r =>
    let goal := TrimSpace (Rn_Goal r) in
    let target := TrimSpace (Rn_TargetSummary r) in
    let parts := if decide (goal = "") then [] else [goal] in
    let parts := if decide (target = "") then parts
                 else if decide (parts = [] \/ goal <> target) then parts ++ ["target: " +:+ target] else parts in
    TrimSpace (Joins parts nl)
  end.

(** The queries of a recall. *)
Definition recall_queries (messages : list Message) (run : option ContextRun) (summarySource : string) : list string :=
  dedupeStrings [extractLatestUserMessage messages; stripCompactReasonMarkers summarySource; recalledPromptGoalQuery run].

(** What one query finds: nothing when it cannot be embedded or searched. *)
Definition recall_query (Embed : list string -> option (list (list float64)))
    (Search : string -> string -> list float64 -> Z -> option (list SummarySegment)) (sessionID query : string) :
    list SummarySegment :=
  match Embed [query] with
  | Some (v :: _) => default [] (Search sessionID query v 3)
  | _ => []
  end.

(** [Embed] and [Search] are the embedding client and the segment searcher, if
    set; [map_order] is the order in which a map is read; the clock is read for
    the scores and for the receipt. *)
Definition prepareRecalledPrompt (Embed : option (list string -> option (list (list float64))))
    (Search : option (string -> string -> list float64 -> Z -> option (list SummarySegment)))
    (map_order : gmap string nat -> list (string * nat)) (sessionID : string) (messages : list Message) (run : option ContextRun)
    (summarySource : string) (budget : BudgetPlan) (now later : Time) : string * option RetrievalReceipt :=
  match Search, Embed with
  | Some Search, Some Embed =>
    if decide (TrimSpace sessionID = "" \/ extractLatestUserMessage messages = "") then ("", None) else
    match recall_queries messages run summarySource with
    | [] => ("", None)
    | queries =>
      match buildRecalledSearchHits queries (recall_query Embed Search sessionID <$> queries) now with
      | [] => ("", None)
      | rawHits =>
        let rerankLimit := if decide (1 < length queries)%nat then 5%nat else 0%nat in
        buildRecalledReceipt (map_order (dd_best (dedup (track <$> rawHits)))) queries rawHits rerankLimit
          (RecalledContext budget) later
      end
    end
  | _, _ => ("", None)
  end.

(** ** What the receipt says *)

Definition injected (t : trackedRecalledHit) : bool := RH_Injected (th_hit t).
Definition trimmed (t : trackedRecalledHit) : Prop := RH_TrimReason (th_hit t) <> "".

(** A hit that nothing has been decided about. *)
Definition fresh (t : trackedRecalledHit) : Prop := RH_TrimReason (th_hit t) = "" /\ injected t = false.

(** A hit whose fate the receipt tells. *)
Definition settled (t : trackedRecalledHit) : Prop := injected t = true \/ trimmed t.

Definition weight (t : trackedRecalledHit) : Z := if injected t then RH_Tokens (th_hit t) else 0.

(** The sum of a measure of the hits. *)
Fixpoint total (f : trackedRecalledHit -> Z) (l : list trackedRecalledHit) : Z :=
  match l with [] => 0 | t :: rest => f t + total f rest end.

Definition one (t : trackedRecalledHit) : Z := if injected t then 1 else 0.

Lemma total_alter f g i l t : l !! i = Some t -> total f (alter g i l) = total f l - f t + f (g t).
Proof.
  revert i. induction l as [|x l IH]; intros [|i] H; cbn in *; simplify_eq; [lia|]. rewrite (IH i H). lia.
Qed.

Lemma total_alter_same f g i l : (forall t, f (g t) = f t) -> total f (alter g i l) = total f l.
Proof. intros Hg. revert i. induction l as [|x l IH]; intros [|i]; cbn; rewrite ?Hg; [done..|]. by rewrite IH. Qed.

(** *** Duplicates *)

(** After [n] hits: exactly those that are not the best of their segment are
    marked. *)
Record dedup_inv (n : nat) (tracked : list trackedRecalledHit) (best : gmap string nat) : Prop := {
  di_best k i : best !! k = Some i -> (i < n)%nat /\ exists t, tracked !! i = Some t /\ th_key t = k;
  di_hit i t : tracked !! i = Some t ->
    injected t = false /\ (trimmed t <-> (i < n)%nat /\ best !! th_key t <> Some i)
}.

Lemma lookup_alter_inv {A} (f : A -> A) i j (l : list A) u :
  alter f i l !! j = Some u -> (j <> i /\ l !! j = Some u) \/ (j = i /\ exists t, l !! i = Some t /\ u = f t).
Proof.
  destruct (decide (j = i)) as [->|Hne].
  - rewrite list_lookup_alter_eq. intros (t & Ht & ->)%fmap_Some. right. eauto.
  - rewrite list_lookup_alter_ne by done. auto.
Qed.

Lemma alter_lookup_Some {A} (f : A -> A) i (l : list A) t : l !! i = Some t -> alter f i l !! i = Some (f t).
Proof. intros H. by rewrite list_lookup_alter_eq, H. Qed.

(** The first hit of a segment. *)
Lemma dedup_new n tracked best t :
  dedup_inv n tracked best -> tracked !! n = Some t -> best !! th_key t = None ->
  dedup_inv (S n) tracked (<[th_key t := n]> best).
Proof.
  intros [Hb Hh] Ht Hnone. constructor.
  - intros k i [[<- <-]|[Hk Hki]]%lookup_insert_Some; [split; [lia|eauto]|]. destruct (Hb k i Hki) as (H1 & H2). split; [lia|done].
  - intros i u Hu. destruct (Hh i u Hu) as [H1 H2]. split; [done|]. rewrite H2. destruct (decide (i = n)) as [->|Hi].
    + simplify_eq. rewrite lookup_insert_eq. naive_solver lia.
    + destruct (decide (th_key u = th_key t)) as [Ek|Ek]; [|rewrite lookup_insert_ne by done; naive_solver lia].
      rewrite Ek, lookup_insert_eq, Hnone. naive_solver lia.
Qed.

(** A better hit of a segment. *)
Lemma dedup_beat n tracked best t b note :
  dedup_inv n tracked best -> tracked !! n = Some t -> best !! th_key t = Some b ->
  dedup_inv (S n) (alter (trim_hit "duplicate" note) b tracked) (<[th_key t := n]> best).
Proof.
  intros [Hb Hh] Ht Hbest. destruct (Hb _ _ Hbest) as (Hlt & tb & Htb & Hkey). constructor.
  - intros k i [[<- <-]|[Hk Hki]]%lookup_insert_Some.
    + split; [lia|]. exists t. split; [|done]. by rewrite list_lookup_alter_ne by lia.
    + destruct (Hb k i Hki) as (H1 & u & H2 & H3). split; [lia|]. exists u. split; [|done].
      rewrite list_lookup_alter_ne; [done|]. intros ->. simplify_eq.
  - intros i u [[Hi Hu]|[-> (u' & Hu & ->)]]%lookup_alter_inv.
    + destruct (Hh i u Hu) as [H1 H2]. split; [done|]. rewrite H2. destruct (decide (i = n)) as [->|Hin].
      * simplify_eq. rewrite lookup_insert_eq. naive_solver lia.
      * destruct (decide (th_key u = th_key t)) as [Ek|Ek]; [|rewrite lookup_insert_ne by done; naive_solver lia].
        rewrite Ek, lookup_insert_eq, Hbest. naive_solver lia.
    + destruct (Hh b u' Hu) as [H1 _]. split; [done|]. cbn [trim_hit with_hit th_key]. rewrite Htb in Hu. simplify_eq.
      rewrite Hkey, lookup_insert_eq. split; [intros _|done]. split; [lia|]. intros [=]. lia.
Qed.

(** A hit that is not better. *)
Lemma dedup_lose n tracked best t b note :
  dedup_inv n tracked best -> tracked !! n = Some t -> best !! th_key t = Some b ->
  dedup_inv (S n) (alter (trim_hit "duplicate" note) n tracked) best.
Proof.
  intros [Hb Hh] Ht Hbest. constructor.
  - intros k i Hki. destruct (Hb k i Hki) as (H1 & u & H2 & H3). split; [lia|]. exists u.
    by rewrite list_lookup_alter_ne by lia.
  - intros i u [[Hi Hu]|[-> (u' & Hu & ->)]]%lookup_alter_inv.
    + destruct (Hh i u Hu) as [H1 H2]. split; [done|]. rewrite H2. naive_solver lia.
    + destruct (Hh n u' Hu) as [H1 _]. split; [done|]. cbn [trim_hit with_hit th_key]. simplify_eq.
      split; [intros _|done]. split; [lia|]. intros E0. destruct (Hb _ _ E0). lia.
Qed.

Lemma dedup_step_inv n st :
  (n < length (dd_tracked st))%nat -> dedup_inv n (dd_tracked st) (dd_best st) ->
  let st' := dedup_step st n in
  dedup_inv (S n) (dd_tracked st') (dd_best st') /\ length (dd_tracked st') = length (dd_tracked st).
Proof.
  intros Hn Hinv. unfold dedup_step. cbv zeta.
  destruct (dd_tracked st !! n) as [t|] eqn:Et; [|apply lookup_ge_None in Et; lia].
  destruct (dd_best st !! th_key t) as [best|] eqn:Eb; [|cbn; split; [by apply dedup_new|done]].
  destruct (di_best _ _ _ Hinv _ _ Eb) as (_ & b & Hbest & _). rewrite Hbest.
  destruct (beats t b); cbn; rewrite length_alter; (split; [|done]); [by apply dedup_beat|by eapply dedup_lose].
Qed.

Lemma dedup_spec raw :
  let st := dedup (track <$> raw) in
  dedup_inv (length raw) (dd_tracked st) (dd_best st) /\ length (dd_tracked st) = length raw.
Proof.
  cbv zeta. unfold dedup. rewrite length_fmap. set (st0 := mkDedup (track <$> raw) ∅ ∅).
  assert (forall n, (n <= length raw)%nat ->
    dedup_inv n (dd_tracked (foldl dedup_step st0 (seq 0 n))) (dd_best (foldl dedup_step st0 (seq 0 n)))
    /\ length (dd_tracked (foldl dedup_step st0 (seq 0 n))) = length raw) as H; [|by apply H].
  induction n as [|n IH]; intros Hn.
  - cbn. rewrite length_fmap. split; [|done]. constructor; [done|].
    intros i t Ht. apply list_lookup_fmap_Some in Ht as (x & -> & _). cbn. split; [done|].
    unfold trimmed. cbn. naive_solver lia.
  - destruct IH as [IH1 IH2]; [lia|]. rewrite seq_S, foldl_snoc. cbn [plus].
    destruct (dedup_step_inv n (foldl dedup_step st0 (seq 0 n))) as [H1 H2]; [lia|done|]. split; [done|lia].
Qed.

(** *** The hits that are still open *)

(** The hits at the positions [open] wait for a decision, the others are marked;
    none is in the prompt yet. *)
Record open_hits (tracked : list trackedRecalledHit) (open : list nat) : Prop := {
  oh_NoDup : NoDup open;
  oh_range i : i ∈ open -> (i < length tracked)%nat;
  oh_hit i t : tracked !! i = Some t -> injected t = false /\ (trimmed t <-> i ∉ open)
}.

Definition same_fate (t t' : trackedRecalledHit) : Prop :=
  injected t' = injected t /\ RH_TrimReason (th_hit t') = RH_TrimReason (th_hit t).

Lemma merge_queries_fate st l key index j t' :
  merge_queries st l key index !! j = Some t' -> exists t, l !! j = Some t /\ same_fate t t'.
Proof.
  unfold merge_queries. intros [[_ H]|[-> (t & Ht & ->)]]%lookup_alter_inv; [by exists t'|by exists t].
Qed.

Lemma merge_all_fate st order l j t' :
  foldl (fun l '(key, index) => merge_queries st l key index) l order !! j = Some t' ->
  exists t, l !! j = Some t /\ same_fate t t'.
Proof.
  revert l. induction order as [|[k i] order IH]; intros l; cbn; [by exists t'|].
  intros (t & Ht & [F1 F2])%IH. apply merge_queries_fate in Ht as (u & Hu & [G1 G2]).
  exists u. split; [done|]. split; congruence.
Qed.

Lemma merge_all_length st order l :
  length (foldl (fun l '(key, index) => merge_queries st l key index) l order) = length l.
Proof.
  revert l. induction order as [|[k i] order IH]; intros l; cbn; [done|]. rewrite IH. apply length_alter.
Qed.

Lemma dedup_open n tracked best order :
  dedup_inv n tracked best -> length tracked = n -> order ≡ₚ map_to_list best -> open_hits tracked (snd <$> order).
Proof.
  intros [Hb Hh] Hlen Hp.
  assert (forall i, i ∈ snd <$> order <-> exists k, best !! k = Some i) as Hin.
  { intros i. rewrite Hp, list_elem_of_fmap. split.
    - intros ([k j] & -> & Hk%elem_of_map_to_list). by exists k.
    - intros [k Hk]. exists (k, i). split; [done|]. by apply elem_of_map_to_list. }
  constructor.
  - rewrite Hp. apply NoDup_fmap_2_strong; [|apply NoDup_map_to_list].
    intros [k1 i] [k2 j] H1%elem_of_map_to_list H2%elem_of_map_to_list E0. cbn in E0. subst j.
    destruct (Hb _ _ H1) as (_ & t1 & T1 & <-), (Hb _ _ H2) as (_ & t2 & T2 & <-).
    rewrite T1 in T2. by injection T2 as ->.
  - intros i [k Hk]%Hin. destruct (Hb k i Hk). lia.
  - intros i t Ht. destruct (Hh i t Ht) as [H1 H2]. split; [done|]. rewrite H2, Hin. pose proof (lookup_lt_Some _ _ _ Ht) as Hlt. split.
    + intros [_ H] [k Hk]. destruct (Hb k i Hk) as (_ & t' & T & <-). apply H. rewrite Ht in T. by injection T as ->.
    + intros H. split; [lia|]. intros E0. apply H. by exists (th_key t).
Qed.

Lemma open_fate tracked tracked' open :
  length tracked' = length tracked -> (forall j t', tracked' !! j = Some t' -> exists t, tracked !! j = Some t /\ same_fate t t') ->
  open_hits tracked open -> open_hits tracked' open.
Proof.
  intros Hlen Hf [H1 H2 H3]. constructor; [done|by rewrite Hlen|].
  intros i t' Ht'. destruct (Hf i t' Ht') as (t & Ht & [F1 F2]). unfold trimmed. rewrite F1, F2. by apply H3.
Qed.

Lemma open_Permutation tracked o o' : o ≡ₚ o' -> open_hits tracked o -> open_hits tracked o'.
Proof.
  intros Hp [H1 H2 H3]. constructor; [by rewrite <- Hp|intros i; rewrite <- Hp; apply H2|].
  intros i t Ht. rewrite <- Hp. by apply H3.
Qed.

(** Marking the last open hits. *)
Lemma open_trim tracked open i reason note :
  reason <> "" -> open_hits tracked (i :: open) -> open_hits (alter (trim_hit reason note) i tracked) open.
Proof.
  intros Hr [H1 H2 H3]. apply NoDup_cons in H1 as [Hi H1]. constructor; [done| |].
  - intros j Hj. rewrite length_alter. apply H2. by right.
  - intros j u [[Hne Hu]|[-> (t & Ht & ->)]]%lookup_alter_inv.
    + destruct (H3 j u Hu) as [G1 G2]. split; [done|]. rewrite G2, elem_of_cons. naive_solver.
    + destruct (H3 i t Ht) as [G1 _]. split; [done|]. unfold trimmed. cbn. naive_solver.
Qed.

Lemma open_trim_all tracked open rest reason note :
  reason <> "" -> open_hits tracked (open ++ rest) ->
  open_hits (foldl (fun l i => alter (trim_hit reason note) i l) tracked rest) open.
Proof.
  intros Hr. revert tracked. induction rest as [|i rest IH]; intros tracked Ho; cbn; [by rewrite app_nil_r in Ho|].
  apply IH. eapply open_trim; [done|]. eapply open_Permutation; [|exact Ho]. by rewrite Permutation_middle.
Qed.

(** *** The prompt is in the form the blocks are in *)

(** The last line of a text. *)
Lemma Joins_last l x : exists pre, Joins (l ++ [x]) nl = pre +:+ x.
Proof.
  induction l as [|y l [pre IH]]; [by exists ""|]. unfold Joins in *. cbn [app]. destruct (l ++ [x]) as [|z k] eqn:E0; [by destruct l|].
  exists (y +:+ nl +:+ pre). change (String.concat nl (y :: z :: k)) with (y +:+ nl +:+ String.concat nl (z :: k)).
  rewrite IH. by rewrite !string_app_assoc.
Qed.

Lemma block_enclosed s : renderRecalledSegmentBlock s <> "" -> enclosed (renderRecalledSegmentBlock s).
Proof.
  unfold renderRecalledSegmentBlock. case_decide; [done|]. intros _.
  set (first := "<recalled_context source=" +:+ _). set (second := "Summary: " +:+ _).
  rewrite !app_assoc. set (l := ((_ ++ optional_line _ _) ++ optional_line _ _) ++ optional_line _ _).
  destruct (Joins_last l "</recalled_context>") as [pre E0].
  assert (exists r, Joins (l ++ ["</recalled_context>"]) nl = String "<"%char r) as [r Er].
  { unfold l, first. cbn [app]. unfold Joins. cbn [String.concat String.append]. eauto. }
  rewrite E0 in Er. destruct pre as [|a pre].
  - exists "/recalled_context". by rewrite E0.
  - cbn in Er. injection Er as E1 _. exists (pre +:+ "</recalled_context"). rewrite E0, E1.
    change (String "<"%char (pre +:+ "</recalled_context>") = String "<"%char ((pre +:+ "</recalled_context") +:+ ">")).
    by rewrite string_app_assoc.
Qed.

(** *** What the budget does *)

(** The hits at the positions [open] are fresh, the others settled. *)
Record mid (tracked : list trackedRecalledHit) (open : list nat) : Prop := {
  md_NoDup : NoDup open;
  md_range i : i ∈ open -> (i < length tracked)%nat;
  md_open i t : tracked !! i = Some t -> i ∈ open -> fresh t;
  md_done i t : tracked !! i = Some t -> i ∉ open -> settled t
}.

Lemma open_mid tracked open : open_hits tracked open -> mid tracked open.
Proof.
  intros [H1 H2 H3]. constructor; [done|done|..]; intros i t Ht Hi; destruct (H3 i t Ht) as [G1 G2].
  - split; [|done]. unfold trimmed in G2. destruct (decide (RH_TrimReason (th_hit t) = "")) as [|Hn]; [done|]. tauto.
  - right. by apply G2.
Qed.

Lemma mid_settle f i open tracked :
  mid tracked (i :: open) -> (forall t, fresh t -> settled (f t)) -> mid (alter f i tracked) open.
Proof.
  intros [[Hi H1]%NoDup_cons H2 H3 H4] Hf. constructor; [done| |..].
  - intros j Hj. rewrite length_alter. apply H2. by right.
  - intros j u [[Hne Hu]|[-> _]]%lookup_alter_inv Hj; [|done]. apply (H3 j u Hu). by right.
  - intros j u [[Hne Hu]|[-> (t & Ht & ->)]]%lookup_alter_inv Hj.
    + apply (H4 j u Hu). intros [->|?]%elem_of_cons; done.
    + apply Hf, (H3 i t Ht). by left.
Qed.

Lemma trim_settled reason note t : reason <> "" -> settled (trim_hit reason note t).
Proof. by right. Qed.

Lemma trim_weight reason note t : weight (trim_hit reason note t) = weight t.
Proof. done. Qed.

(** What stays the same of a hit. *)
Definition identity (t : trackedRecalledHit) : string * string * string := (th_key t, th_block t, RH_ID (th_hit t)).

Lemma fmap_alter_same {A B} (g : A -> B) f i (l : list A) : (forall t, g (f t) = g t) -> g <$> alter f i l = g <$> l.
Proof. intros Hf. revert i. induction l as [|x l IH]; intros [|i]; cbn; [done..|by rewrite Hf|]. f_equal. apply IH. Qed.

(** What has become of the hits of which those at [selected] were open, with [d]
    tokens more in the prompt. *)
Record outcome (tracked : list trackedRecalledHit) (selected : list nat) (tracked' : list trackedRecalledHit) (d : Z) : Prop := {
  oc_settled : Forall settled tracked';
  oc_same : identity <$> tracked' = identity <$> tracked;
  oc_tokens : total weight tracked' = total weight tracked + d;
  oc_count : total one tracked' <= total one tracked + Z.of_nat (length selected);
  oc_where i t' : tracked' !! i = Some t' -> injected t' = true ->
    i ∈ selected \/ exists t, tracked !! i = Some t /\ injected t = true
}.

Lemma outcome_nil tracked : mid tracked [] -> outcome tracked [] tracked 0.
Proof.
  intros [_ _ _ H]. constructor; [|done|lia|lia|eauto].
  apply Forall_lookup. intros i t Ht. apply (H i t Ht), not_elem_of_nil.
Qed.

Lemma outcome_step f i rest tracked tracked' d d' t :
  tracked !! i = Some t -> (forall u, identity (f u) = identity u) -> weight (f t) = weight t + d' ->
  outcome (alter f i tracked) rest tracked' d -> outcome tracked (i :: rest) tracked' (d + d').
Proof.
  intros Ht Hf Hw [H1 H2 H3 H4 H5]. constructor; [done|..].
  - by rewrite H2, fmap_alter_same.
  - rewrite H3, (total_alter weight f i tracked t Ht). lia.
  - rewrite (total_alter one f i tracked t Ht) in H4. cbn [length]. unfold one in H4 at 3 4.
    destruct (injected (f t)), (injected t); lia.
  - intros j u Hu Hin. destruct (H5 j u Hu Hin) as [Hj|(v & Hv & Hin')]; [left; by right|].
    apply lookup_alter_inv in Hv as [[_ Hv]|[-> _]]; [eauto|left; by left].
Qed.

Lemma foldl_outcome f rest tracked :
  (forall u, identity (f u) = identity u) -> (forall u, weight (f u) = weight u) -> (forall u, fresh u -> settled (f u)) ->
  mid tracked rest -> outcome tracked rest (foldl (fun l i => alter f i l) tracked rest) 0.
Proof.
  intros Hid Hw Hs. revert tracked. induction rest as [|i rest IH]; intros tracked Hm; [by apply outcome_nil|].
  destruct (lookup_lt_is_Some_2 tracked i) as [t Ht]; [apply Hm; by left|]. cbn [foldl].
  apply (outcome_step f i rest tracked _ 0 0 t); [done|done|rewrite Hw; lia|]. apply IH. by apply mid_settle.
Qed.

Lemma trim_rest_outcome rest tracked : mid tracked rest -> outcome tracked rest (trim_rest tracked rest) 0.
Proof.
  apply foldl_outcome.
  - intros u. by case_decide.
  - intros u. case_decide; by rewrite ?trim_weight.
  - intros u [-> _]. by apply trim_settled.
Qed.

Lemma budget_outcome selected tracked blocks tokens maxTokens tracked' blocks' tokens' :
  mid tracked selected -> budget_loop tracked selected blocks tokens maxTokens = (tracked', blocks', tokens') ->
  outcome tracked selected tracked' (tokens' - tokens).
Proof.
  revert tracked blocks tokens. induction selected as [|i rest IH]; intros tracked blocks tokens Hm; cbn [budget_loop].
  { intros [= <- <- <-]. rewrite Z.sub_diag. by apply outcome_nil. }
  destruct (lookup_lt_is_Some_2 tracked i) as [t Ht]; [apply Hm; by left|]. rewrite Ht.
  destruct (md_open _ _ Hm i t Ht) as [Hr Hi]; [by left|]. rewrite decide_False by (intros Hc; by apply Hc).
  assert (forall l reason note, reason <> "" -> outcome (alter (trim_hit reason note) i tracked) rest l (tokens' - tokens) ->
    outcome tracked (i :: rest) l (tokens' - tokens)) as Htrim.
  { intros l reason note Hne Ho. rewrite <- Z.add_0_r. apply (outcome_step (trim_hit reason note) i rest tracked l _ 0 t); [done..|rewrite trim_weight; lia|done]. }
  assert (forall reason note, reason <> "" -> mid (alter (trim_hit reason note) i tracked) rest) as Hmid.
  { intros reason note Hne. apply mid_settle; [done|]. intros u _. by apply trim_settled. }
  case_decide as Hb.
  { intros Hl. apply (Htrim _ "low_score" "empty recalled content"); [done|]. eapply IH; [by apply Hmid|exact Hl]. }
  case_decide as Hf.
  - destruct blocks as [|b0 bs].
    + case_decide as Hc; intros [= <- <- <-].
      * apply (Htrim _ "budget_exceeded" not_injected); [done|]. rewrite Z.sub_diag. apply trim_rest_outcome. by apply Hmid.
      * set (f := fun u => inject_hit _ (trim_hit _ _ u)).
        match goal with |- outcome _ _ _ ?z => replace z with (0 + (z - 0)) by lia end.
        apply (outcome_step f i rest tracked _ 0 _ t); [done|done| |apply trim_rest_outcome, mid_settle; [done|]].
        -- unfold weight. rewrite Hi. cbn. lia.
        -- intros u _. by left.
    + intros [= <- <- <-]. apply (Htrim _ "budget_exceeded" not_injected); [done|]. rewrite Z.sub_diag. apply trim_rest_outcome. by apply Hmid.
  - intros Hl. replace (tokens' - tokens) with (tokens' - (tokens + Estimate (th_block t)) + Estimate (th_block t)) by lia.
    eapply (outcome_step (inject_hit (Estimate (th_block t))) i rest tracked _ _ _ t); [done|done| |].
    + unfold weight. rewrite Hi. cbn. lia.
    + eapply IH; [|exact Hl]. apply mid_settle; [done|]. intros u _. by left.
Qed.

(** *** What the prompt holds *)

Definition well_blocked (l : list trackedRecalledHit) : Prop := Forall (fun t => th_block t <> "" -> enclosed (th_block t)) l.

(** The blocks of a prompt: none, as many as fit, or the first one cut. *)
Definition prompt_fits (l : list trackedRecalledHit) (maxTokens : Z) (blocks : list string) : Prop :=
  (Forall enclosed blocks /\ (blocks = [] \/ Estimate (Joins blocks para) <= maxTokens))
  \/ exists t, t ∈ l /\ blocks = [renderTrimmedRecalledSegmentBlock (th_block t) maxTokens].

Lemma well_blocked_same l l' : identity <$> l' = identity <$> l -> well_blocked l -> well_blocked l'.
Proof.
  intros E0. unfold well_blocked. rewrite !Forall_lookup. intros H i t' Ht'.
  assert (exists t, l !! i = Some t /\ identity t' = identity t) as (t & Ht & [= _ -> _]); [|by apply (H i t)].
  assert ((identity <$> l) !! i = Some (identity t')) as (t & Hi & Ht)%list_lookup_fmap_Some
    by (by rewrite <- E0, list_lookup_fmap, Ht'). by exists t.
Qed.

Lemma prompt_fits_same l l' maxTokens blocks :
  identity <$> l' = identity <$> l -> prompt_fits l' maxTokens blocks -> prompt_fits l maxTokens blocks.
Proof.
  intros E0 [H|(t' & Ht' & Hb)]; [by left|]. right. apply (list_elem_of_fmap_2 identity) in Ht'. rewrite E0 in Ht'.
  apply list_elem_of_fmap in Ht' as (t & [= _ Hk _] & Ht). exists t. by rewrite <- Hk.
Qed.

Lemma budget_blocks selected tracked blocks tokens maxTokens tracked' blocks' tokens' :
  0 < maxTokens -> well_blocked tracked -> Forall enclosed blocks -> (blocks = [] \/ Estimate (Joins blocks para) <= maxTokens) ->
  budget_loop tracked selected blocks tokens maxTokens = (tracked', blocks', tokens') ->
  prompt_fits tracked maxTokens blocks'.
Proof.
  intros Hpos. revert tracked blocks tokens. induction selected as [|i rest IH]; intros tracked blocks tokens Hw He Hfit; cbn [budget_loop].
  { intros [= <- <- <-]. by left. }
  destruct (tracked !! i) as [t|] eqn:Et; [|intros [= <- <- <-]; by left].
  assert (forall f, (forall u, identity (f u) = identity u) -> well_blocked (alter f i tracked)) as Hsame.
  { intros f Hf. eapply well_blocked_same, Hw. by apply fmap_alter_same. }
  case_decide; [by apply IH|]. case_decide as Hb.
  { intros Hl%IH; [|by apply (Hsame (trim_hit _ _))|done|done]. eapply prompt_fits_same, Hl. by apply fmap_alter_same. }
  case_decide as Hf.
  - destruct blocks; [case_decide|]; intros [= <- <- <-]; [by left| |by left].
    right. exists t. split; [by eapply list_elem_of_lookup_2|done].
  - intros Hl%IH; [eapply prompt_fits_same, Hl; by apply fmap_alter_same|by apply (Hsame (inject_hit _))| |].
    + apply Forall_app. split; [done|]. constructor; [|done]. eapply Forall_lookup_1 in Hw; [|exact Et].
      apply Hw. by intros E0; rewrite E0 in Hb.
    + right. lia.
Qed.

(** *** Which hits the prompt shows *)

(** The hit at a position is in the prompt; its block. *)
Definition inj (l : list trackedRecalledHit) (i : nat) : Prop := exists t, l !! i = Some t /\ injected t = true.
Definition block_at (l : list trackedRecalledHit) (i : nat) : string := from_option th_block "" (l !! i).

Lemma inj_alter f i l j : (forall t, injected (f t) = injected t) -> inj (alter f i l) j <-> inj l j.
Proof.
  intros Hf. unfold inj. destruct (decide (i = j)) as [->|Hne]; [rewrite list_lookup_alter_eq|by rewrite list_lookup_alter_ne].
  destruct (l !! j) as [t|]; cbn; [|done]. split; intros (u & [= <-] & Hu); eexists; (split; [done|]); by rewrite ?Hf in *.
Qed.

Lemma inj_shown f i l j : is_Some (l !! i) -> (forall t, injected (f t) = true) -> inj (alter f i l) j <-> j = i \/ inj l j.
Proof.
  intros [t Ht] Hf. unfold inj. destruct (decide (i = j)) as [->|Hne].
  - rewrite list_lookup_alter_eq, Ht. cbn. split; [by left|]. intros _. by exists (f t).
  - rewrite list_lookup_alter_ne by done. naive_solver.
Qed.

Lemma block_alter f i l j : (forall t, th_block (f t) = th_block t) -> block_at (alter f i l) j = block_at l j.
Proof.
  intros Hf. unfold block_at. destruct (decide (i = j)) as [->|Hne]; [rewrite list_lookup_alter_eq|by rewrite list_lookup_alter_ne].
  destruct (l !! j); cbn; [apply Hf|done].
Qed.

Lemma inj_alter_all f rest l j : (forall t, injected (f t) = injected t) -> inj (foldl (fun l i => alter f i l) l rest) j <-> inj l j.
Proof. intros Hf. revert l. induction rest as [|i rest IH]; intros l; cbn; [done|]. by rewrite IH, inj_alter. Qed.

Lemma inj_trim_rest l rest j : inj (trim_rest l rest) j <-> inj l j.
Proof. unfold trim_rest. apply inj_alter_all. intros t. by case_decide. Qed.

(** The blocks that the loop adds are those of the hits it puts into the prompt, in
    order, or the cut block of the first one. *)
Lemma budget_shown selected tracked blocks tokens maxTokens tracked' blocks' tokens' :
  (forall i, i ∈ selected -> is_Some (tracked !! i)) ->
  budget_loop tracked selected blocks tokens maxTokens = (tracked', blocks', tokens') ->
  exists shown, shown `sublist_of` selected /\ (forall j, inj tracked' j <-> j ∈ shown \/ inj tracked j)
    /\ (blocks' = blocks ++ (block_at tracked <$> shown)
        \/ exists i, shown = [i] /\ blocks = [] /\ blocks' = [renderTrimmedRecalledSegmentBlock (block_at tracked i) maxTokens]).
Proof.
  revert tracked blocks tokens. induction selected as [|i rest IH]; intros tracked blocks tokens Hin; cbn [budget_loop].
  { intros [= <- <- <-]. exists []. split_and!; [done|set_solver|left; by rewrite app_nil_r]. }
  destruct (Hin i) as [t Ht]; [by left|]. rewrite Ht.
  assert (forall f k, k ∈ rest -> is_Some (alter f i tracked !! k)) as Hrest.
  { intros f k Hk. destruct (Hin k) as [u Hu]; [by right|]. destruct (decide (i = k)) as [->|Hne];
      [rewrite list_lookup_alter_eq, Ht; by eexists|rewrite list_lookup_alter_ne by done; by eexists]. }
  assert (forall l, exists shown, shown `sublist_of` i :: rest /\ (forall j, inj (trim_rest (alter (trim_hit "budget_exceeded" not_injected) i tracked) rest) j
    <-> j ∈ shown \/ inj tracked j) /\ (l = l ++ (block_at tracked <$> shown)
        \/ exists i, shown = [i] /\ l = [] /\ l = [renderTrimmedRecalledSegmentBlock (block_at tracked i) maxTokens])) as Hstop.
  { intros l. exists []. split_and!; [apply sublist_nil_l| |left; by rewrite app_nil_r].
    intros j. rewrite inj_trim_rest, inj_alter by done. set_solver. }
  assert (block_at tracked i = th_block t) as Hblk by (unfold block_at; by rewrite Ht).
  case_decide.
  { intros (shown & S1 & S2 & S3)%IH; [|intros k Hk; apply Hin; by right]. exists shown. split_and!; [by apply sublist_cons|done|done]. }
  case_decide.
  { intros (shown & S1 & S2 & S3)%IH; [|by apply Hrest]. exists shown. split; [by apply sublist_cons|]. split.
    - intros j. rewrite S2, inj_alter by done. done.
    - destruct S3 as [->|(k & -> & -> & ->)]; [left; f_equal; apply list_fmap_ext; intros; by apply block_alter|].
      right. exists k. by rewrite block_alter. }
  case_decide.
  - destruct blocks as [|b bs]; [case_decide|]; intros [= <- <- <-]; [apply Hstop| |apply Hstop].
    exists [i]. split; [apply sublist_skip, sublist_nil_l|]. split; [|right; exists i; by rewrite Hblk].
    intros j. rewrite inj_trim_rest, inj_shown by (by eexists || done). set_solver.
  - intros (shown & S1 & S2 & S3)%IH; [|by apply Hrest]. exists (i :: shown). split; [by apply sublist_skip|]. split.
    + intros j. rewrite S2, inj_shown by (by eexists || done). set_solver.
    + left. destruct S3 as [->|(k & _ & Hbad & _)]; [|by destruct blocks].
      rewrite <- app_assoc. cbn. rewrite Hblk. do 2 f_equal. apply list_fmap_ext. intros. by apply block_alter.
Qed.

Lemma apply_budget_shown tracked selected maxTokens tracked' prompt tokens :
  (forall i, i ∈ selected -> is_Some (tracked !! i)) ->
  applyRecalledPromptBudget tracked selected maxTokens = (tracked', prompt, tokens) ->
  exists shown, shown `sublist_of` selected /\ (forall j, inj tracked' j <-> j ∈ shown \/ inj tracked j)
    /\ (prompt = TrimSpace (Joins (block_at tracked <$> shown) para)
        \/ exists i, shown = [i] /\ prompt = TrimSpace (renderTrimmedRecalledSegmentBlock (block_at tracked i) maxTokens)).
Proof.
  intros Hin. unfold applyRecalledPromptBudget. destruct selected as [|i rest].
  { intros [= <- <- <-]. exists []. split_and!; [done|set_solver|by left]. }
  revert Hin. generalize (i :: rest) as selected. intros selected Hin. case_decide.
  - intros [= <- <- <-]. exists []. split_and!; [apply sublist_nil_l| |by left].
    intros j. rewrite inj_alter_all by done. set_solver.
  - destruct (budget_loop tracked selected [] 0 maxTokens) as [[l blocks] n] eqn:El. intros [= <- <- <-].
    destruct (budget_shown _ _ _ _ _ _ _ _ Hin El) as (shown & H1 & H2 & H3). exists shown. split_and!; [done|done|].
    destruct H3 as [->|(k & -> & _ & ->)]; [by left|right; by exists k].
Qed.

Lemma track_well_blocked raw : well_blocked (track <$> raw).
Proof. apply Forall_fmap, Forall_true. intros r. cbn. apply block_enclosed. Qed.

Lemma para_prompt l maxTokens blocks :
  prompt_fits l maxTokens blocks ->
  TrimSpace (Joins blocks para) = "" \/ Estimate (TrimSpace (Joins blocks para)) <= maxTokens
  \/ exists t, t ∈ l /\ TrimSpace (Joins blocks para) = TrimSpace (renderTrimmedRecalledSegmentBlock (th_block t) maxTokens).
Proof.
  intros [[He [->|Hfit]]|(t & Ht & ->)]; [by left| |right; right; by exists t].
  destruct blocks as [|b bs]; [by left|]. right; left. by rewrite (enclosed_trimmed _ (Joins_enclosed (b :: bs) para ltac:(done) He)).
Qed.

(** *** The whole receipt *)

Lemma foldl_same {B C} (g : trackedRecalledHit -> C) (step : list trackedRecalledHit -> B -> list trackedRecalledHit) bs l :
  (forall l b, g <$> step l b = g <$> l) -> g <$> foldl step l bs = g <$> l.
Proof. intros Hs. revert l. induction bs as [|b bs IH]; intros l; cbn; [done|]. by rewrite IH, Hs. Qed.

(** What marking a hit as a duplicate does not change. *)
Lemma dedup_keeps {C} (g : trackedRecalledHit -> C) raw :
  (forall reason note t, g (trim_hit reason note t) = g t) ->
  g <$> dd_tracked (dedup (track <$> raw)) = g <$> (track <$> raw).
Proof.
  intros Hg. unfold dedup. generalize (seq 0 (length (track <$> raw))) as ixs.
  assert (forall ixs st, g <$> dd_tracked (foldl dedup_step st ixs) = g <$> dd_tracked st) as H; [|intros ixs; apply H].
  induction ixs as [|i ixs IH]; intros st; cbn [foldl]; [done|]. rewrite IH. unfold dedup_step. cbv zeta.
  repeat case_match; cbn [dd_tracked]; try done; by apply fmap_alter_same.
Qed.

(** The hits the budget is applied to. *)
Lemma rank_hits_spec raw order limit tracked selected :
  order ≡ₚ map_to_list (dd_best (dedup (track <$> raw))) -> rank_hits (dedup (track <$> raw)) order limit = (tracked, selected) ->
  open_hits tracked selected /\ identity <$> tracked = identity <$> (track <$> raw)
  /\ selected ⊆ snd <$> order /\ ((0 < limit)%nat -> (length selected <= limit)%nat).
Proof.
  intros Hp. destruct (dedup_spec raw) as [Hinv Hlen]. pose proof (dedup_open _ _ _ _ Hinv Hlen Hp) as Ho.
  unfold rank_hits. set (st := dedup _) in *. set (merged := foldl _ _ order). set (sorted := SliceStable _ _).
  assert (identity <$> merged = identity <$> (track <$> raw)) as Hid.
  { unfold merged. rewrite foldl_same; [by apply dedup_keeps|]. intros l [k i]. by apply fmap_alter_same. }
  apply (open_fate _ merged) in Ho; [|apply merge_all_length|by intros j t'; apply merge_all_fate].
  assert (sorted ≡ₚ snd <$> order) as Hs by apply SliceStable_perm.
  apply (open_Permutation _ _ sorted) in Ho; [|done]. case_decide as Hl; intros [= <- <-].
  - split_and!.
    + apply open_trim_all; [done|]. by rewrite take_drop.
    + rewrite foldl_same; [done|]. intros l i. by apply fmap_alter_same.
    + intros i Hi. rewrite <- Hs. by eapply elem_of_submseteq, sublist_submseteq, sublist_take.
    + intros _. rewrite length_take. lia.
  - split_and!; [done|done|intros i; by rewrite Hs|lia].
Qed.

Lemma total_weight l : total weight l = foldr Z.add 0 (RH_Tokens <$> filter (fun h => RH_Injected h = true) (th_hit <$> l)).
Proof.
  induction l as [|t l IH]; [done|]. cbn [fmap list_fmap total]. rewrite filter_cons, IH. unfold weight, injected.
  destruct (RH_Injected (th_hit t)); [by rewrite decide_True|by rewrite decide_False].
Qed.

Lemma total_one l : total one l = Z.of_nat (length (filter (fun h => RH_Injected h = true) (th_hit <$> l))).
Proof.
  induction l as [|t l IH]; [done|]. cbn [fmap list_fmap total]. rewrite filter_cons, IH. unfold one, injected.
  destruct (RH_Injected (th_hit t)); [rewrite decide_True by done; cbn; lia|by rewrite decide_False].
Qed.

Lemma none_total l : (forall i t, l !! i = Some t -> injected t = false) -> total weight l = 0 /\ total one l = 0.
Proof.
  intros Hl. assert (Forall (fun t => injected t = false) l) as H by (apply Forall_lookup; eauto). clear Hl.
  induction H as [|t l Ht _ [IH1 IH2]]; [done|]. cbn. unfold weight at 1, one at 1. rewrite Ht, IH1, IH2. done.
Qed.

(** What the budget leaves of the ranked hits. *)
Lemma apply_budget_outcome tracked selected maxTokens tracked' prompt tokens :
  mid tracked selected -> well_blocked tracked -> applyRecalledPromptBudget tracked selected maxTokens = (tracked', prompt, tokens) ->
  outcome tracked selected tracked' tokens
  /\ (maxTokens = 0 -> prompt = "" /\ tokens = 0 /\ total one tracked' = total one tracked)
  /\ (0 < maxTokens -> prompt = "" \/ Estimate prompt <= maxTokens
      \/ exists t, t ∈ tracked /\ prompt = TrimSpace (renderTrimmedRecalledSegmentBlock (th_block t) maxTokens)).
Proof.
  intros Hm Hw. unfold applyRecalledPromptBudget. destruct selected as [|i rest].
  { intros [= <- <- <-]. split; [by apply outcome_nil|auto]. }
  revert Hm. generalize (i :: rest) as selected. intros selected Hm. case_decide as H0.
  - intros [= <- <- <-]. split_and!; [|intros _; split_and!; [done..|]|lia].
    + apply foldl_outcome; [done|done|intros u _; by apply trim_settled|done].
    + clear. revert tracked. induction selected as [|i selected IH]; intros tracked; cbn; [done|].
      rewrite IH. by apply total_alter_same.
  - destruct (budget_loop tracked selected [] 0 maxTokens) as [[l blocks] n] eqn:El. intros [= <- <- <-].
    split_and!; [|done|].
    + replace n with (n - 0) by lia. by eapply budget_outcome.
    + intros Hpos. eapply para_prompt, budget_blocks; [done|done| | |exact El]; [done|by left].
Qed.

(** The best hits are filed under their segments' keys. *)
Lemma best_key order raw i a :
  order ≡ₚ map_to_list (dd_best (dedup (track <$> raw))) -> i ∈ snd <$> order -> raw !! i = Some a ->
  dd_best (dedup (track <$> raw)) !! recalledSegmentDedupKey (sh_segment a) = Some i.
Proof.
  intros Hp. rewrite Hp. intros ([k j] & -> & Hk%elem_of_map_to_list)%list_elem_of_fmap Ha. cbn in Ha |- *.
  destruct (dedup_spec raw) as [[Hb _] _]. destruct (Hb k j Hk) as (_ & t & Ht & <-).
  pose proof (dedup_keeps identity raw ltac:(done)) as E0. apply (f_equal (fun l => l !! j)) in E0.
  rewrite !list_lookup_fmap, Ht, Ha in E0. injection E0 as <- _ _. done.
Qed.

(** The block of a search hit. *)
Definition raw_block (raw : list recalledSearchHit) (i : nat) : string :=
  from_option (fun h => renderRecalledSegmentBlock (sh_segment h)) "" (raw !! i).

(** C17: the receipt of a recall, whatever the order in which the map of the best
    hits is read: it lists every search hit once and in order; each is marked as in
    the prompt or has a reason why it was left out or cut.  The prompt consists of
    exactly the blocks of the hits marked as in the prompt, in the order of the
    ranking, or is the cut block of the only one.  The tokens add up to those of
    these hits; at most [limit] hits are in the prompt, and never two of the same
    segment; no budget means an empty prompt; and with a budget the prompt is
    empty, within it, or the cut block of one hit. *)
Theorem recall_receipt_exact order queries raw limit maxTokens now :
  raw <> [] -> order ≡ₚ map_to_list (dd_best (dedup (track <$> raw))) ->
  exists prompt r, buildRecalledReceipt order queries raw limit maxTokens now = (prompt, Some r)
  /\ RH_ID <$> RR_Hits r = receiptHitID ∘ sh_segment <$> raw
  /\ (forall h, h ∈ RR_Hits r -> h ∈ RR_Injected r \/ h ∈ RR_Trimmed r)
  /\ (exists shown, shown `sublist_of` (rank_hits (dedup (track <$> raw)) order limit).2
        /\ (forall i, i ∈ shown <-> exists h, RR_Hits r !! i = Some h /\ RH_Injected h = true)
        /\ (prompt = TrimSpace (Joins (raw_block raw <$> shown) para)
            \/ exists i, shown = [i] /\ prompt = TrimSpace (renderTrimmedRecalledSegmentBlock (raw_block raw i) maxTokens)))
  /\ RR_TotalTokens r = foldr Z.add 0 (RH_Tokens <$> RR_Injected r)
  /\ ((0 < limit)%nat -> (length (RR_Injected r) <= limit)%nat)
  /\ (forall i j a b x y, raw !! i = Some a -> raw !! j = Some b -> RR_Hits r !! i = Some x -> RR_Hits r !! j = Some y ->
        RH_Injected x = true -> RH_Injected y = true ->
        recalledSegmentDedupKey (sh_segment a) = recalledSegmentDedupKey (sh_segment b) -> i = j)
  /\ (maxTokens = 0 -> prompt = "" /\ RR_Injected r = [])
  /\ (0 < maxTokens -> prompt = "" \/ Estimate prompt <= maxTokens
      \/ exists a, a ∈ raw /\ prompt = TrimSpace (renderTrimmedRecalledSegmentBlock (renderRecalledSegmentBlock (sh_segment a)) maxTokens)).
Proof.
  intros Hne Hp. unfold buildRecalledReceipt. destruct raw as [|r0 rest]; [done|].
  set (raw := r0 :: rest) in *. clearbody raw. clear Hne r0 rest.
  destruct (rank_hits _ order limit) as [tracked selected] eqn:Er.
  destruct (rank_hits_spec raw order limit _ _ Hp Er) as (Ho & Hid & Hsub & Hlim).
  destruct (applyRecalledPromptBudget tracked selected maxTokens) as [[final prompt] tokens] eqn:Eb.
  destruct (apply_budget_outcome _ _ _ _ _ _ (open_mid _ _ Ho) (well_blocked_same _ _ Hid (track_well_blocked raw)) Eb)
    as ([Hset Hsame Htok Hcnt Hwhere] & Hzero & Hfit).
  destruct (none_total tracked) as [W0 O0]; [intros i t Ht; by apply (oh_hit _ _ Ho i t)|].
  rewrite W0, total_weight in Htok. rewrite O0, total_one in Hcnt, Hzero. rewrite Hid in Hsame.
  assert (forall i, block_at tracked i = raw_block raw i) as Hblocks.
  { intros i. unfold block_at, raw_block. apply (f_equal (fun l => l !! i)) in Hid. rewrite !list_lookup_fmap in Hid.
    destruct (tracked !! i), (raw !! i); try done. cbn in Hid |- *. by injection Hid. }
  destruct (apply_budget_shown tracked selected maxTokens final prompt tokens) as (shown & S1 & S2 & S3); [|done|].
  { intros i Hi. apply lookup_lt_is_Some_2. by apply (md_range _ _ (open_mid _ _ Ho)). }
  exists prompt. eexists. split; [done|]. cbn [RR_Hits RR_Injected RR_Trimmed RR_TotalTokens snd]. split_and!.
  - apply (f_equal (fmap snd)) in Hsame. by rewrite <- !list_fmap_compose in *.
  - intros h (t & -> & Ht)%list_elem_of_fmap. eapply Forall_forall in Hset; [|exact Ht].
    rewrite !list_elem_of_filter. pose proof (list_elem_of_fmap_2 th_hit _ _ Ht). destruct Hset; [left|right]; done.
  - exists shown. split; [done|]. split.
    + intros i. assert (~ inj tracked i) as Hno by (intros (t & Ht & Hi); by rewrite (proj1 (oh_hit _ _ Ho i t Ht)) in Hi).
      pose proof (S2 i) as Si. split.
      * intros Hi. destruct Si as [_ (t & Ht & Hit)]; [by left|]. exists (th_hit t). by rewrite list_lookup_fmap, Ht.
      * intros (h & (t & -> & Ht)%list_lookup_fmap_Some & Hh). destruct Si as [[?|?] _]; [by exists t|done|done].
    + destruct S3 as [->|(i & -> & ->)]; [left; do 2 f_equal; apply list_fmap_ext; intros; apply Hblocks|].
      right. exists i. by rewrite Hblocks.
  - lia.
  - intros Hl. specialize (Hlim Hl). lia.
  - intros i j a b x y Ha Hb (t & -> & Ht)%list_lookup_fmap_Some (u & -> & Hu)%list_lookup_fmap_Some Hx Hy Hk.
    assert (forall k v c, final !! k = Some v -> injected v = true -> raw !! k = Some c ->
      dd_best (dedup (track <$> raw)) !! recalledSegmentDedupKey (sh_segment c) = Some k) as Hbest.
    { intros k v c Hv Hinj Hc. apply (best_key order); [done|apply Hsub|done].
      destruct (Hwhere k v Hv Hinj) as [?|(w & Hw & Hc')]; [done|]. destruct (oh_hit _ _ Ho k w Hw). congruence. }
    pose proof (Hbest i t a Ht Hx Ha) as H1. rewrite Hk, (Hbest j u b Hu Hy Hb) in H1. by injection H1 as ->.
  - intros ->. destruct (Hzero eq_refl) as (-> & _ & Hl). split; [done|]. apply length_zero_iff_nil. lia.
  - intros Hpos. destruct (Hfit Hpos) as [->|[?|(t & Ht & ->)]]; [by left|by right; left|]. right; right.
    apply (list_elem_of_fmap_2 identity) in Ht. rewrite Hid in Ht.
    apply list_elem_of_fmap in Ht as (u & [= _ -> _] & (a & -> & Ha)%list_elem_of_fmap). by exists a.
Qed.

(** *** The order of the map does not matter *)

(** Scores that are numbers. *)
Definition numbers (t : trackedRecalledHit) : Prop :=
  is_Some (frank (RH_Score (th_hit t))) /\ is_Some (frank (Sg_QualityScore (th_segment t))).

#[local] Instance less_recalled_weak : StrictWeak less_recalled numbers.
Proof.
  unfold less_recalled. cbv zeta. apply float_field; [by intros a []|].
  apply (int_field _ _ (fun a => recalledSegmentReferenceTime (th_segment a))).
  apply (float_field _ _ (fun a => Sg_QualityScore (th_segment a))); [by intros a []|].
  apply (text_field _ _ (fun a => TrimSpace (Sg_ID (th_segment a)))).
  apply (StrictWeak_key _ _ (fun a => [Z.of_nat (th_order a)]) 1); [done|].
  intros a b _ _. rewrite bool_decide_eq_true. cbn. lia.
Qed.

(** Hits that compare equal were found at the same place. *)
Lemma less_recalled_tie a b :
  numbers a -> numbers b -> less_recalled a b = false -> less_recalled b a = false -> th_order a = th_order b.
Proof.
  intros [A1 A2] [B1 B2]. unfold less_recalled. cbv zeta. intros H1 H2.
  destruct (float_tie _ _ _ _ A1 B1 H1 H2) as [H3 H4]. clear H1 H2.
  set (ta := recalledSegmentReferenceTime (th_segment a)) in *. set (tb := recalledSegmentReferenceTime (th_segment b)) in *.
  destruct (decide (ta <> tb)) as [T1|T1], (decide (tb <> ta)) as [T2|T2]; [|by destruct T2|by destruct T1|].
  { unfold After in H3, H4. apply bool_decide_eq_false in H3, H4. lia. }
  destruct (float_tie _ _ _ _ A2 B2 H3 H4) as [H5 H6]. clear H3 H4.
  set (ia := TrimSpace (Sg_ID (th_segment a))) in *. set (ib := TrimSpace (Sg_ID (th_segment b))) in *.
  destruct (decide (ia <> ib)) as [I1|I1], (decide (ib <> ia)) as [I2|I2]; [|by destruct I2|by destruct I1|].
  - by destruct I1; apply ltb_total.
  - apply bool_decide_eq_false in H5, H6. lia.
Qed.

Lemma merge_all_perm st order order' l :
  order ≡ₚ order' -> NoDup (snd <$> order) ->
  foldl (fun l '(key, index) => merge_queries st l key index) l order
  = foldl (fun l '(key, index) => merge_queries st l key index) l order'.
Proof.
  intros Hp. revert l. induction Hp as [|[k i] o o' Hp IH|[k i] [k' j] o|o o' o'' Hp1 IH1 Hp2 IH2]; intros l Hnd; cbn [foldl].
  - done.
  - apply IH. by apply NoDup_cons in Hnd as [_ ?].
  - f_equal. apply list_alter_alter_ne. cbn in Hnd. apply NoDup_cons in Hnd as [Hn _]. intros ->. apply Hn. by left.
  - rewrite IH1 by done. apply IH2. by rewrite <- Hp1.
Qed.

(** What the ranking reads of a hit. *)
Definition ranked_by (t : trackedRecalledHit) : nat * float64 * SummarySegment := (th_order t, RH_Score (th_hit t), th_segment t).


Lemma ranked_numbers raw order t :
  Forall (fun h => is_Some (frank (sh_score h)) /\ is_Some (frank (Sg_QualityScore (sh_segment h)))) raw ->
  t ∈ foldl (fun l '(key, index) => merge_queries (dedup (track <$> raw)) l key index) (dd_tracked (dedup (track <$> raw))) order ->
  numbers t.
Proof.
  intros Hok Ht. apply (list_elem_of_fmap_2 ranked_by) in Ht. rewrite foldl_same, dedup_keeps in Ht;
    [|done|by intros l [k i]; apply fmap_alter_same].
  apply list_elem_of_fmap in Ht as (u & E0 & (h & -> & Hh)%list_elem_of_fmap). injection E0 as _ E1 E2.
  unfold numbers. rewrite E1, E2. eapply Forall_forall in Hok; [|exact Hh]. done.
Qed.

(** The ranking is the same in whatever order the map of the best hits is read. *)
Lemma rank_hits_order raw order order' limit :
  Forall (fun h => is_Some (frank (sh_score h)) /\ is_Some (frank (Sg_QualityScore (sh_segment h)))) raw ->
  NoDup (sh_order <$> raw) -> order ≡ₚ map_to_list (dd_best (dedup (track <$> raw))) -> order ≡ₚ order' ->
  rank_hits (dedup (track <$> raw)) order limit = rank_hits (dedup (track <$> raw)) order' limit.
Proof.
  intros Hok Hnd Hp Hp'. destruct (dedup_spec raw) as [Hinv Hlen]. pose proof (dedup_open _ _ _ _ Hinv Hlen Hp) as [Ho1 Ho2 _].
  unfold rank_hits. rewrite <- (merge_all_perm _ order order') by done. set (tracked := foldl _ _ order).
  assert (SliceStable (less_at tracked) (snd <$> order) = SliceStable (less_at tracked) (snd <$> order')) as <-; [|done].
  set (ok i := exists t, tracked !! i = Some t /\ numbers t).
  assert (StrictWeak (less_at tracked) ok) as Hweak.
  { split.
    - intros i j (a & Ha & Na) (b & Hb & Nb). unfold less_at. rewrite Ha, Hb. by apply (less_asym less_recalled).
    - intros i j k (a & Ha & Na) (b & Hb & Nb) (c & Hc & Nc). unfold less_at. rewrite Ha, Hb, Hc. by apply (less_weak less_recalled). }
  assert (Forall ok (snd <$> order)) as Hall.
  { apply Forall_forall. intros i Hi%Ho2. destruct (lookup_lt_is_Some_2 tracked i) as [t Ht].
    - unfold tracked. by rewrite merge_all_length.
    - exists t. split; [done|]. eapply ranked_numbers; [done|]. by eapply list_elem_of_lookup_2. }
  apply (SliceStable_unique _ ok); [done| |by rewrite Hp'].
  intros i j Hi Hj. rewrite Forall_forall in Hall. destruct (Hall i Hi) as (a & Ha & Na), (Hall j Hj) as (b & Hb & Nb).
  unfold less_at. rewrite Ha, Hb. intros H1 H2. pose proof (less_recalled_tie a b Na Nb H1 H2) as E0.
  assert (forall k t, tracked !! k = Some t -> (sh_order <$> raw) !! k = Some (th_order t)) as Hord.
  { intros k t Ht. assert ((ranked_by <$> tracked) !! k = Some (ranked_by t)) as Hk by (by rewrite list_lookup_fmap, Ht).
    unfold tracked in Hk. rewrite foldl_same, dedup_keeps in Hk; [|done|by intros l [? ?]; apply fmap_alter_same].
    rewrite !list_lookup_fmap in Hk. rewrite list_lookup_fmap. destruct (raw !! k); [|done]. cbn in Hk |- *. by injection Hk as <- _ _. }
  eapply NoDup_lookup; [exact Hnd|by apply Hord|]. rewrite E0. by apply Hord.
Qed.

(** the prompt and the receipt of a recall do not depend on the order in which
    Go reads the map of the best hits, as long as the scores are numbers. *)
Theorem recall_order_irrelevant order order' queries raw limit maxTokens now :
  Forall (fun h => is_Some (frank (sh_score h)) /\ is_Some (frank (Sg_QualityScore (sh_segment h)))) raw ->
  NoDup (sh_order <$> raw) -> order ≡ₚ map_to_list (dd_best (dedup (track <$> raw))) -> order ≡ₚ order' ->
  buildRecalledReceipt order queries raw limit maxTokens now = buildRecalledReceipt order' queries raw limit maxTokens now.
Proof.
  intros Hok Hnd Hp Hp'. unfold buildRecalledReceipt. destruct raw as [|r0 rest]; [done|].
  by rewrite (rank_hits_order _ order order').
Qed.

(** *** Recalling from the session store *)

Lemma receipt_hits map_order queries raw limit maxTokens now prompt r :
  (forall m, map_order m ≡ₚ map_to_list m) ->
  buildRecalledReceipt (map_order (dd_best (dedup (track <$> raw)))) queries raw limit maxTokens now = (prompt, Some r) ->
  RR_Queries r = queries /\ RH_ID <$> RR_Hits r = receiptHitID ∘ sh_segment <$> raw.
Proof.
  intros Hord. unfold buildRecalledReceipt. destruct raw as [|r0 rest]; [done|]. set (raw := r0 :: rest) in *. clearbody raw.
  destruct (rank_hits _ _ limit) as [tracked selected] eqn:Er.
  destruct (rank_hits_spec raw _ limit _ _ (Hord _) Er) as (Ho & Hid & _).
  destruct (applyRecalledPromptBudget tracked selected maxTokens) as [[final p] tokens] eqn:Eb. intros [= <- <-].
  destruct (apply_budget_outcome _ _ _ _ _ _ (open_mid _ _ Ho) (well_blocked_same _ _ Hid (track_well_blocked raw)) Eb)
    as ([_ Hsame _ _ _] & _). split; [done|]. cbn [RR_Hits]. rewrite Hid in Hsame.
  apply (f_equal (fmap snd)) in Hsame. by rewrite <- !list_fmap_compose in *.
Qed.

Lemma rank_row_elem queries results rank s q :
  (s, q) ∈ rank_row queries results rank -> exists rs, rs ∈ results /\ s ∈ rs.
Proof.
  unfold rank_row. intros ([q' rs] & Hin%list_elem_of_In & Hx)%list_elem_of_omap.
  apply in_combine_r in Hin. apply fmap_Some in Hx as (x & Hx & [= <- <-]). exists rs.
  split; [by apply list_elem_of_In|by eapply list_elem_of_lookup_2].
Qed.

Lemma search_hit_found queries results now h :
  h ∈ buildRecalledSearchHits queries results now -> exists rs, rs ∈ results /\ sh_segment h ∈ rs.
Proof.
  unfold buildRecalledSearchHits. cbv zeta. intros (i & Hi)%list_elem_of_lookup. rewrite list_lookup_imap in Hi.
  apply fmap_Some in Hi as ([s q] & Hs%list_elem_of_lookup_2 & ->). cbn [sh_segment].
  apply list_elem_of_In, in_concat in Hs as (row & Hrow & Hs). apply list_elem_of_In in Hrow, Hs.
  apply list_elem_of_fmap in Hrow as (rank & -> & _). by eapply rank_row_elem.
Qed.

Lemma ranked_in {A} (less : A -> A -> bool) n l (p : A) : p ∈ take n (SliceStable less l) -> p ∈ l.
Proof. intros Hp. rewrite <- (SliceStable_perm less l). eapply elem_of_sublist; [exact Hp|apply sublist_take]. Qed.

Lemma search_session db sid text v limit out :
  0 < limit -> SearchSegments db sid text v limit = inr out ->
  (length out <= Z.to_nat limit)%nat
  /\ forall s, s ∈ out -> s ∈ DB_Segments db /\ Sg_SessionID s = TrimSpace sid.
Proof.
  intros Hpos. unfold SearchSegments. case_decide; [done|]. cbv zeta. rewrite (decide_False (P := limit <= 0)) by lia. intros [= <-].
  assert (forall s, s ∈ loadSessionSegments db (TrimSpace sid) -> s ∈ DB_Segments db /\ Sg_SessionID s = TrimSpace sid) as Hload
    by (by intros s [? ?]%list_elem_of_filter).
  destruct v as [|x v]; [unfold rankSegmentsByKeywords; destruct (keywordMatchTokens text) as [|t0 ts]|unfold rankSegmentsByEmbedding].
  - split; [cbn; lia|]. by intros s ?%elem_of_nil.
  - rewrite length_fmap, length_take. split; [lia|]. intros s (p & -> & [_ Hp]%ranked_in%list_elem_of_filter)%list_elem_of_fmap.
    apply list_elem_of_fmap in Hp as (u & -> & Hu). by apply Hload.
  - rewrite length_fmap, length_take. split; [lia|]. intros s (p & -> & Hp%ranked_in)%list_elem_of_fmap.
    apply list_elem_of_fmap in Hp as (u & -> & [_ Hu]%list_elem_of_filter). by apply Hload.
Qed.

Lemma search_hits_length queries results now n :
  (forall rs, rs ∈ results -> (length rs <= n)%nat) ->
  (length (buildRecalledSearchHits queries results now) <= n * length queries)%nat.
Proof.
  intros Hn. unfold buildRecalledSearchHits. cbv zeta. rewrite length_imap.
  assert (max_list (length <$> results) <= n)%nat as Hm.
  { revert Hn. clear. induction results as [|r rs IH]; intros Hn; cbn; [lia|].
    pose proof (Hn r ltac:(by left)). specialize (IH ltac:(intros x Hx; apply Hn; by right)). lia. }
  revert Hm. generalize (max_list (length <$> results)) as m. clear Hn. intros m Hm.
  assert (forall k, (length (List.concat ((fun rank => rank_row queries results rank) <$> seq k m)) <= m * length queries)%nat) as H.
  { clear Hm. induction m as [|m IH]; intros k; cbn; [lia|]. rewrite length_app. specialize (IH (S k)).
    assert (length (rank_row queries results k) <= length queries)%nat; [|lia]. unfold rank_row.
    transitivity (length (combine queries results)); [|rewrite length_combine; lia].
    generalize (combine queries results) as l. clear. induction l as [|[q rs] l IH]; cbn; [lia|]. case_match; cbn; lia. }
  specialize (H 0%nat). nia.
Qed.

Lemma dedupe_length values : (length (dedupeStrings values) <= length values)%nat.
Proof.
  unfold dedupeStrings. generalize (∅ : gset string) as seen. induction values as [|v values IH]; intros seen; cbn; [lia|].
  repeat case_decide; cbn; match goal with |- context [dedupe_folded ?s values] => specialize (IH s) end; lia.
Qed.

(** a recall from the session store asks at most three queries, lists at most
    three segments for each of them, and only ever lists segments that are stored
    for the session that asks. *)
Theorem recall_session_only Embed db map_order sessionID messages run summarySource budget now later prompt r :
  (forall m, map_order m ≡ₚ map_to_list m) ->
  prepareRecalledPrompt (Some Embed) (Some (fun sid q v n => match SearchSegments db sid q v n with inr out => Some out | inl _ => None end))
    map_order sessionID messages run summarySource budget now later = (prompt, Some r) ->
  (length (RR_Queries r) <= 3)%nat /\ (length (RR_Hits r) <= 3 * length (RR_Queries r))%nat
  /\ forall h, h ∈ RR_Hits r -> exists s, s ∈ DB_Segments db /\ Sg_SessionID s = TrimSpace sessionID /\ RH_ID h = receiptHitID s.
Proof.
  intros Hord. unfold prepareRecalledPrompt. case_decide as Hb; [done|].
  destruct (recall_queries messages run summarySource) as [|q0 qs] eqn:Eq; [done|]. set (queries := q0 :: qs) in *.
  set (results := recall_query _ _ _ <$> queries).
  destruct (buildRecalledSearchHits queries results now) as [|h0 hs] eqn:Eh; [done|]. set (raw := h0 :: hs) in *.
  intros [Hq Hid]%receipt_hits; [|done]. rewrite Hq.
  assert (forall rs, rs ∈ results -> (length rs <= 3)%nat /\ forall s, s ∈ rs -> s ∈ DB_Segments db /\ Sg_SessionID s = TrimSpace sessionID)
    as Hres.
  { intros rs (q & -> & _)%list_elem_of_fmap. unfold recall_query.
    destruct (Embed [q]) as [[|v vs]|]; cbn; [by split; [lia|intros s ?%elem_of_nil]| |by split; [lia|intros s ?%elem_of_nil]].
    destruct (SearchSegments db sessionID q v 3) as [e|out] eqn:Es; cbn; [by split; [lia|intros s ?%elem_of_nil]|].
    by apply search_session in Es. }
  split_and!.
  - rewrite <- Eq. unfold recall_queries. by rewrite dedupe_length.
  - apply (f_equal length) in Hid. rewrite !length_fmap in Hid. rewrite Hid, <- Eh.
    apply search_hits_length. intros rs Hrs. by apply Hres.
  - intros h Hh. apply (list_elem_of_fmap_2 RH_ID) in Hh. rewrite Hid in Hh.
    apply list_elem_of_fmap in Hh as (x & -> & Hx). rewrite <- Eh in Hx.
    apply search_hit_found in Hx as (rs & Hrs & Hs). destruct (Hres rs Hrs) as [_ Hd]. destruct (Hd _ Hs). by exists (sh_segment x).
Qed.
End Recall.

(** ** Examples *)

Definition recall_segment (id session text : string) (day : Z) : SummarySegment :=
  mkSegment id session "ep-1" 1 1 2 (day * 24 * Hour) (day * 24 * Hour) text [] ["use postgres"] [] [] []
    (of_int <$> [1; 0]) "" (of_int 1) "" (day * 24 * Hour).

Definition recall_db : SegmentDB :=
  mkSegmentDB {[ "s1"; "s2" ]} [] [recall_segment "a" "s1" "Staging moved to postgres." 19000;
    recall_segment "b" "s1" "Deploys run on Fridays." 19100; recall_segment "c" "s2" "Another session." 19100].

Definition recall_hit (id text query : string) (score order : Z) : recalledSearchHit :=
  mkSearchHit (recall_segment id "s1" text 19000) query (of_int score) (Z.to_nat order).

Definition recall_raw : list recalledSearchHit :=
  [recall_hit "a" "Staging moved to postgres." "where is staging?" 3 0; recall_hit "b" "Deploys run on Fridays." "where is staging?" 2 1;
   recall_hit "A" "Staging moved to postgres." "goal" 1 2].

#[local] Existing Instance ascii_unicode.
#[local] Existing Instance length_estimator.

Definition recall_best : gmap string nat := dd_best (dedup (track <$> recall_raw)).

(** The reasons and the IDs of a receipt. *)
Definition outline (out : string * option RetrievalReceipt) : option (list string * list string) :=
  (fun r => (RH_TrimReason <$> RR_Hits r, RH_ID <$> RR_Injected r)) <$> out.2.

Lemma recall_receipt_exact_witness :
  exists prompt r, buildRecalledReceipt (map_to_list recall_best) ["where is staging?"; "goal"] recall_raw 1 400 0 = (prompt, Some r)
  /\ outline (prompt, Some r) = Some ([""; "low_score"; "duplicate"], ["a"])
  /\ RR_TotalTokens r = foldr Z.add 0 (RH_Tokens <$> RR_Injected r).
Proof.
  destruct (recall_receipt_exact (map_to_list recall_best) ["where is staging?"; "goal"] recall_raw 1 400 0)
    as (prompt & r & Hr & _ & _ & _ & Ht & _); [done|done|].
  exists prompt, r. split; [exact Hr|]. split; [|exact Ht]. rewrite <- Hr. vm_compute. reflexivity.
Defined.

Lemma recall_raw_numbers :
  Forall (fun h => is_Some (frank (sh_score h)) /\ is_Some (frank (Sg_QualityScore (sh_segment h)))) recall_raw.
Proof. repeat constructor; by eexists. Qed.

Lemma recall_order_irrelevant_witness :
  buildRecalledReceipt (map_to_list recall_best) ["goal"] recall_raw 1 400 0
  = buildRecalledReceipt (rev (map_to_list recall_best)) ["goal"] recall_raw 1 400 0.
Proof.
  apply (recall_order_irrelevant (map_to_list recall_best) (rev (map_to_list recall_best)) ["goal"] recall_raw 1 400 0).
  - exact recall_raw_numbers.
  - by apply (bool_decide_unpack _).
  - done.
  - apply Permutation_rev.
Defined.

Definition recall_question : list Message := [mkMessage RoleUser "Where is staging?" [] "" "" [] 0 []].
Definition recall_budget : BudgetPlan := mkBudgetPlan 0 0 400 0 0.
Definition recall_embed (_ : list string) : option (list (list float64)) := Some [of_int <$> [1; 0]].
Definition recall_search (sid q : string) (v : list float64) (n : Z) : option (list SummarySegment) :=
  match SearchSegments recall_db sid q v n with inr out => Some out | inl _ => None end.

Lemma recall_session_only_witness :
  exists prompt r,
    prepareRecalledPrompt (Some recall_embed) (Some recall_search) map_to_list "s1" recall_question None "" recall_budget 0 0
    = (prompt, Some r)
  /\ outline (prompt, Some r) = Some ([""; ""], ["b"; "a"])
  /\ forall h, h ∈ RR_Hits r -> exists s, s ∈ DB_Segments recall_db /\ Sg_SessionID s = "s1" /\ RH_ID h = receiptHitID s.
Proof.
  assert (exists prompt r,
    prepareRecalledPrompt (Some recall_embed) (Some recall_search) map_to_list "s1" recall_question None "" recall_budget 0 0
    = (prompt, Some r) /\ outline (prompt, Some r) = Some ([""; ""], ["b"; "a"])) as (prompt & r & Hr & Ho).
  { eexists _, _. split; [vm_compute; reflexivity|]. vm_compute. reflexivity. }
  exists prompt, r. split; [exact Hr|]. split; [exact Ho|].
  apply (recall_session_only recall_embed recall_db map_to_list "s1" recall_question None "" recall_budget 0 0 prompt r);
    [intros m; reflexivity|exact Hr].
Defined.
