(* ===== verification/SkillPrompt.v ===== *)
(** * The skill catalog in a prompt ([contextengine/engine_prompt.go],
    [contextengine/text_tokens.go], [contextengine/engine.go], [skill/prompt.go])

    A prompt lists the skills of a session as XML.  A run may allow some of them
    only; when the list is too long, the skills that fit the conversation best
    are kept.  The words of a conversation are cut at changes of script, so the
    model decodes the UTF-8 text; what counts as a letter, a digit or a kana
    character and the lower case of a character are given by a class. *)
From S2P Require Import Prelude GoLib GoText TextTrim GoClock GoFloat GoSort ContextMessages ContextEstimate ContextSummary.
From S2P Require Import ContextRecall.
From Stdlib Require Import Ascii Sorted.
Import Str Text GoTime.

Local Open Scope Z_scope.

(** ** Characters *)

(** The Unicode tables of the standard library, on code points. *)
Class GoRunes := {
  IsLetter : Z -> bool;
  IsDigit : Z -> bool;
  IsKana : Z -> bool;
  ToLowerRune : Z -> Z
}.

Definition byte_of (z : Z) : ascii := ascii_of_nat (Z.to_nat z).

(** The UTF-8 encoding of a code point. *)
Definition EncodeRune (r : Z) : bytes :=
  if decide (r < 0x80) then [byte_of r]
  else if decide (r < 0x800) then [byte_of (0xC0 + r / 64); byte_of (0x80 + r mod 64)]
  else if decide (r < 0x10000) then [byte_of (0xE0 + r / 4096); byte_of (0x80 + r / 64 mod 64); byte_of (0x80 + r mod 64)]
  else [byte_of (0xF0 + r / 262144); byte_of (0x80 + r / 4096 mod 64); byte_of (0x80 + r / 64 mod 64); byte_of (0x80 + r mod 64)].

(** [string(runes)]. *)
Definition runes_text (rs : list Z) : string := String.string_of_list_ascii (List.concat (EncodeRune <$> rs)).

(** The characters of a text. *)
Fixpoint runes_from (fuel : nat) (l : bytes) : list Z :=
  match fuel, l with
  | S fuel, _ :: _ => let '(r, size) := DecodeRune l in r :: runes_from fuel (drop size l)
  | _, _ => []
  end.

Definition runes_of (text : string) : list Z := runes_from (String.length text) (String.list_ascii_of_string text).

(** ** Words *)

Inductive textTokenClass := TokenSeparator | TokenASCIIWord | TokenCJK | TokenUnicodeWord.

#[export] Instance textTokenClass_eq_dec : EqDecision textTokenClass.
Proof. solve_decision. Defined.

Definition isASCIIWordRune (r : Z) : bool :=
  bool_decide (r = 95) || bool_decide (r = 45) || bool_decide (48 <= r <= 57)
  || bool_decide (97 <= r <= 122) || bool_decide (65 <= r <= 90).

Section Skills.
Context {U : GoUnicode} {R : GoRunes}.

Definition isCJKLikeRune (r : Z) : bool := isCJKRune r || IsKana r.

Definition classifyTextTokenRune (r : Z) : textTokenClass :=
  if isASCIIWordRune r then TokenASCIIWord
  else if isCJKLikeRune r then TokenCJK
  else if IsLetter r || IsDigit r then TokenUnicodeWord
  else TokenSeparator.

Definition addToken (tokens : list string) (token : string) : list string :=
  let token := TrimSpace (ToLower token) in
  if decide (token = "" \/ token ∈ tokens) then tokens else tokens ++ [token].

Definition addNGrams (tokens : list string) (segment : list Z) (size : nat) : list string :=
  if decide (length segment < size \/ size = 0)%nat then tokens
  else foldl (fun ts i => addToken ts (runes_text (take size (drop i segment)))) tokens (seq 0 (length segment - size + 1)).

(** The words so far, the characters of the current one and its script. *)
Record token_state := mkTokenState { ts_tokens : list string; ts_buffer : list Z; ts_class : textTokenClass }.

Definition flush_tokens (minWordRunes : nat) (st : token_state) : token_state :=
  let buffer := ts_buffer st in
  let tokens := ts_tokens st in
  match buffer with
  | [] => st
  | _ =>
    let segment := runes_text buffer in
    let word tokens := if decide (minWordRunes <= length buffer)%nat then addToken tokens segment else tokens in
    let tokens :=
      match ts_class st with
      | TokenSeparator => tokens
      | TokenASCIIWord => word tokens
      | TokenCJK =>
        let tokens := addNGrams tokens buffer 2 in
        if decide (length buffer <= 4)%nat then addToken tokens segment else tokens
      | TokenUnicodeWord =>
        let tokens := word tokens in
        if decide (5 <= length buffer)%nat then addNGrams tokens buffer 3 else tokens
      end in
    mkTokenState tokens [] TokenSeparator
  end.

Definition token_step (minWordRunes : nat) (st : token_state) (r : Z) : token_state :=
  let next := classifyTextTokenRune r in
  if decide (next = TokenSeparator) then flush_tokens minWordRunes st else
  let st := if decide (ts_class st <> TokenSeparator /\ ts_class st <> next) then flush_tokens minWordRunes st else st in
  mkTokenState (ts_tokens st) (ts_buffer st ++ [ToLowerRune r]) next.

Definition semanticTextTokens (text : string) (minWordRunes : Z) : list string :=
  let n := Z.to_nat (if decide (minWordRunes < 1) then 1 else minWordRunes) in
  ts_tokens (flush_tokens n (foldl (token_step n) (mkTokenState [] [] TokenSeparator) (runes_of text))).

(** ** The catalog *)

Record PromptCatalogEntry := mkCatalogEntry {
  Pc_Name : string; Pc_Description : string; Pc_Location : string; Pc_ToolDomains : list string }.

Definition escape_byte (a : ascii) : string :=
  if decide (a = "&"%char) then "&amp;"
  else if decide (a = "<"%char) then "&lt;"
  else if decide (a = ">"%char) then "&gt;"
  else if decide (a = ascii_of_nat 34) then "&quot;"
  else if decide (a = "'"%char) then "&apos;"
  else String a "".

Fixpoint xmlEscape (s : string) : string :=
  match s with EmptyString => "" | String a rest => escape_byte a +:+ xmlEscape rest end.

Definition entry_line (e : PromptCatalogEntry) : string :=
  "  <skill name=" +:+ quote_mark +:+ xmlEscape (Pc_Name e) +:+ quote_mark +:+ " location=" +:+ quote_mark
  +:+ xmlEscape (Pc_Location e) +:+ quote_mark +:+ ">" +:+ xmlEscape (Pc_Description e) +:+ "</skill>" +:+ nl.

Definition omitted_note (omitted : nat) (notice : string) : string :=
  if decide (0 < omitted)%nat then
    "  <note>" +:+ (if decide (TrimSpace notice = "") then "" else xmlEscape (TrimSpace notice) +:+ " ")
    +:+ xmlEscape (itoa omitted +:+ " additional skills omitted.") +:+ "</note>" +:+ nl
  else "".

Definition FormatPromptCatalogWithNotice (entries : list PromptCatalogEntry) (omitted : nat) (notice : string) : string :=
  "<skills>" +:+ nl +:+ Joins (entry_line <$> entries) "" +:+ omitted_note omitted notice +:+ "</skills>".

Definition FormatPromptCatalog (entries : list PromptCatalogEntry) : string := FormatPromptCatalogWithNotice entries 0 "".

(** *** Priorities *)

Definition promptCatalogDomainSet (items : list string) : gset string :=
  list_to_set (filter (fun s => s <> "") ((fun s => ToLower (TrimSpace s)) <$> items)).

Definition scorePromptCatalogEntryDomains (e : PromptCatalogEntry) (detected : gset string) : Z :=
  Z.of_nat (length (filter (fun d => ToLower (TrimSpace d) ∈ detected) (Pc_ToolDomains e))).

Definition promptContextTokens (text : string) : list string := semanticTextTokens text 3.

Definition token_score (name desc token : string) : Z :=
  (if negb (bool_decide (name = "")) && Contains name token then 8 else 0)
  + (if negb (bool_decide (desc = "")) && Contains desc token then 3 else 0).

Definition scorePromptCatalogEntry (e : PromptCatalogEntry) (contextText : string) (contextTokens : list string) : Z :=
  let name := ToLower (TrimSpace (Pc_Name e)) in
  let desc := ToLower (TrimSpace (Pc_Description e)) in
  foldl (fun score token => score + token_score name desc token)
        (if negb (bool_decide (name = "")) && Contains contextText name then 30 else 0) contextTokens.

Record scoredEntry := mkScored { sc_entry : PromptCatalogEntry; sc_domain : Z; sc_catalog : Z; sc_index : nat }.

Definition less_scored (a b : scoredEntry) : bool :=
  if decide (sc_domain a <> sc_domain b) then bool_decide (sc_domain b < sc_domain a)
  else if decide (sc_catalog a <> sc_catalog b) then bool_decide (sc_catalog b < sc_catalog a)
  else bool_decide (sc_index a < sc_index b)%nat.

Definition score_entries (entries : list PromptCatalogEntry) (contextText : string) (detectedDomains : list string) :
    list scoredEntry :=
  let tokens := promptContextTokens contextText in
  let domains := promptCatalogDomainSet detectedDomains in
  imap (fun i e => mkScored e (scorePromptCatalogEntryDomains e domains) (scorePromptCatalogEntry e contextText tokens) i) entries.

Definition prioritizePromptCatalog (entries : list PromptCatalogEntry) (contextText : string) (detectedDomains : list string) :
    list PromptCatalogEntry :=
  if decide (TrimSpace contextText = "" /\ detectedDomains = []) then entries
  else sc_entry <$> SliceStable less_scored (score_entries entries contextText detectedDomains).

(** *** The conversation *)

(** The latest user messages, until there are six parts. *)
Fixpoint user_parts (rev_messages : list Message) (parts : list string) : list string :=
  match rev_messages with
  | [] => parts
  | m :: rest =>
    if decide (6 <= length parts)%nat then parts
    else if decide (M_Role m <> RoleUser) then user_parts rest parts
    else let text := TrimSpace (TextContent m) in
         user_parts rest (if decide (text = "") then parts else parts ++ [text])
  end.

Definition skillPromptContext (summary : string) (messages : list Message) (run : option ContextRun) : string :=
  let system := match run with Some r => TrimSpace (Rn_SystemPrompt r) | None => "" end in
  let parts := if decide (system = "") then [] else [system] in
  let parts := if decide (TrimSpace summary = "") then parts else parts ++ [stripCompactReasonMarkers summary] in
  ToLower (Joins (user_parts (rev messages) parts) nl).

(** *** The prompt *)

Definition skillPromptOmittedNotice : string :=
  "Additional skills are omitted from this summary. Only use skill tools when they are available in the current turn.".

(** The catalog with a note of how many of the [total] entries are left out. *)
Definition partial_catalog (total : nat) (entries : list PromptCatalogEntry) : string :=
  FormatPromptCatalogWithNotice entries (total - length entries) skillPromptOmittedNotice.

(** The loop of [selectSkillPrompt]: the cut first entry, or the entries kept and
    their text. *)
Fixpoint skill_loop (rest selected : list PromptCatalogEntry) (best : string) (total limit : nat) :
    string + (list PromptCatalogEntry * string) :=
  match rest with
  | [] => inr (selected, best)
  | e :: rest =>
    let candidate := selected ++ [e] in
    let formatted := partial_catalog total candidate in
    if decide (limit < String.length formatted)%nat then
      match selected with [] => inl (softTrimContent formatted limit 0) | _ => inr (selected, best) end
    else skill_loop rest candidate formatted total limit
  end.

(** [catalog] and [block] are the catalog and the prompt block of the snapshot. *)
Definition selectSkillPrompt (IncludeSkillCatalog : bool) (SkillPromptMaxChars : Z) (summary : string) (messages : list Message)
    (run : option ContextRun) (catalog : list PromptCatalogEntry) (promptBlock : string) : string :=
  if negb IncludeSkillCatalog || bool_decide (catalog = []) then "" else
  let block := TrimSpace (FormatPromptCatalog catalog) in
  let block := if decide (block = "") then TrimSpace promptBlock else block in
  if decide (SkillPromptMaxChars <= 0 \/ Z.of_nat (String.length block) <= SkillPromptMaxChars) then block else
  let limit := Z.to_nat SkillPromptMaxChars in
  let detected := match run with Some r => Rn_DetectedDomains r | None => [] end in
  let ordered := prioritizePromptCatalog catalog (skillPromptContext summary messages run) detected in
  match skill_loop ordered [] "" (length ordered) limit with
  | inl cut => cut
  | inr (selected, best) =>
    TrimSpace (if decide (best = "") then partial_catalog (length ordered) selected else best)
  end.

(** ** The skills of a session *)

(** What the model reads of a bound skill: the name of its package, if it has
    one. *)
Class BoundSkills := { BoundSkill : Type; package_name : BoundSkill -> option string }.

Context {B : BoundSkills}.

Record SessionSkillSnapshot := mkSnapshot {
  Sn_GeneratedAt : Time; Sn_Fingerprint : string; Sn_ContextFingerprint : string; Sn_Skills : gmap string BoundSkill;
  Sn_Ordered : list BoundSkill; Sn_PromptCatalog : list PromptCatalogEntry; Sn_PromptBlock : string; Sn_Blocked : list string }.

Definition emptySnapshot : SessionSkillSnapshot := mkSnapshot 0 "" "" ∅ [] [] "" [].

(** The names that are allowed, folded. *)
Definition allowed_set (allowed : list string) : gset string :=
  list_to_set (ToLower <$> filter (fun s => s <> "") (TrimSpace <$> allowed)).

Definition admits (allowed : gset string) (name : string) : bool := bool_decide (ToLower (TrimSpace name) ∈ allowed).

Definition filterSkillSnapshot (sn : SessionSkillSnapshot) (allowed : list string) : SessionSkillSnapshot :=
  if decide (allowed_set allowed = ∅) then sn else
  let ok := allowed_set allowed in
  let catalog := filter (fun e => admits ok (Pc_Name e) = true) (Sn_PromptCatalog sn) in
  mkSnapshot (Sn_GeneratedAt sn) (Sn_Fingerprint sn) (Sn_ContextFingerprint sn)
    (filter (fun p => admits ok p.1 = true) (Sn_Skills sn))
    (filter (fun b => match package_name b with Some n => admits ok n | None => false end = true) (Sn_Ordered sn))
    catalog (TrimSpace (FormatPromptCatalog catalog)) (Sn_Blocked sn).

(** The skill registry of an engine: the fingerprint of its current snapshot and
    what it binds for a session. *)
Record SkillBinder := mkBinder { Bd_Fingerprint : string; Bd_BindSession : SessionSkillSnapshot }.

(** [bindSkills], with the fingerprint of the runtime context: the snapshot for
    the prompt and the one the session keeps. *)
Definition bindSkills (binder : option SkillBinder) (session : SessionSkillSnapshot) (ctxFingerprint : string) :
    SessionSkillSnapshot * SessionSkillSnapshot :=
  match binder with
  | None => if decide (Sn_Fingerprint session = "") then (emptySnapshot, session) else (session, session)
  | Some b =>
    if decide (Sn_Fingerprint session <> "" /\ Sn_Fingerprint session = Bd_Fingerprint b
               /\ Sn_ContextFingerprint session = ctxFingerprint)
    then (session, session) else (Bd_BindSession b, Bd_BindSession b)
  end.

(** ** Escaping *)

(** The texts that stand for a character. *)
Fixpoint unescape (fuel : nat) (s : string) : string :=
  match fuel, s with
  | S fuel, String a rest =>
    if HasPrefix s "&amp;" then String "&"%char (unescape fuel (str_from 5 s))
    else if HasPrefix s "&lt;" then String "<"%char (unescape fuel (str_from 4 s))
    else if HasPrefix s "&gt;" then String ">"%char (unescape fuel (str_from 4 s))
    else if HasPrefix s "&quot;" then String (ascii_of_nat 34) (unescape fuel (str_from 6 s))
    else if HasPrefix s "&apos;" then String "'"%char (unescape fuel (str_from 6 s))
    else String a (unescape fuel rest)
  | _, _ => ""
  end.

(** The characters that have a meaning in XML. *)
Definition markup (a : ascii) : bool :=
  bool_decide (a = "<"%char) || bool_decide (a = ">"%char) || bool_decide (a = ascii_of_nat 34) || bool_decide (a = "'"%char).

Fixpoint plain (s : string) : bool :=
  match s with EmptyString => true | String a rest => negb (markup a) && plain rest end.

Lemma plain_app s t : plain (s +:+ t) = plain s && plain t.
Proof.
  induction s as [|a s IH]; [done|]. change (String a s +:+ t) with (String a (s +:+ t)).
  cbn [plain]. by rewrite IH, andb_assoc.
Qed.

Lemma escape_byte_plain a : plain (escape_byte a) = true.
Proof. destruct a as [[] [] [] [] [] [] [] []]; reflexivity. Qed.

Lemma unescape_byte fuel a t : unescape (S fuel) (escape_byte a +:+ t) = String a (unescape fuel t).
Proof.
  unfold escape_byte. repeat case_decide; subst;
    [set (e := "&amp;")|set (e := "&lt;")|set (e := "&gt;")|set (e := "&quot;")|set (e := "&apos;")|].
  1-5: pose proof (proj2 (HasPrefix_spec (e +:+ t) e) (ex_intro _ t eq_refl)) as Hp; pose proof (str_from_app e t) as Hs;
    change (e +:+ t) with (String "&"%char (str_from 1 e +:+ t)) in Hp, Hs |- *; cbn [unescape];
    change (str_from (String.length e)) with (str_from (Nat.add 0 (String.length e))) in Hs; cbn [String.length Nat.add e] in Hs; subst e;
    repeat match goal with |- context [HasPrefix ?u ?p] => first [rewrite Hp; clear Hp | change (HasPrefix u p) with false] end;
    cbn iota; by rewrite Hs.
  change (String a "" +:+ t) with (String a t). cbn [unescape]. unfold HasPrefix. cbn [String.prefix].
  by destruct (ascii_dec "&" a).
Qed.

(** the names, places and descriptions of skills cannot forge markup in the
    catalog: an escaped text has no angle bracket and no quote, and nothing of
    it is lost, for replacing the entities gives the text back. *)
Theorem xml_escape_exact s :
  plain (xmlEscape s) = true /\ unescape (String.length s) (xmlEscape s) = s.
Proof.
  induction s as [|a s [IH1 IH2]]; [done|]. cbn [xmlEscape String.length]. split.
  - by rewrite plain_app, escape_byte_plain, IH1.
  - by rewrite unescape_byte, IH2.
Qed.

(** ** Priorities *)

Definition scored_key (a : scoredEntry) : list Z := [- sc_domain a; - sc_catalog a; Z.of_nat (sc_index a)].

#[local] Instance less_scored_weak : StrictWeak less_scored (fun _ => True).
Proof.
  apply (StrictWeak_key _ _ scored_key 3); [done|]. intros a b _ _. unfold less_scored, scored_key.
  apply int_desc, int_desc. rewrite bool_decide_eq_true. cbn. lia.
Qed.

Lemma scored_indices entries contextText detected :
  sc_index <$> score_entries entries contextText detected = seq 0 (length entries).
Proof.
  unfold score_entries. cbv zeta. apply list_eq. intros i. rewrite list_lookup_fmap, list_lookup_imap.
  destruct (entries !! i) eqn:E0; cbn.
  - symmetry. apply lookup_seq. split; [done|]. by eapply lookup_lt_Some.
  - symmetry. apply lookup_seq_ge. by apply lookup_ge_None.
Qed.

Lemma scored_entries entries contextText detected :
  sc_entry <$> score_entries entries contextText detected = entries.
Proof.
  unfold score_entries. cbv zeta. apply list_eq. intros i. rewrite list_lookup_fmap, list_lookup_imap. by destruct (entries !! i).
Qed.

Lemma prioritize_perm entries contextText detected : prioritizePromptCatalog entries contextText detected ≡ₚ entries.
Proof.
  unfold prioritizePromptCatalog. case_decide; [done|]. rewrite SliceStable_perm. by rewrite scored_entries.
Qed.

(** the skills are all kept and put into the order of their scores: one that
    covers more of the detected domains comes first, then one whose name and
    description match the conversation better, then the order of the catalog. *)
Theorem catalog_prioritized entries contextText detected :
  TrimSpace contextText <> "" \/ detected <> [] ->
  exists l, prioritizePromptCatalog entries contextText detected = sc_entry <$> l
  /\ l ≡ₚ score_entries entries contextText detected
  /\ (sc_entry <$> score_entries entries contextText detected) = entries
  /\ forall i j a b, (i < j)%nat -> l !! i = Some a -> l !! j = Some b ->
       sc_domain b < sc_domain a \/ sc_domain a = sc_domain b /\ (sc_catalog b < sc_catalog a
       \/ sc_catalog a = sc_catalog b /\ (sc_index a < sc_index b)%nat).
Proof.
  intros Hne. exists (SliceStable less_scored (score_entries entries contextText detected)). split_and!.
  - unfold prioritizePromptCatalog. rewrite decide_False; [done|]. tauto.
  - apply SliceStable_perm.
  - apply scored_entries.
  - intros i j a b Hij Ha Hb. set (l := score_entries _ _ _) in *.
    assert (in_order less_scored a b) as Hab.
    { eapply StronglySorted_lookup; [|exact Hij|exact Ha|exact Hb]. by apply (SliceStable_sorted _ (ok := fun _ => True)), Forall_true. }
    assert (sc_index a <> sc_index b) as Hne'.
    { intros E0. assert (i = j); [|lia]. eapply (NoDup_lookup (sc_index <$> SliceStable less_scored l)).
      - rewrite SliceStable_perm. unfold l. rewrite scored_indices. apply NoDup_seq.
      - rewrite list_lookup_fmap, Ha. done.
      - rewrite list_lookup_fmap, Hb. cbn. by rewrite E0. }
    unfold in_order, less_scored in Hab. repeat case_decide; try case_bool_decide; try done; lia.
Qed.

(** ** The length of the prompt *)

Lemma catalog_enclosed entries omitted notice : enclosed (FormatPromptCatalogWithNotice entries omitted notice).
Proof.
  unfold FormatPromptCatalogWithNotice. generalize (Joins (entry_line <$> entries) "") as a. generalize (omitted_note omitted notice) as b.
  intros b a. exists ("skills>" +:+ nl +:+ a +:+ b +:+ "</skills").
  change ("<skills>" +:+ nl +:+ a +:+ b +:+ "</skills>") with (String "<"%char ("skills>" +:+ nl +:+ a +:+ b +:+ "</skills>")).
  by rewrite !string_app_assoc.
Qed.

Lemma catalog_trimmed entries omitted notice :
  TrimSpace (FormatPromptCatalogWithNotice entries omitted notice) = FormatPromptCatalogWithNotice entries omitted notice.
Proof. apply enclosed_trimmed, catalog_enclosed. Qed.

Lemma catalog_nonempty entries omitted notice : FormatPromptCatalogWithNotice entries omitted notice <> "".
Proof. done. Qed.

Lemma skill_loop_spec rest selected total limit :
  selected <> [] -> (String.length (partial_catalog total selected) <= limit)%nat ->
  exists k, (length selected <= k <= length (selected ++ rest))%nat
  /\ skill_loop rest selected (partial_catalog total selected) total limit
     = inr (take k (selected ++ rest), partial_catalog total (take k (selected ++ rest)))
  /\ (String.length (partial_catalog total (take k (selected ++ rest))) <= limit)%nat
  /\ ((k < length (selected ++ rest))%nat -> (limit < String.length (partial_catalog total (take (S k) (selected ++ rest))))%nat).
Proof.
  revert selected. induction rest as [|e rest IH]; intros selected Hne Hfit.
  - exists (length selected). rewrite app_nil_r, take_ge by lia. cbn [skill_loop]. split_and!; [lia|lia|done|done|lia].
  - cbn [skill_loop]. case_decide as Hl.
    + exists (length selected). rewrite take_app_length, length_app. cbn [length]. split_and!; [lia|lia| |done|].
      * by destruct selected.
      * intros _. replace (S (length selected)) with (length (selected ++ [e])) by (rewrite length_app; cbn; lia).
        replace (selected ++ e :: rest) with ((selected ++ [e]) ++ rest) by (by rewrite <- app_assoc). by rewrite take_app_length.
    + destruct (IH (selected ++ [e])) as (k & Hk & H); [by destruct selected|lia|].
      rewrite <- app_assoc in Hk, H. cbn [app] in Hk, H. rewrite length_app in Hk. cbn [length] in Hk.
      exists k. split; [lia|done].
Qed.

(** the skill prompt of a catalog is the whole catalog when it is within the
    limit.  Otherwise it is a longest run of the entries with the highest
    priority that is within the limit, with a note of how many are left out; and
    when even the first entry is too long, that entry cut, which may exceed the
    limit by the twelve bytes of the mark. *)
Theorem skill_prompt_fits limit summary messages run catalog block :
  catalog <> [] -> 0 < limit ->
  let detected := match run with Some r => Rn_DetectedDomains r | None => [] end in
  let ordered := prioritizePromptCatalog catalog (skillPromptContext summary messages run) detected in
  let shown k := partial_catalog (length ordered) (take k ordered) in
  let p := selectSkillPrompt true limit summary messages run catalog block in
  (Z.of_nat (String.length (FormatPromptCatalog catalog)) <= limit -> p = FormatPromptCatalog catalog)
  /\ (limit < Z.of_nat (String.length (FormatPromptCatalog catalog)) ->
      (exists k, (0 < k <= length ordered)%nat /\ p = shown k /\ Z.of_nat (String.length p) <= limit
         /\ ((k < length ordered)%nat -> limit < Z.of_nat (String.length (shown (S k)))))
      \/ (limit < Z.of_nat (String.length (shown 1%nat)) /\ p = softTrimContent (shown 1%nat) (Z.to_nat limit) 0
         /\ Z.of_nat (String.length p) <= limit + 12)).
Proof.
  intros Hne Hpos. cbv zeta. unfold selectSkillPrompt. cbn [negb orb]. rewrite (bool_decide_eq_false_2 _ Hne).
  unfold FormatPromptCatalog. rewrite catalog_trimmed, (decide_False _ _ (catalog_nonempty catalog 0 "")). fold (FormatPromptCatalog catalog).
  split; [intros Hfit; by rewrite decide_True by auto|]. intros Hlong. rewrite decide_False by lia.
  set (ordered := prioritizePromptCatalog _ _ _). assert (Permutation ordered catalog) as Hp by apply prioritize_perm.
  destruct ordered as [|e rest] eqn:Eo; [by apply Permutation_nil_l in Hp|]. rewrite <- Eo in Hp. clearbody ordered.
  cbn [skill_loop app]. case_decide as Hl.
  - right. change (take 1 (e :: rest)) with [e]. split_and!; [lia|done|]. pose proof (proj2 (proj2 (soft_trim_bounds (partial_catalog (length (e :: rest)) [e]) (Z.to_nat limit) 0))). lia.
  - left. destruct (skill_loop_spec rest [e] (length (e :: rest)) (Z.to_nat limit)) as (k & Hk & Hs & Hfit & Hmax); [done|lia|].
    exists k. cbn [app] in Hs, Hfit, Hmax, Hk. rewrite Hs.
    rewrite decide_False by apply catalog_nonempty.
    assert (TrimSpace (partial_catalog (length (e :: rest)) (take k (e :: rest))) = partial_catalog (length (e :: rest)) (take k (e :: rest)))
      as -> by apply catalog_trimmed.
    cbn [length] in *. split_and!; [lia|lia|done|lia|]. intros H. specialize (Hmax H). lia.
Qed.

(** ** Allowed skills *)

Lemma allowed_set_spec allowed name :
  name ∈ allowed_set allowed <-> exists a, a ∈ allowed /\ TrimSpace a <> "" /\ name = ToLower (TrimSpace a).
Proof.
  unfold allowed_set. rewrite elem_of_list_to_set, list_elem_of_fmap. split.
  - intros (x & -> & [Hx (a & -> & Ha)%list_elem_of_fmap]%list_elem_of_filter). by exists a.
  - intros (a & Ha & Hne & ->). exists (TrimSpace a). split; [done|]. apply list_elem_of_filter. split; [done|]. by apply list_elem_of_fmap_2.
Qed.

(** a run that allows some skills sees these and no others: a catalog entry is
    in the filtered snapshot exactly when its name is one of the allowed ones, up
    to case and surrounding blanks, and so is a skill by its key; the prompt block
    lists the entries that are left.  Only blank names allow everything. *)
Theorem allowed_skills_only sn allowed :
  let out := filterSkillSnapshot sn allowed in
  let named n := exists a, a ∈ allowed /\ TrimSpace a <> "" /\ ToLower (TrimSpace n) = ToLower (TrimSpace a) in
  (Forall (fun a => TrimSpace a = "") allowed -> out = sn)
  /\ (Exists (fun a => TrimSpace a <> "") allowed ->
      (forall e, e ∈ Sn_PromptCatalog out <-> e ∈ Sn_PromptCatalog sn /\ named (Pc_Name e))
      /\ (forall n b, Sn_Skills out !! n = Some b <-> Sn_Skills sn !! n = Some b /\ named n)
      /\ (forall b, b ∈ Sn_Ordered out <-> b ∈ Sn_Ordered sn /\ exists n, package_name b = Some n /\ named n)
      /\ Sn_PromptBlock out = FormatPromptCatalog (Sn_PromptCatalog out)).
Proof.
  cbv zeta. assert (forall n, admits (allowed_set allowed) n = true <->
    exists a, a ∈ allowed /\ TrimSpace a <> "" /\ ToLower (TrimSpace n) = ToLower (TrimSpace a)) as Hadm.
  { intros n. unfold admits. rewrite bool_decide_eq_true. apply allowed_set_spec. }
  unfold filterSkillSnapshot. split.
  - intros Hall. rewrite decide_True; [done|]. apply elem_of_equiv_empty_L. intros x (a & Ha & Hne & _)%allowed_set_spec.
    rewrite Forall_forall in Hall. by apply Hne, Hall.
  - intros (a & Ha & Hne)%Exists_exists. rewrite decide_False.
    2: { intros E0. assert (ToLower (TrimSpace a) ∈ allowed_set allowed) as H by (apply allowed_set_spec; eauto). by rewrite E0 in H. }
    cbn [Sn_PromptCatalog Sn_Skills Sn_Ordered Sn_PromptBlock]. split_and!.
    + intros e. rewrite list_elem_of_filter, Hadm. tauto.
    + intros n b. rewrite map_lookup_filter_Some, Hadm. tauto.
    + intros b. rewrite list_elem_of_filter. destruct (package_name b) as [n|]; [rewrite Hadm; naive_solver|naive_solver].
    + apply catalog_trimmed.
Qed.
End Skills.

(** ** Examples *)

Definition ascii_runes : GoRunes :=
  {| IsLetter := fun _ => false; IsDigit := fun _ => false; IsKana := fun _ => false;
     ToLowerRune := fun r => if decide (65 <= r <= 90) then r + 32 else r |}.

Definition named_skills : BoundSkills := {| BoundSkill := string; package_name := Some |}.

Section Examples.
#[local] Existing Instances ascii_unicode ascii_runes named_skills.

Definition sample_catalog : list PromptCatalogEntry :=
  [mkCatalogEntry "calendar" "Plan meetings" "/skills/calendar" ["office"];
   mkCatalogEntry "deploy" "Ship a service to staging" "/skills/deploy" ["ops"];
   mkCatalogEntry "mail" (repeat_byte 200 "<"%char) "/skills/mail" ["office"]].

Definition deploy_question : list Message := [mkMessage RoleUser "Please deploy to staging" [] "" "" [] 0 []].

Lemma catalog_prioritized_witness :
  prioritizePromptCatalog sample_catalog "please deploy to staging" [] !! 0%nat = sample_catalog !! 1%nat
  /\ exists l, prioritizePromptCatalog sample_catalog "please deploy to staging" [] = sc_entry <$> l
     /\ l ≡ₚ score_entries sample_catalog "please deploy to staging" [].
Proof.
  split; [vm_compute; reflexivity|].
  destruct (catalog_prioritized sample_catalog "please deploy to staging" []) as (l & H1 & H2 & _); [left; by vm_compute|].
  exists l. split; [exact H1|exact H2].
Defined.

Lemma skill_prompt_fits_witness :
  let p := selectSkillPrompt true 400 "" deploy_question None sample_catalog "" in
  Contains p "1 additional skills omitted." = true
  /\ ((exists k, (0 < k <= 3)%nat /\ Z.of_nat (String.length p) <= 400) \/ Z.of_nat (String.length p) <= 400 + 12).
Proof.
  cbv zeta. split; [vm_compute; reflexivity|].
  destruct (skill_prompt_fits 400 "" deploy_question None sample_catalog "") as [_ H]; [done|lia|].
  destruct H as [(k & Hk & _ & Hl & _)|(_ & _ & Hl)]; [vm_compute; reflexivity| |right; exact Hl].
  left. exists k. split; [exact Hk|exact Hl].
Defined.
End Examples.
