(* ===== verification/ContextPrepare.v ===== *)
(** * Preparing a model call ([contextengine/engine_prepare.go],
    [engine_budgeting.go], [engine_prompt.go], [engine.go])

    [Prepare] puts a request together: the base, run and skill prompts, the
    pinned facts, the state of the session and the recalled segments make up the
    system prompt; a summary and the messages that fit the budget follow.  A
    missing session is an error of the caller and is not modelled. *)
From S2P Require Import Prelude GoLib GoText TextTrim GoClock GoFloat GoSort ResultModel ContextBudget ContextMessages.
From S2P Require Import ContextEstimate ContextSummary ContextPinned AgentMemory SegmentStore SegmentRollup SessionState.
From S2P Require Import Identifiers ContextCompact SegmentSearch ContextRecall SkillPrompt.
From Stdlib Require Import Ascii Floats.SpecFloat.
Import Str Text GoTime.

Local Open Scope Z_scope.

(** ** Configuration *)

(** The fields of [Config] that preparing reads; the estimator is a class. *)
Record Config := mkConfig {
  BaseSystemPrompt : string; IncludeSkillCatalog : bool; SkillPromptMaxChars : Z; KeepFirstN : Z; KeepLastN : Z;
  MaxInputRatio : float64; DefaultContextWindow : Z; DefaultOutputTokens : Z; ToolResultMaxChars : Z; ToolResultKeepLines : Z;
  CfgCompactKeepLastN : Z; CfgCompactSummaryChars : Z; CfgPinnedFactsMaxChars : Z; AutoCompactThreshold : float64 }.

(** The defaults of [NewSlidingWindowEngine]. *)
Definition or_default (n d : Z) : Z := if decide (n <= 0) then d else n.

Definition NewSlidingWindowEngine (c : Config) : Config :=
  mkConfig (BaseSystemPrompt c) (IncludeSkillCatalog c) (or_default (SkillPromptMaxChars c) 12000)
    (if decide (KeepFirstN c < 0) then 0 else KeepFirstN c) (or_default (KeepLastN c) 20)
    (if fleb (MaxInputRatio c) (of_int 0) || fltb (of_int 1) (MaxInputRatio c) then lit 3 4 else MaxInputRatio c)
    (or_default (DefaultContextWindow c) 128000) (or_default (DefaultOutputTokens c) 4000)
    (or_default (ToolResultMaxChars c) 4000) (or_default (ToolResultKeepLines c) 20)
    (or_default (CfgCompactKeepLastN c) 20) (or_default (CfgCompactSummaryChars c) 4000)
    (or_default (CfgPinnedFactsMaxChars c) 4000) (AutoCompactThreshold c).

(** ** The budget *)

Record Budget := mkBudget {
  ContextWindow : Z; ReservedOutput : Z; MaxInputTokens : Z; EstimatedInputTokens : Z; RemainingInputTokens : Z }.

(** A positive limit of the run overrides the default. *)
Definition run_limit (limit : ContextRun -> Z) (run : option ContextRun) (default : Z) : Z :=
  match run with Some r => if decide (0 < limit r) then limit r else default | None => default end.

Definition input_budget (c : Config) (window reserved : Z) : Z :=
  let maxInput := Z.min (window - reserved) (to_int (fmul (of_int window) (MaxInputRatio c))) in
  if decide (maxInput < 0) then 0 else maxInput.

(** ** Segments *)

Record ContextSegment := mkContextSegment { Cs_Kind : string; Cs_Tokens : Z; Cs_MessageCount : nat }.

Definition segmentTokens (segments : list ContextSegment) : Z := foldl (fun total s => total + Cs_Tokens s) 0 segments.

Section Prepare.
Context {U : GoUnicode} {R : GoRunes} {B : BoundSkills} {P : GoSprint} {T : GoTimeText} {N : GoNumberText}
  {E : TokenEstimator} {M : AgentMemory}.

Definition budgetPlanDomains (run : option ContextRun) : list string :=
  match run with Some r => dedupeStrings (Rn_DetectedDomains r) | None => [] end.

Definition budgetPlanJobType (run : option ContextRun) : string :=
  match run with Some r => TrimSpace (Rn_JobType r) | None => "" end.

Definition text_segment (kind text : string) : list ContextSegment :=
  if decide (text = "") then [] else [mkContextSegment kind (Estimate text) 0].

Definition buildSegments (basePrompt runPrompt skillPrompt pinnedFactsPrompt statePrompt recalledPrompt summary : string)
    (selected : list Message) : list ContextSegment :=
  text_segment "base_system" basePrompt ++ text_segment "run_system" runPrompt ++ text_segment "skill_prompt" skillPrompt
  ++ text_segment "pinned_facts" pinnedFactsPrompt ++ text_segment "session_state" statePrompt
  ++ text_segment "recalled_segments" recalledPrompt
  ++ (if decide (TrimSpace summary = "") then [] else [mkContextSegment "summary" (Estimate summary) 0])
  ++ match selected with [] => [] | _ => [mkContextSegment "messages" (EstimateMessages selected) (length selected)] end.

(** ** Parts of the system prompt *)

Definition trimPinnedFactsPromptToBudget (content : string) (maxTokens : Z) : string :=
  let content := TrimSpace content in
  if decide (content = "" \/ maxTokens <= 0) then ""
  else if decide (Estimate content <= maxTokens) then content else
  let trimmed := softTrimContent content (Z.to_nat (maxTokens * 4)) 3 in
  if negb (Contains trimmed "[truncated]") then trimmed else
  let ls := lines content in
  let n := length ls in
  if decide (n <= 3)%nat then trimmed else
  let headCount := if decide (n < 2)%nat then n else 2%nat in
  let tailCount := if decide (n - headCount < 2)%nat then (n - headCount)%nat else 2%nat in
  if decide (tailCount <= 0)%nat then trimmed else
  let omitted := (n - headCount - tailCount)%nat in
  let note := if decide (0 < omitted)%nat then ["... [" +:+ itoa omitted +:+ " lines omitted] ..."] else [] in
  let candidate := TrimSpace (Joins (take headCount ls ++ note ++ drop (n - tailCount) ls) nl) in
  if decide (candidate = "" \/ (String.length content <= String.length candidate)%nat) then trimmed else candidate.

(** The readers of an engine, when they are set. *)
Record Readers := mkReaders {
  Rd_Segments : option SegmentDB; Rd_Searcher : option (string -> string -> list float64 -> Z -> option (list SummarySegment));
  Rd_Embed : option (list string -> option (list (list float64))); Rd_States : option StateTable; Rd_Memory : option Mem }.

Definition prepareSummarySource (rd : Readers) (s : Session) : string :=
  match Rd_Segments rd with
  | Some db =>
    if decide (TrimSpace (S_ID s) = "") then S_Summary s else
    match RecentSegments db (S_ID s) 1 1 with
    | inr (seg :: _) => let text := TrimSpace (Sg_SummaryText seg) in if decide (text = "") then S_Summary s else text
    | _ => S_Summary s
    end
  | None => S_Summary s
  end.

Definition prepareStatePrompt (rd : Readers) (s : Session) (plan : BudgetPlan) (now : Time) : string :=
  match Rd_States rd with
  | Some tbl =>
    if decide (TrimSpace (S_ID s) = "") then "" else
    match ActiveStates tbl (S_ID s) now with
    | inl _ => ""
    | inr states => if decide (states = [] \/ TaskState plan <= 0) then "" else sessionStateForPrompt states (TaskState plan)
    end
  | None => ""
  end.

Definition refreshPinnedFacts (rd : Readers) (s : Session) (now : Time) : Session :=
  let durable := match Rd_Memory rd with Some mem => LoadPinnedFactsFromMemory mem now | None => [] end in
  mkSession (S_ID s) (S_Messages s) (S_Summary s) (S_SummaryAt s)
    (mergePinnedFacts [durable; S_PinnedFacts s; collectPinnedFacts (S_Messages s)])
    (S_ExecutionWatermark s) (S_LoadedMessageSeqs s).

(** ** Preparing *)

Record PreparedContext := mkPrepared {
  Pr_SystemPrompt : string; Pr_Messages : list Message; Pr_Skills : SessionSkillSnapshot; Pr_Segments : list ContextSegment;
  Pr_Budget : Budget; Pr_SessionStatePrompt : string; Pr_RecalledContextPrompt : string;
  Pr_RetrievalReceipt : option RetrievalReceipt; Pr_NeedsCompaction : bool }.

(** The two trims of the selected messages. *)
Definition prepare_messages (c : Config) (plan : BudgetPlan) (maxInput : Z) (systemPrompt summaryPrompt : string)
    (messages : list Message) : list Message :=
  let first := Z.to_nat (KeepFirstN c) in
  let selected := selectMessages first (Z.to_nat (KeepLastN c)) messages in
  let selected :=
    if decide (RecentMessages plan <= 0) then []
    else trimMessagesToBudget first "" summaryPrompt selected (RecentMessages plan + Knowledge plan + Estimate summaryPrompt) in
  trimMessagesToBudget first systemPrompt summaryPrompt selected maxInput.

Definition needs_compaction (c : Config) (messages : list Message) (systemPrompt summaryPrompt : string) (maxInput : Z) : bool :=
  if fltb (of_int 0) (AutoCompactThreshold c) && bool_decide (0 < maxInput) then
    let raw := EstimateMessages messages + (Estimate systemPrompt + Estimate summaryPrompt) in
    fleb (AutoCompactThreshold c) (fdiv (of_int raw) (of_int maxInput))
  else false.

(** The prepared context with the session and the skill snapshot it leaves, or
    nothing when planning the budget panics; [map_order] is the order in which
    maps are read and [ctxFingerprint] the fingerprint of the runtime context. *)
Definition Prepare (c : Config) (rd : Readers) (binder : option SkillBinder) (map_order : gmap string nat -> list (string * nat))
    (s : Session) (skills : SessionSkillSnapshot) (run : option ContextRun) (ctxFingerprint : string) (now : Time) :
    option (PreparedContext * Session * SessionSkillSnapshot) :=
  let '(bound, kept) := bindSkills binder skills ctxFingerprint in
  let snapshot := match run with Some r => filterSkillSnapshot bound (Rn_AllowedSkills r) | None => bound end in
  let basePrompt := TrimSpace (BaseSystemPrompt c) in
  let runPrompt := match run with Some r => TrimSpace (Rn_SystemPrompt r) | None => "" end in
  let window := run_limit Rn_MaxContextTokens run (DefaultContextWindow c) in
  let reserved := run_limit Rn_MaxOutputTokens run (DefaultOutputTokens c) in
  let maxInput := input_budget c window reserved in
  plan ← PlanBudget maxInput (budgetPlanJobType run) (budgetPlanDomains run);
  let summarySource := prepareSummarySource rd s in
  let summaryPrompt := summaryForPrompt (CfgCompactSummaryChars c) summarySource in
  let s := refreshPinnedFacts rd s now in
  let pinnedFactsPrompt := trimPinnedFactsPromptToBudget
    (pinnedFactsForPrompt (Z.to_nat (CfgPinnedFactsMaxChars c)) (S_PinnedFacts s)) (PinnedFacts plan) in
  let statePrompt := prepareStatePrompt rd s plan now in
  let '(recalledPrompt, receipt) :=
    prepareRecalledPrompt (Rd_Embed rd) (Rd_Searcher rd) map_order (S_ID s) (S_Messages s) run summarySource plan now now in
  let skillPrompt := selectSkillPrompt (IncludeSkillCatalog c) (SkillPromptMaxChars c) (S_Summary s) (S_Messages s) run
    (Sn_PromptCatalog snapshot) (Sn_PromptBlock snapshot) in
  let systemPrompt := joinPromptSections [basePrompt; runPrompt; skillPrompt; pinnedFactsPrompt; statePrompt; recalledPrompt] in
  let selected := prepare_messages c plan maxInput systemPrompt summaryPrompt (S_Messages s) in
  let segments := buildSegments basePrompt runPrompt skillPrompt pinnedFactsPrompt statePrompt recalledPrompt summaryPrompt selected in
  let estimated := segmentTokens segments in
  let budget := mkBudget window reserved maxInput estimated (Z.max 0 (maxInput - estimated)) in
  Some (mkPrepared systemPrompt (composeMessages summaryPrompt selected now) snapshot segments budget statePrompt recalledPrompt
          receipt (needs_compaction c (S_Messages s) systemPrompt summaryPrompt maxInput), s, kept).

(** ** The request fits *)

Lemma prepare_messages_fit c plan maxInput sys summary messages :
  let selected := prepare_messages c plan maxInput sys summary messages in
  (selected = [] \/ fits sys summary maxInput selected) /\ selected `sublist_of` messages.
Proof.
  cbv zeta. unfold prepare_messages, trimMessagesToBudget. set (first := Z.to_nat (KeepFirstN c)).
  set (mid := if decide _ then _ else _).
  assert (mid `sublist_of` messages) as Hmid.
  { unfold mid. case_decide; [apply sublist_nil_l|].
    etrans; [by apply trim_loop_spec|apply select_sublist]. }
  destruct (trim_loop_spec (length mid) first sys summary maxInput mid) as (H1 & H2 & _); [lia|].
  split; [done|by etrans].
Qed.

Lemma input_budget_range c window reserved :
  0 <= input_budget c window reserved <= Z.max 0 (window - reserved).
Proof. unfold input_budget. cbv zeta. case_decide; lia. Qed.

Lemma plan_total t jobType domains : t < total_bound -> exists plan, PlanBudget t jobType domains = Some plan
  /\ (0 < t -> sum_list_Z (sections plan) = t).
Proof.
  intros Ht. destruct (decide (t <= 0)) as [Hz|Hz].
  - exists zeroPlan. split; [unfold PlanBudget; by rewrite decide_True|lia].
  - destruct (PlanBudget_spec t jobType domains) as (plan & H1 & H2 & _); [lia|]. by exists plan.
Qed.

(** A session with other pinned facts. *)
Definition with_facts (facts : list PinnedFact) (s : Session) : Session :=
  mkSession (S_ID s) (S_Messages s) (S_Summary s) (S_SummaryAt s) facts (S_ExecutionWatermark s) (S_LoadedMessageSeqs s).


(** ** Tool results *)

(** [tool_metadata] is the metadata of the message of a result: that of the result
    and the result itself as JSON. *)
Variable tool_metadata : ToolResult -> Metadata.

Definition tool_content (c : Config) (r : ToolResult) : string :=
  let content := TrimSpace (TR_TranscriptText r) in
  if decide (0 < ToolResultMaxChars c < Z.of_nat (String.length content))
  then softTrimContent content (Z.to_nat (ToolResultMaxChars c)) (Z.to_nat (ToolResultKeepLines c)) else content.

Definition tool_message (c : Config) (now : Time) (result : ToolResult) : Message :=
  let r := ToolResult_Normalized result in
  mkMessage RoleTool (tool_content c r) [] (TR_ToolName r) (TR_ToolCallID r) [] now (tool_metadata r).

Definition AppendToolResults (c : Config) (s : Session) (results : list ToolResult) (now : Time) : Session :=
  mkSession (S_ID s) (S_Messages s ++ (tool_message c now <$> results)) (S_Summary s) (S_SummaryAt s) (S_PinnedFacts s)
    (S_ExecutionWatermark s) (S_LoadedMessageSeqs s).

(** Appending results adds one tool message for each, in order, and leaves the
    rest of the session alone; a transcript within the limit is kept, and a
    longer one is cut to the limit and a mark unless its first and last lines
    are kept, and then it is still shorter. *)
Lemma tool_results_appended c s results now :
  0 < ToolResultMaxChars c ->
  exists added, S_Messages (AppendToolResults c s results now) = S_Messages s ++ added
  /\ Forall2 (fun r m => M_Role m = RoleTool /\ M_ToolCallID m = TR_ToolCallID (ToolResult_Normalized r)
       /\ let text := Transcript r in
          (Z.of_nat (String.length text) <= ToolResultMaxChars c -> M_Content m = text)
          /\ (ToolResultMaxChars c < Z.of_nat (String.length text) ->
              Z.of_nat (String.length (M_Content m)) <= ToolResultMaxChars c + 12
              \/ (String.length (M_Content m) < String.length text)%nat)) results added.
Proof.
  intros Hpos. exists (tool_message c now <$> results). split; [done|]. apply Forall2_fmap_r, Forall_Forall2_diag, Forall_true.
  intros r. split_and!; [done|done|]. cbv zeta. unfold tool_message, tool_content, Transcript. cbn [M_Content].
  generalize (TrimSpace (TR_TranscriptText (ToolResult_Normalized r))) as text. intros text.
  split; [intros Hl; by rewrite decide_False by lia|]. intros Hl. rewrite decide_True by lia.
  destruct (soft_trim_bounds text (Z.to_nat (ToolResultMaxChars c)) (Z.to_nat (ToolResultKeepLines c))) as (_ & [H|(_ & _ & H)] & _);
    [left; lia|by right].
Qed.
End Prepare.

(** ** Defaults *)

Lemma non_negative n : 0 <= if decide (n < 0) then 0 else n.
Proof. case_decide; lia. Qed.

(** every engine has usable limits: a positive window, output reserve, message
    count and text limits, and a share of the window that is not at or below 0 and
    not above 1; and setting the defaults again changes nothing. *)
Theorem engine_limits_positive c :
  let e := NewSlidingWindowEngine c in
  0 <= KeepFirstN e /\ 0 < KeepLastN e /\ 0 < DefaultContextWindow e /\ 0 < DefaultOutputTokens e /\ 0 < SkillPromptMaxChars e
  /\ 0 < ToolResultMaxChars e /\ 0 < ToolResultKeepLines e /\ 0 < CfgCompactKeepLastN e /\ 0 < CfgCompactSummaryChars e
  /\ 0 < CfgPinnedFactsMaxChars e /\ fleb (MaxInputRatio e) (of_int 0) = false /\ fltb (of_int 1) (MaxInputRatio e) = false
  /\ NewSlidingWindowEngine e = e.
Proof.
  cbv zeta. assert (forall n d, 0 < d -> 0 < or_default n d) as Hd by (intros; unfold or_default; case_decide; lia).
  assert (forall n d, 0 < d -> or_default (or_default n d) d = or_default n d) as Hi
    by (intros n d ?; unfold or_default; repeat case_decide; lia).
  set (ratio := MaxInputRatio (NewSlidingWindowEngine c)).
  assert (fleb ratio (of_int 0) = false /\ fltb (of_int 1) ratio = false) as [R1 R2].
  { unfold ratio, NewSlidingWindowEngine. cbn [MaxInputRatio]. destruct (fleb (MaxInputRatio c) (of_int 0)) eqn:E1; cbn [orb]; [done|].
    destruct (fltb (of_int 1) (MaxInputRatio c)) eqn:E2; [done|]. done. }
  split_and!; try (cbn -[or_default]; by apply Hd); try done; [by apply non_negative|].
  change (NewSlidingWindowEngine c) with (mkConfig (BaseSystemPrompt c) (IncludeSkillCatalog c) (or_default (SkillPromptMaxChars c) 12000)
    (if decide (KeepFirstN c < 0) then 0 else KeepFirstN c) (or_default (KeepLastN c) 20) ratio
    (or_default (DefaultContextWindow c) 128000) (or_default (DefaultOutputTokens c) 4000)
    (or_default (ToolResultMaxChars c) 4000) (or_default (ToolResultKeepLines c) 20)
    (or_default (CfgCompactKeepLastN c) 20) (or_default (CfgCompactSummaryChars c) 4000)
    (or_default (CfgPinnedFactsMaxChars c) 4000) (AutoCompactThreshold c)).
  unfold NewSlidingWindowEngine. f_equal; try (by apply Hi).
  - by apply decide_False, Zle_not_lt, non_negative.
  - cbn [MaxInputRatio]. by rewrite R1, R2.
Qed.

(** A configuration cannot turn line-preserving trimming off, although the comment
    of the field says that 0 does. *)
Lemma keep_lines_not_off c : ToolResultKeepLines c = 0 -> ToolResultKeepLines (NewSlidingWindowEngine c) = 20.
Proof. intros H. cbn. by rewrite H. Qed.

(** ** Examples *)

Section Examples.
Definition no_numbers : GoNumberText := {| ParseFloat := fun _ => None; ToUpper := fun s => s |}.
#[local] Existing Instances ascii_unicode ascii_runes named_skills plain_sprint whole_durations length_estimator sample_memory no_numbers.

Definition prepare_config : Config :=
  NewSlidingWindowEngine (mkConfig "Be brief." true 0 1 0 (of_int 1) 60 40 0 0 0 0 0 (lit 8 10)).

Definition no_readers : Readers := mkReaders None None None None None.

Definition prepare_session : Session :=
  mkSession "s1" [sample_call; sample_reply "c1"; sample_message 1] "" 0 [] 0 [1; 2; 3].

(** What can be read off a prepared context at a glance. *)
Definition prepared_outline (r : option (PreparedContext * Session * SessionSkillSnapshot)) : option (Z * Z * nat * bool) :=
  (fun '(p, _, _) => (MaxInputTokens (Pr_Budget p), EstimatedInputTokens (Pr_Budget p), length (Pr_Messages p), Pr_NeedsCompaction p)) <$> r.


(** The messages that are sent may exceed the budget they were trimmed to: a call
    whose reply does not fit is answered by a synthetic reply afterwards. *)
Theorem repair_exceeds_budget :
  let messages := [sample_call; sample_reply "c1"; sample_message 1] in
  let selected := trimMessagesToBudget 1 "" "" messages 2 in
  let sent := composeMessages "" selected 100 in
  EstimateMessages selected = 2 /\ EstimateMessages sent = 4.
Proof. vm_compute. done. Qed.
End Examples.
