(* ===== verification/Summarizer.v ===== *)
(** * Summarizing with a model ([contextengine/summarizer.go])

    Long conversations are split in two, each part is cut into chunks that fit a
    share of the model's window, the chunks are summarized one by one and the
    partial summaries are merged; messages that are too large are left out when
    the model fails.  A quality guard checks the sections and the identifiers of
    the summary and asks again.  The model is a function of the calls made so
    far, so that it may answer the same request differently. *)
From S2P Require Import Prelude GoLib GoText TextTrim GoClock GoFloat GoSort ContextMessages ContextEstimate ContextSummary.
From S2P Require Import ContextPinned ResultModel SessionState Identifiers SkillPrompt.
From Stdlib Require Import Ascii Floats.SpecFloat.
Import Str Text GoTime.

Local Open Scope Z_scope.

(** ** Prompts *)

Definition singleStageSystemPrompt : string := Joins
  ["You are a conversation summarizer. Produce a concise summary of the conversation that preserves:";
   "- Active tasks and their current status (in-progress, blocked, pending)";
   "- The last thing the user requested and what was being done about it";
   "- Pending approvals or items awaiting user confirmation";
   "- Delivery targets, output format requirements, and citation/source requests stated by the user";
   "- The user's language preference and communication style";
   "- Decisions made and their rationale";
   "- TODOs, open questions, and constraints";
   "- All opaque identifiers exactly as written (UUIDs, hashes, file paths, URLs, ports, dates)";
   ""; "Output only the summary text, no preamble."] nl.

Definition multiStageSystemPrompt : string := Joins
  ["You are a conversation summarizer. Produce a structured summary with these required sections:"; "";
   "## Decisions"; "Decisions made and their rationale."; "";
   "## Open TODOs"; "Tasks not yet completed, with current status."; "";
   "## Constraints/Rules";
   "Active constraints, rules, language preference, communication style, and citation/reference requirements."; "";
   "## Pending user asks";
   "The last thing the user requested, any pending approvals or confirmations, required delivery targets, output format expectations, and current progress."; "";
   "## Exact identifiers";
   "All opaque identifiers mentioned (UUIDs, hashes, file paths, URLs, ports, IP addresses, dates, version numbers)."; "";
   "Preserve all identifiers exactly as written. Prioritize recent context over older history. Output only the summary."] nl.

Definition identifierPreservationInstructions : string :=
  "CRITICAL: Preserve all opaque identifiers exactly as written (no shortening or reconstruction), including UUIDs, hashes, IDs, tokens, API keys, hostnames, IPs, ports, URLs, and file names.".

Definition mergeSummariesInstructions : string := Joins
  ["Merge these partial summaries into a single cohesive summary with all required sections.";
   "MUST PRESERVE:";
   "- Active tasks and their current status (in-progress, blocked, pending)";
   "- Batch operation progress (e.g., " +:+ quote_mark +:+ "5/17 items completed" +:+ quote_mark +:+ ")";
   "- The last thing the user requested and what was being done about it";
   "- Pending approvals or items awaiting user confirmation";
   "- Delivery targets, output format requirements, and citation/source requests stated by the user";
   "- The user's language preference and communication style";
   "- Decisions made and their rationale";
   "- TODOs, open questions, and constraints";
   "- Any commitments or follow-ups promised";
   "PRIORITIZE recent context over older history."] nl.

Definition requiredSummarySections : list string :=
  ["## Decisions"; "## Open TODOs"; "## Constraints/Rules"; "## Pending user asks"; "## Exact identifiers"].

(** ** Configuration *)

(** [CompactionConfig]; the model and the estimator are given. *)
Record CompactionConfig := mkCompactionConfig {
  SumContextWindow : Z; IdentifierPolicy : string; CustomInstructions : string; QualityGuardEnabled : bool;
  QualityGuardRetries : Z }.

Definition NewMultiStageSummarizer (c : CompactionConfig) : CompactionConfig :=
  mkCompactionConfig (if decide (SumContextWindow c <= 0) then 128000 else SumContextWindow c)
    (if decide (IdentifierPolicy c = "") then "strict" else IdentifierPolicy c) (CustomInstructions c) (QualityGuardEnabled c)
    (if decide (QualityGuardRetries c <= 0) then 2 else QualityGuardRetries c).

(** ** Chunks *)

(** [math.Min] and [math.Max], for numbers that are not both zero. *)
Definition fmin (x y : float64) : float64 := if fltb x y then x else if feqb x x then y else x.
Definition fmax (x y : float64) : float64 := if fltb y x then x else if feqb x x then y else x.

Definition baseChunkRatio : float64 := lit 4 10.
Definition minChunkRatio : float64 := lit 15 100.
Definition summarizationOverhead : Z := 4096.

Definition resolveMaxChunkTokens (contextWindow : Z) (ratio : float64) (overhead : Z) : Z :=
  let tokens := to_int (fmul (of_int contextWindow) ratio) - overhead in
  if decide (tokens < 1) then 1 else tokens.

Section Summarizer.
Context {U : GoUnicode} {R : GoRunes} {N : GoNumberText} {E : TokenEstimator}.

(** The loop that both splits share: [close n] says whether a chunk of the given
    number of earlier chunks and tokens ends before a message. *)
Fixpoint message_chunks (close : nat -> Z -> Z -> bool) (messages : list Message) (done : nat) (current : list Message) (tokens : Z) :
    list (list Message) :=
  match messages with
  | [] => match current with [] => [] | _ => [current] end
  | m :: rest =>
    let n := Estimate (TextContent m) in
    match current with
    | [] => message_chunks close rest done [m] (tokens + n)
    | _ => if close done tokens n then current :: message_chunks close rest (S done) [m] n
           else message_chunks close rest done (current ++ [m]) (tokens + n)
    end
  end.

Definition splitByTokenShare (messages : list Message) (parts : Z) : list (list Message) :=
  if decide (parts <= 1 \/ Z.of_nat (length messages) <= parts) then [messages] else
  let targetTokens := Z.quot (EstimateMessages messages) parts in
  if decide (targetTokens <= 0) then [messages]
  else message_chunks (fun done tokens n => bool_decide (targetTokens < tokens + n) && bool_decide (Z.of_nat done < parts - 1))
         messages 0 [] 0.

Definition chunkByMaxTokens (messages : list Message) (maxTokens : Z) : list (list Message) :=
  if decide (maxTokens <= 0) then [messages]
  else message_chunks (fun _ tokens n => bool_decide (maxTokens < tokens + n)) messages 0 [] 0.

Definition computeAdaptiveChunkRatio (messages : list Message) (contextWindow : Z) : float64 :=
  if decide (messages = [] \/ contextWindow <= 0) then baseChunkRatio else
  let avgTokens := fdiv (of_int (EstimateMessages messages)) (of_int (Z.of_nat (length messages))) in
  let avgRatio := fdiv avgTokens (of_int contextWindow) in
  if fltb (lit 1 10) avgRatio then
    let reduction := fmin (fmul avgRatio (of_int 2)) (lit 1 4) in
    fmax minChunkRatio (fsub baseChunkRatio reduction)
  else baseChunkRatio.

(** ** Asking the model *)

(** The calls made so far, as pairs of a system prompt and a user message. *)
Abbreviation calls := (list (string * string)).

(** [ChatSimple], given the calls before. *)
Variable ChatSimple : calls -> string -> string -> option string.

(** A computation that may call the model and may fail. *)
Definition chatting (A : Type) : Type := calls -> option A * calls.

Definition ret {A} (x : A) : chatting A := fun h => (Some x, h).

Definition bind {A B} (m : chatting A) (f : A -> chatting B) : chatting B :=
  fun h => match m h with (Some x, h') => f x h' | (None, h') => (None, h') end.

(** Going on after a failure. *)
Definition catch {A} (m : chatting A) (f : option A -> chatting A) : chatting A :=
  fun h => let '(r, h') := m h in f r h'.

Definition chat (system user : string) : chatting string :=
  fun h => (ChatSimple h system user, h ++ [(system, user)]).

Definition constraint_line (maxChars : Z) : string :=
  if decide (0 < maxChars) then para +:+ "Keep the summary under " +:+ itoa (Z.to_nat maxChars) +:+ " characters." else "".

(** [ModelSummarizer.Summarize] *)
Definition ModelSummarize (messages : list Message) (maxChars : Z) : chatting string :=
  match messages with
  | [] => ret ""
  | _ =>
    let transcript := formatTranscript messages in
    let transcript := if decide (0 < maxChars /\ maxChars * 3 < Z.of_nat (String.length transcript))
                      then String.substring 0 (Z.to_nat (maxChars * 3)) transcript else transcript in
    bind (chat singleStageSystemPrompt ("Summarize this conversation:" +:+ para +:+ transcript +:+ constraint_line maxChars))
         (fun summary => ret (clampSummary summary maxChars))
  end.

Variable c : CompactionConfig.

Definition summarizeChunk (messages : list Message) (extraInstructions : string) (maxChars : Z) : chatting string :=
  let system := multiStageSystemPrompt
    +:+ (if decide (IdentifierPolicy c = "strict") then para +:+ identifierPreservationInstructions else "")
    +:+ (if decide (extraInstructions = "") then "" else para +:+ extraInstructions) in
  bind (chat system ("Summarize this conversation:" +:+ para +:+ formatTranscript messages +:+ constraint_line maxChars))
       (fun summary => ret (TrimSpace summary)).

Fixpoint summarize_all (chunks : list (list Message)) (extra : string) (maxChars : Z) : chatting (list string) :=
  match chunks with
  | [] => ret []
  | chunk :: rest => bind (summarizeChunk chunk extra maxChars)
      (fun s => bind (summarize_all rest extra maxChars) (fun ss => ret (s :: ss)))
  end.

Definition chunk_tokens (messages : list Message) : Z :=
  resolveMaxChunkTokens (SumContextWindow c) (computeAdaptiveChunkRatio messages (SumContextWindow c)) summarizationOverhead.

Definition chunk_rule : string := para +:+ "---" +:+ para.

Definition summarizeChunked (messages : list Message) (maxChars : Z) : chatting string :=
  bind (summarize_all (chunkByMaxTokens messages (chunk_tokens messages)) (CustomInstructions c) maxChars)
       (fun ss => ret (match ss with [s] => s | _ => Joins ss chunk_rule end)).

Definition isOversized (m : Message) : bool :=
  fltb (fmul (of_int (SumContextWindow c)) (lit 1 2)) (of_int (Estimate (TextContent m))).

Definition oversized_note (m : Message) : string :=
  "[Large " +:+ M_Role m +:+ " message (~" +:+ FormatInt (Z.quot (Estimate (TextContent m)) 1000) +:+ "k tokens) omitted]".

Definition unavailable (messages : list Message) (oversized : nat) : string :=
  "Context contained " +:+ itoa (length messages) +:+ " messages (" +:+ itoa oversized
  +:+ " oversized). Summary unavailable due to size limits.".

Definition summarizeWithFallback (messages : list Message) (maxChars : Z) : chatting string :=
  catch (summarizeChunked messages maxChars) (fun r =>
    match r with
    | Some summary => ret summary
    | None =>
      let small := filter (fun m => isOversized m = false) messages in
      let notes := oversized_note <$> filter (fun m => isOversized m = true) messages in
      match small with
      | [] => ret (unavailable messages (length notes))
      | _ => catch (summarizeChunked small maxChars) (fun r =>
          ret (match r with
               | None => unavailable messages (length notes)
               | Some summary => match notes with [] => summary | _ => summary +:+ nl +:+ Joins notes nl end
               end))
      end
    end).

Fixpoint summarize_parts (parts : list (list Message)) (maxChars : Z) : chatting (list string) :=
  match parts with
  | [] => ret []
  | part :: rest => bind (summarizeWithFallback part maxChars)
      (fun s => bind (summarize_parts rest maxChars) (fun ss => ret (s :: ss)))
  end.

(** The messages that ask to merge the partial summaries. *)
Definition merge_messages (partials : list string) : list Message :=
  imap (fun i p => mkMessage RoleUser
    ("Partial summary " +:+ itoa (S i) +:+ "/" +:+ itoa (length partials) +:+ ":" +:+ nl +:+ p) [] "" "" [] 0 []) partials.

Definition summarizeInStages (messages : list Message) (maxChunkTokens maxChars : Z) : chatting string :=
  if decide ((length messages < 4)%nat \/ EstimateMessages messages <= maxChunkTokens) then summarizeWithFallback messages maxChars else
  let splits := splitByTokenShare messages 2 in
  if decide (length splits <= 1)%nat then summarizeWithFallback messages maxChars
  else bind (summarize_parts splits maxChars)
         (fun partials => summarizeChunk (merge_messages partials) mergeSummariesInstructions maxChars).

(** ** The quality guard *)

(** The lines behind a section heading. *)
Fixpoint find_section (section : string) (ls : list string) : option (list string) :=
  match ls with
  | [] => None
  | l :: rest => if decide (TrimSpace l = section) then Some rest else find_section section rest
  end.

(** The sections that are missing, in the lines that are left. *)
Fixpoint missing_sections (sections : list string) (ls : list string) : list string :=
  match sections with
  | [] => []
  | section :: rest =>
    match find_section section ls with
    | Some ls' => missing_sections rest ls'
    | None => ("missing_section:" +:+ section) :: missing_sections rest ls
    end
  end.

Definition keeps_identifier (summary id : string) : bool :=
  if isPureHex (String.list_ascii_of_string id) then Contains (ToUpper summary) (ToUpper id) else Contains summary id.

Definition missing_identifiers (summary : string) (identifiers : list string) (idPolicy : string) : list string :=
  if decide (idPolicy <> "strict") then [] else
  match filter (fun id => keeps_identifier summary id = false) identifiers with
  | [] => []
  | missing => ["missing_identifiers:" +:+ Joins (take 3 missing) ","]
  end.

Definition ask_missing (summary latestAsk : string) : list string :=
  if decide (latestAsk = "") then [] else
  let words := semanticTextTokens latestAsk 4 in
  let overlap := length (filter (fun w => Contains (ToLower summary) w = true) words) in
  if negb (bool_decide (words = [])) && fltb (fdiv (of_int (Z.of_nat overlap)) (of_int (Z.of_nat (length words)))) (lit 3 10)
  then ["latest_user_ask_not_reflected"] else [].

(** The reasons why a summary is not good enough. *)
Definition auditSummaryQuality (summary : string) (sections identifiers : list string) (latestAsk idPolicy : string) : list string :=
  missing_sections sections (lines summary) ++ missing_identifiers summary identifiers idPolicy ++ ask_missing summary latestAsk.

Fixpoint latest_ask (rev_messages : list Message) : string :=
  match rev_messages with
  | [] => ""
  | m :: rest =>
    if decide (M_Role m = RoleUser) then
      let content := TrimSpace (TextContent m) in
      if decide (200 < String.length content)%nat then String.substring 0 200 content else content
    else latest_ask rest
  end.

Definition extractLatestUserAsk (messages : list Message) : string := latest_ask (rev messages).

Definition quality_feedback (reasons : list string) : string :=
  (if decide (CustomInstructions c = "") then "" else CustomInstructions c +:+ para)
  +:+ "Quality check failed. Issues: " +:+ Joins reasons "; " +:+ ". Please fix all issues and include every required section.".

Definition audit (messages : list Message) (summary : string) : list string :=
  auditSummaryQuality summary requiredSummarySections (extractOpaqueIdentifiers (formatTranscript messages) 12)
    (extractLatestUserAsk messages) (IdentifierPolicy c).

(** The loop of the guard, with the attempts that are left. *)
Fixpoint guard_loop (left : nat) (messages : list Message) (maxChars : Z) (best : string) : chatting string :=
  match left with
  | O => ret best
  | S left' =>
    match audit messages best, left' with
    | [], _ => ret best
    | _, O => ret best
    | reasons, S _ =>
      catch (summarizeChunk messages (quality_feedback reasons) maxChars)
        (fun r => match r with Some retry => guard_loop left' messages maxChars retry | None => ret best end)
    end
  end.

(** [MultiStageSummarizer.Summarize] *)
Definition Summarize (messages : list Message) (maxChars : Z) : chatting string :=
  match messages with
  | [] => ret ""
  | _ =>
    bind (summarizeInStages messages (chunk_tokens messages) maxChars) (fun summary =>
      if QualityGuardEnabled c
      then bind (guard_loop (Z.to_nat (QualityGuardRetries c + 1)) messages maxChars summary)
                (fun best => ret (clampSummary best maxChars))
      else ret (clampSummary summary maxChars))
  end.

(** ** Chunks *)

Definition sum_tokens (messages : list Message) : Z := foldr Z.add 0 ((fun m => Estimate (TextContent m)) <$> messages).

Lemma sum_tokens_app a b : sum_tokens (a ++ b) = sum_tokens a + sum_tokens b.
Proof. unfold sum_tokens. induction a as [|x a IH]; cbn; [lia|]. rewrite IH. lia. Qed.

Lemma message_chunks_concat close messages n current tokens :
  List.concat (message_chunks close messages n current tokens) = current ++ messages.
Proof.
  revert n current tokens. induction messages as [|m rest IH]; intros n current tokens; cbn [message_chunks].
  - destruct current; cbn; by rewrite ?app_nil_r.
  - destruct current as [|x cur]; [by rewrite IH|]. destruct (close n tokens _); cbn [List.concat]; rewrite IH; [done|].
    by rewrite <- app_assoc.
Qed.

(** Every chunk satisfies what a single message and every step keeps. *)
Lemma message_chunks_inv (close : nat -> Z -> Z -> bool) (P : list Message -> Prop) :
  (forall m, P [m]) ->
  (forall n cur m, cur <> [] -> P cur -> close n (sum_tokens cur) (Estimate (TextContent m)) = false -> P (cur ++ [m])) ->
  forall messages n current, current = [] \/ P current ->
  Forall (fun chunk => chunk <> [] /\ P chunk) (message_chunks close messages n current (sum_tokens current)).
Proof.
  intros Hone Hstep messages. assert (forall m, Estimate (TextContent m) = sum_tokens [m]) as Hs by (intros; cbn; lia).
  induction messages as [|m rest IH]; intros n current Hc; cbn [message_chunks].
  - destruct current as [|x cur]; [constructor|]. destruct Hc; [done|]. by repeat constructor.
  - destruct current as [|x cur].
    + replace (sum_tokens [] + Estimate (TextContent m)) with (sum_tokens [m]) by (cbn; lia). apply IH. by right.
    + destruct Hc as [|Hc]; [done|]. destruct (close n _ _) eqn:Ec.
      * constructor; [done|]. rewrite Hs. apply IH. by right.
      * rewrite Hs, <- sum_tokens_app. apply IH. right. by eapply Hstep.
Qed.

Lemma message_chunks_length close messages n current tokens parts :
  (forall n tokens k, close n tokens k = true -> (n < parts)%nat) -> (n <= parts)%nat ->
  (n + length (message_chunks close messages n current tokens) <= S parts)%nat.
Proof.
  intros Hc. revert n current tokens. induction messages as [|m rest IH]; intros n current tokens Hn; cbn [message_chunks].
  - destruct current; cbn; lia.
  - destruct current as [|x cur]; [by apply IH|]. destruct (close n tokens _) eqn:Ec; [|by apply IH].
    apply Hc in Ec. cbn [length]. specialize (IH (S n) [m] (Estimate (TextContent m)) ltac:(lia)). lia.
Qed.

(** cutting a conversation into chunks neither loses nor repeats nor reorders a
    message, and a chunk is within the limit of tokens or a single message that
    is too large by itself; splitting it into parts gives at most that many. *)
Theorem chunks_partition messages maxTokens parts :
  List.concat (chunkByMaxTokens messages maxTokens) = messages
  /\ (0 < maxTokens -> Forall (fun chunk => chunk <> [] /\ (length chunk = 1%nat \/ sum_tokens chunk <= maxTokens))
                              (chunkByMaxTokens messages maxTokens))
  /\ List.concat (splitByTokenShare messages parts) = messages
  /\ Z.of_nat (length (splitByTokenShare messages parts)) <= Z.max 1 parts.
Proof.
  unfold chunkByMaxTokens, splitByTokenShare. split_and!.
  - case_decide; [cbn; by rewrite app_nil_r|]. apply message_chunks_concat.
  - intros Hpos. rewrite decide_False by lia. apply (message_chunks_inv _ (fun ch => length ch = 1%nat \/ sum_tokens ch <= maxTokens)).
    + by left.
    + intros n cur m _ _ Hf%bool_decide_eq_false. right. rewrite sum_tokens_app. cbn. lia.
    + by left.
  - repeat case_decide; cbn; rewrite ?app_nil_r; [done..|]. apply message_chunks_concat.
  - repeat case_decide; cbn [length]; [lia..|].
    pose proof (message_chunks_length (fun done tokens n => bool_decide (Z.quot (EstimateMessages messages) parts < tokens + n)
      && bool_decide (Z.of_nat done < parts - 1)) messages 0 [] 0 (Z.to_nat (parts - 1))) as H'.
    cbv beta in H'. specialize (H' ltac:(intros n t k; rewrite andb_true_iff, !bool_decide_eq_true; lia) ltac:(lia)). lia.
Qed.

(** ** How often the model is called *)

(** A computation that calls the model at most [n] times. *)
Definition spends {A} (n : nat) (m : chatting A) : Prop := forall h, (length (m h).2 <= length h + n)%nat.

Lemma spends_ret {A} (x : A) : spends 0 (ret x).
Proof. intros h. cbn. lia. Qed.

Lemma spends_mono {A} n k (m : chatting A) : (n <= k)%nat -> spends n m -> spends k m.
Proof. intros Hnk Hm h. specialize (Hm h). lia. Qed.

Lemma spends_bind {A B} n k (m : chatting A) (f : A -> chatting B) :
  spends n m -> (forall x, spends k (f x)) -> spends (n + k) (bind m f).
Proof.
  intros Hm Hf h. specialize (Hm h). unfold bind. destruct (m h) as [[x|] h']; cbn in *; [specialize (Hf x h')|]; lia.
Qed.

Lemma spends_catch {A} n k (m : chatting A) (f : option A -> chatting A) :
  spends n m -> (forall r, spends k (f r)) -> spends (n + k) (catch m f).
Proof. intros Hm Hf h. specialize (Hm h). unfold catch. destruct (m h) as [r h']; cbn in *. specialize (Hf r h'). lia. Qed.

Lemma spends_chunk messages extra maxChars : spends 1 (summarizeChunk messages extra maxChars).
Proof. apply (spends_bind 1 0); [|intros; apply spends_ret]. intros h. cbn. rewrite length_app. cbn. lia. Qed.

Lemma spends_all chunks extra maxChars : spends (length chunks) (summarize_all chunks extra maxChars).
Proof.
  induction chunks as [|ch chunks IH]; cbn [summarize_all length]; [apply spends_ret|].
  apply (spends_bind 1 (length chunks)); [apply spends_chunk|]. intros x.
  eapply spends_mono; [|eapply (spends_bind _ 0); [exact IH|intros; apply spends_ret]]. lia.
Qed.

(** Chunks are not empty, so there are no more chunks than messages. *)
Lemma concat_length_ge {A} (ls : list (list A)) : Forall (fun l => l <> []) ls -> (length ls <= length (List.concat ls))%nat.
Proof. induction 1 as [|l ls Hl _ IH]; cbn; [lia|]. rewrite length_app. destruct l; [done|]. cbn. lia. Qed.

Lemma chunk_tokens_pos messages : 0 < chunk_tokens messages.
Proof. unfold chunk_tokens, resolveMaxChunkTokens. cbv zeta. case_decide; lia. Qed.

Lemma spends_chunked messages maxChars : spends (length messages) (summarizeChunked messages maxChars).
Proof.
  eapply spends_mono; [|eapply (spends_bind _ 0); [apply spends_all|intros; apply spends_ret]].
  unfold chunkByMaxTokens. pose proof (chunk_tokens_pos messages). rewrite decide_False by lia. rewrite Nat.add_0_r.
  set (close := fun _ tokens n => _).
  rewrite <- (message_chunks_concat close messages 0 [] 0) at 2. apply concat_length_ge.
  eapply Forall_impl; [apply (message_chunks_inv close (fun _ => True)); auto|]. by intros x [].
Qed.

Lemma spends_fallback messages maxChars : spends (2 * length messages) (summarizeWithFallback messages maxChars).
Proof.
  replace (2 * length messages)%nat with (length messages + length messages)%nat by lia.
  apply spends_catch; [apply spends_chunked|]. intros [s|]; [eapply spends_mono, spends_ret; lia|]. cbv zeta.
  destruct (filter _ messages) as [|m small] eqn:Ef; [eapply spends_mono, spends_ret; lia|]. rewrite <- Ef.
  eapply spends_mono; [|eapply (spends_catch _ 0); [apply spends_chunked|intros; apply spends_ret]].
  rewrite Nat.add_0_r. apply length_filter.
Qed.

Lemma spends_parts parts maxChars : spends (2 * length (List.concat parts)) (summarize_parts parts maxChars).
Proof.
  induction parts as [|part parts IH]; cbn [summarize_parts List.concat]; [apply spends_ret|]. rewrite length_app.
  eapply spends_mono; [|apply (spends_bind (2 * length part) (2 * length (List.concat parts))); [apply spends_fallback|]]; [lia|].
  intros x. eapply spends_mono; [|eapply (spends_bind _ 0); [exact IH|intros; apply spends_ret]]. lia.
Qed.

Lemma split_concat messages parts : List.concat (splitByTokenShare messages parts) = messages.
Proof. unfold splitByTokenShare. repeat case_decide; cbn; rewrite ?app_nil_r; [done..|]. apply message_chunks_concat. Qed.

Lemma spends_stages messages maxChunk maxChars : spends (2 * length messages + 1) (summarizeInStages messages maxChunk maxChars).
Proof.
  unfold summarizeInStages. case_decide; [eapply spends_mono, spends_fallback; lia|]. cbv zeta.
  case_decide; [eapply spends_mono, spends_fallback; lia|].
  rewrite <- (split_concat messages 2) at 1. apply spends_bind; [apply spends_parts|intros; apply spends_chunk].
Qed.

Lemma spends_guard left messages maxChars best : spends (left - 1) (guard_loop left messages maxChars best).
Proof.
  revert best. induction left as [|left IH]; intros best; cbn [guard_loop]; [apply spends_ret|].
  destruct (audit messages best) as [|r rs]; [eapply spends_mono, spends_ret; lia|].
  destruct left as [|left]; [eapply spends_mono, spends_ret; lia|].
  eapply (spends_mono (1 + (S left - 1))); [lia|]. apply spends_catch; [apply spends_chunk|].
  intros [s|]; [apply IH|eapply spends_mono, spends_ret; lia].
Qed.

(** ** When it fails *)

(** A computation that cannot fail. *)
Definition succeeds {A} (m : chatting A) : Prop := forall h, is_Some (m h).1.

Lemma succeeds_catch {A} (m : chatting A) f : (forall r, succeeds (f r)) -> succeeds (catch m f).
Proof. intros Hf h. unfold catch. destruct (m h) as [r h']. apply Hf. Qed.

Lemma succeeds_bind {A B} (m : chatting A) (f : A -> chatting B) : succeeds m -> (forall x, succeeds (f x)) -> succeeds (bind m f).
Proof. intros Hm Hf h. unfold bind. destruct (Hm h) as [x Hx]. destruct (m h) as [r h']. cbn in Hx. subst r. apply Hf. Qed.

Lemma succeeds_ret {A} (x : A) : succeeds (ret x).
Proof. intros h. by eexists. Qed.

Lemma fallback_succeeds messages maxChars : succeeds (summarizeWithFallback messages maxChars).
Proof.
  apply succeeds_catch. intros [s|]; [apply succeeds_ret|]. cbv zeta.
  destruct (filter _ messages) as [|m l]; [apply succeeds_ret|]. apply succeeds_catch. intros r. apply succeeds_ret.
Qed.

Lemma guard_succeeds left messages maxChars best : succeeds (guard_loop left messages maxChars best).
Proof.
  revert best. induction left as [|left IH]; intros best; cbn [guard_loop]; [apply succeeds_ret|].
  destruct (audit messages best) as [|r rs]; [apply succeeds_ret|]. destruct left as [|left]; [apply succeeds_ret|].
  apply succeeds_catch. intros [s|]; [apply IH|apply succeeds_ret].
Qed.

Lemma clamp_length summary maxChars :
  0 < maxChars -> Z.of_nat (String.length (clampSummary summary maxChars)) <= maxChars + 3.
Proof.
  intros Hpos. unfold clampSummary. cbv zeta. case_decide; [|lia]. rewrite string_length_app.
  pose proof (TrimSpace_length (String.substring 0 (Z.to_nat maxChars) (TrimSpace summary))).
  pose proof (substring_length_le (Z.to_nat maxChars) (TrimSpace summary)). cbn [String.length]. lia.
Qed.

(** C34: summarizing is bounded and robust: whatever the model answers, it is called
    at most twice per message, once for merging and once per retry of the guard;
    the summary has at most three bytes more than the limit; and a failing model
    is no error for a conversation that is summarized in one stage. *)
Theorem summarize_bounded messages maxChars h :
  0 < maxChars ->
  let '(r, h') := Summarize messages maxChars h in
  (length h' <= length h + 2 * length messages + 1 + Z.to_nat (QualityGuardRetries c))%nat
  /\ (forall s, r = Some s -> Z.of_nat (String.length s) <= maxChars + 3)
  /\ ((length messages < 4)%nat \/ EstimateMessages messages <= chunk_tokens messages -> is_Some r).
Proof.
  intros Hpos. unfold Summarize. destruct messages as [|m0 rest]; [cbn; split_and!; [lia|intros s [= <-]; cbn; lia|eauto]|].
  set (messages := m0 :: rest) in *. clearbody messages.
  pose proof (spends_stages messages (chunk_tokens messages) maxChars h) as Hs.
  assert ((length messages < 4)%nat \/ EstimateMessages messages <= chunk_tokens messages ->
    is_Some (summarizeInStages messages (chunk_tokens messages) maxChars h).1) as Hok.
  { intros Hc. unfold summarizeInStages. rewrite decide_True by done. apply fallback_succeeds. }
  unfold bind. destruct (summarizeInStages messages _ maxChars h) as [[s|] h1]; cbn in Hs, Hok.
  - destruct (QualityGuardEnabled c).
    + pose proof (spends_guard (Z.to_nat (QualityGuardRetries c + 1)) messages maxChars s h1) as Hg.
      pose proof (guard_succeeds (Z.to_nat (QualityGuardRetries c + 1)) messages maxChars s h1) as [best Hb].
      destruct (guard_loop _ messages maxChars s h1) as [r h2]. cbn in Hg, Hb. subst r. cbn.
      split_and!; [lia|intros t [= <-]; by apply clamp_length|eauto].
    + cbn. split_and!; [lia|intros t [= <-]; by apply clamp_length|eauto].
  - split_and!; [lia|done|exact Hok].
Qed.
End Summarizer.

(** ** Examples *)

Section Examples.
#[local] Existing Instances ascii_unicode ascii_runes length_estimator.
Definition ascii_numbers : GoNumberText :=
  {| ParseFloat := fun _ => None; ToUpper := fun s => String.string_of_list_ascii (upper_byte <$> String.list_ascii_of_string s) |}.
#[local] Existing Instance ascii_numbers.

Definition guarded : CompactionConfig := NewMultiStageSummarizer (mkCompactionConfig 0 "" "" true 0).

Definition ask : list Message := [mkMessage RoleUser "Restart deadbeef42 please" [] "" "" [] 0 []].

(** A model that answers with every section and the identifier. *)
Definition good_summary : string :=
  Joins ["## Decisions"; "Restart now."; "## Open TODOs"; "## Constraints/Rules"; "## Pending user asks"; "Restart please.";
         "## Exact identifiers"; "deadbeef42"] nl.

Definition good_model (_ : list (string * string)) (_ _ : string) : option string := Some good_summary.

Definition failing_model (_ : list (string * string)) (_ _ : string) : option string := None.

Lemma summarize_bounded_witness :
  let '(r, h') := Summarize failing_model guarded ask 100 [] in
  (r, length h') = (Some "Context contained 1 messages (0 oversized). Summary unavailable due to size limits.", 3%nat)
  /\ (length h' <= 0 + 2 * 1 + 1 + 2)%nat
  /\ (forall s, r = Some s -> Z.of_nat (String.length s) <= 100 + 3)
  /\ ((length ask < 4)%nat \/ EstimateMessages ask <= chunk_tokens guarded ask -> is_Some r).
Proof.
  pose proof (summarize_bounded failing_model guarded ask 100 [] ltac:(lia)) as H.
  destruct (Summarize failing_model guarded ask 100 []) as [r h'] eqn:Es. split; [|exact H].
  assert ((fun p => (p.1, length p.2)) (Summarize failing_model guarded ask 100 [])
    = (Some "Context contained 1 messages (0 oversized). Summary unavailable due to size limits.", 3%nat)) as Hr
    by (vm_compute; reflexivity). by rewrite Es in Hr.
Defined.

(** The guard is undone by the limit: a summary with every section and identifier
    passes it at once, and is then cut, so that what is returned has lost the
    identifiers that the guard asked for. *)
Theorem clamp_undoes_guard :
  audit guarded ask good_summary = []
  /\ exists out h', Summarize good_model guarded ask 100 [] = (Some out, h')
     /\ audit guarded ask out = ["missing_section:## Exact identifiers"; "missing_identifiers:deadbeef42"].
Proof.
  split; [vm_compute; reflexivity|]. eexists _, _. split; [vm_compute; reflexivity|]. vm_compute. reflexivity.
Qed.
End Examples.
