(* ===== verification/DMPairing.v ===== *)
(** * Pairing of direct messages ([channels/pairing], [channels/feishu/pairing.go])

    A user who writes to the agent directly has to be paired first: a record with
    a code is created, somebody confirms the code, and from then on the user's
    messages are accepted.  The manager works on a store; the in-memory store and
    the file store are instances of a class with the laws that the manager relies
    on.  The file of a store is part of its state, as its decoded contents. *)
From S2P Require Import Prelude GoLib GoText TextTrim GoClock.
From Stdlib Require Import Ascii DecimalString.
Import Str Text GoTime.

Local Open Scope Z_scope.

(** ** Records *)

Definition StatusPending : string := "pending".
Definition StatusVerified : string := "verified".
Definition StatusRevoked : string := "revoked".

Record DMPairingRecord := mkDMRecord {
  DM_ID : string; DM_Channel : string; DM_UserID : string; DM_DisplayName : string; DM_Status : string; DM_Code : string;
  DM_CodeExpiresAt : Time; DM_VerifiedAt : Time; DM_CreatedAt : Time }.

Definition storeKey (channel userID : string) : string := channel +:+ ":" +:+ userID.

Definition dm_key (r : DMPairingRecord) : string := storeKey (DM_Channel r) (DM_UserID r).

Abbreviation Records := (gmap string DMPairingRecord).

(** ** Stores *)

(** What the manager relies on: [records] is what a store holds.  A store that is
    [ready] answers from its records, and saving changes them even when it
    reports a failure. *)
Class PairingStore := {
  PStore : Type;
  PGet : PStore -> string -> string -> PStore * option DMPairingRecord;
  PGetByCode : PStore -> string -> PStore * option DMPairingRecord;
  PSave : PStore -> DMPairingRecord -> PStore * bool;
  records : PStore -> Records;
  ready : PStore -> Prop;
  PGet_law s c u : ready s -> exists s', PGet s c u = (s', records s !! storeKey c u) /\ records s' = records s /\ ready s';
  PGetByCode_law s code : ready s -> exists s' r, PGetByCode s code = (s', r) /\ records s' = records s /\ ready s'
    /\ match r with
       | Some rec => DM_Code rec = code /\ exists k, records s !! k = Some rec
       | None => forall k rec, records s !! k = Some rec -> DM_Code rec <> code
       end;
  PSave_law s rec : ready s -> exists s' ok, PSave s rec = (s', ok) /\ records s' = <[dm_key rec := rec]> (records s) /\ ready s'
}.

(** The first record with a code, in the order in which the map is read. *)
Fixpoint find_code (code : string) (l : list (string * DMPairingRecord)) : option DMPairingRecord :=
  match l with [] => None | (_, r) :: rest => if decide (DM_Code r = code) then Some r else find_code code rest end.

(** [Delete] and [List] *)
Definition delete_record (m : Records) (channel userID : string) : Records * bool :=
  match m !! storeKey channel userID with None => (m, false) | Some _ => (delete (storeKey channel userID) m, true) end.

Lemma find_code_spec code l :
  match find_code code l with
  | Some r => DM_Code r = code /\ exists k, (k, r) ∈ l
  | None => forall k r, (k, r) ∈ l -> DM_Code r <> code
  end.
Proof.
  induction l as [|[k r] l IH]; cbn; [by intros k r ?%elem_of_nil|]. case_decide as Hc; [split; [done|exists k; by left]|].
  destruct (find_code code l) as [r'|].
  - destruct IH as (H1 & k' & H2). split; [done|]. exists k'. by right.
  - intros k' r' [[= -> ->]|H]%elem_of_cons; [done|by eapply IH].
Qed.

Section Stores.
(** The order in which Go ranges over the records. *)
Context (map_order : Records -> list (string * DMPairingRecord)).
Hypothesis map_order_perm : forall m, map_order m ≡ₚ map_to_list m.

Lemma find_code_records code m :
  match find_code code (map_order m) with
  | Some r => DM_Code r = code /\ exists k, m !! k = Some r
  | None => forall k r, m !! k = Some r -> DM_Code r <> code
  end.
Proof.
  pose proof (find_code_spec code (map_order m)) as H. destruct (find_code code (map_order m)) as [r|].
  - destruct H as (H1 & k & Hk). split; [done|]. exists k. rewrite map_order_perm in Hk. by apply elem_of_map_to_list.
  - intros k r Hk. apply (H k r). rewrite map_order_perm. by apply elem_of_map_to_list.
Qed.

(** *** The in-memory store *)

Definition memory_store : PairingStore.
Proof.
  refine {| PStore := Records; PGet := fun m c u => (m, m !! storeKey c u);
            PGetByCode := fun m code => (m, find_code code (map_order m));
            PSave := fun m r => (<[dm_key r := r]> m, true); records := fun m => m; ready := fun _ => True |}.
  - intros s c u _. by exists s.
  - intros s code _. eexists s, _. split_and!; [done..|]. apply find_code_records.
  - intros s r _. by eexists _, true.
Defined.

(** *** The file store *)

(** The file: absent or with its contents, and whether it can be read and
    written. *)
Record PairingFile := mkPairingFile { pf_contents : option Records; pf_readable : bool; pf_writable : bool }.

Record FileStore := mkFileStore { fs_path : string; fs_loaded : bool; fs_records : Records; fs_file : PairingFile }.

(** [loadLocked], with whether it succeeds. *)
Definition loadRecords (s : FileStore) : FileStore * bool :=
  if fs_loaded s then (s, true)
  else if decide (fs_path s = "") then (mkFileStore (fs_path s) true (fs_records s) (fs_file s), true)
  else match pf_contents (fs_file s) with
       | None => (mkFileStore (fs_path s) true (fs_records s) (fs_file s), true)
       | Some m => if pf_readable (fs_file s) then (mkFileStore (fs_path s) true m (fs_file s), true) else (s, false)
       end.

Definition persistRecords (s : FileStore) : FileStore * bool :=
  if decide (fs_path s = "") then (s, true)
  else if pf_writable (fs_file s)
  then (mkFileStore (fs_path s) (fs_loaded s) (fs_records s)
          (mkPairingFile (Some (fs_records s)) (pf_readable (fs_file s)) true), true)
  else (s, false).

Definition FS_Get (s : FileStore) (channel userID : string) : FileStore * option DMPairingRecord :=
  let '(s, ok) := loadRecords s in (s, if ok then fs_records s !! storeKey channel userID else None).

Definition FS_GetByCode (s : FileStore) (code : string) : FileStore * option DMPairingRecord :=
  let '(s, ok) := loadRecords s in (s, if ok then find_code code (map_order (fs_records s)) else None).

Definition set_records (m : Records) (s : FileStore) : FileStore := mkFileStore (fs_path s) (fs_loaded s) m (fs_file s).

Definition FS_Save (s : FileStore) (r : DMPairingRecord) : FileStore * bool :=
  let '(s, ok) := loadRecords s in
  if ok then persistRecords (set_records (<[dm_key r := r]> (fs_records s)) s) else (s, false).

Definition FS_Delete (s : FileStore) (channel userID : string) : FileStore * bool :=
  let '(s, ok) := loadRecords s in
  if ok then match delete_record (fs_records s) channel userID with
             | (_, false) => (s, false)
             | (m, true) => persistRecords (set_records m s)
             end
  else (s, false).

(** What a store holds: its records once they are loaded, before that those of
    the file. *)
Definition FS_records (s : FileStore) : Records := fs_records (loadRecords s).1.
Definition FS_ready (s : FileStore) : Prop := (loadRecords s).2 = true.

Lemma loadRecords_idem s : FS_ready s -> fs_loaded (loadRecords s).1 = true /\ FS_ready (loadRecords s).1
  /\ FS_records (loadRecords s).1 = FS_records s.
Proof.
  unfold FS_ready, FS_records, loadRecords. destruct (fs_loaded s) eqn:El; cbn; [by rewrite El|].
  case_decide; cbn; [done|]. destruct (pf_contents _); [destruct (pf_readable _)|]; cbn; done.
Qed.

Lemma persistRecords_keeps s : fs_loaded s = true ->
  FS_records (persistRecords s).1 = fs_records s /\ FS_ready (persistRecords s).1.
Proof.
  intros Hl. unfold persistRecords. case_decide; [|destruct (pf_writable _)]; unfold FS_records, FS_ready, loadRecords; cbn; by rewrite Hl.
Qed.

Definition file_store : PairingStore.
Proof.
  refine {| PStore := FileStore; PGet := FS_Get; PGetByCode := FS_GetByCode; PSave := FS_Save; records := FS_records; ready := FS_ready |}.
  - intros s c u Hr. destruct (loadRecords_idem s Hr) as (_ & H2 & H3). unfold FS_Get. unfold FS_ready in Hr.
    destruct (loadRecords s) as [s' ok] eqn:El. cbn in *. subst ok. exists s'. unfold FS_records at 1. by rewrite El.
  - intros s code Hr. destruct (loadRecords_idem s Hr) as (_ & H2 & H3). unfold FS_GetByCode. unfold FS_ready in Hr.
    destruct (loadRecords s) as [s' ok] eqn:El. cbn in *. subst ok. exists s', (find_code code (map_order (fs_records s'))).
    split_and!; [done..|]. replace (FS_records s) with (fs_records s') by (unfold FS_records; by rewrite El). apply find_code_records.
  - intros s r Hr. destruct (loadRecords_idem s Hr) as (H1 & H2 & H3). unfold FS_Save. unfold FS_ready in Hr.
    destruct (loadRecords s) as [s' ok] eqn:El. cbn in *. subst ok.
    replace (FS_records s) with (fs_records s') by (unfold FS_records; by rewrite El).
    destruct (persistRecords_keeps (set_records (<[dm_key r := r]> (fs_records s')) s') H1) as [P1 P2].
    destruct (persistRecords _) as [s'' ok]. exists s'', ok. by split_and!.
Defined.

(** *** Restart *)

(** What a new process reads: [NewFileStore] on the file that was left. *)
Definition NewFileStore (path : string) (file : PairingFile) : FileStore := mkFileStore path false ∅ file.

(** a pairing that was saved without an error is there after a restart, and so
    are all others. *)
Theorem pairings_survive_restart s r s' :
  fs_path s <> "" -> pf_readable (fs_file s) = true -> FS_Save s r = (s', true) ->
  FS_ready (NewFileStore (fs_path s) (fs_file s'))
  /\ FS_records (NewFileStore (fs_path s) (fs_file s')) = <[dm_key r := r]> (FS_records s).
Proof.
  intros Hp Hread. unfold FS_Save, FS_ready, FS_records. destruct (loadRecords s) as [s1 ok] eqn:El.
  assert (fs_path s1 = fs_path s /\ fs_file s1 = fs_file s) as [Ep Ef].
  { revert El. unfold loadRecords. repeat case_match; by intros [= <- _]. }
  destruct ok; [|done]. unfold persistRecords, set_records. cbn. rewrite Ep, Ef, decide_False by done.
  destruct (pf_writable (fs_file s)); [|done]. intros [= <-]. unfold loadRecords. cbn.
  rewrite decide_False by done. by rewrite Hread.
Qed.
End Stores.

(** ** The manager *)

Definition codeExpiry : Z := 10 * Minute.
Definition codeMin : Z := 100000.
Definition codeMax : Z := 999999.

(** [generateCode], for the random number below [codeMax - codeMin + 1], or none
    when the source of randomness fails.  The sum has six digits, so that padding
    changes nothing. *)
Definition generateCode (drawn : option Z) : option string := (fun n => FormatInt (n + codeMin)) <$> drawn.

Inductive PairingError :=
  | ErrPairingChannel | ErrPairingUser | ErrGenerateCode | ErrCodeRequired | ErrCodeInvalid | ErrNotPending | ErrCodeExpired | ErrPairingSave
  | ErrPairingNotFound.

Section Manager.
Context {P : PairingStore}.

(** A record that waits for its code. *)
Definition pending_record (channel userID displayName code : string) (now : Time) : DMPairingRecord :=
  mkDMRecord (storeKey channel userID) channel userID (TrimSpace displayName) StatusPending code (Add now codeExpiry) 0 now.

Definition InitiateDM (s : PStore) (channel userID displayName : string) (drawn : option Z) (now : Time) : PStore * (PairingError + string) :=
  let channel := TrimSpace channel in
  let userID := TrimSpace userID in
  if decide (channel = "") then (s, inl ErrPairingChannel)
  else if decide (userID = "") then (s, inl ErrPairingUser)
  else match generateCode drawn with
       | None => (s, inl ErrGenerateCode)
       | Some code =>
         let '(s, ok) := PSave s (pending_record channel userID displayName code now) in
         (s, if ok then inr code else inl ErrPairingSave)
       end.

(** A record that was confirmed, and one that was revoked. *)
Definition verified_record (r : DMPairingRecord) (now : Time) : DMPairingRecord :=
  mkDMRecord (DM_ID r) (DM_Channel r) (DM_UserID r) (DM_DisplayName r) StatusVerified "" 0 now (DM_CreatedAt r).

Definition revoked_record (r : DMPairingRecord) : DMPairingRecord :=
  mkDMRecord (DM_ID r) (DM_Channel r) (DM_UserID r) (DM_DisplayName r) StatusRevoked "" 0 (DM_VerifiedAt r) (DM_CreatedAt r).

Definition VerifyDM (s : PStore) (code : string) (now : Time) : PStore * (PairingError + DMPairingRecord) :=
  let code := TrimSpace code in
  if decide (code = "") then (s, inl ErrCodeRequired) else
  let '(s, found) := PGetByCode s code in
  match found with
  | None => (s, inl ErrCodeInvalid)
  | Some rec =>
    if decide (DM_Status rec <> StatusPending) then (s, inl ErrNotPending)
    else if After now (DM_CodeExpiresAt rec) then (s, inl ErrCodeExpired)
    else let rec := verified_record rec now in
         let '(s, ok) := PSave s rec in
         (s, if ok then inr rec else inl ErrPairingSave)
  end.

Definition IsVerifiedDM (s : PStore) (channel userID : string) : PStore * bool :=
  let '(s, found) := PGet s (TrimSpace channel) (TrimSpace userID) in
  (s, match found with Some rec => bool_decide (DM_Status rec = StatusVerified) | None => false end).

Definition RevokeDM (s : PStore) (channel userID : string) : PStore * option PairingError :=
  let channel := TrimSpace channel in
  let userID := TrimSpace userID in
  let '(s, found) := PGet s channel userID in
  match found with
  | None => (s, Some ErrPairingNotFound)
  | Some rec => let '(s, ok) := PSave s (revoked_record rec) in (s, if ok then None else Some ErrPairingSave)
  end.

(** *** The state machine of a record *)

(** What the records of a store are like. *)
Record pairing_ok (m : Records) : Prop := {
  po_key k r : m !! k = Some r -> k = dm_key r;
  po_trimmed k r : m !! k = Some r -> Trimmed (DM_Channel r) /\ Trimmed (DM_UserID r) /\ DM_Channel r <> "" /\ DM_UserID r <> "";
  po_status k r : m !! k = Some r ->
    (DM_Status r = StatusPending /\ DM_Code r <> "") \/ ((DM_Status r = StatusVerified \/ DM_Status r = StatusRevoked) /\ DM_Code r = "")
}.

Inductive dm_op :=
  | OpInitiate (channel userID displayName : string) (drawn : option Z) (now : Time)
  | OpVerify (code : string) (now : Time)
  | OpRevoke (channel userID : string)
  | OpCheck (channel userID : string).

Definition dm_step (s : PStore) (op : dm_op) : PStore :=
  match op with
  | OpInitiate c u d n now => (InitiateDM s c u d n now).1
  | OpVerify code now => (VerifyDM s code now).1
  | OpRevoke c u => (RevokeDM s c u).1
  | OpCheck c u => (IsVerifiedDM s c u).1
  end.

(** What an operation does to the records. *)
Definition dm_effect (m : Records) (op : dm_op) (m' : Records) : Prop :=
  match op with
  | OpInitiate c u d n now =>
    let c := TrimSpace c in
    let u := TrimSpace u in
    if decide (c = "" \/ u = "") then m' = m
    else match generateCode n with None => m' = m | Some code => m' = <[storeKey c u := pending_record c u d code now]> m end
  | OpVerify code now => m' = m \/ exists k r, m !! k = Some r /\ DM_Status r = StatusPending /\ DM_Code r = TrimSpace code
      /\ now <= DM_CodeExpiresAt r /\ m' = <[k := verified_record r now]> m
  | OpRevoke c u =>
    let k := storeKey (TrimSpace c) (TrimSpace u) in
    match m !! k with None => m' = m | Some r => m' = <[k := revoked_record r]> m end
  | OpCheck c u => m' = m
  end.

Lemma graphic_uint u : graphic (NilEmpty.string_of_uint u) = true.
Proof. induction u as [|u IH|u IH|u IH|u IH|u IH|u IH|u IH|u IH|u IH|u IH]; [done|..]; exact IH. Qed.

Lemma generateCode_text drawn code : generateCode drawn = Some code -> code <> "" /\ Trimmed code.
Proof.
  unfold generateCode. destruct drawn as [n|]; [|done]. intros [= <-]. unfold FormatInt. case_decide.
  - split; [done|]. apply graphic_trimmed. exact (graphic_uint _).
  - destruct (decimal_shape (Z.to_N (n + codeMin))) as (a & rest & Ha & _). split; [by rewrite Ha|].
    apply graphic_trimmed, graphic_uint.
Qed.

Lemma dm_step_effect s op :
  ready s -> pairing_ok (records s) -> ready (dm_step s op) /\ dm_effect (records s) op (records (dm_step s op)).
Proof.
  intros Hr Hok. destruct op as [c u d n now|code now|c u|c u]; cbn [dm_step dm_effect].
  - unfold InitiateDM. cbv zeta. case_decide; [rewrite decide_True by auto; by auto|].
    case_decide; [rewrite decide_True by auto; by auto|]. rewrite decide_False by tauto.
    destruct (generateCode n) as [code|]; [|done].
    destruct (PSave_law s (pending_record (TrimSpace c) (TrimSpace u) d code now) Hr) as (s' & ok & -> & E1 & R1). done.
  - unfold VerifyDM. cbv zeta. case_decide; [by auto|].
    destruct (PGetByCode_law s (TrimSpace code) Hr) as (s1 & found & -> & E1 & R1 & Hf).
    destruct found as [rec|]; [|cbn; by auto]. destruct Hf as (Hc & k & Hk).
    destruct (decide (DM_Status rec <> StatusPending)) as [|Hst%dec_stable]; [cbn; by auto|].
    destruct (After now (DM_CodeExpiresAt rec)) eqn:Ea; [cbn; by auto|].
    destruct (PSave_law s1 (verified_record rec now) R1) as (s' & ok & -> & E2 & R2). cbn [fst]. split; [done|].
    right. exists k, rec. unfold After in Ea. apply bool_decide_eq_false in Ea. split_and!; [done..|lia|].
    rewrite E2, E1. f_equal. symmetry. by apply (po_key _ Hok k rec).
  - unfold RevokeDM. cbv zeta. destruct (PGet_law s (TrimSpace c) (TrimSpace u) Hr) as (s1 & -> & E1 & R1).
    destruct (records s !! storeKey (TrimSpace c) (TrimSpace u)) as [rec|] eqn:Hk; [|cbn; by auto].
    destruct (PSave_law s1 (revoked_record rec) R1) as (s' & ok & -> & E2 & R2). cbn [fst]. split; [done|].
    rewrite E2, E1. f_equal. symmetry. by apply (po_key _ Hok _ rec).
  - unfold IsVerifiedDM. destruct (PGet_law s (TrimSpace c) (TrimSpace u) Hr) as (s1 & -> & E1 & R1). done.
Qed.

Lemma pairing_ok_insert m k r :
  pairing_ok m -> k = dm_key r -> Trimmed (DM_Channel r) -> Trimmed (DM_UserID r) -> DM_Channel r <> "" -> DM_UserID r <> "" ->
  (DM_Status r = StatusPending /\ DM_Code r <> "") \/ ((DM_Status r = StatusVerified \/ DM_Status r = StatusRevoked) /\ DM_Code r = "") ->
  pairing_ok (<[k := r]> m).
Proof.
  intros [K1 K2 K3] Hk T1 T2 N1 N2 Hst. constructor; (intros k' r' [[<- <-]|[_ H]]%lookup_insert_Some; [done|by eauto]).
Qed.

Lemma dm_effect_ok m op m' : pairing_ok m -> dm_effect m op m' -> pairing_ok m'.
Proof.
  intros Hok. assert (forall k r r', m !! k = Some r -> DM_Channel r' = DM_Channel r -> DM_UserID r' = DM_UserID r ->
    (DM_Status r' = StatusVerified \/ DM_Status r' = StatusRevoked) /\ DM_Code r' = "" -> pairing_ok (<[k := r']> m)) as Hupd.
  { intros k r r' Hk E1 E2 Hst. destruct (po_trimmed _ Hok _ _ Hk) as (T1 & T2 & N1 & N2).
    apply pairing_ok_insert; rewrite ?E1, ?E2; auto. unfold dm_key. rewrite E1, E2. by apply (po_key _ Hok). }
  destruct op as [c u d n now|code now|c u|c u]; cbn [dm_effect]; cbv zeta.
  - case_decide as Hb; [by intros ->|]. destruct (generateCode n) as [code|] eqn:Hg; intros ->; [|done].
    apply pairing_ok_insert; cbn; auto with golib. left. split; [done|]. by apply (generateCode_text n).
  - intros [->|(k & r & Hk & _ & _ & _ & ->)]; [done|]. eapply Hupd; [exact Hk|done..|]. by auto.
  - destruct (m !! _) as [r|] eqn:Hk; intros ->; [|done]. eapply Hupd; [exact Hk|done..|]. by auto.
  - by intros ->.
Qed.

(** *** Who is verified *)

Definition dm_run (s : PStore) (ops : list dm_op) : PStore := foldl dm_step s ops.

(** An operation that sets the record of a key anew. *)
Definition touches (k : string) (op : dm_op) : Prop :=
  match op with
  | OpInitiate c u _ drawn _ => TrimSpace c <> "" /\ TrimSpace u <> "" /\ generateCode drawn <> None /\ k = storeKey (TrimSpace c) (TrimSpace u)
  | OpRevoke c u => k = storeKey (TrimSpace c) (TrimSpace u)
  | _ => False
  end.

Definition quiet (k : string) (ops : list dm_op) : Prop := Forall (fun op => ~ touches k op) ops.

(** A code was issued for a key and nothing has happened to it since. *)
Definition issued (k code : string) (expires : Time) (ops : list dm_op) : Prop :=
  exists a c u d n now b, ops = a ++ OpInitiate c u d n now :: b /\ k = storeKey (TrimSpace c) (TrimSpace u)
  /\ generateCode n = Some code /\ expires = Add now codeExpiry /\ quiet k b.

(** A code that was issued for a key has been presented in time, and nothing has
    happened to the key since. *)
Definition confirmed (k : string) (ops : list dm_op) : Prop :=
  exists a code now b expires, ops = a ++ OpVerify code now :: b /\ issued k (TrimSpace code) expires a /\ now <= expires /\ quiet k b.

Lemma issued_snoc k code e ops op : issued k code e ops -> ~ touches k op -> issued k code e (ops ++ [op]).
Proof.
  intros (a & c & u & d & n & now & b & -> & H1 & H2 & H3 & H4) Ht. exists a, c, u, d, n, now, (b ++ [op]).
  split; [by rewrite <- app_assoc|]. split_and!; [done..|]. apply Forall_app. split; [done|by constructor].
Qed.

Lemma confirmed_snoc k ops op : confirmed k ops -> ~ touches k op -> confirmed k (ops ++ [op]).
Proof.
  intros (a & code & now & b & e & -> & H1 & H2 & H3) Ht. exists a, code, now, (b ++ [op]), e.
  split; [by rewrite <- app_assoc|]. split_and!; [done..|]. apply Forall_app. split; [done|by constructor].
Qed.

(** What the records say about the operations so far. *)
Definition explained (m : Records) (ops : list dm_op) : Prop :=
  forall k r, m !! k = Some r ->
    (DM_Status r = StatusPending -> issued k (DM_Code r) (DM_CodeExpiresAt r) ops) /\ (DM_Status r = StatusVerified -> confirmed k ops).

Lemma explained_step m op m' ops : explained m ops -> dm_effect m op m' -> explained m' (ops ++ [op]).
Proof.
  intros Hx He k r Hr.
  assert (forall k r, m !! k = Some r -> ~ touches k op ->
    (DM_Status r = StatusPending -> issued k (DM_Code r) (DM_CodeExpiresAt r) (ops ++ [op]))
    /\ (DM_Status r = StatusVerified -> confirmed k (ops ++ [op]))) as Hold.
  { intros k0 r0 H0 Ht. destruct (Hx k0 r0 H0) as [X1 X2]. split; intros; [by apply issued_snoc; auto|by apply confirmed_snoc; auto]. }
  destruct op as [c u d n now|code now|c u|c u]; cbn [dm_effect] in He; cbv zeta in He.
  - case_decide as Hb; [subst m'; apply Hold; [done|cbn; tauto]|].
    destruct (generateCode n) as [code|] eqn:Hg; subst m'; [|apply Hold; [done|cbn; rewrite Hg; naive_solver]].
    apply lookup_insert_Some in Hr as [[<- <-]|[Hne Hr]]; [|apply Hold; [done|cbn; naive_solver]].
    split; [intros _|done]. exists ops, c, u, d, n, now, []. split_and!; [done..|constructor].
  - destruct He as [->|(k' & r' & Hk' & Hst & Hc & He & ->)]; [by apply Hold; [|cbn; tauto]|].
    apply lookup_insert_Some in Hr as [[<- <-]|[Hne Hr]]; [|by apply Hold; [|cbn; tauto]].
    split; [done|]. intros _. destruct (Hx k' r' Hk') as [X1 _]. exists ops, code, now, [], (DM_CodeExpiresAt r').
    rewrite <- Hc. split_and!; [done|by apply X1|done|constructor].
  - destruct (m !! storeKey _ _) as [r0|] eqn:Hk; subst m'.
    + apply lookup_insert_Some in Hr as [[<- <-]|[Hne Hr]]; [done|apply Hold; [done|cbn; naive_solver]].
    + apply Hold; [done|]. cbn. intros ->. congruence.
  - subst m'. by apply Hold; [|cbn; tauto].
Qed.

Lemma dm_run_inv s ops :
  ready s -> records s = ∅ -> let s' := dm_run s ops in ready s' /\ pairing_ok (records s') /\ explained (records s') ops.
Proof.
  intros Hr He. cbv zeta. induction ops as [|op ops IH] using rev_ind.
  - cbn. rewrite He. split_and!; [done|constructor; by intros k r ?%lookup_empty_Some|by intros k r ?%lookup_empty_Some].
  - unfold dm_run in *. rewrite foldl_snoc. destruct IH as (R1 & O1 & X1). destruct (dm_step_effect _ op R1 O1) as [R2 E2].
    split_and!; [done|by eapply dm_effect_ok|by eapply explained_step].
Qed.

(** A channel name without a colon, apart from spaces around it. *)
Definition colonless (channel : string) : Prop := lacks ":"%char (TrimSpace channel).

Lemma storeKey_inj c1 u1 c2 u2 : lacks ":"%char c1 -> lacks ":"%char c2 -> storeKey c1 u1 = storeKey c2 u2 -> c1 = c2 /\ u1 = u2.
Proof.
  unfold storeKey, lacks. revert c2. induction c1 as [|a c1 IH]; intros [|b c2] H1 H2; cbn; intros E.
  - injection E as E1. split; [done|exact E1].
  - injection E as E1 _. destruct H2. by left.
  - injection E as E1 _. destruct H1. by left.
  - injection E as E1 E2. destruct (IH c2) as [-> ->]; [intros Hin; apply H1; by right|intros Hin; apply H2; by right|done|]. by subst.
Qed.

(** C20: for every store: a user is verified only after a pairing was initiated
    under the key of the user, its code was then presented before it expired, and
    the key saw no new pairing and no revocation in between and since.  The key
    joins the channel and the user with a colon; where no channel contains one, the
    pairing was initiated for exactly this user of this channel, and otherwise
    two users can share a key ([pairing_keys_collide]). *)
Theorem verified_was_confirmed s ops channel userID (k := storeKey (TrimSpace channel) (TrimSpace userID)) :
  ready s -> records s = ∅ -> (IsVerifiedDM (dm_run s ops) channel userID).2 = true ->
  exists before between after c u name drawn issuedAt presented now,
    ops = before ++ OpInitiate c u name drawn issuedAt :: between ++ OpVerify presented now :: after
    /\ generateCode drawn = Some (TrimSpace presented) /\ now <= Add issuedAt codeExpiry
    /\ storeKey (TrimSpace c) (TrimSpace u) = k /\ quiet k between /\ quiet k after
    /\ (colonless channel -> colonless c -> TrimSpace c = TrimSpace channel /\ TrimSpace u = TrimSpace userID).
Proof.
  intros Hr He. destruct (dm_run_inv s ops Hr He) as (R1 & _ & X1). unfold IsVerifiedDM.
  destruct (PGet_law (dm_run s ops) (TrimSpace channel) (TrimSpace userID) R1) as (s' & -> & _ & _). cbn.
  destruct (records (dm_run s ops) !! _) as [r|] eqn:Hk; [|done]. intros Hst%bool_decide_eq_true.
  destruct (proj2 (X1 _ r Hk) Hst) as (a & code & now & after & e & -> & (before & c & u & name & drawn & t & between & -> & Hkey & Hc & -> & Hq1) & Hn & Hq2).
  exists before, between, after, c, u, name, drawn, t, code, now. split; [by rewrite <- app_assoc|].
  split_and!; [done..|]. intros H1 H2. by apply storeKey_inj.
Qed.
End Manager.

(** ** Pairing in a conversation ([channels/feishu/pairing.go]) *)

Section Conversation.
Context {U : GoUnicode} {P : PairingStore}.

Record pairingCommand := mkPairingCommand { pc_action : string; pc_code : string }.

Definition parsePairingCommand (text : string) : option pairingCommand :=
  match Fields (TrimSpace text) with
  | [] => None
  | f0 :: rest =>
    if negb (EqualFold f0 "/pair") && negb (EqualFold f0 "/unpair") then None
    else if EqualFold f0 "/unpair" then Some (mkPairingCommand "revoke" "")
    else match rest with
         | [] => Some (mkPairingCommand "init" "")
         | [f1] => if decide (ToLower f1 = "status") then Some (mkPairingCommand "status" "")
                   else if decide (ToLower f1 = "reset") then Some (mkPairingCommand "reset" "")
                   else Some (mkPairingCommand "verify" f1)
         | f1 :: f2 :: _ => if EqualFold f1 "verify" then Some (mkPairingCommand "verify" f2) else None
         end
  end.

Definition pairingChannelName (accountID : string) : string :=
  if decide (TrimSpace accountID = "" \/ TrimSpace accountID = "default") then "feishu" else "feishu:" +:+ TrimSpace accountID.

(** What a user is told. *)
Inductive PairingReply :=
  | ReplyRequired (code : string)
  | ReplyStatusMissing
  | ReplyStatusVerified
  | ReplyStatusPending (code : string) (expires : Time)
  | ReplyStatusOther (status : string)
  | ReplyVerifyFailed
  | ReplyOtherConversation
  | ReplyVerified
  | ReplyRevokeMissing
  | ReplyRevoked.

(** The result of a handler: the store, what is told and whether the message is
    done with; [sends] says whether a reply can be sent. *)
Abbreviation handled := (PStore * option PairingReply * bool)%type.

Definition sendPairingReply (sends : bool) (s : PStore) (r : PairingReply) : handled :=
  if sends then (s, Some r, true) else (s, None, false).

Definition replyPairingRequired (s : PStore) (channel sender : string) (forceNew sends : bool) (drawn : option Z) (now : Time) : handled :=
  let '(s, record) := PGet s channel sender in
  let stale := match record with
    | None => true
    | Some r => bool_decide (DM_Status r <> StatusPending) || After now (DM_CodeExpiresAt r)
    end in
  if forceNew || stale then
    match InitiateDM s channel sender "" drawn now with
    | (s, inl _) => (s, None, false)
    | (s, inr code) =>
      let '(s, record) := PGet s channel sender in
      match record with None => (s, None, false) | Some _ => sendPairingReply sends s (ReplyRequired code) end
    end
  else match record with None => (s, None, false) | Some r => sendPairingReply sends s (ReplyRequired (DM_Code r)) end.

Definition replyPairingStatus (s : PStore) (channel sender : string) (sends : bool) : handled :=
  let '(s, record) := PGet s channel sender in
  sendPairingReply sends s
    (match record with
     | None => ReplyStatusMissing
     | Some r => if decide (DM_Status r = StatusVerified) then ReplyStatusVerified
                 else if decide (DM_Status r = StatusPending) then ReplyStatusPending (DM_Code r) (DM_CodeExpiresAt r)
                 else ReplyStatusOther (DM_Status r)
     end).

Definition replyPairingVerify (s : PStore) (channel sender code : string) (sends : bool) (now : Time) : handled :=
  match VerifyDM s code now with
  | (s, inl _) => sendPairingReply sends s ReplyVerifyFailed
  | (s, inr r) => sendPairingReply sends s
      (if decide (DM_Channel r <> channel \/ DM_UserID r <> sender) then ReplyOtherConversation else ReplyVerified)
  end.

Definition replyPairingRevoke (s : PStore) (channel sender : string) (sends : bool) : handled :=
  match RevokeDM s channel sender with
  | (s, Some _) => sendPairingReply sends s ReplyRevokeMissing
  | (s, None) => sendPairingReply sends s ReplyRevoked
  end.

Definition handlePairingMessage (s : PStore) (accountID dmPolicy sender chatType content : string) (sends : bool) (drawn : option Z) (now : Time) :
    handled :=
  if decide (chatType <> "p2p") then (s, None, false) else
  let command := parsePairingCommand content in
  let channel := pairingChannelName accountID in
  let '(s, verified) := if decide (dmPolicy = "pairing") then IsVerifiedDM s channel sender else (s, true) in
  match command with
  | None => if verified then (s, None, false) else replyPairingRequired s channel sender false sends drawn now
  | Some c =>
    if decide (pc_action c = "init" \/ pc_action c = "reset") then replyPairingRequired s channel sender true sends drawn now
    else if decide (pc_action c = "status") then replyPairingStatus s channel sender sends
    else if decide (pc_action c = "verify") then replyPairingVerify s channel sender (pc_code c) sends now
    else replyPairingRevoke s channel sender sends
  end.

End Conversation.

(** ** Examples *)

Section Examples.
Definition plain_memory : PairingStore := memory_store map_to_list (fun m => reflexivity _).
#[local] Existing Instances ascii_unicode plain_memory.

Definition empty_records : PStore := (∅ : Records).

Definition pair_ops : list dm_op := [OpInitiate "slack" "u1" "Ann" (Some 23456) 1000; OpVerify " 123456" 2000].

Lemma verified_was_confirmed_witness :
  (IsVerifiedDM (dm_run empty_records pair_ops) "slack" "u1 ").2 = true
  /\ exists before between after c u name drawn issuedAt presented now,
    pair_ops = before ++ OpInitiate c u name drawn issuedAt :: between ++ OpVerify presented now :: after
    /\ generateCode drawn = Some (TrimSpace presented) /\ now <= Add issuedAt codeExpiry.
Proof.
  assert ((IsVerifiedDM (dm_run empty_records pair_ops) "slack" "u1 ").2 = true) as H by (vm_compute; reflexivity).
  split; [exact H|].
  destruct (verified_was_confirmed empty_records pair_ops "slack" "u1 " I eq_refl H)
    as (before & between & after & c & u & name & drawn & t & code & now & H1 & H2 & H3 & _).
  exists before, between, after, c, u, name, drawn, t, code, now. by split_and!.
Defined.

(** A stranger pairs himself: the code that an operator is to confirm is sent to
    the user, and the user's own [/pair] command confirms it. *)
Theorem stranger_pairs_himself :
  let h s content now := handlePairingMessage s "" "pairing" "ou_1" "p2p" content true (Some 23456) now in
  let first := h empty_records "hello" 1000 in
  let second := h first.1.1 "/pair 123456" 2000 in
  first.1.2 = Some (ReplyRequired "123456") /\ (IsVerifiedDM first.1.1 "feishu" "ou_1").2 = false
  /\ second.1.2 = Some ReplyVerified /\ (IsVerifiedDM second.1.1 "feishu" "ou_1").2 = true
  /\ (h second.1.1 "hello" 3000).2 = false.
Proof. cbv zeta. split_and!; vm_compute; reflexivity. Qed.

(** The code of another user is used up by anyone who sends it: the sender is told
    that it belongs to a different conversation, and that user is verified. *)
Theorem foreign_code_verifies :
  let s := (InitiateDM empty_records "feishu" "ou_1" "" (Some 23456) 1000).1 in
  let h := handlePairingMessage s "" "open" "ou_2" "p2p" "/pair 123456" true None 2000 in
  h.1.2 = Some ReplyOtherConversation /\ (IsVerifiedDM s "feishu" "ou_1").2 = false /\ (IsVerifiedDM h.1.1 "feishu" "ou_1").2 = true.
Proof. cbv zeta. split_and!; vm_compute; reflexivity. Qed.

(** Two users may share a record: the key does not tell the end of the channel from
    the beginning of the user. *)
Theorem pairing_keys_collide :
  let s := dm_run empty_records [OpInitiate "feishu" "work:ou_1" "" (Some 23456) 1000; OpVerify "123456" 2000] in
  (IsVerifiedDM s (pairingChannelName "work") "ou_1").2 = true.
Proof. vm_compute. reflexivity. Qed.
End Examples.
