(* ===== verification/ModelRetry.v ===== *)
(** * Retrying a model call ([agent/retry.go])

    A call of a model that fails is classified, reported to the router and tried
    again: once without extended thinking, with another model that the router
    selects, or with the same model after a delay.  The router is the one of
    [ModelRouter].  What a model answers is a function of the requests that were
    sent; clock, random numbers and the cancellation of a wait are functions of
    how often they were asked for. *)
From S2P Require Import Prelude GoLib GoFloat ModelRouter.
From S2P Require Import GoText.
From Stdlib Require Import Floats.SpecFloat.
Import Str GoTime GoInt Text.

Local Open Scope Z_scope.

(** ** Configuration and policies *)

Record RetryConfig := mkRetryConfig {
  RC_MaxAttempts : Z; RC_MinDelay : Duration; RC_MaxDelay : Duration; RC_Jitter : float64 }.

Record retryPolicy := mkRetryPolicy {
  RP_AllowRetry : bool; RP_AllowFailover : bool; RP_AlignToRouterWindow : bool; RP_MinDelay : Duration }.

Definition defaultModelRetryAttempts : Z := 4.
Definition defaultModelRetryMinDelay : Duration := 500 * Millisecond.
Definition defaultModelRetryMaxDelay : Duration := 20 * Second.
Definition defaultModelRetryJitter : float64 := lit 2 10.

(** The defaults that [retryModelCall] fills in. *)
Definition retry_defaults (c : RetryConfig) : RetryConfig :=
  mkRetryConfig
    (if decide (RC_MaxAttempts c <= 0) then defaultModelRetryAttempts else RC_MaxAttempts c)
    (if decide (RC_MinDelay c <= 0) then defaultModelRetryMinDelay else RC_MinDelay c)
    (if decide (RC_MaxDelay c <= 0) then defaultModelRetryMaxDelay else RC_MaxDelay c)
    (if fleb (RC_Jitter c) (of_int 0) || fltb (of_int 1) (RC_Jitter c) then defaultModelRetryJitter else RC_Jitter c).

Definition isThinkingRelated (reason : FailureReason) : bool :=
  bool_decide (reason = FailureTimeout \/ reason = FailureOverloaded).

Definition retryPolicyForReason (reason : FailureReason) : retryPolicy :=
  if decide (reason = FailureRateLimit) then mkRetryPolicy true true true (2 * Second)
  else if decide (reason = FailureOverloaded) then mkRetryPolicy true true true (1200 * Millisecond)
  else if decide (reason = FailureTimeout) then mkRetryPolicy true true false (750 * Millisecond)
  else if decide (reason = FailureUnknown) then mkRetryPolicy true false false (1 * Second)
  else if decide (reason ∈ [FailureAuth; FailureAuthPermanent; FailureBilling; FailureModelNotFound])
  then mkRetryPolicy false true false 0
  else if decide (reason = FailureFormat) then mkRetryPolicy false false false 0
  else mkRetryPolicy (IsTransient reason) (IsTransient reason) false defaultModelRetryMinDelay.

(** ** Delays *)

(** [math.Pow(2, k)] for an integer [k]: exact, or infinite when it is too large. *)
Definition pow2 (k : Z) : float64 := binary_normalize 53 1024 1 k false.

(** [retryDelay], for the random number [r] that is drawn. *)
Definition retryDelay (attempt : Z) (c : RetryConfig) (r : float64) : Duration :=
  let base := fmul (of_int (RC_MinDelay c)) (pow2 (attempt - 1)) in
  let jitterFactor := fadd (fsub (of_int 1) (fdiv (RC_Jitter c) (of_int 2))) (fmul r (RC_Jitter c)) in
  let delay := to_int (fmul base jitterFactor) in
  let delay := if decide (delay > RC_MaxDelay c) then RC_MaxDelay c else delay in
  if decide (delay < RC_MinDelay c) then RC_MinDelay c else delay.

Definition effectiveRetryDelay (attempt : Z) (c : RetryConfig) (p : retryPolicy) (cooldown : Duration) (r : float64) : Duration :=
  let delay := retryDelay attempt c r in
  let delay := if decide (RP_MinDelay p > delay) then RP_MinDelay p else delay in
  let delay := if RP_AlignToRouterWindow p && bool_decide (cooldown > delay) then cooldown else delay in
  let delay := if decide (RC_MaxDelay c > 0 /\ delay > RC_MaxDelay c) then RC_MaxDelay c else delay in
  if decide (delay < RC_MinDelay c) then RC_MinDelay c else delay.

(** [routerCooldownDelay] for a router at hand. *)
Definition routerCooldownDelay (router : option InMemoryRouter) (modelID : string) (now : Time) : Duration :=
  match router with
  | None => 0
  | Some rt =>
    if decide (TrimSpace modelID = "") then 0
    else match GetFailureStats rt modelID with
         | None => 0
         | Some stats =>
           if negb (IsZero (PF_CooldownUntil stats)) && After (PF_CooldownUntil stats) now then Sub (PF_CooldownUntil stats) now
           else if negb (IsZero (PF_DisabledUntil stats)) && After (PF_DisabledUntil stats) now
           then Sub (PF_DisabledUntil stats) now
           else 0
         end
  end.

(** ** Errors *)

(** An error of a model call: one that carries a status, one that reports it by a
    method, and any other. *)
Inductive ModelError := StatusError (status : Z) (message : string) | CodedError (status : Z) (text : string) | PlainError (text : string).

Definition ErrorText (e : ModelError) : string :=
  match e with
  | StatusError status message => "status " +:+ FormatInt status +:+ ": " +:+ message
  | CodedError _ text => text
  | PlainError text => text
  end.

Definition extractErrorInfo (e : ModelError) : Z * string :=
  match e with
  | StatusError status message => (status, message)
  | CodedError status text => (status, text)
  | PlainError text => (0, text)
  end.

Definition reason_of `{GoUnicode} (e : ModelError) : FailureReason :=
  let '(status, message) := extractErrorInfo e in ClassifyError status message.

(** ** The state of a call *)

Definition ThinkingExtended : string := "extended".
Definition ThinkingRegular : string := "regular".

Definition CapabilityTools : Capability := "tools".

Definition requiredCapabilities (tools : list string) : list Capability :=
  match tools with [] => [CapabilityChat] | _ => [CapabilityChat; CapabilityTools] end.

(** What retrying reads and changes of a request. *)
Record RetryRequest := mkRetryRequest {
  RQ_Model : string; RQ_Tools : list string; RQ_ContextWindow : Z; RQ_ReservedOutput : Z; RQ_ThinkingMode : string }.

Definition set_model (m : string) (q : RetryRequest) : RetryRequest :=
  mkRetryRequest m (RQ_Tools q) (RQ_ContextWindow q) (RQ_ReservedOutput q) (RQ_ThinkingMode q).
Definition set_thinking (m : string) (q : RetryRequest) : RetryRequest :=
  mkRetryRequest (RQ_Model q) (RQ_Tools q) (RQ_ContextWindow q) (RQ_ReservedOutput q) m.

(** A run or a session: its identifier and its model. *)
Record ModelOwner := mkModelOwner { MO_ID : string; MO_Model : string }.

Record modelFailoverSelection := mkFailover { FO_FromModel : string; FO_ToModel : string; FO_Reason : string }.

Inductive RetryEvent :=
  | EventModelFailover (f : modelFailoverSelection)
  | EventThinkingDegraded (model : string) (reason : FailureReason) (error : string) (attempt : Z)
  | EventModelRetry (model : string) (attempt maxAttempts : Z) (reason : FailureReason) (delay : Duration) (error : string).

Record RetryState := mkRetryState {
  RS_router : option InMemoryRouter; RS_request : option RetryRequest; RS_run : option ModelOwner; RS_session : option ModelOwner;
  RS_calls : list (option RetryRequest);   (* the requests that were sent *)
  RS_events : list RetryEvent; RS_waits : list Duration; RS_reads : nat }.

Definition with_router rt s :=
  mkRetryState rt (RS_request s) (RS_run s) (RS_session s) (RS_calls s) (RS_events s) (RS_waits s) (S (RS_reads s)).
Definition with_request q s :=
  mkRetryState (RS_router s) q (RS_run s) (RS_session s) (RS_calls s) (RS_events s) (RS_waits s) (RS_reads s).
Definition with_model m s :=
  mkRetryState (RS_router s) (set_model m <$> RS_request s) ((fun o => mkModelOwner (MO_ID o) m) <$> RS_run s)
    ((fun o => mkModelOwner (MO_ID o) m) <$> RS_session s) (RS_calls s) (RS_events s) (RS_waits s) (RS_reads s).
Definition with_call s :=
  mkRetryState (RS_router s) (RS_request s) (RS_run s) (RS_session s) (RS_calls s ++ [RS_request s]) (RS_events s) (RS_waits s) (RS_reads s).
Definition with_wait d s :=
  mkRetryState (RS_router s) (RS_request s) (RS_run s) (RS_session s) (RS_calls s) (RS_events s) (RS_waits s ++ [d]) (RS_reads s).

(** [a.emit]: events are sent only for a run with an identifier and a session. *)
Definition emit_retry (e : RetryEvent) (s : RetryState) : RetryState :=
  match RS_run s, RS_session s with
  | Some run, Some _ =>
    if decide (TrimSpace (MO_ID run) = "") then s
    else mkRetryState (RS_router s) (RS_request s) (RS_run s) (RS_session s) (RS_calls s) (RS_events s ++ [e]) (RS_waits s) (RS_reads s)
  | _, _ => s
  end.

Inductive RetryOutcome {Response : Type} := Answered (r : Response) | FailedWith (e : option ModelError) | Cancelled.
Arguments RetryOutcome : clear implicits.

(** ** The loop *)

Section Retry.
Context {F : FloatConversion} {U : GoUnicode} {Response : Type}.
(** What the model answers to the last of the requests that were sent. *)
Context (call : list (option RetryRequest) -> ModelError + Response).
Context (clock : nat -> Time) (random : nat -> float64) (cancelled : nat -> bool).
(** The order in which Go ranges over the profiles. *)
Context (map_order : gmap string ModelProfile -> list ModelProfile).

Definition route_request (currentModel : string) (q : RetryRequest) : RouteRequest :=
  mkRequest currentModel (requiredCapabilities (RQ_Tools q)) (RQ_ContextWindow q) (RQ_ReservedOutput q).

Definition failoverRetryModel (currentModel : string) (reason : FailureReason) (s : RetryState) :
    RetryState * option modelFailoverSelection :=
  match RS_router s, RS_request s with
  | Some rt, Some q =>
    if decide (TrimSpace currentModel = "" \/ reason = FailureFormat) then (s, None)
    else
      let '(rt, selected) := SelectModel (clock (RS_reads s)) (map_order (rt_profiles rt)) rt (route_request currentModel q) in
      let s := with_router (Some rt) s in
      match selected with
      | inr _ => (s, None)
      | inl decision =>
        let to := MP_ID (Dec_Model decision) in
        if decide (TrimSpace to = "" \/ to = currentModel) then (s, None)
        else
          let reasonText := if decide (TrimSpace (Dec_Reason decision) = "") then "retry failover after " +:+ reason else Dec_Reason decision in
          (with_model to s, Some (mkFailover currentModel to reasonText))
      end
  | _, _ => (s, None)
  end.

(** Reporting to the router; errors are only logged. *)
Definition report (f : Time -> InMemoryRouter -> InMemoryRouter * option RouterError) (chatModel : string) (s : RetryState) : RetryState :=
  match RS_router s with
  | Some rt => if decide (chatModel = "") then s else with_router (Some (f (clock (RS_reads s)) rt).1) s
  | None => s
  end.

(** What remains after a call has failed: none to go on with the loop, or the
    result. *)
Definition after_failure (c : RetryConfig) (attempts : Z) (chatModel : string) (pending : list modelFailoverSelection)
    (err : ModelError) (s : RetryState) :
    (RetryState * string * list modelFailoverSelection) + (RetryState * RetryOutcome Response) :=
  let reason := reason_of err in
  let policy := retryPolicyForReason reason in
  let s := report (fun now rt => reportFailureWithReason now rt chatModel reason) chatModel s in
  let '(s, failover) := if RP_AllowFailover policy then failoverRetryModel chatModel reason s else (s, None) in
  match failover with
  | Some f => inl (s, FO_ToModel f, pending ++ [f])
  | None =>
    if negb (RP_AllowRetry policy) then inr (s, FailedWith (Some err))
    else if decide (attempts >= RC_MaxAttempts c) then inr (s, FailedWith (Some err))
    else
      let now := clock (RS_reads s) in
      let delay := effectiveRetryDelay attempts c policy (routerCooldownDelay (RS_router s) chatModel now) (random (length (RS_waits s))) in
      let s := emit_retry (EventModelRetry chatModel attempts (RC_MaxAttempts c) reason delay (ErrorText err)) (with_router (RS_router s) s) in
      if cancelled (length (RS_waits s)) then inr (s, Cancelled)
      else inl (with_wait delay s, chatModel, pending)
  end.

Fixpoint retry_loop (fuel : nat) (c : RetryConfig) (attempts : Z) (degraded : bool) (pending : list modelFailoverSelection)
    (chatModel : string) (lastErr : option ModelError) (s : RetryState) : option (RetryState * RetryOutcome Response) :=
  match fuel with
  | O => None
  | S fuel =>
    if decide (attempts < RC_MaxAttempts c) then
      let attempts := attempts + 1 in
      let s := with_call s in
      match call (RS_calls s) with
      | inr resp =>
        let s := foldl (fun s f => emit_retry (EventModelFailover f) s) s pending in
        Some (report (fun now rt => ReportSuccess now rt chatModel) chatModel s, Answered resp)
      | inl err =>
        let reason := reason_of err in
        let extended := match RS_request s with Some q => bool_decide (RQ_ThinkingMode q = ThinkingExtended) | None => false end in
        if negb degraded && extended && isThinkingRelated reason then
          let s := with_request (set_thinking ThinkingRegular <$> RS_request s) s in
          let s := emit_retry (EventThinkingDegraded chatModel reason (ErrorText err) attempts) s in
          retry_loop fuel c (attempts - 1) true pending chatModel (Some err) s
        else match after_failure c attempts chatModel pending err s with
             | inl (s, chatModel, pending) => retry_loop fuel c attempts degraded pending chatModel (Some err) s
             | inr result => Some result
             end
      end
    else Some (s, FailedWith lastErr)
  end.

(** One round per attempt, one for the degradation and one to leave the loop. *)
Definition retry_fuel (c : RetryConfig) : nat := Z.to_nat (RC_MaxAttempts c) + 2.

Definition retryModelCall (config : RetryConfig) (chatModel : string) (s : RetryState) : option (RetryState * RetryOutcome Response) :=
  let c := retry_defaults config in
  retry_loop (retry_fuel c) c 0 false [] chatModel None s.
End Retry.

(** ** What the loop does *)

Lemma emit_retry_calls e s : RS_calls (emit_retry e s) = RS_calls s /\ RS_request (emit_retry e s) = RS_request s
  /\ RS_waits (emit_retry e s) = RS_waits s.
Proof. unfold emit_retry. repeat case_match; done. Qed.

Lemma emit_failovers_calls pending s : RS_calls (foldl (fun s f => emit_retry (EventModelFailover f) s) s pending) = RS_calls s.
Proof.
  revert s. induction pending as [|f pending IH]; intros s; cbn; [done|]. rewrite IH. apply emit_retry_calls.
Qed.

Lemma report_calls clock f m s : RS_calls (report clock f m s) = RS_calls s.
Proof. unfold report. repeat case_match; done. Qed.

Section Behaviour.
Context {F : FloatConversion} {U : GoUnicode} {Response : Type}.
Context (call : list (option RetryRequest) -> ModelError + Response).
Context (clock : nat -> Time) (random : nat -> float64) (cancelled : nat -> bool).
Context (map_order : gmap string ModelProfile -> list ModelProfile).

Abbreviation policy_of e := (retryPolicyForReason (reason_of e)).

(** A failure after which extended thinking is given up. *)
Definition degradable (e : ModelError) (q : RetryRequest) : Prop :=
  RQ_ThinkingMode q = ThinkingExtended /\ isThinkingRelated (reason_of e) = true.

(** The router and the number of readings of the clock so far. *)
Abbreviation view := (option InMemoryRouter * nat)%type.

(** The failure [e] of the request [q] is reported to the router. *)
Definition told (e : ModelError) (q : RetryRequest) (v : view) : view :=
  match v.1 with
  | Some rt => if decide (RQ_Model q = "") then v else (Some (reportFailureWithReason (clock v.2) rt (RQ_Model q) (reason_of e)).1, S v.2)
  | None => v
  end.

(** The other model that the router then selects, if any, for failures that permit it. *)
Definition other_model (e : ModelError) (q : RetryRequest) (v : view) : option string * view :=
  match (told e q v).1 with
  | Some rt =>
    if RP_AllowFailover (policy_of e) && bool_decide (TrimSpace (RQ_Model q) <> "") then
      let '(rt', selected) := SelectModel (clock (told e q v).2) (map_order (rt_profiles rt)) rt (route_request (RQ_Model q) q) in
      (match selected with
       | inl d => if decide (TrimSpace (MP_ID (Dec_Model d)) = "" \/ MP_ID (Dec_Model d) = RQ_Model q) then None else Some (MP_ID (Dec_Model d))
       | inr _ => None
       end, (Some rt', S (told e q v).2))
    else (None, told e q v)
  | None => (None, told e q v)
  end.

(** The requests of a call with its outcome, when the requests [pre] have been sent,
    the router is [v], [n] attempts are used up and [w] waits are over.  Giving up
    extended thinking costs no attempt; any other request does, and none is sent
    when the attempts are used up. *)
Inductive tries (c : RetryConfig) :
    list (option RetryRequest) -> view -> Z -> nat -> list RetryRequest -> RetryOutcome Response -> Prop :=
  | TryAnswered pre v n w q r :
    call (pre ++ [Some q]) = inr r -> tries c pre v n w [q] (Answered r)
  | TryFailed pre v n w q e :
    call (pre ++ [Some q]) = inl e -> ~ degradable e q ->
    (other_model e q v).1 = None /\ RP_AllowRetry (policy_of e) = false \/ RC_MaxAttempts c <= n + 1 ->
    tries c pre v n w [q] (FailedWith (Some e))
  | TryCancelled pre v n w q e :
    call (pre ++ [Some q]) = inl e -> ~ degradable e q -> (other_model e q v).1 = None ->
    RP_AllowRetry (policy_of e) = true -> n + 1 < RC_MaxAttempts c -> cancelled w = true ->
    tries c pre v n w [q] Cancelled
  | TryRegular pre v n w q e rest out :
    call (pre ++ [Some q]) = inl e -> degradable e q ->
    tries c (pre ++ [Some q]) v n w (set_thinking ThinkingRegular q :: rest) out ->
    tries c pre v n w (q :: set_thinking ThinkingRegular q :: rest) out
  | TryModel pre v n w q e m v' rest out :
    call (pre ++ [Some q]) = inl e -> ~ degradable e q -> other_model e q v = (Some m, v') -> n + 1 < RC_MaxAttempts c ->
    tries c (pre ++ [Some q]) v' (n + 1) w (set_model m q :: rest) out ->
    tries c pre v n w (q :: set_model m q :: rest) out
  | TrySame pre v n w q e v' rest out :
    call (pre ++ [Some q]) = inl e -> ~ degradable e q -> other_model e q v = (None, v') ->
    RP_AllowRetry (policy_of e) = true -> n + 1 < RC_MaxAttempts c -> cancelled w = false ->
    tries c (pre ++ [Some q]) (v'.1, S v'.2) (n + 1) (S w) (q :: rest) out ->
    tries c pre v n w (q :: q :: rest) out.

(** One when extended thinking was given up among the requests. *)
Definition given_up (qs : list RetryRequest) : Z :=
  match qs with
  | q :: rest => if decide (RQ_ThinkingMode q = ThinkingExtended /\ Exists (fun q' => RQ_ThinkingMode q' = ThinkingRegular) rest) then 1 else 0
  | [] => 0
  end.

Lemma given_up_keep q q' rest :
  RQ_ThinkingMode q' = RQ_ThinkingMode q -> given_up (q :: q' :: rest) = given_up (q' :: rest).
Proof.
  intros E. unfold given_up. rewrite E. apply decide_ext. rewrite Exists_cons, E. split; [|tauto].
  intros [Hx [Hr|Hr]]; [by rewrite Hx in Hr|done].
Qed.

Lemma given_up_regular q rest : given_up (set_thinking ThinkingRegular q :: rest) = 0.
Proof. unfold given_up. by rewrite decide_False by (by intros [? _]). Qed.

(** How many requests are sent. *)
Lemma tries_count c pre v n w qs out :
  tries c pre v n w qs out -> n < RC_MaxAttempts c ->
  n + Z.of_nat (length qs) <= RC_MaxAttempts c + given_up qs
  /\ forall e, out = FailedWith (Some e) ->
       RP_AllowRetry (policy_of e) = false \/ n + Z.of_nat (length qs) = RC_MaxAttempts c + given_up qs.
Proof.
  assert (forall q, given_up [q] = 0) as Hone
    by (intros q; unfold given_up; by rewrite decide_False by (intros [_ Hx]; by apply Exists_nil in Hx)).
  induction 1 as [| ? ? ? ? ? ? ? ? Ho | |? ? ? ? q e rest ? ? [Hx _] ? IH|? ? ? ? q ? m ? ? ? ? ? ? ? ? IH|? ? ? ? q ? ? ? ? ? ? ? ? ? ? ? IH]; intros Hn.
  - rewrite Hone. cbn. split; [lia|done].
  - rewrite Hone. cbn. split; [lia|]. intros e' [= <-]. destruct Ho as [[_ ?]|?]; [by left|right; lia].
  - rewrite Hone. cbn. split; [lia|done].
  - rewrite given_up_regular in IH.
    assert (given_up (q :: set_thinking ThinkingRegular q :: rest) = 1) as ->
      by (unfold given_up; rewrite decide_True; [done|split; [done|by left]]).
    destruct (IH Hn) as [HA HB]. cbn [length] in *. split; [lia|]. intros e' He'. destruct (HB e' He'); [by left|right; lia].
  - rewrite (given_up_keep q (set_model m q)) by done.
    destruct IH as [HA HB]; [lia|]. cbn [length] in *. split; [lia|]. intros e' He'. destruct (HB e' He'); [by left|right; lia].
  - rewrite given_up_keep by done.
    destruct IH as [HA HB]; [lia|]. cbn [length] in *. split; [lia|]. intros e' He'. destruct (HB e' He'); [by left|right; lia].
Qed.

(** The view of a state. *)
Definition view_of (s : RetryState) : view := (RS_router s, RS_reads s).

Lemma emit_view e s : view_of (emit_retry e s) = view_of s.
Proof. unfold emit_retry. repeat case_match; done. Qed.

(** Reporting a failure and looking for another model. *)
Lemma failover_spec err s q s1
    (s2 := report clock (fun now rt => reportFailureWithReason now rt (RQ_Model q) (reason_of err)) (RQ_Model q) s) :
  RS_request s = Some q ->
  s1 = (if RP_AllowFailover (policy_of err) then failoverRetryModel clock map_order (RQ_Model q) (reason_of err) s2 else (s2, None)) ->
  RS_calls s1.1 = RS_calls s /\ RS_waits s1.1 = RS_waits s
  /\ other_model err q (view_of s) = (FO_ToModel <$> s1.2, view_of s1.1)
  /\ RS_request s1.1 = Some (from_option (fun f => set_model (FO_ToModel f) q) q s1.2).
Proof.
  intros Hq ->.
  assert (RS_request s2 = Some q /\ RS_calls s2 = RS_calls s /\ RS_waits s2 = RS_waits s
          /\ view_of s2 = told err q (view_of s)) as (Hq2 & <- & <- & Hv).
  { unfold s2, report, told, view_of. cbn. destruct (RS_router s) eqn:Hr; [case_decide|]; cbn; by rewrite ?Hr. }
  clearbody s2. unfold other_model. rewrite <- Hv. cbn [view_of fst snd].
  destruct (RP_AllowFailover _) eqn:Ea; cbn [andb fst snd]; cycle 1.
  { unfold view_of. destruct (RS_router s2); by rewrite Hq2. }
  unfold failoverRetryModel. rewrite Hq2. destruct (RS_router s2) as [rt|] eqn:Hrt; cycle 1.
  { unfold view_of. cbn. by rewrite Hrt, Hq2. }
  case_bool_decide as Hb; cycle 1.
  { rewrite decide_True by (left; destruct (decide (TrimSpace (RQ_Model q) = "")); tauto).
    unfold view_of. cbn. by rewrite Hrt, Hq2. }
  rewrite decide_False; cycle 1.
  { intros [?|E]; [done|]. by rewrite E in Ea. }
  cbn [fst snd]. destruct (SelectModel _ _ rt _) as [rt' [d|err']]; [|cbn; by rewrite Hq2].
  case_decide as Hd; cbn; rewrite Hq2; by split_and!.
Qed.

Lemma after_failure_spec c attempts q pending err s :
  RS_request s = Some q ->
  match after_failure (Response := Response) clock random cancelled map_order c attempts (RQ_Model q) pending err s with
  | inl (s', m, _) => RS_calls s' = RS_calls s
      /\ (other_model err q (view_of s) = (Some m, view_of s') /\ RS_request s' = Some (set_model m q)
          /\ length (RS_waits s') = length (RS_waits s)
          \/ m = RQ_Model q /\ RP_AllowRetry (policy_of err) = true /\ attempts < RC_MaxAttempts c
             /\ cancelled (length (RS_waits s)) = false /\ RS_request s' = Some q
             /\ length (RS_waits s') = S (length (RS_waits s))
             /\ exists v, other_model err q (view_of s) = (None, v) /\ view_of s' = (v.1, S v.2))
  | inr (s', out) => RS_calls s' = RS_calls s /\ (other_model err q (view_of s)).1 = None
      /\ (out = FailedWith (Some err) /\ (RP_AllowRetry (policy_of err) = false \/ RC_MaxAttempts c <= attempts)
          \/ out = Cancelled /\ RP_AllowRetry (policy_of err) = true /\ attempts < RC_MaxAttempts c
             /\ cancelled (length (RS_waits s)) = true)
  end.
Proof.
  intros Hq. unfold after_failure. set (r := if RP_AllowFailover _ then _ else _).
  destruct (failover_spec err s q r Hq eq_refl) as (H1 & H3 & Hv & H2). clearbody r. destruct r as [s2 [f|]]; cbn in *.
  { split; [done|]. left. by rewrite H3. }
  destruct (RP_AllowRetry (policy_of err)) eqn:Er; cbn [negb]; [|rewrite Hv; split_and!; [done..|]; left; split; [done|by left]].
  case_decide as Hat; [split; [done|]; rewrite Hv; split; [done|]; left; split; [done|right; lia]|].
  set (ev := EventModelRetry _ _ _ _ _ _).
  destruct (emit_retry_calls ev (with_router (RS_router s2) s2)) as (E1 & E2 & E3).
  pose proof (emit_view ev (with_router (RS_router s2) s2)) as E4.
  rewrite E3. cbn [with_router RS_waits]. rewrite H3. destruct (cancelled _) eqn:Hcc.
  - split; [rewrite E1; exact H1|]. rewrite Hv. split; [done|]. right. split_and!; [done..|lia|done].
  - cbn [with_wait RS_calls RS_request RS_waits]. rewrite E1, E2, E3, length_app. cbn. rewrite H1, H3.
    split; [done|]. right. split_and!; [done..|lia|done|done|lia|]. exists (view_of s2). split; [done|]. exact E4.
Qed.

Abbreviation loop := (retry_loop call clock random cancelled map_order).

Lemma loop_spec fuel c attempts degraded pending lastErr s q :
  RS_request s = Some q -> 0 <= attempts < RC_MaxAttempts c ->
  (degraded = true -> RQ_ThinkingMode q <> ThinkingExtended) ->
  RC_MaxAttempts c - attempts + (if degraded then 0 else 1) < Z.of_nat fuel ->
  exists s' out rest, loop fuel c attempts degraded pending (RQ_Model q) lastErr s = Some (s', out)
    /\ RS_calls s' = RS_calls s ++ (Some <$> q :: rest)
    /\ tries c (RS_calls s) (view_of s) attempts (length (RS_waits s)) (q :: rest) out.
Proof.
  revert attempts degraded pending lastErr s q. induction fuel as [|fuel IH];
    intros attempts degraded pending lastErr s q Hq Ha Hdg Hfuel; [destruct degraded; lia|].
  cbn [retry_loop]. rewrite decide_True by lia. cbn [RS_calls with_call]. rewrite Hq.
  destruct (call (RS_calls s ++ [Some q])) as [e|r] eqn:Hcall; cycle 1.
  { eexists _, (Answered r), []. split; [done|]. split; [|by apply TryAnswered].
    rewrite report_calls, emit_failovers_calls. cbn. by rewrite Hq. }
  (* a request that follows *)
  assert (forall s1 q1 m attempts1 degraded1 pending1, RS_request s1 = Some q1 -> RQ_Model q1 = m ->
    RS_calls s1 = RS_calls s ++ [Some q] -> 0 <= attempts1 < RC_MaxAttempts c ->
    (degraded1 = true -> RQ_ThinkingMode q1 <> ThinkingExtended) ->
    RC_MaxAttempts c - attempts1 + (if degraded1 then 0 else 1) < Z.of_nat fuel ->
    (forall rest out, tries c (RS_calls s ++ [Some q]) (view_of s1) attempts1 (length (RS_waits s1)) (q1 :: rest) out ->
       tries c (RS_calls s) (view_of s) attempts (length (RS_waits s)) (q :: q1 :: rest) out) ->
    exists s' out rest, loop fuel c attempts1 degraded1 pending1 m (Some e) s1 = Some (s', out)
    /\ RS_calls s' = RS_calls s ++ (Some <$> q :: rest)
    /\ tries c (RS_calls s) (view_of s) attempts (length (RS_waits s)) (q :: rest) out) as Hnext.
  { intros s1 q1 m attempts1 degraded1 pending1 H1 <- H2 H3 H4 H5 Htr.
    destruct (IH attempts1 degraded1 pending1 (Some e) s1 q1 H1 H3 H4 H5) as (s' & out & rest & E1 & E2 & E3).
    exists s', out, (q1 :: rest). rewrite H2 in E2, E3. split_and!; [done|by rewrite E2, <- app_assoc|by apply Htr]. }
  destruct (negb degraded && _ && _) eqn:Hdeg.
  - rewrite Z.add_simpl_r. set (ev := EventThinkingDegraded _ _ _ _).
    apply andb_true_iff in Hdeg as [[Hd%negb_true_iff Hx]%andb_true_iff Ht]. cbn [with_call RS_request] in Hx.
    rewrite Hq in Hx. apply bool_decide_eq_true in Hx. set (s1 := with_request _ _). destruct (emit_retry_calls ev s1) as (E1 & E2 & E3).
    apply (Hnext (emit_retry ev s1) (set_thinking ThinkingRegular q));
      [rewrite E2; cbn; by rewrite Hq|done|by rewrite E1; cbn; rewrite Hq|lia|done|by rewrite Hd in Hfuel; lia|].
    intros rest out. rewrite E3, (emit_view ev s1). by apply TryRegular with (e := e).
  - assert (~ degradable e q) as Hnd.
    { intros [Hx Ht]. rewrite Ht, andb_true_r in Hdeg. cbn [with_call RS_request] in Hdeg. rewrite Hq, bool_decide_eq_true_2, andb_true_r in Hdeg by done.
      apply negb_false_iff in Hdeg. by apply Hdg. }
    pose proof (after_failure_spec c (attempts + 1) q pending e (with_call s) Hq) as Hf.
    destruct (after_failure _ _ _ _ _ _ _ _ _ _) as [[[s1 m] pending1]|[s1 out]];
      destruct Hf as (H1 & Hf); change (view_of (with_call s)) with (view_of s) in Hf;
      cbn [RS_calls RS_waits with_call] in H1, Hf; rewrite Hq in H1.
    + destruct (decide (attempts + 1 < RC_MaxAttempts c)) as [Hlt|Hge].
      * destruct Hf as [(Hr & H2 & H3)|(-> & Hr & _ & Hcc & H2 & H3 & v & Ho & Hv)].
        -- apply (Hnext s1 (set_model m q)); [done..|lia|by intros ?; apply Hdg|lia|].
           intros rest out. rewrite H3. by apply TryModel with (e := e) (v' := view_of s1).
        -- apply (Hnext s1 q); [done..|lia|done|lia|]. intros rest out. rewrite H3, Hv. by apply TrySame with (e := e).
      * destruct fuel as [|fuel]; [destruct degraded; lia|]. cbn [retry_loop]. rewrite decide_False by lia.
        eexists _, _, []. split; [done|]. rewrite H1. split; [done|]. apply TryFailed; [done..|right; lia].
    + exists s1, out, []. split; [done|]. rewrite H1. split; [done|].
      destruct Hf as [Hn [[-> Ho]|(-> & Hr & Hlt & Hcc)]]; [apply TryFailed; tauto|by eapply TryCancelled].
Qed.

Lemma retry_defaults_positive config : 0 < RC_MaxAttempts (retry_defaults config) /\ 0 < RC_MinDelay (retry_defaults config)
  /\ 0 < RC_MaxDelay (retry_defaults config).
Proof.
  unfold retry_defaults, defaultModelRetryAttempts, defaultModelRetryMinDelay, defaultModelRetryMaxDelay, Millisecond, Second. cbn.
  repeat case_decide; lia.
Qed.

(** C10: retrying a model call ends, and it sends exactly the requests it should.
    The first request is the one that is passed in.  A failed request is followed
    by the same request without extended thinking if that mode was in use and the
    failure may come from it, which costs no attempt; otherwise, while attempts are
    left, by the request for the other model that the router selects once the
    failure is reported to it, if it selects one; and otherwise by the same request
    after a wait, if the failure may be retried.  The call ends with the answer of
    the last request; with its error, exactly if there is no other model and it must
    not be retried, or the attempts are used up; or cancelled, exactly if the wait
    for the next request is cancelled.  So the number of requests
    is at most the configured number of attempts, and one more exactly when
    extended thinking was given up; and it is that number when an error that may
    be retried is returned. *)
Theorem retry_exact config s q (c := retry_defaults config) :
  RS_request s = Some q ->
  exists s' out rest, retryModelCall call clock random cancelled map_order config (RQ_Model q) s = Some (s', out)
    /\ RS_calls s' = RS_calls s ++ (Some <$> q :: rest)
    /\ tries c (RS_calls s) (RS_router s, RS_reads s) 0 (length (RS_waits s)) (q :: rest) out
    /\ Z.of_nat (length (q :: rest)) <= RC_MaxAttempts c + given_up (q :: rest)
    /\ (forall e, out = FailedWith (Some e) ->
         RP_AllowRetry (retryPolicyForReason (reason_of e)) = false
         \/ Z.of_nat (length (q :: rest)) = RC_MaxAttempts c + given_up (q :: rest)).
Proof.
  intros Hq. unfold retryModelCall. fold c. destruct (retry_defaults_positive config) as (Hp & _ & _). fold c in Hp.
  destruct (loop_spec (retry_fuel c) c 0 false [] None s q Hq) as (s' & out & rest & E1 & E2 & E3); [lia|done|unfold retry_fuel; lia|].
  exists s', out, rest. destruct (tries_count _ _ _ _ _ _ _ E3 Hp) as [H1 H2]. by split_and!.
Qed.
End Behaviour.

(** ** Consequences *)

(** A model that a request is rerouted to is another one, which the router has in
    service for the request. *)
Lemma other_model_compatible {F : FloatConversion} {U : GoUnicode} clock map_order e q v m v' :
  other_model clock map_order e q v = (Some m, v') ->
  m <> RQ_Model q /\ exists rt now p, MP_ID p = m /\ isCompatible now rt p (route_request (RQ_Model q) q) = true.
Proof.
  unfold other_model. destruct (told _ _ _ _).1 as [rt|]; [|done]. destruct (_ && _); [|done].
  destruct (SelectModel _ _ _ _) as [rt' [d|]] eqn:Hs; [|done]. case_decide as Hd; [done|]. intros [= <- _].
  split; [tauto|]. eexists _, _, (Dec_Model d). split; [done|]. by eapply SelectModel_compatible.
Qed.

(** a wait between two requests is at least the configured minimum, at least
    what the kind of failure asks for and at least the cooldown of the model that
    the router reports for rate limits and overloads, as far as the configured
    maximum permits; and it never exceeds that maximum. *)
Theorem retry_delay_exact config attempt reason cooldown r (c := retry_defaults config) (p := retryPolicyForReason reason) :
  let d := effectiveRetryDelay attempt c p cooldown r in
  d = Z.max (RC_MinDelay c) (Z.min (RC_MaxDelay c)
        (Z.max (Z.max (retryDelay attempt c r) (RP_MinDelay p)) (if RP_AlignToRouterWindow p then cooldown else 0)))
  /\ RC_MinDelay c <= retryDelay attempt c r <= Z.max (RC_MinDelay c) (RC_MaxDelay c).
Proof.
  destruct (retry_defaults_positive config) as (_ & H1 & H2). fold c in H1, H2.
  assert (RC_MinDelay c <= retryDelay attempt c r <= Z.max (RC_MinDelay c) (RC_MaxDelay c)) as Hd.
  { unfold retryDelay. cbv zeta. repeat case_decide; lia. }
  cbv zeta. split; [|done]. unfold effectiveRetryDelay. set (x := retryDelay attempt c r) in *. clearbody x.
  destruct (RP_AlignToRouterWindow p); cbn [andb]; [case_bool_decide|]; repeat case_decide; lia.
Qed.

(** ** Examples *)

Section Examples.
#[local] Existing Instances ascii_unicode demo_float.

Definition retry_profiles : list ModelProfile :=
  [mkProfile "a" "p" 2 100000 4096 true ∅ 0; mkProfile "b" "p" 1 100000 4096 true ∅ 0].

Definition retry_state (thinking : string) : RetryState :=
  mkRetryState (Some (NewInMemoryRouter retry_profiles 0)) (Some (mkRetryRequest "a" [] 1000 100 thinking))
    (Some (mkModelOwner "run-1" "a")) (Some (mkModelOwner "s-1" "a")) [] [] [] 0.

Definition profiles_of (m : gmap string ModelProfile) : list ModelProfile := (map_to_list m).*2.

(** The answers in turn, the last one for ever. *)
Definition scripted (answers : list (ModelError + string)) (last_ : ModelError + string) (sent : list (option RetryRequest)) :
    ModelError + string := default last_ (answers !! (length sent - 1)%nat).

Definition retry_demo (attempts : Z) (thinking : string) (answers : list (ModelError + string)) :=
  retryModelCall (scripted answers (inr "ok")) (fun n => Z.of_nat n * Second + 1000) (fun _ => lit 1 2) (fun _ => false) profiles_of
    (mkRetryConfig attempts 0 0 (of_int 0)) "a" (retry_state thinking).

(** Extended thinking is given up after a timeout, an overload moves the request
    to the other model, and an unknown failure is repeated there after a second. *)
Example retry_demo_run :
  let result := retry_demo 3 "extended" [inl (StatusError 408 "slow"); inl (StatusError 503 "overloaded"); inl (PlainError "reset")] in
  (fun r => (RS_calls r.1, RS_waits r.1, r.2)) <$> result
  = Some ([Some (mkRetryRequest "a" [] 1000 100 "extended"); Some (mkRetryRequest "a" [] 1000 100 "regular");
           Some (mkRetryRequest "b" [] 1000 100 "regular"); Some (mkRetryRequest "b" [] 1000 100 "regular")],
          [1000000000], Answered "ok").
Proof. vm_compute. reflexivity. Qed.

Lemma retry_exact_witness :
  exists s' out rest, retry_demo 3 "extended" [inl (StatusError 408 "slow")] = Some (s', out)
    /\ RS_calls s' = Some <$> mkRetryRequest "a" [] 1000 100 "extended" :: rest.
Proof.
  destruct (retry_exact (scripted [inl (StatusError 408 "slow")] (inr "ok")) (fun n => Z.of_nat n * Second + 1000) (fun _ => lit 1 2)
    (fun _ => false) profiles_of (mkRetryConfig 3 0 0 (of_int 0)) (retry_state "extended")
    (mkRetryRequest "a" [] 1000 100 "extended") eq_refl) as (s' & out & rest & E1 & E2 & _).
  exists s', out, rest. split; [exact E1|exact E2].
Defined.

(** A failover on the last attempt is not tried: the call fails with the error of
    the first model, and run and session are left with a model that was never
    called. *)
Theorem last_failover_untried :
  let result := retry_demo 1 "regular" [inl (StatusError 401 "bad key")] in
  (fun r => (MO_Model <$> RS_session r.1, RS_calls r.1, r.2)) <$> result
  = Some (Some "b", [Some (mkRetryRequest "a" [] 1000 100 "regular")], FailedWith (Some (StatusError 401 "bad key"))).
Proof. vm_compute. reflexivity. Qed.
End Examples.
