(* ===== verification/WorkflowState.v ===== *)
(** * The state of a workflow ([agent/workflow_state.go])

    A workflow is a chain of runs.  Each run carries the workflow's state: how
    many continuations and rounds were used, which tasks are done, and a budget
    with its policy, the usage so far and a circuit breaker. *)
From S2P Require Import Prelude GoLib GoFloat Planner.
From Stdlib Require Import Floats.SpecFloat.
Import Str GoTime GoInt Text.

Local Open Scope Z_scope.

(** ** Data *)

Definition WorkflowBudgetModeNormal : string := "normal".
Definition WorkflowBudgetModeEconomy : string := "economy".
Definition WorkflowBudgetModeFinishOnly : string := "finish_only".
Definition WorkflowBudgetModeStopped : string := "stopped".

Definition DefaultMaxContinuations : Z := 10.
Definition DefaultMaxTotalRounds : Z := 100.

Definition YieldReasonRoundBudget : string := "round_budget".
Definition YieldReasonBudgetHardLimit : string := "budget_hard_limit".
Definition YieldReasonAdmissionDenied : string := "continuation_admission_denied".
Definition YieldReasonCircuitBreakerOpen : string := "circuit_breaker_open".

Record WorkflowCircuitBreakerPolicy := mkCircuitPolicy {
  CP_MaxNoProgressContinuations : Z; CP_MaxRepeatedYieldReason : Z; CP_TripBurnRateMultiplier : float64;
  CP_WarnBurnRateMultiplier : float64 }.

Record WorkflowBudgetPolicy := mkBudgetPolicy {
  BP_SoftContinuations : Z; BP_HardContinuations : Z; BP_SoftTotalRounds : Z; BP_HardTotalRounds : Z;
  BP_SoftModelTokens : Z; BP_HardModelTokens : Z; BP_SoftCostEstimate : float64; BP_HardCostEstimate : float64;
  BP_SoftWallClock : Duration; BP_HardWallClock : Duration; BP_NextRunMultiplier : float64; BP_ReserveModelTokens : Z;
  BP_ReserveCostEstimate : float64; BP_MinContinuationTokens : Z; BP_MinContinuationCost : float64;
  BP_DisableDelegationOnSoftLimit : bool; BP_MaxDelegatedTokenFraction : float64; BP_Circuit : WorkflowCircuitBreakerPolicy }.

Record WorkflowCircuitBreakerState := mkCircuit {
  CB_State : string; CB_Reason : string; CB_OpenedAt : Time; CB_TripCount : Z; CB_NoProgressContinuations : Z;
  CB_RepeatedYieldReasonCount : Z; CB_LastObservedBurnRate : float64; CB_LastObservedBurnRateRatio : float64;
  CB_LastObservedContinuationIndex : Z; CB_LastObservedYieldReason : string; CB_LastObservedModelTokens : Z;
  CB_LastObservedEstimatedCost : float64; CB_LastObservedTotalRounds : Z }.

Record WorkflowBudgetUsage := mkUsage {
  BU_ModelPromptTokens : Z; BU_ModelCompletionTokens : Z; BU_ModelTotalTokens : Z; BU_EstimatedCost : float64; BU_ModelCallCount : Z;
  BU_ToolExecutionCount : Z; BU_ToolExecutionDuration : Duration; BU_UnknownCostCallCount : Z; BU_DelegatedTurnsUsed : Z;
  BU_DelegatedBudgetTokensUsed : Z; BU_StartedContinuationCount : Z; BU_CompletedTaskCount : Z; BU_LastCompletedTaskCount : Z;
  BU_StartedAt : Time; BU_LastUpdatedAt : Time }.

Record WorkflowBudgetState := mkBudgetState {
  BS_Policy : WorkflowBudgetPolicy; BS_Usage : WorkflowBudgetUsage; BS_Mode : string; BS_PredictedNextRunTokens : Z;
  BS_PredictedNextRunCost : float64; BS_SoftLimitExceeded : bool; BS_StopReason : string; BS_Circuit : WorkflowCircuitBreakerState }.

Record WorkflowState := mkWorkflowState {
  WS_OriginalRunID : string; WS_ContinuationIndex : Z; WS_MaxContinuations : Z; WS_TotalRoundsUsed : Z; WS_MaxTotalRounds : Z;
  WS_PriorRunSummaries : list string; WS_CompletedTaskIDs : list string; WS_Yielded : bool; WS_YieldReason : string;
  WS_TerminalOutcome : string; WS_TerminalReason : string; WS_Budget : option WorkflowBudgetState }.

(** The part of a run that a workflow uses. *)
Record WorkflowRun := mkWorkflowRun {
  WR_ID : string; WR_Workflow : bool; WR_Plan : option Plan; WR_ToolRounds : Z; WR_State : option WorkflowState }.

(** ** Assignments *)

Definition run_set_workflow (ws : option WorkflowState) (r : WorkflowRun) : WorkflowRun :=
  mkWorkflowRun (WR_ID r) (WR_Workflow r) (WR_Plan r) (WR_ToolRounds r) ws.

Definition ws_set_budget (b : WorkflowBudgetState) (ws : WorkflowState) : WorkflowState :=
  mkWorkflowState (WS_OriginalRunID ws) (WS_ContinuationIndex ws) (WS_MaxContinuations ws) (WS_TotalRoundsUsed ws)
    (WS_MaxTotalRounds ws) (WS_PriorRunSummaries ws) (WS_CompletedTaskIDs ws) (WS_Yielded ws) (WS_YieldReason ws)
    (WS_TerminalOutcome ws) (WS_TerminalReason ws) (Some b).
Definition ws_set_limits (continuations rounds : Z) (ws : WorkflowState) : WorkflowState :=
  mkWorkflowState (WS_OriginalRunID ws) (WS_ContinuationIndex ws) continuations (WS_TotalRoundsUsed ws)
    rounds (WS_PriorRunSummaries ws) (WS_CompletedTaskIDs ws) (WS_Yielded ws) (WS_YieldReason ws)
    (WS_TerminalOutcome ws) (WS_TerminalReason ws) (WS_Budget ws).
Definition ws_set_rounds (n : Z) (ws : WorkflowState) : WorkflowState :=
  mkWorkflowState (WS_OriginalRunID ws) (WS_ContinuationIndex ws) (WS_MaxContinuations ws) n
    (WS_MaxTotalRounds ws) (WS_PriorRunSummaries ws) (WS_CompletedTaskIDs ws) (WS_Yielded ws) (WS_YieldReason ws)
    (WS_TerminalOutcome ws) (WS_TerminalReason ws) (WS_Budget ws).
Definition ws_set_completed (ids : list string) (ws : WorkflowState) : WorkflowState :=
  mkWorkflowState (WS_OriginalRunID ws) (WS_ContinuationIndex ws) (WS_MaxContinuations ws) (WS_TotalRoundsUsed ws)
    (WS_MaxTotalRounds ws) (WS_PriorRunSummaries ws) ids (WS_Yielded ws) (WS_YieldReason ws)
    (WS_TerminalOutcome ws) (WS_TerminalReason ws) (WS_Budget ws).
Definition ws_set_yield (yielded : bool) (reason : string) (ws : WorkflowState) : WorkflowState :=
  mkWorkflowState (WS_OriginalRunID ws) (WS_ContinuationIndex ws) (WS_MaxContinuations ws) (WS_TotalRoundsUsed ws)
    (WS_MaxTotalRounds ws) (WS_PriorRunSummaries ws) (WS_CompletedTaskIDs ws) yielded reason
    (WS_TerminalOutcome ws) (WS_TerminalReason ws) (WS_Budget ws).
Definition ws_set_terminal (outcome reason : string) (ws : WorkflowState) : WorkflowState :=
  mkWorkflowState (WS_OriginalRunID ws) (WS_ContinuationIndex ws) (WS_MaxContinuations ws) (WS_TotalRoundsUsed ws)
    (WS_MaxTotalRounds ws) (WS_PriorRunSummaries ws) (WS_CompletedTaskIDs ws) (WS_Yielded ws) (WS_YieldReason ws)
    outcome reason (WS_Budget ws).

Definition bs_set_policy (p : WorkflowBudgetPolicy) (b : WorkflowBudgetState) : WorkflowBudgetState :=
  mkBudgetState p (BS_Usage b) (BS_Mode b) (BS_PredictedNextRunTokens b) (BS_PredictedNextRunCost b) (BS_SoftLimitExceeded b)
    (BS_StopReason b) (BS_Circuit b).
Definition bs_set_usage (u : WorkflowBudgetUsage) (b : WorkflowBudgetState) : WorkflowBudgetState :=
  mkBudgetState (BS_Policy b) u (BS_Mode b) (BS_PredictedNextRunTokens b) (BS_PredictedNextRunCost b) (BS_SoftLimitExceeded b)
    (BS_StopReason b) (BS_Circuit b).
Definition bs_set_mode (mode : string) (b : WorkflowBudgetState) : WorkflowBudgetState :=
  mkBudgetState (BS_Policy b) (BS_Usage b) mode (BS_PredictedNextRunTokens b) (BS_PredictedNextRunCost b) (BS_SoftLimitExceeded b)
    (BS_StopReason b) (BS_Circuit b).
Definition bs_set_predicted (tokens : Z) (cost : float64) (b : WorkflowBudgetState) : WorkflowBudgetState :=
  mkBudgetState (BS_Policy b) (BS_Usage b) (BS_Mode b) tokens cost (BS_SoftLimitExceeded b) (BS_StopReason b) (BS_Circuit b).
Definition bs_set_stop (reason : string) (b : WorkflowBudgetState) : WorkflowBudgetState :=
  mkBudgetState (BS_Policy b) (BS_Usage b) (BS_Mode b) (BS_PredictedNextRunTokens b) (BS_PredictedNextRunCost b) (BS_SoftLimitExceeded b)
    reason (BS_Circuit b).
Definition bs_set_soft (exceeded : bool) (b : WorkflowBudgetState) : WorkflowBudgetState :=
  mkBudgetState (BS_Policy b) (BS_Usage b) (BS_Mode b) (BS_PredictedNextRunTokens b) (BS_PredictedNextRunCost b) exceeded
    (BS_StopReason b) (BS_Circuit b).
Definition bs_set_circuit (c : WorkflowCircuitBreakerState) (b : WorkflowBudgetState) : WorkflowBudgetState :=
  mkBudgetState (BS_Policy b) (BS_Usage b) (BS_Mode b) (BS_PredictedNextRunTokens b) (BS_PredictedNextRunCost b) (BS_SoftLimitExceeded b)
    (BS_StopReason b) c.

Definition bp_set_hard (continuations rounds : Z) (p : WorkflowBudgetPolicy) : WorkflowBudgetPolicy :=
  mkBudgetPolicy (BP_SoftContinuations p) continuations (BP_SoftTotalRounds p) rounds (BP_SoftModelTokens p) (BP_HardModelTokens p)
    (BP_SoftCostEstimate p) (BP_HardCostEstimate p) (BP_SoftWallClock p) (BP_HardWallClock p) (BP_NextRunMultiplier p)
    (BP_ReserveModelTokens p) (BP_ReserveCostEstimate p) (BP_MinContinuationTokens p) (BP_MinContinuationCost p)
    (BP_DisableDelegationOnSoftLimit p) (BP_MaxDelegatedTokenFraction p) (BP_Circuit p).

Definition bu_set_clock (continuations : Z) (started updated : Time) (u : WorkflowBudgetUsage) : WorkflowBudgetUsage :=
  mkUsage (BU_ModelPromptTokens u) (BU_ModelCompletionTokens u) (BU_ModelTotalTokens u) (BU_EstimatedCost u) (BU_ModelCallCount u)
    (BU_ToolExecutionCount u) (BU_ToolExecutionDuration u) (BU_UnknownCostCallCount u) (BU_DelegatedTurnsUsed u)
    (BU_DelegatedBudgetTokensUsed u) continuations (BU_CompletedTaskCount u) (BU_LastCompletedTaskCount u) started updated.
Definition bu_set_tasks (completed last_completed : Z) (u : WorkflowBudgetUsage) : WorkflowBudgetUsage :=
  mkUsage (BU_ModelPromptTokens u) (BU_ModelCompletionTokens u) (BU_ModelTotalTokens u) (BU_EstimatedCost u) (BU_ModelCallCount u)
    (BU_ToolExecutionCount u) (BU_ToolExecutionDuration u) (BU_UnknownCostCallCount u) (BU_DelegatedTurnsUsed u)
    (BU_DelegatedBudgetTokensUsed u) (BU_StartedContinuationCount u) completed last_completed (BU_StartedAt u) (BU_LastUpdatedAt u).
(** The counters of model calls and of tool executions. *)
Definition bu_set_model (prompt completion total : Z) (cost : float64) (calls unknown : Z) (u : WorkflowBudgetUsage) : WorkflowBudgetUsage :=
  mkUsage prompt completion total cost calls (BU_ToolExecutionCount u) (BU_ToolExecutionDuration u) unknown (BU_DelegatedTurnsUsed u)
    (BU_DelegatedBudgetTokensUsed u) (BU_StartedContinuationCount u) (BU_CompletedTaskCount u) (BU_LastCompletedTaskCount u)
    (BU_StartedAt u) (BU_LastUpdatedAt u).
Definition bu_set_tools (count : Z) (duration : Duration) (u : WorkflowBudgetUsage) : WorkflowBudgetUsage :=
  mkUsage (BU_ModelPromptTokens u) (BU_ModelCompletionTokens u) (BU_ModelTotalTokens u) (BU_EstimatedCost u) (BU_ModelCallCount u)
    count duration (BU_UnknownCostCallCount u) (BU_DelegatedTurnsUsed u) (BU_DelegatedBudgetTokensUsed u) (BU_StartedContinuationCount u)
    (BU_CompletedTaskCount u) (BU_LastCompletedTaskCount u) (BU_StartedAt u) (BU_LastUpdatedAt u).

Definition cb_set_state (state : string) (c : WorkflowCircuitBreakerState) : WorkflowCircuitBreakerState :=
  mkCircuit state (CB_Reason c) (CB_OpenedAt c) (CB_TripCount c) (CB_NoProgressContinuations c) (CB_RepeatedYieldReasonCount c)
    (CB_LastObservedBurnRate c) (CB_LastObservedBurnRateRatio c) (CB_LastObservedContinuationIndex c) (CB_LastObservedYieldReason c)
    (CB_LastObservedModelTokens c) (CB_LastObservedEstimatedCost c) (CB_LastObservedTotalRounds c).
Definition cb_set_counts (noProgress repeated : Z) (yield : string) (ratio : float64) (c : WorkflowCircuitBreakerState) :
    WorkflowCircuitBreakerState :=
  mkCircuit (CB_State c) (CB_Reason c) (CB_OpenedAt c) (CB_TripCount c) noProgress repeated
    (CB_LastObservedBurnRate c) ratio (CB_LastObservedContinuationIndex c) yield
    (CB_LastObservedModelTokens c) (CB_LastObservedEstimatedCost c) (CB_LastObservedTotalRounds c).
Definition cb_set_trip (state reason : string) (openedAt : Time) (trips : Z) (c : WorkflowCircuitBreakerState) : WorkflowCircuitBreakerState :=
  mkCircuit state reason openedAt trips (CB_NoProgressContinuations c) (CB_RepeatedYieldReasonCount c)
    (CB_LastObservedBurnRate c) (CB_LastObservedBurnRateRatio c) (CB_LastObservedContinuationIndex c) (CB_LastObservedYieldReason c)
    (CB_LastObservedModelTokens c) (CB_LastObservedEstimatedCost c) (CB_LastObservedTotalRounds c).
Definition cb_set_observed (burnRate : float64) (tokens : Z) (cost : float64) (rounds continuation : Z) (c : WorkflowCircuitBreakerState) :
    WorkflowCircuitBreakerState :=
  mkCircuit (CB_State c) (CB_Reason c) (CB_OpenedAt c) (CB_TripCount c) (CB_NoProgressContinuations c) (CB_RepeatedYieldReasonCount c)
    burnRate (CB_LastObservedBurnRateRatio c) continuation (CB_LastObservedYieldReason c) tokens cost rounds.

(** ** Budgets *)

Definition fzero : float64 := S754_zero false.

Definition DefaultWorkflowBudgetPolicy : WorkflowBudgetPolicy :=
  mkBudgetPolicy 6 DefaultMaxContinuations 60 DefaultMaxTotalRounds 400000 1000000 (of_int 1) (of_int 3) (15 * Minute) (30 * Minute)
    (lit 125 100) 50000 (lit 25 100) 12000 (lit 5 100) true (lit 40 100)
    (mkCircuitPolicy 2 2 (lit 25 10) (of_int 2)).

(** [policy == (WorkflowBudgetPolicy{})]; floats compare as numbers. *)
Definition workflowBudgetPolicyEmpty (p : WorkflowBudgetPolicy) : bool :=
  forallb (Z.eqb 0) [BP_SoftContinuations p; BP_HardContinuations p; BP_SoftTotalRounds p; BP_HardTotalRounds p; BP_SoftModelTokens p;
    BP_HardModelTokens p; BP_SoftWallClock p; BP_HardWallClock p; BP_ReserveModelTokens p; BP_MinContinuationTokens p;
    CP_MaxNoProgressContinuations (BP_Circuit p); CP_MaxRepeatedYieldReason (BP_Circuit p)]
  && forallb (feqb fzero) [BP_SoftCostEstimate p; BP_HardCostEstimate p; BP_NextRunMultiplier p; BP_ReserveCostEstimate p;
    BP_MinContinuationCost p; BP_MaxDelegatedTokenFraction p; CP_TripBurnRateMultiplier (BP_Circuit p); CP_WarnBurnRateMultiplier (BP_Circuit p)]
  && negb (BP_DisableDelegationOnSoftLimit p).

Definition zero_usage : WorkflowBudgetUsage := mkUsage 0 0 0 fzero 0 0 0 0 0 0 0 0 0 0 0.
Definition zero_circuit : WorkflowCircuitBreakerState := mkCircuit "" "" 0 0 0 0 fzero fzero 0 "" 0 fzero 0.

Definition workflowBudgetHasReliableCost (b : WorkflowBudgetState) : bool := BU_UnknownCostCallCount (BS_Usage b) =? 0.

(** [EnsureBudget]: the state with its budget filled in, and the budget. *)
Definition EnsureBudget (now : Time) (ws : WorkflowState) : WorkflowState * WorkflowBudgetState :=
  let b := default (mkBudgetState DefaultWorkflowBudgetPolicy zero_usage WorkflowBudgetModeNormal 0 fzero false "" zero_circuit) (WS_Budget ws) in
  let p := if workflowBudgetPolicyEmpty (BS_Policy b) then DefaultWorkflowBudgetPolicy else BS_Policy b in
  let mode := if decide (BS_Mode b = "") then WorkflowBudgetModeNormal else BS_Mode b in
  let hardC := if (BP_HardContinuations p <=? 0) && (0 <? WS_MaxContinuations ws) then WS_MaxContinuations ws else BP_HardContinuations p in
  let hardR := if (BP_HardTotalRounds p <=? 0) && (0 <? WS_MaxTotalRounds ws) then WS_MaxTotalRounds ws else BP_HardTotalRounds p in
  let maxC := if (WS_MaxContinuations ws <=? 0) && (0 <? hardC) then hardC else WS_MaxContinuations ws in
  let maxR := if (WS_MaxTotalRounds ws <=? 0) && (0 <? hardR) then hardR else WS_MaxTotalRounds ws in
  let u := BS_Usage b in
  let started := if IsZero (BU_StartedAt u) then now else BU_StartedAt u in
  let updated := if IsZero (BU_LastUpdatedAt u) then now else BU_LastUpdatedAt u in
  let count := wrap64 (WS_ContinuationIndex ws + 1) in
  let continuations := if BU_StartedContinuationCount u <? count then count else BU_StartedContinuationCount u in
  let b := bs_set_mode mode (bs_set_policy (bp_set_hard hardC hardR p) (bs_set_usage (bu_set_clock continuations started updated u) b)) in
  (ws_set_budget b (ws_set_limits maxC maxR ws), b).

Definition hard_limit (limit fallback : Z) : Z := if 0 <? limit then limit else fallback.

Definition BudgetStopReason (now : Time) (ws : WorkflowState) : string :=
  let policy := BS_Policy <$> WS_Budget ws in
  let hardC := from_option (fun p => hard_limit (BP_HardContinuations p) (WS_MaxContinuations ws)) (WS_MaxContinuations ws) policy in
  let hardR := from_option (fun p => hard_limit (BP_HardTotalRounds p) (WS_MaxTotalRounds ws)) (WS_MaxTotalRounds ws) policy in
  if (0 <? hardC) && (hardC <=? WS_ContinuationIndex ws) then YieldReasonBudgetHardLimit
  else if (0 <? hardR) && (hardR <=? WS_TotalRoundsUsed ws) then YieldReasonBudgetHardLimit
  else match WS_Budget ws with
       | None => ""
       | Some b =>
         let p := BS_Policy b in
         let u := BS_Usage b in
         if (0 <? BP_HardWallClock p) && negb (IsZero (BU_StartedAt u)) && (BP_HardWallClock p <=? Sub now (BU_StartedAt u))
         then YieldReasonBudgetHardLimit
         else if (0 <? BP_HardModelTokens p) && (BP_HardModelTokens p <=? BU_ModelTotalTokens u) then YieldReasonBudgetHardLimit
         else if workflowBudgetHasReliableCost b && fltb fzero (BP_HardCostEstimate p) && fleb (BP_HardCostEstimate p) (BU_EstimatedCost u)
         then YieldReasonBudgetHardLimit
         else ""
       end.

(** ** The end of a workflow *)

Definition WorkflowTerminalOutcomeCompleted : string := "completed".
Definition WorkflowTerminalOutcomeFailed : string := "failed".

Definition Terminal (ws : WorkflowState) : bool := bool_decide (TrimSpace (WS_TerminalOutcome ws) <> "").

Definition MarkTerminal (outcome reason : string) (ws : WorkflowState) : WorkflowState :=
  ws_set_terminal outcome (TrimSpace reason) (ws_set_yield false (WS_YieldReason ws) ws).

Definition ClearTerminal (ws : WorkflowState) : WorkflowState := ws_set_terminal "" "" ws.

Definition NeedsContinuation (ws : WorkflowState) : bool :=
  negb (Terminal ws)
  && negb (from_option (fun b => bool_decide (BS_Mode b = WorkflowBudgetModeStopped)) false (WS_Budget ws))
  && WS_Yielded ws && (WS_ContinuationIndex ws <? WS_MaxContinuations ws).

(** ** Usage *)

Definition bu_touch (now : Time) (u : WorkflowBudgetUsage) : WorkflowBudgetUsage :=
  bu_set_clock (BU_StartedContinuationCount u) (BU_StartedAt u) now u.

(** Adding a model call to the counters. *)
Definition count_model_call (prompt completion total : Z) (cost : float64) (u : WorkflowBudgetUsage) : WorkflowBudgetUsage :=
  bu_set_model (wrap64 (BU_ModelPromptTokens u + prompt)) (wrap64 (BU_ModelCompletionTokens u + completion))
    (wrap64 (BU_ModelTotalTokens u + total)) (fadd (BU_EstimatedCost u) cost) (wrap64 (BU_ModelCallCount u + 1))
    (if (0 <? total) && feqb cost fzero then wrap64 (BU_UnknownCostCallCount u + 1) else BU_UnknownCostCallCount u) u.

Definition updateWorkflowBudgetModelUsage (prompt completion total : Z) (cost : float64) (now : Time) (r : WorkflowRun) : WorkflowRun * bool :=
  match WR_State r with
  | None => (r, false)
  | Some ws =>
    let '(ws, b) := EnsureBudget now ws in
    let u := bu_touch now (count_model_call prompt completion total cost (BS_Usage b)) in
    (run_set_workflow (Some (ws_set_budget (bs_set_usage u b) ws)) r, true)
  end.

Definition updateWorkflowBudgetToolUsage (count : Z) (duration : Duration) (now : Time) (r : WorkflowRun) : WorkflowRun * bool :=
  match WR_State r with
  | None => (r, false)
  | Some ws =>
    if decide (count <= 0) then (r, false)
    else
      let '(ws, b) := EnsureBudget now ws in
      let u := BS_Usage b in
      let u := bu_touch now (bu_set_tools (wrap64 (BU_ToolExecutionCount u + count)) (wrap64 (BU_ToolExecutionDuration u + duration)) u) in
      (run_set_workflow (Some (ws_set_budget (bs_set_usage u b) ws)) r, true)
  end.
