(* ===== verification/WorkflowBudget.v ===== *)
(** * Budget decisions and the circuit breaker ([agent/workflow_budget.go])

    Before a round the budget of a workflow decides whether the round may run, in
    which mode, and whether the workflow may be continued.  When a run yields, the
    circuit breaker looks at its progress, its reason and its rate of spending and
    may open; once open it stays open. *)
From S2P Require Import Prelude GoLib GoText GoFloat Planner WorkflowState.
From Stdlib Require Import Ascii Floats.SpecFloat.
Import Str GoTime GoInt Text.

Local Open Scope Z_scope.

Definition workflowCircuitStateClosed : string := "closed".
Definition workflowCircuitStateOpen : string := "open".
Definition workflowCircuitStateHalfOpen : string := "half_open".

Record WorkflowBudgetDecision := mkBudgetDecision {
  BD_Mode : string; BD_AllowCurrentTurn : bool; BD_AllowContinuation : bool; BD_DisableDelegation : bool; BD_ForceCompaction : bool;
  BD_YieldReason : string; BD_StopReason : string }.

(** [%.2f]. *)
Class GoFloatText := { Fixed2 : float64 -> string }.

(** [math.Max]. *)
Definition fmax (x y : float64) : float64 :=
  match x, y with
  | S754_infinity false, _ | _, S754_infinity false => S754_infinity false
  | S754_nan, _ | _, S754_nan => S754_nan
  | S754_zero s, S754_zero _ => if s then y else x
  | _, _ => if fltb y x then x else y
  end.

(** [strings.ReplaceAll] of one byte by another. *)
Definition replace_byte (a b : ascii) (s : string) : string :=
  String.string_of_list_ascii ((fun c => if decide (c = a) then b else c) <$> String.list_ascii_of_string s).

Section Budget.
Context {U : GoUnicode} {T : GoFloatText}.

(** ** Limits *)

Definition workflowBudgetSoftLimitExceeded (ws : WorkflowState) (now : Time) : bool :=
  match WS_Budget ws with
  | None => false
  | Some b =>
    let p := BS_Policy b in
    let u := BS_Usage b in
    ((0 <? BP_SoftContinuations p) && (BP_SoftContinuations p <=? WS_ContinuationIndex ws))
    || ((0 <? BP_SoftTotalRounds p) && (BP_SoftTotalRounds p <=? WS_TotalRoundsUsed ws))
    || ((0 <? BP_SoftWallClock p) && negb (IsZero (BU_StartedAt u)) && (BP_SoftWallClock p <=? Sub now (BU_StartedAt u)))
    || ((0 <? BP_SoftModelTokens p) && (BP_SoftModelTokens p <=? BU_ModelTotalTokens u))
    || (workflowBudgetHasReliableCost b && fltb fzero (BP_SoftCostEstimate p) && fleb (BP_SoftCostEstimate p) (BU_EstimatedCost u))
  end.

Definition workflowBudgetRemainingModelTokens (ws : WorkflowState) : Z :=
  match WS_Budget ws with
  | None => 0
  | Some b => if BP_HardModelTokens (BS_Policy b) <=? 0 then 0
              else Z.max (wrap64 (BP_HardModelTokens (BS_Policy b) - BU_ModelTotalTokens (BS_Usage b))) 0
  end.

Definition workflowBudgetRemainingCost (ws : WorkflowState) : float64 :=
  match WS_Budget ws with
  | None => fzero
  | Some b => if fleb (BP_HardCostEstimate (BS_Policy b)) fzero then fzero
              else fmax (fsub (BP_HardCostEstimate (BS_Policy b)) (BU_EstimatedCost (BS_Usage b))) fzero
  end.

Definition workflowBudgetNearHardLimit (ws : WorkflowState) (now : Time) : bool :=
  match WS_Budget ws with
  | None => false
  | Some b =>
    let p := BS_Policy b in
    let u := BS_Usage b in
    ((0 <? BP_HardContinuations p) && (wrap64 (BP_HardContinuations p - WS_ContinuationIndex ws) <=? 1))
    || ((0 <? BP_HardTotalRounds p) && (wrap64 (BP_HardTotalRounds p - WS_TotalRoundsUsed ws) <=? 1))
    || ((0 <? BP_HardWallClock p) && negb (IsZero (BU_StartedAt u))
        && (wrap64 (BP_HardWallClock p - Sub now (BU_StartedAt u)) <=? 5 * Minute))
    || (let remaining := workflowBudgetRemainingModelTokens ws in
        (0 <? remaining) && (0 <? BS_PredictedNextRunTokens b)
        && (remaining <=? wrap64 (BS_PredictedNextRunTokens b + BP_ReserveModelTokens p)))
    || (let remaining := workflowBudgetRemainingCost ws in
        workflowBudgetHasReliableCost b && fltb fzero remaining && fltb fzero (BS_PredictedNextRunCost b)
        && fleb remaining (fadd (BS_PredictedNextRunCost b) (BP_ReserveCostEstimate p)))
  end.

Definition workflowBudgetHasCircuitWarning (b : WorkflowBudgetState) : bool :=
  let p := BP_Circuit (BS_Policy b) in
  let c := BS_Circuit b in
  EqualFold (TrimSpace (CB_State c)) workflowCircuitStateHalfOpen
  || ((0 <? CP_MaxNoProgressContinuations p) && (CP_MaxNoProgressContinuations p <=? CB_NoProgressContinuations c))
  || ((0 <? CP_MaxRepeatedYieldReason p) && (CP_MaxRepeatedYieldReason p <=? CB_RepeatedYieldReasonCount c))
  || (fltb fzero (CP_WarnBurnRateMultiplier p) && fleb (CP_WarnBurnRateMultiplier p) (CB_LastObservedBurnRateRatio c)).

Definition workflowBudgetDisablesDelegation (b : WorkflowBudgetState) (mode : string) : bool :=
  if decide (mode = WorkflowBudgetModeFinishOnly \/ mode = WorkflowBudgetModeStopped) then true
  else if decide (mode = WorkflowBudgetModeEconomy) then BP_DisableDelegationOnSoftLimit (BS_Policy b)
  else false.

(** ** Prediction *)

Definition next_multiplier (p : WorkflowBudgetPolicy) : float64 :=
  if fleb (BP_NextRunMultiplier p) fzero then of_int 1 else BP_NextRunMultiplier p.

Definition predictWorkflowContinuationTokens (p : WorkflowBudgetPolicy) (u : WorkflowBudgetUsage) (totalRoundsUsed : Z) : Z :=
  let rounds := Z.max totalRoundsUsed 1 in
  let predicted := to_int (fceil (fmul (fdiv (of_int (BU_ModelTotalTokens u)) (of_int rounds)) (next_multiplier p))) in
  Z.max predicted (BP_MinContinuationTokens p).

Definition predictWorkflowContinuationCost (p : WorkflowBudgetPolicy) (u : WorkflowBudgetUsage) (totalRoundsUsed : Z) : float64 :=
  let rounds := Z.max totalRoundsUsed 1 in
  fmax (fmul (fdiv (BU_EstimatedCost u) (of_int rounds)) (next_multiplier p)) (BP_MinContinuationCost p).

(** ** Stopping *)

Definition workflowBudgetStopDetail (yieldReason circuitReason : string) : string :=
  let reason := TrimSpace yieldReason in
  if decide (reason = YieldReasonCircuitBreakerOpen) then
    if decide (TrimSpace circuitReason <> "") then "workflow auto-continuation stopped: " +:+ TrimSpace circuitReason
    else "workflow auto-continuation stopped: circuit breaker opened"
  else if decide (reason = YieldReasonBudgetHardLimit) then "workflow auto-continuation stopped: budget hard limit reached"
  else if decide (TrimSpace circuitReason <> "") then TrimSpace circuitReason
  else replace_byte "_"%char " "%char reason.

Definition workflowBudgetStopDecision (yieldReason detail : string) : WorkflowBudgetDecision :=
  let detail := if decide (TrimSpace detail = "") then workflowBudgetStopDetail yieldReason "" else detail in
  mkBudgetDecision WorkflowBudgetModeStopped false false true false yieldReason detail.

(** ** The decision before a round *)

Definition allow_all : WorkflowBudgetDecision := mkBudgetDecision WorkflowBudgetModeNormal true true false false "" "".

(** The number of tasks that are done. *)
Definition completed_tasks (r : WorkflowRun) (ws : WorkflowState) : Z :=
  let done := Z.of_nat (length (WS_CompletedTaskIDs ws)) in
  match WR_Plan r with None => done | Some _ => Z.max done (Z.of_nat (CompletedCount (WR_Plan r))) end.

Definition decide_budget (ws : WorkflowState) (b : WorkflowBudgetState) (now : Time) : WorkflowBudgetState * WorkflowBudgetDecision :=
  let stopReason := BudgetStopReason now ws in
  if decide (stopReason <> "") then
    (bs_set_soft (workflowBudgetSoftLimitExceeded ws now) (bs_set_stop stopReason (bs_set_mode WorkflowBudgetModeStopped b)),
     workflowBudgetStopDecision stopReason (workflowBudgetStopDetail stopReason (CB_Reason (BS_Circuit b))))
  else if decide (ToLower (TrimSpace (CB_State (BS_Circuit b))) = workflowCircuitStateOpen) then
    (bs_set_soft true (bs_set_stop YieldReasonCircuitBreakerOpen (bs_set_mode WorkflowBudgetModeStopped b)),
     workflowBudgetStopDecision YieldReasonCircuitBreakerOpen
       (workflowBudgetStopDetail YieldReasonCircuitBreakerOpen (CB_Reason (BS_Circuit b))))
  else if decide (ToLower (TrimSpace (CB_State (BS_Circuit b))) = workflowCircuitStateHalfOpen) then
    (bs_set_soft true (bs_set_stop "" (bs_set_mode WorkflowBudgetModeFinishOnly b)),
     mkBudgetDecision WorkflowBudgetModeFinishOnly true false true true "" "")
  else
    let soft := workflowBudgetSoftLimitExceeded ws now in
    let b := bs_set_soft soft b in
    let warning := workflowBudgetHasCircuitWarning b in
    let mode :=
      if soft then
        if workflowBudgetNearHardLimit (ws_set_budget b ws) now || warning then WorkflowBudgetModeFinishOnly else WorkflowBudgetModeEconomy
      else if warning then WorkflowBudgetModeFinishOnly else WorkflowBudgetModeNormal in
    (bs_set_stop "" (bs_set_mode mode b),
     mkBudgetDecision mode true true (workflowBudgetDisablesDelegation b mode)
       (bool_decide (mode = WorkflowBudgetModeEconomy \/ mode = WorkflowBudgetModeFinishOnly)) "" "").

Definition evaluateWorkflowBudget (now : Time) (r : WorkflowRun) : WorkflowRun * WorkflowBudgetDecision :=
  match WR_State r with
  | Some ws =>
    if WR_Workflow r && bool_decide (is_Some (WS_Budget ws)) then
      let '(ws, b) := EnsureBudget now ws in
      let b := bs_set_usage (bu_set_tasks (completed_tasks r ws) (BU_LastCompletedTaskCount (BS_Usage b)) (BS_Usage b)) b in
      let b := bs_set_predicted (predictWorkflowContinuationTokens (BS_Policy b) (BS_Usage b) (WS_TotalRoundsUsed ws))
                 (predictWorkflowContinuationCost (BS_Policy b) (BS_Usage b) (WS_TotalRoundsUsed ws)) b in
      let ws := ws_set_budget b ws in
      let '(b, decision) := decide_budget ws b now in
      (run_set_workflow (Some (ws_set_budget b ws)) r, decision)
    else (r, allow_all)
  | None => (r, allow_all)
  end.

(** ** The circuit breaker *)

Definition workflowCircuitNoProgressTrips (p : WorkflowCircuitBreakerPolicy) (count : Z) : bool :=
  (0 <? CP_MaxNoProgressContinuations p) && (CP_MaxNoProgressContinuations p <? count).
Definition workflowCircuitRepeatedYieldTrips (p : WorkflowCircuitBreakerPolicy) (count : Z) : bool :=
  (0 <? CP_MaxRepeatedYieldReason p) && (CP_MaxRepeatedYieldReason p <? count).
Definition workflowCircuitBurnRateTrips (p : WorkflowCircuitBreakerPolicy) (ratio : float64) : bool :=
  fltb fzero (CP_TripBurnRateMultiplier p) && fleb (CP_TripBurnRateMultiplier p) ratio.

(** The rate of spending since the last observation, and its ratio to the rate
    observed then. *)
Definition workflowCircuitBurnRate (ws : WorkflowState) (b : WorkflowBudgetState) : float64 * float64 :=
  let c := BS_Circuit b in
  let u := BS_Usage b in
  let deltaRounds := wrap64 (WS_TotalRoundsUsed ws - CB_LastObservedTotalRounds c) in
  if deltaRounds <=? 0 then (fzero, fzero)
  else
    let deltaCost := fsub (BU_EstimatedCost u) (CB_LastObservedEstimatedCost c) in
    let burnRate := if workflowBudgetHasReliableCost b && fltb fzero deltaCost then fdiv deltaCost (of_int deltaRounds) else fzero in
    let deltaTokens := wrap64 (BU_ModelTotalTokens u - CB_LastObservedModelTokens c) in
    let burnRate := if feqb burnRate fzero && (0 <? deltaTokens) then fdiv (of_int deltaTokens) (of_int deltaRounds) else burnRate in
    if fleb (CB_LastObservedBurnRate c) fzero || fleb burnRate fzero then (burnRate, fzero)
    else (burnRate, fdiv burnRate (CB_LastObservedBurnRate c)).

Definition no_progress_text (count : Z) : string := FormatInt count +:+ " no-progress continuations".
Definition repeated_text (yieldReason : string) : string := "repeated yield_reason=" +:+ yieldReason.
Definition burn_text (ratio : float64) : string := "burn rate spike " +:+ Fixed2 ratio +:+ "x".

Definition workflowCircuitWarningReason (p : WorkflowCircuitBreakerPolicy) (c : WorkflowCircuitBreakerState) (yieldReason : string)
    (progressMade : bool) (ratio : float64) : string :=
  if negb progressMade && (0 <? CP_MaxNoProgressContinuations p) && (CP_MaxNoProgressContinuations p <=? CB_NoProgressContinuations c)
  then no_progress_text (CB_NoProgressContinuations c)
  else if bool_decide (TrimSpace yieldReason <> "") && (0 <? CP_MaxRepeatedYieldReason p)
          && (CP_MaxRepeatedYieldReason p <=? CB_RepeatedYieldReasonCount c)
  then repeated_text (TrimSpace yieldReason)
  else if fltb fzero (CP_WarnBurnRateMultiplier p) && fleb (CP_WarnBurnRateMultiplier p) ratio then burn_text ratio
  else "".

Definition workflowCircuitTripReason (p : WorkflowCircuitBreakerPolicy) (yieldReason : string) (progressMade : bool) (ratio : float64) : string :=
  if negb progressMade then "half-open continuation made no progress"
  else if workflowCircuitBurnRateTrips p ratio then burn_text ratio
  else if decide (TrimSpace yieldReason <> "") then repeated_text (TrimSpace yieldReason)
  else "circuit breaker opened".

Definition openWorkflowCircuit (reason : string) (now : Time) (c : WorkflowCircuitBreakerState) : WorkflowCircuitBreakerState :=
  cb_set_trip workflowCircuitStateOpen (TrimSpace reason) now (wrap64 (CB_TripCount c + 1)) c.

(** The counters of an observation. *)
Definition count_no_progress (ws : WorkflowState) (b : WorkflowBudgetState) : Z :=
  let n := CB_NoProgressContinuations (BS_Circuit b) in
  let previous := BU_LastCompletedTaskCount (BS_Usage b) in
  if previous <? BU_CompletedTaskCount (BS_Usage b) then 0
  else if (0 <? WS_ContinuationIndex ws) || (0 <? previous) || bool_decide (TrimSpace (WS_YieldReason ws) <> "") then wrap64 (n + 1)
  else n.

Definition count_repeated (ws : WorkflowState) (c : WorkflowCircuitBreakerState) : Z * string :=
  let current := TrimSpace (WS_YieldReason ws) in
  if decide (current = "") then (0, "")
  else if decide (current = TrimSpace (CB_LastObservedYieldReason c))
  then (wrap64 (CB_RepeatedYieldReasonCount c + 1), CB_LastObservedYieldReason c)
  else (1, current).

(** The state of the breaker after the counters are set. *)
Definition trip_circuit (p : WorkflowCircuitBreakerPolicy) (yieldReason : string) (progressMade : bool) (ratio : float64) (now : Time)
    (c : WorkflowCircuitBreakerState) : WorkflowCircuitBreakerState :=
  if EqualFold (TrimSpace (CB_State c)) workflowCircuitStateHalfOpen then
    if negb progressMade || workflowCircuitBurnRateTrips p ratio || workflowCircuitRepeatedYieldTrips p (CB_RepeatedYieldReasonCount c)
    then openWorkflowCircuit (workflowCircuitTripReason p yieldReason progressMade ratio) now c
    else cb_set_trip workflowCircuitStateClosed "" 0 (CB_TripCount c) c
  else if workflowCircuitNoProgressTrips p (CB_NoProgressContinuations c)
  then openWorkflowCircuit (no_progress_text (CB_NoProgressContinuations c)) now c
  else if workflowCircuitRepeatedYieldTrips p (CB_RepeatedYieldReasonCount c)
  then openWorkflowCircuit (repeated_text (TrimSpace yieldReason)) now c
  else if workflowCircuitBurnRateTrips p ratio then openWorkflowCircuit (burn_text ratio) now c
  else
    let warning := workflowCircuitWarningReason p c yieldReason progressMade ratio in
    if decide (warning <> "") then cb_set_trip (CB_State c) warning (CB_OpenedAt c) (CB_TripCount c) c
    else if EqualFold (TrimSpace (CB_State c)) workflowCircuitStateClosed
    then cb_set_trip (CB_State c) "" (CB_OpenedAt c) (CB_TripCount c) c
    else c.

(** A continuation is observed once. *)
Definition already_observed (ws : WorkflowState) (b : WorkflowBudgetState) : bool :=
  let c := BS_Circuit b in
  (CB_LastObservedContinuationIndex c =? WS_ContinuationIndex ws)
  && (negb (CB_LastObservedTotalRounds c =? 0) || negb (CB_LastObservedModelTokens c =? 0)
      || bool_decide (CB_LastObservedYieldReason c <> "") || negb (BU_LastCompletedTaskCount (BS_Usage b) =? 0)
      || negb (IsZero (CB_OpenedAt c))).

Definition updateCircuitBreakerObservation (now : Time) (ws : WorkflowState) : WorkflowState :=
  match WS_Budget ws with
  | None => ws
  | Some b =>
    let c := BS_Circuit b in
    let c := if decide (TrimSpace (CB_State c) = "") then cb_set_state workflowCircuitStateClosed c else c in
    let b := bs_set_circuit c b in
    let ws := ws_set_budget b ws in
    if EqualFold (TrimSpace (CB_State c)) workflowCircuitStateOpen then ws
    else if already_observed ws b then ws
    else
      let p := BP_Circuit (BS_Policy b) in
      let u := BS_Usage b in
      let progressMade := BU_LastCompletedTaskCount u <? BU_CompletedTaskCount u in
      let '(repeated, yield) := count_repeated ws c in
      let '(burnRate, ratio) := workflowCircuitBurnRate ws b in
      let c := cb_set_counts (count_no_progress ws b) repeated yield ratio c in
      let c := trip_circuit p (WS_YieldReason ws) progressMade ratio now c in
      let c := cb_set_observed burnRate (BU_ModelTotalTokens u) (BU_EstimatedCost u) (WS_TotalRoundsUsed ws) (WS_ContinuationIndex ws) c in
      ws_set_budget (bs_set_circuit c (bs_set_usage (bu_set_tasks (BU_CompletedTaskCount u) (BU_CompletedTaskCount u) u) b)) ws
  end.

Definition observeWorkflowContinuationOutcome (now : Time) (r : WorkflowRun) : WorkflowRun :=
  match WR_State r with
  | Some ws =>
    if WR_Workflow r then
      let '(ws, b) := EnsureBudget now ws in
      let b := bs_set_usage (bu_set_tasks (completed_tasks r ws) (BU_LastCompletedTaskCount (BS_Usage b)) (BS_Usage b)) b in
      run_set_workflow (Some (updateCircuitBreakerObservation now (ws_set_budget b ws))) r
    else r
  | None => r
  end.
End Budget.

(** ** What is decided *)

(** a round of a workflow may run exactly when no hard limit is reached and the
    breaker is not open; the budget records the mode that was decided, and a
    workflow that was stopped is not continued. *)
Theorem budget_decision_exact {U : GoUnicode} {T : GoFloatText} now r ws b :
  WR_Workflow r = true -> WR_State r = Some ws -> WS_Budget ws = Some b ->
  let '(r', d) := evaluateWorkflowBudget now r in
  (BD_AllowCurrentTurn d = true <->
     BudgetStopReason now (EnsureBudget now ws).1 = "" /\ ToLower (TrimSpace (CB_State (BS_Circuit b))) <> workflowCircuitStateOpen)
  /\ (BD_AllowContinuation d = true -> BD_AllowCurrentTurn d = true)
  /\ exists ws' b', WR_State r' = Some ws' /\ WS_Budget ws' = Some b' /\ BS_Mode b' = BD_Mode d
     /\ (BD_AllowCurrentTurn d = false -> NeedsContinuation ws' = false).
Proof.
  intros Hf Hw Hb. unfold evaluateWorkflowBudget. rewrite Hw, Hf, Hb. rewrite bool_decide_eq_true_2 by eauto. cbn [andb].
  assert (WS_Budget (EnsureBudget now ws).1 = Some (EnsureBudget now ws).2 /\ BS_Circuit (EnsureBudget now ws).2 = BS_Circuit b) as [B1 B2].
  { unfold EnsureBudget. rewrite Hb. done. }
  destruct (EnsureBudget now ws) as [w b0]. cbn [fst snd] in *.
  set (b1 := bs_set_predicted _ _ _). set (w1 := ws_set_budget b1 w).
  assert (BudgetStopReason now w1 = BudgetStopReason now w) as Hs by (unfold BudgetStopReason; by rewrite B1).
  assert (BS_Circuit b1 = BS_Circuit b) as Hc by exact B2. clearbody b1.
  unfold decide_budget. rewrite Hs, Hc.
  assert (forall x b2, BS_Mode b2 = WorkflowBudgetModeStopped -> NeedsContinuation (ws_set_budget b2 x) = false) as Hstop.
  { intros x b2 Hm. unfold NeedsContinuation. cbn. rewrite Hm, bool_decide_eq_true_2 by done. cbn. by rewrite andb_false_r. }
  case_decide as D1; [|case_decide as D2; [|case_decide as D3]]; (split_and!; [cbn; try naive_solver|done|]);
    eexists _, _; (split_and!; [done..|cbn; intros ?; try done; by apply Hstop]).
Qed.
