(* ===== verification/WorkflowContinuation.v ===== *)
(** * Continuing a workflow ([agent/workflow_yield.go], [runtime/workflow_continuation.go])

    A run of a workflow that has used up its rounds yields.  The runtime then
    admits a continuation, a new run with the next index that inherits the plan,
    the completed tasks and the budget, or it ends the workflow.  The theorems
    bound the length of a chain of continuations. *)
From S2P Require Import Prelude GoLib GoText GoFloat Planner WorkflowState WorkflowBudget.
From Stdlib Require Import Ascii Floats.SpecFloat.
Import Str GoTime GoInt Text.

Local Open Scope Z_scope.

(** ** Yielding *)

Definition appendUniqueString (l : list string) (item : string) : list string :=
  if decide (item ∈ l) then l else l ++ [item].

Definition sync_ids (p : Plan) (ids : list string) : list string :=
  foldl (fun ids t => if decide (Task_Status t = TaskCompleted) then appendUniqueString ids (Task_ID t) else ids) ids (Plan_Tasks p).

Definition syncWorkflowCompletedTaskIDs (r : WorkflowRun) : WorkflowRun :=
  match WR_State r, WR_Plan r with
  | Some ws, Some p => run_set_workflow (Some (ws_set_completed (sync_ids p (WS_CompletedTaskIDs ws)) ws)) r
  | _, _ => r
  end.

Definition ensureWorkflowState (now : Time) (r : WorkflowRun) : WorkflowRun * WorkflowState :=
  match WR_State r with
  | Some ws => (r, ws)
  | None =>
    let ws := mkWorkflowState (WR_ID r) 0 DefaultMaxContinuations 0 DefaultMaxTotalRounds [] [] false "" "" "" None in
    let ws := (EnsureBudget now ws).1 in (run_set_workflow (Some ws) r, ws)
  end.

Definition trackWorkflowExecutionRound (now : Time) (r : WorkflowRun) : WorkflowRun :=
  if WR_Workflow r then
    let '(r, ws) := ensureWorkflowState now r in
    run_set_workflow (Some (ws_set_rounds (wrap64 (WS_TotalRoundsUsed ws + 1)) ws)) r
  else r.

Definition isWorkflowWithIncompletePlan (r : WorkflowRun) : bool :=
  WR_Workflow r && match WR_Plan r with None => false | Some p => negb (Planner.Terminal (Some p)) end.

Definition BuildWorkflowRunSummary (r : WorkflowRun) : string :=
  match WR_Plan r with
  | None => "workflow run yielded"
  | Some p =>
    let count n := FormatInt (Z.of_nat n) in
    "completed " +:+ count (CompletedCount (Some p)) +:+ "/" +:+ count (TotalCount (Some p)) +:+ " tasks"
    +:+ (if decide (0 < FailedCount (Some p))%nat then " (" +:+ count (FailedCount (Some p)) +:+ " failed)" else "")
    +:+ " in " +:+ FormatInt (WR_ToolRounds r) +:+ " rounds"
    +:+ (match WR_State r with Some ws => " (continuation " +:+ FormatInt (WS_ContinuationIndex ws) +:+ ")" | None => "" end)
  end.

(** Usage records of a workflow. *)
Record UsageRecord := mkUsageRecord {
  UR_RecordType : string; UR_PromptTokens : Z; UR_CompletionTokens : Z; UR_TotalTokens : Z; UR_CostEstimate : float64;
  UR_Duration : Duration; UR_CreatedAt : Time }.

Definition RecordTypeModelCall : string := "model_call".
Definition RecordTypeToolExecution : string := "tool_execution".

Definition normalizedUsageRecordType (rec : UsageRecord) : string :=
  if decide (UR_RecordType rec = "") then RecordTypeModelCall else UR_RecordType rec.

Section Continuation.
Context {U : GoUnicode} {T : GoFloatText}.

(** [yieldWorkflowRun] on the refreshed run: the text it fails with, or the run
    that is completed as yielded. *)
Definition yieldWorkflowRun (now : Time) (reason : string) (r : WorkflowRun) : string + WorkflowRun :=
  let '(r, ws) := ensureWorkflowState now r in
  let ws := ClearTerminal (EnsureBudget now ws).1 in
  if decide (BudgetStopReason now ws <> "") then
    inl ("workflow budget exhausted after " +:+ FormatInt (WS_ContinuationIndex ws) +:+ " continuations and "
         +:+ FormatInt (WS_TotalRoundsUsed ws) +:+ " total rounds")
  else
    let ws := ws_set_yield true (TrimSpace reason) ws in
    inr (observeWorkflowContinuationOutcome now (syncWorkflowCompletedTaskIDs (run_set_workflow (Some ws) r))).

(** ** Admission *)

Definition started_count (ws : WorkflowState) (u : WorkflowBudgetUsage) : Z :=
  Z.max (BU_StartedContinuationCount u) (wrap64 (WS_ContinuationIndex ws + 1)).

Definition resync_record (u : WorkflowBudgetUsage) (rec : UsageRecord) : WorkflowBudgetUsage :=
  let started := if negb (IsZero (UR_CreatedAt rec)) && Before (UR_CreatedAt rec) (BU_StartedAt u) then UR_CreatedAt rec else BU_StartedAt u in
  let updated := if After (UR_CreatedAt rec) (BU_LastUpdatedAt u) then UR_CreatedAt rec else BU_LastUpdatedAt u in
  let u := bu_set_clock (BU_StartedContinuationCount u) started updated u in
  if decide (normalizedUsageRecordType rec = RecordTypeToolExecution)
  then bu_set_tools (wrap64 (BU_ToolExecutionCount u + 1)) (wrap64 (BU_ToolExecutionDuration u + UR_Duration rec)) u
  else count_model_call (UR_PromptTokens rec) (UR_CompletionTokens rec) (UR_TotalTokens rec) (UR_CostEstimate rec) u.

(** [resyncWorkflowBudgetUsage] for the records that were found; none when there is
    no store or the query fails. *)
Definition resyncWorkflowBudgetUsage (records : option (list UsageRecord)) (now : Time) (r : WorkflowRun) : WorkflowRun :=
  match records, WR_State r with
  | Some recs, Some ws =>
    if decide (TrimSpace (WS_OriginalRunID ws) = "" /\ TrimSpace (WR_ID r) = "") then r
    else
      let '(ws, b) := EnsureBudget now ws in
      let u := bu_set_tools 0 0 (bu_set_model 0 0 0 fzero 0 0 (BS_Usage b)) in
      let u := bu_set_clock (started_count ws u) (if IsZero (BU_StartedAt u) then now else BU_StartedAt u)
                 (if IsZero (BU_LastUpdatedAt u) then now else BU_LastUpdatedAt u) u in
      run_set_workflow (Some (ws_set_budget (bs_set_usage (foldl resync_record u recs) b) ws)) r
  | _, _ => r
  end.

Definition workflowContinuationStopSummary (reason circuitReason : string) : string :=
  let stopped := "workflow auto-continuation stopped" in
  let trimmed := TrimSpace reason in
  let circuit := TrimSpace circuitReason in
  if decide (trimmed = YieldReasonBudgetHardLimit) then stopped +:+ ": budget hard limit reached"
  else if decide (circuit <> "") then stopped +:+ ": " +:+ circuit
  else if decide (trimmed = YieldReasonCircuitBreakerOpen) then stopped +:+ ": circuit breaker opened"
  else if decide (trimmed = YieldReasonAdmissionDenied) then stopped +:+ ": continuation admission denied"
  else if decide (trimmed = "") then stopped
  else stopped +:+ ": " +:+ replace_byte "_"%char " "%char trimmed.

Definition markWorkflowContinuationDenied (now : Time) (reason : string) (r : WorkflowRun) : WorkflowRun :=
  match WR_State r with
  | None => r
  | Some ws =>
    let '(ws, b) := EnsureBudget now ws in
    let b := bs_set_usage (bu_touch now (BS_Usage b)) (bs_set_stop (TrimSpace reason) (bs_set_mode WorkflowBudgetModeStopped b)) in
    let c := BS_Circuit b in
    let c := if bool_decide (reason = YieldReasonCircuitBreakerOpen) && negb (EqualFold (TrimSpace (CB_State c)) "open")
             then cb_set_state "open" c else c in
    let ws := ws_set_yield (WS_Yielded ws) (TrimSpace reason) (ws_set_budget (bs_set_circuit c b) ws) in
    run_set_workflow (Some (MarkTerminal WorkflowTerminalOutcomeFailed (workflowContinuationStopSummary reason (CB_Reason c)) ws)) r
  end.

Definition workflowRemainingContinuations (ws : WorkflowState) (p : WorkflowBudgetPolicy) : Z :=
  if BP_HardContinuations p <=? 0 then 1 else wrap64 (BP_HardContinuations p - WS_ContinuationIndex ws).
Definition workflowRemainingRounds (ws : WorkflowState) (p : WorkflowBudgetPolicy) : Z :=
  if BP_HardTotalRounds p <=? 0 then 1 else wrap64 (BP_HardTotalRounds p - WS_TotalRoundsUsed ws).

(** The reason to refuse a continuation, if there is one. *)
Definition admission_reason (now : Time) (ws : WorkflowState) (b : WorkflowBudgetState) : option string :=
  let p := BS_Policy b in
  let u := BS_Usage b in
  let stopReason := BudgetStopReason now ws in
  if EqualFold (TrimSpace (CB_State (BS_Circuit b))) "open" then Some YieldReasonCircuitBreakerOpen
  else if EqualFold (TrimSpace (CB_State (BS_Circuit b))) "half_open" then Some YieldReasonAdmissionDenied
  else if decide (stopReason <> "") then Some stopReason
  else if workflowRemainingContinuations ws p <? 1 then Some YieldReasonBudgetHardLimit
  else if workflowRemainingRounds ws p <? 1 then Some YieldReasonBudgetHardLimit
  else if (0 <? BP_HardModelTokens p)
          && (wrap64 (BP_HardModelTokens p - BU_ModelTotalTokens u)
              <? wrap64 (predictWorkflowContinuationTokens p u (WS_TotalRoundsUsed ws) + BP_ReserveModelTokens p))
  then Some YieldReasonAdmissionDenied
  else if fltb fzero (BP_HardCostEstimate p) && (BU_UnknownCostCallCount u =? 0)
          && fltb (fsub (BP_HardCostEstimate p) (BU_EstimatedCost u))
               (fadd (predictWorkflowContinuationCost p u (WS_TotalRoundsUsed ws)) (BP_ReserveCostEstimate p))
  then Some YieldReasonAdmissionDenied
  else None.

(** [admitWorkflowContinuation]: the run that is stored, and whether it may be
    continued.  The predictions are stored unless an earlier test refuses. *)
Definition admitWorkflowContinuation (records : option (list UsageRecord)) (now : Time) (r : WorkflowRun) : WorkflowRun * bool :=
  let r := resyncWorkflowBudgetUsage records now r in
  match WR_State r with
  | None => (r, false)
  | Some ws =>
    let '(ws, b) := EnsureBudget now ws in
    let early := EqualFold (TrimSpace (CB_State (BS_Circuit b))) "open" || EqualFold (TrimSpace (CB_State (BS_Circuit b))) "half_open"
                 || bool_decide (BudgetStopReason now ws <> "") in
    let b := if early then b
             else bs_set_predicted (predictWorkflowContinuationTokens (BS_Policy b) (BS_Usage b) (WS_TotalRoundsUsed ws))
                    (predictWorkflowContinuationCost (BS_Policy b) (BS_Usage b) (WS_TotalRoundsUsed ws)) b in
    let ws := ws_set_budget b ws in
    match admission_reason now ws b with
    | Some reason => (markWorkflowContinuationDenied now reason (run_set_workflow (Some ws) r), false)
    | None => (run_set_workflow (Some (ws_set_budget (bs_set_stop "" b) ws)) r, true)
    end
  end.

(** ** The continuation *)

Definition requeue (t : Task) : Task := if decide (Task_Status t = TaskRunning) then task_set_status TaskQueued t else t.

Definition clonePlanForContinuation (p : Plan) : Plan :=
  mkPlan (Plan_Goal p) (Plan_Summary p) (Plan_Strategy p) (Plan_FailurePolicy p) (requeue <$> Plan_Tasks p) (Plan_FinalTask p)
    (Plan_CoverageWarnings p) "" [].

Definition buildContinuationWorkflowState (now : Time) (parent : WorkflowRun) (ws : WorkflowState) : WorkflowState :=
  let '(ws, b) := EnsureBudget now ws in
  let u := BS_Usage b in
  let b := bs_set_usage (bu_set_clock (Z.max (BU_StartedContinuationCount u) (wrap64 (WS_ContinuationIndex ws + 2))) (BU_StartedAt u) now u) b in
  let summaries := WS_PriorRunSummaries ws ++ ["Run " +:+ WR_ID parent +:+ ": " +:+ BuildWorkflowRunSummary parent] in
  let state := mkWorkflowState (WS_OriginalRunID ws) (wrap64 (WS_ContinuationIndex ws + 1)) (WS_MaxContinuations ws) (WS_TotalRoundsUsed ws)
                 (WS_MaxTotalRounds ws) summaries (WS_CompletedTaskIDs ws) false "" "" "" (Some b) in
  (EnsureBudget now (ClearTerminal state)).1.

(** [createContinuationRun]: the run that was submitted as [id] becomes the
    continuation of its parent. *)
Definition createContinuationRun (now : Time) (id : string) (parent : WorkflowRun) : option WorkflowRun :=
  match WR_State parent with
  | None => None
  | Some ws => Some (mkWorkflowRun id true (clonePlanForContinuation <$> WR_Plan parent) 0
                       (Some (buildContinuationWorkflowState now parent ws)))
  end.

(** [checkAndDispatchWorkflowContinuation]: the finished run as it is stored, and
    its continuation; [submitted] is the identifier of the new run, or none when
    it cannot be submitted. *)
Definition checkAndDispatchWorkflowContinuation (records : option (list UsageRecord)) (now : Time) (submitted : option string)
    (r : WorkflowRun) : WorkflowRun * option WorkflowRun :=
  match WR_State r with
  | None => (r, None)
  | Some ws =>
    if negb (NeedsContinuation ws) then (r, None)
    else
      let '(r, allowed) := admitWorkflowContinuation records now r in
      if negb allowed then (r, None)
      else (r, match submitted with None => None | Some id => createContinuationRun now id r end)
  end.
End Continuation.

(** ** What every operation keeps *)

Definition circuit_of (ws : WorkflowState) : WorkflowCircuitBreakerState := from_option BS_Circuit zero_circuit (WS_Budget ws).
Definition last_of (ws : WorkflowState) : Z := from_option (fun b => BU_LastCompletedTaskCount (BS_Usage b)) 0 (WS_Budget ws).
(** Policy and limit as they are once the budget is filled in. *)
Definition policy_of (ws : WorkflowState) : WorkflowBudgetPolicy := BS_Policy (EnsureBudget 0 ws).2.
Definition max_of (ws : WorkflowState) : Z := WS_MaxContinuations (EnsureBudget 0 ws).1.

Record same_core (ws ws' : WorkflowState) : Prop := {
  sc_index : WS_ContinuationIndex ws' = WS_ContinuationIndex ws;
  sc_ids : WS_CompletedTaskIDs ws' = WS_CompletedTaskIDs ws;
  sc_circuit : circuit_of ws' = circuit_of ws;
  sc_last : last_of ws' = last_of ws;
  sc_policy : policy_of ws' = policy_of ws;
  sc_max : max_of ws' = max_of ws }.

#[export] Instance same_core_refl : Reflexive same_core.
Proof. by constructor. Qed.
#[export] Instance same_core_trans : Transitive same_core.
Proof. intros x y z [] []. constructor; congruence. Qed.

Lemma policy_of_now now ws : BS_Policy (EnsureBudget now ws).2 = policy_of ws /\ WS_MaxContinuations (EnsureBudget now ws).1 = max_of ws.
Proof. done. Qed.

(** A policy that was filled in stays as it is. *)
Lemma set_hard_nonempty hc hr p :
  workflowBudgetPolicyEmpty p = false -> (hc = BP_HardContinuations p \/ 0 < hc) -> (hr = BP_HardTotalRounds p \/ 0 < hr) ->
  workflowBudgetPolicyEmpty (bp_set_hard hc hr p) = false.
Proof.
  intros He Hc Hr. apply not_true_is_false. intros Ht.
  assert (hc = 0 /\ hr = 0) as [-> ->].
  { unfold workflowBudgetPolicyEmpty in Ht. apply andb_true_iff in Ht as [[Ht _]%andb_true_iff _].
    cbn [forallb bp_set_hard BP_HardContinuations BP_HardTotalRounds] in Ht. rewrite !andb_true_iff, !Z.eqb_eq in Ht. lia. }
  destruct Hc as [Hc|?]; [|lia]. destruct Hr as [Hr|?]; [|lia].
  assert (bp_set_hard 0 0 p = p) as E by (destruct p; cbn in *; by rewrite <- Hc, <- Hr). congruence.
Qed.

Definition hard_of (hard max : Z) : Z := if (hard <=? 0) && (0 <? max) then max else hard.

Lemma hard_of_idem hard max : hard_of (hard_of hard max) (hard_of max (hard_of hard max)) = hard_of hard max
  /\ hard_of (hard_of max (hard_of hard max)) (hard_of hard max) = hard_of max (hard_of hard max)
  /\ (hard_of hard max = hard \/ 0 < hard_of hard max).
Proof. unfold hard_of. repeat (case_match; bool_prop); lia. Qed.

(** What [EnsureBudget] fills in. *)
Definition base_policy (ws : WorkflowState) : WorkflowBudgetPolicy :=
  let p := from_option BS_Policy DefaultWorkflowBudgetPolicy (WS_Budget ws) in
  if workflowBudgetPolicyEmpty p then DefaultWorkflowBudgetPolicy else p.

Lemma EnsureBudget_spec now ws :
  let p := base_policy ws in
  let hardC := hard_of (BP_HardContinuations p) (WS_MaxContinuations ws) in
  let hardR := hard_of (BP_HardTotalRounds p) (WS_MaxTotalRounds ws) in
  let '(ws', b) := EnsureBudget now ws in
  WS_Budget ws' = Some b /\ BS_Policy b = bp_set_hard hardC hardR p /\ WS_MaxContinuations ws' = hard_of (WS_MaxContinuations ws) hardC
  /\ WS_MaxTotalRounds ws' = hard_of (WS_MaxTotalRounds ws) hardR.
Proof. unfold EnsureBudget, base_policy. destruct (WS_Budget ws) as [b|]; cbn; done. Qed.

Lemma base_policy_nonempty ws : workflowBudgetPolicyEmpty (base_policy ws) = false.
Proof. unfold base_policy. by destruct (workflowBudgetPolicyEmpty (from_option _ _ _)) eqn:E. Qed.

Lemma EnsureBudget_core now ws : same_core ws (EnsureBudget now ws).1.
Proof.
  assert (policy_of (EnsureBudget now ws).1 = policy_of ws /\ max_of (EnsureBudget now ws).1 = max_of ws) as [Hp Hm].
  { unfold policy_of, max_of. pose proof (EnsureBudget_spec now ws) as H1. pose proof (EnsureBudget_spec 0 ws) as H2.
    destruct (EnsureBudget now ws) as [w1 b1], (EnsureBudget 0 ws) as [w2 b2]. cbn [fst snd] in *.
    destruct H1 as (E1 & E2 & E3 & E4), H2 as (F1 & F2 & F3 & F4).
    pose proof (EnsureBudget_spec 0 w1) as H3. destruct (EnsureBudget 0 w1) as [w3 b3]. cbn [fst snd] in *.
    destruct H3 as (G1 & G2 & G3 & G4).
    set (p := base_policy ws) in *. set (h := hard_of (BP_HardContinuations p) (WS_MaxContinuations ws)) in *.
    set (g := hard_of (BP_HardTotalRounds p) (WS_MaxTotalRounds ws)) in *.
    destruct (hard_of_idem (BP_HardContinuations p) (WS_MaxContinuations ws)) as (I1 & I2 & I3).
    destruct (hard_of_idem (BP_HardTotalRounds p) (WS_MaxTotalRounds ws)) as (J1 & J2 & J3). fold h in I1, I2, I3. fold g in J1, J2, J3.
    assert (base_policy w1 = bp_set_hard h g p) as Eb.
    { unfold base_policy at 1. rewrite E1. cbn [from_option]. rewrite E2, set_hard_nonempty; [done|apply base_policy_nonempty|done..]. }
    rewrite Eb in G2, G3. cbn [BP_HardContinuations BP_HardTotalRounds bp_set_hard] in G2, G3. rewrite E3, E4, ?I1, ?J1 in *.
    split; [|congruence]. rewrite G2, F2. by destruct p. }
  constructor; [| | | |done|done]; unfold circuit_of, last_of, EnsureBudget; by destruct (WS_Budget ws).
Qed.

Lemma set_budget_core ws b b' :
  WS_Budget ws = Some b -> BS_Policy b' = BS_Policy b -> BS_Circuit b' = BS_Circuit b ->
  BU_LastCompletedTaskCount (BS_Usage b') = BU_LastCompletedTaskCount (BS_Usage b) -> same_core ws (ws_set_budget b' ws).
Proof.
  destruct ws as [? ? ? ? ? ? ? ? ? ? ? bo]. cbn. intros -> Hp Hc Hl. constructor; [done..| |].
  all: unfold policy_of, max_of, EnsureBudget; cbn; by rewrite Hp.
Qed.

Lemma EnsureBudget_budget now ws : WS_Budget (EnsureBudget now ws).1 = Some (EnsureBudget now ws).2.
Proof. pose proof (EnsureBudget_spec now ws) as H. destruct (EnsureBudget now ws). by destruct H as (? & _). Qed.

(** Changing the filled-in budget without its policy, breaker and last count. *)
Lemma ensure_set_core now ws b' :
  let b := (EnsureBudget now ws).2 in
  BS_Policy b' = BS_Policy b -> BS_Circuit b' = BS_Circuit b ->
  BU_LastCompletedTaskCount (BS_Usage b') = BU_LastCompletedTaskCount (BS_Usage b) ->
  same_core ws (ws_set_budget b' (EnsureBudget now ws).1).
Proof.
  intros b H1 H2 H3. etrans; [apply (EnsureBudget_core now)|]. by eapply set_budget_core; [apply EnsureBudget_budget|..].
Qed.

Section Chain.
Context {U : GoUnicode} {T : GoFloatText}.

Definition plan_ok (r : WorkflowRun) : Prop :=
  match WR_Plan r with Some p => NoDup (Task_ID <$> Plan_Tasks p) | None => True end.

(** A run at work: calls of models and tools are counted, rounds begin, the budget
    is looked at, and the plan changes; its tasks have distinct identifiers. *)
Inductive work_step (r : WorkflowRun) : WorkflowRun -> Prop :=
  | WorkModel prompt completion total cost now : work_step r (updateWorkflowBudgetModelUsage prompt completion total cost now r).1
  | WorkTool count duration now : work_step r (updateWorkflowBudgetToolUsage count duration now r).1
  | WorkRound now : work_step r (trackWorkflowExecutionRound now r)
  | WorkBudget now : work_step r (evaluateWorkflowBudget now r).1
  | WorkPlan p rounds : NoDup (Task_ID <$> Plan_Tasks p) ->
    work_step r (mkWorkflowRun (WR_ID r) (WR_Workflow r) (Some p) rounds (WR_State r)).

Lemma decide_budget_keeps ws b now : let b' := (decide_budget ws b now).1 in
  BS_Policy b' = BS_Policy b /\ BS_Circuit b' = BS_Circuit b /\ BS_Usage b' = BS_Usage b.
Proof. unfold decide_budget. repeat case_decide; done. Qed.

(** Two stages of one run. *)
Definition same_run (r r' : WorkflowRun) : Prop :=
  WR_Workflow r' = WR_Workflow r /\ (plan_ok r -> plan_ok r')
  /\ forall ws, WR_State r = Some ws -> exists ws', WR_State r' = Some ws' /\ same_core ws ws'.

Lemma same_run_refl r : same_run r r.
Proof. split_and!; [done..|]. intros ws H. by exists ws. Qed.

Lemma same_run_trans r1 r2 r3 : same_run r1 r2 -> same_run r2 r3 -> same_run r1 r3.
Proof.
  intros (A1 & A2 & A3) (B1 & B2 & B3). split_and!; [congruence|auto|]. intros ws Hw.
  destruct (A3 ws Hw) as (ws' & Hw' & C1). destruct (B3 ws' Hw') as (ws'' & Hw'' & C2). exists ws''. split; [done|by etrans].
Qed.

Lemma same_run_state r ws ws' : WR_State r = Some ws -> same_core ws ws' -> same_run r (run_set_workflow (Some ws') r).
Proof. intros Hw Hc. split_and!; [done..|]. intros w. rewrite Hw. intros [= <-]. by exists ws'. Qed.

Lemma work_keeps r r' : work_step r r' -> same_run r r'.
Proof.
  destruct 1 as [prompt completion total cost now|count duration now|now|now|p rounds Hp].
  - unfold updateWorkflowBudgetModelUsage. destruct (WR_State r) as [ws|] eqn:Hw; [|apply same_run_refl].
    pose proof (ensure_set_core now ws) as Hs. destruct (EnsureBudget now ws) as [ws1 b]. by apply (same_run_state r ws), Hs.
  - unfold updateWorkflowBudgetToolUsage. destruct (WR_State r) as [ws|] eqn:Hw; [|apply same_run_refl].
    case_decide; [apply same_run_refl|].
    pose proof (ensure_set_core now ws) as Hs. destruct (EnsureBudget now ws) as [ws1 b]. by apply (same_run_state r ws), Hs.
  - unfold trackWorkflowExecutionRound, ensureWorkflowState. destruct (WR_Workflow r); [|apply same_run_refl].
    destruct (WR_State r) as [ws|] eqn:Hw; [by apply (same_run_state r ws)|]. split_and!; [done..|]. intros ws. by rewrite Hw.
  - unfold evaluateWorkflowBudget. destruct (WR_State r) as [ws|] eqn:Hw; [|apply same_run_refl].
    destruct (_ && _); [|apply same_run_refl]. pose proof (EnsureBudget_core now ws) as Hs0. pose proof (EnsureBudget_budget now ws) as Hb.
    destruct (EnsureBudget now ws) as [ws1 b]. cbn [fst snd] in *. set (b1 := bs_set_predicted _ _ _).
    pose proof (decide_budget_keeps (ws_set_budget b1 ws1) b1 now) as Hk.
    destruct (decide_budget _ b1 now) as [b2 d]. cbn [fst] in *. destruct Hk as (K1 & K2 & K3).
    apply (same_run_state r ws); [done|]. etrans; [exact Hs0|]. change (ws_set_budget b2 (ws_set_budget b1 ws1)) with (ws_set_budget b2 ws1).
    eapply set_budget_core; [exact Hb|by rewrite K1|by rewrite K2|by rewrite K3].
  - split_and!; [done|by intros _|]. intros ws Hw. by exists ws.
Qed.

Lemma works_keep r r' : rtc work_step r r' -> same_run r r'.
Proof. induction 1 as [|r r1 r' H1 _ IH]; [apply same_run_refl|]. by eapply same_run_trans; [apply work_keeps|]. Qed.

(** *** Yielding *)

(** A breaker that is not open. *)
Definition calm (c : WorkflowCircuitBreakerState) : Prop := CB_State c = "" \/ CB_State c = workflowCircuitStateClosed.

Lemma fold_closed : EqualFold (TrimSpace workflowCircuitStateClosed) workflowCircuitStateOpen = false
  /\ EqualFold (TrimSpace workflowCircuitStateClosed) workflowCircuitStateHalfOpen = false.
Proof. split; (rewrite EqualFold_ascii by reflexivity; reflexivity). Qed.

(** What an observation leaves in the breaker: the counters, and whether it opened. *)
Definition observed (ws : WorkflowState) (b : WorkflowBudgetState) (c' : WorkflowCircuitBreakerState) : Prop :=
  let c := BS_Circuit b in
  CB_LastObservedContinuationIndex c' = WS_ContinuationIndex ws
  /\ CB_NoProgressContinuations c' = count_no_progress ws b
  /\ (CB_RepeatedYieldReasonCount c', CB_LastObservedYieldReason c') = count_repeated ws c
  /\ (CB_State c' = workflowCircuitStateOpen
      \/ CB_State c' = workflowCircuitStateClosed
         /\ workflowCircuitNoProgressTrips (BP_Circuit (BS_Policy b)) (CB_NoProgressContinuations c') = false
         /\ workflowCircuitRepeatedYieldTrips (BP_Circuit (BS_Policy b)) (CB_RepeatedYieldReasonCount c') = false).

Lemma trip_circuit_spec p yieldReason progressMade ratio now c :
  CB_State c = workflowCircuitStateClosed ->
  let c' := trip_circuit p yieldReason progressMade ratio now c in
  CB_NoProgressContinuations c' = CB_NoProgressContinuations c /\ CB_RepeatedYieldReasonCount c' = CB_RepeatedYieldReasonCount c
  /\ CB_LastObservedYieldReason c' = CB_LastObservedYieldReason c
  /\ (CB_State c' = workflowCircuitStateOpen
      \/ CB_State c' = workflowCircuitStateClosed /\ workflowCircuitNoProgressTrips p (CB_NoProgressContinuations c) = false
         /\ workflowCircuitRepeatedYieldTrips p (CB_RepeatedYieldReasonCount c) = false).
Proof.
  intros Hc. cbv zeta. unfold trip_circuit. rewrite Hc, (proj2 fold_closed).
  destruct (workflowCircuitNoProgressTrips _ _) eqn:E1; [split_and!; [done..|by left]|].
  destruct (workflowCircuitRepeatedYieldTrips _ _) eqn:E2; [split_and!; [done..|by left]|].
  destruct (workflowCircuitBurnRateTrips _ _); [split_and!; [done..|by left]|].
  repeat case_match; split_and!; try done; by right.
Qed.

Lemma observation_spec now ws b :
  WS_Budget ws = Some b -> calm (BS_Circuit b) -> already_observed ws b = false ->
  exists b', updateCircuitBreakerObservation now ws = ws_set_budget b' ws /\ BS_Policy b' = BS_Policy b
    /\ BU_LastCompletedTaskCount (BS_Usage b') = BU_CompletedTaskCount (BS_Usage b) /\ observed ws b (BS_Circuit b').
Proof.
  intros Hb Hcalm Ha. unfold updateCircuitBreakerObservation. rewrite Hb.
  set (c := if decide _ then _ else _).
  assert (CB_State c = workflowCircuitStateClosed) as Hc.
  { unfold c. destruct Hcalm as [Hs|Hs]; rewrite Hs; case_decide; done. }
  assert (already_observed (ws_set_budget (bs_set_circuit c b) ws) (bs_set_circuit c b) = false) as Ha'.
  { rewrite <- Ha. unfold already_observed, c. by destruct (decide (TrimSpace (CB_State (BS_Circuit b)) = "")). }
  rewrite Hc, (proj1 fold_closed), Ha'.
  assert (count_repeated (ws_set_budget (bs_set_circuit c b) ws) c = count_repeated ws (BS_Circuit b)) as Hr.
  { unfold count_repeated, c. by destruct (decide (TrimSpace (CB_State (BS_Circuit b)) = "")). }
  assert (count_no_progress (ws_set_budget (bs_set_circuit c b) ws) (bs_set_circuit c b) = count_no_progress ws b) as Hn.
  { unfold count_no_progress, c. by destruct (decide (TrimSpace (CB_State (BS_Circuit b)) = "")). }
  destruct (count_repeated _ c) as [rep yld] eqn:Er. destruct (workflowCircuitBurnRate _ _) as [burn ratio].
  eexists. split; [reflexivity|]. cbn. split_and!; [done..|]. unfold observed. cbn.
  match goal with |- context [trip_circuit ?p ?y ?pm ?r ?n ?c0] => destruct (trip_circuit_spec p y pm r n c0) as (T1 & T2 & T3 & T4) end;
    [exact Hc|]. cbn in T1, T2, T3, T4. rewrite T1, T2, T3, Hn, <- Hr. rewrite Hn in T4. split_and!; [done..|]. by destruct T4 as [?|?]; [left|right].
Qed.

Lemma sync_ids_spec p ids :
  (ids `prefix_of` sync_ids p ids) /\ (forall t, t ∈ Plan_Tasks p -> Task_Status t = TaskCompleted -> Task_ID t ∈ sync_ids p ids).
Proof.
  unfold sync_ids. revert ids. induction (Plan_Tasks p) as [|t ts IH]; intros ids; cbn [foldl]; [split; [done|by intros t ?%elem_of_nil]|].
  match goal with |- context [foldl _ ?i ts] => set (ids1 := i); destruct (IH ids1) as [H1 H2] end.
  assert (ids `prefix_of` ids1) as H0.
  { unfold ids1, appendUniqueString. repeat case_decide; [done|by eexists|done]. }
  split; [by etrans|]. intros t' [->|Ht]%elem_of_cons Hc; [|by apply H2].
  assert (Task_ID t ∈ ids1) as Hin.
  { unfold ids1, appendUniqueString. rewrite decide_True by done. case_decide; [done|set_solver]. }
  destruct H1 as [k ->]. set_solver.
Qed.

Lemma completed_length p ids : NoDup (Task_ID <$> Plan_Tasks p) -> (CompletedCount (Some p) <= length (sync_ids p ids))%nat.
Proof.
  intros Hnd. destruct (sync_ids_spec p ids) as [_ Hin].
  transitivity (length (Task_ID <$> filter (fun t => Task_Status t = TaskCompleted) (Plan_Tasks p))).
  { rewrite length_fmap. unfold CompletedCount, countState. done. }
  apply submseteq_length, NoDup_submseteq.
  - eapply sublist_NoDup; [exact Hnd|]. apply fmap_sublist, sublist_filter.
  - intros id (t & -> & [Hc Ht]%list_elem_of_filter)%list_elem_of_fmap. by apply Hin.
Qed.

(** The run has not been observed yet. *)
Definition unobserved (ws : WorkflowState) : Prop :=
  let c := circuit_of ws in
  CB_LastObservedContinuationIndex c <> WS_ContinuationIndex ws
  \/ CB_LastObservedTotalRounds c = 0 /\ CB_LastObservedModelTokens c = 0 /\ CB_LastObservedYieldReason c = "" /\ last_of ws = 0
     /\ CB_OpenedAt c = 0.

Lemma unobserved_spec ws b : WS_Budget ws = Some b -> unobserved ws -> already_observed ws b = false.
Proof.
  intros Hb. unfold unobserved, already_observed, circuit_of, last_of. rewrite Hb. cbn [from_option].
  intros [Hi|(-> & -> & -> & -> & ->)]; [by rewrite (proj2 (Z.eqb_neq _ _) Hi)|]. by rewrite andb_false_r.
Qed.

(** What a yield with reason [rho] makes of the state of a run. *)
Record yielded (rho : string) (ws ws' : WorkflowState) : Prop := {
  y_index : WS_ContinuationIndex ws' = WS_ContinuationIndex ws;
  y_policy : policy_of ws' = policy_of ws;
  y_max : max_of ws' = max_of ws;
  y_ids : (length (WS_CompletedTaskIDs ws) <= length (WS_CompletedTaskIDs ws'))%nat;
  y_last : last_of ws' = Z.of_nat (length (WS_CompletedTaskIDs ws'));
  y_observed : CB_LastObservedContinuationIndex (circuit_of ws') = WS_ContinuationIndex ws;
  y_no_progress : CB_NoProgressContinuations (circuit_of ws')
    = if last_of ws <? last_of ws' then 0 else wrap64 (CB_NoProgressContinuations (circuit_of ws) + 1);
  y_repeated : (CB_RepeatedYieldReasonCount (circuit_of ws'), CB_LastObservedYieldReason (circuit_of ws'))
    = if decide (rho = TrimSpace (CB_LastObservedYieldReason (circuit_of ws)))
      then (wrap64 (CB_RepeatedYieldReasonCount (circuit_of ws) + 1), CB_LastObservedYieldReason (circuit_of ws)) else (1, rho);
  y_state : CB_State (circuit_of ws') = workflowCircuitStateOpen
    \/ CB_State (circuit_of ws') = workflowCircuitStateClosed
       /\ workflowCircuitNoProgressTrips (BP_Circuit (policy_of ws)) (CB_NoProgressContinuations (circuit_of ws')) = false
       /\ workflowCircuitRepeatedYieldTrips (BP_Circuit (policy_of ws)) (CB_RepeatedYieldReasonCount (circuit_of ws')) = false }.

Lemma yield_spec now reason r ws r2 :
  yieldWorkflowRun now reason r = inr r2 -> WR_State r = Some ws -> WR_Workflow r = true -> plan_ok r -> TrimSpace reason <> "" ->
  calm (circuit_of ws) -> unobserved ws ->
  exists ws2, WR_State r2 = Some ws2 /\ WR_Workflow r2 = true /\ WR_Plan r2 = WR_Plan r /\ yielded (TrimSpace reason) ws ws2.
Proof.
  intros Hy Hw Hf Hp Hreason Hcalm Hun. revert Hy. unfold yieldWorkflowRun, ensureWorkflowState. rewrite Hw.
  pose proof (EnsureBudget_core now ws) as C0. destruct (EnsureBudget now ws) as [w0 b0]. cbn [fst] in C0 |- *. cbv zeta.
  case_decide; [done|]. intros [= <-]. set (w1 := ws_set_yield true (TrimSpace reason) (ClearTerminal w0)).
  assert (same_core ws w1) as C1 by (etrans; [exact C0|by constructor]).
  assert (WS_YieldReason w1 = TrimSpace reason) as Hy1 by done. clearbody w1.
  set (ids := match WR_Plan r with Some p => sync_ids p (WS_CompletedTaskIDs w1) | None => WS_CompletedTaskIDs w1 end).
  set (w2 := ws_set_completed ids w1).
  assert (syncWorkflowCompletedTaskIDs (run_set_workflow (Some w1) r) = run_set_workflow (Some w2) r) as ->.
  { unfold syncWorkflowCompletedTaskIDs, w2, ids. cbn. destruct (WR_Plan r); [done|by destruct w1]. }
  unfold observeWorkflowContinuationOutcome. cbn [WR_State run_set_workflow WR_Workflow]. rewrite Hf.
  pose proof (ensure_set_core now w2) as Hs. pose proof (policy_of_now now w2) as [P1 _]. assert (WS_YieldReason (EnsureBudget now w2).1 = TrimSpace reason) as Hyr by exact Hy1.
  destruct (EnsureBudget now w2) as [w3 b3]. cbn [fst snd] in Hs, P1, Hyr. cbv zeta in Hs.
  set (b4 := bs_set_usage _ b3). specialize (Hs b4 eq_refl eq_refl eq_refl) as [S1 S2 S3 S4 S5 S6]. set (w4 := ws_set_budget b4 w3) in *.
  destruct C1 as [D1 D2 D3 D4 D5 D6].
  assert (circuit_of w4 = circuit_of ws) as Hc by (rewrite S3; exact D3).
  assert (last_of w4 = last_of ws) as Hl by (rewrite S4; exact D4).
  destruct (observation_spec now w4 b4) as (b5 & -> & E1 & E2 & O1 & O2 & O3 & O4); [done|by rewrite <- Hc in Hcalm| |].
  { apply unobserved_spec; [done|]. unfold unobserved. rewrite Hc, Hl, S1. cbn. rewrite D1. exact Hun. }
  exists (ws_set_budget b5 w4). split_and!; [done..|].
  assert (policy_of (ws_set_budget b5 w4) = policy_of w4 /\ max_of (ws_set_budget b5 w4) = max_of w4) as [Q1 Q2].
  { unfold policy_of, max_of, EnsureBudget, w4. cbn. by rewrite E1. }
  assert (policy_of w4 = policy_of ws) as Hpol by (rewrite S5; exact D5).
  assert (WS_CompletedTaskIDs w4 = ids) as Hids by exact S2.
  assert (BU_CompletedTaskCount (BS_Usage b4) = Z.of_nat (length ids)) as Hcount.
  { unfold b4, completed_tasks. cbn [bs_set_usage BS_Usage bu_set_tasks BU_CompletedTaskCount WR_Plan run_set_workflow].
    change (WS_CompletedTaskIDs w3) with (WS_CompletedTaskIDs w4). rewrite Hids. unfold ids, plan_ok in *.
    destruct (WR_Plan r) as [p|]; [|done]. pose proof (completed_length p (WS_CompletedTaskIDs w1) Hp). lia. }
  assert (last_of (ws_set_budget b5 w4) = Z.of_nat (length ids)) as Hlast by (rewrite <- Hcount; exact E2).
  assert (BS_Policy b4 = policy_of ws) as Hpb by (rewrite <- Hpol, S5; exact P1).
  constructor.
  - etrans; [exact S1|exact D1].
  - by rewrite Q1.
  - rewrite Q2, S6. exact D6.
  - change (WS_CompletedTaskIDs (ws_set_budget b5 w4)) with (WS_CompletedTaskIDs w4). rewrite Hids, <- D2. unfold ids.
    destruct (WR_Plan r) as [p|]; [|done]. apply prefix_length, (sync_ids_spec p).
  - change (WS_CompletedTaskIDs (ws_set_budget b5 w4)) with (WS_CompletedTaskIDs w4). by rewrite Hids.
  - etrans; [exact O1|]. etrans; [exact S1|exact D1].
  - etrans; [exact O2|]. rewrite Hlast, <- Hl, <- Hcount, <- Hc. unfold count_no_progress. change (last_of w4) with (BU_LastCompletedTaskCount (BS_Usage b4)).
    change (circuit_of w4) with (BS_Circuit b4). case_match; [done|]. rewrite (bool_decide_eq_true_2 (TrimSpace _ <> "")); [by rewrite orb_true_r|].
    change (WS_YieldReason w4) with (WS_YieldReason w3). by rewrite Hyr, TrimSpace_idem.
  - etrans; [exact O3|]. unfold count_repeated. change (WS_YieldReason w4) with (WS_YieldReason w3).
    rewrite Hyr, TrimSpace_idem, <- Hc. by rewrite decide_False.
  - rewrite <- Hpb. exact O4.
Qed.

(** *** Admission and the continuation *)

Lemma resync_records_last recs u : BU_LastCompletedTaskCount (foldl resync_record u recs) = BU_LastCompletedTaskCount u.
Proof.
  revert u. induction recs as [|rec recs IH]; intros u; cbn [foldl]; [done|]. rewrite IH. unfold resync_record. by case_decide.
Qed.

Lemma resync_core records now r ws : WR_State r = Some ws ->
  exists ws', resyncWorkflowBudgetUsage records now r = run_set_workflow (Some ws') r /\ same_core ws ws'.
Proof.
  intros Hw. assert (r = run_set_workflow (Some ws) r) as Hr by (destruct r; cbn in *; by rewrite <- Hw).
  unfold resyncWorkflowBudgetUsage. destruct records as [recs|]; [|by exists ws]. rewrite Hw. case_decide; [by exists ws|].
  pose proof (ensure_set_core now ws) as Hs. destruct (EnsureBudget now ws) as [w b]. cbn [fst snd] in Hs.
  eexists. split; [reflexivity|]. apply Hs; [done..|]. cbn. by rewrite resync_records_last.
Qed.

Lemma BudgetStopReason_index now ws b :
  WS_Budget ws = Some b -> BudgetStopReason now ws = "" -> 0 < BP_HardContinuations (BS_Policy b) ->
  WS_ContinuationIndex ws < BP_HardContinuations (BS_Policy b).
Proof.
  intros Hb. unfold BudgetStopReason. rewrite Hb. cbn [fmap option_fmap option_map from_option]. unfold hard_limit. intros Hs Hpos.
  rewrite (proj2 (Z.ltb_lt _ _) Hpos) in Hs. revert Hs. rewrite (proj2 (Z.ltb_lt _ _) Hpos). cbn [andb].
  destruct (_ <=? _) eqn:E; [done|]. intros _. by apply Z.leb_gt.
Qed.

Lemma fold_open : EqualFold (TrimSpace workflowCircuitStateOpen) "open" = true.
Proof. rewrite EqualFold_ascii by reflexivity. reflexivity. Qed.

Lemma admit_spec records now r ws r' :
  admitWorkflowContinuation records now r = (r', true) -> WR_State r = Some ws ->
  exists ws', r' = run_set_workflow (Some ws') r /\ same_core ws ws' /\ CB_State (circuit_of ws) <> workflowCircuitStateOpen
    /\ (0 < BP_HardContinuations (policy_of ws) -> WS_ContinuationIndex ws < BP_HardContinuations (policy_of ws)).
Proof.
  intros Ha Hw. revert Ha. unfold admitWorkflowContinuation. destruct (resync_core records now r ws Hw) as (w1 & -> & C1).
  cbn [WR_State run_set_workflow]. pose proof (ensure_set_core now w1) as Hs. pose proof (EnsureBudget_core now w1) as C2.
  pose proof (policy_of_now now w1) as [P1 _]. pose proof (EnsureBudget_budget now w1) as B1.
  destruct (EnsureBudget now w1) as [w2 b]. cbn [fst snd] in *. cbv zeta in Hs.
  set (b1 := if _ || _ || _ then b else _).
  assert (BS_Policy b1 = BS_Policy b /\ BS_Circuit b1 = BS_Circuit b /\ BS_Usage b1 = BS_Usage b) as (K1 & K2 & K3).
  { unfold b1. by destruct (_ || _ || _). }
  clearbody b1.
  destruct (admission_reason now (ws_set_budget b1 w2) b1) as [reason|] eqn:Er; [done|]. intros [= <-].
  exists (ws_set_budget (bs_set_stop "" b1) w2). split; [done|]. split_and!.
  - etrans; [exact C1|]. apply Hs; cbn; [exact K1|exact K2|by rewrite K3].
  - intros Ho. revert Er. unfold admission_reason.
    assert (BS_Circuit b1 = circuit_of ws) as ->.
    { rewrite K2, <- (sc_circuit _ _ C1), <- (sc_circuit _ _ C2). unfold circuit_of. by rewrite B1. }
    by rewrite Ho, fold_open.
  - intros Hpos. rewrite <- (sc_policy _ _ C1), <- P1 in Hpos |- *. rewrite <- (sc_index _ _ C1), <- (sc_index _ _ C2). revert Er.
    unfold admission_reason. destruct (EqualFold _ "open"); [done|]. destruct (EqualFold _ "half_open"); [done|].
    case_decide as Hst; [done|]. intros _. rewrite <- K1 in Hpos |- *.
    by apply (BudgetStopReason_index now (ws_set_budget b1 w2) b1).
Qed.

Lemma continuation_plan_ids p : Task_ID <$> Plan_Tasks (clonePlanForContinuation p) = Task_ID <$> Plan_Tasks p.
Proof. cbn. rewrite <- list_fmap_compose. apply list_fmap_ext. intros i t _. unfold compose, requeue. by case_decide. Qed.

(** A continuation has the next index and inherits the rest. *)
Record continuation_of (ws wc : WorkflowState) : Prop := {
  co_index : WS_ContinuationIndex wc = wrap64 (WS_ContinuationIndex ws + 1);
  co_ids : WS_CompletedTaskIDs wc = WS_CompletedTaskIDs ws;
  co_circuit : circuit_of wc = circuit_of ws;
  co_last : last_of wc = last_of ws;
  co_policy : policy_of wc = policy_of ws;
  co_max : max_of wc = max_of ws }.

Lemma build_spec now parent ws : continuation_of ws (buildContinuationWorkflowState now parent ws).
Proof.
  unfold buildContinuationWorkflowState. pose proof (EnsureBudget_core now ws) as [C1 C2 C3 C4 C5 C6].
  pose proof (EnsureBudget_budget now ws) as B. destruct (EnsureBudget now ws) as [w b]. cbn [fst snd] in *.
  match goal with |- context [EnsureBudget now ?x] => set (st := x); pose proof (EnsureBudget_core now st) as [D1 D2 D3 D4 D5 D6] end.
  assert (circuit_of st = circuit_of w /\ last_of st = last_of w) as [E3 E4] by (unfold circuit_of, last_of; by rewrite B).
  assert (policy_of st = policy_of w /\ max_of st = max_of w) as [E5 E6].
  { destruct w as [? ? ? ? ? ? ? ? ? ? ? bo]. cbn in B. subst bo. done. }
  constructor; [etrans; [exact D1|]; cbn; by rewrite C1|etrans; [exact D2|exact C2]|congruence..].
Qed.

Lemma dispatch_spec records now submitted r ws r' child :
  checkAndDispatchWorkflowContinuation records now submitted r = (r', Some child) -> WR_State r = Some ws -> 0 <= WS_ContinuationIndex ws ->
  exists wc, WR_State child = Some wc /\ WR_Workflow child = true /\ (plan_ok r -> plan_ok child) /\ continuation_of ws wc
    /\ WS_ContinuationIndex ws < max_of ws /\ CB_State (circuit_of ws) <> workflowCircuitStateOpen
    /\ (0 < BP_HardContinuations (policy_of ws) -> WS_ContinuationIndex ws < BP_HardContinuations (policy_of ws)).
Proof.
  intros Hd Hw H0. revert Hd. unfold checkAndDispatchWorkflowContinuation. rewrite Hw.
  destruct (NeedsContinuation ws) eqn:Hn; [|done]. cbn [negb].
  destruct (admitWorkflowContinuation records now r) as [r1 []] eqn:Ha; [|done]. cbn [negb].
  destruct (admit_spec _ _ _ _ _ Ha Hw) as (ws1 & -> & [C1 C2 C3 C4 C5 C6] & Ho & Hh).
  destruct submitted as [id|]; [|done]. unfold createContinuationRun. cbn [WR_State run_set_workflow]. intros [= _ <-].
  destruct (build_spec now (run_set_workflow (Some ws1) r) ws1) as [D1 D2 D3 D4 D5 D6].
  eexists. split; [done|]. split; [done|]. split_and!.
  - unfold plan_ok. cbn. destruct (WR_Plan r) as [p|]; [|done]. cbn [fmap option_fmap option_map]. by rewrite continuation_plan_ids.
  - constructor; [by rewrite D1, C1|congruence..].
  - unfold NeedsContinuation in Hn. apply andb_true_iff in Hn as [_ Hlt%Z.ltb_lt].
    pose proof (EnsureBudget_spec 0 ws) as Hs. unfold max_of. destruct (EnsureBudget 0 ws) as [w b]. cbn [fst]. destruct Hs as (_ & _ & -> & _).
    unfold hard_of at 1. rewrite (proj2 (Z.leb_gt _ _)) by lia. done.
  - done.
  - done.
Qed.

(** *** Chains *)

(** A run works, yields and is continued. *)
Definition continues (reason : string) (r child : WorkflowRun) : Prop :=
  exists r1 r2 r3 now1 records now2 submitted, rtc work_step r r1 /\ yieldWorkflowRun now1 reason r1 = inr r2
    /\ checkAndDispatchWorkflowContinuation records now2 submitted r2 = (r3, Some child).

(** The reasons of the yields in a chain of continuations. *)
Inductive chain (r : WorkflowRun) : list string -> WorkflowRun -> Prop :=
  | ChainStart : chain r [] r
  | ChainNext reasons r1 reason r2 : chain r reasons r1 -> continues reason r1 r2 -> chain r (reasons ++ [reason]) r2.

(** The first run of a workflow. *)
Definition fresh (r : WorkflowRun) (ws : WorkflowState) : Prop :=
  WR_State r = Some ws /\ WR_Workflow r = true /\ plan_ok r /\ WS_ContinuationIndex ws = 0 /\ WS_CompletedTaskIDs ws = []
  /\ circuit_of ws = zero_circuit /\ last_of ws = 0 /\ in_int64 (max_of ws).

(** The state of the run that a chain has reached. *)
Record reached (ws0 ws : WorkflowState) (reasons : list string) : Prop := {
  re_index : WS_ContinuationIndex ws = Z.of_nat (length reasons);
  re_policy : policy_of ws = policy_of ws0;
  re_max : max_of ws = max_of ws0;
  re_calm : calm (circuit_of ws);
  re_unobserved : unobserved ws;
  re_last : last_of ws = Z.of_nat (length (WS_CompletedTaskIDs ws));
  re_bound : Z.of_nat (length reasons) <= Z.max 0 (max_of ws0);
  re_hard : let h := BP_HardContinuations (policy_of ws0) in 0 < h -> Z.of_nat (length reasons) <= h;
  re_progress : let k := CP_MaxNoProgressContinuations (BP_Circuit (policy_of ws0)) in 0 < k < max_int64 ->
    0 <= CB_NoProgressContinuations (circuit_of ws) <= k
    /\ Z.of_nat (length reasons) <= (k + 1) * last_of ws + CB_NoProgressContinuations (circuit_of ws);
  re_repeated : let m := CP_MaxRepeatedYieldReason (BP_Circuit (policy_of ws0)) in
    forall rho, 0 < m < max_int64 -> Forall (fun r => TrimSpace r = rho) reasons ->
    CB_RepeatedYieldReasonCount (circuit_of ws) = Z.of_nat (length reasons) /\ Z.of_nat (length reasons) <= m
    /\ CB_LastObservedYieldReason (circuit_of ws) = match reasons with [] => "" | _ => rho end }.

Lemma reached_start ws0 : WS_ContinuationIndex ws0 = 0 -> WS_CompletedTaskIDs ws0 = [] -> circuit_of ws0 = zero_circuit -> last_of ws0 = 0 ->
  reached ws0 ws0 [].
Proof.
  intros Hi Hids Hc Hl. constructor; rewrite ?Hc, ?Hl, ?Hids; cbn [zero_circuit CB_NoProgressContinuations length Z.of_nat]; try done; try lia.
  - by left.
  - right. by rewrite Hc, Hl.
  - intros rho Hm _. split_and!; [done|lia|done].
Qed.

Lemma core_keeps_run ws ws' : same_core ws ws' -> (calm (circuit_of ws) -> calm (circuit_of ws')) /\ (unobserved ws -> unobserved ws').
Proof. intros [H1 H2 H3 H4 H5 H6]. unfold unobserved. by rewrite H3, H4, H1. Qed.

(** One more continuation.  [ws1] is the state when the run yields. *)
Lemma reached_next ws0 ws ws1 ws2 wc reasons reason :
  in_int64 (max_of ws0) -> reached ws0 ws reasons -> same_core ws ws1 -> TrimSpace reason <> "" -> yielded (TrimSpace reason) ws1 ws2 ->
  continuation_of ws2 wc -> WS_ContinuationIndex ws2 < max_of ws2 -> CB_State (circuit_of ws2) <> workflowCircuitStateOpen ->
  (0 < BP_HardContinuations (policy_of ws2) -> WS_ContinuationIndex ws2 < BP_HardContinuations (policy_of ws2)) ->
  reached ws0 wc (reasons ++ [reason]).
Proof.
  intros Hint [R1 R2 R3 R4 R5 R6 R7 R8 R9 R10] [C1 C2 C3 C4 C5 C6] Hne [Y1 Y2 Y3 Y4 Y5 Y6 Y7 Y8 Y9] [D1 D2 D3 D4 D5 D6] Hmax Hopen Hhard.
  destruct Y9 as [Y9|(Y9 & Ynp & Yrep)]; [done|].
  rewrite Y2, C5, R2 in Hhard. rewrite C5, R2 in Ynp, Yrep. rewrite Y3, C6, R3 in Hmax. rewrite Y1, C1, R1 in Hmax, Hhard, D1.
  assert (wrap64 (Z.of_nat (length reasons) + 1) = Z.of_nat (length reasons) + 1) as Hw
    by (apply wrap64_id; destruct Hint; unfold in_int64, min_int64, max_int64 in *; lia).
  assert (Z.of_nat (length (reasons ++ [reason])) = Z.of_nat (length reasons) + 1) as Hlen by (rewrite length_app; cbn; lia).
  constructor; rewrite ?Hlen, ?D3.
  - by rewrite D1.
  - congruence.
  - congruence.
  - by right.
  - left. rewrite D3, D1, Hw, Y6, C1, R1. lia.
  - by rewrite D4, D2.
  - lia.
  - cbv zeta. lia.
  - cbv zeta. intros Hk. destruct (R9 Hk) as [N1 N2]. rewrite D4, Y7, C3, C4. rewrite Y7, C3, C4 in Ynp.
    assert (wrap64 (CB_NoProgressContinuations (circuit_of ws) + 1) = CB_NoProgressContinuations (circuit_of ws) + 1) as Hw2
      by (apply wrap64_id; unfold in_int64, min_int64, max_int64 in *; lia).
    assert (last_of ws <= last_of ws2) by (rewrite Y5, R6, <- C2; lia).
    revert Ynp. unfold workflowCircuitNoProgressTrips. rewrite (proj2 (Z.ltb_lt _ _) (proj1 Hk)). cbn [andb]. intros Hle%Z.ltb_ge. revert Hle.
    destruct (last_of ws <? last_of ws2) eqn:E; [apply Z.ltb_lt in E|apply Z.ltb_ge in E; rewrite Hw2]; nia.
  - cbv zeta. intros rho Hm Hall. apply Forall_app in Hall as [Hall [Hr _]%Forall_cons].
    destruct (R10 rho Hm Hall) as (M1 & M2 & M3). rewrite C3, M1 in Y8.
    assert ((CB_RepeatedYieldReasonCount (circuit_of ws2), CB_LastObservedYieldReason (circuit_of ws2)) = (Z.of_nat (length reasons) + 1, rho)) as E.
    { rewrite Y8, M3. destruct reasons as [|x l].
      - rewrite decide_False by done. by rewrite Hr.
      - rewrite decide_True by (by rewrite <- Hr, TrimSpace_idem). by rewrite Hw. }
    injection E as E1 E2. rewrite E1 in Yrep. rewrite E1, E2. revert Yrep. unfold workflowCircuitRepeatedYieldTrips.
    rewrite (proj2 (Z.ltb_lt _ _) (proj1 Hm)). cbn [andb]. intros Hle%Z.ltb_ge. split_and!; [done|lia|by destruct reasons].
Qed.

Lemma chain_reached r0 ws0 reasons r :
  fresh r0 ws0 -> chain r0 reasons r -> Forall (fun x => TrimSpace x <> "") reasons ->
  exists ws, WR_State r = Some ws /\ WR_Workflow r = true /\ plan_ok r /\ reached ws0 ws reasons.
Proof.
  intros (F1 & F2 & F3 & F4 & F5 & F6 & F7 & F8). induction 1 as [|reasons r reason child _ IH Hc]; intros Hne.
  { exists ws0. split_and!; [done..|by apply reached_start]. }
  apply Forall_app in Hne as [Hne [Hr _]%Forall_cons]. destruct (IH Hne) as (ws & Hw & Hf & Hp & Hre).
  destruct Hc as (r1 & r2 & r3 & now1 & records & now2 & submitted & Hwork & Hy & Hd).
  destruct (works_keep _ _ Hwork) as (W1 & W2 & W3). destruct (W3 ws Hw) as (ws1 & Hw1 & C1).
  destruct (core_keeps_run _ _ C1) as [K1 K2].
  destruct (yield_spec now1 reason r1 ws1 r2 Hy Hw1) as (ws2 & Hw2 & Hf2 & Hp2 & Y);
    [congruence|auto|done|apply K1, (re_calm _ _ _ Hre)|apply K2, (re_unobserved _ _ _ Hre)|].
  assert (0 <= WS_ContinuationIndex ws2) as H0 by (rewrite (y_index _ _ _ Y), (sc_index _ _ C1), (re_index _ _ _ Hre); lia).
  destruct (dispatch_spec _ _ _ _ _ _ _ Hd Hw2 H0) as (wc & Hwc & Hfc & Hpc & Co & Hmax & Hopen & Hhard).
  exists wc. split_and!; [done..| |by eapply reached_next]. apply Hpc. unfold plan_ok. rewrite Hp2. by apply W2.
Qed.

(** C9: a workflow is continued only so often.  However its runs work, whatever
    they use and for whatever reasons they yield: the number of continuations is at
    most the limit of the workflow and the hard limit of its policy; it is at most
    [(k + 1) * done + k], where [done] is the number of completed tasks and [k] the
    number of continuations without progress that the policy permits; and when all
    runs yield for one reason, it is at most the number of repetitions that the
    policy permits. *)
Theorem workflow_chain_bounded r0 ws0 reasons r :
  fresh r0 ws0 -> chain r0 reasons r -> Forall (fun x => TrimSpace x <> "") reasons ->
  let n := Z.of_nat (length reasons) in
  let p := policy_of ws0 in
  let k := CP_MaxNoProgressContinuations (BP_Circuit p) in
  let m := CP_MaxRepeatedYieldReason (BP_Circuit p) in
  exists ws, WR_State r = Some ws /\ WS_ContinuationIndex ws = n
    /\ n <= Z.max 0 (max_of ws0) /\ (0 < BP_HardContinuations p -> n <= BP_HardContinuations p)
    /\ (0 < k < max_int64 -> n <= (k + 1) * Z.of_nat (length (WS_CompletedTaskIDs ws)) + k)
    /\ (0 < m < max_int64 -> forall rho, Forall (fun x => TrimSpace x = rho) reasons -> n <= m).
Proof.
  intros Hf Hc Hne. cbv zeta. destruct (chain_reached _ _ _ _ Hf Hc Hne) as (ws & Hw & _ & _ & Hre). exists ws.
  split_and!; [done|apply Hre|apply Hre|apply Hre| |].
  - intros Hk. destruct (re_progress _ _ _ Hre Hk) as [N1 N2]. rewrite (re_last _ _ _ Hre) in N2. lia.
  - intros Hm rho Hall. by apply (re_repeated _ _ _ Hre rho).
Qed.
End Chain.

(** ** Examples *)

Section Examples.
#[local] Existing Instance ascii_unicode.
#[local] Instance plain_float_text : GoFloatText := {| Fixed2 _ := "n" |}.

Definition demo_task (id : string) (st : TaskStatus) : Task := mkTask id id TaskExecute id [] [] [] [] st "" "".

(** A plan of four tasks, the first [n] of them done. *)
Definition demo_plan (n : nat) : Plan :=
  mkPlan "g" "" StrategySerial FailFast
    (imap (fun i id => demo_task id (if decide (i < n)%nat then TaskCompleted else TaskQueued)) ["a"; "b"; "c"; "d"]) "d" [] "" [].

Definition demo_run : WorkflowRun := (ensureWorkflowState 5 (mkWorkflowRun "run-1" true (Some (demo_plan 0)) 0 None)).1.

(** One run: it starts a round, completes a task and yields; the result of the
    dispatch. *)
Definition demo_stage (done : nat) (id : string) (r : WorkflowRun) : WorkflowRun * option WorkflowRun :=
  let r := trackWorkflowExecutionRound 10 r in
  match yieldWorkflowRun 20 YieldReasonRoundBudget (mkWorkflowRun (WR_ID r) (WR_Workflow r) (Some (demo_plan done)) 3 (WR_State r)) with
  | inl _ => (r, None)
  | inr r => checkAndDispatchWorkflowContinuation None 30 (Some id) r
  end.

Lemma demo_continues done id r child :
  NoDup (Task_ID <$> Plan_Tasks (demo_plan done)) -> (demo_stage done id r).2 = Some child -> continues YieldReasonRoundBudget r child.
Proof.
  intros Hnd. unfold demo_stage. set (r1 := trackWorkflowExecutionRound 10 r).
  set (r2 := mkWorkflowRun (WR_ID r1) (WR_Workflow r1) (Some (demo_plan done)) 3 (WR_State r1)).
  destruct (yieldWorkflowRun 20 YieldReasonRoundBudget r2) as [|r3] eqn:Hy; [done|].
  destruct (checkAndDispatchWorkflowContinuation None 30 (Some id) r3) as [r4 o] eqn:Hd. cbn. intros ->.
  exists r2, r3, r4, 20, None, 30, (Some id). split_and!; [|done..].
  eapply rtc_l; [apply (WorkRound r 10)|]. by apply rtc_once, WorkPlan.
Qed.

Definition child_of (x : WorkflowRun * option WorkflowRun) : WorkflowRun := default x.1 x.2.

Definition demo_second : WorkflowRun := child_of (demo_stage 1 "run-2" demo_run).
Definition demo_third : WorkflowRun := child_of (demo_stage 2 "run-3" demo_second).

Lemma workflow_chain_bounded_witness :
  exists ws0 ws, fresh demo_run ws0 /\ WR_State demo_third = Some ws /\ WS_ContinuationIndex ws = 2 /\ WS_CompletedTaskIDs ws = ["a"; "b"]
    /\ 2 <= BP_HardContinuations (policy_of ws0).
Proof.
  assert (exists ws0, WR_State demo_run = Some ws0) as [ws0 Hw0] by (eexists; reflexivity).
  assert (fresh demo_run ws0) as Hf.
  { injection Hw0 as <-. split_and!; try (vm_compute; reflexivity).
    - cbn. repeat (constructor; [set_solver|]). constructor.
    - vm_compute. split; discriminate. }
  assert (chain demo_run [YieldReasonRoundBudget; YieldReasonRoundBudget] demo_third) as Hc.
  { apply (ChainNext _ [YieldReasonRoundBudget] demo_second); [apply (ChainNext _ [] demo_run); [constructor|]|].
    - apply (demo_continues 1 "run-2"); [cbn; repeat (constructor; [set_solver|]); constructor|vm_compute; reflexivity].
    - apply (demo_continues 2 "run-3"); [cbn; repeat (constructor; [set_solver|]); constructor|vm_compute; reflexivity]. }
  destruct (workflow_chain_bounded demo_run ws0 [YieldReasonRoundBudget; YieldReasonRoundBudget] demo_third Hf Hc) as (ws & Hw & Hi & _ & Hh & _).
  { repeat constructor; done. }
  exists ws0, ws. split; [exact Hf|]. split; [exact Hw|]. split; [exact Hi|]. split.
  - assert (WS_CompletedTaskIDs <$> WR_State demo_third = Some ["a"; "b"]) as E by (vm_compute; reflexivity). rewrite Hw in E. by injection E.
  - apply Hh. injection Hw0 as <-. vm_compute. reflexivity.
Defined.

(** Progress does not help against the rule on repeated reasons: a workflow that
    completes a task in every run and yields at the end of its rounds is stopped
    after its second continuation, although the default policy permits ten. *)
Theorem steady_progress_stopped :
  let last := demo_stage 3 "run-4" demo_third in
  let ws := WR_State last.1 in
  last.2 = None /\ (length ∘ WS_CompletedTaskIDs) <$> ws = Some 3%nat
  /\ (fun w => CB_NoProgressContinuations (circuit_of w)) <$> ws = Some 0
  /\ WS_TerminalReason <$> ws = Some "workflow auto-continuation stopped: repeated yield_reason=round_budget"
  /\ BP_HardContinuations DefaultWorkflowBudgetPolicy = 10.
Proof. cbv zeta. split_and!; vm_compute; reflexivity. Qed.
End Examples.
