(* ===== verification/Hooks.v ===== *)
(** * Hooks: definitions, catalog, filters and store ([hooks/types.go],
    [hooks/catalog.go], [hooks/filter.go], [hooks/store.go])

    A hook is a callback of the user that fires on an event, in a phase, when its
    filter matches the payload. *)
From S2P Require Import Prelude GoLib GoText GoClock GoFloat.
From stdpp Require Import sorting pretty.
From Stdlib Require Import Ascii.
Import Str GoTime GoInt Text.

Local Open Scope Z_scope.

(** ** Data *)

Definition HookPhasePre : string := "pre".
Definition HookPhasePost : string := "post".
Definition HookPhaseError : string := "error".

Definition KindHTTP : string := "http".
Definition KindCommand : string := "command".

Definition defaultHookPriority : Z := 100.

Record Hook := mkHook {
  H_ID : string; H_Name : string; H_Enabled : bool; H_Source : string; H_SourceRef : string; H_Trigger : string; H_Kind : string;
  H_Priority : Z; H_Phase : string; H_Filter : string; H_URL : string; H_Command : string; H_Headers : gmap string string; H_Timeout : Z; H_RetryCount : Z;
  H_Async : bool; H_Secret : string; H_AutomationID : string; H_CreatedAt : Time }.

Definition EffectivePriority (h : Hook) : Z := if decide (H_Priority h = 0) then defaultHookPriority else H_Priority h.
Definition EffectivePhase (h : Hook) : string := if decide (H_Phase h = "") then HookPhasePost else H_Phase h.

(** ** Payloads *)

(** A value of a payload, by its dynamic type, a map with its entries in the order
    of the keys; a [PStringer] is a value with a
    [String] method whose encoding is not an object, such as a time. *)
Inductive PValue :=
  | PNil
  | PBool (b : bool)
  | PFloat64 (x : float64)
  | PFloat32 (x : float64)
  | PInt (z : Z)
  | PInt64 (z : Z)
  | PString (s : string)
  | PStringer (s : string)
  | PBytes (s : string)
  | PSlice (l : list PValue)
  | PMap (m : list (string * PValue))
  | PRef (automationID : string)
  | PContext (sessionID runID toolName phase : string) (triggerTime : Time) (payload : list (string * PValue)).

Abbreviation Payload := (gmap string PValue).

(** [fmt.Sprintf("%v", value)] and [strconv.ParseFloat(text, 64)]. *)
Class GoValueText := {
  SprintValue : PValue -> string;
  SprintValue_string s : SprintValue (PString s) = s;
  ParseFloat64 : string -> option float64
}.

(** ** Scopes ([internal/domain/scope]) *)

(** Decoding an object into a [Ref]: the last entry that names the field, in the
    order of the keys, gives the value; an entry of another type is an error, and
    a null changes nothing. *)
Fixpoint decode_ref `{GoUnicode} (m : list (string * PValue)) (id : string) : option string :=
  match m with
  | [] => Some id
  | (k, v) :: rest =>
    if EqualFold k "automation_id" then
      match v with
      | PString s => decode_ref rest s
      | PNil => decode_ref rest id
      | _ => None
      end
    else decode_ref rest id
  end.

(** [FromValue]: the automation that a scope names, in its normal form. *)
Definition FromValue `{GoUnicode} (v : option PValue) : string :=
  match v with
  | Some (PRef id) => TrimSpace id
  | Some (PMap m) => TrimSpace (default "" (decode_ref m ""))
  | _ => ""
  end.

Definition hookPayloadScope `{GoUnicode} (payload : Payload) : string := FromValue (payload !! "scope").

Definition MatchesScope (h : Hook) (scope : string) : bool :=
  let hookScope := TrimSpace (H_AutomationID h) in
  let scope := TrimSpace scope in
  if decide (hookScope = "") then true else if decide (scope = "") then false else bool_decide (hookScope = scope).

(** ** The catalog *)

Record EventSpec := mkEventSpec {
  ES_Trigger : string; ES_Category : string; ES_AllowedPhases : list string; ES_CanBlock : bool; ES_SupportsAsync : bool }.

Definition observer (trigger category : string) (phases : list string) : EventSpec := mkEventSpec trigger category phases false true.
Definition blocker (trigger category : string) : EventSpec := mkEventSpec trigger category [HookPhasePre] true false.

Definition eventCatalog : list EventSpec :=
  [ observer "run.completed" "run" [HookPhasePost]; observer "run.failed" "run" [HookPhaseError];
    mkEventSpec "tool.executed" "tool" [HookPhasePre; HookPhasePost; HookPhaseError] true true;
    observer "session.created" "session" [HookPhasePost]; observer "startup" "system" [HookPhasePost];
    observer "shutdown" "system" [HookPhasePost]; blocker "before.model_resolve" "model"; blocker "before.prompt_build" "model";
    blocker "before.agent_start" "agent"; observer "after.agent_end" "agent" [HookPhasePost; HookPhaseError];
    blocker "before.tool_call" "tool"; observer "after.tool_call" "tool" [HookPhasePost; HookPhaseError];
    observer "message.received" "message" [HookPhasePost]; blocker "message.sending" "message";
    observer "message.sent" "message" [HookPhasePost; HookPhaseError]; observer "session.end" "session" [HookPhasePost];
    observer "approval.requested" "approval" [HookPhasePost]; observer "approval.resolved" "approval" [HookPhasePost];
    observer "approval.timed_out" "approval" [HookPhasePost]; observer "approval.grace_warning" "approval" [HookPhasePost];
    observer "governance.delivery.queued" "governance" [HookPhasePost];
    observer "governance.delivery.retry_scheduled" "governance" [HookPhasePost];
    observer "governance.delivery.delivered" "governance" [HookPhasePost];
    observer "governance.delivery.dead_lettered" "governance" [HookPhasePost];
    observer "governance.delivery.redriven" "governance" [HookPhasePost] ].

Definition LookupEventSpec (trigger : string) : option EventSpec := find (fun s => bool_decide (ES_Trigger s = trigger)) eventCatalog.

Inductive HookError :=
  | ErrHookNotFound (id : string) | ErrTriggerRequired | ErrUnsupportedTrigger (trigger : string)
  | ErrUnsupportedPhase (trigger phase : string) (allowed : list string) | ErrAsyncPre (trigger phase : string)
  | ErrURLRequired | ErrCommandRequired | ErrKindRequired | ErrUnsupportedKind (kind : string) | ErrNoReplayPayload.

Definition validateHookPhaseForSpec (spec : EventSpec) (phase : string) : option HookError :=
  if decide (phase ∈ ES_AllowedPhases spec) then None else Some (ErrUnsupportedPhase (ES_Trigger spec) phase (ES_AllowedPhases spec)).

Definition ValidateHookInvocation (trigger phase : string) : option HookError :=
  match LookupEventSpec trigger with
  | None => Some (ErrUnsupportedTrigger trigger)
  | Some spec => validateHookPhaseForSpec spec phase
  end.

Definition ValidateHookDefinition (h : Hook) : option HookError :=
  let trigger := TrimSpace (H_Trigger h) in
  if decide (trigger = "") then Some ErrTriggerRequired
  else match LookupEventSpec trigger with
       | None => Some (ErrUnsupportedTrigger trigger)
       | Some spec =>
         let phase := EffectivePhase h in
         match validateHookPhaseForSpec spec phase with
         | Some e => Some e
         | None =>
           if H_Async h && bool_decide (phase = HookPhasePre) then Some (ErrAsyncPre trigger phase)
           else if decide (H_Kind h = KindHTTP) then if decide (TrimSpace (H_URL h) = "") then Some ErrURLRequired else None
           else if decide (H_Kind h = KindCommand) then if decide (TrimSpace (H_Command h) = "") then Some ErrCommandRequired else None
           else if decide (H_Kind h = "") then Some ErrKindRequired
           else Some (ErrUnsupportedKind (H_Kind h))
         end
       end.

(** ** Filters *)

Definition orderedOps : list string := [">="; "<="; "!="; "=="; ">"; "<"; "contains"].

Definition str_after (n : nat) (s : string) : string := String.substring n (String.length s - n) s.

Fixpoint parse_ops (ops : list string) (expr : string) : option (string * string * string) :=
  match ops with
  | [] => None
  | op :: rest =>
    match String.index 0 (" " +:+ op +:+ " ") expr with
    | None => parse_ops rest expr
    | Some idx =>
      let field := TrimSpace (String.substring 0 idx expr) in
      let value := TrimSpace (str_after (idx + String.length op + 2) expr) in
      if decide (field = "" \/ value = "") then parse_ops rest expr else Some (field, op, value)
    end
  end.

Definition parseFilter (expr : string) : option (string * string * string) := parse_ops orderedOps expr.

Section Filter.
Context {V : GoValueText}.

Definition compareNumeric (actual : PValue) (op value : string) : bool :=
  match ParseFloat64 value with
  | None => false
  | Some expected =>
    match (match actual with
           | PFloat64 x | PFloat32 x => Some x
           | PInt z | PInt64 z => Some (of_int z)
           | PString s => ParseFloat64 s
           | _ => None
           end) with
    | None => false
    | Some x =>
      if decide (op = ">") then fltb expected x
      else if decide (op = "<") then fltb x expected
      else if decide (op = ">=") then fleb expected x
      else if decide (op = "<=") then fleb x expected
      else false
    end
  end.

Definition EvaluateFilter (filter : string) (payload : Payload) : bool :=
  let filter := TrimSpace filter in
  if decide (filter = "") then true
  else match parseFilter filter with
       | None => false
       | Some (field, op, value) =>
         match payload !! field with
         | None => false
         | Some actual =>
           if decide (op = "==") then bool_decide (SprintValue actual = value)
           else if decide (op = "!=") then bool_decide (SprintValue actual <> value)
           else if decide (op = "contains") then Contains (SprintValue actual) value
           else compareNumeric actual op value
         end
       end.
End Filter.

(** ** The store *)

Record HookStore := mkHookStore { hs_next : N; hs_hooks : gmap string Hook }.

Definition NewHookStore : HookStore := mkHookStore 0 ∅.

(** [fmt.Sprintf("hook-%06d", n)]. *)
Definition hook_id (n : N) : string := "hook-" +:+ padded 6 (Z.of_N n).

Definition HookGet (s : HookStore) (id : string) : HookError + Hook :=
  match hs_hooks s !! id with None => inl (ErrHookNotFound id) | Some h => inr h end.

(** The hook that [Add] stores. *)
Definition added (id : string) (now : Time) (h : Hook) : Hook :=
  mkHook id (H_Name h) (H_Enabled h) (H_Source h) (H_SourceRef h) (H_Trigger h) (H_Kind h) (EffectivePriority h) (EffectivePhase h)
    (H_Filter h) (H_URL h) (H_Command h) (H_Headers h) (H_Timeout h) (H_RetryCount h) (H_Async h) (H_Secret h) (H_AutomationID h)
    (if IsZero (H_CreatedAt h) then now else H_CreatedAt h).

(** The counter is a 64-bit word. *)
Definition HookAdd (s : HookStore) (h : Hook) (now : Time) : HookStore * Hook :=
  let n := ((hs_next s + 1) mod 2 ^ 64)%N in
  let h := added (hook_id n) now h in
  (mkHookStore n (<[H_ID h := h]> (hs_hooks s)), h).

Definition HookUpdate (s : HookStore) (h : Hook) : HookStore * option HookError :=
  match hs_hooks s !! H_ID h with
  | None => (s, Some (ErrHookNotFound (H_ID h)))
  | Some _ => (mkHookStore (hs_next s) (<[H_ID h := h]> (hs_hooks s)), None)
  end.

Definition HookRemove (s : HookStore) (id : string) : HookStore * option HookError :=
  match hs_hooks s !! id with
  | None => (s, Some (ErrHookNotFound id))
  | Some _ => (mkHookStore (hs_next s) (delete id (hs_hooks s)), None)
  end.
