(* ===== verification/HookExecutor.v ===== *)
(** * Hooks: execution ([hooks/executor.go])

    The executor runs the hooks that match an event in the order of their
    priorities, synchronously or in the background, and keeps the last results in
    a circular buffer.  What an attempt of a hook returns is a function of the
    attempts made before, the clock a function of how often it was read.  Hooks in
    the background finish in any order, each by a step of its own. *)
From S2P Require Import Prelude GoLib GoText GoClock GoFloat Hooks.
From stdpp Require Import sorting.
From Stdlib Require Import Ascii.
Import Str GoTime GoInt Text.

Local Open Scope Z_scope.

(** ** Results *)

Definition maxRecentResults : nat := 100.
Definition maxPayloadPreviewKeys : nat := 12.
Definition maxPayloadPreviewStringLen : nat := 180.
Definition resultStatusOK : string := "ok".
Definition resultStatusError : string := "error".
Definition hookContextPayloadKey : string := "_hook_context".

Record HookResult := mkHookResult {
  HR_HookID : string; HR_HookName : string; HR_HookKind : string; HR_TargetLabel : string; HR_Trigger : string; HR_Phase : string;
  HR_Status : string; HR_Duration : Duration; HR_AttemptCount : Z; HR_Async : bool; HR_SessionID : string; HR_RunID : string;
  HR_ToolName : string; HR_PayloadPreview : Payload; HR_Summary : string; HR_Error : string; HR_ExecutedAt : Time;
  HR_replayPayload : Payload }.

Definition zero_result : HookResult := mkHookResult "" "" "" "" "" "" "" 0 0 false "" "" "" ∅ "" "" 0 ∅.

Definition payloadString (payload : Payload) (key : string) : string :=
  match payload !! key with Some (PString s) => s | _ => "" end.

Definition cloneReplayPayload (payload : Payload) : Payload := delete hookContextPayloadKey payload.

(** ** Previews *)

Definition payloadMaskKeyFragments : list string := ["secret"; "token"; "password"; "authorization"; "cookie"; "api_key"; "apikey"].
Definition payloadPreviewPriorityKeys : list string :=
  ["run_id"; "session_id"; "session_key"; "tool_name"; "tool_call_id"; "result_status"; "result_summary"; "error"; "scope"; "status"; "phase"].

(** A byte that [\S] does not match. *)
Definition re_blank (a : ascii) : bool := byte_in 9 10 a || byte_in 12 13 a || byte_is 32 a.

(** The bytes after a maximal run without blanks. *)
Fixpoint skip_word (l : bytes) : bytes :=
  match l with [] => [] | a :: rest => if re_blank a then l else skip_word rest end.

Definition strip_prefix (p : string) (l : bytes) : option bytes :=
  let q := String.list_ascii_of_string p in
  if decide (take (length q) l = q) then Some (drop (length q) l) else None.

(** Whether an address starts here: what follows [http://] or [https://], unless
    nothing but a blank follows. *)
Definition url_rest (l : bytes) : option bytes :=
  match (match strip_prefix "http://" l with Some r => Some r | None => strip_prefix "https://" l end) with
  | Some (a :: rest) => if re_blank a then None else Some rest
  | _ => None
  end.

(** [payloadURLPattern.ReplaceAllString(value, "<url>")]; the fuel is the number of
    bytes. *)
Fixpoint replace_urls (fuel : nat) (l : bytes) : bytes :=
  match fuel, l with
  | S fuel, a :: rest =>
    match url_rest l with
    | Some r => String.list_ascii_of_string "<url>" ++ replace_urls fuel (skip_word r)
    | None => a :: replace_urls fuel rest
    end
  | _, _ => []
  end.

Definition ellipsis : string := String (ascii_of_nat 226) (String (ascii_of_nat 128) (String (ascii_of_nat 166) EmptyString)).

Definition sanitizePayloadString (value : string) : string :=
  let value := TrimSpace value in
  if decide (value = "") then ""
  else
    let l := String.list_ascii_of_string value in
    let value := String.string_of_list_ascii (replace_urls (length l) l) in
    if decide (maxPayloadPreviewStringLen < String.length value)%nat
    then String.substring 0 maxPayloadPreviewStringLen value +:+ ellipsis else value.

Definition count_text (n : nat) (what : string) : string := FormatInt (Z.of_nat n) +:+ what.

Definition masked_key `{GoUnicode} (key : string) : bool :=
  existsb (Contains (ToLower (TrimSpace key))) payloadMaskKeyFragments.

Definition sanitizePayloadValue `{GoUnicode} (key : string) (value : PValue) : PValue :=
  if masked_key key then PString "[redacted]"
  else match value with
       | PString s | PStringer s | PBytes s => PString (sanitizePayloadString s)
       | PMap m => PMap [("_object", PString (count_text (length m) " field(s)"))]
       | PSlice l => PMap [("_array", PString (count_text (length l) " item(s)"))]
       | v => v
       end.

(** The keys of a preview: the known ones first, then the others in order. *)
Definition preview_keys (payload : Payload) : list string :=
  let known := filter (fun k => is_Some (payload !! k)) payloadPreviewPriorityKeys in
  let known := take maxPayloadPreviewKeys known in
  let others := merge_sort String.le (filter (fun k => k ∉ known) (map_to_list payload).*1) in
  known ++ take (maxPayloadPreviewKeys - length known) others.

Definition sanitizePayloadPreview `{GoUnicode} (payload : Payload) : Payload :=
  let keys := preview_keys payload in
  let out := foldl (fun out k => match payload !! k with Some v => <[k := sanitizePayloadValue k v]> out | None => out end) ∅ keys in
  if decide (length keys < size payload)%nat
  then <["_truncated" := PString (count_text (size payload - length keys) " more field(s)")]> out else out.

(** ** Building results *)

Definition hookTargetLabel (h : Hook) : string :=
  if decide (H_Kind h = KindHTTP) then H_URL h else if decide (H_Kind h = KindCommand) then H_Command h else "".

Definition buildHookResultBase `{GoUnicode} (h : Hook) (trigger phase : string) (payload : Payload) (executedAt : Time) : HookResult :=
  let replayPayload := cloneReplayPayload payload in
  mkHookResult (H_ID h) (H_Name h) (H_Kind h) (hookTargetLabel h) trigger phase "" 0 0 (H_Async h && bool_decide (phase <> HookPhasePre))
    (payloadString payload "session_id") (payloadString payload "run_id") (payloadString payload "tool_name")
    (sanitizePayloadPreview replayPayload) "" "" executedAt replayPayload.

Definition dot : string := " " +:+ String (ascii_of_nat 194) (String (ascii_of_nat 183) " ").

Definition buildHookResultSummary (r : HookResult) : string :=
  let part label s := if decide (s = "") then [] else [label +:+ s] in
  Joins (part "" (HR_Trigger r) ++ part "" (HR_Phase r) ++ part "tool " (HR_ToolName r) ++ part "run " (HR_RunID r)
         ++ part "session " (HR_SessionID r) ++ (if decide (0 < HR_Duration r) then [DurationString (HR_Duration r)] else [])) dot.

(** A finished result. *)
Definition finish_result (status : string) (duration : Duration) (error : string) (attempts : Z) (r : HookResult) : HookResult :=
  let r := mkHookResult (HR_HookID r) (HR_HookName r) (HR_HookKind r) (HR_TargetLabel r) (HR_Trigger r) (HR_Phase r) status duration attempts
    (HR_Async r) (HR_SessionID r) (HR_RunID r) (HR_ToolName r) (HR_PayloadPreview r) (HR_Summary r) error (HR_ExecutedAt r)
    (HR_replayPayload r) in
  mkHookResult (HR_HookID r) (HR_HookName r) (HR_HookKind r) (HR_TargetLabel r) (HR_Trigger r) (HR_Phase r) status duration attempts
    (HR_Async r) (HR_SessionID r) (HR_RunID r) (HR_ToolName r) (HR_PayloadPreview r) (buildHookResultSummary r) error (HR_ExecutedAt r)
    (HR_replayPayload r).

(** ** The executor *)

(** An attempt that was made: the hook and the payload that was sent. *)
Record Attempt := mkAttempt { at_hook : Hook; at_payload : Payload }.

(** A hook that runs in the background. *)
Record Job := mkHookJob { job_hook : Hook; job_trigger : string; job_phase : string; job_payload : Payload }.

Record Executor := mkExecutor {
  ex_store : HookStore; ex_results : list HookResult; ex_pos : nat; ex_count : Z;
  ex_inflight : list Job; ex_attempts : list Attempt; ex_reads : nat }.

Definition NewExecutor (store : HookStore) : Executor := mkExecutor store (replicate maxRecentResults zero_result) 0 0 [] [] 0.

Definition recordResult (r : HookResult) (e : Executor) : Executor :=
  mkExecutor (ex_store e) (<[ex_pos e := r]> (ex_results e)) ((ex_pos e + 1) mod maxRecentResults)%nat (wrap64 (ex_count e + 1))
    (ex_inflight e) (ex_attempts e) (ex_reads e).

(** The results from a position backwards. *)
Fixpoint read_back (results : list HookResult) (readPos : nat) (n : nat) : list HookResult :=
  match n with
  | O => []
  | S n => default zero_result (results !! readPos)
           :: read_back results ((readPos + maxRecentResults - 1) mod maxRecentResults)%nat n
  end.

Definition RecentResults (limit : Z) (e : Executor) : list HookResult :=
  let total := if decide (ex_count e > Z.of_nat maxRecentResults) then Z.of_nat maxRecentResults else ex_count e in
  let limit := if decide (limit <= 0 \/ limit > total) then total else limit in
  read_back (ex_results e) ((ex_pos e + maxRecentResults - 1) mod maxRecentResults)%nat (Z.to_nat limit).

Definition RecentResultsByHook (hookID : string) (limit : Z) (e : Executor) : list HookResult :=
  let found := filter (fun r => HR_HookID r = hookID) (RecentResults 0 e) in
  if decide (0 < limit) then take (Z.to_nat limit) found else found.

Definition LatestResultByHook (hookID : string) (e : Executor) : option HookResult := head (RecentResultsByHook hookID 1 e).

Definition CanReplayByHook (hookID : string) (e : Executor) : bool :=
  existsb (fun r => negb (bool_decide (HR_replayPayload r = ∅))) (RecentResultsByHook hookID 0 e).

Section Executor.
Context {U : GoUnicode} {V : GoValueText} {Q : GoQuote}.
(** The error of the last of the attempts made, if it failed. *)
Context (attempt : list Attempt -> option string) (clock : nat -> Time).
(** The order in which Go ranges over the hooks, and [sort.Slice] by priority. *)
Context (map_order : gmap string Hook -> list Hook) (sort_hooks : list Hook -> list Hook).

Definition tick (e : Executor) : Executor * Time :=
  (mkExecutor (ex_store e) (ex_results e) (ex_pos e) (ex_count e) (ex_inflight e) (ex_attempts e) (S (ex_reads e)), clock (ex_reads e)).

(** One attempt; a hook of an unknown kind fails without one. *)
Definition try_hook (h : Hook) (payload : Payload) (e : Executor) : Executor * option string :=
  if decide (H_Kind h = KindHTTP \/ H_Kind h = KindCommand) then
    let attempts := ex_attempts e ++ [mkAttempt h payload] in
    (mkExecutor (ex_store e) (ex_results e) (ex_pos e) (ex_count e) (ex_inflight e) attempts (ex_reads e), attempt attempts)
  else (e, Some ("unsupported hook kind " +:+ Quote (H_Kind h))).

(** The attempts of a hook from the [i]-th on: how many were made, and the last
    error when all failed. *)
Fixpoint try_loop (n i : nat) (h : Hook) (payload : Payload) (lastErr : string) (e : Executor) : Executor * nat * option string :=
  match n with
  | O => (e, i, Some lastErr)
  | S n =>
    match try_hook h payload e with
    | (e, None) => (e, S i, None)
    | (e, Some err) => try_loop n (S i) h payload err e
    end
  end.

Definition hook_attempts (h : Hook) : Z := let n := wrap64 (H_RetryCount h + 1) in if decide (n < 1) then 1 else n.

Definition executeHook (h : Hook) (trigger phase : string) (payload : Payload) (e : Executor) : Executor * HookResult :=
  let '(e, start) := tick e in
  let base := buildHookResultBase h trigger phase payload start in
  let '(e, made, err) := try_loop (Z.to_nat (hook_attempts h)) 0 h payload "" e in
  let '(e, now) := tick e in
  (e, match err with
      | None => finish_result resultStatusOK (Sub now start) "" (Z.of_nat made) base
      | Some text => finish_result resultStatusError (Sub now start) text (hook_attempts h) base
      end).

Definition enrichHookPayload (payload : Payload) (phase : string) (triggerTime : Time) : Payload :=
  <[hookContextPayloadKey := PContext (payloadString payload "session_id") (payloadString payload "run_id") (payloadString payload "tool_name")
      phase triggerTime (map_to_list payload)]> payload.

Definition fireSingleWithTime (h : Hook) (trigger phase : string) (payload : Payload) (forceSync : bool) (triggerTime : Time) (e : Executor) :
    Executor * option HookResult :=
  let enriched := enrichHookPayload payload phase triggerTime in
  if H_Async h && bool_decide (phase <> HookPhasePre) && negb forceSync then
    (mkExecutor (ex_store e) (ex_results e) (ex_pos e) (ex_count e) (ex_inflight e ++ [mkHookJob h trigger phase enriched])
       (ex_attempts e) (ex_reads e), None)
  else
    let '(e, r) := executeHook h trigger phase enriched e in (recordResult r e, Some r).

(** A hook in the background finishes. *)
Definition finish_job (i : nat) (e : Executor) : Executor * list HookResult :=
  match ex_inflight e !! i with
  | None => (e, [])
  | Some j =>
    let e := mkExecutor (ex_store e) (ex_results e) (ex_pos e) (ex_count e) (delete i (ex_inflight e)) (ex_attempts e) (ex_reads e) in
    let '(e, r) := executeHook (job_hook j) (job_trigger j) (job_phase j) (job_payload j) e in (recordResult r e, [r])
  end.

Definition fireSingle (h : Hook) (trigger phase : string) (payload : Payload) (forceSync : bool) (e : Executor) : Executor * HookResult :=
  let '(e, now) := tick e in
  let '(e, r) := fireSingleWithTime h trigger phase payload forceSync now e in (e, default zero_result r).

(** ** Firing an event *)

(** The hooks that an event fires. *)
Definition matches (trigger phase : string) (payload : Payload) (h : Hook) : Prop :=
  H_Enabled h = true /\ H_Trigger h = trigger /\ EffectivePhase h = phase /\ MatchesScope h (hookPayloadScope payload) = true
  /\ (H_Filter h = "" \/ EvaluateFilter (H_Filter h) payload = true).

#[global] Instance matches_dec trigger phase payload h : Decision (matches trigger phase payload h).
Proof. unfold matches. apply _. Defined.

Fixpoint fire_loop (hs : list Hook) (trigger phase : string) (payload : Payload) (now : Time) (e : Executor) : Executor * list HookResult :=
  match hs with
  | [] => (e, [])
  | h :: rest =>
    match fireSingleWithTime h trigger phase payload false now e with
    | (e, None) => fire_loop rest trigger phase payload now e
    | (e, Some r) =>
      if decide (phase = HookPhasePre /\ HR_Status r = resultStatusError) then (e, [r])
      else let '(e, out) := fire_loop rest trigger phase payload now e in (e, r :: out)
    end
  end.

Definition Fire (trigger phase : string) (payload : Payload) (e : Executor) : Executor * list HookResult :=
  let phase := if decide (phase = "") then HookPhasePost else phase in
  let matched := filter (matches trigger phase payload) (map_order (hs_hooks (ex_store e))) in
  match matched with
  | [] => (e, [])
  | _ => let '(e, now) := tick e in fire_loop (sort_hooks matched) trigger phase payload now e
  end.

(** [ListByTrigger] of the store. *)
Definition ListByTrigger (s : HookStore) (trigger phase : string) : list Hook :=
  let phase := if decide (phase = "") then HookPhasePost else phase in
  sort_hooks (filter (fun h => H_Enabled h = true /\ H_Trigger h = trigger /\ EffectivePhase h = phase) (map_order (hs_hooks s))).

(** ** Operator actions *)

Definition FireHook (hookID trigger phase : string) (payload : Payload) (e : Executor) : Executor * (HookError + HookResult) :=
  match HookGet (ex_store e) hookID with
  | inl err => (e, inl err)
  | inr h =>
    let trigger := if decide (trigger = "") then H_Trigger h else trigger in
    let phase := if decide (phase = "") then EffectivePhase h else phase in
    match ValidateHookInvocation trigger phase with
    | Some err => (e, inl err)
    | None => let '(e, r) := fireSingle h trigger phase payload true e in (e, inr r)
    end
  end.

Definition ReplayLatestByHook (hookID : string) (e : Executor) : Executor * (HookError + HookResult) :=
  match HookGet (ex_store e) hookID with
  | inl err => (e, inl err)
  | inr h =>
    match find (fun r => negb (bool_decide (HR_replayPayload r = ∅))) (RecentResultsByHook hookID 0 e) with
    | None => (e, inl ErrNoReplayPayload)
    | Some r =>
      let trigger := if decide (HR_Trigger r = "") then H_Trigger h else HR_Trigger r in
      let phase := if decide (HR_Phase r = "") then EffectivePhase h else HR_Phase r in
      let '(e, r) := fireSingle h trigger phase (HR_replayPayload r) true e in (e, inr r)
    end
  end.
End Executor.

(** ** The buffer *)

(** The buffer of an executor stands for a history, newest result first. *)
Record holds (e : Executor) (h : list HookResult) : Prop := {
  ho_length : length (ex_results e) = maxRecentResults;
  ho_pos : ex_pos e = (length h mod maxRecentResults)%nat;
  ho_count : ex_count e = wrap64 (Z.of_nat (length h));
  ho_entry i r : (i < maxRecentResults)%nat -> h !! i = Some r ->
    ex_results e !! ((length h - 1 - i) mod maxRecentResults)%nat = Some r }.

Lemma holds_new s : holds (NewExecutor s) [].
Proof. by constructor. Qed.

Lemma hook_count_succ z : wrap64 (wrap64 z + 1) = wrap64 (z + 1).
Proof.
  unfold wrap64. f_equal. replace ((z + 2 ^ 63) mod 2 ^ 64 - 2 ^ 63 + 1 + 2 ^ 63) with ((z + 2 ^ 63) mod 2 ^ 64 + 1) by lia.
  rewrite Zplus_mod_idemp_l. f_equal. lia.
Qed.

Lemma mod_back n i : (i < n)%nat -> (i < maxRecentResults)%nat -> (n mod maxRecentResults <> (n - 1 - i) mod maxRecentResults)%nat
  \/ (i = maxRecentResults - 1)%nat.
Proof.
  intros H1 H2. destruct (decide (i = maxRecentResults - 1)%nat) as [->|Hi]; [by right|left]. unfold maxRecentResults in *. intros E.
  pose proof (Nat.div_mod_eq n 100). pose proof (Nat.div_mod_eq (n - 1 - i) 100). rewrite E in *. lia.
Qed.

Lemma holds_record e h r : holds e h -> holds (recordResult r e) (r :: h).
Proof.
  intros [H1 H2 H3 H4]. constructor; cbn [recordResult ex_results ex_pos ex_count length].
  - by rewrite length_insert.
  - rewrite H2, Nat.Div0.add_mod_idemp_l. f_equal. lia.
  - rewrite H3, hook_count_succ. f_equal. lia.
  - intros i x Hi. assert ((length h mod maxRecentResults < maxRecentResults)%nat) as Hlt by (apply Nat.mod_upper_bound; done).
    destruct i as [|i]; cbn [lookup list_lookup].
    + intros [= ->]. replace (S (length h) - 1 - 0)%nat with (length h) by lia. rewrite <- H2.
      apply list_lookup_insert_eq. by rewrite H1, H2.
    + intros Hx. pose proof (lookup_lt_Some _ _ _ Hx) as Hl. replace (S (length h) - 1 - S i)%nat with (length h - 1 - i)%nat by lia.
      rewrite list_lookup_insert_ne; [by apply H4; [lia|]|]. rewrite H2.
      destruct (mod_back (length h) i) as [E|E]; [lia|lia|done|lia].
Qed.

Lemma read_back_spec e h n i :
  holds e h -> (i + n <= length h)%nat -> (i + n <= maxRecentResults)%nat ->
  read_back (ex_results e) ((length h - 1 - i) mod maxRecentResults)%nat n = take n (drop i h).
Proof.
  intros Hh. revert i. induction n as [|n IH]; intros i H1 H2; cbn [read_back]; [done|].
  destruct (lookup_lt_is_Some_2 h i) as [r Hr]; [lia|]. rewrite (ho_entry _ _ Hh i r) by (done || lia). cbn [default from_option].
  rewrite (drop_S h r i Hr). cbn [take]. f_equal. rewrite <- (IH (S i)) by lia. destruct n as [|n]; [done|]. f_equal.
  replace (length h - 1 - S i)%nat with (length h - 1 - i - 1)%nat by lia. unfold maxRecentResults in *.
  rewrite <- Nat.add_sub_assoc by lia. rewrite Nat.Div0.add_mod_idemp_l.
  replace (length h - 1 - i + (100 - 1))%nat with (length h - 1 - i - 1 + 1 * 100)%nat by lia. apply Nat.Div0.mod_add.
Qed.

(** The number of results that a limit asks for. *)
Definition shown (limit : Z) (h : list HookResult) : nat :=
  let total := Nat.min maxRecentResults (length h) in
  if decide (limit <= 0 \/ limit > Z.of_nat total) then total else Z.to_nat limit.

Lemma RecentResults_spec e h limit :
  holds e h -> Z.of_nat (length h) <= max_int64 -> RecentResults limit e = take (shown limit h) h.
Proof.
  intros Hh Hlen. unfold RecentResults. rewrite (ho_count _ _ Hh), wrap64_id
    by (unfold in_int64, min_int64 in *; lia). rewrite (ho_pos _ _ Hh).
  set (n := Z.to_nat _).
  assert (n = shown limit h) as ->.
  { unfold n, shown. set (m := Nat.min maxRecentResults (length h)).
    assert ((if decide (Z.of_nat (length h) > Z.of_nat maxRecentResults) then Z.of_nat maxRecentResults else Z.of_nat (length h)) = Z.of_nat m) as ->
      by (unfold m; case_decide; lia).
    case_decide; lia. }
  destruct (decide (h = [])) as [->|Hne].
  { unfold shown. cbn. case_decide as Hd; [done|]. destruct Hd. lia. }
  assert (0 < length h)%nat as Hpos by (destruct h; [done|cbn; lia]).
  assert (shown limit h <= Nat.min maxRecentResults (length h))%nat as Hs by (unfold shown; case_decide; lia).
  rewrite <- Nat.add_sub_assoc by (unfold maxRecentResults; lia). rewrite Nat.Div0.add_mod_idemp_l.
  replace (length h + (maxRecentResults - 1))%nat with ((length h - 1 - 0) + 1 * maxRecentResults)%nat by (unfold maxRecentResults; lia).
  rewrite Nat.Div0.mod_add, (read_back_spec e h) by (done || lia). done.
Qed.

(** ** Histories of operations *)

Section Behaviour.
Context {U : GoUnicode} {V : GoValueText} {Q : GoQuote}.
Context (attempt : list Attempt -> option string) (clock : nat -> Time).
Context (map_order : gmap string Hook -> list Hook) (sort_hooks : list Hook -> list Hook).

Inductive hook_op :=
  | OpFire (trigger phase : string) (payload : Payload)
  | OpFireHook (hookID trigger phase : string) (payload : Payload)
  | OpReplay (hookID : string)
  | OpFinish (i : nat)
  | OpStore (s : HookStore).   (* the hooks of the store are edited *)

Definition outcome_list (x : Executor * (HookError + HookResult)) : Executor * list HookResult :=
  (x.1, match x.2 with inl _ => [] | inr r => [r] end).

(** An operation, with the results that it produces. *)
Definition hook_step (e : Executor) (op : hook_op) : Executor * list HookResult :=
  match op with
  | OpFire trigger phase payload => Fire attempt clock map_order sort_hooks trigger phase payload e
  | OpFireHook id trigger phase payload => outcome_list (FireHook attempt clock id trigger phase payload e)
  | OpReplay id => outcome_list (ReplayLatestByHook attempt clock id e)
  | OpFinish i => finish_job attempt clock i e
  | OpStore s => (mkExecutor s (ex_results e) (ex_pos e) (ex_count e) (ex_inflight e) (ex_attempts e) (ex_reads e), [])
  end.

Fixpoint hook_run (e : Executor) (ops : list hook_op) : Executor * list HookResult :=
  match ops with
  | [] => (e, [])
  | op :: rest => let '(e, out) := hook_step e op in let '(e, more) := hook_run e rest in (e, out ++ more)
  end.

(** Executors with the same buffer, store and background hooks. *)
Definition same_buffer (e e' : Executor) : Prop :=
  ex_results e' = ex_results e /\ ex_pos e' = ex_pos e /\ ex_count e' = ex_count e /\ ex_inflight e' = ex_inflight e
  /\ ex_store e' = ex_store e.

Lemma holds_same e e' h : ex_results e' = ex_results e -> ex_pos e' = ex_pos e -> ex_count e' = ex_count e -> holds e h -> holds e' h.
Proof. intros E1 E2 E3 [H1 H2 H3 H4]. constructor; [by rewrite E1|by rewrite E2|by rewrite E3|by rewrite E1]. Qed.

(** The attempts after [k] more of one hook. *)
Definition after (e : Executor) (h : Hook) (payload : Payload) (k : nat) : list Attempt := ex_attempts e ++ replicate k (mkAttempt h payload).

Definition supported (h : Hook) : Prop := H_Kind h = KindHTTP \/ H_Kind h = KindCommand.

Lemma try_loop_spec n i h payload lastErr e :
  let '(e', made, err) := try_loop attempt n i h payload lastErr e in
  same_buffer e e'
  /\ (supported h -> exists k, (k <= n)%nat /\ made = (i + k)%nat /\ ex_attempts e' = after e h payload k
      /\ (forall j, (0 < j < k)%nat -> is_Some (attempt (after e h payload j)))
      /\ match err with
         | None => (0 < k)%nat /\ attempt (after e h payload k) = None
         | Some text => k = n /\ (if decide (n = O) then text = lastErr else attempt (after e h payload n) = Some text)
         end)
  /\ (~ supported h -> made = (i + n)%nat /\ err <> None /\ e' = e).
Proof.
  revert i lastErr e. induction n as [|n IH]; intros i lastErr e; cbn [try_loop].
  { split_and!; [done| |intros _; split_and!; [lia|done|done]]. intros _. exists O. unfold after. cbn. rewrite app_nil_r.
    split_and!; [lia..|done|lia|done|done]. }
  unfold try_hook at 1. destruct (decide (H_Kind h = KindHTTP \/ H_Kind h = KindCommand)) as [Hk|Hk].
  - set (e1 := mkExecutor _ _ _ _ _ _ _).
    assert (forall j, after e1 h payload j = after e h payload (S j)) as Hj.
    { intros j. unfold after. cbn [ex_attempts e1 replicate]. by rewrite <- app_assoc. }
    change (ex_attempts e ++ [mkAttempt h payload]) with (after e h payload 1).
    destruct (attempt (after e h payload 1)) as [err|] eqn:Ea; cycle 1.
    { cbv beta iota. split_and!; [done..| |done]. intros _. exists 1%nat. split_and!; [lia..|done|intros; lia|lia|done]. }
    specialize (IH (S i) err e1). destruct (try_loop attempt n (S i) h payload err e1) as [[e' made] err'].
    destruct IH as (H1 & H2 & _). split_and!; [done| |done]. intros _. destruct (H2 Hk) as (k & K1 & K2 & K3 & K4 & K5).
    exists (S k). rewrite <- !Hj. split_and!; [lia|lia|done| |].
    + intros j [Hj0 Hj1]. destruct j as [|[|j]]; [lia|by rewrite Ea|]. rewrite <- Hj. apply K4. lia.
    + destruct err' as [x|]; [|destruct K5; split; [lia|done]]. destruct K5 as [-> K5]. split; [done|].
      rewrite decide_False by done. rewrite Hj. revert K5. case_decide as Hn; [by intros ->; subst n|by rewrite Hj].
  - specialize (IH (S i) ("unsupported hook kind " +:+ Quote (H_Kind h)) e).
    destruct (try_loop attempt n (S i) h payload _ e) as [[e' made] err']. destruct IH as (H1 & _ & H3).
    split_and!; [done|done|]. intros Hs. destruct (H3 Hs) as (-> & Hne & ->). split_and!; [lia|done..].
Qed.

Lemma hook_attempts_range h : 1 <= hook_attempts h <= max_int64.
Proof.
  unfold hook_attempts. pose proof (wrap64_range (H_RetryCount h + 1)) as [_ H]. case_decide; [unfold max_int64|]; lia.
Qed.

(** a hook is attempted until an attempt succeeds, at most once more than its
    retry count; the result says whether the last attempt succeeded, how many
    attempts were made and, when all failed, the last error. *)
Theorem hook_attempts_exact h trigger phase payload e :
  supported h ->
  let '(e', r) := executeHook attempt clock h trigger phase payload e in
  exists k, 1 <= Z.of_nat k <= hook_attempts h /\ ex_attempts e' = after e h payload k
    /\ (forall j, (0 < j < k)%nat -> is_Some (attempt (after e h payload j)))
    /\ HR_AttemptCount r = Z.of_nat k /\ HR_HookID r = H_ID h
    /\ match attempt (after e h payload k) with
       | None => HR_Status r = resultStatusOK
       | Some text => HR_Status r = resultStatusError /\ HR_Error r = text /\ Z.of_nat k = hook_attempts h
       end.
Proof.
  intros Hs. pose proof (hook_attempts_range h) as Hr. unfold executeHook, tick. set (e1 := mkExecutor _ _ _ _ _ _ (S _)).
  pose proof (try_loop_spec (Z.to_nat (hook_attempts h)) 0 h payload "" e1) as Ht.
  destruct (try_loop attempt _ 0 h payload "" e1) as [[e2 made] err]. destruct Ht as (_ & Ht & _).
  destruct (Ht Hs) as (k & K1 & K2 & K3 & K4 & K5). exists k. change (after e1 h payload) with (after e h payload) in *.
  destruct err as [text|].
  - destruct K5 as [-> K5]. rewrite decide_False in K5 by lia. rewrite K5. cbn. split_and!; [lia..|done|done|lia|done|done|done|lia].
  - destruct K5 as [K5 ->]. cbn. split_and!; [lia..|done|done|lia|done|done].
Qed.

Lemma executeHook_buffer h trigger phase payload e :
  let '(e', r) := executeHook attempt clock h trigger phase payload e in same_buffer e e' /\ HR_HookID r = H_ID h.
Proof.
  unfold executeHook, tick. set (e1 := mkExecutor _ _ _ _ _ _ (S _)).
  pose proof (try_loop_spec (Z.to_nat (hook_attempts h)) 0 h payload "" e1) as Ht.
  destruct (try_loop attempt _ 0 h payload "" e1) as [[e2 made] err]. destruct Ht as (Ht & _). split; [exact Ht|by destruct err].
Qed.

(** A hook that runs in the background when it fires. *)
Definition background (phase : string) (h : Hook) : Prop := H_Async h = true /\ phase <> HookPhasePre.
#[global] Instance background_dec phase h : Decision (background phase h).
Proof. unfold background. apply _. Defined.

Lemma fireSingle_spec h trigger phase payload forceSync now e hist :
  holds e hist ->
  match fireSingleWithTime attempt clock h trigger phase payload forceSync now e with
  | (e', None) => forceSync = false /\ background phase h /\ holds e' hist
      /\ ex_inflight e' = ex_inflight e ++ [mkHookJob h trigger phase (enrichHookPayload payload phase now)]
  | (e', Some r) => (forceSync = false -> ~ background phase h) /\ holds e' (r :: hist) /\ ex_inflight e' = ex_inflight e /\ HR_HookID r = H_ID h
  end.
Proof.
  intros Hh. unfold fireSingleWithTime. destruct (H_Async h && bool_decide (phase <> HookPhasePre) && negb forceSync) eqn:Ea.
  - apply andb_true_iff in Ea as [[Ea Hp%bool_decide_eq_true]%andb_true_iff Hf%negb_true_iff]. split_and!; [done..|by apply (holds_same e)|done].
  - pose proof (executeHook_buffer h trigger phase (enrichHookPayload payload phase now) e) as Hb.
    destruct (executeHook _ _ _ _ _ _ e) as [e1 r]. destruct Hb as ((B1 & B2 & B3 & B4 & B5) & B6). split_and!; [|by apply holds_record, (holds_same e)|done..].
    intros -> [Ha Hp]. rewrite Ha, bool_decide_eq_true_2 in Ea by done. done.
Qed.

Lemma hooks_fire_loop_spec hs trigger phase payload now e hist :
  holds e hist ->
  let '(e', out) := fire_loop attempt clock hs trigger phase payload now e in
  holds e' (reverse out ++ hist)
  /\ exists n, (n <= length hs)%nat
     /\ HR_HookID <$> out = H_ID <$> filter (fun h => ~ background phase h) (take n hs)
     /\ ex_inflight e' = ex_inflight e ++ ((fun h => mkHookJob h trigger phase (enrichHookPayload payload phase now))
                                           <$> filter (background phase) (take n hs))
     /\ (n = length hs \/ phase = HookPhasePre /\ exists r, last out = Some r /\ HR_Status r = resultStatusError)
     /\ (phase = HookPhasePre -> forall i r, out !! i = Some r -> (S i < length out)%nat -> HR_Status r <> resultStatusError).
Proof.
  revert e hist. induction hs as [|h hs IH]; intros e hist Hh; cbn [fire_loop].
  { split; [done|]. exists O. cbn. rewrite app_nil_r. split_and!; [lia|done..|by left|done]. }
  pose proof (fireSingle_spec h trigger phase payload false now e hist Hh) as Hf.
  destruct (fireSingleWithTime _ _ h trigger phase payload false now e) as [e1 [r|]].
  - destruct Hf as (Hb & Hh1 & Hi1 & Hid). specialize (Hb eq_refl). case_decide as Hstop.
    + split; [done|]. exists 1%nat. destruct Hstop as [Hp Hst]. cbn [take length]. rewrite filter_cons_True, filter_cons_False by done.
      cbn. rewrite app_nil_r, Hid. split_and!; [lia|done..|right; by eauto|intros _ i x Hx Hlt; lia].
    + specialize (IH e1 (r :: hist) Hh1). destruct (fire_loop _ _ hs trigger phase payload now e1) as [e2 out].
      destruct IH as (Hh2 & n & N1 & N2 & N3 & N4 & N5). split; [by rewrite reverse_cons, <- app_assoc|].
      exists (S n). cbn [take length]. rewrite (filter_cons_True _ h), (filter_cons_False _ h) by done. rewrite <- Hi1.
      split_and!; [lia|cbn; by rewrite N2, Hid|done| |].
      * destruct N4 as [->|(Hp & x & Hx & Hs)]; [by left|right]. split; [done|]. exists x. split; [|done]. destruct out; [done|by rewrite last_cons_cons].
      * intros Hp [|i] x; cbn; [intros [= <-] _; naive_solver|]. intros Hx Hlt. apply (N5 Hp i x Hx). lia.
  - destruct Hf as (_ & Hb & Hh1 & Hi1). specialize (IH e1 hist Hh1). destruct (fire_loop _ _ hs trigger phase payload now e1) as [e2 out].
    destruct IH as (Hh2 & n & N1 & N2 & N3 & N4 & N5). split; [done|]. exists (S n). cbn [take length].
    rewrite (filter_cons_False _ h), (filter_cons_True _ h) by naive_solver.
    split_and!; [lia|done|by rewrite N3, Hi1, <- app_assoc| |done]. destruct N4 as [->|?]; [by left|by right].
Qed.

Lemma fireSingle_forced h trigger phase payload e hist :
  holds e hist ->
  let '(e', r) := fireSingle attempt clock h trigger phase payload true e in
  holds e' (r :: hist) /\ ex_inflight e' = ex_inflight e /\ HR_HookID r = H_ID h.
Proof.
  intros Hh. unfold fireSingle, tick. set (e1 := mkExecutor _ _ _ _ _ _ (S _)).
  pose proof (fireSingle_spec h trigger phase payload true (clock (ex_reads e)) e1 hist) as Hf.
  destruct (fireSingleWithTime _ _ h trigger phase payload true _ e1) as [e2 [r|]]; cbn [default from_option].
  - destruct Hf as (_ & ? & ? & ?); [by apply (holds_same e)|done].
  - destruct Hf as (? & _); [by apply (holds_same e)|done].
Qed.

Lemma Fire_holds trigger phase payload e hist :
  holds e hist ->
  let '(e', out) := Fire attempt clock map_order sort_hooks trigger phase payload e in holds e' (reverse out ++ hist).
Proof.
  intros Hh. unfold Fire. cbv zeta. destruct (filter _ _) as [|h hs]; [done|]. unfold tick. set (e1 := mkExecutor _ _ _ _ _ _ (S _)).
  set (p := if decide (phase = "") then HookPhasePost else phase).
  pose proof (hooks_fire_loop_spec (sort_hooks (h :: hs)) trigger p payload (clock (ex_reads e)) e1 hist) as Hf.
  destruct (fire_loop _ _ _ trigger p payload _ e1) as [e' out]. apply Hf. by apply (holds_same e).
Qed.

Lemma hook_step_holds e op hist :
  holds e hist -> let '(e', out) := hook_step e op in holds e' (reverse out ++ hist).
Proof.
  intros Hh. destruct op as [trigger phase payload|id trigger phase payload|id|i|s]; cbn [hook_step].
  - by apply Fire_holds.
  - unfold FireHook, outcome_list. destruct (HookGet _ id) as [|h]; [done|].
    destruct (ValidateHookInvocation _ _); [done|].
    match goal with |- context [fireSingle _ _ ?a ?b ?c ?d true e] => pose proof (fireSingle_forced a b c d e hist Hh) as Hf end.
    destruct (fireSingle _ _ _ _ _ _ true e). apply Hf.
  - unfold ReplayLatestByHook, outcome_list. destruct (HookGet _ id) as [|h]; [done|]. destruct (find _ _) as [r|]; [|done].
    match goal with |- context [fireSingle _ _ ?a ?b ?c ?d true e] => pose proof (fireSingle_forced a b c d e hist Hh) as Hf end.
    destruct (fireSingle _ _ _ _ _ _ true e). apply Hf.
  - unfold finish_job. destruct (ex_inflight e !! i) as [j|]; [|done]. set (e1 := mkExecutor _ _ _ _ _ _ _).
    pose proof (executeHook_buffer (job_hook j) (job_trigger j) (job_phase j) (job_payload j) e1) as Hb.
    destruct (executeHook _ _ _ _ _ _ e1) as [e2 r]. destruct Hb as ((B1 & B2 & B3 & _) & _). by apply holds_record, (holds_same e).
  - by apply (holds_same e).
Qed.

Lemma hook_run_holds ops : forall e hist,
  holds e hist -> let '(e', outs) := hook_run e ops in holds e' (reverse outs ++ hist).
Proof.
  induction ops as [|op ops IH]; intros e hist Hh; cbn [hook_run]; [done|].
  pose proof (hook_step_holds e op hist Hh) as Hs. destruct (hook_step e op) as [e1 out]. specialize (IH e1 _ Hs).
  destruct (hook_run e1 ops) as [e2 outs]. by rewrite reverse_app, <- app_assoc.
Qed.

(** C28: whatever events were fired, hooks fired or replayed by hand, background
    hooks finished and hooks edited, in any order, the recent results are the
    newest of all results produced, newest first: as many as the limit asks for,
    at most 100. *)
Theorem recent_results_refine s ops limit :
  let '(e, outs) := hook_run (NewExecutor s) ops in
  Z.of_nat (length outs) <= max_int64 ->
  RecentResults limit e = take (shown limit outs) (reverse outs).
Proof.
  pose proof (hook_run_holds ops (NewExecutor s) [] (holds_new s)) as Hh. destruct (hook_run _ ops) as [e outs]. intros Hlen.
  rewrite app_nil_r in Hh. rewrite (RecentResults_spec e (reverse outs)) by (rewrite ?length_reverse; done).
  unfold shown. by rewrite length_reverse.
Qed.

(** ** The order of the hooks of an event *)

Definition by_priority (a b : Hook) : Prop := EffectivePriority a <= EffectivePriority b.

Lemma by_priority_strong l : Sorted by_priority l -> StronglySorted by_priority l.
Proof. apply Sorted_StronglySorted. intros a b c. unfold by_priority. lia. Qed.

Lemma filter_all {A} (P : A -> Prop) `{forall x, Decision (P x)} l : Forall P l -> filter P l = l.
Proof. induction 1; [done|]. rewrite filter_cons_True by done. by f_equal. Qed.

(** The phase that an event is fired in. *)
Definition fired_phase (phase : string) : string := if decide (phase = "") then HookPhasePost else phase.

(** C27: an event fires the matching hooks of the store in the order of their
    priorities: the synchronous ones run one after the other, each giving one
    result, and the asynchronous ones are put into the background.  In the pre
    phase every hook is synchronous and the first failure stops the rest; in the
    other phases every hook is fired. *)
Theorem fire_exact trigger phase payload e hist :
  (forall m, map_order m ≡ₚ (map_to_list m).*2) ->
  (forall l, sort_hooks l ≡ₚ l /\ Sorted by_priority (sort_hooks l)) ->
  holds e hist ->
  let '(e', out) := Fire attempt clock map_order sort_hooks trigger phase payload e in
  exists hs n,
    hs ≡ₚ filter (matches trigger (fired_phase phase) payload) ((map_to_list (hs_hooks (ex_store e))).*2)
    /\ StronglySorted by_priority hs
    /\ HR_HookID <$> out = H_ID <$> filter (fun h => ~ background (fired_phase phase) h) (take n hs)
    /\ job_hook <$> ex_inflight e' = (job_hook <$> ex_inflight e) ++ filter (background (fired_phase phase)) (take n hs)
    /\ (n = length hs
        \/ (n < length hs)%nat /\ fired_phase phase = HookPhasePre /\ length out = n /\ exists r, last out = Some r /\ HR_Status r = resultStatusError)
    /\ (fired_phase phase = HookPhasePre -> forall i r, out !! i = Some r -> (S i < length out)%nat -> HR_Status r <> resultStatusError)
    /\ holds e' (reverse out ++ hist).
Proof.
  intros Hmap Hsort Hh. pose proof (Fire_holds trigger phase payload e hist Hh) as Hall. revert Hall. unfold Fire. fold (fired_phase phase).
  cbv zeta. set (p := fired_phase phase). set (ms := filter (matches trigger p payload) (map_order _)).
  assert (ms ≡ₚ filter (matches trigger p payload) ((map_to_list (hs_hooks (ex_store e))).*2)) as Hms by (unfold ms; by rewrite Hmap).
  destruct ms as [|h0 ms0] eqn:Ems; cycle 1.
  - unfold tick. set (e1 := mkExecutor _ _ _ _ _ _ (S _)). rewrite <- Ems in *.
    pose proof (hooks_fire_loop_spec (sort_hooks ms) trigger p payload (clock (ex_reads e)) e1 hist) as Hf.
    destruct (fire_loop _ _ _ trigger p payload _ e1) as [e' out]. intros Hall.
    destruct Hf as (_ & n & N1 & N2 & N3 & N4 & N5); [by apply (holds_same e)|].
    destruct (Hsort ms) as [Hp Hs]. exists (sort_hooks ms), n. split_and!; [by rewrite Hp|by apply by_priority_strong|done| | |done|done].
    + rewrite N3. cbn [ex_inflight e1]. by rewrite fmap_app, <- list_fmap_compose, list_fmap_id.
    + destruct (decide (n = length (sort_hooks ms))) as [->|Hn]; [by left|right]. destruct N4 as [->|[Hpre Hr]]; [done|].
      split_and!; [lia|done| |done]. rewrite <- (length_fmap HR_HookID), N2, length_fmap, filter_all, length_take; [lia|].
      apply Forall_forall. intros h _ [_ Hb]. done.
  - intros Hall. exists [], O. cbn. rewrite app_nil_r. split_and!; [done|constructor|done..|by left|done|done].
Qed.
End Behaviour.

(** ** Previews show no secrets *)

Lemma preview_fold `{GoUnicode} (payload : Payload) keys (out : Payload) k v :
  foldl (fun out k => match payload !! k with Some v => <[k := sanitizePayloadValue k v]> out | None => out end) out keys !! k = Some v ->
  (exists v0, payload !! k = Some v0 /\ v = sanitizePayloadValue k v0) \/ out !! k = Some v.
Proof.
  revert out. induction keys as [|a keys IH]; intros out; cbn [foldl]; [by right|]. intros [?|Hk]%IH; [by left|].
  destruct (payload !! a) as [x|] eqn:Ea; [|by right]. destruct (decide (a = k)) as [->|Hne].
  - rewrite lookup_insert_eq in Hk. left. exists x. split; [done|]. congruence.
  - right. by rewrite lookup_insert_ne in Hk.
Qed.

(** What a preview shows under a key is the sanitized value of the payload, or the
    count of the fields left out; a key that names a secret shows no value. *)
Lemma preview_masks `{GoUnicode} payload k v :
  sanitizePayloadPreview payload !! k = Some v ->
  (exists n, k = "_truncated" /\ v = PString (count_text n " more field(s)"))
  \/ exists v0, payload !! k = Some v0 /\ v = (if masked_key k then PString "[redacted]" else sanitizePayloadValue k v0).
Proof.
  unfold sanitizePayloadPreview. set (out := foldl _ _ _). intros Hk.
  assert (k = "_truncated" /\ (exists n, v = PString (count_text n " more field(s)")) \/ out !! k = Some v) as [(-> & n & ->)|Hout].
  { revert Hk. case_decide; [|by right]. destruct (decide ("_truncated" = k)) as [<-|Hne].
    - rewrite lookup_insert_eq. intros [= <-]. by left; eauto.
    - rewrite lookup_insert_ne by done. by right. }
  - left. eauto.
  - right. destruct (preview_fold _ _ _ _ _ Hout) as [(v0 & H1 & H2)|Hno]; [|done]. exists v0. split; [done|]. subst v.
    unfold sanitizePayloadValue. by destruct (masked_key k).
Qed.

(** ** Filters: unintended behaviour *)

(** An operator is looked for in the whole text in the order of the table, not at
    the first place where one stands: a value that holds an operator is taken for
    a part of the field, and the filter then matches nothing. *)
Theorem filter_operator_in_value `{GoValueText} payload :
  payload !! "message contains a" = None -> EvaluateFilter "message contains a == b" payload = false.
Proof.
  intros Hp. unfold EvaluateFilter. cbv zeta.
  assert (TrimSpace "message contains a == b" = "message contains a == b") as -> by (vm_compute; reflexivity).
  rewrite decide_False by done.
  assert (parseFilter "message contains a == b" = Some ("message contains a", "==", "b")) as -> by (vm_compute; reflexivity).
  cbv beta iota. by rewrite Hp.
Qed.

(** A hook whose trigger is surrounded by blanks passes validation. *)
Theorem padded_trigger_accepted :
  ValidateHookDefinition (mkHook "" "n" true "" "" " startup " KindCommand 0 "" "" "" "true" ∅ 0 0 false "" "" 0) = None.
Proof. vm_compute. done. Qed.

(** ** Examples *)

Module Examples.
#[local] Existing Instance ascii_unicode.
#[local] Existing Instance simple_quote.

Definition no_numbers : GoValueText.
Proof. refine {| SprintValue v := match v with PString s => s | _ => "" end; ParseFloat64 _ := None |}. done. Defined.
#[local] Existing Instance no_numbers.

Definition hook (id : string) (priority : Z) (phase : string) (async : bool) (retries : Z) : Hook :=
  mkHook id id true "" "" "tool.executed" KindCommand priority phase "tool_name == exec.run" "" "true" ∅ 0 retries async "" "" 0.

Definition store : HookStore :=
  mkHookStore 3 (list_to_map [("a", hook "a" 30 "pre" false 2); ("b", hook "b" 10 "pre" false 0); ("c", hook "c" 20 "pre" false 0);
                              ("d", hook "d" 5 "" true 0); ("e", hook "e" 7 "" false 0)]).

Definition order (m : gmap string Hook) : list Hook := (map_to_list m).*2.

#[local] Instance by_priority_dec a b : Decision (by_priority a b).
Proof. unfold by_priority. apply _. Defined.
Definition sorted (l : list Hook) : list Hook := merge_sort by_priority l.

(** Every attempt of the hook [c] fails, the others succeed. *)
Definition attempts (l : list Attempt) : option string :=
  match last l with Some a => if decide (H_ID (at_hook a) = "c") then Some "exit status 1" else None | None => None end.

Definition now (n : nat) : Time := Z.of_nat n * Second.

Definition payload : Payload := <["tool_name" := PString "exec.run"]> (<["api_token" := PString "xyz"]> ∅).

(** In the pre phase [b] runs, [c] fails, [a] does not run. *)
Example pre_phase_stops :
  (fun r => (HR_HookID r, HR_Status r)) <$> (Fire attempts now order sorted "tool.executed" "pre" payload (NewExecutor store)).2
  = [("b", "ok"); ("c", "error")].
Proof. vm_compute. done. Qed.

(** In the post phase [d] goes into the background and [e] runs. *)
Example post_phase_background :
  let '(e, out) := Fire attempts now order sorted "tool.executed" "" payload (NewExecutor store) in
  (HR_HookID <$> out, (fun j => H_ID (job_hook j)) <$> ex_inflight e) = (["e"], ["d"]).
Proof. vm_compute. done. Qed.

Example preview_redacts : sanitizePayloadPreview payload !! "api_token" = Some (PString "[redacted]").
Proof. vm_compute. done. Qed.

Lemma sorted_ok l : sorted l ≡ₚ l /\ Sorted by_priority (sorted l).
Proof.
  assert (Total by_priority) by (intros a b; unfold by_priority; lia).
  split; [apply merge_sort_Permutation|by apply Sorted_merge_sort].
Qed.

Lemma fire_exact_witness :
  let '(e, out) := Fire attempts now order sorted "tool.executed" "pre" payload (NewExecutor store) in
  exists hs n, StronglySorted by_priority hs
    /\ HR_HookID <$> out = H_ID <$> filter (fun h => ~ background "pre" h) (take n hs) /\ length out = 2%nat.
Proof.
  pose proof (fire_exact attempts now order sorted "tool.executed" "pre" payload (NewExecutor store) [] (fun m => Permutation_refl _) sorted_ok (holds_new store)) as H.
  destruct (Fire _ _ _ _ _ _ _ _) as [e out] eqn:E.
  destruct H as (hs & n & _ & Hs & Hn & _). exists hs, n. split; [exact Hs|]. split; [exact Hn|].
  apply (f_equal (fun x => length x.2)) in E. cbn [snd] in E. rewrite <- E. vm_compute. reflexivity.
Defined.

Lemma recent_results_refine_witness :
  let '(e, outs) := hook_run attempts now order sorted (NewExecutor store) [OpFire "tool.executed" "" payload; OpFinish 0; OpFireHook "c" "" "" payload] in
  length outs = 3%nat /\ RecentResults 2 e = take 2 (reverse outs).
Proof.
  pose proof (recent_results_refine attempts now order sorted store [OpFire "tool.executed" "" payload; OpFinish 0; OpFireHook "c" "" "" payload] 2) as H.
  destruct (hook_run _ _ _ _ _ _) as [e outs] eqn:E.
  assert (length outs = 3%nat) as Hl.
  { apply (f_equal (fun x => length x.2)) in E. cbn [snd] in E. rewrite <- E. vm_compute. reflexivity. }
  split; [exact Hl|]. unfold shown in H. rewrite Hl in H. apply H. vm_compute. discriminate.
Defined.

Lemma hook_attempts_exact_witness :
  let '(e, r) := executeHook attempts now (hook "c" 20 "pre" false 2) "tool.executed" "pre" payload (NewExecutor store) in
  exists k, 1 <= Z.of_nat k <= 3 /\ HR_AttemptCount r = Z.of_nat k.
Proof.
  pose proof (hook_attempts_exact attempts now (hook "c" 20 "pre" false 2) "tool.executed" "pre" payload (NewExecutor store) (or_intror eq_refl)) as H.
  destruct (executeHook _ _ _ _ _ _ _) as [e r]. destruct H as (k & H1 & _ & _ & H2 & _). exists k. split; [exact H1|exact H2].
Defined.
End Examples.
