(* ===== verification/HookSync.v ===== *)
(** * Hooks of plugins ([hooks/plugin_sync.go], the hook plan of
    [bootstrap/plugin_refresh_transaction.go])

    Plugins declare hooks in files.  At the start the declared hooks are merged
    into the store of hooks; when the plugins change, a plan does the same in a way
    that can be undone: [Apply] adds and updates, then either [Commit] removes the
    stale hooks or [Rollback] restores the store. *)
From S2P Require Import Prelude GoLib GoText GoClock Hooks.
From stdpp Require Import sorting.
From Stdlib Require Import Ascii DecimalString.
Import Str GoTime GoInt Text.

Local Open Scope Z_scope.

Definition pluginHookSource : string := "plugin".

Definition pluginHookKey (sourceRef name : string) : string := TrimSpace sourceRef +:+ "::" +:+ TrimSpace name.
Definition pluginHookPlanKey (sourceRef name : string) : string := TrimSpace sourceRef +:+ "::" +:+ TrimSpace name.

(** ** Files *)

(** Decoding a text strictly as a bundle, a list of hooks or one hook, by the JSON
    or the YAML decoder; a bundle is its [hooks] and its [items]. *)
Class HookDecoder := {
  DecodeBundle : bool -> string -> option (list Hook * list Hook);
  DecodeItems : bool -> string -> option (list Hook);
  DecodeSingle : bool -> string -> option Hook
}.

Inductive SyncError :=
  | ErrReadHooksDir (label : string)
  | ErrDecodeHookFile (file : string)
  | ErrHookWithoutName (file : string)
  | ErrInvalidHook (label name : string) (e : HookError)
  | ErrDuplicateHook (key : string)
  | ErrStore (key : string) (e : HookError).

(** A file of a directory; the body of a file that cannot be read is missing. *)
Record DirEntry := mkDirEntry { de_name : string; de_dir : bool; de_body : option string }.

(** [os.ReadDir]. *)
Inductive DirListing := DirMissing | DirFailed | DirEntries (l : list DirEntry).

(** [filepath.Ext]: from the last dot of the last element on. *)
Fixpoint ext_of (l : bytes) (found : option bytes) : option bytes :=
  match l with
  | [] => found
  | a :: rest => ext_of rest (if byte_is 47 a then None else if byte_is 46 a then Some l else found)
  end.

Definition Ext (path : string) : string :=
  String.string_of_list_ascii (default [] (ext_of (String.list_ascii_of_string path) None)).

(** [DirectoryProjection], the fields that the hooks use. *)
Record DirectoryProjection := mkProjection {
  DP_Kind : string; DP_Path : string; DP_ModuleID : string; DP_ModuleName : string; DP_Source : string }.

Definition ComponentKindHooksDir : string := "hooks_dir".
Definition SourcePlugin : string := "plugin".

Section Load.
Context {U : GoUnicode} {D : HookDecoder}.
Context (read_dir : string -> DirListing).

(** [decodeHookFileJSON] and [decodeHookFileYAML]: the same steps with the two
    decoders. *)
Definition decode_body (json : bool) (body : string) : option (list Hook) :=
  let trimmed := TrimSpace body in
  if decide (trimmed = "") then Some []
  else match DecodeBundle json trimmed with
       | Some ((_ :: _) as hooks, _) => Some hooks
       | Some ([], (_ :: _) as items) => Some items
       | _ => match DecodeItems json trimmed with
              | Some items => Some items
              | None => (fun h => [h]) <$> DecodeSingle json trimmed
              end
       end.

Definition decodeHookFile (e : DirEntry) : option (list Hook) :=
  match de_body e with
  | None => None
  | Some body => decode_body (bool_decide (ToLower (Ext (de_name e)) = ".json")) body
  end.

(** A declared hook as it is loaded. *)
Definition declared (sourceRef : string) (h : Hook) : Hook :=
  mkHook "" (TrimSpace (H_Name h)) (H_Enabled h) pluginHookSource sourceRef (H_Trigger h) (H_Kind h) (H_Priority h) (H_Phase h) (H_Filter h)
    (H_URL h) (H_Command h) (H_Headers h) (H_Timeout h) (H_RetryCount h) (H_Async h) (H_Secret h) (H_AutomationID h) (H_CreatedAt h).

Fixpoint load_items (sourceRef label file : string) (items : list Hook) : SyncError + list Hook :=
  match items with
  | [] => inr []
  | h :: rest =>
    let h := declared sourceRef h in
    if decide (H_Name h = "") then inl (ErrHookWithoutName file)
    else match ValidateHookDefinition h with
         | Some e => inl (ErrInvalidHook label (H_Name h) e)
         | None => match load_items sourceRef label file rest with inl e => inl e | inr out => inr (h :: out) end
         end
  end.

Definition hook_file (e : DirEntry) : bool :=
  negb (de_dir e) && bool_decide (ToLower (Ext (de_name e)) ∈ [".yaml"; ".yml"; ".json"]).

Fixpoint load_entries (sourceRef label : string) (entries : list DirEntry) : SyncError + list Hook :=
  match entries with
  | [] => inr []
  | e :: rest =>
    if negb (hook_file e) then load_entries sourceRef label rest
    else match decodeHookFile e with
         | None => inl (ErrDecodeHookFile (de_name e))
         | Some items =>
           match load_items sourceRef label (de_name e) items with
           | inl err => inl err
           | inr out => match load_entries sourceRef label rest with inl err => inl err | inr more => inr (out ++ more) end
           end
         end
  end.

Definition by_name (a b : DirEntry) : Prop := String.le (de_name a) (de_name b).
#[global] Instance by_name_dec a b : Decision (by_name a b).
Proof. unfold by_name. apply _. Defined.

Definition loadHookDir (sourceRef label dir : string) : SyncError + list Hook :=
  let dir := TrimSpace dir in
  if decide (dir = "") then inr []
  else
    let sourceRef := TrimSpace sourceRef in
    let label := if decide (TrimSpace label = "") then sourceRef else TrimSpace label in
    match read_dir dir with
    | DirMissing => inr []
    | DirFailed => inl (ErrReadHooksDir label)
    | DirEntries l => load_entries sourceRef label (merge_sort by_name l)
    end.

Definition loadProjectedHooks (p : DirectoryProjection) : SyncError + list Hook :=
  let sourceRef := TrimSpace (DP_ModuleName p) in
  let sourceRef := if decide (sourceRef = "") then TrimSpace (TrimPrefix (DP_ModuleID p) "plugin:") else sourceRef in
  let label := if decide (sourceRef = "") then TrimSpace (DP_ModuleID p) else sourceRef in
  loadHookDir sourceRef label (TrimSpace (DP_Path p)).

Fixpoint collect_items (items : list Hook) (desired : gmap string Hook) : SyncError + gmap string Hook :=
  match items with
  | [] => inr desired
  | h :: rest =>
    let key := pluginHookKey (H_SourceRef h) (H_Name h) in
    match desired !! key with
    | Some _ => inl (ErrDuplicateHook key)
    | None => collect_items rest (<[key := h]> desired)
    end
  end.

Fixpoint collect_projections (ps : list DirectoryProjection) (desired : gmap string Hook) : SyncError + gmap string Hook :=
  match ps with
  | [] => inr desired
  | p :: rest =>
    if decide (DP_Kind p <> ComponentKindHooksDir \/ DP_Source p <> SourcePlugin) then collect_projections rest desired
    else match loadProjectedHooks p with
         | inl e => inl e
         | inr items => match collect_items items desired with inl e => inl e | inr desired => collect_projections rest desired end
         end
  end.

(** [sort_projections] is [sort.Slice] by the module and the path. *)
Definition CollectModuleHooks (sort_projections : list DirectoryProjection -> list DirectoryProjection) (ps : list DirectoryProjection) :
    SyncError + gmap string Hook :=
  collect_projections (sort_projections ps) ∅.
End Load.

(** ** Merging the declared hooks into the store *)

Definition key_of (h : Hook) : string := pluginHookKey (H_SourceRef h) (H_Name h).
Definition is_plugin (h : Hook) : Prop := H_Source h = pluginHookSource.

(** The plugin hooks of a list by their keys; of two with the same key the later. *)
Definition existing_by_key (l : list Hook) : gmap string Hook :=
  foldl (fun m h => if decide (H_Source h = pluginHookSource) then <[pluginHookKey (H_SourceRef h) (H_Name h) := h]> m else m) ∅ l.

(** A declaration that takes the place of a stored hook. *)
Definition keep_identity (old d : Hook) : Hook :=
  mkHook (H_ID old) (H_Name d) (H_Enabled d) (H_Source d) (H_SourceRef d) (H_Trigger d) (H_Kind d) (H_Priority d) (H_Phase d) (H_Filter d)
    (H_URL d) (H_Command d) (H_Headers d) (H_Timeout d) (H_RetryCount d) (H_Async d) (H_Secret d) (H_AutomationID d) (H_CreatedAt old).

Inductive reconciled := Updated (old : Hook) | Added (id : string).

(** One declared hook: an update of the stored hook with its key, or a new hook. *)
Definition reconcile (by_key : gmap string Hook) (key : string) (d : Hook) (now : Time) (s : HookStore) : HookStore * reconciled * option SyncError :=
  match by_key !! key with
  | Some old => let '(s, err) := HookUpdate s (keep_identity old d) in (s, Updated old, ErrStore key <$> err)
  | None => let '(s, h) := HookAdd s d now in (s, Added (H_ID h), None)
  end.

Section Sync.
Context (map_order : gmap string Hook -> list Hook) (key_order : gmap string Hook -> list string) (clock : nat -> Time).

Fixpoint reconcile_all (keys : list string) (desired by_key : gmap string Hook) (i : nat) (s : HookStore) :
    HookStore * list reconciled * option SyncError :=
  match keys with
  | [] => (s, [], None)
  | key :: rest =>
    match desired !! key with
    | None => reconcile_all rest desired by_key i s
    | Some d =>
      let '(s, op, err) := reconcile by_key key d (clock i) s in
      match err with
      | Some e => (s, [op], Some e)
      | None => let '(s, ops, err) := reconcile_all rest desired by_key (S i) s in (s, op :: ops, err)
      end
    end
  end.

Fixpoint remove_keys (keys : list string) (desired by_key : gmap string Hook) (s : HookStore) : HookStore * option SyncError :=
  match keys with
  | [] => (s, None)
  | key :: rest =>
    match by_key !! key, desired !! key with
    | Some item, None =>
      match HookRemove s (H_ID item) with
      | (s, Some e) => (s, Some (ErrStore key e))
      | (s, None) => remove_keys rest desired by_key s
      end
    | _, _ => remove_keys rest desired by_key s
    end
  end.

Definition SyncModuleHooks (collected : SyncError + gmap string Hook) (s : HookStore) : HookStore * option SyncError :=
  match collected with
  | inl e => (s, Some e)
  | inr desired =>
    let by_key := existing_by_key (map_order (hs_hooks s)) in
    match remove_keys (key_order by_key) desired by_key s with
    | (s, Some e) => (s, Some e)
    | (s, None) => let '(s, _, err) := reconcile_all (key_order desired) desired by_key 0 s in (s, err)
    end
  end.

(** ** The plan of a refresh *)

Record pluginHookSyncPlan := mkHookPlan {
  pl_desired : gmap string Hook; pl_updatedOld : list Hook; pl_addedIDs : list string; pl_stale : list Hook; pl_applied : bool }.

Definition buildPluginHookSyncPlan (collected : SyncError + gmap string Hook) (s : HookStore) : SyncError + pluginHookSyncPlan :=
  match collected with
  | inl e => inl e
  | inr desired =>
    inr (mkHookPlan desired [] []
           (filter (fun h => H_Source h = "plugin" /\ desired !! pluginHookPlanKey (H_SourceRef h) (H_Name h) = None) (map_order (hs_hooks s))) false)
  end.

Definition sorted_keys (m : gmap string Hook) : list string := merge_sort String.le (map_to_list m).*1.

Definition updated_of (op : reconciled) : option Hook := match op with Updated h => Some h | Added _ => None end.
Definition added_of (op : reconciled) : option string := match op with Updated _ => None | Added id => Some id end.

Definition plan_Apply (p : pluginHookSyncPlan) (s : HookStore) : pluginHookSyncPlan * HookStore * option SyncError :=
  let by_key := existing_by_key (map_order (hs_hooks s)) in
  let '(s, ops, err) := reconcile_all (sorted_keys (pl_desired p)) (pl_desired p) by_key 0 s in
  (mkHookPlan (pl_desired p) (pl_updatedOld p ++ omap updated_of ops) (pl_addedIDs p ++ omap added_of ops) (pl_stale p) true, s, err).

(** What a failure of the store gives is logged only. *)
Definition remove_hook (s : HookStore) (id : string) : HookStore := (HookRemove s id).1.
Definition restore_hook (s : HookStore) (h : Hook) : HookStore := (HookUpdate s h).1.

Definition plan_Commit (p : pluginHookSyncPlan) (s : HookStore) : HookStore :=
  if pl_applied p then foldl remove_hook s (H_ID <$> pl_stale p) else s.

Definition plan_Rollback (p : pluginHookSyncPlan) (s : HookStore) : HookStore :=
  if pl_applied p then foldl restore_hook (foldl remove_hook s (reverse (pl_addedIDs p))) (reverse (pl_updatedOld p)) else s.
End Sync.

(** ** Stores *)

(** Hooks are stored under their identifiers, and the next identifiers are free. *)
Record hooks_ok (s : HookStore) : Prop := {
  hk_id id h : hs_hooks s !! id = Some h -> H_ID h = id;
  hk_fresh n : (hs_next s < n < 2 ^ 64)%N -> hs_hooks s !! hook_id n = None }.

Lemma parse_digits_zero s : s <> "" -> parse_digits ("0" +:+ s) = parse_digits s.
Proof.
  intros Hs. unfold parse_digits. rewrite decide_False by done. rewrite (decide_False (P := s = "")) by done.
  change (NilEmpty.uint_of_string ("0" +:+ s)) with (option_map Decimal.D0 (NilEmpty.uint_of_string s)).
  by destruct (NilEmpty.uint_of_string s).
Qed.

Lemma parse_padded w n : parse_digits (padded w (Z.of_N n)) = Some n.
Proof.
  unfold padded, FormatInt. rewrite decide_False, N2Z.id by lia. generalize (w - String.length (decimal n))%nat. intros k.
  destruct (decimal_shape n) as (a & rest & E & _).
  enough (String.concat "" (repeat "0" k) +:+ decimal n <> "" /\ parse_digits (String.concat "" (repeat "0" k) +:+ decimal n) = Some n) by naive_solver.
  induction k as [|k [IH1 IH2]]; [split; [by rewrite E|apply parse_digits_decimal]|].
  assert (String.concat "" (repeat "0" (S k)) = "0" +:+ String.concat "" (repeat "0" k)) as -> by (destruct k; done).
  split; [done|]. set (t := String.concat _ _) in *. change (("0" +:+ t) +:+ decimal n) with ("0" +:+ (t +:+ decimal n)).
  by rewrite parse_digits_zero.
Qed.

Lemma hook_id_inj m n : hook_id m = hook_id n -> m = n.
Proof.
  unfold hook_id. intros E%String.app_inj. apply (f_equal parse_digits) in E. rewrite !parse_padded in E. congruence.
Qed.

Lemma HookAdd_spec s d now :
  hooks_ok s -> (hs_next s + 1 < 2 ^ 64)%N ->
  exists id, id = hook_id (hs_next s + 1) /\ hs_hooks s !! id = None /\ HookAdd s d now = (mkHookStore (hs_next s + 1) (<[id := added id now d]> (hs_hooks s)), added id now d)
    /\ hooks_ok (HookAdd s d now).1.
Proof.
  intros [H1 H2] Hn. exists (hook_id (hs_next s + 1)). unfold HookAdd. rewrite N.mod_small by done. split_and!; [done|by apply H2; lia|done|].
  constructor; cbn [fst hs_hooks hs_next added H_ID].
  - intros id h [[<- <-]|[_ ?]]%lookup_insert_Some; [done|by apply H1].
  - intros n Hlt. rewrite lookup_insert_ne by (intros E%hook_id_inj; lia). apply H2. lia.
Qed.

Lemma insert_ok s id h : hooks_ok s -> H_ID h = id -> is_Some (hs_hooks s !! id) -> hooks_ok (mkHookStore (hs_next s) (<[id := h]> (hs_hooks s))).
Proof.
  intros [H1 H2] Hid [x Hx]. constructor; cbn [hs_hooks hs_next].
  - intros i y [[<- <-]|[_ ?]]%lookup_insert_Some; [done|by apply H1].
  - intros n Hn. rewrite lookup_insert_ne; [by apply H2|]. intros ->. by rewrite H2 in Hx.
Qed.

Lemma delete_ok s id : hooks_ok s -> hooks_ok (mkHookStore (hs_next s) (delete id (hs_hooks s))).
Proof.
  intros [H1 H2]. constructor; cbn [hs_hooks hs_next].
  - intros i y [_ ?]%lookup_delete_Some. by apply H1.
  - intros n Hn. apply lookup_delete_None. right. by apply H2.
Qed.

Lemma remove_hook_lookup s id : remove_hook s id = mkHookStore (hs_next s) (delete id (hs_hooks s)).
Proof. unfold remove_hook, HookRemove. destruct (hs_hooks s !! id) eqn:E; [done|]. rewrite delete_id by done. by destruct s. Qed.

Lemma remove_hooks_lookup ids s :
  foldl remove_hook s ids = mkHookStore (hs_next s) (filter (fun x => x.1 ∉ ids) (hs_hooks s)).
Proof.
  revert s. induction ids as [|id ids IH]; intros s; cbn [foldl].
  - rewrite map_filter_id; [by destruct s|]. intros. cbn. by apply not_elem_of_nil.
  - rewrite IH, remove_hook_lookup. cbn [hs_next hs_hooks]. f_equal. apply map_eq. intros i. apply option_eq. intros h.
    rewrite !map_lookup_filter_Some, lookup_delete_Some. cbn. rewrite not_elem_of_cons. naive_solver.
Qed.

Lemma updated_elem old (ops : list reconciled) : old ∈ omap updated_of ops <-> Updated old ∈ ops.
Proof.
  rewrite list_elem_of_omap. split; [intros ([]&?&?); by simplify_eq/=|]. by exists (Updated old).
Qed.

Lemma added_elem id (ops : list reconciled) : id ∈ omap added_of ops <-> Added id ∈ ops.
Proof.
  rewrite list_elem_of_omap. split; [intros ([]&?&?); by simplify_eq/=|]. by exists (Added id).
Qed.

(** ** The loop *)

Definition desired_ok (desired : gmap string Hook) : Prop := forall k d, desired !! k = Some d -> is_plugin d /\ key_of d = k.


Section Reconcile.
Context (clock : nat -> Time) (desired by_key : gmap string Hook) (s0 : HookStore).

(** The stored hooks that are updated are those of [s0], under their keys. *)
Definition indexes : Prop := forall k old, is_Some (desired !! k) -> by_key !! k = Some old -> hs_hooks s0 !! H_ID old = Some old /\ key_of old = k.

Record progress (ks : list string) (ops : list reconciled) (s : HookStore) : Prop := {
  pr_ok : hooks_ok s;
  pr_next : (hs_next s0 <= hs_next s <= hs_next s0 + N.of_nat (length ks))%N;
  pr_fresh id : Added id ∈ ops -> exists n, id = hook_id n /\ (hs_next s0 < n < 2 ^ 64)%N;
  pr_updated old : Updated old ∈ ops -> exists k, k ∈ ks /\ is_Some (desired !! k) /\ by_key !! k = Some old;
  pr_added id : Added id ∈ ops -> hs_hooks s0 !! id = None /\ exists k d now, k ∈ ks /\ by_key !! k = None /\ desired !! k = Some d /\ hs_hooks s !! id = Some (added id now d);
  pr_key k d : k ∈ ks -> desired !! k = Some d ->
    match by_key !! k with
    | Some old => Updated old ∈ ops /\ hs_hooks s !! H_ID old = Some (keep_identity old d)
    | None => exists id now, Added id ∈ ops /\ hs_hooks s !! id = Some (added id now d)
    end;
  pr_once id id' h h' : Added id ∈ ops -> Added id' ∈ ops -> hs_hooks s !! id = Some h -> hs_hooks s !! id' = Some h' -> key_of h = key_of h' -> id = id';
  pr_rest id : Added id ∉ ops -> (forall old, Updated old ∈ ops -> H_ID old <> id) -> hs_hooks s !! id = hs_hooks s0 !! id }.

Lemma progress_start : hooks_ok s0 -> progress [] [] s0.
Proof. intros H. constructor; try done; try lia; intros *; set_solver. Qed.

Lemma progress_skip ks ops s k : desired !! k = None -> progress ks ops s -> progress (ks ++ [k]) ops s.
Proof.
  intros Hk [P1 P2 Pf P3 P4 P5 Po P6]. constructor; [done|rewrite length_app; lia|exact Pf|..|exact Po|exact P6].
  - intros old (k' & ? & ?)%P3. exists k'. set_solver.
  - intros id (? & k' & d & now & ? & ?)%P4. split; [done|]. exists k', d, now. set_solver.
  - intros k' d [? | ->%list_elem_of_singleton]%elem_of_app Hd; [by apply P5|congruence].
Qed.

Lemma progress_update ks ops s k d old :
  indexes -> desired !! k = Some d -> by_key !! k = Some old -> k ∉ ks -> progress ks ops s ->
  exists s', HookUpdate s (keep_identity old d) = (s', None) /\ progress (ks ++ [k]) (ops ++ [Updated old]) s'.
Proof.
  intros Hix Hd Hb Hk [P1 P2 Pf P3 P4 P5 Po P6]. destruct (Hix k old ltac:(by eexists) Hb) as [Hold Hkey].
  assert (Added (H_ID old) ∉ ops) as Hna by (intros [? _]%P4; congruence).
  assert (forall o, Updated o ∈ ops -> H_ID o <> H_ID old) as Hnu.
  { intros o (k' & Hk' & Hd' & Hb')%P3 E. destruct (Hix k' o Hd' Hb') as [Ho Hkey']. rewrite E in Ho. by simplify_eq. }
  assert (hs_hooks s !! H_ID old = Some old) as Hs by (by rewrite P6).
  unfold HookUpdate. cbn [keep_identity H_ID]. rewrite Hs. eexists. split; [done|]. constructor.
  - apply insert_ok; [done|done|by rewrite Hs].
  - rewrite length_app. cbn. lia.
  - intros id [? |[=]%list_elem_of_singleton]%elem_of_app. by apply Pf.
  - intros o [(k' & ? & ?)%P3|[= ->]%list_elem_of_singleton]%elem_of_app; [exists k'|exists k]; set_solver.
  - intros id [Hin|[=]%list_elem_of_singleton]%elem_of_app. destruct (P4 id Hin) as (H0 & k' & d' & now & ? & ? & ? & Hi). split; [done|].
    exists k', d', now. split_and!; [set_solver|done..|]. cbn [hs_hooks]. rewrite lookup_insert_ne; [done|]. intros <-. congruence.
  - intros k' d' [Hin| ->%list_elem_of_singleton]%elem_of_app Hd'.
    + specialize (P5 k' d' Hin Hd'). destruct (by_key !! k') as [o|] eqn:Eo.
      * destruct P5 as [P5 P5']. split; [set_solver|]. cbn [hs_hooks]. rewrite lookup_insert_ne; [done|]. intros E. by apply (Hnu o P5).
      * destruct P5 as (id & now & P5 & P5'). exists id, now. split; [set_solver|]. cbn [hs_hooks]. rewrite lookup_insert_ne; [done|]. intros <-. congruence.
    + rewrite Hb. split; [set_solver|]. cbn [hs_hooks]. rewrite lookup_insert_eq. congruence.
  - intros id id' h h' [Hi|[=]%list_elem_of_singleton]%elem_of_app [Hi'|[=]%list_elem_of_singleton]%elem_of_app. cbn [hs_hooks].
    rewrite !lookup_insert_ne by congruence. by apply Po.
  - intros id Hna' Hnu'. cbn [hs_hooks]. rewrite lookup_insert_ne by (apply (Hnu' old); set_solver). apply P6; set_solver.
Qed.

Lemma progress_add ks ops s k d now :
  desired_ok desired -> desired !! k = Some d -> by_key !! k = None -> k ∉ ks -> indexes -> progress ks ops s -> (hs_next s0 + N.of_nat (length ks) + 1 < 2 ^ 64)%N ->
  let '(s', h) := HookAdd s d now in progress (ks ++ [k]) (ops ++ [Added (H_ID h)]) s'.
Proof.
  intros Hdes Hd Hb Hk Hix [P1 P2 Pf P3 P4 P5 Po P6] Hn. destruct (HookAdd_spec s d now P1) as (id & Hidn & Hid & -> & Hok); [lia|]. cbn [added H_ID fst] in *.
  assert (hs_hooks s0 !! id = None) as Hid0.
  { destruct (hs_hooks s0 !! id) as [x|] eqn:Ex; [exfalso|done]. assert (Added id ∉ ops) as Hna by (intros (_ & ? & ? & ? & _ & _ & _ & ?)%P4; congruence).
    destruct (decide (id ∈ H_ID <$> omap updated_of ops)) as [(old & -> & Hu%updated_elem)%list_elem_of_fmap|Hno].
    - destruct (P3 old Hu) as (k' & Hk' & [d' Hd'] & Hb'). specialize (P5 k' d' Hk' Hd'). rewrite Hb' in P5. destruct P5. congruence.
    - rewrite P6 in Hid; [congruence|done|]. intros old Hu%updated_elem <-. by apply Hno, list_elem_of_fmap_2. }
  constructor; [exact Hok|rewrite length_app; cbn; lia|..]; cbn [hs_hooks].
  - intros i [? |[= ->]%list_elem_of_singleton]%elem_of_app; [by apply Pf|]. eexists. split; [exact Hidn|lia].
  - intros o [(k' & ? & ?)%P3|[=]%list_elem_of_singleton]%elem_of_app; exists k'; set_solver.
  - intros i [(H0 & k' & d' & now' & ? & ? & ? & Hi)%P4|[= ->]%list_elem_of_singleton]%elem_of_app.
    + split; [done|]. exists k', d', now'. split_and!; [set_solver|done..|]. rewrite lookup_insert_ne; [done|]. congruence.
    + split; [done|]. exists k, d, now. split_and!; [set_solver|done..|]. apply lookup_insert_eq.
  - intros k' d' [Hin| ->%list_elem_of_singleton]%elem_of_app Hd'.
    + specialize (P5 k' d' Hin Hd'). destruct (by_key !! k') as [o|] eqn:Eo.
      * destruct P5 as [P5 P5']. split; [set_solver|]. rewrite lookup_insert_ne; [done|]. congruence.
      * destruct P5 as (i & now' & P5 & P5'). exists i, now'. split; [set_solver|]. rewrite lookup_insert_ne; [done|]. congruence.
    + rewrite Hb. exists id, now. split; [set_solver|]. rewrite lookup_insert_eq. congruence.
  - assert (forall i h, Added i ∈ ops -> <[id := added id now d]> (hs_hooks s) !! i = Some h -> hs_hooks s !! i = Some h /\ key_of h <> k) as Hold.
    { intros i h (_ & k' & d' & now' & Hk' & _ & Hd' & Hi)%P4. rewrite lookup_insert_ne by congruence. rewrite Hi. intros [= <-]. split; [done|].
      destruct (Hdes k' d' Hd') as [_ <-]. intros E. apply Hk. rewrite <- E. exact Hk'. }
    assert (key_of (added id now d) = k) as Hkd by (destruct (Hdes k d Hd) as [_ <-]; done).
    intros i i' h h' [Hi|[= ->]%list_elem_of_singleton]%elem_of_app [Hi'|[= ->]%list_elem_of_singleton]%elem_of_app; [| | |done].
    + intros [? _]%Hold [? _]%Hold; [by eapply Po|done..].
    + intros [_ ?]%Hold; [|done]. rewrite lookup_insert_eq. intros [= <-]. congruence.
    + rewrite lookup_insert_eq. intros [= <-] [_ ?]%Hold; [|done]. congruence.
  - intros i Hna Hnu. rewrite lookup_insert_ne by set_solver. apply P6; set_solver.
Qed.

Lemma reconcile_all_spec keys : forall ks ops i s,
  desired_ok desired -> indexes -> NoDup (ks ++ keys) -> progress ks ops s -> (hs_next s0 + N.of_nat (length (ks ++ keys)) < 2 ^ 64)%N ->
  exists s' more, reconcile_all clock keys desired by_key i s = (s', more, None) /\ progress (ks ++ keys) (ops ++ more) s'.
Proof.
  induction keys as [|k keys IH]; intros ks ops i s Hdes Hix Hnd Hp Hn; cbn [reconcile_all].
  { exists s, []. by rewrite !app_nil_r. }
  rewrite cons_middle, app_assoc in Hnd, Hn |- *.
  assert (k ∉ ks) as Hk by (apply NoDup_app in Hnd as [[_ [Hd _]]%NoDup_app _]; set_solver).
  destruct (desired !! k) as [d|] eqn:Ed; [|by apply IH; [..|apply progress_skip|]]. unfold reconcile. destruct (by_key !! k) as [old|] eqn:Eb.
  - destruct (progress_update ks ops s k d old) as (s1 & -> & Hp1); [done..|]. cbn [fmap option_fmap option_map].
    destruct (IH _ _ (S i) s1 Hdes Hix Hnd Hp1 Hn) as (s2 & more & -> & Hp2). exists s2, (Updated old :: more). split; [done|]. by rewrite (cons_middle _ ops), (app_assoc ops).
  - pose proof (progress_add ks ops s k d (clock i) Hdes Ed Eb Hk Hix Hp) as Hp1. rewrite !length_app in Hn. cbn [length] in Hn.
    destruct (HookAdd s d (clock i)) as [s1 h]. destruct (IH _ _ (S i) s1 Hdes Hix Hnd (Hp1 ltac:(lia))) as (s2 & more & -> & Hp2);
      [rewrite !length_app; cbn [length]; lia|]. exists s2, (Added (H_ID h) :: more). split; [done|]. by rewrite (cons_middle _ ops), (app_assoc ops).
Qed.
End Reconcile.

(** ** What is declared *)

Section Collected.
Context {U : GoUnicode} {D : HookDecoder} (read_dir : string -> DirListing).

Lemma load_items_plugin sourceRef label file items out : load_items sourceRef label file items = inr out -> Forall is_plugin out.
Proof.
  revert out. induction items as [|h items IH]; intros out; cbn [load_items]; [by intros [= <-]|]. case_decide; [done|].
  destruct (ValidateHookDefinition _); [done|]. destruct (load_items _ _ _ items) as [|rest]; [done|]. intros [= <-]. constructor; [done|by apply IH].
Qed.

Lemma load_entries_plugin sourceRef label es out : load_entries sourceRef label es = inr out -> Forall is_plugin out.
Proof.
  revert out. induction es as [|e es IH]; intros out; cbn [load_entries]; [by intros [= <-]|]. destruct (negb _); [by apply IH|].
  destruct (decodeHookFile e) as [items|]; [|done]. destruct (load_items _ _ _ items) as [|o] eqn:E; [done|].
  destruct (load_entries _ _ es) as [|more]; [done|]. intros [= <-]. apply Forall_app. split; [by eapply load_items_plugin|by apply IH].
Qed.

Lemma loadProjectedHooks_plugin p out : loadProjectedHooks read_dir p = inr out -> Forall is_plugin out.
Proof.
  unfold loadProjectedHooks, loadHookDir. cbv zeta. case_decide; [by intros [= <-]|]. destruct (read_dir _); [by intros [= <-]|done|apply load_entries_plugin].
Qed.

Lemma collect_items_ok items m m' : desired_ok m -> Forall is_plugin items -> collect_items items m = inr m' -> desired_ok m'.
Proof.
  intros Hm Hp. revert m Hm. induction Hp as [|h items Hh Hp IH]; intros m Hm; cbn [collect_items]; [by intros [= <-]|].
  destruct (m !! _) eqn:E; [done|]. apply IH. intros k d [[<- <-]|[_ ?]]%lookup_insert_Some; [done|by apply Hm].
Qed.

Lemma CollectModuleHooks_ok sort ps desired : CollectModuleHooks read_dir sort ps = inr desired -> desired_ok desired.
Proof.
  unfold CollectModuleHooks. generalize (sort ps). intros l. assert (desired_ok ∅) as H0 by (by intros k d; rewrite lookup_empty).
  revert H0. generalize (∅ : gmap string Hook). induction l as [|p l IH]; intros m Hm; cbn [collect_projections]; [by intros [= <-]|].
  case_decide; [by apply IH|]. destruct (loadProjectedHooks read_dir p) as [|items] eqn:E; [done|].
  destruct (collect_items items m) as [|m'] eqn:Em; [done|]. apply IH. eapply collect_items_ok; [done|by eapply loadProjectedHooks_plugin|done].
Qed.
End Collected.

(** ** What a merge gives *)

(** A hook without its identity, as the store writes it. *)
Definition normal (h : Hook) : Hook := keep_identity (mkHook "" "" false "" "" "" "" 0 "" "" "" "" ∅ 0 0 false "" "" 0) (added "" 0 h).

Lemma normal_added id now d : normal (added id now d) = normal d.
Proof.
  unfold normal, added, keep_identity. cbn. unfold EffectivePriority, EffectivePhase. cbn. repeat case_decide; try done; congruence.
Qed.

Lemma normal_identity old d : normal (keep_identity old d) = normal d.
Proof. done. Qed.

(** The store [s'] has the plugin hooks that are declared, each once, with the
    identity of the hook that was there under the key, and the other hooks of [s]. *)
Record synced (desired : gmap string Hook) (s s' : HookStore) : Prop := {
  sy_user id h : ~ is_plugin h -> hs_hooks s' !! id = Some h <-> hs_hooks s !! id = Some h;
  sy_plugin id h : hs_hooks s' !! id = Some h -> is_plugin h -> exists d, desired !! key_of h = Some d /\ normal h = normal d;
  sy_desired k d : desired !! k = Some d ->
    exists id h, hs_hooks s' !! id = Some h /\ is_plugin h /\ key_of h = k
      /\ forall id' h', hs_hooks s' !! id' = Some h' -> is_plugin h' -> key_of h' = k -> id' = id;
  sy_identity id h : hs_hooks s !! id = Some h -> is_plugin h -> is_Some (desired !! key_of h) ->
    exists h', hs_hooks s' !! id = Some h' /\ is_plugin h' /\ key_of h' = key_of h /\ H_CreatedAt h' = H_CreatedAt h }.

(** No two plugin hooks of a store have the same key. *)
Definition unique_keys (s : HookStore) : Prop :=
  forall id id' h h', hs_hooks s !! id = Some h -> hs_hooks s !! id' = Some h' -> is_plugin h -> is_plugin h' -> key_of h = key_of h' -> id = id'.

Lemma existing_fold l (m : gmap string Hook) k h :
  foldl (fun m h => if decide (H_Source h = pluginHookSource) then <[pluginHookKey (H_SourceRef h) (H_Name h) := h]> m else m) m l !! k = Some h ->
  (h ∈ l /\ is_plugin h /\ key_of h = k) \/ m !! k = Some h.
Proof.
  revert m. induction l as [|x l IH]; intros m; cbn [foldl]; [by right|]. intros [(? & ? & ?)|Hm]%IH; [left; split_and!; [by right|done..]|].
  case_decide; [|by right]. apply lookup_insert_Some in Hm as [[<- <-]|[_ ?]]; [left; split_and!; [by left|done..]|by right].
Qed.

Lemma existing_fold_has l (m : gmap string Hook) k :
  is_Some (m !! k) \/ (exists h, h ∈ l /\ is_plugin h /\ key_of h = k) ->
  is_Some (foldl (fun m h => if decide (H_Source h = pluginHookSource) then <[pluginHookKey (H_SourceRef h) (H_Name h) := h]> m else m) m l !! k).
Proof.
  revert m. induction l as [|x l IH]; intros m; cbn [foldl].
  { intros [?|(h & Hh & _)]; [done|by apply elem_of_nil in Hh]. }
  intros H. apply IH. destruct H as [Hm|(h & [->|Hh]%elem_of_cons & Hp & Hk)].
  - left. case_decide; [|done]. destruct (decide (pluginHookKey (H_SourceRef x) (H_Name x) = k)) as [<-|]; [by rewrite lookup_insert_eq|by rewrite lookup_insert_ne].
  - left. rewrite decide_True by done. subst k. unfold key_of. by rewrite lookup_insert_eq.
  - right. eauto.
Qed.

Section Merge.
Context (map_order : gmap string Hook -> list Hook) (key_order : gmap string Hook -> list string) (clock : nat -> Time).
Context (Hmap : forall m, map_order m ≡ₚ (map_to_list m).*2) (Hkeys : forall m, key_order m ≡ₚ (map_to_list m).*1).

Lemma map_order_elem m h : h ∈ map_order m <-> exists id, m !! id = Some h.
Proof.
  rewrite Hmap, list_elem_of_fmap. split.
  - intros ([id x] & -> & Hx%elem_of_map_to_list). by exists id.
  - intros [id Hid]. exists (id, h). split; [done|by apply elem_of_map_to_list].
Qed.

Lemma existing_spec s k h :
  hooks_ok s -> existing_by_key (map_order (hs_hooks s)) !! k = Some h -> hs_hooks s !! H_ID h = Some h /\ is_plugin h /\ key_of h = k.
Proof.
  intros Hok [([id Hid]%map_order_elem & ? & ?)|?]%existing_fold; [|by rewrite lookup_empty in *]. by rewrite (hk_id s Hok id h Hid).
Qed.

Lemma existing_has s id h :
  hs_hooks s !! id = Some h -> is_plugin h -> is_Some (existing_by_key (map_order (hs_hooks s)) !! key_of h).
Proof. intros Hid Hp. apply existing_fold_has. right. exists h. split_and!; [apply map_order_elem; eauto|done..]. Qed.

(** The store after a merge, entry by entry; [by_key] are the stored plugin hooks. *)
Record merged (desired : gmap string Hook) (s : HookStore) (m : gmap string Hook) (by_key : gmap string Hook) : Prop := {
  mg_key k d : desired !! k = Some d ->
    match by_key !! k with
    | Some old => m !! H_ID old = Some (keep_identity old d)
    | None => exists id now, m !! id = Some (added id now d)
    end;
  mg_from id h : m !! id = Some h ->
    (exists d old, desired !! key_of d = Some d /\ by_key !! key_of d = Some old /\ id = H_ID old /\ h = keep_identity old d)
    \/ (exists d now, desired !! key_of d = Some d /\ by_key !! key_of d = None /\ h = added id now d /\ hs_hooks s !! id = None)
    \/ (hs_hooks s !! id = Some h /\ ~ (is_plugin h /\ desired !! key_of h = None)
        /\ forall k old, is_Some (desired !! k) -> by_key !! k = Some old -> H_ID old <> id);
  mg_user id h : ~ is_plugin h -> hs_hooks s !! id = Some h -> m !! id = Some h;
  mg_once id id' h h' : m !! id = Some h -> m !! id' = Some h' -> hs_hooks s !! id = None -> hs_hooks s !! id' = None -> key_of h = key_of h' -> id = id' }.
Section Merged.
Context (desired : gmap string Hook) (s : HookStore) (m by_key : gmap string Hook).
Context (Hm : merged desired s m by_key) (Hdes : desired_ok desired) (Huniq : unique_keys s).
Context (Hix : forall k old, by_key !! k = Some old -> hs_hooks s !! H_ID old = Some old /\ is_plugin old /\ key_of old = k).
Context (Hhas : forall id h, hs_hooks s !! id = Some h -> is_plugin h -> is_Some (by_key !! key_of h)).

Lemma merged_plugin id h : m !! id = Some h -> is_plugin h -> exists d, desired !! key_of h = Some d /\ normal h = normal d
  /\ ((exists old, by_key !! key_of h = Some old /\ id = H_ID old) \/ (by_key !! key_of h = None /\ hs_hooks s !! id = None)).
Proof.
  intros Hid Hp. destruct (mg_from _ _ _ _ Hm id h Hid) as [(d & old & Hd & Hb & -> & ->)|[(d & now & Hd & Hb & -> & Hs)|(Hs & Hst & Hno)]].
  - exists d. split_and!; [done|done|left; eauto].
  - exists d. split_and!; [done|apply normal_added|by right].
  - exfalso. destruct (desired !! key_of h) as [d|] eqn:Ed; [|by apply Hst]. destruct (Hhas id h Hs Hp) as [old Hold].
    destruct (Hix _ _ Hold) as (H1 & H2 & H3). apply (Hno (key_of h) old); [by rewrite Ed|done|]. by apply (Huniq _ _ old h).
Qed.

Lemma merged_synced n : synced desired s (mkHookStore n m).
Proof.
  constructor; cbn [hs_hooks].
  - intros id h Hp. split; [|by apply (mg_user _ _ _ _ Hm)].
    intros Hid. destruct (mg_from _ _ _ _ Hm id h Hid) as [(d & old & Hd & _ & _ & ->)|[(d & now & Hd & _ & -> & _)|(Hs & _)]]; [..|done].
    + by destruct Hp, (Hdes _ _ Hd).
    + by destruct Hp, (Hdes _ _ Hd).
  - intros id h Hid Hp. destruct (merged_plugin id h Hid Hp) as (d & ? & ? & _). eauto.
  - intros k d Hd. destruct (Hdes k d Hd) as [Hpd Hkd]. pose proof (mg_key _ _ _ _ Hm k d Hd) as Hk. destruct (by_key !! k) as [old|] eqn:Eb.
    + exists (H_ID old), (keep_identity old d). split_and!; [done..|]. intros id' h' Hid' Hp' <-.
      destruct (merged_plugin id' h' Hid' Hp') as (_ & _ & _ & [(o & Ho & ->)|[Ho _]]); congruence.
    + destruct Hk as (id & now & Hid). exists id, (added id now d). split_and!; [done..|]. intros id' h' Hid' Hp' Hk'.
      destruct (merged_plugin id _ Hid Hpd) as (_ & _ & _ & [(o & Ho & ->)|[_ Hs]]); [change (key_of (added (H_ID o) now d)) with (key_of d) in Ho; congruence|].
      destruct (merged_plugin id' h' Hid' Hp') as (_ & _ & _ & [(o & Ho & ->)|[_ Hs']]); [congruence|].
      apply (mg_once _ _ _ _ Hm id' id h' (added id now d)); [done..|]. by rewrite Hk', <- Hkd.
  - intros id h Hid Hp [d Hd]. destruct (Hhas id h Hid Hp) as [old Hold]. destruct (Hix _ _ Hold) as (H1 & H2 & H3).
    pose proof (mg_key _ _ _ _ Hm _ d Hd) as Hk. rewrite Hold in Hk. destruct (Hdes _ d Hd) as [Hpd Hkd].
    assert (H_ID old = id) as <- by (by apply (Huniq _ _ old h)). assert (old = h) as <- by congruence.
    exists (keep_identity old d). split_and!; [done|done|exact Hkd|done].
Qed.
End Merged.

(** The loop gives such a store when the stale hooks are removed before or after. *)
Lemma progress_merged desired by_key s s0 keys ops s1 m :
  desired_ok desired -> indexes desired by_key s -> indexes desired by_key s0 ->
  (forall k, k ∈ keys <-> is_Some (desired !! k)) -> (forall k old, by_key !! k = Some old -> is_plugin old) ->
  (forall id h, hs_hooks s !! id = Some h -> hs_hooks s0 !! id = None -> is_plugin h /\ desired !! key_of h = None) ->
  (forall id h, hs_hooks s0 !! id = Some h -> hs_hooks s !! id = Some h) ->
  progress desired by_key s0 keys ops s1 ->
  (forall id h, m !! id = Some h <-> hs_hooks s1 !! id = Some h /\ ~ (hs_hooks s !! id = Some h /\ is_plugin h /\ desired !! key_of h = None)) ->
  (forall id, Added id ∈ ops -> hs_hooks s !! id = None) ->
  merged desired s m by_key.
Proof.
  intros Hdes Hix Hix0 Hkeys' Hplug Hrem Hsub [P1 P2 Pf P3 P4 P5 Po P6] Hmm Hfresh.
  assert (forall k d h, desired !! k = Some d -> key_of h = key_of d -> desired !! key_of h <> None) as Hnst.
  { intros k d h Hd Hk. destruct (Hdes k d Hd) as [_ Hkd]. by rewrite Hk, Hkd, Hd. }
  constructor.
  - intros k d Hd. specialize (P5 k d). rewrite Hkeys', Hd in P5. specialize (P5 ltac:(by eexists) eq_refl). destruct (by_key !! k) as [old|].
    + apply Hmm. split; [by destruct P5|]. intros (_ & _ & Hno). by apply (Hnst k d (keep_identity old d)).
    + destruct P5 as (id & now & Ha & Hid). exists id, now. apply Hmm. split; [done|]. intros (_ & _ & Hno). by apply (Hnst k d (added id now d)).
  - intros id h [Hid Hst]%Hmm. destruct (decide (id ∈ omap added_of ops)) as [Ha%added_elem|Ha].
    + right; left. destruct (P4 id Ha) as (_ & k & d & now & Hk & Hb & Hd & Hi). destruct (Hdes k d Hd) as [_ <-]. exists d, now.
      split_and!; [done|done|congruence|by apply Hfresh].
    + destruct (decide (id ∈ H_ID <$> omap updated_of ops)) as [(old & -> & Hu%updated_elem)%list_elem_of_fmap|Hu].
      * left. destruct (P3 old Hu) as (k & Hk & [d Hd] & Hb). specialize (P5 k d Hk Hd). rewrite Hb in P5. destruct P5 as [_ P5].
        destruct (Hdes k d Hd) as [_ <-]. exists d, old. split_and!; [done..|congruence].
      * right; right. rewrite added_elem in Ha. rewrite P6 in Hid; [|done|intros old Ho%updated_elem <-; by apply Hu, list_elem_of_fmap_2].
        split_and!; [by apply Hsub|intros [? ?]; apply Hst; split_and!; [by apply Hsub|done..]|].
        intros k old [d Hd] Hb <-. specialize (P5 k d). rewrite Hkeys', Hd, Hb in P5. destruct (P5 ltac:(by eexists) eq_refl) as [P5' _].
        apply Hu, list_elem_of_fmap_2. by apply updated_elem.
  - intros id h Hp Hid. apply Hmm. split; [|by intros (_ & ? & _)].
    assert (hs_hooks s0 !! id = Some h) as Hid0.
    { destruct (hs_hooks s0 !! id) as [x|] eqn:Ex; [apply Hsub in Ex; congruence|]. by destruct (Hrem id h Hid Ex). }
    rewrite P6; [done|intros Ha%Hfresh; congruence|]. intros old (k & Hk & Hd & Hb)%P3 <-. destruct (Hix k old Hd Hb) as [Ho Hko].
    assert (old = h) as -> by congruence. by apply Hp, (Hplug k).
  - intros id id' h h' [H1 _]%Hmm [H2 _]%Hmm Hs Hs' Hk.
    assert (forall i x, hs_hooks s1 !! i = Some x -> hs_hooks s !! i = None -> Added i ∈ ops) as Hadd.
    { intros i x Hi Hsi. destruct (decide (i ∈ omap added_of ops)) as [Ha%added_elem|Ha]; [done|exfalso]. rewrite added_elem in Ha.
      destruct (decide (i ∈ H_ID <$> omap updated_of ops)) as [(old & -> & (k & _ & Hd & Hb)%updated_elem%P3)%list_elem_of_fmap|Hu].
      - destruct (Hix k old Hd Hb). congruence.
      - rewrite P6 in Hi; [|done|intros old Ho%updated_elem <-; by apply Hu, list_elem_of_fmap_2]. apply Hsub in Hi. congruence. }
    by apply (Po id id' h h'); eauto.
Qed.

Lemma remove_keys_spec keys desired by_key s :
  hooks_ok s -> NoDup keys -> (forall k old, k ∈ keys -> by_key !! k = Some old -> hs_hooks s !! H_ID old = Some old /\ key_of old = k) ->
  exists s', remove_keys keys desired by_key s = (s', None) /\ hooks_ok s' /\ hs_next s' = hs_next s
    /\ forall id h, hs_hooks s' !! id = Some h
         <-> hs_hooks s !! id = Some h /\ ~ exists k, k ∈ keys /\ by_key !! k = Some h /\ desired !! k = None.
Proof.
  intros Hok Hnd. revert s Hok. induction Hnd as [|k keys Hk Hnd IH]; intros s Hok Hix; cbn [remove_keys].
  { exists s. split_and!; [done..|]. intros id h. split; [|by intros [? _]]. intros ?. split; [done|]. intros (k & Hk & _). by apply elem_of_nil in Hk. }
  assert (forall k' old, k' ∈ keys -> by_key !! k' = Some old -> hs_hooks s !! H_ID old = Some old /\ key_of old = k') as Hix' by (intros; apply Hix; [by right|done]).
  assert (by_key !! k = None \/ is_Some (desired !! k) -> exists s', remove_keys keys desired by_key s = (s', None) /\ hooks_ok s' /\ hs_next s' = hs_next s
    /\ forall id h, hs_hooks s' !! id = Some h <-> hs_hooks s !! id = Some h /\ ~ exists k', k' ∈ k :: keys /\ by_key !! k' = Some h /\ desired !! k' = None) as Hskip.
  { intros Hs. destruct (IH s Hok Hix') as (s' & E & H1 & H2 & H3). exists s'. split_and!; [done..|]. intros id h. rewrite H3.
    assert ((exists k', k' ∈ k :: keys /\ by_key !! k' = Some h /\ desired !! k' = None) <-> (exists k', k' ∈ keys /\ by_key !! k' = Some h /\ desired !! k' = None)) as Hiff;
      [|by rewrite Hiff]. split.
    - intros (k' & [->|?]%elem_of_cons & Hb & Hd); [|by eauto]. destruct Hs as [?|[? ?]]; congruence.
    - intros (k' & ? & ? & ?). exists k'. split_and!; [by right|done..]. }
  destruct (by_key !! k) as [item|] eqn:Eb; [|by apply Hskip; left]. destruct (desired !! k) eqn:Ed; [by apply Hskip; right; eexists|]. clear Hskip.
  destruct (Hix k item) as [Hit Hkey]; [by left|done|]. unfold HookRemove. rewrite Hit. pose proof (delete_ok s (H_ID item) Hok) as Hok1.
  set (s1 := mkHookStore _ _) in *.
  assert (forall k' old, k' ∈ keys -> by_key !! k' = Some old -> hs_hooks s1 !! H_ID old = Some old /\ key_of old = k') as Hix1.
  { intros k' old Hk' Hb. destruct (Hix' k' old Hk' Hb) as [Ho Hko]. split; [|done]. cbn [hs_hooks s1]. rewrite lookup_delete_ne; [done|]. intros E.
    rewrite E in Hit. assert (item = old) as -> by congruence. congruence. }
  destruct (IH s1 Hok1 Hix1) as (s' & E & H1 & H2 & H3). exists s'. split_and!; [done..|]. intros id h. rewrite H3. cbn [hs_hooks s1]. rewrite lookup_delete_Some. split.
  - intros [[Hne Hid] Hno]. split; [done|]. intros (k' & [->|?]%elem_of_cons & Hb & Hd); [|by apply Hno; eauto]. apply Hne. rewrite <- (hk_id s Hok id h Hid). congruence.
  - intros [Hid Hno]. split_and!; [|done|].
    + intros <-. apply Hno. exists k. split_and!; [by left| |done]. congruence.
    + intros (k' & ? & ? & ?). apply Hno. exists k'. split_and!; [by right|done..].
Qed.

Lemma restore_spec l : forall s m0,
  (forall h, h ∈ l -> m0 !! H_ID h = Some h) -> (forall h, h ∈ l -> is_Some (hs_hooks s !! H_ID h)) ->
  (forall id, id ∉ H_ID <$> l -> hs_hooks s !! id = m0 !! id) -> hs_hooks (foldl restore_hook s l) = m0.
Proof.
  induction l as [|h l IH]; intros s m0 H1 H2 H3; cbn [foldl].
  { apply map_eq. intros id. apply H3. apply not_elem_of_nil. }
  destruct (H2 h) as [x Hx]; [by left|]. unfold restore_hook at 2, HookUpdate. rewrite Hx. apply IH; cbn [fst hs_hooks].
  - intros. apply H1. by right.
  - intros h' Hh'. destruct (decide (H_ID h = H_ID h')) as [->|]; [by rewrite lookup_insert_eq|]. rewrite lookup_insert_ne by done. apply H2. by right.
  - intros id Hid. destruct (decide (H_ID h = id)) as [<-|Hne]; [rewrite lookup_insert_eq; symmetry; apply H1; by left|].
    rewrite lookup_insert_ne by done. apply H3. cbn. by intros [->|?]%elem_of_cons.
Qed.

Lemma synced_unique desired s s' : synced desired s s' -> unique_keys s'.
Proof.
  intros [_ H2 H3 _] id id' h h' Hid Hid' Hp Hp' Hk. destruct (H2 id h Hid Hp) as (d & Hd & _). destruct (H3 _ d Hd) as (i & x & _ & _ & _ & Hx).
  transitivity i; [by apply (Hx id h)|symmetry; by apply (Hx id' h')].
Qed.

(** The keys of a map in some order. *)
Lemma keys_of_map (m : gmap string Hook) l : l ≡ₚ (map_to_list m).*1 -> NoDup l /\ (forall k, k ∈ l <-> is_Some (m !! k)) /\ length l = size m.
Proof.
  intros Hl. rewrite Hl. split_and!; [apply NoDup_fst_map_to_list| |by rewrite length_fmap, length_map_to_list].
  intros k. rewrite Hl, list_elem_of_fmap. split.
  - intros ([k' h] & -> & Hin%elem_of_map_to_list). by eexists.
  - intros [h Hh]. exists (k, h). split; [done|by apply elem_of_map_to_list].
Qed.

Section Exact.
Context (desired : gmap string Hook) (s : HookStore).
Context (Hdes : desired_ok desired) (Hok : hooks_ok s) (Huniq : unique_keys s).
Context (Hroom : (hs_next s + N.of_nat (size desired) < 2 ^ 64)%N).

Abbreviation stored := (existing_by_key (map_order (hs_hooks s))).

Lemma stored_spec k old : stored !! k = Some old -> hs_hooks s !! H_ID old = Some old /\ is_plugin old /\ key_of old = k.
Proof. by apply existing_spec. Qed.

Lemma sync_exact keys0 :
  keys0 ≡ₚ (map_to_list stored).*1 ->
  exists s1 s2 ops, remove_keys keys0 desired stored s = (s1, None)
    /\ reconcile_all clock (key_order desired) desired stored 0 s1 = (s2, ops, None) /\ hooks_ok s2 /\ synced desired s s2.
Proof.
  intros Hk0. destruct (keys_of_map _ _ Hk0) as (Hnd0 & Hin0 & _). destruct (keys_of_map desired _ (Hkeys desired)) as (Hnd & Hin & Hlen).
  destruct (remove_keys_spec keys0 desired stored s) as (s1 & E1 & Hok1 & Hn1 & Hs1); [done..|by intros k old _ (?&?&?)%stored_spec|].
  assert (indexes desired stored s) as Hix by (intros k old _ (?&?&?)%stored_spec; done).
  assert (indexes desired stored s1) as Hix1.
  { intros k old [d Hd] Hb. destruct (stored_spec k old Hb) as (H1 & H2 & H3). split; [|done]. apply Hs1. split; [done|].
    intros (k' & _ & (_ & _ & H3')%stored_spec & Hd'). congruence. }
  destruct (reconcile_all_spec clock desired stored s1 (key_order desired) [] [] 0 s1) as (s2 & ops & E2 & Hp);
    [done..|by apply progress_start|rewrite app_nil_l, Hlen; lia|].
  exists s1, s2, ops. split_and!; [done|done|by destruct Hp|].
  assert (forall id h, hs_hooks s1 !! id = Some h <-> hs_hooks s !! id = Some h /\ ~ (is_plugin h /\ desired !! key_of h = None)) as Hs1'.
  { intros id h. rewrite Hs1. split; intros [Hid Hno]; (split; [done|]).
    - intros [Hpl Hd]. destruct (existing_has s id h Hid Hpl) as [x Hx]. destruct (stored_spec _ x Hx) as (H1 & H2 & H3).
      assert (H_ID x = id) as <- by (by apply (Huniq _ _ x h)). assert (x = h) as -> by congruence. apply Hno. exists (key_of h). rewrite Hin0. eauto.
    - intros (k & _ & (_ & ? & <-)%stored_spec & ?). by apply Hno. }
  clear Hs1. assert (forall id h, hs_hooks s1 !! id = Some h -> hs_hooks s !! id = Some h) as Hsub by (intros id h [? _]%Hs1'; done).
  assert (forall id h, hs_hooks s !! id = Some h -> hs_hooks s1 !! id = None -> is_plugin h /\ desired !! key_of h = None) as Hrem.
  { intros id h Hid Hnone. destruct (decide (H_Source h = pluginHookSource /\ desired !! key_of h = None)) as [?|Hno]; [done|].
    assert (hs_hooks s1 !! id = Some h) by (by apply Hs1'). congruence. }
  assert (forall id, Added id ∈ ops -> hs_hooks s !! id = None) as Hfresh.
  { intros id (n & -> & Hn)%(pr_fresh _ _ _ _ _ _ Hp). apply (hk_fresh s Hok). by rewrite <- Hn1. }
  assert (merged desired s (hs_hooks s2) stored) as Hm.
  { eapply (progress_merged desired stored s s1 _ ops s2); [done..|by intros k old (?&?&?)%stored_spec|done|done|exact Hp| |].
    - intros id h. split; [|by intros [? _]]. intros Hid. split; [done|]. intros (Hs & Hpl & Hd).
      assert (hs_hooks s1 !! id = Some h) as [_ Hno]%Hs1'; [|by apply Hno].
      rewrite <- Hid. symmetry. apply (pr_rest _ _ _ _ _ _ Hp); [intros ?%Hfresh; congruence|].
      intros old (k & _ & [d Hk] & Hb)%(pr_updated _ _ _ _ _ _ Hp) <-. destruct (stored_spec k old Hb) as (H1 & _ & <-). congruence.
    - exact Hfresh. }
  destruct s2 as [n2 m2]. apply (merged_synced desired s m2 stored Hm Hdes Huniq); [apply stored_spec|]. intros id h. by apply existing_has.
Qed.

Lemma stale_elem id :
  id ∈ H_ID <$> filter (fun h => H_Source h = "plugin" /\ desired !! pluginHookPlanKey (H_SourceRef h) (H_Name h) = None) (map_order (hs_hooks s))
  <-> exists h, hs_hooks s !! id = Some h /\ is_plugin h /\ desired !! key_of h = None.
Proof.
  rewrite list_elem_of_fmap. split.
  - intros (h & -> & [[Hp Hd] [i Hid]%map_order_elem]%list_elem_of_filter). rewrite (hk_id s Hok i h Hid). eauto.
  - intros (h & Hid & Hp & Hd). exists h. split; [symmetry; by apply (hk_id s Hok)|]. apply list_elem_of_filter. split; [done|]. apply map_order_elem. eauto.
Qed.

Lemma plan_progress :
  exists s2 ops, reconcile_all clock (sorted_keys desired) desired stored 0 s = (s2, ops, None) /\ progress desired stored s (sorted_keys desired) ops s2.
Proof.
  destruct (keys_of_map desired (sorted_keys desired)) as (Hnd & _ & Hlen); [apply merge_sort_Permutation|].
  destruct (reconcile_all_spec clock desired stored s (sorted_keys desired) [] [] 0 s) as (s2 & ops & E & Hp);
    [done|by intros k old _ (?&?&?)%stored_spec|done|by apply progress_start|by rewrite app_nil_l, Hlen|]. by exists s2, ops.
Qed.

Lemma commit_exact ops s2 : progress desired stored s (sorted_keys desired) ops s2 ->
  synced desired s (foldl remove_hook s2 (H_ID <$> filter (fun h => H_Source h = "plugin" /\ desired !! pluginHookPlanKey (H_SourceRef h) (H_Name h) = None)
                                            (map_order (hs_hooks s)))).
Proof.
  intros Hp. rewrite remove_hooks_lookup. destruct (keys_of_map desired (sorted_keys desired)) as (_ & Hin & _); [apply merge_sort_Permutation|].
  assert (indexes desired stored s) as Hix by (intros k old _ (?&?&?)%stored_spec; done).
  assert (forall id, Added id ∈ ops -> hs_hooks s !! id = None) as Hfresh by (intros id [? _]%(pr_added _ _ _ _ _ _ Hp); done).
  refine (merged_synced desired s _ stored _ Hdes Huniq stored_spec _ _); [|intros id h; by apply existing_has].
  eapply (progress_merged desired stored s s _ ops s2); [done..|by intros k old (?&?&?)%stored_spec|congruence|done|exact Hp| |exact Hfresh].
  intros id h. rewrite map_lookup_filter_Some. cbn [fst]. rewrite stale_elem. split; intros [Hid Hno]; (split; [done|]).
  - intros (? & ? & ?). apply Hno. eauto.
  - intros (x & Hx & Hpx & Hd). apply Hno. rewrite (pr_rest _ _ _ _ _ _ Hp) in Hid; [naive_solver congruence|intros ?%Hfresh; congruence|].
    intros old (k & _ & [d Hk] & Hb)%(pr_updated _ _ _ _ _ _ Hp) <-. destruct (stored_spec k old Hb) as (H1 & _ & <-). congruence.
Qed.

Lemma rollback_exact ops s2 : progress desired stored s (sorted_keys desired) ops s2 ->
  hs_hooks (foldl restore_hook (foldl remove_hook s2 (reverse (omap added_of ops))) (reverse (omap updated_of ops))) = hs_hooks s.
Proof.
  intros Hp. assert (forall old, Updated old ∈ ops -> hs_hooks s !! H_ID old = Some old /\ is_Some (hs_hooks s2 !! H_ID old)) as Hu.
  { intros old (k & Hk & [d Hd] & Hb)%(pr_updated _ _ _ _ _ _ Hp). destruct (stored_spec k old Hb) as [H1 _]. split; [done|].
    pose proof (pr_key _ _ _ _ _ _ Hp k d Hk Hd) as H. rewrite Hb in H. destruct H as [_ ->]. by eexists. }
  assert (forall id, Added id ∈ ops -> hs_hooks s !! id = None) as Ha by (intros id [? _]%(pr_added _ _ _ _ _ _ Hp); done).
  assert (forall id, id ∉ reverse (omap added_of ops) <-> Added id ∉ ops) as Hadd by (intros id; by rewrite elem_of_reverse, added_elem).
  rewrite remove_hooks_lookup. apply restore_spec; cbn [hs_hooks].
  - intros h. rewrite elem_of_reverse, updated_elem. intros ?. by apply Hu.
  - intros h. rewrite elem_of_reverse, updated_elem. intros [H1 [x Hx]]%Hu. exists x. apply map_lookup_filter_Some. split; [done|].
    cbn. apply Hadd. intros ?%Ha. congruence.
  - intros id Hid. apply option_eq. intros h. rewrite map_lookup_filter_Some. cbn [fst]. rewrite Hadd.
    assert (Added id ∉ ops -> hs_hooks s2 !! id = hs_hooks s !! id) as Hrest.
    { intros Hna. apply (pr_rest _ _ _ _ _ _ Hp); [done|]. intros old Ho <-. apply Hid, list_elem_of_fmap_2. by rewrite elem_of_reverse, updated_elem. }
    split; [intros [H1 H2]; by rewrite <- Hrest|]. intros Hs. assert (Added id ∉ ops) by (intros ?%Ha; congruence). by rewrite Hrest.
Qed.
End Exact.

Context {U : GoUnicode} {D : HookDecoder} (read_dir : string -> DirListing) (sort : list DirectoryProjection -> list DirectoryProjection).

(** C30: merging the hooks that the modules declare never fails in the store: it
    leaves exactly the declared plugin hooks, each once, updated hooks keep their
    identifier and time of creation, and the hooks of the user are untouched; the
    store stays well-formed. *)
Theorem module_hooks_synced ps desired s :
  hooks_ok s -> unique_keys s -> (hs_next s + N.of_nat (size desired) < 2 ^ 64)%N ->
  CollectModuleHooks read_dir sort ps = inr desired ->
  let '(s', err) := SyncModuleHooks map_order key_order clock (CollectModuleHooks read_dir sort ps) s in
  err = None /\ synced desired s s' /\ hooks_ok s' /\ unique_keys s'.
Proof.
  intros Hok Hu Hn Hc. pose proof (CollectModuleHooks_ok _ _ _ _ Hc) as Hdes. rewrite Hc. unfold SyncModuleHooks.
  destruct (sync_exact desired s Hdes Hok Hu Hn (key_order (existing_by_key (map_order (hs_hooks s))))) as (s1 & s2 & ops & -> & -> & Hok2 & Hs); [apply Hkeys|].
  split_and!; [done..|by apply (synced_unique desired s)].
Qed.

(** C29: a refresh of the plugin hooks happens completely or not at all: applying
    the plan never fails in the store, committing it then leaves exactly the
    declared plugin hooks besides the hooks of the user, and rolling it back
    instead restores every hook as it was. *)
Theorem hook_plan_atomic ps desired p s :
  hooks_ok s -> unique_keys s -> (hs_next s + N.of_nat (size desired) < 2 ^ 64)%N ->
  CollectModuleHooks read_dir sort ps = inr desired ->
  buildPluginHookSyncPlan map_order (CollectModuleHooks read_dir sort ps) s = inr p ->
  let '(p', s', err) := plan_Apply map_order clock p s in
  err = None /\ synced desired s (plan_Commit p' s') /\ hs_hooks (plan_Rollback p' s') = hs_hooks s.
Proof.
  intros Hok Hu Hn Hc. pose proof (CollectModuleHooks_ok _ _ _ _ Hc) as Hdes. rewrite Hc. intros [= <-]. unfold plan_Apply. cbn [pl_desired].
  destruct (plan_progress desired s Hdes Hok Hn) as (s2 & ops & -> & Hp). split_and!; [done|by apply (commit_exact desired s Hdes Hok Hu ops)|by apply (rollback_exact desired s Hok)].
Qed.
End Merge.

(** ** Examples *)

Module Examples.
#[local] Existing Instance ascii_unicode.

Definition decl (name : string) (priority : Z) : Hook :=
  mkHook "x" name true "" "" "startup" "command" priority "" "" "" "true" ∅ 0 0 false "" "" 0.

(** A decoder that knows two bodies. *)
#[local] Instance two_bodies : HookDecoder := {|
  DecodeBundle _ body := if decide (body = "bundle") then Some ([decl "a" 0; decl " b " 5], []) else None;
  DecodeItems _ _ := None;
  DecodeSingle _ body := if decide (body = "one") then Some (decl "c" 7) else None |}.

Definition dir (path : string) : DirListing :=
  if decide (path = "/p1") then DirEntries [mkDirEntry "x.yaml" false (Some "bundle"); mkDirEntry "README" false (Some "?")]
  else if decide (path = "/p2") then DirEntries [mkDirEntry "y.json" false (Some " one ")] else DirMissing.

Definition modules : list DirectoryProjection :=
  [mkProjection "hooks_dir" "/p1" "plugin:p1" "p1" "plugin"; mkProjection "hooks_dir" "/p2" "plugin:p2" "" "plugin"].

Definition id_sort (l : list DirectoryProjection) := l.
Definition order (m : gmap string Hook) : list Hook := (map_to_list m).*2.
Definition keys (m : gmap string Hook) : list string := (map_to_list m).*1.
Definition clock (i : nat) : Time := Z.of_nat i + 100.

Definition stored_hook (id name : string) : Hook := mkHook id name true "plugin" "p1" "startup" "command" 1 "post" "" "" "old" ∅ 0 0 false "" "" 9.

Definition user_hook : Hook := mkHook "hook-000003" "mine" true "" "" "startup" "command" 1 "post" "" "" "u" ∅ 0 0 false "" "" 9.

Definition store : HookStore :=
  mkHookStore 3 (<["hook-000001" := stored_hook "hook-000001" "a"]> (<["hook-000002" := stored_hook "hook-000002" "z"]>
                 (<["hook-000003" := user_hook]> ∅))).

Definition desired : gmap string Hook := match CollectModuleHooks dir id_sort modules with inr d => d | inl _ => ∅ end.

Definition shown (s : HookStore) : list (string * string * string * Time) :=
  (fun h => (H_ID h, H_Name h, H_Command h, H_CreatedAt h)) <$> merge_sort (fun a b => String.le (H_ID a) (H_ID b)) (order (hs_hooks s)).

(** [a] is updated, [b] and [c] are added, [z] is removed, the user's hook stays. *)
Example hooks_sync_run :
  shown (SyncModuleHooks order keys clock (CollectModuleHooks dir id_sort modules) store).1
  = [("hook-000001", "a", "true", 9); ("hook-000003", "mine", "u", 9); ("hook-000004", "b", "true", 101); ("hook-000005", "c", "true", 102)].
Proof. vm_compute. reflexivity. Qed.

Definition plan : pluginHookSyncPlan :=
  match buildPluginHookSyncPlan order (CollectModuleHooks dir id_sort modules) store with inr p => p | inl _ => mkHookPlan ∅ [] [] [] false end.

(** A plan that was applied and is rolled back. *)
Example rollback_run :
  let '(p, s, _) := plan_Apply order clock plan store in (length (shown s), shown (plan_Rollback p s)) = (5%nat, shown store).
Proof. vm_compute. reflexivity. Qed.

Lemma store_cases id h : hs_hooks store !! id = Some h ->
  (id = "hook-000001" /\ h = stored_hook id "a") \/ (id = "hook-000002" /\ h = stored_hook id "z") \/ (id = "hook-000003" /\ h = user_hook).
Proof.
  unfold store. cbn [hs_hooks]. rewrite !lookup_insert_Some, lookup_empty. naive_solver.
Qed.

Lemma store_ok : hooks_ok store.
Proof.
  constructor.
  - intros id h [[-> ->]|[[-> ->]|[-> ->]]]%store_cases; done.
  - intros n [Hn _]. destruct (hs_hooks store !! hook_id n) as [h|] eqn:E; [exfalso|done]. change (hs_next store) with 3%N in Hn.
    destruct (store_cases _ _ E) as [[E' _]|[[E' _]|[E' _]]].
    + change "hook-000001" with (hook_id 1) in E'. apply hook_id_inj in E'. lia.
    + change "hook-000002" with (hook_id 2) in E'. apply hook_id_inj in E'. lia.
    + change "hook-000003" with (hook_id 3) in E'. apply hook_id_inj in E'. lia.
Qed.

Lemma store_unique : unique_keys store.
Proof.
  intros id id' h h' [[-> ->]|[[-> ->]|[-> ->]]]%store_cases [[-> ->]|[[-> ->]|[-> ->]]]%store_cases Hp Hp' Hk; try done; discriminate Hp || discriminate Hp' || discriminate Hk.
Qed.

Lemma collected : CollectModuleHooks dir id_sort modules = inr desired.
Proof. reflexivity. Qed.

Lemma module_hooks_synced_witness :
  let '(s', err) := SyncModuleHooks order keys clock (CollectModuleHooks dir id_sort modules) store in
  err = None /\ synced desired store s' /\ length (order (hs_hooks s')) = 4%nat.
Proof.
  pose proof (module_hooks_synced order keys clock (fun m => Permutation_refl _) (fun m => Permutation_refl _) dir id_sort modules desired store
                store_ok store_unique ltac:(vm_compute; reflexivity) collected) as H.
  destruct (SyncModuleHooks _ _ _ _ _) as [s' err] eqn:E. destruct H as (H1 & H2 & _). split; [exact H1|]. split; [exact H2|].
  apply (f_equal (fun x => length (order (hs_hooks x.1)))) in E. cbn [fst] in E. rewrite <- E. vm_compute. reflexivity.
Defined.

Lemma hook_plan_atomic_witness :
  let '(p', s', err) := plan_Apply order clock plan store in
  err = None /\ synced desired store (plan_Commit p' s') /\ hs_hooks (plan_Rollback p' s') = hs_hooks store.
Proof.
  exact (hook_plan_atomic order clock (fun m => Permutation_refl _) dir id_sort modules desired plan store
           store_ok store_unique ltac:(vm_compute; reflexivity) collected ltac:(vm_compute; reflexivity)).
Defined.
End Examples.
