(* ===== verification/ReloadGraph.v ===== *)
(** * What a change of the configuration rebuilds ([bootstrap/reload_graph.go],
    [bootstrap/effective_config.go], [bootstrap/channel_runtime_diff.go])

    A change of the configuration is a set of changed sections.  The plan says what
    is rebuilt, the graph in which stages, and for the channels the two
    configurations are compared name by name. *)
From S2P Require Import Prelude GoLib GoText.
From stdpp Require Import sorting.
From Stdlib Require Import Ascii.
Import Str Text.

(** ** Stages *)

Definition ReloadStageConfig : string := "config".
Definition ReloadStageModels : string := "models".
Definition ReloadStageModules : string := "modules".
Definition ReloadStageHosts : string := "hosts".
Definition ReloadStageTools : string := "tools".
Definition ReloadStageChannels : string := "channels".
Definition ReloadStagePolicy : string := "policy".
Definition ReloadStageApprovals : string := "approvals".
Definition ReloadStageGovernance : string := "governance".
Definition ReloadStageProjections : string := "projections".

Definition canonicalReloadStageOrder : list string :=
  [ReloadStageConfig; ReloadStageModels; ReloadStageModules; ReloadStageHosts; ReloadStageTools; ReloadStageChannels; ReloadStagePolicy;
   ReloadStageApprovals; ReloadStageGovernance; ReloadStageProjections].

Inductive GraphError := ErrUnknownStage (stage : string) | ErrDuplicateStage (stage : string) | ErrStageOrder (stage : string).

Fixpoint index_in (l : list string) (stage : string) (i : nat) : option nat :=
  match l with [] => None | x :: rest => if decide (x = stage) then Some i else index_in rest stage (S i) end.

Definition reloadStageOrderIndex (stage : string) : option nat := index_in canonicalReloadStageOrder stage 0.

Fixpoint validate_stages (stages seen : list string) (lastIndex : Z) : option GraphError :=
  match stages with
  | [] => None
  | stage :: rest =>
    match reloadStageOrderIndex stage with
    | None => Some (ErrUnknownStage stage)
    | Some i =>
      if decide (stage ∈ seen) then Some (ErrDuplicateStage stage)
      else if decide (Z.of_nat i < lastIndex)%Z then Some (ErrStageOrder stage)
      else validate_stages rest (stage :: seen) (Z.of_nat i)
    end
  end.

Definition validateReloadGraph (stages : list string) : option GraphError := validate_stages stages [] (-1).

Definition newReloadGraph (stages : list string) : GraphError + list string :=
  match find (fun s => negb (bool_decide (is_Some (reloadStageOrderIndex s)))) stages with
  | Some stage => inl (ErrUnknownStage stage)
  | None =>
    let ordered := filter (fun s => s ∈ stages) canonicalReloadStageOrder in
    match validateReloadGraph ordered with Some e => inl e | None => inr ordered end
  end.

Definition HasStage (graph : list string) (stage : string) : bool := existsb (fun s => bool_decide (s = stage)) graph.

Definition RuntimeStages (graph : list string) : list string := filter (fun s => s <> ReloadStageConfig) graph.

(** ** The plan *)

Record RefreshPlan := mkRefreshPlan {
  RP_Graph : list string; RP_RebuildModels : bool; RP_RebuildSkills : bool; RP_RebuildHosts : bool; RP_RebuildTools : bool;
  RP_RebuildChannels : bool; RP_RebuildPolicy : bool; RP_RebuildApproval : bool; RP_RebuildGovernance : bool; RP_RebuildAudit : bool;
  RP_RebuildApprovalTimer : bool; RP_RebuildChannelHealth : bool }.

Definition no_rebuild (graph : list string) : RefreshPlan :=
  mkRefreshPlan graph false false false false false false false false false false false.

Definition plan_stages (p : RefreshPlan) : list string :=
  let stage (b : bool) (s : string) := if b then [s] else [] in
  [ReloadStageConfig] ++ stage (RP_RebuildModels p) ReloadStageModels ++ stage (RP_RebuildSkills p) ReloadStageModules
  ++ stage (RP_RebuildHosts p) ReloadStageHosts ++ stage (RP_RebuildTools p) ReloadStageTools ++ stage (RP_RebuildChannels p) ReloadStageChannels
  ++ stage (RP_RebuildPolicy p) ReloadStagePolicy ++ stage (RP_RebuildApproval p || RP_RebuildApprovalTimer p) ReloadStageApprovals
  ++ stage (RP_RebuildGovernance p || RP_RebuildAudit p) ReloadStageGovernance
  ++ stage (RP_RebuildSkills p || RP_RebuildHosts p || RP_RebuildTools p || RP_RebuildChannels p) ReloadStageProjections.

(** [ChangeSet]: the sections of its changes. *)
Definition HasSection (sections : list string) (section : string) : bool :=
  existsb (fun c => bool_decide (c = section) || HasPrefix c (section +:+ ".")) sections.

(** The plan for the changed sections; [None] stands for the panic of a graph that
    is refused. *)
Definition refresh_Plan (sections : list string) : option RefreshPlan :=
  match sections with
  | [] => match newReloadGraph [ReloadStageConfig] with inr g => Some (no_rebuild g) | inl _ => Some (no_rebuild []) end
  | _ =>
    let has := HasSection sections in
    let hosts := has "hosts" in
    let policy := has "runtime" || has "skills" || has "exec_approval" || has "security" || has "tools" in
    let p := mkRefreshPlan [] (has "models") (has "skills") hosts (has "tools" || has "skills" || hosts) (has "channels") policy
               (policy || has "exec_approval") (has "runtime") (has "runtime") (has "exec_approval") (has "channel_health" || has "channels") in
    match newReloadGraph (plan_stages p) with
    | inl _ => None
    | inr g => Some (mkRefreshPlan g (RP_RebuildModels p) (RP_RebuildSkills p) (RP_RebuildHosts p) (RP_RebuildTools p) (RP_RebuildChannels p)
                       (RP_RebuildPolicy p) (RP_RebuildApproval p) (RP_RebuildGovernance p) (RP_RebuildAudit p) (RP_RebuildApprovalTimer p)
                       (RP_RebuildChannelHealth p))
    end
  end.

(** ** Channels *)

Record channelRuntimeDiff := mkChannelDiff { cd_Added : list string; cd_Updated : list string; cd_Removed : list string }.

Definition HasChanges (d : channelRuntimeDiff) : bool := bool_decide (cd_Added d <> [] \/ cd_Updated d <> [] \/ cd_Removed d <> []).
Definition ChangedNames (d : channelRuntimeDiff) : list string := cd_Removed d ++ cd_Updated d ++ cd_Added d.
Definition diff_Contains (d : channelRuntimeDiff) (name : string) : bool := existsb (fun x => bool_decide (x = name)) (ChangedNames d).

Definition sort_names (l : list string) : list string := merge_sort String.le l.

Section Diff.
Context {Config : Type} `{EqDecision Config}.
Context (key_order : gmap string Config -> list string).

Definition diffRuntimeChannelConfigs (oldRuntime newRuntime : gmap string Config) : channelRuntimeDiff :=
  mkChannelDiff
    (sort_names (filter (fun n => oldRuntime !! n = None) (key_order newRuntime)))
    (sort_names (filter (fun n => is_Some (newRuntime !! n) /\ oldRuntime !! n <> newRuntime !! n) (key_order oldRuntime)))
    (sort_names (filter (fun n => newRuntime !! n = None) (key_order oldRuntime))).
End Diff.

Definition webhookKeyFromChannelName (name : string) : option string :=
  if negb (HasPrefix name "webhook:") then None
  else let key := TrimSpace (TrimPrefix name "webhook:") in
       if decide (key = "") then None else if Contains key "/" then None else Some key.

(** ** Properties *)

Lemma index_in_app pre x suf i : x ∉ pre -> index_in (pre ++ x :: suf) x i = Some (i + length pre)%nat.
Proof.
  revert i. induction pre as [|y pre IH]; intros i Hx; cbn [index_in app length].
  - rewrite decide_True by done. f_equal. lia.
  - apply not_elem_of_cons in Hx as [Hy Hx]. rewrite decide_False by congruence. rewrite IH by done. f_equal. lia.
Qed.

Lemma validate_sublist suf : forall pre l seen last,
  canonicalReloadStageOrder = pre ++ suf -> sublist l suf -> (forall s, s ∈ seen -> s ∈ pre) -> (last <= Z.of_nat (length pre))%Z ->
  validate_stages l seen last = None.
Proof.
  assert (NoDup canonicalReloadStageOrder) as Hnd by (apply (bool_decide_unpack _); vm_compute; done).
  induction suf as [|x suf IH]; intros pre l seen last Hc Hl Hseen Hlast.
  { apply sublist_nil_r in Hl as ->. done. }
  assert (x ∉ pre) as Hx by (rewrite Hc in Hnd; apply NoDup_app in Hnd as (_ & Hd & _); intros Hin; apply (Hd x Hin); left).
  assert (canonicalReloadStageOrder = (pre ++ [x]) ++ suf) as Hc' by (by rewrite <- app_assoc).
  inversion Hl as [|? l' ? Hl'|? ? ? Hl']; subst.
  - cbn [validate_stages]. unfold reloadStageOrderIndex. rewrite Hc, index_in_app by done. cbn [Nat.add].
    rewrite decide_False by (intros ?%Hseen; done). rewrite decide_False by lia. apply (IH (pre ++ [x])); [done..| |rewrite length_app; cbn; lia].
    intros s [->|?%Hseen]%elem_of_cons; set_solver.
  - apply (IH (pre ++ [x])); [done..|set_solver|rewrite length_app; cbn; lia].
Qed.

Lemma sublist_filter (P : string -> Prop) `{forall x, Decision (P x)} l : sublist (filter P l) l.
Proof.
  induction l as [|x l IH]; [done|]. destruct (decide (P x)); [rewrite filter_cons_True by done; by constructor|rewrite filter_cons_False by done; by constructor].
Qed.

Lemma newReloadGraph_exact stages :
  (forall s, s ∈ stages -> s ∈ canonicalReloadStageOrder) -> newReloadGraph stages = inr (filter (fun s => s ∈ stages) canonicalReloadStageOrder).
Proof.
  intros Hs. unfold newReloadGraph. destruct (find _ stages) as [x|] eqn:E.
  - apply find_some in E as [Hin Hx]. apply negb_true_iff, bool_decide_eq_false in Hx. destruct Hx. apply list_elem_of_In, Hs in Hin.
    apply list_elem_of_split in Hin as (pre & suf & Hc). unfold reloadStageOrderIndex. revert x pre suf Hc. clear.
    assert (forall x l i, x ∈ l -> is_Some (index_in l x i)) as H.
    { intros x l. induction l as [|y l IH]; intros i Hin; [by apply elem_of_nil in Hin|]. cbn [index_in]. case_decide; [by eexists|].
      apply IH. apply elem_of_cons in Hin as [->|?]; done. }
    intros x pre suf Hc. apply H. rewrite Hc. set_solver.
  - unfold validateReloadGraph. by rewrite (validate_sublist canonicalReloadStageOrder [] _ [] (-1)); [|..|apply sublist_filter|intros ? ?%elem_of_nil|].
Qed.

Lemma plan_stages_canonical p s : s ∈ plan_stages p -> s ∈ canonicalReloadStageOrder.
Proof.
  assert (forall (b : bool) x, x ∈ canonicalReloadStageOrder -> s ∈ (if b then [x] else []) -> s ∈ canonicalReloadStageOrder) as Hone.
  { intros [] x Hx; [by intros ->%list_elem_of_singleton|by intros ?%elem_of_nil]. }
  unfold plan_stages. cbv zeta. rewrite !elem_of_app. intros [H|H].
  { apply list_elem_of_singleton in H as ->. by left. }
  repeat match goal with H : _ \/ _ |- _ => destruct H as [H|H] end; eapply Hone, H; apply (bool_decide_unpack _); vm_compute; done.
Qed.

(** The sections of the configuration that a stage depends on. *)
Definition affecting (stage : string) : list string :=
  if decide (stage = ReloadStageModels) then ["models"]
  else if decide (stage = ReloadStageModules) then ["skills"]
  else if decide (stage = ReloadStageHosts) then ["hosts"]
  else if decide (stage = ReloadStageTools) then ["tools"; "skills"; "hosts"]
  else if decide (stage = ReloadStageChannels) then ["channels"]
  else if decide (stage = ReloadStagePolicy \/ stage = ReloadStageApprovals) then ["runtime"; "skills"; "exec_approval"; "security"; "tools"]
  else if decide (stage = ReloadStageGovernance) then ["runtime"]
  else if decide (stage = ReloadStageProjections) then ["skills"; "hosts"; "tools"; "channels"]
  else [].

(** A stage has to run: the first always, another one when one of its sections, or
    something below it, changed. *)
Definition affected (sections : list string) (stage : string) : bool :=
  bool_decide (stage = ReloadStageConfig) || existsb (HasSection sections) (affecting stage).

(** Membership in the stages of a plan, as a boolean. *)
Definition stage_in (s : string) (l : list string) : bool := existsb (fun x => bool_decide (s = x)) l.

Lemma stage_in_spec s l : s ∈ l <-> stage_in s l = true.
Proof.
  unfold stage_in. rewrite existsb_exists, list_elem_of_In. split.
  - intros Hs. exists s. split; [done|by apply bool_decide_eq_true].
  - intros (x & Hx & ->%bool_decide_eq_true). done.
Qed.

Lemma stage_in_if s (b : bool) x : stage_in s (if b then [x] else []) = b && bool_decide (s = x).
Proof. unfold stage_in. destruct b; cbn [existsb]; [by rewrite orb_false_r|done]. Qed.

Lemma stage_in_app s l k : stage_in s (l ++ k) = stage_in s l || stage_in s k.
Proof. apply existsb_app. Qed.

Lemma plan_stages_affected sections p stage :
  refresh_Plan sections = Some p -> stage ∈ canonicalReloadStageOrder -> stage ∈ plan_stages p <-> affected sections stage = true.
Proof.
  intros Hp Hs. destruct sections as [|x sections].
  { vm_compute in Hp. injection Hp as <-. revert stage Hs. apply Forall_forall, (bool_decide_unpack _). vm_compute. done. }
  unfold refresh_Plan in Hp. cbv zeta in Hp. unfold affected. generalize dependent (HasSection (x :: sections)). intros has Hp.
  destruct (newReloadGraph _) as [|g]; [done|]. injection Hp as <-. rewrite stage_in_spec. apply eq_iff_eq_true. unfold plan_stages. cbv zeta.
  rewrite !stage_in_app, !stage_in_if. change (stage_in stage [ReloadStageConfig]) with (bool_decide (stage = ReloadStageConfig) || false).
  cbn [RP_RebuildModels RP_RebuildSkills RP_RebuildHosts RP_RebuildTools RP_RebuildChannels RP_RebuildPolicy RP_RebuildApproval RP_RebuildGovernance
    RP_RebuildAudit RP_RebuildApprovalTimer].
  unfold canonicalReloadStageOrder in Hs. repeat apply elem_of_cons in Hs as [->|Hs]; [..|by apply elem_of_nil in Hs];
    match goal with |- context [affecting ?s] => let l := eval vm_compute in (affecting s) in change (affecting s) with l end;
    repeat match goal with |- context [bool_decide (?x = ?y)] => let b := eval vm_compute in (bool_decide (x = y)) in change (bool_decide (x = y)) with b end;
    cbn [existsb]; rewrite ?andb_false_r, ?andb_true_r; repeat match goal with |- context [has ?x] => destruct (has x) end; reflexivity.
Qed.

(** C31: every set of changed sections has a valid plan: its stages are those that
    a change affects, in the canonical order. *)
Theorem refresh_plan_exact sections :
  exists p, refresh_Plan sections = Some p /\ validateReloadGraph (RP_Graph p) = None
    /\ RP_Graph p = filter (fun s => affected sections s = true) canonicalReloadStageOrder
    /\ RuntimeStages (RP_Graph p) = filter (fun s => affected sections s = true /\ s <> ReloadStageConfig) canonicalReloadStageOrder.
Proof.
  assert (exists p, refresh_Plan sections = Some p /\ RP_Graph p = filter (fun s => s ∈ plan_stages p) canonicalReloadStageOrder) as (p & Hp & Hg).
  { destruct sections as [|x sections]; [by eexists; split; [vm_compute|]|]. unfold refresh_Plan. cbv zeta.
    rewrite newReloadGraph_exact by apply plan_stages_canonical. by eexists. }
  exists p. split; [done|]. rewrite Hg. split.
  { apply (validate_sublist canonicalReloadStageOrder []); [done|apply sublist_filter|by intros ? ?%elem_of_nil|done]. }
  assert (filter (fun s => s ∈ plan_stages p) canonicalReloadStageOrder = filter (fun s => affected sections s = true) canonicalReloadStageOrder) as ->.
  { apply list_filter_ext. intros s Hs. by apply plan_stages_affected. }
  split; [done|]. unfold RuntimeStages. rewrite list_filter_filter. apply list_filter_iff. tauto.
Qed.

(** The names of two configurations of channels: added, updated and removed. *)
Lemma channel_diff_exact {Config} `{EqDecision Config} (key_order : gmap string Config -> list string) o n name :
  (forall m, key_order m ≡ₚ (map_to_list m).*1) ->
  let d := diffRuntimeChannelConfigs key_order o n in
  (name ∈ cd_Added d <-> o !! name = None /\ is_Some (n !! name))
  /\ (name ∈ cd_Updated d <-> is_Some (o !! name) /\ is_Some (n !! name) /\ o !! name <> n !! name)
  /\ (name ∈ cd_Removed d <-> is_Some (o !! name) /\ n !! name = None).
Proof.
  intros Hk. assert (forall m, name ∈ key_order m <-> is_Some (m !! name)) as Hin.
  { intros m. rewrite Hk, list_elem_of_fmap. split.
    - intros ([k x] & -> & Hx%elem_of_map_to_list). by eexists.
    - intros [x Hx]. exists (name, x). split; [done|by apply elem_of_map_to_list]. }
  cbn. unfold sort_names. rewrite !(merge_sort_Permutation String.le), !list_elem_of_filter, !Hin. tauto.
Qed.
