(* ===== verification/RefreshTransaction.v ===== *)
(** * Refreshing the configuration as a transaction
    ([bootstrap/runtime_transaction_domains.go],
    [bootstrap/effective_config_transaction.go], [channels/manager/manager.go])

    A refresh is a list of domains, each with an apply, a commit and a rollback
    step.  The domains are applied in order; then all are committed in order or
    rolled back in reverse.  Modelled here are the protocol over any state and the
    domains of the models and the channels; [RefreshDomains] has the others and the
    transaction as a whole.

    Clients, routers, adapters, bridges and process managers are handles.  The
    outcome of a call of an adapter is a function of the calls made before.  Moving
    the active runs of sessions to the new bridges is not modelled. *)
From S2P Require Import Prelude GoLib GoText ReloadGraph.
From stdpp Require Import sorting.
From Stdlib Require Import Ascii.
Import Str Text.

Abbreviation Handle := nat.

Inductive RefreshError :=
  | ErrDisconnectChannels (errs : list (string * string))
  | ErrInstallationMissing (name : string)
  | ErrAlreadyRegistered (name : string)
  | ErrInDomain (domain : string) (e : RefreshError)
  | ErrAppliedBefore (e : RefreshError) (applied : list string).

(** ** The protocol *)

Record runtimeTransactionDomain (S : Type) := mkDomain {
  dom_name : string; dom_apply : option (S -> S * option RefreshError); dom_commit : option (S -> S); dom_rollback : option (S -> S) }.
Arguments mkDomain {S}.
Arguments dom_name {S}.
Arguments dom_apply {S}.
Arguments dom_commit {S}.
Arguments dom_rollback {S}.

(** A transaction; [tx_applied] says that every domain was applied. *)
Record Txn (S : Type) := mkTxn { tx_applied : bool; tx_finalized : bool; tx_domains : list (runtimeTransactionDomain S) }.
Arguments mkTxn {S}.
Arguments tx_applied {S}.
Arguments tx_finalized {S}.
Arguments tx_domains {S}.

Definition new_txn {S} : Txn S := mkTxn false false [].

Section Protocol.
Context {S : Type}.

Fixpoint applyRuntimeTransactionDomains (ds : list (runtimeTransactionDomain S)) (s : S) : S * list (runtimeTransactionDomain S) * option RefreshError :=
  match ds with
  | [] => (s, [], None)
  | d :: rest =>
    match dom_apply d with
    | None => applyRuntimeTransactionDomains rest s
    | Some apply =>
      match apply s with
      | (s, Some e) => (s, [], Some (if decide (dom_name d = "") then e else ErrInDomain (dom_name d) e))
      | (s, None) => let '(s, applied, err) := applyRuntimeTransactionDomains rest s in (s, d :: applied, err)
      end
    end
  end.

Definition runtimeTransactionDomainNames (ds : list (runtimeTransactionDomain S)) : list string :=
  filter (fun n => TrimSpace n <> "") (dom_name <$> ds).

Definition formatRuntimeTransactionApplyError (applied : list (runtimeTransactionDomain S)) (e : RefreshError) : RefreshError :=
  match runtimeTransactionDomainNames applied with [] => e | names => ErrAppliedBefore e names end.

Definition rollbackRuntimeTransactionDomains (ds : list (runtimeTransactionDomain S)) (s : S) : S :=
  foldl (fun s d => match dom_rollback d with Some f => f s | None => s end) s (reverse ds).

Definition commitRuntimeTransactionDomains (ds : list (runtimeTransactionDomain S)) (s : S) : S :=
  foldl (fun s d => match dom_commit d with Some f => f s | None => s end) s ds.

Definition txn_apply (ds : list (runtimeTransactionDomain S)) (t : Txn S) (s : S) : Txn S * S * option RefreshError :=
  let '(s, applied, err) := applyRuntimeTransactionDomains ds s in
  match err with
  | Some e => (mkTxn (tx_applied t) (tx_finalized t) applied, s, Some (formatRuntimeTransactionApplyError applied e))
  | None => (mkTxn true (tx_finalized t) applied, s, None)
  end.

(** What is released when nothing was applied, and what follows a commit and a
    rollback. *)
Context (releasePrepared finish_commit finish_rollback : S -> S).

Definition txn_Commit (t : Txn S) (s : S) : Txn S * S :=
  if tx_finalized t then (t, s)
  else let t := mkTxn (tx_applied t) true (tx_domains t) in
       if negb (tx_applied t) then (t, releasePrepared s) else (t, finish_commit (commitRuntimeTransactionDomains (tx_domains t) s)).

Definition txn_Rollback (t : Txn S) (s : S) : Txn S * S :=
  if tx_finalized t then (t, s)
  else let t := mkTxn (tx_applied t) true (tx_domains t) in
       if negb (tx_applied t) then (t, releasePrepared s) else (t, finish_rollback (rollbackRuntimeTransactionDomains (tx_domains t) s)).

(** A refresh: apply, then commit if the result is valid; [validate] gives whether
    it is. *)
Definition run_refresh (ds : list (runtimeTransactionDomain S)) (validate : S -> bool) (s : S) : S * option (option RefreshError) :=
  match txn_apply ds new_txn s with
  | (t, s, Some e) => ((txn_Rollback t s).2, Some (Some e))
  | (t, s, None) => if validate s then ((txn_Commit t s).2, None) else ((txn_Rollback t s).2, Some None)
  end.
End Protocol.

(** ** Channels *)

(** [Register] and [Unregister] of the channel manager. *)
Definition mgr_Register (name : string) (a : Handle) (m : gmap string Handle) : gmap string Handle * option RefreshError :=
  match m !! name with Some _ => (m, Some (ErrAlreadyRegistered name)) | None => (<[name := a]> m, None) end.
Definition mgr_Unregister (name : string) (m : gmap string Handle) : gmap string Handle * option Handle :=
  match m !! name with Some a => (delete name m, Some a) | None => (m, None) end.

Inductive AdapterCall := Connect (a : Handle) | Disconnect (a : Handle).

Record Installation := mkInstallation { in_Name : string; in_Adapter : Handle; in_Bridge : Handle }.

(** The models and channels of the application.  A missing [modelRuntime],
    router or deliverer is [None]; webhooks are a map that can be nil, with adapters
    that can be nil. *)
Record App := mkApp {
  ap_customModel : bool; ap_customRouter : bool; ap_model : option (option Handle); ap_router : option (option Handle);
  ap_channels : option (gmap string Handle); ap_webhooks : option (gmap string (option Handle)); ap_bridges : list (string * Handle);
  ap_process : option Handle; ap_ready : option bool; ap_running : gset Handle; ap_calls : list AdapterCall; ap_warnings : gset string;
  ap_stopped : list Handle }.

Definition set_clients (m r : option (option Handle)) (a : App) : App :=
  mkApp (ap_customModel a) (ap_customRouter a) m r (ap_channels a) (ap_webhooks a) (ap_bridges a) (ap_process a) (ap_ready a) (ap_running a)
    (ap_calls a) (ap_warnings a) (ap_stopped a).
Definition set_channels (c : option (gmap string Handle)) (a : App) : App :=
  mkApp (ap_customModel a) (ap_customRouter a) (ap_model a) (ap_router a) c (ap_webhooks a) (ap_bridges a) (ap_process a) (ap_ready a) (ap_running a)
    (ap_calls a) (ap_warnings a) (ap_stopped a).
Definition applyChannelRuntimeState (c : option (gmap string Handle)) (w : option (gmap string (option Handle))) (b : list (string * Handle))
    (p : option Handle) (a : App) : App :=
  mkApp (ap_customModel a) (ap_customRouter a) (ap_model a) (ap_router a) c w b p (ap_ready a) (ap_running a)
    (ap_calls a) (ap_warnings a) (ap_stopped a).
Definition set_ready (r : bool) (a : App) : App :=
  mkApp (ap_customModel a) (ap_customRouter a) (ap_model a) (ap_router a) (ap_channels a) (ap_webhooks a) (ap_bridges a) (ap_process a)
    ((fun _ => r) <$> ap_ready a) (ap_running a)
    (ap_calls a) (ap_warnings a) (ap_stopped a).
Definition set_running (r : gset Handle) (a : App) : App :=
  mkApp (ap_customModel a) (ap_customRouter a) (ap_model a) (ap_router a) (ap_channels a) (ap_webhooks a) (ap_bridges a) (ap_process a) (ap_ready a) r
    (ap_calls a) (ap_warnings a) (ap_stopped a).
Definition set_warnings (w : gset string) (a : App) : App :=
  mkApp (ap_customModel a) (ap_customRouter a) (ap_model a) (ap_router a) (ap_channels a) (ap_webhooks a) (ap_bridges a) (ap_process a) (ap_ready a)
    (ap_running a) (ap_calls a) w (ap_stopped a).
Definition add_call (c : AdapterCall) (a : App) : App :=
  mkApp (ap_customModel a) (ap_customRouter a) (ap_model a) (ap_router a) (ap_channels a) (ap_webhooks a) (ap_bridges a) (ap_process a) (ap_ready a)
    (ap_running a) (ap_calls a ++ [c]) (ap_warnings a) (ap_stopped a).
Definition add_stopped (p : option Handle) (a : App) : App :=
  mkApp (ap_customModel a) (ap_customRouter a) (ap_model a) (ap_router a) (ap_channels a) (ap_webhooks a) (ap_bridges a) (ap_process a) (ap_ready a)
    (ap_running a) (ap_calls a) (ap_warnings a) (ap_stopped a ++ option_list p).
Definition stop_bridge (b : Handle) (a : App) : App := set_running (ap_running a ∖ {[b]}) a.
Definition start_bridge (b : Handle) (a : App) : App := set_running (ap_running a ∪ {[b]}) a.
Definition clearChannelConnectWarning (name : string) (a : App) : App := set_warnings (ap_warnings a ∖ {[name]}) a.
Definition recordChannelConnectWarning (name : string) (a : App) : App := set_warnings (ap_warnings a ∪ {[name]}) a.

(** [preparedChannels]: the new channels, built but not installed. *)
Record preparedChannels := mkPrepared {
  pc_manager : option (gmap string Handle); pc_installs : list Installation; pc_webhooks : gmap string Handle; pc_process : option Handle;
  pc_bridges : list Handle; pc_changes : channelRuntimeDiff }.

(** What [refreshApplyTxn] holds of the models and channels. *)
Record RefreshTxn := mkRefreshTxn {
  rt_nextModel : option Handle; rt_nextRouter : option Handle; rt_next : option preparedChannels;
  rt_oldModel : option Handle; rt_oldRouter : option Handle; rt_oldWebhooks : option (gmap string (option Handle));
  rt_oldBridges : list (string * Handle); rt_oldProcess : option Handle; rt_oldAdapters : gmap string Handle; rt_nextBridges : list (string * Handle) }.

Definition captureOldState (a : App) (t : RefreshTxn) : RefreshTxn :=
  mkRefreshTxn (rt_nextModel t) (rt_nextRouter t) (rt_next t)
    (default None (ap_model a)) (default None (ap_router a)) (ap_webhooks a) (ap_bridges a) (ap_process a) (rt_oldAdapters t) (rt_nextBridges t).

Definition set_changed (olds : gmap string Handle) (nexts : list (string * Handle)) (t : RefreshTxn) : RefreshTxn :=
  mkRefreshTxn (rt_nextModel t) (rt_nextRouter t) (rt_next t)
    (rt_oldModel t) (rt_oldRouter t) (rt_oldWebhooks t) (rt_oldBridges t) (rt_oldProcess t) olds nexts.
Definition set_manager (m : option (gmap string Handle)) (t : RefreshTxn) : RefreshTxn :=
  mkRefreshTxn (rt_nextModel t) (rt_nextRouter t)
    ((fun p => mkPrepared m (pc_installs p) (pc_webhooks p) (pc_process p) (pc_bridges p) (pc_changes p)) <$> rt_next t)
    (rt_oldModel t) (rt_oldRouter t) (rt_oldWebhooks t) (rt_oldBridges t) (rt_oldProcess t) (rt_oldAdapters t) (rt_nextBridges t).

Definition bridgeByName (bridges : list (string * Handle)) : gmap string Handle := foldl (fun m b => <[b.1 := b.2]> m) ∅ bridges.
Definition installationByName (l : list Installation) : gmap string Installation := foldl (fun m i => <[in_Name i := i]> m) ∅ l.

Section Channels.
(** The error of the last of the calls made, if it failed; the order in which Go
    ranges over the adapters of a manager. *)
Context (outcome : list AdapterCall -> option string) (adapter_order : gmap string Handle -> list Handle).

Definition call (c : AdapterCall) (a : App) : App * option string := let a := add_call c a in (a, outcome (ap_calls a)).

(** A step of the loop over the channels that go away. *)
Definition replace_channel (oldBridges : gmap string Handle) (name : string)
    (x : App * gmap string Handle * option (gmap string (option Handle)) * list (string * string)) :
    App * gmap string Handle * option (gmap string (option Handle)) * list (string * string) :=
  let '(a, olds, hooks, errs) := x in
  let a := match oldBridges !! name with Some b => stop_bridge b a | None => a end in
  let '(a, olds, errs) :=
    match ap_channels a with
    | None => (a, olds, errs)
    | Some m =>
      match mgr_Unregister name m with
      | (_, None) => (a, olds, errs)
      | (m, Some adapter) =>
        match call (Disconnect adapter) (set_channels (Some m) a) with
        | (a, Some e) => (a, <[name := adapter]> olds, errs ++ [(name, e)])
        | (a, None) => (a, <[name := adapter]> olds, errs)
        end
      end
    end in
  let hooks := match webhookKeyFromChannelName name with Some key => delete key <$> hooks | None => hooks end in
  (clearChannelConnectWarning name a, olds, hooks, errs).

(** A step of the loop over the channels that are installed: the bridges started. *)
Fixpoint add_channels (names : list string) (installs : gmap string Installation) (built : gmap string Handle)
    (a : App) (hooks : option (gmap string (option Handle))) (started : list (string * Handle)) :
    App * option (gmap string (option Handle)) * list (string * Handle) * option RefreshError :=
  match names with
  | [] => (a, hooks, started, None)
  | name :: rest =>
    match installs !! name with
    | None => (a, hooks, started, Some (ErrInstallationMissing name))
    | Some i =>
      match mgr_Register name (in_Adapter i) (default ∅ (ap_channels a)) with
      | (_, Some e) => (a, hooks, started, Some e)
      | (m, None) =>
        let '(a, started) :=
          match call (Connect (in_Adapter i)) (set_channels (Some m) a) with
          | (a, Some _) => (recordChannelConnectWarning name a, started)
          | (a, None) => (start_bridge (in_Bridge i) (clearChannelConnectWarning name a), started ++ [(name, in_Bridge i)])
          end in
        let hooks := match webhookKeyFromChannelName name with Some key => Some (<[key := built !! key]> (default ∅ hooks)) | None => hooks end in
        add_channels rest installs built a hooks started
      end
    end
  end.

Definition applyBuiltinChannelChanges (s : App * RefreshTxn) : (App * RefreshTxn) * option RefreshError :=
  let '(a, t) := s in
  match rt_next t with
  | None => (s, None)
  | Some p =>
    if negb (HasChanges (pc_changes p)) then (s, None)
    else match ap_channels a with
    | None => (s, None)
    | Some _ =>
      let a := set_ready false a in
      let kept := filter (fun b => diff_Contains (pc_changes p) b.1 = false) (ap_bridges a) in
      let toReplace := sort_names (cd_Removed (pc_changes p) ++ cd_Updated (pc_changes p)) in
      let '(a, olds, hooks, errs) := foldl (fun x name => replace_channel (bridgeByName (rt_oldBridges t)) name x) (a, ∅, ap_webhooks a, []) toReplace in
      let t := set_changed olds [] t in
      match errs with
      | _ :: _ => ((a, t), Some (ErrDisconnectChannels errs))
      | [] =>
        let toAdd := sort_names (cd_Added (pc_changes p) ++ cd_Updated (pc_changes p)) in
        let '(a, hooks, started, err) := add_channels toAdd (installationByName (pc_installs p)) (pc_webhooks p) a hooks [] in
        let t := set_changed olds started t in
        match err with
        | Some e => ((a, t), Some e)
        | None => ((set_ready true (applyChannelRuntimeState (ap_channels a) hooks (kept ++ started) (ap_process a) a), t), None)
        end
      end
    end
  end.

Definition disconnect_all (adapters : list Handle) (a : App) : App := foldl (fun a x => (call (Disconnect x) a).1) a adapters.

(** [cleanup] of the prepared channels. *)
Definition cleanup_channels (s : App * RefreshTxn) : App * RefreshTxn :=
  let '(a, t) := s in
  match rt_next t with
  | None => s
  | Some p =>
    let a := foldl (fun a b => stop_bridge b a) a (pc_bridges p) in
    let a := match pc_manager p with
             | Some m => disconnect_all (omap (fun n => m !! n) (sort_names (map_to_list m).*1)) (disconnect_all (adapter_order m) a)
             | None => a
             end in
    (add_stopped (pc_process p) a, set_manager ((fun _ => ∅) <$> pc_manager p) t)
  end.

Definition commitBuiltinChannelChanges (s : App * RefreshTxn) : App * RefreshTxn :=
  let '(a, t) := s in
  match rt_next t with
  | None => s
  | Some p =>
    let transferred := sort_names (cd_Added (pc_changes p) ++ cd_Updated (pc_changes p)) in
    cleanup_channels (a, set_manager ((fun m => foldl (fun m n => delete n m) m transferred) <$> pc_manager p) t)
  end.

Definition unregister_channel (name : string) (a : App) : App :=
  match ap_channels a with
  | None => a
  | Some m => match mgr_Unregister name m with
              | (m, Some adapter) => (call (Disconnect adapter) (set_channels (Some m) a)).1
              | (_, None) => a
              end
  end.

Definition register_channel (name : string) (adapter : Handle) (a : App) : App :=
  match ap_channels a with None => a | Some m => set_channels (Some (mgr_Register name adapter m).1) a end.

Definition rollbackBuiltinChannelChanges (s : App * RefreshTxn) : App * RefreshTxn :=
  let '(a, t) := s in
  match rt_next t with
  | None => s
  | Some p =>
    let a :=
      match ap_channels a with
      | None => a
      | Some _ =>
        let a := foldl (fun a b => stop_bridge b.2 a) a (rt_nextBridges t) in
        let a := foldl (fun a n => unregister_channel n a) a (sort_names (ChangedNames (pc_changes p))) in
        let restoreNames := sort_names (map_to_list (rt_oldAdapters t)).*1 in
        let a := foldl (fun a n => match rt_oldAdapters t !! n with Some x => register_channel n x a | None => a end) a restoreNames in
        foldl (fun a n => match bridgeByName (rt_oldBridges t) !! n with
                          | Some b => clearChannelConnectWarning n (start_bridge b a) | None => a end) a restoreNames
      end in
    cleanup_channels (set_ready true (applyChannelRuntimeState (ap_channels a) (rt_oldWebhooks t) (rt_oldBridges t) (rt_oldProcess t) a), t)
  end.

(** ** The domains *)

Definition swap_clients (m r : option Handle) (guardModel : bool) (a : App) : App :=
  set_clients (if guardModel && ap_customModel a then ap_model a else (fun _ => m) <$> ap_model a)
    (if ap_customRouter a then ap_router a else (fun _ => r) <$> ap_router a) a.

Definition lift_app (f : App -> RefreshTxn -> App) (s : App * RefreshTxn) : App * RefreshTxn := (f s.1 s.2, s.2).

Abbreviation dom := (runtimeTransactionDomain (App * RefreshTxn)).

Definition models_domain : dom :=
  mkDomain ReloadStageModels (Some (fun s => (lift_app (fun a t => swap_clients (rt_nextModel t) (rt_nextRouter t) true a) s, None))) None
    (Some (lift_app (fun a t => swap_clients (rt_oldModel t) (rt_oldRouter t) false a))).
Definition channels_domain : dom :=
  mkDomain ReloadStageChannels (Some applyBuiltinChannelChanges) (Some commitBuiltinChannelChanges) (Some rollbackBuiltinChannelChanges).
End Channels.

(** ** The protocol *)

Lemma apply_domains_effects {S} (ds : list (runtimeTransactionDomain S)) s s' applied err :
  applyRuntimeTransactionDomains ds s = (s', applied, err) -> exists rest, filter (fun d => is_Some (dom_apply d)) ds = applied ++ rest
    /\ (err = None <-> rest = []).
Proof.
  revert s s' applied err. induction ds as [|d ds IH]; intros s s' applied err; cbn [applyRuntimeTransactionDomains]; [intros [= <- <- <-]; by exists []|].
  destruct (dom_apply d) as [apply|] eqn:Ed.
  - rewrite filter_cons_True by (by rewrite Ed). destruct (apply s) as [s1 [e|]].
    + intros [= <- <- <-]. eexists. split; [done|]. by split.
    + destruct (applyRuntimeTransactionDomains ds s1) as [[s2 more] er] eqn:E. intros [= <- <- <-]. destruct (IH _ _ _ _ E) as (rest & -> & H). by exists rest.
  - rewrite filter_cons_False by (rewrite Ed; by intros [? ?]). apply IH.
Qed.

(** C40: when a domain fails to apply, the refresh returns its error and releases
    what was prepared; no domain is rolled back, neither the failed one nor the
    ones that were applied before, whatever their rollback steps are. *)
Theorem failed_apply_not_rolled_back {S} (release finc finr : S -> S) ds validate s s1 applied e :
  applyRuntimeTransactionDomains ds s = (s1, applied, Some e) ->
  run_refresh release finc finr ds validate s = (release s1, Some (Some (formatRuntimeTransactionApplyError applied e))).
Proof. intros H. unfold run_refresh, txn_apply. by rewrite H. Qed.

(** A transaction is settled once: after a commit or a rollback both do nothing. *)
Lemma settled_once {S} (release finc finr : S -> S) (t : Txn S) s :
  let '(t1, s1) := txn_Commit release finc t s in let '(t2, s2) := txn_Rollback release finr t s in
  txn_Commit release finc t1 s1 = (t1, s1) /\ txn_Rollback release finr t1 s1 = (t1, s1)
  /\ txn_Commit release finc t2 s2 = (t2, s2) /\ txn_Rollback release finr t2 s2 = (t2, s2).
Proof. unfold txn_Commit, txn_Rollback. destruct t as [[] [] ds]; cbn; done. Qed.

(** ** The loops over channels *)

Lemma foldl_prefix {A B} (I : list B -> A -> Prop) (f : A -> B -> A) :
  (forall ps x n, I ps x -> I (ps ++ [n]) (f x n)) -> forall ns ps x, I ps x -> I (ps ++ ns) (foldl f x ns).
Proof.
  intros Hf ns. induction ns as [|n ns IH]; intros ps x Hx; cbn [foldl]; [by rewrite app_nil_r|].
  rewrite cons_middle, app_assoc. by apply IH, Hf.
Qed.

(** What the steps on channels leave alone. *)
Definition rest_of (a : App) :=
  (ap_customModel a, ap_customRouter a, ap_model a, ap_router a, ap_webhooks a, ap_bridges a, ap_process a, ap_ready a).

Definition without (names : list string) (m : gmap string Handle) : gmap string Handle := filter (fun x => x.1 ∉ names) m.
Definition only (names : list string) (m : gmap string Handle) : gmap string Handle := filter (fun x => x.1 ∈ names) m.

Lemma without_lookup names m n : without names m !! n = if decide (n ∈ names) then None else m !! n.
Proof.
  unfold without. apply option_eq. intros x. rewrite map_lookup_filter_Some. cbn. case_decide; naive_solver.
Qed.

Lemma only_lookup names m n : only names m !! n = if decide (n ∈ names) then m !! n else None.
Proof.
  unfold only. apply option_eq. intros x. rewrite map_lookup_filter_Some. cbn. case_decide; naive_solver.
Qed.

Lemma without_snoc names n m : without (names ++ [n]) m = delete n (without names m).
Proof.
  apply map_eq. intros k. destruct (decide (n = k)) as [<-|]; [rewrite lookup_delete_eq|rewrite lookup_delete_ne by done];
    rewrite !without_lookup; repeat case_decide; try done; set_solver.
Qed.

Lemma only_snoc names n m : only (names ++ [n]) m = match m !! n with Some x => <[n := x]> (only names m) | None => only names m end.
Proof.
  apply map_eq. intros k. destruct (m !! n) as [x|] eqn:E.
  - destruct (decide (n = k)) as [<-|]; [rewrite lookup_insert_eq|rewrite lookup_insert_ne by done];
      rewrite !only_lookup; repeat case_decide; try done; set_solver.
  - rewrite !only_lookup. repeat case_decide; try done; [|set_solver]. assert (k = n) as -> by set_solver. done.
Qed.

(** The bridges of some names. *)
Definition bridges_of (bs : gmap string Handle) (names : list string) : gset Handle := list_to_set (omap (fun n => bs !! n) names).

Lemma bridges_of_snoc bs names n : bridges_of bs (names ++ [n]) = bridges_of bs names ∪ list_to_set (option_list (bs !! n)).
Proof. unfold bridges_of. rewrite omap_app, list_to_set_app_L. cbn. by destruct (bs !! n). Qed.

Section Loops.
Context (outcome : list AdapterCall -> option string).

Lemma replace_loop bs names a m hooks :
  ap_channels a = Some m ->
  let '(a', olds, _, _) := foldl (fun x name => replace_channel outcome bs name x) (a, ∅, hooks, []) names in
  ap_channels a' = Some (without names m) /\ olds = only names m /\ ap_running a' = ap_running a ∖ bridges_of bs names /\ rest_of a' = rest_of a.
Proof.
  intros Ha. set (I := fun ps (x : App * gmap string Handle * option (gmap string (option Handle)) * list (string * string)) =>
    let '(a', olds, _, _) := x in
    ap_channels a' = Some (without ps m) /\ olds = only ps m /\ ap_running a' = ap_running a ∖ bridges_of bs ps /\ rest_of a' = rest_of a).
  apply (foldl_prefix I _) with (ps := []).
  - intros ps [[[a1 olds] hk] errs] n (H1 & H2 & H3 & H4). unfold replace_channel.
    assert (ap_channels (match bs !! n with Some b => stop_bridge b a1 | None => a1 end) = Some (without ps m)
            /\ ap_running (match bs !! n with Some b => stop_bridge b a1 | None => a1 end) = ap_running a ∖ bridges_of bs (ps ++ [n])
            /\ rest_of (match bs !! n with Some b => stop_bridge b a1 | None => a1 end) = rest_of a) as (K1 & K2 & K3).
    { rewrite bridges_of_snoc. destruct (bs !! n); (split_and!; [done| |done]); cbn; rewrite H3; set_solver. }
    set (a2 := match bs !! n with Some b => _ | None => _ end) in *. rewrite K1. unfold mgr_Unregister. rewrite without_lookup.
    assert (forall x, without ps m !! n = Some x -> m !! n = Some x) as Hin by (intros x; rewrite without_lookup; by case_decide).
    destruct (decide (n ∈ ps)) as [Hps|Hps]; [|destruct (m !! n) as [x|] eqn:En].
    + cbn. split_and!; [rewrite without_snoc, delete_id; [done|]; by rewrite without_lookup, decide_True| |done|done].
      rewrite H2. apply map_eq. intros k. rewrite !only_lookup. repeat case_decide; try done; set_solver.
    + unfold call. destruct (outcome _); cbn; (split_and!; [by rewrite without_snoc|by rewrite only_snoc, En, H2|done|done]).
    + cbn. split_and!; [rewrite without_snoc, delete_id; [done|]; by rewrite without_lookup, En, decide_False|by rewrite only_snoc, En, H2|done|done].
  - unfold I. split_and!; [|..|done].
    + rewrite Ha. f_equal. apply map_eq. intros k. rewrite without_lookup, decide_False; [done|]. apply not_elem_of_nil.
    + apply map_eq. intros k. rewrite only_lookup, lookup_empty. by case_decide as E; [apply elem_of_nil in E|].
    + cbn. set_solver.
Qed.

Lemma add_loop names installs built : forall a m hooks started a' hooks' started',
  ap_channels a = Some m -> add_channels outcome names installs built a hooks started = (a', hooks', started', None) ->
  exists m' more, ap_channels a' = Some m' /\ started' = started ++ more /\ rest_of a' = rest_of a
    /\ ap_running a' = ap_running a ∪ list_to_set more.*2
    /\ (forall n b, (n, b) ∈ more -> n ∈ names /\ exists i, installs !! n = Some i /\ in_Bridge i = b)
    /\ (forall n, n ∉ names -> m' !! n = m !! n)
    /\ (forall n, n ∈ names -> m !! n = None /\ exists i, installs !! n = Some i /\ m' !! n = Some (in_Adapter i)).
Proof.
  induction names as [|n names IH]; intros a m hooks started a' hooks' started' Ha; cbn [add_channels].
  { intros [= <- <- <-]. exists m, []. rewrite app_nil_r. split_and!; [done..|cbn; set_solver|by intros ? ? ?%elem_of_nil|done|by intros ? ?%elem_of_nil]. }
  destruct (installs !! n) as [i|] eqn:Ei; [|done]. rewrite Ha. change (default ∅ (Some m)) with m. unfold mgr_Register.
  destruct (m !! n) as [y|] eqn:En; [done|]. unfold call. set (a1 := add_call _ _).
  set (hk := match webhookKeyFromChannelName n with Some key => _ | None => _ end).
  assert (forall a2 new, ap_channels a2 = Some (<[n := in_Adapter i]> m) -> rest_of a2 = rest_of a -> ap_running a2 = ap_running a ∪ list_to_set new.*2 ->
    (forall n' b, (n', b) ∈ new -> n' = n /\ b = in_Bridge i) ->
    add_channels outcome names installs built a2 hk (started ++ new) = (a', hooks', started', None) ->
    exists m' more, ap_channels a' = Some m' /\ started' = started ++ more /\ rest_of a' = rest_of a
    /\ ap_running a' = ap_running a ∪ list_to_set more.*2
    /\ (forall n0 b, (n0, b) ∈ more -> n0 ∈ n :: names /\ exists i0, installs !! n0 = Some i0 /\ in_Bridge i0 = b)
    /\ (forall n0, n0 ∉ n :: names -> m' !! n0 = m !! n0)
    /\ (forall n0, n0 ∈ n :: names -> m !! n0 = None /\ exists i0, installs !! n0 = Some i0 /\ m' !! n0 = Some (in_Adapter i0))) as Hgo.
  { intros a2 new Hc Hr Hrun Hnew Hadd. destruct (IH a2 _ hk _ _ _ _ Hc Hadd) as (m' & more & H1 & H2 & H3 & H4 & H5 & H6 & H7).
    assert (n ∉ names) as Hn by (intros [Hn _]%H7; by rewrite lookup_insert_eq in Hn).
    exists m', (new ++ more). split_and!; [done|by rewrite H2, app_assoc|congruence|rewrite H4, Hrun, fmap_app, list_to_set_app_L; set_solver|..].
    - intros n0 b [[-> ->]%Hnew|[? ?]%H5]%elem_of_app; [split; [by left|eauto]|split; [by right|done]].
    - intros n0 [? ?]%not_elem_of_cons. rewrite H6 by done. by rewrite lookup_insert_ne.
    - intros n0 [->|Hin]%elem_of_cons.
      + split; [done|]. exists i. split; [done|]. rewrite H6 by done. by rewrite lookup_insert_eq.
      + destruct (H7 n0 Hin) as [E H8]. split; [|done]. rewrite lookup_insert_ne in E; [done|]. by intros ->. }
  destruct (outcome (ap_calls a1)).
  - intros Hadd. apply (Hgo (recordChannelConnectWarning n a1) []); [done..|cbn; set_solver|by intros ? ? ?%elem_of_nil|by rewrite app_nil_r].
  - intros Hadd. apply (Hgo (start_bridge (in_Bridge i) (clearChannelConnectWarning n a1)) [(n, in_Bridge i)]); [done..|cbn; set_solver| |done].
    intros n' b [= -> ->]%list_elem_of_singleton. done.
Qed.

Lemma unregister_loop names a m :
  ap_channels a = Some m ->
  let a' := foldl (fun a n => unregister_channel outcome n a) a names in
  ap_channels a' = Some (without names m) /\ ap_running a' = ap_running a /\ rest_of a' = rest_of a.
Proof.
  intros Ha. apply (foldl_prefix (fun ps a' => ap_channels a' = Some (without ps m) /\ ap_running a' = ap_running a /\ rest_of a' = rest_of a)) with (ps := []).
  - intros ps x n (H1 & H2 & H3). unfold unregister_channel. rewrite H1. unfold mgr_Unregister. destruct (without ps m !! n) as [y|] eqn:E.
    + cbn. by rewrite without_snoc.
    + by rewrite without_snoc, delete_id.
  - split_and!; [|done..]. rewrite Ha. f_equal. apply map_eq. intros k. rewrite without_lookup, decide_False; [done|]. apply not_elem_of_nil.
Qed.

Lemma register_loop names (olds : gmap string Handle) a m :
  ap_channels a = Some m -> (forall n, is_Some (olds !! n) -> m !! n = None) ->
  let a' := foldl (fun a n => match olds !! n with Some x => register_channel n x a | None => a end) a names in
  (exists m', ap_channels a' = Some m' /\ forall n, m' !! n = if decide (n ∈ names /\ is_Some (olds !! n)) then olds !! n else m !! n)
  /\ ap_running a' = ap_running a /\ rest_of a' = rest_of a.
Proof.
  intros Ha Hd a'. set (I := fun (ps : list string) (a' : App) => (exists m', ap_channels a' = Some m' /\ forall n, m' !! n = if decide (n ∈ ps /\ is_Some (olds !! n)) then olds !! n else m !! n)
    /\ ap_running a' = ap_running a /\ rest_of a' = rest_of a).
  assert (I ([] ++ names) a') as H; [|exact H]. apply foldl_prefix.
  - intros ps x n ((m' & H1 & Hm') & H2 & H3). destruct (olds !! n) as [y|] eqn:E; cycle 1.
    { split; [|done]. exists m'. split; [done|]. intros k. rewrite Hm'. apply decide_ext. rewrite elem_of_app, list_elem_of_singleton.
      split; [by intros [? ?]; split; [left|]|]. intros [[?| ->] [? ?]]; [by split|congruence]. }
    unfold register_channel. rewrite H1. split; [|done]. unfold mgr_Register. destruct (m' !! n) as [z|] eqn:Ez.
    + exists m'. split; [done|]. intros k. rewrite Hm'. apply decide_ext. rewrite elem_of_app, list_elem_of_singleton.
      split; [by intros [? ?]; split; [left|]|]. intros [[?| ->] ?]; [by split|]. split; [|done]. rewrite Hm' in Ez.
      case_decide as Hc; [by destruct Hc|]. rewrite Hd in Ez; [done|by rewrite E].
    + exists (<[n := y]> m'). split; [done|]. intros k. destruct (decide (n = k)) as [<-|Hne].
      * rewrite lookup_insert_eq, decide_True; [done|]. rewrite E. split; [set_solver|by eexists].
      * rewrite lookup_insert_ne, Hm' by done. apply decide_ext. rewrite elem_of_app, list_elem_of_singleton. naive_solver.
  - split_and!; [|done..]. exists m. split; [done|]. intros n. rewrite decide_False; [done|]. by intros [?%elem_of_nil _].
Qed.

Lemma start_loop bs names a :
  let a' := foldl (fun a n => match bs !! n with Some b => clearChannelConnectWarning n (start_bridge b a) | None => a end) a names in
  ap_channels a' = ap_channels a /\ ap_running a' = ap_running a ∪ bridges_of bs names /\ rest_of a' = rest_of a.
Proof.
  apply (foldl_prefix (fun ps a' => ap_channels a' = ap_channels a /\ ap_running a' = ap_running a ∪ bridges_of bs ps /\ rest_of a' = rest_of a)) with (ps := []).
  - intros ps x n (H1 & H2 & H3). rewrite bridges_of_snoc. destruct (bs !! n); cbn; (split_and!; [done| |done]); rewrite H2; set_solver.
  - split_and!; [done| |done]. cbn. set_solver.
Qed.

Lemma stop_loop {A} (f : A -> Handle) (l : list A) a :
  let a' := foldl (fun a b => stop_bridge (f b) a) a l in
  ap_channels a' = ap_channels a /\ ap_running a' = ap_running a ∖ list_to_set (f <$> l) /\ rest_of a' = rest_of a.
Proof.
  apply (foldl_prefix (fun ps a' => ap_channels a' = ap_channels a /\ ap_running a' = ap_running a ∖ list_to_set (f <$> ps) /\ rest_of a' = rest_of a)) with (ps := []).
  - intros ps x n (H1 & H2 & H3). rewrite fmap_app, list_to_set_app_L. cbn. split_and!; [done| |done]. rewrite H2. set_solver.
  - split_and!; [done| |done]. cbn. set_solver.
Qed.

Lemma disconnect_all_keeps l a :
  let a' := disconnect_all outcome l a in ap_channels a' = ap_channels a /\ ap_running a' = ap_running a /\ rest_of a' = rest_of a.
Proof.
  unfold disconnect_all. apply (foldl_prefix (fun _ a' => ap_channels a' = ap_channels a /\ ap_running a' = ap_running a /\ rest_of a' = rest_of a)) with (ps := []); [|done].
  intros ps x n (H1 & H2 & H3). done.
Qed.

Lemma cleanup_keeps (adapter_order : gmap string Handle -> list Handle) a t :
  let s' := cleanup_channels outcome adapter_order (a, t) in
  ap_channels s'.1 = ap_channels a /\ ap_running s'.1 = ap_running a ∖ list_to_set (from_option pc_bridges [] (rt_next t)) /\ rest_of s'.1 = rest_of a.
Proof.
  unfold cleanup_channels. destruct (rt_next t) as [p|]; [|cbn; split_and!; [done|set_solver|done]]. cbn [from_option].
  destruct (stop_loop id (pc_bridges p) a) as (H1 & H2 & H3). rewrite list_fmap_id in H2. set (a1 := foldl _ a _) in *.
  destruct (pc_manager p) as [m|]; cbn [fst add_stopped ap_channels ap_running]; [|done].
  set (l := omap _ _). destruct (disconnect_all_keeps (adapter_order m) a1) as (K1 & K2 & K3). set (a2 := disconnect_all _ (adapter_order m) a1) in *.
  destruct (disconnect_all_keeps l a2) as (L1 & L2 & L3). split_and!; [congruence..|]. unfold rest_of in *. cbn. congruence.
Qed.
End Loops.

(** ** Refreshes of models and channels *)

Section Refresh.
Context (outcome : list AdapterCall -> option string) (adapter_order : gmap string Handle -> list Handle).

(** An application and channels that were prepared for it: the bridges of the
    application run and belong to registered channels, the new ones do not run
    yet, and the deliverer is ready. *)
Record channels_ok (a : App) (t : RefreshTxn) : Prop := {
  po_fresh : rt_oldAdapters t = ∅ /\ rt_nextBridges t = [];
  po_running n b : bridgeByName (ap_bridges a) !! n = Some b -> b ∈ ap_running a /\ exists m, ap_channels a = Some m /\ is_Some (m !! n);
  po_new p i : rt_next t = Some p -> i ∈ pc_installs p -> in_Bridge i ∉ ap_running a;
  po_prepared p b : rt_next t = Some p -> b ∈ pc_bridges p -> b ∉ ap_running a;
  po_ready : ap_ready a <> Some false }.

Lemma installationByName_in l n i : installationByName l !! n = Some i -> i ∈ l.
Proof.
  unfold installationByName. assert (forall m : gmap string Installation, foldl (fun m i => <[in_Name i := i]> m) m l !! n = Some i -> i ∈ l \/ m !! n = Some i) as H.
  { induction l as [|x l IH]; intros m; cbn [foldl]; [by right|]. intros [?|Hm]%IH; [left; by right|].
    apply lookup_insert_Some in Hm as [[_ <-]|[_ ?]]; [left; by left|by right]. }
  intros [?|Hm]%H; [done|by rewrite lookup_empty in Hm].
Qed.

(** What a step on the channels changes besides the registry and the bridges. *)
Definition with_channels (a : App) (w : option (gmap string (option Handle))) (bs : list (string * Handle)) (p : option Handle) :=
  (ap_customModel a, ap_customRouter a, ap_model a, ap_router a, w, bs, p, (fun _ : bool => true) <$> ap_ready a).

Lemma apply_channels_spec a t p m a1 t1 :
  rt_next t = Some p -> HasChanges (pc_changes p) = true -> ap_channels a = Some m ->
  applyBuiltinChannelChanges outcome (a, t) = ((a1, t1), None) ->
  let repl := sort_names (cd_Removed (pc_changes p) ++ cd_Updated (pc_changes p)) in
  let adds := sort_names (cd_Added (pc_changes p) ++ cd_Updated (pc_changes p)) in
  exists m1 more hooks, ap_channels a1 = Some m1 /\ t1 = set_changed (only repl m) more t
    /\ ap_running a1 = (ap_running a ∖ bridges_of (bridgeByName (rt_oldBridges t)) repl) ∪ list_to_set more.*2
    /\ rest_of a1 = with_channels a hooks (filter (fun b => diff_Contains (pc_changes p) b.1 = false) (ap_bridges a) ++ more) (ap_process a)
    /\ (forall n b, (n, b) ∈ more -> n ∈ adds /\ exists i, i ∈ pc_installs p /\ in_Bridge i = b)
    /\ (forall n, n ∉ adds -> m1 !! n = if decide (n ∈ repl) then None else m !! n)
    /\ (forall n, n ∈ adds -> (n ∈ repl \/ m !! n = None) /\ exists i, i ∈ pc_installs p /\ m1 !! n = Some (in_Adapter i)).
Proof.
  intros Hp Hch Hm. unfold applyBuiltinChannelChanges. rewrite Hp, Hch, Hm. cbn [negb]. cbv zeta. set (repl := sort_names _). set (adds := sort_names (cd_Added _ ++ _)).
  pose proof (replace_loop outcome (bridgeByName (rt_oldBridges t)) repl (set_ready false a) m (ap_webhooks a) Hm) as H.
  change (ap_webhooks (set_ready false a)) with (ap_webhooks a). destruct (foldl _ _ repl) as [[[a2 olds] hooks] errs]. destruct H as (H1 & -> & H3 & H4).
  destruct errs; [|done]. destruct (add_channels outcome adds _ _ a2 hooks []) as [[[a3 hooks'] started] [e|]] eqn:E; [done|]. intros [= <- <-].
  destruct (add_loop outcome adds _ _ a2 (without repl m) hooks [] a3 hooks' started H1 E) as (m1 & more & K1 & -> & K3 & K4 & K5 & K6 & K7).
  exists m1, more, hooks'. cbn [ap_channels ap_running set_ready applyChannelRuntimeState]. split_and!; [done|done|by rewrite K4, H3| |..].
  - rewrite H4 in K3. revert K3. unfold rest_of, with_channels. cbn. intros [= -> -> -> -> _ _ -> ->]. by destruct (ap_ready a).
  - intros n b [? (i & Hi & ?)]%K5. split; [done|]. exists i. split; [by eapply installationByName_in|done].
  - intros n Hn. rewrite K6 by done. apply without_lookup.
  - intros n [Hw (i & Hi & Hmi)]%K7. split; [rewrite without_lookup in Hw; case_decide; [by left|by right]|].
    exists i. split; [by eapply installationByName_in|done].
Qed.

Lemma rollback_channels_spec a2 t p m1 olds more :
  rt_next t = Some p -> ap_channels a2 = Some m1 ->
  (forall n, is_Some (olds !! n) -> n ∈ ChangedNames (pc_changes p)) ->
  let s3 := rollbackBuiltinChannelChanges outcome adapter_order (a2, set_changed olds more t) in
  (exists m3, ap_channels s3.1 = Some m3 /\ forall n, m3 !! n = match olds !! n with Some x => Some x | None => if decide (n ∈ ChangedNames (pc_changes p)) then None else m1 !! n end)
  /\ ap_running s3.1 = (((ap_running a2 ∖ list_to_set more.*2) ∪ bridges_of (bridgeByName (rt_oldBridges t)) (sort_names (map_to_list olds).*1)) ∖ list_to_set (pc_bridges p))
  /\ rest_of s3.1 = with_channels a2 (rt_oldWebhooks t) (rt_oldBridges t) (rt_oldProcess t).
Proof.
  intros Hp Hm1 Holds. unfold rollbackBuiltinChannelChanges. cbn [rt_next set_changed]. rewrite Hp, Hm1. cbv zeta. cbn [rt_nextBridges rt_oldAdapters rt_oldBridges rt_oldWebhooks rt_oldProcess set_changed].
  set (names := sort_names (ChangedNames _)). set (restore := sort_names (map_to_list olds).*1).
  assert (forall n, n ∈ names <-> n ∈ ChangedNames (pc_changes p)) as Hnames by (intros n; unfold names, sort_names; by rewrite merge_sort_Permutation).
  assert (forall n, n ∈ restore <-> is_Some (olds !! n)) as Hrestore.
  { intros n. unfold restore, sort_names. rewrite merge_sort_Permutation, list_elem_of_fmap. split.
    - intros ([k x] & -> & Hx%elem_of_map_to_list). by eexists.
    - intros [x Hx]. exists (n, x). split; [done|by apply elem_of_map_to_list]. }
  destruct (stop_loop (fun b : string * Handle => b.2) more a2) as (S1 & S2 & S3). set (b1 := foldl _ a2 more) in *. rewrite Hm1 in S1.
  destruct (unregister_loop outcome names b1 m1 S1) as (U1 & U2 & U3). set (b2 := foldl _ b1 names) in *.
  destruct (register_loop restore olds b2 (without names m1) U1) as ((m3 & R1 & Rm) & R2 & R3).
  { intros n Hn%Holds. rewrite without_lookup, decide_True; [done|by apply Hnames]. }
  set (b3 := foldl _ b2 restore) in *. destruct (start_loop (bridgeByName (rt_oldBridges t)) restore b3) as (T1 & T2 & T3). set (b4 := foldl _ b3 restore) in *.
  set (b5 := set_ready true _). destruct (cleanup_keeps outcome adapter_order b5 (set_changed olds more t)) as (C1 & C2 & C3). cbn [rt_next set_changed] in C2.
  rewrite Hp in C2. cbn [from_option] in C2. split_and!.
  - exists m3. rewrite C1. cbn [b5 ap_channels set_ready applyChannelRuntimeState]. split; [congruence|]. intros n. rewrite Rm, without_lookup.
    destruct (olds !! n) as [x|] eqn:E.
    + rewrite decide_True; [done|]. split; [apply Hrestore; by rewrite E|by eexists].
    + rewrite decide_False by (intros [_ [? ?]]; done). apply decide_ext. apply Hnames.
  - rewrite C2. cbn [b5 ap_running set_ready applyChannelRuntimeState]. by rewrite T2, R2, U2, S2.
  - rewrite C3. unfold b5. rewrite S3 in U3. rewrite U3 in R3. rewrite R3 in T3. revert T3. unfold rest_of, with_channels. cbn.
    intros [= -> -> -> -> _ _ _ ->]. by destruct (ap_ready a2).
Qed.

Lemma set_changed_id t : rt_oldAdapters t = ∅ -> rt_nextBridges t = [] -> set_changed ∅ [] t = t.
Proof. destruct t; cbn. by intros -> ->. Qed.

Lemma unchanged_names d : HasChanges d = false -> ChangedNames d = [].
Proof.
  unfold HasChanges, ChangedNames. intros H%bool_decide_eq_false. destruct d as [[|? ?] [|? ?] [|? ?]]; cbn in *; try done; destruct H; naive_solver.
Qed.

Lemma keys_empty : sort_names (map_to_list (∅ : gmap string Handle)).*1 = [].
Proof. by rewrite map_to_list_empty. Qed.

(** Rolling the channels back undoes what applying them did, also when the rest of
    the application has changed in between. *)
Lemma channels_undone a t p a1 t1 a2 :
  channels_ok a t -> rt_next t = Some p -> rt_oldBridges t = ap_bridges a -> rt_oldWebhooks t = ap_webhooks a -> rt_oldProcess t = ap_process a ->
  applyBuiltinChannelChanges outcome (a, t) = ((a1, t1), None) -> ap_channels a2 = ap_channels a1 -> ap_running a2 = ap_running a1 ->
  let s3 := rollbackBuiltinChannelChanges outcome adapter_order (a2, t1) in
  ap_channels s3.1 = ap_channels a /\ ap_running s3.1 = ap_running a /\ rest_of s3.1 = with_channels a2 (ap_webhooks a) (ap_bridges a) (ap_process a).
Proof.
  intros [[Hf1 Hf2] Hrun Hnew Hprep _] Hp Hob How Hop Happ Hc2 Hr2. rewrite <- Hob in Hrun. cbv zeta.
  assert (list_to_set (pc_bridges p) ## ap_running a) as Hpc by (intros b; rewrite elem_of_list_to_set; intros ?%(Hprep _ _ Hp); done).
  destruct (ap_channels a) as [m|] eqn:Em; cycle 1.
  { assert (a1 = a /\ t1 = t) as [-> ->].
    { revert Happ. unfold applyBuiltinChannelChanges. rewrite Hp, Em. destruct (negb _); by intros [= <- <-]. }
    unfold rollbackBuiltinChannelChanges. rewrite Hp, Hc2, Em. destruct (cleanup_keeps outcome adapter_order
      (set_ready true (applyChannelRuntimeState (ap_channels a2) (rt_oldWebhooks t) (rt_oldBridges t) (rt_oldProcess t) a2)) t) as (C1 & C2 & C3).
    rewrite Hp in C2. split_and!; [rewrite C1; cbn; congruence|rewrite C2; cbn; set_solver|]. rewrite C3, Hob, How, Hop. unfold rest_of, with_channels. cbn. by destruct (ap_ready a2). }
  destruct (HasChanges (pc_changes p)) eqn:Hch.
  - destruct (apply_channels_spec a t p m a1 t1 Hp Hch Em Happ) as (m1 & more & hooks & A1 & -> & A3 & A4 & A5 & A6 & A7).
    set (repl := sort_names (cd_Removed _ ++ _)) in *. set (adds := sort_names (cd_Added _ ++ _)) in *.
    assert (forall n, n ∈ repl <-> n ∈ cd_Removed (pc_changes p) \/ n ∈ cd_Updated (pc_changes p)) as Hrepl.
    { intros n. unfold repl, sort_names. by rewrite merge_sort_Permutation, elem_of_app. }
    assert (forall n, n ∈ adds <-> n ∈ cd_Added (pc_changes p) \/ n ∈ cd_Updated (pc_changes p)) as Hadds.
    { intros n. unfold adds, sort_names. by rewrite merge_sort_Permutation, elem_of_app. }
    assert (forall n, n ∈ ChangedNames (pc_changes p) <-> n ∈ repl \/ n ∈ adds) as Hcn.
    { intros n. unfold ChangedNames. rewrite !elem_of_app, Hrepl, Hadds. tauto. }
    rewrite A1 in Hc2. destruct (rollback_channels_spec a2 t p m1 (only repl m) more Hp Hc2) as ((m3 & B1 & Bm) & B2 & B3).
    { intros n [x Hx]. rewrite only_lookup in Hx. case_decide; [|done]. apply Hcn. by left. }
    split_and!.
    + rewrite B1. f_equal. apply map_eq. intros n. rewrite Bm, only_lookup. destruct (decide (n ∈ repl)) as [Hn|Hn].
      * destruct (m !! n) eqn:En; [done|]. rewrite decide_True; [done|]. apply Hcn. by left.
      * destruct (decide (n ∈ adds)) as [Ha|Ha].
        -- rewrite decide_True by (apply Hcn; by right). destruct (A7 n Ha) as [[?| ->] _]; done.
        -- rewrite decide_False by (rewrite Hcn; naive_solver). rewrite A6, decide_False by done. done.
    + rewrite B2, Hr2, A3. apply set_eq. intros b.
      assert (b ∈ bridges_of (bridgeByName (rt_oldBridges t)) repl -> b ∈ ap_running a /\ b ∈ bridges_of (bridgeByName (rt_oldBridges t)) (sort_names (map_to_list (only repl m)).*1)) as Hb1.
      { unfold bridges_of. rewrite !elem_of_list_to_set, !list_elem_of_omap. intros (n & Hn & Hb). destruct (Hrun n b Hb) as [? (m' & [= <-] & [x Hx])]. split; [done|].
        exists n. split; [|done]. unfold sort_names. rewrite merge_sort_Permutation, list_elem_of_fmap. exists (n, x). split; [done|]. apply elem_of_map_to_list.
        by rewrite only_lookup, decide_True. }
      assert (b ∈ bridges_of (bridgeByName (rt_oldBridges t)) (sort_names (map_to_list (only repl m)).*1) -> b ∈ ap_running a) as Hb2.
      { unfold bridges_of. rewrite elem_of_list_to_set, list_elem_of_omap. intros (n & _ & Hb). by destruct (Hrun n b Hb). }
      assert (b ∈ (list_to_set more.*2 : gset Handle) -> b ∉ ap_running a) as Hb3.
      { rewrite elem_of_list_to_set, list_elem_of_fmap. intros ([n x] & -> & (_ & i & Hi & <-)%A5). by apply (Hnew p). }
      assert (b ∈ (list_to_set (pc_bridges p) : gset Handle) -> b ∉ ap_running a) as Hb4 by (intros ? ?; by apply (Hpc b)).
      rewrite !elem_of_difference, !elem_of_union, !elem_of_difference, elem_of_union, elem_of_difference. clear -Hb1 Hb2 Hb3 Hb4.
      destruct (decide (b ∈ bridges_of (bridgeByName (rt_oldBridges t)) repl)); tauto.
    + rewrite B3. by rewrite Hob, How, Hop.
  - assert (a1 = a /\ t1 = t) as [-> ->].
    { revert Happ. unfold applyBuiltinChannelChanges. rewrite Hp, Hch. by intros [= <- <-]. }
    rewrite Em in Hc2. pose proof (rollback_channels_spec a2 t p m ∅ [] Hp Hc2) as B. rewrite (set_changed_id t Hf1 Hf2), keys_empty in B.
    destruct B as ((m3 & B1 & Bm) & B2 & B3); [intros n [x Hx]; by rewrite lookup_empty in Hx|].
    split_and!; [|rewrite B2, Hr2; cbn; set_solver|by rewrite B3, Hob, How, Hop].
    rewrite B1. f_equal. apply map_eq. intros n. rewrite Bm, lookup_empty, unchanged_names, decide_False by (done || apply not_elem_of_nil). done.
Qed.

(** What the domains do not change in a transaction. *)
Definition static (t : RefreshTxn) :=
  ((rt_oldModel t, rt_oldRouter t), (rt_nextModel t, rt_nextRouter t), match rt_next t with Some _ => true | None => false end).

Lemma cleanup_static s : static (cleanup_channels outcome adapter_order s).2 = static s.2.
Proof. destruct s as [a t]. unfold cleanup_channels, static. destruct (rt_next t) eqn:E; cbn; rewrite E; done. Qed.

Lemma apply_channels_static s : static (applyBuiltinChannelChanges outcome s).1.2 = static s.2.
Proof.
  destruct s as [a t]. unfold applyBuiltinChannelChanges. destruct (rt_next t) eqn:E; [|done]. destruct (negb _); [done|]. destruct (ap_channels a); [|done].
  cbv zeta. destruct (foldl _ _ _) as [[[a1 olds] hooks] [|? ?]]; [|done]. destruct (add_channels _ _ _ _ _ _ _) as [[[a2 h2] st] [|]]; done.
Qed.

Lemma rollback_channels_static s : static (rollbackBuiltinChannelChanges outcome adapter_order s).2 = static s.2.
Proof. destruct s as [a t]. unfold rollbackBuiltinChannelChanges. destruct (rt_next t) eqn:E; [|done]. cbv zeta. by rewrite cleanup_static. Qed.

#[local] Arguments rollbackBuiltinChannelChanges : simpl never.
#[local] Arguments applyBuiltinChannelChanges : simpl never.

Lemma rollback_cons {S} (d : runtimeTransactionDomain S) ds s :
  rollbackRuntimeTransactionDomains (d :: ds) s
  = match dom_rollback d with Some f => f (rollbackRuntimeTransactionDomains ds s) | None => rollbackRuntimeTransactionDomains ds s end.
Proof. unfold rollbackRuntimeTransactionDomains. by rewrite reverse_cons, foldl_app. Qed.

Definition kept (a : App) := (ap_customModel a, ap_customRouter a, ap_model a, ap_router a, (fun _ : bool => ()) <$> ap_ready a).

Lemma apply_channels_kept a t a1 t1 : applyBuiltinChannelChanges outcome (a, t) = ((a1, t1), None) -> kept a1 = kept a.
Proof.
  destruct (rt_next t) as [p|] eqn:Hp; cycle 1.
  { unfold applyBuiltinChannelChanges. rewrite Hp. by intros [= <- <-]. }
  destruct (HasChanges (pc_changes p)) eqn:Hch; cycle 1.
  { unfold applyBuiltinChannelChanges. rewrite Hp, Hch. by intros [= <- <-]. }
  destruct (ap_channels a) as [m|] eqn:Em; cycle 1.
  { unfold applyBuiltinChannelChanges. rewrite Hp, Hch, Em. by intros [= <- <-]. }
  intros Happ. destruct (apply_channels_spec a t p m a1 t1 Hp Hch Em Happ) as (m1 & more & hooks & _ & _ & _ & A4 & _).
  revert A4. unfold rest_of, with_channels, kept. intros [= -> -> -> -> _ _ _ ->]. by destruct (ap_ready a).
Qed.

(** Applying and rolling back the channels leaves the application as it was, also when
    the rest has been changed and put back in between. *)
Lemma channels_round_trip a t a1 t1 a2 :
  channels_ok a t -> rt_oldBridges t = ap_bridges a -> rt_oldWebhooks t = ap_webhooks a -> rt_oldProcess t = ap_process a ->
  is_Some (rt_next t) -> applyBuiltinChannelChanges outcome (a, t) = ((a1, t1), None) ->
  ap_channels a2 = ap_channels a1 -> ap_running a2 = ap_running a1 -> rest_of a2 = rest_of a1 ->
  let s3 := rollbackBuiltinChannelChanges outcome adapter_order (a2, t1) in
  ap_channels s3.1 = ap_channels a /\ ap_running s3.1 = ap_running a /\ rest_of s3.1 = rest_of a.
Proof.
  intros Hok Hob How Hop [p Hp] Ea Hc Hr Hrest.
  destruct (channels_undone a t p a1 t1 a2 Hok Hp Hob How Hop Ea Hc Hr) as (H1 & H2 & H3).
  split_and!; [done..|]. pose proof (apply_channels_kept _ _ _ _ Ea) as Hk. pose proof (po_ready _ _ Hok) as Hrd.
  rewrite H3. revert Hrest Hk. unfold rest_of, with_channels, kept. intros [= -> -> -> -> _ _ _ ->] [= -> -> -> -> Hb].
  repeat f_equal. destruct (ap_ready a1), (ap_ready a) as [[]|]; done.
Qed.

Lemma swap_back a4 a m r x oldM oldR :
  ap_customModel a4 = ap_customModel a -> ap_customRouter a4 = ap_customRouter a ->
  ap_model a4 = ap_model (swap_clients m r x a) -> ap_router a4 = ap_router (swap_clients m r x a) ->
  oldM = default None (ap_model a) -> oldR = default None (ap_router a) ->
  ap_model (swap_clients oldM oldR false a4) = ap_model a /\ ap_router (swap_clients oldM oldR false a4) = ap_router a.
Proof.
  intros H1 H2 H3 H4 -> ->. cbn. rewrite H2, H3, H4. cbn.
  destruct (x && ap_customModel a), (ap_customRouter a), (ap_model a), (ap_router a); done.
Qed.
End Refresh.

(** ** Examples *)

Module Examples.
Definition app : App :=
  mkApp false true (Some (Some 1)) None (Some {[ "discord" := 11; "slack" := 10 ]}) None [("discord", 21); ("slack", 20)] None (Some true) {[ 20; 21 ]} [] ∅
    [].

Definition prepared : preparedChannels :=
  mkPrepared (Some ∅) [mkInstallation "slack" 30 40] ∅ None [] (mkChannelDiff [] ["slack"] []).

Definition txn : RefreshTxn := mkRefreshTxn (Some 2) None (Some prepared) None None None [] None ∅ [].

Definition order (m : gmap string Handle) : list Handle := (map_to_list m).*2.

(** Every call of an adapter succeeds. *)
Definition healthy (l : list AdapterCall) : option string := None.
(** The old Slack adapter fails to disconnect. *)
Definition stuck (l : list AdapterCall) : option string := match last l with Some (Disconnect 10) => Some "boom" | _ => None end.

(** The registered channels and the running bridges, as lists. *)
Definition registered (a : App) : list (string * Handle) := from_option map_to_list [] (ap_channels a).
Definition running (a : App) : list Handle := elements (ap_running a).

Lemma app_channels_ok : channels_ok app txn.
Proof.
  constructor.
  - done.
  - intros n b. cbn. rewrite !lookup_insert_Some, lookup_empty. intros H. split; [set_solver|].
    exists {[ "discord" := 11; "slack" := 10 ]}. split; [done|]. destruct H as [[<- _]|[_ [[<- _]|[_ ?]]]]; [vm_compute; by eexists..|done].
  - intros p i [= <-] ->%list_elem_of_singleton. cbn. set_solver.
  - intros p b [= <-] H. by apply elem_of_nil in H.
  - done.
Qed.

(** The models are applied, the channels fail: the new model client stays. *)
Lemma failed_apply_not_rolled_back_witness :
  let ds := [models_domain; channels_domain stuck order] in
  let s := (app, captureOldState app txn) in
  let '(s1, applied, _) := applyRuntimeTransactionDomains ds s in
  dom_name <$> applied = ["models"] /\ ap_model s1.1 = Some (Some 2)
  /\ run_refresh (cleanup_channels stuck order) id id ds (fun _ => true) s
     = (cleanup_channels stuck order s1,
        Some (Some (ErrAppliedBefore (ErrInDomain "channels" (ErrDisconnectChannels [("slack", "boom")])) ["models"]))).
Proof.
  cbv zeta. destruct (applyRuntimeTransactionDomains _ _) as [[s1 applied] err] eqn:E.
  assert (dom_name <$> applied = ["models"] /\ err = Some (ErrInDomain "channels" (ErrDisconnectChannels [("slack", "boom")]))
          /\ ap_model s1.1 = Some (Some 2)) as (Hn & He & Hm).
  { split_and!; [apply (f_equal (fun x => dom_name <$> x.1.2)) in E|apply (f_equal (fun x => x.2)) in E|apply (f_equal (fun x => ap_model x.1.1.1)) in E];
      cbn [fst snd] in E; rewrite <- E; vm_compute; reflexivity. }
  split; [exact Hn|]. split; [exact Hm|]. rewrite He in E.
  rewrite (failed_apply_not_rolled_back (cleanup_channels stuck order) id id _ (fun _ => true) _ _ _ _ E).
  unfold formatRuntimeTransactionApplyError, runtimeTransactionDomainNames. rewrite Hn.
  assert (filter (fun n => TrimSpace n <> "") ["models"] = ["models"]) as -> by (vm_compute; reflexivity). reflexivity.
Defined.
End Examples.
