(* ===== verification/RefreshDomains.v ===== *)
(** * The domains of a refresh ([bootstrap/effective_config_transaction.go],
    [bootstrap/controlplane_runtime_apply.go], [bootstrap/runtime_state_apply.go],
    [bootstrap/controlplane_refresh.go])

    A refresh prepares the parts of the application that the changed sections of
    the configuration need, captures the old ones, and applies a domain for each
    part: models, skills, hosts, tools, channels, policy, approvals, governance and
    audit, and the projections that wire the parts together.

    Services, clients, registries, engines, databases and configurations are
    handles.  The services that run are sets.  The flags of the plan that refresh
    the runtime's configuration and the credentials are always set and left out.
    The bindings of the builtin tools, the services of the gateway, the module
    catalog and the extension registry are represented by the configuration and the
    parts that they are made from.  Closing databases and stopping watchers and
    helpers is recorded in order; errors of stopping are only logged.

    A rollback is shown part by part: what each domain changes ([within]), that its
    rollback restores its part when nothing else touched it ([undone]), and the same
    for the stages of a plan in a row ([stages_undone]). *)
From S2P Require Import Prelude GoLib GoText ReloadGraph RefreshTransaction.

(** ** The parts of the application *)

(** [preparedSkillService], [preparedHostRuntime] and [preparedToolRuntime]. *)
Record preparedSkillService := mkSkills { sk_service : option Handle; sk_watchStop : option Handle }.
Record preparedHostRuntime := mkHosts {
  ho_managedHelpers : option Handle; ho_browserClient : option Handle; ho_desktopClient : option Handle; ho_capabilities : option Handle }.
Record preparedToolRuntime := mkTools { to_baseTools : option Handle; to_builtins : option Handle; to_runtime : option Handle }.

(** A registry with its enabled providers, and an audit sink with whether it can be
    started and stopped. *)
Record ApprovalRegistry := mkApprovalRegistry { ar_id : Handle; ar_providers : list Handle }.
Record AuditSink := mkAuditSink { si_id : Handle; si_starts : bool; si_stops : bool }.

#[export] Instance AuditSink_eq_dec : EqDecision AuditSink.
Proof. solve_decision. Defined.

(** The policy engine and the registries of the control plane: the part of
    [effectiveSnapshotRuntimeState] that the domains read. *)
Record Control := mkControl {
  c_policyEngine : option Handle; c_approvalRegistry : option ApprovalRegistry; c_governanceRegistry : option Handle;
  c_auditRegistry : option Handle }.

Definition no_control : Control := mkControl None None None None.

Record controlPlaneRuntimeState := mkControlState {
  cs_control : Control; cs_governanceDispatch : option Handle; cs_governanceDB : option Handle; cs_approvalTimeout : option Handle;
  cs_runtimeAuditSink : option AuditSink }.

(** What is wired from the parts. *)
Record BuiltinsBindings := mkBindings { bi_cfg : option Handle; bi_skills : option Handle; bi_browser : option Handle; bi_desktop : option Handle }.
Record GatewayServices := mkGateway { gw_control : Control; gw_config : Handle * option Handle; gw_hosts : preparedHostRuntime; gw_skills : option Handle;
  gw_webhooks : option (gmap string (option Handle)) }.
Record ModuleCatalog := mkCatalog { ca_cfg : Handle; ca_builtins : option Handle; ca_skills : option Handle; ca_hosts : preparedHostRuntime;
  ca_channels : option (gmap string Handle); ca_webhooks : option (gmap string (option Handle)); ca_process : option Handle }.

(** The approval timeouts, governance dispatchers and audit sinks that run. *)
Record Services := mkServices { sv_timeouts : gset Handle; sv_dispatchers : gset Handle; sv_sinks : gset Handle }.

(** The configuration that the application works with: the base and effective
    configurations, the layers, the resolver, the configuration of the locale and
    the snapshot of the runtime, which can be missing. *)
Record ConfigView := mkView {
  v_base : Handle; v_config : Handle; v_layers : Handle; v_resolver : option Handle; v_locale : Handle; v_snapshot : option (option Handle) }.

Inductive Effect := WatchStopped (h : Handle) | HelpersStopped (h : Handle) | DBClosed (h : Handle).

(** The tools; the executor's box is missing when the outer option is [None]. *)
Record ToolPart := mkToolPart {
  tp_customTools : bool; tp_baseTools : option Handle; tp_builtins : option Handle; tp_toolRuntime : option (option Handle) }.

(** The control plane, with the boxes that can be missing: the snapshot state, the
    component with its policy, the runtime routes with the registry of their
    callbacks, the box of the approval dispatcher (a dispatcher is its providers),
    those of the governance dispatcher and of the audit sink. *)
Record ControlPart := mkControlPart {
  cp_snapshot : option Control; cp_runtime : bool; cp_policy : option (option Handle); cp_callbacks : option (option ApprovalRegistry);
  cp_approvalSyncer : option (option (list Handle)); cp_approvalTimeout : option Handle; cp_governanceControl : option (option Handle);
  cp_governanceDispatcher : option Handle; cp_governanceDeliveryDB : option Handle; cp_auditSink : option (option AuditSink);
  cp_storeDB : option Handle }.

(** The wiring: the gateway and the extension registry can be missing; the latter is
    represented by the capabilities it has. *)
Record Wiring := mkWiring {
  wi_gateway : option GatewayServices; wi_bindings : gmap Handle BuiltinsBindings; wi_catalog : option ModuleCatalog;
  wi_extensions : option (option Handle) }.

Record Core := mkCore {
  co_skills : preparedSkillService; co_skillBinder : option (option Handle); co_hosts : preparedHostRuntime; co_tools : ToolPart;
  co_control : ControlPart; co_wiring : Wiring; co_services : Services; co_view : ConfigView; co_effects : list Effect }.

Definition set_skills (x : preparedSkillService) (b : option (option Handle)) (c : Core) : Core :=
  mkCore x b (co_hosts c) (co_tools c) (co_control c) (co_wiring c) (co_services c) (co_view c) (co_effects c).
Definition set_tools (x : ToolPart) (c : Core) : Core :=
  mkCore (co_skills c) (co_skillBinder c) (co_hosts c) x (co_control c) (co_wiring c) (co_services c) (co_view c) (co_effects c).
Definition set_control (x : ControlPart) (c : Core) : Core :=
  mkCore (co_skills c) (co_skillBinder c) (co_hosts c) (co_tools c) x (co_wiring c) (co_services c) (co_view c) (co_effects c).
Definition set_wiring (x : Wiring) (c : Core) : Core :=
  mkCore (co_skills c) (co_skillBinder c) (co_hosts c) (co_tools c) (co_control c) x (co_services c) (co_view c) (co_effects c).
Definition set_services (x : Services) (c : Core) : Core :=
  mkCore (co_skills c) (co_skillBinder c) (co_hosts c) (co_tools c) (co_control c) (co_wiring c) x (co_view c) (co_effects c).
Definition set_view (x : ConfigView) (c : Core) : Core :=
  mkCore (co_skills c) (co_skillBinder c) (co_hosts c) (co_tools c) (co_control c) (co_wiring c) (co_services c) x (co_effects c).
Definition add_effects (x : list Effect) (c : Core) : Core :=
  mkCore (co_skills c) (co_skillBinder c) (co_hosts c) (co_tools c) (co_control c) (co_wiring c) (co_services c) (co_view c) (co_effects c ++ x).

Definition set_policy (x : option (option Handle)) (p : ControlPart) : ControlPart :=
  mkControlPart (cp_snapshot p) (cp_runtime p) x (cp_callbacks p) (cp_approvalSyncer p) (cp_approvalTimeout p) (cp_governanceControl p)
    (cp_governanceDispatcher p) (cp_governanceDeliveryDB p) (cp_auditSink p) (cp_storeDB p).
Definition set_approvals (r : option (option ApprovalRegistry)) (d : option (option (list Handle))) (p : ControlPart) : ControlPart :=
  mkControlPart (cp_snapshot p) (cp_runtime p) (cp_policy p) r d (cp_approvalTimeout p) (cp_governanceControl p)
    (cp_governanceDispatcher p) (cp_governanceDeliveryDB p) (cp_auditSink p) (cp_storeDB p).
Definition set_timeout (x : option Handle) (p : ControlPart) : ControlPart :=
  mkControlPart (cp_snapshot p) (cp_runtime p) (cp_policy p) (cp_callbacks p) (cp_approvalSyncer p) x (cp_governanceControl p)
    (cp_governanceDispatcher p) (cp_governanceDeliveryDB p) (cp_auditSink p) (cp_storeDB p).
Definition set_governance (g : option (option Handle)) (d db : option Handle) (p : ControlPart) : ControlPart :=
  mkControlPart (cp_snapshot p) (cp_runtime p) (cp_policy p) (cp_callbacks p) (cp_approvalSyncer p) (cp_approvalTimeout p) g d db
    (cp_auditSink p) (cp_storeDB p).
Definition set_sink (x : option (option AuditSink)) (p : ControlPart) : ControlPart :=
  mkControlPart (cp_snapshot p) (cp_runtime p) (cp_policy p) (cp_callbacks p) (cp_approvalSyncer p) (cp_approvalTimeout p)
    (cp_governanceControl p) (cp_governanceDispatcher p) (cp_governanceDeliveryDB p) x (cp_storeDB p).

(** Putting a value into a box, if there is one. *)
Definition put {A} (x : A) (box : option A) : option A := (fun _ => x) <$> box.

(** Starting and stopping of services that can be missing; a service that runs is
    not started again. *)
Definition started (s : option Handle) (running : gset Handle) : gset Handle := match s with Some h => {[h]} ∪ running | None => running end.
Definition stopped (s : option Handle) (running : gset Handle) : gset Handle := match s with Some h => running ∖ {[h]} | None => running end.

Definition on_timeouts (f : gset Handle -> gset Handle) (c : Core) : Core :=
  let s := co_services c in set_services (mkServices (f (sv_timeouts s)) (sv_dispatchers s) (sv_sinks s)) c.
Definition on_dispatchers (f : gset Handle -> gset Handle) (c : Core) : Core :=
  let s := co_services c in set_services (mkServices (sv_timeouts s) (f (sv_dispatchers s)) (sv_sinks s)) c.
Definition on_sinks (f : gset Handle -> gset Handle) (c : Core) : Core :=
  let s := co_services c in set_services (mkServices (sv_timeouts s) (sv_dispatchers s) (f (sv_sinks s))) c.

(** ** Wiring *)

Definition set_gateway (f : GatewayServices -> GatewayServices) (c : Core) : Core :=
  let w := co_wiring c in
  set_wiring (mkWiring (f <$> wi_gateway w) (wi_bindings w) (wi_catalog w) (wi_extensions w)) c.

Definition wireExtensionRegistryLocked (c : Core) : Core :=
  let w := co_wiring c in
  set_wiring (mkWiring (wi_gateway w) (wi_bindings w) (wi_catalog w) (put (ho_capabilities (co_hosts c)) (wi_extensions w))) c.

Definition builtinsBindingsForConfig (cfg : Handle) (c : Core) : BuiltinsBindings :=
  mkBindings (Some cfg) (sk_service (co_skills c)) (ho_browserClient (co_hosts c)) (ho_desktopClient (co_hosts c)).

Definition wireBuiltinsForConfigLocked (cfg : Handle) (c : Core) : Core :=
  match tp_builtins (co_tools c) with
  | None => c
  | Some b =>
    let w := co_wiring c in
    set_wiring (mkWiring (wi_gateway w) (<[b := builtinsBindingsForConfig cfg c]> (wi_bindings w)) (wi_catalog w) (wi_extensions w)) c
  end.

(** The configuration only matters for the bindings of the builtins. *)
Definition wireIntegrationGatewayForConfigLocked (a : App) (c : Core) : Core :=
  wireExtensionRegistryLocked
    (set_gateway (fun g => mkGateway (gw_control g) (gw_config g) (gw_hosts g) (sk_service (co_skills c)) (ap_webhooks a)) c).

Definition catalog_for (cfg : Handle) (a : App) (c : Core) : ModuleCatalog :=
  mkCatalog cfg (tp_builtins (co_tools c)) (sk_service (co_skills c)) (co_hosts c) (ap_channels a) (ap_webhooks a) (ap_process a).

Definition refreshModuleCatalogForConfigLocked (cfg : Handle) (a : App) (c : Core) : Core :=
  let w := co_wiring c in
  wireExtensionRegistryLocked (set_wiring (mkWiring (wi_gateway w) (wi_bindings w) (Some (catalog_for cfg a c)) (wi_extensions w)) c).

(** [UpdateBindings]: bindings that were never set are empty. *)
Definition wireHostPackLocked (c : Core) : Core :=
  let h := co_hosts c in
  let c := set_gateway (fun g => mkGateway (gw_control g) (gw_config g) h (gw_skills g) (gw_webhooks g)) c in
  let w := co_wiring c in
  let bindings := match tp_builtins (co_tools c) with
                  | Some b => let bi := default (mkBindings None None None None) (wi_bindings w !! b) in
                              <[b := mkBindings (bi_cfg bi) (bi_skills bi) (ho_browserClient h) (ho_desktopClient h)]> (wi_bindings w)
                  | None => wi_bindings w
                  end in
  wireExtensionRegistryLocked (set_wiring (mkWiring (wi_gateway w) bindings (wi_catalog w) (wi_extensions w)) c).

(** What is not given is taken from the snapshot state. *)
Definition or_current {A} (given current : option A) : option A := match given with Some _ => given | None => current end.

Definition current_control (c : Core) : Control := default no_control (cp_snapshot (co_control c)).

(** The services of the kernel: those that are given, else those of the snapshot
    state; the credentials are those of the configuration and its resolver. *)
Definition gatewayKernelSurfaceLocked (cfg : Handle) (resolver : option Handle) (given now : Control) (g : GatewayServices) : GatewayServices :=
  mkGateway (mkControl (or_current (c_policyEngine given) (c_policyEngine now))
      (or_current (c_approvalRegistry given) (c_approvalRegistry now)) (or_current (c_governanceRegistry given) (c_governanceRegistry now))
      (or_current (c_auditRegistry given) (c_auditRegistry now))) (cfg, resolver) (gw_hosts g) (gw_skills g) (gw_webhooks g).

Definition wireGatewayControlPlaneLocked (given : Control) (c : Core) : Core :=
  set_gateway (gatewayKernelSurfaceLocked (v_config (co_view c)) (v_resolver (co_view c)) given (current_control c)) c.

Definition wireGatewayEffectiveConfigLocked (cfg : Handle) (resolver : option Handle) (c : Core) : Core :=
  set_gateway (gatewayKernelSurfaceLocked cfg resolver no_control (current_control c)) c.

(** ** Applying the parts *)

Definition applyPreparedSkillService (p : preparedSkillService) (c : Core) : Core :=
  set_skills p (put (sk_service p) (co_skillBinder c)) c.

Definition applyHostRuntime (p : preparedHostRuntime) (c : Core) : Core :=
  mkCore (co_skills c) (co_skillBinder c) p (co_tools c) (co_control c) (co_wiring c) (co_services c) (co_view c) (co_effects c).

Definition applyRuntimePolicyEngine (engine : option Handle) (c : Core) : Core :=
  wireGatewayControlPlaneLocked (mkControl engine None None None)
    (set_control (set_policy (put engine (cp_policy (co_control c))) (co_control c)) c).

Definition approvalDispatcherForRuntime (runtime : bool) (registry : option ApprovalRegistry) : option (list Handle) :=
  match registry with
  | Some r => if runtime then match ar_providers r with [] => None | ps => Some ps end else None
  | None => None
  end.

Definition wireRuntimeRoutesApprovalCallbacks (routes : option (option ApprovalRegistry)) (registry : option ApprovalRegistry) :
    option (option ApprovalRegistry) :=
  match registry with Some _ => put registry routes | None => routes end.

Definition applyRuntimeApprovalRegistry (registry : option ApprovalRegistry) (c : Core) : Core :=
  let c := wireGatewayControlPlaneLocked (mkControl None registry None None) c in
  let p := co_control c in
  set_control (set_approvals (wireRuntimeRoutesApprovalCallbacks (cp_callbacks p) registry)
    (put (approvalDispatcherForRuntime (cp_runtime p) registry) (cp_approvalSyncer p)) p) c.

Definition applyRuntimeGovernanceRegistry (registry dispatch deliveryDB : option Handle) (c : Core) : Core :=
  let c := wireGatewayControlPlaneLocked (mkControl None None registry None) c in
  let p := co_control c in
  set_control (set_governance (put dispatch (cp_governanceControl p)) dispatch deliveryDB p) c.

(** [dynamicAuditSink.Swap]: the new sink is started, if it can be, and the old one
    stopped, if it can be and is another one. *)
Definition swap_sink (inner : option AuditSink) (c : Core) : Core :=
  match cp_auditSink (co_control c) with
  | None => c
  | Some old =>
    let c := match inner with Some s => if si_starts s then on_sinks (started (Some (si_id s))) c else c | None => c end in
    let c := set_control (set_sink (Some inner) (co_control c)) c in
    match old with
    | Some s => if si_stops s && bool_decide (old <> inner) then on_sinks (stopped (Some (si_id s))) c else c
    | None => c
    end
  end.

Definition applyRuntimeAuditRegistry (registry : option Handle) (sink : option AuditSink) (c : Core) : Core :=
  wireGatewayControlPlaneLocked (mkControl None None None registry) (swap_sink sink c).

Definition applyApprovalTimeout (previous next : option Handle) (c : Core) : Core :=
  let c := if bool_decide (previous <> next) then on_timeouts (stopped previous) c else c in
  on_timeouts (started next) (set_control (set_timeout next (co_control c)) c).

(** ** The transaction *)

(** What [captureOldState] keeps of these parts. *)
Record OldState := mkOld {
  o_skills : preparedSkillService; o_hosts : preparedHostRuntime; o_baseTools : option Handle; o_builtins : option Handle; o_toolExec : option Handle;
  o_snapshot : Control; o_approvalSyncer : option (list Handle); o_governanceControl : option Handle; o_governanceDispatcher : option Handle;
  o_governanceDeliveryDB : option Handle; o_approvalTimeout : option Handle; o_auditSink : option AuditSink }.

Definition captureOldCore (c : Core) : OldState :=
  let t := co_tools c in let p := co_control c in
  mkOld (co_skills c) (co_hosts c) (tp_baseTools t) (tp_builtins t) (default None (tp_toolRuntime t)) (current_control c)
    (default None (cp_approvalSyncer p)) (default None (cp_governanceControl p)) (cp_governanceDispatcher p) (cp_governanceDeliveryDB p)
    (cp_approvalTimeout p) (default None (cp_auditSink p)).

(** The rest of [refreshApplyTxn]: the plan, the configurations and what was
    prepared; and what [effectiveConfigRefreshExecution] has besides, with the
    snapshots before and after. *)
Record Prepared := mkPreparedRefresh {
  k_plan : RefreshPlan; k_oldCfg : Handle; k_newCfg : Handle; k_nextState : option controlPlaneRuntimeState;
  k_nextSkills : option preparedSkillService; k_nextHosts : option preparedHostRuntime; k_nextTools : option preparedToolRuntime;
  k_nextBase : Handle; k_nextLayers : Handle; k_nextResolver : option Handle; k_oldSnapshot : option Handle; k_nextSnapshot : option Handle }.

(** The application with the part of the transaction that changes, and the rest. *)
Abbreviation Refreshing := ((App * RefreshTxn) * Core)%type.

Definition on_core (f : Core -> Core) (s : Refreshing) : Refreshing := (s.1, f s.2).
Definition on_app (f : App -> Core -> Core) (s : Refreshing) : Refreshing := (s.1, f s.1.1 s.2).
Definition on_channels (f : App * RefreshTxn -> App * RefreshTxn) (s : Refreshing) : Refreshing := (f s.1, s.2).

Definition watch_stopped (h : option Handle) : list Effect := WatchStopped <$> option_list h.
Definition stopManagedHelpers (h : option Handle) : list Effect := HelpersStopped <$> option_list h.

(** [release] of the state of the control plane. *)
Definition release (st : controlPlaneRuntimeState) (c : Core) : Core :=
  let c := on_dispatchers (stopped (cs_governanceDispatch st)) c in
  match cs_governanceDB st with
  | Some db => if bool_decide (Some db = cp_storeDB (co_control c)) then c else add_effects [DBClosed db] c
  | None => c
  end.

Section Domains.
Context (outcome : list AdapterCall -> option string) (adapter_order : gmap string Handle -> list Handle) (k : Prepared) (old : OldState).

(** A domain of steps that cannot fail. *)
Definition simple (name : string) (apply : Refreshing -> Refreshing) (commit rollback : option (Refreshing -> Refreshing)) :
    runtimeTransactionDomain Refreshing := mkDomain name (Some (fun s => (apply s, None))) commit rollback.

Definition lift_domain (d : runtimeTransactionDomain (App * RefreshTxn)) : runtimeTransactionDomain Refreshing :=
  mkDomain (dom_name d) ((fun f s => let '(x, e) := f s.1 in ((x, s.2), e)) <$> dom_apply d) (on_channels <$> dom_commit d)
    (on_channels <$> dom_rollback d).

Definition modules_domain (next : preparedSkillService) : runtimeTransactionDomain Refreshing :=
  simple ReloadStageModules (on_core (applyPreparedSkillService next))
    (Some (on_core (add_effects (watch_stopped (sk_watchStop (o_skills old))))))
    (Some (on_core (fun c => add_effects (watch_stopped (sk_watchStop next)) (applyPreparedSkillService (o_skills old) c)))).

Definition hosts_domain (next : preparedHostRuntime) : runtimeTransactionDomain Refreshing :=
  simple ReloadStageHosts (on_core (fun c => wireHostPackLocked (applyHostRuntime next c)))
    (Some (on_core (add_effects (stopManagedHelpers (ho_managedHelpers (o_hosts old))))))
    (Some (on_core (fun c => add_effects (stopManagedHelpers (ho_managedHelpers next)) (wireHostPackLocked (applyHostRuntime (o_hosts old) c))))).

Definition swap_tools (base builtins exec : option Handle) (c : Core) : Core :=
  let t := co_tools c in
  wireExtensionRegistryLocked
    (set_tools (if tp_customTools t then mkToolPart true (tp_baseTools t) (tp_builtins t) (put exec (tp_toolRuntime t))
                else mkToolPart false base builtins (put exec (tp_toolRuntime t))) c).

Definition tools_domain (next : preparedToolRuntime) : runtimeTransactionDomain Refreshing :=
  simple ReloadStageTools (on_core (swap_tools (to_baseTools next) (to_builtins next) (to_runtime next))) None
    (Some (on_core (swap_tools (o_baseTools old) (o_builtins old) (o_toolExec old)))).

Definition policy_domain (st : controlPlaneRuntimeState) : runtimeTransactionDomain Refreshing :=
  simple ReloadStagePolicy (on_core (applyRuntimePolicyEngine (c_policyEngine (cs_control st)))) None
    (Some (on_core (applyRuntimePolicyEngine (c_policyEngine (o_snapshot old))))).

Definition swap_syncer (d : option (list Handle)) (c : Core) : Core :=
  set_control (set_approvals (cp_callbacks (co_control c)) (put d (cp_approvalSyncer (co_control c))) (co_control c)) c.

Definition approvals_domain (st : controlPlaneRuntimeState) : runtimeTransactionDomain Refreshing :=
  simple ReloadStageApprovals
    (on_core (fun c =>
      let c := if RP_RebuildApproval (k_plan k) then applyRuntimeApprovalRegistry (c_approvalRegistry (cs_control st)) c else c in
      if RP_RebuildApprovalTimer (k_plan k) then applyApprovalTimeout (o_approvalTimeout old) (cs_approvalTimeout st) c else c))
    None
    (Some (on_core (fun c =>
      let c := if RP_RebuildApprovalTimer (k_plan k) then applyApprovalTimeout (cp_approvalTimeout (co_control c)) (o_approvalTimeout old) c else c in
      if RP_RebuildApproval (k_plan k) then swap_syncer (o_approvalSyncer old) (applyRuntimeApprovalRegistry (c_approvalRegistry (o_snapshot old)) c)
      else c))).

(** The dispatcher that is stopped and started again: the one of the box, else the
    one of the application. *)
Definition old_dispatch : option Handle :=
  match o_governanceControl old with Some d => Some d | None => o_governanceDispatcher old end.

Definition apply_governance (st : controlPlaneRuntimeState) (c : Core) : Core :=
  let c := if bool_decide (old_dispatch <> cs_governanceDispatch st) then on_dispatchers (stopped old_dispatch) c else c in
  applyRuntimeGovernanceRegistry (c_governanceRegistry (cs_control st)) (cs_governanceDispatch st) (cs_governanceDB st)
    (on_dispatchers (started (cs_governanceDispatch st)) c).

Definition replace_control (d : option Handle) (c : Core) : Core :=
  let p := co_control c in
  set_control (set_governance (put d (cp_governanceControl p)) (cp_governanceDispatcher p) (cp_governanceDeliveryDB p) p) c.

Definition rollback_governance (st : controlPlaneRuntimeState) (c : Core) : Core :=
  let c := if bool_decide (cs_governanceDispatch st <> o_governanceDispatcher old) then on_dispatchers (stopped (cs_governanceDispatch st)) c else c in
  let c := replace_control (o_governanceControl old) c in
  applyRuntimeGovernanceRegistry (c_governanceRegistry (o_snapshot old)) (o_governanceDispatcher old) (o_governanceDeliveryDB old)
    (on_dispatchers (started old_dispatch) c).

Definition governance_domain (st : controlPlaneRuntimeState) : runtimeTransactionDomain Refreshing :=
  simple ReloadStageGovernance
    (on_core (fun c =>
      let c := if RP_RebuildGovernance (k_plan k) then apply_governance st c else c in
      if RP_RebuildAudit (k_plan k) then applyRuntimeAuditRegistry (c_auditRegistry (cs_control st)) (cs_runtimeAuditSink st) c else c))
    None
    (Some (on_core (fun c =>
      let c := if RP_RebuildGovernance (k_plan k) then rollback_governance st c else c in
      if RP_RebuildAudit (k_plan k) then applyRuntimeAuditRegistry (c_auditRegistry (o_snapshot old)) (o_auditSink old) c else c))).

(** Whether skills or channels, and whether skills, hosts, tools or channels were
    prepared. *)
Definition some {A} (x : option A) : bool := match x with Some _ => true | None => false end.
Definition rewires_gateway (t : RefreshTxn) : bool := some (k_nextSkills k) || some (rt_next t).
Definition rewires (t : RefreshTxn) : bool := some (k_nextSkills k) || some (k_nextHosts k) || some (k_nextTools k) || some (rt_next t).

Definition projections_domains (t : RefreshTxn) : list (runtimeTransactionDomain Refreshing) :=
  (if rewires t then [simple "projections:bindings" (on_core (wireBuiltinsForConfigLocked (k_newCfg k))) None
                        (Some (on_core (wireBuiltinsForConfigLocked (k_oldCfg k))))] else [])
  ++ (if rewires_gateway t then [simple "projections:gateway" (on_app wireIntegrationGatewayForConfigLocked) None
                                   (Some (on_app wireIntegrationGatewayForConfigLocked))] else [])
  ++ (if rewires t then [simple ReloadStageProjections (on_app (refreshModuleCatalogForConfigLocked (k_newCfg k))) None None] else []).

Definition if_some {A B} (x : option A) (f : A -> B) : list B := match x with Some a => [f a] | None => [] end.

Definition domainsForStage (t : RefreshTxn) (stage : string) : list (runtimeTransactionDomain Refreshing) :=
  if decide (stage = ReloadStageModels) then if RP_RebuildModels (k_plan k) then [lift_domain models_domain] else []
  else if decide (stage = ReloadStageModules) then if_some (k_nextSkills k) modules_domain
  else if decide (stage = ReloadStageHosts) then if_some (k_nextHosts k) hosts_domain
  else if decide (stage = ReloadStageTools) then if_some (k_nextTools k) tools_domain
  else if decide (stage = ReloadStageChannels) then if_some (rt_next t) (fun _ => lift_domain (channels_domain outcome adapter_order))
  else if decide (stage = ReloadStagePolicy) then if RP_RebuildPolicy (k_plan k) then if_some (k_nextState k) policy_domain else []
  else if decide (stage = ReloadStageApprovals) then
    if RP_RebuildApproval (k_plan k) || RP_RebuildApprovalTimer (k_plan k) then if_some (k_nextState k) approvals_domain else []
  else if decide (stage = ReloadStageGovernance) then
    if RP_RebuildGovernance (k_plan k) || RP_RebuildAudit (k_plan k) then if_some (k_nextState k) governance_domain else []
  else if decide (stage = ReloadStageProjections) then projections_domains t
  else [].

Definition domains (t : RefreshTxn) : list (runtimeTransactionDomain Refreshing) :=
  RuntimeStages (RP_Graph (k_plan k)) ≫= domainsForStage t.

Definition release_state (s : Refreshing) : Refreshing := match k_nextState k with Some st => on_core (release st) s | None => s end.

Definition releasePrepared (s : Refreshing) : Refreshing :=
  let s := on_core (add_effects (watch_stopped (k_nextSkills k ≫= sk_watchStop))) s in
  let s := on_core (add_effects (stopManagedHelpers (k_nextHosts k ≫= ho_managedHelpers))) s in
  release_state (on_channels (cleanup_channels outcome adapter_order) s).

(** Everything wired again, for a configuration. *)
Definition rewired (cfg : Handle) (s : Refreshing) : Refreshing :=
  on_app wireIntegrationGatewayForConfigLocked (on_core (wireBuiltinsForConfigLocked cfg) (on_app (refreshModuleCatalogForConfigLocked cfg) s)).

(** The ends of [Commit] and [Rollback]. *)
Definition finish_commit (s : Refreshing) : Refreshing :=
  let s := if RP_RebuildGovernance (k_plan k) then s else release_state s in
  match o_governanceDeliveryDB old with
  | Some db =>
    let p := co_control s.2 in
    if RP_RebuildGovernance (k_plan k) && bool_decide (Some db <> cp_governanceDeliveryDB p) && bool_decide (Some db <> cp_storeDB p)
    then on_core (add_effects [DBClosed db]) s else s
  | None => s
  end.

Definition finish_rollback (s : Refreshing) : Refreshing :=
  let s := release_state s in
  if rewires s.1.2 then rewired (k_oldCfg k) s else s.

(** *** The view of the configuration ([bootstrap/effective_config_execution.go]) *)

Definition applyConfigView (c : Core) : Core :=
  let v := co_view c in
  wireGatewayEffectiveConfigLocked (k_newCfg k) (k_nextResolver k)
    (set_view (mkView (k_nextBase k) (k_newCfg k) (k_nextLayers k) (match k_nextResolver k with Some r => Some r | None => v_resolver v end)
      (k_newCfg k) (put (k_nextSnapshot k) (v_snapshot v))) c).

Definition restoreConfigView (was : ConfigView) (c : Core) : Core :=
  wireGatewayEffectiveConfigLocked (v_config was) (v_resolver was)
    (set_view (mkView (v_base was) (v_config was) (v_layers was) (v_resolver was) (v_config was) (put (k_oldSnapshot k) (v_snapshot (co_view c)))) c).

(** [updateSnapshotStateFromControlPlane], after a commit. *)
Definition updateSnapshotState (c : Core) : Core :=
  match k_nextState k with
  | None => c
  | Some st =>
    let p := co_control c in
    set_control (mkControlPart (put (cs_control st) (cp_snapshot p)) (cp_runtime p) (cp_policy p) (cp_callbacks p) (cp_approvalSyncer p)
      (cp_approvalTimeout p) (cp_governanceControl p) (cp_governanceDispatcher p) (cp_governanceDeliveryDB p) (cp_auditSink p) (cp_storeDB p)) c
  end.
End Domains.

(** A refresh with what was prepared for it: [Apply] from the capture on, and
    [run]. *)
Definition refresh (outcome : list AdapterCall -> option string) (adapter_order : gmap string Handle -> list Handle) (validate : Refreshing -> bool)
    (k : Prepared) (s : Refreshing) : Refreshing * option (option RefreshError) :=
  let '((a, t), c) := s in
  let old := captureOldCore c in
  let t := captureOldState a t in
  let release := releasePrepared outcome adapter_order k in
  match txn_apply (domains outcome adapter_order k old t) new_txn ((a, t), c) with
  | (tx, s, Some e) => ((txn_Rollback release (finish_rollback k) tx s).2, Some (Some e))
  | (tx, s, None) =>
    let s := on_core (applyConfigView k) s in
    if validate s then (on_core (updateSnapshotState k) (txn_Commit release (finish_commit k old) tx s).2, None)
    else (on_core (restoreConfigView k (co_view c)) (txn_Rollback release (finish_rollback k) tx s).2, Some None)
  end.

(** ** The parts of the application *)

Inductive Part := Models | Modules | Hosts | Tools | Channels | Policy | Approvals | Governance | Projections.

#[export] Instance Part_eq_dec : EqDecision Part.
Proof. solve_decision. Defined.

Definition stage_of (i : Part) : string :=
  match i with
  | Models => ReloadStageModels | Modules => ReloadStageModules | Hosts => ReloadStageHosts | Tools => ReloadStageTools
  | Channels => ReloadStageChannels | Policy => ReloadStagePolicy | Approvals => ReloadStageApprovals | Governance => ReloadStageGovernance
  | Projections => ReloadStageProjections
  end.

(** What a part of the application is: two states agree on it. *)
Definition agree (i : Part) (s s' : Refreshing) : Prop :=
  let '((a, t), c) := s in let '((a', t'), c') := s' in
  match i with
  | Models => ap_model a = ap_model a' /\ ap_router a = ap_router a'
  | Modules => co_skills c = co_skills c' /\ co_skillBinder c = co_skillBinder c'
  | Hosts => co_hosts c = co_hosts c' /\ gw_hosts <$> wi_gateway (co_wiring c) = gw_hosts <$> wi_gateway (co_wiring c')
  | Tools => co_tools c = co_tools c'
  | Channels => ap_channels a = ap_channels a' /\ ap_running a = ap_running a' /\ ap_webhooks a = ap_webhooks a' /\ ap_bridges a = ap_bridges a'
      /\ ap_process a = ap_process a' /\ ap_ready a = ap_ready a'
  | Policy => cp_policy (co_control c) = cp_policy (co_control c')
  | Approvals => cp_callbacks (co_control c) = cp_callbacks (co_control c') /\ cp_approvalSyncer (co_control c) = cp_approvalSyncer (co_control c')
      /\ cp_approvalTimeout (co_control c) = cp_approvalTimeout (co_control c') /\ sv_timeouts (co_services c) = sv_timeouts (co_services c')
  | Governance => cp_governanceControl (co_control c) = cp_governanceControl (co_control c')
      /\ cp_governanceDispatcher (co_control c) = cp_governanceDispatcher (co_control c')
      /\ cp_governanceDeliveryDB (co_control c) = cp_governanceDeliveryDB (co_control c') /\ cp_auditSink (co_control c) = cp_auditSink (co_control c')
      /\ sv_dispatchers (co_services c) = sv_dispatchers (co_services c') /\ sv_sinks (co_services c) = sv_sinks (co_services c')
  | Projections => True
  end.

(** The channels agree with their part of the transaction. *)
Definition same (i : Part) (s s' : Refreshing) : Prop := agree i s s' /\ (i = Channels -> s.1.2 = s'.1.2).

(** What no step changes. *)
Definition fixed (s s' : Refreshing) : Prop :=
  let '((a, t), c) := s in let '((a', t'), c') := s' in
  ap_customModel a = ap_customModel a' /\ ap_customRouter a = ap_customRouter a'
  /\ (fun _ : bool => ()) <$> ap_ready a = (fun _ : bool => ()) <$> ap_ready a' /\ static t = static t'
  /\ cp_snapshot (co_control c) = cp_snapshot (co_control c') /\ cp_runtime (co_control c) = cp_runtime (co_control c')
  /\ cp_storeDB (co_control c) = cp_storeDB (co_control c')
  /\ some (wi_extensions (co_wiring c)) = some (wi_extensions (co_wiring c')).

#[export] Instance agree_equivalence i : Equivalence (agree i).
Proof.
  split.
  - intros [[a t] c]. by destruct i.
  - intros [[a t] c] [[a' t'] c']. destruct i; cbn; intuition congruence.
  - intros [[a t] c] [[a' t'] c'] [[a2 t2] c2]. destruct i; cbn; intuition congruence.
Qed.

#[export] Instance same_equivalence i : Equivalence (same i).
Proof.
  split.
  - by intros s.
  - intros s s' [H K]. split; [done|]. intros ?. by rewrite K.
  - intros s s' s2 [H K] [H' K']. split; [by etrans|]. intros ?. by rewrite K, K'.
Qed.

#[export] Instance fixed_equivalence : Equivalence fixed.
Proof.
  split.
  - by intros [[a t] c].
  - intros [[a t] c] [[a' t'] c']. cbn. intuition congruence.
  - intros [[a t] c] [[a' t'] c'] [[a2 t2] c2]. cbn. intuition congruence.
Qed.

(** *** Steps of the domains, part by part *)

Lemma foldl_kept {A} (f : App -> A -> App) l a : (forall a x, kept (f a x) = kept a) -> kept (foldl f a l) = kept a.
Proof. intros Hf. revert a. induction l as [|x l IH]; intros a; [done|]. cbn [foldl]. by rewrite IH, Hf. Qed.

Section Parts.
Context (outcome : list AdapterCall -> option string) (adapter_order : gmap string Handle -> list Handle) (k : Prepared) (old : OldState).
Context (t0 : RefreshTxn).

Lemma cleanup_channels_kept s : kept (cleanup_channels outcome adapter_order s).1 = kept s.1.
Proof.
  destruct s as [a t]. destruct (cleanup_keeps outcome adapter_order a t) as (_ & _ & H). revert H.
  generalize (cleanup_channels outcome adapter_order (a, t)). intros [a' t']. unfold rest_of, kept. cbn [fst].
  by intros [= -> -> -> -> _ _ _ ->].
Qed.

Lemma rollback_channels_kept s : kept (rollbackBuiltinChannelChanges outcome adapter_order s).1 = kept s.1.
Proof.
  destruct s as [a t]. unfold rollbackBuiltinChannelChanges. destruct (rt_next t) as [p|]; [|done]. cbv zeta. rewrite cleanup_channels_kept. cbn [fst].
  match goal with |- kept (set_ready true (applyChannelRuntimeState _ _ _ _ ?x)) = _ => enough (kept x = kept a) as H end.
  { revert H. unfold kept. cbn. intros [= -> -> -> -> H]. rewrite <- H. by destruct (ap_ready _). }
  destruct (ap_channels a); [|done].
  rewrite !foldl_kept; [done|..]; intros b x; [done|unfold unregister_channel, mgr_Unregister, call; by repeat case_match|..].
  - unfold register_channel. by repeat case_match.
  - by case_match.
Qed.

Definition stage_domains (i : Part) : list (runtimeTransactionDomain Refreshing) := domainsForStage outcome adapter_order k old t0 (stage_of i).

Lemma stage_domains_eq i : stage_domains i =
  match i with
  | Models => if RP_RebuildModels (k_plan k) then [lift_domain models_domain] else []
  | Modules => if_some (k_nextSkills k) (modules_domain old)
  | Hosts => if_some (k_nextHosts k) (hosts_domain old)
  | Tools => if_some (k_nextTools k) (tools_domain old)
  | Channels => if_some (rt_next t0) (fun _ => lift_domain (channels_domain outcome adapter_order))
  | Policy => if RP_RebuildPolicy (k_plan k) then if_some (k_nextState k) (policy_domain old) else []
  | Approvals => if RP_RebuildApproval (k_plan k) || RP_RebuildApprovalTimer (k_plan k) then if_some (k_nextState k) (approvals_domain k old) else []
  | Governance => if RP_RebuildGovernance (k_plan k) || RP_RebuildAudit (k_plan k) then if_some (k_nextState k) (governance_domain k old) else []
  | Projections => projections_domains k t0
  end.
Proof. by destruct i. Qed.

(** What is stopped and closed is what was prepared. *)
Definition prepared_effects : list Effect :=
  watch_stopped (k_nextSkills k ≫= sk_watchStop) ++ stopManagedHelpers (k_nextHosts k ≫= ho_managedHelpers)
  ++ (DBClosed <$> option_list (k_nextState k ≫= cs_governanceDB)).

Definition releases (s s' : Refreshing) : Prop :=
  co_view s.2 = co_view s'.2 /\ exists es, co_effects s'.2 = co_effects s.2 ++ es /\ forall e, e ∈ es -> e ∈ prepared_effects.

(** A step that only changes one part, and the wiring. *)
Definition within (i : Part) (s s' : Refreshing) : Prop := fixed s s' /\ releases s s' /\ forall j, j <> i -> same j s s'.

Lemma releases_nothing s s' : co_view s.2 = co_view s'.2 -> co_effects s'.2 = co_effects s.2 -> releases s s'.
Proof. intros Hv He. split; [done|]. exists []. rewrite app_nil_r. split; [done|]. by intros e ?%elem_of_nil. Qed.

#[export] Instance releases_preorder : PreOrder releases.
Proof.
  split.
  - intros s. by apply releases_nothing.
  - intros s s1 s2 [H1 (es & H2 & H3)] [K1 (es' & K2 & K3)]. split; [congruence|]. exists (es ++ es'). rewrite K2, H2, app_assoc. split; [done|].
    intros e [?|?]%elem_of_app; auto.
Qed.

#[export] Instance within_preorder i : PreOrder (within i).
Proof.
  split.
  - intros s. split; [done|split; [done|]]. by intros j _.
  - intros s s1 s2 (H1 & H2 & H3) (K1 & K2 & K3). split; [by etrans|split; [by etrans|]]. intros j Hj. etrans; [by apply H3|by apply K3].
Qed.

Lemma within_core i f :
  (forall c, cp_snapshot (co_control c) = cp_snapshot (co_control (f c)) /\ cp_runtime (co_control c) = cp_runtime (co_control (f c))
    /\ cp_storeDB (co_control c) = cp_storeDB (co_control (f c))
    /\ some (wi_extensions (co_wiring c)) = some (wi_extensions (co_wiring (f c))) /\ co_view c = co_view (f c) /\ co_effects (f c) = co_effects c) ->
  (forall s j, j <> i -> agree j s (on_core f s)) -> forall s, within i s (on_core f s).
Proof.
  intros Hf Ha s. destruct (Hf s.2) as (H1 & H2 & H3 & H4 & H5 & H6). split; [|split].
  - destruct s as [[a t] c]. cbn. done.
  - by apply releases_nothing.
  - intros j Hj. split; [by apply Ha|done].
Qed.

(** The wiring belongs to no part, except the hosts of the gateway. *)
Lemma within_wiring i s s' :
  s' = (s.1, set_wiring (co_wiring s'.2) s.2) -> gw_hosts <$> wi_gateway (co_wiring s'.2) = gw_hosts <$> wi_gateway (co_wiring s.2) ->
  some (wi_extensions (co_wiring s.2)) = some (wi_extensions (co_wiring s'.2)) -> within i s s'.
Proof.
  intros Hs Hw Hx. rewrite Hs. destruct s as [[a t] c]. split; [|split]; [done|by apply releases_nothing|].
  intros j Hj. split; [|done]. destruct j; cbn in *; done.
Qed.

Lemma set_gateway_hosts f c : (forall g, gw_hosts (f g) = gw_hosts g) ->
  gw_hosts <$> wi_gateway (co_wiring (set_gateway f c)) = gw_hosts <$> wi_gateway (co_wiring c).
Proof. intros Hf. cbn. destruct (wi_gateway _) as [g|]; [|done]. cbn. by rewrite Hf. Qed.

Lemma extensions_put {A} (x : A) (box : option A) : some box = some (put x box).
Proof. by destruct box. Qed.

Lemma extensions_within i s : within i s (on_core wireExtensionRegistryLocked s).
Proof. apply within_wiring; [done..|]. apply extensions_put. Qed.

Lemma builtins_within i cfg s : within i s (on_core (wireBuiltinsForConfigLocked cfg) s).
Proof. unfold wireBuiltinsForConfigLocked, on_core. destruct s as [[a t] []]. apply within_wiring; cbn; by case_match. Qed.

Lemma integration_within i s : within i s (on_app wireIntegrationGatewayForConfigLocked s).
Proof. apply within_wiring; [done| |apply extensions_put]. by apply set_gateway_hosts. Qed.

Lemma catalog_within i cfg s : within i s (on_app (refreshModuleCatalogForConfigLocked cfg) s).
Proof. apply within_wiring; [done..|]. apply extensions_put. Qed.

Lemma control_within i given s : within i s (on_core (wireGatewayControlPlaneLocked given) s).
Proof. apply within_wiring; [done| |done]. by apply set_gateway_hosts. Qed.

(** Steps on the control plane and the services. *)
Ltac core_step := apply within_core; [intros c; cbn; repeat case_match; split_and!; try done; by destruct (wi_extensions _)|intros [[a t] c] [] ?; cbn; repeat case_match; by intuition].

Lemma effects_within i es : (forall e, e ∈ es -> e ∈ prepared_effects) -> forall s, within i s (on_core (add_effects es) s).
Proof.
  intros Hes s. destruct s as [[a t] c]. split; [done|split; [split; [done|by exists es]|]]. intros j Hj. split; [|done]. by destruct j.
Qed.

Lemma skills_within next s : within Modules s (on_core (applyPreparedSkillService next) s).
Proof. core_step. Qed.

Lemma hosts_within next s : within Hosts s (on_core (fun c => wireHostPackLocked (applyHostRuntime next c)) s).
Proof. core_step. Qed.

Lemma tools_within b bt e s : within Tools s (on_core (swap_tools b bt e) s).
Proof. core_step. Qed.

Lemma within_comp i f g : (forall s, within i s (on_core f s)) -> (forall s, within i s (on_core g s)) ->
  forall s, within i s (on_core (fun c => g (f c)) s).
Proof. intros Hf Hg s. etrans; [apply Hf|apply (Hg (on_core f s))]. Qed.

Lemma policy_within e s : within Policy s (on_core (applyRuntimePolicyEngine e) s).
Proof.
  revert s. apply (within_comp Policy (fun c => set_control (set_policy (put e (cp_policy (co_control c))) (co_control c)) c)); [|intros ?; apply control_within].
  intros s. core_step.
Qed.

Lemma approvals_within r s : within Approvals s (on_core (applyRuntimeApprovalRegistry r) s).
Proof.
  revert s. apply (within_comp Approvals (wireGatewayControlPlaneLocked (mkControl None r None None)) (fun c => let p := co_control c in
    set_control (set_approvals (wireRuntimeRoutesApprovalCallbacks (cp_callbacks p) r)
      (put (approvalDispatcherForRuntime (cp_runtime p) r) (cp_approvalSyncer p)) p) c)); [intros ?; apply control_within|]. intros s. core_step.
Qed.

Lemma timeout_within previous next s : within Approvals s (on_core (applyApprovalTimeout previous next) s).
Proof. core_step. Qed.

Lemma syncer_within d s : within Approvals s (on_core (swap_syncer d) s).
Proof. core_step. Qed.

Lemma governance_within r d db s : within Governance s (on_core (applyRuntimeGovernanceRegistry r d db) s).
Proof.
  revert s. apply (within_comp Governance (wireGatewayControlPlaneLocked (mkControl None None r None)) (fun c => let p := co_control c in
    set_control (set_governance (put d (cp_governanceControl p)) d db p) c)); [intros ?; apply control_within|]. intros s. core_step.
Qed.

Lemma dispatchers_within f s : within Governance s (on_core (on_dispatchers f) s).
Proof. core_step. Qed.

Lemma replace_within d s : within Governance s (on_core (replace_control d) s).
Proof. core_step. Qed.

Lemma sink_within sink s : within Governance s (on_core (swap_sink sink) s).
Proof. unfold swap_sink. core_step. Qed.

Lemma audit_within r sink s : within Governance s (on_core (applyRuntimeAuditRegistry r sink) s).
Proof. revert s. apply (within_comp Governance (swap_sink sink)); intros s; [apply sink_within|apply control_within]. Qed.

Lemma channels_within s x : kept x.1 = kept s.1.1 -> static x.2 = static s.1.2 -> within Channels s (x, s.2).
Proof.
  destruct s as [[a t] c], x as [a' t']. cbn. intros Hk Hs. unfold kept in Hk. injection Hk as H1 H2 H3 H4 H5. split; [|split].
  - cbn. split_and!; congruence.
  - by apply releases_nothing.
  - intros j Hj. split; [|done]. destruct j; cbn; done.
Qed.

Lemma models_within s m r b : within Models s (swap_clients m r b s.1.1, s.1.2, s.2).
Proof.
  destruct s as [[a t] c]. split; [done|split; [by apply releases_nothing|]]. intros j Hj. split; [|done]. destruct j; cbn; done.
Qed.

Lemma at_core i f : (forall s, within i s (on_core f s)) -> forall x c, within i (x, c) (x, f c).
Proof. intros H x c. apply (H (x, c)). Qed.

(** The steps on the core, from the last to the first. *)
Ltac core_chain :=
  repeat (etrans; [|match goal with
    | |- within _ _ (_, applyRuntimeApprovalRegistry _ _) => apply (at_core _ _ (approvals_within _))
    | |- within _ _ (_, applyApprovalTimeout _ _ _) => apply (at_core _ _ (timeout_within _ _))
    | |- within _ _ (_, swap_syncer _ _) => apply (at_core _ _ (syncer_within _))
    | |- within _ _ (_, applyRuntimeGovernanceRegistry _ _ _ _) => apply (at_core _ _ (governance_within _ _ _))
    | |- within _ _ (_, on_dispatchers _ _) => apply (at_core _ _ (dispatchers_within _))
    | |- within _ _ (_, replace_control _ _) => apply (at_core _ _ (replace_within _))
    | |- within _ _ (_, applyRuntimeAuditRegistry _ _ _) => apply (at_core _ _ (audit_within _ _))
    end]); reflexivity.

#[local] Arguments rollbackBuiltinChannelChanges : simpl never.
#[local] Arguments applyBuiltinChannelChanges : simpl never.

(** Applying and rolling back the domains of a stage. *)
Lemma stage_applied i s s' ds :
  applyRuntimeTransactionDomains (stage_domains i) s = (s', ds, None) -> ds = stage_domains i /\ within i s s'.
Proof.
  rewrite stage_domains_eq. destruct i.
  - destruct (RP_RebuildModels _); cbn; intros [= <- <-]; [|done]. split; [done|apply models_within].
  - destruct (k_nextSkills k); cbn; intros [= <- <-]; [|done]. split; [done|apply skills_within].
  - destruct (k_nextHosts k); cbn; intros [= <- <-]; [|done]. split; [done|apply hosts_within].
  - destruct (k_nextTools k); cbn; intros [= <- <-]; [|done]. split; [done|apply tools_within].
  - destruct (rt_next t0); cbn; [|by intros [= <- <-]]. destruct s as [[a t] c]. cbn.
    pose proof (apply_channels_static outcome (a, t)) as Hs. destruct (applyBuiltinChannelChanges outcome (a, t)) as [[a1 t1] [e|]] eqn:E; cbn; [done|].
    intros [= <- <-]. split; [done|]. apply channels_within; [exact (apply_channels_kept _ _ _ _ _ E)|exact Hs].
  - destruct (RP_RebuildPolicy _), (k_nextState k); cbn; intros [= <- <-]; try done. split; [done|apply policy_within].
  - destruct (_ || _), (k_nextState k) as [st|]; cbn; intros [= <- <-]; try done. split; [done|].
    destruct s as [x c]. unfold on_core. cbn [fst snd]. destruct (RP_RebuildApproval _), (RP_RebuildApprovalTimer _); core_chain.
  - destruct (_ || _), (k_nextState k) as [st|]; cbn; intros [= <- <-]; try done. split; [done|].
    destruct s as [x c]. unfold on_core, apply_governance. cbn [fst snd]. cbv zeta.
    destruct (RP_RebuildGovernance _), (RP_RebuildAudit _); [destruct (bool_decide _)..| |]; core_chain.
  - unfold projections_domains. intros H.
    destruct (rewires k t0), (rewires_gateway k t0); cbn in H; injection H as <- <-; (split; [done|]);
      repeat (etrans; [|first [apply catalog_within|apply integration_within|apply builtins_within]]); done.
Qed.

Lemma stage_rolled i s : within i s (rollbackRuntimeTransactionDomains (stage_domains i) s).
Proof.
  rewrite stage_domains_eq. destruct i.
  - destruct (RP_RebuildModels _); cbn; [|done]. apply models_within.
  - destruct (k_nextSkills k) as [n|] eqn:E; cbn; [|done]. destruct s as [x c]. unfold on_core. cbn [fst snd].
    etrans; [apply (at_core _ _ (skills_within (o_skills old)))|]. apply (at_core _ _), effects_within. intros e He. unfold prepared_effects. rewrite E. by apply elem_of_app; left.
  - destruct (k_nextHosts k) as [n|] eqn:E; cbn; [|done]. destruct s as [x c]. unfold on_core. cbn [fst snd].
    etrans; [apply (at_core _ _ (hosts_within (o_hosts old)))|]. apply (at_core _ _), effects_within. intros e He. unfold prepared_effects. rewrite E, !elem_of_app. by right; left.
  - destruct (k_nextTools k); cbn; [|done]. apply tools_within.
  - destruct (rt_next t0); cbn; [|done]. apply channels_within; [apply rollback_channels_kept|apply rollback_channels_static].
  - destruct (RP_RebuildPolicy _), (k_nextState k); cbn; try done. apply policy_within.
  - destruct (_ || _), (k_nextState k) as [st|]; cbn; try done.
    destruct s as [x c]. unfold on_core. cbn [fst snd]. destruct (RP_RebuildApproval _), (RP_RebuildApprovalTimer _); core_chain.
  - destruct (_ || _), (k_nextState k) as [st|]; cbn; try done. destruct s as [x c]. unfold on_core. cbn [fst snd].
    unfold rollback_governance. cbv zeta. destruct (RP_RebuildGovernance _), (RP_RebuildAudit _); [destruct (bool_decide _)..| |]; core_chain.
  - unfold projections_domains.
    destruct (rewires k t0), (rewires_gateway k t0); cbn;
      repeat (etrans; [|first [apply catalog_within|apply integration_within|apply builtins_within]]); done.
Qed.
End Parts.

(** ** Refreshes that are rolled back *)

(** An application and what was prepared for it.  The skills of the binder, the
    hosts of the gateway, the policy of the component, the callbacks of the routes
    and the box of the governance dispatcher hold what the application has; the
    services of the application run, those that were prepared do not. *)
Record refresh_ready (k : Prepared) (a : App) (t : RefreshTxn) (c : Core) : Prop := {
  rr_channels : channels_ok a t;
  rr_binder x : co_skillBinder c = Some x -> x = sk_service (co_skills c);
  rr_hosts g : wi_gateway (co_wiring c) = Some g -> gw_hosts g = co_hosts c;
  rr_policy x : cp_policy (co_control c) = Some x -> x = c_policyEngine (current_control c);
  rr_callbacks x : cp_callbacks (co_control c) = Some x -> is_Some x /\ x = c_approvalRegistry (current_control c);
  rr_dispatcher x : cp_governanceControl (co_control c) = Some x -> x = cp_governanceDispatcher (co_control c);
  rr_timeout h : cp_approvalTimeout (co_control c) = Some h -> h ∈ sv_timeouts (co_services c);
  rr_dispatch h : cp_governanceDispatcher (co_control c) = Some h -> h ∈ sv_dispatchers (co_services c);
  rr_sink h : cp_auditSink (co_control c) = Some (Some h) -> si_starts h = si_stops h /\ (si_starts h = true -> si_id h ∈ sv_sinks (co_services c));
  rr_next st : k_nextState k = Some st ->
    (forall h, cs_approvalTimeout st = Some h -> h ∉ sv_timeouts (co_services c))
    /\ (forall h, cs_governanceDispatch st = Some h -> h ∉ sv_dispatchers (co_services c))
    /\ (forall h, cs_runtimeAuditSink st = Some h -> (si_starts h = true -> si_stops h = true) /\ si_id h ∉ sv_sinks (co_services c)) }.

(** Replacing a running service by one that does not run, and back. *)
Lemma replaced_back (o n : option Handle) (r : gset Handle) (b b' : bool) :
  (forall h, o = Some h -> h ∈ r) -> (forall h, n = Some h -> h ∉ r) -> (b' = false -> n = o) ->
  let r1 := started n (if b then stopped o r else r) in started o (if b' then stopped n r1 else r1) = r.
Proof.
  intros Ho Hn Hb. cbv zeta. unfold started, stopped. destruct o as [o|], n as [n|]; try specialize (Ho _ eq_refl); try specialize (Hn _ eq_refl);
    destruct b'; try (specialize (Hb eq_refl); congruence); [..|by destruct b|by destruct b];
    apply set_eq; intros x; destruct b;
    rewrite ?elem_of_union, ?elem_of_difference, ?elem_of_union, ?elem_of_difference, ?elem_of_singleton;
    try destruct (decide (x = o)); try destruct (decide (x = n)); subst; tauto.
Qed.

Lemma applyApprovalTimeout_eq previous next c :
  applyApprovalTimeout previous next c = on_timeouts (fun r => started next (if bool_decide (previous <> next) then stopped previous r else r))
    (set_control (set_timeout next (co_control c)) c).
Proof. unfold applyApprovalTimeout. by destruct (bool_decide _). Qed.

(** The same for audit sinks. *)
Definition sink_swap (old new : option AuditSink) (r : gset Handle) : gset Handle :=
  let r := match new with Some n => if si_starts n then started (Some (si_id n)) r else r | None => r end in
  match old with Some o => if si_stops o && bool_decide (old <> new) then stopped (Some (si_id o)) r else r | None => r end.

Lemma swap_sink_eq inner c : swap_sink inner c = match cp_auditSink (co_control c) with
  | Some old => on_sinks (sink_swap old inner) (set_control (set_sink (Some inner) (co_control c)) c) | None => c end.
Proof.
  unfold swap_sink, sink_swap. destruct c as [? ? ? ? [] ? [] ? ?]. cbn. destruct cp_auditSink0 as [old|]; [|done].
  destruct inner as [[i [] ?]|], old as [[o ? []]|]; cbn; repeat case_match; done.
Qed.

Lemma sink_swapped_back (o n : option AuditSink) (r : gset Handle) :
  (forall h, o = Some h -> si_starts h = si_stops h /\ (si_starts h = true -> si_id h ∈ r)) ->
  (forall h, n = Some h -> (si_starts h = true -> si_stops h = true) /\ si_id h ∉ r) ->
  sink_swap n o (sink_swap o n r) = r.
Proof.
  intros Ho Hn. unfold sink_swap, started, stopped.
  destruct o as [[o os op]|], n as [[n ns np]|]; [destruct (Ho _ eq_refl) as [Ho1 Ho2], (Hn _ eq_refl) as [Hn1 Hn2]|destruct (Ho _ eq_refl) as [Ho1 Ho2]|destruct (Hn _ eq_refl) as [Hn1 Hn2]|done];
    cbn in *; subst; try destruct op; try destruct ns, np; try specialize (Ho2 eq_refl); try specialize (Hn1 eq_refl); try done;
    apply set_eq; intros x; repeat case_bool_decide; cbn; simplify_eq; set_unfold; try destruct (decide (x = o)); try destruct (decide (x = n)); subst; tauto.
Qed.


Lemma rollback_app {S} (d1 d2 : list (runtimeTransactionDomain S)) s :
  rollbackRuntimeTransactionDomains (d1 ++ d2) s = rollbackRuntimeTransactionDomains d1 (rollbackRuntimeTransactionDomains d2 s).
Proof. unfold rollbackRuntimeTransactionDomains. by rewrite reverse_app, foldl_app. Qed.

Lemma apply_app {S} (d1 d2 : list (runtimeTransactionDomain S)) s :
  applyRuntimeTransactionDomains (d1 ++ d2) s =
  let '(s1, x1, e1) := applyRuntimeTransactionDomains d1 s in
  match e1 with
  | Some e => (s1, x1, Some e)
  | None => let '(s2, x2, e2) := applyRuntimeTransactionDomains d2 s1 in (s2, x1 ++ x2, e2)
  end.
Proof.
  revert s. induction d1 as [|d d1 IH]; intros s; cbn; [by destruct (applyRuntimeTransactionDomains d2 s) as [[? ?] ?]|].
  destruct (dom_apply d) as [f|]; [|apply IH]. destruct (f s) as [s1 [e|]]; [done|]. rewrite IH.
  destruct (applyRuntimeTransactionDomains d1 s1) as [[? ?] [e|]]; [done|]. by destruct (applyRuntimeTransactionDomains d2 _) as [[? ?] ?].
Qed.

(** The stages of a plan, as parts. *)
Definition parts : list Part := [Models; Modules; Hosts; Tools; Channels; Policy; Approvals; Governance; Projections].

Lemma filter_fmap_parts (P : string -> Prop) `{forall x, Decision (P x)} (l : list Part) :
  filter P (stage_of <$> l) = stage_of <$> filter (fun i => P (stage_of i)) l.
Proof.
  induction l as [|i l IH]; [done|]. rewrite fmap_cons. destruct (decide (P (stage_of i))).
  - rewrite !filter_cons_True by done. by rewrite IH.
  - by rewrite !filter_cons_False by done.
Qed.

Lemma plan_parts sections p : refresh_Plan sections = Some p -> exists L, NoDup L /\ RuntimeStages (RP_Graph p) = stage_of <$> L.
Proof.
  intros Hp. assert (RP_Graph p = [] \/ exists stages, newReloadGraph stages = inr (RP_Graph p)) as [->|[stages Hg]].
  { unfold refresh_Plan in Hp. destruct sections as [|x l].
    - destruct (newReloadGraph [ReloadStageConfig]) as [e|g] eqn:E; injection Hp as <-; [by left|right; by eexists].
    - cbv zeta in Hp. destruct (newReloadGraph (plan_stages _)) as [e|g] eqn:E; [done|]. injection Hp as <-. right. by eexists. }
  { exists []. split; [constructor|done]. }
  unfold newReloadGraph in Hg. destruct (find _ stages); [done|]. destruct (validateReloadGraph _); [done|]. injection Hg as Hg.
  exists (filter (fun i => stage_of i ∈ stages) parts). split; [apply NoDup_filter, (bool_decide_unpack _); vm_compute; done|].
  rewrite <- Hg. pose proof (filter_fmap_parts (fun s => s ∈ stages) parts) as Hq. etrans; [|exact Hq]. unfold RuntimeStages. change canonicalReloadStageOrder with (ReloadStageConfig :: (stage_of <$> parts)).
  assert (filter (fun s => s <> ReloadStageConfig) (stage_of <$> parts) = stage_of <$> parts) as Hne by (vm_compute; reflexivity).
  rewrite <- Hne at 2. rewrite filter_cons. destruct (decide (ReloadStageConfig ∈ stages)); [rewrite filter_cons_False by tauto|];
    rewrite !list_filter_filter; apply list_filter_iff; tauto.
Qed.

Section Undone.
Context (outcome : list AdapterCall -> option string) (adapter_order : gmap string Handle -> list Handle).
Context (k : Prepared) (a0 : App) (t : RefreshTxn) (c0 : Core) (Hready : refresh_ready k a0 t c0).

#[local] Arguments rollbackBuiltinChannelChanges : simpl never.
#[local] Arguments applyBuiltinChannelChanges : simpl never.
#[local] Arguments put : simpl never.
#[local] Abbreviation old := (captureOldCore c0).
#[local] Abbreviation t0 := (captureOldState a0 t).
#[local] Abbreviation doms := (stage_domains outcome adapter_order k old t0).

(** What holds of a stage once it is applied and rolled back. *)
Definition undone (i : Part) : Prop :=
  forall s s1 ds s2, fixed (a0, t0, c0) s -> same i (a0, t0, c0) s -> applyRuntimeTransactionDomains (doms i) s = (s1, ds, None) ->
    fixed (a0, t0, c0) s2 -> same i s1 s2 -> agree i (a0, t0, c0) (rollbackRuntimeTransactionDomains (doms i) s2).

(** A stage without domains. *)
Lemma undone_none i s s1 s2 : same i (a0, t0, c0) s -> s1 = s -> same i s1 s2 -> agree i (a0, t0, c0) s2.
Proof. intros [H _] -> [K _]. by etrans. Qed.

Lemma rollback_single name f g h s : rollbackRuntimeTransactionDomains [simple name f g (Some h)] s = h s.
Proof. done. Qed.

Ltac no_domain := let H := fresh in intros ? ? ? ? ? ? H ? ?; cbn in H; injection H as <- <-; by eapply undone_none.

Lemma models_undone : undone Models.
Proof.
  unfold undone. rewrite stage_domains_eq. destruct (RP_RebuildModels _); [|no_domain].
  intros [[a t'] c] s1 ds [[a2 t2] c2] F1 [A1 _] H F2 [A2 _]. cbn in H. injection H as <- <-.
  destruct F1 as (M1 & R1 & _), F2 as (M2 & R2 & _ & St & _), A1 as [E1 E2], A2 as [E3 E4]. unfold static in St. injection St as S1 S2 _ _ _.
  destruct (swap_back a2 a (rt_nextModel t') (rt_nextRouter t') true (rt_oldModel t2) (rt_oldRouter t2)) as [K1 K2]; [congruence..|done|done| |cbn in *; congruence|].
  { rewrite <- S1. cbn. by rewrite E1. }
  cbn in *. by rewrite K1, K2.
Qed.

Lemma modules_undone : undone Modules.
Proof.
  unfold undone. rewrite stage_domains_eq. destruct (k_nextSkills k) as [n|]; [|no_domain].
  intros [[a t'] c] s1 ds [[a2 t2] c2] _ [A1 _] H _ [A2 _]. cbn in H. injection H as <- <-. cbn in *. destruct A1 as [E1 E2], A2 as [_ E3].
  split; [done|]. rewrite <- E3, <- E2. pose proof (rr_binder _ _ _ _ Hready) as Hb. destruct (co_skillBinder c0); [|done]. cbn. by rewrite <- (Hb _ eq_refl).
Qed.

Lemma hosts_undone : undone Hosts.
Proof.
  unfold undone. rewrite stage_domains_eq. destruct (k_nextHosts k) as [n|]; [|no_domain].
  intros [[a t'] c] s1 ds [[a2 t2] c2] _ [A1 _] H _ [A2 _]. cbn in H. injection H as <- <-. cbn in *. destruct A1 as [E1 E2], A2 as [_ E3].
  split; [done|]. pose proof (rr_hosts _ _ _ _ Hready) as Hh.
  destruct (wi_gateway (co_wiring c0)), (wi_gateway (co_wiring c)), (wi_gateway (co_wiring c2)); try done. cbn. by rewrite (Hh _ eq_refl).
Qed.

Lemma tools_undone : undone Tools.
Proof.
  unfold undone. rewrite stage_domains_eq. destruct (k_nextTools k) as [n|]; [|no_domain].
  intros [[a t'] c] s1 ds [[a2 t2] c2] _ [A1 _] H _ [A2 _]. cbn in H. injection H as <- <-. cbn in *. rewrite <- A2, <- A1.
  destruct (co_tools c0) as [[] b bt e]; cbn; by destruct e.
Qed.

Lemma policy_undone : undone Policy.
Proof.
  unfold undone. rewrite stage_domains_eq. destruct (RP_RebuildPolicy _), (k_nextState k) as [st|]; [|no_domain..].
  intros [[a t'] c] s1 ds [[a2 t2] c2] _ [A1 _] H _ [A2 _]. cbn in H. injection H as <- <-. cbn in *. rewrite <- A2, <- A1.
  pose proof (rr_policy _ _ _ _ Hready) as Hp. destruct (cp_policy (co_control c0)); [|done]. cbn. by rewrite (Hp _ eq_refl).
Qed.

Lemma projections_undone : undone Projections.
Proof. intros [[a t'] c] s1 ds s2 _ _ _ _ _. by destruct (rollbackRuntimeTransactionDomains _ _) as [[? ?] ?]. Qed.

Lemma put_back {A} (box : option (option A)) x y : put (default None box) (put x (put y box)) = box.
Proof. by destruct box. Qed.

Lemma callbacks_back r : wireRuntimeRoutesApprovalCallbacks (wireRuntimeRoutesApprovalCallbacks (cp_callbacks (co_control c0)) r)
  (c_approvalRegistry (current_control c0)) = cp_callbacks (co_control c0).
Proof.
  pose proof (rr_callbacks _ _ _ _ Hready) as Hc. generalize dependent (c_approvalRegistry (current_control c0)). intros x Hc.
  destruct (cp_callbacks (co_control c0)) as [y|]; [|by destruct x, r]. destruct (Hc _ eq_refl) as [[z ->] <-]. by destruct r.
Qed.

Lemma approvals_undone : undone Approvals.
Proof.
  unfold undone. rewrite stage_domains_eq. destruct (_ || _) eqn:Ef, (k_nextState k) as [st|] eqn:Est; [|no_domain..].
  intros [[a t'] c] s1 ds [[a2 t2] c2] F1 [A1 _] H F2 [A2 _]. cbn in H. injection H as <- <-.
  destruct A1 as (E1 & E2 & E3 & E4). pose proof (rr_timeout _ _ _ _ Hready) as Ht.
  destruct (rr_next _ _ _ _ Hready st Est) as [Hn _].
  pose proof (replaced_back (cp_approvalTimeout (co_control c0)) (cs_approvalTimeout st) (sv_timeouts (co_services c0))
    (bool_decide (cp_approvalTimeout (co_control c0) <> cs_approvalTimeout st)) (bool_decide (cs_approvalTimeout st <> cp_approvalTimeout (co_control c0))) Ht Hn) as Hr.
  unfold if_some, approvals_domain. rewrite rollback_single. unfold on_core in *. cbn [fst snd] in *. rewrite !applyApprovalTimeout_eq in *.
  destruct (RP_RebuildApproval _), (RP_RebuildApprovalTimer _); cbn in *; try done; destruct A2 as (G1 & G2 & G3 & G4).
  all: rewrite <- ?G1, <- ?G2, <- ?G3, <- ?G4, <- ?E1, <- ?E2, <- ?E3, <- ?E4, ?callbacks_back, ?put_back, ?Hr; try (intros ?%bool_decide_eq_false; by apply dec_stable); try done.
Qed.

(** The dispatcher of the box is that of the application. *)
Lemma old_dispatch_eq : old_dispatch old = cp_governanceDispatcher (co_control c0).
Proof.
  unfold old_dispatch. cbn. pose proof (rr_dispatcher _ _ _ _ Hready) as Hd. destruct (cp_governanceControl (co_control c0)) as [x|]; [|done].
  rewrite <- (Hd _ eq_refl). by destruct x.
Qed.

Lemma control_back x y : put (cp_governanceDispatcher (co_control c0)) (put x (put y (cp_governanceControl (co_control c0)))) = cp_governanceControl (co_control c0).
Proof. pose proof (rr_dispatcher _ _ _ _ Hready) as Hd. destruct (cp_governanceControl (co_control c0)); [|done]. cbn. by rewrite <- (Hd _ eq_refl). Qed.

Lemma sink_back x st : k_nextState k = Some st -> forall r s, cp_auditSink (co_control c0) = Some x ->
  r = sink_swap x (cs_runtimeAuditSink st) (sv_sinks (co_services c0)) -> s = cs_runtimeAuditSink st -> sink_swap s x r = sv_sinks (co_services c0).
Proof.
  intros Est r s Hx -> ->. apply sink_swapped_back; [|by apply (rr_next _ _ _ _ Hready st Est)]. intros h ->. by apply (rr_sink _ _ _ _ Hready).
Qed.

Lemma apply_governance_facts st c : let c1 := apply_governance old st c in
  cp_governanceControl (co_control c1) = put (cs_governanceDispatch st) (cp_governanceControl (co_control c))
  /\ cp_auditSink (co_control c1) = cp_auditSink (co_control c)
  /\ sv_dispatchers (co_services c1) = started (cs_governanceDispatch st)
      (if bool_decide (cp_governanceDispatcher (co_control c0) <> cs_governanceDispatch st)
       then stopped (cp_governanceDispatcher (co_control c0)) (sv_dispatchers (co_services c)) else sv_dispatchers (co_services c))
  /\ sv_sinks (co_services c1) = sv_sinks (co_services c).
Proof. cbv zeta. unfold apply_governance. rewrite old_dispatch_eq. by destruct (bool_decide _). Qed.

Lemma rollback_governance_facts st c : let c1 := rollback_governance old st c in
  cp_governanceControl (co_control c1) = put (cp_governanceDispatcher (co_control c0)) (put (o_governanceControl old) (cp_governanceControl (co_control c)))
  /\ cp_governanceDispatcher (co_control c1) = cp_governanceDispatcher (co_control c0)
  /\ cp_governanceDeliveryDB (co_control c1) = cp_governanceDeliveryDB (co_control c0)
  /\ cp_auditSink (co_control c1) = cp_auditSink (co_control c)
  /\ sv_dispatchers (co_services c1) = started (cp_governanceDispatcher (co_control c0))
      (if bool_decide (cs_governanceDispatch st <> cp_governanceDispatcher (co_control c0))
       then stopped (cs_governanceDispatch st) (sv_dispatchers (co_services c)) else sv_dispatchers (co_services c))
  /\ sv_sinks (co_services c1) = sv_sinks (co_services c).
Proof. cbv zeta. unfold rollback_governance. rewrite old_dispatch_eq. by destruct (bool_decide _). Qed.

Lemma audit_facts r sink c : let c1 := applyRuntimeAuditRegistry r sink c in
  cp_governanceControl (co_control c1) = cp_governanceControl (co_control c)
  /\ cp_governanceDispatcher (co_control c1) = cp_governanceDispatcher (co_control c)
  /\ cp_governanceDeliveryDB (co_control c1) = cp_governanceDeliveryDB (co_control c)
  /\ cp_auditSink (co_control c1) = put sink (cp_auditSink (co_control c))
  /\ sv_dispatchers (co_services c1) = sv_dispatchers (co_services c)
  /\ sv_sinks (co_services c1) = match cp_auditSink (co_control c) with Some was => sink_swap was sink (sv_sinks (co_services c)) | None => sv_sinks (co_services c) end.
Proof. cbv zeta. unfold applyRuntimeAuditRegistry. rewrite swap_sink_eq. by destruct (cp_auditSink (co_control c)) eqn:E; cbn; rewrite ?E. Qed.

(** The two halves of the stage, each put back by its own step. *)
Lemma governance_back st c c2 : k_nextState k = Some st -> cp_governanceControl (co_control c0) = cp_governanceControl (co_control c) ->
  sv_dispatchers (co_services c0) = sv_dispatchers (co_services c) ->
  cp_governanceControl (co_control c2) = cp_governanceControl (co_control (apply_governance old st c)) ->
  sv_dispatchers (co_services c2) = sv_dispatchers (co_services (apply_governance old st c)) ->
  let c3 := rollback_governance old st c2 in
  cp_governanceControl (co_control c3) = cp_governanceControl (co_control c0) /\ sv_dispatchers (co_services c3) = sv_dispatchers (co_services c0).
Proof.
  intros Est E1 E5 Hc Hd. destruct (apply_governance_facts st c) as (A1 & _ & A3 & _), (rollback_governance_facts st c2) as (R1 & _ & _ & _ & R5 & _).
  cbv zeta. rewrite R1, R5, Hc, Hd, A1, A3, <- E1, <- E5. split; [by apply control_back|]. apply replaced_back; [apply (rr_dispatch _ _ _ _ Hready)|by apply (rr_next _ _ _ _ Hready st Est)|].
  intros ?%bool_decide_eq_false. by apply dec_stable.
Qed.

Lemma audit_back st c c2 r r' : k_nextState k = Some st -> cp_auditSink (co_control c0) = cp_auditSink (co_control c) ->
  sv_sinks (co_services c0) = sv_sinks (co_services c) ->
  cp_auditSink (co_control c2) = cp_auditSink (co_control (applyRuntimeAuditRegistry r (cs_runtimeAuditSink st) c)) ->
  sv_sinks (co_services c2) = sv_sinks (co_services (applyRuntimeAuditRegistry r (cs_runtimeAuditSink st) c)) ->
  let c3 := applyRuntimeAuditRegistry r' (o_auditSink old) c2 in
  cp_auditSink (co_control c3) = cp_auditSink (co_control c0) /\ sv_sinks (co_services c3) = sv_sinks (co_services c0).
Proof.
  intros Est E4 E6 Hs Hk. destruct (audit_facts r (cs_runtimeAuditSink st) c) as (_ & _ & _ & A4 & _ & A6),
    (audit_facts r' (o_auditSink old) c2) as (_ & _ & _ & R4 & _ & R6).
  cbv zeta. rewrite R4, R6, Hs, Hk, A4, A6, <- E4, <- E6. cbn. destruct (cp_auditSink (co_control c0)) as [x|] eqn:E; [|done]. split; [done|]. cbn.
  by apply (sink_back x st Est).
Qed.

#[local] Arguments applyRuntimeAuditRegistry : simpl never.
#[local] Arguments rollback_governance : simpl never.
#[local] Arguments apply_governance : simpl never.

Lemma governance_undone : undone Governance.
Proof.
  unfold undone. rewrite stage_domains_eq. destruct (_ || _) eqn:Ef, (k_nextState k) as [st|] eqn:Est; [|no_domain..].
  intros [[a t'] c] s1 ds [[a2 t2] c2] _ [A1 _] H _ [A2 _]. cbn in H. injection H as <- <-.
  destruct A1 as (E1 & E2 & E3 & E4 & E5 & E6). unfold if_some, governance_domain. rewrite rollback_single. unfold on_core in *. cbn [fst snd] in *.
  destruct (apply_governance_facts st c) as (_ & G4 & _ & G6), (rollback_governance_facts st c2) as (_ & R2 & R3 & R4 & _ & R6).
  destruct (RP_RebuildGovernance _), (RP_RebuildAudit _); [..|done]; destruct A2 as (A1 & A2 & A3 & A4 & A5 & A6).
  - destruct (audit_facts (c_auditRegistry (cs_control st)) (cs_runtimeAuditSink st) (apply_governance old st c)) as (K1 & K2 & K3 & _ & K5 & _).
    destruct (audit_facts (c_auditRegistry (o_snapshot old)) (o_auditSink old) (rollback_governance old st c2)) as (L1 & L2 & L3 & _ & L5 & _).
    destruct (governance_back st c c2 Est) as [B1 B2]; [congruence..|].
    destruct (audit_back st (apply_governance old st c) (rollback_governance old st c2) (c_auditRegistry (cs_control st)) (c_auditRegistry (o_snapshot old)) Est) as [B3 B4];
      [congruence..|]. cbn in *. split_and!; congruence.
  - destruct (governance_back st c c2 Est) as [B1 B2]; [congruence..|]. cbn in *. split_and!; congruence.
  - destruct (audit_facts (c_auditRegistry (cs_control st)) (cs_runtimeAuditSink st) c) as (K1 & K2 & K3 & _ & K5 & _).
    destruct (audit_facts (c_auditRegistry (o_snapshot old)) (o_auditSink old) c2) as (L1 & L2 & L3 & _ & L5 & _).
    destruct (audit_back st c c2 (c_auditRegistry (cs_control st)) (c_auditRegistry (o_snapshot old)) Est) as [B3 B4];
      [congruence..|]. cbn in *. split_and!; congruence.
Qed.

Lemma channels_undone_stage : undone Channels.
Proof.
  unfold undone. rewrite stage_domains_eq. destruct (rt_next t0) as [p|] eqn:Ep; [|no_domain].
  intros [[a t'] c] s1 ds [[a2 t2] c2] F1 [A1 B1] H F2 [A2 B2]. specialize (B1 eq_refl). specialize (B2 eq_refl). cbn in B1. subst t'.
  destruct A1 as (E1 & E2 & E3 & E4 & E5 & E6). cbn in H. destruct (applyBuiltinChannelChanges outcome (a, t0)) as [[a1 t1] [e|]] eqn:E; cbn in H; [done|].
  injection H as <- <-. cbn in B2. subst t2. destruct A2 as (G1 & G2 & G3 & G4 & G5 & G6).
  assert (channels_ok a t0) as Hok.
  { destruct (rr_channels _ _ _ _ Hready). constructor; rewrite <- ?E1, <- ?E2, <- ?E4, <- ?E6; done. }
  destruct (channels_undone outcome adapter_order a t0 p a1 t1 a2 Hok Ep) as (H1 & H2 & H3); [cbn; congruence..|done|congruence|congruence|].
  cbn. rewrite <- E1, <- E2 in *. generalize dependent (rollbackBuiltinChannelChanges outcome adapter_order (a2, t1)). intros [a3 t3]. cbn. intros H1 H2 H3.
  unfold rest_of, with_channels in H3. injection H3 as _ _ _ _ -> -> -> ->. split_and!; [congruence..|].
  pose proof (apply_channels_kept outcome _ _ _ _ E) as Hk. unfold kept in Hk. injection Hk as _ _ _ _ Hk. rewrite G6 in Hk.
  pose proof (po_ready _ _ (rr_channels _ _ _ _ Hready)) as Hr. rewrite <- E6 in Hk. destruct (ap_ready a0) as [[]|], (ap_ready a2); done.
Qed.

Lemma stage_undone i : undone i.
Proof.
  destruct i; [apply models_undone|apply modules_undone|apply hosts_undone|apply tools_undone|apply channels_undone_stage|apply policy_undone
    |apply approvals_undone|apply governance_undone|apply projections_undone].
Qed.

(** Stages in a row: applied, they change only their parts; rolled back, in reverse,
    they restore them. *)
Lemma stages_rolled L s : fixed s (rollbackRuntimeTransactionDomains (L ≫= doms) s) /\ releases k s (rollbackRuntimeTransactionDomains (L ≫= doms) s)
  /\ forall j, j ∉ L -> same j s (rollbackRuntimeTransactionDomains (L ≫= doms) s).
Proof.
  revert s. induction L as [|i L IH]; intros s; [split; [done|split; [done|]]; by intros j _|]. rewrite bind_cons, rollback_app.
  destruct (IH s) as (H1 & H2 & H3). destruct (stage_rolled outcome adapter_order k old t0 i (rollbackRuntimeTransactionDomains (L ≫= doms) s)) as (K1 & K2 & K3).
  split; [by etrans|split; [by etrans|]]. intros j [Hj Hl]%not_elem_of_cons. etrans; [by apply H3|by apply K3].
Qed.

Lemma stages_undone L : NoDup L -> forall s s1 ds,
  fixed (a0, t0, c0) s -> (forall i, i ∈ L -> same i (a0, t0, c0) s) -> applyRuntimeTransactionDomains (L ≫= doms) s = (s1, ds, None) ->
  ds = L ≫= doms /\ fixed s s1 /\ releases k s s1 /\ (forall j, j ∉ L -> same j s s1)
  /\ forall s2, fixed (a0, t0, c0) s2 -> (forall i, i ∈ L -> same i s1 s2) ->
     forall i, i ∈ L -> agree i (a0, t0, c0) (rollbackRuntimeTransactionDomains (L ≫= doms) s2).
Proof.
  induction 1 as [|i L Hi Hnd IH]; intros s s1 ds Hf Hs.
  { intros [= <- <-]. split; [done|split; [done|split; [done|split; [by intros j _|]]]]. by intros s2 _ _ i ?%elem_of_nil. }
  rewrite bind_cons, apply_app. destruct (applyRuntimeTransactionDomains (doms i) s) as [[s' d1] [e|]] eqn:E1; [done|].
  destruct (applyRuntimeTransactionDomains (L ≫= doms) s') as [[s3 d2] e2] eqn:E2. intros [= -> <- ->].
  destruct (stage_applied outcome adapter_order k old t0 i s s' d1 E1) as (-> & W1 & W2 & W3).
  destruct (IH s' s1 d2) as (-> & I1 & I2 & I3 & I4); [by etrans| |done|].
  { intros j Hj. etrans; [apply Hs; by right|]. apply W3. by intros ->. }
  split; [done|split; [by etrans|split; [by etrans|split]]].
  { intros j [Hj Hl]%not_elem_of_cons. etrans; [by apply W3|by apply I3]. }
  intros s2 F2 S2. rewrite rollback_app. destruct (stages_rolled L s2) as (R1 & _ & R3).
  assert (agree i (a0, t0, c0) (rollbackRuntimeTransactionDomains (doms i) (rollbackRuntimeTransactionDomains (L ≫= doms) s2))) as Hback.
  { apply (stage_undone i s s' _ _ Hf (Hs i ltac:(by left)) E1); [by etrans|]. etrans; [by apply I3|]. etrans; [apply S2; by left|by apply R3]. }
  intros j [->|Hj]%elem_of_cons; [done|].
  etrans; [apply I4; [done| |done]|]; [intros x Hx; apply S2; by right|].
  destruct (stage_rolled outcome adapter_order k old t0 i (rollbackRuntimeTransactionDomains (L ≫= doms) s2)) as (_ & _ & K3).
  apply K3. by intros ->.
Qed.

(** The wiring besides the kernel services and the hosts of the gateway: without new
    skills, hosts, tools and channels nothing touches it. *)
Definition other_wiring (c : Core) :=
  ((fun g => (gw_skills g, gw_webhooks g)) <$> wi_gateway (co_wiring c), wi_bindings (co_wiring c), wi_catalog (co_wiring c), wi_extensions (co_wiring c)).

Lemma control_wiring given c : other_wiring (wireGatewayControlPlaneLocked given c) = other_wiring c.
Proof. unfold other_wiring. cbn. by destruct (wi_gateway _). Qed.

Lemma policy_wiring e c : other_wiring (applyRuntimePolicyEngine e c) = other_wiring c.
Proof. unfold applyRuntimePolicyEngine. by rewrite control_wiring. Qed.

Lemma approvals_wiring r c : other_wiring (applyRuntimeApprovalRegistry r c) = other_wiring c.
Proof. unfold other_wiring. cbn. by destruct (wi_gateway _). Qed.

Lemma governance_wiring r d db c : other_wiring (applyRuntimeGovernanceRegistry r d db c) = other_wiring c.
Proof. unfold other_wiring. cbn. by destruct (wi_gateway _). Qed.

Lemma audit_wiring r sink c : other_wiring (applyRuntimeAuditRegistry r sink c) = other_wiring c.
Proof. unfold applyRuntimeAuditRegistry. rewrite control_wiring, swap_sink_eq. by destruct (cp_auditSink _). Qed.

Lemma timeout_wiring previous next c : other_wiring (applyApprovalTimeout previous next c) = other_wiring c.
Proof. by rewrite applyApprovalTimeout_eq. Qed.

Lemma apply_governance_wiring st c : other_wiring (apply_governance old st c) = other_wiring c.
Proof. unfold apply_governance. cbv zeta. rewrite governance_wiring. by destruct (bool_decide _). Qed.

Lemma rollback_governance_wiring st c : other_wiring (rollback_governance old st c) = other_wiring c.
Proof. unfold rollback_governance. cbv zeta. rewrite governance_wiring. by destruct (bool_decide _). Qed.

Lemma swap_syncer_wiring d c : other_wiring (swap_syncer d c) = other_wiring c.
Proof. done. Qed.

#[local] Arguments other_wiring : simpl never.

Lemma stage_wiring i : rewires k t0 = false ->
  (forall s s1 ds, applyRuntimeTransactionDomains (doms i) s = (s1, ds, None) -> other_wiring s1.2 = other_wiring s.2)
  /\ forall s, other_wiring (rollbackRuntimeTransactionDomains (doms i) s).2 = other_wiring s.2.
Proof.
  intros Hr. rewrite stage_domains_eq. unfold projections_domains. unfold rewires_gateway. unfold rewires in *.
  destruct (k_nextSkills k), (k_nextHosts k), (k_nextTools k), (rt_next t0); try done. clear Hr.
  split.
  - intros s s1 ds. destruct i; try (cbn; by intros [= <- <-]).
    + destruct (RP_RebuildModels _); cbn; by intros [= <- <-].
    + destruct (RP_RebuildPolicy _), (k_nextState k); cbn; intros [= <- <-]; try done. apply policy_wiring.
    + destruct (_ || _), (k_nextState k); cbn; intros [= <- <-]; try done. cbn.
      destruct (RP_RebuildApproval _), (RP_RebuildApprovalTimer _); by rewrite ?timeout_wiring, ?approvals_wiring.
    + destruct (_ || _), (k_nextState k); cbn; intros [= <- <-]; try done. cbn.
      destruct (RP_RebuildGovernance _), (RP_RebuildAudit _); by rewrite ?audit_wiring, ?apply_governance_wiring.
  - intros s. destruct i; try done.
    + by destruct (RP_RebuildModels _).
    + destruct (RP_RebuildPolicy _), (k_nextState k); try done. apply policy_wiring.
    + destruct (_ || _), (k_nextState k); try done. cbn.
      destruct (RP_RebuildApproval _), (RP_RebuildApprovalTimer _); by rewrite ?swap_syncer_wiring, ?approvals_wiring, ?timeout_wiring.
    + destruct (_ || _), (k_nextState k); try done. cbn.
      destruct (RP_RebuildGovernance _), (RP_RebuildAudit _); by rewrite ?audit_wiring, ?rollback_governance_wiring.
Qed.

Lemma stages_wiring L : rewires k t0 = false ->
  (forall s s1 ds, applyRuntimeTransactionDomains (L ≫= doms) s = (s1, ds, None) -> other_wiring s1.2 = other_wiring s.2)
  /\ forall s, other_wiring (rollbackRuntimeTransactionDomains (L ≫= doms) s).2 = other_wiring s.2.
Proof.
  intros Hr. induction L as [|i L [IH1 IH2]]; [split; [by intros ? ? ? [= <- <-]|done]|]. destruct (stage_wiring i Hr) as [H1 H2]. rewrite bind_cons. split.
  - intros s s1 ds. rewrite apply_app. destruct (applyRuntimeTransactionDomains (doms i) s) as [[s' d1] [e|]] eqn:E1; [done|].
    destruct (applyRuntimeTransactionDomains (L ≫= doms) s') as [[s3 d2] e2] eqn:E2. intros [= -> <- ->]. rewrite (IH1 _ _ _ E2). by eapply H1.
  - intros s. by rewrite rollback_app, H2, IH2.
Qed.

(** A step that changes no part. *)
Definition harmless (s s' : Refreshing) : Prop := fixed s s' /\ forall j, same j s s'.

Lemma within_harmless s s' : within k Projections s s' -> harmless s s'.
Proof. intros (H1 & _ & H3). split; [done|]. intros j. destruct (decide (j = Projections)) as [->|]; [|by apply H3]. split; [|done]. by destruct s as [[? ?] ?], s' as [[? ?] ?]. Qed.

Lemma harmless_trans s s1 s2 : harmless s s1 -> harmless s1 s2 -> harmless s s2.
Proof. intros [H1 H2] [K1 K2]. split; [by etrans|]. intros j. etrans; [apply H2|apply K2]. Qed.

Lemma view_harmless v s : harmless s (on_core (set_view v) s).
Proof. destruct s as [[a t'] c]. split; [done|]. intros j. by destruct j. Qed.

Lemma config_harmless cfg r s : harmless s (on_core (wireGatewayEffectiveConfigLocked cfg r) s).
Proof. apply within_harmless, within_wiring; [done| |done]. by apply set_gateway_hosts. Qed.

Lemma applyConfigView_leaves s : harmless s (on_core (applyConfigView k) s).
Proof. eapply harmless_trans; [apply view_harmless|]. apply (config_harmless (k_newCfg k) (k_nextResolver k) (on_core (set_view _) s)). Qed.

Lemma restoreConfigView_leaves v s : harmless s (on_core (restoreConfigView k v) s).
Proof. eapply harmless_trans; [apply view_harmless|]. apply (config_harmless (v_config v) (v_resolver v) (on_core (set_view _) s)). Qed.

(** Releasing what was prepared stops what does not run. *)
Lemma release_leaves s : sv_dispatchers (co_services s.2) = sv_dispatchers (co_services c0) ->
  harmless s (release_state k s) /\ releases k s (release_state k s) /\ other_wiring (release_state k s).2 = other_wiring s.2.
Proof.
  intros Hd. unfold release_state. destruct (k_nextState k) as [st|] eqn:Est; [|split; [split; [done|]; by intros j|by split]].
  assert (stopped (cs_governanceDispatch st) (sv_dispatchers (co_services s.2)) = sv_dispatchers (co_services s.2)) as Hs.
  { rewrite Hd. destruct (rr_next _ _ _ _ Hready st Est) as (_ & Hn & _). unfold stopped. destruct (cs_governanceDispatch st) as [h|]; [|done].
    specialize (Hn h eq_refl). set_solver. }
  assert (on_dispatchers (stopped (cs_governanceDispatch st)) s.2 = s.2) as Hc.
  { unfold on_dispatchers. rewrite Hs. destruct s as [x [? ? ? ? ? ? [] ? ?]]. done. }
  unfold on_core, release. rewrite Hc. destruct (cs_governanceDB st) as [db|] eqn:Edb; [|destruct s; split; [split; [done|]; by intros j|by split]].
  case_bool_decide; [destruct s; split; [split; [done|]; by intros j|by split]|].
  pose proof (effects_within k Projections [DBClosed db]) as He. destruct (He) with (s := s) as (F & R & _).
  { intros e ->%list_elem_of_singleton. unfold prepared_effects. rewrite Est. cbn. rewrite Edb, !elem_of_app. right. right. cbn. by left. }
  split; [|split; [exact R|done]]. apply within_harmless, He. intros e ->%list_elem_of_singleton. unfold prepared_effects. rewrite Est. cbn. rewrite Edb, !elem_of_app.
  right. right. cbn. by left.
Qed.

Lemma parts_restored a' t' c' : fixed (a0, t0, c0) (a', t', c') -> (forall i, agree i (a0, t0, c0) (a', t', c')) ->
  ap_channels a' = ap_channels a0 /\ ap_running a' = ap_running a0 /\ rest_of a' = rest_of a0
  /\ co_skills c' = co_skills c0 /\ co_skillBinder c' = co_skillBinder c0 /\ co_hosts c' = co_hosts c0 /\ co_tools c' = co_tools c0
  /\ co_control c' = co_control c0 /\ co_services c' = co_services c0.
Proof.
  intros (F1 & F2 & _ & _ & F3 & F4 & F5 & _) H.
  destruct (H Models) as [A1 A2], (H Modules) as [B1 B2], (H Hosts) as [C1 _], (H Channels) as (D1 & D2 & D3 & D4 & D5 & D6),
    (H Approvals) as (E1 & E2 & E3 & E4), (H Governance) as (G1 & G2 & G3 & G4 & G5 & G6). pose proof (H Tools) as T. pose proof (H Policy) as P. cbn in T, P.
  split_and!; [congruence|congruence|unfold rest_of; congruence|congruence..| |].
  - destruct (co_control c'), (co_control c0). cbn in *. congruence.
  - destruct (co_services c'), (co_services c0). cbn in *. congruence.
Qed.

Lemma rewired_leaves cfg s : harmless s (rewired cfg s) /\ co_effects (rewired cfg s).2 = co_effects s.2 /\ co_view (rewired cfg s).2 = co_view s.2.
Proof.
  split.
  - eapply harmless_trans; [apply within_harmless, (catalog_within k Projections cfg)|]. eapply harmless_trans; [apply within_harmless, builtins_within|].
    apply within_harmless, integration_within.
  - unfold rewired, on_app, on_core, wireBuiltinsForConfigLocked. cbn [fst snd]. by destruct (tp_builtins _).
Qed.

(** The state after the domains are applied, found invalid and rolled back. *)
Lemma rolled_back_state L s1 ds : NoDup L -> applyRuntimeTransactionDomains (L ≫= doms) (a0, t0, c0) = (s1, ds, None) ->
  let s2 := rollbackRuntimeTransactionDomains ds (on_core (applyConfigView k) s1) in
  fixed (a0, t0, c0) s2 /\ (forall i, agree i (a0, t0, c0) s2)
  /\ v_snapshot (co_view s2.2) = put (k_nextSnapshot k) (v_snapshot (co_view c0))
  /\ (exists es, co_effects s2.2 = co_effects c0 ++ es /\ forall e, e ∈ es -> e ∈ prepared_effects k)
  /\ (rewires k t0 = false -> other_wiring s2.2 = other_wiring c0).
Proof.
  intros Hnd Ha. destruct (stages_undone L Hnd (a0, t0, c0) s1 ds ltac:(done) ltac:(done) Ha) as (-> & F1 & [V1 (es1 & E1 & E1')] & S1 & U).
  destruct (applyConfigView_leaves s1) as [F2 S2]. set (s1' := on_core (applyConfigView k) s1) in *. cbv zeta.
  destruct (stages_rolled L s1') as (F3 & [V3 (es3 & E3 & E3')] & S3).
  split; [etrans; [exact F1|]; by etrans|]. split.
  { intros i. destruct (decide (i ∈ L)) as [Hi|Hi]; [apply U; [by etrans|by intros j _|done]|].
    etrans; [by apply S1|]. etrans; [by apply S2|by apply S3]. }
  split; [rewrite <- V3; cbn; by rewrite <- V1|]. split.
  { exists (es1 ++ es3). rewrite E3. change (co_effects s1'.2) with (co_effects s1.2). rewrite E1, app_assoc. split; [done|]. intros e [?|?]%elem_of_app; auto. }
  intros Hr. destruct (stages_wiring L Hr) as [W1 W2]. rewrite W2. etrans; [|exact (W1 _ _ _ Ha)]. unfold s1', other_wiring. cbn. by destruct (wi_gateway _).
Qed.
End Undone.

(** The wiring after a refresh that is rolled back: the gateway has the services of
    the snapshot state and the old configuration; the rest is wired for the old
    configuration when skills, hosts, tools or channels were prepared, and else as
    it was. *)
Definition wired_back (k : Prepared) (a : App) (t : RefreshTxn) (c : Core) (w' : Wiring) : Prop :=
  let w := co_wiring c in let v := co_view c in let again := rewires k t in
  wi_gateway w' = (fun g => mkGateway (current_control c) (v_config v, v_resolver v) (co_hosts c)
      (if again then sk_service (co_skills c) else gw_skills g) (if again then ap_webhooks a else gw_webhooks g)) <$> wi_gateway w
  /\ wi_catalog w' = (if again then Some (catalog_for (k_oldCfg k) a c) else wi_catalog w)
  /\ wi_extensions w' = (if again then put (ho_capabilities (co_hosts c)) (wi_extensions w) else wi_extensions w)
  /\ forall b, tp_builtins (co_tools c) = Some b ->
       wi_bindings w' !! b = if again then Some (builtinsBindingsForConfig (k_oldCfg k) c) else wi_bindings w !! b.

Lemma rewired_wiring cfg a t c : let c4 := (rewired cfg ((a, t), c)).2 in let w := co_wiring c in
  current_control c4 = current_control c
  /\ wi_gateway (co_wiring c4) = (fun g => mkGateway (gw_control g) (gw_config g) (gw_hosts g) (sk_service (co_skills c)) (ap_webhooks a)) <$> wi_gateway w
  /\ wi_catalog (co_wiring c4) = Some (catalog_for cfg a c) /\ wi_extensions (co_wiring c4) = put (ho_capabilities (co_hosts c)) (wi_extensions w)
  /\ forall b, tp_builtins (co_tools c) = Some b -> wi_bindings (co_wiring c4) !! b = Some (builtinsBindingsForConfig cfg c).
Proof.
  unfold rewired, on_app, on_core, wireBuiltinsForConfigLocked. cbn [fst snd]. change (tp_builtins (co_tools (refreshModuleCatalogForConfigLocked cfg a c))) with (tp_builtins (co_tools c)).
  destruct (tp_builtins (co_tools c)) as [b|]; cbn; (split_and!; [done..|by destruct (wi_extensions _)|]); [intros b' [= <-]; by rewrite lookup_insert_eq|done].
Qed.

Lemma restored_wiring k v c : let c' := restoreConfigView k v c in
  wi_gateway (co_wiring c') = (fun g => mkGateway (current_control c) (v_config v, v_resolver v) (gw_hosts g) (gw_skills g) (gw_webhooks g)) <$> wi_gateway (co_wiring c)
  /\ wi_catalog (co_wiring c') = wi_catalog (co_wiring c) /\ wi_extensions (co_wiring c') = wi_extensions (co_wiring c)
  /\ wi_bindings (co_wiring c') = wi_bindings (co_wiring c).
Proof.
  split; [|done]. cbn. destruct (wi_gateway (co_wiring c)) as [g|]; [|done]. cbn. unfold gatewayKernelSurfaceLocked, current_control. cbn. by destruct (default no_control _).
Qed.

(** The end of a rollback, from a state with the parts of the old one. *)
Lemma finished_wiring k a t tx c a3 t3 c3 :
  refresh_ready k a t c -> fixed (a, tx, c) (a3, t3, c3) -> (forall i, agree i (a, tx, c) (a3, t3, c3)) ->
  (rewires k t = false -> other_wiring c3 = other_wiring c) ->
  let s4 := if rewires k t then rewired (k_oldCfg k) (a3, t3, c3) else (a3, t3, c3) in
  wired_back k a t c (co_wiring (restoreConfigView k (co_view c) s4.2)).
Proof.
  intros Hready (_ & _ & _ & _ & F3 & _ & _ & Fx) H Hw.
  destruct (H Modules) as [B1 _], (H Hosts) as [C1 C2], (H Channels) as (D1 & _ & D3 & _ & D5 & _). pose proof (H Tools) as T. cbn in T.
  assert (current_control c3 = current_control c) as Hcc by (unfold current_control; by rewrite F3).
  assert (forall g g3, wi_gateway (co_wiring c) = Some g -> wi_gateway (co_wiring c3) = Some g3 -> gw_hosts g3 = co_hosts c) as Hg.
  { intros g g3 E E3. rewrite E, E3 in C2. injection C2 as C2. rewrite <- C2. by apply (rr_hosts _ _ _ _ Hready). }
  cbv zeta. set (s4 := if rewires k t then _ else _). destruct (restored_wiring k (co_view c) s4.2) as (W1 & W2 & W3 & W4). unfold wired_back. rewrite W1, W2, W3, W4. clear W1 W2 W3 W4.
  subst s4. destruct (rewires k t) eqn:Er.
  - destruct (rewired_wiring (k_oldCfg k) a3 t3 c3) as (R0 & R1 & R2 & R3 & R4). rewrite R0, R1, R2, R3, Hcc, <- B1, <- D3. split_and!.
    + destruct (wi_gateway (co_wiring c)) as [g|], (wi_gateway (co_wiring c3)) as [g3|]; try done. cbn. by rewrite (Hg g g3).
    + unfold catalog_for. by rewrite <- C1, <- B1, <- T, <- D1, <- D3, <- D5.
    + rewrite <- C1. by destruct (wi_extensions (co_wiring c)), (wi_extensions (co_wiring c3)).
    + intros b Hb. rewrite R4 by congruence. unfold builtinsBindingsForConfig. by rewrite B1, C1.
  - specialize (Hw eq_refl). unfold other_wiring in Hw. injection Hw as G1 G2 G3 G4. cbn [snd]. rewrite Hcc, G2, G3, G4. split_and!; [|done..].
    destruct (wi_gateway (co_wiring c)) as [g|], (wi_gateway (co_wiring c3)) as [g3|]; try done. cbn in G1 |- *. injection G1 as -> ->. by rewrite (Hg g g3).
Qed.


(** ** Refreshes that are committed *)

Section Committed.
Context (outcome : list AdapterCall -> option string) (adapter_order : gmap string Handle -> list Handle) (k : Prepared) (old : OldState) (t0 : RefreshTxn).
#[local] Abbreviation doms := (stage_domains outcome adapter_order k old t0).
#[local] Arguments applyBuiltinChannelChanges : simpl never.

(** What a commit leaves alone. *)
Definition settled (s s' : Refreshing) : Prop := co_wiring s'.2 = co_wiring s.2 /\ co_control s'.2 = co_control s.2.

Lemma stages_committed L s : settled s (commitRuntimeTransactionDomains (L ≫= doms) s).
Proof.
  revert s. induction L as [|i L IH]; intros s; [done|]. rewrite bind_cons. unfold commitRuntimeTransactionDomains. rewrite foldl_app.
  fold (commitRuntimeTransactionDomains (doms i) s). set (s1 := commitRuntimeTransactionDomains (doms i) s). destruct (IH s1) as [H1 H2].
  unfold commitRuntimeTransactionDomains in H1, H2. enough (settled s s1) as [K1 K2] by (split; congruence). subst s1. clear.
  rewrite stage_domains_eq. destruct i; cbn.
  - by destruct (RP_RebuildModels _).
  - by destruct (k_nextSkills k).
  - by destruct (k_nextHosts k).
  - by destruct (k_nextTools k).
  - by destruct (rt_next t0).
  - by destruct (RP_RebuildPolicy _), (k_nextState k).
  - by destruct (_ || _), (k_nextState k).
  - by destruct (_ || _), (k_nextState k).
  - unfold projections_domains. by destruct (rewires k t0), (rewires_gateway k t0).
Qed.

Lemma stages_fixed L : forall s s1 ds, applyRuntimeTransactionDomains (L ≫= doms) s = (s1, ds, None) -> ds = L ≫= doms /\ fixed s s1.
Proof.
  induction L as [|i L IH]; intros s s1 ds; [by intros [= <- <-]|]. rewrite bind_cons, apply_app.
  destruct (applyRuntimeTransactionDomains (doms i) s) as [[s' d1] [e|]] eqn:E1; [done|].
  destruct (applyRuntimeTransactionDomains (L ≫= doms) s') as [[s3 d2] e2] eqn:E2. intros [= -> <- ->].
  destruct (stage_applied outcome adapter_order k old t0 i s s' d1 E1) as (-> & W1 & _), (IH _ _ _ E2) as [-> W2]. split; [done|by etrans].
Qed.

Lemma release_settled s : settled s (release_state k s).
Proof. unfold release_state, release. destruct (k_nextState k) as [st|]; [|done]. destruct (cs_governanceDB st); [|done]. unfold on_core. cbn [fst snd]. by case_bool_decide. Qed.

Lemma finish_commit_settled s : settled s (finish_commit k old s).
Proof.
  unfold finish_commit. set (s1 := if RP_RebuildGovernance (k_plan k) then s else release_state k s).
  assert (settled s s1) as H by (unfold s1; destruct (RP_RebuildGovernance _); [done|apply release_settled]).
  destruct (o_governanceDeliveryDB old); [|done]. by destruct (_ && _ && _).
Qed.
End Committed.

(** The snapshot state is updated after the commit, and the gateway was wired before:
    a refresh that is committed leaves it with the services of the old state. *)
Theorem committed_refresh_gateway_stale outcome adapter_order validate k sections st a t c a' t' c' :
  refresh_Plan sections = Some (k_plan k) -> k_nextState k = Some st ->
  refresh outcome adapter_order validate k ((a, t), c) = (((a', t'), c'), None) ->
  cp_snapshot (co_control c') = put (cs_control st) (cp_snapshot (co_control c))
  /\ forall g, wi_gateway (co_wiring c') = Some g -> gw_control g = current_control c.
Proof.
  intros Hp Hst. destruct (plan_parts _ _ Hp) as (L & Hnd & HL). unfold refresh, txn_apply, domains. rewrite HL.
  set (t0 := captureOldState a t). set (old := captureOldCore c).
  assert ((stage_of <$> L) ≫= domainsForStage outcome adapter_order k old t0 = L ≫= stage_domains outcome adapter_order k old t0) as ->
    by (unfold stage_domains; clear; induction L as [|i L IH]; [done|]; by rewrite fmap_cons, !bind_cons, IH).
  destruct (applyRuntimeTransactionDomains _ _) as [[s1 ds] [e|]] eqn:E; [by intros [= _ _ ?]|].
  destruct (validate _); [|done]. intros H. injection H as H Hc.
  destruct (stages_fixed outcome adapter_order k old t0 L _ _ _ E) as [-> F1].
  set (s2 := on_core (applyConfigView k) s1) in *. set (s3 := commitRuntimeTransactionDomains _ s2) in *.
  destruct (stages_committed outcome adapter_order k old t0 L s2) as [W1 C1], (finish_commit_settled k old s3) as [W2 C2]. fold s3 in W1, C1.
  set (s4 := finish_commit k old s3) in *.
  assert (cp_snapshot (co_control s1.2) = cp_snapshot (co_control c)) as Hs by (destruct s1 as [[a1 t1] c1]; symmetry; apply F1).
  unfold updateSnapshotState in Hc. rewrite Hst in Hc. rewrite <- Hc. cbn. rewrite W2, W1, C2, C1. split; [cbn; by rewrite Hs|].
  intros g. cbn. destruct (wi_gateway (co_wiring s1.2)) as [g1|]; [|done]. cbn. intros [= <-]. unfold gatewayKernelSurfaceLocked, current_control. cbn. rewrite Hs.
  by destruct (default no_control _).
Qed.

(** ** Examples *)

Module DomainExamples.
Import RefreshTransaction.Examples.

(** Every section changes. *)
Definition plan : RefreshPlan :=
  default (no_rebuild []) (refresh_Plan ["models"; "skills"; "hosts"; "tools"; "channels"; "runtime"; "exec_approval"]).

Definition registry (n : Handle) : ApprovalRegistry := mkApprovalRegistry n [n + 1].
Definition control (n : Handle) : Control := mkControl (Some n) (Some (registry n)) (Some n) (Some n).
Definition sink (n : Handle) : AuditSink := mkAuditSink n true true.

Definition prep : Prepared :=
  mkPreparedRefresh plan 1 2 (Some (mkControlState (control 200) (Some 201) (Some 202) (Some 203) (Some (sink 204))))
    (Some (mkSkills (Some 210) (Some 211))) (Some (mkHosts (Some 220) (Some 221) (Some 222) (Some 223))) (Some (mkTools (Some 230) (Some 231) (Some 232)))
    2 2 (Some 2) (Some 1) (Some 2).

Definition hosts : preparedHostRuntime := mkHosts (Some 120) (Some 121) (Some 122) (Some 123).

Definition core : Core :=
  mkCore (mkSkills (Some 110) (Some 111)) (Some (Some 110)) hosts (mkToolPart false (Some 130) (Some 131) (Some (Some 132)))
    (mkControlPart (Some (control 100)) true (Some (Some 100)) (Some (Some (registry 100))) (Some (Some [101])) (Some 103) (Some (Some 104)) (Some 104)
       (Some 105) (Some (Some (sink 106))) (Some 107))
    (mkWiring (Some (mkGateway (control 100) (1, Some 1) hosts (Some 110) None)) {[ 131 := mkBindings (Some 1) (Some 110) (Some 121) (Some 122) ]}
       (Some (mkCatalog 1 (Some 131) (Some 110) hosts (ap_channels app) None None)) (Some (Some 123)))
    (mkServices {[ 103 ]} {[ 104 ]} {[ 106 ]}) (mkView 1 1 1 (Some 1) 1 (Some (Some 1))) [].

Lemma core_ready : refresh_ready prep app txn core.
Proof.
  constructor; [apply app_channels_ok|..]; cbn.
  - by intros x [= <-].
  - by intros g [= <-].
  - by intros x [= <-].
  - intros x [= <-]. split; [by eexists|done].
  - by intros x [= <-].
  - intros h [= <-]. set_solver.
  - intros h [= <-]. set_solver.
  - intros h [= <-]. split; [done|]. intros _. cbn. set_solver.
  - intros st [= <-]. cbn. split_and!; intros h [= <-]; [set_solver..|]. split; [done|]. cbn. set_solver.
Qed.

End DomainExamples.

(** A domain that fails leaves the domains before it applied, and the deliverer not
    ready; the new hosts stay installed although their helpers are stopped. *)
Theorem failed_refresh_keeps_domains :
  let '(((a, _), c), res) := refresh Examples.stuck Examples.order (fun _ => true) DomainExamples.prep ((Examples.app, Examples.txn), DomainExamples.core) in
  is_Some res /\ ap_model a = Some (Some 2) /\ Examples.registered a = [("discord", 11)] /\ Examples.running a = [21] /\ ap_ready a = Some false
  /\ ho_managedHelpers (co_hosts c) = Some 220 /\ co_effects c = [WatchStopped 211; HelpersStopped 220; DBClosed 202].
Proof. vm_compute. split_and!; try done. by eexists. Qed.

(** Rolling back registers the old adapter and starts its bridge, but the adapter was
    disconnected when the new one was installed and is not connected again. *)
Theorem restored_adapter_disconnected :
  let '(((a, _), _), _) := refresh Examples.healthy Examples.order (fun _ => false) DomainExamples.prep ((Examples.app, Examples.txn), DomainExamples.core) in
  Examples.registered a = [("slack", 10); ("discord", 11)] /\ Examples.running a = [20; 21]
  /\ ap_calls a = [Disconnect 10; Connect 30; Disconnect 30].
Proof. vm_compute. split_and!; done. Qed.
