(* ===== verification/TextDiff.v ===== *)
(** * Differences of texts ([toolruntime/diff.go])

    The shortest edit script of two lists of lines by Myers' algorithm, its hunks
    and the unified text.  Reading a slice out of range, a panic, is [None]. *)
From S2P Require Import Prelude GoLib GoText.
From Stdlib Require Import Ascii.

Local Open Scope Z_scope.
Local Open Scope list_scope.

(** ** Edit scripts *)

Record editEntry := mkEdit { ed_kind : ascii; ed_text : string }.

Definition kind_context : ascii := " "%char.
Definition kind_delete : ascii := "-"%char.
Definition kind_insert : ascii := "+"%char.

(** Reading and writing a slice at an index. *)
Definition read {A} (l : list A) (i : Z) : option A := if decide (i < 0) then None else l !! Z.to_nat i.
Definition write {A} (l : list A) (i : Z) (x : A) : option (list A) :=
  if decide (0 <= i < Z.of_nat (length l)) then Some (<[Z.to_nat i := x]> l) else None.

Section Myers.
Context (oldLines newLines : list string).
Abbreviation nOld := (Z.of_nat (length oldLines)).
Abbreviation mNew := (Z.of_nat (length newLines)).

(** The loop over equal lines. *)
Fixpoint snake (fuel : nat) (x y : Z) : option (Z * Z) :=
  match fuel with
  | O => None
  | S fuel =>
    if decide (x < nOld /\ y < mNew) then
      match read oldLines x, read newLines y with
      | Some s, Some t => if decide (s = t) then snake fuel (x + 1) (y + 1) else Some (x, y)
      | _, _ => None
      end
    else Some (x, y)
  end.

(** The step of a diagonal: the point it starts from, and whether it comes from the
    diagonal above (an insertion). *)
Definition from_above (v : list Z) (mx d k : Z) : option bool :=
  if decide (k = - d) then Some true
  else if decide (k = d) then Some false
  else a ← read v (k - 1 + mx); b ← read v (k + 1 + mx); Some (bool_decide (a < b)).

Definition start_of (v : list Z) (mx d k : Z) : option Z :=
  up ← from_above v mx d k;
  if (up : bool) then read v (k + 1 + mx) else (fun x => x + 1) <$> read v (k - 1 + mx).

(** The diagonals of a round; [true] when the end of both texts is reached. *)
Fixpoint diagonals (ks : list Z) (mx d : Z) (v : list Z) : option (list Z * bool) :=
  match ks with
  | [] => Some (v, false)
  | k :: rest =>
    x ← start_of v mx d k;
    p ← snake (S (length oldLines)) x (x - k);
    v ← write v (k + mx) p.1;
    if decide (nOld <= p.1 /\ mNew <= p.2) then Some (v, true) else diagonals rest mx d v
  end.

(** [for k := -d; k <= d; k += 2]. *)
Definition round_diagonals (d : Z) : list Z := (fun i => - d + 2 * Z.of_nat i) <$> seq 0 (S (Z.to_nat d)).

(** The equal lines before a point, backwards, put before the entries [acc]. *)
Fixpoint back_diagonal (fuel : nat) (x y px py : Z) (acc : list editEntry) : option (Z * Z * list editEntry) :=
  match fuel with
  | O => None
  | S fuel =>
    if decide (px < x /\ py < y) then
      s ← read oldLines (x - 1); back_diagonal fuel (x - 1) (y - 1) px py (mkEdit kind_context s :: acc)
    else Some (x, y, acc)
  end.

(** The rounds backwards.  The code appends the entries and reverses them at the
    end; here each goes to the front. *)
Fixpoint back_rounds (dd : nat) (trace : list (list Z)) (mx x y : Z) (acc : list editEntry) : option (Z * Z * list editEntry) :=
  match dd with
  | O => Some (x, y, acc)
  | S dd' =>
    let k := x - y in
    v ← trace !! dd;
    up ← from_above v mx (Z.of_nat dd) k;
    let prevK := if (up : bool) then k + 1 else k - 1 in
    prevX ← read v (prevK + mx);
    let prevY := prevX - prevK in
    p ← back_diagonal (S (length oldLines)) x y prevX prevY acc;
    let '(x, y, acc) := p in
    if decide (x = prevX) then
      s ← read newLines (y - 1); back_rounds dd' trace mx x (y - 1) (mkEdit kind_insert s :: acc)
    else
      s ← read oldLines (x - 1); back_rounds dd' trace mx (x - 1) y (mkEdit kind_delete s :: acc)
  end.

Definition backtrackEdits (trace : list (list Z)) (d : nat) (mx : Z) : option (list editEntry) :=
  p ← back_rounds d trace mx nOld mNew [];
  let '(x, y, acc) := p in
  (fun q => q.2) <$> back_diagonal (S (length oldLines)) x y 0 0 acc.

(** The rounds; the trace holds the diagonals before each of them. *)
Fixpoint rounds (fuel : nat) (mx : Z) (v : list Z) (trace : list (list Z)) : option (list editEntry) :=
  match fuel with
  | O => Some []
  | S fuel =>
    let d := length trace in
    let trace := trace ++ [v] in
    r ← diagonals (round_diagonals (Z.of_nat d)) mx (Z.of_nat d) v;
    if (r.2 : bool) then backtrackEdits trace d mx else rounds fuel mx r.1 trace
  end.

Definition diffLines : option (list editEntry) :=
  match oldLines, newLines with
  | [], [] => Some []
  | [], _ => Some (mkEdit kind_insert <$> newLines)
  | _, [] => Some (mkEdit kind_delete <$> oldLines)
  | _, _ =>
    let mx := nOld + mNew in
    rounds (S (Z.to_nat mx)) mx (replicate (Z.to_nat (2 * mx + 1)) 0) []
  end.
End Myers.

(** ** What an edit script does *)

(** The lines of the old and of the new text, and the number of changes. *)
Definition old_side (es : list editEntry) : list string := ed_text <$> filter (fun e => ed_kind e <> kind_insert) es.
Definition new_side (es : list editEntry) : list string := ed_text <$> filter (fun e => ed_kind e <> kind_delete) es.
Definition changes (es : list editEntry) : nat := length (filter (fun e => ed_kind e <> kind_context) es).
Definition edit_kind (e : editEntry) : Prop := ed_kind e = kind_context \/ ed_kind e = kind_delete \/ ed_kind e = kind_insert.

Lemma old_side_app es fs : old_side (es ++ fs) = old_side es ++ old_side fs.
Proof. unfold old_side. by rewrite filter_app, fmap_app. Qed.
Lemma new_side_app es fs : new_side (es ++ fs) = new_side es ++ new_side fs.
Proof. unfold new_side. by rewrite filter_app, fmap_app. Qed.
Lemma changes_app es fs : changes (es ++ fs) = (changes es + changes fs)%nat.
Proof. unfold changes. by rewrite filter_app, length_app. Qed.

(** A script of the two texts. *)
Definition edits_of (old new : list string) (es : list editEntry) : Prop :=
  Forall edit_kind es /\ old_side es = old /\ new_side es = new.

Lemma edits_of_app o1 n1 o2 n2 es fs : edits_of o1 n1 es -> edits_of o2 n2 fs -> edits_of (o1 ++ o2) (n1 ++ n2) (es ++ fs).
Proof.
  intros (H1 & <- & <-) (H2 & <- & <-). unfold edits_of. rewrite Forall_app, old_side_app, new_side_app. done.
Qed.

Lemma edits_of_one s : edits_of [s] [s] [mkEdit kind_context s].
Proof. split_and!; [by repeat constructor|done..]. Qed.
Lemma edits_of_delete s : edits_of [s] [] [mkEdit kind_delete s].
Proof. split_and!; [repeat constructor; by right; left|done..]. Qed.
Lemma edits_of_insert s : edits_of [] [s] [mkEdit kind_insert s].
Proof. split_and!; [repeat constructor; by right; right|done..]. Qed.

Lemma edits_of_deletes l : edits_of l [] (mkEdit kind_delete <$> l) /\ changes (mkEdit kind_delete <$> l) = length l.
Proof.
  induction l as [|s l [IH IHc]]; [done|]. split.
  - apply (edits_of_app [s] [] l [] [_]); [apply edits_of_delete|done].
  - rewrite fmap_cons. change (S (changes (mkEdit kind_delete <$> l)) = S (length l)). by rewrite IHc.
Qed.

Lemma edits_of_inserts l : edits_of [] l (mkEdit kind_insert <$> l) /\ changes (mkEdit kind_insert <$> l) = length l.
Proof.
  induction l as [|s l [IH IHc]]; [done|]. split.
  - apply (edits_of_app [] [s] [] l [_]); [apply edits_of_insert|done].
  - rewrite fmap_cons. change (S (changes (mkEdit kind_insert <$> l)) = S (length l)). by rewrite IHc.
Qed.

(** A script has at least as many changes as one text has lines more than the other. *)
Lemma changes_side old new es : edits_of old new es -> (length old <= length new + changes es)%nat /\ (length new <= length old + changes es)%nat.
Proof.
  intros (Hf & <- & <-). induction Hf as [|[k s] es Hk _ [IH1 IH2]]; [done|]. destruct Hk as [Hk|[Hk|Hk]]; cbn in Hk; subst k.
  - change (S (length (old_side es)) <= S (length (new_side es)) + changes es /\ S (length (new_side es)) <= S (length (old_side es)) + changes es)%nat. lia.
  - change (S (length (old_side es)) <= length (new_side es) + S (changes es) /\ length (new_side es) <= S (length (old_side es)) + S (changes es))%nat. lia.
  - change (length (old_side es) <= S (length (new_side es)) + S (changes es) /\ S (length (new_side es)) <= length (old_side es) + S (changes es))%nat. lia.
Qed.

(** ** Points that edits reach *)

Section Reach.
Context (oldLines newLines : list string).
Abbreviation nOld := (Z.of_nat (length oldLines)).
Abbreviation mNew := (Z.of_nat (length newLines)).

Definition equal_at (x y : Z) : Prop :=
  0 <= x /\ 0 <= y /\ exists s, oldLines !! Z.to_nat x = Some s /\ newLines !! Z.to_nat y = Some s.

(** Points reached with that many insertions and deletions; the grid is not left
    by equal lines only. *)
Inductive reach : nat -> Z -> Z -> Prop :=
  | reach_start : reach 0 0 0
  | reach_insert d x y : reach d x y -> reach (S d) x (y + 1)
  | reach_delete d x y : reach d x y -> reach (S d) (x + 1) y
  | reach_equal d x y : reach d x y -> equal_at x y -> reach d (x + 1) (y + 1).

Lemma equal_at_lt x y : equal_at x y -> 0 <= x < nOld /\ 0 <= y < mNew.
Proof. intros (? & ? & s & Hx%lookup_lt_Some & Hy%lookup_lt_Some). lia. Qed.

Lemma reach_pos d x y : reach d x y -> 0 <= x /\ 0 <= y /\ Z.abs (x - y) <= Z.of_nat d /\ (Z.of_nat d - (x - y)) mod 2 = 0.
Proof.
  induction 1 as [|d x y _ IH|d x y _ IH|d x y _ IH _]; [done|..]; destruct IH as (? & ? & ? & Hp).
  - split_and!; [lia..|]. replace (Z.of_nat (S d) - (x - (y + 1))) with (Z.of_nat d - (x - y) + 1 * 2) by lia. by rewrite Z.mod_add.
  - split_and!; [lia..|]. by replace (Z.of_nat (S d) - (x + 1 - y)) with (Z.of_nat d - (x - y)) by lia.
  - split_and!; [lia..|]. by replace (x + 1 - (y + 1)) with (x - y) by lia.
Qed.

(** A point beyond the texts costs more than the point at their border. *)
Lemma reach_clip d x y : reach d x y ->
  exists d', reach d' (Z.min x nOld) (Z.min y mNew) /\ Z.of_nat d' + (x - Z.min x nOld) + (y - Z.min y mNew) <= Z.of_nat d.
Proof.
  induction 1 as [|d x y _ (d' & IH & Hd)|d x y _ (d' & IH & Hd)|d x y _ (d' & IH & Hd) He].
  - exists 0%nat. rewrite !Z.min_l by lia. split; [constructor|lia].
  - destruct (decide (y < mNew)).
    + exists (S d'). replace (Z.min (y + 1) mNew) with (Z.min y mNew + 1) by lia. split; [by constructor|lia].
    + exists d'. replace (Z.min (y + 1) mNew) with (Z.min y mNew) by lia. split; [done|lia].
  - destruct (decide (x < nOld)).
    + exists (S d'). replace (Z.min (x + 1) nOld) with (Z.min x nOld + 1) by lia. split; [by constructor|lia].
    + exists d'. replace (Z.min (x + 1) nOld) with (Z.min x nOld) by lia. split; [done|lia].
  - exists d'. pose proof (equal_at_lt _ _ He). rewrite !Z.min_l in * by lia. split; [by constructor|lia].
Qed.

Lemma reach_inv d x y : reach d x y ->
  (d = 0%nat /\ x = 0 /\ y = 0) \/ (exists d', d = S d' /\ (reach d' x (y - 1) \/ reach d' (x - 1) y))
  \/ (reach d (x - 1) (y - 1) /\ equal_at (x - 1) (y - 1)).
Proof.
  destruct 1 as [|d x y H|d x y H|d x y H He]; [by left| | |].
  - right. left. exists d. split; [done|]. left. by replace (y + 1 - 1) with y by lia.
  - right. left. exists d. split; [done|]. right. by replace (x + 1 - 1) with x by lia.
  - right. right. replace (x + 1 - 1) with x by lia. by replace (y + 1 - 1) with y by lia.
Qed.

Lemma reach_step_insert d x y : reach d x (y - 1) -> reach (S d) x y.
Proof. intros H. replace y with (y - 1 + 1) by lia. by constructor. Qed.
Lemma reach_step_delete d x y : reach d (x - 1) y -> reach (S d) x y.
Proof. intros H. replace x with (x - 1 + 1) by lia. by constructor. Qed.

Lemma reach_run d x y j : reach d x y -> 0 <= j -> (forall i, 0 <= i < j -> equal_at (x + i) (y + i)) -> reach d (x + j) (y + j).
Proof.
  intros H Hj. pattern j. apply natlike_ind; [..|done].
  - intros _. by rewrite !Z.add_0_r.
  - intros i Hi IH He. rewrite !Z.add_succ_r. apply reach_equal; [apply IH; intros i' Hi'; apply He; lia|apply He; lia].
Qed.

(** A script reaches the end of its texts. *)
Lemma edits_reach es : forall o0 o o' k0 k k' d,
  oldLines = o0 ++ o ++ o' -> newLines = k0 ++ k ++ k' -> edits_of o k es -> reach d (Z.of_nat (length o0)) (Z.of_nat (length k0)) ->
  reach (d + changes es) (Z.of_nat (length (o0 ++ o))) (Z.of_nat (length (k0 ++ k))).
Proof.
  induction es as [|[kd s] es IH]; intros o0 o o' k0 k k' d Ho Hk (Hf & <- & <-) Hr.
  { cbn. by rewrite !app_nil_r, Nat.add_0_r. }
  apply Forall_cons in Hf as [Hkd Hf]. assert (edits_of (old_side es) (new_side es) es) as He by done.
  destruct Hkd as [Hkd|[Hkd|Hkd]]; cbn in Hkd; subst kd.
  - change (old_side (mkEdit kind_context s :: es)) with (s :: old_side es) in *. change (new_side (mkEdit kind_context s :: es)) with (s :: new_side es) in *.
    rewrite (cons_middle s o0), (cons_middle s k0), !app_assoc. apply (IH _ _ o' _ _ k'); [by rewrite Ho, <- app_assoc|by rewrite Hk, <- app_assoc|done|].
    rewrite !length_app, !Nat2Z.inj_add. apply reach_equal; [done|]. split_and!; [lia..|]. exists s. rewrite !Nat2Z.id, Ho, Hk.
    rewrite <- !app_comm_cons. by rewrite !list_lookup_middle.
  - change (old_side (mkEdit kind_delete s :: es)) with (s :: old_side es) in *. change (new_side (mkEdit kind_delete s :: es)) with (new_side es) in *.
    change (changes (mkEdit kind_delete s :: es)) with (S (changes es)). rewrite Nat.add_succ_r, <- Nat.add_succ_l.
    rewrite (cons_middle s o0), !app_assoc. apply (IH _ _ o' _ _ k'); [by rewrite Ho, <- app_assoc|done|done|].
    rewrite length_app, Nat2Z.inj_add. by apply reach_delete.
  - change (old_side (mkEdit kind_insert s :: es)) with (old_side es) in *. change (new_side (mkEdit kind_insert s :: es)) with (s :: new_side es) in *.
    change (changes (mkEdit kind_insert s :: es)) with (S (changes es)). rewrite Nat.add_succ_r, <- Nat.add_succ_l.
    rewrite (cons_middle s k0), !app_assoc. apply (IH _ _ o' _ _ k'); [done|by rewrite Hk, <- app_assoc|done|].
    rewrite length_app, Nat2Z.inj_add. by apply reach_insert.
Qed.

Lemma edits_reach_end es : edits_of oldLines newLines es -> reach (changes es) nOld mNew.
Proof.
  intros He. apply (edits_reach es [] _ [] [] _ [] 0); [by rewrite app_nil_r|by rewrite app_nil_r|done|constructor].
Qed.

(** ** The furthest points *)

Definition furthest (d : nat) (k x : Z) : Prop := reach d x (x - k) /\ forall x', reach d x' (x' - k) -> x' <= x.

Lemma furthest_unique d k x x' : furthest d k x -> furthest d k x' -> x = x'.
Proof. intros [H1 H2] [H3 H4]. pose proof (H2 _ H3). pose proof (H4 _ H1). lia. Qed.

(** A point from which the equal lines lead to the furthest point. *)
Definition start_ok (d : nat) (k s : Z) : Prop :=
  reach d s (s - k) /\ forall x, reach d x (x - k) -> x <= s \/ (reach d (x - 1) (x - 1 - k) /\ equal_at (x - 1) (x - 1 - k)).

Lemma start_furthest d k s j :
  start_ok d k s -> 0 <= j -> (forall i, 0 <= i < j -> equal_at (s + i) (s - k + i)) -> ~ equal_at (s + j) (s - k + j) -> furthest d k (s + j).
Proof.
  intros [Hs Hm] Hj He Hn. split.
  { replace (s + j - k) with (s - k + j) by lia. by apply reach_run. }
  assert (forall i x, x - s <= Z.of_nat i -> reach d x (x - k) -> x <= s + j) as H; [|intros x Hx; apply (H (Z.to_nat (x - s))); [lia|done]].
  induction i as [|i IH]; intros x Hi Hx; [lia|]. destruct (Hm x Hx) as [?|[Hp Hq]]; [lia|].
  assert (x - 1 <= s + j) as H by (apply IH; [lia|done]). destruct (decide (x - 1 = s + j)) as [E|]; [|lia].
  destruct Hn. replace (s - k + j) with (x - 1 - k) by lia. by rewrite <- E.
Qed.

Lemma snake_spec fuel x y : 0 <= x -> 0 <= y -> Z.max 0 (nOld - x) < Z.of_nat fuel ->
  exists j, 0 <= j /\ snake oldLines newLines fuel x y = Some (x + j, y + j)
    /\ (forall i, 0 <= i < j -> equal_at (x + i) (y + i)) /\ ~ equal_at (x + j) (y + j).
Proof.
  revert x y. induction fuel as [|fuel IH]; intros x y Hx Hy Hf; [lia|].
  cbn [snake]. destruct (decide _) as [[Hxn Hym]|Hend].
  - unfold read. rewrite !decide_False by lia.
    destruct (lookup_lt_is_Some_2 oldLines (Z.to_nat x)) as [s Es]; [lia|]. destruct (lookup_lt_is_Some_2 newLines (Z.to_nat y)) as [t Et]; [lia|].
    rewrite Es, Et. destruct (decide (s = t)) as [->|Hne].
    + destruct (IH (x + 1) (y + 1)) as (j & Hj & E & He & Hn); [lia..|]. exists (j + 1). split; [lia|]. rewrite E.
      split; [do 2 f_equal; lia|]. split; [|by replace (x + (j + 1)) with (x + 1 + j) by lia; replace (y + (j + 1)) with (y + 1 + j) by lia].
      intros i Hi. destruct (decide (i = 0)) as [->|].
      * rewrite !Z.add_0_r. split_and!; [lia..|]. by exists t.
      * replace (x + i) with (x + 1 + (i - 1)) by lia. replace (y + i) with (y + 1 + (i - 1)) by lia. apply He. lia.
    + exists 0. rewrite !Z.add_0_r. split_and!; [lia|done|lia|]. intros (_ & _ & s' & H1 & H2). congruence.
  - exists 0. rewrite !Z.add_0_r. split_and!; [lia|done|lia|]. intros H%equal_at_lt. lia.
Qed.

(** ** The rounds *)

Context (mx : Z) (Hmx : mx = nOld + mNew).

(** The diagonals of a round hold their furthest points. *)
Definition row (d : nat) (v : list Z) : Prop :=
  forall k, Z.abs k <= Z.of_nat d -> (Z.of_nat d - k) mod 2 = 0 -> exists x, read v (k + mx) = Some x /\ furthest d k x.

(** What the code needs of the slice before a round. *)
Definition before (d : nat) (v : list Z) : Prop := match d with O => read v (1 + mx) = Some 0 | S d => row d v end.

Lemma parity_up a k : (a + 1 - k) mod 2 = 0 -> (a - (k + 1)) mod 2 = 0 /\ (a - (k - 1)) mod 2 = 0.
Proof.
  intros H. split.
  - replace (a - (k + 1)) with (a + 1 - k + -1 * 2) by lia. by rewrite Z.mod_add.
  - by replace (a - (k - 1)) with (a + 1 - k) by lia.
Qed.

Lemma parity_ne a k : (a - k) mod 2 = 0 -> (a + 1 - k) mod 2 <> 0.
Proof. intros H1 H2. pose proof (Z.div_mod (a - k) 2 ltac:(lia)). pose proof (Z.div_mod (a + 1 - k) 2 ltac:(lia)). lia. Qed.

Lemma reach_diagonal d x k : reach d x (x - k) -> Z.abs k <= Z.of_nat d /\ (Z.of_nat d - k) mod 2 = 0.
Proof. intros (_ & _ & H1 & H2)%reach_pos. replace (x - (x - k)) with k in * by lia. done. Qed.

Lemma start_from d k s (up : bool) px :
  furthest d (if up then k + 1 else k - 1) px -> s = (if up then px else px + 1) ->
  (forall x, reach d x (x - (k + 1)) -> x <= s) -> (forall x, reach d x (x - (k - 1)) -> x + 1 <= s) -> start_ok (S d) k s.
Proof.
  intros [Hr _] -> Ha Hb. split.
  - destruct up.
    + apply reach_step_insert. by replace (px - k - 1) with (px - (k + 1)) by lia.
    + apply reach_step_delete. replace (px + 1 - 1) with px by lia. by replace (px + 1 - k) with (px - (k - 1)) by lia.
  - intros x Hx. destruct (reach_inv _ _ _ Hx) as [(? & _)|[(d' & [= <-] & [H|H])|[H He]]]; [done|..].
    + left. apply Ha. by replace (x - (k + 1)) with (x - k - 1) by lia.
    + left. enough (x - 1 + 1 <= (if up then px else px + 1)) by lia. apply Hb. by replace (x - 1 - (k - 1)) with (x - k) by lia.
    + right. replace (x - 1 - k) with (x - k - 1) by lia. done.
Qed.

Lemma step_spec d v k : row d v -> Z.abs k <= Z.of_nat (S d) -> (Z.of_nat (S d) - k) mod 2 = 0 ->
  exists up px, from_above v mx (Z.of_nat (S d)) k = Some up /\ read v ((if up then k + 1 else k - 1) + mx) = Some px
    /\ furthest d (if up then k + 1 else k - 1) px /\ start_ok (S d) k (if up then px else px + 1).
Proof.
  intros Hv Hk Hp. rewrite Nat2Z.inj_succ in Hp. destruct (parity_up _ _ Hp) as [Hp1 Hp2].
  assert (forall x, reach d x (x - (k - 1)) -> Z.abs (k - 1) <= Z.of_nat d) as Hlow by (intros x Hx; by apply reach_diagonal in Hx as [? _]).
  assert (forall x, reach d x (x - (k + 1)) -> Z.abs (k + 1) <= Z.of_nat d) as Hhigh by (intros x Hx; by apply reach_diagonal in Hx as [? _]).
  unfold from_above. destruct (decide (k = - Z.of_nat (S d))) as [E|E].
  { destruct (Hv (k + 1)) as (px & Hr & Hf); [lia|done|]. exists true, px. split_and!; [done..|]. apply (start_from d k _ true px); [done..| |].
    - apply Hf.
    - intros x Hx. specialize (Hlow x Hx). lia. }
  destruct (decide (k = Z.of_nat (S d))) as [E'|E'].
  { destruct (Hv (k - 1)) as (px & Hr & Hf); [lia|done|]. exists false, px. split_and!; [done..|]. apply (start_from d k _ false px); [done..| |].
    - intros x Hx. specialize (Hhigh x Hx). lia.
    - intros x Hx. apply Hf in Hx. lia. }
  assert (exists q, Z.succ (Z.of_nat d) - k = q * 2) as [q Hq] by (by apply Z.mod_divide in Hp).
  destruct (Hv (k - 1)) as (a & Ha & Hfa); [lia|done|]. destruct (Hv (k + 1)) as (b & Hb & Hfb); [lia|done|].
  rewrite Ha, Hb. cbn [mbind option_bind].
  case_bool_decide as Hab.
  - exists true, b. split_and!; [done..|]. apply (start_from d k _ true b); [done..|apply Hfb|].
    intros x Hx. apply Hfa in Hx. lia.
  - exists false, a. split_and!; [done..|]. apply (start_from d k _ false a); [done..| |].
    + intros x Hx. apply Hfb in Hx. lia.
    + intros x Hx. apply Hfa in Hx. lia.
Qed.

Lemma start_spec d v k : before d v -> Z.abs k <= Z.of_nat d -> (Z.of_nat d - k) mod 2 = 0 ->
  exists s, start_of v mx (Z.of_nat d) k = Some s /\ start_ok d k s.
Proof.
  intros Hv Hk Hp. unfold start_of. destruct d as [|d].
  - assert (k = 0) as -> by lia. cbn in Hv |- *. exists 0. split; [done|]. split; [constructor|].
    intros x Hx. destruct (reach_inv _ _ _ Hx) as [(_ & -> & _)|[(d' & [=] & _)|[H He]]]; [by left|].
    right. replace (x - 1 - 0) with (x - 0 - 1) by lia. done.
  - destruct (step_spec d v k Hv Hk Hp) as (up & px & E1 & E2 & _ & Hs). rewrite E1. cbn [mbind option_bind].
    exists (if up then px else px + 1). split; [|done]. destruct up; [done|]. by rewrite E2.
Qed.

Lemma diagonal_spec d k s : start_ok d k s -> exists x,
  snake oldLines newLines (S (length oldLines)) s (s - k) = Some (x, x - k) /\ furthest d k x.
Proof.
  intros Hs. pose proof (proj1 Hs) as (? & ? & _)%reach_pos.
  destruct (snake_spec (S (length oldLines)) s (s - k)) as (j & Hj & E & He & Hn); [lia..|].
  exists (s + j). split; [rewrite E; do 2 f_equal; lia|by apply start_furthest].
Qed.

Lemma read_write {A} (l : list A) i x : 0 <= i < Z.of_nat (length l) ->
  exists l', write l i x = Some l' /\ length l' = length l /\ read l' i = Some x /\ forall j, j <> i -> read l' j = read l j.
Proof.
  intros Hi. unfold write, read. rewrite decide_True by done. exists (<[Z.to_nat i := x]> l). split_and!; [done|by rewrite length_insert| |].
  - rewrite decide_False by lia. apply list_lookup_insert_eq. lia.
  - intros j Hj. destruct (decide (j < 0)); [done|]. apply list_lookup_insert_ne. lia.
Qed.

Lemma diagonals_spec d ks : forall v, before d v -> Z.of_nat (length v) = 2 * mx + 1 -> Z.of_nat d <= mx ->
  Forall (fun k => Z.abs k <= Z.of_nat d /\ (Z.of_nat d - k) mod 2 = 0) ks ->
  exists v' b, diagonals oldLines newLines ks mx (Z.of_nat d) v = Some (v', b) /\ length v' = length v
    /\ (forall k x, furthest d k x -> read v (k + mx) = Some x -> read v' (k + mx) = Some x)
    /\ (if b then exists k x, furthest d k x /\ nOld <= x /\ mNew <= x - k
        else Forall (fun k => exists x, furthest d k x /\ ~ (nOld <= x /\ mNew <= x - k) /\ read v' (k + mx) = Some x) ks).
Proof.
  induction ks as [|k ks IH]; intros v Hb Hl Hd Hks; cbn [diagonals].
  { exists v, false. done. }
  apply Forall_cons in Hks as [[Hk Hp] Hks]. destruct (start_spec d v k Hb Hk Hp) as (s & -> & Hs). cbn [mbind option_bind].
  destruct (diagonal_spec d k s Hs) as (x & -> & Hf). cbn [mbind option_bind fst snd].
  destruct (read_write v (k + mx) x) as (v1 & -> & Hl1 & Hr1 & Hr1'); [lia|]. cbn [mbind option_bind].
  assert (forall k' x', furthest d k' x' -> read v (k' + mx) = Some x' -> read v1 (k' + mx) = Some x') as Hkeep.
  { intros k' x' Hf' Hx'. destruct (decide (k' = k)) as [->|]; [|by rewrite Hr1' by lia]. by rewrite Hr1, (furthest_unique d k x x'). }
  destruct (decide _) as [[Hx Hy]|Hend].
  { exists v1, true. split_and!; [done..|]. by exists k, x. }
  destruct (IH v1) as (v2 & b & E & Hl2 & Hkeep2 & Hres); [|lia|done|done|].
  { destruct d as [|d]; cbn in Hb |- *.
    - assert (k = 0) as -> by lia. by rewrite Hr1' by lia.
    - intros k' Hk' Hp'. destruct (Hb k' Hk' Hp') as (x' & Hx' & Hf'). exists x'. split; [|done]. rewrite Hr1'; [done|].
      intros Heq. assert (k' = k) as -> by lia. apply parity_ne in Hp'. apply Hp'. rewrite Nat2Z.inj_succ in Hp. exact Hp. }
  exists v2, b. split_and!; [done|by rewrite Hl2|by intros; apply Hkeep2; [|apply Hkeep]|].
  destruct b; [done|]. constructor; [|done]. exists x. split_and!; [done..|]. by apply Hkeep2.
Qed.

(** ** The way back *)

(** The entries [acc] lead from a point to the end of the texts. *)
Definition rest_from (x y : Z) (acc : list editEntry) : Prop := edits_of (drop (Z.to_nat x) oldLines) (drop (Z.to_nat y) newLines) acc.

Lemma rest_equal x y s acc : equal_at x y -> read oldLines x = Some s -> rest_from (x + 1) (y + 1) acc -> rest_from x y (mkEdit kind_context s :: acc).
Proof.
  intros (Hx & Hy & t & Ho & Hn) Hr H. unfold read in Hr. rewrite decide_False in Hr by lia. assert (t = s) as -> by congruence.
  unfold rest_from in *. rewrite (drop_S _ _ _ Ho), (drop_S _ _ _ Hn). rewrite !Z2Nat.inj_add, !Nat.add_1_r in H by lia.
  apply (edits_of_app [s] [s] _ _ [_]); [apply edits_of_one|done].
Qed.

Lemma rest_delete x y s acc : 0 <= x -> read oldLines x = Some s -> rest_from (x + 1) y acc -> rest_from x y (mkEdit kind_delete s :: acc).
Proof.
  intros Hx Hr H. unfold read in Hr. rewrite decide_False in Hr by lia.
  unfold rest_from in *. rewrite (drop_S _ _ _ Hr). rewrite !Z2Nat.inj_add, !Nat.add_1_r in H by lia.
  apply (edits_of_app [s] [] _ _ [_]); [apply edits_of_delete|done].
Qed.

Lemma rest_insert x y s acc : 0 <= y -> read newLines y = Some s -> rest_from x (y + 1) acc -> rest_from x y (mkEdit kind_insert s :: acc).
Proof.
  intros Hy Hr H. unfold read in Hr. rewrite decide_False in Hr by lia.
  unfold rest_from in *. rewrite (drop_S _ _ _ Hr). rewrite !Z2Nat.inj_add, !Nat.add_1_r in H by lia.
  apply (edits_of_app [] [s] _ _ [_]); [apply edits_of_insert|done].
Qed.

Lemma read_some {A} (l : list A) i : 0 <= i < Z.of_nat (length l) -> exists x, read l i = Some x.
Proof. intros Hi. unfold read. rewrite decide_False by lia. apply lookup_lt_is_Some. lia. Qed.

Lemma back_diagonal_spec px py s t j : forall fuel acc,
  px <= s -> py <= t -> ~ (px < s /\ py < t) -> (j < fuel)%nat ->
  (forall i, 0 <= i < Z.of_nat j -> equal_at (s + i) (t + i)) -> rest_from (s + Z.of_nat j) (t + Z.of_nat j) acc ->
  exists acc', back_diagonal oldLines fuel (s + Z.of_nat j) (t + Z.of_nat j) px py acc = Some (s, t, acc') /\ rest_from s t acc' /\ changes acc' = changes acc.
Proof.
  induction j as [|j IH]; intros [|fuel] acc Hpx Hpy Hstop Hf He Hacc; [lia| |lia|]; cbn [back_diagonal].
  - change (Z.of_nat 0) with 0 in *. rewrite !Z.add_0_r in *. rewrite decide_False by done. by exists acc.
  - rewrite decide_True by lia.
    replace (s + Z.of_nat (S j) - 1) with (s + Z.of_nat j) by lia. replace (t + Z.of_nat (S j) - 1) with (t + Z.of_nat j) by lia.
    pose proof (He (Z.of_nat j) ltac:(lia)) as Hj. destruct (read_some oldLines (s + Z.of_nat j)) as [w Hw]; [apply equal_at_lt in Hj; lia|].
    rewrite Hw. cbn [mbind option_bind].
    destruct (IH fuel (mkEdit kind_context w :: acc)) as (acc' & E & Hr & Hc); [done..|lia|intros i Hi; apply He; lia| |by exists acc'].
    apply rest_equal; [done..|]. replace (s + Z.of_nat j + 1) with (s + Z.of_nat (S j)) by lia. by replace (t + Z.of_nat j + 1) with (t + Z.of_nat (S j)) by lia.
Qed.

Lemma start_run d k s x : start_ok d k s -> furthest d k x -> exists j, x = s + Z.of_nat j /\ forall i, 0 <= i < Z.of_nat j -> equal_at (s + i) (s - k + i).
Proof.
  intros Hs Hf. pose proof (reach_pos _ _ _ (proj1 Hs)) as (? & ? & _).
  destruct (snake_spec (S (length oldLines)) s (s - k)) as (j & Hj & _ & He & Hn); [lia..|].
  exists (Z.to_nat j). rewrite Z2Nat.id by done. split; [|done]. by apply (furthest_unique d k); [|apply start_furthest].
Qed.

Lemma back_rounds_spec trace : forall dd x y acc,
  (forall i, (0 < i <= dd)%nat -> exists v, trace !! i = Some v /\ before i v) ->
  furthest dd (x - y) x -> x <= nOld -> y <= mNew -> rest_from x y acc ->
  exists x' y' acc', back_rounds oldLines newLines dd trace mx x y acc = Some (x', y', acc') /\ reach 0 x' y' /\ x' <= nOld
    /\ rest_from x' y' acc' /\ changes acc' = (changes acc + dd)%nat.
Proof.
  induction dd as [|dd IH]; intros x y acc Ht Hf Hx Hy Hacc; cbn [back_rounds].
  { exists x, y, acc. split_and!; [done| |done..|by rewrite Nat.add_0_r]. destruct Hf as [Hr _]. by replace (x - (x - y)) with y in Hr by lia. }
  destruct (Ht (S dd)) as (v & -> & Hv); [lia|]. cbn [mbind option_bind]. set (k := x - y) in *.
  pose proof (reach_diagonal _ _ _ (proj1 Hf)) as [Hk Hp].
  destruct (step_spec dd v k Hv Hk Hp) as (up & px & -> & Hread & Hfp & Hs). cbn [mbind option_bind].
  rewrite Hread. cbn [mbind option_bind]. set (pk := if up then k + 1 else k - 1) in *. set (s := if up then px else px + 1) in *.
  destruct (start_run _ _ _ _ Hs Hf) as (j & Hj & He).
  pose proof (reach_pos _ _ _ (proj1 Hs)) as (Hs0 & Ht0 & _). pose proof (reach_pos _ _ _ (proj1 Hfp)) as (Hp0 & Hq0 & _).
  assert (y = s - k + Z.of_nat j) as Hyj by (subst k; lia).
  destruct (back_diagonal_spec px (px - pk) s (s - k) j (S (length oldLines)) acc) as (acc' & E & Hr & Hc);
    [subst s; destruct up; lia|subst s pk; destruct up; lia|subst s pk; destruct up; lia|lia|done|by rewrite <- Hj, <- Hyj|].
  rewrite <- Hj, <- Hyj in E. rewrite E. cbn [mbind option_bind].
  assert (forall i, (0 < i <= dd)%nat -> exists v, trace !! i = Some v /\ before i v) as Ht' by (intros i Hi; apply Ht; lia).
  destruct up; subst pk s.
  - rewrite decide_True by done. destruct (read_some newLines (px - k - 1)) as [w Hw]; [lia|]. rewrite Hw. cbn [mbind option_bind].
    destruct (IH px (px - k - 1) (mkEdit kind_insert w :: acc')) as (x' & y' & acc'' & E' & ? & ? & ? & Hch); [done| |lia|lia| |].
    { by replace (px - (px - k - 1)) with (k + 1) by lia. }
    { apply rest_insert; [lia|done|]. by replace (px - k - 1 + 1) with (px - k) by lia. }
    exists x', y', acc''. split_and!; [done..|]. rewrite Hch. change (changes (mkEdit kind_insert w :: acc')) with (S (changes acc')). lia.
  - rewrite decide_False by lia. replace (px + 1 - 1) with px by lia. destruct (read_some oldLines px) as [w Hw]; [lia|]. rewrite Hw. cbn [mbind option_bind].
    destruct (IH px (px + 1 - k) (mkEdit kind_delete w :: acc')) as (x' & y' & acc'' & E' & ? & ? & ? & Hch); [done| |lia|lia| |].
    { by replace (px - (px + 1 - k)) with (k - 1) by lia. }
    { by apply rest_delete. }
    exists x', y', acc''. split_and!; [done..|]. rewrite Hch. change (changes (mkEdit kind_delete w :: acc')) with (S (changes acc')). lia.
Qed.

Lemma reach_zero x y : reach 0 x y -> x = y /\ 0 <= x /\ forall i, 0 <= i < x -> equal_at i i.
Proof.
  remember 0%nat as d eqn:Ed. induction 1 as [|? ? ? _ _|? ? ? _ _|d x y _ IH He]; try done.
  - split_and!; [done..|lia].
  - destruct (IH Ed) as (-> & Hy & Hi). split_and!; [done|lia|]. intros i ?. destruct (decide (i = y)) as [->|]; [done|]. apply Hi. lia.
Qed.

Lemma backtrackEdits_spec trace d :
  (forall i, (0 < i <= d)%nat -> exists v, trace !! i = Some v /\ before i v) -> furthest d (nOld - mNew) nOld ->
  exists es, backtrackEdits oldLines newLines trace d mx = Some es /\ edits_of oldLines newLines es /\ changes es = d.
Proof.
  intros Ht Hf. unfold backtrackEdits.
  destruct (back_rounds_spec trace d nOld mNew []) as (x & y & acc & -> & Hr & Hx & Hacc & Hc); [done..|lia|lia| |].
  { unfold rest_from. rewrite !Nat2Z.id, !drop_all. done. }
  cbn [mbind option_bind]. destruct (reach_zero _ _ Hr) as (<- & Hx0 & He).
  destruct (back_diagonal_spec 0 0 0 0 (Z.to_nat x) (S (length oldLines)) acc) as (acc' & E & Hes & Hch); [lia..| | |].
  { intros i Hi. rewrite !Z.add_0_l. apply He. lia. }
  { by rewrite !Z.add_0_l, Z2Nat.id. }
  rewrite !Z.add_0_l, Z2Nat.id in E by done. rewrite E. exists acc'. cbn. split; [done|]. split; [exact Hes|]. by rewrite Hch, Hc.
Qed.

Lemma round_diagonals_spec d : Forall (fun k => Z.abs k <= Z.of_nat d /\ (Z.of_nat d - k) mod 2 = 0) (round_diagonals (Z.of_nat d)).
Proof.
  unfold round_diagonals. apply Forall_fmap, Forall_forall. intros i Hi%elem_of_seq. cbn. rewrite Nat2Z.id in Hi. split; [lia|].
  replace (Z.of_nat d - (- Z.of_nat d + 2 * Z.of_nat i)) with ((Z.of_nat d - Z.of_nat i) * 2) by lia. by apply Z.mod_mul.
Qed.

Lemma round_diagonals_all d k : Z.abs k <= Z.of_nat d -> (Z.of_nat d - k) mod 2 = 0 -> k ∈ round_diagonals (Z.of_nat d).
Proof.
  intros Hk Hp. apply Z.mod_divide in Hp as [q Hq]; [|done]. unfold round_diagonals. apply list_elem_of_fmap.
  exists (Z.to_nat (Z.of_nat d - q)). rewrite Nat2Z.id. split; [lia|]. apply elem_of_seq. lia.
Qed.

(** The end is reached by as many changes as there are lines. *)
Lemma reach_end : reach (length oldLines + length newLines) nOld mNew.
Proof.
  destruct (edits_of_deletes oldLines) as [H1 C1], (edits_of_inserts newLines) as [H2 C2].
  pose proof (edits_of_app _ _ _ _ _ _ H1 H2) as He. rewrite app_nil_r in He. apply edits_reach_end in He.
  by rewrite changes_app, C1, C2 in He.
Qed.

Lemma rounds_spec fuel : forall v trace,
  (Z.of_nat fuel + Z.of_nat (length trace) = mx + 1) -> before (length trace) v -> Z.of_nat (length v) = 2 * mx + 1 ->
  (forall i, (0 < i < length trace)%nat -> exists v, trace !! i = Some v /\ before i v) ->
  (forall d, (d < length trace)%nat -> ~ reach d nOld mNew) ->
  exists es, rounds oldLines newLines fuel mx v trace = Some es /\ edits_of oldLines newLines es /\ forall d, reach d nOld mNew -> (changes es <= d)%nat.
Proof.
  induction fuel as [|fuel IH]; intros v trace Hfuel Hb Hl Ht Hno; cbn [rounds].
  { destruct (Hno (length oldLines + length newLines)%nat); [lia|apply reach_end]. }
  set (d := length trace) in *.
  destruct (diagonals_spec d (round_diagonals (Z.of_nat d)) v Hb Hl) as (v' & b & E & Hl' & _ & Hres); [lia|apply round_diagonals_spec|].
  rewrite E. cbn [mbind option_bind snd fst].
  assert (forall i, (0 < i <= d)%nat -> exists w, (trace ++ [v]) !! i = Some w /\ before i w) as Ht'.
  { intros i Hi. destruct (decide (i = d)) as [->|].
    - exists v. split; [|done]. apply list_lookup_middle. done.
    - destruct (Ht i) as (w & Hw & Hbw); [lia|]. exists w. split; [|done]. by apply lookup_app_l_Some. }
  assert (Hmin : forall x y, reach d x y -> nOld <= x -> mNew <= y -> x = nOld /\ y = mNew).
  { intros x y Hr Hx Hy. destruct (reach_clip _ _ _ Hr) as (d' & Hr' & Hd'). rewrite !Z.min_r in Hr', Hd' by lia.
    destruct (decide (d' < d)%nat) as [Hlt|]; [by destruct (Hno d' Hlt)|]. lia. }
  destruct b.
  - destruct Hres as (k & x & [Hr Hf] & Hx & Hy). destruct (Hmin _ _ Hr Hx Hy) as [-> Hk]. assert (k = nOld - mNew) as -> by lia.
    destruct (backtrackEdits_spec (trace ++ [v]) d Ht') as (es & -> & He & Hc); [done|]. exists es. split_and!; [done..|].
    intros d' Hd'. rewrite Hc. destruct (decide (d' < d)%nat) as [Hlt|]; [by destruct (Hno d' Hlt)|lia].
  - rewrite Forall_forall in Hres. apply IH; rewrite ?length_app; cbn [length]; fold d.
    + lia.
    + rewrite Nat.add_1_r. intros k Hk Hp. destruct (Hres k) as (x & Hf & _ & Hr); [by apply round_diagonals_all|]. by exists x.
    + by rewrite Hl'.
    + intros i Hi. apply Ht'. lia.
    + intros d' Hd' Hr. destruct (decide (d' < d)%nat) as [Hlt|]; [by destruct (Hno d' Hlt)|]. assert (d' = d) as -> by lia.
      assert (reach d nOld (nOld - (nOld - mNew))) as Hr' by (by replace (nOld - (nOld - mNew)) with mNew by lia).
      destruct (reach_diagonal _ _ _ Hr') as [Hk Hp].
      destruct (Hres (nOld - mNew)) as (x & [_ Hf] & Hend & _); [by apply round_diagonals_all|]. apply Hf in Hr'. destruct Hend. lia.
Qed.
End Reach.

Lemma diffLines_spec old new :
  exists es, diffLines old new = Some es /\ edits_of old new es /\ forall fs, edits_of old new fs -> (changes es <= changes fs)%nat.
Proof.
  destruct old as [|s old], new as [|t new]; cbn [diffLines].
  - exists []. split_and!; [done..|]. intros fs _. cbn. lia.
  - exists (mkEdit kind_insert <$> (t :: new)). destruct (edits_of_inserts (t :: new)) as [He ->]. split_and!; [done..|].
    intros fs Hfs%changes_side. cbn [length] in *. lia.
  - exists (mkEdit kind_delete <$> (s :: old)). destruct (edits_of_deletes (s :: old)) as [He ->]. split_and!; [done..|].
    intros fs Hfs%changes_side. cbn [length] in *. lia.
  - set (mx := _ + _). assert (0 <= mx) by lia.
    destruct (rounds_spec (s :: old) (t :: new) mx eq_refl (S (Z.to_nat mx)) (replicate (Z.to_nat (2 * mx + 1)) 0) []) as (es & E & He & Hmin);
      [cbn [length]; lia| |rewrite length_replicate; lia|intros i Hi; cbn in Hi; lia|intros d Hd; cbn in Hd; lia|].
    + cbn [before length]. unfold read. rewrite decide_False by lia. apply lookup_replicate. split; [done|]. subst mx. cbn [length]. lia.
    + exists es. split_and!; [done..|]. intros fs Hfs. by apply Hmin, edits_reach_end.
Qed.

Lemma diffLines_exists old new : exists es, diffLines old new = Some es /\ edits_of old new es.
Proof. destruct (diffLines_spec old new) as (es & ? & ? & _). by exists es. Qed.

(** C32: comparing two texts returns for all of them, and what it returns is an edit
    script that turns the old lines into the new ones with as few insertions and
    deletions as any script does. *)
Theorem diffLines_shortest old new :
  exists es, diffLines old new = Some es /\ edits_of old new es /\ forall fs, edits_of old new fs -> (changes es <= changes fs)%nat.
Proof. apply diffLines_spec. Qed.
