(* ===== verification/TextHunks.v ===== *)
(** * Hunks and unified texts ([toolruntime/diff.go])

    Grouping the entries of an edit script into hunks with their context, and
    the unified text of the hunks. *)
From S2P Require Import Prelude GoLib GoText TextDiff.
From Stdlib Require Import Ascii.

Local Open Scope nat_scope.
Local Open Scope list_scope.

(** ** Definitions *)

Definition newline : ascii := ascii_of_nat 10.

Record diffHunk := mkDiffHunk { dh_oldStart : Z; dh_oldCount : Z; dh_newStart : Z; dh_newCount : Z; dh_lines : list editEntry }.

(** Positions of the changes: the runs of entries that are not context. *)
Fixpoint change_regions (edits : list editEntry) (i : nat) (start : option nat) : list (nat * nat) :=
  match edits with
  | [] => match start with Some s => [(s, i)] | None => [] end
  | e :: rest =>
    if decide (ed_kind e <> kind_context) then change_regions rest (S i) (Some (default i start))
    else match start with
         | Some s => (s, i) :: change_regions rest (S i) None
         | None => change_regions rest (S i) None
         end
  end.

(** Regions that are close, starting with the region [r]. *)
Fixpoint group_regions (contextSize : nat) (r : nat * nat) (rest : list (nat * nat)) : list (nat * nat) * list (list (nat * nat)) :=
  match rest with
  | [] => ([r], [])
  | next :: rest =>
    let '(g, gs) := group_regions contextSize next rest in
    if decide (next.1 - r.2 <= 2 * contextSize) then (r :: g, gs) else ([r], g :: gs)
  end.

Definition count_old (edits : list editEntry) : nat := length (filter (fun e => ed_kind e = kind_context \/ ed_kind e = kind_delete) edits).
Definition count_new (edits : list editEntry) : nat := length (filter (fun e => ed_kind e = kind_context \/ ed_kind e = kind_insert) edits).

(** The hunk of the entries from [lo] to [hi]. *)
Definition hunk_between (edits : list editEntry) (lo hi : nat) : diffHunk :=
  let lines := take (hi - lo) (drop lo edits) in
  mkDiffHunk (Z.of_nat (S (count_old (take lo edits)))) (Z.of_nat (count_old lines)) (Z.of_nat (S (count_new (take lo edits))))
    (Z.of_nat (count_new lines)) lines.

Definition group_hunk (edits : list editEntry) (contextSize : nat) (g : list (nat * nat)) : diffHunk :=
  hunk_between edits (default 0 (fst <$> head g) - contextSize) (Nat.min (default 0 (snd <$> last g) + contextSize) (length edits)).

Definition groupHunks (edits : list editEntry) (contextSize : nat) : list diffHunk :=
  match change_regions edits 0 None with
  | [] => []
  | r :: rest => let '(g, gs) := group_regions contextSize r rest in group_hunk edits contextSize <$> g :: gs
  end.

Definition hunk_header (h : diffHunk) : string :=
  "@@ -" +:+ FormatInt (dh_oldStart h) +:+ "," +:+ FormatInt (dh_oldCount h) +:+ " +" +:+ FormatInt (dh_newStart h) +:+ "," +:+ FormatInt (dh_newCount h)
    +:+ " @@".

Definition edit_line (e : editEntry) : string := String (ed_kind e) (ed_text e).

(** A line with its newline. *)
Definition with_newline (s : string) : string := s +:+ String newline "".

Definition formatUnified (oldName newName : string) (hunks : list diffHunk) : string :=
  with_newline ("--- " +:+ oldName) +:+ with_newline ("+++ " +:+ newName)
    +:+ String.concat "" ((fun h => with_newline (hunk_header h) +:+ String.concat "" (with_newline ∘ edit_line <$> dh_lines h)) <$> hunks).

Definition splitLines (s : string) : list string :=
  if decide (s = "") then []
  else let lines := SplitByte newline s in
       if decide (last lines = Some "") then take (length lines - 1) lines else lines.

(** [None] stands for a panic of [diffLines]. *)
Definition computeDiff (oldName newName oldText newText : string) : option string :=
  if decide (oldText = newText) then Some ""
  else
    edits ← diffLines (splitLines oldText) (splitLines newText);
    match edits with
    | [] => Some ""
    | _ => match groupHunks edits 3 with
           | [] => Some ""
           | hunks => Some (formatUnified oldName newName hunks)
           end
    end.

(** ** Hunks cover the changes *)

Definition context_only (edits : list editEntry) : Prop := Forall (fun e => ed_kind e = kind_context) edits.

(** The entries from the given lines on are context, but for the lines of the hunks. *)
Inductive covered : nat -> nat -> list editEntry -> list diffHunk -> Prop :=
  | covered_rest o k edits : context_only edits -> covered o k edits []
  | covered_hunk o k gap lines rest hunks :
      context_only gap ->
      covered (o + count_old (gap ++ lines)) (k + count_new (gap ++ lines)) rest hunks ->
      covered o k (gap ++ lines ++ rest)
        (mkDiffHunk (Z.of_nat (o + count_old gap)) (Z.of_nat (count_old lines)) (Z.of_nat (k + count_new gap)) (Z.of_nat (count_new lines)) lines :: hunks).

Lemma count_old_app es fs : count_old (es ++ fs) = count_old es + count_old fs.
Proof. unfold count_old. by rewrite filter_app, length_app. Qed.
Lemma count_new_app es fs : count_new (es ++ fs) = count_new es + count_new fs.
Proof. unfold count_new. by rewrite filter_app, length_app. Qed.

Section Regions.
Context (edits : list editEntry).

Definition context_at (i : nat) : Prop := forall e, edits !! i = Some e -> ed_kind e = kind_context.

(** Regions from a position on, with context between them. *)
Inductive regions_ok : nat -> list (nat * nat) -> Prop :=
  | regions_nil p : (forall i, p <= i -> context_at i) -> regions_ok p []
  | regions_cons p s e rest :
      p <= s -> s < e -> e <= length edits -> (forall i, p <= i < s -> context_at i) -> regions_ok e rest -> regions_ok p ((s, e) :: rest).

Lemma change_regions_ok suf : forall pre p start,
  edits = pre ++ suf -> p <= default (length pre) start ->
  (forall i, p <= i < default (length pre) start -> context_at i) -> (forall s, start = Some s -> s < length pre) ->
  regions_ok p (change_regions suf (length pre) start).
Proof.
  induction suf as [|e suf IH]; intros pre p start He Hp Hc Hs; cbn [change_regions].
  - rewrite app_nil_r in He. subst pre. destruct start as [s|]; cbn in *.
    + apply regions_cons; [done|by apply Hs|done|done|]. constructor. intros i Hi x Hx%lookup_lt_Some. lia.
    + constructor. intros i Hi. destruct (decide (i < length edits)); [by apply Hc|]. intros x Hx%lookup_lt_Some. lia.
  - assert (edits = (pre ++ [e]) ++ suf) as He' by (by rewrite <- app_assoc).
    assert (length (pre ++ [e]) = S (length pre)) as Hl by (rewrite length_app; cbn; lia).
    destruct (decide _) as [Hk|Hk].
    + rewrite <- Hl. apply IH; [done|destruct start; cbn in *; lia|by destruct start|].
      intros s [= <-]. rewrite Hl. destruct start as [s|]; cbn; [specialize (Hs s eq_refl)|]; lia.
    + assert (context_at (length pre)) as Hpre.
      { intros x Hx. rewrite He, list_lookup_middle in Hx by done. injection Hx as <-. by destruct (decide (ed_kind e = kind_context)). }
      destruct start as [s|]; cbn in Hp, Hc.
      * specialize (Hs s eq_refl). apply regions_cons; [done|done|rewrite He, length_app; cbn; lia|done|]. rewrite <- Hl.
        apply IH; [done|cbn; lia|cbn; intros i Hi; by replace i with (length pre) by lia|done].
      * rewrite <- Hl. apply IH; [done|cbn; lia| |done]. cbn. intros i Hi. destruct (decide (i = length pre)) as [->|]; [done|]. apply Hc. lia.
Qed.

Lemma context_between p q : (forall i, p <= i < q -> context_at i) -> context_only (take (q - p) (drop p edits)).
Proof.
  intros H. apply Forall_lookup. intros i e He. apply lookup_take_Some in He as [He Hi]. rewrite lookup_drop in He. apply (H (p + i)); [lia|done].
Qed.

Lemma context_from p : (forall i, p <= i -> context_at i) -> context_only (drop p edits).
Proof. intros H. apply Forall_lookup. intros i e He. rewrite lookup_drop in He. apply (H (p + i)); [lia|done]. Qed.

Lemma cut_between q lo hi : q <= lo -> lo <= hi -> drop q edits = take (lo - q) (drop q edits) ++ take (hi - lo) (drop lo edits) ++ drop hi edits.
Proof.
  intros Hq Hl. rewrite <- (take_drop (lo - q) (drop q edits)) at 1. f_equal. rewrite drop_drop. replace (q + (lo - q)) with lo by lia.
  rewrite <- (take_drop (hi - lo) (drop lo edits)) at 1. f_equal. rewrite drop_drop. f_equal. lia.
Qed.

Lemma take_between q lo : q <= lo -> take lo edits = take q edits ++ take (lo - q) (drop q edits).
Proof.
  intros Hq. rewrite <- (take_drop q (take lo edits)). rewrite take_take, Nat.min_l by done. f_equal. by rewrite skipn_firstn_comm.
Qed.

(** Hunks of grouped regions, the first of them from any position on. *)
Lemma group_regions_covered c rest : forall r p q lo,
  regions_ok p (r :: rest) -> q <= lo -> lo <= r.1 -> q <= length edits -> (forall i, q <= i < lo -> context_at i) ->
  let '(g, gs) := group_regions c r rest in
  covered (S (count_old (take q edits))) (S (count_new (take q edits))) (drop q edits)
    (hunk_between edits lo (Nat.min (default 0 (snd <$> last g) + c) (length edits)) :: (group_hunk edits c <$> gs))
  /\ g <> [] /\ head g = Some r.
Proof.
  assert (step : forall q lo hi hunks, q <= lo -> lo <= hi -> hi <= length edits -> (forall i, q <= i < lo -> context_at i) ->
    covered (S (count_old (take hi edits))) (S (count_new (take hi edits))) (drop hi edits) hunks ->
    covered (S (count_old (take q edits))) (S (count_new (take q edits))) (drop q edits) (hunk_between edits lo hi :: hunks)).
  { intros q lo hi hunks Hq Hl Hh Hc H. rewrite (cut_between q lo hi) by done. unfold hunk_between.
    rewrite (take_between q lo) by done. rewrite count_old_app, count_new_app, <- !Nat.add_succ_l.
    apply covered_hunk; [by apply context_between|]. rewrite (take_between lo hi), (take_between q lo) in H by done.
    rewrite !count_old_app, !count_new_app in *. by rewrite !Nat.add_assoc, <- !Nat.add_succ_l in *. }
  induction rest as [|[s' e'] rest IH]; intros [s e] p q lo Hr Hq Hlo Hql Hc; cbn [group_regions fst snd] in *.
  - inversion Hr as [|? ? ? ? Hps Hse He Hpc Hrest]; subst. inversion Hrest as [? Hend|]; subst. cbn. split; [|done].
    apply step; [done|lia|lia|done|]. constructor. apply context_from. intros i Hi. destruct (decide (i < length edits)).
    + apply Hend. lia.
    + intros x Hx%lookup_lt_Some. lia.
  - inversion Hr as [|? ? ? ? Hps Hse He Hpc Hrest]; subst. pose proof Hrest as Hrest'. inversion Hrest' as [|? ? ? ? Hes Hse' He' Hgap Hrest'']; subst.
    destruct (group_regions c (s', e') rest) as [g gs] eqn:Eg. destruct (decide (s' - e <= 2 * c)) as [Hclose|Hfar].
    + specialize (IH (s', e') e q lo Hrest). rewrite Eg in IH. destruct IH as (H & Hg & Hh); [done|cbn; lia|done|done|].
      split; [|done]. destruct g as [|g0 g]; [done|]. exact H.
    + remember (Nat.min (e + c) (length edits)) as hi eqn:Ehi.
      specialize (IH (s', e') e hi (s' - c) Hrest). rewrite Eg in IH. destruct IH as (H & Hg & Hh); [lia|cbn; lia|lia| |].
      { intros i Hi. destruct (decide (i < length edits)); [apply Hgap; lia|]. intros x Hx%lookup_lt_Some. lia. }
      split; [|done]. change (Nat.min (default 0 (snd <$> last [(s, e)]) + c) (length edits)) with (Nat.min (e + c) (length edits)). rewrite <- Ehi. apply step; [done|lia|lia|done|].
      cbn [fmap list_fmap]. unfold group_hunk at 1. rewrite Hh. exact H.
Qed.

Lemma groupHunks_covered c : covered 1 1 edits (groupHunks edits c).
Proof.
  unfold groupHunks. pose proof (change_regions_ok edits [] 0 None eq_refl ltac:(cbn; lia) ltac:(cbn; lia) ltac:(done)) as H. cbn [length] in H.
  destruct (change_regions edits 0 None) as [|r rest].
  - inversion H as [? Hall|]; subst. constructor. apply (context_from 0). intros i Hi. by apply Hall.
  - pose proof (group_regions_covered c rest r 0 0 (r.1 - c) H) as Hg. destruct (group_regions c r rest) as [g gs].
    destruct Hg as (Hcov & _ & Hh); [lia|lia|lia| |].
    + inversion H as [|? ? ? ? _ _ _ Hctx _]; subst. intros i Hi. apply Hctx. cbn in Hi. lia.
    + cbn [fmap list_fmap]. unfold group_hunk at 1. rewrite Hh. exact Hcov.
Qed.
End Regions.
