(* ===== verification/TextPatch.v ===== *)
(** * Patches ([toolruntime/patch.go])

    Reading a unified diff, and applying its hunks to the lines of a text, forwards
    or in reverse.  The hunks of [TextDiff] applied to the old text give the new
    one. *)
From S2P Require Import Prelude GoLib GoText GoClock TextDiff TextHunks.
From Stdlib Require Import Ascii DecimalString.
Import Str GoInt Text.

Local Open Scope nat_scope.
Local Open Scope list_scope.

(** ** Data *)

Record patchLine := mkPatchLine { pl_Kind : ascii; pl_Text : string; pl_HasNewline : bool }.
Record patchHunk := mkPatchHunk { ph_OldStart : Z; ph_OldCount : Z; ph_NewStart : Z; ph_NewCount : Z; ph_Lines : list patchLine }.
Record patchFile := mkPatchFile { pf_OldPath : string; pf_NewPath : string; pf_Hunks : list patchHunk }.
Record textLine := mkTextLine { tl_Text : string; tl_HasNewline : bool }.

Inductive PatchError :=
  | ErrTooLong | ErrNoFile | ErrMissingHeaders | ErrHeader (line : string) | ErrHunkHeader (line : string) | ErrNumber (raw : string)
  | ErrStrayMarker | ErrEmptyLine | ErrHunkLine (line : string)
  | ErrCancelled | ErrOutOfRange | ErrContextMismatch | ErrRemoveMismatch | ErrKind (kind : ascii).

(** ** Reading *)

(** [bufio.ScanLines] without a final carriage return. *)
Definition drop_cr (s : string) : string :=
  match String.get (String.length s - 1) s with
  | Some a => if decide (a = ascii_of_nat 13) then String.substring 0 (String.length s - 1) s else s
  | None => s
  end.

(** The largest token of the scanner does not fit into its buffer. *)
Definition scan_limit : Z := 8 * 1024 * 1024.

Definition scanLines (input : string) : PatchError + list string :=
  let parts := SplitByte newline input in
  let parts := if decide (last parts = Some "") then take (length parts - 1) parts else parts in
  if existsb (fun s => bool_decide (scan_limit <= Z.of_nat (String.length s))%Z) parts then inl ErrTooLong else inr (drop_cr <$> parts).

Fixpoint before_tab (s : string) : string :=
  match s with
  | EmptyString => EmptyString
  | String a rest => if decide (a = ascii_of_nat 9) then EmptyString else String a (before_tab rest)
  end.

Definition parsePatchPath (line prefix : string) : PatchError + string :=
  if negb (HasPrefix line prefix) then inl (ErrHeader line)
  else let path := before_tab (TrimSpace (TrimPrefix line prefix)) in
       if decide (path = "/dev/null") then inr "" else inr path.

(** [(\d+)(?:,(\d+))?] of [hunkHeaderPattern] and what follows. *)
Definition header_range (s : string) : option (string * string * string) :=
  let '(start, rest) := split_digits s in
  if decide (start = "") then None
  else match rest with
       | String a rest' =>
         if decide (a = ","%char) then
           let '(count, rest'') := split_digits rest' in
           if decide (count = "") then None else Some (start, count, rest'')
         else Some (start, "", rest)
       | EmptyString => Some (start, "", rest)
       end.

(** The groups of [hunkHeaderPattern]. *)
Definition match_header (line : string) : option (string * string * string * string) :=
  if negb (HasPrefix line "@@ -") then None
  else
    p ← header_range (TrimPrefix line "@@ -");
    let '(oldStart, oldCount, rest) := p in
    if negb (HasPrefix rest " +") then None
    else
      q ← header_range (TrimPrefix rest " +");
      let '(newStart, newCount, rest) := q in
      if HasPrefix rest " @@" then Some (oldStart, oldCount, newStart, newCount) else None.

Definition parsePatchInt (raw : string) (fallback : Z) : PatchError + Z :=
  if decide (TrimSpace raw = "") then inr fallback
  else match ParseInt raw with Some z => inr z | None => inl (ErrNumber raw) end.

Definition no_newline_marker : string := "\ No newline at end of file".

Definition ends_hunk (line : string) : bool := HasPrefix line "@@ " || HasPrefix line "diff --git " || HasPrefix line "--- ".

Definition without_newline (l : patchLine) : patchLine := mkPatchLine (pl_Kind l) (pl_Text l) false.

(** The lines of a hunk, and the lines after it. *)
Fixpoint hunk_lines (lines : list string) (acc : list patchLine) : PatchError + (list patchLine * list string) :=
  match lines with
  | [] => inr (acc, [])
  | line :: rest =>
    if ends_hunk line then inr (acc, lines)
    else if decide (line = no_newline_marker) then
      if decide (acc = []) then inl ErrStrayMarker else hunk_lines rest (alter without_newline (length acc - 1) acc)
    else match line with
         | EmptyString => inl ErrEmptyLine
         | String kind text =>
           if decide (kind = kind_context \/ kind = kind_insert \/ kind = kind_delete)
           then hunk_lines rest (acc ++ [mkPatchLine kind text true]) else inl (ErrHunkLine line)
         end
  end.

Definition parsePatchHunk (line : string) (rest : list string) : PatchError + (patchHunk * list string) :=
  match match_header line with
  | None => inl (ErrHunkHeader line)
  | Some (oldStart, oldCount, newStart, newCount) =>
    match parsePatchInt oldStart 0, parsePatchInt oldCount 1, parsePatchInt newStart 0, parsePatchInt newCount 1 with
    | inl e, _, _, _ | inr _, inl e, _, _ | inr _, inr _, inl e, _ | inr _, inr _, inr _, inl e => inl e
    | inr a, inr b, inr c, inr d =>
      match hunk_lines rest [] with
      | inl e => inl e
      | inr (ls, rest) => inr (mkPatchHunk a b c d ls, rest)
      end
    end
  end.

(** The hunks of a file; [None] when the fuel is used up. *)
Fixpoint file_hunks (fuel : nat) (lines : list string) (acc : list patchHunk) : option (PatchError + (list patchHunk * list string)) :=
  match fuel with
  | O => None
  | S fuel =>
    match lines with
    | [] => Some (inr (acc, []))
    | line :: rest =>
      if HasPrefix line "@@ " then
        match parsePatchHunk line rest with
        | inl e => Some (inl e)
        | inr (h, rest) => file_hunks fuel rest (acc ++ [h])
        end
      else if HasPrefix line "diff --git " || HasPrefix line "--- " then Some (inr (acc, lines))
      else file_hunks fuel rest acc
    end
  end.

Definition parsePatchFile (lines : list string) : option (PatchError + (patchFile * list string)) :=
  match lines with
  | old :: new :: rest =>
    match parsePatchPath old "--- ", parsePatchPath new "+++ " with
    | inl e, _ | inr _, inl e => Some (inl e)
    | inr oldPath, inr newPath =>
      match file_hunks (S (length rest)) rest [] with
      | None => None
      | Some (inl e) => Some (inl e)
      | Some (inr (hunks, rest)) => Some (inr (mkPatchFile oldPath newPath hunks, rest))
      end
    end
  | _ => Some (inl ErrMissingHeaders)
  end.

Fixpoint patch_files (fuel : nat) (lines : list string) (acc : list patchFile) : option (PatchError + list patchFile) :=
  match fuel with
  | O => None
  | S fuel =>
    match lines with
    | [] => Some (inr acc)
    | line :: rest =>
      if HasPrefix line "diff --git " then patch_files fuel rest acc
      else if HasPrefix line "--- " then
        match parsePatchFile lines with
        | None => None
        | Some (inl e) => Some (inl e)
        | Some (inr (f, rest)) => patch_files fuel rest (acc ++ [f])
        end
      else patch_files fuel rest acc
    end
  end.

Definition parseUnifiedPatch (input : string) : option (PatchError + list patchFile) :=
  match scanLines input with
  | inl e => Some (inl e)
  | inr lines =>
    match patch_files (S (length lines)) lines [] with
    | Some (inr []) => Some (inl ErrNoFile)
    | r => r
    end
  end.

(** ** Texts *)

(** [strings.SplitAfter] at newlines, the lines marked with their newline. *)
Definition splitTextLines (content : string) : list textLine :=
  if decide (content = "") then []
  else let parts := SplitByte newline content in
       let tail := default "" (last parts) in
       ((fun s => mkTextLine s true) <$> take (length parts - 1) parts) ++ (if decide (tail = "") then [] else [mkTextLine tail false]).

Definition joinTextLines (lines : list textLine) : string :=
  String.concat "" ((fun l => if tl_HasNewline l then with_newline (tl_Text l) else tl_Text l) <$> lines).

(** ** Applying *)

Definition sameTextLine (f : textLine) (p : patchLine) : bool :=
  bool_decide (tl_Text f = pl_Text p /\ tl_HasNewline f = pl_HasNewline p).

(** The kind of a line in the direction of the patch. *)
Definition line_kind (reverse : bool) (kind : ascii) : ascii :=
  if reverse then if decide (kind = kind_insert) then kind_delete else if decide (kind = kind_delete) then kind_insert else kind else kind.

Fixpoint apply_lines (original : list textLine) (reverse : bool) (lines : list patchLine) (cursor : nat) (out : list textLine) :
    PatchError + (nat * list textLine) :=
  match lines with
  | [] => inr (cursor, out)
  | line :: rest =>
    let kind := line_kind reverse (pl_Kind line) in
    if decide (kind = kind_context) then
      match original !! cursor with
      | Some l => if sameTextLine l line then apply_lines original reverse rest (S cursor) (out ++ [l]) else inl ErrContextMismatch
      | None => inl ErrContextMismatch
      end
    else if decide (kind = kind_delete) then
      match original !! cursor with
      | Some l => if sameTextLine l line then apply_lines original reverse rest (S cursor) out else inl ErrRemoveMismatch
      | None => inl ErrRemoveMismatch
      end
    else if decide (kind = kind_insert) then apply_lines original reverse rest cursor (out ++ [mkTextLine (pl_Text line) (pl_HasNewline line)])
    else inl (ErrKind kind)
  end.

Section Apply.
(** Whether the context has ended, at its checks one after another. *)
Context (expired : nat -> bool).

Fixpoint apply_hunks (original : list textLine) (reverse : bool) (hunks : list patchHunk) (check : nat) (cursor : nat) (out : list textLine) :
    PatchError + list textLine :=
  match hunks with
  | [] => inr (out ++ drop cursor original)
  | h :: rest =>
    if expired check then inl ErrCancelled
    else
      let sourceStart := if reverse then ph_NewStart h else ph_OldStart h in
      let sourceIndex := if decide (sourceStart = 0)%Z then 0%Z else (sourceStart - 1)%Z in
      if decide (sourceIndex < Z.of_nat cursor \/ Z.of_nat (length original) < sourceIndex)%Z then inl ErrOutOfRange
      else
        let index := Z.to_nat sourceIndex in
        match apply_lines original reverse (ph_Lines h) index (out ++ take (index - cursor) (drop cursor original)) with
        | inl e => inl e
        | inr (cursor, out) => apply_hunks original reverse rest (S check) cursor out
        end
  end.

Definition applyPatchHunks (original : list textLine) (hunks : list patchHunk) (reverse : bool) : PatchError + list textLine :=
  apply_hunks original reverse hunks 0 0 [].
End Apply.

(** ** Hunks applied to lines *)

Definition to_patch (e : editEntry) : patchLine := mkPatchLine (ed_kind e) (ed_text e) true.
Definition to_hunk (h : diffHunk) : patchHunk :=
  mkPatchHunk (dh_oldStart h) (dh_oldCount h) (dh_newStart h) (dh_newCount h) (to_patch <$> dh_lines h).

(** Lines that all end with a newline. *)
Definition full (lines : list string) : list textLine := (fun s => mkTextLine s true) <$> lines.

(** The text that a patch is applied to and the one that it makes. *)
Definition source_side (reverse : bool) (es : list editEntry) : list string := if reverse then new_side es else old_side es.
Definition target_side (reverse : bool) (es : list editEntry) : list string := if reverse then old_side es else new_side es.

Lemma source_side_app r es fs : source_side r (es ++ fs) = source_side r es ++ source_side r fs.
Proof. destruct r; [apply new_side_app|apply old_side_app]. Qed.
Lemma target_side_app r es fs : target_side r (es ++ fs) = target_side r es ++ target_side r fs.
Proof. destruct r; [apply old_side_app|apply new_side_app]. Qed.

Lemma context_sides es : context_only es -> Forall edit_kind es /\ old_side es = new_side es.
Proof.
  induction 1 as [|[k s] es Hk _ [IH1 IH2]]; [done|]. cbn in Hk. subst k. split; [constructor; [by left|done]|].
  change (s :: old_side es = s :: new_side es). by rewrite IH2.
Qed.

Lemma side_counts es : Forall edit_kind es -> length (old_side es) = count_old es /\ length (new_side es) = count_new es.
Proof.
  induction 1 as [|[k s] es Hk _ [IH1 IH2]]; [done|]. destruct Hk as [Hk|[Hk|Hk]]; cbn in Hk; subst k.
  - change (S (length (old_side es)) = S (count_old es) /\ S (length (new_side es)) = S (count_new es)). by rewrite IH1, IH2.
  - change (S (length (old_side es)) = S (count_old es) /\ length (new_side es) = count_new es). by rewrite IH1, IH2.
  - change (length (old_side es) = count_old es /\ S (length (new_side es)) = S (count_new es)). by rewrite IH1, IH2.
Qed.

Lemma full_app l k : full (l ++ k) = full l ++ full k.
Proof. apply fmap_app. Qed.

Lemma length_full l : length (full l) = length l.
Proof. apply length_fmap. Qed.

(** An entry keeps a line, removes one or adds one. *)
Lemma entry_sides r k s es : edit_kind (mkEdit k s) ->
  let e := mkEdit k s in
  (line_kind r k = kind_context /\ source_side r (e :: es) = s :: source_side r es /\ target_side r (e :: es) = s :: target_side r es)
  \/ (line_kind r k = kind_delete /\ source_side r (e :: es) = s :: source_side r es /\ target_side r (e :: es) = target_side r es)
  \/ (line_kind r k = kind_insert /\ source_side r (e :: es) = source_side r es /\ target_side r (e :: es) = s :: target_side r es).
Proof.
  intros [Hk|[Hk|Hk]]; cbn in Hk; subst k; destruct r; cbv zeta.
  1, 2: left; done. 1, 4: right; right; done. all: right; left; done.
Qed.

Lemma apply_lines_spec original r es : forall pre post out,
  Forall edit_kind es -> original = pre ++ full (source_side r es) ++ post ->
  apply_lines original r (to_patch <$> es) (length pre) out
    = inr (length pre + length (source_side r es), out ++ full (target_side r es)).
Proof.
  induction es as [|[k s] es IH]; intros pre post out Hk Ho.
  { destruct r; cbn; by rewrite Nat.add_0_r, app_nil_r. }
  apply Forall_cons in Hk as [Hk Hes]. rewrite fmap_cons. cbn [apply_lines to_patch pl_Kind pl_Text pl_HasNewline ed_kind ed_text].
  assert (length (pre ++ [mkTextLine s true]) = S (length pre)) as Hl by (rewrite length_app; cbn; lia).
  assert (sameTextLine (mkTextLine s true) (to_patch (mkEdit k s)) = true) as Hsame by (by apply bool_decide_eq_true).
  destruct (entry_sides r k s es Hk) as [(-> & Hs & ->)|[(-> & Hs & ->)|(-> & Hs & ->)]]; rewrite Hs in *.
  - rewrite decide_True by done. rewrite Ho at 1. unfold full at 1. rewrite fmap_cons, <- app_comm_cons, list_lookup_middle by done.
    cbv beta iota. rewrite Hsame, <- Hl. rewrite (IH _ post); [|done|by rewrite Ho, <- app_assoc]. rewrite Hl. cbn [length]. do 2 f_equal; [lia|].
    by rewrite <- app_assoc.
  - rewrite decide_False, decide_True by done. rewrite Ho at 1. unfold full at 1. rewrite fmap_cons, <- app_comm_cons, list_lookup_middle by done.
    cbv beta iota. rewrite Hsame, <- Hl. rewrite (IH _ post); [|done|by rewrite Ho, <- app_assoc]. rewrite Hl. cbn [length]. do 2 f_equal. lia.
  - rewrite !decide_False by done. rewrite decide_True by done. rewrite (IH _ post) by done. do 2 f_equal. by rewrite <- app_assoc.
Qed.

Lemma covered_applies expired r es hunks : (forall i, expired i = false) -> forall o k,
  covered (S o) (S k) es hunks -> forall original pre check out,
  Forall edit_kind es -> original = pre ++ full (source_side r es) -> length pre = (if r then k else o) ->
  apply_hunks expired original r (to_hunk <$> hunks) check (length pre) out = inr (out ++ full (target_side r es)).
Proof.
  intros Hex o k Hc. remember (S o) as o' eqn:Eo. remember (S k) as k' eqn:Ek. revert o k Eo Ek.
  induction Hc as [o' k' es Hctx|o' k' gap lines rest hunks Hctx Hc IH]; intros o k -> -> original pre check out Hk Ho Hpre.
  - cbn. rewrite Ho, drop_app_length. destruct (context_sides _ Hctx) as [_ E]. by destruct r; cbn; rewrite E.
  - apply Forall_app in Hk as [Hkg Hk]. apply Forall_app in Hk as [Hkl Hkr]. cbn [fmap list_fmap apply_hunks]. rewrite Hex.
    set (h := mkDiffHunk _ _ _ _ _). set (start := if r then ph_NewStart (to_hunk h) else ph_OldStart (to_hunk h)).
    pose proof (side_counts _ Hkg) as [Hgo Hgn]. pose proof (side_counts _ Hkl) as [Hlo Hln].
    destruct (context_sides _ Hctx) as [_ Hside].
    assert (source_side r gap = target_side r gap) as Hgap by (by destruct r; cbn; rewrite Hside).
    assert (start = Z.of_nat (S (length pre + length (source_side r gap)))) as -> by (subst start h; destruct r; cbn; lia).
    rewrite !(decide_False (P := Z.of_nat (S _) = 0%Z)) by lia. rewrite !source_side_app in Ho. rewrite !full_app in Ho.
    assert (length original = length pre + length (source_side r gap) + length (source_side r lines) + length (source_side r rest)) as Hlen.
    { rewrite Ho, !length_app, !length_full. lia. }
    rewrite decide_False by lia.
    replace (Z.to_nat (Z.of_nat (S (length pre + length (source_side r gap))) - 1)) with (length (pre ++ full (source_side r gap)))
      by (rewrite length_app, length_full; lia).
    rewrite Ho at 2. rewrite drop_app_length.
    replace (length (pre ++ full (source_side r gap)) - length pre) with (length (full (source_side r gap))) by (rewrite length_app; lia).
    rewrite take_app_length. change (ph_Lines (to_hunk _)) with (to_patch <$> lines).
    rewrite (apply_lines_spec _ _ _ _ (full (source_side r rest))); [|done|by rewrite Ho, <- !app_assoc].
    replace (length (pre ++ full (source_side r gap)) + length (source_side r lines))
      with (length (pre ++ full (source_side r gap) ++ full (source_side r lines))) by (rewrite !length_app, !length_full; lia).
    rewrite (IH (o + count_old (gap ++ lines)) (k + count_new (gap ++ lines))); [|done|done|done|by rewrite Ho, <- !app_assoc|].
    + by rewrite !target_side_app, !full_app, Hgap, <- !app_assoc.
    + rewrite !length_app, !length_full, count_old_app, count_new_app. destruct r; cbn in *; lia.
Qed.

(** The hunks of two texts, at the level of lines. *)
Lemma hunks_apply expired old new es c :
  (forall i, expired i = false) -> edits_of old new es ->
  applyPatchHunks expired (full old) (to_hunk <$> groupHunks es c) false = inr (full new)
  /\ applyPatchHunks expired (full new) (to_hunk <$> groupHunks es c) true = inr (full old).
Proof.
  intros Hex (Hk & <- & <-). pose proof (groupHunks_covered es c) as Hc.
  split; [apply (covered_applies expired false es _ Hex 0 0 Hc _ [] 0 [])|apply (covered_applies expired true es _ Hex 0 0 Hc _ [] 0 [])]; done.
Qed.

(** ** Texts of lines *)

Definition text_of (lines : list string) : string := String.concat "" (with_newline <$> lines).

Lemma text_of_cons l rest : text_of (l :: rest) = with_newline l +:+ text_of rest.
Proof. unfold text_of. rewrite fmap_cons. apply concat_cons. Qed.

Lemma text_of_app l k : text_of (l ++ k) = text_of l +:+ text_of k.
Proof.
  induction l as [|s l IH]; [done|]. rewrite <- app_comm_cons, !text_of_cons, IH. by rewrite string_app_assoc.
Qed.

Lemma with_newline_app s t : with_newline s +:+ t = s +:+ String newline t.
Proof. unfold with_newline. by rewrite string_app_assoc. Qed.

Lemma split_text_of lines : Forall (lacks newline) lines -> SplitByte newline (text_of lines) = lines ++ [""].
Proof.
  induction 1 as [|s lines Hs _ IH]; [done|]. rewrite text_of_cons, with_newline_app, SplitByte_app by done. by rewrite IH.
Qed.

Lemma text_of_empty lines : text_of lines = "" -> lines = [].
Proof. destruct lines as [|s lines]; [done|]. rewrite text_of_cons, with_newline_app. by destruct s. Qed.

Lemma splitLines_text_of lines : Forall (lacks newline) lines -> splitLines (text_of lines) = lines.
Proof.
  intros Hl. unfold splitLines. case_decide as He; [by apply text_of_empty in He as ->|]. rewrite split_text_of by done.
  rewrite last_snoc, decide_True by done. rewrite length_app. cbn [length]. replace (length lines + 1 - 1) with (length lines) by lia. apply take_app_length.
Qed.

Lemma splitTextLines_text_of lines : Forall (lacks newline) lines -> splitTextLines (text_of lines) = full lines.
Proof.
  intros Hl. unfold splitTextLines. case_decide as He; [by apply text_of_empty in He as ->|]. rewrite split_text_of by done.
  rewrite last_snoc. cbn [default]. rewrite decide_True by done. rewrite length_app, app_nil_r. cbn [length].
  replace (length lines + 1 - 1) with (length lines) by lia. by rewrite take_app_length.
Qed.

Lemma joinTextLines_full lines : joinTextLines (full lines) = text_of lines.
Proof. unfold joinTextLines, text_of, full. rewrite <- list_fmap_compose. done. Qed.

(** ** Reading back *)

Definition starts_no_digit (s : string) : Prop := match s with String a _ => byte_in 48 57 a = false | EmptyString => True end.

Lemma split_digits_cons c s x r : byte_in 48 57 c = true -> split_digits s = (x, r) -> split_digits (String c s) = (String c x, r).
Proof. intros Hc E. cbn [split_digits]. by rewrite Hc, E. Qed.

Lemma split_digits_uint u rest : starts_no_digit rest -> split_digits (NilEmpty.string_of_uint u +:+ rest) = (NilEmpty.string_of_uint u, rest).
Proof.
  intros Hr. induction u as [|u IH|u IH|u IH|u IH|u IH|u IH|u IH|u IH|u IH|u IH]; [|by apply split_digits_cons..].
  destruct rest as [|a rest]; [done|]. change (split_digits (String a rest) = ("", String a rest)). cbn [split_digits].
  cbn [starts_no_digit] in Hr. by rewrite Hr.
Qed.

Lemma FormatInt_nat (k : nat) : FormatInt (Z.of_nat k) = NilEmpty.string_of_uint (N.to_uint (N.of_nat k)).
Proof. unfold FormatInt, decimal. rewrite decide_False by lia. do 2 f_equal. lia. Qed.

Lemma FormatInt_digit k : exists a rest, FormatInt (Z.of_nat k) = String a rest /\ byte_in 48 57 a = true.
Proof. rewrite FormatInt_nat. apply (decimal_shape (N.of_nat k)). Qed.

Lemma header_range_pair a b rest : starts_no_digit rest ->
  header_range (FormatInt (Z.of_nat a) +:+ "," +:+ FormatInt (Z.of_nat b) +:+ rest) = Some (FormatInt (Z.of_nat a), FormatInt (Z.of_nat b), rest).
Proof.
  intros Hr. unfold header_range. rewrite FormatInt_nat, split_digits_uint by done. rewrite <- FormatInt_nat.
  destruct (FormatInt_digit a) as (x & r & -> & _). rewrite decide_False by done.
  change ("," +:+ FormatInt (Z.of_nat b) +:+ rest) with (String ","%char (FormatInt (Z.of_nat b) +:+ rest)). cbv iota. rewrite decide_True by done.
  rewrite (FormatInt_nat b), split_digits_uint by done. rewrite <- FormatInt_nat. destruct (FormatInt_digit b) as (y & r' & -> & _).
  by rewrite decide_False.
Qed.

(** A hunk whose numbers are natural numbers. *)
Definition hunk_of (os oc ns nc : nat) (lines : list editEntry) : diffHunk :=
  mkDiffHunk (Z.of_nat os) (Z.of_nat oc) (Z.of_nat ns) (Z.of_nat nc) lines.

Lemma match_hunk_header os oc ns nc lines :
  match_header (hunk_header (hunk_of os oc ns nc lines))
    = Some (FormatInt (Z.of_nat os), FormatInt (Z.of_nat oc), FormatInt (Z.of_nat ns), FormatInt (Z.of_nat nc)).
Proof.
  unfold match_header, hunk_header, hunk_of. cbn [dh_oldStart dh_oldCount dh_newStart dh_newCount].
  rewrite HasPrefix_app, TrimPrefix_app. cbn [negb]. rewrite header_range_pair by done. cbn [mbind option_bind].
  rewrite HasPrefix_app, TrimPrefix_app. cbn [negb]. rewrite header_range_pair by done. done.
Qed.

Lemma parsePatchInt_FormatInt k d : (Z.of_nat k <= max_int64)%Z -> parsePatchInt (FormatInt (Z.of_nat k)) d = inr (Z.of_nat k).
Proof.
  intros Hk. unfold parsePatchInt. rewrite decide_False.
  - rewrite ParseInt_FormatInt; [done|]. unfold in_int64, min_int64. lia.
  - destruct (FormatInt_digit k) as (a & rest & -> & Ha). apply (TrimSpace_keeps a); [|by left].
    apply byte_in_spec in Ha. apply byte_in_spec. lia.
Qed.

(** ** The lines of a unified text *)

Definition hunk_text (h : diffHunk) : list string := hunk_header h :: (edit_line <$> dh_lines h).

Definition unified_lines (oldName newName : string) (hunks : list diffHunk) : list string :=
  ("--- " +:+ oldName) :: ("+++ " +:+ newName) :: (hunks ≫= hunk_text).

Lemma formatUnified_lines oldName newName hunks : formatUnified oldName newName hunks = text_of (unified_lines oldName newName hunks).
Proof.
  unfold formatUnified, unified_lines. rewrite !text_of_cons. do 2 f_equal. induction hunks as [|h hunks IH]; [done|].
  rewrite fmap_cons, concat_cons. change ((h :: hunks) ≫= hunk_text) with (hunk_text h ++ (hunks ≫= hunk_text)).
  rewrite text_of_app. unfold hunk_text at 1. rewrite text_of_cons. unfold text_of at 1. rewrite <- list_fmap_compose.
  f_equal. exact IH.
Qed.

(** A line that the scanner returns as it is. *)
Definition scan_ok (s : string) : Prop := lacks newline s /\ drop_cr s = s /\ (Z.of_nat (String.length s) < scan_limit)%Z.

Lemma scanLines_text_of lines : Forall scan_ok lines -> scanLines (text_of lines) = inr lines.
Proof.
  intros Hl. unfold scanLines. rewrite split_text_of by (eapply Forall_impl; [exact Hl|by intros ? [? _]]).
  rewrite last_snoc, decide_True by done. rewrite length_app. cbn [length]. replace (length lines + 1 - 1) with (length lines) by lia.
  rewrite take_app_length. assert (existsb (fun s => bool_decide (scan_limit <= Z.of_nat (String.length s))%Z) lines = false) as ->.
  { apply not_true_iff_false. rewrite existsb_exists. intros (s & Hs%list_elem_of_In & Hlim%bool_decide_eq_true).
    rewrite Forall_forall in Hl. destruct (Hl s Hs) as (_ & _ & ?). lia. }
  f_equal. induction Hl as [|s lines (_ & Hs & _) _ IH]; [done|]. by rewrite fmap_cons, Hs, IH.
Qed.

(** An entry that its hunk can hold: a removed line must not look like the header
    of a file. *)
Definition entry_ok (e : editEntry) : Prop := edit_kind e /\ (ed_kind e = kind_delete -> HasPrefix (ed_text e) "-- " = false).

Definition hunks_end (rest : list string) : Prop := match rest with [] => True | line :: _ => ends_hunk line = true end.

Lemma ends_hunk_entry e : entry_ok e -> ends_hunk (edit_line e) = false /\ edit_line e <> no_newline_marker.
Proof.
  destruct e as [k s]. intros [[Hk|[Hk|Hk]] Hd]; cbn in Hk, Hd; subst k; (split; [|done]); [done| |done].
  specialize (Hd eq_refl). unfold HasPrefix in Hd.
  change (String.prefix "-- " s = false) in Hd. unfold ends_hunk, HasPrefix, edit_line. cbn [ed_kind ed_text].
  change (String.prefix "--- " (String kind_delete s)) with (String.prefix "-- " s). by rewrite Hd.
Qed.

Lemma hunk_lines_entries es rest : Forall entry_ok es -> hunks_end rest -> forall acc,
  hunk_lines ((edit_line <$> es) ++ rest) acc = inr (acc ++ (to_patch <$> es), rest).
Proof.
  intros Hes Hr. induction Hes as [|e es He _ IH]; intros acc.
  - cbn [fmap list_fmap app]. rewrite app_nil_r. destruct rest as [|line rest]; [done|]. cbn [hunk_lines]. cbn in Hr. by rewrite Hr.
  - rewrite fmap_cons, <- app_comm_cons. destruct (ends_hunk_entry e He) as [H1 H2]. cbn [hunk_lines]. rewrite H1, decide_False by done.
    unfold edit_line at 1. rewrite decide_True by (destruct He as [[?|[?|?]] _]; auto). rewrite IH. by rewrite <- app_assoc.
Qed.

(** A hunk that can be read back. *)
Definition hunk_ok (h : diffHunk) : Prop :=
  (exists os oc ns nc, h = hunk_of os oc ns nc (dh_lines h)
     /\ (Z.of_nat os <= max_int64 /\ Z.of_nat oc <= max_int64 /\ Z.of_nat ns <= max_int64 /\ Z.of_nat nc <= max_int64)%Z)
  /\ Forall entry_ok (dh_lines h).

Lemma parse_hunk h rest : hunk_ok h -> hunks_end rest -> parsePatchHunk (hunk_header h) ((edit_line <$> dh_lines h) ++ rest) = inr (to_hunk h, rest).
Proof.
  intros [(os & oc & ns & nc & E & ? & ? & ? & ?) Hes] Hr. unfold parsePatchHunk. rewrite hunk_lines_entries by done.
  rewrite E, match_hunk_header, !parsePatchInt_FormatInt by done. done.
Qed.

Lemma header_prefix h : HasPrefix (hunk_header h) "@@ " = true.
Proof. unfold hunk_header. apply HasPrefix_spec. eexists ("-" +:+ _). reflexivity. Qed.

Lemma file_hunks_read hunks : Forall hunk_ok hunks -> forall fuel acc, length (hunks ≫= hunk_text) < fuel ->
  file_hunks fuel (hunks ≫= hunk_text) acc = Some (inr (acc ++ (to_hunk <$> hunks), [])).
Proof.
  induction 1 as [|h hunks Hh _ IH]; intros [|fuel] acc Hf; [cbn in Hf; lia|cbn; by rewrite app_nil_r|lia|].
  change ((h :: hunks) ≫= hunk_text) with (hunk_header h :: (edit_line <$> dh_lines h) ++ (hunks ≫= hunk_text)) in *. cbn [file_hunks].
  rewrite header_prefix, parse_hunk; [|done|].
  - rewrite IH; [by rewrite <- app_assoc|]. cbn in Hf. rewrite length_app in Hf. lia.
  - destruct hunks as [|h' hunks]; [done|]. cbn. unfold ends_hunk. by rewrite header_prefix.
Qed.

(** The name of a file that a header keeps. *)
Definition name_ok (s : string) : Prop := s <> "/dev/null" /\ Trimmed s /\ before_tab s = s.

Lemma parsePatchPath_ok p s : name_ok s -> parsePatchPath (p +:+ s) p = inr s.
Proof. intros (H1 & H2 & H3). unfold parsePatchPath. rewrite HasPrefix_app, TrimPrefix_app, H2, H3. cbn [negb]. by rewrite decide_False. Qed.

Lemma parse_unified oldName newName hunks :
  name_ok oldName -> name_ok newName -> Forall hunk_ok hunks -> Forall scan_ok (unified_lines oldName newName hunks) ->
  parseUnifiedPatch (formatUnified oldName newName hunks) = Some (inr [mkPatchFile oldName newName (to_hunk <$> hunks)]).
Proof.
  intros Ho Hn Hh Hs. unfold parseUnifiedPatch. rewrite formatUnified_lines, scanLines_text_of by done.
  unfold unified_lines. cbn [length patch_files]. change (HasPrefix ("--- " +:+ oldName) "diff --git ") with false.
  rewrite HasPrefix_app. unfold parsePatchFile. rewrite !parsePatchPath_ok by done. rewrite file_hunks_read by (done || lia). done.
Qed.

(** ** Lines that survive the scanner *)

Lemma drop_cr_keeps s : String.get (String.length s - 1) s <> Some (ascii_of_nat 13) -> drop_cr s = s.
Proof. intros H. unfold drop_cr. destruct (String.get _ s) as [a|] eqn:E; [|done]. by rewrite decide_False by congruence. Qed.

Lemma drop_cr_last s : s <> "" -> drop_cr s = s -> String.get (String.length s - 1) s <> Some (ascii_of_nat 13).
Proof.
  intros Hs H E. unfold drop_cr in H. rewrite E, decide_True in H by done.
  pose proof (substring_length_le (String.length s - 1) s) as Hl. rewrite H in Hl. destruct s; [done|]. cbn in Hl. lia.
Qed.

Lemma drop_cr_app p t : t <> "" -> drop_cr t = t -> drop_cr (p +:+ t) = p +:+ t.
Proof.
  intros Ht H. apply drop_cr_keeps. rewrite string_length_app.
  replace (String.length p + String.length t - 1) with (String.length t - 1 + String.length p) by (destruct t; [done|]; cbn; lia).
  change (p +:+ t) with (String.append p t). rewrite <- String.append_correct2. by apply drop_cr_last.
Qed.

Lemma drop_cr_tail p t : t <> "" /\ drop_cr t = t -> p +:+ t <> "" /\ drop_cr (p +:+ t) = p +:+ t.
Proof. intros [Ht H]. split; [by destruct p, t|by apply drop_cr_app]. Qed.

(** A line of a text that can be compared and patched. *)
Definition line_ok (s : string) : Prop := lacks newline s /\ drop_cr s = s /\ (Z.of_nat (String.length s) + 4 < scan_limit)%Z.

Lemma scan_ok_prefixed p s : line_ok s -> lacks newline p -> drop_cr p = p -> p <> "" -> String.length p <= 4 -> scan_ok (p +:+ s).
Proof.
  intros (H1 & H2 & H3) Hp Hc Hne Hl. split_and!; [by apply lacks_app| |rewrite string_length_app; lia].
  destruct (decide (s = "")) as [->|]; [|by apply drop_cr_app].
  assert (p +:+ "" = p) as -> by (clear; induction p as [|a p IH]; [done|]; change (String a (p +:+ "") = String a p); by rewrite IH). done.
Qed.

Lemma scan_ok_edit e : edit_kind e -> line_ok (ed_text e) -> scan_ok (edit_line e).
Proof.
  intros Hk Hl. change (edit_line e) with (String (ed_kind e) "" +:+ ed_text e).
  assert (ed_kind e <> newline /\ ed_kind e <> ascii_of_nat 13) as [H1 H2] by (by destruct Hk as [-> | [-> | ->]]).
  apply scan_ok_prefixed; [done| |apply drop_cr_keeps; cbn; congruence|done|cbn; lia].
  intros [E|[]]. congruence.
Qed.

Lemma uint_lacks u : lacks newline (NilEmpty.string_of_uint u).
Proof.
  unfold lacks. induction u as [|u IH|u IH|u IH|u IH|u IH|u IH|u IH|u IH|u IH|u IH]; [by intros []|..]; (intros [E|E]; [by vm_compute in E|by apply IH]).
Qed.

Lemma number_scan k : (Z.of_nat k <= max_int64)%Z -> lacks newline (FormatInt (Z.of_nat k)) /\ String.length (FormatInt (Z.of_nat k)) <= 64.
Proof.
  intros Hk. rewrite FormatInt_nat. split; [apply uint_lacks|]. apply (decimal_length (N.of_nat k)). unfold max_int64 in Hk. lia.
Qed.

Lemma scan_ok_header h : hunk_ok h -> scan_ok (hunk_header h).
Proof.
  intros [(os & oc & ns & nc & -> & H1 & H2 & H3 & H4) _]. unfold hunk_header, hunk_of. cbn [dh_oldStart dh_oldCount dh_newStart dh_newCount].
  destruct (number_scan _ H1) as [L1 N1], (number_scan _ H2) as [L2 N2], (number_scan _ H3) as [L3 N3], (number_scan _ H4) as [L4 N4].
  split_and!.
  - rewrite !lacks_app. split_and!; try done; apply (bool_decide_unpack _); vm_compute; done.
  - apply (drop_cr_tail "@@ -"), drop_cr_tail, drop_cr_tail, drop_cr_tail, drop_cr_tail, drop_cr_tail, drop_cr_tail, drop_cr_tail. done.
  - rewrite !string_length_app. cbn [String.length]. unfold scan_limit. lia.
Qed.

(** ** The hunks of two texts *)

Lemma covered_entries o k es hunks : covered o k es hunks -> Forall entry_ok es ->
  (Z.of_nat (o + count_old es) <= max_int64)%Z -> (Z.of_nat (k + count_new es) <= max_int64)%Z ->
  Forall (fun h => hunk_ok h /\ incl (dh_lines h) es) hunks.
Proof.
  induction 1 as [|o k gap lines rest hunks Hctx Hc IH]; intros Hes Ho Hk; [done|].
  rewrite !count_old_app in *. rewrite !count_new_app in *. apply Forall_app in Hes as [Hg Hes]. apply Forall_app in Hes as [Hl Hr].
  constructor.
  - split; [split; [|done]|].
    + exists (o + count_old gap), (count_old lines), (k + count_new gap), (count_new lines). split; [done|]. lia.
    + intros e He. apply in_or_app. right. apply in_or_app. by left.
  - eapply Forall_impl; [apply IH; [done|lia|lia]|]. intros h [? Hi]. split; [done|]. intros e He.
    apply in_or_app. right. apply in_or_app. right. by apply Hi.
Qed.

Lemma groupHunks_some old new es c : edits_of old new es -> old <> new -> groupHunks es c <> [].
Proof.
  intros (_ & <- & <-) Hne E. pose proof (groupHunks_covered es c) as Hc. rewrite E in Hc. inversion Hc as [? ? ? Hctx|]; subst.
  by destruct (context_sides _ Hctx).
Qed.

Lemma entry_sides_elem e es : edit_kind e -> In e es -> (ed_kind e = kind_insert \/ In (ed_text e) (old_side es)) /\ (ed_kind e = kind_delete \/ In (ed_text e) (new_side es)).
Proof.
  intros _ He. apply list_elem_of_In in He. split.
  - destruct (decide (ed_kind e = kind_insert)); [by left|right]. apply list_elem_of_In. unfold old_side. apply list_elem_of_fmap. exists e.
    split; [done|]. by apply list_elem_of_filter.
  - destruct (decide (ed_kind e = kind_delete)); [by left|right]. apply list_elem_of_In. unfold new_side. apply list_elem_of_fmap. exists e.
    split; [done|]. by apply list_elem_of_filter.
Qed.

(** Reading a patch always returns: every step takes at least a line. *)
Lemma hunk_lines_rest lines : forall acc ls rest, hunk_lines lines acc = inr (ls, rest) -> length rest <= length lines.
Proof.
  induction lines as [|line lines IH]; intros acc ls rest; cbn [hunk_lines]; [by intros [= _ <-]|].
  destruct (ends_hunk line); [by intros [= _ <-]|]. case_decide.
  - case_decide; [done|]. intros ?%IH. cbn [length]. lia.
  - destruct line as [|kind text]; [done|]. case_decide; [|done]. intros ?%IH. cbn [length]. lia.
Qed.

Lemma file_hunks_returns fuel : forall lines acc, length lines < fuel ->
  exists r, file_hunks fuel lines acc = Some r /\ forall hs rest, r = inr (hs, rest) -> length rest <= length lines.
Proof.
  induction fuel as [|fuel IH]; intros lines acc Hl; [lia|]. cbn [file_hunks]. destruct lines as [|line lines].
  { eexists. split; [done|]. by intros hs rest [= _ <-]. }
  cbn [length] in *. destruct (HasPrefix line "@@ ").
  - destruct (parsePatchHunk line lines) as [e|[h rest]] eqn:E; [by exists (inl e)|].
    assert (length rest <= length lines) as Hr.
    { unfold parsePatchHunk in E. destruct (match_header line) as [[[[? ?] ?] ?]|]; [|done]. repeat (destruct (parsePatchInt _ _); [done|]).
      destruct (hunk_lines lines []) as [|[ls rest']] eqn:Eh; [done|]. injection E as _ <-. by eapply hunk_lines_rest. }
    destruct (IH rest (acc ++ [h])) as (r & -> & H); [lia|]. exists r. split; [done|]. intros hs rest' ->. specialize (H _ _ eq_refl). lia.
  - destruct (_ || _); [eexists; split; [done|]; by intros hs rest [= _ <-]|].
    destruct (IH lines acc) as (r & -> & H); [lia|]. exists r. split; [done|]. intros hs rest' ->. specialize (H _ _ eq_refl). lia.
Qed.

Lemma patch_files_returns fuel : forall lines acc, length lines < fuel -> is_Some (patch_files fuel lines acc).
Proof.
  induction fuel as [|fuel IH]; intros lines acc Hl; [lia|]. cbn [patch_files]. destruct lines as [|line lines]; [by eexists|]. cbn [length] in *.
  destruct (HasPrefix line "diff --git "); [apply IH; lia|]. destruct (HasPrefix line "--- "); [|apply IH; lia].
  unfold parsePatchFile. destruct lines as [|new rest]; [by eexists|]. cbn [length] in *.
  destruct (parsePatchPath line "--- "); [by eexists|]. destruct (parsePatchPath new "+++ "); [by eexists|].
  destruct (file_hunks_returns (S (length rest)) rest []) as (r & -> & H); [lia|]. destruct r as [e|[hs rest']]; [by eexists|].
  apply IH. specialize (H _ _ eq_refl). lia.
Qed.

Lemma parseUnifiedPatch_returns input : is_Some (parseUnifiedPatch input).
Proof.
  unfold parseUnifiedPatch. destruct (scanLines input) as [e|lines]; [by eexists|].
  destruct (patch_files_returns (S (length lines)) lines [] ltac:(lia)) as [[e|[|f fs]] ->]; by eexists.
Qed.

(** C33: a difference can be applied: for two texts whose lines all end with a newline,
    the text that [computeDiff] makes is read by [parseUnifiedPatch] as a patch of
    one file, and its hunks turn the old text into the new one and, in reverse, the
    new one into the old one.  Assumed: the names of the files are trimmed and
    without tabs, and not the null device; names and lines have no newline, do not
    end with a carriage return and are below the eight megabytes of the scanner; no
    removed line starts with two dashes and a space. *)
Theorem diff_patch_roundtrip expired oldName newName old new :
  (forall i, expired i = false) -> name_ok oldName -> name_ok newName -> line_ok oldName -> line_ok newName ->
  Forall line_ok (old ++ new) -> Forall (fun s => HasPrefix s "-- " = false) old -> old <> new ->
  (Z.of_nat (length old + length new) < max_int64)%Z ->
  exists diff hunks forward backward,
    computeDiff oldName newName (text_of old) (text_of new) = Some diff
    /\ parseUnifiedPatch diff = Some (inr [mkPatchFile oldName newName hunks])
    /\ applyPatchHunks expired (splitTextLines (text_of old)) hunks false = inr forward /\ joinTextLines forward = text_of new
    /\ applyPatchHunks expired (splitTextLines (text_of new)) hunks true = inr backward /\ joinTextLines backward = text_of old.
Proof.
  intros Hex Ha Hb Hla Hlb Hlines Hdash Hne Hbound. apply Forall_app in Hlines as [Ho Hn].
  assert (Forall (lacks newline) old) as Hol by (eapply Forall_impl; [exact Ho|by intros ? [? _]]).
  assert (Forall (lacks newline) new) as Hnl by (eapply Forall_impl; [exact Hn|by intros ? [? _]]).
  destruct (diffLines_exists old new) as (es & Hdiff & He). pose proof He as (Hk & Hold & Hnew).
  assert (Forall entry_ok es) as Hes.
  { apply Forall_forall. intros e Hin. rewrite Forall_forall in Hk. split; [by apply Hk|]. intros Hd.
    destruct (entry_sides_elem e es) as [[Hi|Hi] _]; [by apply Hk|by apply list_elem_of_In|by rewrite Hi in Hd|].
    rewrite Hold in Hi. apply list_elem_of_In in Hi. by eapply Forall_forall in Hdash. }
  assert (forall e, In e es -> line_ok (ed_text e)) as Htext.
  { intros e Hin. pose proof Hk as Hk'. rewrite Forall_forall in Hk'. specialize (Hk' e ltac:(by apply list_elem_of_In)).
    destruct (entry_sides_elem e es Hk' Hin) as [[Hi|Hi] [Hj|Hj]]; [by rewrite Hi in Hj|..]; apply list_elem_of_In in Hj || apply list_elem_of_In in Hi.
    - rewrite Hnew in Hj. by eapply Forall_forall in Hn.
    - rewrite Hold in Hi. by eapply Forall_forall in Ho.
    - rewrite Hnew in Hj. by eapply Forall_forall in Hn. }
  pose proof (side_counts es Hk) as [Hco Hcn]. rewrite Hold in Hco. rewrite Hnew in Hcn.
  assert (Forall (fun h => hunk_ok h /\ incl (dh_lines h) es) (groupHunks es 3)) as Hh.
  { apply (covered_entries 1 1 es); [apply groupHunks_covered|done|lia|lia]. }
  pose proof (groupHunks_some old new es 3 He Hne) as Hsome.
  exists (formatUnified oldName newName (groupHunks es 3)), (to_hunk <$> groupHunks es 3), (full new), (full old).
  rewrite !splitTextLines_text_of, !joinTextLines_full by done. destruct (hunks_apply expired old new es 3 Hex He) as [Hf Hr].
  split_and!; [| |done..].
  - unfold computeDiff. rewrite decide_False.
    + rewrite !splitLines_text_of, Hdiff by done. cbn [mbind option_bind]. destruct es as [|e es]; [by destruct Hne; rewrite <- Hold, <- Hnew|].
      by destruct (groupHunks (e :: es) 3).
    + intros E. apply Hne. rewrite <- (splitLines_text_of old), <- (splitLines_text_of new) by done. by rewrite E.
  - apply parse_unified; [done..| |].
    + eapply Forall_impl; [exact Hh|by intros ? [? _]].
    + unfold unified_lines. constructor; [|constructor]; [apply scan_ok_prefixed; [done|by apply (bool_decide_unpack _)|done|done|cbn; lia]..|].
      apply Forall_bind. eapply Forall_impl; [exact Hh|]. intros h [Hok Hin]. constructor; [by apply scan_ok_header|].
      apply Forall_fmap, Forall_forall. intros e Hel. apply list_elem_of_In, Hin in Hel. cbn.
      apply scan_ok_edit; [|by apply Htext]. rewrite Forall_forall in Hk. by apply Hk, list_elem_of_In.
Qed.

(** ** Examples *)

Module PatchExamples.
Definition never (i : nat) : bool := false.
Definition old_lines : list string := ["select"; "from t"; "where x"; "order by y"].
Definition new_lines : list string := ["select distinct"; "from t"; "order by y"; "limit 1"].

Example diff_text : computeDiff "a/q" "b/q" (text_of old_lines) (text_of new_lines)
  = Some (text_of ["--- a/q"; "+++ b/q"; "@@ -1,4 +1,4 @@"; "-select"; "+select distinct"; " from t"; "-where x"; " order by y"; "+limit 1"]).
Proof. vm_compute. reflexivity. Qed.

Lemma demo_line_ok s : bool_decide (lacks newline s) && bool_decide (drop_cr s = s) && (Z.of_nat (String.length s) + 4 <? scan_limit)%Z = true -> line_ok s.
Proof. intros [[H1%bool_decide_eq_true H2%bool_decide_eq_true]%andb_true_iff H3%Z.ltb_lt]%andb_true_iff. done. Qed.

Lemma diff_patch_roundtrip_witness :
  exists diff hunks forward backward,
    computeDiff "a/q" "b/q" (text_of old_lines) (text_of new_lines) = Some diff
    /\ parseUnifiedPatch diff = Some (inr [mkPatchFile "a/q" "b/q" hunks])
    /\ applyPatchHunks never (splitTextLines (text_of old_lines)) hunks false = inr forward /\ joinTextLines forward = text_of new_lines
    /\ applyPatchHunks never (splitTextLines (text_of new_lines)) hunks true = inr backward /\ joinTextLines backward = text_of old_lines.
Proof.
  apply (diff_patch_roundtrip never "a/q" "b/q" old_lines new_lines).
  - done.
  - split_and!; [done|vm_compute; reflexivity..].
  - split_and!; [done|vm_compute; reflexivity..].
  - apply demo_line_ok. vm_compute. reflexivity.
  - apply demo_line_ok. vm_compute. reflexivity.
  - repeat (apply Forall_cons; split; [apply demo_line_ok; vm_compute; reflexivity|]). apply Forall_nil. exact I.
  - repeat (apply Forall_cons; split; [vm_compute; reflexivity|]). apply Forall_nil. exact I.
  - done.
  - vm_compute. reflexivity.
Defined.
End PatchExamples.

(** A removed line that starts with two dashes and a space, a comment of SQL or Lua,
    reads as the header of another file: the tool cannot apply its own
    difference. *)
Lemma removed_comment_unreadable :
  let diff := text_of ["--- a"; "+++ b"; "@@ -1,2 +1,1 @@"; "--- note"; " select"] in
  computeDiff "a" "b" (text_of ["-- note"; "select"]) (text_of ["select"]) = Some diff
  /\ parseUnifiedPatch diff = Some (inl (ErrHeader " select")).
Proof. split; vm_compute; reflexivity. Qed.

(** The scanner drops the carriage returns of the patch but not those of the file. *)
Lemma crlf_patch_refused :
  let cr s := s +:+ String (ascii_of_nat 13) "" in
  let diff := text_of ["--- a"; "+++ b"; "@@ -1,1 +1,1 @@"; cr "-x"; cr "+y"] in
  let hunks := [mkPatchHunk 1 1 1 1 [mkPatchLine kind_delete "x" true; mkPatchLine kind_insert "y" true]] in
  computeDiff "a" "b" (text_of [cr "x"]) (text_of [cr "y"]) = Some diff
  /\ parseUnifiedPatch diff = Some (inr [mkPatchFile "a" "b" hunks])
  /\ applyPatchHunks PatchExamples.never (splitTextLines (text_of [cr "x"])) hunks false = inl ErrRemoveMismatch.
Proof. split_and!; vm_compute; reflexivity. Qed.

(** Texts that differ in the final newline only have no difference. *)
Lemma final_newline_ignored : computeDiff "a" "b" "x" (with_newline "x") = Some "".
Proof. vm_compute. reflexivity. Qed.

(** A hunk without old lines, as [diff -U0] makes it, stands after the line of its
    header; it is inserted before that line. *)
Lemma zero_context_misplaced :
  let hunks := [mkPatchHunk 2 0 3 1 [mkPatchLine kind_insert "new" true]] in
  parseUnifiedPatch (text_of ["--- a"; "+++ b"; "@@ -2,0 +3,1 @@"; "+new"]) = Some (inr [mkPatchFile "a" "b" hunks])
  /\ applyPatchHunks PatchExamples.never (full ["one"; "two"; "three"]) hunks false = inr (full ["one"; "new"; "two"; "three"]).
Proof. split; vm_compute; reflexivity. Qed.
